(* ===== verification/_CoqProject ===== *)
-Q . S2P
Prelude.v
Names.v
GroupSort.v
GroupSortProps.v
GoFloat.v
GoText.v
ExprLex.v
ExprValue.v
ExprParse.v
ExprEval.v
ExprParseProps.v
ExprValueProps.v
Bridge.v
BridgeProps.v
BridgeTun.v
BridgeIos.v
Netip.v
Ranges.v
Wildcard.v
Metadata.v
Rules.v
RuleParse.v
RuleParseProps.v
RulesSem.v
SmuxFrame.v
SmuxWrite.v
SmuxBatch.v
SmuxCancel.v
SmuxSession.v
SmuxTokens.v
SmuxRecv.v
SmuxFlow.v
HaulPool.v
HaulProps.v
Lru.v
LruProps.v
Arc.v
AnswerCache.v
FakeIp.v
FakeIpProps.v
DomainTrie.v
DomainTrieProps.v
Hosts.v
DnsMsg.v
DnsResolver.v
DnsLookup.v
DnsProps.v
Tunnel.v
TunnelProps.v
Enhancer.v
ProxyGroup.v
SniffTls.v
SniffTlsProps.v
SniffBitmap.v
SniffQuic.v
SniffQuicProps.v
SniffQuicSafe.v
SniffHttp.v
BufConn.v
SniffDispatch.v
ZList.v
Deque.v
DequeProps.v
DequeRefine.v
DotPool.v
DomainSet.v
Louds.v
DomainSetProps.v
DomainSetSpec.v
DomainMap.v
DomainMapProps.v
DomainMapSpec.v
DomainBin.v
RuleFile.v
RuleFileProps.v
Socks.v
SocksNet.v
SocksProps.v
Fetcher.v
