(* ===== verification/Prelude.v ===== *)
(** * dropweb core: a verification development

    dropweb is a proxy client: a Flutter front end drives a Go core, the
    directory [core/] with its fork of mihomo in [core/Clash.Meta/].  This
    library models parts of that core as executable definitions and proves what
    makes them correct.  Paths below are relative to [core/Clash.Meta/].

    Conventions.  A comment line [@go file:first-last Symbols] names the lines a
    block of definitions translates.  Go integers are [Z] with their wrap-around
    written out ([u8], [u16], [u32], [i32] below); byte slices are lists of [Z];
    pointers that are shared are names into an explicit heap; a function that may
    panic returns [go_result]; a function that blocks returns [None] until its
    surroundings, which are arguments, let it go on; errors are values.  Goroutines
    that race are step relations with reachable states.  Loops that are not
    structural carry a fuel that their first comment bounds, and theorems say that
    the bound is enough.

    ** The parts, and the files that model them

    - [Prelude]: integers, lists, bytes, the automation ([zify_bool], [case_ifs],
      [case_in], the hint databases [dropweb]).  [Names]: Go strings as names.
      [Netip]: addresses and prefixes of [net/netip].

    - drophaul, the multiplexed transport between the client and a node
      ([transport/drophaul/]), in two layers.

      The smux layer ([smux/]) carries streams over one connection.
      [SmuxFrame]: frames and their encoding, [VerifyConfig], the buffer
      allocator.  [SmuxWrite]: the queue of write requests, [reorderBatch],
      [writeBatch], [flush], [abandon], padding and the writers that wait for
      their result.  [SmuxSession]: sessions and streams, the receive loop, both
      versions of [Read], [WriteTo] and [Write], the windows, opening, closing,
      keepalive.  Proofs: [SmuxWrite] (what the scheduler may reorder), [SmuxBatch]
      (what a batch puts on the wire and whom it answers), [SmuxCancel] (padding,
      and the race between a writer that gives up and the send loop), [SmuxTokens]
      (reachable session states: receive tokens, ownership of buffers, absence of
      panics, stream ids), [SmuxRecv] (the receive loop delivers what was encoded),
      [SmuxFlow] (windows do not stall and are not exceeded, a read loses nothing).

      The pool layer ([client.go]) keeps sessions to one node.  [HaulPool]: choice
      of a session, shared dials, the dial race, the token exchange, the fallback
      to Reality, the loss watcher, closing.  [HaulProps]: its theorems; the
      goroutines around a pool are a step relation there.

    - Dispatch: which proxy a connection gets.  [Metadata] ([constant/metadata.go]):
      what is known of a connection.  [Rules] ([rules/]): every matcher, the logic
      rules, named sub-rules and rule sets, over an environment that holds what is
      outside; [RuleParse]: reading rules and the lists of a configuration.  Both
      rest on [Ranges] ([common/utils/range.go], [ranges.go]) and [Wildcard]
      ([component/wildcard/]).  [Tunnel] ([tunnel/], [adapter/outbound/rematch.go])
      prepares a connection, chooses by mode, hosts and rules, follows nested groups
      and rematch proxies and retries.  Proofs: [Ranges] (merging, printing),
      [RuleParseProps] (reading, cycles of sub-rules, matching returns), [RulesSem]
      (matching refines a pure reading), [TunnelProps] (the choice
      refines a declarative one, and is always made).

    - The files of rule providers ([rules/provider/], [component/cidr/]).  [RuleFile]:
      the strategies for domains, addresses and classical rules, text, YAML and MRS
      files, inline payloads, converting; YAML, zstd (class [Zstd]) and the address
      ranges of netipx (class [Netipx]) are arguments.  [RuleFileProps]: a text file is
      the inline payload of its lines, what its set matches, conversions lose nothing.

    - [Fetcher]: how the contents of a provider are loaded, updated by pulling and from the
      side, and when ([component/resource/]), with the backoff ([component/slowdown/]);
      what is handed on when updates overlap, and that it is what the source holds when
      they do not.

    - SOCKS.  [Socks]: addresses and UDP packets ([transport/socks5/]), the handshakes of
      both versions at both ends as processes on a connection ([proc]; also
      [transport/socks4/]), authenticators ([component/auth/]), the listeners
      ([listener/socks/], [listener/mixed/]) with the lists of addresses, and the
      metadata of a connection ([adapter/inbound/]).  [SocksNet]: the steps of two
      processes that write to each other; they commute, so that one run decides all.
      [SocksProps]: client and listener agree in every interleaving; whatever a client
      sends, nobody gets through without the password; what makes the listener panic.

    - Names: [Hosts] ([component/resolver/host.go] and the entries
      of a configuration), [Enhancer] ([dns/enhancer.go],
      [dns/middleware.go]): the chain of handlers that answers a query with a host
      entry, a fake address or the resolver's answer, and finds the name again when
      a connection to the address arrives.

    - The resolver behind that chain.  [DnsMsg]: messages, times to live, what goes into
      the cache and comes out ([dns/util.go], [dns/edns0_subnet.go]), over a class
      [DnsLib] for the packages miekg/dns and samber/lo.  [DnsResolver]: the picker, the
      clients with their wrappers, policies, fallback servers, the exchange with its
      cache, retry and background fetches ([dns/resolver.go], [dns/util.go]).
      It also makes the resolvers, with shared transports.  [DnsLookup]: looking up
      a host ([component/resolver/resolver.go]).  [DnsProps]: answers come back aged,
      every query is answered, filtered addresses are not taken, who shares a transport.
      Its cache is any implementation of the interface in [AnswerCache] (classes
      [DnsCache], [DnsCacheLaws]): the LRU cache, or the adaptive cache of [Arc]
      ([common/arc/]), that never panics and keeps its
      bounds.  [DotPool]: the connections of a DNS-over-TLS client ([dns/dot.go]), which
      have one owner each, kept in a [Deque].

    - [Deque]: the ring buffer of [common/deque/], on lists indexed by integers ([ZList]).
      [DequeProps]: what its positions hold; [DequeRefine]: it refines a list.

    - [GroupSort] and [GroupSortProps] ([config/utils.go]): the order of the proxy
      groups, the location of loops, cycles of dialer proxies.

    - Sniffing the domain of a connection ([component/sniffer/]).  [SniffTls]: the server
      name from TLS records, with the requests for more bytes; [SniffTlsProps]: what every
      reader of untrusted bytes must satisfy ([reads]), and that cut hellos are read.
      [SniffHttp]: HTTP/1 and HTTP/2.  [SniffQuic]: the sender of a UDP
      flow that decrypts Initial packets and collects the CRYPTO stream, on the bitmap of
      [SniffBitmap]; [SniffQuicProps] (the stream is assembled, packet numbers),
      [SniffQuicSafe] (no datagram makes it panic; examples).  [BufConn]:
      the buffered connection below ([common/net/bufconn*.go]).
      [SniffDispatch]: the dispatcher with its rounds and its list of
      destinations that are given up; sniffing ends and leaves the connection as it was.

    - [Lru]: the cache of [common/lru/lrucache.go] with its list of heap entries.
      [LruProps]: it refines a plain list of entries; what resizing does.

    - [FakeIp]: [component/fakeip/], pools of addresses for host names over a store
      interface (class [FakeStore]); the memory store is two caches of [Lru].
      [FakeIpProps]: the contract of a store (class [FakeStoreLaws]), the proof
      that the two caches keep it, and the pool's theorems from the contract.

    - [DomainTrie]: [component/trie/domain.go] and [node.go], the trie of domain
      patterns.  [DomainTrieProps]: it refines a map from patterns to data with a
      fixed search order, and its listing rebuilds it.

    - The same patterns as bit arrays ([component/trie/domain_set*.go],
      [domain_map*.go]).  [DomainSet]: building, searching and listing a set, over a class
      [Bitmap] of rank and select.  [Louds]: the order in which the nodes of the trie are
      laid out; [DomainSetProps]: a walk over the arrays is a walk over the nodes;
      [DomainSetSpec]: the set holds what matches a stored pattern.  [DomainMap]: values
      at the leaves, with cached starts; [DomainMapProps], [DomainMapSpec]: a lookup is
      the first of the candidates in the order of the trie, and the listing rebuilds the
      set.  [DomainBin]: both as files, and their codecs.

    - [ProxyGroup]: the health records of a proxy ([adapter/adapter.go]) and the
      groups that choose one ([adapter/outboundgroup/]), with
      [common/singledo], with proofs: what each kind of group picks, what
      its list contains, when failures trigger a test.

    - Override expressions ([adapter/provider/override_expr.go]), the language that
      edits the proxies of a provider.  [GoFloat]: [float64] with its parsing and
      printing; [GoText]: UTF-8, splitting, sorting.  [ExprLex], [ExprParse]: tokens and
      the parser, in a monad over the tokens left.  [ExprValue]: dynamic values over an
      environment (class [ExprEnv]: YAML, regular expressions, Unicode tables).
      [ExprEval]: streams of results, paths, functions, statements; it also
      replays the tests of the repository.  Proofs: [ExprParseProps] (reading ends for
      every text), [ExprValueProps] (copies, integer arithmetic,
      reading after updating, deleting against a reference).

    - The bridge to the front end ([core/*.go], paths of its own).  [Bridge]: the
      package variables, the handlers of all actions as computations that return,
      panic or deadlock, the goroutines they start, sending, over an environment
      (class [BridgeEnv]) that stands for every other package, and examples that run it.
      [BridgeProps]: one answer per action, locks, rejected configurations.
      [BridgeTun]: the worker that opens and closes the tunnel on Android.
      [BridgeIos]: admission by memory, synchronous calls, the desktop connection.

    ** Bounds and fuel

    [recvLoop] takes as many turns as the input has bytes (a turn reads a header);
    [psh_frames], [send_frames] as many as there are bytes to send (a frame takes
    one at least, [frameSize] being positive by [VerifyConfig]); [wb_loop] and
    [rr_loop] the length of their list; [delete_oldest] the length of the cache.
    The dial race is a list of events, and eight end it.  Reading a rule takes the
    length of its payload and two more (a condition is shorter than its rule);
    matching one takes the number of named lists, one more and the nesting of rule
    sets; the check for cycles the number of names.  A wildcard takes [wild_fuel], a
    range loop the size of the range, a search of the hosts the number of entries
    and three more.  Reading an expression takes the length of its text for the lexer,
    the number of tokens and one more for nesting and for each loop.  The tunnel takes the depth of nested groups and the number of
    rematch proxies; taking nodes off a graph the number of nodes.  The loops of the sniffers
    take the number of bytes (TLS records take six, HTTP/2 frames nine, the others one or
    more), the rounds of the dispatcher the size of its buffer and two.  Building a set takes
    a level for each byte of the longest key; searching and listing one have no bound in
    the code, and theorems give one.  The lines of a rule file take its length; a SOCKS
    handshake takes no fuel, and its runs are proved to be bounded.

    ** What the code does not do as meant

    Theorems and examples here state the behaviour as it is where it surprises: a
    window update lost when a 32-bit count wraps ([SmuxFlow]), a session without
    watcher after a slow dial ([HaulProps]), a cache that does not shrink
    ([LruProps]), fake addresses that outlive their network ([FakeIpProps]), a
    listing that goes on after its callback said stop ([DomainTrieProps]), a
    fallback group that skips or never tries alive proxies, and a tolerance that
    does not hold for the first proxy or wraps ([ProxyGroup]), a host that is
    its own alias and is searched for ever ([Hosts]), a rule set that names
    itself and is matched for ever, a database lookup that panics, nested sub-rules
    evaluated twice ([RulesSem]), bounds cut to the width of their type
    ([Ranges], [RuleParseProps]), a conjunction without conditions
    ([RuleParseProps]), country codes that stay in the smart target ([TunnelProps]),
    groups reported as a loop that are on none ([GroupSortProps]), hexadecimal numbers
    refused, failed matches stored and integers rounded ([ExprEval]), rule providers
    that cannot be side-loaded, a switch that is ignored, configurations half changed
    ([BridgeProps], [Bridge]), references that leak ([BridgeTun]),
    a cache whose length goes below zero ([Arc]), sections of an answer that age
    apart, a retry limit that is never reached, an error that becomes an empty answer
    ([DnsProps]), an address that crashes a lookup ([DnsLookup]), a request whose verdict
    depends on how it is cut ([SniffHttp]), a datagram too long for the buffer it is
    decrypted in ([SniffQuicSafe]), a byte above 127 that hides a wildcard, names with a
    separator at the end, lengths in files that are believed ([DomainSetSpec], [DomainMapSpec], [DomainBin]),
    classical rules that cannot be converted and ranges whose ends change families
    ([RuleFileProps]), names of 253 bytes and more, and SOCKS4A names that are none, which
    change the port or end the program ([SocksProps]), an unreadable file of a provider
    that is a success, and older contents that replace newer ones ([Fetcher]).

    ** Not modelled

    The IP trie, consistent hashing and sticky
    sessions, the smart group, outbound and inbound protocols beyond SOCKS, health checks
    of providers, decoding the configuration, the control API; of the bridge its shims to C, JNI and Dart; of the tunnel
    the relaying of data and the UDP table; of the DNS side the
    transports to servers, the DHCP and system clients and the listening server; the disk store of the fake-IP pools only through its
    contract.  Clocks, the network, cryptography, HPACK, TCP_INFO, regular expressions, the
    geographic databases and [netipx] are arguments.  Names are taken to be ASCII.
    Values of override expressions are trees, whereas the code updates maps and arrays
    in place: where a value is stored in two places, or is read while it is written,
    the code can differ ([ExprEval] says where). *)

From stdpp Require Export base list gmap strings.
From Stdlib Require Export ZArith Lia Btauto.
#[global] Open Scope Z_scope.

(** ** Machine integers of the Go code, as [Z] with explicit wrap-around. *)

Definition u8 (x : Z) : Z := x mod 2 ^ 8.
Definition u16 (x : Z) : Z := x mod 2 ^ 16.
Definition u32 (x : Z) : Z := x mod 2 ^ 32.
Definition u64 (x : Z) : Z := x mod 2 ^ 64.
(** Two's-complement reading of the low [w] bits, as a Go conversion to a
    signed type does it. *)
Definition sgn (w x : Z) : Z :=
  let r := x mod 2 ^ w in if r <? 2 ^ (w - 1) then r else r - 2 ^ w.
Definition i32 (x : Z) : Z := sgn 32 x.
Definition i64 (x : Z) : Z := sgn 64 x.

(** Go's [len], and the slice expressions [l[:n]] and [l[n:]] with an [int]
    index that the callers keep in range. *)
Definition zlen {A} (l : list A) : Z := Z.of_nat (length l).
Definition ztake {A} (n : Z) (l : list A) : list A := take (Z.to_nat n) l.
Definition zdrop {A} (n : Z) (l : list A) : list A := drop (Z.to_nat n) l.

(** [encoding/binary]: [n] bytes of [v], least significant first, and back. *)
Fixpoint le_put (n : nat) (v : Z) : list Z :=
  match n with
  | O => []
  | S n' => u8 v :: le_put n' (Z.shiftr v 8)
  end.
Fixpoint le_get (l : list Z) : Z :=
  match l with
  | [] => 0
  | b :: t => Z.lor b (Z.shiftl (le_get t) 8)
  end.
(** The big-endian counterparts. *)
Definition be_put (n : nat) (v : Z) : list Z := rev (le_put n v).
Definition be_get (l : list Z) : Z := le_get (rev l).

Definition is_byte (b : Z) : Prop := 0 <= b < 256.
#[export] Instance is_byte_dec b : Decision (is_byte b).
Proof. unfold is_byte. apply _. Defined.

(** Outcome of a Go function that may panic. *)
Inductive go_result (A : Type) : Type :=
| Ret (a : A)
| Panic.
Arguments Ret {A} a.
Arguments Panic {A}.

(** Sum and concatenation over the values of a map. *)
Definition zsum {K A} `{Countable K} (f : A -> Z) (m : gmap K A) : Z :=
  map_fold (fun _ x acc => f x + acc) 0 m.
Definition mcat {K A B} `{Countable K} (f : A -> list B) (m : gmap K A) : list B :=
  map_fold (fun _ x acc => f x ++ acc) [] m.

(** ** Automation *)

Create HintDb dropweb.
Create Rewrite HintDb dropweb.

(** Turn the boolean tests of the code into the propositions they decide. *)
Ltac zify_bool :=
  repeat match goal with
  | H : (_ && _) = true |- _ => apply andb_prop in H as [? ?]
  | H : (_ || _) = false |- _ => apply orb_false_elim in H as [? ?]
  | H : (_ <? _) = true |- _ => apply Z.ltb_lt in H
  | H : (_ <? _) = false |- _ => apply Z.ltb_ge in H
  | H : (_ <=? _) = true |- _ => apply Z.leb_le in H
  | H : (_ <=? _) = false |- _ => apply Z.leb_gt in H
  | H : (_ =? _) = true |- _ => apply Z.eqb_eq in H
  | H : (_ =? _) = false |- _ => apply Z.eqb_neq in H
  | H : negb _ = true |- _ => apply negb_true_iff in H
  | H : negb _ = false |- _ => apply negb_false_iff in H
  | H : bool_decide _ = true |- _ => apply bool_decide_eq_true in H
  | H : bool_decide _ = false |- _ => apply bool_decide_eq_false in H
  end.

(** Split every [if] of the goal on the test it makes. *)
Ltac case_ifs :=
  repeat match goal with
  | |- context [if ?b then _ else _] => destruct b eqn:?
  end; zify_bool.

(** Split every [match] of hypothesis [H] on its scrutinee. *)
Ltac case_in H :=
  repeat match type of H with
  | context [match ?x with _ => _ end] => destruct x eqn:?
  end; zify_bool.

(** ** Arithmetic of the fixed widths *)

Lemma u8_range x : 0 <= u8 x < 256.
Proof. unfold u8. apply Z.mod_pos_bound. lia. Qed.
Lemma u16_range x : 0 <= u16 x < 65536.
Proof. unfold u16. apply Z.mod_pos_bound. lia. Qed.
Lemma u32_range x : 0 <= u32 x < 4294967296.
Proof. unfold u32. apply Z.mod_pos_bound. lia. Qed.
Lemma u8_small x : 0 <= x < 256 -> u8 x = x.
Proof. unfold u8. intros. apply Z.mod_small. lia. Qed.
Lemma u16_small x : 0 <= x < 65536 -> u16 x = x.
Proof. unfold u16. intros. apply Z.mod_small. lia. Qed.
Lemma u32_small x : 0 <= x < 4294967296 -> u32 x = x.
Proof. unfold u32. intros. apply Z.mod_small. lia. Qed.
Lemma u32_idem x : u32 (u32 x) = u32 x.
Proof. apply u32_small, u32_range. Qed.
Lemma u32_add_l x y : u32 (u32 x + y) = u32 (x + y).
Proof. unfold u32. apply Z.add_mod_idemp_l. lia. Qed.
Lemma u32_sub_r x y : u32 (x - u32 y) = u32 (x - y).
Proof. unfold u32. apply Zminus_mod_idemp_r. Qed.
Lemma u32_sub_l x y : u32 (u32 x - y) = u32 (x - y).
Proof. unfold u32. apply Zminus_mod_idemp_l. Qed.

Lemma i32_small x : -2147483648 <= x < 2147483648 -> i32 x = x.
Proof.
  intros H. unfold i32, sgn. change (2 ^ (32 - 1)) with 2147483648.
  change (2 ^ 32) with 4294967296.
  destruct (Z.le_gt_cases 0 x) as [Hx|Hx].
  - rewrite Z.mod_small by lia. case_ifs; lia.
  - rewrite <- (Z.mod_add x 1) by lia. rewrite Z.mod_small by lia. case_ifs; lia.
Qed.
Lemma i32_range x : -2147483648 <= i32 x < 2147483648.
Proof.
  unfold i32, sgn. change (2 ^ (32 - 1)) with 2147483648.
  change (2 ^ 32) with 4294967296.
  pose proof (Z.mod_pos_bound x 4294967296). case_ifs; lia.
Qed.
Lemma i32_u32 x : i32 (u32 x) = i32 x.
Proof. unfold i32, sgn, u32. rewrite Z.mod_mod by lia. reflexivity. Qed.

#[export] Hint Rewrite u32_idem u32_add_l u32_sub_l u32_sub_r i32_u32 : dropweb.
#[export] Hint Resolve u8_range u16_range u32_range i32_range : dropweb.

(** ** Lists with integer lengths *)

Lemma zlen_nonneg {A} (l : list A) : 0 <= zlen l.
Proof. unfold zlen. lia. Qed.
Lemma zlen_nil {A} : zlen (@nil A) = 0.
Proof. reflexivity. Qed.
Lemma zlen_cons {A} (x : A) l : zlen (x :: l) = 1 + zlen l.
Proof. unfold zlen. simpl. lia. Qed.
Lemma zlen_app {A} (l k : list A) : zlen (l ++ k) = zlen l + zlen k.
Proof. unfold zlen. rewrite length_app. lia. Qed.
Lemma zlen_ztake {A} n (l : list A) : 0 <= n -> zlen (ztake n l) = Z.min n (zlen l).
Proof. unfold zlen, ztake. intros. rewrite length_take. lia. Qed.
Lemma zlen_zdrop {A} n (l : list A) : 0 <= n -> zlen (zdrop n l) = Z.max 0 (zlen l - n).
Proof. unfold zlen, zdrop. intros. rewrite length_drop. lia. Qed.
Lemma ztake_zdrop {A} n (l : list A) : ztake n l ++ zdrop n l = l.
Proof. apply take_drop. Qed.
Lemma zlen_zero_nil {A} (l : list A) : zlen l = 0 -> l = [].
Proof. destruct l; [done|]. rewrite zlen_cons. pose proof (zlen_nonneg l). lia. Qed.
Lemma ztake_all {A} n (l : list A) : zlen l <= n -> ztake n l = l.
Proof. unfold zlen, ztake. intros. apply take_ge. lia. Qed.
Lemma zdrop_all {A} n (l : list A) : zlen l <= n -> zdrop n l = [].
Proof. unfold zlen, zdrop. intros. apply drop_ge. lia. Qed.

#[export] Hint Rewrite @zlen_nil @zlen_cons @zlen_app : dropweb.
#[export] Hint Resolve zlen_nonneg : dropweb.

Lemma elem_of_map_2 {A B} (f : A -> B) x l : x ∈ l -> f x ∈ map f l.
Proof. rewrite !list_elem_of_In. apply in_map. Qed.
Lemma elem_of_map_1 {A B} (f : A -> B) y l : y ∈ map f l -> exists x, y = f x /\ x ∈ l.
Proof. rewrite list_elem_of_In, in_map_iff. intros (x & <- & Hx). exists x. by rewrite list_elem_of_In. Qed.

(** An element of a duplicate-free list has one position. *)
Lemma NoDup_middle {A} (x : A) l1 l2 k1 k2 :
  NoDup (l1 ++ x :: l2) -> l1 ++ x :: l2 = k1 ++ x :: k2 -> l1 = k1 /\ l2 = k2.
Proof.
  revert k1. induction l1 as [|y l1 IH]; intros [|z k1]; simpl; intros Hnd [=]; subst.
  - done.
  - apply NoDup_cons in Hnd as [Hni _]. set_solver.
  - apply NoDup_cons in Hnd as [Hni _]. set_solver.
  - apply NoDup_cons in Hnd as [_ Hnd]. destruct (IH k1 Hnd) as [-> ->]; done.
Qed.

(** ** Byte encodings *)

Lemma length_le_put n v : length (le_put n v) = n.
Proof. revert v. induction n; intros; simpl; auto. Qed.

Lemma le_put_bytes n v : Forall is_byte (le_put n v).
Proof. revert v. induction n; intros; constructor; [apply u8_range|auto]. Qed.

Lemma le_get_put n v : le_get (le_put n v) = v mod 2 ^ (8 * Z.of_nat n).
Proof.
  revert v. induction n as [|n IH]; intros v.
  - simpl. change (8 * Z.of_nat 0) with 0. rewrite Z.mod_1_r. reflexivity.
  - cbn [le_put le_get]. rewrite IH. unfold u8.
    rewrite <- !Z.land_ones by lia. apply Z.bits_inj'. intros i Hi.
    rewrite Z.lor_spec, Z.shiftl_spec, !Z.land_spec by lia.
    destruct (Z.lt_ge_cases i 8).
    + rewrite (Z.testbit_neg_r _ (i - 8)) by lia.
      rewrite (Z.ones_spec_low 8) by lia.
      rewrite (Z.ones_spec_low (8 * Z.of_nat (S n))) by lia. btauto.
    + rewrite Z.shiftr_spec by lia.
      replace (i - 8 + 8) with i by lia.
      rewrite (Z.ones_spec_high 8) by lia.
      destruct (Z.lt_ge_cases i (8 * Z.of_nat (S n))).
      * rewrite (Z.ones_spec_low (8 * Z.of_nat n)) by lia.
        rewrite (Z.ones_spec_low (8 * Z.of_nat (S n))) by lia. btauto.
      * rewrite (Z.ones_spec_high (8 * Z.of_nat n)) by lia.
        rewrite (Z.ones_spec_high (8 * Z.of_nat (S n))) by lia. btauto.
Qed.

Lemma le_get_put_small n v : 0 <= v < 2 ^ (8 * Z.of_nat n) -> le_get (le_put n v) = v.
Proof. intros. rewrite le_get_put. by apply Z.mod_small. Qed.

Lemma length_be_put n v : length (be_put n v) = n.
Proof. unfold be_put. rewrite length_rev. apply length_le_put. Qed.

Lemma be_get_put_small n v : 0 <= v < 2 ^ (8 * Z.of_nat n) -> be_get (be_put n v) = v.
Proof. intros. unfold be_get, be_put. rewrite rev_involutive. by apply le_get_put_small. Qed.

#[export] Hint Rewrite length_le_put length_be_put : dropweb.

(** ** Sums and concatenations over maps *)

Section MapSums.
Context {K A B : Type} `{Countable K}.
Implicit Types (m : gmap K A).

Lemma zsum_empty (f : A -> Z) : zsum f (∅ : gmap K A) = 0.
Proof. apply map_fold_empty. Qed.

Lemma zsum_insert (f : A -> Z) k x m :
  m !! k = None -> zsum f (<[k := x]> m) = f x + zsum f m.
Proof. intros Hk. unfold zsum. rewrite map_fold_insert_L; [done| |done]. intros. lia. Qed.

Lemma zsum_delete (f : A -> Z) k x m :
  m !! k = Some x -> zsum f m = f x + zsum f (delete k m).
Proof.
  intros Hk. rewrite <- (insert_delete_id m k x Hk) at 1.
  apply zsum_insert, lookup_delete_eq.
Qed.

Lemma zsum_update (f : A -> Z) k x y m :
  m !! k = Some x -> zsum f (<[k := y]> m) = zsum f m - f x + f y.
Proof.
  intros Hk. rewrite (zsum_delete f k x m Hk), <- (insert_delete_eq m k y).
  rewrite zsum_insert by apply lookup_delete_eq. lia.
Qed.

Lemma zsum_fmap (f : A -> Z) (g : A -> A) m :
  (forall x, f (g x) = f x) -> zsum f (g <$> m) = zsum f m.
Proof.
  intros Hg. induction m as [|k x m Hk IH] using map_ind; [by rewrite fmap_empty|].
  rewrite fmap_insert, !zsum_insert; [by rewrite IH, Hg|done|]. by rewrite lookup_fmap, Hk.
Qed.

Lemma zsum_nonneg (f : A -> Z) m : (forall x, 0 <= f x) -> 0 <= zsum f m.
Proof.
  intros Hf. induction m as [|k x m Hk IH] using map_ind; [by rewrite zsum_empty|]. rewrite zsum_insert by done. specialize (Hf x). lia.
Qed.
Lemma zsum_pos (f : A -> Z) m : (forall x, 0 <= f x) -> 0 < zsum f m -> exists k x, m !! k = Some x /\ 0 < f x.
Proof.
  intros Hf. induction m as [|k x m Hk IH] using map_ind; [by rewrite zsum_empty|]. rewrite zsum_insert by done. intros Hs.
  destruct (Z.lt_ge_cases 0 (f x)); [exists k, x; by rewrite lookup_insert_eq|]. destruct IH as (k' & x' & Hk' & Hx'); [lia|].
  exists k', x'. rewrite lookup_insert_ne; [done|]. congruence.
Qed.

Lemma mcat_insert (f : A -> list B) k x m :
  m !! k = None -> mcat f (<[k := x]> m) ≡ₚ f x ++ mcat f m.
Proof.
  intros Hk. unfold mcat. rewrite (map_fold_insert (≡ₚ)); [done|..|done].
  - intros j z l l' Hl. by rewrite Hl.
  - intros j1 j2 z1 z2 y _ _ _. by rewrite !app_assoc, (Permutation_app_comm (f z1)).
Qed.

Lemma mcat_delete (f : A -> list B) k x m :
  m !! k = Some x -> mcat f m ≡ₚ f x ++ mcat f (delete k m).
Proof.
  intros Hk. rewrite <- (insert_delete_id m k x Hk) at 1.
  apply mcat_insert, lookup_delete_eq.
Qed.

Lemma mcat_update (f : A -> list B) k x y m :
  m !! k = Some x -> mcat f (<[k := y]> m) ≡ₚ f y ++ mcat f (delete k m).
Proof.
  intros Hk. rewrite <- (insert_delete_eq m k y). apply mcat_insert, lookup_delete_eq.
Qed.

Lemma mcat_fmap (f : A -> list B) (g : A -> A) m :
  (forall x, f (g x) = f x) -> mcat f (g <$> m) ≡ₚ mcat f m.
Proof.
  intros Hg. induction m as [|k x m Hk IH] using map_ind; [by rewrite fmap_empty|].
  rewrite fmap_insert, !mcat_insert; [by rewrite IH, Hg|done|]. by rewrite lookup_fmap, Hk.
Qed.
End MapSums.

Lemma zsum_values {K A} `{Countable K} (f : A -> Z) (m : gmap K A) : zsum f m = zsum (fun z => z) (f <$> m).
Proof.
  induction m as [|k x m Hk IH] using map_ind; [by rewrite fmap_empty|].
  rewrite fmap_insert, !zsum_insert; [by rewrite IH|by rewrite lookup_fmap, Hk|done].
Qed.
Lemma zsum_ext {K A} `{Countable K} (f g : A -> Z) (m m' : gmap K A) : (forall k, f <$> m !! k = g <$> m' !! k) -> zsum f m = zsum g m'.
Proof. intros Hk. rewrite (zsum_values f m), (zsum_values g m'). f_equal. apply map_eq. intros k. by rewrite !lookup_fmap. Qed.

(** ** Sub-multisets *)

Lemma submseteq_NoDup {A} (l k : list A) : l ⊆+ k -> NoDup k -> NoDup l.
Proof.
  intros Hs Hnd. apply submseteq_Permutation in Hs as (x & Hx). rewrite Hx in Hnd.
  by apply NoDup_app in Hnd as [? _].
Qed.

Lemma submseteq_Forall {A} (P : A -> Prop) (l k : list A) : l ⊆+ k -> Forall P k -> Forall P l.
Proof.
  intros Hs Hf. apply submseteq_Permutation in Hs as (x & Hx). rewrite Hx in Hf.
  by apply Forall_app in Hf as [? _].
Qed.

Lemma le_get_bound l : Forall is_byte l -> 0 <= le_get l < 2 ^ (8 * zlen l).
Proof.
  unfold is_byte. induction 1 as [|b l Hb Hl IH]; [done|]. rewrite zlen_cons. cbn [le_get].
  pose proof (zlen_nonneg l). rewrite Z.mul_add_distr_l, Z.pow_add_r by lia.
  rewrite Z.shiftl_mul_pow2 by lia. pose proof (Z.add_lor_land b (le_get l * 2 ^ 8)) as Hadd.
  assert (Hland : Z.land b (le_get l * 2 ^ 8) = 0).
  { apply Z.bits_inj'. intros i Hi. rewrite Z.land_spec, Z.bits_0.
    destruct (Z.lt_ge_cases i 8).
    - rewrite Z.mul_pow2_bits_low by lia. btauto.
    - replace (Z.testbit b i) with false; [done|]. symmetry.
      destruct (decide (b = 0)) as [->|]; [apply Z.bits_0|].
      apply Z.bits_above_log2; [lia|]. apply Z.log2_lt_pow2; [lia|].
      apply (Z.lt_le_trans _ (2 ^ 8)); [change (2 ^ 8) with 256; lia|]. apply Z.pow_le_mono_r; lia. }
  change (2 ^ (8 * 1)) with 256. change (2 ^ 8) with 256 in *. lia.
Qed.
