(* ===== verification/Names.v ===== *)
(** * Names

    The operations of package [strings] that host names and domain patterns go
    through.  A Go string is a string of bytes; names are ASCII here, and a byte
    above 127 is passed through unchanged. *)

From S2P Require Import Prelude.
From Stdlib Require Export Ascii.

(** [strings.ToLower]. *)
Definition lower_ascii (c : ascii) : ascii :=
  let n := nat_of_ascii c in if ((65 <=? n) && (n <=? 90))%nat then ascii_of_nat (n + 32) else c.
Fixpoint ToLower (s : string) : string :=
  match s with EmptyString => EmptyString | String c rest => String (lower_ascii c) (ToLower rest) end.

(** [unicode.IsSpace] of an ASCII character. *)
Definition IsSpace (c : ascii) : bool :=
  let n := nat_of_ascii c in ((9 <=? n) && (n <=? 13) || (n =? 32))%nat.

Fixpoint last_char (s : string) : option ascii :=
  match s with
  | EmptyString => None
  | String c EmptyString => Some c
  | String _ rest => last_char rest
  end.

Definition dot : ascii := "."%char.

(** [strings.Split(s, sep)] for a separator of one character: never empty. *)
Fixpoint SplitOn (sep : ascii) (s : string) : list string :=
  match s with
  | EmptyString => [EmptyString]
  | String c rest =>
      if Ascii.eqb c sep then EmptyString :: SplitOn sep rest
      else match SplitOn sep rest with part :: parts => String c part :: parts | [] => [String c EmptyString] end
  end.
Abbreviation Split := (SplitOn dot).

(** [strings.Join(parts, sep)]. *)
Fixpoint JoinOn (sep : ascii) (parts : list string) : string :=
  match parts with
  | [] => EmptyString
  | [part] => part
  | part :: rest => (part ++ String sep (JoinOn sep rest))%string
  end.
Abbreviation Join := (JoinOn dot).

(** [strings.Contains(s, c)] for one character. *)
Fixpoint Contains (c : ascii) (s : string) : bool :=
  match s with EmptyString => false | String d rest => Ascii.eqb c d || Contains c rest end.

(** [strings.Clone]: the bytes are the same. *)
Definition Clone (s : string) : string := s.

(** ** Concatenation *)

Lemma sapp_cons c (a b : string) : (String c a ++ b = String c (a ++ b))%string.
Proof. reflexivity. Qed.
Lemma sapp_nil_l (a : string) : ("" ++ a = a)%string.
Proof. reflexivity. Qed.
Lemma sapp_assoc (a b c : string) : ((a ++ b) ++ c = a ++ b ++ c)%string.
Proof. induction a as [|x a IH]; [done|]. by rewrite !sapp_cons, IH. Qed.
Lemma sapp_nil (a : string) : (a ++ "" = a)%string.
Proof. induction a as [|x a IH]; [done|]. by rewrite sapp_cons, IH. Qed.
Ltac sapp := repeat (rewrite sapp_assoc || rewrite sapp_cons || rewrite sapp_nil_l).
Lemma slen_app (a b : string) : String.length (a ++ b)%string = (String.length a + String.length b)%nat.
Proof. induction a as [|x a IH]; [done|]. rewrite sapp_cons. cbn [String.length]. by rewrite IH. Qed.

(** ** Splitting and joining are inverse *)

Lemma Split_cons sep s : exists part parts, SplitOn sep s = part :: parts.
Proof. destruct s as [|c s]; [by eexists _, _|]. cbn. destruct (Ascii.eqb c sep); [by eexists _, _|]. destruct (SplitOn sep s); by eexists _, _. Qed.

Lemma Join_cons sep part rest : rest <> [] -> JoinOn sep (part :: rest) = (part ++ String sep (JoinOn sep rest))%string.
Proof. by destruct rest. Qed.

Lemma Join_Split sep s : JoinOn sep (SplitOn sep s) = s.
Proof.
  induction s as [|c s IH]; [done|]. cbn [SplitOn]. destruct (Split_cons sep s) as (p & ps & E). rewrite E in *.
  destruct (Ascii.eqb_spec c sep) as [->|_]; [rewrite Join_cons by done; cbn [String.append]; by rewrite IH|].
  destruct ps as [|q ps]; [cbn in *; by rewrite IH|]. rewrite Join_cons in IH |- * by done.
  by transitivity (String c (p ++ String sep (JoinOn sep (q :: ps)))%string); [|rewrite IH].
Qed.

Lemma Split_no_sep sep s : Forall (fun part => Contains sep part = false) (SplitOn sep s).
Proof.
  induction s as [|c s IH]; [by constructor|]. cbn [SplitOn]. destruct (Ascii.eqb_spec c sep) as [->|Hc]; [by constructor|].
  assert (Hd : Ascii.eqb sep c = false) by (destruct (Ascii.eqb_spec sep c); congruence).
  destruct (Split_cons sep s) as (p & ps & E). rewrite E in *. inversion_clear IH. constructor; [|done]. cbn [Contains]. by rewrite Hd.
Qed.

Lemma Split_part sep part : Contains sep part = false -> SplitOn sep part = [part].
Proof.
  induction part as [|c s IH]; [done|]. cbn [Contains SplitOn]. intros [H1 H2]%orb_false_iff. rewrite (IH H2).
  destruct (Ascii.eqb_spec c sep) as [->|]; [by rewrite Ascii.eqb_refl in H1|done].
Qed.

Lemma Split_app sep part s : Contains sep part = false -> SplitOn sep (part ++ String sep s) = part :: SplitOn sep s.
Proof.
  induction part as [|c p IH]; [intros _; change (EmptyString +:+ String sep s) with (String sep s); cbn [SplitOn]; by rewrite Ascii.eqb_refl|]. change (String c p +:+ String sep s) with (String c (p +:+ String sep s)).
  cbn [Contains SplitOn]. intros [H1 H2]%orb_false_iff. rewrite (IH H2).
  destruct (Ascii.eqb_spec c sep) as [->|]; [by rewrite Ascii.eqb_refl in H1|done].
Qed.

Lemma Split_Join sep parts : parts <> [] -> Forall (fun part => Contains sep part = false) parts -> SplitOn sep (JoinOn sep parts) = parts.
Proof.
  intros Hne Hp. induction Hp as [|part rest H1 _ IH]; [done|]. destruct rest as [|q rest]; [by apply Split_part|].
  rewrite Join_cons by done. rewrite Split_app by done. by rewrite IH.
Qed.

Lemma Join_inj sep p q :
  p <> [] -> q <> [] -> Forall (fun part => Contains sep part = false) p -> Forall (fun part => Contains sep part = false) q ->
  JoinOn sep p = JoinOn sep q -> p = q.
Proof. intros ? ? ? ? E. rewrite <- (Split_Join sep p), <- (Split_Join sep q) by done. by rewrite E. Qed.

(** ** Letter case *)

Lemma lower_not_upper c : let n := nat_of_ascii (lower_ascii c) in ((65 <=? n) && (n <=? 90))%nat = false.
Proof. destruct c as [[] [] [] [] [] [] [] []]; vm_compute; reflexivity. Qed.

Lemma lower_idem c : lower_ascii (lower_ascii c) = lower_ascii c.
Proof. pose proof (lower_not_upper c) as H. unfold lower_ascii at 1. by rewrite H. Qed.

Lemma ToLower_idem s : ToLower (ToLower s) = ToLower s.
Proof. induction s as [|c s IH]; [done|]. cbn. by rewrite lower_idem, IH. Qed.

(** Lower-casing moves no character across the separators and wildcards. *)
Lemma lower_special c d : d = dot \/ d = "+"%char \/ d = "*"%char -> Ascii.eqb d (lower_ascii c) = Ascii.eqb d c.
Proof. intros [-> | [-> | ->]]; destruct c as [[] [] [] [] [] [] [] []]; vm_compute; reflexivity. Qed.

Lemma lower_space c : IsSpace (lower_ascii c) = IsSpace c.
Proof. destruct c as [[] [] [] [] [] [] [] []]; vm_compute; reflexivity. Qed.

(** ** More of package [strings] *)

(** [strings.ToUpper]. *)
Definition upper_ascii (c : ascii) : ascii :=
  let n := nat_of_ascii c in if ((97 <=? n) && (n <=? 122))%nat then ascii_of_nat (n - 32) else c.
Fixpoint ToUpper (s : string) : string :=
  match s with EmptyString => EmptyString | String c rest => String (upper_ascii c) (ToUpper rest) end.

(** [strings.EqualFold]. *)
Definition EqualFold (s t : string) : bool := String.eqb (ToLower s) (ToLower t).

(** [strings.HasPrefix], [strings.HasSuffix], [strings.Contains]. *)
Fixpoint HasPrefix (s prefix : string) : bool :=
  match prefix, s with
  | EmptyString, _ => true
  | String c p, String d r => Ascii.eqb c d && HasPrefix r p
  | String _ _, EmptyString => false
  end.
Fixpoint HasSuffix (s suffix : string) : bool :=
  String.eqb s suffix || match s with EmptyString => false | String _ r => HasSuffix r suffix end.
Fixpoint ContainsStr (s sub : string) : bool :=
  HasPrefix s sub || match s with EmptyString => false | String _ r => ContainsStr r sub end.

(** [strings.TrimFunc]: leading, then trailing characters satisfying [p]. *)
Fixpoint TrimLeftFunc (p : ascii -> bool) (s : string) : string :=
  match s with EmptyString => EmptyString | String c r => if p c then TrimLeftFunc p r else s end.
Fixpoint TrimRightFunc (p : ascii -> bool) (s : string) : string :=
  match s with
  | EmptyString => EmptyString
  | String c r => match TrimRightFunc p r with
                  | EmptyString => if p c then EmptyString else String c EmptyString
                  | t => String c t
                  end
  end.
Definition TrimFunc (p : ascii -> bool) (s : string) : string := TrimRightFunc p (TrimLeftFunc p s).
Definition TrimSpace : string -> string := TrimFunc IsSpace.
(** [strings.Trim(s, cutset)]. *)
Definition Trim (s cutset : string) : string := TrimFunc (fun c => Contains c cutset) s.

(** [strings.ReplaceAll] of one character by another. *)
Fixpoint ReplaceAll (s : string) (old new : ascii) : string :=
  match s with
  | EmptyString => EmptyString
  | String c r => String (if Ascii.eqb c old then new else c) (ReplaceAll r old new)
  end.

(** The characters of [s] all satisfy [p]. *)
Fixpoint all_chars (p : ascii -> bool) (s : string) : bool :=
  match s with EmptyString => true | String c r => p c && all_chars p r end.

Lemma all_chars_app p s t : all_chars p (s ++ t)%string = all_chars p s && all_chars p t.
Proof.
  induction s as [|c s IH]; [done|]. change (String c s +:+ t) with (String c (s +:+ t)). cbn [all_chars].
  by rewrite IH, andb_assoc.
Qed.

Lemma all_chars_impl (p q : ascii -> bool) s : (forall c, p c = true -> q c = true) -> all_chars p s = true -> all_chars q s = true.
Proof. intros Hpq. induction s as [|c s IH]; [done|]. cbn. intros [? ?]%andb_true_iff. by rewrite Hpq, IH. Qed.

Lemma all_chars_join p sep parts :
  p sep = true -> Forall (fun s => all_chars p s = true) parts -> all_chars p (JoinOn sep parts) = true.
Proof.
  intros Hsep. induction 1 as [|s rest Hs Hr IH]; [done|]. destruct rest as [|t rest]; [done|].
  rewrite Join_cons by done. rewrite all_chars_app. cbn [all_chars]. by rewrite Hs, Hsep, IH.
Qed.

Lemma TrimFunc_none p s : all_chars (fun c => negb (p c)) s = true -> TrimFunc p s = s.
Proof.
  intros Hs. unfold TrimFunc. replace (TrimLeftFunc p s) with s; [|by destruct s as [|c s]; [|revert Hs; cbn; destruct (p c)]].
  induction s as [|c s IH]; [done|]. cbn in *. apply andb_true_iff in Hs as [Hc Hs]. apply negb_true_iff in Hc.
  rewrite (IH Hs), Hc. by destruct s.
Qed.

Lemma Contains_none c s (p : ascii -> bool) : p c = false -> all_chars p s = true -> Contains c s = false.
Proof.
  intros Hc. induction s as [|d s IH]; [done|]. cbn. intros [Hd Hs]%andb_true_iff. rewrite (IH Hs).
  destruct (Ascii.eqb_spec c d) as [->|]; [congruence|done].
Qed.

Lemma ReplaceAll_none s old new : Contains old s = false -> ReplaceAll s old new = s.
Proof.
  induction s as [|d s IH]; [done|]. cbn. intros [Hd Hs]%orb_false_iff. rewrite (IH Hs).
  destruct (Ascii.eqb_spec d old) as [->|]; [by rewrite Ascii.eqb_refl in Hd|done].
Qed.

Lemma HasPrefix_spec s p : HasPrefix s p = true <-> exists t, s = (p ++ t)%string.
Proof.
  revert s. induction p as [|c p IH]; intros s; [cbn; split; [by eexists|by destruct s]|].
  destruct s as [|d s]; cbn; [split; [done|by intros [? [=]]]|]. rewrite andb_true_iff, IH.
  split; [intros [->%Ascii.eqb_eq [t ->]]; by exists t|].
  intros [t [= -> ->]]. split; [apply Ascii.eqb_refl|by exists t].
Qed.

Lemma HasSuffix_spec s p : HasSuffix s p = true <-> exists t, s = (t ++ p)%string.
Proof.
  induction s as [|d s IH]; cbn [HasSuffix]; rewrite orb_true_iff, String.eqb_eq.
  - split; [intros [<-|]; [by exists ""|done]|]. intros [[|? t] Ht]; [by left|discriminate Ht].
  - rewrite IH. split.
    + intros [<-|[t ->]]; [by exists ""|by exists (String d t)].
    + intros [[|e t] Ht]; [by left|]. injection Ht as -> ->. right. by exists t.
Qed.

(** ** Package [strconv]: decimal numbers *)

Definition is_digit (c : ascii) : bool := let n := nat_of_ascii c in ((48 <=? n) && (n <=? 57))%nat.
Definition digit_val (c : ascii) : Z := Z.of_nat (nat_of_ascii c) - 48.
Definition digit_char (d : Z) : ascii := ascii_of_nat (Z.to_nat (48 + d)).

(** [strconv.ParseUint(s, 10, 64)]. *)
Fixpoint parse_digits (acc : Z) (s : string) : option Z :=
  match s with
  | EmptyString => Some acc
  | String c r =>
      if is_digit c then
        let v := acc * 10 + digit_val c in if v <? 2 ^ 64 then parse_digits v r else None
      else None
  end.
Definition ParseUint (s : string) : option Z :=
  match s with EmptyString => None | _ => parse_digits 0 s end.

(** [strconv.ParseInt(s, 10, 64)]. *)
Definition ParseInt (s : string) : option Z :=
  match s with
  | EmptyString => None
  | String c r =>
      let neg := Ascii.eqb c "-" in
      match ParseUint (if neg || Ascii.eqb c "+" then r else s) with
      | None => None
      | Some un => if neg then (if un <=? 2 ^ 63 then Some (- un) else None)
                   else if un <? 2 ^ 63 then Some un else None
      end
  end.

(** [%v] of an integer: twenty digits are enough below 2^64. *)
Fixpoint format_digits (fuel : nat) (n : Z) (acc : string) : string :=
  match fuel with
  | O => acc
  | S fuel =>
      let acc := String (digit_char (n mod 10)) acc in
      if n / 10 =? 0 then acc else format_digits fuel (n / 10) acc
  end.
Definition FormatInt (n : Z) : string :=
  if n <? 0 then String "-" (format_digits 20 (- n) "") else format_digits 20 n "".

Lemma digit_char_val d : 0 <= d < 10 -> is_digit (digit_char d) = true /\ digit_val (digit_char d) = d.
Proof.
  intros Hd. unfold is_digit, digit_val, digit_char. rewrite nat_ascii_embedding by lia. split; [|lia].
  apply andb_true_iff. rewrite !Nat.leb_le. lia.
Qed.

Lemma parse_format fuel n acc :
  0 <= n < 2 ^ 64 -> n < 10 ^ Z.of_nat fuel -> (0 < fuel)%nat ->
  parse_digits 0 (format_digits fuel n acc) = parse_digits n acc.
Proof.
  revert n acc. induction fuel as [|fuel IH]; intros n acc Hn Hf Hpos; [lia|]. cbn [format_digits].
  pose proof (Z.mod_pos_bound n 10 ltac:(lia)) as Hm. pose proof (Z.div_mod n 10 ltac:(lia)) as Hdm.
  destruct (digit_char_val (n mod 10) Hm) as [H1 H2].
  destruct (Z.eqb_spec (n / 10) 0) as [E|E].
  - cbn [parse_digits]. rewrite H1, H2. replace (0 * 10 + n mod 10) with n by lia. by destruct (Z.ltb_spec n (2 ^ 64)); [|lia].
  - assert (Hd : 0 <= n / 10) by (apply Z.div_pos; lia).
    assert (Hlt : n / 10 < 10 ^ Z.of_nat fuel).
    { apply Z.div_lt_upper_bound; [lia|]. rewrite Nat2Z.inj_succ, Z.pow_succ_r in Hf by lia. lia. }
    destruct fuel as [|fuel]; [change (10 ^ Z.of_nat 0) with 1 in Hlt; lia|].
    rewrite IH by lia. cbn [parse_digits]. rewrite H1, H2. replace (n / 10 * 10 + n mod 10) with n by lia.
    by destruct (Z.ltb_spec n (2 ^ 64)); [|lia].
Qed.

Lemma format_digits_chars fuel n acc : 0 <= n -> all_chars is_digit (format_digits fuel n acc) = all_chars is_digit acc.
Proof.
  revert n acc. induction fuel as [|fuel IH]; intros n acc Hn; [done|]. cbn [format_digits].
  destruct (digit_char_val (n mod 10)) as [H1 _]; [apply Z.mod_pos_bound; lia|].
  destruct (n / 10 =? 0); [|rewrite IH by (apply Z.div_pos; lia)]; cbn [all_chars]; by rewrite H1.
Qed.

Lemma FormatInt_chars n : 0 <= n -> all_chars is_digit (FormatInt n) = true.
Proof. intros Hn. unfold FormatInt. destruct (Z.ltb_spec n 0); [lia|]. by rewrite format_digits_chars. Qed.

Lemma format_digits_cons fuel n c acc : format_digits fuel n (String c acc) <> "".
Proof. revert n c acc. induction fuel as [|fuel IH]; [done|]. intros n c acc. cbn [format_digits]. by destruct (n / 10 =? 0). Qed.

Lemma format_digits_nonempty fuel n acc : format_digits (S fuel) n acc <> "".
Proof. cbn [format_digits]. destruct (n / 10 =? 0); [done|apply format_digits_cons]. Qed.

Lemma ParseUint_FormatInt n : 0 <= n < 2 ^ 64 -> ParseUint (FormatInt n) = Some n.
Proof.
  intros Hn. unfold FormatInt. destruct (Z.ltb_spec n 0); [lia|].
  assert (E : parse_digits 0 (format_digits 20 n "") = Some n) by (rewrite parse_format; [done|lia|cbn; lia|lia]).
  unfold ParseUint. destruct (format_digits 20 n "") eqn:F; [|done]. by apply format_digits_nonempty in F.
Qed.
