(* ===== verification/GroupSort.v ===== *)
(** * Ordering the proxy groups of a configuration

    Models [config/utils.go]: the groups are sorted so that a group comes after the
    groups it names, a cycle of groups is located, and dialer proxies are checked
    for cycles.  Decoding a group from its mapping is an argument; the order in
    which Go visits a map is a function [range] of the map. *)

From S2P Require Import Prelude Names.
#[local] Open Scope string_scope.
#[local] Open Scope Z_scope.
#[local] Open Scope list_scope.

(** What the sort reads of a group's options.
    @go adapter/outboundgroup/parser.go:25-28 GroupCommonOption *)
Record GroupOption := mkGroupOption { go_Name : string; go_Proxies : list string }.

Section Sort.
Context {Data : Type} (decode : Data -> option GroupOption).

(** [data] and [option] are set together; the field [topo] is never read.
    @go config/utils.go:19-29 graphNode *)
Record graphNode := mkNode_ {
  indegree : Z; core : option (Data * GroupOption); outdegree : Z; from : list string
}.
Abbreviation Graph := (gmap string graphNode).
Context (range : Graph -> list string).

(** The proxies of a node's options. *)
Definition node_Proxies (n : graphNode) : list string := match core n with Some (_, o) => go_Proxies o | None => [] end.
Definition dec_indegree (n : graphNode) : graphNode := mkNode_ (indegree n - 1) (core n) (outdegree n) (from n).
Definition dec_outdegree (n : graphNode) : graphNode := mkNode_ (indegree n) (core n) (outdegree n - 1) (from n).

(** ** The dependency graph *)

(** @go config/utils.go:52-58 proxyGroupsDagSort *)
Fixpoint add_proxies (proxies : list string) (graph : Graph) : Graph :=
  match proxies with
  | [] => graph
  | proxy :: rest =>
      add_proxies rest
        match graph !! proxy with
        | Some node => <[proxy := mkNode_ (indegree node + 1) (core node) (outdegree node) (from node)]> graph
        | None => <[proxy := mkNode_ 1 None 0 []]> graph
        end
  end.

Inductive SortErr := ErrDecode (d : Data) | ErrDuplicate (name : string) | ErrLoop (elements : list string).

(** @go config/utils.go:35-59 proxyGroupsDagSort *)
Fixpoint build_graph (groups : list Data) (graph : Graph) : SortErr + Graph :=
  match groups with
  | [] => inr graph
  | mapping :: rest =>
      match decode mapping with
      | None => inl (ErrDecode mapping)
      | Some option =>
          let groupName := go_Name option in
          match graph !! groupName with
          | Some node =>
              match core node with
              | Some _ => inl (ErrDuplicate groupName)
              | None => build_graph rest (add_proxies (go_Proxies option)
                          (<[groupName := mkNode_ (indegree node) (Some (mapping, option)) (outdegree node) (from node)]> graph))
              end
          | None => build_graph rest (add_proxies (go_Proxies option) (<[groupName := mkNode_ 0 (Some (mapping, option)) 0 []]> graph))
          end
      end
  end.

(** ** Taking nodes off *)

(** Both sorts take a node without edges off a queue, lower the degree of its
    neighbours and queue those that are left without edges; [visit] is what else a
    turn does. *)
Section Peel.
Context {X : Type} (deg : graphNode -> Z) (dec : graphNode -> graphNode) (next : graphNode -> list string).
Context (visit : graphNode -> X -> go_result X).

(** A neighbour that is not in the graph is a nil pointer.
    @go config/utils.go:82-88 proxyGroupsDagSort *)
Fixpoint dec_loop (ps : list string) (graph : Graph) (queue : list string) : go_result (Graph * list string) :=
  match ps with
  | [] => Ret (graph, queue)
  | p :: ps =>
      match graph !! p with
      | None => Panic
      | Some child =>
          let child := dec child in
          dec_loop ps (<[p := child]> graph) (if deg child =? 0 then queue ++ [p] else queue)
      end
  end.

(** Every turn deletes a node: their number is fuel enough.
    @go config/utils.go:71-91 proxyGroupsDagSort *)
Fixpoint peel (fuel : nat) (graph : Graph) (queue : list string) (x : X) : option (go_result (Graph * X)) :=
  match queue with
  | [] => Some (Ret (graph, x))
  | name :: queue =>
      match fuel with
      | O => None
      | S fuel =>
          match graph !! name with
          | None => Some Panic
          | Some node =>
              match visit node x with
              | Panic => Some Panic
              | Ret x =>
                  match dec_loop (next node) graph queue with
                  | Panic => Some Panic
                  | Ret (graph, queue) => peel fuel (delete name graph) queue x
                  end
              end
          end
      end
  end.
End Peel.

(** The nodes without edges, in the order of the map.
    @go config/utils.go:63-69 proxyGroupsDagSort *)
Definition queue_init (deg : graphNode -> Z) (graph : Graph) : list string :=
  List.filter (fun name => match graph !! name with Some node => deg node =? 0 | None => false end) (range graph).

(** [index++; groupsConfig[len(groupsConfig)-index] = node.data] for a group.
    @go config/utils.go:74-76 proxyGroupsDagSort *)
Definition place_group (node : graphNode) (x : nat * list Data) : go_result (nat * list Data) :=
  match core node with
  | None => Ret x
  | Some (d, _) =>
      let '(index, groups) := x in
      if (S index <=? length groups)%nat then Ret (S index, <[(length groups - S index)%nat := d]> groups) else Panic
  end.

(** @go config/utils.go:62-91 proxyGroupsDagSort *)
Definition topological (fuel : nat) (graph : Graph) (groups : list Data) : option (go_result (Graph * (nat * list Data))) :=
  peel indegree dec_indegree node_Proxies place_group fuel graph (queue_init indegree graph) (0%nat, groups).

(** ** Locating a loop *)

(** @go config/utils.go:109-116 proxyGroupsDagSort *)
Fixpoint add_from (name : string) (proxies : list string) (graph : Graph) : go_result Graph :=
  match proxies with
  | [] => Ret graph
  | proxy :: rest =>
      let graph := alter (fun n => mkNode_ (indegree n) (core n) (outdegree n + 1) (from n)) name graph in
      match graph !! proxy with
      | None => Panic
      | Some child => add_from name rest (<[proxy := mkNode_ (indegree child) (core child) (outdegree child) (from child ++ [name])]> graph)
      end
  end.

(** @go config/utils.go:100-117 proxyGroupsDagSort *)
Fixpoint rebuild (names : list string) (graph : Graph) : go_result Graph :=
  match names with
  | [] => Ret graph
  | name :: rest =>
      match add_from name (match graph !! name with Some node => node_Proxies node | None => [] end) graph with
      | Panic => Panic
      | Ret graph => rebuild rest graph
      end
  end.

(** @go config/utils.go:118-137 proxyGroupsDagSort *)
Definition remove_outside (fuel : nat) (graph : Graph) : option (go_result (Graph * unit)) :=
  peel outdegree dec_outdegree from (fun _ x => Ret x) fuel graph (queue_init outdegree graph) tt.

(** The error, if any, and the groups as they are then.
    @go config/utils.go:18-145 proxyGroupsDagSort *)
Definition proxyGroupsDagSort (groups : list Data) : option (go_result (option SortErr * list Data)) :=
  match build_graph groups ∅ with
  | inl e => Some (Ret (Some e, groups))
  | inr graph =>
      r ← topological (size graph) graph groups;
      match r with
      | Panic => Some Panic
      | Ret (graph, (_, groups)) =>
          if bool_decide (graph = ∅) then Some (Ret (None, groups))
          else match rebuild (range graph) graph with
               | Panic => Some Panic
               | Ret graph =>
                   r ← remove_outside (size graph) graph;
                   match r with
                   | Panic => Some Panic
                   | Ret (graph, _) => Some (Ret (Some (ErrLoop (range graph)), groups))
                   end
               end
      end
  end.
End Sort.

(** ** Dialer proxies *)

(** [graph] maps a proxy to its dialer proxy; the path and the marks are passed on.
    @go config/utils.go:179-203 validateDialerProxiesHasCycle *)
Fixpoint validateDialerProxiesHasCycle (fuel : nat) (current : string) (graph : gmap string string) (visited : gset string) (path : list string) : option (bool * gset string) :=
  match fuel with
  | O => None
  | S fuel =>
      if existsb (String.eqb current) path then Some (true, visited)
      else if bool_decide (current ∈ visited) then Some (false, visited)
      else
        let visited := {[current]} ∪ visited in
        match graph !! current with
        | Some dialerProxy => validateDialerProxiesHasCycle fuel dialerProxy graph visited (path ++ [current])
        | None => Some (false, visited)
        end
  end.

Inductive DialerErr := ErrDialerNotFound (name dialer : string) | ErrDialerCircular (name : string).

(** [proxies] are the pairs of the map in the order Go visits it.
    @go config/utils.go:151-164 validateDialerProxies *)
Fixpoint collect_dialers (names : gset string) (proxies : list (string * string)) (graph : gmap string string) : DialerErr + gmap string string :=
  match proxies with
  | [] => inr graph
  | (name, dialerProxy) :: rest =>
      if String.eqb dialerProxy "" then collect_dialers names rest graph
      else if bool_decide (dialerProxy ∈ names) then collect_dialers names rest (<[name := dialerProxy]> graph)
      else inl (ErrDialerNotFound name dialerProxy)
  end.

(** @go config/utils.go:166-173 validateDialerProxies *)
Fixpoint check_dialers (names : list string) (graph : gmap string string) : option (option DialerErr) :=
  match names with
  | [] => Some None
  | name :: rest =>
      '(cycle, _) ← validateDialerProxiesHasCycle (size graph + 2) name graph ∅ [];
      if cycle : bool then Some (Some (ErrDialerCircular name)) else check_dialers rest graph
  end.

(** @go config/utils.go:148-176 validateDialerProxies *)
Definition validateDialerProxies (range : gmap string string -> list string) (proxies : list (string * string)) : option (option DialerErr) :=
  match collect_dialers (list_to_set (map fst proxies)) proxies ∅ with
  | inl e => Some (Some e)
  | inr graph => check_dialers (range graph) graph
  end.
