(* ===== verification/GroupSortProps.v ===== *)
(** * Ordering the proxy groups: sorted, or every loop reported

    Both phases take nodes without edges off a graph ([peel]); the theorem about
    one turn serves both.  The sort succeeds exactly when no groups name each other
    in a circle, and then every group stands behind the groups it names; otherwise
    the names reported are the groups on a circle or on a path between circles. *)

From S2P Require Import Prelude Names GroupSort.
#[local] Open Scope string_scope.
#[local] Open Scope Z_scope.
#[local] Open Scope list_scope.

(** ** Counting *)

Fixpoint cnt (x : string) (l : list string) : Z :=
  match l with [] => 0 | y :: l => (if decide (y = x) then 1 else 0) + cnt x l end.
Lemma cnt_nonneg x l : 0 <= cnt x l.
Proof. induction l as [|y l IH]; cbn; [lia|]. destruct (decide (y = x)); lia. Qed.
Lemma cnt_pos x l : 0 < cnt x l <-> x ∈ l.
Proof.
  induction l as [|y l IH]; cbn; [split; [lia|by intros ?%elem_of_nil]|]. pose proof (cnt_nonneg x l). rewrite elem_of_cons.
  destruct (decide (y = x)) as [->|]; [split; [by left|lia]|]. rewrite Z.add_0_l, IH. naive_solver.
Qed.
Lemma cnt_app x l k : cnt x (l ++ k) = cnt x l + cnt x k.
Proof. induction l as [|y l IH]; cbn; [done|]. rewrite IH. lia. Qed.
#[export] Hint Resolve cnt_nonneg : dropweb.

(** ** Taking nodes off a graph *)

Section Peel.
Context {Data X : Type}.
Abbreviation node := (@graphNode Data).
Abbreviation graph := (gmap string node).
Context (deg : node -> Z) (dec : node -> node) (next : node -> list string) (visit : node -> X -> go_result X).
(** What lowering a degree does not touch. *)
Context (same : node -> node -> Prop) `{!PreOrder same}.
Context (Hdec_deg : forall n, deg (dec n) = deg n - 1) (Hdec_same : forall n, same n (dec n)).
Context (Hnext : forall n n', same n n' -> next n = next n') (Hvisit : forall n n' x, same n n' -> visit n x = visit n' x).

(** The edges that lead to [x]. *)
Definition edges (g : graph) (x : string) : Z := zsum (fun n => cnt x (next n)) g.

(** [g'] has the nodes of [g] up to their degrees. *)
Definition same_nodes (g g' : graph) : Prop := forall x, option_relation same (fun _ => False) (fun _ => False) (g !! x) (g' !! x).

Lemma edges_same g g' x : same_nodes g g' -> edges g x = edges g' x.
Proof.
  intros Hs. apply zsum_ext. intros k. specialize (Hs k). destruct (g !! k) as [n|], (g' !! k) as [n'|]; cbn in *; try done.
  by rewrite (Hnext n n' Hs).
Qed.
Lemma edges_nonneg g x : 0 <= edges g x.
Proof. apply zsum_nonneg. auto with dropweb. Qed.
Lemma edges_pos g x : 0 < edges g x -> exists y n, g !! y = Some n /\ x ∈ next n.
Proof. intros H. apply zsum_pos in H as (y & n & Hy & Hn); [|auto with dropweb]. exists y, n. by rewrite <- cnt_pos. Qed.
Lemma edges_elem g x y n : g !! y = Some n -> x ∈ next n -> 0 < edges g x.
Proof.
  intros Hy Hx. unfold edges. rewrite (zsum_delete _ y n g Hy). apply cnt_pos in Hx.
  pose proof (edges_nonneg (delete y g) x). unfold edges in *. lia.
Qed.

Lemma same_nodes_trans g1 g2 g3 : same_nodes g1 g2 -> same_nodes g2 g3 -> same_nodes g1 g3.
Proof.
  intros H1 H2 x. specialize (H1 x). specialize (H2 x). destruct (g1 !! x), (g2 !! x), (g3 !! x); cbn in *; try done. by etransitivity.
Qed.
Lemma same_nodes_refl g : same_nodes g g.
Proof. intros x. destruct (g !! x); cbn; [reflexivity|done]. Qed.
Lemma same_nodes_insert g p n n' : g !! p = Some n -> same n n' -> same_nodes g (<[p := n']> g).
Proof.
  intros Hp Hs x. destruct (decide (x = p)) as [->|Hx]; [by rewrite Hp, lookup_insert_eq|]. rewrite lookup_insert_ne by done. apply same_nodes_refl.
Qed.

(** [queue] holds the nodes without edges, apart from the one being taken off. *)
Definition queued (busy : option string) (g : graph) (queue : list string) : Prop :=
  NoDup queue /\ forall x, x ∈ queue <-> Some x <> busy /\ exists n, g !! x = Some n /\ deg n = 0.

Lemma dec_loop_ok busy ps : forall g queue, (forall p, p ∈ ps -> is_Some (g !! p)) -> (forall x n, g !! x = Some n -> cnt x ps <= deg n) ->
  (forall p, p ∈ ps -> Some p <> busy) -> queued busy g queue ->
  exists g' queue', dec_loop deg dec ps g queue = Ret (g', queue') /\ same_nodes g g' /\ queued busy g' queue'
    /\ forall x n', g' !! x = Some n' -> exists n, g !! x = Some n /\ deg n' = deg n - cnt x ps.
Proof.
  induction ps as [|p ps IH]; intros g queue Hdom Hle Hbusy [Hnd Hq].
  { exists g, queue. split; [done|]. split; [apply same_nodes_refl|]. split; [done|]. intros x n' Hx. exists n'. split; [done|]. cbn. lia. }
  cbn [dec_loop]. destruct (Hdom p) as [n Hp]; [by left|]. rewrite Hp. rewrite Hdec_deg.
  pose proof (Hle p n Hp) as Hlp. cbn in Hlp. rewrite decide_True in Hlp by done. pose proof (cnt_nonneg p ps) as Hc.
  assert (Hnq : p ∉ queue). { intros Hin. apply Hq in Hin as (_ & n' & Hn' & Hd). rewrite Hp in Hn'. injection Hn' as ->. lia. }
  destruct (IH (<[p := dec n]> g) (if deg n - 1 =? 0 then queue ++ [p] else queue)) as (g' & queue' & E & Hs & Hq' & Hd).
  - intros q Hin. rewrite lookup_insert_is_Some'. right. apply Hdom. by right.
  - intros x n' Hx. destruct (decide (x = p)) as [->|Hne].
    + rewrite lookup_insert_eq in Hx. injection Hx as <-. rewrite Hdec_deg. lia.
    + rewrite lookup_insert_ne in Hx by done. specialize (Hle x n' Hx). cbn in Hle. rewrite decide_False in Hle by done. lia.
  - intros q Hin. apply Hbusy. by right.
  - split; [destruct (deg n - 1 =? 0); [apply NoDup_app; split; [done|split; [set_solver|apply NoDup_singleton]]|done]|].
    intros x. destruct (decide (x = p)) as [->|Hne].
    + rewrite lookup_insert_eq. destruct (deg n - 1 =? 0) eqn:E; zify_bool.
      * split; [|set_solver]. intros _. split; [apply Hbusy; by left|]. exists (dec n). split; [done|]. rewrite Hdec_deg. lia.
      * split; [done|]. intros (_ & n' & [= <-] & Hd). rewrite Hdec_deg in Hd. lia.
    + rewrite lookup_insert_ne by done. rewrite <- Hq. destruct (_ =? _); set_solver.
  - exists g', queue'. split; [done|]. split; [eapply same_nodes_trans; [by apply (same_nodes_insert g p n (dec n))|done]|]. split; [done|].
    intros x n' Hx. destruct (Hd x n' Hx) as (n1 & H1 & H2). cbn. destruct (decide (p = x)) as [->|Hne].
    + rewrite lookup_insert_eq in H1. injection H1 as <-. exists n. split; [done|]. rewrite H2, Hdec_deg. lia.
    + rewrite lookup_insert_ne in H1 by done. exists n1. split; [done|]. lia.
Qed.

(** The nodes of [g0] that are left, [done] having been taken off in this order. *)
Record peeled (g0 : graph) (order : list string) (g : graph) : Prop := {
  pe_sub : forall x, g !! x = None \/ exists n0 n, g0 !! x = Some n0 /\ g !! x = Some n /\ same n0 n;
  pe_deg : forall x n, g !! x = Some n -> deg n = edges g x;
  pe_closed : forall y n x, g !! y = Some n -> x ∈ next n -> is_Some (g !! x);
  pe_nodup : NoDup order;
  pe_order : forall x, x ∈ order <-> is_Some (g0 !! x) /\ g !! x = None;
  pe_before : forall l1 y l2 n0 x, order = l1 ++ y :: l2 -> g0 !! y = Some n0 -> x ∈ next n0 -> x ∈ l2 \/ is_Some (g !! x);
  pe_keeps : forall C : string -> Prop, (forall x, C x -> is_Some (g0 !! x) /\ exists y n0, C y /\ g0 !! y = Some n0 /\ x ∈ next n0) ->
    forall x, C x -> is_Some (g !! x)
}.

Lemma peeled_start g : (forall x n, g !! x = Some n -> deg n = edges g x) -> (forall y n x, g !! y = Some n -> x ∈ next n -> is_Some (g !! x)) ->
  peeled g [] g.
Proof.
  intros Hd Hc. split; [|done|done|by apply NoDup_nil|..].
  - intros x. destruct (g !! x) as [n|]; [right; exists n, n; split_and!; [done..|reflexivity]|by left].
  - intros x. split; [by intros ?%elem_of_nil|]. intros [[n Hn] Hx]. congruence.
  - intros [|? ?] y l2 n0 x E; discriminate E.
  - intros C HC x Hx. by apply HC.
Qed.

(** Taking one node off. *)
Lemma peeled_step g0 order g g' name node : peeled g0 order g -> g !! name = Some node -> deg node = 0 -> same_nodes g g' ->
  (forall x n', g' !! x = Some n' -> exists n, g !! x = Some n /\ deg n' = deg n - cnt x (next node)) ->
  peeled g0 (order ++ [name]) (delete name g').
Proof.
  intros Hp Hn Hz Hs Hd. destruct Hp as [Psub Pdeg Pclosed Pnd Pord Pbef Pkeep].
  assert (Hlook : forall x n', g' !! x = Some n' -> exists n, g !! x = Some n /\ same n n').
  { intros x n' Hx. specialize (Hs x). rewrite Hx in Hs. destruct (g !! x) as [n|]; [by exists n|done]. }
  assert (Hback : forall x n, g !! x = Some n -> exists n', g' !! x = Some n' /\ same n n').
  { intros x n Hx. specialize (Hs x). rewrite Hx in Hs. destruct (g' !! x) as [n'|]; [by exists n'|done]. }
  destruct (Hback name node Hn) as (node' & Hn' & Hnode).
  assert (Hnone : forall y n, g !! y = Some n -> name ∉ next n).
  { intros y n Hy Hin. pose proof (edges_elem g name y n Hy Hin). rewrite <- (Pdeg name node Hn) in H. lia. }
  assert (Hedges : forall x, edges (delete name g') x = edges g x - cnt x (next node)).
  { intros x. rewrite (edges_same g g' x Hs). unfold edges at 2. rewrite (zsum_delete _ name node' g' Hn'). rewrite (Hnext node node' Hnode). unfold edges. lia. }
  assert (Hleft : forall x, is_Some (g !! x) -> x <> name -> is_Some (delete name g' !! x)).
  { intros x [n Hx] Hne. rewrite lookup_delete_ne by done. destruct (Hback x n Hx) as (n' & -> & _). by eexists. }
  split.
  - intros x. destruct (decide (x = name)) as [->|Hne]; [left; apply lookup_delete_eq|]. rewrite lookup_delete_ne by done.
    destruct (g' !! x) as [n'|] eqn:E; [right|by left]. destruct (Hlook x n' E) as (n & Hx & Hsn).
    destruct (Psub x) as [?|(n0 & n1 & H0 & H1 & H2)]; [congruence|]. rewrite Hx in H1. injection H1 as <-. exists n0, n'. split_and!; [done..|]. by etransitivity.
  - intros x n' Hx. apply lookup_delete_Some in Hx as [_ Hx]. destruct (Hd x n' Hx) as (n & Hgx & ->). rewrite Hedges, (Pdeg x n Hgx). done.
  - intros y n' x Hy Hin. apply lookup_delete_Some in Hy as [Hne Hy]. destruct (Hlook y n' Hy) as (n & Hgy & Hsn). rewrite <- (Hnext n n' Hsn) in Hin.
    apply Hleft; [by apply (Pclosed y n)|]. intros ->. by apply (Hnone y n).
  - apply NoDup_app. split; [done|]. split; [|apply NoDup_singleton]. intros x Hx ->%list_elem_of_singleton. apply Pord in Hx as [_ Hx]. congruence.
  - intros x. rewrite elem_of_app, list_elem_of_singleton, Pord. destruct (decide (x = name)) as [->|Hne].
    + rewrite lookup_delete_eq. split; [|by right]. intros _. split; [|done]. destruct (Psub name) as [?|(n0 & ? & H0 & _)]; [congruence|by eexists].
    + rewrite lookup_delete_ne by done. specialize (Hs x). destruct (g !! x), (g' !! x); try done; naive_solver.
  - intros l1 y l2 n0 x E Hy Hx. destruct l2 as [|z l2] using rev_ind.
    + apply app_inj_tail in E as [<- <-]. right. destruct (Psub name) as [?|(n1 & n2 & H0 & H1 & H2)]; [congruence|].
      rewrite Hn in H1. injection H1 as <-. rewrite Hy in H0. injection H0 as <-. rewrite (Hnext n0 node H2) in Hx.
      apply Hleft; [by apply (Pclosed name node)|]. intros ->. by apply (Hnone name node Hn).
    + clear IHl2. rewrite app_comm_cons, app_assoc in E. apply app_inj_tail in E as [E <-]. destruct (Pbef l1 y l2 n0 x E Hy Hx) as [?|Hg]; [left; set_solver|].
      destruct (decide (x = name)) as [->|]; [left; set_solver|]. right. by apply Hleft.
  - intros C HC x Hx. apply Hleft; [by apply (Pkeep C HC)|]. intros ->. destruct (proj2 (HC name Hx)) as (y & n0 & HCy & Hy0 & Hin).
    destruct (Pkeep C HC y HCy) as [n Hy]. destruct (Psub y) as [?|(n1 & n2 & H0 & H1 & H2)]; [congruence|].
    rewrite Hy0 in H0. injection H0 as <-. rewrite Hy in H1. injection H1 as <-. apply (Hnone y n Hy). by rewrite <- (Hnext n0 n H2).
Qed.

(** The whole loop, with what the visits keep. *)
Lemma peel_ok (J : list string -> X -> Prop) g0 :
  (forall order x name n0, J order x -> NoDup (order ++ [name]) -> (forall y, y ∈ order -> is_Some (g0 !! y)) -> g0 !! name = Some n0 ->
    exists x', visit n0 x = Ret x' /\ J (order ++ [name]) x') ->
  forall fuel order g queue x, peeled g0 order g -> queued None g queue -> J order x -> (size g <= fuel)%nat ->
  exists order' g' x', peel deg dec next visit fuel g queue x = Some (Ret (g', x')) /\ peeled g0 order' g' /\ J order' x'
    /\ forall y n, g' !! y = Some n -> exists z nz, g' !! z = Some nz /\ y ∈ next nz.
Proof.
  intros HJ fuel. induction fuel as [|fuel IH]; intros order g queue x Hp Hq Hx Hf.
  - assert (Hg : g = ∅) by (apply map_size_empty_iff; lia). subst g. destruct queue as [|name queue].
    + exists order, ∅, x. split_and!; [done..|]. intros y n Hy. by rewrite lookup_empty in Hy.
    + destruct Hq as [_ Hq]. destruct (proj1 (Hq name)) as (_ & n & Hn & _); [by left|]. by rewrite lookup_empty in Hn.
  - destruct queue as [|name queue].
    + exists order, g, x. split; [done|]. split_and!; [done..|]. intros y n Hy. destruct Hq as [_ Hq].
      apply (edges_pos g y). rewrite <- (pe_deg _ _ _ Hp y n Hy). pose proof (edges_nonneg g y). rewrite <- (pe_deg _ _ _ Hp y n Hy) in H.
      destruct (decide (deg n = 0)) as [Hz|]; [|lia]. assert (y ∈ []) by (apply Hq; naive_solver). by apply elem_of_nil in H0.
    + cbn [peel]. destruct Hq as [Hnd Hq]. destruct (proj1 (Hq name)) as (_ & node & Hn & Hz); [by left|]. rewrite Hn.
      destruct (pe_sub _ _ _ Hp name) as [?|(n0 & n1 & H0 & H1 & Hsn)]; [congruence|]. rewrite Hn in H1. injection H1 as <-.
      rewrite <- (Hvisit n0 node x Hsn).
      assert (Hnew : NoDup (order ++ [name])).
      { apply NoDup_app. split; [apply Hp|]. split; [|apply NoDup_singleton]. intros y Hy ->%list_elem_of_singleton. apply (pe_order _ _ _ Hp) in Hy as [_ Hy]. congruence. }
      destruct (HJ order x name n0 Hx Hnew) as (x' & -> & Hx'); [intros y Hy; by apply (pe_order _ _ _ Hp)|done|].
      destruct (dec_loop_ok (Some name) (next node) g queue) as (g' & queue' & E & Hs & Hq' & Hd).
      * intros p Hin. by apply (pe_closed _ _ _ Hp name node).
      * intros y n Hy. rewrite (pe_deg _ _ _ Hp y n Hy). unfold edges. rewrite (zsum_delete _ name node g Hn).
        pose proof (edges_nonneg (delete name g) y). unfold edges in H. lia.
      * intros p Hin [= ->]. pose proof (edges_elem g name name node Hn Hin). rewrite <- (pe_deg _ _ _ Hp name node Hn) in H. lia.
      * inversion Hnd as [|? ? Hni Hnd']; subst. split; [done|]. intros y. specialize (Hq y). rewrite elem_of_cons in Hq. set_solver.
      * rewrite E. apply (IH (order ++ [name])); [by apply (peeled_step g0 order g g' name node)| |done|].
        -- destruct Hq' as [Hnd' Hq']. split; [done|]. intros y. rewrite Hq'. destruct (decide (y = name)) as [->|Hne].
           ++ rewrite lookup_delete_eq. naive_solver.
           ++ rewrite lookup_delete_ne by done. naive_solver.
        -- rewrite map_size_delete.
           assert (Hsz : size g' = size g).
           { rewrite <- !size_dom. f_equal. apply set_eq. intros y. rewrite !elem_of_dom. specialize (Hs y). destruct (g !! y), (g' !! y); cbn in Hs; try done; split; by eexists || done. }
           destruct (g' !! name) eqn:E'; [lia|]. specialize (Hs name). by rewrite Hn, E' in Hs.
Qed.
End Peel.

(** ** The graph that is built *)

Section Sorting.
Context {Data : Type} (decode : Data -> option GroupOption).
Abbreviation graph := (gmap string (@graphNode Data)).
Abbreviation in_edges := (edges node_Proxies).

(** Group [x] names [y]. *)
Definition names (groups : list Data) (x y : string) : Prop :=
  exists d o, d ∈ groups /\ decode d = Some o /\ go_Name o = x /\ y ∈ go_Proxies o.

Record built (groups : list Data) (g : graph) : Prop := {
  bu_degrees : forall x n, g !! x = Some n -> indegree n = in_edges g x /\ outdegree n = 0 /\ from n = [];
  bu_groups : forall d, d ∈ groups -> exists o n, decode d = Some o /\ g !! go_Name o = Some n /\ core n = Some (d, o);
  bu_core : forall x n d o, g !! x = Some n -> core n = Some (d, o) -> d ∈ groups /\ decode d = Some o /\ go_Name o = x;
  bu_nodup : NoDup (omap (fun d => go_Name <$> decode d) groups);
  bu_closed : forall y n x, g !! y = Some n -> x ∈ node_Proxies n -> is_Some (g !! x)
}.

Lemma add_proxies_lookup ps : forall (g : graph) x,
  add_proxies ps g !! x = match g !! x with
                          | Some n => Some (mkNode_ (indegree n + cnt x ps) (core n) (outdegree n) (from n))
                          | None => if cnt x ps =? 0 then None else Some (mkNode_ (cnt x ps) None 0 [])
                          end.
Proof.
  induction ps as [|p ps IH]; intros g x; cbn [add_proxies cnt].
  { destruct (g !! x) as [[]|]; cbn; [by rewrite Z.add_0_r|done]. }
  rewrite IH. pose proof (cnt_nonneg x ps). destruct (decide (p = x)) as [->|Hne].
  - destruct (g !! x) as [n|] eqn:E; rewrite lookup_insert_eq; cbn [indegree core outdegree from].
    + f_equal. f_equal. lia.
    + destruct (1 + cnt x ps =? 0) eqn:E'; zify_bool; [lia|]. done.
  - rewrite Z.add_0_l. destruct (g !! p) as [n|]; by rewrite lookup_insert_ne.
Qed.

Lemma add_proxies_edges ps : forall (g : graph) x, in_edges (add_proxies ps g) x = in_edges g x.
Proof.
  induction ps as [|p ps IH]; intros g x; cbn [add_proxies]; [done|]. rewrite IH. unfold edges. destruct (g !! p) as [n|] eqn:E.
  - rewrite (zsum_update _ p n _ g E). unfold node_Proxies. cbn [core]. lia.
  - rewrite zsum_insert by done. done.
Qed.

(** One more group; its node, if any, is not a group yet. *)
Lemma built_add groups g d o : built groups g -> decode d = Some o ->
  (forall n, g !! go_Name o = Some n -> core n = None) ->
  let node := match g !! go_Name o with Some n => mkNode_ (indegree n) (Some (d, o)) (outdegree n) (from n) | None => mkNode_ 0 (Some (d, o)) 0 [] end in
  built (groups ++ [d]) (add_proxies (go_Proxies o) (<[go_Name o := node]> g)).
Proof.
  intros [Bdeg Bgr Bcore Bnd Bcl] Hdec Hcore node. set (gn := go_Name o) in *. set (ps := go_Proxies o) in *. set (g1 := <[gn := node]> g).
  assert (Hnode : core node = Some (d, o)) by (unfold node; by destruct (g !! gn)).
  assert (Hfresh : forall x, is_Some (g !! x) \/ in_edges g x = 0).
  { intros x. destruct (decide (in_edges g x = 0)) as [|Hne]; [by right|left].
    destruct (edges_pos node_Proxies g x) as (y & n & Hy & Hin); [pose proof (edges_nonneg node_Proxies g x); lia|]. by apply (Bcl y n). }
  assert (Hedges : forall x, in_edges g1 x = in_edges g x + cnt x ps).
  { intros x. unfold edges, g1. assert (Hps : node_Proxies node = ps) by (unfold node_Proxies; by rewrite Hnode).
    destruct (g !! gn) as [n|] eqn:E.
    - rewrite (zsum_update _ gn n node g E), Hps. unfold node_Proxies at 2. rewrite (Hcore n eq_refl). cbn. lia.
    - rewrite zsum_insert by done. rewrite Hps. lia. }
  assert (Hindeg : indegree node = in_edges g gn).
  { unfold node. destruct (g !! gn) as [n|] eqn:E; cbn; [by apply Bdeg|]. destruct (Hfresh gn) as [[? ?]|]; [congruence|done]. }
  assert (Hout : outdegree node = 0 /\ from node = []) by (unfold node; destruct (g !! gn) as [n|] eqn:E; cbn; [by apply (Bdeg gn)|done]).
  assert (Hdom : forall x, is_Some (g !! x) \/ x = gn \/ x ∈ ps -> is_Some (add_proxies ps g1 !! x)).
  { intros x Hx. rewrite add_proxies_lookup. destruct (g1 !! x) eqn:E; [by eexists|]. unfold g1 in E. apply lookup_insert_None in E as [E1 E2].
    destruct Hx as [[? ?]|[->|Hx]]; [congruence|done|]. apply cnt_pos in Hx. destruct (cnt x ps =? 0) eqn:E'; zify_bool; [lia|by eexists]. }
  assert (Hinv : forall x n, add_proxies ps g1 !! x = Some n -> (x = gn /\ core n = Some (d, o)) \/ core n = None \/ exists n0, g !! x = Some n0 /\ core n = core n0).
  { intros x n Hx. rewrite add_proxies_lookup in Hx. unfold g1 in Hx. destruct (decide (x = gn)) as [->|Hne].
    - rewrite lookup_insert_eq in Hx. injection Hx as <-. by left.
    - rewrite lookup_insert_ne in Hx by done. right. destruct (g !! x) as [n0|]; [injection Hx as <-; right; by exists n0|].
      destruct (_ =? _); [done|]. injection Hx as <-. by left. }
  split.
  - intros x n Hx. rewrite add_proxies_edges, Hedges. rewrite add_proxies_lookup in Hx. unfold g1 in Hx. destruct (decide (x = gn)) as [->|Hne].
    + rewrite lookup_insert_eq in Hx. injection Hx as <-. cbn. rewrite Hindeg. done.
    + rewrite lookup_insert_ne in Hx by done. destruct (g !! x) as [n0|] eqn:E.
      * injection Hx as <-. cbn. destruct (Bdeg x n0 E) as (-> & -> & ->). done.
      * destruct (Hfresh x) as [[? ?]| -> ]; [congruence|]. destruct (_ =? _); [done|]. injection Hx as <-. cbn. split; [lia|done].
  - intros d' Hin0. apply elem_of_app in Hin0 as [Hin|Hin]; [ |apply list_elem_of_singleton in Hin as -> ].
    + destruct (Bgr d' Hin) as (o' & n & Hd' & Hn & Hc). exists o'. rewrite add_proxies_lookup. unfold g1.
      destruct (decide (go_Name o' = gn)) as [E|Hne]; [rewrite E in Hn; specialize (Hcore n Hn); congruence|].
      rewrite lookup_insert_ne, Hn by done. eexists. by split_and!.
    + exists o. rewrite add_proxies_lookup. unfold g1. fold gn. rewrite lookup_insert_eq. eexists. split_and!; [done|done|]. by cbn.
  - intros x n d' o' Hx Hc. destruct (Hinv x n Hx) as [[-> Hn]|[Hn|(n0 & H0 & Hn)]]; [|congruence|].
    + rewrite Hn in Hc. injection Hc as <- <-. split; [set_solver|done].
    + rewrite Hn in Hc. destruct (Bcore x n0 d' o' H0 Hc) as (? & ? & ?). split; [set_solver|done].
  - rewrite omap_app. cbn. rewrite Hdec. cbn. apply NoDup_app. split; [done|]. split; [|apply NoDup_singleton].
    intros x Hx Hx0. apply list_elem_of_singleton in Hx0 as ->. apply list_elem_of_omap in Hx as (d' & Hin & Hd'). destruct (Bgr d' Hin) as (o' & n & E1 & E2 & E3).
    rewrite E1 in Hd'. injection Hd' as Hd'. rewrite Hd' in E2. specialize (Hcore n E2). congruence.
  - intros y n x Hy Hin. apply Hdom. unfold node_Proxies in Hin. destruct (Hinv y n Hy) as [[-> Hn]|[Hn|(n0 & H0 & Hn)]]; rewrite Hn in Hin.
    + by right; right.
    + by apply elem_of_nil in Hin.
    + left. by apply (Bcl y n0).
Qed.

(** What makes the groups unacceptable before any sorting. *)
Definition bad_groups (groups : list Data) (e : SortErr (Data := Data)) : Prop :=
  match e with
  | ErrDecode d => d ∈ groups /\ decode d = None
  | ErrDuplicate n => exists l1 d l2 d' o o', groups = l1 ++ d :: l2 /\ d' ∈ l1 /\ decode d = Some o /\ decode d' = Some o' /\ go_Name o = n /\ go_Name o' = n
  | ErrLoop _ => False
  end.

Lemma build_graph_ok rest : forall groups g, built groups g ->
  match build_graph decode rest g with inl e => bad_groups (groups ++ rest) e | inr g' => built (groups ++ rest) g' end.
Proof.
  induction rest as [|d rest IH]; intros groups g Hb; cbn [build_graph]; [by rewrite app_nil_r|].
  destruct (decode d) as [o|] eqn:Hd; [|cbn; split; [set_solver|done]].
  specialize (IH (groups ++ [d])). rewrite <- app_assoc in IH. cbn [app] in IH. pose proof (built_add groups g d o Hb Hd) as Hadd.
  destruct (g !! go_Name o) as [n|] eqn:Hn; [|by apply IH, Hadd]. destruct (core n) as [[d' o']|] eqn:Hc.
  - destruct (bu_core _ _ Hb _ _ _ _ Hn Hc) as (Hin & Hd' & Ho'). cbn. by exists groups, d, rest, d', o, o'.
  - apply IH, Hadd. by intros ? [= <-].
Qed.
Lemma built_empty : built [] ∅.
Proof.
  split; [by intros ? ? ?%lookup_empty_Some|by intros ? ?%elem_of_nil|by intros ? ? ? ? ?%lookup_empty_Some|apply NoDup_nil_2|by intros ? ? ? ?%lookup_empty_Some].
Qed.

(** A name is a group's exactly if its node has data. *)
Lemma names_graph groups g x y : built groups g -> names groups x y <-> exists n, g !! x = Some n /\ y ∈ node_Proxies n.
Proof.
  intros Hb. split.
  - intros (d & o & Hd & Ho & <- & Hy). destruct (bu_groups _ _ Hb d Hd) as (o' & n & Ho' & Hn & Hc). rewrite Ho in Ho'. injection Ho' as <-.
    exists n. split; [done|]. unfold node_Proxies. by rewrite Hc.
  - intros (n & Hn & Hy). unfold node_Proxies in Hy. destruct (core n) as [[d o]|] eqn:Hc; [|by apply elem_of_nil in Hy].
    destruct (bu_core _ _ Hb _ _ _ _ Hn Hc) as (? & ? & ?). by exists d, o.
Qed.
Lemma bad_not_built groups g e : built groups g -> ~ bad_groups groups e.
Proof.
  intros Hb. destruct e as [d|n|S]; cbn; [|intros (l1 & d & l2 & d' & o & o' & -> & Hin & Hd & Hd' & Hn & Hn')|by intros ?].
  - intros [Hd Hn]. destruct (bu_groups _ _ Hb d Hd) as (o & n & Ho & _). congruence.
  - pose proof (bu_nodup _ _ Hb) as Hnd. rewrite omap_app in Hnd. apply NoDup_app in Hnd as (_ & Hnd & _). apply (Hnd n).
    + apply list_elem_of_omap. exists d'. split; [done|]. rewrite Hd'. cbn. by rewrite Hn'.
    + apply list_elem_of_omap. exists d. split; [by left|]. rewrite Hd. cbn. by rewrite Hn.
Qed.

(** ** The first phase: placing the groups *)

(** The groups among the nodes taken off. *)
Definition placed (g : graph) (order : list string) : list Data := omap (fun x => n ← g !! x; fst <$> core n) order.

Lemma placed_elem groups g order d : built groups g -> d ∈ placed g order <-> d ∈ groups /\ exists o, decode d = Some o /\ go_Name o ∈ order.
Proof.
  intros Hb. unfold placed. rewrite list_elem_of_omap. split.
  - intros (x & Hx & Hd). destruct (g !! x) as [n|] eqn:Hn; [|done]. cbn in Hd. destruct (core n) as [[d' o]|] eqn:Hc; [|done]. injection Hd as ->.
    destruct (bu_core _ _ Hb _ _ _ _ Hn Hc) as (? & ? & <-). by split; [|exists o].
  - intros (Hd & o & Ho & Hx). exists (go_Name o). split; [done|]. destruct (bu_groups _ _ Hb d Hd) as (o' & n & Ho' & Hn & Hc).
    rewrite Ho in Ho'. injection Ho' as <-. by rewrite Hn; cbn; rewrite Hc.
Qed.
Lemma placed_NoDup groups g order : built groups g -> NoDup order -> NoDup (placed g order).
Proof.
  intros Hb. induction order as [|x order IH]; intros Hnd; [apply NoDup_nil_2|]. apply NoDup_cons in Hnd as [Hx Hnd].
  unfold placed. cbn. destruct (g !! x) as [n|] eqn:Hn; cbn; [|by apply IH]. destruct (core n) as [[d o]|] eqn:Hc; cbn; [|by apply IH].
  apply NoDup_cons. split; [|by apply IH]. intros Hin. destruct (proj1 (placed_elem groups g order d Hb) Hin) as (_ & o' & Ho' & Hx').
  destruct (bu_core _ _ Hb _ _ _ _ Hn Hc) as (_ & Ho & <-). rewrite Ho in Ho'. injection Ho' as <-. done.
Qed.
Lemma placed_length groups g order : built groups g -> NoDup order -> (length (placed g order) <= length groups)%nat.
Proof.
  intros Hb Hnd. apply submseteq_length, NoDup_submseteq; [by apply (placed_NoDup groups)|]. intros d Hd. by apply (placed_elem groups) in Hd as [? _].
Qed.

(** The slice: its end is filled from behind. *)
Definition slice_ok (groups : list Data) (g : graph) (order : list string) (x : nat * list Data) : Prop :=
  x = (length (placed g order), take (length groups - length (placed g order)) groups ++ rev (placed g order)).

Lemma place_group_ok groups g order x name n : built groups g -> slice_ok groups g order x -> NoDup (order ++ [name]) -> g !! name = Some n ->
  exists x', place_group n x = Ret x' /\ slice_ok groups g (order ++ [name]) x'.
Proof.
  intros Hb -> Hnd Hn. pose proof (placed_length groups g _ Hb Hnd) as Hlen. unfold slice_ok, place_group.
  assert (E : placed g (order ++ [name]) = placed g order ++ match core n with Some (d, _) => [d] | None => [] end).
  { unfold placed. rewrite omap_app. f_equal. cbn. rewrite Hn. cbn. by destruct (core n) as [[d o]|]. }
  rewrite E in *. set (k := placed g order) in *. destruct (core n) as [[d o]|]; [|rewrite app_nil_r; by eexists].
  rewrite length_app in Hlen. cbn in Hlen. rewrite length_app, length_take, length_rev.
  replace ((length groups - length k) `min` length groups + length k)%nat with (length groups) by lia.
  rewrite (proj2 (Nat.leb_le _ _)) by lia.
  eexists. split; [reflexivity|]. rewrite length_app. cbn. rewrite rev_app_distr. cbn. f_equal; [lia|].
  replace (length groups - length k)%nat with (S (length groups - S (length k)))%nat by lia.
  destruct (lookup_lt_is_Some_2 groups (length groups - S (length k))) as [z Hz]; [lia|].
  rewrite (take_S_r _ _ z Hz), <- app_assoc. replace (length groups - (length k + 1))%nat with (length groups - S (length k))%nat by lia.
  rewrite insert_app_r_alt by (rewrite length_take; lia). rewrite length_take. f_equal.
  replace (_ - _)%nat with 0%nat by lia. done.
Qed.

Context (range : graph -> list string) (Hrange : forall g, range g ≡ₚ (map_to_list g).*1).

Lemma range_elem g x : x ∈ range g <-> is_Some (g !! x).
Proof.
  rewrite Hrange, list_elem_of_fmap. split.
  - intros ([k n] & -> & Hin). apply elem_of_map_to_list in Hin. by eexists.
  - intros [n Hn]. exists (x, n). split; [done|]. by apply elem_of_map_to_list.
Qed.
Lemma queue_init_ok deg (g : graph) : queued deg None g (queue_init range deg g).
Proof.
  unfold queue_init. split.
  - apply NoDup_ListNoDup, List.NoDup_filter, NoDup_ListNoDup. rewrite Hrange. apply NoDup_fst_map_to_list.
  - intros x. rewrite list_elem_of_In, filter_In, <- list_elem_of_In, range_elem. split.
    + intros [[n Hn] Hz]. rewrite Hn in Hz. zify_bool. split; [done|]. by exists n.
    + intros (_ & n & Hn & Hz). split; [by eexists|]. rewrite Hn. by apply Z.eqb_eq.
Qed.

(** What counting down a degree leaves alone. *)
Definition same_in (n n' : @graphNode Data) : Prop := core n = core n' /\ outdegree n = outdegree n' /\ from n = from n'.
Definition same_out (n n' : @graphNode Data) : Prop := core n = core n' /\ from n = from n'.
#[local] Instance same_in_pre : PreOrder same_in.
Proof. split; [by intros n|]. intros n1 n2 n3 (? & ? & ?) (? & ? & ?). split_and!; congruence. Qed.
#[local] Instance same_out_pre : PreOrder same_out.
Proof. split; [by intros n|]. intros n1 n2 n3 (? & ?) (? & ?). split_and!; congruence. Qed.
Lemma core_Proxies (n n' : @graphNode Data) : core n = core n' -> node_Proxies n = node_Proxies n'.
Proof. unfold node_Proxies. by intros ->. Qed.

Lemma topological_ok groups g : built groups g ->
  exists order g' x, topological range (size g) g groups = Some (Ret (g', x))
    /\ peeled indegree node_Proxies same_in g order g' /\ slice_ok groups g order x
    /\ forall y n, g' !! y = Some n -> exists z nz, g' !! z = Some nz /\ y ∈ node_Proxies nz.
Proof.
  intros Hb. unfold topological. apply (peel_ok indegree dec_indegree node_Proxies place_group same_in) with (order := []); [done|done|..].
  - intros n n' (Hc & _). by apply core_Proxies.
  - intros n n' x (Hc & _). unfold place_group. by rewrite Hc.
  - intros order x name n Hx Hnd _ Hn. by apply (place_group_ok groups g order x name n).
  - apply peeled_start; [apply _|intros x n Hx; by apply (bu_degrees _ _ Hb)|by apply (bu_closed _ _ Hb)].
  - apply queue_init_ok.
  - unfold slice_ok, placed. cbn. by rewrite Nat.sub_0_r, firstn_all, app_nil_r.
  - lia.
Qed.

(** ** The second phase: locating the loops *)

Abbreviation out_edges := (edges from).
(** [E] are the edges entered into the fields [from]. *)
Record rebuilt (g0 : graph) (E : string -> string -> Prop) (g : graph) : Prop := {
  re_same : forall x, core <$> g0 !! x = core <$> g !! x;
  re_deg : forall x n, g !! x = Some n -> outdegree n = out_edges g x;
  re_from : forall x n y, g !! x = Some n -> y ∈ from n <-> E y x
}.

Lemma add_from_step g0 E g name proxy nn child : rebuilt g0 E g -> g !! name = Some nn ->
  let g1 := <[name := mkNode_ (indegree nn) (core nn) (outdegree nn + 1) (from nn)]> g in
  g1 !! proxy = Some child ->
  rebuilt g0 (fun y x => E y x \/ (y = name /\ x = proxy)) (<[proxy := mkNode_ (indegree child) (core child) (outdegree child) (from child ++ [name])]> g1).
Proof.
  intros [Rs Rd Rf] Hn g1 Hc.
  assert (Hlook : forall x n, g1 !! x = Some n -> exists n0, g !! x = Some n0 /\ core n = core n0 /\ from n = from n0 /\ outdegree n = outdegree n0 + cnt x [name]).
  { intros x n Hx. unfold g1 in Hx. cbn. destruct (decide (x = name)) as [->|Hne].
    - rewrite lookup_insert_eq in Hx. injection Hx as <-. exists nn. rewrite decide_True by done. cbn. split_and!; [done..|lia].
    - rewrite lookup_insert_ne in Hx by done. exists n. rewrite decide_False by done. split_and!; [done..|lia]. }
  assert (Hedges : forall x, out_edges (<[proxy := mkNode_ (indegree child) (core child) (outdegree child) (from child ++ [name])]> g1) x = out_edges g x + cnt x [name]).
  { intros x. unfold edges. rewrite (zsum_update _ proxy child _ g1 Hc). unfold g1. rewrite (zsum_update _ name nn _ g Hn). cbn [from]. rewrite cnt_app. lia. }
  split.
  - intros x. rewrite Rs. destruct (decide (x = proxy)) as [->|Hne].
    + rewrite lookup_insert_eq. destruct (Hlook proxy child Hc) as (n0 & -> & Hcore & _). cbn. by rewrite Hcore.
    + rewrite lookup_insert_ne by done. unfold g1. destruct (decide (x = name)) as [->|Hne']; [by rewrite lookup_insert_eq, Hn|by rewrite lookup_insert_ne].
  - intros x n Hx. rewrite Hedges. destruct (decide (x = proxy)) as [->|Hne].
    + rewrite lookup_insert_eq in Hx. injection Hx as <-. destruct (Hlook proxy child Hc) as (n0 & H0 & _ & _ & Hd). cbn [outdegree]. by rewrite Hd, (Rd proxy n0 H0).
    + rewrite lookup_insert_ne in Hx by done. destruct (Hlook x n Hx) as (n0 & H0 & _ & _ & Hd). by rewrite Hd, (Rd x n0 H0).
  - intros x n y Hx. destruct (decide (x = proxy)) as [->|Hne].
    + rewrite lookup_insert_eq in Hx. injection Hx as <-. destruct (Hlook proxy child Hc) as (n0 & H0 & _ & Hf & _). cbn [from].
      rewrite elem_of_app, list_elem_of_singleton, Hf, (Rf proxy n0 y H0). naive_solver.
    + rewrite lookup_insert_ne in Hx by done. destruct (Hlook x n Hx) as (n0 & H0 & _ & Hf & _). rewrite Hf, (Rf x n0 y H0). naive_solver.
Qed.

Lemma rebuilt_iff g0 E E' g : (forall y x, E y x <-> E' y x) -> rebuilt g0 E g -> rebuilt g0 E' g.
Proof. intros HE [? ? Rf]. split; [done|done|]. intros x n y Hx. by rewrite (Rf x n y Hx). Qed.
Lemma rebuilt_dom g0 E g x : rebuilt g0 E g -> is_Some (g0 !! x) -> is_Some (g !! x).
Proof. intros Hr [n Hn]. pose proof (re_same _ _ _ Hr x) as Hs. rewrite Hn in Hs. destruct (g !! x); [by eexists|done]. Qed.

Lemma add_from_ok g0 name ps : forall E g, rebuilt g0 E g -> is_Some (g0 !! name) -> (forall p, p ∈ ps -> is_Some (g0 !! p)) ->
  exists g', add_from name ps g = Ret g' /\ rebuilt g0 (fun y x => E y x \/ (y = name /\ x ∈ ps)) g'.
Proof.
  induction ps as [|p ps IH]; intros E g Hr Hname Hps; cbn [add_from].
  { exists g. split; [done|]. apply (rebuilt_iff g0 E); [|done]. intros y x. rewrite elem_of_nil. naive_solver. }
  destruct (rebuilt_dom _ _ _ _ Hr Hname) as [nn Hn].
  replace (alter _ name g) with (<[name := mkNode_ (indegree nn) (core nn) (outdegree nn + 1) (from nn)]> g).
  2:{ apply map_eq. intros x. destruct (decide (x = name)) as [->|Hne]; [by rewrite lookup_insert_eq, lookup_alter_eq, Hn|by rewrite lookup_insert_ne, lookup_alter_ne]. }
  destruct (rebuilt_dom _ _ _ p Hr (Hps p ltac:(by left))) as [np Hp].
  destruct (<[name := _]> g !! p) as [child|] eqn:Hc.
  2:{ apply lookup_insert_None in Hc as [Hc _]. congruence. }
  destruct (IH _ _ (add_from_step g0 E g name p nn child Hr Hn Hc) Hname) as (g' & -> & Hr'); [intros q Hq; apply Hps; by right|].
  exists g'. split; [done|]. revert Hr'. apply rebuilt_iff. intros y x. rewrite elem_of_cons. naive_solver.
Qed.

Lemma rebuild_ok g0 xs : (forall y n x, g0 !! y = Some n -> x ∈ node_Proxies n -> is_Some (g0 !! x)) -> (forall x, x ∈ xs -> is_Some (g0 !! x)) ->
  forall E g, rebuilt g0 E g ->
  exists g', rebuild xs g = Ret g' /\ rebuilt g0 (fun y x => E y x \/ (y ∈ xs /\ exists n, g0 !! y = Some n /\ x ∈ node_Proxies n)) g'.
Proof.
  intros Hcl. induction xs as [|x xs IH]; intros Hxs E g Hr; cbn [rebuild].
  { exists g. split; [done|]. apply (rebuilt_iff g0 E); [|done]. intros y x. rewrite elem_of_nil. naive_solver. }
  destruct (Hxs x) as [n0 Hn0]; [by left|]. pose proof (re_same _ _ _ Hr x) as Hs. rewrite Hn0 in Hs.
  destruct (g !! x) as [n|] eqn:Hn; [|done]. injection Hs as Hs. rewrite <- (core_Proxies n0 n Hs).
  destruct (add_from_ok g0 x (node_Proxies n0) E g Hr) as (g1 & -> & Hr1); [by eexists|intros p; by apply (Hcl x n0 p)|].
  destruct (IH ltac:(intros z Hz; apply Hxs; by right) _ _ Hr1) as (g' & -> & Hr'). exists g'. split; [done|].
  revert Hr'. apply rebuilt_iff. intros y z. rewrite elem_of_cons. split.
  - intros [[HE|[-> Hz]]|[Hy Hz]]; [by left|right|right]; [split; [by left|by exists n0]|split; [by right|done]].
  - intros [HE|[[->|Hy] (n' & Hn' & Hz)]]; [by left; left| |right; split; [done|by exists n']].
    left. right. split; [done|]. congruence.
Qed.

(** The whole second phase: what is left is the largest set all of whose names name and are named by one of it. *)
Lemma loops_ok g1 : (forall x n, g1 !! x = Some n -> outdegree n = 0 /\ from n = []) ->
  (forall y n x, g1 !! y = Some n -> x ∈ node_Proxies n -> is_Some (g1 !! x)) ->
  (forall x, is_Some (g1 !! x) -> exists y n, g1 !! y = Some n /\ x ∈ node_Proxies n) -> g1 <> ∅ ->
  exists g2 g3, rebuild (range g1) g1 = Ret g2 /\ remove_outside range (size g2) g2 = Some (Ret (g3, tt))
    /\ (forall x, is_Some (g3 !! x) -> is_Some (g1 !! x)) /\ g3 <> ∅
    /\ (forall x, is_Some (g3 !! x) -> (exists y n, is_Some (g3 !! y) /\ g1 !! y = Some n /\ x ∈ node_Proxies n)
                                     /\ exists n y, g1 !! x = Some n /\ y ∈ node_Proxies n /\ is_Some (g3 !! y))
    /\ forall C : string -> Prop, (forall x, C x -> exists n y, g1 !! x = Some n /\ y ∈ node_Proxies n /\ C y) -> forall x, C x -> is_Some (g3 !! x).
Proof.
  intros H0 Hcl Hin Hne.
  assert (Hstart : rebuilt g1 (fun _ _ => False) g1).
  { split; [done|..].
    - intros x n Hx. destruct (H0 x n Hx) as [-> _]. destruct (Z.lt_trichotomy 0 (out_edges g1 x)) as [H|[H|H]]; [|done|].
      + apply edges_pos in H as (y & ny & Hy & Hx'). destruct (H0 y ny Hy) as [_ E]. rewrite E in Hx'. by apply elem_of_nil in Hx'.
      + pose proof (edges_nonneg from g1 x). lia.
    - intros x n y Hx. destruct (H0 x n Hx) as [_ ->]. by rewrite elem_of_nil. }
  destruct (rebuild_ok g1 (range g1) Hcl (fun x => proj1 (range_elem g1 x)) _ _ Hstart) as (g2 & E2 & Hr2). exists g2.
  assert (Hr : rebuilt g1 (fun y x => exists n, g1 !! y = Some n /\ x ∈ node_Proxies n) g2).
  { revert Hr2. apply rebuilt_iff. intros y x. rewrite range_elem. split; [naive_solver|]. intros (n & Hn & Hx). right. split; [by eexists|by exists n]. }
  clear Hr2 Hstart. assert (Hdom : forall x, is_Some (g1 !! x) <-> is_Some (g2 !! x)).
  { intros x. pose proof (re_same _ _ _ Hr x) as Hs. destruct (g1 !! x), (g2 !! x); try done; by split; intros ?%is_Some_None. }
  destruct (peel_ok outdegree dec_outdegree from (fun _ x => Ret x) same_out ltac:(done) ltac:(done) ltac:(by intros n n' [_ ?]) ltac:(done)
    (fun _ (_ : unit) => True) g2 ltac:(intros order x name n _ _ _ _; by exists x) (size g2) [] g2 (queue_init range outdegree g2) tt)
    as (order & g3 & [] & E3 & Hp & _ & Hleft); [|apply queue_init_ok|done|lia|].
  { apply peeled_start; [apply _|intros x n Hx; by apply (re_deg _ _ _ Hr)|]. intros y n x Hy Hx. apply (re_from _ _ _ Hr y n x Hy) in Hx as (n' & Hn' & _).
    apply Hdom. by eexists. }
  assert (Hsub : forall x n3, g3 !! x = Some n3 -> is_Some (g1 !! x) /\ forall y, y ∈ from n3 <-> exists n, g1 !! y = Some n /\ x ∈ node_Proxies n).
  { intros x n3 Hx. destruct (pe_sub _ _ _ _ _ _ Hp x) as [?|(n2 & n3' & H2 & H3 & _ & Hf)]; [congruence|]. rewrite Hx in H3. injection H3 as <-.
    split; [apply Hdom; by eexists|]. intros y. rewrite <- Hf. by apply (re_from _ _ _ Hr). }
  exists g3. split_and!; [done|exact E3|intros x [n Hx]; by apply (Hsub x n)|..].
  - intros ->. destruct order as [|y order _] using rev_ind.
    + apply Hne, map_eq. intros x. rewrite lookup_empty. destruct (g1 !! x) as [n|] eqn:E; [|done]. exfalso.
      assert (x ∈ []) as []%elem_of_nil. apply (pe_order _ _ _ _ _ _ Hp). split; [by apply Hdom; eexists|apply lookup_empty].
    + destruct (proj1 (pe_order _ _ _ _ _ _ Hp y)) as [[n2 Hy] _]; [set_solver|]. destruct (Hin y) as (z & nz & Hz & Hyz); [apply Hdom; by eexists|].
      destruct (pe_before _ _ _ _ _ _ Hp order y [] n2 z eq_refl Hy) as [[]%elem_of_nil|[? []%lookup_empty_Some]].
      apply (re_from _ _ _ Hr y n2 z Hy). by exists nz.
  - intros x [n3 Hx]. destruct (Hsub x n3 Hx) as [H1 Hf]. split.
    + destruct (Hin x H1) as (y & n & Hy & Hxy). exists y, n. split; [|done]. apply (pe_closed _ _ _ _ _ _ Hp x n3 y Hx). apply Hf. by exists n.
    + destruct (Hleft x n3 Hx) as (z & nz & Hz & Hxz). destruct (Hsub z nz Hz) as [_ Hfz]. apply Hfz in Hxz as (n & Hn & Hin'). exists n, z. by split_and!; [..|eexists].
  - intros C HC. apply (pe_keeps _ _ _ _ _ _ Hp). intros x Hx. destruct (HC x Hx) as (n & y & Hn & Hy & HCy). split; [apply Hdom; by eexists|].
    destruct (HC y HCy) as (ny & _ & Hny & _). destruct (proj1 (Hdom y) ltac:(by eexists)) as [n2 Hn2]. exists y, n2. split_and!; [done..|].
    apply (re_from _ _ _ Hr y n2 x Hn2). by exists n.
Qed.

(** ** The sort *)

Definition names_data (d d' : Data) : Prop :=
  exists o o', decode d = Some o /\ decode d' = Some o' /\ go_Name o' ∈ go_Proxies o.
(** Every name of [C] names one of [C] and is named by one of [C]. *)
Definition on_loops (groups : list Data) (C : string -> Prop) : Prop :=
  forall x, C x -> (exists y, C y /\ names groups y x) /\ exists y, C y /\ names groups x y.

Lemma omap_split {A B} (f : A -> option B) l : forall k1 b k2, omap f l = k1 ++ b :: k2 ->
  exists l1 a l2, l = l1 ++ a :: l2 /\ f a = Some b /\ omap f l2 = k2.
Proof.
  induction l as [|a l IH]; intros k1 b k2 E; [by destruct k1|]. cbn in E. destruct (f a) as [b'|] eqn:Ea.
  - destruct k1 as [|b'' k1]; injection E as -> E; [by exists [], a, l|].
    destruct (IH k1 b k2 E) as (l1 & a' & l2 & -> & ? & ?). by exists (a :: l1), a', l2.
  - destruct (IH k1 b k2 E) as (l1 & a' & l2 & -> & ? & ?). by exists (a :: l1), a', l2.
Qed.

Lemma built_NoDup groups g : built groups g -> NoDup groups.
Proof.
  intros Hb. pose proof (bu_nodup _ _ Hb) as Hnd. revert Hnd.
  assert (Hdec : forall d, d ∈ groups -> is_Some (decode d)) by (intros d Hd; destruct (bu_groups _ _ Hb d Hd) as (o & _ & Ho & _); by exists o).
  clear -Hdec. induction groups as [|d l IH]; intros Hnd; [apply NoDup_nil_2|]. destruct (Hdec d) as [o Ho]; [by left|]. cbn in Hnd. rewrite Ho in Hnd. cbn in Hnd.
  apply NoDup_cons in Hnd as [Hn Hnd]. apply NoDup_cons. split; [|apply IH; [intros d' Hd'; apply Hdec; by right|done]].
  intros Hin. apply Hn, list_elem_of_omap. exists d. by rewrite Ho.
Qed.

(** With every node taken off, the slice holds the groups, each behind those it names. *)
Lemma all_placed groups g order : built groups g -> peeled indegree node_Proxies same_in g order ∅ ->
  placed g order ≡ₚ groups /\ forall l1 d l2 d', rev (placed g order) = l1 ++ d :: l2 -> d' ∈ groups -> names_data d d' -> d' ∈ l1.
Proof.
  intros Hb Hp.
  assert (Hall : forall d, d ∈ groups -> d ∈ placed g order).
  { intros d Hd. apply (placed_elem groups); [done|]. split; [done|]. destruct (bu_groups _ _ Hb d Hd) as (o & n & Ho & Hn & _).
    exists o. split; [done|]. apply (pe_order _ _ _ _ _ _ Hp). split; [by eexists|apply lookup_empty]. }
  split.
  - apply NoDup_Permutation; [by apply (placed_NoDup groups), Hp| |].
    + by apply (built_NoDup groups g).
    + intros d. split; [|apply Hall]. intros Hd. by apply (placed_elem groups) in Hd as [? _].
  - intros l1 d l2 d' E Hd' (o & o' & Ho & Ho' & Hin). apply (f_equal (@rev Data)) in E. rewrite rev_involutive, rev_app_distr in E. cbn in E. rewrite <- app_assoc in E. cbn in E.
    destruct (omap_split _ order _ _ _ E) as (o1 & x & o2 & Eo & Ex & E2). destruct (g !! x) as [n|] eqn:Hn; [|done]. cbn in Ex.
    destruct (core n) as [[dx ox]|] eqn:Hc; [|done]. injection Ex as ->. destruct (bu_core _ _ Hb _ _ _ _ Hn Hc) as (_ & Hox & Hx). rewrite Ho in Hox. injection Hox as <-.
    destruct (pe_before _ _ _ _ _ _ Hp o1 x o2 n (go_Name o') Eo Hn) as [Hin2|[? []%lookup_empty_Some]]; [unfold node_Proxies; by rewrite Hc|].
    apply list_elem_of_In, in_rev. rewrite <- list_elem_of_In, <- E2. apply (placed_elem groups g o2 d' Hb). split; [done|]. by exists o'.
Qed.

(** C18: the groups of a configuration are put in an order in which every group stands behind the groups it names, whatever
    the order Go visits its maps in, and this is an error exactly when it cannot be done.  The sort never panics: no neighbour
    is missing, no index leaves the slice.  Without an error the result holds the same groups.  The error for a loop lists the
    largest set of names each of which names one of the set and is named by one of it: the names on a loop and the names on a
    path from one loop to another.  The other errors are a group that does not decode and a name given twice. *)
Theorem proxyGroupsDagSort_spec groups :
  match proxyGroupsDagSort decode range groups with
  | Some (Ret (None, sorted)) =>
      sorted ≡ₚ groups /\ (forall l1 d l2 d', sorted = l1 ++ d :: l2 -> d' ∈ groups -> names_data d d' -> d' ∈ l1) /\ (forall e, ~ bad_groups groups e)
  | Some (Ret (Some (ErrLoop elements), _)) =>
      elements <> [] /\ NoDup elements /\ on_loops groups (fun x => x ∈ elements) /\ (forall C, on_loops groups C -> forall x, C x -> x ∈ elements) /\ (forall e, ~ bad_groups groups e)
  | Some (Ret (Some e, unsorted)) => bad_groups groups e /\ unsorted = groups
  | Some Panic | None => False
  end.
Proof.
  unfold proxyGroupsDagSort. pose proof (build_graph_ok groups [] ∅ built_empty) as Hb. cbn [app] in Hb.
  destruct (build_graph decode groups ∅) as [[]|g]; [by split..|done|].
  destruct (topological_ok groups g Hb) as (order & g1 & x & -> & Hp & -> & Hin). cbn.
  pose proof (fun e => bad_not_built groups g e Hb) as Hbad. destruct (bool_decide _) eqn:E; zify_bool.
  - subst g1. destruct (all_placed groups g order Hb Hp) as [Hperm Hord]. rewrite (Permutation_length Hperm), Nat.sub_diag. cbn.
    split; [|by split]. etransitivity; [symmetry; apply Permutation_rev|done].
  - assert (Hold : forall y n, g1 !! y = Some n -> exists n0, g !! y = Some n0 /\ node_Proxies n = node_Proxies n0 /\ outdegree n = 0 /\ from n = []).
    { intros y n Hy. destruct (pe_sub _ _ _ _ _ _ Hp y) as [?|(n0 & n1 & H0 & H1 & Hc & Ho & Hf)]; [congruence|]. rewrite Hy in H1. injection H1 as <-.
      exists n0. rewrite <- Ho, <- Hf. destruct (bu_degrees _ _ Hb y n0 H0) as (_ & ? & ?). split_and!; [done|by apply core_Proxies|done..]. }
    assert (Hnames : forall x y, is_Some (g1 !! x) -> names groups x y <-> exists n, g1 !! x = Some n /\ y ∈ node_Proxies n).
    { intros y z [n Hy]. rewrite (names_graph groups g y z Hb). destruct (Hold y n Hy) as (n0 & H0 & Hps & _).
      split; intros (m & Hm & Hin'); [rewrite H0 in Hm|rewrite Hy in Hm]; injection Hm as <-; [exists n|exists n0]; (split; [done|congruence]). }
    destruct (loops_ok g1) as (g2 & g3 & -> & -> & Hsub & Hne & Hloop & Hmax); [intros y n Hy; by destruct (Hold y n Hy) as (_ & _ & _ & ?)|apply Hp|intros y [n Hy]; exact (Hin y n Hy)|done|].
    cbn. split_and!; [| | |..|done].
    + intros Hr. apply Hne, map_eq. intros y. rewrite lookup_empty. destruct (g3 !! y) as [n|] eqn:Hy; [|done]. exfalso.
      assert (y ∈ range g3) as Hin' by (apply range_elem; by eexists). rewrite Hr in Hin'. by apply elem_of_nil in Hin'.
    + rewrite Hrange. apply NoDup_fst_map_to_list.
    + intros y Hy. apply range_elem in Hy. destruct (Hloop y Hy) as [(z & n & Hz & Hn & Hyz) (n' & z' & Hn' & Hyz' & Hz')].
      split; [exists z|exists z']; (split; [by apply range_elem|]); (apply Hnames; [by apply Hsub|]); [by exists n|by exists n'].
    + intros C HC y Hy. apply range_elem. assert (HC1 : forall z, C z -> is_Some (g1 !! z)).
      { apply (pe_keeps _ _ _ _ _ _ Hp). intros z Hz. destruct (HC z Hz) as [(w & Hw & Hwz) (v & _ & Hzv)].
        apply (names_graph groups g _ _ Hb) in Hwz, Hzv. destruct Hwz as (n & ? & ?), Hzv as (n' & ? & ?). split; [by eexists|by exists w, n]. }
      apply (Hmax C); [|done]. intros z Hz. destruct (HC z Hz) as [_ (v & Hv & Hzv)]. apply (Hnames z v (HC1 z Hz)) in Hzv as (n & ? & ?). by exists n, v.
Qed.
End Sorting.

(** ** Dialer proxies *)

Definition dials (graph : gmap string string) (x y : string) : Prop := graph !! x = Some y.

Lemma hasCycle_total graph fuel : forall current visited path, (forall x, x ∈ visited <-> x ∈ path) -> NoDup path -> (forall x, x ∈ path -> x ∈ dom graph) ->
  (size graph + 1 < fuel + length path)%nat -> exists b v, validateDialerProxiesHasCycle fuel current graph visited path = Some (b, v).
Proof.
  induction fuel as [|fuel IH]; intros current visited path Hv Hnd Hsub Hf.
  - assert (Hs : list_to_set path ⊆ dom graph) by set_solver. apply subseteq_size in Hs. rewrite size_list_to_set, size_dom in Hs by done. lia.
  - cbn. destruct (existsb _ path) eqn:E; [by eexists _, _|]. case_bool_decide; [by eexists _, _|].
    destruct (graph !! current) as [d|] eqn:Hd; [|by eexists _, _]. apply IH.
    + intros x. rewrite elem_of_union, elem_of_app, elem_of_singleton, list_elem_of_singleton, Hv. naive_solver.
    + apply NoDup_app. split; [done|]. split; [|apply NoDup_singleton]. intros x Hx Hx'. apply list_elem_of_singleton in Hx' as ->. by apply H, Hv.
    + intros x [?|Hx]%elem_of_app; [by apply Hsub|]. apply list_elem_of_singleton in Hx as ->. apply elem_of_dom. by eexists.
    + rewrite length_app. cbn. lia.
Qed.
Lemma hasCycle_false graph fuel : forall current visited path v, (forall x, x ∈ visited <-> x ∈ path) ->
  validateDialerProxiesHasCycle fuel current graph visited path = Some (false, v) -> Acc (flip (dials graph)) current.
Proof.
  induction fuel as [|fuel IH]; intros current visited path v Hv E; [done|]. cbn in E. destruct (existsb _ path) eqn:Ep; [done|].
  case_bool_decide as Hin.
  { apply Hv, list_elem_of_In in Hin. assert (existsb (String.eqb current) path = true) by (apply existsb_exists; exists current; by rewrite String.eqb_refl). congruence. }
  constructor. intros y Hy. unfold flip, dials in Hy. rewrite Hy in E. revert E. apply IH.
  intros x. rewrite elem_of_union, elem_of_app, elem_of_singleton, list_elem_of_singleton, Hv. naive_solver.
Qed.
Lemma hasCycle_true graph fuel : forall current visited path v, (forall x, x ∈ path -> tc (dials graph) x current) -> (forall x, x ∈ visited <-> x ∈ path) ->
  validateDialerProxiesHasCycle fuel current graph visited path = Some (true, v) -> exists y, rtc (dials graph) current y /\ tc (dials graph) y y.
Proof.
  induction fuel as [|fuel IH]; intros current visited path v Hp Hv E; [done|]. cbn in E. destruct (existsb _ path) eqn:Ep.
  { apply existsb_exists in Ep as (y & Hy & He). apply String.eqb_eq in He as ->. apply list_elem_of_In in Hy. exists y. split; [done|by apply Hp]. }
  case_bool_decide; [done|]. destruct (graph !! current) as [d|] eqn:Hd; [|done]. apply IH in E as (y & Hr & Hc).
  - exists y. split; [|done]. by apply (rtc_l _ _ d).
  - intros x [Hx|Hx]%elem_of_app; [eapply tc_r; [by apply Hp|done]|]. apply list_elem_of_singleton in Hx as ->. by apply tc_once.
  - intros x. rewrite elem_of_union, elem_of_app, elem_of_singleton, list_elem_of_singleton, Hv. naive_solver.
Qed.
Lemma acc_no_cycle graph x : Acc (flip (dials graph)) x -> ~ tc (dials graph) x x.
Proof.
  induction 1 as [x _ IH]. intros Hc. inversion Hc as [? y Hxy|? y ? Hxy Hyx]; subst; [by apply (IH x)|]. apply (IH y Hxy). by eapply tc_r.
Qed.

Lemma collect_dialers_ok names proxies : forall graph, NoDup (map fst proxies) -> (forall x, x ∈ map fst proxies -> graph !! x = None) ->
  match collect_dialers names proxies graph with
  | inl e => exists n d, e = ErrDialerNotFound n d /\ (n, d) ∈ proxies /\ d <> "" /\ d ∉ names
  | inr g => (forall n d, (n, d) ∈ proxies -> d = "" \/ d ∈ names) /\ forall x y, g !! x = Some y <-> graph !! x = Some y \/ ((x, y) ∈ proxies /\ y <> "")
  end.
Proof.
  induction proxies as [|[n d] rest IH]; intros graph Hnd Hfresh; cbn [collect_dialers].
  { split; [by intros ? ? ?%elem_of_nil|]. intros x y. rewrite elem_of_nil. naive_solver. }
  cbn in Hnd. apply NoDup_cons in Hnd as [Hn Hnd]. destruct (String.eqb_spec d "") as [->|Hd].
  - specialize (IH graph Hnd). destruct (collect_dialers _ rest graph) as [e|g].
    + destruct IH as (n' & d' & ? & ? & ?); [intros x Hx; apply Hfresh; by right|]. exists n', d'. split; [done|]. split; [by right|done].
    + destruct IH as [H1 H2]; [intros x Hx; apply Hfresh; by right|]. split; [intros n' d' [[= -> ->]|Hin]%elem_of_cons; [by left|by apply (H1 n')]|].
      intros x y. rewrite H2, elem_of_cons. naive_solver.
  - case_bool_decide as Hin; [|exists n, d; split_and!; [done|by left|done..]].
    specialize (IH (<[n := d]> graph) Hnd). assert (Hf : forall x, x ∈ map fst rest -> <[n := d]> graph !! x = None).
    { intros x Hx. rewrite lookup_insert_ne by (intros ->; done). apply Hfresh. by right. }
    destruct (collect_dialers _ rest _) as [e|g]; specialize (IH Hf).
    + destruct IH as (n' & d' & ? & ? & ?). exists n', d'. split; [done|]. split; [by right|done].
    + destruct IH as [H1 H2]. split; [intros n' d' [[= -> ->]|Hin']%elem_of_cons; [by right|by apply (H1 n')]|].
      intros x y. rewrite H2, elem_of_cons. destruct (decide (x = n)) as [->|Hne].
      * rewrite lookup_insert_eq. rewrite (Hfresh n) by (by left). split; [intros [[= ->]|[? ?]]; right; [split; [by left|done]|split; [by right|done]]|].
        intros [?|[[[= ->]|Hin'] ?]]; [done|by left|]. destruct Hn. apply list_elem_of_fmap. by exists (n, y).
      * rewrite lookup_insert_ne by done. naive_solver.
Qed.

Lemma check_dialers_ok graph names :
  match check_dialers names graph with
  | Some None => forall x, x ∈ names -> ~ tc (dials graph) x x
  | Some (Some e) => exists x y, e = ErrDialerCircular x /\ x ∈ names /\ rtc (dials graph) x y /\ tc (dials graph) y y
  | None => False
  end.
Proof.
  induction names as [|x names IH]; cbn; [by intros x ?%elem_of_nil|].
  destruct (hasCycle_total graph (size graph + 2) x ∅ []) as (b & v & E); [set_solver|apply NoDup_nil_2|by intros ? ?%elem_of_nil|cbn; lia|].
  rewrite E. cbn. destruct b.
  - apply hasCycle_true in E as (y & Hr & Hc); [|by intros ? ?%elem_of_nil|set_solver].
    exists x, y. split_and!; [done|by left|done..].
  - apply hasCycle_false in E; [|set_solver]. destruct (check_dialers names graph) as [[e|]|]; [|intros y [->|Hy]%elem_of_cons; [by apply acc_no_cycle|by apply IH]|done].
    destruct IH as (x' & y & ? & ? & ?). exists x', y. split; [done|]. split; [by right|done].
Qed.

(** a configuration is accepted exactly when every dialer proxy it names is a proxy and no proxy reaches itself over dialer
    proxies; the error names a proxy whose dialer is missing or one that leads to a circle.  The search always ends: the marks
    of a search are its path, which never visits a proxy twice. *)
Lemma validateDialerProxies_spec range proxies :
  (forall g : gmap string string, range g ≡ₚ (map_to_list g).*1) -> NoDup (map fst proxies) ->
  let R x y := (x, y) ∈ proxies /\ y <> "" in
  match validateDialerProxies range proxies with
  | Some None => (forall x y, R x y -> y ∈ map fst proxies) /\ forall x, ~ tc R x x
  | Some (Some (ErrDialerNotFound x y)) => R x y /\ y ∉ map fst proxies
  | Some (Some (ErrDialerCircular x)) => exists y, rtc R x y /\ tc R y y
  | None => False
  end.
Proof.
  intros Hrange Hnd R. unfold validateDialerProxies.
  pose proof (collect_dialers_ok (list_to_set (map fst proxies)) proxies ∅ Hnd ltac:(done)) as Hc. destruct (collect_dialers _ proxies ∅) as [e|g].
  { destruct Hc as (n & d & -> & ? & ? & Hd). rewrite elem_of_list_to_set in Hd. done. }
  destruct Hc as [Hin Hg]. assert (HR : forall x y, dials g x y <-> R x y) by (intros x y; unfold dials; rewrite Hg, lookup_empty; naive_solver).
  pose proof (check_dialers_ok g (range g)) as Hk. destruct (check_dialers (range g) g) as [[e|]|]; [| |done].
  - destruct Hk as (x & y & -> & _ & Hr & Ht). exists y. split; [apply (rtc_congruence id) with (2 := Hr)|apply (tc_congruence id) with (2 := Ht)]; intros ? ?; apply HR.
  - split.
    + intros x y [Hxy Hy]. destruct (Hin x y Hxy) as [|Hd]; [done|]. by rewrite elem_of_list_to_set in Hd.
    + intros x Hx. assert (Ht : tc (dials g) x x) by (apply (tc_congruence id) with (2 := Hx); intros ? ?; apply HR). apply (Hk x); [|done].
      rewrite Hrange, list_elem_of_fmap. assert (exists y, dials g x y) as [y Hxy] by (inversion Ht; subst; by eexists).
      exists (x, y). split; [done|by apply elem_of_map_to_list].
Qed.

(** ** Concrete configurations *)

Definition keys_of {V} (g : gmap string V) : list string := (map_to_list g).*1.
Definition group (name : string) (proxies : list string) : GroupOption := mkGroupOption name proxies.

Lemma proxyGroupsDagSort_spec_witness :
  let sorted := [group "c" ["p1"]; group "b" ["c"]; group "a" ["b"; "c"]] in
  proxyGroupsDagSort Some keys_of [group "a" ["b"; "c"]; group "b" ["c"]; group "c" ["p1"]] = Some (Ret (None, sorted))
  /\ (forall l1 d l2 d', sorted = l1 ++ d :: l2 -> d' ∈ sorted -> names_data Some d d' -> d' ∈ l1).
Proof.
  intros sorted. assert (E : proxyGroupsDagSort Some keys_of [group "a" ["b"; "c"]; group "b" ["c"]; group "c" ["p1"]] = Some (Ret (None, sorted))) by (vm_compute; reflexivity).
  split; [exact E|]. pose proof (proxyGroupsDagSort_spec Some keys_of (fun g => Permutation_refl _) [group "a" ["b"; "c"]; group "b" ["c"]; group "c" ["p1"]]) as H.
  rewrite E in H. intros l1 d l2 d' Es Hd. apply (proj1 (proj2 H) l1 d l2 d' Es). by rewrite <- (proj1 H).
Defined.

(** The middle one of the three names reported is on no loop. *)
Example connector_reported :
  option_map (fun r => match r with Ret (Some (ErrLoop l), _) => (length l, forallb (fun x => existsb (String.eqb x) l) ["a"; "b"; "c"]) | _ => (0%nat, false) end)
    (proxyGroupsDagSort Some keys_of [group "a" ["a"; "b"]; group "b" ["c"]; group "c" ["c"]; group "d" ["c"]]) = Some (3%nat, true).
Proof. vm_compute. reflexivity. Qed.

Lemma validateDialerProxies_spec_witness :
  validateDialerProxies keys_of [("a", "b"); ("b", "c"); ("c", ""); ("d", "a")] = Some None
  /\ ~ tc (fun x y => (x, y) ∈ [("a", "b"); ("b", "c"); ("c", ""); ("d", "a")] /\ y <> "") "a" "a".
Proof.
  assert (E : validateDialerProxies keys_of [("a", "b"); ("b", "c"); ("c", ""); ("d", "a")] = Some None) by (vm_compute; reflexivity).
  split; [exact E|]. pose proof (validateDialerProxies_spec keys_of [("a", "b"); ("b", "c"); ("c", ""); ("d", "a")] (fun g => Permutation_refl _)) as H.
  cbv zeta in H. rewrite E in H. refine (proj2 (H _) "a"). apply (bool_decide_unpack _). vm_compute. exact I.
Defined.
