(* ===== verification/GoFloat.v ===== *)
(** * Numbers of the Go standard library

    [float64] as IEEE 754 binary64 ([SpecFloat]), conversions between it and 64-bit
    [int], [math.Mod], and the texts of numbers: [strconv.ParseInt] for a base,
    [strconv.ParseFloat], and the shortest form that [fmt.Sprint] prints.  These
    are definitions of the language's library; no source line is named. *)

From S2P Require Import Prelude Names.
From Stdlib Require Export Floats.SpecFloat.
#[local] Open Scope string_scope.
#[local] Open Scope Z_scope.
#[local] Open Scope list_scope.

(** ** binary64 *)

Definition f64_of_Z (z : Z) : spec_float := binary_normalize 53 1024 z 0 false.
Definition f64_add : spec_float -> spec_float -> spec_float := SFadd 53 1024.
Definition f64_sub : spec_float -> spec_float -> spec_float := SFsub 53 1024.
Definition f64_mul : spec_float -> spec_float -> spec_float := SFmul 53 1024.
Definition f64_div : spec_float -> spec_float -> spec_float := SFdiv 53 1024.
Definition f64_neg : spec_float -> spec_float := SFopp.
Definition f64_is_nan (f : spec_float) : bool := match f with S754_nan => true | _ => false end.

(** The integer part, towards zero. *)
Definition f64_trunc (f : spec_float) : option Z :=
  match f with
  | S754_zero _ => Some 0
  | S754_finite s m e =>
      let a := if 0 <=? e then Z.pos m * 2 ^ e else Z.pos m / 2 ^ (- e) in
      Some (if s then - a else a)
  | _ => None
  end.
(** [int(f)]; what does not fit is left to the processor. *)
Definition int_of_f64 (unfit : spec_float -> Z) (f : spec_float) : Z :=
  match f64_trunc f with
  | Some z => if (- 2 ^ 63 <=? z) && (z <? 2 ^ 63) then z else unfit f
  | None => unfit f
  end.

(** [math.Mod]: the remainder has the sign of [x] and is exact. *)
Definition f64_mod (x y : spec_float) : spec_float :=
  match x, y with
  | S754_nan, _ | _, S754_nan | S754_infinity _, _ | _, S754_zero _ => S754_nan
  | S754_zero s, _ => S754_zero s
  | _, S754_infinity _ => x
  | S754_finite s mx ex, S754_finite _ my ey =>
      let e := Z.min ex ey in
      let r := (Z.pos mx * 2 ^ (ex - e)) mod (Z.pos my * 2 ^ (ey - e)) in
      binary_normalize 53 1024 (if s then - r else r) e s
  end.

(** ** Texts of integers *)

Definition lower_c (c : ascii) : ascii := lower_ascii c.
(** The value of a digit, letters counting from ten. *)
Definition any_digit (c : ascii) : option Z :=
  let n := Z.of_nat (nat_of_ascii c) in
  if (48 <=? n) && (n <=? 57) then Some (n - 48)
  else let n := Z.of_nat (nat_of_ascii (lower_ascii c)) in
       if (97 <=? n) && (n <=? 122) then Some (n - 87) else None.
Fixpoint base_digits (base acc : Z) (s : string) : option Z :=
  match s with
  | "" => Some acc
  | String c r => match any_digit c with
                  | Some d => if d <? base then base_digits base (acc * base + d) r else None
                  | None => None
                  end
  end.
(** [strconv.ParseInt(s, base, 64)] for a base that is given. *)
Definition ParseInt64 (base : Z) (s : string) : option Z :=
  let '(neg, r) := match s with
                   | String c r => if Ascii.eqb c "-" then (true, r) else if Ascii.eqb c "+" then (false, r) else (false, s)
                   | "" => (false, "")
                   end in
  match r with
  | "" => None
  | _ => v ← base_digits base 0 r;
         if neg : bool then if v <=? 2 ^ 63 then Some (- v) else None
         else if v <? 2 ^ 63 then Some v else None
  end.

(** ** Texts of floats *)

(** [m * 10^e] rounded to nearest, ties to even, in a format. *)
Definition decimal (prec emax : Z) (s : bool) (m : positive) (e : Z) : spec_float :=
  if 0 <=? e then binary_normalize prec emax (if s then - (Z.pos m * 10 ^ e) else Z.pos m * 10 ^ e) 0 s
  else SFdiv prec emax (S754_finite s m 0) (S754_finite false (Z.to_pos (10 ^ (- e))) 0).

(** Number of decimal digits. *)
Fixpoint zdigits (fuel : nat) (n : Z) : Z :=
  match fuel with O => 0 | S fuel => if n =? 0 then 0 else 1 + zdigits fuel (n / 10) end.

Record mantissa := mkMant { mant : Z; scale : Z; seen_digit : bool; seen_dot : bool }.
(** The digits of a float in [base] with at most one point; underscores are
    skipped and judged separately.  [scale] counts the digits behind the point. *)
Fixpoint read_mantissa (base : Z) (a : mantissa) (s : string) : mantissa * string :=
  match s with
  | "" => (a, "")
  | String c r =>
      if Ascii.eqb c "_" then read_mantissa base a r
      else if Ascii.eqb c "." then
        if seen_dot a then (a, s) else read_mantissa base (mkMant (mant a) (scale a) (seen_digit a) true) r
      else match any_digit c with
           | Some d => if d <? base then read_mantissa base (mkMant (mant a * base + d) (if seen_dot a then scale a + 1 else scale a) true (seen_dot a)) r
                       else (a, s)
           | None => (a, s)
           end
  end.
(** The digits of an exponent; it stops growing at 10000. *)
Fixpoint read_exponent (acc : Z) (s : string) : Z * string :=
  match s with
  | "" => (acc, "")
  | String c r =>
      if Ascii.eqb c "_" then read_exponent acc r
      else if is_digit c then read_exponent (if acc <? 10000 then acc * 10 + digit_val c else acc) r
      else (acc, s)
  end.

(** Underscores stand between digits, or behind a base prefix. *)
Fixpoint underscores (hex : bool) (saw : ascii) (s : string) : bool :=
  match s with
  | "" => negb (Ascii.eqb saw "_")
  | String c r =>
      if is_digit c || (hex && match any_digit c with Some d => d <? 16 | None => false end) then underscores hex "0" r
      else if Ascii.eqb c "_" then Ascii.eqb saw "0" && underscores hex "_" r
      else negb (Ascii.eqb saw "_") && underscores hex "!" r
  end.
Definition has_prefix_letter (s : string) (letters : string) : bool :=
  match s with String c (String d _) => Ascii.eqb c "0" && Contains (lower_ascii d) letters | _ => false end.
Definition underscoreOK (s : string) : bool :=
  if has_prefix_letter s "box" then underscores (has_prefix_letter s "x") "0" (match s with String _ (String _ r) => r | _ => "" end)
  else underscores false "^" s.

Definition strip_sign (s : string) : bool * string :=
  match s with String c r => if Ascii.eqb c "-" then (true, r) else if Ascii.eqb c "+" then (false, r) else (false, s) | "" => (false, "") end.

(** [strconv.ParseFloat(s, 64)]: nothing for a text that is no number and for one
    out of range. *)
Definition ParseFloat (s : string) : option spec_float :=
  let '(neg, r) := strip_sign s in
  let l := ToLower r in
  if String.eqb l "inf" || String.eqb l "infinity" then Some (S754_infinity neg)
  else if String.eqb (ToLower s) "nan" then Some S754_nan
  else
    let hex := has_prefix_letter r "x" in
    let '(a, rest) := read_mantissa (if hex then 16 else 10) (mkMant 0 0 false false)
                        (if hex then match r with String _ (String _ r) => r | _ => "" end else r) in
    if negb (seen_digit a) then None
    else
      let '(e, rest, ok) :=
        match rest with
        | String c r =>
            if Ascii.eqb (lower_ascii c) (if hex then "p" else "e") then
              let '(eneg, r) := strip_sign r in
              match r with
              | String d _ => if is_digit d then let '(e, rest) := read_exponent 0 r in (if eneg then - e else e, rest, true) else (0, rest, false)
              | "" => (0, rest, false)
              end
            else (0, rest, negb hex)
        | "" => (0, "", negb hex)
        end in
      if negb ok || negb (String.eqb rest "") || (Contains "_" r && negb (underscoreOK r)) then None
      else
        let f := match mant a with
                 | Z.pos m =>
                     if hex then binary_normalize 53 1024 (if neg then Z.neg m else Z.pos m) (e - 4 * scale a) neg
                     else
                       let e := e - scale a in
                       let dp := zdigits (String.length r) (Z.pos m) + e in
                       if 310 <? dp then S754_infinity neg else if dp <? -330 then S754_zero neg else decimal 53 1024 neg m e
                 | _ => S754_zero neg
                 end in
        match f with S754_infinity _ => None | _ => Some f end.

(** *** The shortest form *)

(** [m * 2^e = num / den]. *)
Definition num_den (m : positive) (e : Z) : Z * Z := if 0 <=? e then (Z.pos m * 2 ^ e, 1) else (Z.pos m, 2 ^ (- e)).
(** [num * 10^-p / den], its floor. *)
Definition scaled_floor (num den p : Z) : Z := if 0 <=? p then num / (den * 10 ^ p) else num * 10 ^ (- p) / den.
(** The decimal point of [num / den]: [10^(k-1) <= num / den < 10^k].  The search
    starts at the logarithm, rounded. *)
Fixpoint point_of (fuel : nat) (num den k : Z) : Z :=
  match fuel with
  | O => k
  | S fuel =>
      if 1 <=? scaled_floor num den k then point_of fuel num den (k + 1)
      else if scaled_floor num den (k - 1) =? 0 then point_of fuel num den (k - 1)
      else k
  end.
(** Whether [d * 10^p] is read back as the float. *)
Definition reads_back (prec emax : Z) (m : positive) (e d p : Z) : bool :=
  match d with
  | Z.pos d => match decimal prec emax false d p with S754_finite _ m' e' => Pos.eqb m m' && Z.eqb e e' | _ => false end
  | _ => false
  end.
(** [d * 10^p] against [num / den]: twice the distance, scaled by [den] and [10^-p]. *)
Definition distance (num den d p : Z) : Z :=
  if 0 <=? p then Z.abs (num - d * 10 ^ p * den) else Z.abs (num * 10 ^ (- p) - d * den).
(** The first number of digits for which a neighbour reads back, the nearer one. *)
Fixpoint shortest (prec emax : Z) (fuel : nat) (m : positive) (e num den k n : Z) : Z * Z :=
  match fuel with
  | O => (0, 0)
  | S fuel =>
      let p := k - n in
      let lo := scaled_floor num den p in
      let hi := lo + 1 in
      let ok_lo := reads_back prec emax m e lo p in
      let ok_hi := reads_back prec emax m e hi p in
      let d_lo := distance num den lo p in
      let d_hi := distance num den hi p in
      if ok_lo && ok_hi then (if (d_lo <? d_hi) || ((d_lo =? d_hi) && Z.even lo) then lo else hi, p)
      else if ok_lo then (lo, p)
      else if ok_hi then (hi, p)
      else shortest prec emax fuel m e num den k (n + 1)
  end.

Definition zeros (n : Z) : string := String.concat "" (repeat "0" (Z.to_nat n)).
(** The last zeros of the digits are dropped; [nd] digits stand before a point at [dp]. *)
Fixpoint strip_zeros (fuel : nat) (d p : Z) : Z * Z :=
  match fuel with O => (d, p) | S fuel => if (d mod 10 =? 0) && negb (d =? 0) then strip_zeros fuel (d / 10) (p + 1) else (d, p) end.

(** [%v] of a float: the shortest digits that read back, with an exponent below -4
    or from 6 on. *)
Definition exp_text (x : Z) : string :=
  let a := Z.abs x in
  (if x <? 0 then "e-" else "e+") +:+ (if a <? 10 then "0" else "") +:+ FormatInt a.
Definition digits_text (d p : Z) : string :=
  let ds := FormatInt d in
  let nd := Z.of_nat (String.length ds) in
  let dp := nd + p in
  let x := dp - 1 in
  if (x <? -4) || (6 <=? x) then
    match ds with
    | String c "" => String c (exp_text x)
    | String c r => String c "." +:+ r +:+ exp_text x
    | "" => ""
    end
  else if dp <=? 0 then "0." +:+ zeros (- dp) +:+ ds
  else if nd <=? dp then ds +:+ zeros (dp - nd)
  else String.substring 0 (Z.to_nat dp) ds +:+ "." +:+ String.substring (Z.to_nat dp) (String.length ds) ds.
Definition Sprint_float (prec emax : Z) (f : spec_float) : string :=
  match f with
  | S754_nan => "NaN"
  | S754_infinity s => if s then "-Inf" else "+Inf"
  | S754_zero s => if s then "-0" else "0"
  | S754_finite s m e =>
      let '(num, den) := num_den m e in
      let k := point_of 10 num den ((Z.log2 num - Z.log2 den) * 30103 / 100000) in
      let '(d, p) := shortest prec emax 18 m e num den k 1 in
      let '(d, p) := strip_zeros 20 d p in
      (if s then "-" else "") +:+ digits_text d p
  end.
Definition Sprint_f64 : spec_float -> string := Sprint_float 53 1024.
Definition Sprint_f32 : spec_float -> string := Sprint_float 24 128.
