(* ===== verification/GoText.v ===== *)
(** * More of packages [strings] and [sort]

    Splitting at a string, UTF-8 sequences, trimming Unicode space, sorting strings
    and the keys of a map. *)

From stdpp Require Import sorting.
From S2P Require Import Prelude Names.
#[local] Open Scope string_scope.
#[local] Open Scope Z_scope.
#[local] Open Scope list_scope.

(** ** UTF-8 *)

Definition byte_in (lo hi : nat) (c : ascii) : bool := ((lo <=? nat_of_ascii c) && (nat_of_ascii c <=? hi))%nat.
Definition cont : ascii -> bool := byte_in 128 191.
(** The bytes of the first character; one that is no valid encoding counts alone. *)
Definition rune_size (s : string) : nat :=
  match s with
  | String a (String b r) =>
      if byte_in 194 223 a && cont b then 2
      else
        match r with
        | String c r =>
            if (byte_in 224 224 a && byte_in 160 191 b || (byte_in 225 236 a || byte_in 238 239 a) && cont b
                || byte_in 237 237 a && byte_in 128 159 b) && cont c then 3
            else
              match r with
              | String d _ =>
                  if (byte_in 240 240 a && byte_in 144 191 b || byte_in 241 243 a && cont b || byte_in 244 244 a && byte_in 128 143 b)
                     && cont c && cont d then 4 else 1
              | "" => 1
              end
        | "" => 1
        end
  | _ => 1
  end%nat.
Fixpoint str_drop (n : nat) (s : string) : string :=
  match n, s with S n, String _ r => str_drop n r | _, _ => s end.
Fixpoint str_take (n : nat) (s : string) : string :=
  match n, s with S n, String c r => String c (str_take n r) | _, _ => "" end.
Fixpoint explode (fuel : nat) (s : string) : list string :=
  match fuel, s with
  | S fuel, String _ _ => let n := rune_size s in str_take n s :: explode fuel (str_drop n s)
  | _, _ => []
  end.
Definition is_ASCII (s : string) : bool := all_chars (byte_in 0 127) s.

(** ** Splitting *)

(** [skip] bytes belong to a separator that was found; [cur] is the part so far,
    from its end. *)
Fixpoint split_at (sep : string) (s : string) (skip : nat) (cur : string) : list string :=
  match s with
  | "" => [cur]
  | String c r =>
      match skip with
      | S skip => split_at sep r skip cur
      | O => if HasPrefix s sep then cur :: split_at sep r (String.length sep - 1) ""
             else split_at sep r 0 (cur +:+ String c "")%string
      end
  end.
(** [strings.Split]. *)
Definition SplitStr (s sep : string) : list string :=
  match sep with "" => explode (String.length s) s | _ => split_at sep s 0 "" end.
(** [strings.Join], [strings.Repeat]. *)
Definition JoinStr (parts : list string) (sep : string) : string := String.concat sep parts.
Definition Repeat (s : string) (count : Z) : string := String.concat "" (repeat s (Z.to_nat count)).

(** [strings.TrimSuffix(s, c)] for one character. *)
Fixpoint trim_last (c : ascii) (s : string) : string :=
  match s with
  | "" => ""
  | String d "" => if Ascii.eqb c d then "" else s
  | String d r => String d (trim_last c r)
  end.

(** ** Unicode space *)

Definition bytes (l : list nat) : string := fold_right (fun n s => String (ascii_of_nat n) s) "" l.
(** The white space beyond ASCII, in UTF-8. *)
Definition wide_spaces : list string :=
  map bytes ([[194; 133]; [194; 160]; [225; 154; 128]; [226; 128; 168]; [226; 128; 169]; [226; 128; 175]; [226; 129; 159]; [227; 128; 128]]
             ++ map (fun n => [226; 128; n]) (seq 128 11))%nat.
(** The length of a space at the start, or 0. *)
Definition space_prefix (s : string) : nat :=
  match s with
  | "" => 0
  | String c _ => if IsSpace c then 1
                  else match find (HasPrefix s) wide_spaces with Some w => String.length w | None => 0 end
  end%nat.
Fixpoint trim_left_space (fuel : nat) (s : string) : string :=
  match fuel with
  | O => s
  | S fuel => match space_prefix s with O => s | n => trim_left_space fuel (str_drop n s) end
  end.
(** Only white space, to the end. *)
Fixpoint all_space (fuel : nat) (s : string) : bool :=
  match s, fuel with
  | "", _ => true
  | _, O => false
  | _, S fuel => match space_prefix s with O => false | n => all_space fuel (str_drop n s) end
  end.
(** A character that starts a run of white space up to the end is cut off with it. *)
Fixpoint trim_right_space (s : string) : string :=
  match s with
  | "" => ""
  | String c r => if all_space (String.length s) s then "" else String c (trim_right_space r)
  end.
(** [strings.TrimSpace]. *)
Definition TrimSpaceUTF8 (s : string) : string := trim_right_space (trim_left_space (String.length s) s).

(** ** Sorting *)

Fixpoint insert_string (x : string) (l : list string) : list string :=
  match l with
  | [] => [x]
  | y :: r => if String.leb x y then x :: l else y :: insert_string x r
  end.
(** [sort.Strings]. *)
Definition sort_strings (l : list string) : list string := fold_right insert_string [] l.
Definition sorted_keys {A} (m : gmap string A) : list string := sort_strings (map fst (map_to_list m)).

Lemma insert_string_perm x l : insert_string x l ≡ₚ x :: l.
Proof. induction l as [|y l IH]; cbn; [done|]. destruct (String.leb x y); [done|]. by rewrite IH, Permutation_swap. Qed.
Lemma sort_strings_perm l : sort_strings l ≡ₚ l.
Proof. induction l as [|x l IH]; cbn; [done|]. by rewrite insert_string_perm, IH. Qed.
Lemma sorted_keys_elem {A} (m : gmap string A) k : k ∈ sorted_keys m <-> is_Some (m !! k).
Proof.
  unfold sorted_keys. rewrite sort_strings_perm. change (map fst (map_to_list m)) with ((map_to_list m).*1). rewrite list_elem_of_fmap. split.
  - intros ([k' x] & -> & Hin). apply elem_of_map_to_list in Hin. by eexists.
  - intros [x Hx]. exists (k, x). split; [done|]. by apply elem_of_map_to_list.
Qed.
Lemma sorted_keys_NoDup {A} (m : gmap string A) : NoDup (sorted_keys m).
Proof. unfold sorted_keys. rewrite sort_strings_perm. apply NoDup_fst_map_to_list. Qed.
(** The keys come in order, so that maps with the same keys list them alike. *)
Lemma insert_string_sorted x l : StronglySorted String.le l -> StronglySorted String.le (insert_string x l).
Proof.
  induction 1 as [|y l Hl IH Hy]; cbn; [by repeat constructor|]. destruct (String.leb x y) eqn:E.
  - constructor; [by constructor|]. assert (String.le x y) by (unfold String.le; by rewrite E). constructor; [done|].
    eapply Forall_impl; [exact Hy|]. intros z Hz. by trans y.
  - constructor; [done|]. rewrite insert_string_perm. constructor; [|done]. unfold String.le.
    destruct (String.leb_total x y) as [H|H]; [congruence|by rewrite H].
Qed.
Lemma sort_strings_sorted l : StronglySorted String.le (sort_strings l).
Proof. induction l; cbn; [constructor|by apply insert_string_sorted]. Qed.
Lemma sorted_keys_same {A B} (m : gmap string A) (n : gmap string B) : (forall k, is_Some (m !! k) <-> is_Some (n !! k)) -> sorted_keys m = sorted_keys n.
Proof.
  intros H. apply (StronglySorted_unique String.le); try apply sort_strings_sorted.
  apply NoDup_Permutation; try apply sorted_keys_NoDup. intros k. by rewrite !sorted_keys_elem, H.
Qed.
