(* ===== verification/ExprLex.v ===== *)
(** * Override expressions: tokens

    Models the lexer of [adapter/provider/override_expr.go], the language in which a
    configuration edits the proxies of a provider.  The lexer reads bytes: a byte
    above 127 counts as the Latin-1 character of its value. *)

From S2P Require Import Prelude Names.
#[local] Open Scope string_scope.
#[local] Open Scope Z_scope.
#[local] Open Scope list_scope.

(** @go adapter/provider/override_expr.go:170-205 overrideTokenKind *)
Inductive overrideTokenKind :=
| overrideTokenEOF | overrideTokenDot | overrideTokenIdentifier | overrideTokenString | overrideTokenNumber
| overrideTokenLeftParen | overrideTokenRightParen | overrideTokenLeftBracket | overrideTokenRightBracket
| overrideTokenLeftBrace | overrideTokenRightBrace | overrideTokenComma | overrideTokenSemicolon
| overrideTokenColon | overrideTokenPipe | overrideTokenAssign | overrideTokenUpdateAssign
| overrideTokenAddAssign | overrideTokenSubtractAssign | overrideTokenMultiplyAssign | overrideTokenPlus
| overrideTokenMinus | overrideTokenMultiply | overrideTokenDivide | overrideTokenModulo
| overrideTokenAlternative | overrideTokenEqual | overrideTokenNotEqual | overrideTokenLess
| overrideTokenLessEqual | overrideTokenGreater | overrideTokenGreaterEqual.
#[export] Instance overrideTokenKind_dec : EqDecision overrideTokenKind.
Proof. solve_decision. Defined.

(** @go adapter/provider/override_expr.go:207-211 overrideToken *)
Record overrideToken := mkToken { kind : overrideTokenKind; text : string; tpos : Z }.

(** The message of a parse error with its column, and one that wraps another. *)
Inductive ParseErr :=
| parse_errorf (column : Z) (format : string) (args : list string)
| parse_wrapf (column : Z) (format : string) (cause : ParseErr).

(** ** Characters *)

(** [unicode.IsLetter] of [rune(b)] for a byte [b].
    @go adapter/provider/override_expr.go:424-426 isOverrideIdentifierStart *)
Definition isOverrideIdentifierStart (c : ascii) : bool :=
  let n := nat_of_ascii c in
  (Ascii.eqb c "_" || (65 <=? n) && (n <=? 90) || (97 <=? n) && (n <=? 122) || (n =? 170) || (n =? 181) || (n =? 186)
   || (192 <=? n) && (n <=? 214) || (216 <=? n) && (n <=? 246) || (248 <=? n))%nat.
(** @go adapter/provider/override_expr.go:428-430 isOverrideIdentifierPart *)
Definition isOverrideIdentifierPart (c : ascii) : bool :=
  isOverrideIdentifierStart c || Ascii.eqb c "-" || is_digit c.
(** [unicode.IsSpace] of [rune(b)]. *)
Definition byte_IsSpace (c : ascii) : bool := let n := nat_of_ascii c in IsSpace c || ((n =? 133) || (n =? 160))%nat.

Definition quote : ascii := ascii_of_nat 34.
Definition backslash : ascii := ascii_of_nat 92.
Definition newline : ascii := ascii_of_nat 10.

(** The longest prefix of characters of a kind, and the rest. *)
Fixpoint span (p : ascii -> bool) (s : string) : string * string :=
  match s with
  | "" => ("", "")
  | String c r => if p c then let '(a, b) := span p r in (String c a, b) else ("", s)
  end.

(** ** Strings and numbers *)

(** [source[start+1:]]: the raw text up to the next quote that is not escaped, and what
    follows the quote.
    @go adapter/provider/override_expr.go:355-367 scanOverrideString *)
Fixpoint scanOverrideString (s : string) : option (string * string) :=
  match s with
  | "" => None
  | String c r =>
      if Ascii.eqb c backslash then
        match r with
        | "" => None
        | String d r => '(a, b) ← scanOverrideString r; Some (String c (String d a), b)
        end
      else if Ascii.eqb c quote then Some ("", r)
      else '(a, b) ← scanOverrideString r; Some (String c a, b)
  end.

(** [pos] is the position in [raw].
    @go adapter/provider/override_expr.go:369-393 decodeOverrideString *)
Fixpoint decode_from (column pos : Z) (raw : string) : ParseErr + string :=
  match raw with
  | "" => inr ""
  | String c r =>
      if negb (Ascii.eqb c backslash) then
        match decode_from column (pos + 1) r with inl e => inl e | inr t => inr (String c t) end
      else
        match r with
        | "" => inl (parse_errorf (column + pos) "invalid string escape at column %d" [])
        | String d r =>
            match decode_from column (pos + 2) r with
            | inl e => inl e
            | inr t => inr (if Ascii.eqb d quote then String quote t
                            else if Ascii.eqb d "n" then String newline t
                            else if Ascii.eqb d backslash then String backslash t
                            else String backslash (String d t))
            end
        end
  end.
(** @go adapter/provider/override_expr.go:369-393 decodeOverrideString *)
Definition decodeOverrideString (raw : string) (column : Z) : ParseErr + string := decode_from column 0 raw.

Definition is_hex (c : ascii) : bool :=
  let n := nat_of_ascii c in (is_digit c || (97 <=? n) && (n <=? 102) || (65 <=? n) && (n <=? 70))%nat.
(** @go adapter/provider/override_expr.go:403-420 scanOverrideNumber *)
Definition scan_fraction (s : string) : string * string :=
  match s with
  | String c r => if Ascii.eqb c "." then let '(f, r) := span is_digit r in (String c f, r) else ("", s)
  | "" => ("", s)
  end.
Definition scan_exponent (s : string) : string * string :=
  match s with
  | String c r =>
      if Ascii.eqb c "e" || Ascii.eqb c "E" then
        match r with
        | String d r' =>
            if Ascii.eqb d "+" || Ascii.eqb d "-" then let '(x, r) := span is_digit r' in (String c (String d x), r)
            else let '(x, r) := span is_digit r in (String c x, r)
        | "" => (String c "", r)
        end
      else ("", s)
  | "" => ("", s)
  end.
Definition scan_decimal (s : string) : string * string :=
  let '(i, s) := span is_digit s in
  let '(f, s) := scan_fraction s in
  let '(x, s) := scan_exponent s in
  ((i +:+ f +:+ x)%string, s).

(** The number at the start of the source, and the rest.
    @go adapter/provider/override_expr.go:395-422 scanOverrideNumber *)
Definition scanOverrideNumber (s : string) : string * string :=
  match s with
  | String a (String b r) =>
      if Ascii.eqb a "0" && (Ascii.eqb b "x" || Ascii.eqb b "X") then
        let '(h, r) := span is_hex r in (String a (String b h), r)
      else scan_decimal s
  | _ => scan_decimal s
  end.

(** ** The lexer *)

(** Tokens of one character.
    @go adapter/provider/override_expr.go:227-256 lexOverrideExpr *)
Definition single_token (c : ascii) : option overrideTokenKind :=
  if Ascii.eqb c "." then Some overrideTokenDot
  else if Ascii.eqb c "(" then Some overrideTokenLeftParen
  else if Ascii.eqb c ")" then Some overrideTokenRightParen
  else if Ascii.eqb c "[" then Some overrideTokenLeftBracket
  else if Ascii.eqb c "]" then Some overrideTokenRightBracket
  else if Ascii.eqb c "{" then Some overrideTokenLeftBrace
  else if Ascii.eqb c "}" then Some overrideTokenRightBrace
  else if Ascii.eqb c "," then Some overrideTokenComma
  else if Ascii.eqb c ";" then Some overrideTokenSemicolon
  else if Ascii.eqb c ":" then Some overrideTokenColon
  else if Ascii.eqb c "%" then Some overrideTokenModulo
  else if Ascii.eqb c "~" then Some overrideTokenIdentifier
  else None.

(** Tokens that a second character makes another one: that character, the kind with
    it, the kind without it.
    @go adapter/provider/override_expr.go:257-331 lexOverrideExpr *)
Definition double_token (c : ascii) : option (ascii * overrideTokenKind * option overrideTokenKind) :=
  if Ascii.eqb c "|" then Some ("="%char, overrideTokenUpdateAssign, Some overrideTokenPipe)
  else if Ascii.eqb c "+" then Some ("="%char, overrideTokenAddAssign, Some overrideTokenPlus)
  else if Ascii.eqb c "-" then Some ("="%char, overrideTokenSubtractAssign, Some overrideTokenMinus)
  else if Ascii.eqb c "*" then Some ("="%char, overrideTokenMultiplyAssign, Some overrideTokenMultiply)
  else if Ascii.eqb c "/" then Some ("/"%char, overrideTokenAlternative, Some overrideTokenDivide)
  else if Ascii.eqb c "=" then Some ("="%char, overrideTokenEqual, Some overrideTokenAssign)
  else if Ascii.eqb c "!" then Some ("="%char, overrideTokenNotEqual, None)
  else if Ascii.eqb c "<" then Some ("="%char, overrideTokenLessEqual, Some overrideTokenLess)
  else if Ascii.eqb c ">" then Some ("="%char, overrideTokenGreaterEqual, Some overrideTokenGreater)
  else None.

(** The token that starts with [c], and the rest of the source behind it.
    @go adapter/provider/override_expr.go:225-349 lexOverrideExpr *)
Definition lex_token (pos : Z) (c : ascii) (r : string) : ParseErr + (overrideToken * string) :=
  let unexpected := inl (parse_errorf (pos + 1) "unexpected %q at column %d" [String c ""]) in
  match single_token c with
  | Some k => inr (mkToken k (String c "") pos, r)
  | None =>
      match double_token c with
      | Some (second, long, short) =>
          match r, short with
          | String d r', _ =>
              if Ascii.eqb d second then inr (mkToken long (String c (String d "")) pos, r')
              else match short with Some k => inr (mkToken k (String c "") pos, r) | None => unexpected end
          | "", Some k => inr (mkToken k (String c "") pos, r)
          | "", None => unexpected
          end
      | None =>
          if Ascii.eqb c quote then
            match scanOverrideString r with
            | Some (value, rest) => inr (mkToken overrideTokenString value pos, rest)
            | None => inl (parse_errorf (pos + 1) "unterminated string at column %d" [])
            end
          else if is_digit c then
            let '(number, rest) := scanOverrideNumber (String c r) in inr (mkToken overrideTokenNumber number pos, rest)
          else if isOverrideIdentifierStart c then
            let '(name, rest) := span isOverrideIdentifierPart r in inr (mkToken overrideTokenIdentifier (String c name) pos, rest)
          else unexpected
      end
  end.

(** Every turn takes a character at least: the length of the source is fuel enough.
    @go adapter/provider/override_expr.go:213-353 lexOverrideExpr *)
Fixpoint lex_loop (fuel : nat) (pos : Z) (s : string) : option (ParseErr + list overrideToken) :=
  match s with
  | "" => Some (inr [mkToken overrideTokenEOF "" pos])
  | String c r =>
      match fuel with
      | O => None
      | S fuel =>
          if byte_IsSpace c then lex_loop fuel (pos + 1) r
          else if Ascii.eqb c "#" then Some (inr [mkToken overrideTokenEOF "" (pos + Z.of_nat (String.length s))])
          else
            match lex_token pos c r with
            | inl e => Some (inl e)
            | inr (token, rest) =>
                match lex_loop fuel (pos + Z.of_nat (String.length s - String.length rest)) rest with
                | Some (inr tokens) => Some (inr (token :: tokens))
                | other => other
                end
            end
      end
  end.
(** @go adapter/provider/override_expr.go:213-353 lexOverrideExpr *)
Definition lexOverrideExpr (source : string) : option (ParseErr + list overrideToken) :=
  lex_loop (String.length source) 0 source.
