(* ===== verification/ExprValue.v ===== *)
(** * Override expressions: values

    The dynamic values of [adapter/provider/override_expr.go] with their equality,
    order, arithmetic and merging.  Maps are finite maps; where Go ranges over a map
    the result does not depend on the order.  YAML printing, regular expressions,
    Unicode case mapping, conversions that do not fit and the text of values of
    other types are an environment. *)

From S2P Require Import Prelude Names GoFloat GoText.
#[local] Open Scope string_scope.
#[local] Open Scope Z_scope.
#[local] Open Scope list_scope.

Inductive IntKind := KInt | KInt8 | KInt16 | KInt32 | KInt64 | KUint | KUint8 | KUint16 | KUint32 | KUint64.
#[export] Instance IntKind_dec : EqDecision IntKind.
Proof. solve_decision. Defined.

(** [any]: what YAML decodes to, the marker of a match that failed, and values of
    other types, which the language only passes on.
    @go adapter/provider/override_expr.go:1599-1599 overrideNoMatch *)
Inductive any :=
| VNil
| VBool (b : bool)
| VStr (s : string)
| VInt (k : IntKind) (z : Z)
| VFloat32 (f : spec_float)
| VFloat64 (f : spec_float)
| VArr (l : list any)
| VMap (m : gmap string any)
| overrideNoMatch
| VOther (T : string) (id : Z).

(** @go adapter/provider/override_expr.go:1601-1604 isOverrideNoMatch *)
Definition isOverrideNoMatch (value : any) : bool := match value with overrideNoMatch => true | _ => false end.

Record Regexp := mkRegexp { MatchString : string -> bool; ReplaceAllString : string -> string -> string }.
Class ExprEnv := {
  yaml_Marshal : any -> option string;
  regexp_Compile : string -> option Regexp;
  (** [strings.ToUpper] and [ToLower] of a string with bytes above 127 *)
  unicode_ToUpper : string -> string;
  unicode_ToLower : string -> string;
  (** [int(f)] for a float that is no 64-bit integer *)
  unfit : spec_float -> Z;
  (** [fmt.Sprint] of a value that is no scalar *)
  Sprint_other : any -> string
}.

Inductive Err :=
| errorf (format : string) (args : list string)
| wrapf (format : string) (args : list string) (cause : Err).
Abbreviation Res A := (Err + A)%type.
#[global] Instance Res_ret : MRet (sum Err) := fun A x => inr x.
#[global] Instance Res_bind : MBind (sum Err) := fun A B f x => match x with inl e => inl e | inr a => f a end.

Section Values.
Context `{Env : ExprEnv}.

Definition Sprint (value : any) : string :=
  match value with
  | VNil => "<nil>"
  | VBool b => if b then "true" else "false"
  | VStr s => s
  | VInt _ z => FormatInt z
  | VFloat32 f => Sprint_f32 f
  | VFloat64 f => Sprint_f64 f
  | _ => Sprint_other value
  end.

(** ** Kinds of values *)

(** @go adapter/provider/override_expr.go:2865-2894 overrideNumber *)
Definition overrideNumber (value : any) : option (spec_float * bool) :=
  match value with
  | VInt _ z => Some (f64_of_Z z, true)
  | VFloat32 f | VFloat64 f => Some (f, false)
  | _ => None
  end.
(** @go adapter/provider/override_expr.go:2919-2926 isOverrideScalar *)
Definition isOverrideScalar (value : any) : bool :=
  match value with
  | VNil | VBool _ | VStr _ => true
  | _ => match overrideNumber value with Some _ => true | None => false end
  end.
(** @go adapter/provider/override_expr.go:2968-2974 overrideTruthy *)
Definition overrideTruthy (value : any) : bool := match value with VNil => false | VBool b => b | _ => true end.
(** @go adapter/provider/override_expr.go:2976-2999 overrideType *)
Definition overrideType (value : any) : string :=
  match value with
  | VNil => "!!null"
  | VBool _ => "!!bool"
  | VStr _ => "!!str"
  | VArr _ => "!!seq"
  | VMap _ => "!!map"
  | VFloat32 _ | VFloat64 _ => "!!float"
  | VInt _ _ => "!!int"
  | overrideNoMatch => "provider.overrideNoMatch"
  | VOther T _ => T
  end.

(** ** Copying *)

(** @go adapter/provider/override_expr.go:3015-3032 cloneOverrideValue *)
Fixpoint cloneOverrideValue (value : any) : any :=
  match value with
  | VMap m => VMap (cloneOverrideValue <$> m)
  | VArr l => VArr (cloneOverrideValue <$> l)
  | _ => value
  end.

(** ** Equality *)

(** [reflect.DeepEqual]; that two names of one array or map are equal even if it
    holds a NaN is left out. *)
Fixpoint DeepEqual (x y : any) {struct x} : bool :=
  match x, y with
  | VNil, VNil | overrideNoMatch, overrideNoMatch => true
  | VBool a, VBool b => Bool.eqb a b
  | VStr a, VStr b => String.eqb a b
  | VInt k a, VInt j b => bool_decide (k = j) && (a =? b)
  | VFloat32 a, VFloat32 b | VFloat64 a, VFloat64 b => SFeqb a b
  | VArr l, VArr k =>
      (fix all2 l k := match l, k with [], [] => true | a :: l, b :: k => DeepEqual a b && all2 l k | _, _ => false end) l k
  | VMap m, VMap n =>
      bool_decide (size m = size n)
      && map_fold (fun key a acc => acc && match n !! key with Some b => DeepEqual a b | None => false end) true m
  | VOther T a, VOther U b => String.eqb T U && (a =? b)
  | _, _ => false
  end.

(** @go adapter/provider/override_expr.go:2896-2902 overrideEqual *)
Definition overrideEqual (left right : any) : bool :=
  match overrideNumber left with
  | Some (leftNumber, leftInteger) =>
      match overrideNumber right with
      | Some (rightNumber, rightInteger) => Bool.eqb leftInteger rightInteger && SFeqb leftNumber rightNumber
      | None => false
      end
  | None => DeepEqual left right
  end.
(** @go adapter/provider/override_expr.go:2904-2917 overrideYQEqual *)
Definition overrideYQEqual (left right : any) : bool :=
  if negb (isOverrideScalar left) || negb (isOverrideScalar right) then false
  else
    match left, right with
    | VNil, VNil => true
    | VNil, _ | _, VNil => false
    | _, _ =>
        match overrideNumber left, overrideNumber right with
        | Some (leftNumber, leftInteger), Some (rightNumber, rightInteger) =>
            Bool.eqb leftInteger rightInteger && SFeqb leftNumber rightNumber
        | _, _ => String.eqb (Sprint left) (Sprint right)
        end
    end.

(** The elements of a container are looked at with the functions [has] made from them.
    @go adapter/provider/override_expr.go:2928-2966 overrideContains *)
Fixpoint overrideContains (container contained : any) {struct container} : bool :=
  match container with
  | VStr s => match contained with VStr value => ContainsStr s value | _ => false end
  | VArr l =>
      let values := match contained with VArr values => values | _ => [contained] end in
      let has := map (fun candidate wanted => overrideEqual candidate wanted || overrideContains candidate wanted) l in
      forallb (fun wanted => existsb (fun h => h wanted) has) values
  | VMap m =>
      match contained with
      | VMap values =>
          let has := (fun candidate wanted => overrideEqual candidate wanted || overrideContains candidate wanted) <$> m in
          map_fold (fun key wanted acc => acc && match has !! key with Some h => h wanted | None => false end) true values
      | _ => false
      end
  | _ => false
  end.

(** ** Order *)

Definition f64_cmp (a b : spec_float) : Z := if SFltb a b then -1 else if SFltb b a then 1 else 0.
Definition string_cmp (a b : string) : Z := match String.compare a b with Lt => -1 | Eq => 0 | Gt => 1 end.

(** @go adapter/provider/override_expr.go:2770-2791 compareOverrideValues *)
Definition compareOverrideValues (left right : any) : Res Z :=
  match overrideNumber left with
  | Some (leftNumber, _) =>
      match overrideNumber right with
      | Some (rightNumber, _) => inr (f64_cmp leftNumber rightNumber)
      | None => inl (errorf "cannot compare number and %s" [overrideType right])
      end
  | None =>
      match left, right with
      | VStr leftString, VStr rightString => inr (string_cmp leftString rightString)
      | _, _ => inl (errorf "cannot compare %s and %s" [overrideType left; overrideType right])
      end
  end.

(** @go adapter/provider/override_expr.go:2794-2810 compareOverrideSortValues *)
Definition rank (value : any) : Z :=
  match value with
  | VNil => 0
  | VBool _ => 1
  | VStr _ => 3
  | VArr _ | VMap _ => 4
  | _ => match overrideNumber value with Some _ => 2 | None => 4 end
  end.
(** @go adapter/provider/override_expr.go:2793-2835 compareOverrideSortValues *)
Definition compareOverrideSortValues (left right : any) : Res Z :=
  if negb (rank left =? rank right) then inr (if rank left <? rank right then -1 else 1)
  else
    match left, right with
    | VNil, _ => inr 0
    | VBool leftBool, VBool rightBool => inr (if Bool.eqb leftBool rightBool then 0 else if negb leftBool then -1 else 1)
    | _, _ =>
        if (rank left =? 2) || (rank left =? 3) then compareOverrideValues left right
        else inl (errorf "sort only supports scalar array values in override-expr" [])
    end.

(** ** Merging, flattening *)

(** What a key of the right mapping leaves under it.
    @go adapter/provider/override_expr.go:3001-3013 mergeOverrideMaps *)
Fixpoint merge_value (left : option any) (right : any) {struct right} : any :=
  match left, right with
  | Some (VMap leftMap), VMap rightMap =>
      VMap (map_fold (fun key rightValue result => <[key := merge_value (result !! key) rightValue]> result) (cloneOverrideValue <$> leftMap) rightMap)
  | _, _ => cloneOverrideValue right
  end.
(** @go adapter/provider/override_expr.go:3001-3013 mergeOverrideMaps *)
Definition mergeOverrideMaps (left right : gmap string any) : gmap string any :=
  map_fold (fun key rightValue result => <[key := merge_value (result !! key) rightValue]> result) (cloneOverrideValue <$> left) right.

(** One element of a flattened array; a negative depth has no end.
    @go adapter/provider/override_expr.go:2837-2852 flattenOverrideArray *)
Fixpoint flatten_value (depth : Z) (value : any) : list any :=
  match value with
  | VArr children => if depth =? 0 then [cloneOverrideValue value]
                     else concat (map (flatten_value (if 0 <? depth then depth - 1 else depth)) children)
  | _ => [cloneOverrideValue value]
  end.
(** @go adapter/provider/override_expr.go:2837-2852 flattenOverrideArray *)
Definition flattenOverrideArray (values : list any) (depth : Z) : list any := concat (map (flatten_value depth) values).

(** ** Keys of distinct values *)

(** [None] when the value does not print as YAML.
    @go adapter/provider/override_expr.go:2854-2863 overrideUniqueKey *)
Definition overrideUniqueKey (value : any) : option string :=
  if isOverrideScalar value then Some (match value with VNil => "null" | _ => Sprint value end)
  else yaml_Marshal value.

(** ** Arithmetic *)

(** [int] is 64 bits wide.
    @go adapter/provider/override_expr.go:2734-2768 evaluateOverrideNumbers *)
Definition evaluateOverrideNumbers (operator : string) (left right : any) : Res any :=
  match overrideNumber left, overrideNumber right with
  | Some (leftNumber, leftInteger), Some (rightNumber, rightInteger) =>
      let l := int_of_f64 unfit leftNumber in
      let r := int_of_f64 unfit rightNumber in
      let integers := leftInteger && rightInteger in
      if String.eqb operator "+" then inr (if integers then VInt KInt (i64 (l + r)) else VFloat64 (f64_add leftNumber rightNumber))
      else if String.eqb operator "-" then inr (if integers then VInt KInt (i64 (l - r)) else VFloat64 (f64_sub leftNumber rightNumber))
      else if String.eqb operator "*" then inr (if integers then VInt KInt (i64 (l * r)) else VFloat64 (f64_mul leftNumber rightNumber))
      else if String.eqb operator "/" then inr (VFloat64 (f64_div leftNumber rightNumber))
      else if String.eqb operator "%" then
        if integers then
          if SFeqb rightNumber (S754_zero false) then inl (errorf "cannot modulo by zero" [])
          else inr (VInt KInt (i64 (Z.rem l r)))
        else inr (VFloat64 (f64_mod leftNumber rightNumber))
      else inl (errorf "unsupported numeric operator %q" [operator])
  | _, _ => inl (errorf "operator %s cannot be used with %s and %s" [operator; overrideType left; overrideType right])
  end.

(** @go adapter/provider/override_expr.go:2583-2604 evaluateOverrideBinary *)
Definition binary_compare (operator : string) (left right : any) : Res any :=
  if negb (isOverrideScalar left) || negb (isOverrideScalar right) then
    inl (errorf "cannot compare %s and %s" [overrideType left; overrideType right])
  else
    match left, right with
    | VNil, _ | _, VNil =>
        let bothNull := match left, right with VNil, VNil => true | _, _ => false end in
        inr (VBool (bothNull && (String.eqb operator "<=" || String.eqb operator ">=")))
    | _, _ =>
        comparison ← compareOverrideValues left right;
        inr (VBool (if String.eqb operator "<" then comparison <? 0
                    else if String.eqb operator "<=" then comparison <=? 0
                    else if String.eqb operator ">" then 0 <? comparison
                    else 0 <=? comparison))
    end.

(** @go adapter/provider/override_expr.go:2605-2642 evaluateOverrideBinary *)
Definition binary_add (left right : any) : Res any :=
  match left with
  | VNil => inr (cloneOverrideValue right)
  | VStr leftString =>
      match right with
      | VNil => inr (VStr leftString)
      | _ => if negb (isOverrideScalar right) then inl (errorf "cannot add string and %s" [overrideType right])
             else inr (VStr (leftString +:+ Sprint right))
      end
  | VArr leftArray =>
      match right with
      | VNil => inr (VArr leftArray)
      | VArr rightArray => inr (VArr (leftArray ++ (cloneOverrideValue <$> rightArray)))
      | _ => inr (VArr (leftArray ++ [cloneOverrideValue right]))
      end
  | VMap leftMap =>
      match right with
      | VMap rightMap => inr (VMap ((cloneOverrideValue <$> rightMap) ∪ (cloneOverrideValue <$> leftMap)))
      | _ => inl (errorf "cannot add mapping and %s" [overrideType right])
      end
  | _ =>
      match right with
      | VStr rightString => if isOverrideScalar left then inr (VStr (Sprint left +:+ rightString)) else evaluateOverrideNumbers "+" left right
      | _ => evaluateOverrideNumbers "+" left right
      end
  end.

(** @go adapter/provider/override_expr.go:2643-2667 evaluateOverrideBinary *)
Definition binary_subtract (left right : any) : Res any :=
  match left with
  | VNil => inr (cloneOverrideValue right)
  | VArr leftArray =>
      match right with
      | VArr rightArray => inr (VArr (List.filter (fun item => negb (existsb (overrideEqual item) rightArray)) leftArray))
      | _ => inl (errorf "%s cannot be subtracted from !!seq" [overrideType right])
      end
  | _ => evaluateOverrideNumbers "-" left right
  end.

(** The string [value] repeated as often as [number] says.
    @go adapter/provider/override_expr.go:2690-2709 evaluateOverrideBinary *)
Definition repeat_string (value : string) (number : any) : Res any :=
  match overrideNumber number with
  | Some (count, true) =>
      if SFltb count (S754_zero false) then inl (errorf "string multiplier must be a non-negative integer" [])
      else if SFltb (f64_of_Z 10000000) count then inl (errorf "string multiplier cannot exceed 10 million" [])
      else inr (VStr (Repeat value (int_of_f64 unfit count)))
  | _ => inl (errorf "string multiplier must be a non-negative integer" [])
  end.
(** @go adapter/provider/override_expr.go:2668-2710 evaluateOverrideBinary *)
Definition binary_multiply (left right : any) : Res any :=
  match left, right with
  | _, VNil => inr (cloneOverrideValue left)
  | VNil, VArr _ | VNil, VMap _ => inr (cloneOverrideValue right)
  | VMap leftMap, VMap rightMap => inr (VMap (mergeOverrideMaps leftMap rightMap))
  | VMap _, _ => inl (errorf "cannot multiply mapping and %s" [overrideType right])
  | VArr _, VArr _ => inr (cloneOverrideValue right)
  | VStr value, _ => repeat_string value right
  | _, VStr value => repeat_string value left
  | _, _ => evaluateOverrideNumbers "*" left right
  end.

(** @go adapter/provider/override_expr.go:2711-2727 evaluateOverrideBinary *)
Definition binary_divide (left right : any) : Res any :=
  match left with
  | VStr leftString =>
      match right with
      | VStr rightString => inr (VArr (if String.eqb leftString "" then [] else VStr <$> SplitStr leftString rightString))
      | _ => inl (errorf "operator / cannot be used with !!str and %s" [overrideType right])
      end
  | _ => evaluateOverrideNumbers "/" left right
  end.

(** @go adapter/provider/override_expr.go:2568-2732 evaluateOverrideBinary *)
Definition evaluateOverrideBinary (operator : string) (left right : any) : Res any :=
  if String.eqb operator "and" then inr (VBool (overrideTruthy left && overrideTruthy right))
  else if String.eqb operator "or" then inr (VBool (overrideTruthy left || overrideTruthy right))
  else if String.eqb operator "//" then inr (if overrideTruthy left then left else right)
  else if String.eqb operator "==" then inr (VBool (overrideYQEqual left right))
  else if String.eqb operator "!=" then inr (VBool (negb (overrideYQEqual left right)))
  else if existsb (String.eqb operator) ["<"; "<="; ">"; ">="] then binary_compare operator left right
  else if String.eqb operator "+" then binary_add left right
  else if String.eqb operator "-" then binary_subtract left right
  else if String.eqb operator "*" then binary_multiply left right
  else if String.eqb operator "/" then binary_divide left right
  else if String.eqb operator "%" then evaluateOverrideNumbers operator left right
  else inl (errorf "unsupported operator %q" [operator]).
End Values.
