(* ===== verification/ExprParse.v ===== *)
(** * Override expressions: syntax and parser

    The syntax trees of [adapter/provider/override_expr.go] and its recursive-descent
    parser.  A parser takes the tokens that are left and returns a tree with what is
    left then; [None] is lack of fuel.  The knot is [parseValueExpression]: the other
    functions are written over it, so that the fuel counts nested expressions only;
    loops take the number of tokens. *)

From S2P Require Import Prelude Names GoFloat GoText ExprLex ExprValue.
#[local] Open Scope string_scope.
#[local] Open Scope Z_scope.
#[local] Open Scope list_scope.

(** ** Syntax *)

(** @go adapter/provider/override_expr.go:1095-1111 overridePathSegment *)
Inductive overridePathSegment :=
| overridePathField (key : string)
| overridePathIndex (index : Z)
| overridePathWildcard.
Abbreviation overridePath := (list overridePathSegment).

(** The expressions, one constructor for each type that implements the interface; a
    part of a string is a literal or an expression.
    @go adapter/provider/override_expr.go:1543-1549 overrideValueExpr *)
Inductive overrideValueExpr :=
| overridePipelineExpr (stages : list overrideValueExpr)
| overrideUnionExpr (values : list overrideValueExpr)
| overrideLiteralExpr (value : any)
| overrideStringExpr (parts : list (string + overrideValueExpr))
| overridePathExpr (path : overridePath)
| overrideArrayExpr (values : list overrideValueExpr)
| overrideMapExpr (entries : list (string * overrideValueExpr))
| overrideValueUpdateExpr (path : overridePath) (operator : overrideTokenKind) (value : overrideValueExpr)
| overrideBinaryExpr (operator : string) (left right : overrideValueExpr)
| overrideFunctionExpr (name : string) (args : list overrideValueExpr)
| overrideStreamFunctionExpr (name : string) (args : list overrideValueExpr).

(** @go adapter/provider/override_expr.go:1113-1120 overrideTargetStage *)
Inductive overrideTargetStage :=
| StagePath (path : overridePath)
| StageCondition (condition : overrideValueExpr).

(** @go adapter/provider/override_expr.go:1251-1260 overrideAssignStatement *)
Inductive overrideStatement :=
| overrideAssignStatement (path : overridePath) (target : option (list overrideTargetStage)) (operator : overrideTokenKind) (value : overrideValueExpr)
| overrideFilterStatement (expression : overrideValueExpr)
| overrideDeleteStatement (paths : list overridePath).

(** @go adapter/provider/override_expr.go:114-117 OverrideExpr *)
Record OverrideExpr := mkOverrideExpr { source : string; statements : list overrideStatement }.

(** @go adapter/provider/override_expr.go:2166-2177 isOverrideFunction *)
Definition isOverrideFunction (name : string) : bool :=
  existsb (String.eqb name)
    ["length"; "type"; "keys"; "has"; "contains"; "select"; "sub"; "test"; "split"; "join"; "upcase"; "downcase"; "trim";
     "tostring"; "tonumber"; "not"; "reverse"; "sort"; "unique"; "flatten"; "any"; "all"; "map"; "map_values"; "filter";
     "to_entries"; "from_entries"; "with_entries"; "any_c"; "all_c"].
(** @go adapter/provider/override_expr.go:2179-2187 isOverrideStreamFunction *)
Definition isOverrideStreamFunction (name : string) : bool :=
  existsb (String.eqb name) ["map"; "map_values"; "filter"; "to_entries"; "from_entries"; "with_entries"; "any_c"; "all_c"].

(** ** Parsers *)

Definition Parser (A : Type) : Type := list overrideToken -> option (ParseErr + A * list overrideToken).
Definition p_ret {A} (a : A) : Parser A := fun ts => Some (inr (a, ts)).
Definition p_fail {A} (e : ParseErr) : Parser A := fun _ => Some (inl e).
Definition p_bind {A B} (p : Parser A) (f : A -> Parser B) : Parser B := fun ts =>
  match p ts with
  | None => None
  | Some (inl e) => Some (inl e)
  | Some (inr (a, ts)) => f a ts
  end.
Declare Scope parser_scope.
Notation "x <~ p ;; q" := (p_bind p (fun x => q)) (at level 100, p at next level, right associativity) : parser_scope.
Notation "p ~;; q" := (p_bind p (fun _ => q)) (at level 100, right associativity) : parser_scope.
#[local] Open Scope parser_scope.

Definition EOF_token : overrideToken := mkToken overrideTokenEOF "" 0.
(** @go adapter/provider/override_expr.go:1058-1060 peek *)
Definition peek_of (ts : list overrideToken) : overrideToken := match ts with t :: _ => t | [] => EOF_token end.
Definition peek : Parser overrideToken := fun ts => Some (inr (peek_of ts, ts)).
(** @go adapter/provider/override_expr.go:1062-1068 next *)
Definition next : Parser overrideToken := fun ts =>
  Some (inr (peek_of ts, if decide (kind (peek_of ts) = overrideTokenEOF) then ts else tail ts)).
(** @go adapter/provider/override_expr.go:1070-1076 match *)
Definition match_ (k : overrideTokenKind) : Parser bool :=
  token <~ peek ;; if decide (kind token = k) then next ~;; p_ret true else p_ret false.
(** @go adapter/provider/override_expr.go:1091-1093 errorf *)
Definition token_errorf (token : overrideToken) (format : string) (args : list string) : ParseErr := parse_errorf (tpos token + 1) format args.
(** @go adapter/provider/override_expr.go:1078-1084 expect *)
Definition expect (k : overrideTokenKind) (message : string) : Parser overrideToken :=
  token <~ next ;; if decide (kind token = k) then p_ret token else p_fail (token_errorf token message []).
(** @go adapter/provider/override_expr.go:1086-1089 peekIdentifier *)
Definition is_identifier (value : string) (token : overrideToken) : bool :=
  bool_decide (kind token = overrideTokenIdentifier) && String.eqb (text token) value.
Definition peekIdentifier (value : string) : Parser bool := token <~ peek ;; p_ret (is_identifier value token).

(** @go adapter/provider/override_expr.go:740-748 isOverrideAssignmentToken *)
Definition isOverrideAssignmentToken (k : overrideTokenKind) : bool :=
  match k with
  | overrideTokenAssign | overrideTokenUpdateAssign | overrideTokenAddAssign | overrideTokenSubtractAssign | overrideTokenMultiplyAssign => true
  | _ => false
  end.

(** The tokens left, as fuel of a loop that takes one at least every turn. *)
Definition with_fuel {A} (p : nat -> Parser A) : Parser A := fun ts => p (length ts) ts.

(** ** Paths *)

(** @go adapter/provider/override_expr.go:656-665 pathField *)
Definition pathField (token : overrideToken) : Parser string :=
  if decide (kind token = overrideTokenIdentifier) then p_ret (text token)
  else match decodeOverrideString (text token) (tpos token + 1) with
       | inl e => p_fail (parse_wrapf (tpos token + 1) "%v" e)
       | inr value => p_ret value
       end.

(** What stands between brackets.
    @go adapter/provider/override_expr.go:619-649 parsePath *)
Definition bracket_segment : Parser overridePathSegment :=
  token <~ next ;;
  segment <~ match kind token with
             | overrideTokenString | overrideTokenIdentifier => key <~ pathField token ;; p_ret (overridePathField key)
             | overrideTokenNumber =>
                 match ParseInt64 10 (text token) with
                 | Some index => p_ret (overridePathIndex index)
                 | None => p_fail (token_errorf token "invalid array index %q" [text token])
                 end
             | overrideTokenMinus =>
                 number <~ expect overrideTokenNumber "expected array index after '-'" ;;
                 let t := (text token +:+ text number)%string in
                 match ParseInt64 10 t with
                 | Some index => p_ret (overridePathIndex index)
                 | None => p_fail (token_errorf token "invalid array index %q" [t])
                 end
             | _ => p_fail (token_errorf token "expected field name or array index" [])
             end ;;
  expect overrideTokenRightBracket "expected ']' after path index" ~;;
  p_ret segment.

(** @go adapter/provider/override_expr.go:602-653 parsePath *)
Fixpoint path_loop (fuel : nat) (segments : overridePath) : Parser overridePath :=
  match fuel with
  | O => fun _ => None
  | S fuel =>
      token <~ peek ;;
      match kind token with
      | overrideTokenDot =>
          next ~;;
          token <~ next ;;
          if decide (kind token = overrideTokenIdentifier \/ kind token = overrideTokenString) then
            key <~ pathField token ;; path_loop fuel (segments ++ [overridePathField key])
          else p_fail (token_errorf token "expected field name after '.'" [])
      | overrideTokenLeftBracket =>
          next ~;;
          wildcard <~ match_ overrideTokenRightBracket ;;
          if wildcard : bool then path_loop fuel (segments ++ [overridePathWildcard])
          else segment <~ bracket_segment ;; path_loop fuel (segments ++ [segment])
      | _ => p_ret segments
      end
  end.
(** @go adapter/provider/override_expr.go:590-654 parsePath *)
Definition parsePath : Parser overridePath :=
  expect overrideTokenDot "expected path starting with '.'" ~;;
  token <~ peek ;;
  first <~ (if decide (kind token = overrideTokenIdentifier \/ kind token = overrideTokenString)
            then next ~;; key <~ pathField token ;; p_ret [overridePathField key] else p_ret []) ;;
  with_fuel (fun fuel => path_loop (S fuel) first).

(** ** Literals *)

Definition contains_any (s chars : string) : bool := negb (all_chars (fun c => negb (Contains c chars)) s).
(** @go adapter/provider/override_expr.go:842-860 parseNumber *)
Definition parseNumber (token : overrideToken) : Parser overrideValueExpr :=
  let t := text token in
  let invalid := p_fail (token_errorf token "invalid number %q" [t]) in
  if contains_any t ".eE" then
    match ParseFloat t with Some value => p_ret (overrideLiteralExpr (VFloat64 value)) | None => invalid end
  else
    let '(base, digits) := if HasPrefix t "0x" || HasPrefix t "0X" then (16, str_drop 2 t) else (10, t) in
    match ParseInt64 base digits with Some value => p_ret (overrideLiteralExpr (VInt KInt value)) | None => invalid end.

(** The text up to the parenthesis that closes an interpolation, and what follows it;
    [quoted] inside a string.
    @go adapter/provider/override_expr.go:912-938 findOverrideInterpolationEnd *)
Fixpoint findOverrideInterpolationEnd (quoted : bool) (depth : nat) (raw : string) : option (string * string) :=
  match raw with
  | "" => None
  | String c r =>
      if Ascii.eqb c backslash then
        match r with
        | "" => None
        | String d r => '(a, b) ← findOverrideInterpolationEnd quoted depth r; Some (String c (String d a), b)
        end
      else if Ascii.eqb c quote then '(a, b) ← findOverrideInterpolationEnd (negb quoted) depth r; Some (String c a, b)
      else if quoted then '(a, b) ← findOverrideInterpolationEnd quoted depth r; Some (String c a, b)
      else if Ascii.eqb c "(" then '(a, b) ← findOverrideInterpolationEnd quoted (S depth) r; Some (String c a, b)
      else if Ascii.eqb c ")" then
        match depth with
        | O => Some ("", r)
        | S depth => '(a, b) ← findOverrideInterpolationEnd quoted depth r; Some (String c a, b)
        end
      else '(a, b) ← findOverrideInterpolationEnd quoted depth r; Some (String c a, b)
  end.

(** [strings.ReplaceAll] of an escaped quote by a quote. *)
Fixpoint unescape_quotes (s : string) : string :=
  match s with
  | String c (String d r as t) => if Ascii.eqb c backslash && Ascii.eqb d quote then String quote (unescape_quotes r) else String c (unescape_quotes t)
  | _ => s
  end.

(** ** Expressions *)

Section Parse.
(** [parseValueExpression] for the expressions nested in the one at hand. *)
Context (parseValueExpression : bool -> Parser overrideValueExpr).

(** @go adapter/provider/override_expr.go:721-738 parseUnionExpression *)
Fixpoint union_loop (fuel : nat) (allowLowPrecedence : bool) (values : list overrideValueExpr) : Parser (list overrideValueExpr) :=
  match fuel with
  | O => fun _ => None
  | S fuel =>
      comma <~ match_ overrideTokenComma ;;
      if comma : bool then value <~ parseValueExpression allowLowPrecedence ;; union_loop fuel allowLowPrecedence (values ++ [value])
      else p_ret values
  end.
Definition parseUnionExpression (allowLowPrecedence : bool) : Parser overrideValueExpr :=
  first <~ parseValueExpression allowLowPrecedence ;;
  values <~ with_fuel (fun fuel => union_loop (S fuel) allowLowPrecedence [first]) ;;
  p_ret match values with [_] => first | _ => overrideUnionExpr values end.

(** @go adapter/provider/override_expr.go:940-954 parseOverrideValueExpr *)
Definition parseOverrideValueExpr (source : string) : option (ParseErr + overrideValueExpr) :=
  match lexOverrideExpr source with
  | None => None
  | Some (inl e) => Some (inl e)
  | Some (inr tokens) =>
      match parseUnionExpression true tokens with
      | None => None
      | Some (inl e) => Some (inl e)
      | Some (inr (expression, rest)) =>
          let token := peek_of rest in
          if decide (kind token = overrideTokenEOF) then Some (inr expression)
          else Some (inl (token_errorf token "unexpected %q" [text token]))
      end
  end.

(** [literal] is the text since [literalStart], [pos] the place reached.
    @go adapter/provider/override_expr.go:862-910 parseString *)
Fixpoint string_loop (fuel : nat) (token : overrideToken) (literal : string) (literalStart pos : Z) (s : string) (parts : list (string + overrideValueExpr)) : option (ParseErr + overrideValueExpr) :=
  match fuel with
  | O => None
  | S fuel =>
      match s with
      | String c (String d r as t) =>
          if negb (Ascii.eqb c backslash) then string_loop fuel token (literal +:+ String c "") literalStart (pos + 1) t parts
          else if negb (Ascii.eqb d "(") then string_loop fuel token (literal +:+ String c (String d "")) literalStart (pos + 2) r parts
          else
            match decodeOverrideString literal (tpos token + 1 + literalStart) with
            | inl e => Some (inl e)
            | inr literal =>
                match findOverrideInterpolationEnd false 0 r with
                | None => Some (inl (token_errorf token "unterminated interpolation" []))
                | Some (inner, rest) =>
                    match parseOverrideValueExpr (unescape_quotes inner) with
                    | None => None
                    | Some (inl e) => Some (inl (parse_wrapf (tpos token + 1) "invalid interpolation: %v" e))
                    | Some (inr expression) =>
                        let pos := pos + 2 + Z.of_nat (String.length inner) + 1 in
                        string_loop fuel token "" pos pos rest (parts ++ (if String.eqb literal "" then [] else [inl literal]) ++ [inr expression])
                    end
                end
            end
      | _ =>
          match decodeOverrideString (literal +:+ s) (tpos token + 1 + literalStart) with
          | inl e => Some (inl e)
          | inr literal =>
              Some (inr match parts with
                        | [] => overrideLiteralExpr (VStr literal)
                        | _ => overrideStringExpr (parts ++ (if String.eqb literal "" then [] else [inl literal]))
                        end)
          end
      end
  end.
Definition parseString (token : overrideToken) : Parser overrideValueExpr := fun ts =>
  match string_loop (S (String.length (text token))) token "" 0 0 (text token) [] with
  | None => None
  | Some (inl e) => Some (inl e)
  | Some (inr expression) => Some (inr (expression, ts))
  end.

(** Expressions between separators, up to what is none.
    @go adapter/provider/override_expr.go:978-988 parsePrimary *)
Fixpoint separated_loop (fuel : nat) (separators : list overrideTokenKind) (values : list overrideValueExpr) : Parser (list overrideValueExpr) :=
  match fuel with
  | O => fun _ => None
  | S fuel =>
      value <~ parseValueExpression true ;;
      token <~ peek ;;
      if decide (kind token ∈ separators) then next ~;; separated_loop fuel separators (values ++ [value]) else p_ret (values ++ [value])
  end.
(** @go adapter/provider/override_expr.go:990-1016 parsePrimary *)
Fixpoint entries_loop (fuel : nat) (entries : list (string * overrideValueExpr)) : Parser (list (string * overrideValueExpr)) :=
  match fuel with
  | O => fun _ => None
  | S fuel =>
      key <~ next ;;
      if decide (kind key <> overrideTokenString) then p_fail (token_errorf key "expected quoted map key" [])
      else
        expect overrideTokenColon "expected ':' after map key" ~;;
        match decodeOverrideString (text key) (tpos key + 1) with
        | inl e => p_fail e
        | inr keyValue =>
            value <~ parseValueExpression true ;;
            comma <~ match_ overrideTokenComma ;;
            if comma : bool then entries_loop fuel (entries ++ [(keyValue, value)]) else p_ret (entries ++ [(keyValue, value)])
        end
  end.

(** A name: a literal or a function with its arguments.
    @go adapter/provider/override_expr.go:1019-1052 parsePrimary *)
Definition parseIdentifier (token : overrideToken) : Parser overrideValueExpr :=
  if String.eqb (text token) "true" then p_ret (overrideLiteralExpr (VBool true))
  else if String.eqb (text token) "false" then p_ret (overrideLiteralExpr (VBool false))
  else if String.eqb (text token) "null" || String.eqb (text token) "~" then p_ret (overrideLiteralExpr VNil)
  else
    opened <~ match_ overrideTokenLeftParen ;;
    args <~ (if opened : bool then
               closed <~ match_ overrideTokenRightParen ;;
               if closed : bool then p_ret []
               else
                 args <~ with_fuel (fun fuel => separated_loop (S fuel) [overrideTokenComma; overrideTokenSemicolon] []) ;;
                 expect overrideTokenRightParen "expected ')' after function arguments" ~;; p_ret args
             else p_ret []) ;;
    if negb (isOverrideFunction (text token)) then p_fail (token_errorf token "unknown function %q" [text token])
    else if isOverrideStreamFunction (text token) then p_ret (overrideStreamFunctionExpr (text token) args)
    else p_ret (overrideFunctionExpr (text token) args).

(** A dot is put back and starts a path.
    @go adapter/provider/override_expr.go:956-1056 parsePrimary *)
Definition parsePrimary : Parser overrideValueExpr := fun ts =>
  (token <~ next ;;
   match kind token with
   | overrideTokenDot => fun _ => (path <~ parsePath ;; p_ret (overridePathExpr path)) ts
   | overrideTokenString => parseString token
   | overrideTokenNumber => parseNumber token
   | overrideTokenLeftParen =>
       value <~ parseUnionExpression true ;; expect overrideTokenRightParen "expected ')'" ~;; p_ret value
   | overrideTokenLeftBracket =>
       empty <~ match_ overrideTokenRightBracket ;;
       if empty : bool then p_ret (overrideArrayExpr [])
       else
         values <~ with_fuel (fun fuel => separated_loop (S fuel) [overrideTokenComma] []) ;;
         expect overrideTokenRightBracket "expected ']' after array" ~;; p_ret (overrideArrayExpr values)
   | overrideTokenLeftBrace =>
       empty <~ match_ overrideTokenRightBrace ;;
       if empty : bool then p_ret (overrideMapExpr [])
       else
         entries <~ with_fuel (fun fuel => entries_loop (S fuel) []) ;;
         expect overrideTokenRightBrace "expected '}' after map" ~;; p_ret (overrideMapExpr entries)
   | overrideTokenIdentifier => parseIdentifier token
   | _ => p_fail (token_errorf token "expected value" [])
   end) ts.

(** @go adapter/provider/override_expr.go:829-840 parseUnary *)
Definition parseUnary : Parser overrideValueExpr :=
  token <~ peek ;;
  if decide (kind token = overrideTokenMinus) then
    minus <~ next ;;
    number <~ next ;;
    if decide (kind number <> overrideTokenNumber) then p_fail (token_errorf minus "unary '-' is only supported for number literals" [])
    else parseNumber (mkToken (kind number) ("-" +:+ text number) (tpos number))
  else parsePrimary.

(** Operands joined to the left as long as [operator_of] knows the next token. *)
Fixpoint binary_loop (fuel : nat) (operator_of : overrideToken -> option string) (operand : Parser overrideValueExpr) (left : overrideValueExpr) : Parser overrideValueExpr :=
  token <~ peek ;;
  match operator_of token with
  | None => p_ret left
  | Some operator =>
      match fuel with
      | O => fun _ => None
      | S fuel => next ~;; right <~ operand ;; binary_loop fuel operator_of operand (overrideBinaryExpr operator left right)
      end
  end.
Definition binary_level (operator_of : overrideToken -> option string) (operand : Parser overrideValueExpr) : Parser overrideValueExpr :=
  left <~ operand ;; with_fuel (fun fuel => binary_loop fuel operator_of operand left).

Definition multiplicative_op (token : overrideToken) : option string :=
  match kind token with overrideTokenMultiply | overrideTokenDivide | overrideTokenModulo => Some (text token) | _ => None end.
Definition additive_op (token : overrideToken) : option string :=
  match kind token with overrideTokenPlus | overrideTokenMinus => Some (text token) | _ => None end.
Definition comparison_op (token : overrideToken) : option string :=
  match kind token with
  | overrideTokenEqual | overrideTokenNotEqual | overrideTokenLess | overrideTokenLessEqual | overrideTokenGreater | overrideTokenGreaterEqual => Some (text token)
  | _ => None
  end.
Definition alternative_op (token : overrideToken) : option string := match kind token with overrideTokenAlternative => Some "//" | _ => None end.
Definition word_op (word : string) (token : overrideToken) : option string := if is_identifier word token then Some (text token) else None.

(** @go adapter/provider/override_expr.go:814-827 parseMultiplicative *)
Definition parseMultiplicative : Parser overrideValueExpr := binary_level multiplicative_op parseUnary.
(** @go adapter/provider/override_expr.go:799-812 parseAdditive *)
Definition parseAdditive : Parser overrideValueExpr := binary_level additive_op parseMultiplicative.
(** @go adapter/provider/override_expr.go:782-797 parseComparison *)
Definition parseComparison : Parser overrideValueExpr := binary_level comparison_op parseAdditive.
(** @go adapter/provider/override_expr.go:772-780 parseAlternative *)
Definition parseAlternative : Parser overrideValueExpr := binary_level alternative_op parseComparison.
(** @go adapter/provider/override_expr.go:761-770 parseAnd *)
Definition parseAnd : Parser overrideValueExpr := binary_level (word_op "and") parseAlternative.
(** @go adapter/provider/override_expr.go:750-759 parseOr *)
Definition parseOr : Parser overrideValueExpr := binary_level (word_op "or") parseAnd.

(** [None] in the result when there is no update and nothing was taken.
    @go adapter/provider/override_expr.go:703-719 parseValueUpdateExpression *)
Definition parseValueUpdateExpression : Parser (option overrideValueExpr) := fun ts =>
  if decide (kind (peek_of ts) <> overrideTokenDot) then p_ret None ts
  else
    match parsePath ts with
    | None => None
    | Some (inl _) => p_ret None ts
    | Some (inr (path, rest)) =>
        if negb (isOverrideAssignmentToken (kind (peek_of rest))) then p_ret None ts
        else
          (operator <~ next ;;
           value <~ parseValueExpression false ;;
           p_ret (Some (overrideValueUpdateExpr path (kind operator) value))) rest
    end.

(** One stage of a pipeline.
    @go adapter/provider/override_expr.go:672-694 parseValueExpression *)
Definition parseStage (level : Parser overrideValueExpr) : Parser overrideValueExpr :=
  update <~ parseValueUpdateExpression ;; match update with Some expression => p_ret expression | None => level end.
Fixpoint stages_loop (fuel : nat) (stages : list overrideValueExpr) : Parser (list overrideValueExpr) :=
  match fuel with
  | O => fun _ => None
  | S fuel =>
      pipe <~ match_ overrideTokenPipe ;;
      if pipe : bool then stage <~ parseStage parseOr ;; stages_loop fuel (stages ++ [stage]) else p_ret stages
  end.
(** @go adapter/provider/override_expr.go:667-701 parseValueExpression *)
Definition value_expression (allowLowPrecedence : bool) : Parser overrideValueExpr :=
  first <~ parseStage (if allowLowPrecedence then parseOr else parseAlternative) ;;
  if negb allowLowPrecedence then p_ret first
  else
    stages <~ with_fuel (fun fuel => stages_loop (S fuel) [first]) ;;
    p_ret match stages with [_] => first | _ => overridePipelineExpr stages end.
End Parse.

(** The fuel bounds how deep expressions nest.
    @go adapter/provider/override_expr.go:667-701 parseValueExpression *)
Fixpoint parseValueExpression (fuel : nat) (allowLowPrecedence : bool) : Parser overrideValueExpr :=
  match fuel with
  | O => fun _ => None
  | S fuel => value_expression (parseValueExpression fuel) allowLowPrecedence
  end.

(** ** Statements *)

Section Statements.
Context (fuel : nat).
Abbreviation value_of := (parseValueExpression fuel).

(** Whether the parenthesis that closes [depth] of them stands before an assignment.
    @go adapter/provider/override_expr.go:534-546 startsAssignmentStatement *)
Fixpoint paren_scan (depth : nat) (ts : list overrideToken) : bool :=
  match ts with
  | [] => false
  | token :: rest =>
      match kind token with
      | overrideTokenLeftParen => paren_scan (S depth) rest
      | overrideTokenRightParen =>
          match depth with
          | S (S depth) => paren_scan (S depth) rest
          | _ => match rest with token :: _ => isOverrideAssignmentToken (kind token) | [] => false end
          end
      | _ => paren_scan depth rest
      end
  end.
(** @go adapter/provider/override_expr.go:523-547 startsAssignmentStatement *)
Definition startsAssignmentStatement (ts : list overrideToken) : bool :=
  match kind (peek_of ts) with
  | overrideTokenDot => match parsePath ts with Some (inr (_, rest)) => isOverrideAssignmentToken (kind (peek_of rest)) | _ => false end
  | overrideTokenLeftParen => paren_scan 0 ts
  | _ => false
  end.

(** @go adapter/provider/override_expr.go:554-578 parseAssignmentTarget *)
Fixpoint target_loop (turns : nat) (stages : list overrideTargetStage) : Parser (list overrideTargetStage) :=
  match turns with
  | O => fun _ => None
  | S turns =>
      is_select <~ peekIdentifier "select" ;;
      stage <~ (if is_select : bool then
                  next ~;;
                  expect overrideTokenLeftParen "expected '(' after select" ~;;
                  condition <~ value_of true ;;
                  expect overrideTokenRightParen "expected ')' after select condition" ~;;
                  p_ret (StageCondition condition)
                else path <~ parsePath ;; p_ret (StagePath path)) ;;
      pipe <~ match_ overrideTokenPipe ;;
      if pipe : bool then target_loop turns (stages ++ [stage]) else p_ret (stages ++ [stage])
  end.
Definition is_path_stage (stage : overrideTargetStage) : bool := match stage with StagePath _ => true | StageCondition _ => false end.
(** @go adapter/provider/override_expr.go:549-588 parseAssignmentTarget *)
Definition parseAssignmentTarget : Parser (list overrideTargetStage) :=
  expect overrideTokenLeftParen "expected '('" ~;;
  stages <~ with_fuel (fun n => target_loop (S n) []) ;;
  expect overrideTokenRightParen "expected ')' after assignment path" ~;;
  token <~ peek ;;
  if existsb is_path_stage stages then p_ret stages
  else p_fail (token_errorf token "conditional assignment must select a path" []).

(** @go adapter/provider/override_expr.go:467-478 parseStatement *)
Fixpoint del_loop (turns : nat) (paths : list overridePath) : Parser (list overridePath) :=
  match turns with
  | O => fun _ => None
  | S turns =>
      path <~ parsePath ;;
      comma <~ match_ overrideTokenComma ;;
      if comma : bool then del_loop turns (paths ++ [path]) else p_ret (paths ++ [path])
  end.
(** @go adapter/provider/override_expr.go:462-488 parseStatement *)
Definition parseDelete : Parser overrideStatement :=
  next ~;;
  expect overrideTokenLeftParen "expected '(' after del" ~;;
  paths <~ with_fuel (fun n => del_loop (S n) []) ;;
  expect overrideTokenRightParen "expected ')' after del arguments" ~;;
  token <~ peek ;;
  if existsb (fun path => match path with [] => true | _ => false end) paths
  then p_fail (token_errorf token "del(.) cannot be represented by a mapping override" [])
  else p_ret (overrideDeleteStatement paths).
(** @go adapter/provider/override_expr.go:497-520 parseStatement *)
Definition parseAssignment : Parser overrideStatement :=
  token <~ peek ;;
  lhs <~ (if decide (kind token = overrideTokenLeftParen) then target <~ parseAssignmentTarget ;; p_ret ([], Some target)
          else path <~ parsePath ;; p_ret (path, None)) ;;
  op <~ next ;;
  if isOverrideAssignmentToken (kind op) then
    value <~ value_of false ;; p_ret (overrideAssignStatement (fst lhs) (snd lhs) (kind op) value)
  else p_fail (token_errorf op "expected assignment operator after path" []).
(** @go adapter/provider/override_expr.go:461-521 parseStatement *)
Definition parseStatement : Parser overrideStatement := fun ts =>
  if is_identifier "del" (peek_of ts) then parseDelete ts
  else if negb (startsAssignmentStatement ts) then
    (expression <~ parseUnionExpression value_of true ;; p_ret (overrideFilterStatement expression)) ts
  else parseAssignment ts.

(** @go adapter/provider/override_expr.go:442-454 parse *)
Fixpoint statements_loop (turns : nat) (statements : list overrideStatement) : Parser (list overrideStatement) :=
  match turns with
  | O => fun _ => None
  | S turns =>
      statement <~ parseStatement ;;
      pipe <~ match_ overrideTokenPipe ;;
      if negb pipe then p_ret (statements ++ [statement])
      else
        token <~ peek ;;
        if decide (kind token = overrideTokenEOF) then p_fail (token_errorf token "expected expression after pipe" [])
        else statements_loop turns (statements ++ [statement])
  end.
(** @go adapter/provider/override_expr.go:437-459 parse *)
Definition parse_statements : Parser (list overrideStatement) :=
  token <~ peek ;;
  if decide (kind token = overrideTokenEOF) then p_fail (parse_errorf 0 "expression is empty" [])
  else
    statements <~ with_fuel (fun n => statements_loop (S n) []) ;;
    token <~ peek ;;
    if decide (kind token = overrideTokenEOF) then p_ret statements
    else p_fail (token_errorf token "unexpected %q" [text token]).
End Statements.

(** An expression nests less deep than its source is long.
    @go adapter/provider/override_expr.go:129-138 NewOverrideExpr *)
Definition NewOverrideExpr (source : string) : option (ParseErr + OverrideExpr) :=
  match lexOverrideExpr source with
  | None => None
  | Some (inl e) => Some (inl e)
  | Some (inr tokens) =>
      match parse_statements (S (String.length source)) tokens with
      | None => None
      | Some (inl e) => Some (inl e)
      | Some (inr (statements, _)) => Some (inr (mkOverrideExpr source statements))
      end
  end.
(** The expression as it is afterwards.
    @go adapter/provider/override_expr.go:140-148 UnmarshalText *)
Definition UnmarshalText (e : OverrideExpr) (text : string) : option (ParseErr + OverrideExpr) := NewOverrideExpr text.
(** @go adapter/provider/override_expr.go:150-158 MarshalText *)
Definition MarshalText (e : OverrideExpr) : string := source e.
