(* ===== verification/ExprEval.v ===== *)
(** * Override expressions: evaluation

    Evaluates the trees of [ExprParse] on the values of [ExprValue] and applies the
    statements to a mapping, as [adapter/provider/override_expr.go] does.  An
    expression has a stream of results.  Values are trees.  Reading never changes
    them.  An update works in place on its root; the value it writes is copied, or
    computed from what it replaces, before it is written.  Trees describe it exactly
    unless a value is read from the root and its target is several places, one of
    which it contains ([.a[] = .a] reads [a] again after each write), or a [|=] stores
    its input twice, which leaves one map in two places. *)

From S2P Require Import Prelude Names GoFloat GoText ExprLex ExprValue ExprParse.
#[local] Open Scope string_scope.
#[local] Open Scope Z_scope.
#[local] Open Scope list_scope.

(** ** Loops that may fail *)

Section Loops.
Context {A B : Type} (f : A -> Res B).
(** In order, up to the first error. *)
Fixpoint map_res (l : list A) : Res (list B) :=
  match l with [] => inr [] | a :: l => b ← f a; bs ← map_res l; inr (b :: bs) end.
End Loops.
Section FlatMap.
Context {A B : Type} (f : A -> Res (list B)).
Fixpoint flat_map_res (l : list A) : Res (list B) :=
  match l with [] => inr [] | a :: l => b ← f a; bs ← flat_map_res l; inr (b ++ bs) end.
End FlatMap.
(** A range over a map: which error is reported, if several keys fail, is left to the
    order. *)
Definition map_values_res {A B} (f : A -> Res B) (m : gmap string A) : Res (gmap string B) :=
  map_fold (fun key a acc => acc ← acc; b ← f a; inr (<[key := b]> acc)) (inr ∅) m.

Section Eval.
Context `{Env : ExprEnv}.

(** ** Paths *)

(** The index a segment means in an array of [len] elements. *)
Definition array_index (index : Z) (len : nat) : Z := if index <? 0 then index + Z.of_nat len else index.

(** It never fails: the third kind of segment is the last.
    @go adapter/provider/override_expr.go:1709-1762 lookupOverridePathStream *)
Fixpoint lookupOverridePathStream (value : any) (path : overridePath) {struct path} : list any :=
  match path with
  | [] => [value]
  | overridePathField key :: path =>
      match value with
      | VMap mapping => lookupOverridePathStream (default VNil (mapping !! key)) path
      | _ => [VNil]
      end
  | overridePathIndex index :: path =>
      match value with
      | VArr array =>
          let index := array_index index (length array) in
          if index <? 0 then [VNil]
          else match array !! Z.to_nat index with
               | Some item => lookupOverridePathStream item path
               | None => [VNil]
               end
      | _ => [VNil]
      end
  | overridePathWildcard :: path =>
      match value with
      | VArr collection => concat (map (fun item => lookupOverridePathStream item path) collection)
      | VMap collection => concat (map (fun key => lookupOverridePathStream (default VNil (collection !! key)) path) (sorted_keys collection))
      | _ => []
      end
  end.

(** An array is padded with nulls up to the index.  The code changes maps and arrays
    in place: when the value of a [|=] holds its input twice, both places stay one
    map, and a later statement that changes it changes both.
    @go adapter/provider/override_expr.go:1470-1541 updateOverridePath *)
Fixpoint updateOverridePath (node : any) (path : overridePath) (updater : any -> Res any) {struct path} : Res any :=
  match path with
  | [] => updater node
  | overridePathField key :: path =>
      match (match node with VNil => VMap ∅ | _ => node end) with
      | VMap mapping => value ← updateOverridePath (default VNil (mapping !! key)) path updater; inr (VMap (<[key := value]> mapping))
      | _ => inr node
      end
  | overridePathIndex index :: path =>
      match (match node with VNil => VArr [] | _ => node end) with
      | VArr array =>
          let i := array_index index (length array) in
          if i <? 0 then inl (errorf "array index %d is out of range" [FormatInt index])
          else
            let array := array ++ repeat VNil (Z.to_nat i + 1 - length array) in
            value ← updateOverridePath (default VNil (array !! Z.to_nat i)) path updater;
            inr (VArr (<[Z.to_nat i := value]> array))
      | _ => inr node
      end
  | overridePathWildcard :: path =>
      match node with
      | VArr items => items ← map_res (fun item => updateOverridePath item path updater) items; inr (VArr items)
      | VMap items => items ← map_values_res (fun item => updateOverridePath item path updater) items; inr (VMap items)
      | _ => inr node
      end
  end.

(** The tails of the paths that lead into the child under [key]; [None] when one
    ends there.
    @go adapter/provider/override_expr.go:1386-1402 deleteOverridePaths *)
Fixpoint key_tails (key : string) (paths : list overridePath) : option (list overridePath) :=
  match paths with
  | [] => Some []
  | path :: paths =>
      match path with
      | overridePathWildcard :: tl =>
          match tl with [] => None | _ => tails ← key_tails key paths; Some (tl :: tails) end
      | overridePathField k :: tl =>
          if String.eqb k key then match tl with [] => None | _ => tails ← key_tails key paths; Some (tl :: tails) end
          else key_tails key paths
      | _ => key_tails key paths
      end
  end.
(** The same for an element of an array; here every path is looked at.
    @go adapter/provider/override_expr.go:1416-1449 deleteOverridePaths *)
Definition index_hits (len idx : nat) (path : overridePath) : option overridePath :=
  match path with
  | overridePathWildcard :: tl => Some tl
  | overridePathIndex index :: tl => if array_index index len =? Z.of_nat idx then Some tl else None
  | _ => None
  end.
Definition index_tails (len idx : nat) (paths : list overridePath) : option (list overridePath) :=
  let tails := omap (index_hits len idx) paths in
  if existsb (fun tl => match tl with [] => true | _ => false end) tails then None else Some tails.

(** @go adapter/provider/override_expr.go:1382-1468 deleteOverridePaths *)
Fixpoint deleteOverridePaths (node : any) (paths : list overridePath) {struct node} : any :=
  match node with
  | VMap value =>
      VMap (map_imap (fun key child =>
              match key_tails key paths with
              | None => None
              | Some [] => Some child
              | Some tails => Some (deleteOverridePaths child tails)
              end) value)
  | VArr value =>
      let len := length value in
      VArr ((fix go idx l :=
               match l with
               | [] => []
               | child :: l =>
                   match index_tails len idx paths with
                   | None => go (S idx) l
                   | Some [] => child :: go (S idx) l
                   | Some tails => deleteOverridePaths child tails :: go (S idx) l
                   end
               end) 0%nat value)
  | _ => node
  end.

(** ** Functions of evaluated arguments *)

(** @go adapter/provider/override_expr.go:2201-2208 overrideFunctionExpr.eval *)
Definition argCount (name : string) (args : list any) (want : list nat) : Res unit :=
  if existsb (Nat.eqb (length args)) want then inr tt
  else inl (errorf "%s expects %v arguments, got %d" [name; JoinStr (map (fun n => FormatInt (Z.of_nat n)) want) " "; FormatInt (zlen args)]).
(** @go adapter/provider/override_expr.go:2209-2215 overrideFunctionExpr.eval *)
Definition stringArg (name : string) (args : list any) (index : nat) : Res string :=
  match args !! index with
  | Some (VStr value) => inr value
  | _ => inl (errorf "%s argument %d must be a string" [name; FormatInt (Z.of_nat index + 1)])
  end.
Definition arg (args : list any) (index : nat) : any := default VNil (args !! index).
Definition only_arrays (name : string) (input : any) : Res (list any) :=
  match input with VArr values => inr values | _ => inl (errorf "%s only supports arrays, got %s" [name; overrideType input]) end.

(** A stable sort: [x] goes in front of the elements behind which it may not stay;
    [sorted] is held from its end.  Every stable sort gives this result where the
    comparison is an order, that is without NaN.
    @go adapter/provider/override_expr.go:2244-2264 overrideFunctionExpr.eval *)
Fixpoint stable_insert (x : any) (sorted : list any) : Res (list any) :=
  match sorted with
  | [] => inr [x]
  | y :: rest =>
      comparison ← compareOverrideSortValues x y;
      if comparison <? 0 then rest ← stable_insert x rest; inr (y :: rest) else inr (x :: sorted)
  end.
Fixpoint sort_loop (values sorted : list any) : Res (list any) :=
  match values with
  | [] => inr (rev sorted)
  | x :: values => sorted ← stable_insert x sorted; sort_loop values sorted
  end.

(** @go adapter/provider/override_expr.go:2265-2286 overrideFunctionExpr.eval *)
Fixpoint unique_loop (values : list any) (seen : gset string) : Res (list any) :=
  match values with
  | [] => inr []
  | value :: values =>
      match overrideUniqueKey value with
      | None => inl (errorf "yaml" [])
      | Some key =>
          if bool_decide (key ∈ seen) then unique_loop values seen
          else rest ← unique_loop values ({[key]} ∪ seen); inr (cloneOverrideValue value :: rest)
      end
  end.

(** @go adapter/provider/override_expr.go:2287-2303 overrideFunctionExpr.eval *)
Definition call_flatten (args : list any) (input : any) : Res any :=
  argCount "flatten" args [0; 1]%nat ;;
  values ← only_arrays "flatten" input;
  match args with
  | [] => inr (VArr (flattenOverrideArray values (-1)))
  | a :: _ =>
      match overrideNumber a with
      | Some (number, true) =>
          if SFltb number (S754_zero false) then inl (errorf "flatten depth must be a non-negative integer" [])
          else inr (VArr (flattenOverrideArray values (int_of_f64 unfit number)))
      | _ => inl (errorf "flatten depth must be a non-negative integer" [])
      end
  end.
(** @go adapter/provider/override_expr.go:2304-2321 overrideFunctionExpr.eval *)
Definition call_any_all (name : string) (args : list any) (input : any) : Res any :=
  argCount name args [0]%nat ;;
  values ← only_arrays name input;
  inr (VBool (if String.eqb name "any" then existsb overrideTruthy values else forallb overrideTruthy values)).
(** @go adapter/provider/override_expr.go:2322-2343 overrideFunctionExpr.eval *)
Definition call_length (args : list any) (input : any) : Res any :=
  argCount "length" args [0]%nat ;;
  match input with
  | VNil => inr (VInt KInt 0)
  | VStr value => inr (VInt KInt (Z.of_nat (String.length value)))
  | VArr value => inr (VInt KInt (zlen value))
  | VMap value => inr (VInt KInt (Z.of_nat (size value)))
  | VInt _ _ | VFloat32 _ | VFloat64 _ | VBool _ => inr (VInt KInt (Z.of_nat (String.length (Sprint input))))
  | _ => inl (errorf "length cannot be used with %s" [overrideType input])
  end.
(** @go adapter/provider/override_expr.go:2349-2373 overrideFunctionExpr.eval *)
Definition call_keys (args : list any) (input : any) : Res any :=
  argCount "keys" args [0]%nat ;;
  match input with
  | VMap value => inr (VArr (VStr <$> sorted_keys value))
  | VArr value => inr (VArr ((fun idx => VInt KInt (Z.of_nat idx)) <$> seq 0 (length value)))
  | _ => inl (errorf "%s cannot be used with %s" ["keys"; overrideType input])
  end.
(** @go adapter/provider/override_expr.go:2374-2398 overrideFunctionExpr.eval *)
Definition call_has (args : list any) (input : any) : Res any :=
  argCount "has" args [1]%nat ;;
  match input with
  | VMap value => key ← stringArg "has" args 0; inr (VBool (bool_decide (is_Some (value !! key))))
  | VArr value =>
      match overrideNumber (arg args 0) with
      | Some (number, true) =>
          let index := array_index (int_of_f64 unfit number) (length value) in
          inr (VBool ((0 <=? index) && (index <? zlen value)))
      | _ => inr (VBool false)
      end
  | _ => inr (VBool false)
  end.
(** @go adapter/provider/override_expr.go:2399-2425 overrideFunctionExpr.eval *)
Definition call_contains (args : list any) (input : any) : Res any :=
  argCount "contains" args [1]%nat ;;
  let a := arg args 0 in
  match input with
  | VStr value => needle ← stringArg "contains" args 0; inr (VBool (ContainsStr value needle))
  | VArr _ => match a with VArr _ => inr (VBool (overrideContains input a)) | _ => inl (errorf "%s cannot check contained in !!seq" [overrideType a]) end
  | VMap _ => match a with VMap _ => inr (VBool (overrideContains input a)) | _ => inl (errorf "%s cannot check contained in !!map" [overrideType a]) end
  | _ =>
      if negb (isOverrideScalar a) then inl (errorf "%s cannot check contained in %s" [overrideType a; overrideType input])
      else if negb (String.eqb (overrideType input) (overrideType a)) then inr (VBool false)
      else inr (VBool (overrideEqual input a))
  end.
(** @go adapter/provider/override_expr.go:2426-2462 overrideFunctionExpr.eval *)
Definition call_regexp (name : string) (args : list any) (input : any) : Res any :=
  (if String.eqb name "test" then
     argCount name args [1; 2]%nat ;;
     match args with
     | [_; _] =>
         options ← stringArg name args 1;
         if String.eqb (Trim options "g") "" then inr tt else inl (errorf "unsupported test options %q" [options])
     | _ => inr tt
     end
   else argCount name args [2]%nat) ;;
  match input with
  | VStr value =>
      pattern ← stringArg name args 0;
      match regexp_Compile pattern with
      | None => inl (errorf "invalid regular expression: %w" [])
      | Some re =>
          if String.eqb name "test" then inr (VBool (MatchString re value))
          else replacement ← stringArg name args 1; inr (VStr (ReplaceAllString re value replacement))
      end
  | _ => inl (errorf "%s requires string input" [name])
  end.
(** @go adapter/provider/override_expr.go:2463-2483 overrideFunctionExpr.eval *)
Definition call_split (args : list any) (input : any) : Res any :=
  argCount "split" args [1]%nat ;;
  match input with
  | VNil => inr overrideNoMatch
  | VStr value => separator ← stringArg "split" args 0; inr (VArr (VStr <$> SplitStr value separator))
  | _ => inl (errorf "split requires string input" [])
  end.
(** @go adapter/provider/override_expr.go:2484-2507 overrideFunctionExpr.eval *)
Definition call_join (args : list any) (input : any) : Res any :=
  argCount "join" args [1]%nat ;;
  match input with
  | VArr values =>
      separator ← stringArg "join" args 0;
      inr (VStr (JoinStr (map (fun value => match value with VNil | VArr _ | VMap _ => "" | _ => Sprint value end) values) separator))
  | _ => inl (errorf "join requires array input" [])
  end.
(** Beyond ASCII the tables of Unicode decide the case.
    @go adapter/provider/override_expr.go:2508-2523 overrideFunctionExpr.eval *)
Definition call_case (name : string) (args : list any) (input : any) : Res any :=
  argCount name args [0]%nat ;;
  match input with
  | VStr value =>
      inr (VStr (if String.eqb name "upcase" then (if is_ASCII value then ToUpper value else unicode_ToUpper value)
                 else if String.eqb name "downcase" then (if is_ASCII value then ToLower value else unicode_ToLower value)
                 else TrimSpaceUTF8 value))
  | _ => inl (errorf "%s requires string input" [name])
  end.
(** @go adapter/provider/override_expr.go:2524-2535 overrideFunctionExpr.eval *)
Definition call_tostring (args : list any) (input : any) : Res any :=
  argCount "tostring" args [0]%nat ;;
  match input with
  | VStr value => inr (VStr value)
  | _ => match yaml_Marshal input with Some encoded => inr (VStr (trim_last newline encoded)) | None => inl (errorf "yaml" []) end
  end.
(** @go adapter/provider/override_expr.go:2536-2564 overrideFunctionExpr.eval *)
Definition call_tonumber (args : list any) (input : any) : Res any :=
  argCount "tonumber" args [0]%nat ;;
  match input with
  | VInt _ _ | VFloat32 _ | VFloat64 _ => inr input
  | VStr value =>
      let invalid := inl (errorf "cannot convert %q to number" [value]) in
      if HasPrefix value "0b" || HasPrefix value "0B" then invalid
      else
        let '(base, integerValue) :=
          if HasPrefix value "0x" || HasPrefix value "0X" then (16, str_drop 2 value)
          else if HasPrefix value "0o" then (8, str_drop 2 value) else (10, value) in
        match ParseInt64 base integerValue with
        | Some integer => inr (VInt KInt integer)
        | None => match ParseFloat value with Some number => inr (VFloat64 number) | None => invalid end
        end
  | _ => inl (errorf "tonumber requires string or number input" [])
  end.

(** The functions of evaluated arguments, by name.
    @go adapter/provider/override_expr.go:2217-2287 overrideFunctionExpr.eval *)
Definition call_function (name : string) (args : list any) (input : any) : Res any :=
  if String.eqb name "select" then
    argCount name args [1]%nat ;;
    inr (if isOverrideNoMatch (arg args 0) || negb (overrideTruthy (arg args 0)) then overrideNoMatch else input)
  else if String.eqb name "not" then argCount name args [0]%nat ;; inr (VBool (negb (overrideTruthy input)))
  else if String.eqb name "reverse" then argCount name args [0]%nat ;; values ← only_arrays name input; inr (VArr (rev (cloneOverrideValue <$> values)))
  else if String.eqb name "sort" then
    argCount name args [0]%nat ;;
    match input with
    | VArr values => sorted ← sort_loop (cloneOverrideValue <$> values) []; inr (VArr sorted)
    | _ => inl (errorf "sort only supports arrays in override-expr, got %s" [overrideType input])
    end
  else if String.eqb name "unique" then argCount name args [0]%nat ;; values ← only_arrays name input; result ← unique_loop values ∅; inr (VArr result)
  else if String.eqb name "flatten" then call_flatten args input
  else if String.eqb name "any" || String.eqb name "all" then call_any_all name args input
  else if String.eqb name "length" then call_length args input
  else if String.eqb name "type" then argCount name args [0]%nat ;; inr (VStr (overrideType input))
  else if String.eqb name "keys" then call_keys args input
  else if String.eqb name "has" then call_has args input
  else if String.eqb name "contains" then call_contains args input
  else if String.eqb name "sub" || String.eqb name "test" then call_regexp name args input
  else if String.eqb name "split" then call_split args input
  else if String.eqb name "join" then call_join args input
  else if String.eqb name "upcase" || String.eqb name "downcase" || String.eqb name "trim" then call_case name args input
  else if String.eqb name "tostring" then call_tostring args input
  else if String.eqb name "tonumber" then call_tonumber args input
  else inl (errorf "unsupported function %q" [name]).

(** ** Entries *)

(** @go adapter/provider/override_expr.go:2092-2110 overrideCollectionValues *)
Definition overrideCollectionValues (input : any) : Res (list any) :=
  match input with
  | VArr value => inr value
  | VMap value => inr (map (fun key => default VNil (value !! key)) (sorted_keys value))
  | _ => inl (errorf "expected array or mapping, got %s" [overrideType input])
  end.
Definition entryOf (key value : any) : any := VMap (<["key" := key]> {["value" := cloneOverrideValue value]}).
(** [None] for a null.
    @go adapter/provider/override_expr.go:2112-2136 toOverrideEntries *)
Definition toOverrideEntries (input : any) : Res (option (list any)) :=
  match input with
  | VNil => inr None
  | VArr value => inr (Some (imap (fun idx item => entryOf (VInt KInt (Z.of_nat idx)) item) value))
  | VMap value => inr (Some (map (fun key => entryOf (VStr key) (default VNil (value !! key))) (sorted_keys value)))
  | _ => inl (errorf "%s has no keys" [overrideType input])
  end.
(** @go adapter/provider/override_expr.go:2143-2163 fromOverrideEntries *)
Fixpoint from_entries_loop (idx : Z) (entries : list any) (result : gmap string any) : Res (gmap string any) :=
  match entries with
  | [] => inr result
  | VMap entry :: entries =>
      match entry !! "key", entry !! "value" with
      | None, _ => inl (errorf "entry %d has no key" [FormatInt idx])
      | _, None => inl (errorf "entry %d has no value" [FormatInt idx])
      | Some (VStr key), Some value => from_entries_loop (idx + 1) entries (<[key := cloneOverrideValue value]> result)
      | Some _, Some _ => inl (errorf "entry %d key must be a string in override-expr" [FormatInt idx])
      end
  | _ :: _ => inl (errorf "entry %d must be a mapping" [FormatInt idx])
  end.
(** @go adapter/provider/override_expr.go:2138-2164 fromOverrideEntries *)
Definition fromOverrideEntries (input : any) : Res (gmap string any) :=
  match input with
  | VArr entries => from_entries_loop 0 entries ∅
  | _ => inl (errorf "from_entries only supports arrays" [])
  end.

(** ** Expressions *)

(** @go adapter/provider/override_expr.go:1833-1840 overrideValueUpdateExpr.eval *)
Definition compound_operator (operator : overrideTokenKind) : string :=
  match operator with
  | overrideTokenAddAssign => "+"
  | overrideTokenSubtractAssign => "-"
  | overrideTokenMultiplyAssign => "*"
  | _ => ""
  end.
(** The results of a stream where one value is wanted.
    @go adapter/provider/override_expr.go:1569-1582 evalOverrideSingle *)
Definition single_of (values : list any) : Res any :=
  match values with
  | [] => inr overrideNoMatch
  | [value] => inr value
  | _ => inl (errorf "expression produced %d results; collect them with [...]" [FormatInt (zlen values)])
  end.
(** What [|=] puts in the place of [old].
    @go adapter/provider/override_expr.go:1818-1829 overrideValueUpdateExpr.eval *)
Definition keep_or (old value : any) : any := if isOverrideNoMatch value then old else value.

(** [overridePath.String].
    @go adapter/provider/override_expr.go:1232-1249 String *)
Fixpoint path_text (first : bool) (path : overridePath) : string :=
  match path with
  | [] => ""
  | overridePathField key :: path => (if first then "" else ".") +:+ key +:+ path_text false path
  | overridePathIndex index :: path => "[" +:+ FormatInt index +:+ "]" +:+ path_text false path
  | overridePathWildcard :: path => "[]" +:+ path_text false path
  end.
Definition path_String (path : overridePath) : string := "." +:+ path_text true path.

(** [stream] evaluates the parts of an expression. *)
Section Parts.
Context (stream : overrideValueExpr -> any -> Res (list any)).
Definition single (expression : overrideValueExpr) (input : any) : Res any := values ← stream expression input; single_of values.

(** @go adapter/provider/override_expr.go:2080-2090 evalOverrideExpressionList *)
Definition evalOverrideExpressionList (expressions : list overrideValueExpr) (input : any) : Res (list any) :=
  flat_map_res (fun expression => stream expression input) expressions.

(** @go adapter/provider/override_expr.go:1663-1697 overrideStringExpr.eval *)
Definition part_text (value : any) : Res string :=
  match value with
  | VStr value => inr value
  | VNil => inr "null"
  | _ => if isOverrideScalar value then inr (Sprint value)
         else match yaml_Marshal value with Some encoded => inr (trim_last newline encoded) | None => inl (errorf "yaml" []) end
  end.
Definition eval_string (parts : list (string + overrideValueExpr)) (input : any) : Res any :=
  texts ← map_res (fun part => match part with
                               | inl literal => inr literal
                               | inr expression =>
                                   values ← stream expression input;
                                   match values with [] => inr "" | value :: _ => part_text value end
                               end) parts;
  inr (VStr (String.concat "" texts)).

(** @go adapter/provider/override_expr.go:1766-1776 overrideArrayExpr.eval *)
Definition eval_array (values : list overrideValueExpr) (input : any) : Res any :=
  items ← evalOverrideExpressionList values input; inr (VArr items).
(** @go adapter/provider/override_expr.go:1785-1797 overrideMapExpr.eval *)
Definition eval_map (entries : list (string * overrideValueExpr)) (input : any) : Res any :=
  results ← map_res (fun e => values ← stream (snd e) input; inr (fst e, last values)) entries;
  inr (VMap (fold_left (fun m r => match snd r with Some value => <[fst r := value]> m | None => m end) results ∅)).

(** A compound assignment does not ask whether its value is a failed match.
    @go adapter/provider/override_expr.go:1805-1846 overrideValueUpdateExpr.eval *)
Definition eval_update (path : overridePath) (operator : overrideTokenKind) (value : overrideValueExpr) (input : any) : Res any :=
  let root := cloneOverrideValue input in
  let update updater :=
    match updateOverridePath root path updater with
    | inl e => inl (wrapf "update %s: %w" [path_String path] e)
    | inr updated => inr updated
    end in
  match operator with
  | overrideTokenAssign =>
      v ← single value root;
      if isOverrideNoMatch v then inr root else update (fun _ => inr (cloneOverrideValue v))
  | overrideTokenUpdateAssign => update (fun old => v ← single value old; inr (keep_or old v))
  | _ => v ← single value root; update (fun old => evaluateOverrideBinary (compound_operator operator) old v)
  end.

(** @go adapter/provider/override_expr.go:1858-1920 overrideBinaryExpr.evalAll *)
Definition eval_binary (operator : string) (left right : overrideValueExpr) (input : any) : Res (list any) :=
  leftValues ← stream left input;
  if String.eqb operator "//" then
    results ← flat_map_res (fun l => if overrideTruthy l then inr [l] else stream right input) leftValues;
    match leftValues with [] => stream right input | _ => inr results end
  else
    let is_and := String.eqb operator "and" in
    let is_or := String.eqb operator "or" in
    let needsRight := (negb is_and && negb is_or)
                      || existsb (fun l => (is_and && overrideTruthy l) || (is_or && negb (overrideTruthy l))) leftValues in
    if negb needsRight then inr (map (fun l => VBool (is_or && overrideTruthy l)) leftValues)
    else
      rightValues ← stream right input;
      flat_map_res (fun l =>
        if is_and && negb (overrideTruthy l) then inr [VBool false]
        else if is_or && overrideTruthy l then inr [VBool true]
        else map_res (fun r => evaluateOverrideBinary operator l r) rightValues) leftValues.

(** @go adapter/provider/override_expr.go:2189-2200 overrideFunctionExpr.eval *)
Definition eval_function (name : string) (args : list overrideValueExpr) (input : any) : Res any :=
  if isOverrideNoMatch input then inr input
  else args ← map_res (fun a => single a input) args; call_function name args input.

(** @go adapter/provider/override_expr.go:1938-1969 overrideStreamFunctionExpr.evalAll *)
Definition eval_filter (args : list overrideValueExpr) (input : any) : Res (list any) :=
  match overrideCollectionValues input with
  | inl e => inl (wrapf "%s: %w" ["filter"] e)
  | inr values =>
      kept ← flat_map_res (fun value =>
               items ← evalOverrideExpressionList args value;
               inr (if existsb overrideTruthy items then [cloneOverrideValue value] else [])) values;
      inr [VArr kept]
  end.
(** @go adapter/provider/override_expr.go:1970-2001 overrideStreamFunctionExpr.evalAll *)
Definition map_value (args : list overrideValueExpr) (item : any) : Res any :=
  items ← evalOverrideExpressionList args item;
  inr match items with first :: _ => cloneOverrideValue first | [] => item end.
Definition eval_map_values (args : list overrideValueExpr) (input : any) : Res (list any) :=
  match input with
  | VArr value => result ← map_res (map_value args) (cloneOverrideValue <$> value); inr [VArr result]
  | VMap value => result ← map_values_res (map_value args) (cloneOverrideValue <$> value); inr [VMap result]
  | _ => inl (errorf "map_values only supports arrays and mappings, got %s" [overrideType input])
  end.
(** @go adapter/provider/override_expr.go:2023-2049 overrideStreamFunctionExpr.evalAll *)
Definition eval_with_entries (args : list overrideValueExpr) (input : any) : Res (list any) :=
  match input with
  | VMap _ =>
      entries ← toOverrideEntries input;
      match entries with
      | None => inr []
      | Some entries =>
          transformed ← flat_map_res (evalOverrideExpressionList args) entries;
          value ← fromOverrideEntries (VArr transformed);
          inr [VMap value]
      end
  | _ => inl (errorf "with_entries only supports mappings, got %s" [overrideType input])
  end.
(** The first result of a condition decides; a value without one is passed over.
    @go adapter/provider/override_expr.go:2050-2075 overrideStreamFunctionExpr.evalAll *)
Fixpoint any_all_loop (name : string) (args : list overrideValueExpr) (values : list any) : Res (list any) :=
  match values with
  | [] => inr [VBool (String.eqb name "all_c")]
  | value :: values =>
      items ← evalOverrideExpressionList args value;
      match items with
      | [] => any_all_loop name args values
      | item :: _ =>
          let matched := overrideTruthy item in
          if String.eqb name "any_c" && matched then inr [VBool true]
          else if String.eqb name "all_c" && negb matched then inr [VBool false]
          else any_all_loop name args values
      end
  end.
(** The stream functions apart from [map], which takes its values in one batch.
    @go adapter/provider/override_expr.go:1936-2078 overrideStreamFunctionExpr.evalAll *)
Definition eval_stream_function (name : string) (args : list overrideValueExpr) (input : any) : Res (list any) :=
  if String.eqb name "filter" then
    match args with [] => inl (errorf "%s expects an expression" [name]) | _ => eval_filter args input end
  else if String.eqb name "map_values" then
    match args with [] => inl (errorf "map_values expects an expression" []) | _ => eval_map_values args input end
  else if String.eqb name "to_entries" then
    match args with
    | [] => entries ← toOverrideEntries input; inr match entries with None => [] | Some entries => [VArr entries] end
    | _ => inl (errorf "to_entries expects no arguments" [])
    end
  else if String.eqb name "from_entries" then
    match args with
    | [] => value ← fromOverrideEntries input; inr [VMap value]
    | _ => inl (errorf "from_entries expects no arguments" [])
    end
  else if String.eqb name "with_entries" then
    match args with [] => inl (errorf "with_entries expects an expression" []) | _ => eval_with_entries args input end
  else if String.eqb name "any_c" || String.eqb name "all_c" then
    match args with
    | [] => inl (errorf "%s expects a condition" [name])
    | _ => match input with VArr values => any_all_loop name args values | _ => inl (errorf "%s only supports arrays, got %s" [name; overrideType input]) end
    end
  else inl (errorf "unsupported stream function %q" [name]).
End Parts.

(** A result that is no match is no result. *)
Definition stream_of (value : Res any) : Res (list any) := v ← value; inr (if isOverrideNoMatch v then [] else [v]).

(** The results for a batch of inputs: a union takes the whole batch, branch by
    branch; any other expression one input after the other, which for the expressions
    of one result is [evalOverrideStream].
    @go adapter/provider/override_expr.go:1584-1597 evalOverrideStreamInputs *)
Fixpoint evalOverrideStreamInputs (expression : overrideValueExpr) (inputs : list any) {struct expression} : Res (list any) :=
  let stream e input := evalOverrideStreamInputs e [input] in
  match expression with
  | overrideUnionExpr values => flat_map_res (fun value => evalOverrideStreamInputs value inputs) values
  | overridePipelineExpr stages =>
      flat_map_res (fun input =>
        (fix pipe stages values := match stages with [] => inr values | stage :: stages => next ← evalOverrideStreamInputs stage values; pipe stages next end) stages [input]) inputs
  | overrideLiteralExpr value => flat_map_res (fun _ => stream_of (inr (cloneOverrideValue value))) inputs
  | overrideStringExpr parts => flat_map_res (fun input => stream_of (eval_string stream parts input)) inputs
  | overridePathExpr path => flat_map_res (fun input => inr (lookupOverridePathStream input path)) inputs
  | overrideArrayExpr values => flat_map_res (fun input => stream_of (eval_array stream values input)) inputs
  | overrideMapExpr entries => flat_map_res (fun input => stream_of (eval_map stream entries input)) inputs
  | overrideValueUpdateExpr path operator value => flat_map_res (fun input => stream_of (eval_update stream path operator value input)) inputs
  | overrideBinaryExpr operator l r => flat_map_res (eval_binary stream operator l r) inputs
  | overrideFunctionExpr name args => flat_map_res (fun input => stream_of (eval_function stream name args input)) inputs
  | overrideStreamFunctionExpr name args =>
      flat_map_res (fun input =>
        if String.eqb name "map" then
          match args with
          | [] => inl (errorf "%s expects an expression" [name])
          | _ =>
              match overrideCollectionValues input with
              | inl e => inl (wrapf "%s: %w" [name] e)
              | inr values => result ← flat_map_res (fun e => evalOverrideStreamInputs e values) args; inr [VArr result]
              end
          end
        else eval_stream_function stream name args input) inputs
  end.
(** @go adapter/provider/override_expr.go:1555-1567 evalOverrideStream *)
Definition evalOverrideStream (expression : overrideValueExpr) (input : any) : Res (list any) := evalOverrideStreamInputs expression [input].
(** @go adapter/provider/override_expr.go:1569-1582 evalOverrideSingle *)
Definition evalOverrideSingle (expression : overrideValueExpr) (input : any) : Res any := values ← evalOverrideStream expression input; single_of values.

(** ** Statements *)

(** A value with the path that leads to it.
    @go adapter/provider/override_expr.go:1122-1125 overrideTargetSelection *)
Definition overrideTargetSelection : Type := any * overridePath.

(** @go adapter/provider/override_expr.go:1160-1230 expandOverrideTargetPath *)
Fixpoint expandOverrideTargetPath (selection : overrideTargetSelection) (path : overridePath) {struct path} : list overrideTargetSelection :=
  let '(value, at_path) := selection in
  match path with
  | [] => [selection]
  | overridePathField key :: path =>
      match value with
      | VNil => expandOverrideTargetPath (VNil, at_path ++ [overridePathField key]) path
      | VMap mapping => expandOverrideTargetPath (default VNil (mapping !! key), at_path ++ [overridePathField key]) path
      | _ => []
      end
  | overridePathIndex index :: path =>
      match value with
      | VNil => expandOverrideTargetPath (VNil, at_path ++ [overridePathIndex index]) path
      | VArr array =>
          let i := array_index index (length array) in
          if i <? 0 then []
          else expandOverrideTargetPath (default VNil (array !! Z.to_nat i), at_path ++ [overridePathIndex i]) path
      | _ => []
      end
  | overridePathWildcard :: path =>
      match value with
      | VArr items =>
          concat (imap (fun index item => expandOverrideTargetPath (item, at_path ++ [overridePathIndex (Z.of_nat index)]) path) items)
      | VMap items =>
          concat (map (fun key => expandOverrideTargetPath (default VNil (items !! key), at_path ++ [overridePathField key]) path) (sorted_keys items))
      | _ => []
      end
  end.
(** @go adapter/provider/override_expr.go:1127-1158 resolve *)
Fixpoint resolve_stages (stages : list overrideTargetStage) (selections : list overrideTargetSelection) : Res (list overrideTargetSelection) :=
  match stages with
  | [] => inr selections
  | StagePath path :: stages => resolve_stages stages (concat (map (fun selection => expandOverrideTargetPath selection path) selections))
  | StageCondition condition :: stages =>
      next ← flat_map_res (fun selection =>
               matches ← evalOverrideStream condition (fst selection);
               inr (if existsb overrideTruthy matches then [selection] else [])) selections;
      resolve_stages stages next
  end.
Definition resolve (stages : list overrideTargetStage) (root : any) : Res (list overrideTargetSelection) := resolve_stages stages [(root, [])].

(** @go adapter/provider/override_expr.go:1353-1361 replaceOverrideMapping *)
Definition replaceOverrideMapping (mapping replacement : gmap string any) : gmap string any := cloneOverrideValue <$> replacement.

(** @go adapter/provider/override_expr.go:1262-1276 overrideFilterStatement.apply *)
Definition apply_filter (expression : overrideValueExpr) (mapping : gmap string any) : Res (gmap string any) :=
  value ← evalOverrideSingle expression (VMap mapping);
  match value with
  | overrideNoMatch => inl (errorf "filter expression produced no result; a mapping is required" [])
  | VMap result => inr (replaceOverrideMapping mapping result)
  | _ => inl (errorf "filter expression must produce a mapping, got %s" [overrideType value])
  end.

(** A mapping that was updated in place, or replaced by an update of the root.
    @go adapter/provider/override_expr.go:1340-1350 overrideAssignStatement.apply *)
Definition updated_mapping (path : overridePath) (mapping : gmap string any) (updated : any) : Res (gmap string any) :=
  match updated with
  | VMap updatedMap => inr (match path with [] => replaceOverrideMapping mapping updatedMap | _ => updatedMap end)
  | _ => inl (errorf "root expression must produce a mapping, got %s" [overrideType updated])
  end.
(** The updater of an assignment; [None] when its value is no match.
    @go adapter/provider/override_expr.go:1281-1317 overrideAssignStatement.apply *)
Definition statement_updater (operator : overrideTokenKind) (value : overrideValueExpr) (root : any) : Res (option (any -> Res any)) :=
  match operator with
  | overrideTokenAssign =>
      v ← evalOverrideSingle value root;
      inr (if isOverrideNoMatch v then None else Some (fun _ => inr (cloneOverrideValue v)))
  | overrideTokenUpdateAssign => inr (Some (fun old => v ← evalOverrideSingle value old; inr (keep_or old v)))
  | _ =>
      v ← evalOverrideSingle value root;
      inr (if isOverrideNoMatch v then None else Some (fun old => evaluateOverrideBinary (compound_operator operator) old v))
  end.
(** The selected places, one after the other.
    @go adapter/provider/override_expr.go:1319-1338 overrideAssignStatement.apply *)
Fixpoint update_selections (selections : list overrideTargetSelection) (updater : any -> Res any) (mapping : gmap string any) : Res (gmap string any) :=
  match selections with
  | [] => inr mapping
  | (_, path) :: selections =>
      match updateOverridePath (VMap mapping) path updater with
      | inl e => inl (wrapf "update selected path: %w" [] e)
      | inr updated => mapping ← updated_mapping path mapping updated; update_selections selections updater mapping
      end
  end.
(** @go adapter/provider/override_expr.go:1278-1351 overrideAssignStatement.apply *)
Definition apply_assign (path : overridePath) (target : option (list overrideTargetStage)) (operator : overrideTokenKind)
    (value : overrideValueExpr) (mapping : gmap string any) : Res (gmap string any) :=
  updater ← statement_updater operator value (VMap mapping);
  match updater with
  | None => inr mapping
  | Some updater =>
      match target with
      | Some stages => selections ← resolve stages (VMap mapping); update_selections selections updater mapping
      | None =>
          match updateOverridePath (VMap mapping) path updater with
          | inl e => inl (wrapf "update %s: %w" [path_String path] e)
          | inr updated => updated_mapping path mapping updated
          end
      end
  end.
(** @go adapter/provider/override_expr.go:1363-1380 overrideDeleteStatement.apply *)
Definition apply_delete (paths : list overridePath) (mapping : gmap string any) : Res (gmap string any) :=
  match deleteOverridePaths (VMap mapping) paths with
  | VMap updated => inr updated
  | _ => inl (errorf "root expression must produce a mapping" [])
  end.

(** The mapping after a statement; after an error the caller drops it.
    @go adapter/provider/override_expr.go:124-126 overrideStatement *)
Definition apply (statement : overrideStatement) (mapping : gmap string any) : Res (gmap string any) :=
  match statement with
  | overrideAssignStatement path target operator value => apply_assign path target operator value mapping
  | overrideFilterStatement expression => apply_filter expression mapping
  | overrideDeleteStatement paths => apply_delete paths mapping
  end.
(** @go adapter/provider/override_expr.go:160-168 Apply *)
Fixpoint Apply (statements : list overrideStatement) (mapping : gmap string any) : Res (gmap string any) :=
  match statements with
  | [] => inr mapping
  | statement :: statements => mapping ← apply statement mapping; Apply statements mapping
  end.
End Eval.

(** * Override expressions: the model runs

    The test cases of [adapter/provider/override_expr_test.go], replayed on the model
    as far as they need neither YAML nor regular expressions.  Texts write a single
    quote for a quote. *)


(** An environment without YAML and regular expressions, and with ASCII case. *)
#[global] Instance plain_env : ExprEnv := {|
  yaml_Marshal := fun _ => None; regexp_Compile := fun _ => None; unicode_ToUpper := ToUpper; unicode_ToLower := ToLower;
  unfit := fun _ => - 2 ^ 63; Sprint_other := fun _ => "" |}.

Fixpoint quoted (s : string) : string :=
  match s with "" => "" | String c r => String (if Ascii.eqb c "'" then quote else c) (quoted r) end.
Definition parsed (s : string) : list overrideStatement :=
  match NewOverrideExpr (quoted s) with Some (inr e) => statements e | _ => [] end.
(** The value of an expression that reads nothing. *)
Definition val (s : string) : any :=
  match parsed s with [overrideFilterStatement e] => match evalOverrideSingle e VNil with inr v => v | inl _ => overrideNoMatch end | _ => overrideNoMatch end.
(** The expressions applied one after the other to a mapping. *)
Definition edit (exprs : list string) (mapping : string) : any :=
  match val mapping with
  | VMap m => match Apply (concat (map parsed exprs)) m with inr m => VMap m | inl _ => overrideNoMatch end
  | _ => overrideNoMatch
  end.
Definition all_parse (exprs : list string) : bool := forallb (fun s => match parsed s with [] => false | _ => true end) exprs.
(** [input] stands under [value]; the result is found under [key]. *)
Definition yields (key input expr expected : string) : bool :=
  match edit [expr] ("{'value': " +:+ input +:+ "}") with
  | VMap m => match m !! key with Some v => DeepEqual v (val expected) | None => false end
  | _ => false
  end.
Definition edits_to (exprs : list string) (mapping expected : string) : bool := all_parse exprs && DeepEqual (edit exprs mapping) (val expected).
(** The entries of [expected] are among those of the result. *)
Definition edits_into (exprs : list string) (mapping expected : string) : bool :=
  all_parse exprs && match edit exprs mapping, val expected with
                     | VMap m, VMap n => forallb (fun k => match m !! k, n !! k with Some a, Some b => DeepEqual a b | _, _ => false end) (sorted_keys n)
                     | _, _ => false
                     end.

Example operators_and_functions :
  forallb (fun '(input, expr, expected) => yields "value" input expr expected)
    [("4", ".value = -4", "-4"); ("true", ".value |= not", "false"); ("5", ".value -= 2", "3"); ("5", ".value = .value / 2", "2.5");
     ("'a,b'", ".value = .value / ','", "['a','b']"); ("''", ".value = .value / ','", "[]");
     ("null", ".value = (.value | split(',')) // 'fallback'", "'fallback'"); ("5", ".value = .value % 2", "1"); ("5.5", ".value = .value % 2", "1.5");
     ("'ab'", ".value *= 2", "'abab'"); ("'ab'", ".value = 2 * .value", "'abab'"); ("[1]", ".value = .value * null", "[1]");
     ("[1]", ".value = .value * [2]", "[2]"); ("'edge-01'", ".value |= contains('ge-')", "true"); ("[1, 2]", ".value |= contains([2])", "true");
     ("2", ".value |= contains(2)", "true"); ("'port-'", ".value = .value + 443", "'port-443'"); ("[1]", ".value = .value + 2", "[1, 2]");
     ("null", ".value = .value - 2", "2");
     ("{'a': 1, 'nested': {'left': true}}", ".value += {'b': 2, 'nested': {'right': true}}", "{'a': 1, 'b': 2, 'nested': {'right': true}}");
     ("2", ".value = .value != 1", "true"); ("1", ".value = .value == 1.0", "false"); ("1", ".value = .value == '1'", "true");
     ("true", ".value = .value == 'true'", "true"); ("1", ".value = .value < 2", "true"); ("false", ".value = (.value or true)", "true");
     ("'  EDGE  '", ".value |= trim | .value |= downcase", "'edge'"); ("[1]", ".value |= type", "'!!seq'"); ("{'a': 1}", ".value |= type", "'!!map'");
     ("['a', 'b']", ".value |= keys", "[0, 1]"); ("['a']", ".value |= has(0)", "true"); ("['a']", ".value |= has(-1)", "true");
     ("1", ".value |= contains(1.0)", "false"); ("null", ".value = ~ // 'fallback'", "'fallback'")] = true.
Proof. vm_compute. reflexivity. Qed.

Example behavior_details :
  forallb (fun '(input, expr, expected) => yields "result" input (".result = " +:+ expr) expected)
    [("'text'", ".value.missing", "null"); ("'text'", ".value.missing // 'fallback'", "'fallback'");
     ("[{'a': 1, 'b': 2}]", "(.value | contains([{'a': 1}]))", "true"); ("{'a': {'b': 1, 'c': 2}}", "(.value | contains({'a': {'b': 1}}))", "true");
     ("1.0", "(.value | type)", "'!!float'"); ("1234", "(.value | length)", "4"); ("false", "(.value | length)", "5"); ("null", "(.value | length)", "0");
     ("[1, 2]", "(.value | length)", "2"); ("{'a': 1, 'b': 2}", "(.value | length)", "2"); ("'a界'", "(.value | length)", "4");
     ("['a', null, [1], {'a': 1}, 2]", "(.value | join('-'))", "'a----2'"); ("['a']", "(.value | has(0.5))", "false");
     ("'010'", "(.value | tonumber)", "10"); ("'0o10'", "(.value | tonumber)", "8"); ("'0x10'", "(.value | tonumber)", "16"); ("'1.5'", "(.value | tonumber)", "1.5");
     ("null", "'a\tb\u754c'", "'a\\tb\\u754c'"); ("[1, 2]", "(.value == [1, 2])", "false"); ("{'a': 1}", "(.value != {'a': 1})", "true");
     ("null", "(.value < false)", "false"); ("null", "(.value <= null)", "true")] = true.
Proof. vm_compute. reflexivity. Qed.

Example assignments :
  edits_into [".plugin-opts.mode = 'tls'"; ".ports[1] = 8443"; ".slots[2].enabled = true"; ".weights[] += 1"; ".'quoted.field' = 'quoted'"; ".tags += ['edge']";
              ".missing = .missing // 'fallback'"; ".existing = .existing // 'ignored'"]
    "{'ports': [80, 443], 'weights': {'a': 1, 'b': 2}, 'tags': ['base'], 'existing': 'keep'}"
    "{'plugin-opts': {'mode': 'tls'}, 'ports': [80, 8443], 'slots': [null, null, {'enabled': true}], 'weights': {'a': 2, 'b': 3}, 'quoted.field': 'quoted',
      'tags': ['base', 'edge'], 'missing': 'fallback', 'existing': 'keep'}"
  && edits_into [".name = '[Provider] ' + .name"; ".score *= 2"; ".labels[] |= upcase"; ".enabled = (.score >= 6 and has('name'))";
                 "(select(.score > 5) | .tier) = 'fast' | (select(.score <= 5) | .tier) = 'slow'"]
    "{'name': 'HK', 'score': 3, 'labels': ['edge', 'premium']}" "{'name': '[Provider] HK', 'score': 6, 'labels': ['EDGE', 'PREMIUM'], 'enabled': true, 'tier': 'fast'}"
  && edits_to [".options *= {'tls': {'enabled': true}, 'retries': 3}"; ".ports -= [80, 8080]"; "del(.password, .obsolete)"; "del(.servers[].secret)"]
    "{'password': 'secret', 'obsolete': true, 'ports': [80, 443, 8080], 'options': {'tls': {'sni': 'example.com'}},
      'servers': [{'host': 'a', 'secret': 'x'}, {'host': 'b', 'secret': 'y'}]}"
    "{'ports': [443], 'options': {'tls': {'sni': 'example.com', 'enabled': true}, 'retries': 3}, 'servers': [{'host': 'a'}, {'host': 'b'}]}"
  && edits_to ["del(.values[0], .values[2])"] "{'values': [0, 1, 2, 3]}" "{'values': [1, 3]}"
  && edits_into [".quoted = .['key.with.dot']"; ".quoted-again = .'key.with.dot'"; ".last = .items[-1]"; ".csv |= split(',') | .csv |= join('-')"; ".number |= tonumber";
                 ".name-length = .name | .name-length |= length"; ".option-keys = .options | .option-keys |= keys"; ".fallback = false // 'default'";
                 ".calculated = (5 + 3) * 2"; ". = . * {'root-merged': true}"]
    "{'name': 'edge-01', 'key.with.dot': 'quoted', 'items': ['first', 'last'], 'csv': 'a,b,c', 'number': '42', 'options': {'b': 2, 'a': 1}}"
    "{'quoted': 'quoted', 'quoted-again': 'quoted', 'last': 'last', 'csv': 'a-b-c', 'number': 42, 'name-length': 7, 'option-keys': ['a', 'b'],
      'fallback': 'default', 'calculated': 16, 'root-merged': true}" = true.
Proof. vm_compute. reflexivity. Qed.

Example pipelines :
  edits_into [".name = (.name | trim | upcase)"; "(select(.score > 5) | .tier) = 'fast'"; "(select(.score < 0) | .ignored) = true";
              "(.servers[] | select(.enabled) | .name) |= upcase"]
    "{'name': ' edge ', 'score': 8, 'servers': [{'name': 'first', 'enabled': true}, {'name': 'second', 'enabled': false}]}"
    "{'name': 'EDGE', 'tier': 'fast', 'servers': [{'name': 'FIRST', 'enabled': true}, {'name': 'second', 'enabled': false}]}"
  && edits_into [".label = '[\(.type)] \(.name):\(.port)'"; ".fallback-label = '\(.missing // \'default\')-\(.name)'"; ".first-label = '\((.name, .type))'"; ".hex = 0x10";
                 ".reversed = (.mixed | reverse)"; ".sorted = (.mixed | sort)"; ".deduplicated = (.duplicates | unique)"; ".flattened = (.nested | flatten)";
                 ".flattened-once = (.nested | flatten(1))"; ".has-truthy = (.truthy | any)"; ".all-truthy = (.all-true | all)"]
    "{'name': 'node', 'type': 'ss', 'port': 443, 'mixed': [3, null, false, 2, true], 'duplicates': [1, 1, '1', '1'], 'nested': [1, [2, [3]]],
      'truthy': [null, false, 'value'], 'all-true': [1, 'value', true]}"
    "{'label': '[ss] node:443', 'fallback-label': 'default-node', 'first-label': 'node', 'hex': 16, 'reversed': [true, 2, false, null, 3],
      'sorted': [null, false, true, 2, 3], 'deduplicated': [1], 'flattened': [1, 2, 3], 'flattened-once': [1, 2, [3]], 'has-truthy': true, 'all-truthy': true}"
  && edits_into [".names = [.items[].name]"; ".enabled-names = [.items[] | select(.enabled) | .name]"; ".name-ports = [.items[] | (.name, .port)]";
                 ".incremented-ports = [.items[].port + 1]"; ".mapped-names = (.items | map(.name))"; ".mapped-union = (.items | map(.name, .port))";
                 ".filtered = (.items | filter(.enabled))"; ".mapped-scores = (.scores | map_values(. + 1))"; ".selected-scores = (.scores | map_values(select(. > 1)))";
                 ".entries = (.options | to_entries)"; ".roundtrip = (.options | to_entries | from_entries)"; ".upper-options = (.options | with_entries(.key |= upcase))";
                 ".has-large-port = ([.items[].port] | any_c(. > 100))"; ".all-positive = ([.items[].port] | all_c(. > 0))";
                 ".no-matches = [.items[] | select(false)]"; ".defaults = [.items[].missing // 'default']"]
    "{'items': [{'name': 'first', 'port': 80, 'enabled': true}, {'name': 'second', 'port': 443, 'enabled': false}], 'scores': {'a': 1, 'b': 2}, 'options': {'a': 1, 'b': 2}}"
    "{'names': ['first', 'second'], 'enabled-names': ['first'], 'name-ports': ['first', 'second', 80, 443], 'incremented-ports': [81, 444], 'mapped-names': ['first', 'second'],
      'mapped-union': ['first', 'second', 80, 443], 'filtered': [{'name': 'first', 'port': 80, 'enabled': true}], 'mapped-scores': {'a': 2, 'b': 3},
      'selected-scores': {'a': 1, 'b': 2}, 'entries': [{'key': 'a', 'value': 1}, {'key': 'b', 'value': 2}], 'roundtrip': {'a': 1, 'b': 2}, 'upper-options': {'A': 1, 'B': 2},
      'has-large-port': true, 'all-positive': true, 'no-matches': [], 'defaults': ['default', 'default']}"
  && edits_into [".result = {'omitted': select(false), 'last': (.items[])}"] "{'items': [1, 2]}" "{'result': {'last': 2}}"
  && edits_to [". | with_entries(.key |= upcase)"; "{'name': .NAME, 'udp': .UDP, 'type': 'ss'}"] "{'name': 'node', 'udp': false}" "{'name': 'node', 'udp': false, 'type': 'ss'}" = true.
Proof. vm_compute. reflexivity. Qed.

(** ** What the code does not do as documented *)

(** A hexadecimal integer with a digit [e] is taken for a float and refused. *)
Example hex_with_e : val "0x1e" = overrideNoMatch /\ val "0x1f" = VInt KInt 31.
Proof. vm_compute. split; reflexivity. Qed.

(** In an interpolation a parenthesis inside a string ends it. *)
Example paren_in_interpolated_string : parsed ".x = '\(.a + \')\')'" = [].
Proof. vm_compute. reflexivity. Qed.

(** Integers go through [float64]. *)
Example integers_lose_precision : DeepEqual (val "9007199254740993 + 0") (VInt KInt 9007199254740992) = true.
Proof. vm_compute. reflexivity. Qed.

(** A compound update inside an expression stores the marker of a failed match. *)
Example no_match_stored : edit [". | .a += select(false)"] "{'b': 1}" = VMap (<["a" := overrideNoMatch]> {["b" := VInt KInt 1]}).
Proof. vm_compute. reflexivity. Qed.
(** The statement of the same form leaves the mapping alone. *)
Example no_match_skipped : edits_to [".a += select(false)"] "{'b': 1}" "{'b': 1}" = true.
Proof. vm_compute. reflexivity. Qed.

(** A field whose name is not ASCII is cut at a byte that reads as a Latin-1 space. *)
Example latin1_space : map (fun t => text t) match lexOverrideExpr ".à" with Some (inr ts) => ts | _ => [] end = ["."; String (ascii_of_nat 195) ""; ""].
Proof. vm_compute. reflexivity. Qed.
