(* ===== verification/ExprParseProps.v ===== *)
(** * Override expressions: every text is parsed or refused

    The parser is a knot of functions that call each other before a token is taken;
    what it returns leaves fewer tokens, and what it calls itself on is shorter in
    characters, inside strings too.  So the fuel given is enough. *)

From S2P Require Import Prelude Names GoFloat GoText ExprLex ExprValue ExprParse.
#[local] Open Scope string_scope.
#[local] Open Scope list_scope.
#[local] Open Scope parser_scope.
#[local] Open Scope nat_scope.

(** ** The lexer *)

(** The characters a token was read from, at least. *)
Definition weight (t : overrideToken) : nat :=
  if decide (kind t = overrideTokenEOF) then 0
  else if decide (kind t = overrideTokenString) then 2 + String.length (text t) else String.length (text t).
Fixpoint total (ts : list overrideToken) : nat := match ts with [] => 0 | t :: ts => weight t + total ts end.
(** A token other than the end has characters. *)
Definition wf_token (t : overrideToken) : Prop := kind t <> overrideTokenEOF -> 1 <= weight t.

Lemma span_length p s a b : span p s = (a, b) -> String.length a + String.length b = String.length s.
Proof.
  revert a b. induction s as [|c s IH]; cbn; intros a b E; [by injection E as <- <-|]. destruct (p c); [|by injection E as <- <-].
  destruct (span p s) as [a' b'] eqn:Es. injection E as <- <-. cbn. by rewrite (IH a' b' eq_refl).
Qed.
Lemma scan_string_length s : forall a b, scanOverrideString s = Some (a, b) -> String.length a + 1 + String.length b = String.length s.
Proof.
  induction s as [s IH] using (well_founded_induction (Wf_nat.well_founded_ltof _ String.length)). destruct s as [|c r]; intros a b E; [done|].
  cbn in E. destruct (Ascii.eqb c backslash).
  - destruct r as [|d r]; [done|]. destruct (scanOverrideString r) as [[a' b']|] eqn:Es; [|done]. injection E as <- <-.
    cbn. rewrite <- (IH r ltac:(unfold Wf_nat.ltof; cbn; lia) a' b' Es). lia.
  - destruct (Ascii.eqb c quote); [injection E as <- <-; cbn; lia|].
    destruct (scanOverrideString r) as [[a' b']|] eqn:Es; [|done]. injection E as <- <-.
    cbn. rewrite <- (IH r ltac:(unfold Wf_nat.ltof; cbn; lia) a' b' Es). lia.
Qed.
Lemma scan_number_length c r a b : is_digit c = true -> scanOverrideNumber (String c r) = (a, b) ->
  1 <= String.length a /\ String.length a + String.length b = S (String.length r).
Proof.
  intros Hc. assert (Hd : forall s a b, scan_decimal s = (a, b) -> String.length a + String.length b = String.length s).
  { intros s a' b'. unfold scan_decimal. destruct (span is_digit s) as [i s1] eqn:E1. apply span_length in E1.
    unfold scan_fraction. destruct s1 as [|d s1]; [intros [= <- <-]; cbn; rewrite ?sapp_nil; cbn in *; lia|].
    assert (Hx : forall s x y, scan_exponent s = (x, y) -> String.length x + String.length y = String.length s).
    { intros s0 x y. unfold scan_exponent. destruct s0 as [|e s0]; [by intros [= <- <-]|]. destruct (_ || _); [|by intros [= <- <-]].
      destruct s0 as [|g s0]; [by intros [= <- <-]|]. destruct (_ || _); destruct (span is_digit _) as [? ?] eqn:Es; intros [= <- <-]; apply span_length in Es; cbn in *; lia. }
    destruct (Ascii.eqb d "."); [destruct (span is_digit s1) as [f s2] eqn:E2; apply span_length in E2|];
      destruct (scan_exponent _) as [x s3] eqn:E3; apply Hx in E3; intros [= <- <-]; rewrite ?slen_app; cbn in *; rewrite ?slen_app; lia. }
  assert (Hpos : forall a b, scan_decimal (String c r) = (a, b) -> 1 <= String.length a).
  { intros a' b'. unfold scan_decimal. cbn [span]. rewrite Hc. destruct (span is_digit r) as [i s1]. destruct (scan_fraction s1) as [f s2].
    destruct (scan_exponent s2). intros [= <- <-]. rewrite sapp_cons. cbn. lia. }
  unfold scanOverrideNumber. destruct r as [|d r]; [intros E; split; [by apply (Hpos a b)|by rewrite (Hd _ _ _ E)]|].
  destruct (_ && _); [|intros E; split; [by apply (Hpos a b)|by rewrite (Hd _ _ _ E)]].
  destruct (span is_hex r) as [h s1] eqn:E1. apply span_length in E1. intros [= <- <-]. cbn. lia.
Qed.

Lemma lex_token_ok pos c r token rest : lex_token pos c r = inr (token, rest) ->
  1 <= weight token /\ weight token + String.length rest <= S (String.length r).
Proof.
  unfold lex_token, weight. assert (Hs : forall k, single_token c = Some k -> k <> overrideTokenEOF /\ k <> overrideTokenString).
  { unfold single_token. intros k. repeat (destruct (Ascii.eqb c _); [intros [= <-]; by split|]). done. }
  assert (Hd : forall x k o, double_token c = Some (x, k, o) -> (k <> overrideTokenEOF /\ k <> overrideTokenString)
                 /\ forall k', o = Some k' -> k' <> overrideTokenEOF /\ k' <> overrideTokenString).
  { unfold double_token. intros x k o. repeat (destruct (Ascii.eqb c _); [intros [= <- <- <-]; (split; [done|by intros ? [= <-]])|]). done. }
  destruct (single_token c) as [k|]; [destruct (Hs k eq_refl); intros [= <- <-]; cbn [kind text]; rewrite !decide_False by done; cbn; lia|].
  destruct (double_token c) as [[[x k] o]|].
  - destruct (Hd x k o eq_refl) as [[? ?] Ho]. destruct r as [|d r].
    + destruct o as [k'|]; [|done]. destruct (Ho k' eq_refl). intros [= <- <-]. cbn [kind text]. rewrite !decide_False by done. cbn. lia.
    + destruct (Ascii.eqb d x); [intros [= <- <-]; cbn [kind text]; rewrite !decide_False by done; cbn; lia|].
      destruct o as [k'|]; [|done]. destruct (Ho k' eq_refl). intros [= <- <-]. cbn [kind text]. rewrite !decide_False by done. cbn. lia.
  - destruct (Ascii.eqb c quote).
    { destruct (scanOverrideString r) as [[a b]|] eqn:E; [|done]. apply scan_string_length in E. intros [= <- <-]. cbn [kind text].
      rewrite decide_False by done. rewrite decide_True by done. lia. }
    destruct (is_digit c) eqn:Hc.
    { destruct (scanOverrideNumber _) as [a b] eqn:E. apply scan_number_length in E as [? ?]; [|done]. intros [= <- <-]. cbn [kind text].
      rewrite !decide_False by done. lia. }
    destruct (isOverrideIdentifierStart c); [|done]. destruct (span _ r) as [a b] eqn:E. apply span_length in E. intros [= <- <-]. cbn [kind text].
    rewrite !decide_False by done. cbn. lia.
Qed.

(** The lexer returns, and its tokens are no longer than the text. *)
Lemma lex_loop_ok fuel : forall pos s, String.length s <= fuel ->
  match lex_loop fuel pos s with
  | None => False
  | Some (inl _) => True
  | Some (inr ts) => Forall wf_token ts /\ total ts <= String.length s
  end.
Proof.
  assert (Heof : forall pos, wf_token (mkToken overrideTokenEOF "" pos)) by (intros pos H; done).
  assert (Hz : forall pos, total [mkToken overrideTokenEOF "" pos] = 0) by (intros pos; vm_compute; reflexivity).
  induction fuel as [|fuel IH]; intros pos [|c r] Hf; cbn [lex_loop]; [| cbn in Hf; lia | |].
  1,2: split; [by apply Forall_singleton|rewrite Hz; lia].
  cbn in Hf. destruct (byte_IsSpace c).
  { specialize (IH (pos + 1)%Z r ltac:(lia)). destruct (lex_loop fuel _ r) as [[e|ts]|]; try done. destruct IH. split; [done|]. cbn. lia. }
  destruct (Ascii.eqb c "#"); [split; [by apply Forall_singleton|rewrite Hz; lia]|].
  destruct (lex_token pos c r) as [e|[token rest]] eqn:E; [done|]. apply lex_token_ok in E as [E1 E2].
  specialize (IH (pos + Z.of_nat (String.length (String c r) - String.length rest))%Z rest ltac:(cbn; lia)). destruct (lex_loop fuel _ rest) as [[e|ts]|]; try done.
  destruct IH as [H1 H2]. split; [constructor; [by intros _|done]|]. cbn. cbn in E2. lia.
Qed.
Lemma lexOverrideExpr_ok s :
  match lexOverrideExpr s with
  | None => False
  | Some (inl _) => True
  | Some (inr ts) => Forall wf_token ts /\ total ts <= String.length s
  end.
Proof. by apply lex_loop_ok. Qed.

(** ** Parsers that return *)

(** [rest] is what is left of [ts] behind tokens that are not the end. *)
Definition advances (strict : bool) (ts rest : list overrideToken) : Prop :=
  exists d, ts = d ++ rest /\ Forall (fun t => kind t <> overrideTokenEOF) d /\ (strict = true -> d <> []).

(** On tokens of less than [n] characters the parser [p] returns, and takes a token
    if [strict] of its result. *)
Definition returns {A} (n : nat) (strict : A -> bool) (p : Parser A) (ts : list overrideToken) : Prop :=
  Forall wf_token ts -> total ts < n ->
  match p ts with
  | None => False
  | Some (inl _) => True
  | Some (inr (a, rest)) => advances (strict a) ts rest
  end.
Abbreviation takes := (fun _ => true).
Abbreviation may_take := (fun _ => false).

Lemma total_app l k : total (l ++ k) = total l + total k.
Proof. induction l as [|t l IH]; [done|]. cbn. rewrite IH. lia. Qed.
Lemma advances_refl ts : advances false ts ts.
Proof. exists []. by split_and!. Qed.
Lemma advances_trans b1 b2 b ts1 ts2 ts3 : advances b1 ts1 ts2 -> advances b2 ts2 ts3 -> (b = true -> b1 = true \/ b2 = true) -> advances b ts1 ts3.
Proof.
  intros (d1 & -> & H1 & N1) (d2 & -> & H2 & N2) Hb. exists (d1 ++ d2). rewrite app_assoc. split_and!; [done|by apply Forall_app|].
  intros E. destruct (Hb E) as [Hs|Hs]; intros [? ?]%app_eq_nil; [by apply N1|by apply N2].
Qed.
Lemma advances_wf b ts rest : advances b ts rest -> Forall wf_token ts -> Forall wf_token rest /\ total rest + (if b then 1 else 0) <= total ts /\ length rest + (if b then 1 else 0) <= length ts.
Proof.
  intros (d & -> & Hd & Hb) Hw. apply Forall_app in Hw as [Hwd Hw]. split; [done|]. rewrite total_app, length_app. destruct b; [|lia].
  destruct d as [|t d]; [by destruct (Hb eq_refl)|]. inversion Hd as [|? ? Ht _]; inversion Hwd as [|? ? Hwt _]; subst. cbn. specialize (Hwt Ht). lia.
Qed.
Lemma advances_weaken b ts rest : advances b ts rest -> advances false ts rest.
Proof. intros (d & ? & ? & _). by exists d. Qed.

Lemma returns_ret {A} n (a : A) ts : returns n may_take (p_ret a) ts.
Proof. intros _ _. apply advances_refl. Qed.
Lemma returns_fail {A} n s e ts : returns n s (@p_fail A e) ts.
Proof. by intros _ _. Qed.
(** What follows is run on the rest, with one character less if a token was taken. *)
Lemma returns_bind {A B} n s t (p : Parser A) (f : A -> Parser B) ts : returns n s p ts ->
  (forall a rest, p ts = Some (inr (a, rest)) -> length rest + (if s a then 1 else 0) <= length ts ->
     returns (n - if s a then 1 else 0) (if s a then may_take else t) (f a) rest) ->
  returns n t (p_bind p f) ts.
Proof.
  intros Hp Hf Hw Hn. unfold p_bind. specialize (Hp Hw Hn). destruct (p ts) as [[e|[a rest]]|] eqn:E; [done| |done].
  destruct (advances_wf _ _ _ Hp Hw) as (Hw' & Ht & Hl). specialize (Hf a rest eq_refl Hl Hw' ltac:(destruct (s a); lia)).
  destruct (f a rest) as [[e|[b rest']]|]; [done| |done]. eapply advances_trans; [done|done|]. destruct (s a); [by left|by right].
Qed.
Lemma returns_weaken {A} n m (s t : A -> bool) p ts : returns n s p ts -> m <= n -> (forall a, t a = true -> s a = true) -> returns m t p ts.
Proof.
  intros Hp Hm Hst Hw Ht. specialize (Hp Hw ltac:(lia)). destruct (p ts) as [[e|[a rest]]|]; [done| |done].
  eapply advances_trans; [exact Hp|apply advances_refl|]. intros E. left. by apply Hst.
Qed.

Lemma returns_next n ts : returns n (fun t => negb (bool_decide (kind t = overrideTokenEOF))) next ts.
Proof.
  intros _ _. unfold next. destruct ts as [|t ts]; cbn [peek_of].
  { rewrite decide_True by done. apply advances_refl. }
  destruct (decide _) as [Hk|Hk]; [rewrite bool_decide_true by done; apply advances_refl|]. rewrite bool_decide_false by done.
  exists [t]. split_and!; [done|by apply Forall_singleton|done].
Qed.
Lemma returns_peek n ts : returns n may_take peek ts.
Proof. intros _ _. apply advances_refl. Qed.
(** Looking at the first token: what follows is run with it in place. *)
Lemma returns_peek_bind {B} n t (f : overrideToken -> Parser B) ts : returns n t (f (peek_of ts)) ts -> returns n t (p_bind peek f) ts.
Proof. intros H. exact H. Qed.
(** Taking a first token that is not the end. *)
Lemma returns_next_bind {B} n t (f : overrideToken -> Parser B) ts : kind (peek_of ts) <> overrideTokenEOF ->
  (forall rest, length rest + 1 <= length ts -> ts = peek_of ts :: rest -> returns (n - 1) may_take (f (peek_of ts)) rest) -> returns n t (p_bind next f) ts.
Proof.
  intros Hk Hf. destruct ts as [|x ts]; [done|]. cbn [peek_of] in *. eapply returns_bind; [apply returns_next|].
  unfold next. cbn [peek_of]. rewrite decide_False by done. intros a rest [= <- <-] _. rewrite bool_decide_false by done. apply Hf; [cbn; lia|done].
Qed.
Lemma returns_match n k ts : k <> overrideTokenEOF -> returns n (fun b => b) (match_ k) ts.
Proof.
  intros Hk. apply returns_peek_bind. destruct (decide (kind (peek_of ts) = k)) as [E|]; [|intros _ _; apply advances_refl].
  intros Hw Hn. pose proof (returns_next n ts Hw Hn) as Hx. unfold p_bind. destruct (next ts) as [[e|[t rest]]|] eqn:En; [done| |done].
  injection En as <- <-. rewrite bool_decide_false in Hx by congruence. exact Hx.
Qed.
Lemma returns_expect n k m ts : k <> overrideTokenEOF -> returns n takes (expect k m) ts.
Proof.
  intros Hk Hw Hn. pose proof (returns_next n ts Hw Hn) as Hx. unfold expect, p_bind. destruct (next ts) as [[e|[t rest]]|]; [done| |done].
  destruct (decide (kind t = k)) as [E|]; [|done]. rewrite bool_decide_false in Hx by congruence. exact Hx.
Qed.

Lemma returns_with_fuel {A} n s (p : nat -> Parser A) ts : returns n s (p (length ts)) ts -> returns n s (with_fuel p) ts.
Proof. intros H. exact H. Qed.

(** One step of a proof that a parser returns. *)
Ltac p_step L := eapply returns_bind; [first [apply L; done|apply L]|]; intros ? ? _ ?; cbn beta iota in *.
Ltac p_end := first [apply returns_fail|apply returns_ret].

(** ** Paths *)

Lemma returns_pathField n token ts : returns n may_take (pathField token) ts.
Proof. unfold pathField. destruct (decide _); [apply returns_ret|]. destruct (decodeOverrideString _ _); [apply returns_fail|apply returns_ret]. Qed.
Lemma returns_bracket n ts : returns n takes bracket_segment ts.
Proof.
  unfold bracket_segment. intros Hw Hn. eapply returns_bind; [apply returns_next| |done|done]. intros token rest E Hl.
  assert (Hseg : returns (n - (if negb (bool_decide (kind token = overrideTokenEOF)) then 1 else 0)) may_take
    (match kind token with
     | overrideTokenString | overrideTokenIdentifier => key <~ pathField token ;; p_ret (overridePathField key)
     | overrideTokenNumber => match ParseInt64 10 (text token) with Some index => p_ret (overridePathIndex index) | None => p_fail (token_errorf token "invalid array index %q" [text token]) end
     | overrideTokenMinus =>
         number <~ expect overrideTokenNumber "expected array index after '-'" ;;
         let t := (text token +:+ text number)%string in
         match ParseInt64 10 t with Some index => p_ret (overridePathIndex index) | None => p_fail (token_errorf token "invalid array index %q" [t]) end
     | _ => p_fail (token_errorf token "expected field name or array index" [])
     end) rest).
  { destruct (kind token); try apply returns_fail.
    - p_step returns_pathField. p_end.
    - p_step returns_pathField. p_end.
    - destruct (ParseInt64 10 (text token)); [apply returns_ret|apply returns_fail].
    - p_step returns_expect. cbv zeta. destruct (ParseInt64 10 _); p_end. }
  eapply returns_bind; [exact Hseg|]. intros segment r _ _. cbn beta iota in *. eapply returns_weaken with (s := takes) (n := n - (if negb (bool_decide (kind token = overrideTokenEOF)) then 1 else 0) - 0); [|lia|by destruct (negb _)].
  p_step returns_expect. p_end.
Qed.

Lemma returns_path_loop n fuel : forall segments ts, length ts < fuel -> returns n may_take (path_loop fuel segments) ts.
Proof.
  revert n. induction fuel as [|fuel IH]; intros n segments ts Hf; [lia|]. cbn [path_loop]. apply returns_peek_bind.
  destruct (kind (peek_of ts)) eqn:Ek; try p_end.
  - apply returns_next_bind; [congruence|]. intros rest Hl _. p_step returns_next. destruct (decide _) as [Hk|]; [|p_end].
    rewrite bool_decide_false by (destruct Hk; congruence). cbn [negb]. p_step returns_pathField. apply IH. lia.
  - apply returns_next_bind; [congruence|]. intros rest Hl _. p_step returns_match. destruct a.
    + apply IH. lia.
    + p_step returns_bracket. apply IH. lia.
Qed.
Lemma returns_parsePath n ts : returns n takes parsePath ts.
Proof.
  unfold parsePath. p_step returns_expect. apply returns_peek_bind.
  eapply (returns_bind _ may_take).
  - destruct (decide _) as [Hk|]; [|p_end]. apply returns_next_bind; [destruct Hk; congruence|]. intros r _ _. p_step returns_pathField. p_end.
  - intros first r _ _. cbn beta iota in *. apply returns_with_fuel, returns_path_loop. lia.
Qed.
Lemma returns_parseNumber n token ts : returns n may_take (parseNumber token) ts.
Proof.
  unfold parseNumber. destruct (contains_any _ _); [destruct (ParseFloat _); p_end|]. destruct (_ || _); destruct (ParseInt64 _ _); p_end.
Qed.

(** ** Interpolations *)

Lemma interpolation_length quoted depth raw : forall a b, findOverrideInterpolationEnd quoted depth raw = Some (a, b) -> String.length a + 1 + String.length b = String.length raw.
Proof.
  revert quoted depth. induction raw as [raw IH] using (well_founded_induction (Wf_nat.well_founded_ltof _ String.length)).
  assert (Hrec : forall q d s p k a b, String.length s < String.length raw -> ('(a, b) ← findOverrideInterpolationEnd q d s; Some (p a, b)) = Some (a, b) ->
    (forall x, String.length (p x) = k + String.length x) -> String.length a + 1 + String.length b = k + String.length s).
  { intros q d s p k a b Hl E Hp. destruct (findOverrideInterpolationEnd q d s) as [[a' b']|] eqn:Es; [|done]. injection E as <- <-.
    rewrite Hp. rewrite <- (IH s Hl q d a' b' Es). lia. }
  intros quoted depth a b E. destruct raw as [|c r]; [done|]. cbn [findOverrideInterpolationEnd] in E. cbn [String.length].
  destruct (Ascii.eqb c backslash).
  { destruct r as [|d r]; [done|]. apply (Hrec _ _ r (fun x => String c (String d x)) 2 a b) in E; [cbn; lia|cbn; lia|done]. }
  repeat match type of E with
  | context [if ?x then _ else _] => destruct x
  | context [match depth with _ => _ end] => destruct depth
  end; try (apply (Hrec _ _ r (String c) 1 a b) in E; [lia|cbn; lia|done]).
  injection E as <- <-. cbn. lia.
Qed.
Lemma unescape_length s : String.length (unescape_quotes s) <= String.length s.
Proof.
  induction s as [s IH] using (well_founded_induction (Wf_nat.well_founded_ltof _ String.length)). destruct s as [|c [|d r]]; [done..|].
  cbn [unescape_quotes]. destruct (_ && _); cbn [String.length].
  - pose proof (IH r ltac:(unfold Wf_nat.ltof; cbn; lia)). lia.
  - pose proof (IH (String d r) ltac:(unfold Wf_nat.ltof; cbn; lia)). cbn in *. lia.
Qed.

(** ** Expressions *)

Section Parse.
Context (self : bool -> Parser overrideValueExpr) (N : nat) (Hself : forall low ts, returns N takes (self low) ts).

Lemma returns_self n low ts : n <= N -> returns n takes (self low) ts.
Proof. intros Hn. by eapply returns_weaken; [apply Hself|lia|]. Qed.

Lemma returns_union_loop fuel : forall n low values ts, n <= N -> length ts < fuel -> returns n may_take (union_loop self fuel low values) ts.
Proof.
  induction fuel as [|fuel IH]; intros n low values ts Hn Hf; [lia|]. cbn [union_loop]. p_step returns_match. destruct a; [|p_end].
  eapply returns_bind; [apply returns_self; lia|]. intros value r _ Hl. cbn beta iota in *. apply IH; lia.
Qed.
Lemma returns_union n low ts : n <= N -> returns n takes (parseUnionExpression self low) ts.
Proof.
  intros Hn. unfold parseUnionExpression. eapply returns_bind; [by apply returns_self|]. intros first r _ Hl. cbn beta iota in *.
  eapply (returns_bind _ may_take); [apply returns_with_fuel, returns_union_loop; lia|]. intros values r' _ _. cbn beta iota in *. p_end.
Qed.
Lemma parseOverrideValueExpr_some source : String.length source < N -> parseOverrideValueExpr self source <> None.
Proof.
  intros Hs. unfold parseOverrideValueExpr. pose proof (lexOverrideExpr_ok source) as Hl. destruct (lexOverrideExpr source) as [[e|ts]|]; [done| |done].
  destruct Hl as [Hw Ht]. pose proof (returns_union N true ts (Nat.le_refl _) Hw ltac:(lia)) as Hr.
  destruct (parseUnionExpression self true ts) as [[e|[a rest]]|]; [done| |done]. by destruct (decide _).
Qed.
Lemma string_loop_some fuel : forall token literal start pos s parts, String.length s < fuel -> String.length s <= N ->
  string_loop self fuel token literal start pos s parts <> None.
Proof.
  induction fuel as [|fuel IH]; intros token literal start pos s parts Hf Hn; [lia|]. cbn [string_loop].
  destruct s as [|c [|d r]]; [by destruct (decodeOverrideString _ _)..|]. cbn in Hf, Hn.
  destruct (negb (Ascii.eqb c backslash)); [apply IH; cbn; lia|]. destruct (negb (Ascii.eqb d "(")); [apply IH; lia|].
  destruct (decodeOverrideString _ _); [done|]. destruct (findOverrideInterpolationEnd false 0 r) as [[inner rest]|] eqn:E; [|done].
  apply interpolation_length in E. pose proof (unescape_length inner). pose proof (parseOverrideValueExpr_some (unescape_quotes inner) ltac:(lia)).
  destruct (parseOverrideValueExpr self _) as [[e|x]|]; [done| |done]. apply IH; lia.
Qed.
Lemma returns_parseString n token ts : String.length (text token) <= N -> returns n may_take (parseString self token) ts.
Proof.
  intros Hl _ _. unfold parseString. pose proof (string_loop_some (S (String.length (text token))) token "" 0%Z 0%Z (text token) [] ltac:(lia) Hl) as Hs.
  destruct (string_loop _ _ _ _ _ _ _ _) as [[e|x]|]; [done|apply advances_refl|done].
Qed.

Lemma returns_separated fuel : forall n seps values ts, overrideTokenEOF ∉ seps -> n <= N -> length ts < fuel -> returns n takes (separated_loop self fuel seps values) ts.
Proof.
  induction fuel as [|fuel IH]; intros n seps values ts Hs Hn Hf; [lia|]. cbn [separated_loop].
  eapply returns_bind; [by apply returns_self|]. intros value r _ Hl. cbn beta iota in *. apply returns_peek_bind. destruct (decide _) as [Hin|]; [|p_end].
  apply returns_next_bind; [congruence|]. intros r' Hl' _. eapply returns_weaken; [apply (IH (n - 1 - 1)); [done|lia|lia]|lia|done].
Qed.
Lemma returns_entries fuel : forall n entries ts, n <= N -> length ts < fuel -> returns n takes (entries_loop self fuel entries) ts.
Proof.
  induction fuel as [|fuel IH]; intros n entries ts Hn Hf; [lia|]. cbn [entries_loop]. p_step returns_next.
  destruct (decide (kind a <> overrideTokenString)) as [|Hk]; [p_end|]. apply dec_stable in Hk. rewrite Hk in *.
  change (bool_decide (overrideTokenString = overrideTokenEOF)) with false in *. cbn [negb] in *. p_step returns_expect. destruct (decodeOverrideString _ _); [p_end|].
  eapply returns_bind; [apply returns_self; lia|]. intros value r _ Hl. cbn beta iota in *. p_step returns_match. destruct a1; [|p_end].
  eapply returns_weaken; [apply (IH (n - 1 - 1 - 1 - 1)); lia|lia|done].
Qed.
Lemma returns_identifier n token ts : n <= N -> returns n may_take (parseIdentifier self token) ts.
Proof.
  intros Hn. unfold parseIdentifier. destruct (String.eqb (text token) "true"); [p_end|]. destruct (String.eqb (text token) "false"); [p_end|].
  destruct (_ || _)%bool; [p_end|].
  p_step returns_match. eapply (returns_bind _ may_take).
  - destruct a; [|p_end]. p_step returns_match. destruct a; [p_end|]. eapply returns_bind; [apply returns_with_fuel, returns_separated; [set_solver|lia|lia]|].
    intros args r _ _. cbn beta iota in *. p_step returns_expect. p_end.
  - intros args r _ _. cbn beta iota in *. destruct a; (destruct (negb _); [|destruct (isOverrideStreamFunction _)]); p_end.
Qed.

(** A token is no longer than what is left. *)
Lemma first_string n ts : total ts < S n -> kind (peek_of ts) = overrideTokenString -> String.length (text (peek_of ts)) <= n.
Proof.
  destruct ts as [|t ts]; [done|]. cbn [total peek_of]. intros Ht Hk. unfold weight in Ht. rewrite decide_False, decide_True in Ht by congruence. lia.
Qed.
Lemma returns_parsePrimary ts : returns (S N) takes (parsePrimary self) ts.
Proof.
  intros Hw Hn. unfold parsePrimary. pose proof (first_string N ts Hn) as Hstr. revert Hw Hn. change (returns (S N) takes (fun _ => parsePrimary self ts) ts).
  unfold parsePrimary, returns. intros Hw Hn.
  enough (Hb : kind (peek_of ts) <> overrideTokenEOF -> kind (peek_of ts) <> overrideTokenDot -> returns (S N) takes (parsePrimary self) ts).
  { destruct (decide (kind (peek_of ts) = overrideTokenEOF)) as [E|E]; [unfold p_bind, next; by rewrite E|].
    destruct (decide (kind (peek_of ts) = overrideTokenDot)) as [D|D]; [|exact (Hb E D Hw Hn)].
    unfold p_bind at 1, next. rewrite decide_False by done. rewrite D.
    assert (Hp : returns (S N) takes (path <~ parsePath ;; p_ret (overridePathExpr path)) ts) by (p_step returns_parsePath; p_end). exact (Hp Hw Hn). }
  clear Hw Hn. intros E D. unfold parsePrimary. apply returns_next_bind; [done|]. intros rest Hl _. replace (S N - 1) with N by lia.
  destruct (kind (peek_of ts)) eqn:Ek; try p_end; try done.
  - by apply returns_identifier.
  - by apply returns_parseString, Hstr.
  - apply returns_parseNumber.
  - eapply returns_bind; [by apply returns_union|]. intros value r _ _. cbn beta iota in *. p_step returns_expect. p_end.
  - p_step returns_match. destruct a; [p_end|]. eapply returns_bind; [apply returns_with_fuel, returns_separated; [set_solver|lia|lia]|].
    intros values r _ _. cbn beta iota in *. p_step returns_expect. p_end.
  - p_step returns_match. destruct a; [p_end|]. eapply returns_bind; [apply returns_with_fuel, returns_entries; lia|].
    intros entries r _ _. cbn beta iota in *. p_step returns_expect. p_end.
Qed.
Lemma returns_parseUnary ts : returns (S N) takes (parseUnary self) ts.
Proof.
  unfold parseUnary. apply returns_peek_bind. destruct (decide _) as [Hk|]; [|apply returns_parsePrimary].
  apply returns_next_bind; [congruence|]. intros rest _ _. p_step returns_next. destruct (decide _); [p_end|]. destruct (negb _); apply returns_parseNumber.
Qed.

(** A level of binary operators over operands that return. *)
Lemma returns_binary_level op p : (forall t, op t <> None -> kind t <> overrideTokenEOF) -> (forall ts, returns (S N) takes p ts) ->
  forall ts, returns (S N) takes (binary_level op p) ts.
Proof.
  intros Hop Hp ts. unfold binary_level. eapply returns_bind; [apply Hp|]. intros left r _ _. cbn beta iota in *. apply returns_with_fuel.
  replace (S N - 1) with N by lia. enough (Hloop : forall fuel n left ts, n <= S N -> length ts <= fuel -> returns n may_take (binary_loop fuel op p left) ts) by (apply Hloop; lia).
  clear left r ts. induction fuel as [|fuel IH]; intros n left ts Hn Hf.
  - cbn. apply returns_peek_bind. destruct ts; [|cbn in Hf; lia]. cbn [peek_of]. specialize (Hop EOF_token). destruct (op EOF_token); [by destruct Hop|p_end].
  - cbn. apply returns_peek_bind. specialize (Hop (peek_of ts)). destruct (op (peek_of ts)) as [o|]; [|p_end].
    apply returns_next_bind; [by apply Hop|]. intros rest Hl _. eapply (returns_bind _ takes); [eapply returns_weaken; [apply Hp|lia|done]|].
    intros right r _ Hl'. cbn beta iota in *. apply IH; lia.
Qed.
Ltac binary_op := intros t Ht; unfold multiplicative_op, additive_op, comparison_op, alternative_op, word_op, is_identifier in Ht; intros Hk; rewrite Hk in Ht; done.
Lemma returns_parseAlternative ts : returns (S N) takes (parseAlternative self) ts.
Proof.
  revert ts. unfold parseAlternative, parseComparison, parseAdditive, parseMultiplicative.
  do 4 (apply returns_binary_level; [binary_op|]). apply returns_parseUnary.
Qed.
Lemma returns_parseOr ts : returns (S N) takes (parseOr self) ts.
Proof.
  revert ts. unfold parseOr, parseAnd. do 2 (apply returns_binary_level; [binary_op|]). apply returns_parseAlternative.
Qed.
Lemma returns_update ts : returns (S N) (fun o => match o with Some _ => true | None => false end) (parseValueUpdateExpression self) ts.
Proof.
  intros Hw Hn. unfold parseValueUpdateExpression. destruct (decide _); [apply advances_refl|].
  pose proof (returns_parsePath (S N) ts Hw Hn) as Hp. destruct (parsePath ts) as [[e|[path rest]]|]; [apply advances_refl| |done].
  destruct (isOverrideAssignmentToken (kind (peek_of rest))) eqn:Ea; cbn [negb]; [|apply advances_refl].
  destruct (advances_wf _ _ _ Hp Hw) as (Hw' & Ht & _). cbn in Ht.
  assert (Hr : returns N takes (operator <~ next ;; value <~ self false ;; p_ret (Some (overrideValueUpdateExpr path (kind operator) value))) rest).
  { apply returns_next_bind; [intros E; by rewrite E in Ea|]. intros r _ _. eapply returns_bind; [apply returns_self; lia|]. intros value r' _ _. cbn beta iota in *. p_end. }
  specialize (Hr Hw' ltac:(lia)). destruct (p_bind _ _ rest) as [[e|[o r]]|] eqn:E; [done| |done].
  destruct o; [|eapply advances_weaken]; (eapply advances_trans; [exact Hp|exact Hr|by left]).
Qed.
Lemma returns_stage p ts : (forall ts, returns (S N) takes p ts) -> returns (S N) takes (parseStage self p) ts.
Proof.
  intros Hp. unfold parseStage. eapply returns_bind; [apply returns_update|]. intros [e|] r _ _; cbn beta iota in *; [p_end|].
  eapply returns_weaken; [apply Hp|lia|done].
Qed.
Lemma returns_value_expression low ts : returns (S N) takes (value_expression self low) ts.
Proof.
  unfold value_expression. eapply returns_bind; [apply returns_stage; destruct low; [apply returns_parseOr|apply returns_parseAlternative]|].
  intros first r _ _. cbn beta iota in *. destruct (negb low); [p_end|]. eapply (returns_bind _ may_take); [apply returns_with_fuel|intros; p_end].
  replace (S N - 1) with N by lia. enough (Hloop : forall fuel n stages ts, n <= S N -> length ts < fuel -> returns n may_take (stages_loop self fuel stages) ts) by (apply Hloop; lia).
  clear first r ts. induction fuel as [|fuel IH]; intros n stages ts Hn Hf; [lia|]. cbn [stages_loop]. p_step returns_match. destruct a; [|p_end].
  eapply (returns_bind _ takes); [eapply returns_weaken; [apply returns_stage, returns_parseOr|lia|done]|]. intros stage r _ Hl. cbn beta iota in *. apply IH; lia.
Qed.
End Parse.

Lemma returns_parseValueExpression fuel low ts : returns fuel takes (parseValueExpression fuel low) ts.
Proof.
  revert low ts. induction fuel as [|fuel IH]; intros low ts; [intros _ H; lia|]. cbn [parseValueExpression]. by apply returns_value_expression.
Qed.

(** ** Statements *)

Section Statements.
Context (N : nat).

Lemma returns_value n low ts : n <= N -> returns n takes (parseValueExpression N low) ts.
Proof. intros Hn. by eapply returns_weaken; [apply returns_parseValueExpression|lia|]. Qed.
Lemma returns_value_union n low ts : n <= N -> returns n takes (parseUnionExpression (parseValueExpression N) low) ts.
Proof. intros Hn. eapply (returns_union _ N); [|done]. intros. by apply returns_value. Qed.

Lemma returns_target_loop turns : forall n stages ts, n <= N -> length ts < turns -> returns n takes (target_loop N turns stages) ts.
Proof.
  induction turns as [|turns IH]; intros n stages ts Hn Ht; [lia|]. cbn [target_loop]. unfold peekIdentifier.
  apply (returns_bind _ may_take); [apply returns_peek_bind; p_end|]. intros is_select r [= <- <-]%(f_equal id) _. cbn beta iota in *.
  apply (returns_bind _ takes).
  - destruct (is_identifier "select" (peek_of ts)) eqn:Ei; [|p_step returns_parsePath; p_end].
    apply returns_next_bind; [intros E; unfold is_identifier in Ei; by rewrite E in Ei|]. intros rest Hl _. p_step returns_expect.
    eapply returns_bind; [apply returns_value; lia|]. intros condition r _ _. cbn beta iota in *. p_step returns_expect. p_end.
  - intros stage r _ Hl. cbn beta iota in *. p_step returns_match. destruct a; [|p_end]. eapply returns_weaken; [apply (IH (n - 0 - 1 - 1)); lia|lia|done].
Qed.
Lemma returns_target n ts : n <= N -> returns n takes (parseAssignmentTarget N) ts.
Proof.
  intros Hn. unfold parseAssignmentTarget. p_step returns_expect. eapply (returns_bind _ takes); [apply returns_with_fuel, returns_target_loop; lia|].
  intros stages r _ _. cbn beta iota in *. p_step returns_expect. apply returns_peek_bind. destruct (existsb _ _); p_end.
Qed.
Lemma returns_del_loop turns : forall n paths ts, length ts < turns -> returns n takes (del_loop turns paths) ts.
Proof.
  induction turns as [|turns IH]; intros n paths ts Ht; [lia|]. cbn [del_loop]. p_step returns_parsePath. p_step returns_match. destruct a0; [|p_end].
  eapply returns_weaken; [apply (IH (n - 1 - 1)); lia|lia|done].
Qed.
Lemma returns_statement ts : returns N takes (parseStatement N) ts.
Proof.
  unfold parseStatement. intros Hw Ht. destruct (is_identifier "del" (peek_of ts)) eqn:Ed; [|destruct (negb (startsAssignmentStatement ts))].
  - revert Hw Ht. change (returns N takes parseDelete ts). unfold parseDelete.
    apply returns_next_bind; [intros E; unfold is_identifier in Ed; by rewrite E in Ed|]. intros rest _ _. p_step returns_expect.
    eapply (returns_bind _ takes); [apply returns_with_fuel, returns_del_loop; lia|]. intros paths r _ _. cbn beta iota in *. p_step returns_expect.
    apply returns_peek_bind. destruct (existsb _ _); p_end.
  - revert Hw Ht. eapply returns_bind; [by apply returns_value_union|]. intros e r _ _. cbn beta iota in *. p_end.
  - revert Hw Ht. change (returns N takes (parseAssignment N) ts). unfold parseAssignment. apply returns_peek_bind.
    eapply (returns_bind _ takes).
    { destruct (decide _); [eapply returns_bind; [by apply returns_target|]; intros ? r _ _; cbn beta iota in *; p_end|p_step returns_parsePath; p_end]. }
    intros lhs r _ _. cbn beta iota in *. p_step returns_next. destruct (isOverrideAssignmentToken _); [|p_end].
    eapply returns_bind; [apply returns_value; lia|]. intros value r' _ _. cbn beta iota in *. destruct (negb _); p_end.
Qed.
Lemma returns_statements ts : returns N may_take (parse_statements N) ts.
Proof.
  unfold parse_statements. apply returns_peek_bind. destruct (decide _); [p_end|].
  eapply (returns_bind _ may_take); [apply returns_with_fuel|intros statements r _ _; cbn beta iota in *; apply returns_peek_bind; destruct (decide _); p_end].
  enough (Hloop : forall turns n stmts ts, n <= N -> length ts < turns -> returns n may_take (statements_loop N turns stmts) ts) by (apply Hloop; lia).
  clear. induction turns as [|turns IH]; intros n stmts ts Hn Ht; [lia|]. cbn [statements_loop].
  eapply (returns_bind _ takes); [eapply returns_weaken; [apply returns_statement|lia|done]|]. intros stmt r _ Hl. cbn beta iota in *.
  p_step returns_match. destruct a; cbn [negb]; [|p_end]. apply returns_peek_bind. destruct (decide _); [p_end|]. apply IH; lia.
Qed.
End Statements.

(** every text is either parsed or refused with an error: the parser returns, however deep expressions, brackets and
    interpolated strings nest, with one unit of fuel more than the text has characters. *)
Lemma NewOverrideExpr_returns source : exists r, NewOverrideExpr source = Some r.
Proof.
  unfold NewOverrideExpr. pose proof (lexOverrideExpr_ok source) as Hl. destruct (lexOverrideExpr source) as [[e|ts]|]; [by eexists| |done].
  destruct Hl as [Hw Ht]. pose proof (returns_statements (S (String.length source)) ts Hw ltac:(lia)) as Hs.
  destruct (parse_statements _ ts) as [[e|[stmts rest]]|]; [by eexists..|done].
Qed.
