(* ===== verification/ExprValueProps.v ===== *)
(** * Override expressions: laws of values

    Induction over nested values, copying, loops that may fail, merging, and integer
    arithmetic, which is exact as long as [float64] holds the operands. *)

From S2P Require Import Prelude Names GoFloat GoText ExprLex ExprValue ExprParse ExprEval.
#[local] Open Scope string_scope.
#[local] Open Scope Z_scope.
#[local] Open Scope list_scope.

(** ** Induction *)

Section Induction.
Context (P : any -> Prop) (Hatom : forall v, (forall l, v <> VArr l) -> (forall m, v <> VMap m) -> P v)
  (Harr : forall l, Forall P l -> P (VArr l)) (Hmap : forall m, map_Forall (fun _ => P) m -> P (VMap m)).
Fixpoint any_size (v : any) : nat :=
  match v with
  | VArr l => S (sum_list_with any_size l)
  | VMap m => S (map_fold (fun _ x n => any_size x + n)%nat 0%nat m)
  | _ => 1
  end.
Lemma any_size_map m key x : m !! key = Some x -> (any_size x < any_size (VMap m))%nat.
Proof.
  intros Hk. cbn. rewrite <- (insert_delete_id m key x Hk), map_fold_insert_L; [lia|intros; lia|apply lookup_delete_eq].
Qed.
Lemma any_size_arr l x : x ∈ l -> (any_size x < any_size (VArr l))%nat.
Proof. intros Hx. cbn. induction l as [|y l IH]; [by apply elem_of_nil in Hx|]. cbn. apply elem_of_cons in Hx as [->|Hx]; [lia|]. specialize (IH Hx). lia. Qed.
Lemma any_nested_ind v : P v.
Proof.
  induction v as [v IH] using (well_founded_induction (Wf_nat.well_founded_ltof _ any_size)). unfold Wf_nat.ltof in IH.
  destruct v as [| | | | | |l|m| |]; try (by apply Hatom).
  - apply Harr, Forall_forall. intros x Hx. by apply IH, any_size_arr.
  - apply Hmap. intros k x Hx. apply IH. by eapply any_size_map.
Qed.
End Induction.

(** Copies are equal. *)
Lemma clone_id v : cloneOverrideValue v = v.
Proof.
  induction v as [v Ha Hm|l IH|m IH] using any_nested_ind.
  - by destruct v; try done; [destruct (Ha l)|destruct (Hm m)].
  - cbn. f_equal. induction IH as [|x l Hx _ IHl]; [done|]. cbn. by rewrite Hx, IHl.
  - cbn. f_equal. apply map_eq. intros k. rewrite lookup_fmap. destruct (m !! k) as [x|] eqn:E; [|done]. cbn. by rewrite (IH k x E).
Qed.
Lemma clone_map (m : gmap string any) : cloneOverrideValue <$> m = m.
Proof. apply map_eq. intros k. rewrite lookup_fmap. destruct (m !! k); [cbn; by rewrite clone_id|done]. Qed.
Lemma clone_list (l : list any) : cloneOverrideValue <$> l = l.
Proof. induction l as [|x l IH]; [done|]. cbn. by rewrite clone_id, IH. Qed.

(** ** Loops that may fail *)

Lemma map_res_Forall2 {A B} (f : A -> Res B) l k : map_res f l = inr k <-> Forall2 (fun a b => f a = inr b) l k.
Proof.
  revert k. induction l as [|a l IH]; intros k; cbn.
  - split; [by intros [= <-]|by intros ->%Forall2_nil_inv_l].
  - split.
    + destruct (f a) as [e|b] eqn:Ea; [done|]. cbn. destruct (map_res f l) as [e|bs]; [done|]. cbn. intros [= <-]. constructor; [done|by apply IH].
    + intros H. inversion H as [|? b ? bs Ha Hl]; subst. rewrite Ha. cbn. apply IH in Hl. by rewrite Hl.
Qed.
Lemma flat_map_res_pure {A B} (f : A -> Res (list B)) (g : A -> list B) l : (forall a, a ∈ l -> f a = inr (g a)) -> flat_map_res f l = inr (concat (map g l)).
Proof.
  induction l as [|a l IH]; intros Hf; [done|]. cbn. rewrite (Hf a) by (by left). cbn. rewrite IH by (intros; apply Hf; by right). done.
Qed.
Lemma flat_map_res_one {A B} (f : A -> Res (list B)) a : flat_map_res f [a] = f a.
Proof. cbn. destruct (f a) as [e|b]; [done|]. cbn. by rewrite app_nil_r. Qed.
(** The order in which the keys are visited does not matter to a result. *)
Lemma map_values_res_lookup {A B} (f : A -> Res B) (m : gmap string A) m' :
  map_values_res f m = inr m' -> forall k, match m !! k, m' !! k with Some a, Some b => f a = inr b | None, None => True | _, _ => False end.
Proof.
  unfold map_values_res. revert m'. induction m as [|k a m Hk Hfirst IH] using map_first_key_ind; intros m'.
  { rewrite map_fold_empty. intros [= <-] k. by rewrite !lookup_empty. }
  rewrite map_fold_insert_first_key by done. destruct (map_fold _ _ m) as [e|acc]; cbn; [done|].
  destruct (f a) as [e|b] eqn:Ea; cbn; [done|]. intros [= <-] j.
  destruct (decide (j = k)) as [->|Hne]; [by rewrite !lookup_insert_eq|]. rewrite !lookup_insert_ne by done. by apply IH.
Qed.
(** It succeeds exactly if every key does. *)
Lemma map_values_res_total {A B} (f : A -> Res B) (g : A -> B) (m : gmap string A) :
  (forall k a, m !! k = Some a -> f a = inr (g a)) -> map_values_res f m = inr (g <$> m).
Proof.
  unfold map_values_res. induction m as [|k a m Hk Hfirst IH] using map_first_key_ind; intros Hf; [by rewrite map_fold_empty, fmap_empty|].
  rewrite map_fold_insert_first_key by done. rewrite IH.
  - cbn. rewrite (Hf k a) by apply lookup_insert_eq. cbn. by rewrite fmap_insert.
  - intros j b Hj. apply (Hf j). rewrite lookup_insert_ne; [done|congruence].
Qed.

(** ** Integers in [float64] *)

Lemma digits2_bounds p : 2 ^ (Z.pos (digits2_pos p) - 1) <= Z.pos p < 2 ^ Z.pos (digits2_pos p).
Proof.
  induction p as [p IH|p IH|]; cbn [digits2_pos]; [| |by cbn];
    rewrite Pos2Z.inj_succ; replace (Z.succ (Z.pos (digits2_pos p)) - 1) with (Z.pos (digits2_pos p)) by lia;
    rewrite Z.pow_succ_r by lia; replace (2 ^ Z.pos (digits2_pos p)) with (2 * 2 ^ (Z.pos (digits2_pos p) - 1)) in * by (rewrite <- Z.pow_succ_r by lia; f_equal; lia); lia.
Qed.
Lemma iter_xO m n : Z.pos (Pos.iter xO m n) = Z.pos m * 2 ^ Z.pos n /\ Z.pos (digits2_pos (Pos.iter xO m n)) = Z.pos (digits2_pos m) + Z.pos n.
Proof.
  induction n as [|n [IH1 IH2]] using Pos.peano_ind; [cbn; lia|]. rewrite Pos.iter_succ. cbn [digits2_pos].
  rewrite !Pos2Z.inj_succ, IH2, Z.pow_succ_r by lia. change (Z.pos (Pos.iter xO m n)~0) with (2 * Z.pos (Pos.iter xO m n)). rewrite IH1. lia.
Qed.

(** A mantissa of 53 digits is not rounded. *)
Lemma round_aux_exact s M e : Z.pos (digits2_pos M) = 53 -> -1074 <= e <= 971 -> binary_round_aux 53 1024 s (Z.pos M) e loc_Exact = S754_finite s M e.
Proof.
  intros Hd He. assert (Hs : shr_fexp 53 1024 (Z.pos M) e loc_Exact = (Build_shr_record (Z.pos M) false false, e)).
  { unfold shr_fexp. change (Zdigits2 (Z.pos M)) with (Z.pos (digits2_pos M)). rewrite Hd.
    replace (fexp 53 1024 (53 + e) - e) with 0 by (unfold fexp, emin; lia). done. }
  unfold binary_round_aux. rewrite Hs. cbn [loc_of_shr_record shr_m round_nearest_even]. rewrite Hs. cbn [shr_m].
  rewrite (proj2 (Z.leb_le e (1024 - 53))) by lia. done.
Qed.
Lemma binary_round_exact s m : Z.pos m < 2 ^ 53 -> exists M e, binary_round 53 1024 s m 0 = S754_finite s M e /\ e <= 0 /\ Z.pos M = Z.pos m * 2 ^ (- e).
Proof.
  intros Hm. pose proof (digits2_bounds m) as [Hlo _]. set (d := Z.pos (digits2_pos m)) in *.
  assert (Hd : d <= 53). { destruct (Z.le_gt_cases d 53) as [|Hgt]; [done|]. assert (2 ^ 53 <= 2 ^ (d - 1)) by (apply Z.pow_le_mono_r; lia). lia. }
  unfold binary_round, shl_align. fold d. rewrite Z.add_0_r, Z.sub_0_r. replace (fexp 53 1024 d) with (d - 53) by (unfold fexp, emin; lia).
  destruct (d - 53) as [|p|p] eqn:E; [| lia|].
  - exists m, 0. split; [apply round_aux_exact; [fold d; lia|lia]|]. split; [lia|]. rewrite Z.mul_1_r. done.
  - destruct (iter_xO m p) as [H1 H2]. exists (Pos.iter xO m p), (Z.neg p). split; [apply round_aux_exact; [rewrite H2; fold d; lia|lia]|]. split; [lia|exact H1].
Qed.
Lemma f64_of_Z_exact z : Z.abs z < 2 ^ 53 -> f64_trunc (f64_of_Z z) = Some z.
Proof.
  intros Hz. unfold f64_of_Z, binary_normalize. destruct z as [|m|m]; [done| |];
    (destruct (binary_round_exact true m) as (M' & e' & _); [cbn in Hz; lia|]);
    [destruct (binary_round_exact false m) as (M & e & -> & He & HM)|destruct (binary_round_exact true m) as (M & e & -> & He & HM)]; try (cbn in Hz; lia);
    cbn [f64_trunc]; rewrite HM; destruct (Z.leb_spec 0 e) as [H|H]; try (assert (e = 0) as -> by lia; cbn; f_equal; lia);
    rewrite Z.div_mul by lia; done.
Qed.
Lemma int_of_f64_exact u z : Z.abs z < 2 ^ 53 -> int_of_f64 u (f64_of_Z z) = z.
Proof.
  intros Hz. unfold int_of_f64. rewrite f64_of_Z_exact by done. rewrite (proj2 (Z.leb_le _ _)), (proj2 (Z.ltb_lt _ _)) by lia. done.
Qed.
Lemma f64_of_Z_zero z : Z.abs z < 2 ^ 53 -> SFeqb (f64_of_Z z) (S754_zero false) = (z =? 0).
Proof.
  intros Hz. unfold f64_of_Z, binary_normalize. destruct z as [|m|m]; [done| |];
    [destruct (binary_round_exact false m) as (M & e & -> & _)|destruct (binary_round_exact true m) as (M & e & -> & _)]; try done; cbn in *; lia.
Qed.

(** The operators on integers as they should be: 64-bit wrap-around, and the remainder of Go. *)
Definition int_operator (operator : string) (l r : Z) : Res any :=
  if String.eqb operator "+" then inr (VInt KInt (i64 (l + r)))
  else if String.eqb operator "-" then inr (VInt KInt (i64 (l - r)))
  else if String.eqb operator "*" then inr (VInt KInt (i64 (l * r)))
  else if r =? 0 then inl (errorf "cannot modulo by zero" [])
  else inr (VInt KInt (i64 (Z.rem l r))).

(** an operator on two integers whose magnitudes are below 2^53 gives the integer result of 64-bit arithmetic, exactly, whatever
    their Go types; beyond that bound operands are rounded to [float64] first (example [integers_lose_precision]). *)
Lemma integer_arithmetic `{ExprEnv} operator k j l r : operator ∈ ["+"; "-"; "*"; "%"] -> Z.abs l < 2 ^ 53 -> Z.abs r < 2 ^ 53 ->
  evaluateOverrideNumbers operator (VInt k l) (VInt j r) = int_operator operator l r.
Proof.
  intros Ho Hl Hr. unfold evaluateOverrideNumbers, int_operator. cbn [overrideNumber andb]. rewrite !int_of_f64_exact, f64_of_Z_zero by done.
  repeat (apply elem_of_cons in Ho as [->|Ho]); try done. by apply elem_of_nil in Ho.
Qed.
Lemma integer_arithmetic_witness :
  let Env : ExprEnv := {| yaml_Marshal := fun _ => None; regexp_Compile := fun _ => None; unicode_ToUpper := fun s => s; unicode_ToLower := fun s => s;
                          unfit := fun _ => 0; Sprint_other := fun _ => "" |} in
  evaluateOverrideNumbers "%" (VInt KInt (-7)) (VInt KUint16 3) = inr (VInt KInt (-1)).
Proof. intros Env. rewrite (integer_arithmetic "%" KInt KUint16 (-7) 3); [reflexivity|by apply (bool_decide_unpack _); vm_compute|done..]. Defined.

(** * Override expressions: laws of paths

    Reading after an update, reading elsewhere after an update, and deletion compared
    with a reference that removes every node at a matching place. *)


(** ** Updating and reading *)

Section Lens.
Context `{Env : ExprEnv}.

(** A null is filled in by an update, but a wildcard reads no value in it. *)
Fixpoint no_wildcard (path : overridePath) : bool :=
  match path with [] => true | overridePathWildcard :: _ => false | _ :: path => no_wildcard path end.
(** Every segment of the path meets a null or a value of its own kind, and what the
    update has to fill in holds no wildcard. *)
Fixpoint fits (value : any) (path : overridePath) {struct path} : Prop :=
  match path with
  | [] => True
  | overridePathField key :: path =>
      match value with VNil => no_wildcard path /\ fits VNil path | VMap m => fits (default VNil (m !! key)) path | _ => False end
  | overridePathIndex index :: path =>
      match value with
      | VNil => no_wildcard path /\ fits VNil path
      | VArr l => match l !! Z.to_nat (array_index index (length l)) with Some item => fits item path | None => no_wildcard path /\ fits VNil path end
      | _ => False
      end
  | overridePathWildcard :: path =>
      match value with
      | VArr l => Forall (fun item => fits item path) l
      | VMap m => map_Forall (fun _ item => fits item path) m
      | _ => True
      end
  end.

(** The array after padding. *)
Definition padded (l : list any) (i : Z) : list any := l ++ repeat VNil (Z.to_nat i + 1 - length l).
Lemma padded_lookup l i j : default VNil (padded l i !! j) = default VNil (l !! j).
Proof.
  unfold padded. destruct (decide (j < length l)%nat) as [H|H]; [by rewrite lookup_app_l|].
  rewrite lookup_app_r by lia. rewrite (lookup_ge_None_2 l) by lia. cbn.
  destruct (repeat VNil _ !! _) as [x|] eqn:E; [|done]. apply list_elem_of_lookup_2, list_elem_of_In, repeat_spec in E. by subst.
Qed.
Lemma padded_length l i : 0 <= i -> (Z.to_nat i < length (padded l i))%nat.
Proof. intros Hi. unfold padded. rewrite length_app, repeat_length. lia. Qed.
(** A padded array resolves an index the way the array did: a negative one is in range and nothing is added. *)
Lemma padded_index l index : 0 <= array_index index (length l) -> array_index index (length (padded l (array_index index (length l)))) = array_index index (length l).
Proof. unfold array_index, padded. rewrite length_app, repeat_length. destruct (Z.ltb_spec index 0); lia. Qed.

Lemma lookup_null path : no_wildcard path -> lookupOverridePathStream VNil path = [VNil].
Proof. destruct path as [|[key|index|] path]; by cbn. Qed.
Lemma lookup_item l index path : 0 <= array_index index (length l) ->
  lookupOverridePathStream (VArr l) (overridePathIndex index :: path) =
  match l !! Z.to_nat (array_index index (length l)) with Some item => lookupOverridePathStream item path | None => [VNil] end.
Proof. intros Hi. cbn. by rewrite (proj2 (Z.ltb_ge _ _)). Qed.

(** ** The cases of an update *)

Definition as_map (node : any) : option (gmap string any) := match node with VNil => Some ∅ | VMap m => Some m | _ => None end.
Definition as_array (node : any) : option (list any) := match node with VNil => Some [] | VArr l => Some l | _ => None end.

Lemma update_field_inv node key path f node' : updateOverridePath node (overridePathField key :: path) f = inr node' ->
  match as_map node with
  | Some m => exists value, updateOverridePath (default VNil (m !! key)) path f = inr value /\ node' = VMap (<[key := value]> m)
  | None => node' = node
  end.
Proof.
  destruct node as [| | | | | |l|m| |]; cbn; try (by intros [= <-]);
    (destruct (updateOverridePath _ path f) as [e|value]; cbn; [done|]); intros [= <-]; by eexists.
Qed.
Lemma update_index_inv node index path f node' : updateOverridePath node (overridePathIndex index :: path) f = inr node' ->
  match as_array node with
  | Some l => let i := array_index index (length l) in
      0 <= i /\ exists value, updateOverridePath (default VNil (l !! Z.to_nat i)) path f = inr value /\ node' = VArr (<[Z.to_nat i := value]> (padded l i))
  | None => node' = node
  end.
Proof.
  assert (Hgen : forall l, (if array_index index (length l) <? 0 then inl (errorf "array index %d is out of range" [FormatInt index])
      else value ← updateOverridePath (default VNil (padded l (array_index index (length l)) !! Z.to_nat (array_index index (length l)))) path f;
           inr (VArr (<[Z.to_nat (array_index index (length l)) := value]> (padded l (array_index index (length l)))))) = inr node' ->
      0 <= array_index index (length l) /\ exists value, updateOverridePath (default VNil (l !! Z.to_nat (array_index index (length l)))) path f = inr value
        /\ node' = VArr (<[Z.to_nat (array_index index (length l)) := value]> (padded l (array_index index (length l))))).
  { intros l. destruct (Z.ltb_spec (array_index index (length l)) 0) as [H|H]; [done|]. rewrite padded_lookup.
    destruct (updateOverridePath _ path f) as [e|value]; cbn; [done|]. intros [= <-]. split; [done|]. by eexists. }
  destruct node as [| | | | | |l|m| |]; try (by intros [= <-]); apply Hgen.
Qed.
Lemma update_wild_inv node path f node' : updateOverridePath node (overridePathWildcard :: path) f = inr node' ->
  match node with
  | VArr l => exists l', Forall2 (fun x y => updateOverridePath x path f = inr y) l l' /\ node' = VArr l'
  | VMap m => exists m', (forall k, match m !! k, m' !! k with Some x, Some y => updateOverridePath x path f = inr y | None, None => True | _, _ => False end)
                         /\ node' = VMap m'
  | _ => node' = node
  end.
Proof.
  destruct node as [| | | | | |l|m| |]; try (by intros [= <-]); cbn.
  - destruct (map_res _ l) as [e|l'] eqn:E; cbn; [done|]. intros [= <-]. apply map_res_Forall2 in E. by eexists.
  - destruct (map_values_res _ m) as [e|m'] eqn:E; cbn; [done|]. intros [= <-]. pose proof (map_values_res_lookup _ _ _ E). by eexists.
Qed.

(** ** Reading after an update *)

Lemma concat_Forall2 {A B} (R : A -> B -> Prop) (ls : list (list A)) (ks : list (list B)) : Forall2 (Forall2 R) ls ks -> Forall2 R (concat ls) (concat ks).
Proof. induction 1; cbn; [constructor|by apply Forall2_app]. Qed.
Lemma lookup_wild_map (m : gmap string any) path : lookupOverridePathStream (VMap m) (overridePathWildcard :: path) =
  concat (map (fun key => lookupOverridePathStream (default VNil (m !! key)) path) (sorted_keys m)).
Proof. done. Qed.

Lemma read_written node path f node' : fits node path -> updateOverridePath node path f = inr node' ->
  Forall2 (fun old new => f old = inr new) (lookupOverridePathStream node path) (lookupOverridePathStream node' path).
Proof.
  revert node node'. induction path as [|[key|index|] path IH]; intros node node' Hfit Hup.
  - by repeat constructor.
  - apply update_field_inv in Hup. destruct node as [| | | | | |l|m| |]; try (by destruct Hfit); cbn [as_map] in Hup; destruct Hup as (value & Hup & ->).
    + destruct Hfit as [Hw Hfit]. pose proof (IH _ _ Hfit Hup) as H. rewrite lookup_null in H by done. cbn. by rewrite lookup_insert_eq.
    + pose proof (IH _ _ Hfit Hup) as H. cbn. by rewrite lookup_insert_eq.
  - apply update_index_inv in Hup.
    assert (Hpad : forall l value, 0 <= array_index index (length l) ->
      lookupOverridePathStream (VArr (<[Z.to_nat (array_index index (length l)) := value]> (padded l (array_index index (length l))))) (overridePathIndex index :: path)
      = lookupOverridePathStream value path).
    { intros l value Hi. rewrite lookup_item by (rewrite length_insert, padded_index; done).
      rewrite length_insert, padded_index by done. by rewrite list_lookup_insert_eq by (by apply padded_length). }
    destruct node as [| | | | | |l|m| |]; try (by destruct Hfit); cbn [as_array] in Hup; destruct Hup as (Hi & value & Hup & ->); rewrite Hpad by done.
    + destruct Hfit as [Hw Hfit]. cbn [length lookup list_lookup] in Hup. pose proof (IH _ _ Hfit Hup) as H. by rewrite lookup_null in H.
    + rewrite lookup_item by done. cbn in Hfit. destruct (l !! _) as [item|] eqn:E; cbn in Hup; [by apply IH|].
      destruct Hfit as [Hw Hfit]. pose proof (IH _ _ Hfit Hup) as H. by rewrite lookup_null in H.
  - apply update_wild_inv in Hup. destruct node as [| | | | | |l|m| |]; try (subst; by constructor).
    + destruct Hup as (l' & Hup & ->). cbn in Hfit |- *. apply concat_Forall2. induction Hup as [|x y l l' Hx Hl IHl]; cbn; [constructor|].
      inversion Hfit; subst. constructor; [by apply IH|by apply IHl].
    + destruct Hup as (m' & Hup & ->). rewrite !lookup_wild_map. assert (sorted_keys m' = sorted_keys m) as ->.
      { apply sorted_keys_same. intros k. specialize (Hup k). destruct (m !! k), (m' !! k); try done; split; intros [? ?]; by eauto. }
      apply concat_Forall2. apply Forall2_fmap_l, Forall2_fmap_r, Forall_Forall2_diag, Forall_forall. intros k Hk.
      apply sorted_keys_elem in Hk as [x Hx]. specialize (Hup k). unfold compose. rewrite Hx in Hup |- *. destruct (m' !! k) as [y|]; [|done]. cbn. apply IH; [|done]. by apply (Hfit k).
Qed.

(** ** Reading elsewhere *)

(** The paths part ways, at a place where neither can mean what the other means. *)
Fixpoint apart (p q : overridePath) : bool :=
  match p, q with
  | overridePathField k :: p, overridePathField j :: q => negb (String.eqb k j) || apart p q
  | overridePathIndex i :: p, overridePathIndex j :: q => (Bool.eqb (i <? 0) (j <? 0) && negb (i =? j)) || ((i =? j) && apart p q)
  | overridePathField _ :: _, overridePathIndex _ :: _ | overridePathIndex _ :: _, overridePathField _ :: _ => true
  | overridePathWildcard :: p, overridePathField _ :: q | overridePathWildcard :: p, overridePathIndex _ :: q => apart p q
  | _, _ => false
  end.

Lemma lookup_field node key path : lookupOverridePathStream node (overridePathField key :: path) =
  match node with VMap m => lookupOverridePathStream (default VNil (m !! key)) path | _ => [VNil] end.
Proof. by destruct node. Qed.
Lemma lookup_index node index path : no_wildcard path -> lookupOverridePathStream node (overridePathIndex index :: path) =
  match node with
  | VArr l => if array_index index (length l) <? 0 then [VNil] else lookupOverridePathStream (default VNil (l !! Z.to_nat (array_index index (length l)))) path
  | _ => [VNil]
  end.
Proof. intros Hw. destruct node; try done. cbn. destruct (_ <? 0); [done|]. destruct (_ !! _); [done|]. cbn. by rewrite lookup_null. Qed.

Lemma read_elsewhere p q node f node' : apart p q -> no_wildcard q -> updateOverridePath node p f = inr node' ->
  lookupOverridePathStream node' q = lookupOverridePathStream node q.
Proof.
  revert q node node'. induction p as [|[key|index|] p IH]; intros q node node' Hap Hw Hup; [by destruct q| | |].
  - apply update_field_inv in Hup. destruct (as_map node) as [m|] eqn:Em; [|by subst]. destruct Hup as (value & Hup & ->).
    destruct q as [|[key'|index'|] q]; try done.
    + rewrite !lookup_field. assert (match node with VMap m => lookupOverridePathStream (default VNil (m !! key')) q | _ => [VNil] end
        = lookupOverridePathStream (default VNil (m !! key')) q) as ->.
      { destruct node; try done; injection Em as <-; [|done]. rewrite lookup_empty. cbn. by rewrite lookup_null. }
      cbn in Hap. destruct (String.eqb_spec key key') as [->|Hne].
      * rewrite lookup_insert_eq. by apply (IH q _ _ Hap Hw Hup).
      * by rewrite lookup_insert_ne.
    + rewrite !lookup_index by done. by destruct node.
  - apply update_index_inv in Hup. destruct (as_array node) as [l|] eqn:El; [|by subst]. cbn zeta in Hup. destruct Hup as (Hi & value & Hup & ->).
    destruct q as [|[key'|index'|] q]; try done.
    + rewrite !lookup_field. by destruct node.
    + assert (lookupOverridePathStream node (overridePathIndex index' :: q) = lookupOverridePathStream (VArr l) (overridePathIndex index' :: q)) as ->.
      { destruct node; try done; injection El as <-; [|done]. rewrite !lookup_index by done. cbn [length]. destruct (_ <? 0); [done|]. cbn. by rewrite lookup_null. }
      rewrite !lookup_index by done. rewrite length_insert. cbn in Hap.
      set (i := array_index index (length l)) in *.
      assert (Hn : index = index' /\ apart p q \/ array_index index' (length (padded l i)) = array_index index' (length l) /\ i <> array_index index' (length l)).
      { destruct (Z.eqb_spec index index') as [->|Hne]; [left; split; [done|]; by rewrite andb_false_r in Hap|right].
        subst i. unfold padded. rewrite length_app, repeat_length. unfold array_index in *. rewrite orb_false_r, andb_true_r in Hap.
        destruct (Z.ltb_spec index 0), (Z.ltb_spec index' 0); try done; lia. }
      destruct Hn as [[<- Hap']|[Hl Hn]].
      * subst i. rewrite padded_index by done. rewrite list_lookup_insert_eq by (by apply padded_length). cbn.
        rewrite (proj2 (Z.ltb_ge _ _)) by done. by apply (IH q _ _ Hap' Hw Hup).
      * rewrite Hl. destruct (Z.ltb_spec (array_index index' (length l)) 0) as [|H0]; [done|].
        rewrite list_lookup_insert_ne by lia. by rewrite padded_lookup.
  - apply update_wild_inv in Hup. destruct node as [| | | | | |l|m| |]; try (by subst).
    + destruct Hup as (l' & Hup & ->). destruct q as [|[key'|index'|] q]; try done. rewrite !lookup_index by done.
      rewrite <- (Forall2_length _ _ _ Hup). destruct (_ <? 0); [done|]. pose proof (proj1 (Forall2_lookup _ _ _) Hup (Z.to_nat (array_index index' (length l)))) as Hlk.
      inversion Hlk as [x y Hxy E1 E2|E1 E2]; cbn; [|done]. by apply (IH q _ _ Hap Hw Hxy).
    + destruct Hup as (m' & Hup & ->). destruct q as [|[key'|index'|] q]; try done. rewrite !lookup_field. specialize (Hup key').
      destruct (m !! key') as [x|], (m' !! key') as [y|]; try done. by apply (IH q _ _ Hap Hw Hup).
Qed.

End Lens.

(** [.a[].b] over an array of a mapping with [b], one without, and a null. *)
Definition lens_node : any := VMap {["a" := VArr [VMap {["b" := VInt KInt 1]}; VMap {["c" := VStr "x"]}; VNil]; "d" := VBool true]}.
Definition lens_path : overridePath := [overridePathField "a"; overridePathWildcard; overridePathField "b"].
Definition lens_set (old : any) : Res any := inr (VInt KInt 7).
Definition lens_after : any := match updateOverridePath lens_node lens_path lens_set with inr v => v | inl _ => VNil end.

Lemma set_reads (l k : list any) : Forall2 (fun old new => lens_set old = inr new) l k -> k = repeat (VInt KInt 7) (length l).
Proof. induction 1 as [|? ? ? ? [= <-] _ IH]; [done|]. by rewrite IH. Qed.

(** ** Deletion *)

(** A step into a container: a key, or an index with the length of the array. *)
Inductive place := At_key (key : string) | At_index (index len : nat).
Definition names (segment : overridePathSegment) (at_ : place) : bool :=
  match segment, at_ with
  | overridePathWildcard, _ => true
  | overridePathField key, At_key k => String.eqb key k
  | overridePathIndex index, At_index i len => array_index index len =? Z.of_nat i
  | _, _ => false
  end.
Fixpoint leads (path : overridePath) (places : list place) : bool :=
  match path, places with
  | [], [] => true
  | segment :: path, at_ :: places => names segment at_ && leads path places
  | _, _ => false
  end.
(** [v] without the nodes at the places that are [dead]. *)
Fixpoint prune (dead : list place -> bool) (v : any) {struct v} : any :=
  match v with
  | VMap m => VMap (map_imap (fun key child => if dead [At_key key] then None else Some (prune (fun places => dead (At_key key :: places)) child)) m)
  | VArr l =>
      VArr ((fix go idx rest :=
               match rest with
               | [] => []
               | child :: rest =>
                   if dead [At_index idx (length l)] then go (S idx) rest
                   else prune (fun places => dead (At_index idx (length l) :: places)) child :: go (S idx) rest
               end) 0%nat l)
  | _ => v
  end.
Definition dead_at (paths : list overridePath) (places : list place) : bool := existsb (fun path => leads path places) paths.

(** The root is not among the places that are asked for. *)
Definition same_below (d e : list place -> bool) : Prop := forall places, places <> [] -> d places = e places.
Lemma prune_ext d e v : same_below d e -> prune d v = prune e v.
Proof.
  revert d e. induction v as [v Ha Hm|l IH|m IH] using any_nested_ind; intros d e H.
  - destruct v; try done; [by destruct (Ha l)|by destruct (Hm m)].
  - cbn. f_equal. generalize 0%nat, (length l). induction IH as [|x l Hx _ IHl]; intros idx len; [done|].
    rewrite (H [At_index idx len]) by done. rewrite IHl. destruct (e _); [done|]. f_equal. apply Hx. intros places _. by apply H.
  - cbn. f_equal. apply map_imap_ext. intros k. destruct (m !! k) as [x|] eqn:Hx; [|done]. cbn. f_equal. rewrite (H [At_key k]) by done. destruct (e _); [done|]. f_equal. apply (IH k x Hx).
    intros places _. by apply H.
Qed.
Lemma prune_nothing v : prune (fun _ => false) v = v.
Proof.
  induction v as [v Ha Hm|l IH|m IH] using any_nested_ind.
  - destruct v; try done; [by destruct (Ha l)|by destruct (Hm m)].
  - cbn. f_equal. generalize 0%nat, (length l). induction IH as [|x l Hx _ IHl]; intros idx len; [done|]. by rewrite Hx, IHl.
  - cbn. f_equal. apply map_eq. intros k. rewrite map_lookup_imap. destruct (m !! k) as [x|] eqn:E; [|done]. cbn. by rewrite (IH k x E).
Qed.

(** The tails that are kept for a child are what the paths say below it. *)
Lemma key_tails_spec key paths :
  match key_tails key paths with
  | None => dead_at paths [At_key key] = true
  | Some tails => dead_at paths [At_key key] = false /\ same_below (fun places => dead_at paths (At_key key :: places)) (dead_at tails)
  end.
Proof.
  induction paths as [|path paths IH]; [done|]. unfold dead_at in *. cbn [key_tails existsb].
  assert (Hskip : (forall places, leads path (At_key key :: places) = false) ->
    match key_tails key paths with
    | None => leads path [At_key key] || existsb (fun p => leads p [At_key key]) paths = true
    | Some tails => leads path [At_key key] || existsb (fun p => leads p [At_key key]) paths = false
        /\ same_below (fun places => leads path (At_key key :: places) || existsb (fun p => leads p (At_key key :: places)) paths) (fun places => existsb (fun p => leads p places) tails)
    end).
  { intros H. destruct (key_tails key paths) as [tails|]; rewrite H; cbn; [|done]. destruct IH as [H1 H2]. split; [done|]. intros places Hp. rewrite H. by apply H2. }
  assert (Htake : forall tl, (forall places, leads path (At_key key :: places) = leads tl places) ->
    match (match tl with [] => None | _ => tails ← key_tails key paths; Some (tl :: tails) end) with
    | None => leads path [At_key key] || existsb (fun p => leads p [At_key key]) paths = true
    | Some tails => leads path [At_key key] || existsb (fun p => leads p [At_key key]) paths = false
        /\ same_below (fun places => leads path (At_key key :: places) || existsb (fun p => leads p (At_key key :: places)) paths) (fun places => existsb (fun p => leads p places) tails)
    end).
  { intros tl H. rewrite H. destruct tl as [|seg tl]; [done|]. destruct (key_tails key paths) as [tails|]; cbn; [|done].
    destruct IH as [H1 H2]. split; [done|]. intros places Hp. rewrite H. cbn. f_equal. by apply H2. }
  destruct path as [|[k|index|] tl]; [by apply Hskip| |by apply Hskip|by apply Htake].
  destruct (String.eqb k key) eqn:E; [apply Htake|apply Hskip]; intros places; cbn; by rewrite E.
Qed.
Lemma index_hits_leads len idx path places :
  leads path (At_index idx len :: places) = match index_hits len idx path with Some tl => leads tl places | None => false end.
Proof. destruct path as [|[key|index|] tl]; try done. cbn. by destruct (_ =? _). Qed.
Lemma index_tails_spec len idx paths :
  match index_tails len idx paths with
  | None => dead_at paths [At_index idx len] = true
  | Some tails => dead_at paths [At_index idx len] = false /\ same_below (fun places => dead_at paths (At_index idx len :: places)) (dead_at tails)
  end.
Proof.
  assert (Hall : forall places, dead_at paths (At_index idx len :: places) = dead_at (omap (index_hits len idx) paths) places).
  { intros places. unfold dead_at. induction paths as [|path paths IH]; [done|]. cbn [existsb]. rewrite index_hits_leads, IH.
    cbn. by destruct (index_hits len idx path). }
  unfold index_tails. rewrite (Hall []). assert (Hend : dead_at (omap (index_hits len idx) paths) [] = existsb (fun tl => match tl with [] => true | _ => false end) (omap (index_hits len idx) paths)).
  { clear Hall. unfold dead_at. induction (omap _ paths) as [|tl tls IH]; [done|]. cbn. rewrite IH. by destruct tl. }
  rewrite Hend. destruct (existsb _ _) eqn:E; [done|]. split; [done|]. intros places _. apply Hall.
Qed.

(** deleting paths removes exactly the nodes at a place of the old value some path leads to, keeps every other node, and closes the
    gaps of arrays; so neither the order of the paths nor a path given twice matters, and the indices of all paths count the old array. *)
Lemma deleteOverridePaths_prunes v paths : deleteOverridePaths v paths = prune (dead_at paths) v.
Proof.
  revert paths. induction v as [v Ha Hm|l IH|m IH] using any_nested_ind; intros paths.
  - destruct v; try done; [by destruct (Ha l)|by destruct (Hm m)].
  - cbn. f_equal. generalize 0%nat, (length l). induction IH as [|x l Hx _ IHl]; intros idx len; [done|].
    pose proof (index_tails_spec len idx paths) as H. destruct (index_tails len idx paths) as [tails|]; [|by rewrite H, IHl].
    destruct H as [-> H]. rewrite IHl. rewrite (prune_ext _ _ x H). destruct tails as [|t tails]; f_equal; [by rewrite prune_nothing|apply Hx].
  - cbn. f_equal. apply map_imap_ext. intros k. destruct (m !! k) as [x|] eqn:E; [|done]. cbn. f_equal.
    pose proof (key_tails_spec k paths) as H. destruct (key_tails k paths) as [tails|]; [|by rewrite H].
    destruct H as [-> H]. rewrite (prune_ext _ _ x H). destruct tails as [|t tails]; f_equal; [by rewrite prune_nothing|apply (IH k x E)].
Qed.
