(* ===== verification/Bridge.v ===== *)
(** * The bridge: state, calls and effects

    The part of [core/] that the front end talks to.  A handler is a computation over
    the package variables: it returns, panics, or waits for a lock it already holds;
    what it changed stays changed after a panic.  Other packages and JSON are calls of
    an environment, which may panic too; the calls made are recorded in order.
    Goroutines are tasks that are recorded when they are started and run to their end
    later; only handlers are interleaved, not their insides, which the locks serialise
    where they share variables. *)

From S2P Require Import Prelude Names GoText ExprValue.
#[local] Open Scope string_scope.
#[local] Open Scope Z_scope.
#[local] Open Scope list_scope.

(** ** Data *)

(** [Platform] picks the build: [features.Android] and [nextHandle]. *)
Inductive Platform := Android | Ios | Desktop.
#[export] Instance Platform_dec : EqDecision Platform.
Proof. solve_decision. Defined.

(** @go core/constant.go:41-48 tunSchema *)
Record tunSchema := mkTunSchema {
  ts_Enable : bool; ts_Device : option string; ts_Stack : option Z; ts_DNSHijack : option (list string);
  ts_AutoRoute : option bool; ts_RouteAddress : option (list string) }.
(** @go core/constant.go:26-39 UpdateParams *)
Record UpdateParams := mkUpdateParams {
  up_Tun : option tunSchema; up_AllowLan : option bool; up_MixedPort : option Z; up_FindProcessMode : option Z; up_Mode : option Z;
  up_LogLevel : option Z; up_IPv6 : option bool; up_Sniffing : option bool; up_TCPConcurrent : option bool;
  up_ExternalController : option string; up_Interface : option string; up_UnifiedDelay : option bool }.
(** @go core/constant.go:15-18 InitParams *)
Record InitParams := mkInitParams { ip_HomeDir : string; ip_Version : Z }.
(** @go core/constant.go:50-53 ChangeProxyParams *)
Record ChangeProxyParams := mkChangeProxyParams { cp_GroupName : option string; cp_ProxyName : option string }.
(** @go core/constant.go:55-59 TestDelayParams *)
Record TestDelayParams := mkTestDelayParams { td_ProxyName : string; td_TestUrl : string; td_Timeout : Z }.
(** @go core/constant.go:119-123 Delay *)
Record Delay := mkDelay { dl_Url : string; dl_Name : string; dl_Value : Z }.
(** The parts of [LC.Tun] the bridge touches. *)
Record TunConf := mkTunConf { tc_Enable : bool; tc_Device : string; tc_Stack : Z; tc_DNSHijack : list string; tc_AutoRoute : bool; tc_RouteAddress : list string }.
(** The parts of [config.General] the bridge touches; [g_rest] stands for the others,
    which it only passes on. *)
Record General := mkGeneral {
  g_MixedPort : Z; g_Sniffing : bool; g_FindProcessMode : Z; g_TCPConcurrent : bool; g_Interface : string; g_UnifiedDelay : bool;
  g_Mode : Z; g_LogLevel : Z; g_IPv6 : bool; g_Tun : TunConf; g_rest : Z }.
Record CoreConfig := mkConfig { c_General : General; c_ExternalController : string; c_rest : Z }.
(** [Proxy] is [None] when it is nil. *)
Record RawConfig := mkRawConfig { rc_Proxy : option (list (gmap string any)); rc_rest : Z }.
(** @go core/constant.go:20-24 SetupParams *)
Record SetupParams := mkSetupParams { sp_Config : option RawConfig; sp_SelectedMap : gmap string string; sp_TestURL : string }.
(** @go core/common.go:184-187 StartListenerResult *)
Record StartListenerResult := mkStartListenerResult { Ok : bool; TunError : option string }.
(** @go core/state/state.go:43-48 State *)
Record FrontState := mkFrontState { fs_Ipv6 : bool; fs_CurrentProfileName : string; fs_OnlyStatisticsProxy : bool; fs_rest : Z }.

(** A proxy, with what type assertions ask of it.  Only proxies of type
    [*adapter.Proxy] have an adapter. *)
Record ProxyRef := mkProxyRef { px_id : Z; px_Name : string; px_is_adapter : bool; px_selectable : bool }.
Inductive ProviderKind := KindProxySet | KindRuleSet | KindOther.
(** [VehicleType() != Compatible], and which type the interface holds. *)
Record ProviderRef := mkProviderRef { pv_id : Z; pv_Name : string; pv_kind : ProviderKind; pv_compatible : bool }.
(** @go core/constant.go:61-69 ExternalProvider *)
Record ExternalProvider := mkExternalProvider { ep_Name : string; ep_provider : Z }.

(** @go core/constant.go:130-136 MessageType *)
Inductive MessageType := LogMessage | DelayMessage | RequestMessage | LoadedMessage | TunMessage.
#[export] Instance MessageType_dec : EqDecision MessageType.
Proof. solve_decision. Defined.
(** What is sent unasked; the payload is of interest only for the tunnel.
    @go core/constant.go:125-128 Message *)
Record Message := mkMessage { m_Type : MessageType; m_Data : string }.
(** A proxy as JSON: an object, or the proxy itself when it has none. *)
Inductive ProxyView := AsObject (o : gmap string string) | AsProxy (p : ProxyRef).
Inductive Data := DNil | DBool (b : bool) | DStr (s : string) | DProxies (m : gmap string ProxyView) | DConfig (c : RawConfig) | DMessage (m : Message).

(** @go core/action.go:11-15 Action *)
Record Action := mkAction { a_Id : string; a_Method : string; a_Data : any }.
(** @go core/action.go:17-23 ActionResult *)
Record ActionResult := mkActionResult { r_Id : string; r_Method : string; r_Data : Data; r_Code : Z; r_Port : Z }.

(** ** Calls *)

(** What the bridge asks of other packages, with the type of the answer. *)
Inductive Call : Type -> Type :=
| SetHomeDir (dir : string) : Call unit
| SetMemoryLimit (limit : Z) : Call unit
| SetGCPercent (percent : Z) : Call unit
| GC : Call unit
| GOMAXPROCS (n : Z) : Call unit
| ParseRawConfig (raw : option RawConfig) : Call (string + CoreConfig)
| UnmarshalRawConfig (bytes : string) : Call (string + RawConfig)
| ApplyConfig (c : option CoreConfig) : Call unit
| executor_Shutdown : Call unit
| PatchInboundListeners (c : CoreConfig) : Call unit
| SetAllowLan (g : General) : Call unit
| SetSkipAuthPrefixes (g : General) : Call unit
| SetAllowedIPs (g : General) : Call unit
| SetDisAllowedIPs (g : General) : Call unit
| SetBindAddress (g : General) : Call unit
| ReCreateHTTP (g : General) : Call unit
| ReCreateSocks (g : General) : Call unit
| ReCreateRedir (g : General) : Call unit
| ReCreateTProxy (g : General) : Call unit
| ReCreateMixed (port : Z) : Call unit
| ReCreateShadowSocks (g : General) : Call unit
| ReCreateVmess (g : General) : Call unit
| ReCreateTuic (g : General) : Call unit
| ReCreateTun (tun : TunConf) : Call unit
| StopListener : Call unit
| GetTunConf_Enable : Call bool
| GetTunLastError : Call string
| ResetConnection : Call unit
| SetSniffing (b : bool) : Call unit
| SetFindProcessMode (m : Z) : Call unit
| SetTcpConcurrent (b : bool) : Call unit
| StoreInterface (i : string) : Call unit
| StoreUnifiedDelay (b : bool) : Call unit
| SetMode (m : Z) : Call unit
| SetLevel (l : Z) : Call unit
| SetDisableIPv6 (b : bool) : Call unit
| ReCreateServer (addr : string) : Call unit
| tunnel_Proxies : Call (gmap string ProxyRef)
| tunnel_Providers : Call (list (string * ProviderRef * list ProxyRef))
| tunnel_RuleProviders : Call (list (string * ProviderRef))
| ForceSet (selector : Z) (name : string) : Call unit
| Set_ (selector : Z) (name : string) : Call (option string)
| MarshalProxy (p : ProxyRef) : Call (option string)
| URLTest (p : ProxyRef) (timeout : Z) (url : string) : Call (string + Z)
| Traffic_Current (onlyProxy : bool) : Call (Z * Z)
| Traffic_Total (onlyProxy : bool) : Call (Z * Z)
| ResetStatistic : Call unit
| Snapshot : Call (option string)
| Trackers : Call (list Z)
| Tracker_Get (id : string) : Call (option Z)
| Tracker_Close (c : Z) : Call unit
| ResetAllPools : Call unit
| Memory : Call Z
| UpdateGeo (geoType path : string) : Call (option string)
| Resolve_path (name : string) : Call string
| Provider_Update (p : Z) : Call (option string)
| Provider_SideUpdate (p : Z) (bytes : string) : Call (option string)
| LookupCode (ip : string) : Call (list string)
| Subscribe : Call Z
| UnSubscribe (sub : Z) : Call unit
| ReadFile (path : string) : Call (string + string)
| UpdateSystemDNS (addresses : list string) : Call unit
| FlushCacheWithDefaultResolver : Call unit
| VpnOptions (s : FrontState) (c : CoreConfig) : Call (option string)
| SendToPort (port : Z) (msg : string) : Call bool.
Record Event := mkEvent { ev_answer : Type; ev_call : Call ev_answer }.

(** [env_call] answers a call or panics, and changes the state [W] of the other
    packages.  The rest is JSON: decoders give an error text or a value; the encoder
    of a result fails when a value in it has no JSON. *)
Class BridgeEnv := {
  W : Type;
  env_call {A} (c : Call A) (w : W) : (string + A) * W;
  platform : Platform;
  json_InitParams : string -> string + InitParams;
  json_UpdateParams : string -> string + UpdateParams;
  json_SetupParams : SetupParams -> string -> string + SetupParams;
  json_ChangeProxyParams : string -> string + ChangeProxyParams;
  json_TestDelayParams : string -> string + TestDelayParams;
  json_StringMap : string -> string + gmap string string;
  json_State : string -> string + FrontState;
  json_Action : string -> string + Action;
  (** a nil map for [null] *)
  json_Object : string -> option (option (gmap string string));
  Json : ActionResult -> option string;
  json_Delay : Delay -> string;
  json_StartListenerResult : StartListenerResult -> string;
  json_Traffic : Z -> Z -> string;
  json_ExternalProviders : list ExternalProvider -> string;
  json_ExternalProvider : ExternalProvider -> string;
  DefaultRawConfig : RawConfig
}.

(** ** State *)

(** A goroutine that was started, with what it owes a reply to. *)
Inductive Task :=
| TChangeProxy (data : string) (result : ActionResult)
| TTestDelay (data : string) (result : ActionResult)
| TUpdateGeoData (geoType geoName : string) (result : ActionResult)
| TUpdateProvider (name : string) (result : ActionResult)
| TSideLoadProvider (name data : string) (result : ActionResult)
| TCountryCode (ip : string) (result : ActionResult)
| TGetMemory (result : ActionResult)
| TForceGc
| TLogPump (sub : Z).

Section Model.
Context `{Env : BridgeEnv}.

(** The package variables, what the bridge started and sent, and the world.  [sent]
    are the results given to [send]; [posted] what reached a Dart port, [delivered]
    the channels of synchronous callers by their port.
    @go core/hub.go:32-38 isInit *)
Record Core := mkCore {
  isInit : bool; version : Z; isRunning : bool; currentConfig : option CoreConfig; externalProviders : gmap string ProviderRef;
  logSubscriber : option Z; proxyDescriptions : gmap string string; CurrentState : FrontState; DefaultTestURL : string;
  runLock : bool; logMux : bool;
  messagePort : Z; syncSinks : gset Z; lastSyncPort : Z; delivered : gmap Z (list ActionResult);
  sent : list ActionResult; posted : list (Z * string); started : list Task; logged : list (Z * string); calls : list Event; world : W }.

Inductive Out (A : Type) := Ret (a : A) | Panic (cause : string) | Stuck.
#[global] Arguments Ret {A} a.
#[global] Arguments Panic {A} cause.
#[global] Arguments Stuck {A}.
Definition M (A : Type) : Type := Core -> Out A * Core.
#[global] Instance M_ret : MRet M := fun A a s => (Ret a, s).
#[global] Instance M_bind : MBind M := fun A B f m s =>
  match m s with (Ret a, s) => f a s | (Panic c, s) => (Panic c, s) | (Stuck, s) => (Stuck, s) end.
Definition panic {A} (cause : string) : M A := fun s => (Panic cause, s).
Definition gets {A} (f : Core -> A) : M A := fun s => (Ret (f s), s).
Definition modify (f : Core -> Core) : M unit := fun s => (Ret tt, f s).
(** [defer d()] around [m]: [d] runs however [m] ends. *)
Definition deferring {A} (d : M unit) (m : M A) : M A := fun s =>
  match m s with
  | (Stuck, s) => (Stuck, s)
  | (o, s) => match d s with (Ret _, s) => (o, s) | (Panic c, s) => (Panic c, s) | (Stuck, s) => (Stuck, s) end
  end.
(** [defer func() { if r := recover(); r != nil { h(r) } }()] around [m]. *)
Definition recovering {A} (h : string -> M A) (m : M A) : M A := fun s =>
  match m s with (Panic c, s) => h c s | r => r end.

(** Go's text for a failed type assertion or a nil pointer is not looked at. *)
Definition runtime_error : string := "runtime error".

(** *** Fields *)

Definition set_isInit b s := mkCore b (version s) (isRunning s) (currentConfig s) (externalProviders s) (logSubscriber s) (proxyDescriptions s) (CurrentState s) (DefaultTestURL s) (runLock s) (logMux s) (messagePort s) (syncSinks s) (lastSyncPort s) (delivered s) (sent s) (posted s) (started s) (logged s) (calls s) (world s).
Definition set_version v s := mkCore (isInit s) v (isRunning s) (currentConfig s) (externalProviders s) (logSubscriber s) (proxyDescriptions s) (CurrentState s) (DefaultTestURL s) (runLock s) (logMux s) (messagePort s) (syncSinks s) (lastSyncPort s) (delivered s) (sent s) (posted s) (started s) (logged s) (calls s) (world s).
Definition set_isRunning b s := mkCore (isInit s) (version s) b (currentConfig s) (externalProviders s) (logSubscriber s) (proxyDescriptions s) (CurrentState s) (DefaultTestURL s) (runLock s) (logMux s) (messagePort s) (syncSinks s) (lastSyncPort s) (delivered s) (sent s) (posted s) (started s) (logged s) (calls s) (world s).
Definition set_currentConfig c s := mkCore (isInit s) (version s) (isRunning s) c (externalProviders s) (logSubscriber s) (proxyDescriptions s) (CurrentState s) (DefaultTestURL s) (runLock s) (logMux s) (messagePort s) (syncSinks s) (lastSyncPort s) (delivered s) (sent s) (posted s) (started s) (logged s) (calls s) (world s).
Definition set_externalProviders e s := mkCore (isInit s) (version s) (isRunning s) (currentConfig s) e (logSubscriber s) (proxyDescriptions s) (CurrentState s) (DefaultTestURL s) (runLock s) (logMux s) (messagePort s) (syncSinks s) (lastSyncPort s) (delivered s) (sent s) (posted s) (started s) (logged s) (calls s) (world s).
Definition set_logSubscriber l s := mkCore (isInit s) (version s) (isRunning s) (currentConfig s) (externalProviders s) l (proxyDescriptions s) (CurrentState s) (DefaultTestURL s) (runLock s) (logMux s) (messagePort s) (syncSinks s) (lastSyncPort s) (delivered s) (sent s) (posted s) (started s) (logged s) (calls s) (world s).
Definition set_proxyDescriptions d s := mkCore (isInit s) (version s) (isRunning s) (currentConfig s) (externalProviders s) (logSubscriber s) d (CurrentState s) (DefaultTestURL s) (runLock s) (logMux s) (messagePort s) (syncSinks s) (lastSyncPort s) (delivered s) (sent s) (posted s) (started s) (logged s) (calls s) (world s).
Definition set_CurrentState c s := mkCore (isInit s) (version s) (isRunning s) (currentConfig s) (externalProviders s) (logSubscriber s) (proxyDescriptions s) c (DefaultTestURL s) (runLock s) (logMux s) (messagePort s) (syncSinks s) (lastSyncPort s) (delivered s) (sent s) (posted s) (started s) (logged s) (calls s) (world s).
Definition set_DefaultTestURL u s := mkCore (isInit s) (version s) (isRunning s) (currentConfig s) (externalProviders s) (logSubscriber s) (proxyDescriptions s) (CurrentState s) u (runLock s) (logMux s) (messagePort s) (syncSinks s) (lastSyncPort s) (delivered s) (sent s) (posted s) (started s) (logged s) (calls s) (world s).
Definition set_runLock b s := mkCore (isInit s) (version s) (isRunning s) (currentConfig s) (externalProviders s) (logSubscriber s) (proxyDescriptions s) (CurrentState s) (DefaultTestURL s) b (logMux s) (messagePort s) (syncSinks s) (lastSyncPort s) (delivered s) (sent s) (posted s) (started s) (logged s) (calls s) (world s).
Definition set_logMux b s := mkCore (isInit s) (version s) (isRunning s) (currentConfig s) (externalProviders s) (logSubscriber s) (proxyDescriptions s) (CurrentState s) (DefaultTestURL s) (runLock s) b (messagePort s) (syncSinks s) (lastSyncPort s) (delivered s) (sent s) (posted s) (started s) (logged s) (calls s) (world s).
Definition set_sinks p k s := mkCore (isInit s) (version s) (isRunning s) (currentConfig s) (externalProviders s) (logSubscriber s) (proxyDescriptions s) (CurrentState s) (DefaultTestURL s) (runLock s) (logMux s) (messagePort s) k p (delivered s) (sent s) (posted s) (started s) (logged s) (calls s) (world s).
Definition set_delivered d s := mkCore (isInit s) (version s) (isRunning s) (currentConfig s) (externalProviders s) (logSubscriber s) (proxyDescriptions s) (CurrentState s) (DefaultTestURL s) (runLock s) (logMux s) (messagePort s) (syncSinks s) (lastSyncPort s) d (sent s) (posted s) (started s) (logged s) (calls s) (world s).
Definition add_sent r s := mkCore (isInit s) (version s) (isRunning s) (currentConfig s) (externalProviders s) (logSubscriber s) (proxyDescriptions s) (CurrentState s) (DefaultTestURL s) (runLock s) (logMux s) (messagePort s) (syncSinks s) (lastSyncPort s) (delivered s) (sent s ++ [r]) (posted s) (started s) (logged s) (calls s) (world s).
Definition add_posted p s := mkCore (isInit s) (version s) (isRunning s) (currentConfig s) (externalProviders s) (logSubscriber s) (proxyDescriptions s) (CurrentState s) (DefaultTestURL s) (runLock s) (logMux s) (messagePort s) (syncSinks s) (lastSyncPort s) (delivered s) (sent s) (posted s ++ [p]) (started s) (logged s) (calls s) (world s).
Definition add_started t s := mkCore (isInit s) (version s) (isRunning s) (currentConfig s) (externalProviders s) (logSubscriber s) (proxyDescriptions s) (CurrentState s) (DefaultTestURL s) (runLock s) (logMux s) (messagePort s) (syncSinks s) (lastSyncPort s) (delivered s) (sent s) (posted s) (started s ++ [t]) (logged s) (calls s) (world s).
Definition add_logged l s := mkCore (isInit s) (version s) (isRunning s) (currentConfig s) (externalProviders s) (logSubscriber s) (proxyDescriptions s) (CurrentState s) (DefaultTestURL s) (runLock s) (logMux s) (messagePort s) (syncSinks s) (lastSyncPort s) (delivered s) (sent s) (posted s) (started s) (logged s ++ [l]) (calls s) (world s).
Definition add_call e w s := mkCore (isInit s) (version s) (isRunning s) (currentConfig s) (externalProviders s) (logSubscriber s) (proxyDescriptions s) (CurrentState s) (DefaultTestURL s) (runLock s) (logMux s) (messagePort s) (syncSinks s) (lastSyncPort s) (delivered s) (sent s) (posted s) (started s) (logged s) (calls s ++ [e]) w.

(** ** Effects *)

Definition call {A} (c : Call A) : M A := fun s =>
  match env_call c (world s) with
  | (inr a, w) => (Ret a, add_call (mkEvent A c) w s)
  | (inl cause, w) => (Panic cause, add_call (mkEvent A c) w s)
  end.
Definition go (t : Task) : M unit := modify (add_started t).
(** [log.Errorln] is 3, [Warnln] 2, [Infoln] 1. *)
Definition log_line (level : Z) (text : string) : M unit := modify (add_logged (level, text)).
(** A mutex that is held is held by this very goroutine. *)
Definition Lock : M unit := fun s => if runLock s then (Stuck, s) else (Ret tt, set_runLock true s).
Definition Unlock : M unit := modify (set_runLock false).
Definition Lock_log : M unit := fun s => if logMux s then (Stuck, s) else (Ret tt, set_logMux true s).
Definition Unlock_log : M unit := modify (set_logMux false).

(** [Lock(); defer Unlock(); ...] *)
Definition locked {A} (m : M A) : M A := Lock ≫= fun _ => deferring Unlock m.
Definition log_locked {A} (m : M A) : M A := Lock_log ≫= fun _ => deferring Unlock_log m.

(** @go core/common.go:43-47 recoverGo *)
Definition recoverGo (name : string) (m : M unit) : M unit := recovering (fun _ => log_line 3 name) m.
(** @go core/common.go:52-57 recoverGoFn *)
Definition recoverGoFn (name : string) (fn : string -> M unit) (m : M unit) : M unit :=
  recovering (fun cause => log_line 3 name ≫= fun _ => fn ("panic: " +:+ name +:+ ": " +:+ cause)) m.
(** @go core/common.go:63-72 runGuarded *)
Definition runGuarded (name : string) (fn : M unit) : M bool :=
  recovering (fun _ => log_line 3 name ≫= fun _ => mret false) (fn ≫= fun _ => mret true).

(** ** Sending *)

(** @go core/lib.go:46-52 pushType *)
Definition pushType (payload : Data) : option MessageType := match payload with DMessage message => Some (m_Type message) | _ => None end.
(** A synchronous port is claimed even when nobody waits there any more.
    @go core/sync_sink.go:29-37 deliverSync *)
Definition deliverSync (result : ActionResult) : M bool := fun s =>
  if r_Port result >? -1000 then (Ret false, s)
  else if bool_decide (r_Port result ∈ syncSinks s) then
    (Ret true, set_delivered (<[r_Port result := default [] (delivered s !! r_Port result) ++ [result]]> (delivered s))
                 (set_sinks (lastSyncPort s) (syncSinks s ∖ {[r_Port result]}) s))
  else (Ret true, s).
(** @go core/sync_sink.go:19-24 registerSyncSink *)
Definition registerSyncSink : M Z := fun s =>
  let port := lastSyncPort s - 1 in (Ret port, set_sinks port ({[port]} ∪ syncSinks s) s).
(** @go core/lib.go:54-73 send *)
Definition send (result : ActionResult) : M unit :=
  modify (add_sent result) ≫= fun _ =>
  deliverSync result ≫= fun claimed =>
  if claimed : bool then mret tt
  else match Json result with
       | None => mret tt
       | Some data =>
           modify (add_posted (r_Port result, data)) ≫= fun _ =>
           call (SendToPort (r_Port result) data) ≫= fun accepted =>
           if accepted : bool then mret tt
           else if bool_decide (pushType (r_Data result) = Some LogMessage) then mret tt
           else log_line 2 "dropped push"
       end.
Definition with_answer (code : Z) (data : Data) (result : ActionResult) : ActionResult :=
  mkActionResult (r_Id result) (r_Method result) data code (r_Port result).
(** @go core/action.go:30-34 success *)
Definition success (result : ActionResult) (data : Data) : M unit := send (with_answer 0 data result).
(** @go core/action.go:36-40 error *)
Definition error (result : ActionResult) (data : Data) : M unit := send (with_answer (-1) data result).
Definition messageMethod : string := "message".
(** @go core/lib.go:96-109 sendMessage *)
Definition sendMessage (message : Message) : M unit :=
  gets messagePort ≫= fun port =>
  if port =? -1 then
    (if bool_decide (m_Type message = LogMessage) then mret tt else log_line 2 "dropped push: no message port attached")
  else send (mkActionResult "" messageMethod (DMessage message) 0 port).

(** ** Listeners and the configuration *)

(** @go core/common.go:80-93 getExternalProvidersRaw *)
Definition getExternalProvidersRaw : M (gmap string ProviderRef) :=
  providers ← call tunnel_Providers;
  ruleProviders ← call tunnel_RuleProviders;
  let keep eps (n : string) (p : ProviderRef) := if pv_compatible p then eps else <[n := p]> eps in
  mret (fold_left (fun eps np => keep eps (fst np) (snd np)) ruleProviders
          (fold_left (fun eps npp => keep eps (fst (fst npp)) (snd (fst npp))) providers ∅)).
(** [None] is the error.
    @go core/common.go:95-121 toExternalProvider *)
Definition toExternalProvider (p : ProviderRef) : option ExternalProvider :=
  match pv_kind p with KindProxySet | KindRuleSet => Some (mkExternalProvider (pv_Name p) (pv_id p)) | KindOther => None end.
(** The second case of the code is the type [rp.RuleSetProvider], which no provider
    has: they are pointers to it.
    @go core/common.go:123-136 sideUpdateExternalProvider *)
Definition sideUpdateExternalProvider (p : ProviderRef) (bytes : string) : M (option string) :=
  match pv_kind p with
  | KindProxySet => call (Provider_SideUpdate (pv_id p) bytes)
  | KindRuleSet | KindOther => mret (Some "not external provider")
  end.

(** [general] of the running configuration; a nil pointer panics. *)
Definition the_config : M CoreConfig := c ← gets currentConfig; match c with Some c => mret c | None => panic runtime_error end.
(** @go core/common.go:138-164 updateListeners *)
Definition updateListeners : M unit :=
  running ← gets isRunning;
  if negb running then mret tt
  else
    current ← gets currentConfig;
    match current with
    | None => mret tt
    | Some c =>
        let general := c_General c in
        call (PatchInboundListeners c) ≫= fun _ =>
        call (SetAllowLan general) ≫= fun _ =>
        call (SetSkipAuthPrefixes general) ≫= fun _ =>
        call (SetAllowedIPs general) ≫= fun _ =>
        call (SetDisAllowedIPs general) ≫= fun _ =>
        call (SetBindAddress general) ≫= fun _ =>
        call (ReCreateHTTP general) ≫= fun _ =>
        call (ReCreateSocks general) ≫= fun _ =>
        call (ReCreateRedir general) ≫= fun _ =>
        call (ReCreateTProxy general) ≫= fun _ =>
        call (ReCreateMixed (g_MixedPort general)) ≫= fun _ =>
        call (ReCreateShadowSocks general) ≫= fun _ =>
        call (ReCreateVmess general) ≫= fun _ =>
        call (ReCreateTuic general) ≫= fun _ =>
        if bool_decide (platform = Android) then mret tt else call (ReCreateTun (g_Tun general))
    end.

(** @go core/common.go:170-172 shouldFailMissingTunListener *)
Definition shouldFailMissingTunListener (running requested effective : bool) : bool := running && requested && negb effective.
Definition tunStartFallbackError : string := "tun listener failed to start (no core error reported)".
(** @go core/common.go:194-203 startListenerResult *)
Definition startListenerResult (requested effective : bool) (tunError : string) : StartListenerResult :=
  if negb requested || effective then mkStartListenerResult true None
  else mkStartListenerResult false (Some (if String.eqb tunError "" then tunStartFallbackError else tunError)).
Definition tunPanicFallbackCause : string := "tun worker panic (no cause reported)".
(** @go core/common.go:219-227 tunPanicRepair *)
Definition tunPanicRepair (isStart : bool) (cause : string) : bool * string :=
  if negb isStart then (false, "")
  else if String.eqb (TrimSpaceUTF8 cause) "" then (true, tunPanicFallbackCause)
  else (true, cause).

(** Providers come in the order Go visits their map in.
    @go core/common.go:231-242 proxiesWithProviders *)
Definition proxiesWithProviders : M (gmap string ProxyRef) :=
  proxies ← call tunnel_Proxies;
  providers ← call tunnel_Providers;
  mret (fold_left (fun all p => <[px_Name p := p]> all) (concat (map snd providers)) proxies).
Fixpoint each {A} (f : A -> M unit) (l : list A) : M unit :=
  match l with [] => mret tt | a :: l => f a ≫= fun _ => each f l end.
(** @go core/common.go:244-263 patchSelectGroup *)
Definition patchSelectGroup (mapping : gmap string string) : M unit :=
  proxies ← proxiesWithProviders;
  each (fun np =>
    if negb (px_is_adapter (snd np)) then mret tt
    else if negb (px_selectable (snd np)) then mret tt
    else match mapping !! (fst np) with
         | None => mret tt
         | Some selected => call (ForceSet (px_id (snd np)) selected)
         end) (map_to_list proxies).
(** @go core/common.go:265-271 defaultSetupParams *)
Definition defaultSetupParams : SetupParams := mkSetupParams (Some DefaultRawConfig) ∅ "https://www.gstatic.com/generate_204".

(** *** updateConfig *)

Definition set_General (f : General -> General) (c : CoreConfig) : CoreConfig := mkConfig (f (c_General c)) (c_ExternalController c) (c_rest c).
(** A store through the pointer [general]. *)
Definition store (f : General -> General) : M unit := modify (fun s => set_currentConfig (set_General f <$> currentConfig s) s).
Definition when_some {A} (o : option A) (f : A -> M unit) : M unit := match o with Some a => f a | None => mret tt end.
Definition g_set_MixedPort v g := mkGeneral v (g_Sniffing g) (g_FindProcessMode g) (g_TCPConcurrent g) (g_Interface g) (g_UnifiedDelay g) (g_Mode g) (g_LogLevel g) (g_IPv6 g) (g_Tun g) (g_rest g).
Definition g_set_Sniffing v g := mkGeneral (g_MixedPort g) v (g_FindProcessMode g) (g_TCPConcurrent g) (g_Interface g) (g_UnifiedDelay g) (g_Mode g) (g_LogLevel g) (g_IPv6 g) (g_Tun g) (g_rest g).
Definition g_set_FindProcessMode v g := mkGeneral (g_MixedPort g) (g_Sniffing g) v (g_TCPConcurrent g) (g_Interface g) (g_UnifiedDelay g) (g_Mode g) (g_LogLevel g) (g_IPv6 g) (g_Tun g) (g_rest g).
Definition g_set_TCPConcurrent v g := mkGeneral (g_MixedPort g) (g_Sniffing g) (g_FindProcessMode g) v (g_Interface g) (g_UnifiedDelay g) (g_Mode g) (g_LogLevel g) (g_IPv6 g) (g_Tun g) (g_rest g).
Definition g_set_Interface v g := mkGeneral (g_MixedPort g) (g_Sniffing g) (g_FindProcessMode g) (g_TCPConcurrent g) v (g_UnifiedDelay g) (g_Mode g) (g_LogLevel g) (g_IPv6 g) (g_Tun g) (g_rest g).
Definition g_set_UnifiedDelay v g := mkGeneral (g_MixedPort g) (g_Sniffing g) (g_FindProcessMode g) (g_TCPConcurrent g) (g_Interface g) v (g_Mode g) (g_LogLevel g) (g_IPv6 g) (g_Tun g) (g_rest g).
Definition g_set_Mode v g := mkGeneral (g_MixedPort g) (g_Sniffing g) (g_FindProcessMode g) (g_TCPConcurrent g) (g_Interface g) (g_UnifiedDelay g) v (g_LogLevel g) (g_IPv6 g) (g_Tun g) (g_rest g).
Definition g_set_LogLevel v g := mkGeneral (g_MixedPort g) (g_Sniffing g) (g_FindProcessMode g) (g_TCPConcurrent g) (g_Interface g) (g_UnifiedDelay g) (g_Mode g) v (g_IPv6 g) (g_Tun g) (g_rest g).
Definition g_set_IPv6 v g := mkGeneral (g_MixedPort g) (g_Sniffing g) (g_FindProcessMode g) (g_TCPConcurrent g) (g_Interface g) (g_UnifiedDelay g) (g_Mode g) (g_LogLevel g) v (g_Tun g) (g_rest g).
Definition g_set_Tun v g := mkGeneral (g_MixedPort g) (g_Sniffing g) (g_FindProcessMode g) (g_TCPConcurrent g) (g_Interface g) (g_UnifiedDelay g) (g_Mode g) (g_LogLevel g) (g_IPv6 g) v (g_rest g).
Definition on_Tun (f : TunConf -> TunConf) (g : General) : General := g_set_Tun (f (g_Tun g)) g.

(** A missing field is a nil pointer, which is read.
    @go core/common.go:332-339 updateConfig *)
Definition update_tun (t : tunSchema) : M unit :=
  let deref {A} (o : option A) : M A := match o with Some a => mret a | None => panic runtime_error end in
  store (on_Tun (fun c => mkTunConf (ts_Enable t) (tc_Device c) (tc_Stack c) (tc_DNSHijack c) (tc_AutoRoute c) (tc_RouteAddress c))) ≫= fun _ =>
  v ← deref (ts_AutoRoute t); store (on_Tun (fun c => mkTunConf (tc_Enable c) (tc_Device c) (tc_Stack c) (tc_DNSHijack c) v (tc_RouteAddress c))) ≫= fun _ =>
  v ← deref (ts_Device t); store (on_Tun (fun c => mkTunConf (tc_Enable c) v (tc_Stack c) (tc_DNSHijack c) (tc_AutoRoute c) (tc_RouteAddress c))) ≫= fun _ =>
  v ← deref (ts_RouteAddress t); store (on_Tun (fun c => mkTunConf (tc_Enable c) (tc_Device c) (tc_Stack c) (tc_DNSHijack c) (tc_AutoRoute c) v)) ≫= fun _ =>
  v ← deref (ts_DNSHijack t); store (on_Tun (fun c => mkTunConf (tc_Enable c) (tc_Device c) (tc_Stack c) v (tc_AutoRoute c) (tc_RouteAddress c))) ≫= fun _ =>
  v ← deref (ts_Stack t); store (on_Tun (fun c => mkTunConf (tc_Enable c) (tc_Device c) v (tc_DNSHijack c) (tc_AutoRoute c) (tc_RouteAddress c))).
(** [AllowLan] is read from the request and dropped.
    @go core/common.go:285-350 updateConfig *)
Definition updateConfig (params : UpdateParams) : M unit := locked (
  the_config ≫= fun _ =>
  when_some (up_MixedPort params) (fun v => store (g_set_MixedPort v)) ≫= fun _ =>
  when_some (up_Sniffing params) (fun v => store (g_set_Sniffing v) ≫= fun _ => call (SetSniffing v)) ≫= fun _ =>
  when_some (up_FindProcessMode params) (fun v => store (g_set_FindProcessMode v) ≫= fun _ => call (SetFindProcessMode v)) ≫= fun _ =>
  when_some (up_TCPConcurrent params) (fun v => store (g_set_TCPConcurrent v) ≫= fun _ => call (SetTcpConcurrent v)) ≫= fun _ =>
  when_some (up_Interface params) (fun v => store (g_set_Interface v) ≫= fun _ => call (StoreInterface v)) ≫= fun _ =>
  when_some (up_UnifiedDelay params) (fun v => store (g_set_UnifiedDelay v) ≫= fun _ => call (StoreUnifiedDelay v)) ≫= fun _ =>
  when_some (up_Mode params) (fun v => store (g_set_Mode v) ≫= fun _ => call (SetMode v)) ≫= fun _ =>
  when_some (up_LogLevel params) (fun v => store (g_set_LogLevel v) ≫= fun _ => call (SetLevel v)) ≫= fun _ =>
  when_some (up_IPv6 params) (fun v => store (g_set_IPv6 v) ≫= fun _ => call (SetDisableIPv6 (negb v))) ≫= fun _ =>
  when_some (up_ExternalController params) (fun v =>
    modify (fun s => set_currentConfig ((fun c => mkConfig (c_General c) v (c_rest c)) <$> currentConfig s) s) ≫= fun _ => call (ReCreateServer v)) ≫= fun _ =>
  when_some (up_Tun params) update_tun ≫= fun _ =>
  updateListeners ≫= fun _ =>
  match up_Tun params with
  | None => mret tt
  | Some _ =>
      if bool_decide (platform = Android) then mret tt
      else
        running ← gets isRunning;
        c ← the_config;
        effective ← call GetTunConf_Enable;
        if shouldFailMissingTunListener running (tc_Enable (g_Tun (c_General c))) effective
        then text ← call GetTunLastError; log_line 3 text else mret tt
  end).

(** *** setupConfig *)

Definition a_string (v : any) : option string := match v with VStr s => Some s | _ => None end.
(** @go core/hub.go:125-141 extractProxyDescriptionsFromRaw *)
Definition extractProxyDescriptionsFromRaw (rawConfig : option RawConfig) : M unit :=
  match rawConfig ≫= rc_Proxy with
  | None => mret tt
  | Some proxies =>
      modify (set_proxyDescriptions
        (fold_left (fun descriptions proxyMap =>
           match (proxyMap !! "name") ≫= a_string, (proxyMap !! "serverDescription") ≫= a_string with
           | Some name, Some desc => if String.eqb desc "" then descriptions else <[name := desc]> descriptions
           | _, _ => descriptions
           end) proxies ∅))
  end.
(** [None] is success.
    @go core/common.go:352-382 setupConfig *)
Definition setupConfig (params : SetupParams) : M (option string) := locked (
  modify (set_DefaultTestURL (sp_TestURL params)) ≫= fun _ =>
  parsed ← call (ParseRawConfig (sp_Config params));
  match parsed with
  | inl err =>
      current ← gets currentConfig;
      (match current with
       | Some _ => mret tt
       | None =>
           default_ ← call (ParseRawConfig (Some DefaultRawConfig));
           modify (set_currentConfig (match default_ with inr c => Some c | inl _ => None end)) ≫= fun _ =>
           current ← gets currentConfig; call (ApplyConfig current)
       end) ≫= fun _ => mret (Some err)
  | inr currentRaw =>
      modify (set_currentConfig (Some currentRaw)) ≫= fun _ =>
      extractProxyDescriptionsFromRaw (sp_Config params) ≫= fun _ =>
      call (ApplyConfig (Some currentRaw)) ≫= fun _ =>
      patchSelectGroup (sp_SelectedMap params) ≫= fun _ =>
      updateListeners ≫= fun _ =>
      if bool_decide (platform = Android) then mret None
      else
        running ← gets isRunning;
        effective ← call GetTunConf_Enable;
        if shouldFailMissingTunListener running (tc_Enable (g_Tun (c_General currentRaw))) effective
        then text ← call GetTunLastError; mret (Some ("tun listener failed to start: " +:+ text))
        else mret None
  end).

(** ** Handlers *)

(** @go core/hub.go:42-62 handleInitClash *)
Definition handleInitClash (paramsString : string) : M bool :=
  match json_InitParams paramsString with
  | inl _ => mret false
  | inr params =>
      modify (set_version (ip_Version params)) ≫= fun _ =>
      call (SetHomeDir (ip_HomeDir params)) ≫= fun _ =>
      init ← gets isInit;
      (if init : bool then mret tt
       else modify (set_isInit true) ≫= fun _ =>
            call (SetMemoryLimit (Z.shiftl 192 20)) ≫= fun _ => call (SetGCPercent 70)) ≫= fun _ =>
      gets isInit
  end.
(** @go core/hub.go:64-85 handleStartListener *)
Definition handleStartListener : M StartListenerResult := locked (
  modify (set_isRunning true) ≫= fun _ =>
  updateListeners ≫= fun _ =>
  current ← gets currentConfig;
  let requested := match current with Some c => negb (bool_decide (platform = Android)) && tc_Enable (g_Tun (c_General c)) | None => false end in
  if negb requested then call ResetConnection ≫= fun _ => mret (startListenerResult false false "")
  else
    effective ← call GetTunConf_Enable;
    if negb (effective : bool) then text ← call GetTunLastError; mret (startListenerResult true false text)
    else call ResetConnection ≫= fun _ => mret (startListenerResult true true "")).
(** @go core/hub.go:87-93 handleStopListener *)
Definition handleStopListener : M bool := locked (
  modify (set_isRunning false) ≫= fun _ => call StopListener ≫= fun _ => mret true).
(** @go core/hub.go:95-97 handleGetIsInit *)
Definition handleGetIsInit : M bool := gets isInit.
(** @go core/hub.go:99-105 handleForceGc *)
Definition handleForceGc : M unit := go TForceGc.
Definition force_gc : M unit := recoverGo "handleForceGc" (log_line 1 "[APP] request force GC" ≫= fun _ => call GC).
(** @go core/hub.go:107-113 handleShutdown *)
Definition handleShutdown : M bool :=
  call StopListener ≫= fun _ => call executor_Shutdown ≫= fun _ => call GC ≫= fun _ => modify (set_isInit false) ≫= fun _ => mret true.
(** @go core/hub.go:115-121 handleValidateConfig *)
Definition handleValidateConfig (bytes : string) : M string :=
  r ← call (UnmarshalRawConfig bytes); mret match r with inl err => err | inr _ => "" end.

(** The JSON of one proxy; a description stored in a nil map panics.
    @go core/hub.go:151-172 handleGetProxies *)
Definition proxy_view (name : string) (proxy : ProxyRef) : M ProxyView :=
  proxyJSON ← call (MarshalProxy proxy);
  match proxyJSON with
  | None => mret (AsProxy proxy)
  | Some text =>
      match json_Object text with
      | None => mret (AsProxy proxy)
      | Some proxyMap =>
          descriptions ← gets proxyDescriptions;
          match descriptions !! name, proxyMap with
          | Some _, None => panic runtime_error
          | Some desc, Some o => mret (AsObject (<["serverDescription" := desc]> o))
          | None, o => mret (AsObject (default ∅ o))
          end
      end
  end.
Fixpoint proxy_views (l : list (string * ProxyRef)) : M (gmap string ProxyView) :=
  match l with
  | [] => mret ∅
  | (name, proxy) :: l => v ← proxy_view name proxy; rest ← proxy_views l; mret (<[name := v]> rest)
  end.
(** @go core/hub.go:143-175 handleGetProxies *)
Definition handleGetProxies : M (gmap string ProxyView) := locked (
  proxies ← proxiesWithProviders; proxy_views (map_to_list proxies)).

(** [fn] is what the goroutine answers with.
    @go core/hub.go:177-218 handleChangeProxy *)
Definition choose_proxy (data : string) (fn : string -> M unit) : M unit :=
  match json_ChangeProxyParams data with
  | inl err => fn err
  | inr params =>
      match cp_GroupName params, cp_ProxyName params with
      | Some groupName, Some proxyName =>
          proxies ← proxiesWithProviders;
          match proxies !! groupName with
          | None => fn "Not found group"
          | Some group =>
              if negb (px_is_adapter group) then panic runtime_error
              else if negb (px_selectable group) then fn "Group is not selectable"
              else if String.eqb proxyName "" then call (ForceSet (px_id group) proxyName) ≫= fun _ => fn ""
              else err ← call (Set_ (px_id group) proxyName);
                   match err with Some err => fn err | None => fn "" end
          end
      | _, _ => panic runtime_error
      end
  end.
Definition change_proxy (data : string) (fn : string -> M unit) : M unit :=
  Lock ≫= fun _ => recoverGoFn "handleChangeProxy" fn (deferring Unlock (choose_proxy data fn)).
(** @go core/hub.go:177-218 handleChangeProxy *)
Definition handleChangeProxy (data : string) (result : ActionResult) : M unit := go (TChangeProxy data result).

(** @go core/hub.go:220-232 handleGetTraffic *)
Definition handleGetTraffic : M string :=
  st ← gets CurrentState; t ← call (Traffic_Current (fs_OnlyStatisticsProxy st)); mret (json_Traffic (fst t) (snd t)).
(** @go core/hub.go:234-246 handleGetTotalTraffic *)
Definition handleGetTotalTraffic : M string :=
  st ← gets CurrentState; t ← call (Traffic_Total (fs_OnlyStatisticsProxy st)); mret (json_Traffic (fst t) (snd t)).
(** @go core/hub.go:248-250 handleResetTraffic *)
Definition handleResetTraffic : M unit := call ResetStatistic.

(** The answer of a panic names what was asked for: the proxy and the address once
    the parameters are read, before that the default address and no proxy.
    @go core/hub.go:253-317 handleAsyncTestDelay *)
Definition test_delay (paramsString : string) (fn : string -> M unit) : M unit :=
  default_ ← gets DefaultTestURL;
  let named := json_TestDelayParams paramsString in
  let proxyName := match named with inr params => td_ProxyName params | inl _ => "" end in
  let testUrl := match named with
                 | inr params => if String.eqb (td_TestUrl params) "" then default_ else td_TestUrl params
                 | inl _ => default_
                 end in
  let unreachable := json_Delay (mkDelay testUrl proxyName (-1)) in
  recoverGoFn "handleAsyncTestDelay" (fun _ => fn unreachable) (
    match named with
    | inl _ => fn ""
    | inr params =>
        proxies ← proxiesWithProviders;
        match proxies !! proxyName with
        | None => fn unreachable
        | Some proxy =>
            delay ← call (URLTest proxy (td_Timeout params) testUrl);
            match delay with
            | inl _ => fn unreachable
            | inr delay => if delay =? 0 then fn unreachable else fn (json_Delay (mkDelay testUrl proxyName delay))
            end
        end
    end).
(** @go core/hub.go:252-318 handleAsyncTestDelay *)
Definition handleAsyncTestDelay (paramsString : string) (result : ActionResult) : M unit := go (TTestDelay paramsString result).

(** @go core/hub.go:320-330 handleGetConnections *)
Definition handleGetConnections : M string := locked (snapshot ← call Snapshot; mret (default "" snapshot)).
(** An error of a tracker does not stop the sweep.
    @go core/hub.go:339-350 closeConnections *)
Definition closeConnections : M unit :=
  trackers ← call Trackers; each (fun c => call (Tracker_Close c)) trackers ≫= fun _ => call ResetAllPools.
(** @go core/hub.go:332-337 handleCloseConnections *)
Definition handleCloseConnections : M bool := locked (closeConnections ≫= fun _ => mret true).
(** @go core/hub.go:352-357 handleResetConnections *)
Definition handleResetConnections : M bool := locked (call ResetConnection ≫= fun _ => mret true).
(** @go core/hub.go:359-368 handleCloseConnection *)
Definition handleCloseConnection (connectionId : string) : M bool := locked (
  c ← call (Tracker_Get connectionId);
  match c with None => mret false | Some c => call (Tracker_Close c) ≫= fun _ => mret true end).

(** [sort.Sort] by name; equal names, which a map does not hold, may come in any order. *)
Fixpoint insert_by_name (p : ExternalProvider) (l : list ExternalProvider) : list ExternalProvider :=
  match l with [] => [p] | q :: r => if String.leb (ep_Name p) (ep_Name q) then p :: l else q :: insert_by_name p r end.
(** @go core/hub.go:370-388 handleGetExternalProviders *)
Definition handleGetExternalProviders : M string := locked (
  providers ← getExternalProvidersRaw;
  modify (set_externalProviders providers) ≫= fun _ =>
  mret (json_ExternalProviders (fold_right insert_by_name [] (omap (fun np => toExternalProvider (snd np)) (map_to_list providers))))).
(** @go core/hub.go:390-406 handleGetExternalProvider *)
Definition handleGetExternalProvider (externalProviderName : string) : M string := locked (
  providers ← gets externalProviders;
  mret match providers !! externalProviderName ≫= toExternalProvider with Some e => json_ExternalProvider e | None => "" end).

Definition geo_types : list string := ["MMDB"; "ASN"; "GeoIp"; "GeoSite"].
(** @go core/hub.go:409-439 handleUpdateGeoData *)
Definition update_geo_data (geoType geoName : string) (fn : string -> M unit) : M unit :=
  recoverGoFn "handleUpdateGeoData" fn (
    path ← call (Resolve_path geoName);
    if existsb (String.eqb geoType) geo_types then
      err ← call (UpdateGeo geoType path);
      match err with Some err => fn err | None => fn "" end
    else fn "").
(** @go core/hub.go:408-440 handleUpdateGeoData *)
Definition handleUpdateGeoData (geoType geoName : string) (result : ActionResult) : M unit := go (TUpdateGeoData geoType geoName result).
(** The provider of a name, with the lock held until the answer is given. *)
Definition with_provider (name : string) (fn : string -> M unit) (update : ProviderRef -> M (option string)) : M unit :=
  locked (
    providers ← gets externalProviders;
    match providers !! name with
    | None => fn "external provider is not exist"
    | Some p => err ← update p; match err with Some err => fn err | None => fn "" end
    end).
(** @go core/hub.go:443-460 handleUpdateExternalProvider *)
Definition update_provider (providerName : string) (fn : string -> M unit) : M unit :=
  recoverGoFn "handleUpdateExternalProvider" fn (with_provider providerName fn (fun p => call (Provider_Update (pv_id p)))).
(** @go core/hub.go:442-461 handleUpdateExternalProvider *)
Definition handleUpdateExternalProvider (providerName : string) (result : ActionResult) : M unit := go (TUpdateProvider providerName result).
(** @go core/hub.go:464-479 handleSideLoadExternalProvider *)
Definition side_load_provider (providerName data : string) (fn : string -> M unit) : M unit :=
  recoverGoFn "handleSideLoadExternalProvider" fn (with_provider providerName fn (fun p => sideUpdateExternalProvider p data)).
(** @go core/hub.go:463-480 handleSideLoadExternalProvider *)
Definition handleSideLoadExternalProvider (providerName data : string) (result : ActionResult) : M unit := go (TSideLoadProvider providerName data result).

(** @go core/hub.go:482-507 handleStartLog *)
Definition handleStartLog : M unit := log_locked (
  subscriber ← gets logSubscriber;
  (match subscriber with
   | Some sub => call (UnSubscribe sub) ≫= fun _ => modify (set_logSubscriber None)
   | None => mret tt
   end) ≫= fun _ =>
  sub ← call Subscribe; modify (set_logSubscriber (Some sub)) ≫= fun _ => go (TLogPump sub)).
(** One turn of the goroutine of a subscription: a line is passed on if its level is
    not below the one set.
    @go core/hub.go:495-506 handleStartLog *)
Definition log_pump (threshold : Z) (line : Z * string) : M unit :=
  recoverGo "handleStartLog" (if fst line <? threshold then mret tt else sendMessage (mkMessage LogMessage (snd line))).
(** @go core/hub.go:509-516 handleStopLog *)
Definition handleStopLog : M unit := log_locked (
  subscriber ← gets logSubscriber;
  match subscriber with
  | Some sub => call (UnSubscribe sub) ≫= fun _ => modify (set_logSubscriber None)
  | None => mret tt
  end).

(** @go core/hub.go:519-531 handleGetCountryCode *)
Definition get_country_code (ip : string) (fn : string -> M unit) : M unit :=
  recoverGoFn "handleGetCountryCode" (fun _ => fn "") (locked (
    codes ← call (LookupCode ip); match codes with [] => fn "" | code :: _ => fn code end)).
(** @go core/hub.go:518-532 handleGetCountryCode *)
Definition handleGetCountryCode (ip : string) (result : ActionResult) : M unit := go (TCountryCode ip result).
(** @go core/hub.go:535-540 handleGetMemory *)
Definition get_memory (fn : string -> M unit) : M unit :=
  recoverGoFn "handleGetMemory" (fun _ => fn "") (memory ← call Memory; fn (FormatInt memory)).
(** @go core/hub.go:534-541 handleGetMemory *)
Definition handleGetMemory (result : ActionResult) : M unit := go (TGetMemory result).
(** [None] is success.
    @go core/hub.go:543-551 handleSetState *)
Definition handleSetState (params : string) : M (option string) :=
  match json_State params with
  | inl err => log_line 3 err ≫= fun _ => mret (Some err)
  | inr next => modify (set_CurrentState next) ≫= fun _ => mret None
  end.
(** @go core/hub.go:553-563 handleGetConfig *)
Definition handleGetConfig (path : string) : M (string + RawConfig) :=
  bytes ← call (ReadFile path);
  match bytes with inl err => mret (inl err) | inr bytes => call (UnmarshalRawConfig bytes) end.
(** @go core/hub.go:565-567 handleCrash *)
Definition handleCrash : M unit := panic "handle invoke crash".
(** @go core/hub.go:569-577 handleUpdateConfig *)
Definition handleUpdateConfig (bytes : string) : M string :=
  match json_UpdateParams bytes with
  | inl err => mret err
  | inr params => updateConfig params ≫= fun _ => mret ""
  end.
(** @go core/hub.go:579-600 handleSetupConfig *)
Definition handleSetupConfig (bytes : string) : M string :=
  match json_SetupParams defaultSetupParams bytes with
  | inl err =>
      log_line 3 err ≫= fun _ =>
      Lock ≫= fun _ => current ← gets currentConfig; Unlock ≫= fun _ =>
      (match current with None => setupConfig defaultSetupParams ≫= fun _ => mret tt | Some _ => mret tt end) ≫= fun _ => mret err
  | inr params => err ← setupConfig params; mret (default "" err)
  end.

(** ** Dispatch *)

Definition crashMethod : string := "crash".
(** [action.Data.(string)] *)
Definition string_of (data : any) : M string := match data with VStr s => mret s | _ => panic runtime_error end.
(** @go core/dns_payload.go:18-36 parseDNSPayload *)
Definition parseDNSPayload (value : string) : list string :=
  fold_left (fun result part =>
    let address := TrimSpaceUTF8 part in
    if String.eqb address "" then result else if bool_decide (address ∈ result) then result else result ++ [address])
    (SplitStr value ",") [].
(** @go core/lib_android.go:278-286 handleUpdateDns *)
Definition handleUpdateDns (value : string) : M bool :=
  runGuarded "updateDns" (
    log_line 1 "[DNS] updateDns" ≫= fun _ => call (UpdateSystemDNS (parseDNSPayload value)) ≫= fun _ => call FlushCacheWithDefaultResolver).
(** The lock of the tunnel and its running time are part of [BridgeTun]; the latter
    is an argument here.
    @go core/lib_android.go:244-266 handleGetAndroidVpnOptions *)
Definition handleGetAndroidVpnOptions : M string :=
  st ← gets CurrentState; c ← the_config; options ← call (VpnOptions st c); mret (default "" options).
(** @go core/lib_android.go:288-294 handleGetCurrentProfileName *)
Definition handleGetCurrentProfileName : M string := st ← gets CurrentState; mret (fs_CurrentProfileName st).

Section Actions.
Context (runTime : option Z).
(** @go core/lib_android.go:214-219 handleGetRunTime *)
Definition handleGetRunTime : string := match runTime with None => "" | Some t => FormatInt t end.
(** Only Android knows further methods.
    @go core/lib_android.go:296-313 nextHandle *)
Definition nextHandle (action : Action) (result : ActionResult) : M bool :=
  if negb (bool_decide (platform = Android)) then mret false
  else if String.eqb (a_Method action) "getAndroidVpnOptions" then v ← handleGetAndroidVpnOptions; success result (DStr v) ≫= fun _ => mret true
  else if String.eqb (a_Method action) "updateDns" then data ← string_of (a_Data action); v ← handleUpdateDns data; success result (DBool v) ≫= fun _ => mret true
  else if String.eqb (a_Method action) "getRunTime" then success result (DStr handleGetRunTime) ≫= fun _ => mret true
  else if String.eqb (a_Method action) "getCurrentProfileName" then v ← handleGetCurrentProfileName; success result (DStr v) ≫= fun _ => mret true
  else mret false.

(** The methods, in the order of the code, with what they do.
    @go core/action.go:52-211 handleAction *)
Definition methods (action : Action) (result : ActionResult) : list (string * M unit) :=
  let text (m : string -> M unit) : M unit := data ← string_of (a_Data action); m data in
  let str (m : M string) : M unit := v ← m; success result (DStr v) in
  let bool_ (m : M bool) : M unit := v ← m; success result (DBool v) in
  let done_ (m : M unit) : M unit := m ≫= fun _ => success result (DBool true) in
  [("initClash", text (fun data => bool_ (handleInitClash data)));
   ("getIsInit", bool_ handleGetIsInit);
   ("forceGc", done_ handleForceGc);
   ("shutdown", bool_ handleShutdown);
   ("validateConfig", text (fun data => str (handleValidateConfig data)));
   ("updateConfig", text (fun data => str (handleUpdateConfig data)));
   ("setupConfig", text (fun data => str (handleSetupConfig data)));
   ("getProxies", v ← handleGetProxies; success result (DProxies v));
   ("changeProxy", text (fun data => handleChangeProxy data result));
   ("getTraffic", str handleGetTraffic);
   ("getTotalTraffic", str handleGetTotalTraffic);
   ("resetTraffic", done_ handleResetTraffic);
   ("asyncTestDelay", text (fun data => handleAsyncTestDelay data result));
   ("getConnections", str handleGetConnections);
   ("closeConnections", bool_ handleCloseConnections);
   ("resetConnections", bool_ handleResetConnections);
   ("getConfig", text (fun path => config ← handleGetConfig path;
      match config with inl err => error result (DStr err) | inr config => success result (DConfig config) end));
   ("closeConnection", text (fun id => bool_ (handleCloseConnection id)));
   ("getExternalProviders", str handleGetExternalProviders);
   ("getExternalProvider", text (fun name => str (handleGetExternalProvider name)));
   ("updateGeoData", text (fun data =>
      match json_StringMap data with
      | inl err => success result (DStr err)
      | inr params => handleUpdateGeoData (default "" (params !! "geo-type")) (default "" (params !! "geo-name")) result
      end));
   ("updateExternalProvider", text (fun name => handleUpdateExternalProvider name result));
   ("sideLoadExternalProvider", text (fun data =>
      match json_StringMap data with
      | inl err => success result (DStr err)
      | inr params => handleSideLoadExternalProvider (default "" (params !! "providerName")) (default "" (params !! "data")) result
      end));
   ("startLog", done_ handleStartLog);
   ("stopLog", done_ handleStopLog);
   ("startListener", r ← handleStartListener; success result (DStr (json_StartListenerResult r)));
   ("stopListener", bool_ handleStopListener);
   ("getCountryCode", text (fun ip => handleGetCountryCode ip result));
   ("getMemory", handleGetMemory result);
   ("setState", text (fun data => err ← handleSetState data;
      match err with Some _ => error result (DStr "invalid state params") | None => success result (DBool true) end));
   (crashMethod, success result (DBool true) ≫= fun _ => handleCrash)].
Fixpoint find_method (method : string) (l : list (string * M unit)) : option (M unit) :=
  match l with [] => None | (name, m) :: l => if String.eqb name method then Some m else find_method method l end.
(** @go core/action.go:42-212 handleAction *)
Definition handleAction (action : Action) (result : ActionResult) : M unit :=
  recovering (fun cause =>
      if String.eqb (a_Method action) crashMethod then panic cause
      else log_line 3 "[panic] action recovered" ≫= fun _ => error result (DStr ("panic: " +:+ cause)))
    (match find_method (a_Method action) (methods action result) with
     | Some m => m
     | None =>
         handled ← nextHandle action result;
         if handled : bool then mret tt else error result (DStr ("unsupported method: " +:+ a_Method action))
     end).
End Actions.

(** What a goroutine does; the pump of the log runs as lines arrive, by [log_pump]. *)
Definition run_task (t : Task) : M unit :=
  let answer result value := success result (DStr value) in
  match t with
  | TChangeProxy data result => change_proxy data (answer result)
  | TTestDelay data result => test_delay data (answer result)
  | TUpdateGeoData geoType geoName result => update_geo_data geoType geoName (answer result)
  | TUpdateProvider name result => update_provider name (answer result)
  | TSideLoadProvider name data result => side_load_provider name data (answer result)
  | TCountryCode ip result => get_country_code ip (answer result)
  | TGetMemory result => get_memory (answer result)
  | TForceGc => force_gc
  | TLogPump _ => mret tt
  end.
(** A message that is no action is logged and dropped.
    @go core/lib.go:76-94 invokeAction *)
Definition invokeAction (runTime : option Z) (params : string) (port : Z) : M unit :=
  match json_Action params with
  | inl err => log_line 3 err
  | inr action => handleAction runTime action (mkActionResult (a_Id action) (a_Method action) DNil 0 port)
  end.
(** The goroutine owns the Dart port and answers on it.
    @go core/lib_android.go:316-337 quickStart *)
Definition quickStart (initParams params stateParams : string) (port : Z) : M unit :=
  let post msg := modify (add_posted (port, msg)) ≫= fun _ => call (SendToPort port msg) ≫= fun _ => mret tt in
  recoverGoFn "quickStart" post (
    res ← handleInitClash initParams;
    if negb (res : bool) then post "init error"
    else handleSetState stateParams ≫= fun _ => text ← handleSetupConfig params; post text).
(** Zero keeps what [handleInitClash] set.
    @go core/lib_ios.go:106-113 applyIosMemoryLimit *)
Definition applyIosMemoryLimit (iosMemoryLimit iosGCPercent : Z) : M unit :=
  if iosMemoryLimit =? 0 then mret tt
  else call (SetMemoryLimit iosMemoryLimit) ≫= fun _ => call (SetGCPercent iosGCPercent) ≫= fun _ => call (GOMAXPROCS 2).
(** @go core/lib_ios.go:70-88 iosQuickStartGo *)
Definition iosQuickStartGo (iosMemoryLimit iosGCPercent : Z) (initJSON setupJSON stateJSON : string) : M string :=
  res ← handleInitClash initJSON;
  if negb (res : bool) then mret "init error"
  else
    applyIosMemoryLimit iosMemoryLimit iosGCPercent ≫= fun _ =>
    handleSetState stateJSON ≫= fun _ =>
    result ← handleSetupConfig setupJSON; call GC ≫= fun _ => mret result.
End Model.

(** * The bridge: an environment to run it in

    Packages that answer, and one variant in which a call panics; JSON that knows a few
    fixed texts.  The examples replay what the tests of [core/] check. *)


Definition plain_general : General := mkGeneral 7890 false 0 false "" false 0 1 true (mkTunConf true "utun" 0 [] true []) 0.
Definition plain_config : CoreConfig := mkConfig plain_general "" 0.
Definition plain_raw : RawConfig := mkRawConfig (Some []) 0.
Definition plain_proxies : gmap string ProxyRef :=
  {["nl" := mkProxyRef 1 "nl" true false; "auto" := mkProxyRef 2 "auto" true true]}.
Definition plain_answer {A} (c : Call A) : A :=
  match c with
  | SetHomeDir _ => tt
  | SetMemoryLimit _ => tt
  | SetGCPercent _ => tt
  | GC => tt
  | GOMAXPROCS _ => tt
  | ParseRawConfig raw => match raw with Some _ => inr plain_config | None => inl "no configuration" end
  | UnmarshalRawConfig _ => inr plain_raw
  | ApplyConfig _ => tt
  | executor_Shutdown => tt
  | PatchInboundListeners _ => tt
  | SetAllowLan _ => tt
  | SetSkipAuthPrefixes _ => tt
  | SetAllowedIPs _ => tt
  | SetDisAllowedIPs _ => tt
  | SetBindAddress _ => tt
  | ReCreateHTTP _ => tt
  | ReCreateSocks _ => tt
  | ReCreateRedir _ => tt
  | ReCreateTProxy _ => tt
  | ReCreateMixed _ => tt
  | ReCreateShadowSocks _ => tt
  | ReCreateVmess _ => tt
  | ReCreateTuic _ => tt
  | ReCreateTun _ => tt
  | StopListener => tt
  | GetTunConf_Enable => true
  | GetTunLastError => ""
  | ResetConnection => tt
  | SetSniffing _ => tt
  | SetFindProcessMode _ => tt
  | SetTcpConcurrent _ => tt
  | StoreInterface _ => tt
  | StoreUnifiedDelay _ => tt
  | SetMode _ => tt
  | SetLevel _ => tt
  | SetDisableIPv6 _ => tt
  | ReCreateServer _ => tt
  | tunnel_Proxies => plain_proxies
  | tunnel_Providers => []
  | tunnel_RuleProviders => [("ads", mkProviderRef 7 "ads" KindRuleSet false)]
  | ForceSet _ _ => tt
  | Set_ _ _ => None
  | MarshalProxy _ => Some "{}"
  | URLTest _ _ _ => inr 120
  | Traffic_Current _ => (0, 0)
  | Traffic_Total _ => (0, 0)
  | ResetStatistic => tt
  | Snapshot => Some "[]"
  | Trackers => [1; 2]
  | Tracker_Get _ => None
  | Tracker_Close _ => tt
  | ResetAllPools => tt
  | Memory => 1024
  | UpdateGeo _ _ => None
  | Resolve_path _ => ""
  | Provider_Update _ => None
  | Provider_SideUpdate _ _ => None
  | LookupCode _ => ["ru"]
  | Subscribe => 1
  | UnSubscribe _ => tt
  | ReadFile _ => inl "no file"
  | UpdateSystemDNS _ => tt
  | FlushCacheWithDefaultResolver => tt
  | VpnOptions _ _ => Some "{}"
  | SendToPort _ _ => true
  end.
(** [broken] calls panic. *)
Definition plain_call (broken : forall A, Call A -> bool) {A} (c : Call A) (w : unit) : (string + A) * unit :=
  (if broken A c then inl "broken" else inr (plain_answer c), w).
Definition bridge_env (p : Platform) (broken : forall A, Call A -> bool) : BridgeEnv := {|
  W := unit; env_call := @plain_call broken; platform := p;
  json_InitParams := fun t => if String.eqb t "bad" then inl "invalid" else inr (mkInitParams t 1);
  json_UpdateParams := fun t => if String.eqb t "bad" then inl "invalid" else inr (mkUpdateParams (Some (mkTunSchema true None None None None None)) None (Some 7891) None None None None None None None None None);
  json_SetupParams := fun d t => if String.eqb t "bad" then inl "invalid" else if String.eqb t "null" then inr (mkSetupParams None ∅ t) else inr d;
  json_ChangeProxyParams := fun t => if String.eqb t "bad" then inl "invalid" else inr (mkChangeProxyParams (if String.eqb t "null" then None else Some t) (Some "nl"));
  json_TestDelayParams := fun t => if String.eqb t "bad" then inl "invalid" else inr (mkTestDelayParams t "" 5000);
  json_StringMap := fun t => if String.eqb t "bad" then inl "invalid" else inr {["providerName" := t; "geo-type" := t]};
  json_State := fun t => if String.eqb t "bad" then inl "invalid" else inr (mkFrontState false t false 0);
  json_Action := fun t => inr (mkAction "1" t VNil);
  json_Object := fun t => Some (Some ∅);
  Json := fun r => Some (r_Id r);
  json_Delay := fun d => dl_Name d +:+ " " +:+ dl_Url d +:+ " " +:+ FormatInt (dl_Value d);
  json_StartListenerResult := fun r => if Ok r then "ok" else default "" (TunError r);
  json_Traffic := fun up down => FormatInt up +:+ " " +:+ FormatInt down;
  json_ExternalProviders := fun l => String.concat "," (map ep_Name l);
  json_ExternalProvider := ep_Name;
  DefaultRawConfig := plain_raw |}.
Definition nothing_broken (A : Type) (c : Call A) : bool := false.
Definition parser_broken (A : Type) (c : Call A) : bool := match c with ParseRawConfig _ => true | _ => false end.
#[global] Instance bridge_plain : BridgeEnv := bridge_env Desktop nothing_broken.

(** Nothing was set up yet; a port is attached if [port] is not -1. *)
Definition fresh_core (port : Z) : @Core bridge_plain :=
  @mkCore bridge_plain false 0 false None ∅ None ∅ (mkFrontState false "" false 0) "https://www.gstatic.com/generate_204"
    false false port ∅ (-1000) ∅ [] [] [] [] [] tt.
(** The answers to actions given one after the other, goroutines run as they are started. *)
Definition answers_of `{BridgeEnv} (s : Core) : list (string * Data) := map (fun r => (r_Method r, r_Data r)) (sent s).
Definition perform `{BridgeEnv} (method : string) (data : any) (s : Core) : Core :=
  let before := length (started s) in
  let s := snd (handleAction None (mkAction "1" method data) (mkActionResult "1" method DNil 0 100) s) in
  fold_left (fun s t => snd (run_task t s)) (drop before (started s)) s.
Definition session (actions : list (string * any)) : list (string * Data) :=
  answers_of (fold_left (fun s a => perform (fst a) (snd a) s) actions (fresh_core (-1))).

(** A method that does not exist, data of the wrong type, and a panic below are answered. *)
Example refused_actions :
  session [("nope", VNil); ("initClash", VNil); ("updateConfig", VStr "{}")] =
  [("nope", DStr "unsupported method: nope"); ("initClash", DStr "panic: runtime error"); ("updateConfig", DStr "panic: runtime error")].
Proof. vm_compute. reflexivity. Qed.
(** A delay is reported under the proxy and the address that were asked for. *)
Example delays :
  session [("asyncTestDelay", VStr "nl"); ("asyncTestDelay", VStr "gone"); ("changeProxy", VStr "auto"); ("changeProxy", VStr "nl"); ("changeProxy", VStr "null")] =
  [("asyncTestDelay", DStr "nl https://www.gstatic.com/generate_204 120"); ("asyncTestDelay", DStr "gone https://www.gstatic.com/generate_204 -1");
   ("changeProxy", DStr ""); ("changeProxy", DStr "Group is not selectable"); ("changeProxy", DStr "panic: handleChangeProxy: runtime error")].
Proof. vm_compute. reflexivity. Qed.
(** A rule provider cannot be side-loaded. *)
Example side_load_rules : session [("getExternalProviders", VNil); ("sideLoadExternalProvider", VStr "ads")] =
  [("getExternalProviders", DStr "ads"); ("sideLoadExternalProvider", DStr "not external provider")].
Proof. vm_compute. reflexivity. Qed.
(** A change of the tunnel without its device panics halfway: it is enabled already. *)
Example tun_half_changed :
  let s := fold_left (fun s a => perform (fst a) (snd a) s) [("setupConfig", VStr "{}"); ("updateConfig", VStr "{}")] (fresh_core (-1)) in
  (answers_of s, option_map (fun c => g_MixedPort (c_General c)) (currentConfig s)) =
  ([("setupConfig", DStr ""); ("updateConfig", DStr "panic: runtime error")], Some 7891).
Proof. vm_compute. reflexivity. Qed.
(** DNS addresses: separated by commas, trimmed, without empty ones and repetitions. *)
Example dns_payload : parseDNSPayload " 1.1.1.1, ,[::1]:53,1.1.1.1" = ["1.1.1.1"; "[::1]:53"] /\ parseDNSPayload "" = [].
Proof. vm_compute. done. Qed.
