(* ===== verification/BridgeProps.v ===== *)
(** * The bridge: what callers can rely on

    Every action is answered once, by the handler or by the goroutine it starts, and no
    handler keeps a lock, whatever the packages below do, panics included; a rejected
    configuration leaves the running one alone; a log line that cannot be passed on
    makes no further log line. *)

From S2P Require Import Prelude Names GoText ExprValue Bridge.
#[local] Open Scope string_scope.
#[local] Open Scope Z_scope.
#[local] Open Scope list_scope.

(** Posting to a Dart port returns whether the port took the message; the C function
    behind it does not panic. *)
Class BridgeLaws `{Env : BridgeEnv} := {
  post_returns port msg w : exists b w', env_call (SendToPort port msg) w = (inr b, w')
}.

Section Answers.
Context `{Env : BridgeEnv} {Laws : BridgeLaws}.

(** ** What a computation leaves alone *)

(** What a goroutine still owes an answer to. *)
Definition owes (t : Task) : option ActionResult :=
  match t with
  | TChangeProxy _ r | TTestDelay _ r | TUpdateGeoData _ _ r | TUpdateProvider _ r | TSideLoadProvider _ _ r | TCountryCode _ r | TGetMemory r => Some r
  | TForceGc | TLogPump _ => None
  end.
Definition owed (s : Core) : list ActionResult := omap owes (started s).
Definition locks (s : Core) : bool * bool := (runLock s, logMux s).
Definition free (s : Core) : Prop := locks s = (false, false).
(** Same locks, and nothing sent or owed that was not before. *)
Definition same (s s' : Core) : Prop := locks s' = locks s /\ sent s' = sent s /\ owed s' = owed s.

#[global] Instance same_po : PreOrder same.
Proof. split; [done|]. intros a b c (?&?&?) (?&?&?). repeat split; congruence. Qed.

(** [m] run where [P] holds comes to an end, and answers nobody. *)
Definition quiet (P : Core -> Prop) {A} (m : M A) : Prop :=
  forall s, P s -> match m s with (Stuck, _) => False | (_, s') => same s s' end.
(** The one thing that happened is that [result] was answered. *)
Definition told (result : ActionResult) (s s' : Core) : Prop :=
  locks s' = locks s /\ owed s' = owed s /\ exists code data, sent s' = sent s ++ [with_answer code data result].
(** Or that a goroutine was started which owes the answer. *)
Definition answered (result : ActionResult) (s s' : Core) : Prop :=
  told result s s' \/ locks s' = locks s /\ sent s' = sent s /\ owed s' = owed s ++ [result].
(** [m] achieves [Q] if it returns, and has answered nobody if it panics. *)
Definition achieves (P : Core -> Prop) (Q : Core -> Core -> Prop) (m : M unit) : Prop :=
  forall s, P s -> match m s with (Ret _, s') => Q s s' | (Panic _, s') => same s s' | (Stuck, _) => False end.
(** [m] returns, and achieves [Q]. *)
Definition surely (P : Core -> Prop) (Q : Core -> Core -> Prop) (m : M unit) : Prop :=
  forall s, P s -> exists s', m s = (Ret tt, s') /\ Q s s'.
Definition after_same (Q : Core -> Core -> Prop) : Prop := forall a b c, same a b -> Q b c -> Q a c.
(** A condition on the locks alone. *)
Definition on_locks (P : Core -> Prop) : Prop := forall s s', locks s' = locks s -> P s -> P s'.
Definition always (s : Core) : Prop := True.
Lemma on_locks_free : on_locks free.
Proof. unfold on_locks, free. congruence. Qed.
Lemma on_locks_always : on_locks always.
Proof. done. Qed.

(** *** Rules *)

Lemma quiet_ret P {A} (a : A) : quiet P (mret a).
Proof. intros s _. cbn. reflexivity. Qed.
Lemma quiet_panic P {A} cause : quiet P (@panic _ A cause).
Proof. intros s _. cbn. reflexivity. Qed.
Lemma quiet_gets P {A} (f : Core -> A) : quiet P (gets f).
Proof. intros s _. cbn. reflexivity. Qed.
Lemma quiet_call P {A} (c : Call A) : quiet P (call c).
Proof. intros s _. unfold call. by destruct (env_call c (world s)) as [[cause|a] w]. Qed.
Lemma quiet_modify P f : (forall s, same s (f s)) -> quiet P (modify f).
Proof. intros H s _. apply H. Qed.
Lemma quiet_log P level text : quiet P (log_line level text).
Proof. by apply quiet_modify. Qed.
Lemma quiet_go P t : owes t = None -> quiet P (go t).
Proof. intros H s _. cbn. repeat split. unfold owed. cbn. rewrite omap_app. cbn. by rewrite H, app_nil_r. Qed.
Lemma quiet_weaken (P Q : Core -> Prop) {A} (m : M A) : (forall s, Q s -> P s) -> quiet P m -> quiet Q m.
Proof. intros HPQ Hm s HQ. by apply Hm, HPQ. Qed.
Lemma quiet_free {A} (m : M A) : quiet always m -> quiet free m.
Proof. by apply quiet_weaken. Qed.
Lemma quiet_bind P {A B} (m : M A) (k : A -> M B) : on_locks P -> quiet P m -> (forall a, quiet P (k a)) -> quiet P (m ≫= k).
Proof.
  intros HP Hm Hk s Hs. specialize (Hm s Hs). unfold mbind, M_bind. destruct (m s) as [[a|c|] s1]; [|done|done].
  assert (HP1 : P s1) by (apply (HP s s1); [apply Hm|done]). specialize (Hk a s1 HP1).
  destruct (k a s1) as [[b|c|] s2]; try done; by etrans.
Qed.
Lemma quiet_recovering P {A} (h : string -> M A) (m : M A) : on_locks P -> quiet P m -> (forall c, quiet P (h c)) -> quiet P (recovering h m).
Proof.
  intros HP Hm Hh s Hs. specialize (Hm s Hs). unfold recovering. destruct (m s) as [[a|c|] s1]; [done| |done].
  assert (HP1 : P s1) by (apply (HP s s1); [apply Hm|done]). specialize (Hh c s1 HP1). destruct (h c s1) as [[b|d|] s2]; try done; by etrans.
Qed.
(** A section under a lock gives it back however it ends. *)
Lemma quiet_locked {A} (m : M A) : quiet always m -> quiet free (locked m).
Proof.
  intros Hm s Hs. unfold free, locks in Hs. injection Hs as Hr Hl. unfold locked, Lock, mbind, M_bind. rewrite Hr. unfold deferring.
  specialize (Hm (set_runLock true s) I). destruct (m _) as [[a|c|] s1]; [| |done]; destruct Hm as (H1 & H2 & H3);
    (repeat split; [|exact H2|exact H3]); unfold locks in *; cbn in *; congruence.
Qed.
Lemma quiet_log_locked {A} (m : M A) : quiet always m -> quiet free (log_locked m).
Proof.
  intros Hm s Hs. unfold free, locks in Hs. injection Hs as Hr Hl. unfold log_locked, Lock_log, mbind, M_bind. rewrite Hl. unfold deferring.
  specialize (Hm (set_logMux true s) I). destruct (m _) as [[a|c|] s1]; [| |done]; destruct Hm as (H1 & H2 & H3);
    (repeat split; [|exact H2|exact H3]); unfold locks in *; cbn in *; congruence.
Qed.
Lemma quiet_each P {A} (f : A -> M unit) l : on_locks P -> (forall a, quiet P (f a)) -> quiet P (each f l).
Proof. intros HP Hf. induction l; cbn; [apply quiet_ret|]. apply quiet_bind; auto. Qed.
Lemma quiet_when_some P {A} (o : option A) f : (forall a, quiet P (f a)) -> quiet P (when_some o f).
Proof. intros H. destruct o; cbn; [done|apply quiet_ret]. Qed.

(** *** Answering *)

Lemma told_after r : after_same (told r).
Proof. intros a b c (L1&S1&O1) (L2&O2&code&data&S2). repeat split; [congruence..|]. exists code, data. by rewrite S2, S1. Qed.
Lemma answered_after r : after_same (answered r).
Proof. intros a b c Hs [H|(L&S_&O_)]; [left; by eapply told_after|right]. destruct Hs as (L1&S1&O1). repeat split; congruence. Qed.

Lemma send_returns r s : exists s', send r s = (Ret tt, s') /\ locks s' = locks s /\ owed s' = owed s /\ sent s' = sent s ++ [r].
Proof.
  unfold send, mbind, M_bind, modify, deliverSync. cbn. destruct (r_Port r >? -1000).
  - destruct (Json r) as [data|]; [|by eexists]. unfold call. cbn.
    destruct (post_returns (r_Port r) data (world s)) as (b & w' & ->). destruct b; [by eexists|]. destruct (bool_decide _); by eexists.
  - destruct (bool_decide _); by eexists.
Qed.
Lemma surely_success P r data : surely P (told r) (success r data).
Proof. intros s _. destruct (send_returns (with_answer 0 data r) s) as (s' & Hm & HL & HO & HS). exists s'. repeat split; [done..|by eexists _, _]. Qed.
Lemma surely_error P r data : surely P (told r) (error r data).
Proof. intros s _. destruct (send_returns (with_answer (-1) data r) s) as (s' & Hm & HL & HO & HS). exists s'. repeat split; [done..|by eexists _, _]. Qed.
Lemma surely_go P t r : owes t = Some r -> surely P (answered r) (go t).
Proof. intros H s _. eexists. split; [done|]. right. repeat split. unfold owed. cbn. rewrite omap_app. cbn. by rewrite H. Qed.
Lemma surely_answered P r m : surely P (told r) m -> surely P (answered r) m.
Proof. intros H s Hs. destruct (H s Hs) as (s' & Hm & HT). exists s'. split; [done|by left]. Qed.
Lemma surely_achieves P Q m : surely P Q m -> achieves P Q m.
Proof. intros H s Hs. destruct (H s Hs) as (s' & -> & HQ). done. Qed.
Lemma achieves_weaken (P P' : Core -> Prop) Q m : (forall s, P' s -> P s) -> achieves P Q m -> achieves P' Q m.
Proof. intros HP Hm s Hs. by apply Hm, HP. Qed.
Lemma achieves_panic P Q cause : achieves P Q (panic cause).
Proof. intros s _. cbn. reflexivity. Qed.
Lemma achieves_bind P Q {A} (m : M A) (k : A -> M unit) :
  on_locks P -> after_same Q -> quiet P m -> (forall a, achieves P Q (k a)) -> achieves P Q (m ≫= k).
Proof.
  intros HP HQ Hm Hk s Hs. specialize (Hm s Hs). unfold mbind, M_bind. destruct (m s) as [[a|c|] s1]; [|done|done].
  assert (HP1 : P s1) by (apply (HP s s1); [apply Hm|done]). specialize (Hk a s1 HP1).
  destruct (k a s1) as [[b|c|] s2]; [by eapply HQ|by etrans|done].
Qed.
Lemma achieves_locked r m : achieves always (told r) m -> achieves free (told r) (locked m).
Proof.
  intros Hm s Hs. unfold free, locks in Hs. injection Hs as Hr Hl. unfold locked, Lock, mbind, M_bind. rewrite Hr. unfold deferring.
  specialize (Hm (set_runLock true s) I). destruct (m _) as [[a|c|] s1]; [| |done];
    [destruct Hm as (H1 & H2 & H3)|destruct Hm as (H1 & H2 & H3)]; (repeat split; [|try exact H2; try exact H3..]); unfold locks in *; cbn in *; congruence.
Qed.
Lemma surely_recoverGoFn P r name fn m :
  on_locks P -> achieves P (told r) m -> (forall c, surely P (told r) (fn c)) -> surely P (told r) (recoverGoFn name fn m).
Proof.
  intros HP Hm Hf s Hs. specialize (Hm s Hs). unfold recoverGoFn, recovering. destruct (m s) as [[[]|c|] s1]; [by exists s1| |done].
  unfold log_line, modify, mbind, M_bind. cbn. set (s2 := add_logged _ s1). assert (H2 : same s s2) by (by etrans; [exact Hm|]).
  destruct (Hf ("panic: " +:+ name +:+ ": " +:+ c) s2) as (s3 & E & HT); [apply (HP s s2); [apply H2|done]|].
  exists s3. split; [exact E|by eapply told_after].
Qed.
End Answers.

Create HintDb bridge.
#[export] Hint Resolve on_locks_free on_locks_always told_after answered_after quiet_ret quiet_panic quiet_gets quiet_call quiet_log quiet_locked quiet_log_locked
  quiet_recovering quiet_each surely_success surely_error surely_go surely_answered surely_achieves achieves_panic : bridge.

(** Follows the shape of a handler. *)
Ltac bridge_step :=
  match goal with
  | |- on_locks _ => first [assumption | apply on_locks_free | apply on_locks_always]
  | |- after_same _ => first [apply told_after | apply answered_after]
  | |- forall _, _ => intros ?
  | |- quiet _ (mret _) => apply quiet_ret
  | |- quiet _ (_ ≫= _) => apply quiet_bind
  | |- quiet _ (call _) => apply quiet_call
  | |- quiet _ (gets _) => apply quiet_gets
  | |- quiet _ (panic _) => apply quiet_panic
  | |- quiet _ (log_line _ _) => apply quiet_log
  | |- quiet _ (modify _) => apply quiet_modify; intros ?; done
  | |- quiet _ (each _ _) => apply quiet_each
  | |- quiet _ (when_some _ _) => apply quiet_when_some
  | |- quiet free (locked _) => apply quiet_locked
  | |- quiet free (log_locked _) => apply quiet_log_locked
  | |- quiet _ (recovering _ _) => apply quiet_recovering
  | |- quiet _ ?m => solve [auto with bridge]
  | |- quiet _ (go _) => apply quiet_go; done
  | |- achieves _ _ (panic _) => apply achieves_panic
  | |- achieves _ _ (success _ _) => first [apply surely_achieves, surely_success | apply surely_achieves, surely_answered, surely_success]
  | |- achieves _ _ (error _ _) => first [apply surely_achieves, surely_error | apply surely_achieves, surely_answered, surely_error]
  | |- achieves _ _ (go _) => apply surely_achieves, surely_go; done
  | |- achieves free _ (locked _) => apply achieves_locked
  | |- achieves _ _ (_ ≫= _) => apply achieves_bind
  | |- context [match ?x with _ => _ end] => destruct x
  end.
Ltac bridge := repeat bridge_step.

Section Handlers.
Context `{Env : BridgeEnv} {Laws : BridgeLaws}.

(** ** Handlers answer nobody by themselves *)

Lemma quiet_proxies P : on_locks P -> quiet P proxiesWithProviders.
Proof. intros HP. unfold proxiesWithProviders. bridge. Qed.
Lemma quiet_config P : on_locks P -> quiet P the_config.
Proof. intros HP. unfold the_config. bridge. Qed.
Lemma quiet_updateListeners P : on_locks P -> quiet P updateListeners.
Proof. intros HP. unfold updateListeners. bridge. Qed.
#[local] Hint Resolve quiet_proxies quiet_config quiet_updateListeners : bridge.
Lemma quiet_patchSelectGroup P mapping : on_locks P -> quiet P (patchSelectGroup mapping).
Proof. intros HP. unfold patchSelectGroup. bridge. Qed.
Lemma quiet_descriptions P raw : on_locks P -> quiet P (extractProxyDescriptionsFromRaw raw).
Proof. intros HP. unfold extractProxyDescriptionsFromRaw. bridge. Qed.
Lemma quiet_store P f : quiet P (store f).
Proof. by apply quiet_modify. Qed.
#[local] Hint Resolve quiet_patchSelectGroup quiet_descriptions quiet_store : bridge.
Lemma quiet_update_tun P t : on_locks P -> quiet P (update_tun t).
Proof. intros HP. unfold update_tun. bridge. Qed.
#[local] Hint Resolve quiet_update_tun : bridge.
Lemma quiet_updateConfig params : quiet free (updateConfig params).
Proof. unfold updateConfig. bridge. Qed.
Lemma quiet_setupConfig params : quiet free (setupConfig params).
Proof. unfold setupConfig. bridge. Qed.
#[local] Hint Resolve quiet_updateConfig quiet_setupConfig : bridge.
Lemma quiet_handleSetupConfig bytes : quiet free (handleSetupConfig bytes).
Proof.
  unfold handleSetupConfig. destruct (json_SetupParams _ bytes) as [err|params]; [|bridge].
  apply quiet_bind; [bridge|bridge|intros _].
  intros s Hs. unfold free, locks in Hs. injection Hs as Hr Hl. unfold Lock, Unlock, gets, modify, mbind, M_bind. rewrite Hr. cbn.
  destruct (currentConfig s); cbn; [repeat split; unfold locks; cbn; congruence|].
  set (s1 := set_runLock false _). assert (Hs1 : same s s1) by (repeat split; unfold locks; cbn; congruence).
  pose proof (quiet_setupConfig defaultSetupParams s1) as H. unfold free in H. rewrite (proj1 Hs1) in H. unfold locks in H. rewrite Hr, Hl in H.
  specialize (H eq_refl). destruct (setupConfig defaultSetupParams s1) as [[a|c|] s2]; cbn; [by etrans|by etrans|done].
Qed.
#[local] Hint Resolve quiet_handleSetupConfig : bridge.

Lemma quiet_proxy_views P l : on_locks P -> quiet P (proxy_views l).
Proof. intros HP. induction l as [|[name proxy] l IH]; cbn; [bridge|]. unfold proxy_view. repeat (bridge_step || apply IH). Qed.
Lemma quiet_getExternalProvidersRaw P : on_locks P -> quiet P getExternalProvidersRaw.
Proof. intros HP. unfold getExternalProvidersRaw. bridge. Qed.
Lemma quiet_string_of P v : quiet P (string_of v).
Proof. unfold string_of. bridge. Qed.
#[local] Hint Resolve quiet_proxy_views quiet_getExternalProvidersRaw quiet_string_of : bridge.

Ltac handler := unfold handleInitClash, handleGetIsInit, handleForceGc, handleShutdown, handleValidateConfig, handleUpdateConfig, handleGetProxies,
  handleGetTraffic, handleGetTotalTraffic, handleResetTraffic, handleGetConnections, handleCloseConnections, closeConnections,
  handleResetConnections, handleGetConfig, handleCloseConnection, handleGetExternalProviders, handleGetExternalProvider, handleStartLog, handleStopLog,
  handleStartListener, handleStopListener, handleSetState, handleUpdateDns, runGuarded, handleGetAndroidVpnOptions, handleGetCurrentProfileName; bridge.

Lemma quiet_handlers :
  (forall d, quiet free (handleInitClash d)) /\ quiet free handleGetIsInit /\ quiet free handleForceGc /\ quiet free handleShutdown /\
  (forall d, quiet free (handleValidateConfig d)) /\ (forall d, quiet free (handleUpdateConfig d)) /\ quiet free handleGetProxies /\
  quiet free handleGetTraffic /\ quiet free handleGetTotalTraffic /\ quiet free handleResetTraffic /\ quiet free handleGetConnections /\
  quiet free handleCloseConnections /\ quiet free handleResetConnections /\ (forall d, quiet free (handleGetConfig d)) /\
  (forall d, quiet free (handleCloseConnection d)) /\ quiet free handleGetExternalProviders /\ (forall d, quiet free (handleGetExternalProvider d)) /\
  quiet free handleStartLog /\ quiet free handleStopLog /\ quiet free handleStartListener /\ quiet free handleStopListener /\
  (forall d, quiet free (handleSetState d)) /\ (forall d, quiet free (handleUpdateDns d)) /\ quiet free handleGetAndroidVpnOptions /\ quiet free handleGetCurrentProfileName.
Proof. repeat match goal with |- _ /\ _ => split end; handler. Qed.

(** ** Goroutines *)

Lemma lock_first name fn body s : runLock s = false ->
  (Lock ≫= fun _ => recoverGoFn name fn (deferring Unlock body)) s = recoverGoFn name fn (locked body) s.
Proof. intros Hr. unfold locked, recoverGoFn, recovering, Lock, mbind, M_bind. by rewrite Hr. Qed.
Ltac task := repeat (bridge_step || apply surely_recoverGoFn || apply surely_success).

Lemma surely_gets P Q {A} (f : Core -> A) (k : A -> M unit) : (forall a, surely P Q (k a)) -> surely P Q (gets f ≫= k).
Proof. intros H s Hs. apply (H (f s) s Hs). Qed.
Lemma change_proxy_tells data r : surely free (told r) (change_proxy data (fun v => success r (DStr v))).
Proof.
  assert (Hgen : surely free (told r) (recoverGoFn "handleChangeProxy" (fun v => success r (DStr v)) (locked (choose_proxy data (fun v => success r (DStr v))))))
    by (unfold choose_proxy; task).
  intros s Hs. destruct (Hgen s Hs) as (s' & E & HT). exists s'. split; [|done]. rewrite <- E. apply lock_first. unfold free, locks in Hs. congruence.
Qed.
Lemma task_tells t r : owes t = Some r -> surely free (told r) (run_task t).
Proof.
  destruct t; cbn [owes run_task]; intros H; try (injection H as ->); try done.
  - apply change_proxy_tells.
  - apply surely_gets. intros url. task.
  - unfold update_geo_data. task.
  - unfold update_provider, with_provider. task.
  - unfold side_load_provider, with_provider, sideUpdateExternalProvider. task.
  - unfold get_country_code. task.
  - unfold get_memory. task.
Qed.

(** ** Dispatch *)

(** The handlers of Android say whether they answered. *)
Lemma next_answers action result runTime k : surely free (told result) k ->
  achieves free (answered result) (handled ← nextHandle runTime action result; if handled : bool then mret tt else k).
Proof.
  destruct quiet_handlers as (_&_&_&_&_&_&_&_&_&_&_&_&_&_&_&_&_&_&_&_&_&_& Hdns & Hvpn & Hname).
  intros Hk. assert (Hdone : forall data, achieves free (answered result) ((success result data ≫= fun _ => mret true) ≫= fun handled : bool => if handled then mret tt else k)).
  { intros data s Hs. destruct (surely_success free result data s Hs) as (s' & E & HT). unfold mbind, M_bind. rewrite E. by left. }
  assert (Hno : achieves free (answered result) (mret false ≫= fun handled : bool => if handled then mret tt else k)).
  { intros s Hs. unfold mbind, M_bind, mret, M_ret. destruct (Hk s Hs) as (s' & E & HT). rewrite E. by left. }
  assert (Hassoc : forall A (m : M A) (f : A -> M bool) (g : bool -> M unit) s, ((m ≫= f) ≫= g) s = (m ≫= fun a => f a ≫= g) s).
  { intros A m f g s. unfold mbind, M_bind. by destruct (m s) as [[a|c|] s1]. }
  assert (Hafter : forall A (m : M A) (f : A -> M bool), quiet free m ->
    (forall a, achieves free (answered result) (f a ≫= fun handled : bool => if handled then mret tt else k)) ->
    achieves free (answered result) ((m ≫= f) ≫= fun handled : bool => if handled then mret tt else k)).
  { intros A m f Hm Hf s Hs. rewrite Hassoc. by apply (achieves_bind free (answered result) m); [apply on_locks_free|apply answered_after|..]. }
  unfold nextHandle. destruct (negb _); [apply Hno|]. destruct (String.eqb _ _); [apply Hafter; [apply Hvpn|intros; apply Hdone]|].
  destruct (String.eqb _ _); [apply Hafter; [apply quiet_string_of|intros d; apply Hafter; [apply Hdns|intros; apply Hdone]]|].
  destruct (String.eqb _ _); [apply Hdone|]. destruct (String.eqb _ _); [apply Hafter; [apply Hname|intros; apply Hdone]|apply Hno].
Qed.

Lemma methods_answer action result name m : (name, m) ∈ methods action result -> name <> crashMethod -> achieves free (answered result) m.
Proof.
  pose proof quiet_handlers as Hq. intros Hin Hname. unfold methods in Hin.
  repeat match goal with H : _ /\ _ |- _ => destruct H end.
  repeat (apply elem_of_cons in Hin as [[= -> ->]|Hin]; [first [done | repeat (bridge_step || assumption || (apply surely_achieves, surely_go; reflexivity) || match goal with H : forall _, quiet _ _ |- quiet _ _ => apply H end)]|]).
  by apply elem_of_nil in Hin.
Qed.
Lemma find_method_in method l m : find_method method l = Some m -> (method, m) ∈ l.
Proof.
  induction l as [|[n k] l IH]; cbn; [done|]. destruct (String.eqb_spec n method) as [->|]; [intros [= ->]; by left|]. intros H. right. by apply IH.
Qed.


(** ** A rejected configuration *)

(** The payload is no JSON of the right shape, or its configuration does not parse. *)
Definition rejected (bytes : string) (s : Core) : Prop :=
  (exists err, json_SetupParams defaultSetupParams bytes = inl err) \/
  (exists params err w, json_SetupParams defaultSetupParams bytes = inr params /\ env_call (ParseRawConfig (sp_Config params)) (world s) = (inr (inl err), w)).
(** a payload that is rejected is answered with its error and leaves the running configuration, the listeners and everything below
    alone: nothing is called but the parser. *)
Lemma rejected_setup_keeps_running bytes s c : free s -> currentConfig s = Some c -> rejected bytes s ->
  exists err s', handleSetupConfig bytes s = (Ret err, s') /\ currentConfig s' = Some c /\ proxyDescriptions s' = proxyDescriptions s /\
    isRunning s' = isRunning s /\ started s' = started s /\ free s' /\ (calls s' = calls s \/ exists raw, calls s' = calls s ++ [mkEvent _ (ParseRawConfig raw)]).
Proof.
  unfold free, locks. intros Hs Hc [[err E]|(params & err & w & E & Hp)]; injection Hs as Hr Hl; unfold handleSetupConfig; rewrite E.
  - unfold log_line, Lock, gets, modify, mbind, M_bind. cbn. rewrite Hr. cbn. rewrite Hc. cbn. do 2 eexists. split; [reflexivity|]. cbn.
    rewrite Hl. do 5 (split; [done|]). by left.
  - unfold setupConfig, locked, Lock, call, gets, modify, deferring, Unlock, mbind, M_bind. rewrite Hr. cbn. rewrite Hp. cbn. rewrite Hc. cbn.
    do 2 eexists. split; [reflexivity|]. cbn. rewrite Hl. do 5 (split; [done|]). right. by eexists.
Qed.

(** ** Log lines *)

(** Passing a log line on to the front end makes no log line, even when no port is attached or the port refuses the message: a
    dropped line cannot feed on itself. *)
Lemma log_pump_silent threshold line s : exists s', log_pump threshold line s = (Ret tt, s') /\ logged s' = logged s.
Proof.
  unfold log_pump, recoverGo, recovering. destruct (_ <? _); [by eexists|]. unfold sendMessage, gets, mbind, M_bind. destruct (_ =? -1); [by eexists|].
  unfold send, deliverSync, modify, mbind, M_bind, call. cbn. destruct (_ >? _); [|destruct (bool_decide _); by eexists].
  destruct (Json _) as [data|]; [|by eexists]. cbn. destruct (post_returns (messagePort s) data (world s)) as (b & w & ->). destruct b; by eexists.
Qed.

(** ** Providers *)

(** Side-loading refuses every rule provider. *)
Lemma side_load_refuses_rules name data fn s p : free s -> externalProviders s !! name = Some p -> pv_kind p = KindRuleSet ->
  side_load_provider name data fn s = recoverGoFn "handleSideLoadExternalProvider" fn (locked (fn "not external provider")) s.
Proof.
  intros Hs Hp Hk. unfold free, locks in Hs. injection Hs as Hr Hl.
  unfold side_load_provider, with_provider, recoverGoFn, recovering, locked, Lock, deferring, gets, mbind, M_bind. rewrite Hr. cbn. rewrite Hp.
  unfold sideUpdateExternalProvider. by rewrite Hk.
Qed.
(** What the front end asks for with [allow-lan] is dropped. *)
Lemma updateConfig_ignores_AllowLan p v s :
  updateConfig (mkUpdateParams (up_Tun p) v (up_MixedPort p) (up_FindProcessMode p) (up_Mode p) (up_LogLevel p) (up_IPv6 p) (up_Sniffing p)
    (up_TCPConcurrent p) (up_ExternalController p) (up_Interface p) (up_UnifiedDelay p)) s = updateConfig p s.
Proof. done. Qed.
(** An answer without JSON is not posted: the caller waits. *)
Lemma answer_without_json_lost r data s : Json (with_answer 0 data r) = None -> r_Port r > -1000 ->
  exists s', success r data s = (Ret tt, s') /\ posted s' = posted s /\ delivered s' = delivered s.
Proof.
  intros HJ HP. unfold success, send, deliverSync, modify, mbind, M_bind. cbn. rewrite (proj2 (Z.gtb_lt _ _)) by lia. cbn in *. rewrite HJ. by eexists.
Qed.
End Handlers.

(** ** The theorems at work *)

#[global] Instance plain_laws p (broken : forall A : Type, Call A -> bool) : (forall port msg, broken bool (SendToPort port msg) = false) -> BridgeLaws (Env := bridge_env p broken).
Proof. intros H. constructor. intros port msg w. cbn. unfold plain_call. rewrite H. by eexists _, _. Qed.
(** A core that runs, with a port attached. *)
Definition running_core (e : BridgeEnv) (w : @W e) : @Core e :=
  @mkCore e true 1 true (Some plain_config) ∅ None ∅ (mkFrontState false "" false 0) "" false false 5 ∅ (-1000) ∅ [] [] [] [] [] w.
(** The parser panics, and the answer says so. *)
Definition broken_setup : Out unit * @Core (bridge_env Android parser_broken) :=
  @handleAction (bridge_env Android parser_broken) None (mkAction "7" "setupConfig" (VStr "{}")) (mkActionResult "7" "setupConfig" DNil 0 100)
    (running_core (bridge_env Android parser_broken) tt).
(** A broken payload while the tunnel runs. *)
Lemma rejected_setup_keeps_running_witness :
  exists err s', handleSetupConfig "null" (set_currentConfig (Some plain_config) (set_isRunning true (fresh_core 5))) = (Ret err, s') /\
    currentConfig s' = Some plain_config /\ isRunning s' = true.
Proof.
  destruct (rejected_setup_keeps_running "null" (set_currentConfig (Some plain_config) (set_isRunning true (fresh_core 5))) plain_config) as (err & s' & E & Hc & _ & Hr & _).
  - reflexivity.
  - reflexivity.
  - right. eexists _, _, _. split; reflexivity.
  - exists err, s'. split; [exact E|]. split; [exact Hc|exact Hr].
Defined.
(** A port that refuses every message. *)
Definition refusing_env : BridgeEnv :=
  let e := bridge_env Desktop nothing_broken in
  {| W := unit; env_call := fun A c w => (inr (match c in Call B return B -> B with SendToPort _ _ => fun _ => false | _ => fun a => a end (plain_answer c)), w);
     platform := Desktop; json_InitParams := @json_InitParams e; json_UpdateParams := @json_UpdateParams e; json_SetupParams := @json_SetupParams e;
     json_ChangeProxyParams := @json_ChangeProxyParams e; json_TestDelayParams := @json_TestDelayParams e; json_StringMap := @json_StringMap e;
     json_State := @json_State e; json_Action := @json_Action e; json_Object := @json_Object e; Json := @Json e; json_Delay := @json_Delay e;
     json_StartListenerResult := @json_StartListenerResult e; json_Traffic := @json_Traffic e; json_ExternalProviders := @json_ExternalProviders e;
     json_ExternalProvider := @json_ExternalProvider e; DefaultRawConfig := plain_raw |}.
Lemma refusing_laws : BridgeLaws (Env := refusing_env).
Proof. constructor. intros port msg w. by eexists _, _. Qed.
Lemma log_pump_silent_witness :
  let r := @log_pump refusing_env 1 (2, "dial failed") (running_core refusing_env tt) in
  fst r = Ret tt /\ logged (snd r) = [] /\ length (sent (snd r)) = 1%nat.
Proof.
  intros r. destruct (@log_pump_silent refusing_env refusing_laws 1 (2, "dial failed") (running_core refusing_env tt)) as (s' & E & HL).
  change (r = (Ret tt, s')) in E. rewrite E. split; [reflexivity|]. split; [exact HL|].
  assert (s' = snd r) as -> by (by rewrite E). vm_compute. reflexivity.
Defined.
