(* ===== verification/BridgeTun.v ===== *)
(** * The bridge: the tunnel of Android

    [core/lib_android.go]: one worker takes start and stop requests in the order they
    came, opens and closes the tunnel, and repairs what a panic leaves.  The second half
    proves that [runTime], which the front end polls, never claims a dead tunnel, that
    every start is announced once, and what is released how often. *)

From S2P Require Import Prelude Names GoText Bridge.
#[local] Open Scope string_scope.
#[local] Open Scope Z_scope.
#[local] Open Scope list_scope.

(** ** State *)

(** [callback] is the global reference of the service, [None] once it is released.
    @go core/lib_android.go:30-35 TunHandler *)
Record TunHandler := mkTunHandler { th_listener : option Z; th_callback : option Z }.
(** @go core/lib_android.go:103-107 tunOp *)
Record tunOp := mkTunOp { op_start : bool; op_fd : Z; op_callback : Z }.
(** The message of type [tun] sent to the front end. *)
Inductive TunStatus := StatusReady | StatusError (message : string).
(** [hooks]: the socket hook and the resolver of package names are installed.
    [released] and [closed] list the references given back and the listeners closed,
    [opened] counts the listeners made.
    @go core/lib_android.go:96-101 runTime *)
Record TunState := mkTunState {
  runTime : option Z; tunHandler : option TunHandler; hooks : bool;
  released : list Z; closed : list Z; opened : Z; messages : list TunStatus }.
Definition tun_init : TunState := mkTunState None None false [] [] 0 [].

(** What the system does during an operation: whether the calls in flight ended within
    three seconds, whether closing the old listener panics, what [t.Start] returns, and
    the time. *)
Inductive StartOutcome := StartOk | StartErr (text : string) | StartNil | StartPanic (cause : string).
Record TunEnv := mkTunEnv { drained : bool; close_panics : option string; start_outcome : StartOutcome; now : Z }.

Definition ts_set_runTime t s := mkTunState t (tunHandler s) (hooks s) (released s) (closed s) (opened s) (messages s).
Definition ts_set_handler h s := mkTunState (runTime s) h (hooks s) (released s) (closed s) (opened s) (messages s).
Definition ts_set_hooks b s := mkTunState (runTime s) (tunHandler s) b (released s) (closed s) (opened s) (messages s).
Definition ts_release o s := mkTunState (runTime s) (tunHandler s) (hooks s) (released s ++ match o with Some c => [c] | None => [] end) (closed s) (opened s) (messages s).
Definition ts_close o s := mkTunState (runTime s) (tunHandler s) (hooks s) (released s) (closed s ++ (match o with Some l => [l] | None => [] end)) (opened s) (messages s).
Definition ts_open s := mkTunState (runTime s) (tunHandler s) (hooks s) (released s) (closed s) (opened s + 1) (messages s).
Definition ts_announce m s := mkTunState (runTime s) (tunHandler s) (hooks s) (released s) (closed s) (opened s) (messages s ++ [m]).

(** ** Operations *)

(** The state after an operation, or after the panic that ended it. *)
Definition TunResult : Type := TunState + (string * TunState).

(** [initTunHook] and [removeTunHook].
    @go core/lib_android.go:221-242 initTunHook *)
Definition initTunHook : TunState -> TunState := ts_set_hooks true.
(** @go core/lib_android.go:239-242 removeTunHook *)
Definition removeTunHook : TunState -> TunState := ts_set_hooks false.
(** When calls are still in flight after three seconds the reference is kept, for
    them not to use a freed one.
    @go core/lib_android.go:37-62 close *)
Definition tun_close (e : TunEnv) (h : TunHandler) (s : TunState) : TunResult :=
  let s := removeTunHook s in
  let s := ts_close (th_listener h) s in
  match th_listener h, close_panics e with
  | Some _, Some cause => inr (cause, s)
  | _, _ =>
      if drained e then inl (ts_set_handler (Some (mkTunHandler None None)) (ts_release (th_callback h) s))
      else inl s
  end.
(** @go core/lib_android.go:152-159 handleStopTun *)
Definition handleStopTun (e : TunEnv) (s : TunState) : TunResult :=
  let s := ts_set_runTime None s in
  match tunHandler s with Some h => tun_close e h s | None => inl s end.
(** @go core/lib_android.go:161-212 handleStartTun *)
Definition handleStartTun (e : TunEnv) (fd callback : Z) (s : TunState) : TunResult :=
  match handleStopTun e s with
  | inr p => inr p
  | inl s =>
      let s := ts_set_runTime (Some (now e)) s in
      if fd <=? 0 then inl (ts_announce (StatusError ("invalid fd " +:+ FormatInt fd)) s)
      else
        let s := initTunHook (ts_set_handler (Some (mkTunHandler None (Some callback))) s) in
        let failed errMsg :=
          inl (ts_announce (StatusError errMsg) (ts_set_handler None (ts_release (Some callback) (removeTunHook (ts_set_runTime None s))))) in
        match start_outcome e with
        | StartPanic cause => inr (cause, s)
        | StartErr text => failed text
        | StartNil => failed "tun listener is nil"
        | StartOk => inl (ts_announce StatusReady (ts_set_handler (Some (mkTunHandler (Some (opened s)) (Some callback))) (ts_open s)))
        end
  end.
(** The cause [recoverGoFn] hands to the repair.
    @go core/lib_android.go:119-150 init *)
Definition tun_turn (op : tunOp) (e : TunEnv) (s : TunState) : TunState :=
  match (if op_start op then handleStartTun e (op_fd op) (op_callback op) s else handleStopTun e s) with
  | inl s => s
  | inr (cause, s) =>
      let '(repair, message) := tunPanicRepair (op_start op) ("panic: tunWorker: " +:+ cause) in
      if repair then ts_announce (StatusError message) (ts_set_runTime None s) else s
  end.
(** The worker: requests in the order of the channel.
    @go core/lib_android.go:109-150 tunOps *)
Definition tun_worker (turns : list (tunOp * TunEnv)) (s : TunState) : TunState := fold_left (fun s t => tun_turn (fst t) (snd t) s) turns s.

(** ** What the front end may believe *)

(** The tunnel of the current handler is open, and sockets are protected by it. *)
Definition live (s : TunState) : Prop :=
  exists l c, tunHandler s = Some (mkTunHandler (Some l) (Some c)) /\ (l ∉ closed s) /\ hooks s = true.
Definition starts (turns : list (tunOp * TunEnv)) : list Z := map (fun t => op_callback (fst t)) (List.filter (fun t => op_start (fst t)) turns).

(** [seen] are the references handed over so far. *)
Record tun_inv (seen : list Z) (s : TunState) : Prop := {
  ti_listener h l : tunHandler s = Some h -> th_listener h = Some l -> l < opened s;
  ti_closed : Forall (fun l => l < opened s) (closed s);
  ti_released : NoDup (released s) /\ Forall (fun c => c ∈ seen) (released s);
  ti_callback h c : tunHandler s = Some h -> th_callback h = Some c -> c ∈ seen /\ c ∉ released s }.

Lemma tun_inv_more seen c s : tun_inv seen s -> tun_inv (seen ++ [c]) s.
Proof.
  intros [H1 H2 [H3 H4] H5]. split; [done|done| |].
  - split; [done|]. eapply Forall_impl; [exact H4|]. intros x Hx. apply elem_of_app. by left.
  - intros h x Hh Hx. destruct (H5 h x Hh Hx). split; [|done]. apply elem_of_app. by left.
Qed.
Lemma tun_inv_time seen s t b : tun_inv seen s -> tun_inv seen (ts_set_hooks b (ts_set_runTime t s)).
Proof. intros []. by split. Qed.

Definition result_state (r : TunResult) : TunState := match r with inl s | inr (_, s) => s end.

Lemma stop_spec seen e s : tun_inv seen s ->
  let s' := result_state (handleStopTun e s) in tun_inv seen s' /\ runTime s' = None /\ messages s' = messages s /\ opened s' = opened s.
Proof.
  intros HI. unfold handleStopTun. destruct s as [rt [h|] hk rel cl op ms]; cbn; [|by split; [apply (tun_inv_time _ _ None hk) in HI|]].
  destruct HI as [H1 H2 [H3 H4] H5]; cbn in *.
  assert (Hcl : Forall (fun l => l < op) (cl ++ match th_listener h with Some l => [l] | None => [] end)).
  { apply Forall_app. split; [done|]. destruct (th_listener h) as [l|] eqn:El; [|done]. constructor; [by apply (H1 h)|done]. }
  assert (Hkeep : tun_inv seen (mkTunState None (Some h) false rel (cl ++ match th_listener h with Some l => [l] | None => [] end) op ms)) by (by split).
  assert (Hdone : tun_inv seen (mkTunState None (Some (mkTunHandler None None)) false (rel ++ match th_callback h with Some c => [c] | None => [] end)
      (cl ++ match th_listener h with Some l => [l] | None => [] end) op ms)).
  { split; cbn; [by intros ? ? [= <-]|done| |by intros ? ? [= <-]]. destruct (th_callback h) as [c|] eqn:Ec; [|by rewrite app_nil_r].
    destruct (H5 h c eq_refl Ec) as [Hin Hnot]. split; [|by apply Forall_app; repeat constructor].
    apply NoDup_app. repeat split; [done|intros x Hx ->%list_elem_of_singleton; done|apply NoDup_singleton]. }
  unfold tun_close. cbn. destruct (th_listener h) as [l|]; [destruct (close_panics e)|]; [by split|destruct (drained e)..]; by split.
Qed.

(** What one request does to the state, and what it announces. *)
Definition turn_told (op : tunOp) (e : TunEnv) (s s' : TunState) : Prop :=
  if op_start op then
    exists m, messages s' = messages s ++ [m] /\
      match runTime s' with
      | Some t => t = now e /\ (op_fd op <= 0 /\ m = StatusError ("invalid fd " +:+ FormatInt (op_fd op)) \/ live s' /\ m = StatusReady)
      | None => exists text, m = StatusError text
      end
  else messages s' = messages s /\ runTime s' = None.

Lemma repair_speaks start cause : start = true -> exists text, tunPanicRepair start cause = (true, text).
Proof. intros ->. unfold tunPanicRepair. cbn. destruct (String.eqb _ _); by eexists. Qed.

Lemma turn_spec seen op e s : tun_inv seen s -> (op_start op = true -> op_callback op ∉ seen) ->
  let s' := tun_turn op e s in tun_inv (if op_start op then seen ++ [op_callback op] else seen) s' /\ turn_told op e s s'.
Proof.
  intros HI Hfresh. pose proof (stop_spec seen e s HI) as (HI1 & Hr & Hm & Ho). unfold tun_turn, turn_told. destruct (op_start op) eqn:Eop.
  - unfold handleStartTun. destruct (handleStopTun e s) as [s1|[cause s1]] eqn:E1; cbn [result_state] in *.
    2: { destruct (repair_speaks true ("panic: tunWorker: " +:+ cause) eq_refl) as [text ->]. split.
         - apply tun_inv_more. destruct HI1. by split.
         - exists (StatusError text). cbn. rewrite Hm. split; [done|]. by eexists. }
    assert (HI2 : tun_inv (seen ++ [op_callback op]) s1) by (by apply tun_inv_more).
    destruct (op_fd op <=? 0) eqn:Efd.
    { split; [destruct HI2; by split|]. eexists. cbn. rewrite Hm. split; [done|]. split; [done|]. left. split; [lia|done]. }
    assert (Hin : op_callback op ∈ seen ++ [op_callback op]) by (apply elem_of_app; right; by left).
    assert (Hnot : op_callback op ∉ released s1).
    { intros Hx. destruct HI1 as [_ _ [_ H4] _]. rewrite Forall_forall in H4. by apply (Hfresh eq_refl), H4. }
    assert (Hfail : forall text, tun_inv (seen ++ [op_callback op])
        (ts_announce (StatusError text) (ts_set_handler None (ts_release (Some (op_callback op)) (removeTunHook (ts_set_runTime None
           (initTunHook (ts_set_handler (Some (mkTunHandler None (Some (op_callback op)))) (ts_set_runTime (Some (now e)) s1)))))))) ).
    { intros text. destruct HI2 as [H1 H2 [H3 H4] H5]. split; cbn; [done|done| |done]. split; [|by apply Forall_app; repeat constructor].
      apply NoDup_app. repeat split; [done|intros x Hx ->%list_elem_of_singleton; done|apply NoDup_singleton]. }
    destruct (start_outcome e) as [|text| |cause].
    + split.
      * destruct HI2 as [H1 H2 [H3 H4] H5]. split; cbn; [intros h l [= <-] [= <-]; lia| |done|intros h c [= <-] [= <-]; done].
        eapply Forall_impl; [exact H2|cbn; lia].
      * eexists. cbn. rewrite Hm. split; [done|]. split; [done|]. right. split; [|done]. exists (opened s1), (op_callback op). cbn. repeat split.
        intros Hx. destruct HI2 as [_ H2 _ _]. rewrite Forall_forall in H2. specialize (H2 _ Hx). cbn in H2. lia.
    + split; [apply Hfail|]. eexists. cbn. rewrite Hm. split; [done|]. by eexists.
    + split; [apply Hfail|]. eexists. cbn. rewrite Hm. split; [done|]. by eexists.
    + destruct (repair_speaks true ("panic: tunWorker: " +:+ cause) eq_refl) as [text ->]. split.
      * destruct HI2 as [H1 H2 [H3 H4] H5]. split; cbn; [by intros h l [= <-]|done|done|by intros h c [= <-] [= <-]].
      * eexists. cbn. rewrite Hm. split; [done|]. by eexists.
  - destruct (handleStopTun e s) as [s1|[cause s1]]; cbn in *; by split.
Qed.

Lemma worker_inv turns : NoDup (starts turns) -> tun_inv (starts turns) (tun_worker turns tun_init) /\
  length (messages (tun_worker turns tun_init)) = length (starts turns).
Proof.
  induction turns as [|[op e] turns IH] using rev_ind; intros Hnd.
  { split; [|done]. split; cbn; [done|done| |done]. split; [constructor|done]. }
  unfold starts, tun_worker in *. rewrite fold_left_app, List.filter_app, map_app in *. cbn [fold_left fst snd List.filter map] in *.
  apply NoDup_app in Hnd as (Hnd & Hdis & _). destruct (IH Hnd) as [HI HL].
  destruct (turn_spec _ op e _ HI) as [HI' HT].
  { intros Eop Hin. apply (Hdis _ Hin). rewrite Eop. by left. }
  unfold turn_told in HT. destruct (op_start op); cbn [map]; [|rewrite app_nil_r; destruct HT as [HT _]; by rewrite HT].
  split; [exact HI'|]. destruct HT as (m & HT & _). rewrite HT, !length_app, HL. done.
Qed.

(** C2: whatever the system does and however operations fail or panic, after the worker has done the last request of a queue the running
    time is set only for the start just done, and only if its tunnel is open with the hooks in place, or the start asked for no
    tunnel; after a stop it is clear.  Every start sends one message, [ready] exactly in the first case, and no reference to the
    service is released twice or invented. *)
Theorem tun_worker_truth turns op e : NoDup (starts (turns ++ [(op, e)])) ->
  let s := tun_worker turns tun_init in
  let s' := tun_worker (turns ++ [(op, e)]) tun_init in
  turn_told op e s s' /\ length (messages s') = length (starts (turns ++ [(op, e)])) /\
  NoDup (released s') /\ Forall (fun c => c ∈ starts (turns ++ [(op, e)])) (released s').
Proof.
  intros Hnd s s'. destruct (worker_inv _ Hnd) as [[_ _ [HR1 HR2] _] HL]. split; [|done].
  unfold starts in Hnd. rewrite List.filter_app, map_app in Hnd. cbn in Hnd. apply NoDup_app in Hnd as (Hnd & Hdis & _).
  destruct (worker_inv turns Hnd) as [HI _]. subst s'. unfold tun_worker. rewrite fold_left_app. cbn.
  apply (turn_spec (starts turns)); [exact HI|]. intros Eop Hin. apply (Hdis _ Hin). rewrite Eop. by left.
Qed.
(** A start without a tunnel, a real one, and a panic in the middle of a third. *)
Definition tun_day : list (tunOp * TunEnv) :=
  [(mkTunOp true 0 11, mkTunEnv true None StartOk 100); (mkTunOp true 42 12, mkTunEnv true None StartOk 200); (mkTunOp false 0 0, mkTunEnv true None StartOk 300)].
Lemma tun_worker_truth_witness :
  let s' := tun_worker (tun_day ++ [(mkTunOp true 43 13, mkTunEnv true None (StartPanic "") 400)]) tun_init in
  runTime s' = None /\ length (messages s') = 3%nat /\ NoDup (released s').
Proof.
  destruct (tun_worker_truth tun_day (mkTunOp true 43 13) (mkTunEnv true None (StartPanic "") 400)) as (_ & HL & HR & _).
  - apply (bool_decide_unpack _). vm_compute. exact I.
  - split; [reflexivity|]. split; [exact HL|exact HR].
Defined.

(** The reference of a start without a tunnel is never given back. *)
Example proxy_only_leaks : released (tun_worker tun_day tun_init) = [12] /\ starts tun_day = [11; 12].
Proof. vm_compute. done. Qed.
(** Calls in flight for more than three seconds: the listener is closed a second time by the next request. *)
Example closed_twice :
  closed (tun_worker [(mkTunOp true 42 1, mkTunEnv true None StartOk 1); (mkTunOp false 0 0, mkTunEnv false None StartOk 2); (mkTunOp false 0 0, mkTunEnv true None StartOk 3)] tun_init) = [0; 0].
Proof. vm_compute. done. Qed.
