(* ===== verification/BridgeIos.v ===== *)
(** * The bridge: the extension of iOS, and the command line of the desktop core

    Pacing of new connections by the memory left ([core/admission.go]), synchronous
    invocations ([core/sync_sink.go], [iosInvokeAction] of [core/lib_ios.go]), the tunnel
    of the extension, and [parseServerArgs] of [core/server.go]. *)

From stdpp Require Import sorting.
From S2P Require Import Prelude Names GoText ExprValue Bridge.
#[local] Open Scope string_scope.
#[local] Open Scope Z_scope.
#[local] Open Scope list_scope.

(** ** Admission *)

(** @go core/admission.go:12-19 connectionAdmission *)
Record connectionAdmission := mkAdmission { ad_floor : Z; ad_cost : Z; ad_window : Z; recent : list Z }.
(** The connections at the front whose window is over.
    @go core/admission.go:24-27 admit *)
Fixpoint drop_expired (window now : Z) (l : list Z) : list Z :=
  match l with t :: r => if now - t >=? window then drop_expired window now r else l | [] => [] end.
(** Integer division truncates.
    @go core/admission.go:21-34 admit *)
Definition admit_conn (a : connectionAdmission) (available now : Z) : bool * connectionAdmission :=
  let kept := drop_expired (ad_window a) now (recent a) in
  if zlen kept >=? Z.quot (available - ad_floor a) (ad_cost a)
  then (false, mkAdmission (ad_floor a) (ad_cost a) (ad_window a) kept)
  else (true, mkAdmission (ad_floor a) (ad_cost a) (ad_window a) (kept ++ [now])).
(** @go core/lib_ios.go:119-123 iosAdmission *)
Definition iosAdmission : connectionAdmission := mkAdmission (Z.shiftl 1 20) (Z.shiftl 128 10) 1000000000 [].
(** The answer, and whether the memory given back to the system is asked for, at most
    once a second; [last] is the time of the last such request.
    @go core/lib_ios.go:130-142 iosAdmitConnection *)
Definition iosAdmitConnection (a : connectionAdmission) (last available now : Z) : bool * bool * connectionAdmission * Z :=
  if available =? 0 then (true, false, a, last)
  else
    let '(ok, a) := admit_conn a available now in
    if ok then (true, false, a, last)
    else if now - last >=? 1000000000 then (false, true, a, now) else (false, false, a, last).

(** Requests with the memory available and the time, and the times admitted, newest last. *)
Fixpoint admit_all (a : connectionAdmission) (l : list (Z * Z)) : list Z * connectionAdmission :=
  match l with
  | [] => ([], a)
  | (available, now) :: l => let '(ok, a) := admit_conn a available now in let '(adm, a) := admit_all a l in ((if ok then [now] else []) ++ adm, a)
  end.

Lemma drop_expired_filter window now l : Sorted Z.le l -> drop_expired window now l = List.filter (fun t => now - t <? window) l.
Proof.
  intros Hs. apply Sorted_StronglySorted in Hs; [|intros ???; lia]. induction Hs as [|t l Hl IH Ht]; [done|]. cbn.
  destruct (Z.geb_spec (now - t) window) as [H|H].
  - rewrite (proj2 (Z.ltb_ge _ _)) by lia. exact IH.
  - rewrite (proj2 (Z.ltb_lt _ _)) by lia. f_equal. symmetry. rewrite Forall_forall in Ht. clear IH Hl. induction l as [|x l IH]; [done|]. cbn.
    rewrite (proj2 (Z.ltb_lt _ _)) by (specialize (Ht x ltac:(by left)); lia). f_equal. apply IH. intros y Hy. apply Ht. by right.
Qed.

(** The admitted times the window of [now] still holds. *)
Definition in_window (window now : Z) (l : list Z) : list Z := List.filter (fun t => now - t <? window) l.
(** What is known after requests up to the time [upto]. *)
Record admission_inv (floor cost window upto : Z) (adm : list Z) (a : connectionAdmission) : Prop := {
  ai_floor : ad_floor a = floor; ai_cost : ad_cost a = cost; ai_window : ad_window a = window;
  ai_sorted : Sorted Z.le (recent a); ai_upto : Forall (fun t => t <= upto) (recent a);
  ai_window_same : forall now, upto <= now -> in_window window now (recent a) = in_window window now adm }.

Lemma in_window_later window now later l : now <= later -> in_window window later (in_window window now l) = in_window window later l.
Proof.
  intros H. unfold in_window. induction l as [|t l IH]; [done|]. cbn. destruct (Z.ltb_spec (now - t) window) as [H1|H1]; cbn; [by rewrite IH|].
  rewrite (proj2 (Z.ltb_ge (later - t) _)) by lia. exact IH.
Qed.
Lemma Sorted_filter (f : Z -> bool) l : Sorted Z.le l -> Sorted Z.le (List.filter f l).
Proof.
  intros Hs. apply Sorted_StronglySorted in Hs; [|intros ???; lia]. apply StronglySorted_Sorted.
  induction Hs as [|t l Hl IH Ht]; [constructor|]. cbn. destruct (f t); [|done]. constructor; [done|].
  apply Forall_forall. intros x Hx%list_elem_of_In%filter_In. rewrite Forall_forall in Ht. apply Ht, list_elem_of_In, Hx.
Qed.
Lemma Sorted_snoc l t : Sorted Z.le l -> Forall (fun x => x <= t) l -> Sorted Z.le (l ++ [t]).
Proof.
  intros Hs Hl. induction Hs as [|x l Hs IH Hx]; [by repeat constructor|]. inversion Hl; subst. cbn. constructor; [by apply IH|].
  destruct Hx as [|y l]; by constructor.
Qed.

Lemma admit_inv floor cost window upto adm a available now : admission_inv floor cost window upto adm a -> upto <= now ->
  let '(ok, a') := admit_conn a available now in
  ok = negb (zlen (in_window window now adm) >=? Z.quot (available - floor) cost) /\ admission_inv floor cost window now (adm ++ if ok then [now] else []) a'.
Proof.
  intros [H1 H2 H3 H4 H5 H6] Hnow. unfold admit_conn. rewrite H1, H2, H3, drop_expired_filter by done. fold (in_window window now (recent a)).
  assert (Hup : Forall (fun t => t <= now) (in_window window now (recent a))).
  { apply Forall_forall. intros x Hx%list_elem_of_In%filter_In. rewrite Forall_forall in H5. specialize (H5 x (proj2 (list_elem_of_In _ _) (proj1 Hx))). cbn in H5. lia. }
  rewrite (H6 now) by done. rewrite (H6 now) in Hup by done. set (kept := in_window window now adm) in *.
  assert (Hk : Sorted Z.le kept) by (subst kept; rewrite <- (H6 now) by done; by apply Sorted_filter).
  destruct (zlen kept >=? _); (split; [done|]); split; cbn; try done.
  - intros later Hl. rewrite app_nil_r. subst kept. by apply in_window_later.
  - by apply Sorted_snoc.
  - by apply Forall_app; repeat constructor.
  - intros later Hl. unfold in_window. rewrite !List.filter_app. fold (in_window window later kept) (in_window window later adm). subst kept. by rewrite in_window_later.
Qed.
Lemma admit_all_inv floor cost window l : forall upto adm a, admission_inv floor cost window upto adm a -> Sorted Z.le (upto :: map snd l) ->
  admission_inv floor cost window (List.last (map snd l) upto) (adm ++ fst (admit_all a l)) (snd (admit_all a l)).
Proof.
  induction l as [|[available now] l IH]; intros upto adm a HI Hs; [by rewrite app_nil_r|]. cbn [admit_all map snd] in *.
  inversion Hs as [|? ? Hs' Hx]; subst. inversion Hx; subst. pose proof (admit_inv _ _ _ _ _ _ available now HI ltac:(done)) as H.
  destruct (admit_conn a available now) as [ok a1]. destruct H as [_ H]. specialize (IH now _ a1 H Hs').
  destruct (admit_all a1 l) as [adm1 a2]. cbn [fst snd] in *. rewrite <- app_assoc in IH.
  assert (Hlast : List.last (now :: map snd l) upto = List.last (map snd l) now) by (clear; destruct (map snd l) as [|x r] eqn:E; [done|]; clear E; revert x; induction r as [|y r IH]; intros x; [done|]; apply (IH y)).
  rewrite Hlast. exact IH.
Qed.
Lemma last_in (d x : Z) r : List.last (x :: r) d ∈ x :: r.
Proof. revert x. induction r as [|y r IH]; intros x; [by left|]. right. apply (IH y). Qed.
Lemma quotient_fits n x cost : 0 < cost -> 0 <= n -> (n < Z.quot x cost <-> cost * (n + 1) <= x).
Proof.
  intros Hc Hn. destruct (Z.le_gt_cases 0 x) as [Hx|Hx].
  - rewrite Z.quot_div_nonneg by lia. pose proof (Z.mul_div_le x cost Hc). pose proof (Z.mul_succ_div_gt x cost Hc). nia.
  - pose proof (Z.quot_opp_l (- x) cost ltac:(lia)) as Hq. rewrite Z.opp_involutive in Hq. pose proof (Z.quot_pos (- x) cost). nia.
Qed.

(** C4: as long as the clock does not run backwards, a connection is admitted exactly when the memory above the floor covers its cost and that
    of every connection admitted within the window before it. *)
Theorem admission_paces floor cost window l available now : 0 < cost -> Sorted Z.le (map snd (l ++ [(available, now)])) ->
  let '(adm, a) := admit_all (mkAdmission floor cost window []) l in
  fst (admit_conn a available now) = true <-> cost * (zlen (in_window window now adm) + 1) <= available - floor.
Proof.
  intros Hc Hs. rewrite map_app in Hs. cbn in Hs. destruct l as [|[av t] l].
  - unfold admit_conn. cbn [admit_all recent ad_window ad_cost ad_floor drop_expired in_window List.filter]. change (zlen (@nil Z)) with 0.
    rewrite <- quotient_fits by lia. destruct (Z.geb_spec 0 (Z.quot (available - floor) cost)); cbn [fst]; split; intros; try done; lia.
  - assert (Hs0 : Sorted Z.le ((t :: map snd l) ++ [now])) by done. apply Sorted_StronglySorted in Hs0; [|intros ???; lia].
    pose proof (StronglySorted_app_1_l _ _ _ Hs0) as Hs1%StronglySorted_Sorted.
    assert (H0 : admission_inv floor cost window t [] (mkAdmission floor cost window [])) by (split; try done; constructor).
    pose proof (admit_all_inv _ _ _ ((av, t) :: l) _ _ _ H0 ltac:(constructor; [done|constructor; cbn; lia])) as HI. destruct (admit_all _ _) as [adm a]. cbn [fst snd app] in HI.
    assert (Hle : List.last (map snd ((av, t) :: l)) t <= now).
    { apply (StronglySorted_app_1_elem_of Z.le (t :: map snd l) [now]); [done| |by left]. cbn [map snd].
      apply last_in. }
    pose proof (admit_inv _ _ _ _ _ _ available now HI Hle) as H. destruct (admit_conn a available now) as [ok a1]. destruct H as [-> _]. cbn.
    rewrite <- quotient_fits by (unfold zlen; lia). destruct (Z.geb_spec (zlen (in_window window now adm)) (Z.quot (available - floor) cost)); cbn; split; intros; try done; lia.
Qed.
(** A burst on an extension with 2 MB left: seven more connections fit above the floor of one. *)
Lemma admission_paces_witness :
  let '(adm, a) := admit_all (mkAdmission 1048576 131072 1000000000 []) (repeat (2097152, 5) 10) in
  length adm = 8%nat /\ fst (admit_conn a 2097152 6) = false /\ fst (admit_conn a 2097152 1000000005) = true.
Proof.
  pose proof (admission_paces 1048576 131072 1000000000 (repeat (2097152, 5) 10) 2097152 1000000005 ltac:(lia)) as H.
  assert (Hs : Sorted Z.le (map snd (repeat (2097152, 5) 10 ++ [(2097152, 1000000005)]))) by (cbn; repeat constructor; lia).
  specialize (H Hs). vm_compute in H |- *. refine (conj eq_refl (conj eq_refl (proj2 H _))). intros E. discriminate E.
Defined.

(** ** Synchronous invocations *)

Section Sync.
Context `{Env : BridgeEnv}.

(** [waiting] are the ports of callers that still wait, [returned] what callers got:
    [None] is the timeout. *)
Record SyncState := mkSyncState { sy_core : Core; waiting : list Z; returned : list (Z * option ActionResult) }.
(** The receive of the [select]: the channel of a port holds at most one result.
    @go core/lib_ios.go:228-231 iosInvokeAction *)
Definition receive (port : Z) (s : Core) : option (ActionResult * Core) :=
  match delivered s !! port with
  | Some (r :: rest) => Some (r, set_delivered (<[port := rest]> (delivered s)) s)
  | _ => None
  end.
(** @go core/lib_ios.go:232-235 iosInvokeAction *)
Definition abandon_port (port : Z) (s : Core) : Core := set_sinks (lastSyncPort s) (syncSinks s ∖ {[port]}) s.
(** Callers and the goroutines that answer, in any order.  An answer may come at any
    time, for any port, and more than once.
    @go core/lib_ios.go:222-237 iosInvokeAction *)
Inductive sync_step : SyncState -> SyncState -> Prop :=
| sync_invoke c w r port c' : registerSyncSink c = (Ret port, c') -> sync_step (mkSyncState c w r) (mkSyncState c' (port :: w) r)
| sync_deliver c w r result claimed c' : deliverSync result c = (Ret claimed, c') -> sync_step (mkSyncState c w r) (mkSyncState c' w r)
| sync_receive c w r port result c' : port ∈ w -> receive port c = Some (result, c') ->
    sync_step (mkSyncState c w r) (mkSyncState c' (list_difference w [port]) ((port, Some result) :: r))
| sync_timeout c w r port : port ∈ w -> sync_step (mkSyncState c w r) (mkSyncState (abandon_port port c) (list_difference w [port]) ((port, None) :: r)).
Definition sync_init (c : Core) : SyncState := mkSyncState (set_delivered ∅ (set_sinks (-1000) ∅ c)) [] [].

(** Ports go down from -1001; a sink in the table has an empty channel, and a result in
    a channel is for its port. *)
Record sync_inv (s : SyncState) : Prop := {
  sy_last : lastSyncPort (sy_core s) <= -1000;
  sy_sinks p : p ∈ syncSinks (sy_core s) -> lastSyncPort (sy_core s) <= p < -1000 /\ default [] (delivered (sy_core s) !! p) = [];
  sy_used p l : delivered (sy_core s) !! p = Some l -> lastSyncPort (sy_core s) <= p < -1000;
  sy_channel p l : delivered (sy_core s) !! p = Some l -> (length l <= 1)%nat /\ Forall (fun r => r_Port r = p) l;
  sy_callers : NoDup (waiting s ++ (returned s).*1) /\ Forall (fun p => lastSyncPort (sy_core s) <= p < -1000) (waiting s ++ (returned s).*1);
  sy_results : Forall (fun pr => match snd pr with Some r => r_Port r = fst pr | None => True end) (returned s) }.

(** A caller that is done moves from the one list to the other. *)
Lemma callers_moved (P : Z -> Prop) (w : list Z) (r : list (Z * option ActionResult)) port x : port ∈ w -> NoDup (w ++ r.*1) /\ Forall P (w ++ r.*1) ->
  NoDup (list_difference w [port] ++ ((port, x) :: r).*1) /\ Forall P (list_difference w [port] ++ ((port, x) :: r).*1).
Proof.
  intros Hin [HN HF]. assert (Hp : list_difference w [port] ++ ((port, x) :: r).*1 ≡ₚ w ++ r.*1).
  { cbn. rewrite <- Permutation_middle, app_comm_cons. apply Permutation_app_tail. apply NoDup_app in HN as (HN & _).
    apply NoDup_Permutation; [constructor; [|by apply NoDup_list_difference]|done|].
    - rewrite list_elem_of_difference, list_elem_of_singleton. naive_solver.
    - intros q. rewrite elem_of_cons, list_elem_of_difference, list_elem_of_singleton. destruct (decide (q = port)) as [->|]; naive_solver. }
  by rewrite Hp.
Qed.
Lemma sync_step_inv s s' : sync_step s s' -> sync_inv s -> sync_inv s'.
Proof.
  intros Hstep [H1 H2 H3 H4 [H5 H6] H7]. destruct Hstep as [c w r port c' E|c w r result claimed c' E|c w r port result c' Hin E|c w r port Hin]; cbn in *.
  - unfold registerSyncSink in E. injection E as <- <-. set (p := lastSyncPort c - 1) in *. split; cbn.
    + subst p; lia.
    + intros q [->%elem_of_singleton|Hq]%elem_of_union; [|destruct (H2 q Hq); split; [subst p; lia|done]].
      split; [subst p; lia|]. destruct (delivered c !! p) eqn:Ed; [|done]. specialize (H3 _ _ Ed). subst p. lia.
    + intros q l Hq. specialize (H3 q l Hq). subst p; lia.
    + exact H4.
    + split; [|constructor; [subst p; lia|]; eapply Forall_impl; [exact H6|cbn; subst p; lia]].
      constructor; [|done]. intros Hp. rewrite Forall_forall in H6. specialize (H6 _ Hp). cbn in H6. subst p. lia.
    + exact H7.
  - unfold deliverSync in E. destruct (r_Port result >? -1000); [injection E as <- <-; by split|].
    destruct (bool_decide_reflect (r_Port result ∈ syncSinks c)) as [Hs|_]; [|injection E as <- <-; by split]. injection E as <- <-.
    destruct (H2 _ Hs) as [Hr He]. split; cbn; try done.
    + intros q [Hq Hne%not_elem_of_singleton]%elem_of_difference. rewrite lookup_insert_ne by done. by apply H2.
    + intros q l Hq. destruct (decide (q = r_Port result)) as [->|Hne]; [done|]. rewrite lookup_insert_ne in Hq by done. by apply (H3 q l).
    + intros q l Hq. destruct (decide (q = r_Port result)) as [->|Hne].
      * rewrite lookup_insert_eq in Hq. injection Hq as <-. rewrite He. cbn. by repeat constructor.
      * rewrite lookup_insert_ne in Hq by done. by apply H4.
  - unfold receive in E. destruct (delivered c !! port) as [[|r0 rest]|] eqn:Ed; try done. injection E as -> <-.
    destruct (H4 _ _ Ed) as [Hlen Hall]. inversion Hall; subst. destruct rest; [|cbn in Hlen; lia]. split; cbn; try done.
    + intros q Hq. split; [by apply H2|]. destruct (decide (q = r_Port result)) as [->|Hne]; [by rewrite lookup_insert_eq|rewrite lookup_insert_ne by done; by apply H2].
    + intros q l Hq. destruct (decide (q = r_Port result)) as [->|Hne]; [by apply (H3 _ _ Ed)|]. rewrite lookup_insert_ne in Hq by done. by apply (H3 q l).
    + intros q l Hq. destruct (decide (q = r_Port result)) as [->|Hne]; [rewrite lookup_insert_eq in Hq; injection Hq as <-; cbn; split; [lia|constructor]|].
      rewrite lookup_insert_ne in Hq by done. by apply H4.
    + by apply (callers_moved _ w r _ None).
    + by constructor.
  - split; cbn; try done.
    + intros q [Hq _]%elem_of_difference. by apply H2.
    + by apply (callers_moved _ w r _ None).
    + by constructor.
Qed.

Lemma sync_reachable_inv c s : rtc sync_step (sync_init c) s -> sync_inv s.
Proof.
  assert (H0 : sync_inv (sync_init c)) by (split; cbn; try done; split; constructor).
  intros H. revert H0. induction H as [|x y z Hstep _ IH]; [done|]. intros Hx. by eapply IH, sync_step_inv.
Qed.
End Sync.

(** One caller is answered, another gave up before its answer came. *)
Definition sync_answer (port : Z) : ActionResult := mkActionResult "1" "getTraffic" (DStr "0") 0 port.
Definition sync_0 : Core := sy_core (sync_init (fresh_core 5)).
Definition sync_1 : Core := snd (registerSyncSink sync_0).
Definition sync_2 : Core := snd (registerSyncSink sync_1).
Definition sync_3 : Core := abandon_port (-1002) sync_2.
Definition sync_4 : Core := snd (deliverSync (sync_answer (-1002)) sync_3).
Definition sync_5 : Core := snd (deliverSync (sync_answer (-1001)) sync_4).
Definition sync_6 : Core := set_delivered (<[-1001 := []]> (delivered sync_5)) sync_5.
Lemma register_result `{BridgeEnv} c : registerSyncSink c = (Ret (lastSyncPort c - 1), snd (registerSyncSink c)).
Proof. done. Qed.
Lemma deliver_result `{BridgeEnv} r c : deliverSync r c = (Ret (negb (r_Port r >? -1000)), snd (deliverSync r c)).
Proof. unfold deliverSync. destruct (_ >? _); [done|]. by destruct (bool_decide _). Qed.
Lemma receive_result `{BridgeEnv} port r c : delivered c !! port = Some [r] -> receive port c = Some (r, set_delivered (<[port := []]> (delivered c)) c).
Proof. unfold receive. by intros ->. Qed.
Definition sync_end : SyncState := mkSyncState sync_6 [] [(-1001, Some (sync_answer (-1001))); (-1002, None)].

(** ** The tunnel of the extension *)

Section IosTun.
Context `{Env : BridgeEnv}.
(** The open listener, and those closed.
    @go core/lib_ios.go:41-44 iosTun *)
Record IosTun := mkIosTun { iosTun : option Z; ios_closed : list Z }.
(** @go core/lib_ios.go:211-216 closeIosTun *)
Definition closeIosTun (s : IosTun) : IosTun :=
  match iosTun s with Some l => mkIosTun None (ios_closed s ++ [l]) | None => s end.
(** [fd] is what [findUtunFd] found, [opened] what [t.Start] gives.
    @go core/lib_ios.go:188-202 iosStartTun *)
Definition iosStartTun (fd : Z) (opened : string + Z) (s : IosTun) : string * IosTun :=
  let s := closeIosTun s in
  if fd <? 0 then ("utun fd not found", s)
  else match opened with inl err => (err, s) | inr l => ("", mkIosTun (Some l) (ios_closed s)) end.
(** @go core/lib_ios.go:205-209 iosStopTun *)
Definition iosStopTun : IosTun -> IosTun := closeIosTun.
End IosTun.

(** What the system says of the file descriptors: the id of the control socket a
    descriptor belongs to, and the id of the utun control as asked through it.
    @go core/lib_ios.go:240-262 findUtunFd *)
Fixpoint findUtunFd (fuel : nat) (fd : Z) (peer : Z -> option Z) (ctl_info : Z -> option Z) (id : Z) : Z :=
  match fuel with
  | O => -1
  | S fuel =>
      match peer fd with
      | None => findUtunFd fuel (fd + 1) peer ctl_info id
      | Some ctl =>
          match (if id =? 0 then ctl_info fd else Some id) with
          | None => findUtunFd fuel (fd + 1) peer ctl_info id
          | Some id => if ctl =? id then fd else findUtunFd fuel (fd + 1) peer ctl_info id
          end
      end
  end.

(** ** The command line *)

(** @go core/server.go:17-20 serverConfig *)
Record serverConfig := mkServerConfig { sc_bridge : string; sc_runToken : string }.
Definition is_token_char (c : ascii) : bool :=
  let n := Z.of_nat (nat_of_ascii c) in ((48 <=? n) && (n <=? 57)) || ((97 <=? n) && (n <=? 102)).
(** [range] over a string yields runes; a rune that is not ASCII is no digit.
    @go core/server.go:35-48 parseServerArgs *)
Definition parseServerArgs (args : list string) : string + serverConfig :=
  match args with
  | [bridge; flag; token] =>
      if String.eqb bridge "" || negb (String.eqb flag "--run-token") then inl "expected <bridge> --run-token <32 lowercase hex>"
      else if negb (Z.of_nat (String.length token) =? 32) then inl "run token must contain 32 lowercase hexadecimal characters"
      else if forallb is_token_char (String.list_ascii_of_string token) then inr (mkServerConfig bridge token)
      else inl "run token must contain 32 lowercase hexadecimal characters"
  | _ => inl "expected <bridge> --run-token <32 lowercase hex>"
  end.
Example server_args :
  parseServerArgs ["/tmp/core.sock"; "--run-token"; "0123456789abcdef0123456789abcdef"] = inr (mkServerConfig "/tmp/core.sock" "0123456789abcdef0123456789abcdef") /\
  parseServerArgs ["7777"; "--run-token"; "0123456789ABCDEF0123456789abcdef"] = inl "run token must contain 32 lowercase hexadecimal characters".
Proof. vm_compute. done. Qed.

(** ** The connection of the desktop core *)

Section Server.
Context `{Env : BridgeEnv}.
(** The actions started from the lines read: the first line that is no action ends the
    loop, and with it the process.
    @go core/server.go:121-142 serveCoreBridge *)
Fixpoint serve_loop (lines : list string) : list (Action * ActionResult) :=
  match lines with
  | [] => []
  | data :: lines =>
      match json_Action data with
      | inl _ => []
      | inr action => (action, mkActionResult (a_Id action) (a_Method action) DNil 0 0) :: serve_loop lines
      end
  end.
(** What the connection is written: the greeting, without which nothing is served.
    @go core/server.go:102-119 serveCoreBridge *)
Definition serveCoreBridge (hello : string) (write_fails : bool) (lines : list string) : list string * list (Action * ActionResult) :=
  if write_fails then ([], []) else ([hello +:+ String (ascii_of_nat 10) ""], serve_loop lines).
End Server.
