(* ===== verification/Netip.v ===== *)
(** * Addresses

    What the code uses of package [net/netip]: addresses and prefixes, their
    parsing, and the classes of special addresses.  Zones are not kept: every
    place modelled here drops the zone before it compares addresses. *)

From S2P Require Import Prelude Names.

(** ** Addresses and prefixes *)

(** [netip.Addr]: bit length (32, 128, or 0 for the zero value) and value. *)
Record Addr := mkAddr { a_bits : Z; a_val : Z }.

#[export] Instance Addr_eq_dec : EqDecision Addr.
Proof. solve_decision. Defined.
#[export] Instance Addr_countable : Countable Addr.
Proof.
  apply (inj_countable' (fun a => (a_bits a, a_val a)) (fun x => mkAddr x.1 x.2)). by intros [].
Defined.

Definition zeroAddr : Addr := mkAddr 0 0.
Definition addr_IsValid (a : Addr) : bool := negb (a_bits a =? 0).
(** [Is4] decides on the 32-bit or the 128-bit counter. *)
Definition addr_limit (a : Addr) : Z := if a_bits a =? 32 then 2 ^ 32 else 2 ^ 128.

Definition addr_Next (a : Addr) : Addr :=
  if a_val a + 1 =? addr_limit a then zeroAddr else mkAddr (a_bits a) (a_val a + 1).
Definition addr_Prev (a : Addr) : Addr :=
  if a_val a =? 0 then zeroAddr else mkAddr (a_bits a) (a_val a - 1).
Definition addr_Less (a b : Addr) : bool :=
  (a_bits a <? a_bits b) || ((a_bits a =? a_bits b) && (a_val a <? a_val b)).

(** [netip.Prefix]; the bits are -1 when the prefix is invalid. *)
Record Prefix := mkPrefix { p_addr : Addr; p_bits : Z }.

Definition prefix_IsValid (p : Prefix) : bool :=
  addr_IsValid (p_addr p) && (0 <=? p_bits p) && (p_bits p <=? a_bits (p_addr p)).
Definition prefix_Masked_Addr (p : Prefix) : Addr :=
  if prefix_IsValid p then
    let host := a_bits (p_addr p) - p_bits p in
    mkAddr (a_bits (p_addr p)) (Z.shiftl (Z.shiftr (a_val (p_addr p)) host) host)
  else zeroAddr.
Definition prefix_Contains (p : Prefix) (a : Addr) : bool :=
  prefix_IsValid p && addr_IsValid a && (a_bits a =? a_bits (p_addr p)) &&
  (let host := a_bits a - p_bits p in Z.shiftr (a_val a) host =? Z.shiftr (a_val (p_addr p)) host).

(** [Is4], [Is6], [Is4In6], [Unmap]. *)
Definition addr_Is4 (a : Addr) : bool := a_bits a =? 32.
Definition addr_Is6 (a : Addr) : bool := a_bits a =? 128.
Definition addr_Is4In6 (a : Addr) : bool := addr_Is6 a && (Z.shiftr (a_val a) 32 =? 65535).
Definition addr_Unmap (a : Addr) : Addr := if addr_Is4In6 a then mkAddr 32 (a_val a mod 2 ^ 32) else a.
(** [AsSlice]: the bytes, most significant first; none for the zero value. *)
Definition addr_AsSlice (a : Addr) : list Z := be_put (Z.to_nat (a_bits a / 8)) (a_val a).
(** [netip.AddrFromSlice]: four or sixteen bytes. *)
Definition AddrFromSlice (l : list Z) : option Addr :=
  if zlen l =? 4 then Some (mkAddr 32 (be_get l)) else if zlen l =? 16 then Some (mkAddr 128 (be_get l)) else None.

Lemma AddrFromSlice_AsSlice a : a_bits a = 32 \/ a_bits a = 128 -> 0 <= a_val a < 2 ^ a_bits a -> AddrFromSlice (addr_AsSlice a) = Some a.
Proof.
  destruct a as [b v]. cbn. unfold AddrFromSlice, addr_AsSlice, zlen. cbn [a_bits a_val]. rewrite length_be_put.
  intros [->| ->] Hv; cbn [Z.div Z.to_nat]; rewrite be_get_put_small; try done.
Qed.

(** [IsPrivate], [IsUnspecified], [IsLoopback], [IsMulticast],
    [IsLinkLocalUnicast]; all but [IsUnspecified] look through a mapped IPv4
    address. *)
Definition addr_top (a : Addr) (n : Z) : Z := Z.shiftr (a_val a) (a_bits a - n).
Definition addr_IsPrivate (a : Addr) : bool :=
  let a := addr_Unmap a in
  if addr_Is4 a then (addr_top a 8 =? 10) || (addr_top a 12 =? 2753) || (addr_top a 16 =? 49320)
  else addr_Is6 a && (addr_top a 7 =? 126).
Definition addr_IsUnspecified (a : Addr) : bool := addr_IsValid a && (a_val a =? 0).
Definition addr_IsLoopback (a : Addr) : bool :=
  let a := addr_Unmap a in
  if addr_Is4 a then addr_top a 8 =? 127 else addr_Is6 a && (a_val a =? 1).
Definition addr_IsMulticast (a : Addr) : bool :=
  let a := addr_Unmap a in
  if addr_Is4 a then addr_top a 4 =? 14 else addr_Is6 a && (addr_top a 8 =? 255).
Definition addr_IsLinkLocalUnicast (a : Addr) : bool :=
  let a := addr_Unmap a in
  if addr_Is4 a then addr_top a 16 =? 43518 else addr_Is6 a && (addr_top a 10 =? 1018).
(** [IsGlobalUnicast]. *)
Definition addr_IsGlobalUnicast (a : Addr) : bool :=
  addr_IsValid a && negb (addr_Is4 a && ((a_val a =? 0) || (a_val a =? 4294967295)))
  && negb (addr_Is6 a && (a_val a =? 0))
  && negb (addr_IsLoopback a) && negb (addr_IsMulticast a) && negb (addr_IsLinkLocalUnicast a).

(** ** Parsing *)

#[local] Open Scope list_scope.

(** A decimal field of an IPv4 address: no leading zero, at most 255. *)
Definition parse_octet (s : string) : option Z :=
  match s with
  | EmptyString => None
  | String c r =>
      if Ascii.eqb c "0" && negb (String.eqb r "") then None
      else match ParseUint s with Some v => if v <=? 255 then Some v else None | None => None end
  end.
Definition parseIPv4Fields (s : string) : option Z :=
  match SplitOn "." s with
  | [a; b; c; d] =>
      a ← parse_octet a; b ← parse_octet b; c ← parse_octet c; d ← parse_octet d;
      Some (((a * 256 + b) * 256 + c) * 256 + d)
  | _ => None
  end.
Definition parseIPv4 (s : string) : option Addr := mkAddr 32 <$> parseIPv4Fields s.

Definition hex_val (c : ascii) : option Z :=
  let n := Z.of_nat (nat_of_ascii c) in
  if is_digit c then Some (n - 48)
  else if (97 <=? n) && (n <=? 102) then Some (n - 87)
  else if (65 <=? n) && (n <=? 70) then Some (n - 55)
  else None.
(** The leading hexadecimal digits: their value, their number, what follows. *)
Fixpoint take_hex (acc : Z) (n : nat) (s : string) : Z * nat * string :=
  match s with
  | EmptyString => (acc, n, s)
  | String c r => match hex_val c with Some d => take_hex (acc * 16 + d) (S n) r | None => (acc, n, s) end
  end.

(** The groups of an IPv6 address; [ellipsis] is the number of groups before [::].
    There are at most eight groups. *)
Fixpoint parse_groups (fuel : nat) (s : string) (groups : list Z) (ellipsis : option nat) : option (list Z * option nat) :=
  match fuel with
  | O => None
  | S fuel =>
      let '(acc, off, rest) := take_hex 0 0 s in
      if (off =? 0)%nat || (4 <? off)%nat then None
      else match rest with
           | EmptyString => Some (groups ++ [acc], ellipsis)
           | String "." _ =>
               if match ellipsis with None => negb (length groups =? 6)%nat | Some _ => (6 <? length groups)%nat end then None
               else v ← parseIPv4Fields s; Some (groups ++ [v / 65536; v mod 65536], ellipsis)
           | String ":" EmptyString => None
           | String ":" (String ":" rest) =>
               match ellipsis with
               | Some _ => None
               | None =>
                   let groups := groups ++ [acc] in
                   match rest with
                   | EmptyString => Some (groups, Some (length groups))
                   | _ => parse_groups fuel rest groups (Some (length groups))
                   end
               end
           | String ":" rest => parse_groups fuel rest (groups ++ [acc]) ellipsis
           | _ => None
           end
  end.
Fixpoint groups_val (l : list Z) (acc : Z) : Z :=
  match l with [] => acc | g :: l => groups_val l (acc * 65536 + g) end.
Definition expand_groups (g : list Z) (ellipsis : option nat) : option Z :=
  match ellipsis with
  | None => if (length g =? 8)%nat then Some (groups_val g 0) else None
  | Some k => if (length g <? 8)%nat then Some (groups_val (take k g ++ replicate (8 - length g) 0 ++ drop k g)%list 0) else None
  end.
(** The part before the first [c], and the part behind it. *)
Fixpoint cut_at (c : ascii) (s : string) : option (string * string) :=
  match s with
  | EmptyString => None
  | String d r => if Ascii.eqb c d then Some (EmptyString, r)
                  else match cut_at c r with Some (x, y) => Some (String d x, y) | None => None end
  end.
Definition parseIPv6 (s : string) : option (Addr * string) :=
  match (match cut_at "%" s with Some (_, "") => None | Some (x, zone) => Some (x, zone) | None => Some (s, "") end) with
  | None => None
  | Some (s, zone) =>
      v ← match s with
          | String ":" (String ":" EmptyString) => Some 0
          | String ":" (String ":" rest) => '(g, e) ← parse_groups 9 rest [] (Some O); expand_groups g e
          | _ => '(g, e) ← parse_groups 9 s [] None; expand_groups g e
          end;
      Some (mkAddr 128 v, zone)
  end.

(** [netip.ParseAddr]: the address and its zone.  The first of the characters
    [.], [:] and [%] decides. *)
Fixpoint addr_kind (s : string) : option ascii :=
  match s with
  | EmptyString => None
  | String c r => if Ascii.eqb c "." || Ascii.eqb c ":" || Ascii.eqb c "%" then Some c else addr_kind r
  end.
Definition ParseAddrZone (s : string) : option (Addr * string) :=
  match addr_kind s with
  | Some "."%char => a ← parseIPv4 s; Some (a, "")
  | Some ":"%char => parseIPv6 s
  | _ => None
  end.
Definition ParseAddr (s : string) : option Addr := fst <$> ParseAddrZone s.

(** [netip.ParsePrefix]. *)
Fixpoint cut_last (c : ascii) (s : string) : option (string * string) :=
  match s with
  | EmptyString => None
  | String d r => match cut_last c r with
                  | Some (x, y) => Some (String d x, y)
                  | None => if Ascii.eqb c d then Some (EmptyString, r) else None
                  end
  end.
Definition prefix_len (s : string) : option Z :=
  match s with
  | String c (String _ _) => if Ascii.eqb c "0" then None else ParseUint s
  | _ => ParseUint s
  end.
Definition ParsePrefix (s : string) : option Prefix :=
  '(x, y) ← cut_last "/" s;
  '(a, zone) ← ParseAddrZone x;
  if negb (String.eqb zone "") then None
  else n ← prefix_len y; if n <=? a_bits a then Some (mkPrefix a n) else None.

(** ** Hosts and ports *)

(** [net.SplitHostPort]; [None] is any of its errors. *)
Definition SplitHostPort (hostport : string) : option (string * string) :=
  match cut_last ":" hostport with
  | None => None
  | Some (before, port) =>
      match hostport with
      | String "[" rest =>
          match cut_at "]" rest with
          | None => None
          | Some (host, after) =>
              (* the bracket must end right before the last colon *)
              if String.eqb after (String ":" port) && negb (Contains "[" rest) && negb (Contains "]" after) then Some (host, port) else None
          end
      | _ =>
          if Contains ":" before || Contains "[" hostport || Contains "]" hostport then None else Some (before, port)
      end
  end.
(** [net.JoinHostPort]. *)
Definition JoinHostPort (host port : string) : string :=
  if Contains ":" host then ("[" ++ host ++ "]:" ++ port)%string else (host ++ ":" ++ port)%string.

(** ** Printing *)

Definition hex_char (d : Z) : ascii := ascii_of_nat (Z.to_nat (if d <? 10 then 48 + d else 87 + d)).
(** A group without leading zeros. *)
Definition hex_group (g : Z) : string :=
  let digit d rest := String (hex_char d) rest in
  if g <? 16 then digit g "" else if g <? 256 then digit (g / 16) (digit (g mod 16) "")
  else if g <? 4096 then digit (g / 256) (digit (g / 16 mod 16) (digit (g mod 16) ""))
  else digit (g / 4096) (digit (g / 256 mod 16) (digit (g / 16 mod 16) (digit (g mod 16) ""))).
Definition addr_groups (v : Z) : list Z := map (fun k => Z.shiftr v (16 * k) mod 65536) [7; 6; 5; 4; 3; 2; 1; 0].
(** The first longest run of zero groups, of two at least: its start and length. *)
Definition zeros_at (g : list Z) (i : nat) : nat :=
  (fix go l := match l with 0 :: l => S (go l) | _ => O end) (drop i g).
Definition zero_run (g : list Z) : nat * nat :=
  fold_left (fun best i => if (snd best <? zeros_at g i)%nat && (2 <=? zeros_at g i)%nat then (i, zeros_at g i) else best)
            [0; 1; 2; 3; 4; 5; 6]%nat (O, O).
Definition string4 (v : Z) : string :=
  JoinOn "." (map FormatInt [v / 16777216; v / 65536 mod 256; v / 256 mod 256; v mod 256]).
(** [Addr.String]. *)
Definition addr_String (a : Addr) : string :=
  if addr_Is4 a then string4 (a_val a)
  else if addr_Is4In6 a then (("::ffff:" ++ string4 (a_val a mod 2 ^ 32))%string)
  else if addr_Is6 a then
    let g := addr_groups (a_val a) in
    let '(i, n) := zero_run g in
    if (n =? 0)%nat then JoinOn ":" (map hex_group g)
    else (JoinOn ":" (map hex_group (take i g)) ++ "::" ++ JoinOn ":" (map hex_group (drop (i + n) g)))%string
  else "invalid IP".
(** [Prefix.String]. *)
Definition prefix_String (p : Prefix) : string :=
  if prefix_IsValid p then (addr_String (p_addr p) ++ "/" ++ FormatInt (p_bits p))%string else "invalid Prefix".
