(* ===== verification/Ranges.v ===== *)
(** * Integer ranges

    Models [common/utils/range.go] and [ranges.go]: closed ranges of a Go integer
    type and lists of them, as ports, user ids, DSCP values and expected HTTP
    codes are written in a configuration.  The type is [IntType], a width and a
    signedness; a bound is the [Z] it stands for. *)

From Stdlib Require Import Sorting.Sorted.
From S2P Require Import Prelude Names.

(** An integer type of Go. *)
Record IntType := mkIntType { it_bits : Z; it_signed : bool }.
Definition uint8 : IntType := mkIntType 8 false.
Definition uint16 : IntType := mkIntType 16 false.
Definition uint32 : IntType := mkIntType 32 false.
Definition uint64 : IntType := mkIntType 64 false.

(** Conversion to the type, and its values. *)
Definition it_conv (T : IntType) (x : Z) : Z := if it_signed T then sgn (it_bits T) x else x mod 2 ^ it_bits T.
Definition it_min (T : IntType) : Z := if it_signed T then - 2 ^ (it_bits T - 1) else 0.
Definition it_max (T : IntType) : Z := if it_signed T then 2 ^ (it_bits T - 1) - 1 else 2 ^ it_bits T - 1.

(** ** One range *)

(** @go common/utils/range.go:11-14 Range *)
Record Range := mkRange { start : Z; end_ : Z }.

#[export] Instance Range_eq_dec : EqDecision Range.
Proof. solve_decision. Defined.

(** @go common/utils/range.go:16-28 NewRange *)
Definition NewRange (start end_ : Z) : Range :=
  if end_ <? start then mkRange end_ start else mkRange start end_.

(** @go common/utils/range.go:30-32 Range.Contains *)
Definition range_Contains (r : Range) (t : Z) : bool := (start r <=? t) && (t <=? end_ r).

(** @go common/utils/range.go:34-36 Range.LeftContains *)
Definition LeftContains (r : Range) (t : Z) : bool := (start r <=? t) && (t <? end_ r).

(** @go common/utils/range.go:38-40 Range.RightContains *)
Definition RightContains (r : Range) (t : Z) : bool := (start r <? t) && (t <=? end_ r).

(** @go common/utils/range.go:50-55 Range.String *)
Definition range_String (r : Range) : string :=
  if start r =? end_ r then FormatInt (start r)
  else (FormatInt (start r) ++ "-" ++ FormatInt (end_ r))%string.

(** The two errors: a piece that is no range, and too many pieces. *)
Inductive RangeErr := InvalidRange (s : string) | ErrIntRanges.

(** @go common/utils/range.go:89-95 parseUnsigned *)
Definition parseUnsigned (T : IntType) (s : string) : option Z := it_conv T <$> ParseUint s.

(** @go common/utils/range.go:97-103 parseSigned *)
Definition parseSigned (T : IntType) (s : string) : option Z := it_conv T <$> ParseInt s.

(** @go common/utils/range.go:65-87 newIntRange *)
Definition newIntRange (s : string) (parseFn : string -> option Z) : RangeErr + Range :=
  let s := TrimSpace s in
  match s with
  | EmptyString => inr (NewRange 0 0)
  | _ =>
      match SplitOn "-" s with
      | first :: more =>
          match parseFn (Trim first "[ ]") with
          | None => inl (InvalidRange s)
          | Some start =>
              match more with
              | [] => inr (NewRange start start)
              | [second] =>
                  match parseFn (Trim second "[ ]") with
                  | None => inl (InvalidRange s)
                  | Some end_ => inr (NewRange start end_)
                  end
              | _ => inl (InvalidRange s)
              end
          end
      | [] => inl (InvalidRange s)
      end
  end.

(** @go common/utils/range.go:57-63 NewUnsignedRange, NewSignedRange *)
Definition NewUnsignedRange (T : IntType) (expected : string) : RangeErr + Range := newIntRange expected (parseUnsigned T).
Definition NewSignedRange (T : IntType) (expected : string) : RangeErr + Range := newIntRange expected (parseSigned T).

(** ** Lists of ranges *)

(** [type IntRanges[T] []Range[T]]. *)
Abbreviation IntRanges := (list Range).

(** @go common/utils/ranges.go:33-48 newIntRangesFromList *)
Fixpoint newIntRangesFromList (list : list string) (parseFn : string -> option Z) : RangeErr + IntRanges :=
  match list with
  | [] => inr []
  | EmptyString :: rest => newIntRangesFromList rest parseFn
  | s :: rest =>
      match newIntRange s parseFn with
      | inl err => inl err
      | inr r => match newIntRangesFromList rest parseFn with
                 | inl err => inl err
                 | inr ranges => inr (r :: ranges)
                 end
      end
  end.

(** @go common/utils/ranges.go:16-31 newIntRanges *)
Definition newIntRanges (expected : string) (parseFn : string -> option Z) : RangeErr + IntRanges :=
  let expected := TrimSpace expected in
  if String.eqb expected "" || String.eqb expected "*" then inr []
  else
    let list := SplitOn "/" (ReplaceAll expected "," "/") in
    if 28 <? zlen list then inl ErrIntRanges else newIntRangesFromList list parseFn.

(** @go common/utils/ranges.go:50-64 NewUnsignedRanges, NewUnsignedRangesFromList, NewSignedRanges, NewSignedRangesFromList *)
Definition NewUnsignedRanges (T : IntType) (expected : string) : RangeErr + IntRanges := newIntRanges expected (parseUnsigned T).
Definition NewUnsignedRangesFromList (T : IntType) (l : list string) : RangeErr + IntRanges := newIntRangesFromList l (parseUnsigned T).
Definition NewSignedRanges (T : IntType) (expected : string) : RangeErr + IntRanges := newIntRanges expected (parseSigned T).
Definition NewSignedRangesFromList (T : IntType) (l : list string) : RangeErr + IntRanges := newIntRangesFromList l (parseSigned T).

(** @go common/utils/ranges.go:66-78 IntRanges.Check *)
Definition ranges_Check (ranges : IntRanges) (status : Z) : bool :=
  match ranges with
  | [] => true
  | _ => existsb (fun segment => range_Contains segment status) ranges
  end.

(** @go common/utils/ranges.go:80-91 IntRanges.String *)
Definition ranges_String (ranges : IntRanges) : string :=
  match ranges with
  | [] => "*"
  | _ => JoinOn "/" (map range_String ranges)
  end.

(** The loop over one range, [i] being the loop variable: the callback takes and
    returns what it keeps, and says whether to go on.  A turn needs one unit of
    fuel; [end_ r - start r + 1] turns are enough.  [None]: out of fuel.
    @go common/utils/ranges.go:99-106 IntRanges.Range *)
Fixpoint range_loop {S : Type} (fuel : nat) (T : IntType) (f : Z -> S -> S * bool) (r : Range) (i : Z) (st : S) : option (S * bool) :=
  if (i <=? end_ r) && (start r <=? i) then
    match fuel with
    | O => None
    | Datatypes.S fuel =>
        let '(st, go_on) := f i st in
        if negb go_on then Some (st, false)
        else if it_conv T (i + 1) <? i then Some (st, true)
        else range_loop fuel T f r (it_conv T (i + 1)) st
    end
  else Some (st, true).

(** @go common/utils/ranges.go:93-108 IntRanges.Range *)
Fixpoint ranges_Range {S : Type} (T : IntType) (f : Z -> S -> S * bool) (ranges : IntRanges) (st : S) : option S :=
  match ranges with
  | [] => Some st
  | r :: rest =>
      match range_loop (Z.to_nat (end_ r - start r + 1)) T f r (start r) st with
      | None => None
      | Some (st, true) => ranges_Range T f rest st
      | Some (st, false) => Some st
      end
  end.

(** [sort.Slice] by the start of the range; which of several with one start comes
    first is the sort's choice, [Ranges.merge_order_irrelevant] shows that it
    does not matter. *)
Fixpoint sort_insert (r : Range) (l : IntRanges) : IntRanges :=
  match l with
  | [] => [r]
  | x :: rest => if start r <? start x then r :: l else x :: sort_insert r rest
  end.
Definition sort_start (ranges : IntRanges) : IntRanges := fold_left (fun l r => sort_insert r l) ranges [].

(** The loop of [Merge] works in the array it reads: [arr] is that array,
    [mergedRanges] its first [rangeIndex + 1] cells, [pos] the cell read next.
    @go common/utils/ranges.go:119-127 IntRanges.Merge *)
Fixpoint merge_loop (T : IntType) (todo : nat) (arr : IntRanges) (rangeIndex pos : nat) : IntRanges * nat :=
  match todo with
  | O => (arr, rangeIndex)
  | S todo =>
      match arr !! pos, arr !! rangeIndex with
      | Some r, Some last =>
          let '(arr, rangeIndex) :=
            if (end_ last <? it_conv T (end_ last + 1)) && (it_conv T (end_ last + 1) <? start r)
            then (<[S rangeIndex := r]> arr, S rangeIndex)
            else if end_ last <? end_ r then (<[rangeIndex := mkRange (start last) (end_ r)]> arr, rangeIndex)
            else (arr, rangeIndex) in
          merge_loop T todo arr rangeIndex (S pos)
      | _, _ => (arr, rangeIndex)
      end
  end.

(** The merged ranges, and what the receiver's own array holds afterwards.
    @go common/utils/ranges.go:110-129 IntRanges.Merge *)
Definition Merge (T : IntType) (ranges : IntRanges) : IntRanges * IntRanges :=
  match ranges with
  | [] => ([], [])
  | _ =>
      let arr := sort_start ranges in
      let '(arr, rangeIndex) := merge_loop T (length ranges - 1) arr 0 1 in
      (take (S rangeIndex) arr, arr)
  end.

(** * Integer ranges: merging, printing, iterating

    [Merge] computes the canonical form of the set its ranges cover, whatever
    order the sort leaves equal starts in, and spoils no more than the order of
    its receiver; printing and parsing are inverse; [Range] visits every value and
    stops.  Parsing reduces what it reads to the width of the type. *)


(** ** The integer types *)

Definition it_ok (T : IntType) : Prop := 0 < it_bits T.
Definition it_in (T : IntType) (x : Z) : Prop := it_min T <= x <= it_max T.

Lemma it_pow (T : IntType) : it_ok T -> 0 < 2 ^ (it_bits T - 1) /\ 2 ^ it_bits T = 2 * 2 ^ (it_bits T - 1).
Proof.
  unfold it_ok. intros HT. split; [apply Z.pow_pos_nonneg; lia|].
  rewrite <- Z.pow_succ_r by lia. f_equal. lia.
Qed.

Lemma it_conv_id T x : it_ok T -> it_in T x -> it_conv T x = x.
Proof.
  intros HT. destruct (it_pow T HT) as [Hp Hd]. unfold it_in, it_min, it_max, it_conv, sgn. destruct (it_signed T).
  - intros Hx. destruct (Z.le_gt_cases 0 x) as [H|H].
    + rewrite Z.mod_small by lia. destruct (Z.ltb_spec x (2 ^ (it_bits T - 1))); lia.
    + rewrite <- (Z.mod_add x 1) by lia. rewrite Z.mod_small by lia.
      destruct (Z.ltb_spec (x + 1 * 2 ^ it_bits T) (2 ^ (it_bits T - 1))); lia.
  - intros Hx. apply Z.mod_small. lia.
Qed.

Lemma it_conv_over T : it_ok T -> it_conv T (it_max T + 1) = it_min T.
Proof.
  intros HT. destruct (it_pow T HT) as [Hp Hd]. unfold it_min, it_max, it_conv, sgn. destruct (it_signed T).
  - rewrite Z.mod_small by lia. destruct (Z.ltb_spec (2 ^ (it_bits T - 1) - 1 + 1) (2 ^ (it_bits T - 1))); lia.
  - rewrite Z.sub_add. apply Z.mod_same. lia.
Qed.

Lemma it_min_max T : it_ok T -> it_min T <= it_max T.
Proof. intros HT. destruct (it_pow T HT) as [Hp Hd]. unfold it_min, it_max. destruct (it_signed T); lia. Qed.

(** [x + 1] in the type is larger exactly when [x] is not the largest value. *)
Lemma it_succ T x : it_ok T -> it_in T x -> it_conv T (x + 1) = if x =? it_max T then it_min T else x + 1.
Proof.
  intros HT Hx. destruct (Z.eqb_spec x (it_max T)) as [->|Hn]; [by apply it_conv_over|].
  apply it_conv_id; [done|]. unfold it_in in *. lia.
Qed.

(** A range made by [NewRange] from values of the type. *)
Definition range_wf (T : IntType) (r : Range) : Prop := it_min T <= start r /\ start r <= end_ r /\ end_ r <= it_max T.
#[export] Instance range_wf_dec T r : Decision (range_wf T r).
Proof. unfold range_wf. apply _. Defined.

Lemma NewRange_wf T x y : it_in T x -> it_in T y -> range_wf T (NewRange x y).
Proof. unfold it_in, NewRange, range_wf. destruct (Z.ltb_spec y x); cbn; lia. Qed.

(** ** Merging *)

Definition covered (l : IntRanges) (t : Z) : Prop := Exists (fun r => start r <= t <= end_ r) l.
Definition separated : IntRanges -> Prop := StronglySorted (fun a b => end_ a + 1 < start b).
Definition by_start : IntRanges -> Prop := StronglySorted (fun a b => start a <= start b).

Lemma covered_cons r l t : covered (r :: l) t <-> start r <= t <= end_ r \/ covered l t.
Proof. apply Exists_cons. Qed.
Lemma covered_app l k t : covered (l ++ k) t <-> covered l t \/ covered k t.
Proof. apply Exists_app. Qed.

Lemma ranges_Check_covered ranges t : ranges_Check ranges t = true <-> ranges = [] \/ covered ranges t.
Proof.
  destruct ranges as [|r l]; [cbn; intuition|]. unfold ranges_Check, covered. rewrite existsb_exists, Exists_exists.
  unfold range_Contains. setoid_rewrite andb_true_iff. setoid_rewrite Z.leb_le. setoid_rewrite list_elem_of_In. naive_solver.
Qed.

(** What the loop computes, without the array. *)
Fixpoint merge_fold (T : IntType) (last : Range) (rest : IntRanges) : IntRanges :=
  match rest with
  | [] => [last]
  | r :: rest =>
      if (end_ last <? it_conv T (end_ last + 1)) && (it_conv T (end_ last + 1) <? start r)
      then last :: merge_fold T r rest
      else if end_ last <? end_ r then merge_fold T (mkRange (start last) (end_ r)) rest
      else merge_fold T last rest
  end.

Lemma merge_fold_length T last rest : (0 < length (merge_fold T last rest))%nat.
Proof. revert last. induction rest as [|r rest IH]; intros last; cbn; [lia|]. repeat case_match; cbn; auto with lia. Qed.

Lemma merge_loop_fold T rest : forall arr done last k pos,
  take k arr = done -> arr !! k = Some last -> drop pos arr = rest -> (k < pos)%nat ->
  merge_loop T (length rest) arr k pos
  = ((done ++ merge_fold T last rest) ++ drop (length (done ++ merge_fold T last rest)) arr,
     (length (done ++ merge_fold T last rest) - 1)%nat).
Proof.
  induction rest as [|r rest IH]; intros arr done last k pos Ht Hk Hd Hlt.
  - cbn [length merge_loop merge_fold]. pose proof (lookup_lt_Some _ _ _ Hk).
    assert (Hl : length done = k) by (subst; rewrite length_take; lia).
    rewrite length_app, Hl. cbn [length]. replace (k + 1 - 1)%nat with k by lia. f_equal.
    rewrite <- Ht, <- (take_S_r arr k last Hk), Nat.add_1_r. by rewrite take_drop.
  - assert (Hpos : arr !! pos = Some r) by (rewrite <- (Nat.add_0_r pos), <- lookup_drop, Hd; done).
    assert (Hd' : drop (S pos) arr = rest) by (by rewrite <- Nat.add_1_r, <- drop_drop, Hd).
    pose proof (lookup_lt_Some _ _ _ Hpos).
    assert (Hl : length done = k) by (subst; rewrite length_take; lia).
    cbn [length merge_loop merge_fold]. rewrite Hpos, Hk. cbn [fst snd].
    destruct (_ && _); [|destruct (end_ last <? end_ r)].
    + erewrite (IH _ (done ++ [last]) r).
      * rewrite <- (app_assoc done [last]). cbn [app]. f_equal. f_equal. apply drop_insert_lt.
        pose proof (merge_fold_length T r rest). rewrite !length_app. cbn [length]. lia.
      * rewrite take_insert_ge by lia. by rewrite (take_S_r _ _ last), Ht.
      * apply list_lookup_insert_eq. lia.
      * by rewrite drop_insert_lt by lia.
      * lia.
    + erewrite (IH _ done).
      * f_equal. f_equal. apply drop_insert_lt. rewrite length_app, Hl.
        pose proof (merge_fold_length T (mkRange (start last) (end_ r)) rest). lia.
      * by rewrite take_insert_ge by lia.
      * apply list_lookup_insert_eq. lia.
      * by rewrite drop_insert_lt by lia.
      * lia.
    + by apply IH; [..|lia].
Qed.

(** The overflow test of the code only skips the comparison that cannot hold. *)
Lemma merge_test T last r : it_ok T -> range_wf T last -> range_wf T r ->
  (end_ last <? it_conv T (end_ last + 1)) && (it_conv T (end_ last + 1) <? start r) = (end_ last + 1 <? start r).
Proof.
  unfold range_wf. intros HT Hl Hr. rewrite it_succ by (unfold it_in; lia || done).
  destruct (Z.eqb_spec (end_ last) (it_max T)) as [E|E];
    repeat match goal with |- context [Z.ltb ?a ?b] => destruct (Z.ltb_spec a b) end; cbn; lia.
Qed.

Lemma merge_fold_covered T rest : it_ok T -> Forall (range_wf T) rest -> by_start rest -> forall last t,
  range_wf T last -> Forall (fun r => start last <= start r) rest ->
  covered (merge_fold T last rest) t <-> covered (last :: rest) t.
Proof.
  intros HT. induction 1 as [|r rest Hr Hrest IH]; intros Hs last t Hl Hf; [done|].
  inversion_clear Hs as [|? ? Hs' Hr']. inversion_clear Hf as [|? ? Hlr Hf']. cbn [merge_fold]. rewrite merge_test by done.
  destruct (Z.ltb_spec (end_ last + 1) (start r)) as [Hc|Hc].
  - rewrite covered_cons, IH by done. by rewrite !covered_cons.
  - unfold range_wf in *. destruct (Z.ltb_spec (end_ last) (end_ r)).
    + rewrite IH; [|done|cbn; lia|done]. rewrite !covered_cons. cbn. split; [|naive_solver lia].
      intros [Ht|Ht]; [|naive_solver]. destruct (Z.le_gt_cases t (end_ last)); [left|right; left]; lia.
    + rewrite IH by (done || lia). rewrite !covered_cons. split; [naive_solver|]. intros [|[|]]; [by left|left; lia|by right].
Qed.

Lemma merge_fold_separated T rest : it_ok T -> Forall (range_wf T) rest -> by_start rest -> forall last,
  range_wf T last -> Forall (fun r => start last <= start r) rest ->
  separated (merge_fold T last rest) /\ Forall (range_wf T) (merge_fold T last rest)
  /\ Forall (fun r => start last <= start r) (merge_fold T last rest).
Proof.
  intros HT. induction 1 as [|r rest Hr Hrest IH]; intros Hs last Hl Hf.
  { cbn. repeat constructor; unfold range_wf in *; lia. }
  inversion_clear Hs as [|? ? Hs' Hr']. inversion_clear Hf as [|? ? Hlr Hf']. cbn [merge_fold]. rewrite merge_test by done.
  unfold range_wf in *. destruct (Z.ltb_spec (end_ last + 1) (start r)) as [Hc|Hc].
  - destruct (IH Hs' r Hr Hr') as (H1 & H2 & H3).
    assert (Forall (fun x => end_ last + 1 < start x) (merge_fold T r rest)) by (eapply Forall_impl; [exact H3|cbn; intros; lia]).
    assert (Forall (fun x => start last <= start x) (merge_fold T r rest)) by (eapply Forall_impl; [exact H3|cbn; intros; lia]).
    split; [by constructor|]. split; [by constructor|]. constructor; [lia|done].
  - destruct (Z.ltb_spec (end_ last) (end_ r)); [|by apply IH].
    destruct (IH Hs' (mkRange (start last) (end_ r))) as (H1 & H2 & H3); [cbn; lia|done|]. cbn in H3. done.
Qed.

(** A separated list is determined by the set it covers. *)
Lemma separated_least l r t : separated (r :: l) -> Forall (fun r => start r <= end_ r) (r :: l) -> covered (r :: l) t -> start r <= t.
Proof.
  intros Hs Hw [H|H]%covered_cons; [lia|]. inversion_clear Hs as [|? ? _ Hf]. inversion_clear Hw as [|? ? Hr Hw'].
  unfold covered in H. rewrite Exists_exists in H. destruct H as (x & Hx & ?). rewrite Forall_forall in Hf. specialize (Hf x Hx). cbn in Hf. lia.
Qed.

Lemma separated_gap l r t : separated (r :: l) -> end_ r < t <= end_ r + 1 -> ~ covered (r :: l) t.
Proof.
  intros Hs Ht [H|H]%covered_cons; [lia|]. inversion_clear Hs as [|? ? _ Hf].
  unfold covered in H. rewrite Exists_exists in H. destruct H as (x & Hx & ?). rewrite Forall_forall in Hf. specialize (Hf x Hx). cbn in Hf. lia.
Qed.

Lemma separated_unique l : forall k, separated l -> separated k ->
  Forall (fun r => start r <= end_ r) l -> Forall (fun r => start r <= end_ r) k ->
  (forall t, covered l t <-> covered k t) -> l = k.
Proof.
  induction l as [|r l IH]; intros [|x k] Hl Hk Wl Wk Hc.
  - done.
  - exfalso. apply Forall_cons_1 in Wk as [Hx _]. assert (H : covered [] (start x)) by (apply Hc, covered_cons; left; lia). by inversion H.
  - exfalso. apply Forall_cons_1 in Wl as [Hr _]. assert (H : covered [] (start r)) by (apply Hc, covered_cons; left; lia). by inversion H.
  - assert (Hr : start r <= end_ r) by (by inversion Wl). assert (Hx : start x <= end_ x) by (by inversion Wk).
    assert (E1 : start r = start x).
    { pose proof (separated_least _ _ (start x) Hl Wl). pose proof (separated_least _ _ (start r) Hk Wk).
      assert (G1 : covered (r :: l) (start x)) by (apply Hc, covered_cons; left; lia).
      assert (G2 : covered (x :: k) (start r)) by (apply Hc, covered_cons; left; lia). naive_solver lia. }
    assert (E2 : end_ r = end_ x).
    { pose proof (separated_gap _ _ (end_ r + 1) Hl ltac:(lia)) as G1. pose proof (separated_gap _ _ (end_ x + 1) Hk ltac:(lia)) as G2.
      destruct (Z.lt_trichotomy (end_ r) (end_ x)) as [H|[H|H]]; [|done|]; exfalso.
      - apply G1, Hc, covered_cons. left. lia.
      - apply G2, Hc, covered_cons. left. lia. }
    destruct r as [s e], x as [s' e']. cbn in *. subst s' e'. f_equal.
    assert (Hout : forall m t, separated (mkRange s e :: m) -> Forall (fun r => start r <= end_ r) (mkRange s e :: m) ->
                   covered m t <-> covered (mkRange s e :: m) t /\ e < t).
    { intros m t Hm Wm. rewrite covered_cons. cbn. split; [|naive_solver lia]. intros H. split; [by right|].
      inversion_clear Hm as [|? ? _ Hf]. unfold covered in H. rewrite Exists_exists in H. destruct H as (y & Hy & ?).
      rewrite Forall_forall in Hf. specialize (Hf y Hy). cbn in Hf. lia. }
    pose proof Hl as Hl0. pose proof Hk as Hk0. inversion_clear Hl0. inversion_clear Hk0.
    pose proof Wl as Wl0. pose proof Wk as Wk0. inversion_clear Wl0. inversion_clear Wk0. apply IH; try done.
    intros t. by rewrite (Hout l t), (Hout k t), Hc.
Qed.

(** *** The sort *)

Lemma sort_insert_perm r l : sort_insert r l ≡ₚ r :: l.
Proof. induction l as [|x l IH]; [done|]. cbn. destruct (start r <? start x); [done|]. rewrite IH. apply Permutation_swap. Qed.

Lemma sort_insert_sorted r l : by_start l -> by_start (sort_insert r l).
Proof.
  induction 1 as [|x l Hl IH Hx]; cbn; [by repeat constructor|]. destruct (Z.ltb_spec (start r) (start x)).
  - constructor; [by constructor|]. constructor; [lia|]. eapply Forall_impl; [exact Hx|]. cbn. lia.
  - constructor; [done|]. rewrite (sort_insert_perm r l). by constructor; [lia|].
Qed.

Lemma sort_start_spec ranges : sort_start ranges ≡ₚ ranges /\ by_start (sort_start ranges).
Proof.
  unfold sort_start. assert (G : forall l acc, by_start acc ->
    fold_left (fun l r => sort_insert r l) l acc ≡ₚ acc ++ l /\ by_start (fold_left (fun l r => sort_insert r l) l acc)).
  { induction l as [|r l IH]; intros acc Hacc; cbn; [by rewrite app_nil_r|].
    destruct (IH (sort_insert r acc)) as [Hp Hs]; [by apply sort_insert_sorted|]. split; [|done].
    rewrite Hp, sort_insert_perm. cbn. by rewrite <- Permutation_middle. }
  by destruct (G ranges [] (SSorted_nil _)).
Qed.

Lemma covered_perm l k t : l ≡ₚ k -> covered l t <-> covered k t.
Proof. intros Hp. unfold covered. by rewrite Hp. Qed.

(** What [Merge] computes from any sorted arrangement of its ranges. *)
Definition merge_from (T : IntType) (arr : IntRanges) : IntRanges * IntRanges :=
  match arr with
  | [] => ([], [])
  | _ => let '(arr, rangeIndex) := merge_loop T (length arr - 1) arr 0 1 in (take (S rangeIndex) arr, arr)
  end.

Lemma merge_from_fold T r rest :
  merge_from T (r :: rest) = (merge_fold T r rest, merge_fold T r rest ++ drop (length (merge_fold T r rest)) (r :: rest)).
Proof.
  unfold merge_from. cbn [length]. rewrite Nat.sub_succ, Nat.sub_0_r.
  rewrite (merge_loop_fold T rest (r :: rest) [] r 0 1) by (done || lia). cbn [app].
  pose proof (merge_fold_length T r rest). replace (S (length (merge_fold T r rest) - 1)) with (length (merge_fold T r rest)) by lia.
  by rewrite take_app_length.
Qed.

Lemma Merge_from T ranges : Merge T ranges = merge_from T (sort_start ranges).
Proof.
  destruct (sort_start_spec ranges) as [Hp _]. unfold Merge, merge_from. destruct ranges as [|r l]; [done|].
  destruct (sort_start (r :: l)) eqn:E; [by apply Permutation_nil_cons in Hp|]. rewrite <- (Permutation_length Hp). done.
Qed.

Lemma merge_from_spec T arr : it_ok T -> Forall (range_wf T) arr -> by_start arr ->
  separated (merge_from T arr).1 /\ Forall (range_wf T) (merge_from T arr).1
  /\ (forall t, covered (merge_from T arr).1 t <-> covered arr t)
  /\ (forall t, covered (merge_from T arr).2 t <-> covered arr t)
  /\ ((merge_from T arr).1 = [] <-> arr = []) /\ length (merge_from T arr).2 = length arr.
Proof.
  intros HT Hw Hs. destruct arr as [|r rest]; [cbn; repeat split; try done; constructor|].
  rewrite merge_from_fold. cbn [fst snd]. inversion_clear Hw as [|? ? Hr Hrest]. inversion_clear Hs as [|? ? Hs' Hf].
  destruct (merge_fold_separated T rest HT Hrest Hs' r Hr Hf) as (H1 & H2 & _).
  assert (Hc : forall t, covered (merge_fold T r rest) t <-> covered (r :: rest) t) by (intros; by apply merge_fold_covered).
  assert (Hlen : (length (merge_fold T r rest) <= length (r :: rest))%nat).
  { clear. revert r. induction rest as [|x rest IH]; intros r; cbn [merge_fold]; [done|].
    destruct (_ && _); [|destruct (_ <? _)]; cbn [length] in *; [specialize (IH x)|specialize (IH (mkRange (start r) (end_ x)))|specialize (IH r)]; lia. }
  split; [done|]. split; [done|]. split; [done|]. split; [|split].
  - intros t. rewrite covered_app, Hc. split; [|by left]. intros [H|H]; [done|]. unfold covered in *. rewrite Exists_exists in *.
    destruct H as (y & Hy & ?). exists y. split; [|done]. rewrite <- (take_drop (length (merge_fold T r rest)) (r :: rest)).
    apply elem_of_app. by right.
  - pose proof (merge_fold_length T r rest). destruct (merge_fold T r rest); cbn in *; [lia|done].
  - rewrite length_app, length_drop. lia.
Qed.

(** Merging keeps what [Check] accepts, of the result and of the receiver that
    it rearranges; the result is sorted with gaps between its ranges; and any way
    of sorting equal starts gives the same result. *)
Lemma Merge_canonical T ranges merged after :
  it_ok T -> Forall (range_wf T) ranges -> Merge T ranges = (merged, after) ->
  (forall t, ranges_Check merged t = ranges_Check ranges t)
  /\ (forall t, ranges_Check after t = ranges_Check ranges t)
  /\ separated merged /\ Forall (range_wf T) merged
  /\ (forall arr, arr ≡ₚ ranges -> by_start arr -> (merge_from T arr).1 = merged).
Proof.
  intros HT Hw. rewrite Merge_from. intros E. destruct (sort_start_spec ranges) as [Hp Hs].
  assert (Hw' : Forall (range_wf T) (sort_start ranges)) by (by rewrite Hp).
  destruct (merge_from_spec T _ HT Hw' Hs) as (H1 & H2 & H3 & H4 & H5 & H6). rewrite E in *. cbn [fst snd] in *.
  assert (Hnil : sort_start ranges = [] <-> ranges = []).
  { split; intros Hn; [rewrite Hn in Hp; by apply Permutation_nil_l in Hp|by rewrite Hn]. }
  assert (Hcov : forall t, covered (sort_start ranges) t <-> covered ranges t) by (intros; by apply covered_perm).
  split; [|split; [|split; [done|split; [done|]]]].
  - intros t. apply eq_true_iff_eq. rewrite !ranges_Check_covered, H5, Hnil, H3, Hcov. done.
  - intros t. apply eq_true_iff_eq. rewrite !ranges_Check_covered, H4, Hcov, <- Hnil, <- length_zero_iff_nil, H6, length_zero_iff_nil. done.
  - intros arr Hpa Hsa. assert (Hwa : Forall (range_wf T) arr) by (by rewrite Hpa).
    destruct (merge_from_spec T arr HT Hwa Hsa) as (A1 & A2 & A3 & _).
    apply separated_unique; try done; [eapply Forall_impl; [exact A2|]|eapply Forall_impl; [exact H2|]|]; try (unfold range_wf; lia).
    intros t. rewrite A3, H3, Hcov. by apply covered_perm.
Qed.

Lemma Merge_canonical_witness :
  Forall (range_wf uint8) [mkRange 250 255; mkRange 3 4; mkRange 0 2; mkRange 251 252]
  /\ Merge uint8 [mkRange 250 255; mkRange 3 4; mkRange 0 2; mkRange 251 252]
     = ([mkRange 0 4; mkRange 250 255], [mkRange 0 4; mkRange 250 255; mkRange 250 255; mkRange 251 252])
  /\ (forall t, ranges_Check [mkRange 0 4; mkRange 250 255] t = ranges_Check [mkRange 250 255; mkRange 3 4; mkRange 0 2; mkRange 251 252] t).
Proof.
  assert (Hw : Forall (range_wf uint8) [mkRange 250 255; mkRange 3 4; mkRange 0 2; mkRange 251 252]) by (repeat constructor; cbn; lia).
  assert (HM : Merge uint8 [mkRange 250 255; mkRange 3 4; mkRange 0 2; mkRange 251 252]
     = ([mkRange 0 4; mkRange 250 255], [mkRange 0 4; mkRange 250 255; mkRange 250 255; mkRange 251 252])) by reflexivity.
  split; [exact Hw|]. split; [exact HM|]. apply (Merge_canonical uint8 _ _ _ ltac:(reflexivity) Hw HM).
Defined.

(** ** Printing and parsing *)

(** The characters of a printed list of unsigned ranges. *)
Definition range_char (c : ascii) : bool := is_digit c || Ascii.eqb c "-" || Ascii.eqb c "/".

Lemma range_char_plain c : range_char c = true ->
  IsSpace c = false /\ Contains c "[ ]" = false /\ Ascii.eqb c "," = false.
Proof. destruct c as [[] [] [] [] [] [] [] []]; vm_compute; try discriminate; by repeat split. Qed.

Lemma is_digit_plain c : is_digit c = true -> Ascii.eqb c "-" = false /\ Ascii.eqb c "/" = false.
Proof. destruct c as [[] [] [] [] [] [] [] []]; vm_compute; try discriminate; by split. Qed.

Lemma digits_range_char s : all_chars is_digit s = true -> all_chars range_char s = true.
Proof. apply all_chars_impl. intros c Hc. unfold range_char. by rewrite Hc. Qed.

Lemma range_String_chars r : 0 <= start r -> 0 <= end_ r ->
  all_chars (fun c => is_digit c || Ascii.eqb c "-") (range_String r) = true.
Proof.
  intros Hs He. assert (Hd : forall n, 0 <= n -> all_chars (fun c => is_digit c || Ascii.eqb c "-") (FormatInt n) = true).
  { intros n Hn. eapply all_chars_impl; [|by apply FormatInt_chars]. intros c Hc. by rewrite Hc. }
  unfold range_String. destruct (_ =? _); [by apply Hd|]. by rewrite !all_chars_app, (Hd _ Hs), (Hd _ He).
Qed.

Lemma TrimSpace_plain s : all_chars range_char s = true -> TrimSpace s = s.
Proof.
  intros Hs. apply TrimFunc_none. eapply all_chars_impl; [|exact Hs]. intros c Hc.
  by destruct (range_char_plain c Hc) as (-> & _).
Qed.

Lemma Trim_digits s : all_chars is_digit s = true -> Trim s "[ ]" = s.
Proof.
  intros Hs%digits_range_char. apply TrimFunc_none. eapply all_chars_impl; [|exact Hs]. intros c Hc.
  by destruct (range_char_plain c Hc) as (_ & -> & _).
Qed.

Lemma no_sep_digits s : all_chars is_digit s = true -> Contains "-" s = false.
Proof. by apply Contains_none. Qed.

Lemma FormatInt_not_empty n : 0 <= n < 2 ^ 64 -> FormatInt n <> "".
Proof. intros Hn E. pose proof (ParseUint_FormatInt n Hn) as H. by rewrite E in H. Qed.

(** Numbers, written with or without a second bound, parse to their remainders
    by the width of the type. *)
Lemma newIntRange_number T n : it_ok T -> it_signed T = false -> 0 <= n < 2 ^ 64 ->
  newIntRange (FormatInt n) (parseUnsigned T) = inr (mkRange (n mod 2 ^ it_bits T) (n mod 2 ^ it_bits T)).
Proof.
  intros HT Hu Hn. pose proof (FormatInt_chars n ltac:(lia)) as Hc. unfold newIntRange.
  rewrite TrimSpace_plain by (by apply digits_range_char). rewrite Split_part by (by apply no_sep_digits).
  destruct (FormatInt n) eqn:E; [by apply FormatInt_not_empty in E|]. rewrite <- E in *.
  rewrite Trim_digits by done. unfold parseUnsigned. rewrite ParseUint_FormatInt by done.
  cbn [fmap option_fmap option_map]. unfold it_conv, NewRange. rewrite Hu. by rewrite Z.ltb_irrefl.
Qed.

Lemma newIntRange_pair T n m : it_ok T -> it_signed T = false -> 0 <= n < 2 ^ 64 -> 0 <= m < 2 ^ 64 ->
  newIntRange (FormatInt n ++ "-" ++ FormatInt m)%string (parseUnsigned T)
  = inr (NewRange (n mod 2 ^ it_bits T) (m mod 2 ^ it_bits T)).
Proof.
  intros HT Hu Hn Hm. pose proof (FormatInt_chars n ltac:(lia)) as Hc. pose proof (FormatInt_chars m ltac:(lia)) as Hc'.
  unfold newIntRange. rewrite TrimSpace_plain.
  2:{ apply digits_range_char in Hc, Hc'. by rewrite !all_chars_app, Hc, Hc'. }
  change ("-" ++ FormatInt m)%string with (String "-" (FormatInt m)).
  rewrite Split_app by (by apply no_sep_digits). rewrite Split_part by (by apply no_sep_digits).
  destruct (FormatInt n) eqn:E; [by apply FormatInt_not_empty in E|]. rewrite <- E in *. rewrite E at 1.
  change (String a s +:+ String "-" (FormatInt m)) with (String a (s +:+ String "-" (FormatInt m))).
  rewrite !Trim_digits by done. unfold parseUnsigned. rewrite !ParseUint_FormatInt by done.
  cbn [fmap option_fmap option_map]. unfold it_conv. by rewrite Hu.
Qed.

(** An unsigned bound is only checked against 64 bits and then cut to the
    width of the type: [n] is accepted as [n mod 2^w]. *)
Lemma NewUnsignedRange_truncates T n m : it_ok T -> it_signed T = false -> 0 <= n < 2 ^ 64 -> 0 <= m < 2 ^ 64 ->
  NewUnsignedRange T (FormatInt n ++ "-" ++ FormatInt m)%string = inr (NewRange (n mod 2 ^ it_bits T) (m mod 2 ^ it_bits T))
  /\ NewUnsignedRange T (FormatInt n) = inr (NewRange (n mod 2 ^ it_bits T) (n mod 2 ^ it_bits T)).
Proof.
  intros. split; [by apply newIntRange_pair|]. unfold NewUnsignedRange. rewrite newIntRange_number by done.
  unfold NewRange. by rewrite Z.ltb_irrefl.
Qed.

(** Port 70000 is port 4464, and a "range" from 65535 to 65537 is 1-65535. *)
Lemma NewUnsignedRange_truncates_witness :
  NewUnsignedRange uint16 "70000" = inr (mkRange 4464 4464) /\ NewUnsignedRange uint16 "65535-65537" = inr (mkRange 1 65535).
Proof.
  split.
  - apply (NewUnsignedRange_truncates uint16 70000 0); [reflexivity|reflexivity|lia|lia].
  - apply (NewUnsignedRange_truncates uint16 65535 65537); [reflexivity|reflexivity|lia|lia].
Defined.

Lemma newIntRange_String T r : it_ok T -> it_signed T = false -> it_bits T <= 64 -> range_wf T r ->
  newIntRange (range_String r) (parseUnsigned T) = inr r.
Proof.
  intros HT Hu Hb (H1 & H2 & H3). unfold it_min, it_max in *. rewrite Hu in *.
  assert (2 ^ it_bits T <= 2 ^ 64) by (apply Z.pow_le_mono_r; lia).
  unfold range_String. destruct r as [s e]. cbn in *. destruct (Z.eqb_spec s e) as [<-|Hne].
  - rewrite newIntRange_number by (done || lia). by rewrite Z.mod_small by lia.
  - rewrite newIntRange_pair by (done || lia). rewrite !Z.mod_small by lia. unfold NewRange.
    by destruct (Z.ltb_spec e s); [lia|].
Qed.

Lemma range_String_not_empty T r : it_signed T = false -> it_bits T <= 64 -> range_wf T r -> range_String r <> "".
Proof.
  intros Hu Hb (H1 & H2 & H3). unfold it_min, it_max in *. rewrite Hu in *.
  assert (2 ^ it_bits T <= 2 ^ 64) by (apply Z.pow_le_mono_r; lia).
  assert (FormatInt (start r) <> "") by (apply FormatInt_not_empty; lia). unfold range_String.
  destruct (_ =? _); [done|]. by destruct (FormatInt (start r)).
Qed.

Lemma newIntRangesFromList_String T ranges : it_ok T -> it_signed T = false -> it_bits T <= 64 -> Forall (range_wf T) ranges ->
  newIntRangesFromList (map range_String ranges) (parseUnsigned T) = inr ranges.
Proof.
  intros HT Hu Hb. induction 1 as [|r l Hr _ IH]; [done|]. cbn [map newIntRangesFromList].
  pose proof (range_String_not_empty T r Hu Hb Hr). destruct (range_String r) eqn:E; [done|].
  rewrite <- E, newIntRange_String by done. by rewrite IH.
Qed.

(** What [String] prints of a list of at most 28 unsigned ranges parses to the
    same list. *)
Lemma ranges_String_roundtrip T ranges :
  it_ok T -> it_signed T = false -> it_bits T <= 64 -> Forall (range_wf T) ranges -> zlen ranges <= 28 ->
  NewUnsignedRanges T (ranges_String ranges) = inr ranges.
Proof.
  intros HT Hu Hb Hw Hlen. destruct ranges as [|r0 l0]; [done|]. remember (r0 :: l0) as ranges eqn:Er.
  assert (Hne : map range_String ranges <> []) by (by subst).
  assert (Es : ranges_String ranges = JoinOn "/" (map range_String ranges)) by (by subst). rewrite Es.
  assert (Hc : Forall (fun s => all_chars (fun c => is_digit c || Ascii.eqb c "-") s = true) (map range_String ranges)).
  { apply Forall_map. eapply Forall_impl; [exact Hw|]. intros r (H1 & H2 & _). unfold it_min in H1. rewrite Hu in H1.
    apply range_String_chars; lia. }
  assert (Hsep : Forall (fun s => Contains "/" s = false) (map range_String ranges)).
  { eapply Forall_impl; [exact Hc|]. intros s. by apply Contains_none. }
  assert (Hall : all_chars range_char (JoinOn "/" (map range_String ranges)) = true).
  { apply all_chars_join; [done|]. eapply Forall_impl; [exact Hc|]. intros s. apply all_chars_impl. intros c H. unfold range_char. by rewrite H. }
  unfold NewUnsignedRanges, newIntRanges. rewrite TrimSpace_plain by done.
  assert (Hx : forall t, all_chars range_char t = false -> String.eqb (JoinOn "/" (map range_String ranges)) t = false).
  { intros t Ht. destruct (String.eqb_spec (JoinOn "/" (map range_String ranges)) t) as [<-|]; [congruence|done]. }
  rewrite (Hx "*") by done. rewrite orb_false_r.
  destruct (String.eqb_spec (JoinOn "/" (map range_String ranges)) "") as [E|_].
  - exfalso. pose proof (Split_Join "/" _ Hne Hsep) as E2. rewrite E in E2. subst ranges. cbn [map] in E2. injection E2 as E3 _.
    by apply (range_String_not_empty T r0); [..|by inversion Hw|].
  - rewrite ReplaceAll_none.
    2:{ eapply Contains_none; [|exact Hall]. done. }
    rewrite Split_Join by done. unfold zlen in *. rewrite length_map. destruct (Z.ltb_spec 28 (Z.of_nat (length ranges))); [lia|].
    by apply newIntRangesFromList_String.
Qed.

Lemma ranges_String_roundtrip_witness :
  Forall (range_wf uint16) [mkRange 200 200; mkRange 401 429; mkRange 0 65535]
  /\ NewUnsignedRanges uint16 (ranges_String [mkRange 200 200; mkRange 401 429; mkRange 0 65535])
     = inr [mkRange 200 200; mkRange 401 429; mkRange 0 65535].
Proof.
  assert (Hw : Forall (range_wf uint16) [mkRange 200 200; mkRange 401 429; mkRange 0 65535]) by (repeat constructor; cbn; lia).
  split; [exact Hw|]. apply (ranges_String_roundtrip uint16); [reflexivity|reflexivity|discriminate|exact Hw|discriminate].
Defined.

(** ** Iterating *)

(** What visiting the values [l] in turn does, a callback saying when to stop. *)
Fixpoint visit {S : Type} (f : Z -> S -> S * bool) (l : list Z) (st : S) : S * bool :=
  match l with
  | [] => (st, true)
  | i :: l => let '(st, go_on) := f i st in if go_on then visit f l st else (st, false)
  end.

Lemma visit_app {S} (f : Z -> S -> S * bool) l k st :
  visit f (l ++ k) st = (let '(st, go_on) := visit f l st in if go_on then visit f k st else (st, false)).
Proof.
  revert st. induction l as [|i l IH]; intros st; [done|]. cbn. destruct (f i st) as [st' []]; [apply IH|done].
Qed.

Lemma range_loop_visit {S} T (f : Z -> S -> S * bool) r : it_ok T -> range_wf T r -> forall n i st,
  start r <= i -> Z.of_nat n = end_ r + 1 - i ->
  range_loop n T f r i st = Some (visit f (seqZ i (Z.of_nat n)) st).
Proof.
  intros HT (H1 & H2 & H3). induction n as [|n IH]; intros i st Hi Hn.
  - cbn [range_loop]. by destruct (Z.leb_spec i (end_ r)); [lia|].
  - cbn [range_loop]. destruct (Z.leb_spec i (end_ r)); [|lia]. destruct (Z.leb_spec (start r) i); [|lia]. cbn [andb].
    rewrite seqZ_cons by lia. cbn [visit]. destruct (f i st) as [st' []]; [|done]. cbn [negb].
    rewrite it_succ by (unfold it_in; lia || done). rewrite Nat2Z.inj_succ, Z.pred_succ.
    destruct (Z.eqb_spec i (it_max T)) as [E|E].
    + destruct (Z.ltb_spec (it_min T) i) as [_|Hge].
      * by replace (Z.of_nat n) with 0 by lia.
      * assert (n = O) as -> by lia. cbn [range_loop]. destruct (Z.leb_spec (it_min T) (end_ r)); [|lia].
        destruct (Z.leb_spec (start r) (it_min T)); [|lia]. exfalso. pose proof (it_pow T HT) as [? ?].
        unfold it_min, it_max in *. destruct (it_signed T); lia.
    + destruct (Z.ltb_spec (i + 1) i); [lia|]. by rewrite IH by lia.
Qed.

(** [Range] stops, and calls its function on every value of every range in
    order, up to the call that says stop; the largest value of the type is no
    exception. *)
Lemma ranges_Range_visits {S : Type} T (f : Z -> S -> S * bool) ranges st :
  it_ok T -> Forall (range_wf T) ranges ->
  ranges_Range T f ranges st = Some (visit f (concat (map (fun r => seqZ (start r) (end_ r - start r + 1)) ranges)) st).1.
Proof.
  intros HT Hw. revert st. induction Hw as [|r l Hr _ IH]; intros st; [done|]. cbn [ranges_Range map concat].
  destruct Hr as (H1 & H2 & H3). rewrite (range_loop_visit T f r HT) by (unfold range_wf; lia). rewrite Z2Nat.id by lia.
  rewrite visit_app. destruct (visit f (seqZ (start r) (end_ r - start r + 1)) st) as [st' []]; [apply IH|done].
Qed.

Lemma ranges_Range_visits_witness :
  ranges_Range uint8 (fun i seen => (seen ++ [i], negb (i =? 1)))%list [mkRange 253 255; mkRange 0 3] [] = Some [253; 254; 255; 0; 1].
Proof.
  rewrite (ranges_Range_visits uint8); [reflexivity|reflexivity|]. repeat constructor; cbn; lia.
Defined.
