(* ===== verification/Wildcard.v ===== *)
(** * Wildcards

    Models [component/wildcard/wildcard.go], the matcher behind the rules
    DOMAIN-WILDCARD, PROCESS-NAME-WILDCARD and PROCESS-PATH-WILDCARD: a loop over
    two indices that goes back to the last [*] when it is stuck.  It is proved
    equal to the language of the pattern ([Glob]), for every pattern and string. *)

From S2P Require Import Prelude Names.

(** The loop's variables; [star] is [None] for the code's -1. *)
Record wstate := mkW { patternIndex : nat; sIndex : nat; star : option nat; lastStar : nat }.

(** One pass through the label [Loop]: the next state, or the answer.  At the label
    [checkPattern] only stars may be left.
    @go component/wildcard/wildcard.go:33-83 matchByString *)
Definition checkPattern (pattern : list ascii) (patternIndex : nat) : bool :=
  forallb (fun c => Ascii.eqb c "*") (drop patternIndex pattern).
Definition backtrack (st : wstate) : wstate + bool :=
  match star st with
  | Some star => inl (mkW (star + 1) (lastStar st + 1) (Some star) (lastStar st + 1))
  | None => inr false
  end.
Definition wild_step (pattern s : list ascii) (st : wstate) : wstate + bool :=
  match s !! sIndex st with
  | None => inr (checkPattern pattern (patternIndex st))
  | Some c =>
      match pattern !! patternIndex st with
      | None => backtrack st
      | Some p =>
          if Ascii.eqb p "?" then inl (mkW (patternIndex st + 1) (sIndex st + 1) (star st) (lastStar st))
          else if Ascii.eqb p "*" then inl (mkW (patternIndex st + 1) (sIndex st) (Some (patternIndex st)) (sIndex st))
          else if Ascii.eqb p c then inl (mkW (patternIndex st + 1) (sIndex st + 1) (star st) (lastStar st))
          else backtrack st
      end
  end.
Fixpoint wild_loop (fuel : nat) (pattern s : list ascii) (st : wstate) : option bool :=
  match fuel with
  | O => None
  | S fuel => match wild_step pattern s st with
              | inl st => wild_loop fuel pattern s st
              | inr b => Some b
              end
  end.

(** Passes through the loop move the last star on, or the position tried for it, or
    the place in the pattern. *)
Definition wild_fuel (pattern s : list ascii) : nat := (length pattern + 2) * (length s + 2) * (length pattern + 2).

(** @go component/wildcard/wildcard.go:27-84 matchByString *)
Definition matchByString (pattern s : list ascii) : option bool :=
  wild_loop (wild_fuel pattern s) pattern s (mkW 0 0 None 0).

(** @go component/wildcard/wildcard.go:16-25 Match *)
Definition wildcard_Match (pattern s : string) : option bool :=
  if String.eqb pattern "" then Some (String.eqb s pattern)
  else if String.eqb pattern "*" || String.eqb s pattern then Some true
  else matchByString (String.list_ascii_of_string pattern) (String.list_ascii_of_string s).

(** ** The language of a pattern *)

Inductive Glob : list ascii -> list ascii -> Prop :=
| Glob_nil : Glob [] []
| Glob_one c p s : Glob p s -> Glob ("?"%char :: p) (c :: s)
| Glob_char c p s : c <> "*"%char -> c <> "?"%char -> Glob p s -> Glob (c :: p) (c :: s)
| Glob_star t p s : Glob p s -> Glob ("*"%char :: p) (t ++ s).

#[local] Hint Constructors Glob : dropweb.

Lemma Glob_star_drop p s : Glob ("*"%char :: p) s <-> exists j, (j <= length s)%nat /\ Glob p (drop j s).
Proof.
  split.
  - inversion 1; subst; try done. eexists (length t). rewrite length_app, drop_app_length. split; [lia|done].
  - intros (j & _ & Hg). rewrite <- (take_drop j s). by constructor.
Qed.

Lemma Glob_refl p : Glob p p.
Proof.
  induction p as [|c p IH]; [constructor|]. destruct (decide (c = "*"%char)) as [->|Hs].
  { by apply (Glob_star ["*"%char]). }
  destruct (decide (c = "?"%char)) as [->|Hq]; by constructor.
Qed.

(** A star-free chunk consumes one character per character. *)
Definition chunk_matches (p s : list ascii) : Prop :=
  Forall2 (fun c d => c <> "*"%char /\ (c = "?"%char \/ c = d)) p s.

Lemma Glob_chunk p s q t : chunk_matches p s -> Glob q t -> Glob (p ++ q) (s ++ t).
Proof.
  induction 1 as [|c d p s [Hs Hc] _ IH]; [done|]. intros Hg. cbn.
  destruct (decide (c = "?"%char)) as [->|Hq]; [by constructor; apply IH|]. destruct Hc as [|<-]; [done|]. by constructor; [..|apply IH].
Qed.

Lemma Glob_chunk_inv p q s : Forall (fun c => c <> "*"%char) p -> Glob (p ++ q) s ->
  exists t, s = take (length p) t ++ drop (length p) s /\ (length p <= length s)%nat /\ Glob q (drop (length p) s).
Proof.
  revert s. induction p as [|c p IH]; intros s Hp Hg.
  - exists s. rewrite drop_0. split; [by rewrite take_0|]. split; [cbn; lia|done].
  - inversion_clear Hp as [|? ? Hc Hp']. cbn in Hg. inversion Hg; subst; try done; destruct (IH _ Hp' ltac:(eassumption)) as (t & E & Hl & Hg');
      (eexists (_ :: t); cbn; split; [f_equal; exact E|]; split; [lia|done]).
Qed.

(** A pattern needs a character for each of its own that is no star. *)
Lemma Glob_length p s : Glob p s -> (length (filter (fun c => c <> "*"%char) p) <= length s)%nat.
Proof.
  induction 1 as [|c p s _ IH|c p s Hc _ _ IH|t p s _ IH]; [done|..]; rewrite filter_cons; case_decide; rewrite ?length_app; cbn [length]; try lia.
  exfalso. auto.
Qed.

Lemma Glob_nil_stars p : Glob p [] <-> forallb (fun c => Ascii.eqb c "*") p = true.
Proof.
  induction p as [|c p IH]; cbn; [split; [done|constructor]|]. rewrite andb_true_iff, Ascii.eqb_eq, <- IH. split.
  - inversion 1 as [| | |t p' s' Hg Ep Es]; subst. apply app_eq_nil in Es as [-> ->]. done.
  - intros [-> Hg]. by apply (Glob_star []).
Qed.

Lemma Glob_star_app p s t : Glob ("*"%char :: p) s -> Glob ("*"%char :: p) (t ++ s).
Proof. inversion 1; subst; [done|]. rewrite app_assoc. by apply Glob_star. Qed.

Lemma Glob_star_cons p c s : Glob ("*"%char :: p) (c :: s) <-> Glob p (c :: s) \/ Glob ("*"%char :: p) s.
Proof.
  split.
  - inversion 1 as [| |? ? ? Hn|t p' s' Hg Ep Es]; subst; [done|]. destruct t as [|d t]; cbn in Es; [left; by subst|].
    injection Es as -> <-. right. by apply Glob_star.
  - intros [H|H]; [by apply (Glob_star [])|by apply (Glob_star_app _ _ [c])].
Qed.

Lemma chunk_snoc p s c d : chunk_matches p s -> c <> "*"%char -> c = "?"%char \/ c = d -> chunk_matches (p ++ [c]) (s ++ [d]).
Proof. intros Hp Hc Hd. apply Forall2_app; [done|]. by constructor; [|constructor]. Qed.

Lemma chunk_no_star p s : chunk_matches p s -> Forall (fun c => c <> "*"%char) p.
Proof. induction 1 as [|c d p s [Hc _] _ IH]; by constructor. Qed.

(** The pieces of pattern and string around the indices: [ch] is the chunk since the
    last star and [sc] what it matched. *)
Definition winv (p s : list ascii) (st : wstate) : Prop :=
  exists p0 ch q s0 sc t,
    s = s0 ++ sc ++ t /\ sIndex st = length (s0 ++ sc) /\ chunk_matches ch sc
    /\ match star st with
       | None => p0 = [] /\ p = ch ++ q /\ patternIndex st = length ch /\ s0 = []
       | Some k => p = p0 ++ "*"%char :: ch ++ q /\ k = length p0 /\ patternIndex st = (k + 1 + length ch)%nat
                   /\ lastStar st = length s0 /\ (Glob p s <-> Glob ("*"%char :: ch ++ q) (sc ++ t))
       end.

Lemma chunk_stuck ch q sc t : chunk_matches ch sc -> ~ Glob q t -> ~ Glob (ch ++ q) (sc ++ t).
Proof.
  intros Hch Hq Hg. apply Hq. destruct (Glob_chunk_inv ch q (sc ++ t)) as (_ & _ & _ & Hg'); [by eapply chunk_no_star|done|].
  by rewrite (Forall2_length _ _ _ Hch), drop_app_length in Hg'.
Qed.

Lemma chunk_star ch q sc t : chunk_matches ch sc ->
  Glob ("*"%char :: ch ++ "*"%char :: q) (sc ++ t) <-> Glob ("*"%char :: q) t.
Proof.
  intros Hch. split.
  - intros (j & Hj & Hg)%Glob_star_drop.
    destruct (Glob_chunk_inv ch ("*"%char :: q) (drop j (sc ++ t))) as (_ & _ & _ & Hg'); [by eapply chunk_no_star|done|].
    rewrite drop_drop, (Nat.add_comm j), <- drop_drop, (Forall2_length _ _ _ Hch), drop_app_length in Hg'.
    rewrite <- (take_drop j t). by apply Glob_star_app.
  - intros Hg. apply (Glob_star []). by apply Glob_chunk.
Qed.

Lemma chunk_end ch q sc : chunk_matches ch sc ->
  Glob ("*"%char :: ch ++ q) sc <-> Glob q [].
Proof.
  intros Hch. split.
  - intros (j & Hj & Hg)%Glob_star_drop. destruct (Glob_chunk_inv ch q (drop j sc)) as (_ & _ & Hl & Hg'); [by eapply chunk_no_star|done|].
    rewrite (Forall2_length _ _ _ Hch), length_drop in *. destruct j as [|j]; [|destruct sc; cbn in *; [done|lia]].
    by rewrite drop_0, drop_all in Hg'.
  - intros Hg. apply (Glob_star []). rewrite <- (app_nil_r sc). by apply Glob_chunk.
Qed.

(** One pass: an answer is right, going on keeps the invariant and comes nearer to
    the end. *)
Definition wmeasure (p s : list ascii) (st : wstate) : nat :=
  let stars := match star st with None => 0%nat | Some k => S k end in
  ((length p - stars) * (length s + 2) + (length s + 1 - lastStar st)) * (length p + 2) + (length p - patternIndex st).

Lemma wmeasure_lt (P L a b c a' b' c' : nat) :
  (a' < a)%nat /\ (b' <= L + 1)%nat /\ (c' <= P)%nat \/ a' = a /\ (b' < b)%nat /\ (c' <= P)%nat \/ a' = a /\ b' = b /\ (c' < c)%nat ->
  ((a' * (L + 2) + b') * (P + 2) + c' < (a * (L + 2) + b) * (P + 2) + c)%nat.
Proof. intros [(H1 & H2 & H3)|[(-> & H2 & H3)|(-> & -> & H3)]]; [|nia|lia]. assert (a' + 1 <= a)%nat by lia. nia. Qed.

Lemma wild_lookups (p s p0 ch q s0 sc t : list ascii) (k n : nat) : k = length (p0 ++ ch) -> n = length (s0 ++ sc) ->
  p = p0 ++ ch ++ q -> s = s0 ++ sc ++ t -> p !! k = head q /\ s !! n = head t.
Proof.
  intros -> -> -> ->. rewrite !app_assoc. split; rewrite lookup_app_r by done; rewrite Nat.sub_diag; by destruct q, t.
Qed.

Lemma wild_backtrack p s p0 ch q s0 sc t k st c rest :
  chunk_matches ch sc -> sc ++ t = c :: rest -> ~ Glob q t -> s = s0 ++ sc ++ t ->
  p = p0 ++ "*"%char :: ch ++ q -> k = length p0 -> lastStar st = length s0 -> star st = Some k ->
  (Glob p s <-> Glob ("*"%char :: ch ++ q) (sc ++ t)) ->
  winv p s (mkW (k + 1) (lastStar st + 1) (Some k) (lastStar st + 1))
  /\ (wmeasure p s (mkW (k + 1) (lastStar st + 1) (Some k) (lastStar st + 1)) < wmeasure p s st)%nat.
Proof.
  intros Hch E Hq Hs Hp Hk Hl Hstar Hg. split.
  - exists p0, [], (ch ++ q), (s0 ++ [c]), [], rest. cbn [sIndex patternIndex lastStar star]. rewrite !length_app, Hl. cbn [length app].
    split; [rewrite Hs, E, <- app_assoc; done|]. split; [lia|]. split; [constructor|]. split; [done|]. split; [done|]. split; [lia|].
    split; [done|]. rewrite Hg, E, Glob_star_cons. split; [|by right]. intros [H|H]; [|done].
    exfalso. rewrite <- E in H. by apply (chunk_stuck ch q sc t).
  - unfold wmeasure. cbn [sIndex patternIndex lastStar star]. rewrite Hstar. apply wmeasure_lt. right. left. split; [done|].
    assert (length s0 < length s)%nat by (rewrite Hs, E, length_app; cbn; lia). rewrite Hl. lia.
Qed.

Lemma wild_step_ok p s st : winv p s st ->
  match wild_step p s st with
  | inr b => b = true <-> Glob p s
  | inl st' => winv p s st' /\ (wmeasure p s st' < wmeasure p s st)%nat
  end.
Proof.
  intros (p0 & ch & q & s0 & sc & t & Hs & Hsi & Hch & Hst). unfold wild_step.
  assert (HG : Glob p s <-> match star st with None => Glob q t | Some _ => Glob ("*"%char :: ch ++ q) (sc ++ t) end).
  { destruct (star st); [by destruct Hst as (_ & _ & _ & _ & ?)|]. destruct Hst as (-> & -> & _ & ->). rewrite Hs. cbn [app].
    split; [|by apply Glob_chunk]. intros Hg. destruct (Glob_chunk_inv ch q (sc ++ t)) as (_ & _ & _ & Hg'); [by eapply chunk_no_star|done|].
    by rewrite (Forall2_length _ _ _ Hch), drop_app_length in Hg'. }
  assert (Hlk : p !! patternIndex st = head q /\ s !! sIndex st = head t).
  { destruct (star st) as [k|].
    - destruct Hst as (Hp & -> & Hpi & _). apply (wild_lookups _ _ (p0 ++ ["*"%char]) ch q s0 sc t); [|done| |done].
      + rewrite Hpi, !length_app. cbn. lia.
      + by rewrite Hp, <- app_assoc.
    - destruct Hst as (-> & Hp & Hpi & ->). by apply (wild_lookups _ _ [] ch q [] sc t). }
  destruct Hlk as [-> ->].
  assert (Hlen : length s = (sIndex st + length t)%nat) by (rewrite Hs, Hsi, !length_app; lia).
  assert (Hlenp : length p = (patternIndex st + length q)%nat).
  { destruct (star st); [destruct Hst as (-> & -> & -> & _)|destruct Hst as (-> & -> & -> & _)]; rewrite ?length_app; cbn [length]; rewrite ?length_app; lia. }
  destruct t as [|c t]; cbn [head].
  { unfold checkPattern. replace (drop (patternIndex st) p) with q.
    - rewrite HG, <- Glob_nil_stars. destruct (star st); [|done]. rewrite app_nil_r. by rewrite chunk_end.
    - destruct (star st) as [k|]; [destruct Hst as (-> & -> & -> & _)|destruct Hst as (-> & -> & -> & _)].
      + change (p0 ++ "*"%char :: ch ++ q) with (p0 ++ ["*"%char] ++ ch ++ q). rewrite !app_assoc. symmetry. apply drop_app_length'.
        rewrite !length_app. cbn. lia.
      + symmetry. apply drop_app_length. }
  assert (Hback : ~ Glob q (c :: t) ->
    match backtrack st with inr b => b = true <-> Glob p s | inl st' => winv p s st' /\ (wmeasure p s st' < wmeasure p s st)%nat end).
  { intros Hq. unfold backtrack. destruct (star st) as [k|] eqn:Estar; [|by rewrite HG].
    destruct Hst as (Hp & Hk & Hpi & Hl & Hg). 
    assert (exists d rest, sc ++ c :: t = d :: rest) as (d & rest & E) by (destruct sc; by do 2 eexists).
    by apply (wild_backtrack p s p0 ch q s0 sc (c :: t) k st d rest). }
  destruct q as [|d q]; cbn [head]; [apply Hback; by inversion 1|].
  assert (Hadv : d <> "*"%char -> d = "?"%char \/ d = c ->
    winv p s (mkW (patternIndex st + 1) (sIndex st + 1) (star st) (lastStar st))
    /\ (wmeasure p s (mkW (patternIndex st + 1) (sIndex st + 1) (star st) (lastStar st)) < wmeasure p s st)%nat).
  { intros Hd Hdc. split.
    - exists p0, (ch ++ [d]), q, s0, (sc ++ [c]), t. cbn [sIndex patternIndex lastStar star]. rewrite <- !app_assoc. cbn [app].
      split; [done|]. split; [rewrite Hsi, !length_app; cbn; lia|]. split; [by apply chunk_snoc|].
      destruct (star st) as [k|]; [destruct Hst as (Hp & Hk & Hpi & Hl & Hg)|destruct Hst as (? & Hp & Hpi & ?)]; rewrite Hpi, length_app; cbn [length];
        repeat (split; [done || lia|]); done || lia.
    - unfold wmeasure. cbn [sIndex patternIndex lastStar star]. cbn [length] in Hlenp. lia. }
  destruct (Ascii.eqb_spec d "?") as [->|Hnq]; [by apply Hadv; [|left]|].
  destruct (Ascii.eqb_spec d "*") as [->|Hns].
  - split.
    + exists (match star st with None => ch | Some _ => p0 ++ "*"%char :: ch end), [], q, (s0 ++ sc), [], (c :: t).
      cbn [sIndex patternIndex lastStar star app]. rewrite app_nil_r, <- app_assoc.
      split; [done|]. split; [done|]. split; [constructor|].
      assert (HG' : Glob p s <-> Glob ("*"%char :: q) (c :: t)).
      { rewrite HG. destruct (star st); [|done]. by apply chunk_star. }
      destruct (star st) as [k|].
      * destruct Hst as (Hp & Hk & Hpi & Hl & Hg). split; [rewrite Hp, <- app_assoc; done|]. split; [rewrite Hpi, length_app; cbn; lia|].
        split; [cbn; lia|]. done.
      * destruct Hst as (-> & Hp & Hpi & ->). split; [done|]. split; [done|]. split; [cbn; lia|]. done.
    + unfold wmeasure. cbn [sIndex patternIndex lastStar star]. cbn [length] in Hlenp. apply wmeasure_lt. left.
      split; [|lia]. destruct (star st) as [k|]; [|lia]. destruct Hst as (_ & _ & Hpi & _). lia.
  - destruct (Ascii.eqb_spec d c) as [->|Hdc]; [by apply Hadv; [|right]|]. apply Hback. inversion 1; congruence.
Qed.

Lemma wild_loop_ok p s fuel : forall st, winv p s st -> (wmeasure p s st < fuel)%nat ->
  exists b, wild_loop fuel p s st = Some b /\ (b = true <-> Glob p s).
Proof.
  induction fuel as [|fuel IH]; intros st Hinv Hm; [lia|]. cbn [wild_loop]. pose proof (wild_step_ok p s st Hinv) as Hs.
  destruct (wild_step p s st) as [st'|b]; [|by exists b]. destruct Hs as [Hi Hlt]. apply IH; [done|lia].
Qed.

(** The loop starts in its invariant and has fuel enough. *)
Lemma matchByString_ok p s : exists b, matchByString p s = Some b /\ (b = true <-> Glob p s).
Proof.
  apply wild_loop_ok.
  - exists [], [], p, [], [], s. cbn. repeat split; constructor.
  - unfold wmeasure, wild_fuel. cbn. nia.
Qed.

Lemma wildcard_Match_total pattern s : wildcard_Match pattern s <> None.
Proof.
  unfold wildcard_Match. repeat case_match; [done..|]. by destruct (matchByString_ok (String.list_ascii_of_string pattern) (String.list_ascii_of_string s)) as (b & -> & _).
Qed.

(** C25: [Match] returns for every pattern and string, and says yes exactly for the
    strings of the pattern's language. *)
Theorem wildcard_Match_glob pattern s :
  exists b, wildcard_Match pattern s = Some b
            /\ (b = true <-> Glob (String.list_ascii_of_string pattern) (String.list_ascii_of_string s)).
Proof.
  unfold wildcard_Match. destruct (String.eqb_spec pattern "") as [->|_].
  { eexists. split; [done|]. rewrite String.eqb_eq. split; [intros ->; constructor|]. destruct s; [done|]. inversion 1. }
  destruct (String.eqb_spec pattern "*") as [->|_]; cbn [orb].
  { eexists. split; [done|]. split; [|done]. intros _. cbn.
    rewrite <- (app_nil_r (String.list_ascii_of_string s)). constructor. constructor. }
  destruct (String.eqb_spec s pattern) as [->|_]; [eexists; split; [done|]; split; [intros; apply Glob_refl|done]|].
  apply matchByString_ok.
Qed.
