(* ===== verification/Metadata.v ===== *)
(** * Connection metadata

    Models [constant/metadata.go]: what the tunnel and the rules know of a
    connection, and the enumerations of [constant/] it uses.  The socket addresses
    and the fields nothing modelled here reads (inbound address, remote
    destination, connection id) are left out. *)

From S2P Require Import Prelude Names Netip.
#[local] Open Scope string_scope.

(** @go constant/metadata.go:18-23 NetWork *)
Inductive NetWork := TCP | UDP | ALLNet | InvalidNet.

(** @go constant/metadata.go:66-77 NetWork.String *)
Definition NetWork_String (n : NetWork) : string :=
  match n with TCP => "tcp" | UDP => "udp" | ALLNet => "all" | InvalidNet => "invalid" end.

(** @go constant/metadata.go:25-47 Type *)
Inductive Type_ :=
| HTTP | HTTPS | SOCKS4 | SOCKS5 | SHADOWSOCKS | SNELL | VMESS | VLESS | REDIR | TPROXY | TROJAN | TUNNEL | TUN
| TUIC | HYSTERIA2 | ANYTLS | MIERU | SUDOKU | TRUSTTUNNEL | SHADOWQUIC | INNER.

#[export] Instance NetWork_eq_dec : EqDecision NetWork.
Proof. solve_decision. Defined.
#[export] Instance Type_eq_dec : EqDecision Type_.
Proof. solve_decision. Defined.

(** @go constant/metadata.go:85-132 Type.String *)
Definition Type_String (t : Type_) : string :=
  match t with
  | HTTP => "HTTP" | HTTPS => "HTTPS" | SOCKS4 => "Socks4" | SOCKS5 => "Socks5" | SHADOWSOCKS => "ShadowSocks"
  | SNELL => "Snell" | VMESS => "Vmess" | VLESS => "Vless" | REDIR => "Redir" | TPROXY => "TProxy" | TROJAN => "Trojan"
  | TUNNEL => "Tunnel" | TUN => "Tun" | TUIC => "Tuic" | HYSTERIA2 => "Hysteria2" | ANYTLS => "AnyTLS"
  | MIERU => "Mieru" | SUDOKU => "Sudoku" | TRUSTTUNNEL => "TrustTunnel" | SHADOWQUIC => "ShadowQuic" | INNER => "Inner"
  end.

(** @go constant/metadata.go:134-183 ParseType *)
Definition ParseType (t : string) : option Type_ :=
  match t with
  | "HTTP" => Some HTTP | "HTTPS" => Some HTTPS | "SOCKS4" => Some SOCKS4 | "SOCKS5" => Some SOCKS5
  | "SHADOWSOCKS" => Some SHADOWSOCKS | "SNELL" => Some SNELL | "VMESS" => Some VMESS | "VLESS" => Some VLESS
  | "REDIR" => Some REDIR | "TPROXY" => Some TPROXY | "TROJAN" => Some TROJAN | "TUNNEL" => Some TUNNEL
  | "TUN" => Some TUN | "TUIC" => Some TUIC | "HYSTERIA2" => Some HYSTERIA2 | "ANYTLS" => Some ANYTLS
  | "MIERU" => Some MIERU | "SUDOKU" => Some SUDOKU | "TRUSTTUNNEL" => Some TRUSTTUNNEL
  | "SHADOWQUIC" => Some SHADOWQUIC | "INNER" => Some INNER
  | _ => None
  end.

(** [DNSNormal], [DNSFakeIP], [DNSMapping], [DNSHosts].
    @go constant/dns.go:15-22 DNSMode *)
Inductive DNSMode := DNSNormal | DNSFakeIP | DNSMapping | DNSHosts.
#[export] Instance DNSMode_eq_dec : EqDecision DNSMode.
Proof. solve_decision. Defined.

(** A country list that was never queried is [None].
    @go constant/metadata.go:190-223 Metadata *)
Record Metadata := mkMetadata {
  md_NetWork : NetWork; md_Type : Type_;
  md_SrcIP : Addr; md_DstIP : Addr;
  md_SrcGeoIP : option (list string); md_DstGeoIP : option (list string);
  md_SrcIPASN : string; md_DstIPASN : string;
  md_SrcPort : Z; md_DstPort : Z; md_InPort : Z;
  md_InName : string; md_InUser : string; md_RematchName : string;
  md_Host : string; md_DNSMode : DNSMode; md_Uid : Z; md_Process : string; md_ProcessPath : string;
  md_SpecialProxy : string; md_SpecialRules : string; md_DSCP : Z;
  md_SmartBlock : string; md_SmartTarget : string; md_SniffHost : string
}.

(** ** Assignments to a field *)

Definition set_DstIP (ip : Addr) (m : Metadata) : Metadata :=
  let '(mkMetadata a b c _ e f g h i j k l n o p q r s t u v w x y z) := m in
  mkMetadata a b c ip e f g h i j k l n o p q r s t u v w x y z.
Definition set_SrcGeoIP (x0 : option (list string)) (m : Metadata) : Metadata :=
  let '(mkMetadata a b c d _ f g h i j k l n o p q r s t u v w x y z) := m in
  mkMetadata a b c d x0 f g h i j k l n o p q r s t u v w x y z.
Definition set_DstGeoIP (x0 : option (list string)) (m : Metadata) : Metadata :=
  let '(mkMetadata a b c d e _ g h i j k l n o p q r s t u v w x y z) := m in
  mkMetadata a b c d e x0 g h i j k l n o p q r s t u v w x y z.
Definition set_SrcIPASN (x0 : string) (m : Metadata) : Metadata :=
  let '(mkMetadata a b c d e f _ h i j k l n o p q r s t u v w x y z) := m in
  mkMetadata a b c d e f x0 h i j k l n o p q r s t u v w x y z.
Definition set_DstIPASN (x0 : string) (m : Metadata) : Metadata :=
  let '(mkMetadata a b c d e f g _ i j k l n o p q r s t u v w x y z) := m in
  mkMetadata a b c d e f g x0 i j k l n o p q r s t u v w x y z.
Definition set_RematchName (x0 : string) (m : Metadata) : Metadata :=
  let '(mkMetadata a b c d e f g h i j k l n _ p q r s t u v w x y z) := m in
  mkMetadata a b c d e f g h i j k l n x0 p q r s t u v w x y z.
Definition set_Host (x0 : string) (m : Metadata) : Metadata :=
  let '(mkMetadata a b c d e f g h i j k l n o _ q r s t u v w x y z) := m in
  mkMetadata a b c d e f g h i j k l n o x0 q r s t u v w x y z.
Definition set_DNSMode (x0 : DNSMode) (m : Metadata) : Metadata :=
  let '(mkMetadata a b c d e f g h i j k l n o p _ r s t u v w x y z) := m in
  mkMetadata a b c d e f g h i j k l n o p x0 r s t u v w x y z.
(** [metadata.Uid], [metadata.Process] and [metadata.ProcessPath] together. *)
Definition set_Process (uid : Z) (process path : string) (m : Metadata) : Metadata :=
  let '(mkMetadata a b c d e f g h i j k l n o p q _ _ _ u v w x y z) := m in
  mkMetadata a b c d e f g h i j k l n o p q uid process path u v w x y z.
Definition set_SpecialRules (x0 : string) (m : Metadata) : Metadata :=
  let '(mkMetadata a b c d e f g h i j k l n o p q r s t u _ w x y z) := m in
  mkMetadata a b c d e f g h i j k l n o p q r s t u x0 w x y z.
Definition set_SmartBlock (x0 : string) (m : Metadata) : Metadata :=
  let '(mkMetadata a b c d e f g h i j k l n o p q r s t u v w _ y z) := m in
  mkMetadata a b c d e f g h i j k l n o p q r s t u v w x0 y z.
Definition set_SmartTarget (x0 : string) (m : Metadata) : Metadata :=
  let '(mkMetadata a b c d e f g h i j k l n o p q r s t u v w x _ z) := m in
  mkMetadata a b c d e f g h i j k l n o p q r s t u v w x x0 z.

Definition set_NetWork (x0 : NetWork) (m : Metadata) : Metadata :=
  let '(mkMetadata _ b c d e f g h i j k l n o p q r s t u v w x y z) := m in
  mkMetadata x0 b c d e f g h i j k l n o p q r s t u v w x y z.
Definition set_Type (x0 : Type_) (m : Metadata) : Metadata :=
  let '(mkMetadata a _ c d e f g h i j k l n o p q r s t u v w x y z) := m in
  mkMetadata a x0 c d e f g h i j k l n o p q r s t u v w x y z.
Definition set_SrcIP (x0 : Addr) (m : Metadata) : Metadata :=
  let '(mkMetadata a b _ d e f g h i j k l n o p q r s t u v w x y z) := m in
  mkMetadata a b x0 d e f g h i j k l n o p q r s t u v w x y z.
Definition set_SrcPort (x0 : Z) (m : Metadata) : Metadata :=
  let '(mkMetadata a b c d e f g h _ j k l n o p q r s t u v w x y z) := m in
  mkMetadata a b c d e f g h x0 j k l n o p q r s t u v w x y z.
Definition set_DstPort (x0 : Z) (m : Metadata) : Metadata :=
  let '(mkMetadata a b c d e f g h i _ k l n o p q r s t u v w x y z) := m in
  mkMetadata a b c d e f g h i x0 k l n o p q r s t u v w x y z.
Definition set_InUser (x0 : string) (m : Metadata) : Metadata :=
  let '(mkMetadata a b c d e f g h i j k l _ o p q r s t u v w x y z) := m in
  mkMetadata a b c d e f g h i j k l x0 o p q r s t u v w x y z.

(** The zero value of the struct. *)
Definition zeroMetadata : Metadata :=
  mkMetadata TCP HTTP zeroAddr zeroAddr None None "" "" 0 0 0 "" "" "" "" DNSNormal 0 "" "" "" "" 0 "" "" "".

(** ** Methods *)

(** @go constant/metadata.go:12-16 AtypIPv4, AtypDomainName, AtypIPv6 *)
Inductive AddrType := AtypIPv4 | AtypDomainName | AtypIPv6.

(** @go constant/metadata.go:258-267 Metadata.AddrType *)
Definition md_AddrType (m : Metadata) : AddrType :=
  if negb (String.eqb (md_Host m) "") || negb (addr_IsValid (md_DstIP m)) then AtypDomainName
  else if addr_Is4 (md_DstIP m) then AtypIPv4 else AtypIPv6.

(** @go constant/metadata.go:254-256 Metadata.SourceValid *)
Definition SourceValid (m : Metadata) : bool := negb (md_SrcPort m =? 0)%Z && addr_IsValid (md_SrcIP m).

(** @go constant/metadata.go:269-271 Metadata.Resolved *)
Definition Resolved (m : Metadata) : bool := addr_IsValid (md_DstIP m).

(** @go constant/metadata.go:273-279 Metadata.RuleHost *)
Definition RuleHost (m : Metadata) : string := if String.eqb (md_SniffHost m) "" then md_Host m else md_SniffHost m.

(** @go constant/metadata.go:281-291 Metadata.Pure *)
Definition Pure (m : Metadata) : Metadata :=
  if (bool_decide (md_DNSMode m = DNSMapping) || bool_decide (md_DNSMode m = DNSHosts)) && addr_IsValid (md_DstIP m)
  then set_Host "" m else m.

(** @go constant/metadata.go:319-321 Metadata.Valid *)
Definition md_Valid (m : Metadata) : bool := negb (String.eqb (md_Host m) "") || addr_IsValid (md_DstIP m).

(** @go constant/metadata.go:374-379 Metadata.SwapSrcDst *)
Definition SwapSrcDst (m : Metadata) : Metadata :=
  let '(mkMetadata a b src dst sgeo dgeo sasn dasn sport dport k l n o p q r s t u v w x y z) := m in
  mkMetadata a b dst src dgeo sgeo dasn sasn dport sport k l n o p q r s t u v w x y z.

Lemma SwapSrcDst_involutive m : SwapSrcDst (SwapSrcDst m) = m.
Proof. by destruct m. Qed.

(** Inbound types are parsed from their upper-cased names. *)
Lemma ParseType_String t : ParseType (ToUpper (Type_String t)) = Some t.
Proof. by destruct t. Qed.

Lemma RuleHost_set_DstIP ip m : RuleHost (set_DstIP ip m) = RuleHost m.
Proof. by destruct m. Qed.
