(* ===== verification/Rules.v ===== *)
(** * Rules

    Models the matchers of [rules/common/], the logic rules of
    [rules/logic/logic.go], rule sets and the wrapper that counts hits.  A rule is
    matched against the metadata of a connection and may change it: it may resolve
    the host, look for the process, and note what the databases said.  The
    databases, regular expressions and what other parts of the program answer are
    the records [Databases] and [RuleEnv]. *)

From S2P Require Import Prelude Names Netip Ranges Wildcard Metadata.
#[local] Open Scope string_scope.
#[local] Open Scope Z_scope.

(** ** Kinds of rules *)

(** @go constant/rule.go:6-43 RuleType *)
Inductive RuleType :=
| RT_Domain | RT_DomainSuffix | RT_DomainKeyword | RT_DomainRegex | RT_DomainWildcard | RT_GEOSITE | RT_GEOIP
| RT_SrcGEOIP | RT_IPASN | RT_SrcIPASN | RT_IPCIDR | RT_SrcIPCIDR | RT_IPSuffix | RT_SrcIPSuffix | RT_SrcPort
| RT_DstPort | RT_InPort | RT_DSCP | RT_InUser | RT_InName | RT_InType | RT_ProcessName | RT_ProcessPath
| RT_ProcessNameRegex | RT_ProcessPathRegex | RT_ProcessNameWildcard | RT_ProcessPathWildcard | RT_RematchName
| RT_RuleSet | RT_Network | RT_Uid | RT_SubRules | RT_MATCH | RT_AND | RT_OR | RT_NOT.

#[export] Instance RuleType_eq_dec : EqDecision RuleType.
Proof. solve_decision. Defined.

(** @go constant/rule.go:47-62 SmartRuleTypes *)
Definition SmartRuleTypes (rt : RuleType) : bool :=
  match rt with
  | RT_Domain | RT_DomainSuffix | RT_DomainKeyword | RT_DomainRegex | RT_DomainWildcard | RT_GEOSITE | RT_GEOIP
  | RT_IPASN | RT_IPCIDR | RT_IPSuffix | RT_RuleSet | RT_SubRules | RT_AND | RT_OR => true
  | _ => false
  end.

(** @go constant/rule.go:64-141 RuleType.String *)
Definition RuleType_String (rt : RuleType) : string :=
  match rt with
  | RT_Domain => "Domain" | RT_DomainSuffix => "DomainSuffix" | RT_DomainKeyword => "DomainKeyword"
  | RT_DomainRegex => "DomainRegex" | RT_DomainWildcard => "DomainWildcard" | RT_GEOSITE => "GeoSite"
  | RT_GEOIP => "GeoIP" | RT_SrcGEOIP => "SrcGeoIP" | RT_IPASN => "IPASN" | RT_SrcIPASN => "SrcIPASN"
  | RT_IPCIDR => "IPCIDR" | RT_SrcIPCIDR => "SrcIPCIDR" | RT_IPSuffix => "IPSuffix" | RT_SrcIPSuffix => "SrcIPSuffix"
  | RT_SrcPort => "SrcPort" | RT_DstPort => "DstPort" | RT_InPort => "InPort" | RT_InUser => "InUser"
  | RT_InName => "InName" | RT_InType => "InType" | RT_ProcessName => "ProcessName" | RT_ProcessPath => "ProcessPath"
  | RT_ProcessNameRegex => "ProcessNameRegex" | RT_ProcessPathRegex => "ProcessPathRegex"
  | RT_ProcessNameWildcard => "ProcessNameWildcard" | RT_ProcessPathWildcard => "ProcessPathWildcard"
  | RT_RematchName => "RematchName" | RT_MATCH => "Match" | RT_RuleSet => "RuleSet" | RT_Network => "Network"
  | RT_DSCP => "DSCP" | RT_Uid => "Uid" | RT_SubRules => "SubRules" | RT_AND => "AND" | RT_OR => "OR" | RT_NOT => "NOT"
  end.

(** ** What a match may change *)

(** The counters of a [RuleWrapper]; times are Unix nanoseconds.
    @go rules/wrapper/wrapper.go:10-17 RuleWrapper *)
Record RuleStats := mkStats { disabled : bool; hitCount : Z; hitAt : Z; missCount : Z; missAt : Z }.

(** The metadata, the variables [resolved] and [attemptProcessLookup] that the
    helpers close over, and the wrappers by their addresses. *)
Record MState := mkMState { st_md : Metadata; resolved : bool; attemptProcessLookup : bool; wrappers : gmap nat RuleStats }.
Definition upd_md (f : Metadata -> Metadata) (st : MState) : MState :=
  mkMState (f (st_md st)) (resolved st) (attemptProcessLookup st) (wrappers st).

(** A function that is [nil] is [None].
    @go constant/rule.go:172-176 RuleMatchHelper *)
Record RuleMatchHelper := mkHelper {
  ResolveIP : option (MState -> MState);
  FindProcess : option (MState -> MState);
  CheckPassRule : option (string -> Metadata -> bool)
}.

(** A match ends with a value, panics, or is cut short by its fuel. *)
Inductive res (A : Type) := Ok (a : A) (st : MState) | Diverges | Panics.
Arguments Ok {A} a st.
Arguments Diverges {A}.
Arguments Panics {A}.
Definition M (A : Type) : Type := MState -> res A.
Definition ret {A} (a : A) : M A := fun st => Ok a st.
Definition bind {A B} (m : M A) (k : A -> M B) : M B :=
  fun st => match m st with Ok a st => k a st | Diverges => Diverges | Panics => Panics end.
Definition get_md : M Metadata := fun st => Ok (st_md st) st.
Definition modify_md (f : Metadata -> Metadata) : M unit := fun st => Ok tt (upd_md f st).
Definition call (f : option (MState -> MState)) : M unit := fun st => Ok tt (match f with Some f => f st | None => st end).

Declare Scope match_scope.
Delimit Scope match_scope with match_.
Notation "x <-- m ;; k" := (bind m (fun x => k)) (at level 100, m at next level, right associativity) : match_scope.
Notation "m ;;; k" := (bind m (fun _ => k)) (at level 100, right associativity) : match_scope.
#[local] Open Scope match_scope.

(** ** Databases *)

(** The three kinds of country database, by what they hold for an address; an
    element of a list that is no string is [None].
    @go component/mmdb/reader.go:12-21 IPReader, geoip2Country *)
Inductive MetaV0Record := MetaString (s : string) | MetaList (l : list (option string)) | MetaOther.
Inductive IPReader :=
| typeMaxmind (iso_code : Addr -> string)
| typeSing (code : Addr -> string)
| typeMetaV0 (record : Addr -> MetaV0Record).

(** [None]: the lookup panics.
    @go component/mmdb/reader.go:37-73 IPReader.LookupCode *)
Definition LookupCode (r : IPReader) (ip : Addr) : option (list string) :=
  match r with
  | typeMaxmind iso_code => Some (if String.eqb (iso_code ip) "" then [] else [ToLower (iso_code ip)])
  | typeSing code => Some (if String.eqb (code ip) "" then [] else [code ip])
  | typeMetaV0 record =>
      match record ip with
      | MetaString s => Some [s]
      | MetaList l => mapM (fun item => item) l
      | MetaOther => Some []
      end
  end.

(** @go component/mmdb/reader.go:23-35 ASNReader, GeoLite2, IPInfo *)
Inductive ASNReader :=
| GeoLite2 (lookup : Addr -> Z * string)
| IPInfo (lookup : Addr -> string * string)
| UnsupportedASN.

(** [s[2:]] of a string; [None] when it is shorter. *)
Definition from_2 (s : string) : option string := match s with String _ (String _ r) => Some r | _ => None end.

(** [None]: the lookup panics, as [result.ASN[2:]] does when the address is not in
    the database.
    @go component/mmdb/reader.go:75-89 ASNReader.LookupASN *)
Definition LookupASN (r : ASNReader) (ip : Addr) : option (string * string) :=
  match r with
  | GeoLite2 lookup => Some (FormatInt (lookup ip).1, (lookup ip).2)
  | IPInfo lookup => asn ← from_2 (lookup ip).1; Some (asn, (lookup ip).2)
  | UnsupportedASN => Some ("", "")
  end.

(** What the matchers ask of packages that are not modelled: [geodata] with its
    mode and its matchers, the two databases, and [regexp2] on a pattern and a
    text. *)
Record Databases := mkDatabases {
  GeodataMode : bool;
  LoadGeoIPMatcher : string -> option (Addr -> bool);
  LoadGeoSiteMatcher : string -> option (string -> bool);
  IPInstance : IPReader;
  ASNInstance : ASNReader;
  regexp_MatchString : string -> string -> bool
}.

(** ** The matchers *)

(** @go rules/common/domain.go:9-13 Domain *)
Record Domain := mkDomain { do_domain : string; do_adapter : string }.
(** @go rules/common/domain.go:19-21 Domain.Match *)
Definition Domain_Match (d : Domain) (m : Metadata) : bool * string := (String.eqb (RuleHost m) (do_domain d), do_adapter d).

(** @go rules/common/domain_keyword.go:9-13 DomainKeyword *)
Record DomainKeyword := mkDomainKeyword { dk_keyword : string; dk_adapter : string }.
(** @go rules/common/domain_keyword.go:19-22 DomainKeyword.Match *)
Definition DomainKeyword_Match (dk : DomainKeyword) (m : Metadata) : bool * string :=
  (ContainsStr (RuleHost m) (dk_keyword dk), dk_adapter dk).

(** @go rules/common/domain_suffix.go:9-13 DomainSuffix *)
Record DomainSuffix := mkDomainSuffix { ds_suffix : string; ds_adapter : string }.
(** @go rules/common/domain_suffix.go:19-22 DomainSuffix.Match *)
Definition DomainSuffix_Match (ds : DomainSuffix) (m : Metadata) : bool * string :=
  let domain := RuleHost m in
  (HasSuffix domain (String "." (ds_suffix ds)) || String.eqb domain (ds_suffix ds), ds_adapter ds).

(** @go rules/common/domain_regex.go:9-13 DomainRegex *)
Record DomainRegex := mkDomainRegex { dr_regex : string; dr_adapter : string }.
(** @go rules/common/domain_regex.go:19-23 DomainRegex.Match *)
Definition DomainRegex_Match (db : Databases) (dr : DomainRegex) (m : Metadata) : bool * string :=
  (regexp_MatchString db (dr_regex dr) (RuleHost m), dr_adapter dr).

(** @go rules/common/domain_wildcard.go:10-14 DomainWildcard *)
Record DomainWildcard := mkDomainWildcard { dw_pattern : string; dw_adapter : string }.
(** @go rules/common/domain_wildcard.go:20-22 DomainWildcard.Match *)
Definition DomainWildcard_Match (dw : DomainWildcard) (m : Metadata) : option (bool * string) :=
  b ← wildcard_Match (dw_pattern dw) (RuleHost m); Some (b, dw_adapter dw).

(** @go rules/common/geosite.go:14-19 GEOSITE *)
Record GEOSITE := mkGEOSITE { gs_country : string; gs_adapter : string }.
(** @go rules/common/geosite.go:25-39 GEOSITE.Match, GEOSITE.MatchDomain *)
Definition GEOSITE_MatchDomain (db : Databases) (gs : GEOSITE) (domain : string) : bool :=
  if String.eqb domain "" then false
  else match LoadGeoSiteMatcher db (gs_country gs) with None => false | Some matcher => matcher domain end.
Definition GEOSITE_Match (db : Databases) (gs : GEOSITE) (m : Metadata) : bool * string :=
  (GEOSITE_MatchDomain db gs (RuleHost m), gs_adapter gs).

(** @go rules/common/geoip.go:18-24 GEOIP *)
Record GEOIP := mkGEOIP { g_country : string; g_adapter : string; g_noResolveIP : bool; g_isSourceIP : bool }.

(** @go rules/common/geoip.go:154-160 GEOIP.isLan *)
Definition isLan (ip : Addr) : bool :=
  addr_IsPrivate ip || addr_IsUnspecified ip || addr_IsLoopback ip || addr_IsMulticast ip || addr_IsLinkLocalUnicast ip.

(** [slices.Contains] on strings. *)
Definition contains_str (l : list string) (s : string) : bool := existsb (String.eqb s) l.

(** The country codes noted for the source or the destination. *)
Definition geo_noted (g : GEOIP) (m : Metadata) : option (list string) :=
  if g_isSourceIP g then md_SrcGeoIP m else md_DstGeoIP m.
Definition note_geo (g : GEOIP) (codes : option (list string)) : Metadata -> Metadata :=
  if g_isSourceIP g then set_SrcGeoIP codes else set_DstGeoIP codes.

(** @go rules/common/geoip.go:35-96 GEOIP.Match *)
Definition GEOIP_Match (db : Databases) (g : GEOIP) (h : RuleMatchHelper) : M (bool * string) :=
  (if negb (g_noResolveIP g) && negb (g_isSourceIP g) then call (ResolveIP h) else ret tt) ;;;
  m <-- get_md ;;
  let ip := if g_isSourceIP g then md_SrcIP m else md_DstIP m in
  if negb (addr_IsValid ip) then ret (false, "")
  else if String.eqb (g_country g) "lan" then ret (isLan ip, g_adapter g)
  else if GeodataMode db then
    if contains_str (default [] (geo_noted g m)) (g_country g) then ret (true, g_adapter g)
    else match LoadGeoIPMatcher db (g_country g) with
         | None => ret (false, "")
         | Some matcher =>
             (if matcher ip then modify_md (note_geo g (Some (default [] (geo_noted g m) ++ [g_country g])%list)) else ret tt) ;;;
             ret (matcher ip, g_adapter g)
         end
  else match geo_noted g m with
       | Some codes => ret (contains_str codes (g_country g), g_adapter g)
       | None =>
           match LookupCode (IPInstance db) ip with
           | None => fun _ => Panics
           | Some codes =>
               modify_md (note_geo g (Some codes)) ;;;
               ret (if contains_str codes (g_country g) then (true, g_adapter g) else (false, ""))
           end
       end.

(** @go rules/common/ipasn.go:10-16 ASN *)
Record ASN := mkASN { asn_asn : string; asn_adapter : string; asn_noResolveIP : bool; asn_isSourceIP : bool }.
(** @go rules/common/ipasn.go:18-39 ASN.Match *)
Definition ASN_Match (db : Databases) (a : ASN) (h : RuleMatchHelper) : M (bool * string) :=
  (if negb (asn_noResolveIP a) && negb (asn_isSourceIP a) then call (ResolveIP h) else ret tt) ;;;
  m <-- get_md ;;
  let ip := if asn_isSourceIP a then md_SrcIP m else md_DstIP m in
  if negb (addr_IsValid ip) then ret (false, "")
  else match LookupASN (ASNInstance db) ip with
       | None => fun _ => Panics
       | Some (asn, aso) =>
           modify_md (if asn_isSourceIP a then set_SrcIPASN (asn ++ " " ++ aso) else set_DstIPASN (asn ++ " " ++ aso)) ;;;
           ret (String.eqb (asn_asn a) asn, asn_adapter a)
       end.

(** @go rules/common/ipcidr.go:23-29 IPCIDR *)
Record IPCIDR := mkIPCIDR { i_ipnet : Prefix; i_adapter : string; i_isSourceIP : bool; i_noResolveIP : bool }.
(** @go rules/common/ipcidr.go:38-48 IPCIDR.Match *)
Definition IPCIDR_Match (i : IPCIDR) (h : RuleMatchHelper) : M (bool * string) :=
  (if negb (i_noResolveIP i) && negb (i_isSourceIP i) then call (ResolveIP h) else ret tt) ;;;
  m <-- get_md ;;
  let ip := if i_isSourceIP i then md_SrcIP m else md_DstIP m in
  ret (addr_IsValid ip && prefix_Contains (i_ipnet i) ip, i_adapter i).

(** @go rules/common/ipsuffix.go:9-17 IPSuffix *)
Record IPSuffix := mkIPSuffix {
  is_ipBytes : list Z; is_bits : Z; is_payload : string; is_adapter : string; is_isSourceIP : bool; is_noResolveIP : bool
}.
(** Byte [size - i] of the two addresses.
    @go rules/common/ipsuffix.go:36-54 IPSuffix.Match *)
Definition suffix_equal (ipBytes mIPBytes : list Z) (bits : Z) : bool :=
  let size := length mIPBytes in
  let at_ (l : list Z) (i : nat) : Z := nth (size - i) l 0 in
  let n := Z.to_nat (bits / 8) in
  (length ipBytes =? size)%nat
  && forallb (fun i => at_ ipBytes i =? at_ mIPBytes i) (seq 1 n)
  && ((bits mod 8 =? 0)
      || (u8 (Z.shiftl (at_ ipBytes (S n)) (8 - bits mod 8)) =? u8 (Z.shiftl (at_ mIPBytes (S n)) (8 - bits mod 8)))).
(** @go rules/common/ipsuffix.go:26-55 IPSuffix.Match *)
Definition IPSuffix_Match (sf : IPSuffix) (h : RuleMatchHelper) : M (bool * string) :=
  (if negb (is_noResolveIP sf) && negb (is_isSourceIP sf) then call (ResolveIP h) else ret tt) ;;;
  m <-- get_md ;;
  let ip := if is_isSourceIP sf then md_SrcIP m else md_DstIP m in
  ret (if suffix_equal (is_ipBytes sf) (addr_AsSlice ip) (is_bits sf) then (true, is_adapter sf) else (false, "")).

(** @go rules/common/port.go:10-16 Port *)
Record Port := mkPort { po_adapter : string; po_port : string; po_ruleType : RuleType; portRanges : IntRanges }.
(** @go rules/common/port.go:22-31 Port.Match *)
Definition Port_Match (p : Port) (m : Metadata) : bool * string :=
  let targetPort := match po_ruleType p with RT_InPort => md_InPort m | RT_SrcPort => md_SrcPort m | _ => md_DstPort m end in
  (ranges_Check (portRanges p) targetPort, po_adapter p).

(** @go rules/common/dscp.go:10-15 DSCP *)
Record DSCP := mkDSCP { dscp_ranges : IntRanges; dscp_payload : string; dscp_adapter : string }.
(** @go rules/common/dscp.go:21-23 DSCP.Match *)
Definition DSCP_Match (d : DSCP) (m : Metadata) : bool * string := (ranges_Check (dscp_ranges d) (md_DSCP m), dscp_adapter d).

(** @go rules/common/uid.go:12-17 Uid *)
Record Uid := mkUid { uids : IntRanges; oUid : string; uid_adapter : string }.
(** @go rules/common/uid.go:44-55 Uid.Match *)
Definition Uid_Match (u : Uid) (h : RuleMatchHelper) : M (bool * string) :=
  call (FindProcess h) ;;;
  m <-- get_md ;;
  ret (if negb (md_Uid m =? 0) && ranges_Check (uids u) (md_Uid m) then (true, uid_adapter u) else (false, "")).

(** @go rules/common/process.go:12-18 Process *)
Record Process := mkProcess { ps_pattern : string; ps_adapter : string; ps_ruleType : RuleType }.
(** @go rules/common/process.go:32-53 Process.Match *)
Definition Process_Match (db : Databases) (ps : Process) (h : RuleMatchHelper) : M (bool * string) :=
  call (FindProcess h) ;;;
  m <-- get_md ;;
  let target := match ps_ruleType ps with
                | RT_ProcessName | RT_ProcessNameRegex | RT_ProcessNameWildcard => md_Process m
                | _ => md_ProcessPath m
                end in
  match ps_ruleType ps with
  | RT_ProcessNameRegex | RT_ProcessPathRegex => ret (regexp_MatchString db (ps_pattern ps) target, ps_adapter ps)
  | RT_ProcessNameWildcard | RT_ProcessPathWildcard =>
      match wildcard_Match (ToLower (ps_pattern ps)) (ToLower target) with
      | Some b => ret (b, ps_adapter ps)
      | None => fun _ => Diverges
      end
  | _ => ret (EqualFold target (ps_pattern ps), ps_adapter ps)
  end.

(** @go rules/common/network_type.go:10-14 NetworkType *)
Record NetworkType := mkNetworkType { n_network : NetWork; n_adapter : string }.
(** @go rules/common/network_type.go:38-40 NetworkType.Match *)
Definition NetworkType_Match (n : NetworkType) (m : Metadata) : bool * string :=
  (bool_decide (n_network n = md_NetWork m), n_adapter n).

(** @go rules/common/in_name.go:10-15 InName *)
Record InName := mkInName { in_names : list string; in_adapter : string; in_payload : string }.
(** @go rules/common/in_name.go:17-24 InName.Match *)
Definition InName_Match (u : InName) (m : Metadata) : bool * string :=
  if existsb (String.eqb (md_InName m)) (in_names u) then (true, in_adapter u) else (false, "").

(** @go rules/common/in_user.go:10-15 InUser *)
Record InUser := mkInUser { iu_users : list string; iu_adapter : string; iu_payload : string }.
(** @go rules/common/in_user.go:17-24 InUser.Match *)
Definition InUser_Match (u : InUser) (m : Metadata) : bool * string :=
  if existsb (String.eqb (md_InUser m)) (iu_users u) then (true, iu_adapter u) else (false, "").

(** @go rules/common/in_type.go:10-15 InType *)
Record InType := mkInType { it_types : list Type_; it_adapter : string; it_payload : string }.
(** @go rules/common/in_type.go:17-24 InType.Match *)
Definition InType_Match (u : InType) (m : Metadata) : bool * string :=
  if existsb (fun tp => bool_decide (md_Type m = tp)) (it_types u) then (true, it_adapter u) else (false, "").

(** @go rules/common/rematch_name.go:10-15 RematchName *)
Record RematchName := mkRematchName { rn_names : list string; rn_adapter : string; rn_payload : string }.
(** @go rules/common/rematch_name.go:17-24 RematchName.Match *)
Definition RematchName_Match (u : RematchName) (m : Metadata) : bool * string :=
  if existsb (String.eqb (md_RematchName m)) (rn_names u) then (true, rn_adapter u) else (false, "").

(** @go rules/provider/rule_set.go:11-17 RuleSet *)
Record RuleSet := mkRuleSet { rs_ruleProviderName : string; rs_adapter : string; rs_isSrc : bool; rs_noResolveIP : bool }.

(** ** Rules *)

(** [Logic.subRules] is one map for all rules, an argument below; a wrapper is known
    by its address.
    @go rules/logic/logic.go:13-22 Logic *)
Inductive Rule :=
| RDomain (r : Domain) | RDomainSuffix (r : DomainSuffix) | RDomainKeyword (r : DomainKeyword)
| RDomainRegex (r : DomainRegex) | RDomainWildcard (r : DomainWildcard) | RGEOSITE (r : GEOSITE) | RGEOIP (r : GEOIP)
| RASN (r : ASN) | RIPCIDR (r : IPCIDR) | RIPSuffix (r : IPSuffix) | RPort (r : Port) | RDSCP (r : DSCP) | RUid (r : Uid)
| RProcess (r : Process) | RNetworkType (r : NetworkType) | RInName (r : InName) | RInUser (r : InUser)
| RInType (r : InType) | RRematchName (r : RematchName)
| RMatch (adapter : string)
| RRuleSet (r : RuleSet)
| RLogic (ruleType : RuleType) (payload adapter : string) (rules : list Rule)
| RRuleWrapper (id : nat) (rule : Rule).

(** The methods [RuleType] of the rules. *)
(** @go rules/common/geoip.go:28-33 GEOIP.RuleType *)
Definition GEOIP_RuleType (g : GEOIP) : RuleType := if g_isSourceIP g then RT_SrcGEOIP else RT_GEOIP.
(** @go rules/common/ipasn.go:41-46 ASN.RuleType *)
Definition ASN_RuleType (a : ASN) : RuleType := if asn_isSourceIP a then RT_SrcIPASN else RT_IPASN.
(** @go rules/common/ipcidr.go:31-36 IPCIDR.RuleType *)
Definition IPCIDR_RuleType (i : IPCIDR) : RuleType := if i_isSourceIP i then RT_SrcIPCIDR else RT_IPCIDR.
(** @go rules/common/ipsuffix.go:19-24 IPSuffix.RuleType *)
Definition IPSuffix_RuleType (sf : IPSuffix) : RuleType := if is_isSourceIP sf then RT_SrcIPSuffix else RT_IPSuffix.

(** @go rules/logic/logic.go:175-177 Logic.RuleType *)
Fixpoint rule_RuleType (r : Rule) : RuleType :=
  match r with
  | RDomain _ => RT_Domain | RDomainSuffix _ => RT_DomainSuffix | RDomainKeyword _ => RT_DomainKeyword
  | RDomainRegex _ => RT_DomainRegex | RDomainWildcard _ => RT_DomainWildcard | RGEOSITE _ => RT_GEOSITE
  | RGEOIP g => GEOIP_RuleType g | RASN a => ASN_RuleType a | RIPCIDR i => IPCIDR_RuleType i | RIPSuffix s => IPSuffix_RuleType s
  | RPort p => po_ruleType p | RDSCP _ => RT_DSCP | RUid _ => RT_Uid | RProcess ps => ps_ruleType ps
  | RNetworkType _ => RT_Network | RInName _ => RT_InName | RInUser _ => RT_InUser | RInType _ => RT_InType
  | RRematchName _ => RT_RematchName | RMatch _ => RT_MATCH | RRuleSet _ => RT_RuleSet
  | RLogic ruleType _ _ _ => ruleType
  | RRuleWrapper _ rule => rule_RuleType rule
  end.

(** @go rules/logic/logic.go:225-227 Logic.Adapter *)
Fixpoint rule_Adapter (r : Rule) : string :=
  match r with
  | RDomain r => do_adapter r | RDomainSuffix r => ds_adapter r | RDomainKeyword r => dk_adapter r
  | RDomainRegex r => dr_adapter r | RDomainWildcard r => dw_adapter r | RGEOSITE r => gs_adapter r
  | RGEOIP r => g_adapter r | RASN r => asn_adapter r | RIPCIDR r => i_adapter r | RIPSuffix r => is_adapter r
  | RPort r => po_adapter r | RDSCP r => dscp_adapter r | RUid r => uid_adapter r | RProcess r => ps_adapter r
  | RNetworkType r => n_adapter r | RInName r => in_adapter r | RInUser r => iu_adapter r | RInType r => it_adapter r
  | RRematchName r => rn_adapter r | RMatch adapter => adapter | RRuleSet r => rs_adapter r
  | RLogic _ _ adapter _ => adapter
  | RRuleWrapper _ rule => rule_Adapter rule
  end.

(** @go rules/logic/logic.go:252-257 Logic.ProviderNames *)
Fixpoint ProviderNames (r : Rule) : list string :=
  match r with
  | RRuleSet r => [rs_ruleProviderName r]
  | RLogic _ _ _ rules => concat (map ProviderNames rules)
  | RRuleWrapper _ rule => ProviderNames rule
  | _ => []
  end.

(** A rule of a logic rule, as its payload shows it. *)
Definition show_rule (ruleType : RuleType) (payload : string) : string := ("(" ++ RuleType_String ruleType ++ "," ++ payload ++ ")")%string.
(** [strings.Join] with a separator of several characters. *)
Fixpoint join_with (sep : string) (l : list string) : string :=
  match l with [] => "" | [s] => s | s :: l => (s ++ sep ++ join_with sep l)%string end.

(** Rebuilt from the rules, as [Payload] does it once.
    @go rules/logic/logic.go:229-250 Logic.Payload *)
Fixpoint rule_Payload (r : Rule) : string :=
  match r with
  | RDomain r => do_domain r | RDomainSuffix r => ds_suffix r | RDomainKeyword r => dk_keyword r
  | RDomainRegex r => dr_regex r | RDomainWildcard r => dw_pattern r | RGEOSITE r => gs_country r
  | RGEOIP r => g_country r | RASN r => asn_asn r | RIPCIDR r => prefix_String (i_ipnet r) | RIPSuffix r => is_payload r
  | RPort r => po_port r | RDSCP r => dscp_payload r | RUid r => oUid r | RProcess r => ps_pattern r
  | RNetworkType r => NetWork_String (n_network r) | RInName r => in_payload r | RInUser r => iu_payload r
  | RInType r => it_payload r | RRematchName r => rn_payload r | RMatch _ => "" | RRuleSet r => rs_ruleProviderName r
  | RLogic ruleType payload _ rules =>
      match ruleType with
      | RT_NOT => match rules with
                  | r :: _ => ("(!" ++ show_rule (rule_RuleType r) (rule_Payload r) ++ ")")%string
                  | [] => payload
                  end
      | RT_OR => ("(" ++ join_with " || " (map (fun r => show_rule (rule_RuleType r) (rule_Payload r)) rules) ++ ")")%string
      | RT_AND => ("(" ++ join_with " && " (map (fun r => show_rule (rule_RuleType r) (rule_Payload r)) rules) ++ ")")%string
      | _ => payload
      end
  | RRuleWrapper _ rule => rule_Payload rule
  end.

(** The strategy of a rule provider: classical rules, the domain set or the address
    set built from its file, both of which are arguments; [None] is a provider
    that holds nothing yet.
    @go rules/provider/classical_strategy.go:12-16 classicalStrategy *)
Inductive RuleProvider :=
| classicalStrategy (rules : list Rule)
| domainStrategy (Has : option (string -> bool))
| ipcidrStrategy (IsContain : option (Addr -> bool))
| noStrategy.

(** What the program knows when rules are matched: the databases, the rule sets, the
    named lists of rules, and the clock. *)
Record RuleEnv := mkRuleEnv {
  databases : Databases;
  ruleProviders : gmap string RuleProvider;
  subRules : gmap string (list Rule);
  now : Z
}.

(** ** Matching *)

Section MatchLoops.
Context (m : Rule -> M (bool * string)).

(** @go rules/logic/logic.go:206-212 Logic.Match *)
Fixpoint or_loop (rules : list Rule) (adapter : string) : M (bool * string) :=
  match rules with
  | [] => ret (false, "")
  | rule :: rules => x <-- m rule ;; if fst x then ret (true, adapter) else or_loop rules adapter
  end.

(** @go rules/logic/logic.go:213-219 Logic.Match *)
Fixpoint and_loop (rules : list Rule) (adapter : string) : M (bool * string) :=
  match rules with
  | [] => ret (true, adapter)
  | rule :: rules => x <-- m rule ;; if fst x then and_loop rules adapter else ret (false, adapter)
  end.

(** @go rules/provider/classical_strategy.go:22-30 classicalStrategy.Match *)
Fixpoint classical_loop (rules : list Rule) : M bool :=
  match rules with
  | [] => ret false
  | rule :: rules => x <-- m rule ;; if fst x then ret true else classical_loop rules
  end.
End MatchLoops.

(** @go rules/wrapper/wrapper.go:47-55 RuleWrapper.Hit, RuleWrapper.Miss *)
Definition Hit (now : Z) (s : RuleStats) : RuleStats := mkStats (disabled s) (u64 (hitCount s + 1)) now (missCount s) (missAt s).
Definition Miss (now : Z) (s : RuleStats) : RuleStats := mkStats (disabled s) (hitCount s) (hitAt s) (u64 (missCount s + 1)) now.
Definition modify_wrapper (id : nat) (f : RuleStats -> RuleStats) : M unit :=
  fun st => Ok tt (mkMState (st_md st) (resolved st) (attemptProcessLookup st) (alter f id (wrappers st))).
Definition get_wrapper (id : nat) : M (option RuleStats) := fun st => Ok (wrappers st !! id) st.

(** @go rules/wrapper/wrapper.go:57-68 RuleWrapper.Match *)
Definition Wrapper_Match (now : Z) (id : nat) (inner : M (bool * string)) : M (bool * string) :=
  s <-- get_wrapper id ;;
  if match s with Some s => disabled s | None => false end then ret (false, "")
  else
    x <-- inner ;;
    modify_wrapper id (if fst x then Hit now else Miss now) ;;;
    ret x.

Section Match.
Context (E : RuleEnv).

(** [logic.rules[0]] panics on a rule without rules. *)
Definition first_rule (m : Rule -> M (bool * string)) (rules : list Rule) : M (bool * string) :=
  match rules with rule :: _ => m rule | [] => fun _ => Panics end.

(** The two jumps a match can take are arguments: into a named list of rules, and
    into a rule set.
    @go rules/logic/logic.go:194-223 Logic.Match *)
Definition Logic_Match (sub : string -> M (bool * string)) (m : Rule -> M (bool * string))
    (ruleType : RuleType) (adapter : string) (rules : list Rule) : M (bool * string) :=
  match ruleType with
  | RT_SubRules => x <-- first_rule m rules ;; if fst x then sub adapter else ret (false, "")
  | RT_NOT => x <-- first_rule m rules ;; if fst x then ret (false, "") else ret (true, adapter)
  | RT_OR => or_loop m rules adapter
  | RT_AND => and_loop m rules adapter
  | _ => ret (false, "")
  end.

(** @go rules/provider/rule_set.go:23-36 RuleSet.Match *)
Definition RuleSet_Match (prov : RuleProvider -> RuleMatchHelper -> M bool) (rs : RuleSet) (h : RuleMatchHelper) : M (bool * string) :=
  match ruleProviders E !! rs_ruleProviderName rs with
  | None => ret (false, "")
  | Some provider =>
      let no_resolve := mkHelper None (FindProcess h) (CheckPassRule h) in
      if rs_isSrc rs then
        modify_md SwapSrcDst ;;;
        b <-- prov provider no_resolve ;;
        modify_md SwapSrcDst ;;;
        ret (b, rs_adapter rs)
      else
        b <-- prov provider (if rs_noResolveIP rs then no_resolve else h) ;;
        ret (b, rs_adapter rs)
  end.

Definition plain (f : Metadata -> bool * string) : M (bool * string) := m <-- get_md ;; ret (f m).

Fixpoint MatchWith (sub : string -> RuleMatchHelper -> M (bool * string)) (prov : RuleProvider -> RuleMatchHelper -> M bool)
    (r : Rule) (h : RuleMatchHelper) {struct r} : M (bool * string) :=
  let db := databases E in
  match r with
  | RDomain d => plain (Domain_Match d)
  | RDomainSuffix ds => plain (DomainSuffix_Match ds)
  | RDomainKeyword dk => plain (DomainKeyword_Match dk)
  | RDomainRegex dr => plain (DomainRegex_Match db dr)
  | RDomainWildcard dw =>
      m <-- get_md ;; match DomainWildcard_Match dw m with Some x => ret x | None => fun _ => Diverges end
  | RGEOSITE gs => plain (GEOSITE_Match db gs)
  | RGEOIP g => GEOIP_Match db g h
  | RASN a => ASN_Match db a h
  | RIPCIDR i => IPCIDR_Match i h
  | RIPSuffix s => IPSuffix_Match s h
  | RPort p => plain (Port_Match p)
  | RDSCP d => plain (DSCP_Match d)
  | RUid u => Uid_Match u h
  | RProcess ps => Process_Match db ps h
  | RNetworkType n => plain (NetworkType_Match n)
  | RInName u => plain (InName_Match u)
  | RInUser u => plain (InUser_Match u)
  | RInType u => plain (InType_Match u)
  | RRematchName u => plain (RematchName_Match u)
  | RMatch adapter => ret (true, adapter)
  | RRuleSet rs => RuleSet_Match prov rs h
  | RLogic ruleType _ adapter rules =>
      Logic_Match (fun name => sub name h) (fun rule => MatchWith sub prov rule h) ruleType adapter rules
  | RRuleWrapper id rule => Wrapper_Match (now E) id (MatchWith sub prov rule h)
  end.

(** The loop over a named list.  A sub-rule that matched is evaluated again by name
    before its answer is used.
    @go rules/logic/logic.go:179-192 matchSubRules *)
Fixpoint sub_loop (sub : string -> M (bool * string)) (m : Rule -> M (bool * string)) (h : RuleMatchHelper) (rules : list Rule) : M (bool * string) :=
  match rules with
  | [] => ret (false, "")
  | rule :: rules =>
      x <-- m rule ;;
      if fst x then
        y <-- (if bool_decide (rule_RuleType rule = RT_SubRules) then sub (rule_Adapter rule) else ret x) ;;
        md <-- get_md ;;
        let pass := String.eqb (snd y) "PASS-RULE"
                    || match CheckPassRule h with Some check => check (snd y) md | None => false end in
        if fst y && pass then sub_loop sub m h rules else ret y
      else sub_loop sub m h rules
  end.

(** One unit of fuel for every jump into a named list or a rule set.
    @go rules/logic/logic.go:179-192 matchSubRules *)
Fixpoint matchSubRules (fuel : nat) (name : string) (h : RuleMatchHelper) {struct fuel} : M (bool * string) :=
  match fuel with
  | O => fun _ => Diverges
  | S fuel =>
      sub_loop (fun name => matchSubRules fuel name h)
               (fun rule => MatchWith (matchSubRules fuel) (provider_Match fuel) rule h) h
               (default [] (subRules E !! name))
  end
with provider_Match (fuel : nat) (p : RuleProvider) (h : RuleMatchHelper) {struct fuel} : M bool :=
  match fuel with
  | O => fun _ => Diverges
  | S fuel =>
      match p with
      | classicalStrategy rules =>
          classical_loop (fun rule => MatchWith (matchSubRules fuel) (provider_Match fuel) rule h) rules
      | domainStrategy Has => md <-- get_md ;; ret match Has with Some has => has (RuleHost md) | None => false end
      | ipcidrStrategy IsContain =>
          call (ResolveIP h) ;;;
          md <-- get_md ;; ret match IsContain with Some contain => contain (md_DstIP md) | None => false end
      | noStrategy => ret false
      end
  end.

(** [rule.Match], with fuel for the jumps. *)
Definition rule_Match (fuel : nat) : Rule -> RuleMatchHelper -> M (bool * string) :=
  MatchWith (matchSubRules fuel) (provider_Match fuel).
End Match.
