(* ===== verification/RuleParse.v ===== *)
(** * Reading rules

    Models how a line of the configuration becomes a rule: the split into type,
    payload, target and parameters ([rules/common/base.go]), the constructors of the
    matchers, the logic rules with their nested payloads ([rules/logic/logic.go]),
    the dispatch of [rules/parser.go], and in [config/config.go] the lists of rules,
    the named sub-rules and the search for cycles among them. *)

From S2P Require Import Prelude Names Netip Ranges Wildcard Metadata Rules.
#[local] Open Scope string_scope.
#[local] Open Scope Z_scope.

(** ** Lines *)

(** @go rules/common/base.go:27-35 ParseParams *)
Definition ParseParams (params : list string) : bool * bool :=
  let isSrc := contains_str params "src" in
  (isSrc, if isSrc then true else contains_str params "no-resolve").

(** @go rules/common/base.go:37-42 trimArr *)
Definition trimArr (arr : list string) : list string := map (fun e => Trim e " ") arr.

(** Rule types whose payload may hold commas. *)
Definition comma_payload (tp : string) : bool :=
  contains_str ["NOT"; "OR"; "AND"; "SUB-RULE"; "DOMAIN-REGEX"; "PROCESS-NAME-REGEX"; "PROCESS-PATH-REGEX"] tp.

Record RawRule := mkRaw { raw_tp : string; raw_payload : string; raw_target : string; raw_params : list string }.

(** @go rules/common/base.go:44-79 ParseRulePayload *)
Definition ParseRulePayload (ruleRaw : string) (needTarget : bool) : RawRule :=
  match trimArr (SplitOn "," ruleRaw) with
  | [] => mkRaw "" "" "" []
  | item0 :: items =>
      let tp := ToUpper item0 in
      match items with
      | [] => mkRaw tp "" "" []
      | item1 :: more =>
          if String.eqb tp "MATCH" then mkRaw tp "" item1 []
          else if comma_payload tp then
            if needTarget then mkRaw tp (JoinOn "," (removelast items)) (List.last items "") []
            else mkRaw tp (JoinOn "," items) "" []
          else match more with
               | [] => mkRaw tp item1 "" []
               | item2 :: rest => if needTarget then mkRaw tp item1 item2 rest else mkRaw tp item1 "" more
               end
      end
  end.

(** ** Constructors *)

(** Why a rule is refused. *)
Inductive RuleErr :=
| ErrMissingParameters (tp : string) | ErrUnsupportedType (tp : string) | ErrPayload | ErrRanges (e : RangeErr)
| ErrRegexp | ErrGeo | ErrDSCP | ErrUidPlatform | ErrNetwork | ErrEmptyName | ErrInType (t : string)
| ErrPayloadFormat | ErrMissingOpen | ErrMissingClose | ErrOneRule | ErrLogicType (tp : string) | ErrLogicFormat
| ErrFuel.

(** What constructing asks of other packages: whether the databases can be set up,
    whether an expression compiles, and the platform. *)
Record ParseEnv := mkParseEnv {
  pe_databases : Databases;
  InitGeoSite : bool; InitGeoIP : bool; InitASN : bool;
  regexp_Compile : string -> bool;
  uid_platform : bool
}.

(** @go rules/common/domain.go:31-37 NewDomain *)
Definition NewDomain (domain adapter : string) : Rule := RDomain (mkDomain (ToLower domain) adapter).
(** @go rules/common/domain_suffix.go:32-38 NewDomainSuffix *)
Definition NewDomainSuffix (suffix adapter : string) : Rule := RDomainSuffix (mkDomainSuffix (ToLower suffix) adapter).
(** @go rules/common/domain_keyword.go:32-38 NewDomainKeyword *)
Definition NewDomainKeyword (keyword adapter : string) : Rule := RDomainKeyword (mkDomainKeyword (ToLower keyword) adapter).
(** @go rules/common/domain_wildcard.go:34-41 NewDomainWildcard *)
Definition NewDomainWildcard (pattern adapter : string) : Rule := RDomainWildcard (mkDomainWildcard (ToLower pattern) adapter).
(** @go rules/common/domain_regex.go:33-43 NewDomainRegex *)
Definition NewDomainRegex (pe : ParseEnv) (regex adapter : string) : RuleErr + Rule :=
  if regexp_Compile pe regex then inr (RDomainRegex (mkDomainRegex regex adapter)) else inl ErrRegexp.
(** @go rules/common/geosite.go:64-84 NewGEOSITE *)
Definition NewGEOSITE (pe : ParseEnv) (country adapter : string) : RuleErr + Rule :=
  if negb (InitGeoSite pe) then inl ErrGeo
  else match LoadGeoSiteMatcher (pe_databases pe) country with
       | None => inl ErrGeo
       | Some _ => inr (RGEOSITE (mkGEOSITE country adapter))
       end.
(** @go rules/common/geoip.go:202-231 NewGEOIP *)
Definition NewGEOIP (pe : ParseEnv) (country adapter : string) (isSrc noResolveIP : bool) : RuleErr + Rule :=
  let country := ToLower country in
  let geoip := RGEOIP (mkGEOIP country adapter noResolveIP isSrc) in
  if String.eqb country "lan" then inr geoip
  else if negb (InitGeoIP pe) then inl ErrGeo
  else if GeodataMode (pe_databases pe)
  then match LoadGeoIPMatcher (pe_databases pe) country with None => inl ErrGeo | Some _ => inr geoip end
  else inr geoip.
(** @go rules/common/ipasn.go:60-72 NewIPASN *)
Definition NewIPASN (pe : ParseEnv) (asn adapter : string) (isSrc noResolveIP : bool) : RuleErr + Rule :=
  if negb (InitASN pe) then inl ErrGeo else inr (RASN (mkASN asn adapter noResolveIP isSrc)).
(** @go rules/common/ipcidr.go:58-75 NewIPCIDR *)
Definition NewIPCIDR (s adapter : string) (isSourceIP noResolve : bool) : RuleErr + Rule :=
  match ParsePrefix s with
  | None => inl ErrPayload
  | Some ipnet => inr (RIPCIDR (mkIPCIDR ipnet adapter isSourceIP noResolve))
  end.
(** @go rules/common/ipsuffix.go:65-80 NewIPSuffix *)
Definition NewIPSuffix (payload adapter : string) (isSrc noResolveIP : bool) : RuleErr + Rule :=
  match ParsePrefix payload with
  | None => inl ErrPayload
  | Some ipnet => inr (RIPSuffix (mkIPSuffix (addr_AsSlice (p_addr ipnet)) (p_bits ipnet) payload adapter isSrc noResolveIP))
  end.
(** @go rules/common/port.go:41-58 NewPort *)
Definition NewPort (port adapter : string) (ruleType : RuleType) : RuleErr + Rule :=
  match NewUnsignedRanges uint16 port with
  | inl e => inl (ErrRanges e)
  | inr [] => inl ErrPayload
  | inr portRanges => inr (RPort (mkPort adapter port ruleType portRanges))
  end.
(** @go rules/common/dscp.go:33-49 NewDSCP *)
Definition NewDSCP (dscp adapter : string) : RuleErr + Rule :=
  match NewUnsignedRanges uint8 dscp with
  | inl e => inl (ErrRanges e)
  | inr ranges => if existsb (fun r => 63 <? end_ r) ranges then inl ErrDSCP else inr (RDSCP (mkDSCP ranges dscp adapter))
  end.
(** @go rules/common/uid.go:19-38 NewUid *)
Definition NewUid (pe : ParseEnv) (oUid adapter : string) : RuleErr + Rule :=
  if negb (uid_platform pe) then inl ErrUidPlatform
  else match NewUnsignedRanges uint32 oUid with
       | inl e => inl (ErrRanges e)
       | inr [] => inl ErrPayload
       | inr uidRange => inr (RUid (mkUid uidRange oUid adapter))
       end.
(** @go rules/common/process.go:55-72 NewProcess *)
Definition NewProcess (pe : ParseEnv) (pattern adapter : string) (ruleType : RuleType) : RuleErr + Rule :=
  let ps := RProcess (mkProcess pattern adapter ruleType) in
  match ruleType with
  | RT_ProcessNameRegex | RT_ProcessPathRegex => if regexp_Compile pe pattern then inr ps else inl ErrRegexp
  | _ => inr ps
  end.
(** @go rules/common/network_type.go:16-32 NewNetworkType *)
Definition NewNetworkType (network adapter : string) : RuleErr + Rule :=
  let up := ToUpper network in
  if String.eqb up "TCP" then inr (RNetworkType (mkNetworkType TCP adapter))
  else if String.eqb up "UDP" then inr (RNetworkType (mkNetworkType UDP adapter))
  else inl ErrNetwork.

(** The names between slashes, none of them blank.
    @go rules/common/in_name.go:38-46 NewInName *)
Definition slash_names (s : string) : option (list string) :=
  let names := map TrimSpace (SplitOn "/" s) in
  if existsb (fun name => String.eqb name "") names then None else Some names.
(** @go rules/common/in_name.go:38-54 NewInName *)
Definition NewInName (iNames adapter : string) : RuleErr + Rule :=
  match slash_names iNames with None => inl ErrEmptyName | Some names => inr (RInName (mkInName names adapter iNames)) end.
(** @go rules/common/in_user.go:38-54 NewInUser *)
Definition NewInUser (iUsers adapter : string) : RuleErr + Rule :=
  match slash_names iUsers with None => inl ErrEmptyName | Some users => inr (RInUser (mkInUser users adapter iUsers)) end.
(** @go rules/common/rematch_name.go:38-54 NewRematchName *)
Definition NewRematchName (iNames adapter : string) : RuleErr + Rule :=
  match slash_names iNames with None => inl ErrEmptyName | Some names => inr (RRematchName (mkRematchName names adapter iNames)) end.
(** @go rules/common/in_type.go:61-79 parseInTypes *)
Fixpoint parseInTypes (tps : list string) : RuleErr + list Type_ :=
  match tps with
  | [] => inr []
  | tp :: tps =>
      let utp := ToUpper tp in
      match (if String.eqb utp "SOCKS" then inr [SOCKS4; SOCKS5]
             else match ParseType utp with None => inl (ErrInType utp) | Some t => inr [t] end) with
      | inl e => inl e
      | inr l => match parseInTypes tps with inl e => inl e | inr l' => inr (l ++ l')%list end
      end
  end.
(** @go rules/common/in_type.go:38-59 NewInType *)
Definition NewInType (iTypes adapter : string) : RuleErr + Rule :=
  match slash_names iTypes with
  | None => inl ErrEmptyName
  | Some types => match parseInTypes types with
                  | inl e => inl e
                  | inr tps => inr (RInType (mkInType tps adapter (ToUpper iTypes)))
                  end
  end.

(** ** Nested payloads *)

(** [Range] of this package has the fields of the one in [Ranges].
    @go rules/logic/logic.go:73-75 Range.containRange *)
Definition containRange (r : Range) (preStart preEnd : Z) : bool := (preStart <? start r) && (end_ r <? preEnd).

(** The loop over the payload: [i] is the position, [stack] the open parentheses,
    innermost first.
    @go rules/logic/logic.go:88-111 Logic.format *)
Fixpoint format_loop (payload : string) (i : Z) (stack : list Z) (subRanges : list Range) : RuleErr + list Range :=
  match payload with
  | EmptyString => match stack with [] => inr subRanges | _ => inl ErrMissingClose end
  | String c rest =>
      if Ascii.eqb c "(" then format_loop rest (i + 1) (i :: stack) subRanges
      else if Ascii.eqb c ")" then
        match stack with
        | [] => inl ErrMissingOpen
        | start :: stack => format_loop rest (i + 1) stack (subRanges ++ [mkRange start i])%list
        end
      else format_loop rest (i + 1) stack subRanges
  end.

(** @go rules/logic/logic.go:88-118 Logic.format *)
Definition format (payload : string) : RuleErr + list Range :=
  match format_loop payload 0 [] [] with inl e => inl e | inr subRanges => inr (sort_start subRanges) end.

(** @go rules/logic/logic.go:123-141 Logic.findSubRuleRange *)
Fixpoint find_loop (payloadLen : Z) (ruleRanges subRuleRange : list Range) : list Range :=
  match ruleRanges with
  | [] => subRuleRange
  | rr :: ruleRanges =>
      if (start rr =? 0) && (end_ rr =? payloadLen - 1) then find_loop payloadLen ruleRanges subRuleRange
      else
        let containInSub := existsb (fun r => containRange rr (start r) (end_ r)) subRuleRange in
        find_loop payloadLen ruleRanges (if containInSub then subRuleRange else (subRuleRange ++ [rr])%list)
  end.

(** @go rules/logic/logic.go:120-144 Logic.findSubRuleRange *)
Definition findSubRuleRange (payload : string) (ruleRanges : list Range) : list Range :=
  find_loop (Z.of_nat (String.length payload)) ruleRanges [].

(** [payload[i:j]]. *)
Definition slice (payload : string) (i j : Z) : string := String.substring (Z.to_nat i) (Z.to_nat (j - i)) payload.

(** The payloads of the rules inside a logic rule, in order.
    @go rules/logic/logic.go:146-161 Logic.parsePayload *)
Definition subPayloads (payload : string) : RuleErr + list string :=
  if negb (HasPrefix payload "(") || negb (HasSuffix payload ")") then inl ErrPayloadFormat
  else match format payload with
       | inl e => inl e
       | inr subAllRanges =>
           inr (map (fun subRange => slice payload (start subRange + 1) (end_ subRange)) (findSubRuleRange payload subAllRanges))
       end.

Definition ParseRuleFunc : Type := string -> string -> string -> list string -> RuleErr + Rule.

(** @go rules/logic/logic.go:77-86 Logic.payloadToRule *)
Definition payloadToRule (parseRule : ParseRuleFunc) (subPayload : string) : RuleErr + Rule :=
  let raw := ParseRulePayload subPayload false in
  let tp := raw_tp raw in
  if String.eqb tp "MATCH" || String.eqb tp "SUB-RULE" then inl (ErrLogicType tp)
  else if String.eqb tp "" then inl ErrLogicFormat
  else parseRule tp (raw_payload raw) (raw_target raw) (raw_params raw).

(** @go rules/logic/logic.go:160-168 Logic.parsePayload *)
Fixpoint payloads_to_rules (parseRule : ParseRuleFunc) (l : list string) : RuleErr + list Rule :=
  match l with
  | [] => inr []
  | subPayload :: l =>
      match payloadToRule parseRule subPayload with
      | inl e => inl e
      | inr rule => match payloads_to_rules parseRule l with inl e => inl e | inr rules => inr (rule :: rules) end
      end
  end.

(** @go rules/logic/logic.go:146-173 Logic.parsePayload *)
Definition parsePayload (parseRule : ParseRuleFunc) (payload : string) : RuleErr + list Rule :=
  match subPayloads payload with inl e => inl e | inr l => payloads_to_rules parseRule l end.

Definition one_rule (rules : list Rule) (rule : Rule) : RuleErr + Rule :=
  if (length rules =? 1)%nat then inr rule else inl ErrOneRule.

(** @go rules/logic/logic.go:24-35 NewSubRule *)
Definition NewSubRule (parseRule : ParseRuleFunc) (payload adapter : string) : RuleErr + Rule :=
  match parsePayload parseRule ("(" ++ payload ++ ")") with
  | inl e => inl e
  | inr rules => one_rule rules (RLogic RT_SubRules payload adapter rules)
  end.
(** @go rules/logic/logic.go:37-48 NewNOT *)
Definition NewNOT (parseRule : ParseRuleFunc) (payload adapter : string) : RuleErr + Rule :=
  match parsePayload parseRule payload with
  | inl e => inl e
  | inr rules => one_rule rules (RLogic RT_NOT payload adapter rules)
  end.
(** @go rules/logic/logic.go:50-57 NewOR *)
Definition NewOR (parseRule : ParseRuleFunc) (payload adapter : string) : RuleErr + Rule :=
  match parsePayload parseRule payload with inl e => inl e | inr rules => inr (RLogic RT_OR payload adapter rules) end.
(** @go rules/logic/logic.go:59-66 NewAND *)
Definition NewAND (parseRule : ParseRuleFunc) (payload adapter : string) : RuleErr + Rule :=
  match parsePayload parseRule payload with inl e => inl e | inr rules => inr (RLogic RT_AND payload adapter rules) end.

(** ** One rule *)

(** Logic rules call [ParseRule] on pieces of their payload, so the length of the
    payload bounds the nesting.
    @go rules/parser.go:12-105 ParseRule *)
Fixpoint ParseRule_fuel (pe : ParseEnv) (fuel : nat) (tp payload target : string) (params : list string) : RuleErr + Rule :=
  match fuel with
  | O => inl ErrFuel
  | S fuel =>
      if negb (String.eqb tp "MATCH") && String.eqb payload "" then inl (ErrMissingParameters tp)
      else
        let '(isSrc, noResolve) := ParseParams params in
        let parseRule := ParseRule_fuel pe fuel in
        let is_ := String.eqb tp in
        if is_ "DOMAIN" then inr (NewDomain payload target)
        else if is_ "DOMAIN-SUFFIX" then inr (NewDomainSuffix payload target)
        else if is_ "DOMAIN-KEYWORD" then inr (NewDomainKeyword payload target)
        else if is_ "DOMAIN-REGEX" then NewDomainRegex pe payload target
        else if is_ "DOMAIN-WILDCARD" then inr (NewDomainWildcard payload target)
        else if is_ "GEOSITE" then NewGEOSITE pe payload target
        else if is_ "GEOIP" then NewGEOIP pe payload target isSrc noResolve
        else if is_ "SRC-GEOIP" then NewGEOIP pe payload target true true
        else if is_ "IP-ASN" then NewIPASN pe payload target isSrc noResolve
        else if is_ "SRC-IP-ASN" then NewIPASN pe payload target true true
        else if is_ "IP-CIDR" || is_ "IP-CIDR6" then NewIPCIDR payload target isSrc noResolve
        else if is_ "SRC-IP-CIDR" then NewIPCIDR payload target true true
        else if is_ "IP-SUFFIX" then NewIPSuffix payload target isSrc noResolve
        else if is_ "SRC-IP-SUFFIX" then NewIPSuffix payload target true true
        else if is_ "SRC-PORT" then NewPort payload target RT_SrcPort
        else if is_ "DST-PORT" then NewPort payload target RT_DstPort
        else if is_ "IN-PORT" then NewPort payload target RT_InPort
        else if is_ "DSCP" then NewDSCP payload target
        else if is_ "PROCESS-NAME" then NewProcess pe payload target RT_ProcessName
        else if is_ "PROCESS-PATH" then NewProcess pe payload target RT_ProcessPath
        else if is_ "PROCESS-NAME-REGEX" then NewProcess pe payload target RT_ProcessNameRegex
        else if is_ "PROCESS-PATH-REGEX" then NewProcess pe payload target RT_ProcessPathRegex
        else if is_ "PROCESS-NAME-WILDCARD" then NewProcess pe payload target RT_ProcessNameWildcard
        else if is_ "PROCESS-PATH-WILDCARD" then NewProcess pe payload target RT_ProcessPathWildcard
        else if is_ "NETWORK" then NewNetworkType payload target
        else if is_ "UID" then NewUid pe payload target
        else if is_ "IN-TYPE" then NewInType payload target
        else if is_ "IN-USER" then NewInUser payload target
        else if is_ "IN-NAME" then NewInName payload target
        else if is_ "REMATCH-NAME" then NewRematchName payload target
        else if is_ "SUB-RULE" then NewSubRule parseRule payload target
        else if is_ "AND" then NewAND parseRule payload target
        else if is_ "OR" then NewOR parseRule payload target
        else if is_ "NOT" then NewNOT parseRule payload target
        else if is_ "RULE-SET" then inr (RRuleSet (mkRuleSet payload target isSrc noResolve))
        else if is_ "MATCH" then inr (RMatch target)
        else inl (ErrUnsupportedType tp)
  end.

(** @go rules/parser.go:12-105 ParseRule *)
Definition ParseRule (pe : ParseEnv) (tp payload target : string) (params : list string) : RuleErr + Rule :=
  ParseRule_fuel pe (String.length payload + 2) tp payload target params.

(** ** The lines of a classical rule set *)

(** @go rules/provider/classical_strategy.go:51-58 classicalStrategy.payloadToRule *)
Definition classical_payloadToRule (pe : ParseEnv) (rule : string) : RuleErr + Rule :=
  let raw := ParseRulePayload rule false in
  if contains_str ["MATCH"; "RULE-SET"; "SUB-RULE"] (raw_tp raw) then inl (ErrLogicType (raw_tp raw))
  else ParseRule pe (raw_tp raw) (raw_payload raw) (raw_target raw) (raw_params raw).

(** The rules and their number; a line that is no rule is left out.
    @go rules/provider/classical_strategy.go:41-49 classicalStrategy.Insert *)
Definition classical_Insert (pe : ParseEnv) (st : list Rule * Z) (rule : string) : list Rule * Z :=
  match classical_payloadToRule pe rule with
  | inl _ => st
  | inr r => ((fst st ++ [r])%list, snd st + 1)
  end.

(** @go rules/provider/classical_strategy.go:36-39 classicalStrategy.Reset *)
Definition classical_Reset : list Rule * Z := ([], 0).

(** ** The rules of a configuration *)

(** Why a configuration is refused; the place is the list and the index.
    @go config/config.go:1129-1151 parseRules *)
Inductive ConfigErr :=
| ErrFormatInvalid (idx : nat) | ErrProxyNotFound (idx : nat) (target : string) | ErrSubRuleNotFound (idx : nat) (target : string)
| ErrRule (idx : nat) (e : RuleErr) | ErrRuleSetNotFound (idx : nat) (name : string)
| ErrSubRuleNameEmpty | ErrSubRuleTarget (i : nat) (n adapter : string) | ErrCircular (arr : list string) | ErrVerifyFuel.

Section Config.
Context (pe : ParseEnv) (proxies : gset string) (providers : gset string).

(** [subNames] are the keys of the map of sub-rules.
    @go config/config.go:1128-1158 parseRules *)
Fixpoint parseRules_loop (subNames : gset string) (wrap : bool) (idx : nat) (rulesConfig : list string) : ConfigErr + list Rule :=
  match rulesConfig with
  | [] => inr []
  | line :: rest =>
      let raw := ParseRulePayload line true in
      let tp := raw_tp raw in
      let target := raw_target raw in
      if String.eqb target "" then inl (ErrFormatInvalid idx)
      else if negb (bool_decide (target ∈ proxies)) && negb (String.eqb tp "SUB-RULE") then inl (ErrProxyNotFound idx target)
      else if negb (bool_decide (target ∈ proxies)) && negb (bool_decide (target ∈ subNames)) then inl (ErrSubRuleNotFound idx target)
      else match ParseRule pe tp (raw_payload raw) target (raw_params raw) with
           | inl e => inl (ErrRule idx e)
           | inr parsed =>
               match List.find (fun name => negb (bool_decide (name ∈ providers))) (ProviderNames parsed) with
               | Some name => inl (ErrRuleSetNotFound idx name)
               | None =>
                   match parseRules_loop subNames wrap (S idx) rest with
                   | inl e => inl e
                   | inr rules => inr ((if wrap then RRuleWrapper idx parsed else parsed) :: rules)
                   end
               end
           end
  end.

(** A wrapper's address is the index of its line; only the list called "rules" is
    wrapped.
    @go config/config.go:1124-1161 parseRules *)
Definition parseRules (rulesConfig : list string) (subNames : gset string) (format : string) : ConfigErr + list Rule :=
  parseRules_loop subNames (String.eqb format "rules") 0 rulesConfig.

(** The names visited on the way are [arr]; a step down the tree costs a unit of
    fuel.  The named rules are visited in the order of the lists.
    @go config/config.go:1095-1122 verifySubRuleCircularReferences *)
Fixpoint verify_rules (verify : string -> option ConfigErr) (subRules : gmap string (list Rule)) (n : string) (arr : list string)
    (i : nat) (rules : list Rule) : option ConfigErr :=
  match rules with
  | [] => None
  | rule :: rest =>
      if bool_decide (rule_RuleType rule = RT_SubRules) then
        let adapter := rule_Adapter rule in
        match subRules !! adapter with
        | None => Some (ErrSubRuleTarget i n adapter)
        | Some _ =>
            if existsb (String.eqb adapter) arr then Some (ErrCircular (arr ++ [adapter])%list)
            else match verify adapter with
                 | Some e => Some e
                 | None => verify_rules verify subRules n arr (S i) rest
                 end
        end
      else verify_rules verify subRules n arr (S i) rest
  end.
(** @go config/config.go:1095-1122 verifySubRuleCircularReferences *)
Fixpoint verifySubRuleCircularReferences (fuel : nat) (n : string) (subRules : gmap string (list Rule)) (arr : list string) : option ConfigErr :=
  match fuel with
  | O => Some ErrVerifyFuel
  | S fuel =>
      let arr := (arr ++ [n])%list in
      verify_rules (fun adapter => verifySubRuleCircularReferences fuel adapter subRules arr) subRules n arr 0 (default [] (subRules !! n))
  end.

(** Every name starts a search; a path repeats no name, so their number is fuel
    enough.  [names] is the order in which Go visits the map.
    @go config/config.go:1085-1093 verifySubRule *)
Fixpoint verifySubRule (names : list string) (subRules : gmap string (list Rule)) : option ConfigErr :=
  match names with
  | [] => None
  | name :: names =>
      match verifySubRuleCircularReferences (S (size subRules)) name subRules [] with
      | Some e => Some e
      | None => verifySubRule names subRules
      end
  end.

(** [entries] are the entries of the configuration's map in the order Go visits it,
    [names] the order of the second visit.
    @go config/config.go:1066-1076 parseSubRules *)
Fixpoint parseSubRules_loop (subNames : gset string) (entries : list (string * list string)) (subRules : gmap string (list Rule)) : ConfigErr + gmap string (list Rule) :=
  match entries with
  | [] => inr subRules
  | (name, rawRules) :: entries =>
      if String.eqb name "" then inl ErrSubRuleNameEmpty
      else match parseRules rawRules subNames ("sub-rules[" ++ name ++ "]") with
           | inl e => inl e
           | inr rules => parseSubRules_loop subNames entries (<[name := rules]> subRules)
           end
  end.
(** @go config/config.go:1061-1083 parseSubRules *)
Definition parseSubRules (entries : list (string * list string)) (names : list string) : ConfigErr + gmap string (list Rule) :=
  let subNames : gset string := list_to_set (map fst entries) in
  let init : gmap string (list Rule) := list_to_map (map (fun e => (e.1, [])) entries) in
  match parseSubRules_loop subNames entries init with
  | inl e => inl e
  | inr subRules => match verifySubRule names subRules with Some e => inl e | None => inr subRules end
  end.
End Config.
