(* ===== verification/RuleParseProps.v ===== *)
(** * Reading rules: nesting, well-formedness, cycles

    The payloads inside a logic rule are exactly what a parenthesis counter finds;
    every rule that is read is well-formed, with as much fuel as its text is long;
    a configuration whose sub-rules pass the check has no cycle among them. *)

From S2P Require Import Prelude Names Netip Ranges Wildcard Metadata Rules RuleParse.
From Stdlib Require Import Sorting.Sorted.
#[local] Open Scope string_scope.
#[local] Open Scope Z_scope.

(** ** Strings *)

Lemma substring_middle (p m s : string) : String.substring (String.length p) (String.length m) (p ++ m ++ s)%string = m.
Proof.
  induction p as [|c p IH]; [|exact IH]. change (String.substring 0 (String.length m) (m ++ s)%string = m).
  induction m as [|c m IH]; [by destruct s|]. rewrite sapp_cons. cbn [String.length String.substring]. by rewrite IH.
Qed.

Definition zslen (s : string) : Z := Z.of_nat (String.length s).
Lemma zslen_nonneg s : 0 <= zslen s.
Proof. unfold zslen. lia. Qed.
Lemma zslen_app a b : zslen (a ++ b)%string = zslen a + zslen b.
Proof. unfold zslen. rewrite slen_app. lia. Qed.
Lemma zslen_cons c a : zslen (String c a) = 1 + zslen a.
Proof. unfold zslen. cbn. lia. Qed.

Lemma zslen_nil : zslen "" = 0.
Proof. done. Qed.
Ltac zslen_lia := rewrite ?zslen_app, ?zslen_cons, ?zslen_nil, ?zslen_app, ?zslen_cons, ?zslen_nil; lia.

Lemma slice_middle (p m s : string) : slice (p ++ m ++ s) (zslen p) (zslen p + zslen m) = m.
Proof.
  unfold slice, zslen. rewrite Nat2Z.id. replace (Z.to_nat _) with (String.length m) by lia. apply substring_middle.
Qed.

(** ** Parentheses *)

(** The reference: count the depth and cut at depth one. *)
Fixpoint children (depth : nat) (cur s : string) : option (list string) :=
  match s with
  | EmptyString => match depth with O => Some [] | _ => None end
  | String c r =>
      if Ascii.eqb c "(" then
        match depth with O => children 1 "" r | _ => children (S depth) (cur ++ "(") r end
      else if Ascii.eqb c ")" then
        match depth with
        | O => None
        | 1%nat => cons cur <$> children 0 "" r
        | S d => children d (cur ++ ")") r
        end
      else children depth (match depth with O => cur | _ => cur ++ String c "" end) r
  end.
(** A pair around the whole payload is passed over. *)
Definition child_payloads (payload : string) : option (list string) :=
  match children 0 "" payload with
  | Some [c] => if String.eqb payload ("(" ++ c ++ ")") then children 0 "" c else Some [c]
  | x => x
  end.

(** [Bal i s pre tops]: [s] at position [i] is balanced, [pre] are its pairs in the
    order of their openings and [tops] the outermost. *)
Inductive Bal : Z -> string -> list Range -> list Range -> Prop :=
| Bal_nil i : Bal i "" [] []
| Bal_char i c s p t : Ascii.eqb c "(" = false -> Ascii.eqb c ")" = false -> Bal (i + 1) s p t -> Bal i (String c s) p t
| Bal_group i s1 p1 t1 s2 p2 t2 :
    Bal (i + 1) s1 p1 t1 -> Bal (i + 2 + zslen s1) s2 p2 t2 ->
    Bal i (String "(" (s1 ++ String ")" s2)) (mkRange i (i + 1 + zslen s1) :: p1 ++ p2) (mkRange i (i + 1 + zslen s1) :: t2).

(** Whether a text closes [depth] open pairs and is balanced otherwise. *)
Fixpoint closes (depth : nat) (s : string) : bool :=
  match s with
  | EmptyString => (depth =? 0)%nat
  | String c r =>
      if Ascii.eqb c "(" then closes (S depth) r
      else if Ascii.eqb c ")" then match depth with O => false | S d => closes d r end
      else closes depth r
  end.

Lemma closes_split n : forall s depth, (String.length s <= n)%nat -> closes depth s = true ->
  match depth with
  | O => forall i, exists p t, Bal i s p t
  | S d => exists s1 s2, s = (s1 ++ String ")" s2)%string /\ (forall i, exists p t, Bal i s1 p t) /\ closes d s2 = true
  end.
Proof.
  induction n as [|n IH]; intros s depth Hn Hc.
  { destruct s; [|cbn in Hn; lia]. destruct depth; [intros; by exists [], []; constructor|done]. }
  destruct s as [|c s]; [destruct depth; [intros; by exists [], []; constructor|done]|].
  cbn [closes String.length] in *. destruct (Ascii.eqb_spec c "(") as [->|Ho].
  - destruct (IH s (S depth)) as (s1 & s2 & -> & H1 & H2); [lia|done|]. rewrite slen_app in Hn. cbn in Hn.
    pose proof (IH s2 depth ltac:(lia) H2) as H. destruct depth as [|d].
    + intros i. destruct (H1 (i + 1)) as (p1 & t1 & ?). destruct (H (i + 2 + zslen s1)) as (p2 & t2 & ?).
      do 2 eexists. by eapply Bal_group.
    + destruct H as (s3 & s4 & -> & H3 & H4). exists (String "(" (s1 ++ String ")" s3))%string, s4.
      split; [by rewrite sapp_cons, sapp_assoc|]. split; [|done].
      intros i. destruct (H1 (i + 1)) as (p1 & t1 & ?). destruct (H3 (i + 2 + zslen s1)) as (p2 & t2 & ?).
      do 2 eexists. by eapply Bal_group.
  - destruct (Ascii.eqb_spec c ")") as [->|Hcl].
    + destruct depth as [|d]; [done|]. exists "", s. split; [done|]. split; [|done]. intros. by exists [], []; constructor.
    + pose proof (IH s depth ltac:(lia) Hc) as H.
      assert (Hch : forall i s, (forall i, exists p t, Bal i s p t) -> exists p t, Bal i (String c s) p t).
      { intros i s' Hs. destruct (Hs (i + 1)) as (p & t & ?). exists p, t. constructor; [by apply Ascii.eqb_neq..|done]. }
      destruct depth as [|d]; [auto|]. destruct H as (s1 & s2 & -> & H1 & H2). exists (String c s1), s2. auto.
Qed.

(** The loops of the code and of the reference on a balanced text. *)
Lemma format_loop_closes s : forall i stack acc,
  if closes (length stack) s then exists l, format_loop s i stack acc = inr l
  else exists e, format_loop s i stack acc = inl e /\ e <> ErrPayloadFormat.
Proof.
  induction s as [|c s IH]; intros i stack acc; cbn [closes format_loop].
  - destruct stack; cbn; by eexists.
  - destruct (Ascii.eqb c "("); [apply (IH _ (i :: stack))|]. destruct (Ascii.eqb c ")"); [|apply IH].
    destruct stack; cbn; [by eexists|apply IH].
Qed.

Lemma format_loop_Bal i s p t : Bal i s p t -> forall rest stack acc, exists p',
  p' ≡ₚ p /\ format_loop (s ++ rest) i stack acc = format_loop rest (i + zslen s) stack (acc ++ p')%list.
Proof.
  induction 1 as [i|i c s p t Ho Hc _ IH|i s1 p1 t1 s2 p2 t2 _ IH1 _ IH2]; intros rest stack acc.
  - exists []. split; [done|]. rewrite app_nil_r. change (zslen "") with 0. by rewrite Z.add_0_r.
  - destruct (IH rest stack acc) as (p' & Hp & E). exists p'. split; [done|]. rewrite ?sapp_cons. cbn [format_loop]. rewrite Ho, Hc, E.
    rewrite zslen_cons. f_equal. lia.
  - rewrite ?sapp_cons. cbn [format_loop]. rewrite Ascii.eqb_refl. rewrite sapp_assoc.
    destruct (IH1 ((String ")" s2 ++ rest))%string (i :: stack) acc) as (q1 & Hq1 & ->). rewrite ?sapp_cons. cbn [format_loop].
    destruct (Ascii.eqb_spec ")" "(") as [|_]; [done|]. rewrite Ascii.eqb_refl.
    replace (i + 1 + zslen s1 + 1) with (i + 2 + zslen s1) by lia.
    destruct (IH2 rest stack ((acc ++ q1) ++ [mkRange i (i + 1 + zslen s1)])%list) as (q2 & Hq2 & ->).
    exists (q1 ++ [mkRange i (i + 1 + zslen s1)] ++ q2)%list. split.
    + rewrite Hq1, Hq2. cbn. by rewrite Permutation_middle.
    + rewrite zslen_cons, zslen_app, zslen_cons, !app_assoc. f_equal. lia.
Qed.

Lemma children_deep s i p t : Bal i s p t -> forall depth cur rest,
  children (S depth) cur (s ++ rest) = children (S depth) (cur ++ s) rest.
Proof.
  induction 1 as [i|i c s p t Ho Hc _ IH|i s1 p1 t1 s2 p2 t2 _ IH1 _ IH2]; intros depth cur rest.
  - by rewrite sapp_nil.
  - rewrite ?sapp_cons. cbn [children]. rewrite Ho, Hc, IH. f_equal. by rewrite sapp_assoc.
  - rewrite ?sapp_cons. cbn [children]. rewrite Ascii.eqb_refl, sapp_assoc, IH1. rewrite ?sapp_cons. cbn [children].
    destruct (Ascii.eqb_spec ")" "(") as [|_]; [done|]. rewrite Ascii.eqb_refl, IH2. f_equal. rewrite !sapp_assoc. done.
Qed.

Lemma children_closes s : forall depth cur, closes depth s = false -> children depth cur s = None.
Proof.
  induction s as [|c s IH]; intros depth cur; cbn [closes children]; [by destruct depth|].
  destruct (Ascii.eqb c "("); [intros; destruct depth; by apply IH|].
  destruct (Ascii.eqb c ")"); [|apply IH]. destruct depth as [|[|d]]; [done| |apply IH]. intros. by rewrite IH.
Qed.

(** Cutting at the outermost pairs, inside a larger text. *)
Lemma children_Bal i s p t : Bal i s p t -> forall pre suf, zslen pre = i ->
  forall cur, children 0 cur s = Some (map (fun r => slice (pre ++ s ++ suf) (start r + 1) (end_ r)) t).
Proof.
  induction 1 as [i|i c s p t Ho Hc Hb IH|i s1 p1 t1 s2 p2 t2 Hb1 IH1 Hb2 IH2]; intros pre suf Hpre cur; [done|..].
  - cbn [children]. rewrite Ho, Hc. rewrite (IH (pre ++ String c "")%string suf) by zslen_lia.
    f_equal. apply map_ext. intros r. by rewrite sapp_assoc.
  - cbn [children]. rewrite Ascii.eqb_refl, (children_deep _ _ _ _ Hb1). rewrite ?sapp_cons. cbn [children].
    destruct (Ascii.eqb_spec ")" "(") as [|_]; [done|]. rewrite Ascii.eqb_refl.
    rewrite (IH2 (pre ++ String "(" s1 ++ ")")%string suf) by zslen_lia.
    cbn [fmap option_fmap option_map map start end_]. f_equal. f_equal.
    + etransitivity; [symmetry; apply (slice_middle (pre ++ "(") s1 (String ")" (s2 ++ suf)))|].
      f_equal; [by sapp|zslen_lia..].
    + apply map_ext. intros r. by sapp.
Qed.

(** Positions and order of the pairs. *)
Lemma Bal_bounds i s p t : Bal i s p t -> Forall (fun r => i <= start r /\ start r < end_ r < i + zslen s) p.
Proof.
  induction 1 as [i|i c s p t Ho Hc _ IH|i s1 p1 t1 s2 p2 t2 _ IH1 _ IH2]; [constructor|..].
  - eapply Forall_impl; [exact IH|]. cbn. rewrite zslen_cons. lia.
  - rewrite zslen_cons, zslen_app, zslen_cons. pose proof (zslen_nonneg s1). pose proof (zslen_nonneg s2).
    constructor; [cbn; lia|]. apply Forall_app. split; [eapply Forall_impl; [exact IH1|]|eapply Forall_impl; [exact IH2|]]; cbn; lia.
Qed.

Definition strictly : list Range -> Prop := StronglySorted (fun a b => start a < start b).

Lemma strictly_app l k : strictly l -> strictly k -> (forall a b, a ∈ l -> b ∈ k -> start a < start b) -> strictly (l ++ k).
Proof.
  induction 1 as [|a l Hl IH Ha]; intros Hk Hlk; [done|]. cbn. constructor; [apply IH; [done|]; set_solver|].
  apply Forall_app. split; [done|]. apply Forall_forall. set_solver.
Qed.

Lemma Bal_strictly i s p t : Bal i s p t -> strictly p.
Proof.
  induction 1 as [i|i c s p t Ho Hc _ IH|i s1 p1 t1 s2 p2 t2 Hb1 IH1 Hb2 IH2]; [constructor|done|].
  pose proof (Bal_bounds _ _ _ _ Hb1) as B1. pose proof (Bal_bounds _ _ _ _ Hb2) as B2. rewrite Forall_forall in B1, B2.
  pose proof (zslen_nonneg s1). constructor.
  - apply strictly_app; [done..|]. intros a b Ha%B1 Hb%B2. lia.
  - apply Forall_forall. intros r [Hr%B1|Hr%B2]%elem_of_app; cbn; lia.
Qed.

Lemma sorted_unique l : forall k, by_start l -> strictly k -> l ≡ₚ k -> l = k.
Proof.
  induction l as [|a l IH]; intros k Hl Hk Hp; [by apply Permutation_nil_l in Hp|].
  destruct k as [|b k]; [symmetry in Hp; by apply Permutation_nil_cons in Hp|].
  inversion_clear Hl as [|? ? Hl' Ha]. inversion_clear Hk as [|? ? Hk' Hb]. rewrite Forall_forall in Ha, Hb.
  assert (a = b) as ->.
  { assert (Hin : a ∈ b :: k) by (rewrite <- Hp; left). apply elem_of_cons in Hin as [|Hin]; [done|].
    assert (Hin' : b ∈ a :: l) by (rewrite Hp; left). apply elem_of_cons in Hin' as [|Hin']; [done|].
    specialize (Ha _ Hin'). specialize (Hb _ Hin). cbn in *. lia. }
  f_equal. apply IH; [done..|]. by apply Permutation_cons_inv in Hp.
Qed.

Lemma sort_start_strictly l k : l ≡ₚ k -> strictly k -> sort_start l = k.
Proof. destruct (sort_start_spec l) as [Hp Hs]. intros Hlk Hk. apply sorted_unique; [done..|]. by rewrite Hp. Qed.

(** The filter on the sorted pairs. *)
Lemma find_inside n l R rest subs : R ∈ subs -> Forall (fun r => start R < start r /\ end_ r < end_ R) l ->
  find_loop n (l ++ rest) subs = find_loop n rest subs.
Proof.
  intros HR. induction 1 as [|r l [H1 H2] _ IH]; [done|]. cbn [app find_loop].
  replace (existsb (fun x => containRange r (start x) (end_ x)) subs) with true; [by destruct (_ && _)|].
  symmetry. apply existsb_exists. exists R. split; [by apply list_elem_of_In|]. unfold containRange.
  apply andb_true_iff. rewrite !Z.ltb_lt. lia.
Qed.

Lemma find_Bal n i s p t : Bal i s p t -> forall rest subs,
  Forall (fun r => (start r =? 0) && (end_ r =? n - 1) = false) p -> Forall (fun r => end_ r < i) subs ->
  find_loop n (p ++ rest) subs = find_loop n rest (subs ++ t).
Proof.
  induction 1 as [i|i c s p t Ho Hc _ IH|i s1 p1 t1 s2 p2 t2 Hb1 IH1 Hb2 IH2]; intros rest subs Hw Hs.
  - by rewrite app_nil_r.
  - apply IH; [done|]. eapply Forall_impl; [exact Hs|]. cbn. lia.
  - inversion_clear Hw as [|? ? HwR Hw']. apply Forall_app in Hw' as [Hw1 Hw2]. cbn [app find_loop]. rewrite HwR.
    pose proof (zslen_nonneg s1).
    replace (existsb _ subs) with false.
    2:{ symmetry. apply not_true_is_false. rewrite existsb_exists. intros (x & Hx%list_elem_of_In & Hc).
        rewrite Forall_forall in Hs. specialize (Hs x Hx). unfold containRange in Hc. cbn in Hc. zify_bool. lia. }
    rewrite <- app_assoc, (find_inside n p1 (mkRange i (i + 1 + zslen s1))).
    + rewrite IH2; [by rewrite <- app_assoc|done|]. apply Forall_app. split; [eapply Forall_impl; [exact Hs|]; cbn; lia|].
      repeat constructor. cbn. lia.
    + set_solver.
    + eapply Forall_impl; [exact (Bal_bounds _ _ _ _ Hb1)|]. cbn. lia.
Qed.

(** The payloads of the rules inside a logic rule are what a counter of
    parentheses finds: the outermost pairs, or, when one pair is all of the text,
    the outermost pairs in it; the text is refused exactly when it does not begin
    and end with parentheses or they do not balance. *)
Lemma subPayloads_children payload :
  match subPayloads payload with
  | inr l => HasPrefix payload "(" = true /\ HasSuffix payload ")" = true /\ child_payloads payload = Some l
  | inl ErrPayloadFormat => HasPrefix payload "(" && HasSuffix payload ")" = false
  | inl _ => child_payloads payload = None
  end.
Proof.
  unfold subPayloads. destruct (HasPrefix payload "(") eqn:Hpre; [|done]. destruct (HasSuffix payload ")") eqn:Hsuf; [|done].
  cbn [negb orb]. unfold format. pose proof (format_loop_closes payload 0 [] []) as Hf. cbn [length] in Hf.
  destruct (closes 0 payload) eqn:Hcl.
  2:{ destruct Hf as (e & -> & He). unfold child_payloads. rewrite (children_closes _ _ "" Hcl). by destruct e. }
  destruct (closes_split _ payload 0 ltac:(done) Hcl 0) as (p & t & Hb).
  destruct (format_loop_Bal _ _ _ _ Hb "" [] []) as (p' & Hp & E). rewrite sapp_nil in E. rewrite E. cbn [format_loop app].
  rewrite (sort_start_strictly p' p Hp (Bal_strictly _ _ _ _ Hb)). split; [done|]. split; [done|].
  unfold findSubRuleRange, child_payloads. fold (zslen payload). clear E Hcl Hf Hsuf Hp p'.
  inversion Hb as [|? c s ? ? Ho _ _ E1 E2|? s1 p1 t1 s2 p2 t2 Hb1 Hb2]; subst; [done| |].
  { apply HasPrefix_spec in Hpre as [r Hr]. injection Hr as -> _. by rewrite Ascii.eqb_refl in Ho. }
  pose proof (zslen_nonneg s1). pose proof (zslen_nonneg s2).
  rewrite (children_Bal _ _ _ _ Hb "" "") by done. rewrite sapp_nil, sapp_nil_l. cbn [map start end_].
  assert (Hs1 : slice (String "(" (s1 ++ String ")" s2)) (0 + 1) (0 + 1 + zslen s1) = s1).
  { change (String "(" (s1 ++ String ")" s2)) with ("(" ++ s1 ++ String ")" s2)%string. by apply (slice_middle "("). }
  rewrite Hs1. destruct s2 as [|c s2].
  - (* one pair around everything *)
    assert (p2 = [] /\ t2 = []) as [-> ->] by (by inversion Hb2). rewrite app_nil_r. cbn [map].
    change ("(" ++ s1 ++ ")")%string with (String "(" (s1 ++ ")")). rewrite String.eqb_refl.
    cbn [find_loop start end_]. rewrite zslen_cons, zslen_app. change (zslen ")") with 1.
    destruct (Z.eqb_spec (0 + 1 + zslen s1) (1 + (zslen s1 + 1) - 1)) as [_|]; [|lia]. cbn [Z.eqb andb].
    rewrite <- (app_nil_r p1). rewrite (find_Bal _ _ _ _ _ Hb1); [|eapply Forall_impl; [exact (Bal_bounds _ _ _ _ Hb1)|]|by constructor].
    + cbn [find_loop app]. rewrite (children_Bal _ _ _ _ Hb1 "(" ")") by done. done.
    + cbn. intros r Hr. destruct (Z.eqb_spec (start r) 0); [lia|done].
  - rewrite <- (app_nil_r (_ :: p1 ++ p2)). rewrite (find_Bal _ _ _ _ _ Hb); [| |by constructor].
    + cbn [find_loop app map start end_]. rewrite Hs1. destruct (map _ t2); [|done].
      destruct (String.eqb_spec (String "(" (s1 ++ String ")" (String c s2))) ("(" ++ s1 ++ ")")) as [E|]; [|done].
      apply (f_equal zslen) in E. revert E. pose proof (zslen_nonneg s2). zslen_lia.
    + pose proof (Bal_strictly _ _ _ _ Hb) as Hst. inversion_clear Hst as [|? ? _ Hgt]. constructor.
      * cbn [start end_]. apply andb_false_iff. right. apply Z.eqb_neq. pose proof (zslen_nonneg s2). zslen_lia.
      * eapply Forall_impl; [exact Hgt|]. cbn. intros r Hr. by destruct (Z.eqb_spec (start r) 0); [lia|].
Qed.

(** ** Well-formed rules *)

(** No sub-rule inside, and one rule under a negation. *)
Fixpoint plain_rule (r : Rule) : bool :=
  match r with
  | RLogic ruleType _ _ rules =>
      (bool_decide (ruleType = RT_AND) || bool_decide (ruleType = RT_OR)
       || bool_decide (ruleType = RT_NOT) && (length rules =? 1)%nat)
      && forallb plain_rule rules
  | RRuleWrapper _ _ => false
  | RPort p => negb (bool_decide (po_ruleType p = RT_SubRules))
  | RProcess ps => negb (bool_decide (ps_ruleType ps = RT_SubRules))
  | _ => true
  end.
(** A sub-rule has one plain condition. *)
Definition sub_rule (r : Rule) : bool :=
  match r with RLogic RT_SubRules _ _ [c] => plain_rule c | _ => false end.
Definition wf_rule (r : Rule) : bool := plain_rule r || sub_rule r.

(** *** Texts get shorter *)

Lemma TrimLeftFunc_length p s : (String.length (TrimLeftFunc p s) <= String.length s)%nat.
Proof. induction s as [|c s IH]; cbn; [lia|]. destruct (p c); cbn; lia. Qed.
Lemma TrimRightFunc_length p s : (String.length (TrimRightFunc p s) <= String.length s)%nat.
Proof. induction s as [|c s IH]; [done|]. cbn. destruct (TrimRightFunc p s); [destruct (p c)|]; cbn in *; lia. Qed.
Lemma Trim_length s cutset : (String.length (Trim s cutset) <= String.length s)%nat.
Proof. unfold Trim, TrimFunc. etransitivity; [apply TrimRightFunc_length|apply TrimLeftFunc_length]. Qed.

Lemma Join_length_cons sep x l : l <> [] -> String.length (JoinOn sep (x :: l)) = (String.length x + S (String.length (JoinOn sep l)))%nat.
Proof. intros Hl. rewrite Join_cons by done. by rewrite slen_app. Qed.
Lemma Join_trim_length sep l : (String.length (JoinOn sep (trimArr l)) <= String.length (JoinOn sep l))%nat.
Proof.
  induction l as [|x l IH]; [done|]. pose proof (Trim_length x " "). destruct l as [|y l]; [done|].
  change (trimArr (x :: y :: l)) with (Trim x " " :: trimArr (y :: l)). rewrite !Join_length_cons by done. lia.
Qed.

(** A payload is empty or comes behind a comma. *)
Lemma raw_payload_length s : raw_payload (ParseRulePayload s false) = ""
  \/ (String.length (raw_payload (ParseRulePayload s false)) < String.length s)%nat.
Proof.
  unfold ParseRulePayload. pose proof (Join_trim_length "," (SplitOn "," s)) as H. rewrite Join_Split in H.
  destruct (trimArr (SplitOn "," s)) as [|item0 [|item1 more]]; [by left|by left|].
  rewrite Join_length_cons in H by done.
  assert (Hi : (String.length item1 <= String.length (JoinOn "," (item1 :: more)))%nat).
  { destruct more; [done|]. rewrite Join_length_cons by done. lia. }
  destruct (String.eqb _ "MATCH"); [by left|]. destruct (comma_payload _); [right; cbn [raw_payload]; lia|].
  right. destruct more; cbn [raw_payload]; lia.
Qed.

Lemma find_loop_Forall n (P : Range -> Prop) l : forall subs, Forall P l -> Forall P subs -> Forall P (find_loop n l subs).
Proof.
  induction l as [|r l IH]; intros subs Hl Hs; [done|]. inversion_clear Hl as [|? ? Hr Hl']. cbn [find_loop].
  destruct (_ && _); [by apply IH|]. apply IH; [done|]. destruct (existsb _ _); [done|]. apply Forall_app. by repeat constructor.
Qed.

Lemma substring_length n m s : (String.length (String.substring n m s) <= m)%nat.
Proof. revert n m. induction s as [|c s IH]; intros [|n] [|m]; cbn; try lia; [specialize (IH 0%nat m)|specialize (IH n 0%nat)|specialize (IH n (S m))]; lia. Qed.

Lemma subPayloads_length payload l : subPayloads payload = inr l -> Forall (fun c => (String.length c + 2 <= String.length payload)%nat) l.
Proof.
  unfold subPayloads. destruct (_ || _); [done|]. unfold format.
  pose proof (format_loop_closes payload 0 [] []) as Hf. cbn [length] in Hf. destruct (closes 0 payload) eqn:Hcl.
  2:{ destruct Hf as (e & -> & _). done. }
  destruct (closes_split _ payload 0 ltac:(done) Hcl 0) as (p & t & Hb).
  destruct (format_loop_Bal _ _ _ _ Hb "" [] []) as (p' & Hp & E). rewrite sapp_nil in E. rewrite E. cbn [format_loop app].
  rewrite (sort_start_strictly p' p Hp (Bal_strictly _ _ _ _ Hb)). intros [= <-]. apply Forall_map.
  eapply Forall_impl; [apply find_loop_Forall; [exact (Bal_bounds _ _ _ _ Hb)|constructor]|]. cbn. intros r Hr.
  unfold slice. pose proof (substring_length (Z.to_nat (start r + 1)) (Z.to_nat (end_ r - (start r + 1))) payload).
  unfold zslen in Hr. lia.
Qed.

(** *** Reading a rule *)

(** What reading may give: a rule with the wanted shape and target, or an error that
    is not want of fuel. *)
Definition reads (shape : Rule -> bool) (target : string) (x : RuleErr + Rule) : Prop :=
  match x with inr r => shape r = true /\ rule_Adapter r = target | inl e => e <> ErrFuel end.

Lemma payloads_to_rules_plain parseRule l :
  Forall (fun c => forall tp, tp <> "SUB-RULE" -> tp = raw_tp (ParseRulePayload c false) ->
            reads plain_rule (raw_target (ParseRulePayload c false))
              (parseRule tp (raw_payload (ParseRulePayload c false)) (raw_target (ParseRulePayload c false)) (raw_params (ParseRulePayload c false)))) l ->
  match payloads_to_rules parseRule l with
  | inr rules => forallb plain_rule rules = true
  | inl e => e <> ErrFuel
  end.
Proof.
  induction 1 as [|c l Hc _ IH]; [done|]. cbn [payloads_to_rules]. unfold payloadToRule.
  destruct (String.eqb_spec (raw_tp (ParseRulePayload c false)) "MATCH"); [done|].
  destruct (String.eqb_spec (raw_tp (ParseRulePayload c false)) "SUB-RULE") as [|Hs]; [done|]. cbn [orb].
  destruct (String.eqb _ ""); [done|]. specialize (Hc _ Hs eq_refl). unfold reads in Hc.
  destruct (parseRule _ _ _ _) as [e|r]; [done|]. destruct Hc as [Hp _].
  destruct (payloads_to_rules parseRule l) as [e|rules]; [done|]. cbn. by rewrite Hp.
Qed.

Section LogicReads.
Context (parseRule : ParseRuleFunc) (payload target : string).
Context (Hsub : forall tp payload' target' params, (payload' = "" \/ (String.length payload' < String.length payload)%nat) ->
                tp <> "SUB-RULE" -> reads plain_rule target' (parseRule tp payload' target' params)).

Lemma parsePayload_plain payload' : (String.length payload' <= String.length payload + 2)%nat ->
  match parsePayload parseRule payload' with inr rules => forallb plain_rule rules = true | inl e => e <> ErrFuel end.
Proof.
  intros Hlen. unfold parsePayload. destruct (subPayloads payload') as [e|l] eqn:E.
  { unfold subPayloads in E. destruct (_ || _); [by injection E as <-|]. destruct (format payload') as [e'|] eqn:Ef; [|done].
    injection E as ->. unfold format in Ef. pose proof (format_loop_closes payload' 0 [] []) as Hf.
    destruct (format_loop payload' 0 [] []) as [e'|] eqn:El; [|done]. injection Ef as ->.
    clear -El. revert El. generalize 0 (@nil Z) (@nil Range). induction payload' as [|c s IH]; intros i st acc; cbn [format_loop].
    - destruct st; [done|]. by intros [= <-].
    - destruct (Ascii.eqb c "("); [apply IH|]. destruct (Ascii.eqb c ")"); [|apply IH]. destruct st; [by intros [= <-]|apply IH]. }
  apply payloads_to_rules_plain. eapply Forall_impl; [exact (subPayloads_length _ _ E)|]. cbn. intros c Hc tp Htp ->.
  apply Hsub; [|done]. destruct (raw_payload_length c) as [|]; [by left|right; lia].
Qed.

Lemma NewAND_reads : reads plain_rule target (NewAND parseRule payload target).
Proof. unfold NewAND. pose proof (parsePayload_plain payload ltac:(lia)). destruct (parsePayload _ _); cbn; [done|]. done. Qed.
Lemma NewOR_reads : reads plain_rule target (NewOR parseRule payload target).
Proof. unfold NewOR. pose proof (parsePayload_plain payload ltac:(lia)). destruct (parsePayload _ _); cbn; [done|]. done. Qed.
Lemma NewNOT_reads : reads plain_rule target (NewNOT parseRule payload target).
Proof.
  unfold NewNOT, one_rule. pose proof (parsePayload_plain payload ltac:(lia)). destruct (parsePayload _ _) as [|rules]; cbn; [done|].
  destruct (length rules =? 1)%nat eqn:El; cbn; [|done]. by rewrite El.
Qed.
Lemma NewSubRule_reads : reads sub_rule target (NewSubRule parseRule payload target).
Proof.
  unfold NewSubRule, one_rule. pose proof (parsePayload_plain ("(" ++ payload ++ ")")) as H.
  destruct (parsePayload _ _) as [|rules]; [apply H; rewrite !slen_app; cbn; lia|].
  destruct rules as [|r [|? ?]]; cbn; [done| |done]. split; [|done]. cbn in H. rewrite andb_true_r in H. apply H. rewrite !slen_app. cbn. lia.
Qed.
End LogicReads.

(** The constructors of the matchers. *)
Ltac reads_case := unfold reads; repeat case_match; simplify_eq; cbn; try done; 
  try match goal with H : bool_decide (_ = RT_SubRules) = false |- _ => by rewrite H end.
Lemma matcher_reads pe payload target isSrc noResolve rt : bool_decide (rt = RT_SubRules) = false ->
  reads plain_rule target (NewDomainRegex pe payload target) /\ reads plain_rule target (NewGEOSITE pe payload target)
  /\ reads plain_rule target (NewGEOIP pe payload target isSrc noResolve) /\ reads plain_rule target (NewIPASN pe payload target isSrc noResolve)
  /\ reads plain_rule target (NewIPCIDR payload target isSrc noResolve) /\ reads plain_rule target (NewIPSuffix payload target isSrc noResolve)
  /\ reads plain_rule target (NewPort payload target rt) /\ reads plain_rule target (NewDSCP payload target)
  /\ reads plain_rule target (NewProcess pe payload target rt) /\ reads plain_rule target (NewNetworkType payload target)
  /\ reads plain_rule target (NewUid pe payload target) /\ reads plain_rule target (NewInType payload target)
  /\ reads plain_rule target (NewInUser payload target) /\ reads plain_rule target (NewInName payload target)
  /\ reads plain_rule target (NewRematchName payload target).
Proof.
  intros Hrt. unfold NewDomainRegex, NewGEOSITE, NewGEOIP, NewIPASN, NewIPCIDR, NewIPSuffix, NewPort, NewDSCP, NewProcess, NewNetworkType, NewUid,
    NewInUser, NewInName, NewRematchName. repeat (split; [by reads_case|]). split; [|split; [|split]]; try by reads_case.
  unfold NewInType. destruct (slash_names payload) as [types|]; [|done]. assert (H : forall e, parseInTypes types = inl e -> e <> ErrFuel).
  { induction types as [|tp types IH]; [done|]. cbn. intros e. repeat case_match; naive_solver. }
  destruct (parseInTypes types) as [e|]; cbn; [by apply H|done].
Qed.

Lemma ParseRule_fuel_reads pe fuel : forall tp payload target params, (String.length payload < fuel)%nat ->
  reads (if String.eqb tp "SUB-RULE" then sub_rule else plain_rule) target (ParseRule_fuel pe fuel tp payload target params).
Proof.
  induction fuel as [|fuel IH]; intros tp payload target params Hf; [lia|]. cbn [ParseRule_fuel].
  destruct (negb (String.eqb tp "MATCH") && String.eqb payload "") eqn:Hempty; [done|].
  destruct (ParseParams params) as [isSrc noResolve].
  destruct (String.eqb_spec tp "MATCH") as [->|Hm]; [done|]. cbn [negb andb] in Hempty. apply String.eqb_neq in Hempty.
  assert (Hsub : forall tp payload' target' params, (payload' = "" \/ (String.length payload' < String.length payload)%nat) ->
                tp <> "SUB-RULE" -> reads plain_rule target' (ParseRule_fuel pe fuel tp payload' target' params)).
  { intros tp' payload' target' params' Hp Htp. specialize (IH tp' payload' target' params').
    destruct (String.eqb_spec tp' "SUB-RULE"); [done|]. apply IH. destruct Hp as [->|]; [|lia].
    destruct payload; [done|]. cbn in *. lia. }
  pose proof (matcher_reads pe payload target) as Hms.
  destruct (String.eqb_spec tp "SUB-RULE") as [->|Hns]; [by apply (NewSubRule_reads _ _ _ Hsub)|].
  repeat match goal with |- context [if String.eqb tp ?x || ?y then _ else _] => destruct (String.eqb tp x || y)
    | |- context [if String.eqb tp ?x then _ else _] => destruct (String.eqb_spec tp x) end; try done;
    try match goal with
    | |- reads _ _ (NewPort _ _ ?rt) => apply (Hms true true rt eq_refl)
    | |- reads _ _ (NewProcess _ _ _ ?rt) => apply (Hms true true rt eq_refl)
    | |- reads _ _ (NewGEOIP _ _ _ ?a ?b) => apply (Hms a b RT_DstPort eq_refl)
    | |- reads _ _ (NewIPASN _ _ _ ?a ?b) => apply (Hms a b RT_DstPort eq_refl)
    | |- reads _ _ (NewIPCIDR _ _ ?a ?b) => apply (Hms a b RT_DstPort eq_refl)
    | |- reads _ _ (NewIPSuffix _ _ ?a ?b) => apply (Hms a b RT_DstPort eq_refl)
    | _ => apply (Hms true true RT_DstPort eq_refl)
    end.
  - by apply (NewAND_reads _ _ _ Hsub).
  - by apply (NewOR_reads _ _ _ Hsub).
  - by apply (NewNOT_reads _ _ _ Hsub).
Qed.

Lemma ParseRule_reads pe tp payload target params :
  reads (if String.eqb tp "SUB-RULE" then sub_rule else plain_rule) target (ParseRule pe tp payload target params).
Proof. apply ParseRule_fuel_reads. lia. Qed.

(** Lines of a rule set give plain rules. *)
Lemma classical_lines_plain pe lines : forall st, Forall (fun r => plain_rule r = true) (fst st) ->
  Forall (fun r => plain_rule r = true) (fst (fold_left (classical_Insert pe) lines st)).
Proof.
  induction lines as [|line lines IH]; intros st Hst; [done|]. cbn [fold_left]. apply IH. unfold classical_Insert, classical_payloadToRule.
  destruct (contains_str _ _) eqn:Ec; [done|].
  pose proof (ParseRule_reads pe (raw_tp (ParseRulePayload line false)) (raw_payload (ParseRulePayload line false))
                (raw_target (ParseRulePayload line false)) (raw_params (ParseRulePayload line false))) as H.
  destruct (String.eqb_spec (raw_tp (ParseRulePayload line false)) "SUB-RULE") as [E|_]; [by rewrite E in Ec|].
  destruct (ParseRule _ _ _ _ _); [done|]. cbn [fst]. apply Forall_app. destruct H. by repeat constructor.
Qed.


(** A pair of parentheses around the whole of an AND is no condition: the rule has
    none, and is read all the same (it matches everything, see
    [RulesSem.empty_and_matches]). *)
Example AND_without_conditions pe :
  ParseRule pe "AND" "(DOMAIN,example.com)" "PROXY" [] = inr (RLogic RT_AND "(DOMAIN,example.com)" "PROXY" []).
Proof. reflexivity. Qed.

(** DSCP values above 255 are cut to eight bits before they are checked. *)
Example DSCP_300 : NewDSCP "300" "PROXY" = inr (RDSCP (mkDSCP [mkRange 44 44] "300" "PROXY")).
Proof. reflexivity. Qed.

(** ** Cycles among the sub-rules *)

Section Cycles.
#[local] Open Scope list_scope.
Context (subRules : gmap string (list Rule)).

(** The named list [n] holds a sub-rule that jumps to [m]. *)
Definition jumps (n m : string) : Prop :=
  exists i r, default [] (subRules !! n) !! i = Some r /\ rule_RuleType r = RT_SubRules /\ rule_Adapter r = m.

(** A path of jumps that comes back to a list it has visited. *)
Inductive chain : list string -> Prop :=
| chain_one n : chain [n]
| chain_snoc l n m : chain (l ++ [n]) -> jumps n m -> chain (l ++ [n; m]).
Definition cyclic (path : list string) : Prop := exists l n, path = l ++ [n] /\ n ∈ l /\ chain path.

(** What a search that started at [n] has found when it ends. *)
Definition search_ends (n : string) (o : option ConfigErr) : Prop :=
  match o with
  | None => Acc (fun x y => jumps y x) n
  | Some (ErrSubRuleTarget i n' a) =>
      exists r, default [] (subRules !! n') !! i = Some r /\ rule_RuleType r = RT_SubRules /\ rule_Adapter r = a /\ subRules !! a = None
  | Some (ErrCircular path) => cyclic path
  | Some _ => False
  end.

Lemma verify_rules_ends (verify : string -> option ConfigErr) n arr rules : forall i,
  (forall k, rules !! k = default [] (subRules !! n) !! (i + k)%nat) -> chain (arr ++ [n]) ->
  (forall m, jumps n m -> is_Some (subRules !! m) -> m ∉ arr ++ [n] -> search_ends m (verify m)) ->
  match verify_rules verify subRules n (arr ++ [n]) i rules with
  | None => forall k r, rules !! k = Some r -> rule_RuleType r = RT_SubRules -> Acc (fun x y => jumps y x) (rule_Adapter r)
  | o => search_ends n o
  end.
Proof.
  induction rules as [|r rules IH]; intros i Hi Hch Hv; [done|]. cbn [verify_rules].
  assert (Hi0 : default [] (subRules !! n) !! i = Some r) by (by rewrite <- (Nat.add_0_r i), <- Hi).
  assert (IH' := IH (S i) ltac:(intros k; rewrite Nat.add_succ_comm, <- Hi; done) Hch Hv).
  destruct (bool_decide (rule_RuleType r = RT_SubRules)) eqn:Ert; zify_bool.
  - assert (Hj : jumps n (rule_Adapter r)) by (by exists i, r).
    destruct (subRules !! rule_Adapter r) as [callee|] eqn:Ecall; [|by exists r].
    destruct (existsb (String.eqb (rule_Adapter r)) (arr ++ [n])) eqn:Ein.
    + apply existsb_exists in Ein as (x & Hx%list_elem_of_In & E%String.eqb_eq). subst x. exists (arr ++ [n])%list, (rule_Adapter r).
      split; [done|]. split; [done|]. rewrite <- app_assoc. by apply chain_snoc.
    + assert (Hnin : rule_Adapter r ∉ arr ++ [n]).
      { intros Hin. apply not_true_iff_false in Ein. apply Ein, existsb_exists. exists (rule_Adapter r).
        split; [by apply list_elem_of_In|apply String.eqb_refl]. }
      pose proof (Hv _ Hj ltac:(by rewrite Ecall) Hnin) as Hs. destruct (verify (rule_Adapter r)) as [e|] eqn:Ev; [by destruct e|].
      destruct (verify_rules verify subRules n (arr ++ [n]) (S i) rules); [done|].
      intros [|k] r' Hk Hr'; [by injection Hk as <-|by apply (IH' k)].
  - destruct (verify_rules verify subRules n (arr ++ [n]) (S i) rules); [done|].
    intros [|k] r' Hk Hr'; [by injection Hk as <-|by apply (IH' k)].
Qed.

Lemma verify_ends fuel : forall n arr, is_Some (subRules !! n) ->
  NoDup (arr ++ [n]) -> Forall (fun x => is_Some (subRules !! x)) arr -> chain (arr ++ [n]) ->
  (S (size subRules) <= fuel + length arr)%nat ->
  search_ends n (verifySubRuleCircularReferences fuel n subRules arr).
Proof.
  induction fuel as [|fuel IH]; intros n arr Hn Hnd Harr Hch Hf.
  - exfalso. assert (length (arr ++ [n]) <= size subRules)%nat; [|rewrite length_app in *; cbn in *; lia].
    rewrite <- size_dom. rewrite <- (size_list_to_set (C := gset string) (arr ++ [n]) Hnd). apply subseteq_size.
    intros x Hx%elem_of_list_to_set. apply elem_of_dom. apply elem_of_app in Hx as [Hx| ->%list_elem_of_singleton]; [|done].
    rewrite Forall_forall in Harr. by apply Harr.
  - cbn [verifySubRuleCircularReferences].
    pose proof (verify_rules_ends (fun adapter => verifySubRuleCircularReferences fuel adapter subRules (arr ++ [n])) n arr
                  (default [] (subRules !! n)) 0 ltac:(done) Hch) as Hr.
    assert (Hv : forall m, jumps n m -> is_Some (subRules !! m) -> m ∉ arr ++ [n] ->
                 search_ends m (verifySubRuleCircularReferences fuel m subRules (arr ++ [n]))).
    { intros m Hj Hm Hnin. apply IH; [done| | | |].
      - apply NoDup_app. split; [done|]. split; [set_solver|apply NoDup_singleton].
      - apply Forall_app. by repeat constructor.
      - rewrite <- app_assoc. by apply chain_snoc.
      - rewrite length_app. cbn. lia. }
    specialize (Hr Hv).
    destruct (verify_rules _ _ _ _ _ _); [done|]. constructor. intros m (k & r & Hk & Hrt & <-). by apply (Hr k).
Qed.

Lemma verifySubRule_search names : (forall n, n ∈ names -> is_Some (subRules !! n)) ->
  match verifySubRule names subRules with
  | None => forall n, n ∈ names -> Acc (fun x y => jumps y x) n
  | o => search_ends "" o
  end.
Proof.
  induction names as [|n l IH]; intros Hl; [cbn; set_solver|]. cbn [verifySubRule].
  pose proof (verify_ends (S (size subRules)) n [] (Hl n ltac:(set_solver)) (NoDup_singleton n) (Forall_nil_2 _) (chain_one n) ltac:(cbn; lia)) as Hn.
  destruct (verifySubRuleCircularReferences _ n subRules []) as [e|]; [by destruct e|].
  specialize (IH ltac:(set_solver)). destruct (verifySubRule l subRules); [done|]. intros m [->|Hm]%elem_of_cons; [done|auto].
Qed.

Lemma verifySubRule_acyclic names : (forall n, n ∈ names <-> is_Some (subRules !! n)) ->
  verifySubRule names subRules = None -> forall n, Acc (fun x y => jumps y x) n.
Proof.
  intros Hnames Hv n. pose proof (verifySubRule_search names ltac:(naive_solver)) as H. rewrite Hv in H.
  destruct (subRules !! n) eqn:E; [apply H, Hnames; by eexists|]. constructor. intros m (i & r & Hi & _). by rewrite E in Hi.
Qed.

(** The check of the named sub-rules accepts exactly what it should: when it
    passes, no list is reached from itself, so that jumping from list to list ends;
    when it does not, it names a sub-rule whose target does not exist, or a path of
    jumps that comes back to a list it has visited. *)
Lemma verifySubRule_cycles names :
  (forall n, n ∈ names <-> is_Some (subRules !! n)) ->
  match verifySubRule names subRules with
  | None => forall n, Acc (fun x y => jumps y x) n
  | Some (ErrSubRuleTarget i n a) =>
      exists r, default [] (subRules !! n) !! i = Some r /\ rule_RuleType r = RT_SubRules /\ rule_Adapter r = a /\ subRules !! a = None
  | Some (ErrCircular path) => cyclic path
  | Some _ => False
  end.
Proof.
  intros Hnames. pose proof (verifySubRule_search names ltac:(naive_solver)) as H.
  destruct (verifySubRule names subRules) as [e|] eqn:Hv; [by destruct e|]. by apply (verifySubRule_acyclic names).
Qed.

(** Without a way back, a path visits no list twice. *)
Lemma acc_not_tc n : Acc (fun x y => jumps y x) n -> ~ tc jumps n n.
Proof.
  induction 1 as [n _ IH]. intros Hc. inversion Hc as [? ? H1|? m ? H1 H2]; subst; [by apply (IH n H1)|].
  apply (IH m H1). eapply tc_r; [exact H2|exact H1].
Qed.

Lemma chain_reach l : chain l -> forall x n, list.last l = Some n -> x ∈ l -> rtc jumps x n.
Proof.
  induction 1 as [n0|l n m Hc IH Hj]; intros x y Hlast Hx.
  - apply list_elem_of_singleton in Hx as ->. injection Hlast as ->. apply rtc_refl.
  - change (l ++ [n; m]) with (l ++ [n] ++ [m]) in *. rewrite app_assoc in Hlast, Hx. rewrite last_snoc in Hlast. injection Hlast as <-.
    apply elem_of_app in Hx as [Hx| ->%list_elem_of_singleton]; [|apply rtc_refl].
    eapply rtc_r; [apply IH; [apply last_snoc|done]|done].
Qed.

Lemma chain_NoDup l : (forall n, Acc (fun x y => jumps y x) n) -> chain l -> NoDup l.
Proof.
  intros Hacc. induction 1 as [n|l n m Hc IH Hj]; [apply NoDup_singleton|].
  change (l ++ [n; m]) with (l ++ [n] ++ [m]). rewrite app_assoc. apply NoDup_app. split; [done|]. split; [|apply NoDup_singleton].
  intros x Hx ->%list_elem_of_singleton. apply (acc_not_tc m (Hacc m)). eapply tc_rtc_l; [|apply tc_once, Hj].
  eapply chain_reach; [exact Hc|apply last_snoc|done].
Qed.

(** All of a path but its end are names of lists. *)
Lemma chain_names l : chain l -> forall l' n, l = l' ++ [n] -> Forall (fun x => is_Some (subRules !! x)) l'.
Proof.
  induction 1 as [n|l n m Hc IH Hj]; intros l' x E.
  - destruct l' as [|y [|z l']]; [constructor|done|done].
  - change (l ++ [n; m]) with (l ++ [n] ++ [m]) in E. rewrite app_assoc in E. apply app_inj_tail in E as [<- <-].
    apply Forall_app. split; [by eapply IH|]. repeat constructor. destruct Hj as (i & r & Hi & _).
    destruct (subRules !! n); [by eexists|done].
Qed.
End Cycles.

(** Two lists that jump to each other are refused. *)
Definition ping_pong : gmap string (list Rule) :=
  <["a" := [RLogic RT_SubRules "" "b" [RMatch "x"]]]> {["b" := [RLogic RT_SubRules "" "a" [RMatch "x"]]]}.
Lemma verifySubRule_cycles_witness :
  verifySubRule ["a"; "b"] ping_pong = Some (ErrCircular ["a"; "b"; "a"]) /\ cyclic ping_pong ["a"; "b"; "a"].
Proof.
  assert (Hv : verifySubRule ["a"; "b"] ping_pong = Some (ErrCircular ["a"; "b"; "a"])) by (vm_compute; reflexivity).
  split; [exact Hv|]. pose proof (verifySubRule_cycles ping_pong ["a"; "b"]) as H. rewrite Hv in H. apply H.
  intros n. unfold ping_pong. rewrite lookup_insert_is_Some, lookup_singleton_is_Some. set_unfold. naive_solver.
Defined.

(** ** Rules of a configuration *)

Lemma parseRules_loop_wf pe proxies providers subNames wrap lines : forall idx rules,
  parseRules_loop pe proxies providers subNames wrap idx lines = inr rules ->
  Forall (fun r => if wrap then exists id r', r = RRuleWrapper id r' /\ wf_rule r' = true else wf_rule r = true) rules.
Proof.
  induction lines as [|line lines IH]; intros idx rules; cbn [parseRules_loop]; [intros [= <-]; constructor|].
  destruct (String.eqb _ ""); [done|]. destruct (_ && _); [done|]. destruct (_ && _); [done|].
  pose proof (ParseRule_reads pe (raw_tp (ParseRulePayload line true)) (raw_payload (ParseRulePayload line true))
                (raw_target (ParseRulePayload line true)) (raw_params (ParseRulePayload line true))) as Hr.
  destruct (ParseRule _ _ _ _ _) as [|parsed]; [done|]. destruct Hr as [Hr _].
  assert (Hw : wf_rule parsed = true).
  { unfold wf_rule. apply orb_true_iff. by destruct (String.eqb _ "SUB-RULE"); [right|left]. }
  destruct (List.find _ _); [done|]. destruct (parseRules_loop _ _ _ _ _ _ _) as [|rest] eqn:El; [done|]. intros [= <-].
  constructor; [|by eapply IH]. destruct wrap; [by eexists _, _|done].
Qed.

Lemma parseSubRules_loop_wf pe proxies providers subNames entries : forall m m',
  parseSubRules_loop pe proxies providers subNames entries m = inr m' ->
  map_Forall (fun _ rules => Forall (fun r => wf_rule r = true) rules) m ->
  (forall n, n ∈ map fst entries -> is_Some (m !! n)) ->
  map_Forall (fun _ rules => Forall (fun r => wf_rule r = true) rules) m' /\ (forall n, is_Some (m' !! n) <-> is_Some (m !! n)).
Proof.
  induction entries as [|[name lines] entries IH]; intros m m'; cbn [parseSubRules_loop]; [by intros [= <-]|].
  destruct (String.eqb name ""); [done|]. destruct (parseRules _ _ _ _ _ _) as [|rules] eqn:Er; [done|].
  intros Hl Hm Hk. unfold parseRules in Er. cbn [String.eqb] in Er.
  change (String.eqb ("sub-rules[" ++ name ++ "]") "rules") with false in Er. apply parseRules_loop_wf in Er.
  apply IH in Hl as [H1 H2].
  - split; [done|]. intros n. rewrite H2. destruct (decide (n = name)) as [->|]; [|by rewrite lookup_insert_ne].
    rewrite lookup_insert_eq. split; [intros _; apply Hk; by left|by eexists].
  - by apply map_Forall_insert_2.
  - intros n Hn. destruct (decide (n = name)) as [->|]; [rewrite lookup_insert_eq; by eexists|]. rewrite lookup_insert_ne by done. apply Hk. by right.
Qed.

(** What a configuration's sub-rules are once they have been accepted. *)
Lemma parseSubRules_wf pe proxies providers entries names m :
  (forall n, n ∈ names <-> n ∈ map fst entries) -> parseSubRules pe proxies providers entries names = inr m ->
  map_Forall (fun _ rules => Forall (fun r => wf_rule r = true) rules) m /\ (forall n, Acc (fun x y => jumps m y x) n).
Proof.
  intros Hn. unfold parseSubRules. destruct (parseSubRules_loop _ _ _ _ _ _) as [|m'] eqn:El; [done|].
  destruct (verifySubRule names m') eqn:Ev; [done|]. intros [= <-].
  assert (Hkeys : forall n, is_Some ((list_to_map (map (fun e => (e.1, [])) entries) : gmap string (list Rule)) !! n) <-> n ∈ map fst entries).
  { intros n. rewrite <- elem_of_dom, dom_list_to_map_L, elem_of_list_to_set. rewrite <- list_fmap_compose. done. }
  apply parseSubRules_loop_wf in El as [H1 H2].
  - split; [done|]. apply (verifySubRule_acyclic m' names); [|done]. intros n. by rewrite H2, Hkeys, Hn.
  - intros n rules Hin. apply elem_of_list_to_map_2, elem_of_map_1 in Hin as (e & [= _ ->] & _). constructor.
  - intros n. by rewrite Hkeys.
Qed.

(** * Rules: what a match answers, and that it answers

    A rule that was read from a configuration is matched in bounded time and
    without a panic as long as the rule sets do not refer to themselves.  Once the
    host is resolved and the process looked up, a match is the Boolean reading of
    the rule, the caches in the metadata notwithstanding, and a named list answers
    with its first rule that holds; before that, the order of evaluation shows. *)

#[local] Open Scope string_scope.
#[local] Open Scope Z_scope.
#[local] Open Scope list_scope.
#[local] Open Scope match_scope.

(** ** Induction on rules *)

Definition is_logic (r : Rule) : bool := match r with RLogic _ _ _ _ | RRuleWrapper _ _ => true | _ => false end.

Lemma Rule_nested_ind (P : Rule -> Prop) :
  (forall r, is_logic r = false -> P r) ->
  (forall ruleType payload adapter rules, Forall P rules -> P (RLogic ruleType payload adapter rules)) ->
  (forall id rule, P rule -> P (RRuleWrapper id rule)) ->
  forall r, P r.
Proof.
  intros Hleaf Hlogic Hwrap. fix IH 1. intros r. destruct r; try (by apply Hleaf).
  - apply Hlogic. revert rules. fix IHl 1. intros [|r rules]; constructor; [apply IH|apply IHl].
  - apply Hwrap, IH.
Qed.

(** ** Matching returns *)

(** The computation ends with a value, from any state. *)
Definition returns {A} (m : M A) : Prop := forall st, exists a st', m st = Ok a st'.

Lemma ret_returns {A} (a : A) : returns (ret a).
Proof. intros st. by exists a, st. Qed.
Lemma bind_returns {A B} (m : M A) (k : A -> M B) : returns m -> (forall a, returns (k a)) -> returns (bind m k).
Proof. intros Hm Hk st. unfold bind. destruct (Hm st) as (a & st' & ->). apply Hk. Qed.
Lemma get_md_returns : returns get_md.
Proof. intros st. by eexists _, _. Qed.
Lemma modify_md_returns f : returns (modify_md f).
Proof. intros st. by eexists _, _. Qed.
Lemma call_returns f : returns (call f).
Proof. intros st. by eexists _, _. Qed.
Lemma modify_wrapper_returns id f : returns (modify_wrapper id f).
Proof. intros st. by eexists _, _. Qed.
Lemma get_wrapper_returns id : returns (get_wrapper id).
Proof. intros st. by eexists _, _. Qed.
Lemma plain_returns f : returns (plain f).
Proof. intros st. by eexists _, _. Qed.
#[export] Hint Resolve ret_returns get_md_returns modify_md_returns call_returns modify_wrapper_returns get_wrapper_returns plain_returns : dropweb.

(** Walk through binds and tests. *)
Ltac returns_tac :=
  repeat first
    [ solve [auto with dropweb]
    | apply bind_returns; [|intros ?]
    | match goal with |- returns (match ?x with _ => _ end) => destruct x eqn:? end ].

Lemma or_loop_returns m rules adapter : Forall (fun r => returns (m r)) rules -> returns (or_loop m rules adapter).
Proof. induction 1; cbn; returns_tac. Qed.
Lemma and_loop_returns m rules adapter : Forall (fun r => returns (m r)) rules -> returns (and_loop m rules adapter).
Proof. induction 1; cbn; returns_tac. Qed.
Lemma classical_loop_returns m rules : Forall (fun r => returns (m r)) rules -> returns (classical_loop m rules).
Proof. induction 1; cbn; returns_tac. Qed.

(** The databases answer for every address. *)
Definition databases_answer (db : Databases) : Prop :=
  forall ip, LookupCode (IPInstance db) ip <> None /\ LookupASN (ASNInstance db) ip <> None.

Section Returns.
Context (E : RuleEnv) (Hdb : databases_answer (databases E)).

Lemma RuleSet_Match_returns prov rs h :
  (forall p, ruleProviders E !! rs_ruleProviderName rs = Some p -> forall h, returns (prov p h)) ->
  returns (RuleSet_Match E prov rs h).
Proof. intros Hp. unfold RuleSet_Match. destruct (ruleProviders E !! _) as [p|]; [|returns_tac]. specialize (Hp p eq_refl). returns_tac; auto. Qed.

(** A plain rule needs only its rule sets to return. *)
Lemma plain_rule_returns sub prov h r : plain_rule r = true ->
  (forall name p, name ∈ ProviderNames r -> ruleProviders E !! name = Some p -> forall h, returns (prov p h)) ->
  returns (MatchWith E sub prov r h).
Proof.
  induction r as [r Hr|ruleType payload adapter rules IH|id rule _] using Rule_nested_ind; intros Hp Hprov.
  - destruct r; try done; cbn [MatchWith]; try (by returns_tac).
    + returns_tac. exfalso. revert Heqo. unfold DomainWildcard_Match.
      destruct (wildcard_Match (dw_pattern r) (RuleHost a)) eqn:Ew; [done|]. by apply wildcard_Match_total in Ew.
    + unfold GEOIP_Match. returns_tac. match goal with H : LookupCode _ ?ip = None |- _ => by destruct (proj1 (Hdb ip)) end.
    + unfold ASN_Match. returns_tac. match goal with H : LookupASN _ ?ip = None |- _ => by destruct (proj2 (Hdb ip)) end.
    + unfold Process_Match. returns_tac; by match goal with H : wildcard_Match _ _ = None |- _ => apply wildcard_Match_total in H end.
    + apply RuleSet_Match_returns. intros p Hpn. apply (Hprov (rs_ruleProviderName r)); [cbn; set_solver|done].
  - cbn [plain_rule] in Hp. apply andb_true_iff in Hp as [Ht Hrules]. rewrite forallb_forall in Hrules.
    assert (Hall : Forall (fun r => returns (MatchWith E sub prov r h)) rules).
    { rewrite Forall_forall in *. intros r Hr. apply IH; [done|by apply Hrules, list_elem_of_In|].
      intros name p Hname. apply Hprov. cbn [ProviderNames]. apply list_elem_of_In, in_concat. exists (ProviderNames r).
      split; [by apply in_map, list_elem_of_In|by apply list_elem_of_In]. }
    cbn [MatchWith]. unfold Logic_Match. repeat (apply orb_true_iff in Ht as [Ht|Ht]); zify_bool; subst ruleType.
    + by apply and_loop_returns.
    + by apply or_loop_returns.
    + destruct rules as [|r rules]; [done|]. cbn [first_rule]. inversion_clear Hall. returns_tac.
  - done.
Qed.
End Returns.

(** *** The two jumps *)

(** Rule sets refer to rule sets of lower rank only, and their rules are plain. *)
Definition ranked (E : RuleEnv) (rank : string -> nat) (K : nat) : Prop :=
  forall name p, ruleProviders E !! name = Some p ->
    (rank name < K)%nat /\
    match p with
    | classicalStrategy rules => Forall (fun r => plain_rule r = true /\ Forall (fun q => (rank q < rank name)%nat) (ProviderNames r)) rules
    | _ => True
    end.

Section Jumps.
Context (E : RuleEnv) (Hdb : databases_answer (databases E)) (rank : string -> nat) (K : nat) (Hrank : ranked E rank K).

Lemma provider_returns n : forall fuel name p, ruleProviders E !! name = Some p -> (rank name < n)%nat -> (n <= fuel)%nat ->
  forall h, returns (provider_Match E fuel p h).
Proof.
  induction n as [|n IH]; intros fuel name p Hp Hr Hf h; [lia|]. destruct fuel as [|fuel]; [lia|].
  destruct (Hrank name p Hp) as [_ Hrules]. destruct p as [rules|Has|IsContain|]; cbn [provider_Match]; try (by returns_tac).
  apply classical_loop_returns. eapply Forall_impl; [exact Hrules|]. cbn. intros r [Hplain Hnames].
  apply plain_rule_returns; [done..|]. intros q p' Hq Hp'. rewrite Forall_forall in Hnames. specialize (Hnames q Hq).
  apply (IH fuel q p' Hp'); lia.
Qed.

Lemma plain_rule_returns_fuel fuel sub h r : plain_rule r = true -> (K <= fuel)%nat ->
  returns (MatchWith E sub (provider_Match E fuel) r h).
Proof.
  intros Hp Hf. apply plain_rule_returns; [done..|]. intros name p _ Hname.
  destruct (Hrank name p Hname) as [Hr _]. by apply (provider_returns K fuel name p).
Qed.

(** A sub-rule needs the list it jumps to. *)
Lemma wf_rule_returns_fuel fuel h r : wf_rule r = true -> (K <= fuel)%nat ->
  (rule_RuleType r = RT_SubRules -> returns (matchSubRules E fuel (rule_Adapter r) h)) ->
  returns (rule_Match E fuel r h).
Proof.
  intros Hw Hf Hsub. unfold rule_Match. apply orb_true_iff in Hw as [Hp|Hs]; [by apply plain_rule_returns_fuel|].
  destruct r as [| | | | | | | | | | | | | | | | | | | | |ruleType payload adapter rules|]; try done.
  destruct ruleType; try done. destruct rules as [|c [|? ?]]; try done. cbn [MatchWith Logic_Match first_rule].
  apply bind_returns; [by apply plain_rule_returns_fuel|]. intros []. cbn [fst]. destruct b; [by apply Hsub|by returns_tac].
Qed.

Lemma sub_loop_returns sub m h rules :
  Forall (fun r => returns (m r) /\ (rule_RuleType r = RT_SubRules -> returns (sub (rule_Adapter r)))) rules -> returns (sub_loop sub m h rules).
Proof.
  induction 1 as [|r rules [Hr Hs] _ IH]; cbn [sub_loop]; [by returns_tac|].
  apply bind_returns; [done|]. intros []. cbn [fst]. destruct b; [|done]. apply bind_returns.
  - destruct (bool_decide _) eqn:Hb; [|by returns_tac]. zify_bool. by apply Hs.
  - intros ?. apply bind_returns; [by returns_tac|]. intros ?. destruct (_ && _); [done|by returns_tac].
Qed.

Context (Hsubs : map_Forall (fun _ rules => Forall (fun r => wf_rule r = true) rules) (subRules E)).
Context (Hacc : forall n, Acc (fun x y => jumps (subRules E) y x) n).

(** The lists on the way are different, so that the number of lists bounds the
    jumps. *)
Lemma chain_length arr n : chain (subRules E) (arr ++ [n]) -> (length arr <= size (subRules E))%nat.
Proof.
  intros Hch. pose proof (chain_NoDup _ _ Hacc Hch) as Hnd. apply NoDup_app in Hnd as [Hnd _].
  pose proof (chain_names _ _ Hch arr n eq_refl) as Hnames. rewrite Forall_forall in Hnames.
  rewrite <- size_dom, <- (size_list_to_set (C := gset string) arr Hnd). apply subseteq_size.
  intros x Hx%elem_of_list_to_set. by apply elem_of_dom, Hnames.
Qed.

Lemma matchSubRules_returns fuel : forall n arr h, chain (subRules E) (arr ++ [n]) ->
  (size (subRules E) + 1 + K <= fuel + length arr)%nat -> returns (matchSubRules E fuel n h).
Proof.
  induction fuel as [|fuel IH]; intros n arr h Hch Hf; pose proof (chain_length arr n Hch); [lia|].
  cbn [matchSubRules]. apply sub_loop_returns. apply Forall_lookup. intros i r Hi.
  assert (Hsub : rule_RuleType r = RT_SubRules -> forall h, returns (matchSubRules E fuel (rule_Adapter r) h)).
  { intros Hrt h'. apply (IH _ (arr ++ [n])).
    - rewrite <- app_assoc. apply chain_snoc; [done|]. by exists i, r.
    - rewrite length_app. cbn. lia. }
  split; [|auto]. apply wf_rule_returns_fuel; [|lia|auto].
  destruct (subRules E !! n) as [rules|] eqn:En; [|done]. apply (Forall_lookup_1 _ _ _ _ (Hsubs n rules En) Hi).
Qed.

(** With fuel for every named list and every rank. *)
Lemma rule_returns fuel r h : wf_rule r = true -> (size (subRules E) + 1 + K <= fuel)%nat -> returns (rule_Match E fuel r h).
Proof.
  intros Hw Hf. apply wf_rule_returns_fuel; [done|lia|]. intros _. apply (matchSubRules_returns fuel _ []); [apply chain_one|cbn; lia].
Qed.

Lemma wrapped_returns fuel id r h : wf_rule r = true -> (size (subRules E) + 1 + K <= fuel)%nat ->
  returns (rule_Match E fuel (RRuleWrapper id r) h).
Proof. intros Hw Hf. pose proof (rule_returns fuel r h Hw Hf). unfold rule_Match. cbn [MatchWith]. unfold Wrapper_Match. by returns_tac. Qed.
End Jumps.

(** A rule of a configuration that was accepted always returns an answer, from
    any state and whatever the connection: no jump between sub-rules, rule sets
    or nested payloads goes on for ever and none is out of range.  The number of
    sub-rule lists and the nesting of the rule sets bound the jumps. *)
Lemma configured_rules_return pe proxies providers entries names lines E rules rank K :
  (forall n, n ∈ names <-> n ∈ map fst entries) ->
  parseSubRules pe proxies providers entries names = inr (subRules E) ->
  parseRules pe proxies providers lines (dom (subRules E)) "rules" = inr rules ->
  databases_answer (databases E) -> ranked E rank K ->
  forall r h st fuel, r ∈ rules -> (size (subRules E) + 1 + K <= fuel)%nat ->
    exists answer st', rule_Match E fuel r h st = Ok answer st'.
Proof.
  intros Hn Hs Hr Hdb Hrank r h st fuel Hin Hf. apply parseSubRules_wf in Hs as [Hw Hacc]; [|done].
  unfold parseRules in Hr. change (String.eqb "rules" "rules") with true in Hr. apply parseRules_loop_wf in Hr. cbn in Hr.
  rewrite Forall_forall in Hr. destruct (Hr r Hin) as (id & r' & -> & Hr').
  by apply (wrapped_returns E Hdb rank K Hrank Hw Hacc fuel id r' h).
Qed.

(** *** A configuration, and a rule set that names itself *)

Definition ex_db : Databases := mkDatabases false (fun _ => None) (fun _ => None) (typeSing (fun _ => "")) UnsupportedASN (fun _ _ => false).
Definition ex_pe : ParseEnv := mkParseEnv ex_db true true true (fun _ => true) true.
Definition ex_state (md : Metadata) : MState := mkMState md true false ∅.

(** Two lists, the first jumping to the second, and a rule set of two lines. *)
Definition ex_entries : list (string * list string) :=
  [("s1", ["SUB-RULE,(NETWORK,TCP),s2"; "MATCH,A"]); ("s2", ["DOMAIN,b.com,B"])].
Definition ex_provider : RuleProvider := classicalStrategy (fst (fold_left (classical_Insert ex_pe) ["DOMAIN,a.com"; "NOT,((NETWORK,TCP))"] classical_Reset)).
Definition ex_env (provider : RuleProvider) (subs : gmap string (list Rule)) : RuleEnv := mkRuleEnv ex_db {["set" := provider]} subs 0.
Definition ex_subs : gmap string (list Rule) :=
  match parseSubRules ex_pe {["A"; "B"]} {["set"]} ex_entries ["s1"; "s2"] with inr m => m | inl _ => ∅ end.
Definition ex_lines : list string := ["RULE-SET,set,A"; "SUB-RULE,(OR,((DOMAIN,b.com),(DOMAIN,c.com))),s1"; "MATCH,B"].
Definition ex_rules : list Rule :=
  match parseRules ex_pe {["A"; "B"]} {["set"]} ex_lines {["s1"; "s2"]} "rules" with inr l => l | inl _ => [] end.

Lemma ex_db_answers : databases_answer ex_db.
Proof. by intros ip. Qed.

Lemma configured_rules_return_witness :
  length ex_rules = 3%nat /\
  forall r h st fuel, r ∈ ex_rules -> (4 <= fuel)%nat -> exists answer st', rule_Match (ex_env ex_provider ex_subs) fuel r h st = Ok answer st'.
Proof.
  split; [vm_compute; reflexivity|]. intros r h st fuel Hr Hf.
  apply (configured_rules_return ex_pe {["A"; "B"]} {["set"]} ex_entries ["s1"; "s2"] ex_lines (ex_env ex_provider ex_subs) ex_rules (fun _ => 0%nat) 1%nat).
  - done.
  - vm_compute. reflexivity.
  - vm_compute. reflexivity.
  - exact ex_db_answers.
  - intros name p Hp. split; [lia|]. cbn [ruleProviders ex_env] in Hp.
    apply lookup_singleton_Some in Hp as [_ <-]. vm_compute. repeat constructor.
  - exact Hr.
  - vm_compute in Hf |- *. lia.
Defined.

(** A classical rule set may name itself inside a logic rule, since only its own
    lines are checked for the type RULE-SET. *)
Definition loop_provider : RuleProvider := classicalStrategy (fst (fold_left (classical_Insert ex_pe) ["AND,((RULE-SET,set))"] classical_Reset)).

(** A rule set with a line that names the set itself inside AND is accepted, and
    no match against it ever returns. *)
Lemma self_rule_set_never_returns subs h fuel r st :
  rs_ruleProviderName r = "set" -> rs_isSrc r = false ->
  rule_Match (ex_env loop_provider subs) fuel (RRuleSet r) h st = Diverges.
Proof.
  intros Hname Hsrc. assert (E : loop_provider = classicalStrategy [RLogic RT_AND "((RULE-SET,set))" "" [RRuleSet (mkRuleSet "set" "" false false)]]) by (vm_compute; reflexivity).
  assert (Hl : ruleProviders (ex_env loop_provider subs) !! "set" = Some loop_provider) by apply lookup_singleton_eq.
  revert Hl. rewrite E. generalize (ex_env loop_provider subs) as env. intros env Hl. clear E.
  revert r h Hname Hsrc. unfold rule_Match. induction fuel as [|fuel IH]; intros r h Hname Hsrc; cbn [MatchWith]; unfold RuleSet_Match;
    rewrite Hname, Hl, Hsrc; unfold bind; [done|].
  cbn [provider_Match classical_loop MatchWith Logic_Match and_loop]. unfold bind.
  pose proof (IH (mkRuleSet "set" "" false false) (if rs_noResolveIP r then mkHelper None (FindProcess h) (CheckPassRule h) else h) eq_refl eq_refl) as H.
  cbn [MatchWith] in H. by rewrite H.
Qed.

Lemma self_rule_set_never_returns_witness :
  rule_Match (ex_env loop_provider ∅) 1000 (RRuleSet (mkRuleSet "set" "A" false false)) (mkHelper None None None) (ex_state zeroMetadata) = Diverges.
Proof. apply (self_rule_set_never_returns ∅); reflexivity. Defined.
