(* ===== verification/RulesSem.v ===== *)
(** * The meaning of rules

    [holds] reads a rule as a proposition about the metadata, [sub_answer] a named
    list as its first rule that holds.  Once the host is resolved and the process
    looked up ([quiet]), matching computes exactly that; what it writes are the
    notes of the databases and the counters, which no answer depends on
    ([same_md], [caches_ok]).  Before that the order of evaluation shows: the
    examples at the end have a list answer differently when it is evaluated twice. *)

From S2P Require Import Prelude Names Netip Ranges Wildcard Metadata Rules RuleParse RuleParseProps.
#[local] Open Scope string_scope.
#[local] Open Scope Z_scope.
#[local] Open Scope list_scope.
#[local] Open Scope match_scope.

(** ** Metadata up to the notes of the databases and of the tunnel *)

Definition without_notes (m : Metadata) : Metadata :=
  set_SmartBlock "" (set_SmartTarget "" (set_SrcGeoIP None (set_DstGeoIP None (set_SrcIPASN "" (set_DstIPASN "" m))))).
Definition same_md (m m' : Metadata) : Prop := without_notes m = without_notes m'.

#[export] Instance same_md_equiv : Equivalence same_md.
Proof. unfold same_md. split; [done|by intros ?? ->|by intros ??? -> ->]. Qed.

(** Every field but the notes is respected. *)
Ltac respects f := intros [] [] H; apply (f_equal f) in H; exact H.
#[export] Instance RuleHost_proper : Proper (same_md ==> eq) RuleHost. Proof. respects RuleHost. Qed.
#[export] Instance DstIP_proper : Proper (same_md ==> eq) md_DstIP. Proof. respects md_DstIP. Qed.
#[export] Instance SrcIP_proper : Proper (same_md ==> eq) md_SrcIP. Proof. respects md_SrcIP. Qed.
#[export] Instance NetWork_proper : Proper (same_md ==> eq) md_NetWork. Proof. respects md_NetWork. Qed.
#[export] Instance Type_proper : Proper (same_md ==> eq) md_Type. Proof. respects md_Type. Qed.
#[export] Instance SrcPort_proper : Proper (same_md ==> eq) md_SrcPort. Proof. respects md_SrcPort. Qed.
#[export] Instance DstPort_proper : Proper (same_md ==> eq) md_DstPort. Proof. respects md_DstPort. Qed.
#[export] Instance InPort_proper : Proper (same_md ==> eq) md_InPort. Proof. respects md_InPort. Qed.
#[export] Instance InName_proper : Proper (same_md ==> eq) md_InName. Proof. respects md_InName. Qed.
#[export] Instance InUser_proper : Proper (same_md ==> eq) md_InUser. Proof. respects md_InUser. Qed.
#[export] Instance RematchName_proper : Proper (same_md ==> eq) md_RematchName. Proof. respects md_RematchName. Qed.
#[export] Instance Uid_proper : Proper (same_md ==> eq) md_Uid. Proof. respects md_Uid. Qed.
#[export] Instance Process_proper : Proper (same_md ==> eq) md_Process. Proof. respects md_Process. Qed.
#[export] Instance ProcessPath_proper : Proper (same_md ==> eq) md_ProcessPath. Proof. respects md_ProcessPath. Qed.
#[export] Instance Host_proper : Proper (same_md ==> eq) md_Host. Proof. respects md_Host. Qed.
#[export] Instance SpecialRules_proper : Proper (same_md ==> eq) md_SpecialRules. Proof. respects md_SpecialRules. Qed.
#[export] Instance DSCP_proper : Proper (same_md ==> eq) md_DSCP. Proof. respects md_DSCP. Qed.
#[export] Instance SwapSrcDst_proper : Proper (same_md ==> same_md) SwapSrcDst. Proof. respects SwapSrcDst. Qed.

(** ** Rules as propositions *)

Definition geo_holds (db : Databases) (country : string) (ip : Addr) : bool :=
  addr_IsValid ip
  && (if String.eqb country "lan" then isLan ip
      else if GeodataMode db then match LoadGeoIPMatcher db country with Some matcher => matcher ip | None => false end
      else match LookupCode (IPInstance db) ip with Some codes => contains_str codes country | None => false end).
Definition asn_holds (db : Databases) (asn : string) (ip : Addr) : bool :=
  addr_IsValid ip && match LookupASN (ASNInstance db) ip with Some (a, _) => String.eqb asn a | None => false end.
Definition process_holds (db : Databases) (ps : Process) (m : Metadata) : bool :=
  let target := match ps_ruleType ps with
                | RT_ProcessName | RT_ProcessNameRegex | RT_ProcessNameWildcard => md_Process m
                | _ => md_ProcessPath m
                end in
  match ps_ruleType ps with
  | RT_ProcessNameRegex | RT_ProcessPathRegex => regexp_MatchString db (ps_pattern ps) target
  | RT_ProcessNameWildcard | RT_ProcessPathWildcard => default false (wildcard_Match (ToLower (ps_pattern ps)) (ToLower target))
  | _ => EqualFold target (ps_pattern ps)
  end.

Section Holds.
Context (E : RuleEnv) (pv : RuleProvider -> Metadata -> bool).

(** All of the rules of an AND, one of an OR, not the one of a NOT. *)
Fixpoint holds (r : Rule) (m : Metadata) : bool :=
  let db := databases E in
  match r with
  | RDomain d => fst (Domain_Match d m)
  | RDomainSuffix ds => fst (DomainSuffix_Match ds m)
  | RDomainKeyword dk => fst (DomainKeyword_Match dk m)
  | RDomainRegex dr => fst (DomainRegex_Match db dr m)
  | RDomainWildcard dw => default false (wildcard_Match (dw_pattern dw) (RuleHost m))
  | RGEOSITE gs => fst (GEOSITE_Match db gs m)
  | RGEOIP g => geo_holds db (g_country g) (if g_isSourceIP g then md_SrcIP m else md_DstIP m)
  | RASN a => asn_holds db (asn_asn a) (if asn_isSourceIP a then md_SrcIP m else md_DstIP m)
  | RIPCIDR i => let ip := if i_isSourceIP i then md_SrcIP m else md_DstIP m in addr_IsValid ip && prefix_Contains (i_ipnet i) ip
  | RIPSuffix s => suffix_equal (is_ipBytes s) (addr_AsSlice (if is_isSourceIP s then md_SrcIP m else md_DstIP m)) (is_bits s)
  | RPort p => fst (Port_Match p m)
  | RDSCP d => fst (DSCP_Match d m)
  | RUid u => negb (md_Uid m =? 0) && ranges_Check (uids u) (md_Uid m)
  | RProcess ps => process_holds db ps m
  | RNetworkType n => fst (NetworkType_Match n m)
  | RInName u => fst (InName_Match u m)
  | RInUser u => fst (InUser_Match u m)
  | RInType u => fst (InType_Match u m)
  | RRematchName u => fst (RematchName_Match u m)
  | RMatch _ => true
  | RRuleSet rs => match ruleProviders E !! rs_ruleProviderName rs with
                   | Some p => pv p (if rs_isSrc rs then SwapSrcDst m else m)
                   | None => false
                   end
  | RLogic ruleType _ _ rules =>
      match ruleType with
      | RT_AND => forallb (fun r => holds r m) rules
      | RT_OR => existsb (fun r => holds r m) rules
      | RT_NOT => match rules with r :: _ => negb (holds r m) | [] => false end
      | _ => false
      end
  | RRuleWrapper _ rule => holds rule m
  end.

Context (Hpv : forall p, Proper (same_md ==> eq) (pv p)).

#[export] Instance holds_proper r : Proper (same_md ==> eq) (holds r).
Proof.
  intros m m' Hm. induction r as [r Hr|ruleType payload adapter rules IH|id rule IH] using Rule_nested_ind.
  - destruct r; try done; cbn [holds]; unfold Domain_Match, DomainSuffix_Match, DomainKeyword_Match, DomainRegex_Match, GEOSITE_Match,
      Port_Match, DSCP_Match, NetworkType_Match, InName_Match, InUser_Match, InType_Match, RematchName_Match, process_holds;
      try (by rewrite Hm); try (by repeat case_match; rewrite ?Hm);
      try (by rewrite (NetWork_proper _ _ Hm)); by rewrite (Type_proper _ _ Hm).
  - cbn [holds]. destruct ruleType; try done.
    + induction IH as [|r rules Hr _ IH]; [done|]. cbn. by rewrite Hr, IH.
    + induction IH as [|r rules Hr _ IH]; [done|]. cbn. by rewrite Hr, IH.
    + destruct IH as [|r rules Hr _]; [done|]. by rewrite Hr.
  - done.
Qed.
End Holds.

(** What a rule set holds, to a depth of nested rule sets. *)
Fixpoint provider_holds (E : RuleEnv) (fuel : nat) (p : RuleProvider) (m : Metadata) : bool :=
  match fuel with
  | O => false
  | S fuel =>
      match p with
      | classicalStrategy rules => existsb (fun r => holds E (provider_holds E fuel) r m) rules
      | domainStrategy Has => match Has with Some has => has (RuleHost m) | None => false end
      | ipcidrStrategy IsContain => match IsContain with Some contain => contain (md_DstIP m) | None => false end
      | noStrategy => false
      end
  end.

#[export] Instance provider_holds_proper E fuel p : Proper (same_md ==> eq) (provider_holds E fuel p).
Proof.
  revert p. induction fuel as [|fuel IH]; intros p m m' Hm; [done|]. cbn [provider_holds]. destruct p as [rules|[has|]|[contain|]|]; try done; [|by rewrite Hm..].
  induction rules as [|r rules IHr]; [done|]. cbn. rewrite IHr. f_equal. apply holds_proper; [done|exact Hm].
Qed.

(** ** States in which nothing is left to find out *)

(** Which of the wrappers are switched off. *)
Definition flags (st : MState) : gmap nat bool := disabled <$> wrappers st.

Definition same_state (st st' : MState) : Prop :=
  same_md (st_md st) (st_md st') /\ resolved st = resolved st' /\ attemptProcessLookup st = attemptProcessLookup st' /\ flags st = flags st'.
#[export] Instance same_state_equiv : Equivalence same_state.
Proof.
  unfold same_state. split; [by split|intros ?? (? & ? & ? & ?); by split; [symmetry|]|].
  intros ??? (? & ? & ? & ?) (? & ? & ? & ?). split; [by etransitivity|]. repeat split; congruence.
Qed.

(** The helpers, if they are there, change nothing any more. *)
Definition quiet (h : RuleMatchHelper) (st : MState) : Prop :=
  (forall f, ResolveIP h = Some f -> forall st', same_state st st' -> f st' = st') /\
  (forall f, FindProcess h = Some f -> forall st', attemptProcessLookup st' = attemptProcessLookup st -> f st' = st').

(** What is noted for an address is what the databases say. *)
Definition noted_ok (db : Databases) (ip : Addr) (noted : option (list string)) : Prop :=
  match noted with
  | None => True
  | Some l => if GeodataMode db then Forall (fun c => exists matcher, LoadGeoIPMatcher db c = Some matcher /\ matcher ip = true) l
              else LookupCode (IPInstance db) ip = Some l
  end.
Definition caches_ok (db : Databases) (m : Metadata) : Prop :=
  noted_ok db (md_SrcIP m) (md_SrcGeoIP m) /\ noted_ok db (md_DstIP m) (md_DstGeoIP m).

(** A computation answers [b], with [a] when it is yes, and leaves only notes. *)
Definition answers (E : RuleEnv) (c : M (bool * string)) (st : MState) (b : bool) (a : string) : Prop :=
  exists a' st', c st = Ok (b, a') st' /\ (b = true -> a' = a) /\ same_state st st' /\ caches_ok (databases E) (st_md st').
Definition answers_b (E : RuleEnv) (c : M bool) (st : MState) (b : bool) : Prop :=
  exists st', c st = Ok b st' /\ same_state st st' /\ caches_ok (databases E) (st_md st').

Lemma quiet_same h st st' : same_state st st' -> quiet h st -> quiet h st'.
Proof.
  intros Hs [H1 H2]. split; [intros f Hf st'' Hst; apply H1; [done|by etransitivity]|].
  intros f Hf st'' Hst. apply H2; [done|]. rewrite Hst. symmetry. apply Hs.
Qed.

(** ** The matchers *)

Section Matchers.
Context (E : RuleEnv) (Hdb : databases_answer (databases E)).
Abbreviation db := (databases E).

Lemma quiet_resolve h st (b : bool) : quiet h st -> (if b then call (ResolveIP h) else ret tt) st = Ok tt st.
Proof.
  intros [H _]. destruct b; [|done]. unfold call. destruct (ResolveIP h) as [f|]; [|done]. by rewrite (H f eq_refl st ltac:(done)).
Qed.
Lemma quiet_find h st : quiet h st -> call (FindProcess h) st = Ok tt st.
Proof. intros [_ H]. unfold call. destruct (FindProcess h) as [f|]; [|done]. by rewrite (H f eq_refl st ltac:(done)). Qed.

Lemma answers_same c st b a a' : c st = Ok (b, a') st -> (b = true -> a' = a) -> caches_ok db (st_md st) -> answers E c st b a.
Proof. intros Hc Ha Hok. by exists a', st. Qed.

Lemma plain_answers f st a : (fst (f (st_md st)) = true -> snd (f (st_md st)) = a) -> caches_ok db (st_md st) ->
  answers E (plain f) st (fst (f (st_md st))) a.
Proof. intros Ha Hok. eapply answers_same; [|exact Ha|done]. unfold plain, bind, get_md, ret. by destruct (f (st_md st)). Qed.

Lemma contains_str_iff l s : contains_str l s = true <-> s ∈ l.
Proof.
  unfold contains_str. rewrite existsb_exists. setoid_rewrite String.eqb_eq. rewrite list_elem_of_In. naive_solver.
Qed.

Definition rule_ip (isSrc : bool) (m : Metadata) : Addr := if isSrc then md_SrcIP m else md_DstIP m.

Lemma geo_noted_ok g m : caches_ok db m -> noted_ok db (rule_ip (g_isSourceIP g) m) (geo_noted g m).
Proof. intros [H1 H2]. unfold rule_ip, geo_noted. by destruct (g_isSourceIP g). Qed.

Lemma note_geo_ok g m noted : caches_ok db m -> noted_ok db (rule_ip (g_isSourceIP g) m) noted ->
  same_md m (note_geo g noted m) /\ caches_ok db (note_geo g noted m).
Proof. intros [H1 H2] Hn. unfold rule_ip, note_geo, caches_ok in *. destruct m, (g_isSourceIP g); cbn in *; done. Qed.

Lemma same_state_md st f : same_md (st_md st) (f (st_md st)) -> same_state st (upd_md f st).
Proof. by split. Qed.

Lemma GEOIP_answers g h st : quiet h st -> caches_ok db (st_md st) ->
  answers E (GEOIP_Match db g h) st (geo_holds db (g_country g) (rule_ip (g_isSourceIP g) (st_md st))) (g_adapter g).
Proof.
  intros Hq Hok. pose proof (geo_noted_ok g _ Hok) as Hn. set (ip := rule_ip _ _) in *.
  assert (E0 : forall k, (k = GEOIP_Match db g h) -> k st = GEOIP_Match db g h st) by congruence.
  unfold answers, GEOIP_Match. unfold bind at 1. rewrite quiet_resolve by done. unfold bind at 1, get_md.
  change (if g_isSourceIP g then md_SrcIP (st_md st) else md_DstIP (st_md st)) with ip. unfold geo_holds.
  destruct (addr_IsValid ip); [|by exists "", st]. cbn [negb andb].
  destruct (String.eqb (g_country g) "lan"); [by exists (g_adapter g), st|].
  unfold noted_ok in Hn. destruct (GeodataMode db) eqn:Hmode.
  - destruct (contains_str (default [] (geo_noted g (st_md st))) (g_country g)) eqn:Hc.
    { exists (g_adapter g), st. split; [|done]. apply contains_str_iff in Hc. destruct (geo_noted g (st_md st)) as [l|]; [|by inversion Hc].
      rewrite Forall_forall in Hn. destruct (Hn _ Hc) as (matcher & -> & ->). done. }
    destruct (LoadGeoIPMatcher db (g_country g)) as [matcher|] eqn:Hl; [|by exists "", st].
    unfold bind, modify_md, ret. destruct (matcher ip) eqn:Hm; [|by exists (g_adapter g), st].
    do 2 eexists. split; [done|]. split; [done|].
    destruct (note_geo_ok g (st_md st) (Some (default [] (geo_noted g (st_md st)) ++ [g_country g])) Hok) as [H1 H2].
    { unfold noted_ok. rewrite Hmode. apply Forall_app. split; [by destruct (geo_noted g (st_md st))|].
      repeat constructor. by exists matcher. }
    split; [by apply same_state_md|done].
  - destruct (geo_noted g (st_md st)) as [codes|] eqn:Hg; [rewrite Hn; by exists (g_adapter g), st|].
    destruct (LookupCode (IPInstance db) ip) as [codes|] eqn:Hl; [|by destruct (proj1 (Hdb ip))].
    unfold bind, modify_md. do 2 eexists. split.
    { unfold ret. instantiate (2 := if contains_str codes (g_country g) then g_adapter g else ""). by destruct (contains_str codes (g_country g)). }
    split; [by intros ->|]. destruct (note_geo_ok g (st_md st) (Some codes) Hok) as [H1 H2]; [unfold noted_ok; by rewrite Hmode|].
    split; [by apply same_state_md|done].
Qed.

Lemma ASN_answers a h st : quiet h st -> caches_ok db (st_md st) ->
  answers E (ASN_Match db a h) st (asn_holds db (asn_asn a) (rule_ip (asn_isSourceIP a) (st_md st))) (asn_adapter a).
Proof.
  intros Hq Hok. set (ip := rule_ip _ _) in *. unfold answers, ASN_Match. unfold bind at 1. rewrite quiet_resolve by done. unfold bind at 1, get_md.
  change (if asn_isSourceIP a then md_SrcIP (st_md st) else md_DstIP (st_md st)) with ip. unfold asn_holds.
  destruct (addr_IsValid ip); [|by exists "", st]. cbn [negb andb].
  destruct (LookupASN (ASNInstance db) ip) as [[asn aso]|] eqn:Hl; [|by destruct (proj2 (Hdb ip))].
  unfold bind, modify_md, ret. do 2 eexists. split; [done|]. split; [done|].
  destruct st as [[] ? ? ?], (asn_isSourceIP a); done.
Qed.

Lemma IPCIDR_answers i h st : quiet h st -> caches_ok db (st_md st) ->
  answers E (IPCIDR_Match i h) st (holds E (fun _ _ => false) (RIPCIDR i) (st_md st)) (i_adapter i).
Proof.
  intros Hq Hok. unfold IPCIDR_Match. eapply answers_same; [|done|done]. unfold bind at 1. by rewrite quiet_resolve.
Qed.
Lemma IPSuffix_answers s h st : quiet h st -> caches_ok db (st_md st) ->
  answers E (IPSuffix_Match s h) st (holds E (fun _ _ => false) (RIPSuffix s) (st_md st)) (is_adapter s).
Proof.
  intros Hq Hok. unfold answers, IPSuffix_Match. unfold bind at 1. rewrite quiet_resolve by done. unfold bind, get_md, ret. cbn [holds].
  destruct (suffix_equal _ _ _); by do 2 eexists.
Qed.
Lemma Uid_answers u h st : quiet h st -> caches_ok db (st_md st) ->
  answers E (Uid_Match u h) st (holds E (fun _ _ => false) (RUid u) (st_md st)) (uid_adapter u).
Proof.
  intros Hq Hok. unfold answers, Uid_Match. unfold bind at 1. rewrite quiet_find by done. unfold bind, get_md, ret. cbn [holds].
  destruct (_ && _); by do 2 eexists.
Qed.
Lemma Process_answers ps h st : quiet h st -> caches_ok db (st_md st) ->
  answers E (Process_Match db ps h) st (process_holds db ps (st_md st)) (ps_adapter ps).
Proof.
  intros Hq Hok. unfold Process_Match. eapply answers_same; [|by intros|done].
  unfold bind at 1. rewrite quiet_find by done. unfold bind, get_md, ret, process_holds.
  destruct (ps_ruleType ps); try done;
    by match goal with |- context [wildcard_Match ?p ?s] => destruct (wildcard_Match p s) eqn:Hw; [|apply wildcard_Match_total in Hw] end.
Qed.
End Matchers.

(** ** Logic rules *)

Section Logic.
Context (E : RuleEnv) (Hdb : databases_answer (databases E)).
Abbreviation db := (databases E).

(** The same answer from every state that differs from [st] in notes and counters. *)
Definition answers_from (st : MState) (c : M (bool * string)) (b : bool) (a : string) : Prop :=
  forall st', same_state st st' -> caches_ok db (st_md st') -> answers E c st' b a.
Definition answers_b_from (st : MState) (c : M bool) (b : bool) : Prop :=
  forall st', same_state st st' -> caches_ok db (st_md st') -> answers_b E c st' b.

Lemma answers_bind st c b a (k : bool * string -> M (bool * string)) b' a0 :
  answers_from st c b a -> (forall x, (b = true -> x = a) -> answers_from st (k (b, x)) b' a0) -> answers_from st (bind c k) b' a0.
Proof.
  intros Hc Hk st' Hs Hok. destruct (Hc st' Hs Hok) as (x & st1 & E1 & Hx & Hs1 & Hok1).
  destruct (Hk x Hx st1) as (y & st2 & E2 & Hy & Hs2 & Hok2); [by etransitivity|done|].
  exists y, st2. unfold bind. rewrite E1. split; [done|]. split; [done|]. split; [by etransitivity|done].
Qed.
Lemma answers_ret st b a a' : (b = true -> a' = a) -> answers_from st (ret (b, a')) b a.
Proof. intros Ha st' Hs Hok. by exists a', st'. Qed.

Context (st : MState) (m : Rule -> M (bool * string)) (H : Rule -> bool).

Lemma or_loop_answers rules adapter : Forall (fun r => answers_from st (m r) (H r) (rule_Adapter r)) rules ->
  answers_from st (or_loop m rules adapter) (existsb H rules) adapter.
Proof.
  induction 1 as [|r rules Hr _ IH]; [by apply answers_ret|]. cbn [or_loop existsb]. eapply answers_bind; [exact Hr|].
  intros x _. cbn [fst]. destruct (H r); [by apply answers_ret|done].
Qed.
Lemma and_loop_answers rules adapter : Forall (fun r => answers_from st (m r) (H r) (rule_Adapter r)) rules ->
  answers_from st (and_loop m rules adapter) (forallb H rules) adapter.
Proof.
  induction 1 as [|r rules Hr _ IH]; [by apply answers_ret|]. cbn [and_loop forallb]. eapply answers_bind; [exact Hr|].
  intros x _. cbn [fst]. destruct (H r); [done|by apply answers_ret].
Qed.
Lemma classical_loop_answers rules : Forall (fun r => answers_from st (m r) (H r) (rule_Adapter r)) rules ->
  answers_b_from st (classical_loop m rules) (existsb H rules).
Proof.
  induction 1 as [|r rules Hr _ IH]; intros st' Hs Hok; [by exists st'|]. cbn [classical_loop existsb]. unfold answers_b, bind.
  destruct (Hr st' Hs Hok) as (x & st1 & -> & _ & Hs1 & Hok1). cbn [fst]. destruct (H r); [by exists st1|].
  destruct (IH st1) as (st2 & -> & Hs2 & Hok2); [by etransitivity|done|]. exists st2. split; [done|]. split; [by etransitivity|done].
Qed.
End Logic.

Section Plain.
Context (E : RuleEnv) (Hdb : databases_answer (databases E)).
Context (prov : RuleProvider -> RuleMatchHelper -> M bool) (pv : RuleProvider -> Metadata -> bool).
Context (Hpv : forall p, Proper (same_md ==> eq) (pv p)).

(** A rule set answers what it holds. *)
Definition set_answers (p : RuleProvider) : Prop :=
  forall h st, quiet h st -> caches_ok (databases E) (st_md st) -> answers_b E (prov p h) st (pv p (st_md st)).

Lemma RuleSet_answers rs h st : (forall p, ruleProviders E !! rs_ruleProviderName rs = Some p -> set_answers p) ->
  quiet h st -> caches_ok (databases E) (st_md st) ->
  answers E (RuleSet_Match E prov rs h) st (holds E pv (RRuleSet rs) (st_md st)) (rs_adapter rs).
Proof.
  intros Hp Hq Hok. cbn [holds]. unfold RuleSet_Match. destruct (ruleProviders E !! _) as [p|]; [|by exists "", st].
  specialize (Hp p eq_refl). assert (Hqn : forall st', same_state st st' \/ attemptProcessLookup st = attemptProcessLookup st' ->
    quiet (mkHelper None (FindProcess h) (CheckPassRule h)) st').
  { intros st' Hs. split; [done|]. intros f Hf st'' Hst. destruct Hq as [_ Hq]. apply (Hq f Hf). rewrite Hst. symmetry. by destruct Hs as [(_ & _ & ? & _)|]. }
  unfold answers, bind. destruct (rs_isSrc rs); cbn [modify_md].
  - destruct (Hp (mkHelper None (FindProcess h) (CheckPassRule h)) (upd_md SwapSrcDst st)) as (st1 & E1 & Hs1 & Hok1).
    { apply Hqn. by right. }
    { destruct st as [[] ? ? ?], Hok. by split. }
    change (st_md (upd_md SwapSrcDst st)) with (SwapSrcDst (st_md st)) in E1. unfold modify_md. rewrite E1.
    do 2 eexists. split; [done|]. split; [done|]. destruct Hs1 as (H1 & H2 & H3). split; [split; [|done]|].
    + cbn [upd_md st_md] in *. rewrite <- (SwapSrcDst_involutive (st_md st)). by apply SwapSrcDst_proper.
    + destruct st1 as [[] ? ? ?], Hok1. by split.
  - destruct (Hp (if rs_noResolveIP rs then mkHelper None (FindProcess h) (CheckPassRule h) else h) st) as (st1 & E1 & Hs1 & Hok1).
    { destruct (rs_noResolveIP rs); [apply Hqn; by left|done]. }
    { done. }
    rewrite E1. by do 2 eexists.
Qed.

Lemma plain_rule_answers sub h st r : plain_rule r = true ->
  (forall name p, name ∈ ProviderNames r -> ruleProviders E !! name = Some p -> set_answers p) ->
  quiet h st -> answers_from E st (MatchWith E sub prov r h) (holds E pv r (st_md st)) (rule_Adapter r).
Proof.
  intros Hp Hsets Hq. induction r as [r Hr|ruleType payload adapter rules IH|id rule _] using Rule_nested_ind.
  - intros st' Hs Hok. assert (Hq' : quiet h st') by (by eapply quiet_same).
    replace (holds E pv r (st_md st)) with (holds E pv r (st_md st')) by (symmetry; apply (holds_proper E pv Hpv r), Hs).
    destruct r; try done; cbn [MatchWith holds rule_Adapter];
      try (apply (plain_answers E); [|done]; unfold InName_Match, InUser_Match, InType_Match, RematchName_Match; try case_match; done).
    + destruct (wildcard_Match (dw_pattern r) (RuleHost (st_md st'))) as [b|] eqn:Hw; [|by apply wildcard_Match_total in Hw].
      exists (dw_adapter r), st'. unfold bind, get_md, DomainWildcard_Match. rewrite Hw. done.
    + by apply (GEOIP_answers E Hdb).
    + by apply (ASN_answers E Hdb).
    + by apply IPCIDR_answers.
    + by apply IPSuffix_answers.
    + by apply Uid_answers.
    + by apply Process_answers.
    + by exists adapter, st'.
    + apply RuleSet_answers; [|done..]. intros p. apply Hsets. cbn. set_solver.
  - cbn [plain_rule] in Hp. apply andb_true_iff in Hp as [Ht Hrules]. rewrite forallb_forall in Hrules.
    assert (Hall : Forall (fun r => answers_from E st (MatchWith E sub prov r h) (holds E pv r (st_md st)) (rule_Adapter r)) rules).
    { rewrite Forall_forall in *. intros r Hr. apply IH; [done|by apply Hrules, list_elem_of_In|].
      intros name p Hname. apply Hsets. cbn [ProviderNames]. apply list_elem_of_In, in_concat. exists (ProviderNames r).
      split; [by apply in_map, list_elem_of_In|by apply list_elem_of_In]. }
    cbn [MatchWith holds rule_Adapter]. unfold Logic_Match. repeat (apply orb_true_iff in Ht as [Ht|Ht]); zify_bool; subst ruleType.
    + by apply (and_loop_answers E st (fun rule => MatchWith E sub prov rule h)).
    + by apply (or_loop_answers E st (fun rule => MatchWith E sub prov rule h)).
    + destruct rules as [|r rules]; [done|]. cbn [first_rule]. inversion_clear Hall as [|? ? Hr _].
      eapply answers_bind; [exact Hr|]. intros x _. cbn [fst]. destruct (holds E pv r (st_md st)); by apply answers_ret.
  - done.
Qed.
End Plain.

(** ** Rule sets, rules and named lists *)

(** The answer of a named list: the adapter of its first rule that holds and does
    not pass; a sub-rule holds when its condition does and its list answers. *)
Section Lists.
Context (E : RuleEnv) (check : option (string -> Metadata -> bool)).

Definition passes (a : string) (m : Metadata) : bool :=
  String.eqb a "PASS-RULE" || match check with Some f => f a m | None => false end.

Definition one_answer (pv : RuleProvider -> Metadata -> bool) (sub : string -> option string) (m : Metadata) (r : Rule) : option string :=
  match r with
  | RLogic RT_SubRules _ target (c :: _) => if holds E pv c m then sub target else None
  | _ => if holds E pv r m then Some (rule_Adapter r) else None
  end.

Fixpoint list_answer (pv : RuleProvider -> Metadata -> bool) (sub : string -> option string) (m : Metadata) (rules : list Rule) : option string :=
  match rules with
  | [] => None
  | r :: rest =>
      match one_answer pv sub m r with
      | Some a => if passes a m then list_answer pv sub m rest else Some a
      | None => list_answer pv sub m rest
      end
  end.

Fixpoint sub_answer (fuel : nat) (name : string) (m : Metadata) : option string :=
  match fuel with
  | O => None
  | S fuel => list_answer (provider_holds E fuel) (fun n => sub_answer fuel n m) m (default [] (subRules E !! name))
  end.

(** A rule of the top level may be switched off. *)
Definition top_answer (fuel : nat) (off : gmap nat bool) (m : Metadata) (r : Rule) : option string :=
  let answer r := one_answer (provider_holds E fuel) (fun n => sub_answer fuel n m) m r in
  match r with
  | RRuleWrapper id r => if default false (off !! id) then None else answer r
  | _ => answer r
  end.
(** The notes have no part in an answer. *)
Definition check_same : Prop := forall f a, check = Some f -> Proper (same_md ==> eq) (f a).

Section Same.
Context (Hcheck : check_same) (pv : RuleProvider -> Metadata -> bool) (Hpv : forall p, Proper (same_md ==> eq) (pv p)).
Context (sub : string -> Metadata -> option string) (m m' : Metadata) (Hm : same_md m m') (Hsub : forall n, sub n m = sub n m').

Lemma one_answer_same r : one_answer pv (fun n => sub n m) m r = one_answer pv (fun n => sub n m') m' r.
Proof.
  pose proof (fun r => holds_proper E pv Hpv r m m' Hm) as Hh. unfold one_answer.
  destruct r as [| | | | | | | | | | | | | | | | | | | | |[] ? ? [|c ?]|]; rewrite ?Hh, ?Hsub; done.
Qed.
Lemma list_answer_same rules : list_answer pv (fun n => sub n m) m rules = list_answer pv (fun n => sub n m') m' rules.
Proof.
  induction rules as [|r rules IH]; [done|]. cbn [list_answer]. rewrite one_answer_same, IH. destruct (one_answer _ _ _ r) as [a|]; [|done].
  assert (Hp : passes a m = passes a m'); [|by rewrite Hp].
  unfold passes. destruct check as [f|] eqn:Ef; [|done]. by rewrite (Hcheck f a Ef m m' Hm).
Qed.
End Same.

Lemma sub_answer_same fuel m m' : check_same -> same_md m m' -> forall name, sub_answer fuel name m = sub_answer fuel name m'.
Proof.
  intros Hc Hm. induction fuel as [|fuel IH]; intros name; [done|]. cbn [sub_answer].
  apply (list_answer_same Hc _ (provider_holds_proper E fuel) (sub_answer fuel) m m' Hm IH).
Qed.
Lemma top_answer_same fuel off m m' r : check_same -> same_md m m' -> top_answer fuel off m r = top_answer fuel off m' r.
Proof.
  intros Hc Hm. pose proof (one_answer_same _ (provider_holds_proper E fuel) (sub_answer fuel) m m' Hm (sub_answer_same fuel m m' Hc Hm)) as H.
  unfold top_answer. destruct r; rewrite ?H; try done.
Qed.
End Lists.

(** The answer as the code gives it. *)
Definition answers_opt (E : RuleEnv) (st : MState) (c : M (bool * string)) (o : option string) : Prop :=
  answers_from E st c (bool_decide (is_Some o)) (default "" o).

Section Semantics.
Context (E : RuleEnv) (Hdb : databases_answer (databases E)) (rank : string -> nat) (K : nat) (Hrank : ranked E rank K).

Lemma provider_answers n : forall fuel name p, ruleProviders E !! name = Some p -> (rank name < n)%nat -> (n <= fuel)%nat ->
  set_answers E (provider_Match E fuel) (provider_holds E fuel) p.
Proof.
  induction n as [|n IH]; intros fuel name p Hp Hr Hf; [lia|]. destruct fuel as [|fuel]; [lia|].
  destruct (Hrank name p Hp) as [_ Hrules]. intros h st Hq Hok. cbn [provider_Match provider_holds].
  destruct p as [rules|Has|IsContain|].
  - apply (classical_loop_answers E st (fun rule => MatchWith E (matchSubRules E fuel) (provider_Match E fuel) rule h)); [|done..].
    eapply Forall_impl; [exact Hrules|]. cbn. intros r [Hplain Hnames].
    apply plain_rule_answers; [done|apply provider_holds_proper|done| |done].
    intros q p' Hq' Hp'. rewrite Forall_forall in Hnames. specialize (Hnames q Hq'). apply (IH fuel q p' Hp'); lia.
  - by exists st.
  - exists st. split; [|done]. unfold bind. by rewrite (quiet_resolve h st true Hq).
  - by exists st.
Qed.

Lemma plain_answers_fuel fuel sub h st r : plain_rule r = true -> (K <= fuel)%nat -> quiet h st ->
  answers_from E st (MatchWith E sub (provider_Match E fuel) r h) (holds E (provider_holds E fuel) r (st_md st)) (rule_Adapter r).
Proof.
  intros Hp Hf Hq. apply plain_rule_answers; [done|apply provider_holds_proper|done| |done].
  intros name p _ Hname. destruct (Hrank name p Hname) as [Hr _]. by apply (provider_answers K fuel name p).
Qed.

Lemma plain_not_sub r : plain_rule r = true -> rule_RuleType r <> RT_SubRules.
Proof.
  destruct r as [| | | | | |[? ? ? []]|[? ? ? []]|[? ? [] ?]|[? ? ? ? [] ?]| | | | | | | | | | | |rt ? ? ?|]; try done; cbn.
  - intros H%negb_true_iff. by zify_bool.
  - intros H%negb_true_iff. by zify_bool.
  - by destruct rt.
Qed.

Lemma one_answer_plain pv sub m r : plain_rule r = true ->
  one_answer E pv sub m r = if holds E pv r m then Some (rule_Adapter r) else None.
Proof. intros Hp. destruct r as [| | | | | | | | | | | | | | | | | | | | |[] ? ? rules|]; try done; by destruct rules. Qed.

(** The jump of a rule answers as the list it names. *)
Lemma one_rule_answers fuel h st (sub : string -> option string) r : wf_rule r = true -> (K <= fuel)%nat -> quiet h st ->
  (rule_RuleType r = RT_SubRules -> answers_opt E st (matchSubRules E fuel (rule_Adapter r) h) (sub (rule_Adapter r))) ->
  answers_opt E st (rule_Match E fuel r h) (one_answer E (provider_holds E fuel) sub (st_md st) r)
  /\ (rule_RuleType r = RT_SubRules -> forall a, one_answer E (provider_holds E fuel) sub (st_md st) r = Some a -> sub (rule_Adapter r) = Some a)
  /\ (rule_RuleType r <> RT_SubRules -> forall a, one_answer E (provider_holds E fuel) sub (st_md st) r = Some a -> a = rule_Adapter r).
Proof.
  intros Hw Hf Hq Hsub. unfold rule_Match. apply orb_true_iff in Hw as [Hp|Hs].
  - rewrite one_answer_plain by done. pose proof (plain_answers_fuel fuel (matchSubRules E fuel) h st r Hp Hf Hq) as Ha.
    pose proof (plain_not_sub r Hp). unfold answers_opt. destruct (holds _ _ r _); (split; [|split; [done|by intros _ a [= <-]]]).
    + by rewrite bool_decide_true by (by eexists).
    + rewrite bool_decide_false by (by intros [? [=]]). intros st' Hs Hok. destruct (Ha st' Hs Hok) as (x & st1 & H1 & _ & H2). by exists x, st1.
  - destruct r as [| | | | | | | | | | | | | | | | | | | | |[] payload adapter rules|]; try done.
    destruct rules as [|c [|? ?]]; try done. cbn [one_answer rule_Adapter rule_RuleType]. specialize (Hsub eq_refl). cbn [rule_Adapter] in Hsub.
    split; [|split; [|done]].
    + cbn [MatchWith Logic_Match first_rule]. eapply answers_bind; [by apply plain_answers_fuel|]. intros x _. cbn [fst].
      destruct (holds E _ c _); [exact Hsub|]. by apply answers_ret.
    + intros _ a. by destruct (holds E _ c _).
Qed.

(** The check for passing rules does not read the notes. *)
Definition check_respects (h : RuleMatchHelper) : Prop :=
  forall f a, CheckPassRule h = Some f -> Proper (same_md ==> eq) (f a).

Lemma passes_proper h a m m' : check_respects h -> same_md m m' -> passes (CheckPassRule h) a m = passes (CheckPassRule h) a m'.
Proof. intros Hc Hm. unfold passes. destruct (CheckPassRule h) as [f|] eqn:Ef; [|done]. by rewrite (Hc f a Ef m m' Hm). Qed.

Lemma sub_loop_answers fuel h st (sub : string -> option string) rules : check_respects h ->
  Forall (fun r =>
    answers_opt E st (rule_Match E fuel r h) (one_answer E (provider_holds E fuel) sub (st_md st) r)
    /\ (rule_RuleType r = RT_SubRules -> answers_opt E st (matchSubRules E fuel (rule_Adapter r) h) (sub (rule_Adapter r)))
    /\ (rule_RuleType r = RT_SubRules -> forall a, one_answer E (provider_holds E fuel) sub (st_md st) r = Some a -> sub (rule_Adapter r) = Some a)) rules ->
  answers_opt E st (sub_loop (fun name => matchSubRules E fuel name h) (fun r => rule_Match E fuel r h) h rules)
              (list_answer E (CheckPassRule h) (provider_holds E fuel) sub (st_md st) rules).
Proof.
  intros Hcheck. induction 1 as [|r rules (Hr & Hs & Hsa) _ IH]; [by apply answers_ret|]. cbn [sub_loop list_answer].
  unfold answers_opt in *. eapply answers_bind; [exact Hr|]. intros x Hx. cbn [fst].
  destruct (one_answer E (provider_holds E fuel) sub (st_md st) r) as [a|] eqn:Ea; [|by rewrite bool_decide_false in * by (by intros [? [=]])].
  rewrite bool_decide_true in * by (by eexists). cbn [default] in *. specialize (Hx eq_refl). cbn in Hx. subst x.
  apply answers_bind with (b := true) (a := a).
  { destruct (bool_decide (rule_RuleType r = RT_SubRules)) eqn:Hb; [|by apply answers_ret]. zify_bool.
    specialize (Hs Hb). rewrite (Hsa Hb a eq_refl) in Hs. by rewrite bool_decide_true in Hs by (by eexists). }
  intros y Hy. specialize (Hy eq_refl). subst y. cbn [fst snd andb]. intros st' Hst Hok. unfold bind, get_md, answers.
  pose proof (passes_proper h a (st_md st) (st_md st') Hcheck (proj1 Hst)) as Hp. unfold passes in Hp. rewrite <- Hp.
  change (String.eqb a "PASS-RULE" || match CheckPassRule h with Some f => f a (st_md st) | None => false end)
    with (passes (CheckPassRule h) a (st_md st)).
  destruct (passes (CheckPassRule h) a (st_md st)); [by apply IH|]. exists a, st'. by rewrite bool_decide_true by (by eexists).
Qed.

Context (Hsubs : map_Forall (fun _ rules => Forall (fun r => wf_rule r = true) rules) (subRules E)).
Context (Hacc : forall n, Acc (fun x y => jumps (subRules E) y x) n).

Lemma matchSubRules_answers fuel : forall n arr h st, chain (subRules E) (arr ++ [n]) ->
  (size (subRules E) + 1 + K <= fuel + length arr)%nat -> quiet h st -> check_respects h ->
  answers_opt E st (matchSubRules E fuel n h) (sub_answer E (CheckPassRule h) fuel n (st_md st)).
Proof.
  induction fuel as [|fuel IH]; intros n arr h st Hch Hf Hq Hcheck; pose proof (chain_length E Hacc arr n Hch); [lia|].
  cbn [matchSubRules sub_answer]. apply sub_loop_answers; [done|]. apply Forall_lookup. intros i r Hi.
  assert (Hsub : rule_RuleType r = RT_SubRules ->
    answers_opt E st (matchSubRules E fuel (rule_Adapter r) h) (sub_answer E (CheckPassRule h) fuel (rule_Adapter r) (st_md st))).
  { intros Hrt. apply (IH _ (arr ++ [n])); [| |done..].
    - rewrite <- app_assoc. apply chain_snoc; [done|]. by exists i, r.
    - rewrite length_app. cbn. lia. }
  assert (Hw : wf_rule r = true).
  { destruct (subRules E !! n) as [rules|] eqn:En; [|done]. apply (Forall_lookup_1 _ _ _ _ (Hsubs n rules En) Hi). }
  destruct (one_rule_answers fuel h st (fun n => sub_answer E (CheckPassRule h) fuel n (st_md st)) r Hw ltac:(lia) Hq Hsub) as (H1 & H2 & _).
  by split.
Qed.
(** A rule of the top level, switched off or not. *)
Lemma flags_alter (f : RuleStats -> RuleStats) id st : (forall s, disabled (f s) = disabled s) ->
  flags (mkMState (st_md st) (resolved st) (attemptProcessLookup st) (alter f id (wrappers st))) = flags st.
Proof.
  intros Hf. unfold flags. cbn [wrappers]. apply map_eq. intros i. rewrite !lookup_fmap. destruct (decide (i = id)) as [->|].
  - rewrite lookup_alter_eq. destruct (wrappers st !! id) as [s|]; [|done]. cbn. by rewrite Hf.
  - by rewrite lookup_alter_ne.
Qed.

Lemma Wrapper_answers st id c o : answers_opt E st c o ->
  answers_opt E st (Wrapper_Match (now E) id c) (if default false (flags st !! id) then None else o).
Proof.
  intros Hc st' Hs Hok. unfold answers, Wrapper_Match, bind, get_wrapper.
  assert (Ef : match wrappers st' !! id with Some s => disabled s | None => false end = default false (flags st !! id)).
  { destruct Hs as (_ & _ & _ & ->). unfold flags. rewrite lookup_fmap. by destruct (wrappers st' !! id). }
  rewrite Ef. destruct (default false (flags st !! id)); [by exists "", st'|].
  destruct (Hc st' Hs Hok) as (a & st1 & E1 & Ha & Hs1 & Hok1). rewrite E1. unfold modify_wrapper, ret. cbn [fst].
  do 2 eexists. split; [done|]. split; [done|]. split; [|done]. etransitivity; [exact Hs1|].
  repeat split. symmetry. apply flags_alter. by destruct (bool_decide _).
Qed.

Lemma top_rule_answers fuel h st id r : wf_rule r = true -> (size (subRules E) + 1 + K <= fuel)%nat -> quiet h st -> check_respects h ->
  answers_opt E st (rule_Match E fuel (RRuleWrapper id r) h) (top_answer E (CheckPassRule h) fuel (flags st) (st_md st) (RRuleWrapper id r)).
Proof.
  intros Hw Hf Hq Hc. apply Wrapper_answers. apply (one_rule_answers fuel h st _ r Hw ltac:(lia) Hq).
  intros _. apply (matchSubRules_answers fuel _ []); [apply chain_one|cbn; lia|done..].
Qed.

(** Lists named by a connection are not wrapped. *)
Lemma listed_rule_answers fuel h st r : wf_rule r = true -> (size (subRules E) + 1 + K <= fuel)%nat -> quiet h st -> check_respects h ->
  answers_opt E st (rule_Match E fuel r h) (top_answer E (CheckPassRule h) fuel (flags st) (st_md st) r).
Proof.
  intros Hw Hf Hq Hc. replace (top_answer E _ fuel _ _ r) with
    (one_answer E (provider_holds E fuel) (fun n => sub_answer E (CheckPassRule h) fuel n (st_md st)) (st_md st) r) by (by destruct r).
  apply (one_rule_answers fuel h st _ r Hw ltac:(lia) Hq).
  intros _. apply (matchSubRules_answers fuel _ []); [apply chain_one|cbn; lia|done..].
Qed.
End Semantics.


(** The first rule that holds decides.
    Once everything is found out, a named list answers with the target of its
    first rule that holds and does not pass; a sub-rule in it answers for the list
    it names, and is skipped when that has no answer.  (The code evaluates such a
    sub-rule twice; here both evaluations agree.) *)
Lemma matchSubRules_first E rank K fuel names n h st :
  databases_answer (databases E) -> ranked E rank K ->
  map_Forall (fun _ rules => Forall (fun r => wf_rule r = true) rules) (subRules E) ->
  (forall n, n ∈ names <-> is_Some (subRules E !! n)) -> verifySubRule names (subRules E) = None ->
  (size (subRules E) + 1 + K <= fuel)%nat -> quiet h st -> check_respects h -> caches_ok (databases E) (st_md st) ->
  exists x st', matchSubRules E fuel n h st
    = Ok (match sub_answer E (CheckPassRule h) fuel n (st_md st) with Some a => (true, a) | None => (false, x) end) st'
    /\ same_md (st_md st) (st_md st').
Proof.
  intros Hdb Hrank Hw Hn Hv Hf Hq Hc Hok. pose proof (verifySubRule_acyclic _ names Hn Hv) as Hacc.
  destruct (matchSubRules_answers E Hdb rank K Hrank Hw Hacc fuel n [] h st (chain_one _ n) ltac:(cbn; lia) Hq Hc st ltac:(done) Hok)
    as (a & st' & H1 & H2 & [H3 _] & _).
  exists a, st'. split; [|done]. rewrite H1. destruct (sub_answer E (CheckPassRule h) fuel n (st_md st)) as [b|].
  - rewrite bool_decide_true by (by eexists). rewrite bool_decide_true in H2 by (by eexists). by rewrite H2.
  - by rewrite bool_decide_false by (by intros [? [=]]).
Qed.

(** *** Examples *)

Definition ex_md (net : NetWork) (host : string) (dst : Addr) : Metadata :=
  mkMetadata net HTTP zeroAddr dst None None "" "" 0 0 0 "" "" "" host DNSNormal 0 "" "" "" "" 0 "" "" "".
Definition no_help : RuleMatchHelper := mkHelper None None None.

Lemma no_help_quiet st : quiet no_help st.
Proof. by split. Qed.
Lemma no_help_respects : check_respects no_help.
Proof. done. Qed.

(** A database that places every address in one country. *)
Definition geo_env : RuleEnv := mkRuleEnv (mkDatabases false (fun _ => None) (fun _ => None) (typeSing (fun _ => "de")) UnsupportedASN (fun _ _ => false)) ∅ ∅ 0.
Definition geo_rule : Rule :=
  RLogic RT_AND "" "P" [RNetworkType (mkNetworkType TCP ""); RLogic RT_NOT "" "" [RGEOIP (mkGEOIP "fr" "" false false)]].


Lemma matchSubRules_first_witness :
  exists x st', matchSubRules (ex_env ex_provider ex_subs) 4 "s1" no_help (ex_state (ex_md TCP "b.com" zeroAddr))
    = Ok (match sub_answer (ex_env ex_provider ex_subs) None 4 "s1" (ex_md TCP "b.com" zeroAddr) with Some a => (true, a) | None => (false, x) end) st'
    /\ sub_answer (ex_env ex_provider ex_subs) None 4 "s1" (ex_md TCP "b.com" zeroAddr) = Some "B".
Proof.
  destruct (matchSubRules_first (ex_env ex_provider ex_subs) (fun _ => 0%nat) 1 4 ["s1"; "s2"] "s1" no_help (ex_state (ex_md TCP "b.com" zeroAddr))) as (x & st' & H1 & _).
  - exact ex_db_answers.
  - intros name p Hp. split; [lia|]. cbn [ruleProviders ex_env] in Hp. apply lookup_singleton_Some in Hp as [_ <-]. vm_compute. repeat constructor.
  - apply (bool_decide_unpack _). vm_compute. done.
  - intros n. change (subRules (ex_env ex_provider ex_subs)) with ex_subs.
    replace ex_subs with (list_to_map (map (fun k => (k, default [] (ex_subs !! k))) ["s1"; "s2"]) : gmap string (list Rule)) by (vm_compute; reflexivity).
    rewrite <- elem_of_dom, dom_list_to_map_L, elem_of_list_to_set. done.
  - vm_compute. reflexivity.
  - vm_compute. lia.
  - apply no_help_quiet.
  - apply no_help_respects.
  - by split.
  - exists x, st'. split; [exact H1|]. vm_compute. reflexivity.
Defined.

(** An AND without conditions matches every connection. *)
Lemma empty_and_matches E fuel payload adapter h st : rule_Match E fuel (RLogic RT_AND payload adapter []) h st = Ok (true, adapter) st.
Proof. reflexivity. Qed.

(** Two evaluations differ when the first one resolves the host: the list "inner"
    answers C for a host that resolves to 1.2.3.4, but a sub-rule that jumps to it
    from another list answers A, its first rule seeing the address on the second
    evaluation. *)
Definition twice_subs : gmap string (list Rule) :=
  match parseSubRules ex_pe {["A"; "B"; "C"; "D"]} ∅
          [("inner", ["IP-CIDR,1.0.0.0/8,A,no-resolve"; "IP-CIDR,2.0.0.0/8,B"; "MATCH,C"]); ("outer", ["SUB-RULE,(NETWORK,TCP),inner"; "MATCH,D"])]
          ["inner"; "outer"] with inr m => m | inl _ => ∅ end.
Definition resolving : RuleMatchHelper :=
  mkHelper (Some (fun st => if resolved st then st else mkMState (set_DstIP (mkAddr 32 16909060) (st_md st)) true (attemptProcessLookup st) (wrappers st))) None None.
Definition unresolved : MState := mkMState (ex_md TCP "example.com" zeroAddr) false false ∅.
Example evaluated_twice :
  match matchSubRules (ex_env noStrategy twice_subs) 3 "inner" resolving unresolved with Ok x _ => x | _ => (false, "") end = (true, "C")
  /\ match matchSubRules (ex_env noStrategy twice_subs) 3 "outer" resolving unresolved with Ok x _ => x | _ => (false, "") end = (true, "A").
Proof. by vm_compute. Qed.

(** [LookupASN] indexes the record of an address that is not in the database. *)
Example ASN_lookup_panics ip : LookupASN (IPInfo (fun _ => ("", ""))) ip = None.
Proof. reflexivity. Qed.
