(* ===== verification/SmuxFrame.v ===== *)
(** * drophaul smux: frames, configuration and the buffer allocator

    Models [transport/drophaul/smux/frame.go], [mux.go] and [alloc.go] of
    [src/core/Clash.Meta].  A Go [byte] is a [Z] in [0, 256), a [[]byte] a
    list of them.  Comments starting with [@go] give the lines a definition
    translates, relative to [src/core/Clash.Meta] unless they start with
    [core/]. *)

From S2P Require Import Prelude.

(** ** Frames *)

(** @go transport/drophaul/smux/frame.go:8-16 cmdSYN, cmdFIN, cmdPSH, cmdNOP, cmdUPD, cmdPAD *)
Definition cmdSYN : Z := 0.
Definition cmdFIN : Z := 1.
Definition cmdPSH : Z := 2.
Definition cmdNOP : Z := 3.
Definition cmdUPD : Z := 4.
Definition cmdPAD : Z := 5.

(** @go transport/drophaul/smux/frame.go:18-26 headerSize *)
Definition headerSize : Z := 1 + 1 + 4 + 2.
Definition szCmdUPD : Z := 8.
Definition initialPeerWindow : Z := 262144.

(** @go transport/drophaul/smux/frame.go:28-33 Frame *)
Record Frame := mkFrame { f_ver : Z; f_cmd : Z; f_sid : Z; f_data : list Z }.

(** @go transport/drophaul/smux/frame.go:35-37 newFrame *)
Definition newFrame (version cmd sid : Z) : Frame := mkFrame version cmd sid [].

Definition with_data (f : Frame) (d : list Z) : Frame :=
  mkFrame (f_ver f) (f_cmd f) (f_sid f) d.

(** @go transport/drophaul/smux/frame.go:41-43 rawHeader.Version *)
Definition hdr_Version (h : list Z) : Z := nth 0 h 0.
(** @go transport/drophaul/smux/frame.go:45-47 rawHeader.Cmd *)
Definition hdr_Cmd (h : list Z) : Z := nth 1 h 0.
(** @go transport/drophaul/smux/frame.go:49-51 rawHeader.Length *)
Definition hdr_Length (h : list Z) : Z := le_get (take 2 (drop 2 h)).
(** @go transport/drophaul/smux/frame.go:53-55 rawHeader.StreamID *)
Definition hdr_StreamID (h : list Z) : Z := le_get (take 4 (drop 4 h)).
(** @go transport/drophaul/smux/frame.go:64-66 updHeader.Consumed *)
Definition upd_Consumed (h : list Z) : Z := le_get (take 4 h).
(** @go transport/drophaul/smux/frame.go:67-69 updHeader.Window *)
Definition upd_Window (h : list Z) : Z := le_get (take 4 (drop 4 h)).

(** The bytes [writeBatch] puts on the wire for one frame: version, command,
    [uint16(len(data))], stream id, payload.
    @go transport/drophaul/smux/session.go:583-587 Session.writeBatch *)
Definition encode_frame (f : Frame) : list Z :=
  [f_ver f; f_cmd f] ++ le_put 2 (u16 (zlen (f_data f))) ++ le_put 4 (f_sid f)
    ++ f_data f.

(** ** Configuration *)

(** @go transport/drophaul/smux/mux.go:11-20 Config *)
Record Config := mkConfig {
  Version : Z;
  KeepAliveDisabled : bool;
  KeepAliveInterval : Z;  (* time.Duration, nanoseconds *)
  KeepAliveTimeout : Z;
  MaxFrameSize : Z;
  MaxReceiveBuffer : Z;
  MaxStreamBuffer : Z;
  Padding : bool
}.

Definition Second : Z := 1000000000.

(** @go transport/drophaul/smux/mux.go:22-31 DefaultConfig *)
Definition DefaultConfig : Config :=
  mkConfig 1 false (10 * Second) (30 * Second) 32768 4194304 65536 false.

(** The errors [VerifyConfig] distinguishes, in the order it tests them.
    @go transport/drophaul/smux/mux.go:33-67 VerifyConfig *)
Inductive ConfigError : Type :=
| ErrVersion | ErrKeepAliveInterval | ErrKeepAliveTimeout
| ErrFrameSizePos | ErrFrameSizeMax | ErrReceiveBufPos | ErrReceiveBufMax
| ErrStreamBufPos | ErrStreamBufRecv | ErrStreamBufMax.

Definition MaxInt32 : Z := 2147483647.

(** @go transport/drophaul/smux/mux.go:33-67 VerifyConfig *)
Definition VerifyConfig (c : Config) : option ConfigError :=
  if negb ((Version c =? 1) || (Version c =? 2)) then Some ErrVersion else
  if negb (KeepAliveDisabled c) && (KeepAliveInterval c =? 0)
  then Some ErrKeepAliveInterval else
  if negb (KeepAliveDisabled c) && (KeepAliveTimeout c <? KeepAliveInterval c)
  then Some ErrKeepAliveTimeout else
  if MaxFrameSize c <=? 0 then Some ErrFrameSizePos else
  if 65535 <? MaxFrameSize c then Some ErrFrameSizeMax else
  if MaxReceiveBuffer c <=? 0 then Some ErrReceiveBufPos else
  if MaxInt32 <? MaxReceiveBuffer c then Some ErrReceiveBufMax else
  if MaxStreamBuffer c <=? 0 then Some ErrStreamBufPos else
  if MaxReceiveBuffer c <? MaxStreamBuffer c then Some ErrStreamBufRecv else
  if MaxInt32 <? MaxStreamBuffer c then Some ErrStreamBufMax else
  None.

(** What an accepted configuration guarantees to the rest of the package. *)
Definition config_ok (c : Config) : Prop :=
  (Version c = 1 \/ Version c = 2) /\
  (KeepAliveDisabled c = false ->
     KeepAliveInterval c <> 0 /\ KeepAliveInterval c <= KeepAliveTimeout c) /\
  1 <= MaxFrameSize c <= 65535 /\
  1 <= MaxReceiveBuffer c <= MaxInt32 /\
  1 <= MaxStreamBuffer c <= MaxReceiveBuffer c.

(** ** The power-of-two buffer allocator *)

(** A recycled buffer: its identity (the backing array) and capacity.  Its
    contents are overwritten by [io.ReadFull] before anybody reads them. *)
Record buffer := mkBuffer { b_id : nat; b_cap : Z }.

(** @go transport/drophaul/smux/alloc.go:8-11 debruijinPos *)
Definition debruijinPos : list Z :=
  [0; 9; 1; 10; 13; 21; 2; 29; 11; 14; 16; 18; 22; 25; 3; 30;
   8; 12; 20; 28; 15; 17; 24; 7; 19; 27; 23; 6; 26; 5; 4; 31].

(** @go transport/drophaul/smux/alloc.go:55-63 msb *)
Definition msb (size : Z) : Z :=
  let v := u32 size in
  let v := Z.lor v (Z.shiftr v 1) in
  let v := Z.lor v (Z.shiftr v 2) in
  let v := Z.lor v (Z.shiftr v 4) in
  let v := Z.lor v (Z.shiftr v 8) in
  let v := Z.lor v (Z.shiftr v 16) in
  nth (Z.to_nat (Z.shiftr (u32 (v * 0x07C4ACDD)) 27)) debruijinPos 0.

Arguments msb : simpl never.

(** The free list [buffers[k]] is a [sync.Pool]: the recycled buffers of class [k]; [a_fresh] names
    the next array [make] returns.
    @go transport/drophaul/smux/alloc.go:17-19 Allocator *)
Record Allocator := mkAllocator { a_buffers : list (list buffer); a_fresh : nat }.

(** @go transport/drophaul/smux/alloc.go:21-31 NewAllocator *)
Definition NewAllocator : Allocator := mkAllocator (replicate 17 []) 0.

(** [alloc.buffers[k].Get()]: a pooled buffer, or [New]'s [1<<k] fresh bytes.
    @go transport/drophaul/smux/alloc.go:24-29 NewAllocator *)
Definition pool_get (a : Allocator) (k : Z) : buffer * Allocator :=
  match a_buffers a !! Z.to_nat k with
  | Some (b :: rest) =>
      (b, mkAllocator (<[Z.to_nat k := rest]> (a_buffers a)) (a_fresh a))
  | _ => (mkBuffer (a_fresh a) (Z.shiftl 1 k), mkAllocator (a_buffers a) (S (a_fresh a)))
  end.

(** [b[:size]] panics beyond the capacity.
    @go transport/drophaul/smux/alloc.go:38-43 Allocator.Get *)
Definition slice_to (b : buffer) (size : Z) : go_result buffer :=
  if size <=? b_cap b then Ret b else Panic.

(** [Ret None] is the [nil] slice; otherwise the result has length [size].
    @go transport/drophaul/smux/alloc.go:33-44 Allocator.Get *)
Definition alloc_Get (a : Allocator) (size : Z) : go_result (option buffer) * Allocator :=
  if (size <=? 0) || (65536 <? size) then (Ret None, a) else
  let bits := msb size in
  let '(b, a') :=
    if size =? Z.shiftl 1 bits then pool_get a bits else pool_get a (bits + 1) in
  match slice_to b size with
  | Ret b => (Ret (Some b), a')
  | Panic => (Panic, a')
  end.

(** [false] is the "incorrect buffer size" error.
    @go transport/drophaul/smux/alloc.go:46-53 Allocator.Put *)
Definition alloc_Put (a : Allocator) (b : buffer) : bool * Allocator :=
  let bits := msb (b_cap b) in
  if (b_cap b =? 0) || (65536 <? b_cap b) || negb (b_cap b =? Z.shiftl 1 bits)
  then (false, a)
  else (true, mkAllocator (alter (fun p => b :: p) (Z.to_nat bits) (a_buffers a)) (a_fresh a)).

(** Class [k] holds buffers of capacity [2^k] only. *)
Definition alloc_ok (a : Allocator) : Prop :=
  length (a_buffers a) = 17%nat /\
  forall k p, a_buffers a !! k = Some p ->
    Forall (fun b => b_cap b = 2 ^ Z.of_nat k) p.

(** ** Frames: the header survives the wire *)

Definition frame_wf (f : Frame) : Prop :=
  is_byte (f_ver f) /\ is_byte (f_cmd f) /\ 0 <= f_sid f < 2 ^ 32 /\
  zlen (f_data f) < 65536.

Lemma length_encode_frame f : zlen (encode_frame f) = headerSize + zlen (f_data f).
Proof.
  unfold encode_frame, headerSize. rewrite !zlen_app. unfold zlen.
  rewrite !length_le_put. simpl length. lia.
Qed.

Lemma encode_frame_header f rest :
  frame_wf f ->
  let h := take 8 (encode_frame f ++ rest) in
  hdr_Version h = f_ver f /\ hdr_Cmd h = f_cmd f /\
  hdr_StreamID h = f_sid f /\ hdr_Length h = zlen (f_data f) /\
  drop 8 (encode_frame f ++ rest) = f_data f ++ rest.
Proof.
  intros (Hv & Hc & Hs & Hl). cbv zeta.
  assert (Hlen : le_get (le_put 2 (u16 (zlen (f_data f)))) = zlen (f_data f)).
  { rewrite u16_small by (pose proof (zlen_nonneg (f_data f)); lia).
    apply le_get_put_small. pose proof (zlen_nonneg (f_data f)). simpl. lia. }
  assert (Hsid : le_get (le_put 4 (f_sid f)) = f_sid f)
    by (apply le_get_put_small; simpl; lia).
  unfold encode_frame. cbn [le_put] in *.
  unfold hdr_Version, hdr_Cmd, hdr_StreamID, hdr_Length. simpl.
  repeat split; assumption.
Qed.

(** ** Configuration *)

Lemma VerifyConfig_ok c : VerifyConfig c = None <-> config_ok c.
Proof.
  unfold VerifyConfig, config_ok, MaxInt32. split.
  - intros H. case_in H; try discriminate; repeat split; try lia;
      destruct (KeepAliveDisabled c); simpl in *; zify_bool; try lia; try discriminate.
  - intros (Hv & Hk & Hf & Hr & Hs).
    repeat match goal with
    | |- context [if ?b then _ else _] => destruct b eqn:?
    end; try reflexivity; exfalso;
    destruct (KeepAliveDisabled c); simpl in *; zify_bool; try lia; try discriminate.
    all: destruct (Hk eq_refl); lia.
Qed.

Lemma DefaultConfig_ok : config_ok DefaultConfig.
Proof. apply VerifyConfig_ok. reflexivity. Qed.

(** ** The de Bruijn position of the highest set bit *)

(** [smears k v w]: bit [i] of [w] is set iff one of the bits [i .. i+k-1] of
    [v] is. *)
Definition smears (k v w : Z) : Prop :=
  forall i, 0 <= i -> Z.testbit w i = true <-> exists j, 0 <= j < k /\ Z.testbit v (i + j) = true.

Lemma smears_refl v : smears 1 v v.
Proof.
  intros i Hi. split.
  - intros H. exists 0. rewrite Z.add_0_r. split; [lia|done].
  - intros (j & Hj & H). by replace i with (i + j) by lia.
Qed.

Lemma smears_double k v w : 0 <= k -> smears k v w -> smears (2 * k) v (Z.lor w (Z.shiftr w k)).
Proof.
  intros Hk Hs i Hi. rewrite Z.lor_spec, Z.shiftr_spec, orb_true_iff by lia.
  rewrite (Hs i), (Hs (i + k)) by lia. split.
  - intros [(j & Hj & H)|(j & Hj & H)]; [exists j|exists (k + j)]; split; try lia; try done.
    by replace (i + (k + j)) with (i + k + j) by lia.
  - intros (j & Hj & H). destruct (Z.lt_ge_cases j k); [left; exists j; split; [lia|done]|].
    right. exists (j - k). split; [lia|]. by replace (i + k + (j - k)) with (i + j) by lia.
Qed.

Lemma smears_ones v w k : 0 < v < 2 ^ k -> 0 <= w -> smears k v w -> w = Z.ones (Z.log2 v + 1).
Proof.
  intros Hv Hw Hs. pose proof (Z.log2_nonneg v).
  assert (0 <= k) by (destruct (Z.le_gt_cases 0 k); [done|rewrite Z.pow_neg_r in Hv; lia]).
  assert (Z.log2 v < k) by (apply Z.log2_lt_pow2; lia).
  apply Z.bits_inj'. intros i Hi. apply eq_iff_eq_true. rewrite (Hs i Hi).
  destruct (Z.le_gt_cases i (Z.log2 v)).
  - rewrite Z.ones_spec_low by lia. split; [done|]. intros _.
    exists (Z.log2 v - i). split; [lia|].
    replace (i + (Z.log2 v - i)) with (Z.log2 v) by lia. apply Z.bit_log2. lia.
  - rewrite Z.ones_spec_high by lia. split; [|done].
    intros (j & Hj & Hb). rewrite Z.bits_above_log2 in Hb by lia. done.
Qed.

Definition debruijn_index (b : Z) : Z :=
  nth (Z.to_nat (Z.shiftr (u32 (Z.ones (b + 1) * 0x07C4ACDD)) 27)) debruijinPos 0.

Lemma debruijn_table :
  forallb (fun n => debruijn_index (Z.of_nat n) =? Z.of_nat n) (seq 0 32) = true.
Proof. vm_compute. reflexivity. Qed.

Lemma msb_log2 size : 0 < size < 4294967296 -> msb size = Z.log2 size.
Proof.
  intros Hs. unfold msb. rewrite (u32_small size) by lia. cbv zeta.
  set (v1 := Z.lor size (Z.shiftr size 1)).
  set (v2 := Z.lor v1 (Z.shiftr v1 2)).
  set (v4 := Z.lor v2 (Z.shiftr v2 4)).
  set (v8 := Z.lor v4 (Z.shiftr v4 8)).
  set (v16 := Z.lor v8 (Z.shiftr v8 16)).
  assert (S32 : smears 32 size v16).
  { apply (smears_double 16), (smears_double 8), (smears_double 4), (smears_double 2),
      (smears_double 1), smears_refl; lia. }
  assert (Hpos : 0 <= v16).
  { subst v16 v8 v4 v2 v1. rewrite ?Z.lor_nonneg, ?Z.shiftr_nonneg.
    repeat (rewrite ?Z.lor_nonneg, ?Z.shiftr_nonneg; repeat split; try lia). }
  rewrite (smears_ones size v16 32) by (try done; change (2 ^ 32) with 4294967296; lia).
  assert (Hlog : 0 <= Z.log2 size < 32)
    by (split; [apply Z.log2_nonneg | apply Z.log2_lt_pow2; [lia|]; change (2 ^ 32) with 4294967296; lia]).
  pose proof debruijn_table as T. rewrite forallb_forall in T.
  specialize (T (Z.to_nat (Z.log2 size))).
  rewrite Z2Nat.id, Z.eqb_eq in T by lia. apply T. apply in_seq. lia.
Qed.

(** ** The allocator's contract *)

Lemma NewAllocator_ok : alloc_ok NewAllocator.
Proof.
  split; [reflexivity|]. intros k p H. apply lookup_replicate in H as [-> _]. constructor.
Qed.

Lemma shiftl_1 k : 0 <= k -> Z.shiftl 1 k = 2 ^ k.
Proof. intros. rewrite Z.shiftl_mul_pow2 by lia. lia. Qed.

Lemma pool_get_ok a k b a' :
  alloc_ok a -> 0 <= k -> pool_get a k = (b, a') -> alloc_ok a' /\ b_cap b = 2 ^ k.
Proof.
  intros [Hlen Ha] Hk H. unfold pool_get in H.
  destruct (a_buffers a !! Z.to_nat k) as [[|b0 rest]|] eqn:E;
    injection H as <- <-; simpl; rewrite ?shiftl_1 by lia; [by split..| |by split].
  pose proof (Ha _ _ E) as Hf. apply Forall_cons in Hf as [Hb Hr].
  rewrite Z2Nat.id in Hb by lia. split; [|done]. split; simpl; [by rewrite length_insert|].
  intros j p Hj. destruct (decide (j = Z.to_nat k)) as [->|Hne].
  - rewrite list_lookup_insert_eq in Hj by (by eapply lookup_lt_Some). by injection Hj as <-.
  - rewrite list_lookup_insert_ne in Hj by done. by apply (Ha _ _ Hj).
Qed.

(** A request in range never panics and gets the smallest power of two that
    holds it. *)
Lemma alloc_Get_ok a size r a' :
  alloc_ok a -> 1 <= size <= 65536 -> alloc_Get a size = (r, a') ->
  alloc_ok a' /\ exists b, r = Ret (Some b) /\ b_cap b = 2 ^ Z.log2_up size.
Proof.
  intros Ha Hs H. unfold alloc_Get in H.
  destruct ((size <=? 0) || (65536 <? size)) eqn:E; [apply orb_prop in E as []; zify_bool; lia|].
  pose proof (Z.log2_nonneg size). pose proof (Z.log2_spec size ltac:(lia)) as Hl.
  rewrite msb_log2, shiftl_1 in H by lia.
  destruct (size =? 2 ^ Z.log2 size) eqn:Ep; zify_bool.
  - destruct (pool_get a (Z.log2 size)) as [b a1] eqn:G.
    apply pool_get_ok in G as [Ha1 Hcap]; [|done|lia]. unfold slice_to in H.
    rewrite (proj2 (Z.leb_le _ _)) in H by lia. injection H as <- <-. split; [done|].
    exists b. split; [done|]. rewrite Hcap. f_equal.
    replace (Z.log2_up size) with (Z.log2_up (2 ^ Z.log2 size)) by (by rewrite <- Ep).
    by rewrite Z.log2_up_pow2 by lia.
  - destruct (pool_get a (Z.log2 size + 1)) as [b a1] eqn:G.
    apply pool_get_ok in G as [Ha1 Hcap]; [|done|lia]. unfold slice_to in H.
    rewrite (proj2 (Z.leb_le _ _)) in H by lia. injection H as <- <-. split; [done|].
    exists b. split; [done|]. rewrite Hcap. f_equal. symmetry.
    apply Z.log2_up_unique; [lia|].
    replace (Z.pred (Z.log2 size + 1)) with (Z.log2 size) by lia.
    replace (Z.succ (Z.log2 size)) with (Z.log2 size + 1) in Hl by lia. lia.
Qed.

Lemma alloc_Put_ok a b r a' : alloc_ok a -> 0 <= b_cap b -> alloc_Put a b = (r, a') -> alloc_ok a'.
Proof.
  intros [Hlen Ha] Hc H. unfold alloc_Put in H. cbv zeta in H.
  destruct ((b_cap b =? 0) || (65536 <? b_cap b) || negb (b_cap b =? Z.shiftl 1 (msb (b_cap b)))) eqn:E;
    apply pair_equal_spec in H as [<- <-]; [exact (conj Hlen Ha)|].
  apply orb_false_elim in E as [E1 E2]. zify_bool. pose proof (Z.log2_nonneg (b_cap b)).
  rewrite msb_log2, shiftl_1 in E2 by lia. rewrite msb_log2 by lia.
  split; simpl; [by rewrite length_alter|].
  intros j p Hj. destruct (decide (j = Z.to_nat (Z.log2 (b_cap b)))) as [->|Hne].
  - rewrite list_lookup_alter_eq in Hj. destruct (a_buffers a !! _) eqn:L; [|done].
    injection Hj as <-. constructor; [|by apply (Ha _ _ L)]. by rewrite Z2Nat.id by lia.
  - rewrite list_lookup_alter_ne in Hj by done. by apply (Ha _ _ Hj).
Qed.


(** Returning a buffer of full capacity always succeeds: only re-sliced
    buffers can be refused. *)
Lemma alloc_Put_pow2 a b k : 0 <= k <= 16 -> b_cap b = 2 ^ k -> fst (alloc_Put a b) = true.
Proof.
  intros Hk Hb. unfold alloc_Put. cbv zeta. rewrite Hb.
  assert (2 ^ k <= 2 ^ 16) by (apply Z.pow_le_mono_r; lia).
  assert (0 < 2 ^ k) by (apply Z.pow_pos_nonneg; lia).
  change (2 ^ 16) with 65536 in *.
  rewrite msb_log2 by lia. rewrite Z.log2_pow2, shiftl_1 by lia.
  rewrite Z.eqb_refl. replace (2 ^ k =? 0) with false by (symmetry; apply Z.eqb_neq; lia).
  replace (65536 <? 2 ^ k) with false by (symmetry; apply Z.ltb_ge; lia). reflexivity.
Qed.
