(* ===== verification/SmuxWrite.v ===== *)
(** * drophaul smux: the write path

    Padding of the first writes of a stream ([pad.go]), the order in which
    [sendLoop] puts queued frames on the wire ([reorderBatch]), the batch
    writer with its glued and cancellable requests ([writeBatch], [flush],
    [failRequests]) and the waiting side ([writeGroup], [writeData],
    [writeFrameInternal], [abandon]) of
    [transport/drophaul/smux/session.go]. *)

From S2P Require Import Prelude SmuxFrame.

(** Errors a session or stream operation returns.  [ESocket n] stands for the
    error value of the underlying connection.
    @go transport/drophaul/smux/session.go:38-44 ErrInvalidProtocol, ErrConsumed, ErrGoAway, ErrTimeout, ErrWouldBlock *)
Inductive err : Type :=
| EInvalidProtocol | EConsumed | EGoAway | ETimeout | EWouldBlock
| EClosedPipe | EEOF | ESocket (n : Z).

#[export] Instance err_eq_dec : EqDecision err.
Proof. solve_decision. Defined.

(** ** Write requests *)

(** @go transport/drophaul/smux/session.go:23-30 CLASSID *)
Inductive CLASSID : Type := CLSCTRL | CLSREALTIME | CLSDATA.

#[export] Instance CLASSID_eq_dec : EqDecision CLASSID.
Proof. solve_decision. Defined.

(** @go transport/drophaul/smux/session.go:50-54 reqQueued, reqCopying, reqCancelled *)
Inductive req_state : Type := reqQueued | reqCopying | reqCancelled.

#[export] Instance req_state_eq_dec : EqDecision req_state.
Proof. solve_decision. Defined.

(** [w_id] names the request's result channel and state cell; [w_cell] is
    [false] when [state == nil] (service frames, never cancelled).
    @go transport/drophaul/smux/session.go:56-65 writeRequest *)
Record writeRequest := mkReq {
  w_class : CLASSID; w_frame : Frame; w_seq : Z; w_id : nat; w_glue : bool; w_cell : bool
}.

(** [n] and [err]: session.go, lines 67 to 70. *)
Abbreviation writeResult := (Z * option err)%type.

(** @go transport/drophaul/smux/session.go:626-626 hasClass *)
Definition is_class (c : CLASSID) (r : writeRequest) : bool := bool_decide (w_class r = c).

(** The state cells: an absent entry is a fresh [reqQueued] cell. *)
Definition cell_of (cells : gmap nat req_state) (id : nat) : req_state :=
  default reqQueued (cells !! id).

(** [atomic.CompareAndSwapInt32].
    @go transport/drophaul/smux/session.go:580-580 Session.writeBatch *)
Definition cas (cells : gmap nat req_state) (id : nat) (old new : req_state) :
    bool * gmap nat req_state :=
  if decide (cell_of cells id = old) then (true, <[id := new]> cells) else (false, cells).

(** ** Padding *)

(** @go transport/drophaul/smux/pad.go:12-18 padWritesPerStream, padTarget, padSmallJitter, padLargeJitter, maxPadLen *)
Definition padWritesPerStream : Z := 8.
Definition padTarget : Z := 900.
Definition padSmallJitter : Z := 500.
Definition padLargeJitter : Z := 256.
Definition maxPadLen : Z := padTarget + padSmallJitter.

(** [maxWriteBatch = (1 << 16) + headerSize].
    @go transport/drophaul/smux/session.go:16-21 maxWriteBatch *)
Definition maxWriteBatch : Z := Z.shiftl 1 16 + headerSize.

(** [intn k] is the value [rand.Intn(k)] returns; the stream's [padWrites]
    counter is threaded.
    @go transport/drophaul/smux/pad.go:28-39 Stream.padLen *)
Definition padLen (padding : bool) (padWrites : Z) (intn : Z -> Z) (n : Z) : Z * Z :=
  if negb padding || (padWritesPerStream <=? padWrites) then (0, padWrites) else
  let padWrites' := u32 (padWrites + 1) in
  if padWritesPerStream <? padWrites' then (0, padWrites') else
  if n <? padTarget then (padTarget - n + intn padSmallJitter, padWrites')
  else (intn padLargeJitter, padWrites').

(** The loop of [padGroup] that cuts [data] into PSH frames; the fuel is
    [len(data)], enough since every frame takes at least one byte.
    @go transport/drophaul/smux/pad.go:44-53 Stream.padGroup *)
Fixpoint psh_frames (fuel : nat) (ver sid frameSize : Z) (data : list Z) : list Frame :=
  match fuel with
  | O => []
  | S fuel' =>
      if zlen data <=? 0 then [] else
      let sz := if frameSize <? zlen data then frameSize else zlen data in
      mkFrame ver cmdPSH sid (ztake sz data)
        :: psh_frames fuel' ver sid frameSize (zdrop sz data)
  end.

(** [padBytes] is the process-wide block of [maxPadLen] random bytes.
    @go transport/drophaul/smux/pad.go:41-67 Stream.padGroup *)
Definition padGroup (padBytes : list Z) (version frameSize sid : Z) (data : list Z) (pad : Z) :
    list Frame :=
  let ver := u8 version in
  let frames := psh_frames (length data) ver sid frameSize data in
  let lastLen := match last frames with Some f => zlen (f_data f) | None => 0 end in
  let room := maxWriteBatch - 2 * headerSize - lastLen in
  let pad := if room <? pad then room else pad in
  if 0 <? pad then frames ++ [mkFrame ver cmdPAD sid (ztake pad padBytes)] else frames.

(** ** Scheduling *)

(** @go transport/drophaul/smux/session.go:624-631 hasClass *)
Definition hasClass (reqs : list writeRequest) (c : CLASSID) : bool := existsb (is_class c) reqs.

(** First pass over the bulk part: the realtime requests that may overtake and
    the batch indices of those that may not, because bulk data of their stream
    precedes them.
    @go transport/drophaul/smux/session.go:660-675 reorderBatch *)
Fixpoint rt_scan (i : nat) (batch : list writeRequest) (bulkRestricted : gset Z) :
    list writeRequest * list nat :=
  match batch with
  | [] => ([], [])
  | r :: rest =>
      match w_class r with
      | CLSDATA => rt_scan (S i) rest ({[f_sid (w_frame r)]} ∪ bulkRestricted)
      | CLSREALTIME =>
          let '(o, d) := rt_scan (S i) rest bulkRestricted in
          if decide (f_sid (w_frame r) ∈ bulkRestricted) then (o, i :: d) else (r :: o, d)
      | CLSCTRL => rt_scan (S i) rest bulkRestricted
      end
  end.

(** Second pass: bulk data and the demoted requests, in batch order; [demoted]
    is [demoted[demotedIdx:]].
    @go transport/drophaul/smux/session.go:676-684 reorderBatch *)
Fixpoint bulk_scan (i : nat) (batch : list writeRequest) (demoted : list nat) : list writeRequest :=
  match batch with
  | [] => []
  | r :: rest =>
      if is_class CLSDATA r then r :: bulk_scan (S i) rest demoted
      else match demoted with
           | d :: ds => if (d =? i)%nat then r :: bulk_scan (S i) rest ds
                        else bulk_scan (S i) rest demoted
           | [] => bulk_scan (S i) rest demoted
           end
  end.

(** @go transport/drophaul/smux/session.go:635-686 reorderBatch *)
Definition reorderBatch (batch : list writeRequest) : list writeRequest :=
  let hasCtrl := hasClass batch CLSCTRL in
  let hasRT := hasClass batch CLSREALTIME in
  let hasData := hasClass batch CLSDATA in
  if (negb hasCtrl && negb hasRT) || ((negb hasRT && negb hasData) && (negb hasCtrl || negb hasData))
  then batch
  else
    let ordered := if hasCtrl then List.filter (is_class CLSCTRL) batch else [] in
    if negb hasRT || negb hasData
    then ordered ++ List.filter (fun r => negb (is_class CLSCTRL r)) batch
    else let '(rt, demoted) := rt_scan 0 batch ∅ in
         ordered ++ rt ++ bulk_scan 0 batch demoted.

(** ** The batch writer *)

(** Size of a request on the wire.
    @go transport/drophaul/smux/session.go:563-563 Session.writeBatch *)
Definition req_size (r : writeRequest) : Z := headerSize + zlen (f_data (w_frame r)).

(** Results sent to the waiters, oldest first: request id and value. *)
Abbreviation deliveries := (list (nat * writeResult)).

(** @go transport/drophaul/smux/session.go:617-622 failRequests *)
Definition failRequests (reqs : list writeRequest) (e : err) : deliveries :=
  map (fun r => (w_id r, (0, Some e))) reqs.
Arguments failRequests : simpl never.

(** The loop of [flush]: [n] bytes were written, [off] is the offset of the
    first request of [reqs] in the buffer.
    @go transport/drophaul/smux/session.go:601-613 Session.flush *)
Fixpoint flush_results (n off : Z) (e : option err) (reqs : list writeRequest) : deliveries :=
  match reqs with
  | [] => []
  | r :: rest =>
      let len := zlen (f_data (w_frame r)) in
      let written := n - off - headerSize in
      let written := if written <? 0 then 0 else if len <? written then len else written in
      (w_id r, (written, e)) :: flush_results n (off + req_size r) e rest
  end.

Section BatchWriter.
(** The connection is an [io.Writer] of the caller: its state and [Write]. *)
Context {C : Type} (conn_Write : C -> list Z -> (Z * option err) * C).

(** State of [writeBatch]: the connection, the chunks written so far, the
    array [ordered] that is compacted in place, the state cells, the first
    [used] bytes of [buf], the indices [first] and [kept], and the results
    sent. *)
Record WB := mkWB {
  wb_conn : C; wb_wire : list (list Z); wb_ordered : list writeRequest;
  wb_cells : gmap nat req_state; wb_buf : list Z; wb_first : nat; wb_kept : nat;
  wb_done : deliveries
}.

(** [s.flush(buf[:used], ordered[first:kept])], then [used, first = 0, kept].
    @go transport/drophaul/smux/session.go:599-615 Session.flush *)
Definition flush (st : WB) : option err * WB :=
  let '((n, e), conn') := conn_Write (wb_conn st) (wb_buf st) in
  let reqs := drop (wb_first st) (take (wb_kept st) (wb_ordered st)) in
  (e, mkWB conn' (wb_wire st ++ [wb_buf st]) (wb_ordered st) (wb_cells st) []
        (wb_kept st) (wb_kept st) (wb_done st ++ flush_results n 0 e reqs)).

(** One request: the bytes go to [buf], the request to [ordered[kept]].
    Running past [buf] panics.
    @go transport/drophaul/smux/session.go:583-590 Session.writeBatch *)
Definition wb_append (st : WB) (r : writeRequest) : go_result WB :=
  if maxWriteBatch <? zlen (wb_buf st) + req_size r then Panic else
  Ret (mkWB (wb_conn st) (wb_wire st) (<[wb_kept st := r]> (wb_ordered st)) (wb_cells st)
         (wb_buf st ++ encode_frame (w_frame r)) (wb_first st) (S (wb_kept st)) (wb_done st)).

(** @go transport/drophaul/smux/session.go:580-582 Session.writeBatch *)
Definition wb_claim (st : WB) (r : writeRequest) : bool * WB :=
  let '(ok, cells') :=
    if w_cell r then cas (wb_cells st) (w_id r) reqQueued reqCopying
    else (true, wb_cells st) in
  (ok, mkWB (wb_conn st) (wb_wire st) (wb_ordered st) cells' (wb_buf st)
         (wb_first st) (wb_kept st) (wb_done st)).

(** @go transport/drophaul/smux/session.go:570-573 Session.writeBatch *)
Definition wb_fail (st : WB) (i : nat) (e : err) : WB :=
  mkWB (wb_conn st) (wb_wire st) (wb_ordered st) (wb_cells st) (wb_buf st)
    (wb_first st) (wb_kept st) (wb_done st ++ failRequests (drop i (wb_ordered st)) e).

(** [need]: a request and the pad glued to it go into the same flush.
    @go transport/drophaul/smux/session.go:563-567 Session.writeBatch *)
Definition wb_need (r : writeRequest) (next : option writeRequest) : Z :=
  match next with
  | Some nx => if w_glue nx then req_size r + req_size nx else req_size r
  | None => req_size r
  end.

(** The [for i, r := range ordered] loop; the fuel is [len(ordered) - i].
    @go transport/drophaul/smux/session.go:562-591 Session.writeBatch *)
Fixpoint wb_loop (fuel i : nat) (st : WB) : go_result (option err) * WB :=
  match fuel with
  | O => (Ret None, st)
  | S fuel' =>
      match wb_ordered st !! i with
      | None => (Ret None, st)
      | Some r =>
          let need := wb_need r (wb_ordered st !! S i) in
          let '(fe, st1) :=
            if (0 <? zlen (wb_buf st)) && (maxWriteBatch <? zlen (wb_buf st) + need)
            then flush st else (None, st) in
          match fe with
          | Some e => (Ret (Some e), wb_fail st1 i e)
          | None =>
              let '(ok, st2) := wb_claim st1 r in
              if ok then
                match wb_append st2 r with
                | Ret st3 => wb_loop fuel' (S i) st3
                | Panic => (Panic, st2)
                end
              else wb_loop fuel' (S i) st2
          end
      end
  end.

(** @go transport/drophaul/smux/session.go:553-597 Session.writeBatch *)
Definition writeBatch (conn : C) (cells : gmap nat req_state) (batch : list writeRequest) :
    go_result (option err) * WB :=
  let ordered := reorderBatch batch in
  let '(r, st) := wb_loop (length ordered) 0 (mkWB conn [] ordered cells [] 0 0 []) in
  match r with
  | Ret None => if zlen (wb_buf st) =? 0 then (Ret None, st)
                else let '(e, st') := flush st in (Ret e, st')
  | _ => (r, st)
  end.
End BatchWriter.
Arguments mkWB {C} _ _ _ _ _ _ _ _.
Arguments WB : clear implicits.
Arguments wb_conn {C} _.
Arguments wb_wire {C} _.
Arguments wb_ordered {C} _.
Arguments wb_cells {C} _.
Arguments wb_buf {C} _.
Arguments wb_first {C} _.
Arguments wb_kept {C} _.
Arguments wb_done {C} _.

(** ** Waiting for the results *)

(** The outcome of a blocking [select] of a writer: one of the ready cases.
    @go transport/drophaul/smux/session.go:709-718 Session.writeFrameInternal *)
Inductive wait_event : Type :=
| EvResult (r : writeResult) | EvDie | EvSocketWriteError (e : err) | EvDeadline.

(** The cancellation loop of [abandon], from the last request down; [reqs] is
    the slice reversed.  The result is [claimed].
    @go transport/drophaul/smux/session.go:778-784 Session.abandon *)
Fixpoint cancel_tail (rreqs : list writeRequest) (cells : gmap nat req_state) :
    nat * gmap nat req_state :=
  match rreqs with
  | [] => (O, cells)
  | r :: rest =>
      let '(ok, cells') := cas cells (w_id r) reqQueued reqCancelled in
      if ok then cancel_tail rest cells' else (length rreqs, cells)
  end.

(** The loop over [reqs[:claimed]]: [Some e] when it returned early.
    @go transport/drophaul/smux/session.go:791-808 Session.abandon *)
Fixpoint collect (results : gmap nat writeResult) (cause : err) (reqs : list writeRequest) (sent : Z) :
    Z * option err :=
  match reqs with
  | [] => (sent, None)
  | r :: rest =>
      let '(n, e) :=
        match results !! w_id r with
        | Some res => res
        | None => if decide (cause = ETimeout) then (zlen (f_data (w_frame r)), None)
                  else (0, Some cause)
        end in
      let sent := if f_cmd (w_frame r) =? cmdPAD then sent else sent + n in
      match e with
      | Some e' => (sent, Some e')
      | None => collect results cause rest sent
      end
  end.

(** [results] are the values waiting in the result channels once [copyMu] was
    free; the state cells are threaded.
    @go transport/drophaul/smux/session.go:777-816 Session.abandon *)
Definition abandon (results : gmap nat writeResult) (cells : gmap nat req_state)
    (reqs : list writeRequest) (sent : Z) (cause : err) : (Z * option err) * gmap nat req_state :=
  let '(claimed, cells') := cancel_tail (rev reqs) cells in
  if (claimed =? 0)%nat then ((sent, Some cause), cells') else
  match collect results cause (take claimed reqs) sent with
  | (sent', Some e) => ((sent', Some e), cells')
  | (sent', None) =>
      if existsb (fun r => negb (f_cmd (w_frame r) =? cmdPAD)) (drop claimed reqs)
      then ((sent', Some cause), cells')
      else ((sent', None), cells')
  end.

(** The non-blocking [select] at the head of a write: one of the ready errors,
    picked by [choice], or [None] when it falls to [default].
    @go transport/drophaul/smux/session.go:738-746 Session.writeData *)
Definition select_ready (die : bool) (writeErr : option err) (deadline : bool) (choice : nat) :
    option err :=
  let ready := (if die then [EClosedPipe] else []) ++
               match writeErr with Some e => [e] | None => [] end ++
               (if deadline then [ETimeout] else []) in
  ready !! (choice mod length ready)%nat.

(** The receive loop of [writeGroup]: [evs] gives the ready case the [select]
    of each request takes.
    @go transport/drophaul/smux/pad.go:96-114 Session.writeGroup *)
Fixpoint group_wait (results : gmap nat writeResult) (cells : gmap nat req_state)
    (reqs : list writeRequest) (evs : list wait_event) (sent : Z) :
    option ((Z * option err) * gmap nat req_state) :=
  match reqs, evs with
  | [], _ => Some ((sent, None), cells)
  | r :: rest, EvResult (n, e) :: evs' =>
      let sent := if f_cmd (w_frame r) =? cmdPAD then sent else sent + n in
      match e with
      | Some e' => Some ((sent, Some e'), cells)
      | None => group_wait results cells rest evs' sent
      end
  | _ :: _, EvDie :: _ => Some (abandon results cells reqs sent EClosedPipe)
  | _ :: _, EvSocketWriteError e :: _ => Some (abandon results cells reqs sent e)
  | _ :: _, EvDeadline :: _ => Some (abandon results cells reqs sent ETimeout)
  | _ :: _, [] => None
  end.

(** The requests [writeGroup] queues: cancellable, bulk class, PAD glued;
    [seq] is [requestID] before the call, [id0] the first unused channel name.
    @go transport/drophaul/smux/pad.go:82-93 Session.writeGroup *)
Fixpoint group_requests (seq : Z) (id0 : nat) (frames : list Frame) : list writeRequest :=
  match frames with
  | [] => []
  | f :: rest =>
      mkReq CLSDATA f (u32 (seq + 1)) id0 (f_cmd f =? cmdPAD) true
        :: group_requests (u32 (seq + 1)) (S id0) rest
  end.

(** The part of [Session] the writers share: [die], the stored socket write
    error ([None] until [chSocketWriteError] is closed), [requestID], the
    queue with its one-slot notification channel, the state cells and the
    first unused request name.
    @go transport/drophaul/smux/session.go:72-117 Session *)
Record WriteSide := mkWS {
  ws_die : bool; ws_writeErr : option err; ws_requestID : Z;
  ws_writeQ : list writeRequest; ws_writeNotify : bool;
  ws_cells : gmap nat req_state; ws_next : nat
}.

(** @go transport/drophaul/smux/session.go:721-732 Session.enqueue *)
Definition enqueue (ws : WriteSide) (reqs : list writeRequest) : WriteSide :=
  let wasEmpty := match ws_writeQ ws with [] => true | _ => false end in
  mkWS (ws_die ws) (ws_writeErr ws) (ws_requestID ws) (ws_writeQ ws ++ reqs)
    (wasEmpty || ws_writeNotify ws) (ws_cells ws) (ws_next ws).

(** [sendLoop] takes the whole queue.
    @go transport/drophaul/smux/session.go:532-534 Session.sendLoop *)
Definition take_queue (ws : WriteSide) : list writeRequest * WriteSide :=
  (ws_writeQ ws, mkWS (ws_die ws) (ws_writeErr ws) (ws_requestID ws) [] (ws_writeNotify ws)
                   (ws_cells ws) (ws_next ws)).

Definition ws_alloc (ws : WriteSide) (n : nat) : WriteSide :=
  mkWS (ws_die ws) (ws_writeErr ws) (u32 (ws_requestID ws + Z.of_nat n)) (ws_writeQ ws)
    (ws_writeNotify ws) (ws_cells ws) (n + ws_next ws).

Definition ws_set_cells (ws : WriteSide) (cells : gmap nat req_state) : WriteSide :=
  mkWS (ws_die ws) (ws_writeErr ws) (ws_requestID ws) (ws_writeQ ws) (ws_writeNotify ws)
    cells (ws_next ws).

(** What the other goroutines do between [enqueue] and the receive: the new
    shared state, the results in the channels, and the case each blocking
    [select] takes.  An operation returns [None] when it stays blocked. *)
Definition environment : Type :=
  list writeRequest -> WriteSide -> WriteSide * gmap nat writeResult * list wait_event.

(** @go transport/drophaul/smux/pad.go:71-115 Session.writeGroup *)
Definition writeGroup (env : environment) (ws : WriteSide) (frames : list Frame)
    (deadline : bool) (choice : nat) : option ((Z * option err) * WriteSide) :=
  match select_ready (ws_die ws) (ws_writeErr ws) deadline choice with
  | Some e => Some ((0, Some e), ws)
  | None =>
      let reqs := group_requests (ws_requestID ws) (ws_next ws) frames in
      let '(ws', results, evs) := env reqs (enqueue (ws_alloc ws (length frames)) reqs) in
      match group_wait results (ws_cells ws') reqs evs 0 with
      | Some (r, cells) => Some (r, ws_set_cells ws' cells)
      | None => None
      end
  end.

(** @go transport/drophaul/smux/session.go:737-768 Session.writeData *)
Definition writeData (env : environment) (ws : WriteSide) (f : Frame) (deadline : bool)
    (class : CLASSID) (choice : nat) : option ((Z * option err) * WriteSide) :=
  match select_ready (ws_die ws) (ws_writeErr ws) deadline choice with
  | Some e => Some ((0, Some e), ws)
  | None =>
      let req := mkReq class f (u32 (ws_requestID ws + 1)) (ws_next ws) false true in
      let '(ws', results, evs) := env [req] (enqueue (ws_alloc ws 1) [req]) in
      let abandon1 cause :=
        let '(r, cells) := abandon results (ws_cells ws') [req] 0 cause in
        Some (r, ws_set_cells ws' cells) in
      match evs with
      | EvResult r :: _ => Some (r, ws')
      | EvDie :: _ => abandon1 EClosedPipe
      | EvSocketWriteError e :: _ => abandon1 e
      | EvDeadline :: _ => abandon1 ETimeout
      | [] => None
      end
  end.

(** A service frame: no state cell, so a timeout leaves it queued.
    @go transport/drophaul/smux/session.go:692-719 Session.writeFrameInternal *)
Definition writeFrameInternal (env : environment) (ws : WriteSide) (f : Frame)
    (class : CLASSID) (choice : nat) : option ((Z * option err) * WriteSide) :=
  match select_ready (ws_die ws) (ws_writeErr ws) false choice with
  | Some e => Some ((0, Some e), ws)
  | None =>
      let req := mkReq class f (u32 (ws_requestID ws + 1)) (ws_next ws) false false in
      let '(ws', _, evs) := env [req] (enqueue (ws_alloc ws 1) [req]) in
      match evs with
      | EvResult r :: _ => Some (r, ws')
      | EvDie :: _ => Some ((0, Some EClosedPipe), ws')
      | EvSocketWriteError e :: _ => Some ((0, Some e), ws')
      | EvDeadline :: _ => Some ((0, Some ETimeout), ws')
      | [] => None
      end
  end.

(** @go transport/drophaul/smux/session.go:688-690 Session.writeFrame *)
Definition writeFrame (env : environment) (ws : WriteSide) (f : Frame) (choice : nat) :
    option ((Z * option err) * WriteSide) :=
  writeFrameInternal env ws f CLSCTRL choice.

(** * drophaul smux: what [reorderBatch] guarantees

    The write scheduler is compared with a three-class partition of the
    batch; from it follow that no frame is lost or duplicated, that data of one
    stream stays in order, and that glued pairs stay adjacent. *)


(** ** The reference partition *)

Section Partition.
(** Realtime requests of streams without earlier bulk data ([R] are the
    streams that already had some). *)
Fixpoint free_part (batch : list writeRequest) (R : gset Z) : list writeRequest :=
  match batch with
  | [] => []
  | r :: rest =>
      match w_class r with
      | CLSDATA => free_part rest ({[f_sid (w_frame r)]} ∪ R)
      | CLSREALTIME =>
          if decide (f_sid (w_frame r) ∈ R) then free_part rest R else r :: free_part rest R
      | CLSCTRL => free_part rest R
      end
  end.

(** Bulk data and the realtime requests held back behind it. *)
Fixpoint bulk_part (batch : list writeRequest) (R : gset Z) : list writeRequest :=
  match batch with
  | [] => []
  | r :: rest =>
      match w_class r with
      | CLSDATA => r :: bulk_part rest ({[f_sid (w_frame r)]} ∪ R)
      | CLSREALTIME =>
          if decide (f_sid (w_frame r) ∈ R) then r :: bulk_part rest R else bulk_part rest R
      | CLSCTRL => bulk_part rest R
      end
  end.

Definition ctrl_part (batch : list writeRequest) : list writeRequest :=
  List.filter (is_class CLSCTRL) batch.

Definition partition_order (batch : list writeRequest) : list writeRequest :=
  ctrl_part batch ++ free_part batch ∅ ++ bulk_part batch ∅.
End Partition.

(** Case analysis on the class of the head request. *)
Ltac class_cases r :=
  let E := fresh "Hclass" in
  destruct (w_class r) eqn:E; unfold is_class in *; rewrite ?E in *; simpl in *.

Lemma rt_scan_ge i batch R d : d ∈ snd (rt_scan i batch R) -> (i <= d)%nat.
Proof.
  revert i R. induction batch as [|r rest IH]; intros i R Hd; simpl in Hd; [set_solver|].
  destruct (w_class r); [apply IH in Hd; lia| |apply IH in Hd; lia].
  pose proof (IH (S i) R) as IHr. destruct (rt_scan (S i) rest R) as [o ds]. simpl in IHr.
  case_decide; simpl in Hd; [apply elem_of_cons in Hd as [->|Hd]; [lia|]|];
    apply IHr in Hd; lia.
Qed.

Lemma rt_scan_parts i batch R :
  fst (rt_scan i batch R) = free_part batch R /\
  bulk_scan i batch (snd (rt_scan i batch R)) = bulk_part batch R.
Proof.
  revert i R. induction batch as [|r rest IH]; intros i R; [done|].
  simpl. class_cases r.
  - destruct (IH (S i) R) as [IH1 IH2]. split; [done|].
    pose proof (rt_scan_ge (S i) rest R) as Hge.
    destruct (snd (rt_scan (S i) rest R)) as [|d ds]; [done|].
    assert (S i <= d)%nat by (apply Hge; set_solver).
    rewrite (proj2 (Nat.eqb_neq d i)) by lia. done.
  - destruct (IH (S i) R) as [IH1 IH2]. pose proof (rt_scan_ge (S i) rest R) as Hge.
    destruct (rt_scan (S i) rest R) as [o ds]. simpl in *.
    case_decide; simpl; [rewrite Nat.eqb_refl; by rewrite IH2|].
    split; [by rewrite IH1|]. destruct ds as [|d ds]; [done|].
    assert (S i <= d)%nat by (apply Hge; set_solver).
    rewrite (proj2 (Nat.eqb_neq d i)) by lia. done.
  - destruct (IH (S i) ({[f_sid (w_frame r)]} ∪ R)) as [IH1 IH2]. by rewrite IH2.
Qed.

Lemma hasClass_false batch c :
  hasClass batch c = false -> Forall (fun r => w_class r <> c) batch.
Proof.
  unfold hasClass, is_class. induction batch; simpl; intros H; [constructor|].
  apply orb_false_elim in H as [H1 H2]. apply bool_decide_eq_false in H1. constructor; auto.
Qed.

Lemma ctrl_part_none batch : Forall (fun r => w_class r <> CLSCTRL) batch -> ctrl_part batch = [].
Proof. unfold ctrl_part, is_class. induction 1; simpl; [done|]. by rewrite bool_decide_false. Qed.

Lemma free_part_none batch R : Forall (fun r => w_class r <> CLSREALTIME) batch -> free_part batch R = [].
Proof. intros H. revert R. induction H as [|r rest Hr _ IH]; intros R; simpl; [done|]. class_cases r; auto; done. Qed.

(** Without bulk data, or without realtime requests, the non-control requests
    keep their order. *)
Lemma parts_no_bulk batch R :
  Forall (fun r => w_class r <> CLSREALTIME) batch \/
  (R = ∅ /\ Forall (fun r => w_class r <> CLSDATA) batch) ->
  free_part batch R ++ bulk_part batch R = List.filter (fun r => negb (is_class CLSCTRL r)) batch.
Proof.
  intros [H|[-> H]].
  - rewrite free_part_none by done. simpl. revert R.
    induction H as [|r rest Hr _ IH]; intros R; simpl; [done|]. class_cases r; try done; by rewrite ?IH.
  - induction H as [|r rest Hr _ IH]; simpl; [done|]. class_cases r; try done.
    rewrite !decide_False by set_solver. simpl. by rewrite IH.
Qed.

Lemma filter_id_all {A} (f : A -> bool) l : Forall (fun x => f x = true) l -> List.filter f l = l.
Proof. induction 1; simpl; [done|]. by rewrite H, IHForall. Qed.

Lemma nonctrl_all batch :
  Forall (fun r => w_class r <> CLSCTRL) batch ->
  List.filter (fun r => negb (is_class CLSCTRL r)) batch = batch.
Proof.
  intros H. apply filter_id_all. eapply Forall_impl; [exact H|]. intros r Hr. unfold is_class.
  by apply negb_true_iff, bool_decide_eq_false.
Qed.

Lemma only_ctrl batch :
  Forall (fun r => w_class r <> CLSREALTIME) batch ->
  Forall (fun r => w_class r <> CLSDATA) batch ->
  ctrl_part batch = batch /\ List.filter (fun r => negb (is_class CLSCTRL r)) batch = [].
Proof.
  induction 1 as [|r rest Hr HR IH]; intros HD; [done|].
  apply Forall_cons in HD as [Hd HD]. unfold ctrl_part in *. simpl.
  destruct (IH HD) as [IH1 IH2]. class_cases r; try done. by rewrite IH1.
Qed.

(** The scheduler computes the reference partition. *)
Lemma reorderBatch_partition batch : reorderBatch batch = partition_order batch.
Proof.
  unfold reorderBatch, partition_order. cbv zeta.
  pose proof (rt_scan_parts 0 batch ∅) as [P1 P2].
  destruct (rt_scan 0 batch ∅) as [o d]. simpl in P1, P2. subst o. rewrite P2.
  destruct (hasClass batch CLSCTRL) eqn:HC, (hasClass batch CLSREALTIME) eqn:HR,
    (hasClass batch CLSDATA) eqn:HD; simpl;
  repeat match goal with H : hasClass _ _ = false |- _ => apply hasClass_false in H end;
  rewrite ?(ctrl_part_none batch) by done; simpl;
  try reflexivity; try (rewrite parts_no_bulk by auto; rewrite ?nonctrl_all by done; reflexivity).
  rewrite parts_no_bulk by auto. destruct (only_ctrl batch HR HD) as [-> ->]. by rewrite app_nil_r.
Qed.

(** ** Consequences *)

Lemma free_bulk_perm batch R :
  batch ≡ₚ ctrl_part batch ++ free_part batch R ++ bulk_part batch R.
Proof.
  unfold ctrl_part. revert R. induction batch as [|r rest IH]; intros R; simpl; [done|].
  class_cases r; [by rewrite <- IH| |].
  - case_decide; simpl; rewrite <- ?Permutation_middle, (IH R) at 1; [|done].
    by rewrite !app_assoc, Permutation_middle, <- !app_assoc.
  - rewrite (IH ({[f_sid (w_frame r)]} ∪ R)) at 1.
    by rewrite !app_assoc, Permutation_middle.
Qed.

Definition of_stream (sid : Z) (r : writeRequest) : bool :=
  negb (is_class CLSCTRL r) && (f_sid (w_frame r) =? sid).

Lemma filter_of_stream_cons sid r l :
  List.filter (of_stream sid) (r :: l) =
  if decide (w_class r <> CLSCTRL /\ f_sid (w_frame r) = sid)
  then r :: List.filter (of_stream sid) l else List.filter (of_stream sid) l.
Proof.
  simpl. unfold of_stream at 1, is_class. destruct (decide (w_class r <> CLSCTRL /\ f_sid (w_frame r) = sid)) as [[H1 H2]|H].
  - by rewrite bool_decide_false, (proj2 (Z.eqb_eq _ _)).
  - destruct (decide (w_class r = CLSCTRL)); [by rewrite bool_decide_true|].
    rewrite bool_decide_false, (proj2 (Z.eqb_neq _ _)) by tauto. done.
Qed.

Lemma free_part_restricted sid batch R :
  sid ∈ R -> List.filter (of_stream sid) (free_part batch R) = [].
Proof.
  revert R. induction batch as [|r rest IH]; intros R HR; [done|]. simpl.
  destruct (w_class r); [by apply IH| |apply IH; set_solver].
  case_decide; [by apply IH|]. rewrite filter_of_stream_cons, decide_False by naive_solver. by apply IH.
Qed.

Lemma of_stream_parts sid batch R :
  List.filter (of_stream sid) (free_part batch R) ++ List.filter (of_stream sid) (bulk_part batch R)
    = List.filter (of_stream sid) batch.
Proof.
  revert R. induction batch as [|r rest IH]; intros R; [done|].
  rewrite filter_of_stream_cons. simpl. destruct (w_class r) eqn:Hclass.
  - rewrite decide_False by naive_solver. apply IH.
  - case_decide as Hin; rewrite filter_of_stream_cons, Hclass; destruct (decide (_ /\ _)) as [[_ <-]|_].
    + by rewrite <- (IH R), free_part_restricted.
    + apply IH.
    + simpl. by rewrite IH.
    + apply IH.
  - rewrite filter_of_stream_cons, Hclass, <- (IH ({[f_sid (w_frame r)]} ∪ R)).
    destruct (decide (_ /\ _)) as [[_ <-]|_]; [|done].
    by rewrite free_part_restricted by set_solver.
Qed.

Lemma ctrl_part_of_stream sid batch : List.filter (of_stream sid) (ctrl_part batch) = [].
Proof.
  unfold ctrl_part. induction batch as [|r rest IH]; [done|]. simpl. unfold is_class at 1.
  case_bool_decide as Hc; [|done]. rewrite filter_of_stream_cons, decide_False by naive_solver. done.
Qed.

Lemma reorderBatch_perm batch : reorderBatch batch ≡ₚ batch.
Proof. rewrite reorderBatch_partition. symmetry. apply free_bulk_perm. Qed.

(** The write scheduler only permutes the queue, and it keeps the order of
    the bulk and realtime frames of every single stream. *)
Lemma reorderBatch_order batch :
  reorderBatch batch ≡ₚ batch /\
  forall sid, List.filter (of_stream sid) (reorderBatch batch) = List.filter (of_stream sid) batch.
Proof.
  split; [apply reorderBatch_perm|]. intros sid. rewrite reorderBatch_partition.
  unfold partition_order. by rewrite !List.filter_app, ctrl_part_of_stream, of_stream_parts.
Qed.

(** ** Glued pairs *)

Lemma bulk_part_app l1 l2 R :
  exists R', bulk_part (l1 ++ l2) R = bulk_part l1 R ++ bulk_part l2 R'.
Proof.
  revert R. induction l1 as [|r l1 IH]; intros R; simpl; [by exists R|].
  destruct (w_class r); [apply IH| |].
  - destruct (IH R) as [R' E]. exists R'. rewrite E. by case_decide.
  - destruct (IH ({[f_sid (w_frame r)]} ∪ R)) as [R' E]. exists R'. by rewrite E.
Qed.

Lemma bulk_part_segment g l2 R :
  Forall (fun r => w_class r = CLSDATA) g ->
  exists R', bulk_part (g ++ l2) R = g ++ bulk_part l2 R'.
Proof.
  intros H. revert R. induction H as [|r g Hr _ IH]; intros R; simpl; [by exists R|].
  rewrite Hr. destruct (IH ({[f_sid (w_frame r)]} ∪ R)) as [R' ->]. by exists R'.
Qed.

Lemma partition_order_segment l1 g l2 :
  Forall (fun r => w_class r = CLSDATA) g ->
  exists k1 k2, reorderBatch (l1 ++ g ++ l2) = k1 ++ g ++ k2.
Proof.
  intros Hg. rewrite reorderBatch_partition. unfold partition_order.
  destruct (bulk_part_app l1 (g ++ l2) ∅) as [R' ->].
  destruct (bulk_part_segment g l2 R' Hg) as [R1 ->].
  set (c := ctrl_part _). set (f := free_part _ _).
  exists (c ++ f ++ bulk_part l1 ∅), (bulk_part l2 R1). by rewrite <- (app_assoc c), <- (app_assoc f).
Qed.

(** The bulk requests one write queues (its PSH frames and the PAD glued to
    the last of them) stay contiguous and in order after scheduling, whatever
    else is queued. *)
Lemma reorderBatch_glue l1 g l2 :
  Forall (fun r => w_class r = CLSDATA) g ->
  exists k1 k2, reorderBatch (l1 ++ g ++ l2) = k1 ++ g ++ k2.
Proof. apply partition_order_segment. Qed.

Definition demo_req (c : CLASSID) (sid : Z) (id : nat) : writeRequest :=
  mkReq c (newFrame 2 cmdPSH sid) 0 id false true.


(** Control frames are the exception to per-stream order: a window update of a
    stream overtakes data of that stream already queued. *)
Lemma reorderBatch_ctrl_overtakes :
  map w_id (reorderBatch [demo_req CLSDATA 3 0; demo_req CLSCTRL 3 1]) = [1%nat; 0%nat].
Proof. reflexivity. Qed.

(** Exactly what runs ahead: control frames first, then the realtime frames
    of streams with no bulk data queued before them, then everything else, each
    group in queue order. *)
Lemma reorderBatch_priority batch :
  exists rt bulk,
    reorderBatch batch = List.filter (is_class CLSCTRL) batch ++ rt ++ bulk /\
    Forall (fun r => w_class r = CLSREALTIME) rt /\
    (forall l1 r l2, batch = l1 ++ r :: l2 -> w_class r = CLSREALTIME ->
       Forall (fun q => w_class q = CLSDATA -> f_sid (w_frame q) <> f_sid (w_frame r)) l1 ->
       r ∈ rt).
Proof.
  exists (free_part batch ∅), (bulk_part batch ∅). split; [apply reorderBatch_partition|]. split.
  - generalize (∅ : gset Z). induction batch as [|r rest IH]; intros R; simpl; [constructor|].
    destruct (w_class r) eqn:E; auto. case_decide; auto.
  - intros l1 r l2 -> Hr. generalize (∅ : gset Z) (not_elem_of_empty (C:=gset Z) (f_sid (w_frame r))).
    induction l1 as [|q l1 IH]; intros R HR Hl; simpl.
    + rewrite Hr, decide_False by done. set_solver.
    + apply Forall_cons in Hl as [Hq Hl]. destruct (w_class q) eqn:E; [by apply IH| |].
      * case_decide; [by apply IH|]. apply elem_of_cons. right. by apply IH.
      * apply IH; [|done]. specialize (Hq eq_refl). set_solver.
Qed.
