(* ===== verification/SmuxBatch.v ===== *)
(** * drophaul smux: what [writeBatch] guarantees

    The in-place batch writer refines a list-based reference writer, whose
    state names the groups of requests flushed together.  From the reference
    follow the bytes on the wire, the results every waiter gets, and that a
    glued PAD never travels in another flush than its PSH. *)

From S2P Require Import Prelude SmuxFrame SmuxWrite.

(** The bytes of a run of requests. *)
Definition wire_of (reqs : list writeRequest) : list Z :=
  concat (map (fun r => encode_frame (w_frame r)) reqs).

(** The requests whose claim succeeds, in order. *)
Definition claim (cells : gmap nat req_state) (r : writeRequest) : bool * gmap nat req_state :=
  if w_cell r then cas cells (w_id r) reqQueued reqCopying else (true, cells).

Fixpoint survivors (cells : gmap nat req_state) (reqs : list writeRequest) : list writeRequest :=
  match reqs with
  | [] => []
  | r :: rest =>
      let '(ok, cells') := claim cells r in
      if ok then r :: survivors cells' rest else survivors cells' rest
  end.

Definition sizes (reqs : list writeRequest) : Z := zlen (wire_of reqs).

Lemma wire_of_app l k : wire_of (l ++ k) = wire_of l ++ wire_of k.
Proof. unfold wire_of. by rewrite map_app, concat_app. Qed.

Lemma wire_of_snoc l r : wire_of (l ++ [r]) = wire_of l ++ encode_frame (w_frame r).
Proof. rewrite wire_of_app. unfold wire_of at 2. cbn [map concat]. by rewrite app_nil_r. Qed.

Lemma sizes_app l k : sizes (l ++ k) = sizes l + sizes k.
Proof. unfold sizes. by rewrite wire_of_app, zlen_app. Qed.

Lemma sizes_cons r l : sizes (r :: l) = req_size r + sizes l.
Proof.
  unfold sizes, req_size. change (r :: l) with ([r] ++ l). rewrite wire_of_app, zlen_app.
  unfold wire_of at 1. cbn [map concat]. by rewrite app_nil_r, length_encode_frame.
Qed.

Lemma sizes_nil : sizes [] = 0.
Proof. reflexivity. Qed.

Lemma sizes_snoc l r : sizes (l ++ [r]) = sizes l + req_size r.
Proof. rewrite sizes_app, sizes_cons, sizes_nil. lia. Qed.

Lemma req_size_pos r : headerSize <= req_size r.
Proof. unfold req_size. pose proof (zlen_nonneg (f_data (w_frame r))). lia. Qed.

Lemma sizes_nonneg l : 0 <= sizes l.
Proof. apply zlen_nonneg. Qed.

Lemma sizes_zero l : sizes l = 0 -> l = [].
Proof.
  destruct l as [|r l]; [done|]. rewrite sizes_cons. pose proof (req_size_pos r).
  pose proof (sizes_nonneg l). unfold headerSize in *. lia.
Qed.

Section Reference.
Context {C : Type} (conn_Write : C -> list Z -> (Z * option err) * C).

(** Reference state: connection, groups flushed so far, cells, pending group,
    results. *)
Record RB := mkRB {
  rb_conn : C; rb_groups : list (list writeRequest); rb_cells : gmap nat req_state;
  rb_pend : list writeRequest; rb_done : deliveries
}.

Definition ref_flush (s : RB) : option err * RB :=
  let '((n, e), conn') := conn_Write (rb_conn s) (wire_of (rb_pend s)) in
  (e, mkRB conn' (rb_groups s ++ [rb_pend s]) (rb_cells s) []
        (rb_done s ++ flush_results n 0 e (rb_pend s))).

Definition ref_take (s : RB) (r : writeRequest) : RB :=
  let '(ok, cells') := claim (rb_cells s) r in
  mkRB (rb_conn s) (rb_groups s) cells'
    (if ok then rb_pend s ++ [r] else rb_pend s) (rb_done s).

Definition ref_need_flush (s : RB) (r : writeRequest) (rest : list writeRequest) : bool :=
  (0 <? sizes (rb_pend s)) && (maxWriteBatch <? sizes (rb_pend s) + wb_need r (head rest)).

Fixpoint ref_loop (reqs : list writeRequest) (s : RB) : option err * RB :=
  match reqs with
  | [] => (None, s)
  | r :: rest =>
      let '(fe, s1) := if ref_need_flush s r rest then ref_flush s else (None, s) in
      match fe with
      | Some e => (Some e, mkRB (rb_conn s1) (rb_groups s1) (rb_cells s1) (rb_pend s1)
                             (rb_done s1 ++ failRequests reqs e))
      | None => ref_loop rest (ref_take s1 r)
      end
  end.

Definition ref_batch (conn : C) (cells : gmap nat req_state) (reqs : list writeRequest) :
    option err * RB :=
  let '(e, s) := ref_loop reqs (mkRB conn [] cells [] []) in
  match e with
  | Some _ => (e, s)
  | None => match rb_pend s with [] => (None, s) | _ => ref_flush s end
  end.

(** ** Refinement *)

(** The compacted array against the reference state, at index [i]. *)
Record sim (i : nat) (reqs : list writeRequest) (st : WB C) (s : RB) : Prop := {
  sim_conn : wb_conn st = rb_conn s;
  sim_wire : wb_wire st = map wire_of (rb_groups s);
  sim_cells : wb_cells st = rb_cells s;
  sim_buf : wb_buf st = wire_of (rb_pend s);
  sim_order : (wb_first st <= wb_kept st <= i)%nat;
  sim_pend : drop (wb_first st) (take (wb_kept st) (wb_ordered st)) = rb_pend s;
  sim_rest : drop i (wb_ordered st) = reqs;
  sim_done : wb_done st = rb_done s
}.

Lemma sim_flush i reqs st s :
  sim i reqs st s ->
  fst (flush conn_Write st) = fst (ref_flush s) /\
  sim i reqs (snd (flush conn_Write st)) (snd (ref_flush s)).
Proof.
  intros [Hc Hw Hce Hb Ho Hp Hr Hd]. unfold flush, ref_flush. rewrite Hc, Hb.
  destruct (conn_Write (rb_conn s) (wire_of (rb_pend s))) as [[n e] c'].
  split; [done|]. constructor; simpl; try done; try lia.
  - by rewrite Hw, map_app.
  - apply drop_ge. rewrite length_take. lia.
  - by rewrite Hd, Hp.
Qed.

Lemma sim_take i r rest st s :
  sim i (r :: rest) st s -> sizes (rb_pend s) + req_size r <= maxWriteBatch ->
  let '(ok, st2) := wb_claim st r in
  if ok then exists st3, wb_append st2 r = Ret st3 /\ sim (S i) rest st3 (ref_take s r)
  else sim (S i) rest st2 (ref_take s r).
Proof.
  intros [Hc Hw Hce Hb Ho Hp Hr Hd] Hsz. unfold wb_claim, ref_take, claim. rewrite Hce.
  assert (Hlen : (i < length (wb_ordered st))%nat).
  { apply (f_equal length) in Hr. rewrite length_drop in Hr. simpl in Hr. lia. }
  assert (Hrest : drop (S i) (wb_ordered st) = rest).
  { replace (S i) with (i + 1)%nat by lia. rewrite <- drop_drop, Hr. done. }
  destruct (if w_cell r then _ else _) as [ok cells']. destruct ok.
  - unfold wb_append. simpl. rewrite Hb. fold (sizes (rb_pend s)).
    rewrite (proj2 (Z.ltb_ge _ _)) by lia. eexists. split; [done|].
    constructor; simpl; try done; try lia.
    + by rewrite wire_of_snoc.
    + rewrite (take_S_r _ _ r) by (apply list_lookup_insert_eq; lia).
      rewrite take_insert_ge by lia. rewrite drop_app_le by (rewrite length_take; lia).
      by rewrite Hp.
    + rewrite drop_insert_lt by lia. done.
  - constructor; simpl; try done; try lia.
Qed.

Lemma wb_loop_sim reqs i st s :
  sim i reqs st s -> Forall (fun r => req_size r <= maxWriteBatch) reqs ->
  sizes (rb_pend s) <= maxWriteBatch ->
  let '(e, st') := wb_loop conn_Write (length reqs) i st in
  let '(e', s') := ref_loop reqs s in
  e = Ret e' /\ wb_conn st' = rb_conn s' /\ wb_wire st' = map wire_of (rb_groups s') /\
  wb_cells st' = rb_cells s' /\ wb_done st' = rb_done s' /\
  (e' = None -> exists j, sim j [] st' s').
Proof.
  revert i st s. induction reqs as [|r rest IH]; intros i st s Hsim Hf Hp; simpl.
  { destruct Hsim. repeat split; try done. intros _. exists i. by constructor. }
  apply Forall_cons in Hf as [Hfr Hfrest].
  assert (Hi : wb_ordered st !! i = Some r).
  { pose proof (sim_rest _ _ _ _ Hsim) as E. rewrite <- (Nat.add_0_r i), <- lookup_drop, E. done. }
  assert (Hn : wb_ordered st !! S i = head rest).
  { pose proof (sim_rest _ _ _ _ Hsim) as E. replace (S i) with (i + 1)%nat by lia.
    rewrite <- lookup_drop, E. simpl. by destruct rest. }
  rewrite Hi, Hn, (sim_buf _ _ _ _ Hsim). fold (sizes (rb_pend s)).
  fold (ref_need_flush s r rest).
  assert (Hstep : forall st1 s1, sim i (r :: rest) st1 s1 ->
    sizes (rb_pend s1) + req_size r <= maxWriteBatch ->
    let '(e, st') :=
      let '(ok, st2) := wb_claim st1 r in
      if ok then match wb_append st2 r with
                 | Ret st3 => wb_loop conn_Write (length rest) (S i) st3
                 | Panic => (Panic, st2) end
      else wb_loop conn_Write (length rest) (S i) st2 in
    let '(e', s') := ref_loop rest (ref_take s1 r) in
    e = Ret e' /\ wb_conn st' = rb_conn s' /\ wb_wire st' = map wire_of (rb_groups s') /\
    wb_cells st' = rb_cells s' /\ wb_done st' = rb_done s' /\
    (e' = None -> exists j, sim j [] st' s')).
  { intros st1 s1 Hs Hz. pose proof (sim_take _ _ _ _ _ Hs Hz) as Ht.
    assert (Hz' : sizes (rb_pend (ref_take s1 r)) <= maxWriteBatch).
    { pose proof (req_size_pos r). unfold ref_take, headerSize in *.
      destruct (claim _ _) as [[] ?]; simpl; rewrite ?sizes_snoc; lia. }
    destruct (wb_claim st1 r) as [[] st2].
    - destruct Ht as (st3 & -> & Ht). by apply IH.
    - by apply IH. }
  destruct (ref_need_flush s r rest) eqn:Hneed.
  - pose proof (sim_flush _ _ _ _ Hsim) as [He Hs1].
    destruct (flush conn_Write st) as [fe st1], (ref_flush s) as [fe' s1] eqn:Ef.
    simpl in He, Hs1. subst fe'. destruct fe as [e|].
    + destruct Hs1. simpl. repeat split; try done. by rewrite sim_done0, sim_rest0.
    + apply Hstep; [done|]. unfold ref_flush in Ef.
      destruct (conn_Write _ _) as [[? ?] ?]. injection Ef as _ <-. simpl.
      rewrite sizes_nil. lia.
  - apply Hstep; [done|]. unfold ref_need_flush in Hneed.
    apply andb_false_iff in Hneed as [Hneed|Hneed]; zify_bool.
    + pose proof (sizes_nonneg (rb_pend s)). lia.
    + assert (req_size r <= wb_need r (head rest)); [|lia]. unfold wb_need.
      destruct (head rest) as [nx|]; [|lia]. destruct (w_glue nx); [|lia].
      pose proof (req_size_pos nx). unfold headerSize in *. lia.
Qed.

(** The in-place batch writer is the reference writer on the scheduled batch,
    and never runs out of its buffer. *)
Lemma writeBatch_refines conn cells batch :
  Forall (fun r => req_size r <= maxWriteBatch) batch ->
  let '(e, st) := writeBatch conn_Write conn cells batch in
  let '(e', s) := ref_batch conn cells (reorderBatch batch) in
  e = Ret e' /\ wb_conn st = rb_conn s /\ wb_wire st = map wire_of (rb_groups s) /\
  wb_cells st = rb_cells s /\ wb_done st = rb_done s.
Proof.
  intros Hf. unfold writeBatch, ref_batch.
  assert (Hf' : Forall (fun r => req_size r <= maxWriteBatch) (reorderBatch batch)).
  { by rewrite (reorderBatch_perm batch). }
  pose proof (wb_loop_sim (reorderBatch batch) 0 (mkWB conn [] (reorderBatch batch) cells [] 0 0 [])
    (mkRB conn [] cells [] [])) as H.
  destruct (wb_loop _ _ _ _) as [e st], (ref_loop _ _) as [e' s].
  destruct H as (-> & H1 & H2 & H3 & H4 & H5); [by constructor|done| |].
  { simpl. by rewrite sizes_nil. }
  destruct e' as [e'|]; [done|]. destruct (H5 eq_refl) as [j Hsim].
  pose proof (sim_buf _ _ _ _ Hsim) as Hb. rewrite Hb. fold (sizes (rb_pend s)).
  destruct (rb_pend s) as [|q p] eqn:Ep; [done|].
  rewrite (proj2 (Z.eqb_neq _ _)) by (intros E; apply sizes_zero in E; done).
  pose proof (sim_flush _ _ _ _ Hsim) as [He Hs]. destruct (flush conn_Write st) as [fe st'],
    (ref_flush s) as [fe' s']. simpl in He, Hs. subst fe'. destruct Hs. done.
Qed.
End Reference.

(** ** A connection that accepts everything *)

(** What every waiter of a written request is told. *)
Definition all_written (r : writeRequest) : nat * writeResult :=
  (w_id r, (zlen (f_data (w_frame r)), None)).

Lemma flush_results_all reqs off :
  0 <= off -> flush_results (off + sizes reqs) off None reqs = map all_written reqs.
Proof.
  revert off. induction reqs as [|r rest IH]; intros off Hoff; [done|].
  rewrite sizes_cons. simpl. unfold all_written at 1. pose proof (sizes_nonneg rest).
  pose proof (zlen_nonneg (f_data (w_frame r))). f_equal.
  - unfold req_size, headerSize. repeat f_equal. case_ifs; lia.
  - rewrite Z.add_assoc. apply IH. pose proof (req_size_pos r). unfold headerSize in *. lia.
Qed.

(** Every request gets exactly one delivery from a flush, in order. *)
Lemma flush_results_ids n off e reqs : map fst (flush_results n off e reqs) = map w_id reqs.
Proof. revert off. induction reqs; intros; simpl; [done|]. by rewrite IHreqs. Qed.

Lemma failRequests_ids reqs e : map fst (failRequests reqs e) = map w_id reqs.
Proof. unfold failRequests. by rewrite map_map. Qed.

Section HappyPath.
Context {C : Type} (conn_Write : C -> list Z -> (Z * option err) * C).
Hypothesis writes_all : forall c p, fst (conn_Write c p) = (zlen p, None).

Lemma ref_flush_all s :
  exists c, ref_flush conn_Write s =
    (None, mkRB c (rb_groups s ++ [rb_pend s]) (rb_cells s) []
             (rb_done s ++ map all_written (rb_pend s))).
Proof.
  unfold ref_flush. pose proof (writes_all (rb_conn s) (wire_of (rb_pend s))) as H.
  destruct (conn_Write _ _) as [[n e] c']. simpl in H. injection H as -> ->. exists c'.
  change (zlen (wire_of (rb_pend s))) with (0 + sizes (rb_pend s)).
  by rewrite (flush_results_all (rb_pend s) 0) by lia.
Qed.

Lemma ref_loop_all reqs s :
  exists s', ref_loop conn_Write reqs s = (None, s') /\
    concat (rb_groups s') ++ rb_pend s'
      = concat (rb_groups s) ++ rb_pend s ++ survivors (rb_cells s) reqs /\
    rb_done s' ++ map all_written (rb_pend s')
      = rb_done s ++ map all_written (rb_pend s) ++ map all_written (survivors (rb_cells s) reqs).
Proof.
  revert s. induction reqs as [|r rest IH]; intros s; simpl.
  { exists s. by rewrite !app_nil_r. }
  assert (Hstep : forall s1, exists s', ref_loop conn_Write rest (ref_take s1 r) = (None, s') /\
    concat (rb_groups s') ++ rb_pend s'
      = concat (rb_groups s1) ++ rb_pend s1 ++ survivors (rb_cells s1) (r :: rest) /\
    rb_done s' ++ map all_written (rb_pend s')
      = rb_done s1 ++ map all_written (rb_pend s1)
          ++ map all_written (survivors (rb_cells s1) (r :: rest))).
  { intros s1. destruct (IH (ref_take s1 r)) as (s' & E & E1 & E2). exists s'. split; [done|].
    rewrite E1, E2. unfold ref_take. simpl. destruct (claim (rb_cells s1) r) as [[] cells']; simpl;
      rewrite ?map_app, <- ?app_assoc; by split. }
  destruct (ref_need_flush s r rest).
  - destruct (ref_flush_all s) as [c ->]. destruct (Hstep (mkRB c (rb_groups s ++ [rb_pend s])
      (rb_cells s) [] (rb_done s ++ map all_written (rb_pend s)))) as (s' & E & E1 & E2).
    exists s'. split; [done|]. rewrite E1, E2. simpl. rewrite concat_app. simpl.
    by rewrite app_nil_r, <- !app_assoc.
  - apply Hstep.
Qed.

Lemma ref_batch_all conn cells reqs :
  exists s', ref_batch conn_Write conn cells reqs = (None, s') /\
    concat (rb_groups s') = survivors cells reqs /\
    rb_done s' = map all_written (survivors cells reqs).
Proof.
  unfold ref_batch. destruct (ref_loop_all reqs (mkRB conn [] cells [] [])) as (s & -> & E1 & E2).
  simpl in E1, E2. destruct (rb_pend s) as [|q p] eqn:Ep.
  - exists s. rewrite app_nil_r in E1. simpl in E2. rewrite app_nil_r in E2. done.
  - destruct (ref_flush_all s) as [c ->]. eexists. split; [done|]. simpl. rewrite concat_app. simpl.
    by rewrite app_nil_r, Ep.
Qed.
End HappyPath.

Lemma concat_map_wire groups : concat (map wire_of groups) = wire_of (concat groups).
Proof. induction groups; simpl; [done|]. by rewrite wire_of_app, IHgroups. Qed.


(** A connection whose state is the number of accepted bytes. *)
Definition sink_Write (c : Z) (p : list Z) : (Z * option err) * Z := ((zlen p, None), c + zlen p).

Definition demo_batch : list writeRequest :=
  [mkReq CLSDATA (mkFrame 2 cmdPSH 3 [10; 11; 12]) 1 0 false true;
   mkReq CLSDATA (mkFrame 2 cmdPAD 3 [0; 0]) 2 1 true true;
   mkReq CLSCTRL (newFrame 2 cmdNOP 0) 3 2 false false].


(** ** Every waiter is answered *)

Lemma cell_of_insert cells i v j :
  cell_of (<[i := v]> cells) j = if decide (i = j) then v else cell_of cells j.
Proof. unfold cell_of. rewrite lookup_insert. by destruct (decide (i = j)). Qed.

(** Claiming a request leaves the other cells alone. *)
Lemma claim_other cells r id :
  w_id r <> id -> cell_of (snd (claim cells r)) id = cell_of cells id.
Proof.
  intros Hne. unfold claim, cas. destruct (w_cell r); [|done].
  destruct (decide (cell_of cells (w_id r) = reqQueued)); simpl; [|done].
  by rewrite cell_of_insert, decide_False.
Qed.

Lemma claim_fails cells r :
  fst (claim cells r) = false ->
  w_cell r = true /\ snd (claim cells r) = cells /\ cell_of cells (w_id r) <> reqQueued.
Proof.
  unfold claim, cas. destruct (w_cell r); [|done].
  destruct (decide (cell_of cells (w_id r) = reqQueued)); simpl; [done|by repeat split].
Qed.

Lemma claim_queued cells r : cell_of cells (w_id r) = reqQueued -> fst (claim cells r) = true.
Proof. intros H. unfold claim, cas. destruct (w_cell r); [|done]. by rewrite decide_True. Qed.

(** A cell that is cancelled stays cancelled. *)
Lemma claim_cancelled cells r id :
  cell_of cells id = reqCancelled -> cell_of (snd (claim cells r)) id = reqCancelled.
Proof.
  intros H. unfold claim, cas. destruct (w_cell r); [|done].
  destruct (decide (cell_of cells (w_id r) = reqQueued)) as [Hq|]; simpl; [|done].
  rewrite cell_of_insert. case_decide as E; [|done]. rewrite E in Hq. congruence.
Qed.

Section Answers.
Context {C : Type} (conn_Write : C -> list Z -> (Z * option err) * C).

(** Requests answered so far or in the pending group. *)
Definition accounted (s : RB) : list nat := map fst (rb_done (C:=C) s) ++ map w_id (rb_pend s).

Lemma ref_flush_accounted s e s' :
  ref_flush conn_Write s = (e, s') ->
  accounted s' = accounted s /\ rb_pend s' = [] /\ rb_cells s' = rb_cells s /\
  map fst (rb_done s') = accounted s.
Proof.
  unfold ref_flush, accounted. destruct (conn_Write _ _) as [[n e0] c']. intros [= <- <-]. simpl.
  rewrite app_nil_r, map_app, flush_results_ids. done.
Qed.

Lemma ref_loop_cancelled reqs s e s' id :
  ref_loop conn_Write reqs s = (e, s') ->
  cell_of (rb_cells s) id = reqCancelled -> cell_of (rb_cells s') id = reqCancelled.
Proof.
  revert s. induction reqs as [|r rest IH]; intros s; simpl; [by intros [= <- <-]|].
  assert (Hk : forall s1, rb_cells (C:=C) (ref_take s1 r) = snd (claim (rb_cells s1) r)).
  { intros s1. unfold ref_take. by destruct (claim _ _). }
  destruct (ref_need_flush s r rest).
  - destruct (ref_flush conn_Write s) as [fe s1] eqn:Ef.
    apply ref_flush_accounted in Ef as (_ & _ & Hc & _). destruct fe as [e1|].
    + intros [= <- <-] H. simpl. by rewrite Hc.
    + intros E H. apply (IH _ E). rewrite Hk, Hc. by apply claim_cancelled.
  - intros E H. apply (IH _ E). rewrite Hk. by apply claim_cancelled.
Qed.

Lemma ref_loop_accounted reqs s e s' :
  ref_loop conn_Write reqs s = (e, s') ->
  NoDup (map w_id reqs) ->
  Forall (fun r => cell_of (rb_cells s) (w_id r) <> reqCopying) reqs ->
  exists kept, accounted s' = accounted s ++ kept /\ kept `sublist_of` map w_id reqs /\
    (is_Some e -> rb_pend s' = []) /\
    forall r, r ∈ reqs -> w_id r ∈ kept \/ cell_of (rb_cells s') (w_id r) = reqCancelled.
Proof.
  revert s. induction reqs as [|r rest IH]; intros s; simpl.
  { intros [= <- <-] _ _. exists []. rewrite app_nil_r. split; [done|]. split; [constructor|].
    split; [by intros []|]. intros r Hr. by apply elem_of_nil in Hr. }
  intros E Hnd Hcells. apply NoDup_cons in Hnd as [Hnr Hnd]. apply Forall_cons in Hcells as [Hcr Hcs].
  assert (Hstep : forall s1, accounted s1 = accounted s -> rb_cells s1 = rb_cells s ->
    ref_loop conn_Write rest (ref_take s1 r) = (e, s') ->
    exists kept, accounted s' = accounted s ++ kept /\ kept `sublist_of` (w_id r :: map w_id rest) /\
    (is_Some e -> rb_pend s' = []) /\
    forall q, q ∈ r :: rest -> w_id q ∈ kept \/ cell_of (rb_cells s') (w_id q) = reqCancelled).
  { intros s1 Hacc Hc Eloop. pose proof Eloop as Eloop'.
    apply IH in Eloop as (kept & Ek & Hsub & Hp & Hall); [|done|].
    2:{ rewrite Forall_forall in *. intros q Hq. unfold ref_take.
        pose proof (claim_other (rb_cells s1) r (w_id q)) as Ho.
        destruct (claim (rb_cells s1) r); simpl in *. rewrite Ho, Hc; [by apply Hcs|].
        intros En. apply Hnr. rewrite En. by apply elem_of_map_2. }
    unfold ref_take, accounted in Ek, Eloop'. pose proof (claim_fails (rb_cells s1) r) as Hfail.
    destruct (claim (rb_cells s1) r) as [[] cells'] eqn:Ecl; simpl in *.
    - exists (w_id r :: kept). rewrite map_app, app_assoc in Ek. fold (accounted s1) in Ek.
      rewrite Hacc in Ek. split; [unfold accounted at 1; rewrite Ek; by rewrite <- app_assoc|].
      split; [by constructor|]. split; [done|]. intros q Hq. apply elem_of_cons in Hq as [->|Hq]; [set_solver|].
      destruct (Hall _ Hq); [left; set_solver|by right].
    - destruct (Hfail eq_refl) as (_ & -> & Hq0).
      exists kept. fold (accounted s1) in Ek. rewrite Hacc in Ek. split; [done|]. split; [by constructor|].
      split; [done|]. intros q Hq. apply elem_of_cons in Hq as [->|Hq]; [|by apply Hall].
      right. eapply ref_loop_cancelled; [exact Eloop'|]. simpl. rewrite Hc in Hq0 |- *.
      by destruct (cell_of (rb_cells s) (w_id r)). }
  destruct (ref_need_flush s r rest).
  - destruct (ref_flush conn_Write s) as [fe s1] eqn:Ef.
    apply ref_flush_accounted in Ef as (Ha & Hp & Hc & Hd). destruct fe as [e1|]; [|by apply (Hstep s1)].
    injection E as <- <-. exists (w_id r :: map w_id rest). unfold accounted at 1. cbn [rb_done rb_pend].
    rewrite Hp, map_app, Hd, failRequests_ids. cbn [map]. rewrite app_nil_r. split; [done|]. split; [done|]. split; [done|].
    intros q Hq. left. by apply (elem_of_map_2 w_id) in Hq.
  - by apply (Hstep s).
Qed.
End Answers.

(** C11: Whatever the connection does, [writeBatch] returns without running past
    its buffer, answers no waiter twice, and leaves no waiter without an answer
    unless the waiter itself had cancelled the request. *)
Theorem writeBatch_answers {C} (conn_Write : C -> list Z -> (Z * option err) * C) conn cells batch :
  NoDup (map w_id batch) ->
  Forall (fun r => zlen (f_data (w_frame r)) < 65536) batch ->
  Forall (fun r => cell_of cells (w_id r) <> reqCopying) batch ->
  exists e st, writeBatch conn_Write conn cells batch = (Ret e, st) /\
    NoDup (map fst (wb_done st)) /\
    forall r, r ∈ batch ->
      w_id r ∈ map fst (wb_done st) \/ cell_of (wb_cells st) (w_id r) = reqCancelled.
Proof.
  intros Hnd Hf Hcells. pose proof (writeBatch_refines conn_Write conn cells batch) as Href.
  destruct (writeBatch conn_Write conn cells batch) as [e st].
  destruct (ref_batch conn_Write conn cells (reorderBatch batch)) as [e' s] eqn:Eb.
  pose proof (reorderBatch_perm batch) as Hperm.
  destruct Href as (-> & _ & _ & Hc & Hdone).
  { eapply Forall_impl; [exact Hf|]. intros r Hr. unfold req_size, maxWriteBatch, headerSize.
    change (Z.shiftl 1 16) with 65536. simpl in Hr. lia. }
  exists e', st. split; [done|]. rewrite Hdone, Hc.
  assert (Hall : NoDup (map fst (rb_done s)) /\ forall r, r ∈ reorderBatch batch ->
    w_id r ∈ map fst (rb_done s) \/ cell_of (rb_cells s) (w_id r) = reqCancelled).
  2:{ destruct Hall as [H1 H2]. split; [done|]. intros r Hr. apply H2. by rewrite Hperm. }
  unfold ref_batch in Eb. destruct (ref_loop conn_Write (reorderBatch batch) (mkRB conn [] cells [] [])) as [e0 s0] eqn:El.
  apply ref_loop_accounted in El as (kept & Ek & Hsub & Hp & Hin);
    [|by rewrite (Permutation_map w_id Hperm)|by rewrite Hperm].
  assert (Hndk : NoDup (accounted s0)).
  { rewrite Ek. unfold accounted. simpl. eapply sublist_NoDup; [|exact Hsub].
    by rewrite (Permutation_map w_id Hperm). }
  assert (Hend : map fst (rb_done s) = accounted s0 /\ rb_cells s = rb_cells s0).
  { destruct e0 as [e0|].
    - injection Eb as <- <-. unfold accounted. rewrite Hp by done. by rewrite app_nil_r.
    - destruct (rb_pend s0) eqn:Ep.
      + injection Eb as <- <-. unfold accounted. rewrite Ep. by rewrite app_nil_r.
      + apply ref_flush_accounted in Eb as (_ & _ & -> & ->). done. }
  destruct Hend as [-> ->]. split; [done|]. intros r Hr. rewrite Ek. unfold accounted. simpl. by apply Hin.
Qed.

(** A connection that fails on its second write. *)
Definition flaky_Write (c : nat) (p : list Z) : (Z * option err) * nat :=
  (match c with O => (zlen p, None) | _ => (1, Some (ESocket 5)) end, S c).

Lemma writeBatch_answers_witness :
  exists e st, writeBatch flaky_Write 1%nat {[1%nat := reqCancelled]} demo_batch = (Ret e, st) /\
    NoDup (map fst (wb_done st)) /\
    forall r, r ∈ demo_batch ->
      w_id r ∈ map fst (wb_done st) \/ cell_of (wb_cells st) (w_id r) = reqCancelled.
Proof.
  apply (writeBatch_answers flaky_Write 1%nat {[1%nat := reqCancelled]} demo_batch).
  - repeat constructor; set_solver.
  - repeat constructor.
  - repeat constructor; vm_compute; discriminate.
Defined.

(** ** Glued pairs share a flush *)

Section Glue.
Context {C : Type} (conn_Write : C -> list Z -> (Z * option err) * C).
Hypothesis writes_all : forall c p, fst (conn_Write c p) = (zlen p, None).

(** [b] follows [a] in some group of [l]. *)
Definition adjacent_in (a b : writeRequest) (l : list (list writeRequest)) : Prop :=
  exists g pre post, g ∈ l /\ g = pre ++ a :: b :: post.

Lemma adjacent_in_app a b l k : adjacent_in a b l -> adjacent_in a b (l ++ k).
Proof. intros (g & pre & post & Hg & E). exists g, pre, post. set_solver. Qed.

Definition adjacent (a b : writeRequest) (s : RB (C:=C)) : Prop :=
  adjacent_in a b (rb_groups s ++ [rb_pend s]).

Lemma adjacent_flush a b s :
  adjacent a b s -> adjacent a b (snd (ref_flush conn_Write s)).
Proof.
  intros H. destruct (ref_flush_all conn_Write writes_all s) as [c ->]. by apply adjacent_in_app.
Qed.

Lemma adjacent_take a b s r : adjacent a b s -> adjacent a b (ref_take s r).
Proof.
  unfold adjacent, ref_take. destruct (claim (rb_cells s) r) as [[] cells']; simpl; [|done].
  intros (g & pre & post & Hg & E). apply elem_of_app in Hg as [Hg|Hg].
  - exists g, pre, post. set_solver.
  - apply list_elem_of_singleton in Hg. subst g. exists (rb_pend s ++ [r]), pre, (post ++ [r]).
    split; [set_solver|]. rewrite E. by rewrite <- app_assoc.
Qed.

Lemma adjacent_loop a b reqs s :
  adjacent a b s -> adjacent a b (snd (ref_loop conn_Write reqs s)).
Proof.
  revert s. induction reqs as [|r rest IH]; intros s H; simpl; [done|].
  destruct (ref_need_flush s r rest).
  - pose proof (adjacent_flush a b s H) as Hf.
    destruct (ref_flush_all conn_Write writes_all s) as [c Ef]. rewrite Ef in *.
    apply IH. by apply adjacent_take.
  - apply IH. by apply adjacent_take.
Qed.

Lemma ref_loop_app l1 l2 s :
  (forall r, head l2 = Some r -> w_glue r = false) ->
  ref_loop conn_Write (l1 ++ l2) s = ref_loop conn_Write l2 (snd (ref_loop conn_Write l1 s)).
Proof.
  intros Hh. revert s. induction l1 as [|r l1 IH]; intros s; simpl; [done|].
  replace (ref_need_flush s r (l1 ++ l2)) with (ref_need_flush s r l1).
  2:{ unfold ref_need_flush. do 2 f_equal. destruct l1; [|done]. simpl. unfold wb_need.
      destruct (head l2) as [q|] eqn:E; [|done]. by rewrite (Hh q). }
  destruct (ref_need_flush s r l1); [|apply IH].
  destruct (ref_flush_all conn_Write writes_all s) as [c ->]. apply IH.
Qed.

Lemma ref_take_cells s r id :
  w_id r <> id -> cell_of (rb_cells (C:=C) (ref_take s r)) id = cell_of (rb_cells s) id.
Proof.
  intros H. unfold ref_take. pose proof (claim_other (rb_cells s) r id H).
  by destruct (claim (rb_cells s) r).
Qed.

Lemma ref_loop_cells reqs s id :
  id ∉ map w_id reqs ->
  cell_of (rb_cells (snd (ref_loop conn_Write reqs s))) id = cell_of (rb_cells s) id.
Proof.
  revert s. induction reqs as [|r rest IH]; intros s Hid; simpl; [done|].
  simpl in Hid. apply not_elem_of_cons in Hid as [H1 H2].
  destruct (ref_need_flush s r rest).
  - destruct (ref_flush_all conn_Write writes_all s) as [c ->].
    rewrite IH by done. by rewrite ref_take_cells.
  - rewrite IH by done. by rewrite ref_take_cells.
Qed.

(** After the writer has seen [a] and the glued [b], both are in the pending
    group. *)
Lemma ref_pair a b l2 s :
  w_glue b = true -> (forall r, head l2 = Some r -> w_glue r = false) ->
  req_size a + req_size b <= maxWriteBatch -> w_id a <> w_id b ->
  cell_of (rb_cells s) (w_id a) = reqQueued -> cell_of (rb_cells s) (w_id b) = reqQueued ->
  exists s', ref_loop conn_Write (a :: b :: l2) s = ref_loop conn_Write l2 s' /\ adjacent a b s'.
Proof.
  intros Hb Hh Hsz Hab Hqa Hqb.
  assert (Hmain : forall s1, rb_cells s1 = rb_cells s ->
    sizes (rb_pend s1) = 0 \/ sizes (rb_pend s1) + (req_size a + req_size b) <= maxWriteBatch ->
    exists s', ref_loop conn_Write (b :: l2) (ref_take s1 a) = ref_loop conn_Write l2 s' /\
      adjacent a b s').
  { intros s1 Hc Hfit. exists (ref_take (ref_take s1 a) b).
    pose proof (ref_take_cells s1 a (w_id b) Hab) as Hcb. rewrite Hc, Hqb in Hcb.
    assert (Ha : rb_pend (ref_take s1 a) = rb_pend s1 ++ [a]).
    { unfold ref_take. rewrite <- Hc in Hqa. apply claim_queued in Hqa.
      destruct (claim (rb_cells s1) a). simpl in *. by rewrite Hqa. }
    assert (Hbp : rb_pend (ref_take (ref_take s1 a) b) = rb_pend s1 ++ [a] ++ [b]).
    { unfold ref_take at 1. apply claim_queued in Hcb. destruct (claim _ b). simpl in *.
      rewrite Hcb, Ha. by rewrite <- app_assoc. }
    split.
    - simpl. replace (ref_need_flush (ref_take s1 a) b l2) with false; [done|]. symmetry.
      unfold ref_need_flush. rewrite Ha, sizes_snoc. apply andb_false_iff. right. apply Z.ltb_ge.
      replace (wb_need b (head l2)) with (req_size b); [lia|]. unfold wb_need.
      destruct (head l2) as [q|] eqn:E; [|done]. by rewrite (Hh q).
    - exists (rb_pend s1 ++ [a] ++ [b]), (rb_pend s1), []. split; [|done]. rewrite Hbp. set_solver. }
  cbn [ref_loop]. destruct (ref_need_flush s a (b :: l2)) eqn:Hn.
  - destruct (ref_flush_all conn_Write writes_all s) as [c ->]. apply Hmain; [done|].
    simpl. rewrite sizes_nil. by left.
  - apply Hmain; [done|]. unfold ref_need_flush, wb_need in Hn. simpl in Hn. rewrite Hb in Hn.
    apply andb_false_iff in Hn as [Hn|Hn]; zify_bool; [left|right; lia].
    pose proof (sizes_nonneg (rb_pend s)). lia.
Qed.

Lemma ref_batch_glue conn cells l1 a b l2 :
  w_glue a = false -> w_glue b = true -> (forall r, head l2 = Some r -> w_glue r = false) ->
  req_size a + req_size b <= maxWriteBatch ->
  NoDup (map w_id (l1 ++ a :: b :: l2)) ->
  cell_of cells (w_id a) = reqQueued -> cell_of cells (w_id b) = reqQueued ->
  adjacent_in a b (rb_groups (snd (ref_batch conn_Write conn cells (l1 ++ a :: b :: l2)))).
Proof.
  intros Ha Hb Hh Hsz Hnd Hqa Hqb. rewrite map_app in Hnd. simpl in Hnd.
  apply NoDup_app in Hnd as (_ & Hd & Hnd). apply NoDup_cons in Hnd as [Hab _].
  assert (H1 : w_id a ∉ map w_id l1) by (intros H; apply (Hd _ H); set_solver).
  assert (H2 : w_id b ∉ map w_id l1) by (intros H; apply (Hd _ H); set_solver).
  unfold ref_batch. set (s0 := mkRB conn [] cells [] []).
  rewrite ref_loop_app by (intros r [= <-]; done).
  set (s1 := snd (ref_loop conn_Write l1 s0)).
  destruct (ref_pair a b l2 s1) as (s2 & -> & Hadj); try done; [set_solver|..].
  { subst s1. by rewrite ref_loop_cells. }
  { subst s1. by rewrite ref_loop_cells. }
  apply (adjacent_loop a b l2) in Hadj.
  destruct (ref_loop_all conn_Write writes_all l2 s2) as (s3 & E & _). rewrite E in *. simpl in *.
  destruct (rb_pend s3) as [|q p] eqn:Ep.
  - simpl. unfold adjacent in Hadj. rewrite Ep in Hadj. destruct Hadj as (g & pre & post & Hg & Eg).
    exists g, pre, post. split; [|done]. apply elem_of_app in Hg as [Hg|Hg]; [done|].
    apply list_elem_of_singleton in Hg. subst g. by destruct pre.
  - destruct (ref_flush_all conn_Write writes_all s3) as [c Ef]. rewrite Ef. done.
Qed.
End Glue.

(** Requests are glued the way [writeGroup] queues them: a glued request comes
    directly behind a bulk request that is not glued. *)
Definition glue_ok (batch : list writeRequest) : Prop :=
  forall q, q ∈ batch -> w_glue q = true ->
    w_class q = CLSDATA /\
    exists m1 p m2, batch = m1 ++ p :: q :: m2 /\ w_class p = CLSDATA /\ w_glue p = false.

Lemma glue_ok_next batch k1 b k2 :
  glue_ok batch -> NoDup (map w_id batch) -> w_glue b = true ->
  reorderBatch batch = k1 ++ b :: k2 -> forall r, head k2 = Some r -> w_glue r = false.
Proof.
  intros Hok Hnd Hb Ek r Hr. destruct (w_glue r) eqn:Hg; [|done]. exfalso.
  destruct k2 as [|r' k2]; [done|]. injection Hr as ->.
  pose proof (reorderBatch_perm batch) as Hperm.
  assert (Hin : r ∈ batch) by (rewrite <- Hperm, Ek; set_solver).
  destruct (Hok r Hin Hg) as (Hcr & m1 & p & m2 & Em & Hcp & Hgp).
  destruct (partition_order_segment m1 [p; r] m2) as (n1 & n2 & En); [by repeat constructor|].
  change ([p; r] ++ m2) with (p :: r :: m2) in En. rewrite <- Em, Ek in En.
  change (n1 ++ [p; r] ++ n2) with (n1 ++ [p] ++ r :: n2) in En. rewrite app_assoc in En.
  change (k1 ++ b :: r :: k2) with (k1 ++ [b] ++ r :: k2) in En. rewrite app_assoc in En.
  apply NoDup_middle in En as [En _].
  - apply app_inj_tail in En as [_ ->]. congruence.
  - rewrite <- app_assoc. change (k1 ++ [b] ++ r :: k2) with (k1 ++ b :: r :: k2). rewrite <- Ek.
    rewrite Hperm. apply NoDup_ListNoDup. apply NoDup_ListNoDup in Hnd. by apply NoDup_map_inv in Hnd.
Qed.

(** A PAD glued to a PSH is written in the same [conn.Write], right behind
    it: padding never travels alone in a TLS record, whatever else the batch
    holds. *)
Lemma writeBatch_glue {C} (conn_Write : C -> list Z -> (Z * option err) * C) conn cells l1 a b l2 :
  (forall c p, fst (conn_Write c p) = (zlen p, None)) ->
  Forall (fun r => zlen (f_data (w_frame r)) < 65536) (l1 ++ a :: b :: l2) ->
  NoDup (map w_id (l1 ++ a :: b :: l2)) -> glue_ok (l1 ++ a :: b :: l2) ->
  w_class a = CLSDATA -> w_class b = CLSDATA -> w_glue a = false -> w_glue b = true ->
  req_size a + req_size b <= maxWriteBatch ->
  cell_of cells (w_id a) = reqQueued -> cell_of cells (w_id b) = reqQueued ->
  exists chunk pre post,
    chunk ∈ wb_wire (snd (writeBatch conn_Write conn cells (l1 ++ a :: b :: l2))) /\
    chunk = pre ++ encode_frame (w_frame a) ++ encode_frame (w_frame b) ++ post.
Proof.
  intros Hw Hf Hnd Hglue Hca Hcb Hga Hgb Hsz Hqa Hqb.
  destruct (partition_order_segment l1 [a; b] l2) as (k1 & k2 & Ek); [by repeat constructor|].
  change ([a; b] ++ l2) with (a :: b :: l2) in Ek.
  set (batch := l1 ++ a :: b :: l2) in *. change ([a; b] ++ k2) with (a :: b :: k2) in Ek.
  pose proof (writeBatch_refines conn_Write conn cells batch) as Href.
  destruct (writeBatch conn_Write conn cells batch) as [e st].
  pose proof (reorderBatch_perm batch) as Hperm.
  assert (Hnext : forall r, head k2 = Some r -> w_glue r = false).
  { apply (glue_ok_next batch (k1 ++ [a]) b k2 Hglue Hnd Hgb). by rewrite <- app_assoc. }
  rewrite Ek in Hperm, Href.
  assert (Hndk : NoDup (map w_id (k1 ++ a :: b :: k2))) by (by rewrite (Permutation_map w_id Hperm)).
  pose proof (ref_batch_glue conn_Write Hw conn cells k1 a b k2 Hga Hgb Hnext Hsz Hndk Hqa Hqb) as Hadj.
  destruct (ref_batch conn_Write conn cells (k1 ++ a :: b :: k2)) as [e' s].
  destruct Href as (_ & _ & Hwire & _).
  { eapply Forall_impl; [exact Hf|]. intros r Hr. unfold req_size, maxWriteBatch, headerSize.
    change (Z.shiftl 1 16) with 65536. simpl in Hr. lia. }
  destruct Hadj as (g & pre & post & Hg & Eg).
  exists (wire_of g), (wire_of pre), (wire_of post). simpl. rewrite Hwire. split; [by apply elem_of_map_2|].
  rewrite Eg, wire_of_app. unfold wire_of at 2. cbn [map concat]. done.
Qed.

Lemma writeBatch_glue_witness :
  let a := mkReq CLSDATA (mkFrame 2 cmdPSH 3 [10; 11; 12]) 1 0 false true in
  let b := mkReq CLSDATA (mkFrame 2 cmdPAD 3 [0; 0]) 2 1 true true in
  exists chunk pre post,
    chunk ∈ wb_wire (snd (writeBatch sink_Write 0 ∅ ([] ++ a :: b :: [demo_req CLSCTRL 5 2]))) /\
    chunk = pre ++ encode_frame (w_frame a) ++ encode_frame (w_frame b) ++ post.
Proof.
  intros a b. apply (writeBatch_glue sink_Write 0 ∅ [] a b [demo_req CLSCTRL 5 2]);
    try reflexivity.
  - repeat constructor.
  - simpl. repeat constructor; set_solver.
  - intros q Hq Hg. simpl in Hq. rewrite !elem_of_cons, elem_of_nil in Hq.
    destruct Hq as [->|[->|[->|[]]]]; try discriminate Hg.
    split; [reflexivity|]. exists [], a, [demo_req CLSCTRL 5 2]. repeat split.
  - vm_compute. discriminate.
Defined.
