(* ===== verification/SmuxCancel.v ===== *)
(** * drophaul smux: padding and cancellation

    The shape of padded writes ([pad.go]), what a timed-out write reports
    ([abandon]), and the race between [sendLoop], which claims and copies the
    payload of queued requests, and a waiter that gives up and hands the buffer
    back to its caller: a step relation over all interleavings. *)

From S2P Require Import Prelude SmuxFrame SmuxWrite.

(** ** Padded writes *)

(** Payload bytes of the non-PAD requests. *)
Definition psh_bytes (reqs : list writeRequest) : Z :=
  foldr (fun r acc => (if f_cmd (w_frame r) =? cmdPAD then 0 else zlen (f_data (w_frame r))) + acc) 0 reqs.

Lemma psh_frames_spec fuel ver sid fs data :
  1 <= fs -> (length data <= fuel)%nat ->
  concat (map f_data (psh_frames fuel ver sid fs data)) = data /\
  Forall (fun f => f_ver f = ver /\ f_cmd f = cmdPSH /\ f_sid f = sid /\ 1 <= zlen (f_data f) <= fs)
    (psh_frames fuel ver sid fs data).
Proof.
  intros Hfs. revert data. induction fuel as [|fuel IH]; intros data Hl; cbn [psh_frames].
  { destruct data; [split; constructor|simpl in Hl; lia]. }
  pose proof (zlen_nonneg data). destruct (zlen data <=? 0) eqn:E; zify_bool.
  { rewrite (zlen_zero_nil data) by lia. split; constructor. }
  set (sz := if fs <? zlen data then fs else zlen data).
  assert (Hsz : 1 <= sz <= fs /\ sz <= zlen data) by (subst sz; case_ifs; lia).
  destruct (IH (zdrop sz data)) as [IH1 IH2].
  { unfold zdrop. rewrite length_drop. lia. }
  simpl. rewrite IH1, ztake_zdrop. split; [done|]. constructor; [|done]. simpl.
  rewrite zlen_ztake by lia. repeat split; lia.
Qed.

(** A padded write sends exactly its payload in PSH frames of at most
    [frameSize] bytes, followed by at most one PAD, and the PAD fits into one
    batch together with the last PSH; every length fits the 16-bit field. *)
Lemma padGroup_shape padBytes version fs sid data pad :
  1 <= fs <= 65535 -> pad <= maxPadLen -> zlen padBytes = maxPadLen ->
  exists psh padding, padGroup padBytes version fs sid data pad = psh ++ padding /\
    concat (map f_data psh) = data /\
    Forall (fun f => f_cmd f = cmdPSH /\ f_sid f = sid /\ 1 <= zlen (f_data f) <= fs) psh /\
    (padding = [] \/ exists f, padding = [f] /\ f_cmd f = cmdPAD /\ 1 <= zlen (f_data f) <= pad /\
       forall g, last psh = Some g ->
         (headerSize + zlen (f_data g)) + (headerSize + zlen (f_data f)) <= maxWriteBatch).
Proof.
  intros Hfs Hpad Hpb. unfold padGroup.
  destruct (psh_frames_spec (length data) (u8 version) sid fs data) as [H1 H2]; [lia|lia|].
  set (psh := psh_frames _ _ _ _ _) in *.
  set (ll := match last psh with Some f => _ | None => 0 end).
  assert (Hll : 0 <= ll <= fs).
  { subst ll. destruct (last psh) as [g|] eqn:E; [|lia]. apply last_Some in E as (l & E).
    rewrite E, Forall_app, Forall_singleton in H2. destruct H2 as [_ H2]. lia. }
  set (room := maxWriteBatch - 2 * headerSize - ll).
  set (p := if room <? pad then room else pad).
  assert (Hroom : room = 65528 - ll) by (subst room; reflexivity || (unfold maxWriteBatch, headerSize; change (Z.shiftl 1 16) with 65536; lia)).
  assert (Hp : p <= pad /\ p <= room) by (subst p; case_ifs; lia).
  exists psh, (if 0 <? p then [mkFrame (u8 version) cmdPAD sid (ztake p padBytes)] else []).
  split; [by destruct (0 <? p); rewrite ?app_nil_r|]. split; [done|]. split.
  { eapply Forall_impl; [exact H2|]. simpl. tauto. }
  destruct (0 <? p) eqn:E; zify_bool; [right|by left]. eexists. split; [done|]. simpl.
  rewrite zlen_ztake, Hpb by lia. change maxPadLen with 1400 in *. split; [done|]. split; [lia|].
  intros g Hg. assert (ll = zlen (f_data g)) by (subst ll; by rewrite Hg).
  unfold maxWriteBatch, headerSize. change (Z.shiftl 1 16) with 65536. lia.
Qed.

Lemma padGroup_shape_witness :
  (1 <= 4 <= 65535 /\ 3 <= maxPadLen /\ zlen (replicate 1400 7) = maxPadLen) /\
  exists psh padding, padGroup (replicate 1400 7) 2 4 3 [1; 2; 3; 4; 5; 6] 3 = psh ++ padding /\
    concat (map f_data psh) = [1; 2; 3; 4; 5; 6] /\
    Forall (fun f => f_cmd f = cmdPSH /\ f_sid f = 3 /\ 1 <= zlen (f_data f) <= 4) psh /\
    (padding = [] \/ exists f, padding = [f] /\ f_cmd f = cmdPAD /\ 1 <= zlen (f_data f) <= 3 /\
       forall g, last psh = Some g ->
         (headerSize + zlen (f_data g)) + (headerSize + zlen (f_data f)) <= maxWriteBatch).
Proof.
  assert (H : 1 <= 4 <= 65535 /\ 3 <= maxPadLen /\ zlen (replicate 1400 7) = maxPadLen)
    by (split; [lia|split; [vm_compute; discriminate|reflexivity]]).
  split; [exact H|]. destruct H as (H1 & H2 & H3).
  exact (padGroup_shape (replicate 1400 7) 2 4 3 [1; 2; 3; 4; 5; 6] 3 H1 H2 H3).
Defined.

(** The pads of the successive writes of one stream. *)
Fixpoint pad_run (padding : bool) (padWrites : Z) (intn : nat -> Z -> Z) (i : nat) (writes : list Z) : list Z :=
  match writes with
  | [] => []
  | n :: rest =>
      let '(p, pw) := padLen padding padWrites (intn i) n in
      p :: pad_run padding pw intn (S i) rest
  end.

Lemma padLen_spec padding pw intn n :
  0 <= pw <= 8 -> (forall k, 0 < k -> 0 <= intn k < k) -> 0 <= n ->
  let '(p, pw') := padLen padding pw intn n in
  0 <= pw' <= 8 /\ 0 <= p <= maxPadLen /\
  (p <> 0 -> pw' = pw + 1 /\ padding = true) /\
  (pw = 8 -> pw' = 8) /\
  (padding = true -> pw < 8 -> pw' = pw + 1 /\
     if n <? padTarget then padTarget <= n + p < padTarget + padSmallJitter else p < padLargeJitter).
Proof.
  intros Hpw Hr Hn. pose proof (Hr padSmallJitter ltac:(reflexivity)) as H1.
  pose proof (Hr padLargeJitter ltac:(reflexivity)) as H2.
  unfold padLen. rewrite u32_small by lia.
  unfold padWritesPerStream, maxPadLen, padTarget, padSmallJitter, padLargeJitter in *.
  destruct padding; simpl; [|repeat split; try lia; done].
  destruct (8 <=? pw) eqn:E1; zify_bool; [repeat split; try lia; done|].
  destruct (8 <? pw + 1) eqn:E2; zify_bool; [lia|].
  destruct (n <? 900) eqn:E3; zify_bool; repeat split; lia.
Qed.

(** Only the first [padWritesPerStream] writes of a stream are padded, each
    small one up to a length in [[padTarget, padTarget + padSmallJitter)], and
    without [Padding] none is. *)
Lemma pad_run_bounds padding intn writes :
  (forall i k, 0 < k -> 0 <= intn i k < k) -> Forall (fun n => 0 <= n) writes ->
  let pads := pad_run padding 0 intn 0 writes in
  length pads = length writes /\
  Forall (fun p => 0 <= p <= maxPadLen) pads /\
  (padding = false -> Forall (fun p => p = 0) pads) /\
  Forall (fun p => p = 0) (drop 8 pads) /\
  (padding = true -> forall i n p, writes !! i = Some n -> pads !! i = Some p -> (i < 8)%nat ->
     n < padTarget -> padTarget <= n + p < padTarget + padSmallJitter).
Proof.
  intros Hr Hw. cbv zeta.
  assert (Hgen : forall pw i, 0 <= pw <= 8 ->
    let pads := pad_run padding pw intn i writes in
    length pads = length writes /\ Forall (fun p => 0 <= p <= maxPadLen) pads /\
    (padding = false -> Forall (fun p => p = 0) pads) /\
    Forall (fun p => p = 0) (drop (Z.to_nat (8 - pw)) pads) /\
    (padding = true -> forall j n p, writes !! j = Some n -> pads !! j = Some p ->
       Z.of_nat j < 8 - pw -> n < padTarget -> padTarget <= n + p < padTarget + padSmallJitter)).
  2:{ destruct (Hgen 0 0%nat) as (H1 & H2 & H3 & H4 & H5); [lia|]. repeat (split; [assumption|]).
      intros Hp j n p Hj Hq Hlt Ht. apply (H5 Hp j n p Hj Hq); [lia|done]. }
  induction Hw as [|n rest Hn Hw IH]; intros pw i Hpw; simpl.
  { rewrite drop_nil. repeat split; try constructor; done. }
  pose proof (padLen_spec padding pw (intn i) n Hpw (Hr i) Hn) as Hs.
  destruct (padLen padding pw (intn i) n) as [p pw']. destruct Hs as (S1 & S2 & S3 & S8 & S4).
  destruct (IH pw' (S i) S1) as (H1 & H2 & H3 & H4 & H5). simpl. split; [by rewrite H1|].
  split; [by constructor|]. split.
  { intros ->. constructor; [|by apply H3]. destruct (decide (p = 0)); [done|]. by destruct (S3 n0) as [_ ?]. }
  destruct (decide (pw = 8)) as [->|Hne].
  - rewrite (S8 eq_refl) in *. assert (p = 0) as -> by (destruct (decide (p = 0)); [done|destruct (S3 n0); lia]).
    split; [by constructor|]. intros _ j m q _ _ Hj. lia.
  - replace (Z.to_nat (8 - pw)) with (S (Z.to_nat (8 - (pw + 1)))) by lia. simpl. split.
    + destruct padding; [|apply Forall_drop; by apply H3]. destruct S4 as [-> _]; [done|lia|done].
    + intros Hpad [|j] m q Hm Hq Hj Hmt; simpl in *.
      * injection Hm as <-. injection Hq as <-. destruct (S4 Hpad ltac:(lia)) as [_ S4'].
        by rewrite (proj2 (Z.ltb_lt n padTarget)) in S4'.
      * apply (H5 Hpad j m q Hm Hq); [|done]. destruct (S4 Hpad ltac:(lia)) as [-> _]. lia.
Qed.


(** ** What a write that gave up reports *)

Lemma cas_queued cells id new :
  cell_of cells id = reqQueued -> cas cells id reqQueued new = (true, <[id := new]> cells).
Proof. intros H. unfold cas. by rewrite decide_True. Qed.

Lemma cell_of_set cells i v j :
  cell_of (<[i := v]> cells) j = if decide (i = j) then v else cell_of cells j.
Proof. unfold cell_of. rewrite lookup_insert. by destruct (decide (i = j)). Qed.

(** The cancellation loop stops at the last claimed request. *)
Lemma cancel_tail_spec l1 l2 cells :
  NoDup (map w_id (l1 ++ l2)) ->
  (forall r, last l1 = Some r -> cell_of cells (w_id r) <> reqQueued) ->
  Forall (fun r => cell_of cells (w_id r) = reqQueued) l2 ->
  let '(claimed, cells') := cancel_tail (rev (l1 ++ l2)) cells in
  claimed = length l1 /\
  forall id, cell_of cells' id = if decide (id ∈ map w_id l2) then reqCancelled else cell_of cells id.
Proof.
  revert cells. induction l2 as [|r l2 IH] using rev_ind; intros cells Hnd Hl Hq.
  - rewrite app_nil_r. destruct l1 as [|x l1 _] using rev_ind; simpl; [done|].
    rewrite rev_app_distr. simpl. unfold cas. rewrite decide_False by (apply Hl; by rewrite last_snoc).
    rewrite length_app, length_rev. simpl. split; [lia|done].
  - rewrite app_assoc, map_app in Hnd. apply NoDup_app in Hnd as (Hnd & Hd & _).
    apply Forall_app in Hq as [Hq Hr]. rewrite Forall_singleton in Hr.
    assert (Hni : w_id r ∉ map w_id (l1 ++ l2)) by (intros H; apply (Hd _ H); set_solver).
    rewrite app_assoc, rev_app_distr. cbn [rev app cancel_tail]. rewrite (cas_queued cells (w_id r)) by exact Hr.
    specialize (IH (<[w_id r := reqCancelled]> cells) Hnd).
    destruct (cancel_tail (rev (l1 ++ l2)) _) as [c cells'] eqn:E. destruct IH as [-> IH].
    + intros q Hlast. rewrite cell_of_set, decide_False; [by apply Hl|]. intros Eq. apply Hni.
      rewrite Eq. apply elem_of_map_2. apply last_Some in Hlast as (k & ->). set_solver.
    + rewrite Forall_forall in *. intros q Hin. rewrite cell_of_set, decide_False; [by apply Hq|].
      intros Eq. apply Hni. rewrite Eq. apply elem_of_map_2. set_solver.
    + split; [done|]. intros id. rewrite IH, map_app, cell_of_set. simpl.
      repeat case_decide; subst; try done; set_solver.
Qed.

Lemma collect_claimed results l1 sent :
  Forall (fun r => results !! w_id r = None \/
                   results !! w_id r = Some (zlen (f_data (w_frame r)), None)) l1 ->
  collect results ETimeout l1 sent = (sent + psh_bytes l1, None).
Proof.
  intros H. revert sent. induction H as [|r l1 Hr _ IH]; intros sent; [by rewrite Z.add_0_r|].
  unfold psh_bytes. cbn [collect foldr]. fold (psh_bytes l1).
  destruct Hr as [-> | ->]; rewrite ?decide_True by done; rewrite IH;
    destruct (f_cmd (w_frame r) =? cmdPAD); f_equal; lia.
Qed.

(** A write that times out while [l1] is already claimed by the sender and
    [l2] is still queued takes all of [l2] back, reports exactly the payload
    bytes of [l1] (those that go to the socket), and succeeds only if no
    payload was left behind. *)
Lemma abandon_timeout results cells l1 l2 sent :
  NoDup (map w_id (l1 ++ l2)) ->
  Forall (fun r => cell_of cells (w_id r) <> reqQueued) l1 ->
  Forall (fun r => cell_of cells (w_id r) = reqQueued) l2 ->
  Forall (fun r => results !! w_id r = None \/
                   results !! w_id r = Some (zlen (f_data (w_frame r)), None)) l1 ->
  let '((n, e), cells') := abandon results cells (l1 ++ l2) sent ETimeout in
  n = sent + psh_bytes l1 /\
  (e = None <-> l1 <> [] /\ Forall (fun r => f_cmd (w_frame r) = cmdPAD) l2) /\
  (e = None \/ e = Some ETimeout) /\
  (forall id, cell_of cells' id = if decide (id ∈ map w_id l2) then reqCancelled else cell_of cells id).
Proof.
  intros Hnd Hc Hq Hres. unfold abandon.
  pose proof (cancel_tail_spec l1 l2 cells Hnd) as Hspec.
  destruct (cancel_tail (rev (l1 ++ l2)) cells) as [claimed cells']. destruct Hspec as [-> Hcells]; [|done|].
  { intros r Hr. apply last_Some in Hr as (k & ->). rewrite Forall_app, Forall_singleton in Hc. tauto. }
  destruct (length l1 =? 0)%nat eqn:El; zify_bool.
  { apply Nat.eqb_eq, length_zero_iff_nil in El as ->. simpl. rewrite Z.add_0_r.
    split; [done|]. split; [|by split; [right|]]. split; [done|]. by intros []. }
  apply Nat.eqb_neq in El. rewrite take_app_length, drop_app_length, collect_claimed by done.
  destruct (existsb _ l2) eqn:Ex.
  - split; [done|]. split; [|by split; [right|]]. split; [done|]. intros [_ Hpad]. exfalso.
    apply existsb_exists in Ex as (r & Hin & Hr). rewrite Forall_forall in Hpad.
    apply list_elem_of_In in Hin. rewrite (Hpad r Hin) in Hr. done.
  - split; [done|]. split; [|by split; [left|]]. split; [|done]. intros _.
    split; [by intros ->|]. apply Forall_forall. intros r Hin.
    destruct (f_cmd (w_frame r) =? cmdPAD) eqn:Ep; [by zify_bool|]. exfalso.
    assert (existsb (fun r => negb (f_cmd (w_frame r) =? cmdPAD)) l2 = true); [|congruence].
    apply existsb_exists. exists r. rewrite Ep. by apply list_elem_of_In in Hin.
Qed.

Lemma abandon_timeout_witness :
  let a := mkReq CLSDATA (mkFrame 2 cmdPSH 3 [10; 11; 12]) 1 0 false true in
  let b := mkReq CLSDATA (mkFrame 2 cmdPAD 3 [0; 0]) 2 1 true true in
  let '((n, e), cells') := abandon ∅ {[0%nat := reqCopying]} ([a] ++ [b]) 0 ETimeout in
  n = 0 + psh_bytes [a] /\
  (e = None <-> [a] <> [] /\ Forall (fun r => f_cmd (w_frame r) = cmdPAD) [b]) /\
  (e = None \/ e = Some ETimeout) /\
  (forall id, cell_of cells' id
     = if decide (id ∈ map w_id [b]) then reqCancelled else cell_of {[0%nat := reqCopying]} id).
Proof.
  intros a b. apply (abandon_timeout ∅ {[0%nat := reqCopying]} [a] [b] 0).
  - simpl. repeat constructor; set_solver.
  - repeat constructor. vm_compute. discriminate.
  - repeat constructor.
  - repeat constructor.
Defined.

(** ** The race between [sendLoop] and a waiter that gives up *)

(** State of one request of the group: the three values of the state cell,
    with [reqCopying] split by whether the payload copy is finished. *)
Inductive cell : Type := Queued | Claimed | Copied | Cancelled.

#[export] Instance cell_eq_dec : EqDecision cell.
Proof. solve_decision. Defined.

(** The waiter: blocked in its [select]; in the cancellation loop, about to
    look at request [j - 1]; at [copyMu.Lock()] with [claimed] requests; back
    in its caller, which may reuse the buffer. *)
Inductive waiter : Type :=
| Waiting | Cancelling (j : nat) | AtBarrier (claimed : nat) | Returned (claimed : nat).

(** [p_next] is the next request of the group [sendLoop] looks at, [p_copyMu]
    whether it holds [copyMu]. *)
Record proto := mkProto {
  p_cells : list cell; p_next : nat; p_copyMu : bool; p_waiter : waiter
}.

(** One group of [k] requests, in queue order: the claims and copies of
    [writeBatch] under [copyMu] against the cancellation loop and the barrier of
    [abandon].
    @go transport/drophaul/smux/session.go:777-790 Session.abandon *)
Inductive proto_step : proto -> proto -> Prop :=
| send_lock cs w q : proto_step (mkProto cs w false q) (mkProto cs w true q)
(** [copyMu] is released before a flush and at the end, never between the claim
    and the copy of a request. *)
| send_unlock cs w q :
    cs !! w <> Some Claimed -> proto_step (mkProto cs w true q) (mkProto cs w false q)
| send_claim cs w q :
    cs !! w = Some Queued ->
    proto_step (mkProto cs w true q) (mkProto (<[w := Claimed]> cs) w true q)
| send_copy cs w q :
    cs !! w = Some Claimed ->
    proto_step (mkProto cs w true q) (mkProto (<[w := Copied]> cs) (S w) true q)
| send_skip cs w q :
    cs !! w = Some Cancelled ->
    proto_step (mkProto cs w true q) (mkProto cs (S w) true q)
| wait_give_up cs w l :
    proto_step (mkProto cs w l Waiting) (mkProto cs w l (Cancelling (length cs)))
| wait_cancel cs w l j :
    cs !! j = Some Queued ->
    proto_step (mkProto cs w l (Cancelling (S j)))
               (mkProto (<[j := Cancelled]> cs) w l (Cancelling j))
| wait_lose cs w l j :
    cs !! j = Some Claimed \/ cs !! j = Some Copied ->
    proto_step (mkProto cs w l (Cancelling (S j))) (mkProto cs w l (AtBarrier (S j)))
| wait_none cs w l :
    proto_step (mkProto cs w l (Cancelling O)) (mkProto cs w l (Returned O))
(** [copyMu.Lock(); copyMu.Unlock()]: only when [sendLoop] does not hold it. *)
| wait_barrier cs w n :
    proto_step (mkProto cs w false (AtBarrier n)) (mkProto cs w false (Returned n)).

(** A freshly queued group. *)
Definition proto_init (k : nat) : proto := mkProto (replicate k Queued) 0 false Waiting.

(** [a] requests copied, at most one being copied, [q] queued, [c] cancelled. *)
Definition shape (a : nat) (busy : bool) (q c : nat) : list cell :=
  replicate a Copied ++ (if busy then [Claimed] else []) ++ replicate q Queued ++ replicate c Cancelled.

Definition busy_nat (busy : bool) : nat := if busy then 1%nat else 0%nat.

(** The claimed requests form a prefix and the cancelled ones a suffix; the
    waiter's position agrees with the shape. *)
Inductive proto_inv : proto -> Prop :=
| proto_inv_intro a busy q c w l wt :
    (w = a \/ (busy = false /\ q = O /\ (a <= w)%nat)) ->
    (busy = true -> l = true) ->
    match wt with
    | Waiting => c = O
    | Cancelling j => (j = a + busy_nat busy + q)%nat
    | AtBarrier n => q = O /\ (n = a + busy_nat busy)%nat
    | Returned n => q = O /\ busy = false /\ n = a
    end ->
    proto_inv (mkProto (shape a busy q c) w l wt).

Lemma length_shape a busy q c : length (shape a busy q c) = (a + busy_nat busy + q + c)%nat.
Proof. unfold shape. rewrite !length_app, !length_replicate. destruct busy; simpl; lia. Qed.

(** The four regions of a shape. *)
Lemma shape_lookup a busy q c i :
  shape a busy q c !! i =
    if decide (i < a)%nat then Some Copied
    else if decide (i < a + busy_nat busy)%nat then Some Claimed
    else if decide (i < a + busy_nat busy + q)%nat then Some Queued
    else if decide (i < a + busy_nat busy + q + c)%nat then Some Cancelled else None.
Proof.
  unfold shape. destruct (decide (i < a)%nat).
  { rewrite lookup_app_l by (rewrite length_replicate; lia). by apply lookup_replicate_2. }
  rewrite lookup_app_r, length_replicate by (rewrite length_replicate; lia).
  destruct (decide (i < a + busy_nat busy)%nat).
  { destruct busy; simpl in *; [|lia]. by replace (i - a)%nat with O by lia. }
  assert (Hb : length (if busy then [Claimed] else []) = busy_nat busy) by (by destruct busy).
  rewrite lookup_app_r, Hb by lia.
  destruct (decide (i < a + busy_nat busy + q)%nat).
  { rewrite lookup_app_l by (rewrite length_replicate; lia). apply lookup_replicate_2. lia. }
  rewrite lookup_app_r, length_replicate by (rewrite length_replicate; lia).
  destruct (decide (i < a + busy_nat busy + q + c)%nat); [apply lookup_replicate_2|apply lookup_replicate_None]; lia.
Qed.

Ltac shape_cases H :=
  rewrite shape_lookup in H; unfold busy_nat in *;
  repeat match type of H with
  | context [decide ?P] => destruct (decide P)
  end; try discriminate H.

Lemma shape_claim a q c : <[a := Claimed]> (shape a false (S q) c) = shape a true q c.
Proof.
  unfold shape. simpl. rewrite insert_app_r_alt by (rewrite length_replicate; lia).
  by rewrite length_replicate, Nat.sub_diag.
Qed.

Lemma shape_copy a q c : <[a := Copied]> (shape a true q c) = shape (S a) false q c.
Proof.
  unfold shape. rewrite replicate_S_end, <- app_assoc.
  rewrite insert_app_r_alt by (rewrite length_replicate; lia).
  by rewrite length_replicate, Nat.sub_diag.
Qed.

Lemma shape_cancel a busy q c :
  <[(a + busy_nat busy + q)%nat := Cancelled]> (shape a busy (S q) c) = shape a busy q (S c).
Proof.
  unfold shape. rewrite !app_assoc. rewrite <- (app_assoc _ (replicate (S q) Queued)).
  rewrite insert_app_r_alt by (rewrite length_app, length_replicate; destruct busy; simpl; lia).
  rewrite <- (app_assoc _ (replicate q Queued)). f_equal.
  rewrite replicate_S_end, <- app_assoc.
  replace (_ - _)%nat with q by (rewrite length_app, length_replicate; destruct busy; simpl; lia).
  rewrite insert_app_r_alt by (rewrite length_replicate; lia).
  by rewrite length_replicate, Nat.sub_diag.
Qed.

Lemma proto_init_inv k : proto_inv (proto_init k).
Proof.
  unfold proto_init. replace (replicate k Queued) with (shape 0 false k 0)
    by (unfold shape; simpl; by rewrite app_nil_r).
  constructor; auto; done.
Qed.

Lemma proto_step_inv p p' : proto_inv p -> proto_step p p' -> proto_inv p'.
Proof.
  intros [a busy q c w l wt Hw Hl Hwt] Hstep. inversion Hstep; subst; clear Hstep.
  - by constructor.
  - constructor; [done| |done]. intros ->. exfalso.
    destruct Hw as [->|(? & _)]; [|done]. match goal with H : _ <> _ |- _ => apply H end.
    rewrite shape_lookup, decide_False, decide_True by (simpl; lia). done.
  - match goal with H : _ !! _ = _ |- _ => shape_cases H end.
    destruct busy; [destruct Hw as [?|(? & _)]; [lia|done]|].
    destruct q as [|q]; [lia|]. destruct Hw as [->|(_ & ? & _)]; [|done].
    rewrite shape_claim. constructor; [by left|done|].
    destruct wt; unfold busy_nat in *; try lia; by destruct Hwt.
  - match goal with H : _ !! _ = _ |- _ => shape_cases H end.
    destruct busy; [|lia]. destruct Hw as [->|(? & _)]; [|done].
    rewrite shape_copy. constructor; [by left|done|].
    destruct wt; unfold busy_nat in *; try lia; destruct Hwt as [? Hwt]; lia.
  - match goal with H : _ !! _ = _ |- _ => shape_cases H end.
    destruct busy; [destruct Hw as [?|(? & _)]; [lia|done]|].
    assert (q = O) as -> by (destruct Hw as [->|(_ & ? & _)]; lia).
    constructor; [right; lia|done|done].
  - constructor; [done|done|]. rewrite length_shape. lia.
  - match goal with H : _ !! _ = _ |- _ => shape_cases H end.
    destruct q as [|q]; [lia|].
    replace j with (a + busy_nat busy + q)%nat by (unfold busy_nat; destruct busy; lia).
    rewrite shape_cancel. constructor; [|done|done]. destruct Hw as [->|(_ & ? & _)]; [by left|done].
  - assert (q = O) as ->.
    { match goal with H : _ \/ _ |- _ => destruct H as [H|H]; shape_cases H end; destruct busy; lia. }
    constructor; [done|done|]. lia.
  - constructor; [done|done|]. destruct busy; simpl in Hwt; [lia|]. lia.
  - assert (busy = false) as -> by (destruct busy; [by specialize (Hl eq_refl)|done]).
    constructor; [done|done|]. simpl in Hwt. lia.
Qed.

(** All interleavings of the sender and the waiter. *)
Inductive proto_reach (k : nat) : proto -> Prop :=
| reach_init : proto_reach k (proto_init k)
| reach_step p p' : proto_reach k p -> proto_step p p' -> proto_reach k p'.

Lemma proto_reach_inv k p : proto_reach k p -> proto_inv p.
Proof. induction 1; [apply proto_init_inv|by eapply proto_step_inv]. Qed.

Lemma proto_step_length p p' : proto_step p p' -> length (p_cells p') = length (p_cells p).
Proof. destruct 1; simpl; rewrite ?length_insert; done. Qed.

Lemma proto_reach_length k p : proto_reach k p -> length (p_cells p) = k.
Proof.
  induction 1 as [|p p' _ IH Hs]; [apply length_replicate|].
  by rewrite (proto_step_length _ _ Hs).
Qed.

Lemma proto_returned_shape k p n :
  proto_reach k p -> p_waiter p = Returned n ->
  p_cells p = replicate n Copied ++ replicate (k - n) Cancelled.
Proof.
  intros Hr Hp. pose proof (proto_reach_length _ _ Hr) as Hlen.
  apply proto_reach_inv in Hr. destruct Hr as [a busy q c w l wt Hw Hl Hwt]. simpl in *. subst wt.
  destruct Hwt as (-> & -> & ->). rewrite length_shape in Hlen. simpl in Hlen.
  unfold shape. simpl. do 2 f_equal. lia.
Qed.


(** A run in which the sender takes the first of two requests before the
    deadline fires. *)
Lemma demo_run :
  proto_reach 2 (mkProto [Copied; Cancelled] 1 false (Returned 1)).
Proof.
  eapply reach_step; [|apply wait_barrier].
  eapply reach_step; [|apply send_unlock; discriminate].
  eapply reach_step; [|apply wait_lose; right; reflexivity].
  eapply reach_step; [|apply (wait_cancel [Copied; Queued] 1 true 1); reflexivity].
  eapply reach_step; [|apply (wait_give_up [Copied; Queued])].
  eapply reach_step; [|apply (send_copy [Claimed; Queued] 0); reflexivity].
  eapply reach_step; [|apply (send_claim [Queued; Queued] 0); reflexivity].
  eapply reach_step; [|apply send_lock].
  apply reach_init.
Defined.


(** In every interleaving the copied requests of a group form a prefix of
    it: a PAD is never on the wire without the payload it was glued to. *)
Lemma copied_prefix k p i j :
  proto_reach k p -> p_cells p !! j = Some Copied -> (i <= j)%nat -> p_cells p !! i = Some Copied.
Proof.
  intros Hr Hj Hij. apply proto_reach_inv in Hr. destruct Hr as [a busy q c w l wt _ _ _].
  simpl in *. rewrite shape_lookup in *.
  destruct (decide (j < a)%nat); [by rewrite decide_True by lia|].
  exfalso. repeat case_decide; done.
Qed.

Lemma copied_prefix_witness :
  proto_reach 2 (mkProto [Copied; Cancelled] 1 false (Returned 1)) /\
  [Copied; Cancelled] !! 0%nat = Some Copied.
Proof.
  split; [exact demo_run|].
  exact (copied_prefix 2 (mkProto [Copied; Cancelled] 1 false (Returned 1)) 0 0 demo_run eq_refl (le_n 0)).
Defined.

(** The waiter always gets through: some step of the pair is enabled until it
    has returned, and neither side can block the other for ever. *)
Lemma proto_progress k p :
  proto_reach k p -> (exists n, p_waiter p = Returned n) \/ exists p', proto_step p p'.
Proof.
  intros Hr. apply proto_reach_inv in Hr. destruct Hr as [a busy q c w l wt Hw Hl Hwt]. simpl.
  destruct wt as [|[|j]|n|n]; [right; eexists; apply wait_give_up|right; eexists; apply wait_none| | |left; by exists n].
  - right. simpl in Hwt. destruct q as [|q].
    + eexists. apply wait_lose. rewrite shape_lookup.
      destruct (decide (j < a)%nat); [by right|]. rewrite decide_True by lia. by left.
    + eexists. apply wait_cancel. rewrite shape_lookup.
      rewrite decide_False, decide_False, decide_True by lia. done.
  - right. destruct l; [|eexists; apply wait_barrier]. destruct busy.
    + destruct Hw as [->|(? & _)]; [|done]. eexists. apply send_copy.
      rewrite shape_lookup, decide_False, decide_True by (simpl; lia). done.
    + eexists. apply send_unlock. rewrite shape_lookup. repeat case_decide; simpl in *; try done. lia.
Qed.
