(* ===== verification/SmuxSession.v ===== *)
(** * drophaul smux: sessions and streams

    The state of [transport/drophaul/smux/session.go] and [stream.go] and the
    operations on it: the receive loop frame by frame, opening, accepting and
    closing streams, reading with its receive tokens, window updates and the
    error channels. *)

From S2P Require Import Prelude SmuxFrame SmuxWrite.

(** A received slice: the array it is cut from, the capacity left behind its
    start, its bytes. *)
Record slice := mkSlice { sl_id : nat; sl_cap : Z; sl_data : list Z }.

(** [b[n:]]. *)
Definition slice_from (b : slice) (n : Z) : slice :=
  mkSlice (sl_id b) (sl_cap b - n) (zdrop n (sl_data b)).

(** A stream: [st_die] and [st_fin] say whether [die] and [chFinEvent] are
    closed, [st_chReadEvent] and [st_chUpdate] whether their one-slot channels
    hold a token.
    @go transport/drophaul/smux/stream.go:19-49 Stream *)
Record Stream := mkStream {
  st_id : Z;
  st_buffers : list slice;
  st_heads : list buffer;
  st_frameSize : Z;
  st_chReadEvent : bool;
  st_die : bool;
  st_fin : bool;
  st_numRead : Z;
  st_numWritten : Z;
  st_incr : Z;
  st_peerConsumed : Z;
  st_peerWindow : Z;
  st_chUpdate : bool;
  st_padWrites : Z
}.

Definition st_set_id (s : Stream) (v : Z) : Stream :=
  mkStream v (st_buffers s) (st_heads s) (st_frameSize s) (st_chReadEvent s) (st_die s) (st_fin s) (st_numRead s) (st_numWritten s) (st_incr s) (st_peerConsumed s) (st_peerWindow s) (st_chUpdate s) (st_padWrites s).
Definition st_set_buffers (s : Stream) (v : list slice) : Stream :=
  mkStream (st_id s) v (st_heads s) (st_frameSize s) (st_chReadEvent s) (st_die s) (st_fin s) (st_numRead s) (st_numWritten s) (st_incr s) (st_peerConsumed s) (st_peerWindow s) (st_chUpdate s) (st_padWrites s).
Definition st_set_heads (s : Stream) (v : list buffer) : Stream :=
  mkStream (st_id s) (st_buffers s) v (st_frameSize s) (st_chReadEvent s) (st_die s) (st_fin s) (st_numRead s) (st_numWritten s) (st_incr s) (st_peerConsumed s) (st_peerWindow s) (st_chUpdate s) (st_padWrites s).
Definition st_set_frameSize (s : Stream) (v : Z) : Stream :=
  mkStream (st_id s) (st_buffers s) (st_heads s) v (st_chReadEvent s) (st_die s) (st_fin s) (st_numRead s) (st_numWritten s) (st_incr s) (st_peerConsumed s) (st_peerWindow s) (st_chUpdate s) (st_padWrites s).
Definition st_set_chReadEvent (s : Stream) (v : bool) : Stream :=
  mkStream (st_id s) (st_buffers s) (st_heads s) (st_frameSize s) v (st_die s) (st_fin s) (st_numRead s) (st_numWritten s) (st_incr s) (st_peerConsumed s) (st_peerWindow s) (st_chUpdate s) (st_padWrites s).
Definition st_set_die (s : Stream) (v : bool) : Stream :=
  mkStream (st_id s) (st_buffers s) (st_heads s) (st_frameSize s) (st_chReadEvent s) v (st_fin s) (st_numRead s) (st_numWritten s) (st_incr s) (st_peerConsumed s) (st_peerWindow s) (st_chUpdate s) (st_padWrites s).
Definition st_set_fin (s : Stream) (v : bool) : Stream :=
  mkStream (st_id s) (st_buffers s) (st_heads s) (st_frameSize s) (st_chReadEvent s) (st_die s) v (st_numRead s) (st_numWritten s) (st_incr s) (st_peerConsumed s) (st_peerWindow s) (st_chUpdate s) (st_padWrites s).
Definition st_set_numRead (s : Stream) (v : Z) : Stream :=
  mkStream (st_id s) (st_buffers s) (st_heads s) (st_frameSize s) (st_chReadEvent s) (st_die s) (st_fin s) v (st_numWritten s) (st_incr s) (st_peerConsumed s) (st_peerWindow s) (st_chUpdate s) (st_padWrites s).
Definition st_set_numWritten (s : Stream) (v : Z) : Stream :=
  mkStream (st_id s) (st_buffers s) (st_heads s) (st_frameSize s) (st_chReadEvent s) (st_die s) (st_fin s) (st_numRead s) v (st_incr s) (st_peerConsumed s) (st_peerWindow s) (st_chUpdate s) (st_padWrites s).
Definition st_set_incr (s : Stream) (v : Z) : Stream :=
  mkStream (st_id s) (st_buffers s) (st_heads s) (st_frameSize s) (st_chReadEvent s) (st_die s) (st_fin s) (st_numRead s) (st_numWritten s) v (st_peerConsumed s) (st_peerWindow s) (st_chUpdate s) (st_padWrites s).
Definition st_set_peerConsumed (s : Stream) (v : Z) : Stream :=
  mkStream (st_id s) (st_buffers s) (st_heads s) (st_frameSize s) (st_chReadEvent s) (st_die s) (st_fin s) (st_numRead s) (st_numWritten s) (st_incr s) v (st_peerWindow s) (st_chUpdate s) (st_padWrites s).
Definition st_set_peerWindow (s : Stream) (v : Z) : Stream :=
  mkStream (st_id s) (st_buffers s) (st_heads s) (st_frameSize s) (st_chReadEvent s) (st_die s) (st_fin s) (st_numRead s) (st_numWritten s) (st_incr s) (st_peerConsumed s) v (st_chUpdate s) (st_padWrites s).
Definition st_set_chUpdate (s : Stream) (v : bool) : Stream :=
  mkStream (st_id s) (st_buffers s) (st_heads s) (st_frameSize s) (st_chReadEvent s) (st_die s) (st_fin s) (st_numRead s) (st_numWritten s) (st_incr s) (st_peerConsumed s) (st_peerWindow s) v (st_padWrites s).
Definition st_set_padWrites (s : Stream) (v : Z) : Stream :=
  mkStream (st_id s) (st_buffers s) (st_heads s) (st_frameSize s) (st_chReadEvent s) (st_die s) (st_fin s) (st_numRead s) (st_numWritten s) (st_incr s) (st_peerConsumed s) (st_peerWindow s) (st_chUpdate s) v.

(** A session.  [s_ws] holds what the write path shares ([die],
    [chSocketWriteError], the write queue); [s_readErr] and [s_protoErr] are
    [None] until [chSocketReadError] and [chProtoError] are closed; [s_accepts]
    are the streams waiting in [chAccepts]; [s_alloc] is the process-wide
    [defaultAllocator].
    @go transport/drophaul/smux/session.go:72-117 Session *)
Record Session := mkSession {
  s_config : Config;
  s_client : bool;
  s_nextStreamID : Z;
  s_bucket : Z;
  s_bucketNotify : bool;
  s_streams : gmap Z Stream;
  s_ws : WriteSide;
  s_readErr : option err;
  s_protoErr : option err;
  s_accepts : list Z;
  s_dataReady : bool;
  s_pingInFlight : bool;
  s_goAway : bool;
  s_connClosed : bool;
  s_alloc : Allocator
}.

Definition s_set_config (s : Session) (v : Config) : Session :=
  mkSession v (s_client s) (s_nextStreamID s) (s_bucket s) (s_bucketNotify s) (s_streams s) (s_ws s) (s_readErr s) (s_protoErr s) (s_accepts s) (s_dataReady s) (s_pingInFlight s) (s_goAway s) (s_connClosed s) (s_alloc s).
Definition s_set_client (s : Session) (v : bool) : Session :=
  mkSession (s_config s) v (s_nextStreamID s) (s_bucket s) (s_bucketNotify s) (s_streams s) (s_ws s) (s_readErr s) (s_protoErr s) (s_accepts s) (s_dataReady s) (s_pingInFlight s) (s_goAway s) (s_connClosed s) (s_alloc s).
Definition s_set_nextStreamID (s : Session) (v : Z) : Session :=
  mkSession (s_config s) (s_client s) v (s_bucket s) (s_bucketNotify s) (s_streams s) (s_ws s) (s_readErr s) (s_protoErr s) (s_accepts s) (s_dataReady s) (s_pingInFlight s) (s_goAway s) (s_connClosed s) (s_alloc s).
Definition s_set_bucket (s : Session) (v : Z) : Session :=
  mkSession (s_config s) (s_client s) (s_nextStreamID s) v (s_bucketNotify s) (s_streams s) (s_ws s) (s_readErr s) (s_protoErr s) (s_accepts s) (s_dataReady s) (s_pingInFlight s) (s_goAway s) (s_connClosed s) (s_alloc s).
Definition s_set_bucketNotify (s : Session) (v : bool) : Session :=
  mkSession (s_config s) (s_client s) (s_nextStreamID s) (s_bucket s) v (s_streams s) (s_ws s) (s_readErr s) (s_protoErr s) (s_accepts s) (s_dataReady s) (s_pingInFlight s) (s_goAway s) (s_connClosed s) (s_alloc s).
Definition s_set_streams (s : Session) (v : gmap Z Stream) : Session :=
  mkSession (s_config s) (s_client s) (s_nextStreamID s) (s_bucket s) (s_bucketNotify s) v (s_ws s) (s_readErr s) (s_protoErr s) (s_accepts s) (s_dataReady s) (s_pingInFlight s) (s_goAway s) (s_connClosed s) (s_alloc s).
Definition s_set_ws (s : Session) (v : WriteSide) : Session :=
  mkSession (s_config s) (s_client s) (s_nextStreamID s) (s_bucket s) (s_bucketNotify s) (s_streams s) v (s_readErr s) (s_protoErr s) (s_accepts s) (s_dataReady s) (s_pingInFlight s) (s_goAway s) (s_connClosed s) (s_alloc s).
Definition s_set_readErr (s : Session) (v : option err) : Session :=
  mkSession (s_config s) (s_client s) (s_nextStreamID s) (s_bucket s) (s_bucketNotify s) (s_streams s) (s_ws s) v (s_protoErr s) (s_accepts s) (s_dataReady s) (s_pingInFlight s) (s_goAway s) (s_connClosed s) (s_alloc s).
Definition s_set_protoErr (s : Session) (v : option err) : Session :=
  mkSession (s_config s) (s_client s) (s_nextStreamID s) (s_bucket s) (s_bucketNotify s) (s_streams s) (s_ws s) (s_readErr s) v (s_accepts s) (s_dataReady s) (s_pingInFlight s) (s_goAway s) (s_connClosed s) (s_alloc s).
Definition s_set_accepts (s : Session) (v : list Z) : Session :=
  mkSession (s_config s) (s_client s) (s_nextStreamID s) (s_bucket s) (s_bucketNotify s) (s_streams s) (s_ws s) (s_readErr s) (s_protoErr s) v (s_dataReady s) (s_pingInFlight s) (s_goAway s) (s_connClosed s) (s_alloc s).
Definition s_set_dataReady (s : Session) (v : bool) : Session :=
  mkSession (s_config s) (s_client s) (s_nextStreamID s) (s_bucket s) (s_bucketNotify s) (s_streams s) (s_ws s) (s_readErr s) (s_protoErr s) (s_accepts s) v (s_pingInFlight s) (s_goAway s) (s_connClosed s) (s_alloc s).
Definition s_set_pingInFlight (s : Session) (v : bool) : Session :=
  mkSession (s_config s) (s_client s) (s_nextStreamID s) (s_bucket s) (s_bucketNotify s) (s_streams s) (s_ws s) (s_readErr s) (s_protoErr s) (s_accepts s) (s_dataReady s) v (s_goAway s) (s_connClosed s) (s_alloc s).
Definition s_set_goAway (s : Session) (v : bool) : Session :=
  mkSession (s_config s) (s_client s) (s_nextStreamID s) (s_bucket s) (s_bucketNotify s) (s_streams s) (s_ws s) (s_readErr s) (s_protoErr s) (s_accepts s) (s_dataReady s) (s_pingInFlight s) v (s_connClosed s) (s_alloc s).
Definition s_set_connClosed (s : Session) (v : bool) : Session :=
  mkSession (s_config s) (s_client s) (s_nextStreamID s) (s_bucket s) (s_bucketNotify s) (s_streams s) (s_ws s) (s_readErr s) (s_protoErr s) (s_accepts s) (s_dataReady s) (s_pingInFlight s) (s_goAway s) v (s_alloc s).
Definition s_set_alloc (s : Session) (v : Allocator) : Session :=
  mkSession (s_config s) (s_client s) (s_nextStreamID s) (s_bucket s) (s_bucketNotify s) (s_streams s) (s_ws s) (s_readErr s) (s_protoErr s) (s_accepts s) (s_dataReady s) (s_pingInFlight s) (s_goAway s) (s_connClosed s) v.


Definition s_die (s : Session) : bool := ws_die (s_ws s).
Definition s_writeErr (s : Session) : option err := ws_writeErr (s_ws s).

Definition ws_set_die (ws : WriteSide) : WriteSide :=
  mkWS true (ws_writeErr ws) (ws_requestID ws) (ws_writeQ ws) (ws_writeNotify ws)
    (ws_cells ws) (ws_next ws).
Definition ws_set_writeErr (ws : WriteSide) (e : err) : WriteSide :=
  mkWS (ws_die ws) (Some e) (ws_requestID ws) (ws_writeQ ws) (ws_writeNotify ws)
    (ws_cells ws) (ws_next ws).

(** ** Construction *)

(** @go transport/drophaul/smux/stream.go:51-62 newStream *)
Definition newStream (id frameSize : Z) : Stream :=
  mkStream id [] [] frameSize false false false 0 0 0 0 initialPeerWindow false 0.

(** The state [newSession] sets up; the three goroutines it starts are the
    receive, send and keepalive loops below.
    @go transport/drophaul/smux/session.go:119-146 newSession *)
Definition newSession (c : Config) (client : bool) (a : Allocator) : Session :=
  mkSession c client (if client then 1 else 0) (i32 (MaxReceiveBuffer c)) false ∅
    (mkWS false None 0 [] false ∅ 0) None None [] false false false false a.

(** A nil configuration means the default one.
    @go transport/drophaul/smux/mux.go:79-87 Client *)
Definition Client (config : option Config) (a : Allocator) : ConfigError + Session :=
  let c := default DefaultConfig config in
  match VerifyConfig c with
  | Some e => inl e
  | None => inr (newSession c true a)
  end.

(** @go transport/drophaul/smux/mux.go:69-77 Server *)
Definition Server (config : option Config) (a : Allocator) : ConfigError + Session :=
  let c := default DefaultConfig config in
  match VerifyConfig c with
  | Some e => inl e
  | None => inr (newSession c false a)
  end.

(** ** Error channels and counters *)

(** @go transport/drophaul/smux/session.go:244-249 Session.notifyBucket *)
Definition notifyBucket (s : Session) : Session := s_set_bucketNotify s true.

(** @go transport/drophaul/smux/session.go:251-256 Session.notifyReadError *)
Definition notifyReadError (s : Session) (e : err) : Session :=
  match s_readErr s with None => s_set_readErr s (Some e) | Some _ => s end.

(** @go transport/drophaul/smux/session.go:258-263 Session.notifyWriteError *)
Definition notifyWriteError (s : Session) (e : err) : Session :=
  match s_writeErr s with None => s_set_ws s (ws_set_writeErr (s_ws s) e) | Some _ => s end.

(** @go transport/drophaul/smux/session.go:265-270 Session.notifyProtoError *)
Definition notifyProtoError (s : Session) (e : err) : Session :=
  match s_protoErr s with None => s_set_protoErr s (Some e) | Some _ => s end.

(** @go transport/drophaul/smux/session.go:276-288 Session.recvErr *)
Definition recvErr (s : Session) : option err :=
  match s_readErr s with
  | Some e => Some e
  | None => match s_protoErr s with Some e => Some e | None => None end
  end.

(** @go transport/drophaul/smux/session.go:290-297 Session.IsClosed *)
Definition IsClosed (s : Session) : bool := s_die s.

(** @go transport/drophaul/smux/session.go:299-306 Session.NumStreams *)
Definition NumStreams (s : Session) : Z :=
  if IsClosed s then 0 else Z.of_nat (size (s_streams s)).

(** @go transport/drophaul/smux/session.go:310-324 Session.TotalInflight *)
Definition TotalInflight (s : Session) : Z :=
  if IsClosed s then 0 else
  map_fold (fun _ st total =>
    let inf := i32 (u32 (st_numWritten st - st_peerConsumed st)) in
    if 0 <? inf then total + inf else total) 0 (s_streams s).

(** @go transport/drophaul/smux/session.go:358-362 Session.returnTokens *)
Definition returnTokens (s : Session) (n : Z) : Session :=
  let bucket := i32 (s_bucket s + i32 n) in
  let s := s_set_bucket s bucket in
  if 0 <? bucket then notifyBucket s else s.

(** ** Stream primitives *)

(** @go transport/drophaul/smux/stream.go:572-572 Stream.sessionClose *)
Definition sessionClose (st : Stream) : Stream := st_set_die st true.

(** @go transport/drophaul/smux/stream.go:588-594 Stream.pushBytes *)
Definition pushBytes (st : Stream) (b : buffer) (data : list Z) : Stream :=
  st_set_heads (st_set_buffers st (st_buffers st ++ [mkSlice (b_id b) (b_cap b) data]))
    (st_heads st ++ [b]).

(** @go transport/drophaul/smux/stream.go:608-613 Stream.notifyReadEvent *)
Definition notifyReadEvent (st : Stream) : Stream := st_set_chReadEvent st true.

(** @go transport/drophaul/smux/stream.go:615-622 Stream.update *)
Definition update (st : Stream) (consumed window : Z) : Stream :=
  st_set_chUpdate (st_set_peerWindow (st_set_peerConsumed st consumed) window) true.

(** @go transport/drophaul/smux/stream.go:624-628 Stream.fin *)
Definition fin (st : Stream) : Stream := st_set_fin st true.

(** @go transport/drophaul/smux/stream.go:132-136 Stream.hasBuffered *)
Definition hasBuffered (st : Stream) : bool :=
  match st_buffers st with [] => false | _ => true end.

(** The loop of [recycleTokens]; [heads[k]] beyond the end would panic.
    @go transport/drophaul/smux/stream.go:598-601 Stream.recycleTokens *)
Fixpoint recycle_loop (a : Allocator) (buffers : list slice) (heads : list buffer) :
    go_result (Z * Allocator) :=
  match buffers with
  | [] => Ret (0, a)
  | b :: bs =>
      match heads with
      | [] => Panic
      | h :: hs =>
          let '(_, a') := alloc_Put a h in
          match recycle_loop a' bs hs with
          | Ret (n, a'') => Ret (zlen (sl_data b) + n, a'')
          | Panic => Panic
          end
      end
  end.

(** @go transport/drophaul/smux/stream.go:596-606 Stream.recycleTokens *)
Definition recycleTokens (a : Allocator) (st : Stream) : go_result (Z * Allocator * Stream) :=
  match recycle_loop a (st_buffers st) (st_heads st) with
  | Ret (n, a') => Ret (n, a', st_set_heads (st_set_buffers st []) [])
  | Panic => Panic
  end.

(** ** Opening, accepting, closing *)

(** The allocation of a stream id; [None] is [ErrGoAway].
    @go transport/drophaul/smux/session.go:153-166 Session.OpenStream *)
Definition alloc_stream_id (s : Session) : option Z * Session :=
  if s_goAway s then (None, s) else
  let sid := u32 (s_nextStreamID s + 2) in
  let s := s_set_nextStreamID s sid in
  if sid =? sid mod 2 then (None, s_set_goAway s true) else (Some sid, s).

(** [env] answers the write of the SYN, [others] is what the other goroutines
    do to the session meanwhile; [choice] picks among the ready cases of a
    [select].
    @go transport/drophaul/smux/session.go:148-190 Session.OpenStream *)
Definition OpenStream (env : environment) (others : Session -> Session) (choice : nat) (s : Session) :
    option ((err + Stream) * Session) :=
  if IsClosed s then Some (inl EClosedPipe, s) else
  match alloc_stream_id s with
  | (None, s) => Some (inl EGoAway, s)
  | (Some sid, s) =>
      let stream := newStream sid (MaxFrameSize (s_config s)) in
      match writeFrame env (s_ws s) (newFrame (u8 (Version (s_config s))) cmdSYN sid) choice with
      | None => None
      | Some ((_, Some e), ws) => Some (inl e, s_set_ws s ws)
      | Some ((_, None), ws) =>
          let s := others (s_set_ws s ws) in
          let ready := match s_readErr s with Some e => [e] | None => [] end ++
                       match s_protoErr s with Some e => [e] | None => [] end ++
                       match s_writeErr s with Some e => [e] | None => [] end ++
                       (if s_die s then [EClosedPipe] else []) in
          match ready !! (choice mod length ready)%nat with
          | Some e => Some (inl e, s)
          | None => Some (inr stream, s_set_streams s (<[sid := stream]> (s_streams s)))
          end
      end
  end.

(** [None] blocks; [deadline] says whether the accept deadline has passed.
    @go transport/drophaul/smux/session.go:196-216 Session.AcceptStream *)
Definition AcceptStream (deadline : bool) (choice : nat) (s : Session) : option ((err + Z) * Session) :=
  let ready : list ((err + Z) * Session) :=
    match s_accepts s with sid :: q => [(inr sid, s_set_accepts s q)] | [] => [] end ++
    (if deadline then [(inl ETimeout, s)] else []) ++
    match s_readErr s with Some e => [(inl e, s)] | None => [] end ++
    match s_protoErr s with Some e => [(inl e, s)] | None => [] end ++
    (if s_die s then [(inl EClosedPipe, s)] else []) in
  ready !! (choice mod length ready)%nat.

(** @go transport/drophaul/smux/session.go:222-238 Session.Close *)
Definition session_Close (s : Session) : option err * Session :=
  if s_die s then (Some EClosedPipe, s) else
  let s := s_set_ws s (ws_set_die (s_ws s)) in
  let s := s_set_streams s (sessionClose <$> s_streams s) in
  (None, s_set_connClosed s true).

(** Besides the session, the closed stream with its buffers gone, when the id
    was registered.
    @go transport/drophaul/smux/session.go:345-356 Session.streamClosed *)
Definition streamClosed (s : Session) (sid : Z) : go_result (Session * option Stream) :=
  match s_streams s !! sid with
  | Some stream =>
      match recycleTokens (s_alloc s) stream with
      | Panic => Panic
      | Ret (n, a, stream) =>
          let s := s_set_alloc s a in
          let s := if 0 <? n then
                     let bucket := i32 (s_bucket s + i32 n) in
                     let s := s_set_bucket s bucket in
                     if 0 <? bucket then notifyBucket s else s
                   else s in
          Ret (s_set_streams s (delete sid (s_streams s)), Some stream)
      end
  | None => Ret (s_set_streams s (delete sid (s_streams s)), None)
  end.

(** ** The receive loop *)

(** [io.ReadFull] of [n] bytes from what is left of the connection's input. *)
Definition read_full (n : Z) (input : list Z) : option (list Z * list Z) :=
  if zlen input <? n then None else Some (ztake n input, zdrop n input).

(** One turn of the loop: it goes on with the rest of the input, it has
    returned (and closed the session), it waits for tokens, or it panicked. *)
Inductive recv_out : Type :=
| RecvMore (s : Session) (rest : list Z)
| RecvStop (s : Session)
| RecvWait (s : Session)
| RecvPanic.

(** [return] with the deferred [s.Close()].
    @go transport/drophaul/smux/session.go:372-372 Session.recvLoop *)
Definition recv_return (s : Session) : recv_out := RecvStop (snd (session_Close s)).

Definition proto_violation (s : Session) : recv_out := recv_return (notifyProtoError s EInvalidProtocol).

(** @go transport/drophaul/smux/session.go:391-395 Session.recvLoop *)
Definition bad_header (version cmd len : Z) : bool :=
  (((cmd =? cmdSYN) || (cmd =? cmdFIN) || (cmd =? cmdNOP)) && negb (len =? 0))
  || ((cmd =? cmdUPD) && (negb (version =? 2) || negb (len =? szCmdUPD))).

(** @go transport/drophaul/smux/session.go:398-415 Session.recvLoop *)
Definition recv_SYN (s : Session) (sid : Z) (rest : list Z) : recv_out :=
  if s_client s then proto_violation s else
  match s_streams s !! sid with
  | Some _ => RecvMore s rest
  | None =>
      if (length (s_accepts s) <? 1024)%nat then
        let stream := newStream sid (MaxFrameSize (s_config s)) in
        RecvMore (s_set_streams (s_set_accepts s (s_accepts s ++ [sid]))
                    (<[sid := stream]> (s_streams s))) rest
      else RecvMore s rest
  end.

(** @go transport/drophaul/smux/session.go:416-422 Session.recvLoop *)
Definition recv_FIN (s : Session) (sid : Z) (rest : list Z) : recv_out :=
  match s_streams s !! sid with
  | Some stream =>
      RecvMore (s_set_streams s (<[sid := notifyReadEvent (fin stream)]> (s_streams s))) rest
  | None => RecvMore s rest
  end.

(** [rerr] is the error the connection reports once [input] is exhausted.
    @go transport/drophaul/smux/session.go:423-438 Session.recvLoop *)
Definition recv_PSH (rerr : err) (s : Session) (sid len : Z) (input : list Z) : recv_out :=
  if negb (0 <? len) then RecvMore s input else
  let '(r, a) := alloc_Get (s_alloc s) len in
  match r with
  | Panic => RecvPanic
  | Ret None => RecvMore (s_set_alloc s a) input
  | Ret (Some newbuf) =>
      let s := s_set_alloc s a in
      match read_full len input with
      | None => recv_return (notifyReadError s rerr)
      | Some (data, rest) =>
          match s_streams s !! sid with
          | Some stream =>
              let s := s_set_streams s
                         (<[sid := notifyReadEvent (pushBytes stream newbuf data)]> (s_streams s)) in
              RecvMore (s_set_bucket s (i32 (s_bucket s - i32 (zlen data)))) rest
          | None => RecvMore s rest
          end
      end
  end.

(** @go transport/drophaul/smux/session.go:439-449 Session.recvLoop *)
Definition recv_UPD (rerr : err) (s : Session) (sid : Z) (input : list Z) : recv_out :=
  match read_full szCmdUPD input with
  | None => recv_return (notifyReadError s rerr)
  | Some (hdr, rest) =>
      match s_streams s !! sid with
      | Some stream =>
          RecvMore (s_set_streams s
            (<[sid := update stream (upd_Consumed hdr) (upd_Window hdr)]> (s_streams s))) rest
      | None => RecvMore s rest
      end
  end.

(** @go transport/drophaul/smux/session.go:450-454 Session.recvLoop *)
Definition recv_PAD (rerr : err) (s : Session) (len : Z) (input : list Z) : recv_out :=
  match read_full len input with
  | None => recv_return (notifyReadError s rerr)
  | Some (_, rest) => RecvMore s rest
  end.

(** One frame, the header already read.
    @go transport/drophaul/smux/session.go:383-463 Session.recvLoop *)
Definition recv_frame (rerr : err) (s : Session) (hdr input : list Z) : recv_out :=
  let s := s_set_dataReady s true in
  if negb (hdr_Version hdr =? u8 (Version (s_config s))) then proto_violation s else
  let sid := hdr_StreamID hdr in
  let cmd := hdr_Cmd hdr in
  if bad_header (Version (s_config s)) cmd (hdr_Length hdr) then proto_violation s else
  if cmd =? cmdNOP then RecvMore s input
  else if cmd =? cmdSYN then recv_SYN s sid input
  else if cmd =? cmdFIN then recv_FIN s sid input
  else if cmd =? cmdPSH then recv_PSH rerr s sid (hdr_Length hdr) input
  else if cmd =? cmdUPD then recv_UPD rerr s sid input
  else if cmd =? cmdPAD then recv_PAD rerr s (hdr_Length hdr) input
  else proto_violation s.

(** One turn of the loop.
    @go transport/drophaul/smux/session.go:374-383 Session.recvLoop *)
Definition recv_turn (rerr : err) (s : Session) (input : list Z) : recv_out :=
  if (s_bucket s <=? 0) && negb (IsClosed s) then RecvWait s else
  match read_full headerSize input with
  | None => recv_return (notifyReadError s rerr)
  | Some (hdr, rest) => recv_frame rerr s hdr rest
  end.

(** The loop until it returns or waits; every turn that goes on consumes a
    header, so [length input] turns are enough.
    @go transport/drophaul/smux/session.go:364-464 Session.recvLoop *)
Fixpoint recvLoop (fuel : nat) (rerr : err) (s : Session) (input : list Z) : recv_out :=
  match recv_turn rerr s input with
  | RecvMore s' rest =>
      match fuel with
      | O => RecvMore s' rest
      | S fuel' => recvLoop fuel' rerr s' rest
      end
  | out => out
  end.

(** ** Reading *)

(** @go transport/drophaul/smux/stream.go:120-130 Stream.dieReadErr *)
Definition dieReadErr (s : Session) (st : Stream) : err :=
  if st_fin st then EEOF else
  match recvErr s with Some e => e | None => EEOF end.

(** [copy(b, s.buffers[0])] into [blen] bytes and the bookkeeping of the first
    buffer; an emptied one goes back to the allocator.  [heads[0]] of an empty
    [heads] would panic.
    @go transport/drophaul/smux/stream.go:91-100 Stream.tryRead *)
Definition read_first (a : Allocator) (st : Stream) (blen : Z) :
    go_result (list Z * Allocator * Stream) :=
  match st_buffers st with
  | [] => Ret ([], a, st)
  | b :: bs =>
      let n := Z.min blen (zlen (sl_data b)) in
      let data := ztake n (sl_data b) in
      let b' := slice_from b n in
      if zlen (sl_data b') =? 0 then
        match st_heads st with
        | [] => Panic
        | h :: hs =>
            let '(_, a') := alloc_Put a h in
            Ret (data, a', st_set_heads (st_set_buffers st bs) hs)
        end
      else Ret (data, a, st_set_buffers st (b' :: bs))
  end.

(** The stream is registered under its id; the result is the bytes copied into
    [b] and the error.
    @go transport/drophaul/smux/stream.go:81-114 Stream.tryRead *)
Definition tryRead_v1 (s : Session) (st : Stream) (blen : Z) :
    go_result ((list Z * option err) * Session * Stream) :=
  if blen =? 0 then Ret (([], None), s, st) else
  match read_first (s_alloc s) st blen with
  | Panic => Panic
  | Ret (data, a, st') =>
      let s := s_set_alloc s a in
      let n := zlen data in
      if 0 <? n then Ret ((data, None), returnTokens s n, st')
      else if st_die st' then Ret (([], Some (dieReadErr s st')), s, st')
      else Ret (([], Some EWouldBlock), s, st')
  end.

(** @go transport/drophaul/smux/stream.go:258-268 Stream.windowUpdateThreshold *)
Definition windowUpdateThreshold (c : Config) : Z :=
  let half := u32 (Z.quot (MaxStreamBuffer c) 2) in
  if half <=? initialPeerWindow then half else
  let eighth := u32 (Z.quot (MaxStreamBuffer c) 8) in
  if initialPeerWindow <? eighth then eighth else initialPeerWindow.

(** @go transport/drophaul/smux/stream.go:270-300 Stream.effectiveStreamWindow *)
Definition effectiveStreamWindow (s : Session) (consumed : Z) : Z :=
  let base := u32 (MaxStreamBuffer (s_config s)) in
  let maxRecv := u32 (MaxReceiveBuffer (s_config s)) in
  if (consumed <? base) || (maxRecv <=? u32 (base * 2)) then base else
  if s_bucket s <=? i32 (maxRecv / 2) then base else
  let capWin := maxRecv / 2 in
  let target := if u32 (base * 2) <=? consumed then u32 (base * 4) else u32 (base * 2) in
  let target := if capWin <? target then capWin else target in
  let n := NumStreams s in
  let target :=
    if 1 <? n then
      let share := capWin / u32 n in if share <? target then share else target
    else target in
  if target <? base then base else target.

(** The accounting of [tryReadv2] and [writeTov2] after [n] bytes left the
    buffer: the new counters and [notifyConsumed].
    @go transport/drophaul/smux/stream.go:156-162 Stream.tryReadv2 *)
Definition count_read (c : Config) (st : Stream) (n : Z) : Stream * Z :=
  let numRead := u32 (st_numRead st + u32 n) in
  let incr := u32 (st_incr st + u32 n) in
  if (windowUpdateThreshold c <=? incr) || (numRead =? u32 n)
  then (st_set_incr (st_set_numRead st numRead) 0, numRead)
  else (st_set_incr (st_set_numRead st numRead) incr, 0).

(** @go transport/drophaul/smux/stream.go:302-318 Stream.sendWindowUpdate *)
Definition sendWindowUpdate (env : environment) (choice : nat) (s : Session) (st : Stream) (consumed : Z) :
    option (option err * Session) :=
  let frame := mkFrame (u8 (Version (s_config s))) cmdUPD (st_id st)
                 (le_put 4 consumed ++ le_put 4 (effectiveStreamWindow s consumed)) in
  match writeFrameInternal env (s_ws s) frame CLSCTRL choice with
  | None => None
  | Some ((_, e), ws) => Some (e, s_set_ws s ws)
  end.

(** [None] stays blocked in the window update.
    @go transport/drophaul/smux/stream.go:138-185 Stream.tryReadv2 *)
Definition tryReadv2 (env : environment) (choice : nat) (s : Session) (st : Stream) (blen : Z) :
    option (go_result ((list Z * option err) * Session * Stream)) :=
  if blen =? 0 then Some (Ret (([], None), s, st)) else
  match read_first (s_alloc s) st blen with
  | Panic => Some Panic
  | Ret (data, a, st') =>
      let s := s_set_alloc s a in
      let n := zlen data in
      let '(st', notifyConsumed) := count_read (s_config s) st' n in
      if 0 <? n then
        let s := returnTokens s n in
        if 0 <? notifyConsumed then
          match sendWindowUpdate env choice s st' notifyConsumed with
          | None => None
          | Some (Some e, s) =>
              if IsClosed s then Some (Ret ((data, None), s, st'))
              else Some (Ret ((data, Some e), s, st'))
          | Some (None, s) => Some (Ret ((data, None), s, st'))
          end
        else Some (Ret ((data, None), s, st'))
      else if st_die st' then Some (Ret (([], Some (dieReadErr s st')), s, st'))
      else Some (Ret (([], Some EWouldBlock), s, st'))
  end.

(** @go transport/drophaul/smux/stream.go:81-84 Stream.tryRead *)
Definition tryRead (env : environment) (choice : nat) (s : Session) (st : Stream) (blen : Z) :
    option (go_result ((list Z * option err) * Session * Stream)) :=
  if Version (s_config s) =? 2 then tryReadv2 env choice s st blen
  else Some (tryRead_v1 s st blen).

(** @go transport/drophaul/smux/stream.go:358-363 Stream.recvErrUnlessBuffered *)
Definition recvErrUnlessBuffered (s : Session) (st : Stream) : option err :=
  if hasBuffered st then None else recvErr s.

(** The blocking wait of a reader: [None] while no case is ready.
    @go transport/drophaul/smux/stream.go:320-356 Stream.waitRead *)
Definition waitRead (deadline : bool) (choice : nat) (s : Session) (st : Stream) :
    option (option err * Stream) :=
  let ready : list (option err * Stream) :=
    (if st_chReadEvent st then [(None, st_set_chReadEvent st false)] else []) ++
    (if st_fin st then [(if hasBuffered st then None else Some EEOF, st)] else []) ++
    (if bool_decide (is_Some (s_readErr s)) then [(recvErrUnlessBuffered s st, st)] else []) ++
    (if bool_decide (is_Some (s_protoErr s)) then [(recvErrUnlessBuffered s st, st)] else []) ++
    (if deadline then [(Some ETimeout, st)] else []) ++
    (if st_die st then
       [(if hasBuffered st then None
         else match recvErr s with Some e => Some e | None => Some EClosedPipe end, st)]
     else []) in
  ready !! (choice mod length ready)%nat.

(** One blocking wait of a reader: what the other goroutines do first, whether
    the deadline has passed, the case picked. *)
Record wait_step := mkWait {
  wt_others : Session -> Stream -> Session * Stream; wt_deadline : bool; wt_choice : nat
}.

(** The loop of [Read]: each element of [waits] settles one blocking wait.
    @go transport/drophaul/smux/stream.go:68-79 Stream.Read *)
Fixpoint Read (env : environment) (waits : list wait_step) (s : Session) (st : Stream) (blen : Z) :
    option (go_result ((list Z * option err) * Session * Stream)) :=
  match tryRead env 0 s st blen with
  | Some (Ret ((_, Some EWouldBlock), s', st')) =>
      match waits with
      | [] => None
      | w :: ws =>
          let '(s', st') := wt_others w s' st' in
          match waitRead (wt_deadline w) (wt_choice w) s' st' with
          | None => None
          | Some (Some e, st'') => Some (Ret (([], Some e), s', st''))
          | Some (None, st'') => Read env ws s' st'' blen
          end
      end
  | out => out
  end.

(** [WriteTo] takes whole buffers: the first one, [None] when there is none.
    @go transport/drophaul/smux/stream.go:193-200 Stream.WriteTo *)
Definition take_first (st : Stream) : go_result (option slice * Stream) :=
  match st_buffers st with
  | [] => Ret (None, st)
  | b :: bs =>
      match st_heads st with
      | [] => Panic
      | _ :: hs => Ret (Some b, st_set_heads (st_set_buffers st bs) hs)
      end
  end.

(** One turn of [WriteTo]: [inl] goes on with the bytes written so far, [inr]
    returns.  The buffer, possibly re-sliced, goes back to the allocator.
    @go transport/drophaul/smux/stream.go:192-215 Stream.WriteTo *)
Definition WriteTo_turn (w_Write : list Z -> Z * option err) (w : wait_step) (s : Session) (st : Stream)
    (n : Z) : option (go_result ((Z + (Z * err)) * Session * Stream)) :=
  match take_first st with
  | Panic => Some Panic
  | Ret (Some b, st) =>
      let '(nw, ew) := w_Write (sl_data b) in
      let s := returnTokens s (zlen (sl_data b)) in
      let '(_, a) := alloc_Put (s_alloc s) (mkBuffer (sl_id b) (sl_cap b)) in
      let s := s_set_alloc s a in
      let n := if 0 <? nw then n + nw else n in
      match ew with
      | Some e => Some (Ret (inr (n, e), s, st))
      | None => Some (Ret (inl n, s, st))
      end
  | Ret (None, st) =>
      let '(s, st) := wt_others w s st in
      match waitRead (wt_deadline w) (wt_choice w) s st with
      | None => None
      | Some (Some e, st) => Some (Ret (inr (n, e), s, st))
      | Some (None, st) => Some (Ret (inl n, s, st))
      end
  end.

(** @go transport/drophaul/smux/stream.go:219-255 Stream.writeTov2 *)
Definition writeTov2_turn (w_Write : list Z -> Z * option err) (env : environment) (w : wait_step)
    (s : Session) (st : Stream) (n : Z) : option (go_result ((Z + (Z * err)) * Session * Stream)) :=
  match take_first st with
  | Panic => Some Panic
  | Ret (buf, st) =>
      let len := match buf with Some b => zlen (sl_data b) | None => 0 end in
      let '(st, notifyConsumed) := count_read (s_config s) st len in
      match buf with
      | Some b =>
          let '(nw, ew) := w_Write (sl_data b) in
          let s := returnTokens s len in
          let '(_, a) := alloc_Put (s_alloc s) (mkBuffer (sl_id b) (sl_cap b)) in
          let s := s_set_alloc s a in
          let n := if 0 <? nw then n + nw else n in
          match ew with
          | Some e => Some (Ret (inr (n, e), s, st))
          | None =>
              if 0 <? notifyConsumed then
                match sendWindowUpdate env (wt_choice w) s st notifyConsumed with
                | None => None
                | Some (Some e, s) =>
                    if IsClosed s then Some (Ret (inl n, s, st)) else Some (Ret (inr (n, e), s, st))
                | Some (None, s) => Some (Ret (inl n, s, st))
                end
              else Some (Ret (inl n, s, st))
          end
      | None =>
          let '(s, st) := wt_others w s st in
          match waitRead (wt_deadline w) (wt_choice w) s st with
          | None => None
          | Some (Some e, st) => Some (Ret (inr (n, e), s, st))
          | Some (None, st) => Some (Ret (inl n, s, st))
          end
      end
  end.

(** ** Writing *)

(** @go transport/drophaul/smux/stream.go:12-17 realtimeMaxPayload, realtimeMaxInflight *)
Definition realtimeMaxPayload : Z := 1400.
Definition realtimeMaxInflight : Z := 32 * 1024.

(** What one write sees of its surroundings: the environment of its frames,
    the case its selects pick, and whether the write deadline has passed before
    each of its selects. *)
Record write_env := mkWEnv {
  we_env : environment; we_choice : nat; we_deadline : nat -> bool; we_pad : Z -> Z; we_padBytes : list Z
}.

(** The frame loop of a write: cuts [bts] into PSH frames and sends them one by
    one; [counter] is [numWritten++] of version 1 or [+= n] of version 2.
    @go transport/drophaul/smux/stream.go:485-499 Stream.writeV2 *)
Fixpoint send_frames (fuel : nat) (k : nat) (e : write_env) (ver : Z) (count_frames : bool)
    (class : CLASSID) (ws : WriteSide) (st : Stream) (bts : list Z) (sent : Z) :
    option ((Z * option err) * WriteSide * Stream) :=
  match fuel with
  | O => Some ((sent, None), ws, st)
  | S fuel' =>
      if zlen bts <=? 0 then Some ((sent, None), ws, st) else
      let sz := if st_frameSize st <? zlen bts then st_frameSize st else zlen bts in
      let frame := mkFrame ver cmdPSH (st_id st) (ztake sz bts) in
      match writeData (we_env e) ws frame (we_deadline e k) class (we_choice e) with
      | None => None
      | Some ((n, er), ws) =>
          let st := st_set_numWritten st
                      (u32 (st_numWritten st + (if count_frames then 1 else u32 n))) in
          let sent := sent + n in
          match er with
          | Some er' => Some ((sent, Some er'), ws, st)
          | None => send_frames fuel' (S k) e ver count_frames class ws st (zdrop sz bts) sent
          end
      end
  end.

(** The non-blocking check for a received FIN or a closed stream. *)
Definition write_closed (st : Stream) (choice : nat) : option err :=
  let ready := (if st_fin st then [EEOF] else []) ++ (if st_die st then [EClosedPipe] else []) in
  ready !! (choice mod length ready)%nat.

(** [s.padLen(len(b))] with the stream's counter.
    @go transport/drophaul/smux/stream.go:446-446 Stream.writeV2 *)
Definition stream_padLen (c : Config) (st : Stream) (intn : Z -> Z) (n : Z) : Z * Stream :=
  let '(pad, pw) := padLen (Padding c) (st_padWrites st) intn n in (pad, st_set_padWrites st pw).

(** Version 1 ([Write] dispatches to [writeV2] otherwise).
    @go transport/drophaul/smux/stream.go:383-426 Stream.Write *)
Definition write_v1 (e : write_env) (s : Session) (st : Stream) (b : list Z) :
    option ((Z * option err) * Session * Stream) :=
  let ver := u8 (Version (s_config s)) in
  match write_closed st (we_choice e) with
  | Some er => Some ((0, Some er), s, st)
  | None =>
      let '(pad, st) := if 0 <? zlen b then stream_padLen (s_config s) st (we_pad e) (zlen b) else (0, st) in
      if 0 <? pad then
        let frames := padGroup (we_padBytes e) (Version (s_config s)) (st_frameSize st) (st_id st) b pad in
        match writeGroup (we_env e) (s_ws s) frames (we_deadline e 0) (we_choice e) with
        | None => None
        | Some (r, ws) =>
            Some (r, s_set_ws s ws,
                  st_set_numWritten st (u32 (st_numWritten st
                    + u32 (Z.quot (zlen b + st_frameSize st - 1) (st_frameSize st)))))
        end
      else
        let class := if zlen b <=? realtimeMaxPayload then CLSREALTIME else CLSDATA in
        match send_frames (length b) 0 e ver true class (s_ws s) st b 0 with
        | None => None
        | Some (r, ws, st) => Some (r, s_set_ws s ws, st)
        end
  end.

(** The window a version 2 writer may use: [Some win], or [None] when the peer
    acknowledged more than was sent.
    @go transport/drophaul/smux/stream.go:450-457 Stream.writeV2 *)
Definition send_window (st : Stream) : option (Z * Z) :=
  let inflight := i32 (u32 (st_numWritten st - st_peerConsumed st)) in
  if inflight <? 0 then None else Some (inflight, i32 (i32 (st_peerWindow st) - inflight)).

(** The part of [b] that goes out in this turn and the rest.
    @go transport/drophaul/smux/stream.go:459-466 Stream.writeV2 *)
Definition cut_window (win : Z) (b : list Z) : list Z * list Z :=
  if i32 (zlen b) <? win then (b, []) else (ztake win b, zdrop win b).

(** One turn of the loop of [writeV2] up to the wait for window: the bytes
    left, the pad left, and how it ended.
    @go transport/drophaul/smux/stream.go:448-500 Stream.writeV2 *)
Definition writeV2_turn (e : write_env) (s : Session) (st : Stream) (b : list Z) (pad sent : Z) :
    option ((Z * option err) * Session * Stream * list Z * Z) :=
  let ver := u8 (Version (s_config s)) in
  match send_window st with
  | None => Some ((sent, Some EConsumed), s, st, b, pad)
  | Some (inflight, win) =>
      if negb (0 <? win) then Some ((sent, None), s, st, b, pad) else
      let '(bts, b') := cut_window win b in
      let group :=
        if 0 <? pad then
          let frames := padGroup (we_padBytes e) (Version (s_config s)) (st_frameSize st) (st_id st) bts pad in
          match writeGroup (we_env e) (s_ws s) frames (we_deadline e 0) (we_choice e) with
          | None => None
          | Some ((n, er), ws) =>
              Some (er, ws, st_set_numWritten st (u32 (st_numWritten st + u32 n)), sent + n, 0, [])
          end
        else Some (None, s_ws s, st, sent, pad, bts) in
      match group with
      | None => None
      | Some (Some er, ws, st, sent, pad, _) => Some ((sent, Some er), s_set_ws s ws, st, b', pad)
      | Some (None, ws, st, sent, pad, bts) =>
          let class := if (zlen bts <=? realtimeMaxPayload) && (inflight <=? realtimeMaxInflight)
                       then CLSREALTIME else CLSDATA in
          match send_frames (length bts) 0 e ver false class ws st bts sent with
          | None => None
          | Some (r, ws, st) => Some (r, s_set_ws s ws, st, b', pad)
          end
      end
  end.

(** The wait for window of a writer with bytes left: [None] while no case is
    ready; [inl] returns, [inr] goes round the loop.
    @go transport/drophaul/smux/stream.go:503-522 Stream.writeV2 *)
Definition wait_window (deadline : bool) (choice : nat) (s : Session) (st : Stream) :
    option (err + Stream) :=
  let ready : list (err + Stream) :=
    (if st_fin st then [inl EEOF] else []) ++
    (if st_die st then [inl (default EClosedPipe (recvErr s))] else []) ++
    (if deadline then [inl ETimeout] else []) ++
    match s_writeErr s with Some e => [inl e] | None => [] end ++
    match s_readErr s with Some e => [inl e] | None => [] end ++
    match s_protoErr s with Some e => [inl e] | None => [] end ++
    (if st_chUpdate st then [inr (st_set_chUpdate st false)] else []) in
  ready !! (choice mod length ready)%nat.

(** The loop of [writeV2]; each element of [waits] settles one wait for window.
    @go transport/drophaul/smux/stream.go:448-526 Stream.writeV2 *)
Fixpoint writeV2_loop (e : write_env) (waits : list wait_step) (s : Session) (st : Stream) (b : list Z)
    (pad sent : Z) : option ((Z * option err) * Session * Stream) :=
  match writeV2_turn e s st b pad sent with
  | None => None
  | Some ((sent, Some er), s, st, _, _) => Some ((sent, Some er), s, st)
  | Some ((sent, None), s, st, b, pad) =>
      if negb (0 <? zlen b) then Some ((sent, None), s, st) else
      match waits with
      | [] => None
      | w :: ws =>
          let '(s, st) := wt_others w s st in
          match wait_window (wt_deadline w) (wt_choice w) s st with
          | None => None
          | Some (inl er) => Some ((sent, Some er), s, st)
          | Some (inr st) => writeV2_loop e ws s st b pad sent
          end
      end
  end.

(** @go transport/drophaul/smux/stream.go:428-527 Stream.writeV2 *)
Definition writeV2 (e : write_env) (waits : list wait_step) (s : Session) (st : Stream) (b : list Z) :
    option ((Z * option err) * Session * Stream) :=
  if zlen b =? 0 then Some ((0, None), s, st) else
  match write_closed st (we_choice e) with
  | Some er => Some ((0, Some er), s, st)
  | None =>
      let '(pad, st) := stream_padLen (s_config s) st (we_pad e) (zlen b) in
      writeV2_loop e waits s st b pad 0
  end.

(** @go transport/drophaul/smux/stream.go:378-426 Stream.Write *)
Definition stream_Write (e : write_env) (waits : list wait_step) (s : Session) (st : Stream) (b : list Z) :
    option ((Z * option err) * Session * Stream) :=
  if Version (s_config s) =? 2 then writeV2 e waits s st b else write_v1 e s st b.

(** Closing a stream: the FIN is queued behind its data, then its buffered
    bytes give their tokens back.  [st] is the stream as registered, when it is.
    @go transport/drophaul/smux/stream.go:529-545 Stream.Close *)
Definition stream_Close (env : environment) (choice : nat) (s : Session) (st : Stream) :
    option (go_result (option err * Session * Stream)) :=
  if st_die st then Some (Ret (Some EClosedPipe, s, st)) else
  let st := st_set_die st true in
  let s := s_set_streams s (alter (fun _ => st) (st_id st) (s_streams s)) in
  match writeFrameInternal env (s_ws s) (newFrame (u8 (Version (s_config s))) cmdFIN (st_id st))
          CLSDATA choice with
  | None => None
  | Some ((_, e), ws) =>
      match streamClosed (s_set_ws s ws) (st_id st) with
      | Panic => Some Panic
      | Ret (s, closed) => Some (Ret (e, s, default st closed))
      end
  end.

(** ** The send loop and keepalive *)

(** One turn of the inner loop of [sendLoop]: the queue is taken and written.
    [inl] goes on, [inr] returns.
    @go transport/drophaul/smux/session.go:531-549 Session.sendLoop *)
Definition sendLoop_turn {C : Type} (conn_Write : C -> list Z -> (Z * option err) * C)
    (conn : C) (s : Session) : go_result ((Session + Session) * C * deliveries) :=
  let '(batch, ws) := take_queue (s_ws s) in
  let s := s_set_ws s ws in
  match batch with
  | [] => Ret (inr s, conn, [])
  | _ =>
      match writeBatch conn_Write conn (ws_cells ws) batch with
      | (Panic, _) => Panic
      | (Ret e, st) =>
          let s := s_set_ws s (ws_set_cells ws (wb_cells st)) in
          match e with
          | Some e' => Ret (inr (notifyWriteError s e'), wb_conn st, wb_done st)
          | None => Ret (inl s, wb_conn st, wb_done st)
          end
      end
  end.

(** [rnd] is the value of [rand.Int63n(interval)].
    @go transport/drophaul/smux/session.go:466-471 keepaliveDelay *)
Definition keepaliveDelay (rnd : Z -> Z) (interval : Z) : Z :=
  if interval <=? 1 then interval else Z.quot interval 2 + rnd interval.

(** @go transport/drophaul/smux/session.go:473-482 Session.keepaliveFrame *)
Definition keepaliveFrame (c : Config) (intn : Z -> Z) (padBytes : list Z) : Frame :=
  let ver := u8 (Version c) in
  if negb (Padding c) then newFrame ver cmdNOP 0
  else with_data (newFrame ver cmdPAD 0) (ztake (16 + intn 225) padBytes).

(** The ping case: the frame handed to a new goroutine when none is in flight.
    @go transport/drophaul/smux/session.go:492-504 Session.keepalive *)
Definition keepalive_ping (intn : Z -> Z) (padBytes : list Z) (s : Session) : option Frame * Session :=
  let '(f, s) :=
    if s_pingInFlight s then (None, s)
    else (Some (keepaliveFrame (s_config s) intn padBytes), s_set_pingInFlight s true) in
  (f, notifyBucket s).

(** The goroutine the ping starts.
    @go transport/drophaul/smux/session.go:497-502 Session.keepalive *)
Definition ping_write (env : environment) (choice : nat) (f : Frame) (s : Session) : option Session :=
  match writeFrameInternal env (s_ws s) f CLSCTRL choice with
  | None => None
  | Some (_, ws) => Some (s_set_pingInFlight (s_set_ws s ws) false)
  end.

(** The timeout case; the boolean says the loop returned.
    @go transport/drophaul/smux/session.go:505-511 Session.keepalive *)
Definition keepalive_timeout (s : Session) : Session * bool :=
  if s_dataReady s then (s_set_dataReady s false, false)
  else if 0 <? s_bucket s then (snd (session_Close s), true) else (s, false).
