(* ===== verification/SmuxTokens.v ===== *)
(** * drophaul smux: receive tokens and buffer ownership

    Every operation of a client session is a step of [sess_step]; two facts
    hold in every reachable state.  The receive bucket plus the bytes buffered
    in the registered streams is the configured budget, so tokens are neither
    lost nor invented.  And every receive buffer has one owner: a pool class or
    one stream, never two. *)

From S2P Require Import Prelude SmuxFrame SmuxWrite SmuxSession.

(** ** Buffer identities *)

Definition pool_ids (a : Allocator) : list nat := map b_id (concat (a_buffers a)).

Lemma concat_insert_perm {A} (l : list (list A)) k x p :
  l !! k = Some (x :: p) -> concat l ≡ₚ x :: concat (<[k := p]> l).
Proof.
  revert k. induction l as [|q l IH]; intros [|k] H; simpl in *; try done.
  - by injection H as ->.
  - rewrite (IH k H). by rewrite Permutation_middle.
Qed.

Lemma concat_alter_cons {A} (l : list (list A)) k x :
  concat (alter (fun p => x :: p) k l) ⊆+ x :: concat l.
Proof.
  revert k. induction l as [|q l IH]; intros [|k]; simpl.
  - apply submseteq_cons, submseteq_nil_l.
  - apply submseteq_cons, submseteq_nil_l.
  - done.
  - etrans; [apply submseteq_app; [reflexivity|apply IH]|]. by rewrite Permutation_middle.
Qed.

Lemma alloc_Put_own a b r a' :
  alloc_Put a b = (r, a') -> pool_ids a' ⊆+ b_id b :: pool_ids a /\ a_fresh a' = a_fresh a.
Proof.
  unfold alloc_Put. cbv zeta. destruct (_ || _).
  - intros [= <- <-]. split; [apply submseteq_cons; reflexivity|done].
  - intros H. apply pair_equal_spec in H as [_ <-]. split; [|done].
    unfold pool_ids. cbn [a_buffers].
    change (b_id b :: map b_id (concat (a_buffers a))) with (map b_id (b :: concat (a_buffers a))).
    apply (fmap_submseteq b_id), concat_alter_cons.
Qed.

Lemma pool_get_own a k b a' :
  pool_get a k = (b, a') ->
  (b_id b = a_fresh a /\ pool_ids a' = pool_ids a /\ a_fresh a' = S (a_fresh a)) \/
  (pool_ids a ≡ₚ b_id b :: pool_ids a' /\ a_fresh a' = a_fresh a).
Proof.
  unfold pool_get. destruct (a_buffers a !! Z.to_nat k) as [[|b0 rest]|] eqn:E;
    intros [= <- <-]; [by left| |by left].
  right. split; [|done]. unfold pool_ids. cbn [a_buffers].
  change (b_id b0 :: map b_id ?l) with (map b_id (b0 :: l)).
  apply (fmap_Permutation b_id). by apply concat_insert_perm.
Qed.

(** A buffer handed out is fresh or leaves the pool. *)
Lemma alloc_Get_own a size b a' :
  alloc_Get a size = (Ret (Some b), a') ->
  (b_id b = a_fresh a /\ pool_ids a' = pool_ids a /\ a_fresh a' = S (a_fresh a)) \/
  (pool_ids a ≡ₚ b_id b :: pool_ids a' /\ a_fresh a' = a_fresh a).
Proof.
  unfold alloc_Get. destruct (_ || _); [discriminate|]. cbv zeta.
  destruct (size =? _); (destruct (pool_get a _) as [b0 a0] eqn:E; apply pool_get_own in E;
    unfold slice_to; destruct (size <=? b_cap b0); intros [= <- <-]; exact E).
Qed.

(** ** Buffered bytes *)

Definition bytes_of (bs : list slice) : list Z := concat (map sl_data bs).
Definition st_buffered (st : Stream) : Z := zlen (bytes_of (st_buffers st)).
Definition held (s : Session) : Z := zsum st_buffered (s_streams s).

(** A slice is a non-empty rest of the head it was cut from. *)
Definition slice_ok (b : slice) (h : buffer) : Prop :=
  sl_id b = b_id h /\ 0 < zlen (sl_data b) <= sl_cap b /\ sl_cap b <= b_cap h.
Definition stream_ok (st : Stream) : Prop := Forall2 slice_ok (st_buffers st) (st_heads st).

Definition head_ids (st : Stream) : list nat := map b_id (st_heads st).

(** All buffers somebody owns. *)
Definition own (s : Session) : list nat := pool_ids (s_alloc s) ++ mcat head_ids (s_streams s).

(** The session invariant (client side). *)
Record sess_inv (s : Session) : Prop := {
  i_config : config_ok (s_config s);
  i_client : s_client s = true;
  i_tokens : s_bucket s = i32 (MaxReceiveBuffer (s_config s) - held s);
  i_open : s_die s = false -> -65535 < MaxReceiveBuffer (s_config s) - held s;
  i_streams : forall sid st, s_streams s !! sid = Some st -> st_id st = sid /\ stream_ok st;
  i_alloc : alloc_ok (s_alloc s);
  i_own : NoDup (own s) /\ Forall (fun i => (i < a_fresh (s_alloc s))%nat) (own s);
  i_next : s_goAway s = false -> s_nextStreamID s mod 2 = 1 /\ 1 <= s_nextStreamID s < 4294967296;
  i_ids : s_goAway s = false -> forall sid, is_Some (s_streams s !! sid) -> sid <= s_nextStreamID s
}.

Lemma bytes_of_app l k : bytes_of (l ++ k) = bytes_of l ++ bytes_of k.
Proof. unfold bytes_of. by rewrite map_app, concat_app. Qed.

Lemma bytes_of_cons b l : bytes_of (b :: l) = sl_data b ++ bytes_of l.
Proof. reflexivity. Qed.

Lemma st_buffered_nonneg st : 0 <= st_buffered st.
Proof. apply zlen_nonneg. Qed.

Lemma i32_sub x y : i32 (i32 x - y) = i32 (x - y).
Proof.
  unfold i32, sgn. cbv zeta. change (2 ^ 32) with 4294967296. change (2 ^ (32 - 1)) with 2147483648.
  destruct (x mod 4294967296 <? 2147483648).
  - by rewrite Zminus_mod_idemp_l.
  - replace (x mod 4294967296 - 4294967296 - y) with (x mod 4294967296 - y + (-1) * 4294967296) by lia.
    by rewrite Z.mod_add, Zminus_mod_idemp_l by lia.
Qed.

Lemma i32_add_i32 x y : i32 (i32 x + i32 y) = i32 (x + y).
Proof.
  replace (i32 x + i32 y) with (i32 x - (- i32 y)) by lia. rewrite i32_sub.
  replace (x - - i32 y) with (i32 y - (- x)) by lia. rewrite i32_sub. f_equal. lia.
Qed.

Lemma i32_sub_i32 x y : i32 (i32 x - i32 y) = i32 (x - y).
Proof.
  rewrite i32_sub. replace (x - i32 y) with (- (i32 y - x)) by lia.
  unfold i32 at 1. assert (E : i32 (i32 y - x) = i32 (y - x)) by apply i32_sub.
  replace (- (i32 y - x)) with (x - y + - (i32 y - y)) by lia.
  assert (H : exists k, i32 y - y = k * 4294967296).
  { unfold i32, sgn. cbv zeta. change (2 ^ 32) with 4294967296.
    pose proof (Z.div_mod y 4294967296 ltac:(lia)). case_ifs.
    - exists (- (y / 4294967296)). lia.
    - exists (- (y / 4294967296) - 1). lia. }
  destruct H as [k ->]. unfold i32, sgn. change (2 ^ 32) with 4294967296.
  replace (x - y + - (k * 4294967296)) with (x - y + (- k) * 4294967296) by lia.
  by rewrite Z.mod_add by lia.
Qed.

(** ** One stream changes *)

(** The workhorse: a registered stream and the allocator change, the tokens
    follow the bytes, the buffers come from what the two owned. *)
Lemma sess_inv_update s s' sid st st' :
  sess_inv s -> s_streams s !! sid = Some st ->
  s_config s' = s_config s -> s_client s' = true -> s_goAway s' = s_goAway s ->
  s_nextStreamID s' = s_nextStreamID s -> (s_die s' = false -> s_die s = false) ->
  s_streams s' = <[sid := st']> (s_streams s) -> st_id st' = st_id st -> stream_ok st' ->
  alloc_ok (s_alloc s') ->
  s_bucket s' = i32 (s_bucket s + (st_buffered st - st_buffered st')) ->
  (s_die s' = false -> st_buffered st' <= st_buffered st \/
     (0 < s_bucket s /\ st_buffered st' <= st_buffered st + 65535)) ->
  (exists fresh, NoDup fresh /\ Forall (fun i => a_fresh (s_alloc s) <= i < a_fresh (s_alloc s'))%nat fresh /\
     pool_ids (s_alloc s') ++ head_ids st' ⊆+ fresh ++ pool_ids (s_alloc s) ++ head_ids st) ->
  (a_fresh (s_alloc s) <= a_fresh (s_alloc s'))%nat ->
  sess_inv s'.
Proof.
  intros [Hcfg Hcl Htok Hopen Hst Hal [Hnd Hfr] Hnx Hids] Hsid Ec Ecl Eg En Hd Es Eid Hok Hal' Eb Hb
    (fresh & Hnf & Hff & Hsub) Hfresh.
  assert (Hheld : held s' = held s - st_buffered st + st_buffered st').
  { unfold held. rewrite Es. by apply zsum_update. }
  constructor; rewrite ?Ec, ?Ecl, ?Eg, ?En; try done.
  - rewrite Eb, Htok, Hheld. replace (st_buffered st - st_buffered st') with (- (st_buffered st' - st_buffered st)) by lia.
    rewrite Z.add_opp_r, i32_sub. f_equal. lia.
  - intros Hd'. specialize (Hopen (Hd Hd')). rewrite Hheld.
    destruct (Hb Hd') as [Hle|[Hpos Hle]]; [lia|]. rewrite Htok in Hpos.
    destruct (decide (0 < MaxReceiveBuffer (s_config s) - held s)); [lia|].
    rewrite i32_small in Hpos by lia. lia.
  - intros k q Hk. rewrite Es in Hk. destruct (decide (sid = k)) as [->|Hne].
    + rewrite lookup_insert_eq in Hk. injection Hk as <-. rewrite Eid. split; [by apply (Hst k)|done].
    + rewrite lookup_insert_ne in Hk by done. by apply Hst.
  - assert (Hown : own s' ⊆+ fresh ++ own s).
    { unfold own. rewrite Es, (mcat_update head_ids sid st st') by done.
      rewrite (mcat_delete head_ids sid st (s_streams s)) by done.
      rewrite !app_assoc. apply submseteq_app; [|done]. by rewrite <- app_assoc. }
    assert (Hfresh_own : NoDup (fresh ++ own s)).
    { apply NoDup_app. split; [done|]. split; [|done]. intros i Hi Hi'.
      rewrite Forall_forall in Hff, Hfr. specialize (Hff i Hi). specialize (Hfr i Hi'). simpl in *. lia. }
    split; [by eapply submseteq_NoDup|]. eapply submseteq_Forall; [exact Hown|].
    apply Forall_app. split; [eapply Forall_impl; [exact Hff|]; simpl; lia|].
    eapply Forall_impl; [exact Hfr|]. simpl. lia.
  - intros Hg k Hk. apply Hids; [done|]. rewrite Es in Hk. destruct (decide (sid = k)) as [->|Hne]; [by rewrite Hsid|].
    by rewrite lookup_insert_ne in Hk.
Qed.

(** Operations that touch neither streams, tokens nor buffers. *)
Lemma sess_inv_frame s s' :
  sess_inv s ->
  s_config s' = s_config s -> s_client s' = s_client s -> s_goAway s' = s_goAway s ->
  s_nextStreamID s' = s_nextStreamID s -> (s_die s' = false -> s_die s = false) ->
  s_streams s' = s_streams s -> s_alloc s' = s_alloc s -> s_bucket s' = s_bucket s -> sess_inv s'.
Proof.
  intros [Hcfg Hcl Htok Hopen Hst Hal Hown Hnx Hids] Ec Ecl Eg En Hd Es Ea Eb.
  unfold own in Hown. constructor; unfold own, held in *; rewrite ?Ec, ?Ecl, ?Eg, ?En, ?Es, ?Ea, ?Eb; auto.
Qed.

(** ** What the write path can change *)

(** The other goroutines never reopen a session. *)
Definition env_ok (env : environment) : Prop :=
  forall reqs ws, ws_die ws = true -> ws_die (env reqs ws).1.1 = true.

Definition ws_only (s s' : Session) : Prop :=
  exists ws, s' = s_set_ws s ws /\ (s_die s = true -> ws_die ws = true).

(** Same stream, same received data. *)
Definition st_same (st st' : Stream) : Prop :=
  st_id st' = st_id st /\ st_buffers st' = st_buffers st /\ st_heads st' = st_heads st.

#[export] Instance st_same_preorder : PreOrder st_same.
Proof. split; [done|]. intros x y z (?&?&?) (?&?&?). repeat split; congruence. Qed.

Lemma s_set_ws_ws s ws ws' : s_set_ws (s_set_ws s ws) ws' = s_set_ws s ws'.
Proof. reflexivity. Qed.

#[export] Instance ws_only_preorder : PreOrder ws_only.
Proof.
  split.
  - intros s. exists (s_ws s). by destruct s.
  - intros x y z (w1 & -> & H1) (w2 & -> & H2). exists w2. split; [done|auto].
Qed.

Section WritePath.
Context (env : environment) (Henv : env_ok env).

Lemma writeFrameInternal_die ws f class choice r ws' :
  writeFrameInternal env ws f class choice = Some (r, ws') -> ws_die ws = true -> ws_die ws' = true.
Proof using Henv.
  unfold writeFrameInternal. destruct (select_ready _ _ _ _); [by intros [= <- <-]|].
  pose proof (Henv [mkReq class f (u32 (ws_requestID ws + 1)) (ws_next ws) false false]
    (enqueue (ws_alloc ws 1) [mkReq class f (u32 (ws_requestID ws + 1)) (ws_next ws) false false])) as He.
  destruct (env _ _) as [[ws2 res] evs]. simpl in He.
  destruct evs as [|[] ?]; intros [= <- <-]; apply He.
Qed.

Lemma writeData_die ws f dl class choice r ws' :
  writeData env ws f dl class choice = Some (r, ws') -> ws_die ws = true -> ws_die ws' = true.
Proof using Henv.
  unfold writeData. destruct (select_ready _ _ _ _); [by intros [= <- <-]|]. cbv zeta.
  set (req := mkReq _ _ _ _ _ _). pose proof (Henv [req] (enqueue (ws_alloc ws 1) [req])) as He.
  destruct (env _ _) as [[ws2 res] evs]. simpl in He.
  destruct evs as [|[] ?]; [done|by intros [= <- <-]|..];
    (destruct (abandon _ _ _ _ _) as [r2 c2]; intros [= <- <-]; apply He).
Qed.

Lemma writeGroup_die ws fs dl choice r ws' :
  writeGroup env ws fs dl choice = Some (r, ws') -> ws_die ws = true -> ws_die ws' = true.
Proof using Henv.
  unfold writeGroup. destruct (select_ready _ _ _ _); [by intros [= <- <-]|]. cbv zeta.
  set (reqs := group_requests _ _ _). pose proof (Henv reqs (enqueue (ws_alloc ws (length fs)) reqs)) as He.
  destruct (env _ _) as [[ws2 res] evs]. simpl in He.
  destruct (group_wait _ _ _ _ _) as [[r2 c2]|]; intros [= <- <-]. apply He.
Qed.

Lemma send_frames_only fuel k e ver cf class ws st bts sent r ws' st' :
  we_env e = env -> send_frames fuel k e ver cf class ws st bts sent = Some (r, ws', st') ->
  (ws_die ws = true -> ws_die ws' = true) /\ st_same st st'.
Proof using Henv.
  intros He. revert k ws st bts sent. induction fuel as [|fuel IH]; intros k ws st bts sent; simpl.
  { by intros [= <- <- <-]. }
  destruct (zlen bts <=? 0); [by intros [= <- <- <-]|]. rewrite He.
  destruct (writeData _ _ _ _ _ _) as [[[n er] ws1]|] eqn:W; [|done].
  pose proof (writeData_die _ _ _ _ _ _ _ W) as Hd. destruct er.
  - intros [= <- <- <-]. by split.
  - intros H. apply IH in H as [H1 H2]. split; [auto|]. etrans; [|exact H2]. by split.
Qed.
End WritePath.

Lemma sendWindowUpdate_only env choice s st c e s' :
  env_ok env -> sendWindowUpdate env choice s st c = Some (e, s') -> ws_only s s'.
Proof.
  intros He. unfold sendWindowUpdate. cbv zeta.
  destruct (writeFrameInternal _ _ _ _ _) as [[[n er] ws]|] eqn:W; [|done].
  intros [= <- <-]. exists ws. split; [done|]. by eapply writeFrameInternal_die.
Qed.

Lemma stream_padLen_same c st intn n pad st' : stream_padLen c st intn n = (pad, st') -> st_same st st'.
Proof. unfold stream_padLen. destruct (padLen _ _ _ _). by intros [= <- <-]. Qed.

Lemma write_v1_only e s st b r s' st' :
  env_ok (we_env e) -> write_v1 e s st b = Some (r, s', st') -> ws_only s s' /\ st_same st st'.
Proof.
  intros He. unfold write_v1. destruct (write_closed _ _); [intros [= <- <- <-]; split; reflexivity|].
  destruct (if 0 <? zlen b then _ else _) as [pad st1] eqn:P.
  assert (Hs : st_same st st1).
  { destruct (0 <? zlen b); [by eapply stream_padLen_same|]. by injection P as _ <-. }
  destruct (0 <? pad).
  - destruct (writeGroup _ _ _ _ _) as [[r1 ws]|] eqn:W; [|done]. intros [= <- <- <-].
    split; [exists ws; split; [done|by eapply writeGroup_die]|]. by etrans.
  - destruct (send_frames _ _ _ _ _ _ _ _ _ _) as [[[r1 ws] st2]|] eqn:W; [|done]. intros [= <- <- <-].
    eapply send_frames_only in W as [W1 W2]; [|done..]. split; [by exists ws|]. by etrans.
Qed.

Lemma writeV2_turn_only e s st b pad sent r s' st' b' pad' :
  env_ok (we_env e) -> writeV2_turn e s st b pad sent = Some (r, s', st', b', pad') ->
  ws_only s s' /\ st_same st st'.
Proof.
  intros He. unfold writeV2_turn. cbv zeta.
  destruct (send_window st) as [[infl win]|]; [|intros [= <- <- <- <- <-]; split; reflexivity].
  destruct (0 <? win); [|intros [= <- <- <- <- <-]; split; reflexivity]. simpl.
  destruct (cut_window win b) as [bts b1]. destruct (0 <? pad).
  - destruct (writeGroup _ _ _ _ _) as [[[n er] ws]|] eqn:W; [|done].
    pose proof (writeGroup_die _ He _ _ _ _ _ _ W) as Hd.
    destruct er; [intros [= <- <- <- <- <-]; split; [by exists ws|done]|].
    destruct (send_frames _ _ _ _ _ _ _ _ _ _) as [[[r1 ws2] st2]|] eqn:V; [|done].
    intros [= <- <- <- <- <-]. eapply send_frames_only in V as [V1 V2]; [|done..].
    split; [exists ws2; split; [done|auto]|]. etrans; [|exact V2]. done.
  - destruct (send_frames _ _ _ _ _ _ _ _ _ _) as [[[r1 ws2] st2]|] eqn:V; [|done].
    intros [= <- <- <- <- <-]. eapply send_frames_only in V as [V1 V2]; [|done..].
    split; [by exists ws2|done].
Qed.

(** ** Reading and recycling *)

(** What reading [st] into [st'] did: [data] left its front, the buffers went
    back to the allocator. *)
Definition consumed (a : Allocator) (st : Stream) (data : list Z) (a' : Allocator) (st' : Stream) : Prop :=
  bytes_of (st_buffers st) = data ++ bytes_of (st_buffers st') /\
  (stream_ok st' /\ st_id st' = st_id st) /\ alloc_ok a' /\ a_fresh a' = a_fresh a /\
  pool_ids a' ++ head_ids st' ⊆+ pool_ids a ++ head_ids st.

Lemma consumed_nil a st : alloc_ok a -> stream_ok st -> consumed a st [] a st.
Proof. intros. unfold consumed. by split_and!. Qed.

Lemma put_head_own (a : Allocator) h r a' hs :
  alloc_Put a h = (r, a') -> pool_ids a' ++ map b_id hs ⊆+ pool_ids a ++ b_id h :: map b_id hs.
Proof.
  intros P. apply alloc_Put_own in P as [P _]. rewrite <- Permutation_middle.
  change (b_id h :: pool_ids a ++ map b_id hs) with ((b_id h :: pool_ids a) ++ map b_id hs).
  by apply submseteq_app.
Qed.

Lemma read_first_spec a st blen :
  alloc_ok a -> stream_ok st -> 0 <= blen ->
  exists data a' st', read_first a st blen = Ret (data, a', st') /\ consumed a st data a' st' /\
    zlen data = Z.min blen (match st_buffers st with [] => 0 | b :: _ => zlen (sl_data b) end).
Proof.
  intros Ha Hok Hb. unfold read_first. unfold stream_ok in Hok.
  destruct (st_buffers st) as [|b bs] eqn:Eb.
  { exists [], a, st. split; [done|]. split; [|rewrite Z.min_r by lia; done].
    apply consumed_nil; [done|]. unfold stream_ok. by rewrite Eb. }
  apply Forall2_cons_inv_l in Hok as (h & hs & (Hid & Hlen & Hcap) & Hrest & Eh).
  cbv zeta. set (n := Z.min blen (zlen (sl_data b))). assert (0 <= n <= zlen (sl_data b)) by lia.
  assert (Hn : zlen (ztake n (sl_data b)) = n) by (rewrite zlen_ztake; lia). cbn [sl_data slice_from].
  destruct (zlen (zdrop n (sl_data b)) =? 0) eqn:Ez; zify_bool; rewrite zlen_zdrop in Ez by lia.
  - rewrite Eh. destruct (alloc_Put a h) as [r a'] eqn:P.
    exists (ztake n (sl_data b)), a', (st_set_heads (st_set_buffers st bs) hs).
    split; [done|]. split; [|done]. split; [|split; [done|]].
    + rewrite Eb, bytes_of_cons. cbn. rewrite ztake_all by lia. done.
    + split; [by eapply alloc_Put_ok; [| |exact P]; [|lia]|].
      split; [by apply alloc_Put_own in P as [_ ->]|]. unfold head_ids. rewrite Eh. by eapply put_head_own.
  - exists (ztake n (sl_data b)), a, (st_set_buffers st (slice_from b n :: bs)).
    split; [done|]. split; [|done]. split; [|split; [|done]].
    + rewrite Eb, !bytes_of_cons. cbn. by rewrite app_assoc, ztake_zdrop.
    + split; [|done]. unfold stream_ok. cbn. rewrite Eh. constructor; [|done].
      unfold slice_ok. cbn. rewrite zlen_zdrop by lia. repeat split; [done|lia..].
Qed.

Lemma recycle_loop_spec bs hs a :
  alloc_ok a -> Forall2 slice_ok bs hs ->
  exists a', recycle_loop a bs hs = Ret (zlen (bytes_of bs), a') /\ alloc_ok a' /\
    a_fresh a' = a_fresh a /\ pool_ids a' ⊆+ pool_ids a ++ map b_id hs.
Proof.
  intros Ha Hf. revert a Ha. induction Hf as [|b h bs hs (Hid & Hlen & Hcap) Hf IH]; intros a Ha.
  - exists a. cbn. by rewrite app_nil_r.
  - cbn [recycle_loop]. destruct (alloc_Put a h) as [r a1] eqn:P.
    destruct (IH a1) as (a2 & -> & Hok & Hfr & Hsub); [by eapply alloc_Put_ok; [| |exact P]; [|lia]|].
    exists a2. rewrite bytes_of_cons, zlen_app. split; [done|]. split; [done|].
    split; [by rewrite Hfr; apply alloc_Put_own in P as [_ ->]|].
    etrans; [exact Hsub|]. cbn. by eapply put_head_own.
Qed.

Lemma returnTokens_bucket s n : s_bucket (returnTokens s n) = i32 (s_bucket s + i32 n).
Proof. unfold returnTokens. cbv zeta. by destruct (0 <? _). Qed.

Lemma i32_add_small x y : i32 (x + i32 y) = i32 (x + y).
Proof.
  rewrite <- (i32_add_i32 x y). replace (x + i32 y) with (x - - i32 y) by lia.
  rewrite <- i32_sub. f_equal. lia.
Qed.

(** ** The operations preserve the invariant *)

(** What no operation on a stream touches; a closed session stays closed. *)
Definition same_frame (s s' : Session) : Prop :=
  s_config s' = s_config s /\ s_client s' = s_client s /\ s_goAway s' = s_goAway s /\
  s_nextStreamID s' = s_nextStreamID s /\ (s_die s = true -> s_die s' = true).

#[export] Instance same_frame_preorder : PreOrder same_frame.
Proof.
  split; [done|]. intros x y z (?&?&?&?&?) (?&?&?&?&?). repeat split; try congruence. auto.
Qed.

Lemma ws_only_frame s s' :
  ws_only s s' -> same_frame s s' /\ s_streams s' = s_streams s /\ s_alloc s' = s_alloc s /\ s_bucket s' = s_bucket s.
Proof. intros (ws & -> & H). done. Qed.

Lemma die_mono (s s' : Session) : (s_die s = true -> s_die s' = true) -> s_die s' = false -> s_die s = false.
Proof. destruct (s_die s); [|done]. intros H. by rewrite H. Qed.

Lemma sess_inv_bucket s : sess_inv s -> i32 (s_bucket s) = s_bucket s.
Proof. intros H. rewrite (i_tokens s H). apply i32_small, i32_range. Qed.

(** A reader takes [data] out of a registered stream. *)
Lemma sess_inv_consume s s' sid st data st' :
  sess_inv s -> s_streams s !! sid = Some st -> same_frame s s' ->
  consumed (s_alloc s) st data (s_alloc s') st' ->
  s_streams s' = <[sid := st']> (s_streams s) -> s_bucket s' = i32 (s_bucket s + zlen data) -> sess_inv s'.
Proof.
  intros Hi Hsid (E1 & E2 & E3 & E4 & E5) (C1 & (C2 & C3) & C4 & C5 & C6) Es Eb.
  assert (Hb : st_buffered st = zlen data + st_buffered st') by (unfold st_buffered; by rewrite C1, zlen_app).
  pose proof (zlen_nonneg data). eapply (sess_inv_update s s' sid st st'); eauto.
  - rewrite E2. apply i_client, Hi.
  - by apply die_mono.
  - rewrite Eb. f_equal. lia.
  - intros _. left. lia.
  - exists []. rewrite C5. split; [constructor|]. split; [constructor|done].
  - lia.
Qed.

(** A stream changes, but not what it has received. *)
Lemma sess_inv_local s s' sid st st' :
  sess_inv s -> s_streams s !! sid = Some st -> same_frame s s' -> st_same st st' ->
  s_streams s' = <[sid := st']> (s_streams s) -> s_alloc s' = s_alloc s -> s_bucket s' = s_bucket s ->
  sess_inv s'.
Proof.
  intros Hi Hsid Hf (E1 & E2 & E3) Es Ea Eb. pose proof (i_streams s Hi sid st Hsid) as [_ Hok].
  eapply (sess_inv_consume s s' sid st [] st'); eauto.
  - rewrite Ea. unfold consumed, stream_ok, head_ids. rewrite E2, E3. split_and!; auto. apply i_alloc, Hi.
  - rewrite Eb, zlen_nil, Z.add_0_r. symmetry. by apply sess_inv_bucket.
Qed.

Lemma consumed_same a st data a' st' st'' :
  consumed a st data a' st' -> st_same st' st'' -> consumed a st data a' st''.
Proof.
  intros (C1 & (C2 & C3) & C4 & C5 & C6) (E1 & E2 & E3). unfold consumed, stream_ok, head_ids in *.
  rewrite E1, E2, E3. by split_and!.
Qed.

Lemma count_read_same c st n st' k : count_read c st n = (st', k) -> st_same st st'.
Proof. unfold count_read. cbv zeta. destruct (_ || _); by intros [= <- <-]. Qed.

(** The outcome of a read of at most [blen] bytes: what it returns left the
    front of the stream's bytes, its tokens are back in the bucket, and it comes
    back empty-handed only with an error. *)
Record read_ok (s : Session) (st : Stream) (blen : Z) (data : list Z) (e : option err)
    (s' : Session) (st' : Stream) : Prop := {
  r_frame : same_frame s s';
  r_consumed : consumed (s_alloc s) st data (s_alloc s') st';
  r_streams : s_streams s' = s_streams s;
  r_bucket : s_bucket s' = i32 (s_bucket s + zlen data);
  r_bound : zlen data <= blen;
  r_progress : 0 < blen -> (0 < zlen data <-> hasBuffered st = true) /\ (data = [] -> e <> None)
}.

Lemma read_ok_nil s st blen e s' st' :
  sess_inv s -> same_frame s s' -> consumed (s_alloc s) st [] (s_alloc s') st' ->
  s_streams s' = s_streams s -> s_bucket s' = s_bucket s -> 0 <= blen ->
  (0 < blen -> hasBuffered st = false /\ e <> None) -> read_ok s st blen [] e s' st'.
Proof.
  intros Hi Hf Hc Hs Hb Hbl He. split; auto.
  - rewrite zlen_nil, Z.add_0_r, Hb. symmetry. by apply sess_inv_bucket.
  - intros Hp. destruct (He Hp) as [-> ?]. done.
Qed.

(** A read that took [data], returned its tokens and perhaps sent a window
    update. *)
Lemma read_ok_data s st blen data e a s' st' :
  ws_only (returnTokens (s_set_alloc s a) (zlen data)) s' ->
  consumed (s_alloc s) st data a st' -> 0 < zlen data <= blen -> hasBuffered st = true ->
  read_ok s st blen data e s' st'.
Proof.
  intros Hw Hc Hd Hb. apply ws_only_frame in Hw as (Hf & Hs & Hal & Hbu).
  assert (Hret : same_frame s (returnTokens (s_set_alloc s a) (zlen data)) /\
    s_streams (returnTokens (s_set_alloc s a) (zlen data)) = s_streams s /\
    s_alloc (returnTokens (s_set_alloc s a) (zlen data)) = a)
    by (unfold returnTokens; cbv zeta; destruct (0 <? _); done).
  destruct Hret as (R1 & R2 & R3). split.
  - by etrans.
  - by rewrite Hal, R3.
  - by rewrite Hs.
  - rewrite Hbu, returnTokens_bucket. apply i32_add_small.
  - lia.
  - intros _. split; [split; [done|lia]|]. intros ->. unfold zlen in Hd; simpl in Hd; lia.
Qed.

Lemma hasBuffered_first st blen :
  stream_ok st -> 0 < blen ->
  0 < Z.min blen (match st_buffers st with [] => 0 | b :: _ => zlen (sl_data b) end) <-> hasBuffered st = true.
Proof.
  intros Hok Hb. unfold hasBuffered, stream_ok in *. destruct (st_buffers st) as [|b bs]; [split; [lia|done]|].
  apply Forall2_cons_inv_l in Hok as (h & hs & (_ & Hl & _) & _). split; [done|lia].
Qed.

Lemma tryRead_spec env choice s sid st blen out :
  env_ok env -> sess_inv s -> s_streams s !! sid = Some st -> 0 <= blen ->
  tryRead env choice s st blen = Some out ->
  exists data e s' st', out = Ret ((data, e), s', st') /\ read_ok s st blen data e s' st'.
Proof.
  intros He Hi Hsid Hb Hr. pose proof (i_alloc s Hi) as Ha. pose proof (i_streams s Hi sid st Hsid) as [_ Hok].
  destruct (read_first_spec (s_alloc s) st blen Ha Hok Hb) as (data & a & st1 & Hrf & Hc & Hlen).
  pose proof (zlen_nonneg data) as Hpos.
  assert (Hz : blen = 0 -> read_ok s st blen [] None s st).
  { intros ->. apply read_ok_nil; done. }
  assert (Hne : blen <> 0 -> 0 < zlen data -> 0 < zlen data <= blen /\ hasBuffered st = true).
  { intros H1 H2. split; [lia|]. apply (hasBuffered_first st blen Hok); lia. }
  assert (Hnil : forall e st', e <> None -> blen <> 0 -> zlen data <= 0 -> st_same st1 st' ->
    read_ok s st blen [] e (s_set_alloc s a) st').
  { intros e st' Hen H1 H2 Hs. apply read_ok_nil; try done.
    - rewrite (zlen_zero_nil data) in Hc by lia. by eapply consumed_same.
    - intros _. split; [|done]. destruct (hasBuffered st) eqn:Hbuf; [|done].
      apply (hasBuffered_first st blen Hok) in Hbuf; lia. }
  unfold tryRead, tryReadv2, tryRead_v1 in Hr. rewrite Hrf in Hr. cbv zeta in Hr.
  destruct (Version (s_config s) =? 2); destruct (blen =? 0) eqn:Ebl; zify_bool;
    try (injection Hr as <-; do 4 eexists; split; [reflexivity|by apply Hz]).
  - destruct (count_read _ _ _) as [st2 k] eqn:K. apply count_read_same in K.
    destruct (0 <? zlen data) eqn:Ed; zify_bool.
    + destruct (Hne Ebl Ed) as [Hbd Hbuf]. assert (Hc2 := consumed_same _ _ _ _ _ _ Hc K).
      destruct (0 <? k); [|injection Hr as <-; do 4 eexists; split; [reflexivity|]; by eapply read_ok_data].
      destruct (sendWindowUpdate _ _ _ _ _) as [[[e|] s1]|] eqn:U; [| |done];
        apply sendWindowUpdate_only in U; try done; [destruct (IsClosed s1)|]; injection Hr as <-;
        do 4 eexists; (split; [reflexivity|]; by eapply read_ok_data).
    + destruct (st_die st2); injection Hr as <-; do 4 eexists; (split; [reflexivity|]; by apply Hnil).
  - destruct (0 <? zlen data) eqn:Ed; zify_bool.
    + injection Hr as <-. destruct (Hne Ebl Ed) as [Hbd Hbuf]. do 4 eexists. split; [reflexivity|]. by eapply read_ok_data.
    + destruct (st_die st1); injection Hr as <-; do 4 eexists; (split; [reflexivity|]; by apply Hnil).
Qed.

(** What any reader does to the session. *)
Definition drained (s : Session) (st : Stream) (data : list Z) (s' : Session) (st' : Stream) : Prop :=
  same_frame s s' /\ consumed (s_alloc s) st data (s_alloc s') st' /\
  s_streams s' = s_streams s /\ s_bucket s' = i32 (s_bucket s + zlen data).

Lemma read_ok_drained s st blen data e s' st' : read_ok s st blen data e s' st' -> drained s st data s' st'.
Proof. by intros [? ? ? ? _ _]. Qed.

Lemma sess_inv_drained s sid st data s' st' :
  sess_inv s -> s_streams s !! sid = Some st -> drained s st data s' st' ->
  sess_inv (s_set_streams s' (<[sid := st']> (s_streams s'))).
Proof.
  intros Hi Hsid (Hf & Hc & Hs & Hb). eapply (sess_inv_consume s _ sid st data st'); eauto.
  cbn [s_set_streams s_streams]. by rewrite Hs.
Qed.

Lemma waitRead_same dl choice s st r st' : waitRead dl choice s st = Some (r, st') -> st_same st st'.
Proof.
  unfold waitRead. cbv zeta. intros H. apply list_elem_of_lookup_2 in H.
  repeat (apply elem_of_app in H as [H|H]); repeat match type of H with
    | context [if ?b then _ else _] => destruct b
    end; try (apply elem_of_nil in H; done);
    apply list_elem_of_singleton in H; apply pair_equal_spec in H as [_ ->]; done.
Qed.

(** [WriteTo] hands over the first buffer whole and puts what is left of its
    array back. *)
Lemma take_first_spec a st :
  alloc_ok a -> stream_ok st ->
  take_first st = Ret (None, st) \/
  exists b st', take_first st = Ret (Some b, st') /\ 0 < zlen (sl_data b) /\
    consumed a st (sl_data b) (alloc_Put a (mkBuffer (sl_id b) (sl_cap b))).2 st'.
Proof.
  intros Ha Hok. unfold take_first, stream_ok in *. destruct (st_buffers st) as [|b bs] eqn:Eb; [by left|right].
  apply Forall2_cons_inv_l in Hok as (h & hs & (Hid & Hlen & Hcap) & Hrest & Eh). rewrite Eh.
  exists b, (st_set_heads (st_set_buffers st bs) hs). split; [done|]. split; [lia|].
  destruct (alloc_Put a (mkBuffer (sl_id b) (sl_cap b))) as [r a'] eqn:P. cbn [snd].
  unfold consumed. rewrite Eb, bytes_of_cons. split_and!; try done.
  - eapply alloc_Put_ok; [done| |exact P]. simpl. lia.
  - by apply alloc_Put_own in P as [_ ->].
  - unfold head_ids. rewrite Eh. cbn [map]. rewrite <- Hid. by eapply put_head_own in P.
Qed.

Lemma drained_refl s st st' :
  sess_inv s -> stream_ok st -> st_same st st' -> drained s st [] s st'.
Proof.
  intros Hi Hok Hs. split_and!; try done.
  - eapply consumed_same; [|exact Hs]. apply consumed_nil; [apply i_alloc, Hi|done].
  - rewrite zlen_nil, Z.add_0_r. symmetry. by apply sess_inv_bucket.
Qed.

(** Writing the buffer out, returning tokens and the array; afterwards a
    window update may go out. *)
Lemma drained_put s st b st1 st' s' :
  consumed (s_alloc s) st (sl_data b) (alloc_Put (s_alloc s) (mkBuffer (sl_id b) (sl_cap b))).2 st1 ->
  st_same st1 st' ->
  ws_only (s_set_alloc (returnTokens s (zlen (sl_data b)))
             (alloc_Put (s_alloc s) (mkBuffer (sl_id b) (sl_cap b))).2) s' ->
  drained s st (sl_data b) s' st'.
Proof.
  intros Hc Hsame Hw. apply ws_only_frame in Hw as (Hf & Hs & Hal & Hbu).
  assert (Hret : same_frame s (returnTokens s (zlen (sl_data b))) /\
    s_streams (returnTokens s (zlen (sl_data b))) = s_streams s)
    by (unfold returnTokens; cbv zeta; destruct (0 <? _); done).
  destruct Hret as [R1 R2]. cbn [s_set_alloc s_streams s_alloc s_bucket] in *. split_and!.
  - etrans; [exact R1|]. exact Hf.
  - rewrite Hal. by eapply consumed_same.
  - by rewrite Hs.
  - rewrite Hbu, returnTokens_bucket. apply i32_add_small.
Qed.

Lemma returnTokens_alloc s n : s_alloc (returnTokens s n) = s_alloc s.
Proof. unfold returnTokens. cbv zeta. by destruct (0 <? _). Qed.

Lemma WriteTo_turn_spec w_Write w s sid st n out :
  sess_inv s -> s_streams s !! sid = Some st -> wt_others w = pair ->
  WriteTo_turn w_Write w s st n = Some out ->
  exists data r s' st', out = Ret (r, s', st') /\ drained s st data s' st'.
Proof.
  intros Hi Hsid Hw H. pose proof (i_streams s Hi sid st Hsid) as [_ Hok]. unfold WriteTo_turn in H.
  destruct (take_first_spec (s_alloc s) st (i_alloc s Hi) Hok) as [E|(b & st1 & E & Hp & Hc)]; rewrite E in H.
  - rewrite Hw in H. destruct (waitRead _ _ _ _) as [[[e|] st2]|] eqn:W; [| |done];
      apply waitRead_same in W; injection H as <-; exists []; do 3 eexists;
      (split; [reflexivity|]; by apply drained_refl).
  - destruct (w_Write (sl_data b)) as [nw ew]. cbv zeta in H. rewrite returnTokens_alloc in H.
    destruct (alloc_Put _ _) as [r a] eqn:P.
    assert (Hd : drained s st (sl_data b) (s_set_alloc (returnTokens s (zlen (sl_data b))) a) st1)
      by (eapply drained_put; [by rewrite P|reflexivity|by rewrite P]).
    destruct ew; injection H as <-; do 4 eexists; (split; [reflexivity|exact Hd]).
Qed.

Lemma writeTov2_turn_spec w_Write env w s sid st n out :
  env_ok env -> sess_inv s -> s_streams s !! sid = Some st -> wt_others w = pair ->
  writeTov2_turn w_Write env w s st n = Some out ->
  exists data r s' st', out = Ret (r, s', st') /\ drained s st data s' st'.
Proof.
  intros He Hi Hsid Hw H. pose proof (i_streams s Hi sid st Hsid) as [_ Hok]. unfold writeTov2_turn in H.
  destruct (take_first_spec (s_alloc s) st (i_alloc s Hi) Hok) as [E|(b & st1 & E & Hp & Hc)];
    rewrite E in H; destruct (count_read _ _ _) as [st2 k] eqn:K; apply count_read_same in K.
  - rewrite Hw in H. destruct (waitRead _ _ _ _) as [[[e|] st3]|] eqn:W; [| |done];
      apply waitRead_same in W; injection H as <-; exists []; do 3 eexists;
      (split; [reflexivity|]; apply drained_refl; try done; by etrans).
  - destruct (w_Write (sl_data b)) as [nw ew]. cbv zeta in H. rewrite returnTokens_alloc in H.
    destruct (alloc_Put _ _) as [r a] eqn:P.
    assert (Hd : forall s', ws_only (s_set_alloc (returnTokens s (zlen (sl_data b))) a) s' ->
      drained s st (sl_data b) s' st2) by (intros s' Hs'; eapply drained_put; rewrite ?P; done).
    destruct ew; [injection H as <-; do 4 eexists; split; [reflexivity|]; apply Hd; reflexivity|].
    destruct (0 <? k); [|injection H as <-; do 4 eexists; split; [reflexivity|]; apply Hd; reflexivity].
    destruct (sendWindowUpdate _ _ _ _ _) as [[[e|] s1]|] eqn:U; [| |done];
      apply sendWindowUpdate_only in U; try done; [destruct (IsClosed s1)|]; injection H as <-;
      do 4 eexists; (split; [reflexivity|]; by apply Hd).
Qed.

(** ** Closing and opening streams *)

Lemma sess_inv_delete s s' sid st :
  sess_inv s -> s_streams s !! sid = Some st -> same_frame s s' ->
  s_streams s' = delete sid (s_streams s) -> s_bucket s' = i32 (s_bucket s + st_buffered st) ->
  alloc_ok (s_alloc s') -> a_fresh (s_alloc s') = a_fresh (s_alloc s) ->
  pool_ids (s_alloc s') ⊆+ pool_ids (s_alloc s) ++ head_ids st -> sess_inv s'.
Proof.
  intros [Hcfg Hcl Htok Hopen Hst Hal [Hnd Hfr] Hnx Hids] Hsid (E1 & E2 & E3 & E4 & E5) Es Eb Ha Hf Hsub.
  assert (Hheld : held s = st_buffered st + held s') by (unfold held; rewrite Es; by apply zsum_delete).
  pose proof (st_buffered_nonneg st).
  assert (Hown : own s' ⊆+ own s).
  { unfold own. rewrite Es, (mcat_delete head_ids sid st (s_streams s)) by done.
    rewrite app_assoc. by apply submseteq_app. }
  constructor; rewrite ?E1, ?E2, ?E3, ?E4; auto.
  - rewrite Eb, Htok, <- i32_add_small. rewrite i32_add_i32. f_equal. lia.
  - intros Hd. specialize (Hopen (die_mono s s' E5 Hd)). lia.
  - intros k q Hk. rewrite Es in Hk. apply lookup_delete_Some in Hk as [_ Hk]. by apply Hst.
  - rewrite Hf. split; [by eapply submseteq_NoDup|by eapply submseteq_Forall].
  - intros Hg k Hk. apply Hids; [done|]. rewrite Es in Hk. destruct Hk as [q Hk].
    apply lookup_delete_Some in Hk as [_ Hk]. by exists q.
Qed.

(** Every registered stream may change, none of its data. *)
Lemma sess_inv_fmap s s' g :
  sess_inv s -> (forall st, st_same st (g st)) -> same_frame s s' -> s_streams s' = g <$> s_streams s ->
  s_bucket s' = s_bucket s -> s_alloc s' = s_alloc s -> sess_inv s'.
Proof.
  intros [Hcfg Hcl Htok Hopen Hst Hal [Hnd Hfr] Hnx Hids] Hg (E1 & E2 & E3 & E4 & E5) Es Eb Ea.
  assert (Hheld : held s' = held s).
  { unfold held. rewrite Es. apply zsum_fmap. intros x. unfold st_buffered. by destruct (Hg x) as (_ & -> & _). }
  assert (Hown : own s' ≡ₚ own s).
  { unfold own. rewrite Es, Ea, mcat_fmap; [done|]. intros x. unfold head_ids. by destruct (Hg x) as (_ & _ & ->). }
  constructor; rewrite ?E1, ?E2, ?E3, ?E4, ?Ea, ?Hheld, ?Eb; auto.
  - intros Hd. apply Hopen. by apply (die_mono s s').
  - intros k q Hk. rewrite Es, lookup_fmap in Hk. destruct (s_streams s !! k) as [q0|] eqn:E; [|done].
    injection Hk as <-. destruct (Hst k q0 E) as [H1 H2]. destruct (Hg q0) as (G1 & G2 & G3).
    unfold stream_ok. by rewrite G1, G2, G3.
  - by rewrite Hown.
  - intros Hgo k Hk. apply Hids; [done|]. rewrite Es, lookup_fmap in Hk. by apply fmap_is_Some in Hk.
Qed.

Lemma streamClosed_spec s sid :
  sess_inv s -> exists s' o, streamClosed s sid = Ret (s', o) /\ sess_inv s' /\ same_frame s s' /\
    s_streams s' = delete sid (s_streams s) /\
    s_bucket s' = i32 (s_bucket s + default 0 (st_buffered <$> s_streams s !! sid)).
Proof.
  intros Hi. unfold streamClosed. destruct (s_streams s !! sid) as [st|] eqn:Es.
  - pose proof (i_streams s Hi sid st Es) as [_ Hok]. unfold recycleTokens.
    destruct (recycle_loop_spec (st_buffers st) (st_heads st) (s_alloc s) (i_alloc s Hi) Hok)
      as (a & -> & Ha & Hf & Hsub).
    set (n := zlen (bytes_of (st_buffers st))). pose proof (zlen_nonneg (bytes_of (st_buffers st))) as Hn.
    fold n in Hn. assert (Eb : i32 (s_bucket s + i32 n) = i32 (s_bucket s + n)) by apply i32_add_small.
    match goal with |- context [Ret (s_set_streams ?s1 _, _)] => set (s2 := s1) end.
    assert (H2 : same_frame s s2 /\ s_streams s2 = s_streams s /\ s_alloc s2 = a /\ s_bucket s2 = i32 (s_bucket s + n)).
    { subst s2. destruct (0 <? n) eqn:En; zify_bool.
      - destruct (0 <? i32 (s_bucket s + i32 n)) eqn:E2;
          cbn [s_set_alloc s_bucket] in *; rewrite ?E2; (split_and!; [done..|exact Eb]).
      - replace n with 0 by lia. rewrite Z.add_0_r. split_and!; [done..|]. symmetry. exact (sess_inv_bucket s Hi). }
    destruct H2 as (F1 & F2 & F3 & F4). do 2 eexists. split; [reflexivity|].
    rewrite <- F2. split_and!; try done.
    eapply (sess_inv_delete s _ sid st); try done; cbn [s_set_streams s_streams s_alloc]; rewrite ?F2, ?F3; done.
  - do 2 eexists. split; [reflexivity|]. rewrite delete_id by done.
    replace (s_set_streams s (s_streams s)) with s by (by destruct s).
    split_and!; try done. cbn. rewrite Z.add_0_r. symmetry. by apply sess_inv_bucket.
Qed.

Lemma session_Close_inv s : sess_inv s -> sess_inv (session_Close s).2 /\ same_frame s (session_Close s).2.
Proof.
  intros Hi. unfold session_Close. destruct (s_die s) eqn:E; [by split|]. split.
  - eapply (sess_inv_fmap s _ sessionClose); done.
  - unfold same_frame. rewrite E. by split_and!.
Qed.

(** [OpenStream] registers a fresh, empty stream. *)
Lemma sess_inv_insert s s' sid st :
  sess_inv s -> s_streams s !! sid = None -> same_frame s s' -> st_id st = sid ->
  st_buffers st = [] -> st_heads st = [] -> s_streams s' = <[sid := st]> (s_streams s) ->
  (s_goAway s = false -> sid <= s_nextStreamID s) ->
  s_bucket s' = s_bucket s -> s_alloc s' = s_alloc s -> sess_inv s'.
Proof.
  intros [Hcfg Hcl Htok Hopen Hst Hal Hown Hnx Hids] Hsid (E1 & E2 & E3 & E4 & E5) Eid Ebf Ehd Es Hle Eb Ea.
  assert (Hheld : held s' = held s).
  { unfold held. rewrite Es, zsum_insert by done. unfold st_buffered. by rewrite Ebf. }
  assert (Hown' : own s' ≡ₚ own s).
  { unfold own. rewrite Es, Ea, (mcat_insert head_ids sid st) by done. unfold head_ids at 1. by rewrite Ehd. }
  constructor; rewrite ?E1, ?E2, ?E3, ?E4, ?Ea, ?Hheld, ?Eb; auto.
  - intros Hd. apply Hopen. by apply (die_mono s s').
  - intros k q Hk. rewrite Es in Hk. apply lookup_insert_Some in Hk as [[<- <-]|[_ Hk]]; [|by apply Hst].
    split; [done|]. unfold stream_ok. by rewrite Ebf, Ehd.
  - by rewrite Hown'.
  - intros Hgo k Hk. rewrite Es in Hk. destruct (decide (sid = k)) as [<-|Hne]; [auto|].
    rewrite lookup_insert_ne in Hk by done. by apply Hids.
Qed.

(** Stream ids of a client are odd and grow until the counter wraps. *)
Lemma alloc_stream_id_spec s :
  sess_inv s ->
  let '(o, s') := alloc_stream_id s in
  sess_inv s' /\ s_streams s' = s_streams s /\ s_ws s' = s_ws s /\ s_bucket s' = s_bucket s /\
  match o with
  | Some sid => sid = s_nextStreamID s + 2 /\ s_goAway s = false /\ s_nextStreamID s' = sid /\ s_goAway s' = false /\
                s_streams s !! sid = None /\ sid mod 2 = 1
  | None => s_goAway s' = true
  end.
Proof.
  intros Hi. unfold alloc_stream_id. destruct (s_goAway s) eqn:Eg; [by split_and!|]. cbv zeta.
  destruct (i_next s Hi Eg) as [Hodd Hr]. pose proof (i_ids s Hi Eg) as Hids.
  set (sid := u32 (s_nextStreamID s + 2)).
  destruct Hi as [Hcfg Hcl Htok Hopen Hst Hal Hown Hnx _].
  destruct (sid =? sid mod 2) eqn:E; zify_bool.
  - split; [by constructor|by split_and!].
  - assert (Hlt : sid = s_nextStreamID s + 2).
    { unfold sid. destruct (decide (s_nextStreamID s + 2 < 4294967296)); [by apply u32_small; lia|].
      exfalso. apply E. assert (s_nextStreamID s = 4294967295).
      { destruct (decide (s_nextStreamID s = 4294967294)) as [H|]; [rewrite H in Hodd; discriminate|lia]. }
      unfold sid. by replace (s_nextStreamID s) with 4294967295 by lia. }
    assert (Ho2 : sid mod 2 = 1) by (rewrite Hlt, <- Hodd; apply (Z.mod_add _ 1 2); lia).
    assert (Hu : 0 <= sid < 4294967296) by apply u32_range.
    split.
    + constructor; try done.
      * intros _. cbn. split; [done|lia].
      * intros _ k Hk. specialize (Hids k Hk). cbn. lia.
    + do 3 (split; [done|]). split_and!; try done. apply eq_None_not_Some. intros Hk. specialize (Hids sid Hk). lia.
Qed.

Lemma writeFrame_die env ws f choice r ws' :
  env_ok env -> writeFrame env ws f choice = Some (r, ws') -> ws_die ws = true -> ws_die ws' = true.
Proof. intros He. by apply writeFrameInternal_die. Qed.

Lemma sess_inv_ws s ws : sess_inv s -> (s_die s = true -> ws_die ws = true) -> sess_inv (s_set_ws s ws).
Proof. intros Hi Hd. eapply (sess_inv_frame s); try done. by apply die_mono. Qed.

Lemma OpenStream_inv env choice s r s' :
  env_ok env -> sess_inv s -> OpenStream env id choice s = Some (r, s') -> sess_inv s'.
Proof.
  intros He Hi. unfold OpenStream, IsClosed. destruct (s_die s); [by intros [= <- <-]|].
  pose proof (alloc_stream_id_spec s Hi) as Ha. destruct (alloc_stream_id s) as [[sid|] s1].
  - destruct Ha as (Hi1 & Hs1 & Hw1 & Hb1 & -> & _ & Hn1 & _ & Hnone & _). cbv zeta.
    destruct (writeFrame _ _ _ _) as [[[n [e|]] ws]|] eqn:W; [| |done].
    + intros [= <- <-]. apply sess_inv_ws; [done|]. by eapply writeFrame_die.
    + assert (Hi2 : sess_inv (s_set_ws s1 ws)) by (apply sess_inv_ws; [done|]; by eapply writeFrame_die).
      cbn [id]. destruct (lookup (choice mod _)%nat _); intros [= <- <-]; [done|].
      eapply (sess_inv_insert (s_set_ws s1 ws) _ (s_nextStreamID s + 2) (newStream (s_nextStreamID s + 2) _));
        try done; cbn [s_set_ws s_streams s_nextStreamID]; [by rewrite Hs1|intros _; rewrite Hn1; reflexivity].
  - intros [= <- <-]. apply Ha.
Qed.

Lemma stream_Close_spec env choice s sid st out :
  env_ok env -> sess_inv s -> s_streams s !! sid = Some st -> stream_Close env choice s st = Some out ->
  exists r s' st', out = Ret (r, s', st') /\ sess_inv s' /\
    (st_die st = false -> s_streams s' = delete sid (s_streams s) /\
       s_bucket s' = i32 (s_bucket s + st_buffered st)).
Proof.
  intros He Hi Hsid. destruct (i_streams s Hi sid st Hsid) as [Hid Hok]. unfold stream_Close.
  destruct (st_die st) eqn:Ed; [intros [= <-]; by do 4 eexists|]. cbv zeta. cbn [st_set_die st_id]. rewrite Hid.
  set (st1 := st_set_die st true).
  set (s1 := s_set_streams s (alter (fun _ => st1) sid (s_streams s))).
  assert (E1 : s_streams s1 = <[sid := st1]> (s_streams s)).
  { apply map_eq. intros k. cbn. destruct (decide (sid = k)) as [<-|Hne].
    - by rewrite lookup_alter_eq, lookup_insert_eq, Hsid.
    - by rewrite lookup_alter_ne, lookup_insert_ne. }
  assert (Hi1 : sess_inv s1) by (eapply (sess_inv_local s s1 sid st st1); done).
  destruct (writeFrameInternal _ _ _ _ _) as [[[n e] ws]|] eqn:W; [|done].
  assert (Hi2 : sess_inv (s_set_ws s1 ws)) by (apply sess_inv_ws; [done|]; by eapply writeFrameInternal_die).
  destruct (streamClosed_spec (s_set_ws s1 ws) sid Hi2) as (s2 & o & -> & Hi3 & Hf & Hs3 & Hb3).
  intros [= <-]. do 3 eexists. split; [reflexivity|]. split; [done|]. intros _.
  rewrite Hs3, Hb3. cbn [s_set_ws s_streams s_bucket]. rewrite E1, lookup_insert_eq.
  split; [|done]. by rewrite delete_insert_eq.
Qed.

(** ** The receive loop *)

Definition recv_ok (s : Session) (input : list Z) (out : recv_out) : Prop :=
  match out with
  | RecvMore s' rest => sess_inv s' /\ same_frame s s' /\ exists used, input = used ++ rest
  | RecvStop s' => sess_inv s' /\ s_die s' = true
  | RecvWait _ => False
  | RecvPanic => False
  end.

Lemma read_full_spec n input data rest :
  0 <= n -> read_full n input = Some (data, rest) -> input = data ++ rest /\ zlen data = n.
Proof.
  intros Hn. unfold read_full. destruct (zlen input <? n) eqn:E; [done|]. zify_bool. intros [= <- <-].
  rewrite ztake_zdrop. split; [done|]. rewrite zlen_ztake by done. lia.
Qed.

Lemma recv_return_ok s input : sess_inv s -> recv_ok s input (recv_return s).
Proof.
  intros Hi. destruct (session_Close_inv s Hi) as [H1 H2]. split; [done|].
  unfold session_Close. by destruct (s_die s) eqn:E.
Qed.

Lemma recv_return_ok' s s' input :
  sess_inv s -> s_config s' = s_config s -> s_client s' = s_client s -> s_goAway s' = s_goAway s ->
  s_nextStreamID s' = s_nextStreamID s -> s_ws s' = s_ws s -> s_streams s' = s_streams s ->
  s_alloc s' = s_alloc s -> s_bucket s' = s_bucket s -> recv_ok s input (recv_return s').
Proof.
  intros Hi E1 E2 E3 E4 E5 E6 E7 E8. apply (recv_return_ok s' input).
  eapply (sess_inv_frame s); try done. unfold s_die. by rewrite E5.
Qed.

Lemma notifyReadError_return s input e : sess_inv s -> recv_ok s input (recv_return (notifyReadError s e)).
Proof. intros Hi. unfold notifyReadError. destruct (s_readErr s); by apply recv_return_ok'. Qed.

Lemma proto_violation_ok s input : sess_inv s -> recv_ok s input (proto_violation s).
Proof. intros Hi. unfold proto_violation, notifyProtoError. destruct (s_protoErr s); by apply recv_return_ok'. Qed.

Lemma recv_more_ok s input : sess_inv s -> recv_ok s input (RecvMore s input).
Proof. intros Hi. split_and!; [done|done|]. by exists []. Qed.

Lemma recv_local s sid st st' input used rest :
  sess_inv s -> s_streams s !! sid = Some st -> st_same st st' -> input = used ++ rest ->
  recv_ok s input (RecvMore (s_set_streams s (<[sid := st']> (s_streams s))) rest).
Proof.
  intros Hi Hsid Hs ->. split; [|by split; [|exists used]].
  by eapply (sess_inv_local s _ sid st st').
Qed.

(** A buffer taken and dropped: the collector gets it. *)
Lemma sess_inv_alloc s a :
  sess_inv s -> alloc_ok a -> pool_ids a ⊆+ pool_ids (s_alloc s) ->
  (a_fresh (s_alloc s) <= a_fresh a)%nat -> sess_inv (s_set_alloc s a).
Proof.
  intros [Hcfg Hcl Htok Hopen Hst Hal [Hnd Hfr] Hnx Hids] Ha Hsub Hle. constructor; try done.
  assert (Hown : own (s_set_alloc s a) ⊆+ own s) by (unfold own; cbn; by apply submseteq_app).
  split; [by eapply submseteq_NoDup|]. eapply submseteq_Forall; [exact Hown|].
  eapply Forall_impl; [exact Hfr|]. cbn. lia.
Qed.

Lemma alloc_Get_sub a size b a' :
  alloc_Get a size = (Ret (Some b), a') ->
  pool_ids a' ⊆+ pool_ids a /\ (a_fresh a <= a_fresh a')%nat /\
  exists fresh, NoDup fresh /\ Forall (fun i => a_fresh a <= i < a_fresh a')%nat fresh /\
    b_id b :: pool_ids a' ⊆+ fresh ++ pool_ids a.
Proof.
  intros G. apply alloc_Get_own in G as [(E1 & E2 & E3)|[E1 E2]].
  - rewrite E1, E2, E3. split_and!; [done|lia|]. exists [a_fresh a]. split_and!; [by apply NoDup_singleton| |done].
    constructor; [lia|constructor].
  - rewrite E1, E2. split_and!; [apply submseteq_cons; reflexivity|lia|].
    exists []. split; [apply NoDup_nil_2|]. split; [by apply Forall_nil|cbn; by rewrite E1].
Qed.

Lemma bytes_of_snoc l b : zlen (bytes_of (l ++ [b])) = zlen (bytes_of l) + zlen (sl_data b).
Proof. rewrite bytes_of_app, zlen_app. unfold bytes_of at 2. simpl. by rewrite app_nil_r. Qed.

Lemma recv_PSH_ok rerr s sid len input :
  sess_inv s -> 0 <= len <= 65535 -> (s_die s = false -> 0 < s_bucket s) ->
  recv_ok s input (recv_PSH rerr s sid len input).
Proof.
  intros Hi Hlen Hbk. unfold recv_PSH. destruct (0 <? len) eqn:E; [|by apply recv_more_ok]. zify_bool. cbn [negb].
  destruct (alloc_Get (s_alloc s) len) as [r a] eqn:G.
  assert (Hl : 1 <= len <= 65536) by lia.
  destruct (alloc_Get_ok _ _ _ _ (i_alloc s Hi) Hl G) as (Ha & b & -> & Hcap).
  assert (Hcap' : len <= b_cap b) by (rewrite Hcap; by apply Z.log2_log2_up_spec).
  destruct (alloc_Get_sub _ _ _ _ G) as (Hsub & Hfr & fresh & F1 & F2 & F3).
  pose proof (sess_inv_alloc s a Hi Ha Hsub Hfr) as Hi1. cbv zeta.
  destruct (read_full len input) as [[data rest]|] eqn:R; [|by apply (notifyReadError_return (s_set_alloc s a))].
  apply read_full_spec in R as [-> Hd]; [|lia]. cbn [s_set_alloc s_streams].
  destruct (s_streams s !! sid) as [st|] eqn:Hsid; [|by split; [|split; [|by exists data]]].
  destruct (i_streams s Hi sid st Hsid) as [Hid Hok].
  split; [|split; [done|by exists data]].
  eapply (sess_inv_update s _ sid st (notifyReadEvent (pushBytes st b data))); try done.
  - apply (i_client s Hi).
  - unfold stream_ok. cbn. apply Forall2_app; [exact Hok|]. constructor; [|constructor].
    split; cbn; [done|lia].
  - cbn [s_bucket s_set_bucket s_set_streams s_set_alloc]. unfold st_buffered.
    cbn [notifyReadEvent pushBytes st_set_heads st_set_buffers st_set_chReadEvent st_buffers].
    rewrite bytes_of_snoc. cbn [sl_data]. rewrite (i32_small (zlen data)) by lia. f_equal. lia.
  - intros Hdie. right. split; [by apply Hbk|]. unfold st_buffered.
    cbn [notifyReadEvent pushBytes st_set_heads st_set_buffers st_set_chReadEvent st_buffers].
    rewrite bytes_of_snoc. cbn [sl_data]. lia.
  - exists fresh. split_and!; [done|done|]. cbn [s_set_bucket s_set_streams s_set_alloc s_alloc]. unfold head_ids.
    cbn [notifyReadEvent pushBytes st_set_heads st_set_buffers st_set_chReadEvent st_heads].
    rewrite map_app, !app_assoc. cbn [map]. rewrite Permutation_app_comm. cbn [app].
    rewrite app_comm_cons. by apply submseteq_app.
Qed.

Lemma recv_frame_ok rerr s hdr input :
  sess_inv s -> Forall is_byte hdr -> zlen hdr = 8 -> (s_die s = false -> 0 < s_bucket s) ->
  recv_ok s input (recv_frame rerr s hdr input).
Proof.
  intros Hi Hb Hh Hbk. unfold recv_frame. set (s1 := s_set_dataReady s true).
  assert (Hi1 : sess_inv s1) by (by eapply (sess_inv_frame s)).
  assert (Hrec : forall out, recv_ok s1 input out -> recv_ok s input out) by (intros []; done).
  apply Hrec. destruct (negb _); [by apply proto_violation_ok|]. cbv zeta.
  destruct (bad_header _ _ _); [by apply proto_violation_ok|].
  destruct (_ =? cmdNOP); [by apply recv_more_ok|].
  destruct (_ =? cmdSYN).
  { unfold recv_SYN. rewrite (i_client s1 Hi1). by apply proto_violation_ok. }
  destruct (_ =? cmdFIN).
  { unfold recv_FIN. destruct (s_streams s1 !! _) eqn:Hsid; [|by apply recv_more_ok].
    by eapply (recv_local s1 _ _ _ input []). }
  destruct (_ =? cmdPSH).
  { apply recv_PSH_ok; [done| |done]. unfold hdr_Length.
    assert (Hf : Forall is_byte (take 2 (drop 2 hdr))) by (by apply Forall_take, Forall_drop).
    apply le_get_bound in Hf. unfold zlen in Hf, Hh. rewrite length_take, length_drop in Hf.
    replace (Z.of_nat (2 `min` (length hdr - 2))) with 2 in Hf by lia. change (2 ^ (8 * 2)) with 65536 in Hf. lia. }
  destruct (_ =? cmdUPD).
  { unfold recv_UPD. destruct (read_full _ _) as [[h rest]|] eqn:R; [|by apply notifyReadError_return].
    apply read_full_spec in R as [-> _]; [|done].
    destruct (s_streams s1 !! _) eqn:Hsid; [by eapply recv_local|]. split_and!; [done|done|by exists h]. }
  destruct (_ =? cmdPAD); [|by apply proto_violation_ok].
  unfold recv_PAD. destruct (read_full _ _) as [[h rest]|] eqn:R; [|by apply notifyReadError_return].
  unfold read_full in R. destruct (_ <? _); [done|]. injection R as <- <-.
  split_and!; [done|done|]. eexists. symmetry. apply ztake_zdrop.
Qed.

(** One turn: it never panics, keeps the invariant, and consumes at least a
    header when it goes on. *)
Lemma recv_turn_ok rerr s input :
  sess_inv s -> Forall is_byte input ->
  match recv_turn rerr s input with
  | RecvMore s' rest => sess_inv s' /\ same_frame s s' /\ exists used, input = used ++ rest /\ 8 <= zlen used
  | RecvStop s' => sess_inv s' /\ s_die s' = true
  | RecvWait s' => s' = s /\ s_bucket s <= 0 /\ s_die s = false
  | RecvPanic => False
  end.
Proof.
  intros Hi Hb. unfold recv_turn, IsClosed.
  destruct ((s_bucket s <=? 0) && negb (s_die s)) eqn:Ew; zify_bool; [done|].
  destruct (read_full headerSize input) as [[hdr rest]|] eqn:R.
  - apply read_full_spec in R as [-> Hh]; [|done]. apply Forall_app in Hb as [Hb1 Hb2].
    assert (Hbk : s_die s = false -> 0 < s_bucket s).
    { intros Hd. rewrite Hd in Ew. cbn in Ew. destruct (s_bucket s <=? 0) eqn:E2; [done|]. zify_bool. lia. }
    pose proof (recv_frame_ok rerr s hdr rest Hi Hb1 Hh Hbk) as Hok.
    destruct (recv_frame rerr s hdr rest) as [s' r'|s'|s'|]; try done.
    destruct Hok as (H1 & H2 & used & ->). split_and!; [done|done|]. exists (hdr ++ used).
    rewrite <- app_assoc, zlen_app, Hh. split; [done|]. pose proof (zlen_nonneg used). unfold headerSize. lia.
  - pose proof (notifyReadError_return s input rerr Hi) as Hok. unfold recv_return in *. exact Hok.
Qed.

(** ** Reachable sessions *)

(** Writes one stream back. *)
Definition put_stream (s : Session) (sid : Z) (st : Stream) : Session :=
  s_set_streams s (<[sid := st]> (s_streams s)).

(** One atomic operation of one of the goroutines that share a client
    session; the blocking ones appear as their turns between two waits. *)
Inductive sess_step : Session -> Session -> Prop :=
| StepRecv rerr s input s' rest :
    Forall is_byte input -> recv_turn rerr s input = RecvMore s' rest -> sess_step s s'
| StepRecvStop rerr s input s' :
    Forall is_byte input -> recv_turn rerr s input = RecvStop s' -> sess_step s s'
| StepRead env choice s sid st blen r s' st' :
    env_ok env -> 0 <= blen -> s_streams s !! sid = Some st ->
    tryRead env choice s st blen = Some (Ret (r, s', st')) -> sess_step s (put_stream s' sid st')
| StepWaitRead dl choice s sid st r st' :
    s_streams s !! sid = Some st -> waitRead dl choice s st = Some (r, st') -> sess_step s (put_stream s sid st')
| StepWriteTo w_Write w s sid st n r s' st' :
    s_streams s !! sid = Some st -> wt_others w = pair ->
    WriteTo_turn w_Write w s st n = Some (Ret (r, s', st')) -> sess_step s (put_stream s' sid st')
| StepWriteTo2 w_Write env w s sid st n r s' st' :
    env_ok env -> s_streams s !! sid = Some st -> wt_others w = pair ->
    writeTov2_turn w_Write env w s st n = Some (Ret (r, s', st')) -> sess_step s (put_stream s' sid st')
| StepWrite e s sid st b r s' st' :
    env_ok (we_env e) -> s_streams s !! sid = Some st ->
    write_v1 e s st b = Some (r, s', st') -> sess_step s (put_stream s' sid st')
| StepWrite2 e s sid st b pad sent r s' st' b' pad' :
    env_ok (we_env e) -> s_streams s !! sid = Some st ->
    writeV2_turn e s st b pad sent = Some (r, s', st', b', pad') -> sess_step s (put_stream s' sid st')
| StepPad s sid st intn n pad st' :
    s_streams s !! sid = Some st -> stream_padLen (s_config s) st intn n = (pad, st') ->
    sess_step s (put_stream s sid st')
| StepWaitWindow dl choice s sid st st' :
    s_streams s !! sid = Some st -> wait_window dl choice s st = Some (inr st') ->
    sess_step s (put_stream s sid st')
| StepOpen env choice s r s' :
    env_ok env -> OpenStream env id choice s = Some (r, s') -> sess_step s s'
| StepStreamClose env choice s sid st r s' st' :
    env_ok env -> s_streams s !! sid = Some st ->
    stream_Close env choice s st = Some (Ret (r, s', st')) -> sess_step s s'
| StepClose s : sess_step s (session_Close s).2
| StepSend {C} (conn_Write : C -> list Z -> (Z * option err) * C) conn s s' conn' d :
    sendLoop_turn conn_Write conn s = Ret (inl s', conn', d) -> sess_step s s'
| StepSendStop {C} (conn_Write : C -> list Z -> (Z * option err) * C) conn s s' conn' d :
    sendLoop_turn conn_Write conn s = Ret (inr s', conn', d) -> sess_step s s'
| StepPing intn padBytes s : sess_step s (keepalive_ping intn padBytes s).2
| StepPingWrite env choice f s s' :
    env_ok env -> ping_write env choice f s = Some s' -> sess_step s s'
| StepTimeout s : sess_step s (keepalive_timeout s).1.

Inductive sess_reach (c : Config) : Session -> Prop :=
| ReachNew a :
    alloc_ok a -> NoDup (pool_ids a) -> Forall (fun i => (i < a_fresh a)%nat) (pool_ids a) ->
    sess_reach c (newSession c true a)
| ReachStep s s' : sess_reach c s -> sess_step s s' -> sess_reach c s'.

Lemma sess_inv_put_local s sid st st' s' :
  sess_inv s -> s_streams s !! sid = Some st -> ws_only s s' -> st_same st st' -> sess_inv (put_stream s' sid st').
Proof.
  intros Hi Hsid Hw Hs. apply ws_only_frame in Hw as (Hf & E1 & E2 & E3).
  eapply (sess_inv_local s _ sid st st'); try done. unfold put_stream. cbn. by rewrite E1.
Qed.

Lemma wait_window_same dl choice s st st' : wait_window dl choice s st = Some (inr st') -> st_same st st'.
Proof.
  unfold wait_window. cbv zeta. intros H. apply list_elem_of_lookup_2 in H.
  repeat (apply elem_of_app in H as [H|H]); repeat match type of H with
    | context [match ?b with _ => _ end] => destruct b
    end; try (apply elem_of_nil in H; done);
    apply list_elem_of_singleton in H; try discriminate; injection H as ->; done.
Qed.

Lemma sendLoop_turn_only {C} (conn_Write : C -> list Z -> (Z * option err) * C) conn s r conn' d :
  sendLoop_turn conn_Write conn s = Ret (r, conn', d) ->
  exists ws, match r with inl s' | inr s' => s' end = s_set_ws s ws /\ (s_die s = true -> ws_die ws = true).
Proof.
  unfold sendLoop_turn, take_queue. cbv zeta. destruct (ws_writeQ (s_ws s)) as [|q qs].
  - intros [= <- _ _]. by eexists.
  - destruct (writeBatch _ _ _ _) as [[e|] wb]; [|done]. destruct e as [e|]; intros [= <- _ _]; [|by eexists].
    unfold notifyWriteError. destruct (s_writeErr _); by eexists.
Qed.

Lemma sess_step_inv s s' : sess_inv s -> sess_step s s' -> sess_inv s'.
Proof.
  intros Hi Hs. destruct Hs.
  - pose proof (recv_turn_ok rerr s input Hi H) as Hr. rewrite H0 in Hr. apply Hr.
  - pose proof (recv_turn_ok rerr s input Hi H) as Hr. rewrite H0 in Hr. apply Hr.
  - destruct (tryRead_spec _ _ _ _ _ _ _ H Hi H1 H0 H2) as (d & e & s2 & st2 & E & Hr).
    injection E as -> -> ->. apply read_ok_drained in Hr. by eapply sess_inv_drained.
  - eapply sess_inv_put_local; [done|exact H|reflexivity|]. by eapply waitRead_same.
  - destruct (WriteTo_turn_spec _ _ _ _ _ _ _ Hi H H0 H1) as (d & e & s2 & st2 & E & Hr).
    injection E as -> -> ->. by eapply sess_inv_drained.
  - destruct (writeTov2_turn_spec _ _ _ _ _ _ _ _ H Hi H0 H1 H2) as (d & e & s2 & st2 & E & Hr).
    injection E as -> -> ->. by eapply sess_inv_drained.
  - apply write_v1_only in H1 as [H1 H2]; [|done]. by eapply sess_inv_put_local.
  - apply writeV2_turn_only in H1 as [H1 H2]; [|done]. by eapply sess_inv_put_local.
  - eapply sess_inv_put_local; [done|exact H|reflexivity|]. by eapply stream_padLen_same.
  - eapply sess_inv_put_local; [done|exact H|reflexivity|]. by eapply wait_window_same.
  - by eapply OpenStream_inv.
  - destruct (stream_Close_spec _ _ _ _ _ _ H Hi H0 H1) as (r2 & s2 & st2 & E & Hr & _). by injection E as -> -> ->.
  - by apply session_Close_inv.
  - apply sendLoop_turn_only in H as (ws & -> & Hd). by apply sess_inv_ws.
  - apply sendLoop_turn_only in H as (ws & -> & Hd). by apply sess_inv_ws.
  - unfold keepalive_ping, notifyBucket. destruct (s_pingInFlight s); by eapply (sess_inv_frame s).
  - unfold ping_write in H0. destruct (writeFrameInternal _ _ _ _ _) as [[r ws]|] eqn:W; [|done].
    injection H0 as <-. eapply (sess_inv_frame s); try done. apply die_mono. by eapply writeFrameInternal_die.
  - unfold keepalive_timeout. destruct (s_dataReady s); [by eapply (sess_inv_frame s)|].
    destruct (0 <? s_bucket s); [|done]. by apply session_Close_inv.
Qed.

Lemma newSession_inv c a :
  config_ok c -> alloc_ok a -> NoDup (pool_ids a) -> Forall (fun i => (i < a_fresh a)%nat) (pool_ids a) ->
  sess_inv (newSession c true a).
Proof.
  intros Hc Ha Hn Hf. assert (Hh : held (newSession c true a) = 0) by apply zsum_empty.
  destruct Hc as (Hv & Hk & Hfs & Hr & Hb). unfold MaxInt32 in *.
  constructor; rewrite ?Hh; try done; cbn.
  - by rewrite Z.sub_0_r.
  - lia.
  - unfold own. cbn. unfold mcat. rewrite map_fold_empty, app_nil_r. done.
  - intros _ k [x Hx]. by rewrite lookup_empty in Hx.
Qed.

Lemma sess_reach_inv c s : config_ok c -> sess_reach c s -> sess_inv s.
Proof. intros Hc. induction 1; [by apply newSession_inv|by eapply sess_step_inv]. Qed.

Lemma held_nonneg s : 0 <= held s.
Proof.
  unfold held. induction (s_streams s) as [|k x m Hk IH] using map_ind; [by rewrite zsum_empty|].
  rewrite zsum_insert by done. pose proof (st_buffered_nonneg x). lia.
Qed.

(** ** A concrete run *)

(** Every write succeeds at once. *)
Definition demo_env : environment := fun reqs ws => (ws, ∅, [EvResult (0, None)]).

Definition demo_open : option ((err + Stream) * Session) :=
  OpenStream demo_env id 0 (newSession DefaultConfig true NewAllocator).

Definition demo_s1 : Session :=
  match demo_open with Some (_, s) => s | None => newSession DefaultConfig true NewAllocator end.

(** A five-byte PSH frame for stream 3. *)
Definition demo_input : list Z := encode_frame (mkFrame 1 cmdPSH 3 [104; 101; 108; 108; 111]).

Definition demo_s2 : Session :=
  match recv_turn EEOF demo_s1 demo_input with RecvMore s _ => s | _ => demo_s1 end.

Lemma demo_env_ok : env_ok demo_env.
Proof. intros reqs ws H. exact H. Qed.

Lemma demo_reach1 : sess_reach DefaultConfig demo_s1.
Proof.
  eapply ReachStep; [apply (ReachNew DefaultConfig NewAllocator)|].
  - apply NewAllocator_ok.
  - by apply NoDup_nil_2.
  - by apply Forall_nil.
  - eapply (StepOpen demo_env 0); [exact demo_env_ok|]. vm_compute. reflexivity.
Qed.

Lemma demo_reach2 : sess_reach DefaultConfig demo_s2.
Proof.
  eapply ReachStep; [exact demo_reach1|]. eapply (StepRecv EEOF demo_s1 demo_input).
  - by apply (bool_decide_unpack (Forall is_byte demo_input)).
  - vm_compute. reflexivity.
Qed.

(** ** Properties *)



(** C8: every receive buffer has exactly one owner.  In every reachable state
    the arrays lying in the allocator's pools and the arrays the registered
    streams hold are pairwise distinct, so no buffer is recycled twice or read
    by two streams, and each stream's slices are non-empty parts of its heads,
    in the same order. *)
Theorem session_ownership c s :
  config_ok c -> sess_reach c s ->
  NoDup (pool_ids (s_alloc s) ++ mcat head_ids (s_streams s)) /\
  (forall sid st, s_streams s !! sid = Some st -> st_id st = sid /\ Forall2 slice_ok (st_buffers st) (st_heads st)).
Proof.
  intros Hc Hr. pose proof (sess_reach_inv c s Hc Hr) as Hi. split; [apply (i_own s Hi)|apply (i_streams s Hi)].
Qed.

Lemma session_ownership_witness :
  mcat head_ids (s_streams demo_s2) = [0%nat] /\
  NoDup (pool_ids (s_alloc demo_s2) ++ mcat head_ids (s_streams demo_s2)).
Proof.
  split; [vm_compute; reflexivity|]. exact (proj1 (session_ownership DefaultConfig demo_s2 DefaultConfig_ok demo_reach2)).
Defined.



(** stream ids.  A stream that [OpenStream] returns has an odd id larger
    than every registered one, the counter moved on to it, and only this entry
    was added; once the 32-bit counter has wrapped no stream is opened again. *)
Lemma OpenStream_fresh c env choice s r s' :
  config_ok c -> sess_reach c s -> OpenStream env id choice s = Some (r, s') ->
  match r with
  | inr st =>
      st_id st mod 2 = 1 /\ st_id st < 4294967296 /\ s_nextStreamID s' = st_id st /\
      (forall k, is_Some (s_streams s !! k) -> k < st_id st) /\
      s_streams s' = <[st_id st := newStream (st_id st) (MaxFrameSize (s_config s))]> (s_streams s)
  | inl _ => s_streams s' = s_streams s
  end /\ (s_goAway s = true -> exists e, r = inl e /\ s_goAway s' = true).
Proof.
  intros Hc Hr. pose proof (sess_reach_inv c s Hc Hr) as Hi. unfold OpenStream, IsClosed.
  destruct (s_die s); [intros [= <- <-]; split; [done|]; by eexists|].
  pose proof (alloc_stream_id_spec s Hi) as Ha. pose proof (i_ids s Hi) as Hids.
  assert (Hgo : s_goAway s = true -> alloc_stream_id s = (None, s)).
  { intros Hg. unfold alloc_stream_id. by rewrite Hg. }
  assert (Hcf : s_config (alloc_stream_id s).2 = s_config s).
  { unfold alloc_stream_id. destruct (s_goAway s); [done|]. cbv zeta. by destruct (_ =? _). }
  destruct (alloc_stream_id s) as [[sid|] s1]; cbn [snd] in Hcf.
  - destruct Ha as (Hi1 & Hs1 & Hw1 & Hb1 & Esid & Hng & Hn1 & Hg1 & Hnone & Hodd). cbv zeta.
    assert (Hg' : s_goAway s = true -> exists e, r = inl e /\ s_goAway s' = true) by (by rewrite Hng).
    destruct (writeFrame _ _ _ _) as [[[n [e|]] ws]|]; [| |done].
    + by intros [= <- <-].
    + cbn [id]. destruct (lookup (choice mod _)%nat _); intros [= <- <-]; (split; [|by rewrite Hng]).
      * exact Hs1.
      * destruct (i_next s1 Hi1 Hg1) as [_ Hrange]. cbn [newStream st_id s_set_streams s_streams s_set_ws s_nextStreamID].
        rewrite Hs1, Hn1, Hcf in *. split_and!; try done; [lia|].
        intros k Hk. specialize (Hids Hng k Hk). lia.
  - intros [= <- <-]. split; [apply Ha|]. intros _. exists EGoAway. split; [done|apply Ha].
Qed.

Lemma OpenStream_fresh_witness :
  exists st s', OpenStream demo_env id 0 demo_s2 = Some (inr st, s') /\ st_id st = 5 /\ st_id st mod 2 = 1.
Proof.
  do 2 eexists. split; [vm_compute; reflexivity|]. split; [reflexivity|].
  eapply (OpenStream_fresh DefaultConfig demo_env 0 demo_s2 (inr _) _ DefaultConfig_ok demo_reach2).
  vm_compute. reflexivity.
Defined.
