(* ===== verification/SmuxRecv.v ===== *)
(** * drophaul smux: the receive loop demultiplexes

    What one end encodes the other end delivers: reading the concatenation of
    encoded frames appends to each stream exactly the payloads sent to it, in
    order, and records FINs and window updates.  The abstract state is a
    [view] per stream; [recvLoop] refines the fold of [deliver] over the
    frames. *)

From S2P Require Import Prelude SmuxFrame SmuxWrite SmuxSession SmuxTokens.

(** What the owner of a stream can see of it. *)
Record view := mkView { v_bytes : list Z; v_fin : bool; v_consumed : Z; v_window : Z }.

Definition view_of (st : Stream) : view :=
  mkView (bytes_of (st_buffers st)) (st_fin st) (st_peerConsumed st) (st_peerWindow st).

Definition views (s : Session) : gmap Z view := view_of <$> s_streams s.

(** Delivery of one frame, by the protocol. *)
Definition deliver (m : gmap Z view) (f : Frame) : gmap Z view :=
  if f_cmd f =? cmdPSH then
    alter (fun v => mkView (v_bytes v ++ f_data f) (v_fin v) (v_consumed v) (v_window v)) (f_sid f) m
  else if f_cmd f =? cmdFIN then
    alter (fun v => mkView (v_bytes v) true (v_consumed v) (v_window v)) (f_sid f) m
  else if f_cmd f =? cmdUPD then
    alter (fun v => mkView (v_bytes v) (v_fin v) (upd_Consumed (f_data f)) (upd_Window (f_data f))) (f_sid f) m
  else m.

(** The frames a server following the protocol sends to a client. *)
Definition server_frame (c : Config) (f : Frame) : Prop :=
  f_ver f = u8 (Version c) /\ frame_wf f /\ Forall is_byte (f_data f) /\
  (f_cmd f = cmdPSH \/ f_cmd f = cmdPAD \/ (f_cmd f = cmdNOP \/ f_cmd f = cmdFIN) /\ f_data f = [] \/
   f_cmd f = cmdUPD /\ Version c = 2 /\ zlen (f_data f) = 8).

(** Tokens the frame may take. *)
Definition psh_len (f : Frame) : Z := if f_cmd f =? cmdPSH then zlen (f_data f) else 0.

Lemma views_update s s' sid st st' :
  s_streams s !! sid = Some st -> s_streams s' = <[sid := st']> (s_streams s) ->
  views s' = <[sid := view_of st']> (views s).
Proof. intros _ E. unfold views. by rewrite E, fmap_insert. Qed.

Lemma alter_views g sid s st :
  s_streams s !! sid = Some st -> alter g sid (views s) = <[sid := g (view_of st)]> (views s).
Proof.
  intros H. apply map_eq. intros k. destruct (decide (sid = k)) as [<-|Hne].
  - rewrite lookup_alter_eq, lookup_insert_eq. unfold views. by rewrite lookup_fmap, H.
  - by rewrite lookup_alter_ne, lookup_insert_ne.
Qed.

Lemma alter_views_none g sid s : s_streams s !! sid = None -> alter g sid (views s) = views s.
Proof. intros H. apply alter_id. intros v Hv. unfold views in Hv. by rewrite lookup_fmap, H in Hv. Qed.

Lemma read_full_app (d rest : list Z) : read_full (zlen d) (d ++ rest) = Some (d, rest).
Proof.
  unfold read_full. rewrite zlen_app. pose proof (zlen_nonneg rest).
  destruct (zlen d + zlen rest <? zlen d) eqn:E; [zify_bool; lia|].
  unfold ztake, zdrop, zlen. rewrite Nat2Z.id, take_app_length, drop_app_length. done.
Qed.

(** The header read in front of an encoded frame. *)
Lemma read_header f rest :
  frame_wf f ->
  exists hdr, read_full headerSize (encode_frame f ++ rest) = Some (hdr, f_data f ++ rest) /\
    hdr_Version hdr = f_ver f /\ hdr_Cmd hdr = f_cmd f /\ hdr_StreamID hdr = f_sid f /\
    hdr_Length hdr = zlen (f_data f).
Proof.
  intros Hwf. destruct (encode_frame_header f rest Hwf) as (H1 & H2 & H3 & H4 & H5).
  exists (take 8 (encode_frame f ++ rest)). split; [|done]. rewrite <- H5. unfold read_full.
  rewrite zlen_app, length_encode_frame. unfold headerSize.
  pose proof (zlen_nonneg (f_data f)). pose proof (zlen_nonneg rest).
  destruct (_ <? _) eqn:E; [zify_bool; lia|]. done.
Qed.

(** The effect of one frame of the protocol on a session with tokens left. *)
Definition delivered (s : Session) (f : Frame) (s' : Session) : Prop :=
  views s' = deliver (views s) f /\ s_readErr s' = s_readErr s /\ s_protoErr s' = s_protoErr s /\
  s_die s' = s_die s /\ s_config s' = s_config s /\ s_bucket s - psh_len f <= s_bucket s' <= s_bucket s.

Lemma deliver_PSH rerr s sid data rest :
  sess_inv s -> zlen data < 65536 -> 0 < s_bucket s < 2147483648 -> s_bucket s >= zlen data ->
  exists s', recv_PSH rerr s sid (zlen data) (data ++ rest) = RecvMore s' rest /\
    views s' = alter (fun v => mkView (v_bytes v ++ data) (v_fin v) (v_consumed v) (v_window v)) sid (views s) /\
    s_readErr s' = s_readErr s /\ s_protoErr s' = s_protoErr s /\
    s_die s' = s_die s /\ s_config s' = s_config s /\ s_bucket s - zlen data <= s_bucket s' <= s_bucket s.
Proof.
  intros Hi Hl Hb Hge. unfold recv_PSH. pose proof (zlen_nonneg data).
  destruct (0 <? zlen data) eqn:E; cbn [negb]; zify_bool.
  - destruct (alloc_Get (s_alloc s) (zlen data)) as [r a] eqn:G.
    assert (Hl' : 1 <= zlen data <= 65536) by lia.
    destruct (alloc_Get_ok _ _ _ _ (i_alloc s Hi) Hl' G) as (Ha & b & -> & Hcap).
    cbv zeta. rewrite read_full_app. cbn [s_set_alloc s_streams].
    destruct (s_streams s !! sid) as [st|] eqn:Hsid.
    + eexists. split; [reflexivity|]. split.
      * rewrite (alter_views _ _ _ _ Hsid). erewrite (views_update s); [|exact Hsid|reflexivity].
        f_equal. unfold view_of. cbn [v_bytes v_fin v_consumed v_window]. f_equal.
        change (st_buffers (notifyReadEvent (pushBytes st b data)))
          with (st_buffers st ++ [mkSlice (b_id b) (b_cap b) data]).
        by rewrite bytes_of_app, (bytes_of_cons _ []), app_nil_r.
      * split_and!; try done; cbn [s_bucket s_set_bucket s_set_streams s_set_alloc];
          rewrite (i32_small (zlen data)), i32_small by lia; lia.
    + eexists. split; [reflexivity|]. rewrite alter_views_none by done. split_and!; try done; cbn; lia.
  - rewrite (zlen_zero_nil data) by lia. eexists. split; [reflexivity|]. split; [|split_and!; try done; unfold zlen; simpl; lia].
    destruct (s_streams s !! sid) as [st|] eqn:Hsid; [|by rewrite alter_views_none].
    rewrite (alter_views _ _ _ _ Hsid). rewrite app_nil_r. symmetry. apply insert_id.
    unfold views. by rewrite lookup_fmap, Hsid.
Qed.

(** One frame of the protocol, header included. *)
Lemma recv_turn_deliver rerr s f rest :
  sess_inv s -> s_die s = false -> server_frame (s_config s) f -> 0 < s_bucket s < 2147483648 ->
  s_bucket s >= psh_len f ->
  exists s', recv_turn rerr s (encode_frame f ++ rest) = RecvMore s' rest /\ delivered s f s'.
Proof.
  intros Hi Hd (Hver & Hwf & Hby & Hcmd) Hb Hge. unfold recv_turn, IsClosed. rewrite Hd.
  destruct ((s_bucket s <=? 0) && _) eqn:E; zify_bool; [lia|]. clear E.
  destruct (read_header f rest Hwf) as (hdr & -> & Hv & Hc & Hs & Hl). unfold recv_frame.
  rewrite Hv, Hc, Hs, Hl, Hver. cbn [s_set_dataReady s_config]. rewrite Z.eqb_refl. cbn [negb].
  set (s1 := s_set_dataReady s true). assert (Hi1 : sess_inv s1) by (by eapply (sess_inv_frame s)).
  assert (Hbad : bad_header (Version (s_config s)) (f_cmd f) (zlen (f_data f)) = false).
  { unfold bad_header. destruct Hcmd as [->|[->|[[[-> | ->] ->]|(-> & -> & ->)]]]; reflexivity. }
  rewrite Hbad. unfold delivered, deliver, psh_len in *.
  destruct Hcmd as [Ec|[Ec|[[[Ec|Ec] Hnil]|(Ec & Hv2 & H8)]]]; rewrite Ec in *; cbn [Z.eqb cmdNOP cmdSYN cmdFIN cmdPSH cmdUPD cmdPAD Pos.eqb] in *.
  - apply (deliver_PSH rerr s1 (f_sid f) (f_data f) rest); try done. apply Hwf.
  - unfold recv_PAD. rewrite read_full_app. eexists. split; [reflexivity|]. split_and!; try done; cbn; lia.
  - rewrite Hnil. eexists. split; [reflexivity|]. split_and!; try done; cbn; lia.
  - rewrite Hnil. cbn [app]. unfold recv_FIN.
    change (s_streams s1) with (s_streams s). destruct (s_streams s !! f_sid f) as [st|] eqn:Hsid.
    + eexists. split; [reflexivity|]. rewrite (alter_views _ _ _ _ Hsid).
      split; [by erewrite (views_update s); [|exact Hsid|reflexivity]|]. split_and!; try done; cbn; lia.
    + eexists. split; [reflexivity|]. rewrite alter_views_none by done. split_and!; try done; cbn; lia.
  - unfold recv_UPD. unfold szCmdUPD. rewrite <- H8, read_full_app.
    change (s_streams s1) with (s_streams s). destruct (s_streams s !! f_sid f) as [st|] eqn:Hsid.
    + eexists. split; [reflexivity|]. rewrite (alter_views _ _ _ _ Hsid).
      split; [by erewrite (views_update s); [|exact Hsid|reflexivity]|]. split_and!; try done; cbn; lia.
    + eexists. split; [reflexivity|]. rewrite alter_views_none by done. split_and!; try done; cbn; lia.
Qed.

Lemma encode_frame_bytes f : frame_wf f -> Forall is_byte (f_data f) -> Forall is_byte (encode_frame f).
Proof.
  intros (Hv & Hc & _ & _) Hd. unfold encode_frame.
  apply Forall_app; split; [by repeat (apply Forall_cons; split)|].
  apply Forall_app; split; [apply le_put_bytes|]. apply Forall_app; split; [apply le_put_bytes|done].
Qed.

Lemma recv_turn_delivered_inv rerr s f rest s' :
  sess_inv s -> server_frame (s_config s) f -> Forall is_byte rest ->
  recv_turn rerr s (encode_frame f ++ rest) = RecvMore s' rest -> sess_inv s'.
Proof.
  intros Hi (_ & Hwf & Hby & _) Hr E.
  assert (Hb : Forall is_byte (encode_frame f ++ rest)) by (apply Forall_app; split; [by apply encode_frame_bytes|done]).
  pose proof (recv_turn_ok rerr s _ Hi Hb) as H. rewrite E in H. apply H.
Qed.

Definition wire (fs : list Frame) : list Z := concat (map encode_frame fs).

Lemma wire_bytes c fs : Forall (server_frame c) fs -> Forall is_byte (wire fs).
Proof.
  induction 1 as [|f fs (_ & Hwf & Hby & _) _ IH]; [by apply Forall_nil|].
  apply Forall_app. split; [by apply encode_frame_bytes|done].
Qed.

Definition psh_total (fs : list Frame) : Z := foldr (fun f n => psh_len f + n) 0 fs.

Lemma psh_len_nonneg f : 0 <= psh_len f.
Proof. unfold psh_len. destruct (_ =? _); [apply zlen_nonneg|lia]. Qed.

Lemma psh_total_nonneg fs : 0 <= psh_total fs.
Proof. induction fs as [|f fs IH]; [done|]. simpl. pose proof (psh_len_nonneg f). lia. Qed.

Lemma views_close s : views (session_Close s).2 = views s.
Proof.
  unfold session_Close. destruct (s_die s); [done|]. unfold views. cbn.
  rewrite <- map_fmap_compose. by apply map_fmap_ext.
Qed.

Lemma recvLoop_deliver rerr fs : forall s tail,
  sess_inv s -> s_die s = false -> Forall (server_frame (s_config s)) fs ->
  Forall is_byte tail -> zlen tail < headerSize -> psh_total fs < s_bucket s < 2147483648 ->
  s_readErr s = None ->
  exists s', recvLoop (length fs) rerr s (wire fs ++ tail) = RecvStop s' /\
    views s' = foldl deliver (views s) fs /\ s_die s' = true /\ s_readErr s' = Some rerr /\
    s_protoErr s' = s_protoErr s.
Proof.
  induction fs as [|f fs IH]; intros s tail Hi Hd Hf Ht Hl Hb Hre.
  - cbn [length recvLoop wire map concat app foldl]. cbn in Hb. unfold recv_turn, IsClosed. rewrite Hd.
    destruct ((s_bucket s <=? 0) && _) eqn:E; zify_bool; [lia|]. unfold read_full.
    destruct (zlen tail <? headerSize) eqn:E2; [|zify_bool; lia].
    eexists. split; [reflexivity|]. rewrite views_close. unfold notifyReadError. rewrite Hre.
    unfold session_Close, s_die in *. cbn. rewrite Hd. by split_and!.
  - apply Forall_cons in Hf as [Hf Hfs]. cbn [psh_total foldr] in Hb. fold (psh_total fs) in Hb.
    pose proof (psh_total_nonneg fs). pose proof (psh_len_nonneg f).
    change (wire (f :: fs)) with (encode_frame f ++ wire fs). rewrite <- app_assoc.
    assert (Hrest : Forall is_byte (wire fs ++ tail)) by (apply Forall_app; split; [by eapply wire_bytes|done]).
    destruct (recv_turn_deliver rerr s f (wire fs ++ tail)) as (s1 & E & V & R & P & D & C & B); try done; try lia.
    cbn [recvLoop length]. rewrite E.
    destruct (IH s1 tail) as (s2 & E2 & V2 & D2 & R2 & P2); try done; try congruence; try lia.
    + by eapply recv_turn_delivered_inv.
    + exists s2. rewrite E2, V2, V. split_and!; try done. by rewrite P2.
Qed.


Definition demo_frames : list Frame :=
  [mkFrame 1 cmdPSH 3 [1; 2]; mkFrame 1 cmdPAD 0 [9; 9; 9]; mkFrame 1 cmdPSH 7 [5]; mkFrame 1 cmdPSH 3 [3];
   mkFrame 1 cmdFIN 3 []].

