(* ===== verification/SmuxFlow.v ===== *)
(** * drophaul smux: flow control

    The windows of protocol version 2: how large a window a reader grants, when
    it announces it, why a writer never waits for a reader that has read
    everything, and that a write stays inside the peer's window and reports
    exactly what it sent.  Also: what a reader still gets after the end. *)

From S2P Require Import Prelude SmuxFrame SmuxWrite SmuxSession SmuxTokens SmuxCancel.

(** ** Granting windows *)

Lemma windowUpdateThreshold_half c :
  config_ok c -> 0 <= windowUpdateThreshold c <= MaxStreamBuffer c / 2.
Proof.
  intros (_ & _ & _ & Hr & Hs). unfold MaxInt32 in *. unfold windowUpdateThreshold, initialPeerWindow. cbv zeta.
  rewrite !Z.quot_div_nonneg by lia.
  pose proof (Z.div_le_upper_bound (MaxStreamBuffer c) 2 (MaxStreamBuffer c) ltac:(lia) ltac:(lia)).
  pose proof (Z.div_le_upper_bound (MaxStreamBuffer c) 8 (MaxStreamBuffer c) ltac:(lia) ltac:(lia)).
  pose proof (Z.div_pos (MaxStreamBuffer c) 2 ltac:(lia) ltac:(lia)).
  pose proof (Z.div_pos (MaxStreamBuffer c) 8 ltac:(lia) ltac:(lia)).
  pose proof (Z.div_le_compat_l (MaxStreamBuffer c) 2 8 ltac:(lia) ltac:(lia)).
  rewrite !u32_small by lia. case_ifs; lia.
Qed.

(** a granted window is at least [MaxStreamBuffer], at most four times as
    much, and a window that has grown stays within this stream's share of half
    the receive budget, so no overflow of the 32-bit arithmetic can occur. *)
Lemma effectiveStreamWindow_bounds s consumed :
  config_ok (s_config s) ->
  let base := MaxStreamBuffer (s_config s) in
  let half := MaxReceiveBuffer (s_config s) / 2 in
  let win := effectiveStreamWindow s consumed in
  base <= win <= 4 * base /\ win <= MaxInt32 /\
  (base < win -> win <= half /\ half < s_bucket s /\ base <= consumed /\
     (1 < NumStreams s < 4294967296 -> win <= half / NumStreams s)).
Proof.
  intros (_ & _ & _ & Hr & Hs). unfold MaxInt32 in *. cbv zeta. unfold effectiveStreamWindow. cbv zeta.
  set (base := MaxStreamBuffer (s_config s)) in *. set (maxr := MaxReceiveBuffer (s_config s)) in *.
  rewrite (u32_small base), (u32_small maxr), (u32_small (base * 2)) by lia.
  assert (Hh : 0 <= maxr / 2 <= maxr) by (split; [apply Z.div_pos; lia|apply Z.div_le_upper_bound; lia]).
  destruct ((consumed <? base) || (maxr <=? base * 2)) eqn:E1; [lia|]. zify_bool.
  rewrite (i32_small (maxr / 2)) by lia. rewrite (u32_small (base * 4)) by lia.
  destruct (s_bucket s <=? maxr / 2) eqn:E2; zify_bool; [lia|].
  set (t1 := if base * 2 <=? consumed then base * 4 else base * 2).
  assert (Ht1 : base < t1 <= 4 * base) by (subst t1; case_ifs; lia).
  set (t2 := if maxr / 2 <? t1 then maxr / 2 else t1).
  assert (Ht2 : t2 <= t1 /\ t2 <= maxr / 2) by (subst t2; case_ifs; lia).
  destruct (1 <? NumStreams s) eqn:En; zify_bool.
  - set (t3 := if maxr / 2 / u32 (NumStreams s) <? t2 then maxr / 2 / u32 (NumStreams s) else t2).
    assert (Ht3 : t3 <= t2 /\ (1 < NumStreams s < 4294967296 -> t3 <= maxr / 2 / NumStreams s)).
    { subst t3. destruct (_ <? t2) eqn:E3; zify_bool; (split; [lia|]); intros Hn;
        rewrite (u32_small (NumStreams s)) in * by lia; lia. }
    destruct (t3 <? base) eqn:E4; zify_bool; lia.
  - destruct (t2 <? base) eqn:E4; zify_bool; lia.
Qed.

Lemma effectiveStreamWindow_bounds_witness :
  effectiveStreamWindow (newSession (mkConfig 2 false 1 1 1000 800000 50000 false) true NewAllocator) 100000 = 200000 /\
  50000 <= 200000 <= 4 * 50000.
Proof.
  split; [vm_compute; reflexivity|].
  refine (proj1 (effectiveStreamWindow_bounds
    (newSession (mkConfig 2 false 1 1 1000 800000 50000 false) true NewAllocator) 100000 _)).
  apply VerifyConfig_ok. reflexivity.
Defined.

(** ** Announcing windows *)

(** A reader takes chunks of [ns] bytes; the state keeps the last consumed
    count it announced. *)
Definition read_chunk (c : Config) (x : Stream * option Z) (n : Z) : Stream * option Z :=
  let '(st', k) := count_read c x.1 n in (st', if 0 <? k then Some k else x.2).

Definition read_run (c : Config) (ns : list Z) : Stream * option Z :=
  foldl (read_chunk c) (newStream 3 (MaxFrameSize c), None) ns.

(** What the writer knows: the last window update, or the initial window. *)
Definition writer_view (s : Session) (ack : option Z) (written : Z) (st : Stream) : Stream :=
  st_set_numWritten
    (match ack with
     | Some a => update st a (effectiveStreamWindow s a)
     | None => update st 0 initialPeerWindow
     end) written.

Definition zsums (ns : list Z) : Z := foldr Z.add 0 ns.

Lemma zsums_app l k : zsums (l ++ k) = zsums l + zsums k.
Proof. induction l as [|x l IH]; [done|]. simpl. unfold zsums in *. lia. Qed.

(** Between announcements fewer bytes than the threshold are unannounced. *)
Lemma read_run_inv c ns :
  config_ok c -> Forall (fun n => 1 <= n <= 65536) ns ->
  (forall k, (1 <= k <= length ns)%nat -> u32 (zsums (take k ns)) <> 0) ->
  let '(st, ack) := read_run c ns in
  st_numRead st = u32 (zsums ns) /\
  match ack with
  | Some a => 0 < a < 4294967296 /\ u32 (st_numRead st - a) = st_incr st /\
              0 <= st_incr st <= Z.max 0 (windowUpdateThreshold c - 1)
  | None => ns = []
  end.
Proof.
  intros Hc. pose proof (windowUpdateThreshold_half c Hc) as Hth.
  destruct Hc as (_ & _ & _ & Hr & Hs). unfold MaxInt32 in *.
  assert (Hm : MaxStreamBuffer c / 2 <= 1073741824) by (apply Z.div_le_upper_bound; lia).
  induction ns as [|n ns IH] using rev_ind; intros Hf Hw; [done|].
  apply Forall_app in Hf as [Hf Hn]. rewrite Forall_singleton in Hn. cbv beta in Hn. unfold read_run. rewrite foldl_app.
  fold (read_run c ns). cbn [foldl].
  assert (Hw' : forall k, (1 <= k <= length ns)%nat -> u32 (zsums (take k ns)) <> 0).
  { intros k Hk. rewrite <- (take_app_le ns [n]) by lia. apply Hw. rewrite length_app. lia. }
  specialize (IH Hf Hw'). destruct (read_run c ns) as [st ack]. destruct IH as [IHn IHa].
  assert (Hnz : u32 (zsums ns + n) <> 0).
  { specialize (Hw (length (ns ++ [n])) ltac:(rewrite length_app; simpl; lia)).
    rewrite firstn_all, zsums_app in Hw. unfold zsums at 2 in Hw. simpl in Hw. by rewrite Z.add_0_r in Hw. }
  assert (Hsum : zsums (ns ++ [n]) = zsums ns + n) by (rewrite zsums_app; unfold zsums; simpl; lia).
  unfold read_chunk, count_read. cbv zeta. cbn [fst snd]. rewrite (u32_small n) by lia. rewrite IHn, u32_add_l, <- Hsum in *.
  rewrite Hsum in *. pose proof (u32_range (zsums ns + n)).
  destruct ((windowUpdateThreshold c <=? _) || (u32 (zsums ns + n) =? n)) eqn:E.
  - destruct (0 <? u32 (zsums ns + n)) eqn:E0; zify_bool; [|lia]. cbn. split; [done|].
    rewrite Z.sub_diag. split; [lia|]. split; [done|lia].
  - zify_bool. cbn [Z.ltb Z.compare snd]. cbn. split; [done|]. destruct ack as [a|].
    + destruct IHa as (Ha1 & Ha2 & Ha3). split; [done|].
      assert (E3 : u32 (u32 (zsums ns + n) - a) = u32 (st_incr st + n)).
      { rewrite <- Ha2. autorewrite with dropweb. f_equal. lia. }
      split; [done|]. rewrite u32_small in * by lia. lia.
    + subst ns. exfalso. match goal with H : u32 (_ + n) <> n |- _ => apply H end. by apply u32_small; lia.
Qed.

(** C26: no stall.  However a reader splits the bytes it takes, and whichever
    session state it computes its windows from, a writer that has seen the last
    announcement and has nothing more in flight than the reader took may send
    more: the two never wait for each other.  The byte counts exclude landing
    exactly on a multiple of 2^32. *)
Theorem window_no_stall c s ns st0 :
  config_ok c -> s_config s = c -> Forall (fun n => 1 <= n <= 65536) ns ->
  (forall k, (1 <= k <= length ns)%nat -> u32 (zsums (take k ns)) <> 0) ->
  exists inflight win,
    send_window (writer_view s (read_run c ns).2 (st_numRead (read_run c ns).1) st0) = Some (inflight, win) /\
    (MaxStreamBuffer c - MaxStreamBuffer c / 2 <= win \/ ns = [] /\ inflight = 0 /\ win = initialPeerWindow).
Proof.
  intros Hc Hs Hf Hw. pose proof (read_run_inv c ns Hc Hf Hw) as H.
  destruct (read_run c ns) as [st ack]. destruct H as [Hn Ha]. cbn [fst snd].
  pose proof (windowUpdateThreshold_half c Hc) as Hth. destruct ack as [a|].
  - destruct Ha as (Ha1 & Ha2 & Ha3). exists (st_incr st), (effectiveStreamWindow s a - st_incr st).
    assert (Hcs : config_ok (s_config s)) by (by rewrite Hs).
    destruct (effectiveStreamWindow_bounds s a Hcs) as (Hw1 & Hw2 & _). rewrite Hs in Hw1.
    destruct Hc as (_ & _ & _ & Hr & Hsb). unfold MaxInt32 in *.
    assert (Hm : 0 <= MaxStreamBuffer c / 2 <= MaxStreamBuffer c)
      by (split; [apply Z.div_pos; lia|apply Z.div_le_upper_bound; lia]).
    unfold send_window, writer_view, update. cbn. rewrite Ha2, (i32_small (st_incr st)) by lia.
    destruct (st_incr st <? 0) eqn:E; zify_bool; [lia|].
    rewrite (i32_small (effectiveStreamWindow s a)), i32_small by lia. split; [done|left; lia].
  - exists 0, initialPeerWindow. split; [by rewrite Hn, Ha|by right].
Qed.

Lemma window_no_stall_witness :
  (read_run (mkConfig 2 false 1 1 1000 65536 65536 false) [100; 20000; 20000]).2 = Some 40100 /\
  exists inflight win,
    send_window (writer_view (newSession (mkConfig 2 false 1 1 1000 65536 65536 false) true NewAllocator)
      (read_run (mkConfig 2 false 1 1 1000 65536 65536 false) [100; 20000; 20000]).2
      (st_numRead (read_run (mkConfig 2 false 1 1 1000 65536 65536 false) [100; 20000; 20000]).1)
      (newStream 3 1000)) = Some (inflight, win) /\
    (65536 - 65536 / 2 <= win \/ [100; 20000; 20000] = [] /\ inflight = 0 /\ win = initialPeerWindow).
Proof.
  split; [reflexivity|].
  apply (window_no_stall (mkConfig 2 false 1 1 1000 65536 65536 false)
    (newSession (mkConfig 2 false 1 1 1000 65536 65536 false) true NewAllocator) [100; 20000; 20000] (newStream 3 1000)).
  - apply VerifyConfig_ok. reflexivity.
  - reflexivity.
  - repeat constructor; lia.
  - intros [|[|[|[|k]]]] [H1 H2]; simpl in *; try lia; vm_compute; discriminate.
Defined.

(** The chunks of the next statement: 4 GiB less 65536 bytes in 32 KiB reads,
    then two reads that complete the 4 GiB. *)
Definition wrap_run : list Z := replicate (Z.to_nat 131070) 32768 ++ [32767; 32769].

Definition wrap_config : Config := mkConfig 2 false 1 1 32768 131072 65536 false.

Lemma read_run_blocks k :
  (k <= Z.to_nat 131070)%nat ->
  read_run wrap_config (replicate (S k) 32768) =
    (st_set_numRead (newStream 3 32768) (32768 * (Z.of_nat k + 1)), Some (32768 * (Z.of_nat k + 1))).
Proof.
  induction k as [|k IH]; intros Hk; [reflexivity|].
  rewrite replicate_S_end. unfold read_run. rewrite foldl_app. fold (read_run wrap_config (replicate (S k) 32768)).
  rewrite IH by lia. cbn [foldl]. unfold read_chunk, count_read. cbn [fst snd st_numRead st_set_numRead st_incr newStream].
  change (windowUpdateThreshold wrap_config) with 32768. change (u32 32768) with 32768. change (u32 (0 + 32768)) with 32768.
  rewrite u32_small by lia. cbn [Z.leb Z.compare Pos.compare Pos.compare_cont orb].
  replace (32768 * (Z.of_nat (S k) + 1)) with (32768 * (Z.of_nat k + 1) + 32768) by lia.
  destruct (0 <? 32768 * (Z.of_nat k + 1) + 32768) eqn:E; zify_bool; [reflexivity|lia].
Qed.

Lemma read_run_app c l k : read_run c (l ++ k) = foldl (read_chunk c) (read_run c l) k.
Proof. apply foldl_app. Qed.

Lemma read_run_wrap : read_run wrap_config wrap_run = (newStream 3 32768, Some 4294901760).
Proof.
  unfold wrap_run. rewrite read_run_app.
  assert (E : exists k, Z.to_nat 131070 = S k /\ Z.of_nat k = 131069).
  { exists (Z.to_nat 131069). split; lia. }
  destruct E as (k & E & Hk). rewrite E, read_run_blocks, Hk by lia. reflexivity.
Qed.

(** the exception is real.  [notifyConsumed] is both the count and the flag
    "send an update", so a reader that comes due exactly when its 32-bit count
    wraps to zero forgets the bytes and announces nothing: with a 64 KiB stream
    window that has not grown, the writer is left without window although
    everything it sent was read, and nothing is left to read that could trigger
    the next update. *)
Lemma window_stall_at_wrap :
  let s := newSession wrap_config true NewAllocator in
  let '(reader, ack) := read_run wrap_config wrap_run in
  config_ok wrap_config /\ Forall (fun n => 1 <= n <= 65536) wrap_run /\ st_incr reader = 0 /\
  send_window (writer_view s ack (st_numRead reader) (newStream 3 32768)) = Some (65536, 0).
Proof.
  cbv zeta. rewrite read_run_wrap. split; [apply VerifyConfig_ok; reflexivity|]. split.
  - unfold wrap_run. apply Forall_app. split; [|repeat constructor; lia]. apply Forall_replicate. lia.
  - split; vm_compute; reflexivity.
Qed.

(** ** Writing inside the window *)

(** What [sendLoop] answers (see the batch writer's theorems): at most the
    payload of the request, and all of it when there is no error. *)
Definition answer_ok (r : writeRequest) (res : writeResult) : Prop :=
  0 <= res.1 <= zlen (f_data (w_frame r)) /\ (res.2 = None -> res.1 = zlen (f_data (w_frame r))).

Definition env_faithful (env : environment) : Prop :=
  forall reqs ws, let '(_, results, evs) := env reqs ws in
    (forall i r res, reqs !! i = Some r -> evs !! i = Some (EvResult res) -> answer_ok r res) /\
    (forall r res, r ∈ reqs -> results !! w_id r = Some res -> answer_ok r res).

(** A count of sent bytes: never more than [total], all of it without error. *)
Definition sent_ok (sent total : Z) (r : Z * option err) : Prop :=
  sent <= r.1 <= sent + total /\ (r.2 = None -> r.1 = sent + total).

Lemma sent_ok_zero sent total : total = 0 -> sent_ok sent total (sent, None).
Proof. intros ->. split; simpl; lia. Qed.

Lemma psh_bytes_nonneg reqs : 0 <= psh_bytes reqs.
Proof.
  induction reqs as [|r reqs IH]; [done|]. simpl. fold (psh_bytes reqs).
  pose proof (zlen_nonneg (f_data (w_frame r))). destruct (_ =? _); lia.
Qed.

Lemma psh_bytes_app l k : psh_bytes (l ++ k) = psh_bytes l + psh_bytes k.
Proof. induction l as [|r l IH]; [done|]. simpl. fold (psh_bytes (l ++ k)) (psh_bytes l). lia. Qed.

Lemma collect_sent results cause reqs sent :
  (forall r res, r ∈ reqs -> results !! w_id r = Some res -> answer_ok r res) ->
  sent_ok sent (psh_bytes reqs) (collect results cause reqs sent).
Proof.
  revert sent. induction reqs as [|r reqs IH]; intros sent Ha; [split; simpl; lia|].
  cbn [collect psh_bytes foldr]. fold (psh_bytes reqs).
  assert (Ha' : forall q res, q ∈ reqs -> results !! w_id q = Some res -> answer_ok q res)
    by (intros; apply Ha; [by right|done]).
  pose proof (zlen_nonneg (f_data (w_frame r))). pose proof (psh_bytes_nonneg reqs).
  set (o := match results !! w_id r with Some res => res | None => _ end).
  assert (Ho : 0 <= o.1 <= zlen (f_data (w_frame r)) /\ (o.2 = None -> o.1 = zlen (f_data (w_frame r)))).
  { subst o. destruct (results !! w_id r) as [res|] eqn:E; [apply (Ha r res); [by left|done]|].
    destruct (decide (cause = ETimeout)); simpl; split; try lia; done. }
  destruct o as [n e]. simpl in Ho. destruct (f_cmd (w_frame r) =? cmdPAD).
  - destruct e as [e|]; [split; simpl; [lia|done]|]. destruct (IH sent Ha') as [H1 H2]. split; [lia|].
    intros Hn. rewrite (H2 Hn). lia.
  - destruct e as [e|]; [split; simpl; [lia|done]|]. destruct Ho as [_ Ho]. rewrite (Ho eq_refl).
    destruct (IH (sent + zlen (f_data (w_frame r))) Ha') as [H1 H2]. split; [lia|].
    intros Hn. rewrite (H2 Hn). lia.
Qed.

Lemma psh_bytes_pad reqs :
  existsb (fun r => negb (f_cmd (w_frame r) =? cmdPAD)) reqs = false -> psh_bytes reqs = 0.
Proof.
  induction reqs as [|r reqs IH]; [done|]. simpl. fold (psh_bytes reqs). intros H.
  apply orb_false_elim in H as [H1 H2]. apply negb_false_iff in H1. rewrite H1, (IH H2). done.
Qed.

Lemma abandon_sent results cells reqs sent cause :
  (forall r res, r ∈ reqs -> results !! w_id r = Some res -> answer_ok r res) ->
  sent_ok sent (psh_bytes reqs) (abandon results cells reqs sent cause).1.
Proof.
  intros Ha. unfold abandon. destruct (cancel_tail (rev reqs) cells) as [claimed cells'].
  pose proof (psh_bytes_nonneg reqs).
  destruct (claimed =? 0)%nat; [split; simpl; [lia|done]|].
  pose proof (collect_sent results cause (take claimed reqs) sent) as Hc.
  destruct Hc as [H1 H2]; [intros r res Hr; apply Ha; by eapply elem_of_take in Hr as (? & ? & _); eapply list_elem_of_lookup_2|].
  assert (Hsplit : psh_bytes reqs = psh_bytes (take claimed reqs) + psh_bytes (drop claimed reqs))
    by (by rewrite <- psh_bytes_app, take_drop).
  pose proof (psh_bytes_nonneg (drop claimed reqs)).
  destruct (collect _ _ _ _) as [s' [e|]]; simpl in *; [split; simpl; [lia|done]|].
  destruct (existsb _ _) eqn:E; [split; simpl; [lia|done]|].
  apply psh_bytes_pad in E. specialize (H2 eq_refl). split; simpl; lia.
Qed.

Lemma group_wait_sent results cells reqs evs sent r cells' :
  (forall i q res, reqs !! i = Some q -> evs !! i = Some (EvResult res) -> answer_ok q res) ->
  (forall q res, q ∈ reqs -> results !! w_id q = Some res -> answer_ok q res) ->
  group_wait results cells reqs evs sent = Some (r, cells') -> sent_ok sent (psh_bytes reqs) r.
Proof.
  revert evs sent. induction reqs as [|q reqs IH]; intros evs sent He Hr H.
  { simpl in H. destruct evs; injection H as <- <-; split; simpl; lia. }
  assert (Hab : forall cause, abandon results cells (q :: reqs) sent cause = (r, cells') ->
    sent_ok sent (psh_bytes (q :: reqs)) r).
  { intros cause E. pose proof (abandon_sent results cells (q :: reqs) sent cause Hr) as Hs. by rewrite E in Hs. }
  destruct evs as [|[[n e]| |e|] evs]; cbn [group_wait] in H;
    [done| |by apply (Hab EClosedPipe); injection H|by apply (Hab e); injection H|by apply (Hab ETimeout); injection H].
  destruct (He 0%nat q (n, e) eq_refl eq_refl) as [Hq1 Hq2]. simpl in Hq1, Hq2.
  pose proof (psh_bytes_nonneg reqs). unfold psh_bytes. cbn [foldr]. fold (psh_bytes reqs).
  pose proof (zlen_nonneg (f_data (w_frame q))).
  destruct e as [e|].
  - injection H as <- <-. destruct (_ =? _); split; simpl; try lia; done.
  - rewrite (Hq2 eq_refl) in H. apply IH in H as [G1 G2].
    + destruct (_ =? _); (split; [lia|]; intros Hn; rewrite (G2 Hn); lia).
    + intros i q' res Hi Hev. by apply (He (S i)).
    + intros q' res Hin. apply Hr. by right.
Qed.

Lemma writeGroup_sent env ws frames dl choice r ws' :
  env_faithful env -> writeGroup env ws frames dl choice = Some (r, ws') ->
  sent_ok 0 (psh_bytes (group_requests (ws_requestID ws) (ws_next ws) frames)) r.
Proof.
  intros He. unfold writeGroup. destruct (select_ready _ _ _ _).
  { intros [= <- <-]. split; simpl; [|done]. pose proof (psh_bytes_nonneg (group_requests (ws_requestID ws) (ws_next ws) frames)). lia. }
  cbv zeta. set (reqs := group_requests _ _ _). specialize (He reqs (enqueue (ws_alloc ws (length frames)) reqs)).
  destruct (env _ _) as [[ws2 res] evs]. destruct He as [H1 H2].
  destruct (group_wait _ _ _ _ _) as [[r2 c2]|] eqn:G; [|done]. intros [= <- <-]. by eapply group_wait_sent.
Qed.

Lemma psh_bytes_group seq id0 frames :
  psh_bytes (group_requests seq id0 frames) =
  foldr (fun f acc => (if f_cmd f =? cmdPAD then 0 else zlen (f_data f)) + acc) 0 frames.
Proof. revert seq id0. induction frames as [|f frames IH]; intros; [done|]. simpl. by rewrite <- (IH (u32 (seq + 1)) (S id0)). Qed.

(** A padded group carries the payload it was built from. *)
Lemma psh_bytes_padGroup seq id0 padBytes version fs sid data pad :
  1 <= fs -> psh_bytes (group_requests seq id0 (padGroup padBytes version fs sid data pad)) = zlen data.
Proof.
  intros Hfs. rewrite psh_bytes_group. unfold padGroup. cbv zeta.
  destruct (psh_frames_spec (length data) (u8 version) sid fs data Hfs ltac:(lia)) as [H1 H2].
  set (psh := psh_frames _ _ _ _ _) in *. set (sumf := foldr _ 0).
  assert (Hs : sumf psh = zlen data).
  { rewrite <- H1. clear H1. subst sumf. induction H2 as [|f l (_ & Hc & _) _ IH]; [done|].
    simpl. rewrite Hc, IH, zlen_app. reflexivity. }
  destruct (0 <? _); [|done]. subst sumf. rewrite foldr_app. simpl. rewrite <- Hs. done.
Qed.

Lemma writeData_sent env ws f dl class choice r ws' :
  env_faithful env -> f_cmd f = cmdPSH -> writeData env ws f dl class choice = Some (r, ws') ->
  sent_ok 0 (zlen (f_data f)) r.
Proof.
  intros He Hf. pose proof (zlen_nonneg (f_data f)). unfold writeData.
  destruct (select_ready _ _ _ _); [intros [= <- <-]; split; simpl; [lia|done]|].
  cbv zeta. set (req := mkReq _ _ _ _ _ _). specialize (He [req] (enqueue (ws_alloc ws 1) [req])).
  destruct (env _ _) as [[ws2 res] evs]. destruct He as [H1 H2].
  assert (Hab : forall cause r2 c2, abandon res (ws_cells ws2) [req] 0 cause = (r2, c2) -> sent_ok 0 (zlen (f_data f)) r2).
  { intros cause r2 c2 E. pose proof (abandon_sent res (ws_cells ws2) [req] 0 cause H2) as Hs. rewrite E in Hs.
    unfold psh_bytes in Hs. simpl in Hs. rewrite Hf in Hs. simpl in Hs. by rewrite Z.add_0_r in Hs. }
  destruct evs as [|[[n e]| |e|] evs]; [done| |destruct (abandon _ _ _ _ _) eqn:E; intros [= <- <-]; by eapply Hab..].
  intros [= <- <-]. destruct (H1 0%nat req (n, e) eq_refl eq_refl) as [G1 G2]. simpl in *. split; simpl; [lia|].
  intros ->. by rewrite (G2 eq_refl).
Qed.

(** Counting [n] more bytes as written, nothing else that flow control reads. *)
Definition counted (st st' : Stream) (n : Z) : Prop :=
  st_numWritten st' = u32 (st_numWritten st + n) /\ st_peerConsumed st' = st_peerConsumed st /\
  st_peerWindow st' = st_peerWindow st /\ st_frameSize st' = st_frameSize st.

Lemma counted_refl st : st_numWritten st = u32 (st_numWritten st) -> counted st st 0.
Proof. intros H. unfold counted. by rewrite Z.add_0_r. Qed.

(** The frame loop: the bytes it reports are the bytes it counts in
    [numWritten], all of them without error. *)
Lemma send_frames_sent e ver class fuel k ws st bts sent r ws' st' :
  env_faithful (we_env e) -> 1 <= st_frameSize st -> (length bts <= fuel)%nat -> zlen bts < 2147483648 ->
  st_numWritten st = u32 (st_numWritten st) ->
  send_frames fuel k e ver false class ws st bts sent = Some (r, ws', st') ->
  sent_ok sent (zlen bts) r /\ counted st st' (r.1 - sent).
Proof.
  intros He. revert k ws st bts sent. induction fuel as [|fuel IH]; intros k ws st bts sent Hfs Hl Hb Hnw.
  { destruct bts; [|simpl in Hl; lia]. intros [= <- <- <-]. rewrite Z.sub_diag. split; [by apply sent_ok_zero|].
    by apply counted_refl. }
  cbn [send_frames]. pose proof (zlen_nonneg bts). destruct (zlen bts <=? 0) eqn:E0; zify_bool.
  { intros [= <- <- <-]. rewrite Z.sub_diag. split; [apply sent_ok_zero; lia|by apply counted_refl]. }
  set (sz := if st_frameSize st <? zlen bts then st_frameSize st else zlen bts).
  assert (Hsz : 1 <= sz <= zlen bts) by (subst sz; case_ifs; lia). cbv zeta.
  destruct (writeData _ _ _ _ _ _) as [[[n er] ws1]|] eqn:W; [|done].
  apply writeData_sent in W as [W1 W2]; [|done|done]. cbn [f_data fst snd] in W1, W2. rewrite zlen_ztake in W1, W2 by lia.
  rewrite (u32_small n) by lia. destruct er as [er|].
  - intros [= <- <- <-]. cbn [fst]. split; [split; simpl; [lia|done]|]. unfold counted. cbn.
    split_and!; try done. f_equal. lia.
  - specialize (W2 eq_refl). intros Hs. apply IH in Hs; cbn [st_set_numWritten st_frameSize st_numWritten] in *;
      [|done|unfold zdrop; rewrite length_drop; unfold zlen in *; lia|rewrite zlen_zdrop by lia; lia|by rewrite u32_idem].
    rewrite zlen_zdrop in Hs by lia. destruct Hs as [[H1 H2] (H3 & H4 & H5 & H6)].
    cbn [st_numWritten st_peerConsumed st_peerWindow st_frameSize st_set_numWritten] in *.
    split; [split; [lia|intros Hn; rewrite (H2 Hn); lia]|]. unfold counted. rewrite H3, u32_add_l. split_and!; try done.
    f_equal. lia.
Qed.

(** a version 2 write stays in its window.  One turn of [writeV2], with a
    send loop that answers truthfully, cuts the buffer into a part [bts] that
    fits the window the peer left and the rest [b']; it counts in [numWritten]
    and reports exactly the bytes that went out, never more than [bts] and all
    of [bts] unless it reports an error, so what is in flight never exceeds the
    peer's window.  When nothing fits nothing is sent, and an acknowledgement
    of bytes never sent is an error. *)
Lemma writeV2_turn_window e s st b pad sent r s' st' b' pad' :
  env_faithful (we_env e) -> 1 <= st_frameSize st ->
  0 <= st_numWritten st < 4294967296 -> 0 <= st_peerWindow st < 2147483648 -> 0 < zlen b < 2147483648 ->
  writeV2_turn e s st b pad sent = Some (r, s', st', b', pad') ->
  counted st st' (r.1 - sent) /\
  match send_window st with
  | None => r = (sent, Some EConsumed) /\ st' = st /\ b' = b
  | Some (inflight, win) =>
      0 <= inflight /\
      exists bts, b = bts ++ b' /\ sent_ok sent (zlen bts) r /\ zlen bts = Z.max 0 (Z.min win (zlen b)) /\
        (0 < win -> inflight + (r.1 - sent) <= st_peerWindow st)
  end.
Proof.
  intros He Hfs Hnw Hpw Hb H. unfold writeV2_turn in H.
  assert (Hnu : st_numWritten st = u32 (st_numWritten st)) by (symmetry; apply u32_small; lia).
  assert (Hrefl : counted st st (sent - sent)) by (rewrite Z.sub_diag; by apply counted_refl).
  destruct (send_window st) as [[inflight win]|] eqn:Ew; [|by injection H as <- <- <- <- <-].
  unfold send_window in Ew. cbv zeta in Ew.
  pose proof (i32_range (u32 (st_numWritten st - st_peerConsumed st))) as Hir.
  destruct (i32 _ <? 0) eqn:Ei in Ew; [done|]. zify_bool. injection Ew as Einf Ewin.
  rewrite Einf, (i32_small (st_peerWindow st)), i32_small in Ewin by lia. rewrite Einf in *.
  destruct (0 <? win) eqn:E0; zify_bool; cbn [negb] in H.
  2:{ injection H as <- <- <- <- <-. split; [done|]. split; [lia|]. exists []. split; [done|].
      split; [by apply sent_ok_zero|]. split; [unfold zlen at 1; simpl; lia|lia]. }
  unfold cut_window in H. rewrite (i32_small (zlen b)) in H by lia.
  assert (Hcut : exists bts b1, (if zlen b <? win then (b, []) else (ztake win b, zdrop win b)) = (bts, b1) /\
    b = bts ++ b1 /\ zlen bts = Z.min win (zlen b)).
  { destruct (zlen b <? win) eqn:E1; zify_bool; do 2 eexists; (split; [reflexivity|]).
    - split; [by rewrite app_nil_r|lia].
    - split; [by rewrite ztake_zdrop|rewrite zlen_ztake; lia]. }
  destruct Hcut as (bts & b1 & Ec & Eb & El). rewrite Ec in H. cbv zeta in H.
  assert (Hgoal : b' = b1 -> sent_ok sent (zlen bts) r -> counted st st' (r.1 - sent) ->
    counted st st' (r.1 - sent) /\ 0 <= inflight /\ exists bts, b = bts ++ b' /\ sent_ok sent (zlen bts) r /\
      zlen bts = Z.max 0 (Z.min win (zlen b)) /\ (0 < win -> inflight + (r.1 - sent) <= st_peerWindow st)).
  { intros -> Hs Hc. split; [done|]. split; [lia|]. exists bts. split_and!; [done|done|lia|].
    intros _. destruct Hs as [Hs _]. lia. }
  destruct (0 <? pad).
  - destruct (writeGroup _ _ _ _ _) as [[[n er] ws]|] eqn:W; [|done].
    apply writeGroup_sent in W; [|done]. rewrite psh_bytes_padGroup in W by done. destruct W as [W1 W2].
    cbn [fst snd] in W1, W2. rewrite (u32_small n) in H by lia. destruct er as [er|].
    + injection H as <- <- <- <- <-. apply Hgoal; [done|split; simpl; [lia|done]|].
      unfold counted. cbn. split_and!; try done. do 2 f_equal. lia.
    + simpl in H. specialize (W2 eq_refl). injection H as <- <- <- <- <-. apply Hgoal; [done|split; simpl; lia|].
      unfold counted. cbn. split_and!; try done. do 2 f_equal. lia.
  - destruct (send_frames _ _ _ _ _ _ _ _ _ _) as [[[r1 ws2] st2]|] eqn:V; [|done].
    injection H as <- <- <- <- <-. apply send_frames_sent in V as [V1 V2]; try done; [|lia].
    by apply Hgoal.
Qed.

(** Every frame goes out. *)
Definition good_env : environment := fun reqs ws =>
  (ws, ∅, map (fun r => EvResult (zlen (f_data (w_frame r)), None)) reqs).

Lemma good_env_faithful : env_faithful good_env.
Proof.
  intros reqs ws. simpl. split; [|by intros]. intros i r res Hr He. rewrite list_lookup_fmap, Hr in He.
  injection He as <-. split; simpl; [|done]. pose proof (zlen_nonneg (f_data (w_frame r))). lia.
Qed.

Lemma writeV2_turn_window_witness :
  let e := mkWEnv good_env 0 (fun _ => false) (fun _ => 0) [] in
  let s := newSession wrap_config true NewAllocator in
  let st := update (st_set_numWritten (newStream 3 4) 5) 2 10 in
  exists r s' st' b' pad', writeV2_turn e s st [1; 2; 3; 4; 5; 6; 7; 8; 9] 0 0 = Some (r, s', st', b', pad') /\
    r = (7, None) /\ b' = [8; 9] /\ counted st st' 7.
Proof.
  cbv zeta. do 5 eexists. split; [vm_compute; reflexivity|]. split; [reflexivity|]. split; [reflexivity|].
  refine (proj1 (writeV2_turn_window (mkWEnv good_env 0 (fun _ => false) (fun _ => 0) [])
    (newSession wrap_config true NewAllocator) (update (st_set_numWritten (newStream 3 4) 5) 2 10)
    [1; 2; 3; 4; 5; 6; 7; 8; 9] 0 0 (7, None) _ _ _ _ good_env_faithful _ _ _ _ _)).
  all: try (vm_compute; split; congruence); vm_compute; congruence.
Defined.

(** ** Reading to the end *)

(** The allocator and the stream are well formed, and the connection has not
    failed with this package's own [ErrWouldBlock]. *)
Definition readable (s : Session) (st : Stream) : Prop :=
  alloc_ok (s_alloc s) /\ stream_ok st /\ s_writeErr s <> Some EWouldBlock.

(** Nor does a write report it. *)
Definition no_block (env : environment) : Prop :=
  forall ws f class choice n ws', ws_writeErr ws <> Some EWouldBlock ->
    writeFrameInternal env ws f class choice <> Some ((n, Some EWouldBlock), ws').

(** What a read of a readable stream returns: data from its front, or, only
    when nothing is buffered, an error. *)
Lemma tryRead_cases env choice s st blen :
  no_block env -> readable s st -> 0 < blen ->
  match tryRead env choice s st blen with
  | None => hasBuffered st = true
  | Some Panic => False
  | Some (Ret ((data, e), s', st')) =>
      bytes_of (st_buffers st) = data ++ bytes_of (st_buffers st') /\
      if hasBuffered st then data <> [] /\ e <> Some EWouldBlock else data = [] /\ st_buffers st' = [] /\ readable s' st' /\ is_Some e
  end.
Proof.
  intros Hnb (Ha & Hok & Hwe) Hb.
  destruct (read_first_spec (s_alloc s) st blen Ha Hok ltac:(lia)) as (data & a & st1 & Hrf & Hc & Hlen).
  pose proof (hasBuffered_first st blen Hok Hb) as Hbuf. rewrite <- Hlen in Hbuf.
  assert (Hne : 0 < zlen data -> data <> []) by (intros Hp ->; unfold zlen in Hp; simpl in Hp; lia).
  unfold tryRead, tryReadv2, tryRead_v1. rewrite Hrf. cbv zeta.
  destruct (blen =? 0) eqn:E; zify_bool; [lia|].
  destruct (0 <? zlen data) eqn:Ed; zify_bool.
  - rewrite (proj1 Hbuf Ed). specialize (Hne Ed). destruct (Version (s_config s) =? 2).
    + destruct (count_read _ _ _) as [st2 k] eqn:K. apply count_read_same in K as K2.
      assert (H2 : bytes_of (st_buffers st) = data ++ bytes_of (st_buffers st2)).
      { destruct K2 as (_ & -> & _). apply Hc. }
      destruct (0 <? k); [|done].
      destruct (sendWindowUpdate _ _ _ _ _) as [[[e|] s1]|] eqn:U; [destruct (IsClosed s1)|..]; try done.
      split; [done|]. split; [done|]. intros [= ->]. unfold sendWindowUpdate in U. cbv zeta in U.
      destruct (writeFrameInternal _ _ _ _ _) as [[[n er] ws]|] eqn:W; [|done]. injection U as -> _.
      apply Hnb in W; [done|]. unfold returnTokens. cbv zeta. by destruct (0 <? _).
    + split; [apply Hc|done].
  - assert (Hf : hasBuffered st = false) by (destruct (hasBuffered st); [lia|done]). rewrite Hf.
    unfold hasBuffered in Hf. destruct (st_buffers st) eqn:Eb; [|done].
    unfold read_first in Hrf. rewrite Eb in Hrf. injection Hrf as <- <- <-.
    destruct (Version (s_config s) =? 2).
    + destruct (count_read _ _ _) as [st2 k] eqn:K. apply count_read_same in K as (K1 & K2 & K3).
      assert (Hr2 : readable (s_set_alloc s (s_alloc s)) st2) by (split; [done|]; split; [|done]; unfold stream_ok; by rewrite K2, K3).
      destruct (st_die st2); rewrite K2, Eb; split_and!; try done.
    + destruct (st_die st); rewrite Eb; split_and!; done.
Qed.

Lemma waitRead_error dl choice s st e st' :
  waitRead dl choice s st = Some (Some e, st') -> st_same st st' /\ (st_buffers st' = [] \/ e = ETimeout).
Proof.
  intros H. pose proof (waitRead_same _ _ _ _ _ _ H) as Hs. split; [done|].
  destruct Hs as (_ & -> & _). revert H. unfold waitRead. cbv zeta. intros H. apply list_elem_of_lookup_2 in H.
  unfold recvErrUnlessBuffered, hasBuffered in H.
  destruct (st_buffers st) as [|b bs]; [by left|right].
  repeat (apply elem_of_app in H as [H|H]); repeat match type of H with
    | context [if ?b then _ else _] => destruct b
    end; try (apply elem_of_nil in H; done);
    apply list_elem_of_singleton in H; try discriminate; by injection H as -> _.
Qed.

(** What [Read] may return from a stream that was [st]. *)
Definition read_result (st : Stream) (out : go_result ((list Z * option err) * Session * Stream)) : Prop :=
  exists data e s' st', out = Ret ((data, e), s', st') /\
    (hasBuffered st = true -> data <> [] /\ bytes_of (st_buffers st) = data ++ bytes_of (st_buffers st')) /\
    (data = [] -> exists er, e = Some er /\ (st_buffers st' = [] \/ er = ETimeout)).

(** nothing delivered is lost at the end.  A blocking [Read] with a
    non-empty buffer on a stream with buffered bytes returns a non-empty prefix
    of them at once, whatever FIN, close or connection error has arrived; and
    whatever the other goroutines do while it waits, it comes back empty-handed
    with an error only when the stream's buffer is empty, or on its own
    deadline.  It never panics. *)
Lemma Read_drains env waits s st blen out :
  no_block env -> readable s st -> 0 < blen ->
  Forall (fun w => forall s st, readable s st -> readable (wt_others w s st).1 (wt_others w s st).2) waits ->
  Read env waits s st blen = Some out -> read_result st out.
Proof.
  intros Hnb Hr Hb Hw. revert s st Hr. induction Hw as [|w ws Hw _ IH]; intros s st Hr; cbn [Read];
    pose proof (tryRead_cases env 0 s st blen Hnb Hr Hb) as Ht;
    destruct (tryRead env 0 s st blen) as [[[[[data e] s1] st1]|]|]; try done; destruct Ht as [Ht1 Ht2];
    (assert (Hout : e <> Some EWouldBlock -> read_result st (Ret ((data, e), s1, st1)));
    [intros _; do 4 eexists; (split; [reflexivity|]); destruct (hasBuffered st); [by destruct Ht2|];
     (split; [done|]); intros _; destruct Ht2 as (_ & H2 & _ & [er ->]); exists er; auto|]).
  - destruct e as [[]|]; intros [= <-]; by apply Hout.
  - destruct (decide (e = Some EWouldBlock)) as [->|Hne].
    2:{ specialize (Hout Hne). destruct e as [[]|]; try (by destruct Hne); intros [= <-]; done. }
    destruct (hasBuffered st) eqn:Hbuf; [by destruct Ht2|]. destruct Ht2 as (-> & _ & Hr1 & _).
    specialize (Hw s1 st1 Hr1). destruct (wt_others w s1 st1) as [s2 st2]. cbn [fst snd] in Hw.
    destruct (waitRead _ _ s2 st2) as [[[er|] st3]|] eqn:W; [| |done].
    + intros [= <-]. apply waitRead_error in W as [_ W]. do 4 eexists. split; [reflexivity|].
      rewrite Hbuf. split; [done|]. intros _. by exists er.
    + intros H. apply waitRead_same in W as (W1 & W2 & W3).
      assert (Hr3 : readable s2 st3) by (destruct Hw as (Hw1 & Hw2 & Hw3); split; [done|]; split; [|done]; unfold stream_ok; by rewrite W2, W3).
      destruct (IH s2 st3 Hr3 H) as (d & e & s' & st' & -> & _ & H3). do 4 eexists. split; [reflexivity|].
      rewrite Hbuf. by split.
Qed.

Lemma good_env_no_block : no_block good_env.
Proof.
  intros ws f class choice n ws' Hw H. unfold writeFrameInternal in H. destruct (select_ready _ _ _ _) as [e|] eqn:S.
  - injection H as _ -> _. unfold select_ready in S. cbv zeta in S. apply list_elem_of_lookup_2 in S.
    repeat (apply elem_of_app in S as [S|S]); repeat match type of S with
      | context [match ?b with _ => _ end] => destruct b
      end; try (apply elem_of_nil in S; done); apply list_elem_of_singleton in S; congruence.
  - simpl in H. discriminate.
Qed.

Definition finished_stream : Stream :=
  st_set_fin (st_set_buffers (st_set_heads (newStream 3 100) [mkBuffer 0 8]) [mkSlice 0 8 [1; 2; 3]]) true.

Lemma Read_drains_witness :
  exists s' st', Read good_env [] (newSession DefaultConfig true NewAllocator) finished_stream 2
    = Some (Ret (([1; 2], None), s', st')) /\ read_result finished_stream (Ret (([1; 2], None), s', st')).
Proof.
  do 2 eexists. split; [vm_compute; reflexivity|].
  refine (Read_drains good_env [] (newSession DefaultConfig true NewAllocator) finished_stream 2 _
    good_env_no_block (conj NewAllocator_ok (conj _ _)) _ _ _); [| |lia|constructor|vm_compute; reflexivity].
  - repeat constructor; cbn; unfold zlen; simpl; lia.
  - discriminate.
Defined.
