(* ===== verification/HaulPool.v ===== *)
(** * drophaul: the session pool

    Models [transport/drophaul/client.go]: the pool of smux sessions of one
    node, the choice of a session for a new stream, dialling (Happy Eyeballs,
    TLS, token exchange), the fallback window, and the watcher that drains
    lossy and idle sessions. *)

From S2P Require Import Prelude SmuxFrame SmuxWrite SmuxSession.
From Stdlib Require Import Floats.SpecFloat.

(** ** Configuration *)

(** @go transport/drophaul/client.go:18-32 SGChan, defaultMaxSessions, defaultStreamsPerSession, defaultIdleTimeout, defaultFallbackTTL, happyEyeballsWays, happyEyeballsStaggerDelay, minLossSegsOut, lossRetransRatio, lossConsecutiveTicks *)
Definition SGChan : Z := 1.
Definition defaultMaxSessions : Z := 2.
Definition defaultStreamsPerSession : Z := 32.
Definition defaultIdleTimeout : Z := 90 * Second.
Definition defaultFallbackTTL : Z := 10 * 60 * Second.
Definition happyEyeballsWays : Z := 3.
Definition minLossSegsOut : Z := 25.
Definition lossRetransRatio : spec_float := S754_finite false 7205759403792794 (-57).
Definition lossConsecutiveTicks : Z := 3.

(** Errors of the pool: [PFallback] is [ErrFallbackToReality], [PClosed]
    [net.ErrClosed], [PNoDial] the final "dial failed"; the others come from
    the context, the smux session, its configuration and the network. *)
Inductive perr : Type :=
| PFallback | PClosed | PNoDial | PContext | PSmux (e : err) | PConfig (e : ConfigError) | PNet (n : Z).

#[export] Instance ConfigError_eq_dec : EqDecision ConfigError.
Proof. solve_decision. Defined.
#[export] Instance perr_eq_dec : EqDecision perr.
Proof. solve_decision. Defined.

(** @go transport/drophaul/client.go:39-47 Options *)
Record Options := mkOptions {
  o_Token : list Z; o_MaxSessions : Z; o_IdleTimeout : Z; o_FallbackTTL : Z
}.

(** @go transport/drophaul/client.go:49-59 poolSession *)
Record poolSession := mkPS {
  ps_session : Session; ps_lastUsed : Z; ps_draining : bool;
  ps_prevSegsOut : Z; ps_prevTotalRetrans : Z; ps_hasPrevCounters : bool; ps_lossStreak : Z
}.

Definition ps_set_session (ps : poolSession) (s : Session) : poolSession :=
  mkPS s (ps_lastUsed ps) (ps_draining ps) (ps_prevSegsOut ps) (ps_prevTotalRetrans ps)
    (ps_hasPrevCounters ps) (ps_lossStreak ps).
Definition ps_set_lastUsed (ps : poolSession) (t : Z) : poolSession :=
  mkPS (ps_session ps) t (ps_draining ps) (ps_prevSegsOut ps) (ps_prevTotalRetrans ps)
    (ps_hasPrevCounters ps) (ps_lossStreak ps).
Definition ps_drain (ps : poolSession) : poolSession :=
  mkPS (ps_session ps) (ps_lastUsed ps) true (ps_prevSegsOut ps) (ps_prevTotalRetrans ps)
    (ps_hasPrevCounters ps) (ps_lossStreak ps).
Definition ps_set_counters (ps : poolSession) (segs retrans : Z) : poolSession :=
  mkPS (ps_session ps) (ps_lastUsed ps) (ps_draining ps) segs retrans true (ps_lossStreak ps).
Definition ps_set_lossStreak (ps : poolSession) (n : Z) : poolSession :=
  mkPS (ps_session ps) (ps_lastUsed ps) (ps_draining ps) (ps_prevSegsOut ps) (ps_prevTotalRetrans ps)
    (ps_hasPrevCounters ps) n.
Definition ps_close (ps : poolSession) : poolSession := ps_set_session ps (session_Close (ps_session ps)).2.

(** [p_heap] holds every session the pool ever made, by identity; [p_sessions]
    is the slice of pointers.  [p_calls] are the shared dials: [None] until
    [done] is closed.
    @go transport/drophaul/client.go:87-97 Pool *)
Record Pool := mkPool {
  p_opts : Options;
  p_smuxCfg : Config;
  p_heap : gmap nat poolSession;
  p_next : nat;
  p_sessions : list nat;
  p_dialing : Z;
  p_inflightDial : option nat;
  p_calls : gmap nat (option (perr + nat));
  p_fallbackUntil : Z;
  p_closed : bool;
  p_stopWatcher : bool;
  p_watcherStarted : bool
}.

Definition p_set_heap (p : Pool) (v : gmap nat poolSession) : Pool :=
  mkPool (p_opts p) (p_smuxCfg p) v (p_next p) (p_sessions p) (p_dialing p) (p_inflightDial p) (p_calls p)
    (p_fallbackUntil p) (p_closed p) (p_stopWatcher p) (p_watcherStarted p).
Definition p_set_sessions (p : Pool) (v : list nat) : Pool :=
  mkPool (p_opts p) (p_smuxCfg p) (p_heap p) (p_next p) v (p_dialing p) (p_inflightDial p) (p_calls p)
    (p_fallbackUntil p) (p_closed p) (p_stopWatcher p) (p_watcherStarted p).
Definition p_set_dialing (p : Pool) (v : Z) : Pool :=
  mkPool (p_opts p) (p_smuxCfg p) (p_heap p) (p_next p) (p_sessions p) v (p_inflightDial p) (p_calls p)
    (p_fallbackUntil p) (p_closed p) (p_stopWatcher p) (p_watcherStarted p).
Definition p_set_inflightDial (p : Pool) (v : option nat) : Pool :=
  mkPool (p_opts p) (p_smuxCfg p) (p_heap p) (p_next p) (p_sessions p) (p_dialing p) v (p_calls p)
    (p_fallbackUntil p) (p_closed p) (p_stopWatcher p) (p_watcherStarted p).
Definition p_set_calls (p : Pool) (v : gmap nat (option (perr + nat))) : Pool :=
  mkPool (p_opts p) (p_smuxCfg p) (p_heap p) (p_next p) (p_sessions p) (p_dialing p) (p_inflightDial p) v
    (p_fallbackUntil p) (p_closed p) (p_stopWatcher p) (p_watcherStarted p).
Definition p_set_fallbackUntil (p : Pool) (v : Z) : Pool :=
  mkPool (p_opts p) (p_smuxCfg p) (p_heap p) (p_next p) (p_sessions p) (p_dialing p) (p_inflightDial p)
    (p_calls p) v (p_closed p) (p_stopWatcher p) (p_watcherStarted p).
Definition p_set_closed (p : Pool) : Pool :=
  mkPool (p_opts p) (p_smuxCfg p) (p_heap p) (p_next p) (p_sessions p) (p_dialing p) (p_inflightDial p)
    (p_calls p) (p_fallbackUntil p) true (p_stopWatcher p) (p_watcherStarted p).
Definition p_set_stopWatcher (p : Pool) : Pool :=
  mkPool (p_opts p) (p_smuxCfg p) (p_heap p) (p_next p) (p_sessions p) (p_dialing p) (p_inflightDial p)
    (p_calls p) (p_fallbackUntil p) (p_closed p) true (p_watcherStarted p).
Definition p_set_watcherStarted (p : Pool) (v : bool) : Pool :=
  mkPool (p_opts p) (p_smuxCfg p) (p_heap p) (p_next p) (p_sessions p) (p_dialing p) (p_inflightDial p)
    (p_calls p) (p_fallbackUntil p) (p_closed p) (p_stopWatcher p) v.
Definition p_alloc (p : Pool) (ps : poolSession) : nat * Pool :=
  (p_next p, mkPool (p_opts p) (p_smuxCfg p) (<[p_next p := ps]> (p_heap p)) (S (p_next p)) (p_sessions p)
    (p_dialing p) (p_inflightDial p) (p_calls p) (p_fallbackUntil p) (p_closed p) (p_stopWatcher p)
    (p_watcherStarted p)).

(** Update through a pointer. *)
Definition with_ps (p : Pool) (i : nat) (f : poolSession -> poolSession) : Pool :=
  p_set_heap p (alter f i (p_heap p)).

(** The options and the smux configuration of a new pool; the pool also
    registers itself among the active ones.
    @go transport/drophaul/client.go:99-127 NewPool *)
Definition NewPool (opts : Options) : Pool :=
  let opts := mkOptions (o_Token opts)
    (if o_MaxSessions opts <=? 0 then defaultMaxSessions else o_MaxSessions opts)
    (if o_IdleTimeout opts <=? 0 then defaultIdleTimeout else o_IdleTimeout opts)
    (if o_FallbackTTL opts <=? 0 then defaultFallbackTTL else o_FallbackTTL opts) in
  let smuxCfg := mkConfig 2 false (30 * Second) (90 * Second) 32768 4194304 262144 true in
  mkPool opts smuxCfg ∅ 0 [] 0 None ∅ 0 false false false.

(** ** Fallback *)

(** [now] is [time.Now().UnixNano()].
    @go transport/drophaul/client.go:131-134 Pool.ShouldFallback *)
Definition ShouldFallback (now : Z) (p : Pool) : bool :=
  let until := p_fallbackUntil p in (0 <? until) && (now <? until).

(** @go transport/drophaul/client.go:136-139 Pool.markFallback *)
Definition markFallback (now : Z) (p : Pool) : Pool :=
  p_set_fallbackUntil p (i64 (now + o_FallbackTTL (p_opts p))).

(** The boolean says that a watcher goroutine was started.
    @go transport/drophaul/client.go:141-145 Pool.ensureWatcher *)
Definition ensureWatcher (p : Pool) : bool * Pool :=
  if p_watcherStarted p then (false, p) else (true, p_set_watcherStarted p true).

(** ** Choosing a session *)

Definition ps_closed (ps : poolSession) : bool := IsClosed (ps_session ps).

(** The loop of [pickBestSession]: the sessions kept and the best one so far
    with its inflight and stream counts.
    @go transport/drophaul/client.go:181-208 Pool.pickBestSession *)
Fixpoint pick_loop (heap : gmap nat poolSession) (l : list nat) (best : option nat) (bestInflight bestStreams : Z) :
    list nat * option nat :=
  match l with
  | [] => ([], best)
  | i :: rest =>
      match heap !! i with
      | None => pick_loop heap rest best bestInflight bestStreams
      | Some ps =>
          if ps_closed ps then pick_loop heap rest best bestInflight bestStreams
          else if ps_draining ps then
            let '(alive, b) := pick_loop heap rest best bestInflight bestStreams in (i :: alive, b)
          else
            let inf := TotalInflight (ps_session ps) in
            let numSt := NumStreams (ps_session ps) in
            let better := match best with
                          | None => true
                          | Some _ => (inf <? bestInflight) || ((inf =? bestInflight) && (numSt <? bestStreams))
                          end in
            let '(alive, b) :=
              if better then pick_loop heap rest (Some i) inf numSt
              else pick_loop heap rest best bestInflight bestStreams in
            (i :: alive, b)
      end
  end.

Definition MaxInt64 : Z := 9223372036854775807.

(** @go transport/drophaul/client.go:181-208 Pool.pickBestSession *)
Definition pickBestSession (p : Pool) : option nat * Pool :=
  let '(alive, best) := pick_loop (p_heap p) (p_sessions p) None MaxInt64 MaxInt32 in
  (best, p_set_sessions p alive).

(** Counts over the usable sessions.
    @go transport/drophaul/client.go:211-219 Pool.maybeWarmSecondSession *)
Fixpoint usable_count (heap : gmap nat poolSession) (l : list nat) : Z * Z :=
  match l with
  | [] => (0, 0)
  | i :: rest =>
      let '(active, total) := usable_count heap rest in
      match heap !! i with
      | Some ps => if negb (ps_closed ps) && negb (ps_draining ps)
                   then (active + 1, total + NumStreams (ps_session ps)) else (active, total)
      | None => (active, total)
      end
  end.

(** The boolean says that a background dial was started.
    @go transport/drophaul/client.go:210-234 Pool.maybeWarmSecondSession *)
Definition maybeWarmSecondSession (p : Pool) : bool * Pool :=
  let '(active, totalStreams) := usable_count (p_heap p) (p_sessions p) in
  let need := (active <? o_MaxSessions (p_opts p)) && (p_dialing p =? 0)
              && (active * defaultStreamsPerSession <=? totalStreams) in
  if need then (true, p_set_dialing p (p_dialing p + 1)) else (false, p).

(** ** The race of TCP dials *)

(** Outcome of one [DialTCP]: the connection and the error. *)
Abbreviation dial_res := (option nat * option perr)%type.

(** The case the [select] takes. *)
Inductive race_event : Type := RvResult (r : dial_res) | RvStagger | RvCtxDone.

(** [r_timer]: the stagger timer is armed.
    @go transport/drophaul/client.go:385-423 Pool.dialHappyEyeballs *)
Record race := mkRace { r_launched : Z; r_failures : Z; r_firstErr : option perr; r_timer : bool }.

Definition race_init : race := mkRace 1 0 None true.

(** One turn of the loop; [cancelled] is [raceCtx.Err() != nil] at that time.
    [inr (result, n)] returns and drains [n] results in the background; [None]
    when the case is not possible.
    @go transport/drophaul/client.go:416-456 Pool.dialHappyEyeballs *)
Definition race_turn (ev : race_event) (cancelled : bool) (st : race) : option (race + ((perr + nat) * Z)) :=
  let may_launch := (r_launched st <? happyEyeballsWays) && negb cancelled in
  match ev with
  | RvResult (Some c, None) => Some (inr (inr c, r_launched st - r_failures st - 1))
  | RvResult (_, e) =>
      let failures := r_failures st + 1 in
      let firstErr := match r_firstErr st with None => e | Some _ => r_firstErr st end in
      Some (inl (if may_launch then mkRace (r_launched st + 1) failures firstErr true
                 else mkRace (r_launched st) failures firstErr (r_timer st)))
  | RvStagger =>
      if r_timer st then
        Some (inl (if may_launch
                   then mkRace (r_launched st + 1) (r_failures st) (r_firstErr st)
                          (r_launched st + 1 <? happyEyeballsWays)
                   else mkRace (r_launched st) (r_failures st) (r_firstErr st) false))
      else None
  | RvCtxDone => Some (inr (inl PContext, r_launched st - r_failures st))
  end.

(** The loop over the cases taken; [None] while it waits.  The result carries
    the number of drained results.
    @go transport/drophaul/client.go:376-463 Pool.dialHappyEyeballs *)
Fixpoint race_loop (evs : list (race_event * bool)) (st : race) : option ((perr + nat) * Z) :=
  if negb (r_failures st <? r_launched st) then Some (inl (default PNoDial (r_firstErr st)), 0) else
  match evs with
  | [] => None
  | (ev, cancelled) :: rest =>
      match race_turn ev cancelled st with
      | None => None
      | Some (inl st') => race_loop rest st'
      | Some (inr out) => Some out
      end
  end.

(** @go transport/drophaul/client.go:376-463 Pool.dialHappyEyeballs *)
Definition dialHappyEyeballs (evs : list (race_event * bool)) : option ((perr + nat) * Z) :=
  race_loop evs race_init.

(** ** Authentication *)

(** [[2B length][1B SGChan][token]].
    @go transport/drophaul/client.go:349-353 Pool.dialAndAuthenticate *)
Definition auth_frame (token : list Z) : list Z :=
  be_put 2 (u16 (zlen token)) ++ [SGChan] ++ token.

(** What is done to the connections. *)
Inductive conn_act : Type := CloseRaw | CloseTLS | SetDeadline | ClearDeadline | WriteAuth (b : list Z).

(** [tls] is the outcome of [HandshakeTLS], [write_err] of the write, [ack] of
    reading one byte ([None]: an error).
    @go transport/drophaul/client.go:335-374 Pool.dialAndAuthenticate *)
Definition dialAndAuthenticate (raw : perr + nat) (tls : option nat) (write_err : option perr)
    (ack : option Z) (token : list Z) : (perr + (nat * nat)) * list conn_act :=
  match raw with
  | inl e => (inl e, [])
  | inr rawConn =>
      match tls with
      | None => (inl PFallback, [CloseRaw])
      | Some tlsConn =>
          let acts := [SetDeadline; WriteAuth (auth_frame token)] in
          match write_err with
          | Some e => (inl e, acts ++ [CloseTLS])
          | None =>
              match ack with
              | None => (inl PFallback, acts ++ [CloseTLS])
              | Some b => if negb (b =? SGChan) then (inl PFallback, acts ++ [ClearDeadline; CloseTLS])
                          else (inr (rawConn, tlsConn), acts ++ [ClearDeadline])
              end
          end
      end
  end.

(** ** Dialling a session *)

(** The part of [dialNewSessionWithLockAdjusted] after authentication; the
    deferred [dialing--] included.  [auth] is what [dialAndAuthenticate]
    returned; the boolean of the result says whether the connection was closed
    again.
    @go transport/drophaul/client.go:284-331 Pool.dialNewSessionWithLockAdjusted *)
Definition dialNewSessionWithLockAdjusted (now : Z) (background : bool) (auth : perr + (nat * nat))
    (a : Allocator) (p : Pool) : (perr + nat) * Pool * bool :=
  let p := p_set_dialing p (p_dialing p - 1) in
  match auth with
  | inl e =>
      let p := if decide (e = PFallback) then (if background then p else markFallback now p) else p in
      (inl e, p, false)
  | inr _ =>
      match Client (Some (p_smuxCfg p)) a with
      | inl e => (inl (PConfig e), p, true)
      | inr sess =>
          let ps := mkPS sess now false 0 0 false 0 in
          let '(i, p) := p_alloc p ps in
          if p_closed p then (inl PClosed, with_ps p i ps_close, true)
          else (inr i, p_set_sessions p (p_sessions p ++ [i]), false)
      end
  end.

(** @go transport/drophaul/client.go:277-282 Pool.dialNewSession *)
Definition dialNewSession_begin (p : Pool) : Pool := p_set_dialing p (p_dialing p + 1).

(** The end of the goroutine of a shared dial.
    @go transport/drophaul/client.go:256-264 Pool.dialOrReuseSession *)
Definition call_finish (call : nat) (r : perr + nat) (p : Pool) : Pool :=
  let p := p_set_calls p (<[call := Some r]> (p_calls p)) in
  if decide (p_inflightDial p = Some call) then p_set_inflightDial p None else p.

(** Up to the wait: a result, or the call to wait for and whether its goroutine
    has just been started.  [others] is what happens between the check and the
    lock.
    @go transport/drophaul/client.go:236-267 Pool.dialOrReuseSession *)
Definition dialOrReuse_start (now : Z) (others : Pool -> Pool) (p : Pool) :
    ((perr + nat) + (nat * bool)) * Pool :=
  if ShouldFallback now p then (inl (inl PFallback), p) else
  let '(best, p) := pickBestSession p in
  match best with
  | Some i => (inl (inr i), p)
  | None =>
      let p := others p in
      if ShouldFallback now p then (inl (inl PFallback), p) else
      match p_inflightDial p with
      | Some call => (inr (call, false), p)
      | None =>
          let call := size (p_calls p) in
          (inr (call, true), p_set_inflightDial (p_set_calls p (<[call := None]> (p_calls p))) (Some call))
      end
  end.

(** The wait: [None] while neither the call nor the context is done.
    @go transport/drophaul/client.go:269-274 Pool.dialOrReuseSession *)
Definition dialOrReuse_wait (call : nat) (ctxDone : bool) (choice : nat) (p : Pool) : option (perr + nat) :=
  let ready := match p_calls p !! call with Some (Some r) => [r] | _ => [] end ++
               (if ctxDone then [inl PContext] else []) in
  ready !! (choice mod length ready)%nat.

(** ** Opening a stream *)

(** [OpenStream] through a pointer; the session's other goroutines do nothing
    meanwhile.  [None] blocks.
    @go transport/drophaul/client.go:155-175 Pool.DialStream *)
Definition open_on (env : environment) (choice : nat) (i : nat) (p : Pool) : option ((perr + Z) * Pool) :=
  match p_heap p !! i with
  | None => None
  | Some ps =>
      match OpenStream env id choice (ps_session ps) with
      | None => None
      | Some (inl e, s) => Some (inl (PSmux e), with_ps p i (fun ps => ps_set_session ps s))
      | Some (inr st, s) => Some (inr (st_id st), with_ps p i (fun ps => ps_set_session ps s))
      end
  end.

(** What the surroundings contribute to one [DialStream]: the time, the answers
    to its SYN frames, what the others do before the lock and during the wait,
    the context and the select choices. *)
Record dial_env := mkDEnv {
  de_now : Z; de_env : environment; de_choice : nat;
  de_before_lock : Pool -> Pool; de_during_wait : Pool -> Pool; de_ctxDone : bool
}.

(** The second half of [DialStream].
    @go transport/drophaul/client.go:167-178 Pool.DialStream *)
Definition DialStream_new (e : dial_env) (p : Pool) : option ((perr + (nat * Z)) * Pool) :=
  let finish i p :=
    match open_on (de_env e) (de_choice e) i p with
    | None => None
    | Some (inl er, p) => Some (inl er, with_ps p i (fun ps => ps_close (ps_drain ps)))
    | Some (inr sid, p) => Some (inr (i, sid), with_ps p i (fun ps => ps_set_lastUsed ps (de_now e)))
    end in
  match dialOrReuse_start (de_now e) (de_before_lock e) p with
  | (inl (inl er), p) => Some (inl er, p)
  | (inl (inr i), p) => finish i p
  | (inr (call, _), p) =>
      let p := de_during_wait e p in
      match dialOrReuse_wait call (de_ctxDone e) (de_choice e) p with
      | None => None
      | Some (inl er) => Some (inl er, p)
      | Some (inr i) => finish i p
      end
  end.

(** The stream is the session's identity and the stream id.
    @go transport/drophaul/client.go:147-179 Pool.DialStream *)
Definition DialStream (e : dial_env) (p : Pool) : option ((perr + (nat * Z)) * Pool) :=
  if p_closed p then Some (inl PClosed, p) else
  if ShouldFallback (de_now e) p then Some (inl PFallback, p) else
  let '(_, p) := ensureWatcher p in
  let '(best, p) := pickBestSession p in
  match best with
  | Some i =>
      match open_on (de_env e) (de_choice e) i p with
      | None => None
      | Some (inr sid, p) =>
          let p := with_ps p i (fun ps => ps_set_lastUsed ps (de_now e)) in
          Some (inr (i, sid), (maybeWarmSecondSession p).2)
      | Some (inl _, p) => DialStream_new e (with_ps p i ps_drain)
      end
  | None => DialStream_new e p
  end.

(** ** The watcher *)

(** @go transport/drophaul/tcpinfo_linux.go:12-19 tcpSample *)
Record tcpSample := mkSample {
  t_segsOut : Z; t_totalRetrans : Z; t_unacked : Z; t_retransmits : Z; t_hasCounters : bool
}.

Definition sf_of_Z (z : Z) : spec_float := binary_normalize 53 1024 z 0 false.

(** [float64(dRetrans)/float64(dSegs) >= lossRetransRatio].
    @go transport/drophaul/client.go:521-521 Pool.checkSessions *)
Definition loss_high (dRetrans dSegs : Z) : bool :=
  SFleb lossRetransRatio (SFdiv 53 1024 (sf_of_Z dRetrans) (sf_of_Z dSegs)).

(** The counters of the previous tick and the loss streak; the boolean says
    that the session has just been marked draining for its losses.
    @go transport/drophaul/client.go:512-534 Pool.checkSessions *)
Definition check_loss (st : tcpSample) (ps : poolSession) : bool * poolSession :=
  if negb (ps_hasPrevCounters ps) then (false, ps_set_counters ps (t_segsOut st) (t_totalRetrans st))
  else if (ps_prevSegsOut ps <=? t_segsOut st) && (ps_prevTotalRetrans ps <=? t_totalRetrans st) then
    let dSegs := u32 (t_segsOut st - ps_prevSegsOut ps) in
    let dRetrans := u32 (t_totalRetrans st - ps_prevTotalRetrans ps) in
    let ps := ps_set_counters ps (t_segsOut st) (t_totalRetrans st) in
    if (minLossSegsOut <=? dSegs) && loss_high dRetrans dSegs then
      let ps := ps_set_lossStreak ps (ps_lossStreak ps + 1) in
      if lossConsecutiveTicks <=? ps_lossStreak ps then (true, ps_drain ps) else (false, ps)
    else if minLossSegsOut <=? dSegs then (false, ps_set_lossStreak ps 0)
    else (false, ps)
  else (false, ps).

(** One session of [checkSessions]: kept or not, and its new state.  [stats] is
    [connTCPStats], which asks the kernel.
    @go transport/drophaul/client.go:491-537 Pool.checkSessions *)
Definition check_one (opts : Options) (now : Z) (stats : option tcpSample) (ps : poolSession) : bool * poolSession :=
  if ps_closed ps then (false, ps) else
  let idle := NumStreams (ps_session ps) =? 0 in
  if idle && ((o_IdleTimeout opts <=? now - ps_lastUsed ps) || ps_draining ps) then (false, ps_close ps) else
  match stats with
  | Some st =>
      if negb (t_hasCounters st) then (true, ps) else
      let stuck := (0 <? t_unacked st) && (2 <=? t_retransmits st) in
      let ps := if stuck then ps_drain ps else ps in
      if stuck && idle then (false, ps_close ps) else
      let '(lossy, ps) := check_loss st ps in
      if lossy && idle then (false, ps_close ps) else (true, ps)
  | None => (true, ps)
  end.

(** @go transport/drophaul/client.go:491-538 Pool.checkSessions *)
Fixpoint check_loop (opts : Options) (now : Z) (stats : nat -> option tcpSample)
    (heap : gmap nat poolSession) (l : list nat) : list nat * gmap nat poolSession :=
  match l with
  | [] => ([], heap)
  | i :: rest =>
      match heap !! i with
      | None => check_loop opts now stats heap rest
      | Some ps =>
          let '(keep, ps') := check_one opts now (stats i) ps in
          let '(alive, heap') := check_loop opts now stats (<[i := ps']> heap) rest in
          (if keep then i :: alive else alive, heap')
      end
  end.

(** @go transport/drophaul/client.go:487-541 Pool.checkSessions *)
Definition checkSessions (now : Z) (stats : nat -> option tcpSample) (p : Pool) : nat * Pool :=
  let '(alive, heap) := check_loop (p_opts p) now stats (p_heap p) (p_sessions p) in
  (length alive, p_set_sessions (p_set_heap p heap) alive).

(** One tick of [watchLoop]: [others] acts between the check and the second
    look; the boolean says that the watcher goes on.
    @go transport/drophaul/client.go:472-483 Pool.watchLoop *)
Definition watch_tick (now : Z) (stats : nat -> option tcpSample) (others : Pool -> Pool) (p : Pool) : bool * Pool :=
  let '(n, p) := checkSessions now stats p in
  if (n =? 0)%nat then
    let p := others (p_set_watcherStarted p false) in
    let hasAny := negb (bool_decide (p_sessions p = [])) in
    if hasAny then ensureWatcher p else (false, p)
  else (true, p).

(** @go transport/drophaul/client.go:545-553 Pool.Reset *)
Definition Reset (p : Pool) : Pool :=
  let list := p_sessions p in
  let p := p_set_sessions p [] in
  fold_left (fun p i => with_ps p i ps_close) list p.

(** @go transport/drophaul/client.go:555-565 Pool.Close *)
Definition Pool_Close (p : Pool) : Pool :=
  if p_closed p then p else Reset (p_set_stopWatcher (p_set_closed p)).
