(* ===== verification/HaulProps.v ===== *)
(** * drophaul: correctness of the session pool

    The choice of a session, the fallback window, the race of dials, the token
    exchange, the watcher, and a step relation over the goroutines that share a
    pool: shared dials are single-flight and no session outlives [Close]. *)

From S2P Require Import Prelude SmuxFrame SmuxWrite SmuxSession HaulPool.

(** ** Choosing a session *)

Definition open_in (heap : gmap nat poolSession) (i : nat) : bool :=
  match heap !! i with Some ps => negb (ps_closed ps) | None => false end.

Definition usable (heap : gmap nat poolSession) (i : nat) : bool :=
  match heap !! i with Some ps => negb (ps_closed ps) && negb (ps_draining ps) | None => false end.

(** Inflight bytes first, streams second. *)
Definition load (heap : gmap nat poolSession) (i : nat) : Z * Z :=
  match heap !! i with
  | Some ps => (TotalInflight (ps_session ps), NumStreams (ps_session ps))
  | None => (0, 0)
  end.
Definition lex_lt (x y : Z * Z) : bool := (x.1 <? y.1) || ((x.1 =? y.1) && (x.2 <? y.2)).

Definition better (heap : gmap nat poolSession) (best : option nat) (i : nat) : option nat :=
  match best with
  | None => Some i
  | Some j => if lex_lt (load heap i) (load heap j) then Some i else best
  end.

(** The loop is a filter and a fold. *)
Lemma pick_loop_fold heap l : forall best bi bs,
  (match best with Some j => (bi, bs) = load heap j | None => True end) ->
  pick_loop heap l best bi bs =
    (List.filter (open_in heap) l, foldl (better heap) best (List.filter (usable heap) l)).
Proof.
  induction l as [|i l IH]; intros best bi bs Hb; cbn [pick_loop List.filter]; [done|].
  assert (El : forall ps, heap !! i = Some ps -> load heap i = (TotalInflight (ps_session ps), NumStreams (ps_session ps)))
    by (intros ps E; unfold load; by rewrite E).
  unfold open_in at 1, usable at 1. destruct (heap !! i) as [ps|] eqn:E; [|by apply IH].
  destruct (ps_closed ps); cbn [negb andb]; [by apply IH|].
  destruct (ps_draining ps); cbn [negb]; [by rewrite (IH best bi bs Hb)|].
  cbv zeta. cbn [foldl]. specialize (El ps eq_refl). destruct best as [j|]; cbn [better].
  - rewrite El, <- Hb. unfold lex_lt. cbn [fst snd]. destruct (_ || _); rewrite IH; try done; by rewrite El.
  - rewrite IH; [done|]. by rewrite El.
Qed.

Definition lex_le (x y : Z * Z) : Prop := lex_lt y x = false.

Lemma lex_le_refl x : lex_le x x.
Proof. unfold lex_le, lex_lt. rewrite !Z.ltb_irrefl. by rewrite andb_false_r. Qed.

Lemma lex_le_trans x y z : lex_le x y -> lex_le y z -> lex_le x z.
Proof.
  unfold lex_le, lex_lt. rewrite !orb_false_iff, !andb_false_iff, !Z.ltb_ge, !Z.eqb_neq. lia.
Qed.

Lemma lex_lt_le x y : lex_lt x y = true -> lex_le x y.
Proof.
  unfold lex_le, lex_lt. rewrite orb_true_iff, andb_true_iff, orb_false_iff, andb_false_iff, !Z.ltb_ge, !Z.eqb_neq,
    !Z.ltb_lt, Z.eqb_eq. lia.
Qed.

Lemma better_fold heap l : forall best,
  match foldl (better heap) best l with
  | Some j => (best = Some j \/ j ∈ l) /\ (forall k, k ∈ l \/ best = Some k -> lex_le (load heap j) (load heap k))
  | None => best = None /\ l = []
  end.
Proof.
  induction l as [|i l IH]; intros best; cbn [foldl].
  { destruct best as [j|]; [|done]. split; [by left|]. intros k [Hk|[= ->]]; [by apply elem_of_nil in Hk|apply lex_le_refl]. }
  specialize (IH (better heap best i)). destruct (foldl _ _ l) as [j|].
  - destruct IH as [H1 H2].
    assert (Hi : lex_le (load heap j) (load heap i)).
    { destruct best as [b|]; cbn [better] in H2; [|apply H2; by right].
      destruct (lex_lt (load heap i) (load heap b)) eqn:E; [apply H2; by right|].
      apply (lex_le_trans _ (load heap b)); [apply H2; by right|exact E]. }
    split.
    + destruct H1 as [H1|H1]; [|by right; right]. destruct best as [b|]; cbn [better] in H1; [|right; injection H1 as ->; left].
      destruct (lex_lt _ _); injection H1 as ->; [right; left|by left].
    + intros k [Hk|Hk]; [apply elem_of_cons in Hk as [->|Hk]; [done|apply H2; by left]|]. subst best. cbn [better] in H2.
      destruct (lex_lt (load heap i) (load heap k)) eqn:E; [|apply H2; by right].
      apply (lex_le_trans _ (load heap i)); [done|by apply lex_lt_le].
  - destruct IH as [H1 ->]. destruct best as [b|]; cbn [better] in H1; [destruct (lex_lt _ _) in H1|]; done.
Qed.

Lemma filter_elem {A} (f : A -> bool) x l : x ∈ List.filter f l <-> x ∈ l /\ f x = true.
Proof. rewrite !list_elem_of_In. apply filter_In. Qed.

(** a new stream goes to the least loaded usable session.  The session
    [pickBestSession] returns is one of the pool's, open and not draining, and
    no usable session has fewer bytes in flight, or as many and fewer streams;
    it returns none only when there is no usable session; and it drops the
    closed sessions from the pool, keeping the order of the others. *)
Lemma pickBestSession_least p best p' :
  pickBestSession p = (best, p') ->
  p_sessions p' = List.filter (open_in (p_heap p)) (p_sessions p) /\ p_heap p' = p_heap p /\
  match best with
  | Some i => i ∈ p_sessions p' /\ usable (p_heap p) i = true /\
      forall k, k ∈ p_sessions p -> usable (p_heap p) k = true -> lex_le (load (p_heap p) i) (load (p_heap p) k)
  | None => forall k, k ∈ p_sessions p -> usable (p_heap p) k = false
  end.
Proof.
  unfold pickBestSession. rewrite pick_loop_fold by done. intros [= <- <-]. cbn [p_set_sessions p_sessions p_heap].
  split; [done|]. split; [done|].
  pose proof (better_fold (p_heap p) (List.filter (usable (p_heap p)) (p_sessions p)) None) as H.
  destruct (foldl _ _ _) as [i|].
  - destruct H as [[[=]|H1] H2]. apply filter_elem in H1 as [H1 H1']. split_and!; [|done|].
    + apply filter_elem. split; [done|]. revert H1'. unfold usable, open_in. destruct (p_heap p !! i) as [ps|]; [|done].
      by destruct (ps_closed ps).
    + intros k Hk Hu. apply H2. left. by apply filter_elem.
  - destruct H as [_ H]. intros k Hk. destruct (usable (p_heap p) k) eqn:E; [|done].
    assert (Hin : k ∈ List.filter (usable (p_heap p)) (p_sessions p)) by (by apply filter_elem).
    rewrite H in Hin. by apply elem_of_nil in Hin.
Qed.

(** A pool with a draining session 0, a loaded session 1 and a fresh session 2. *)
Definition demo_session (streams : Z) : Session :=
  s_set_streams (newSession DefaultConfig true NewAllocator)
    (list_to_map (map (fun k => (Z.of_nat k, st_set_numWritten (newStream (Z.of_nat k) 100) 7)) (seq 1 (Z.to_nat streams)))).

Definition demo_pool : Pool :=
  let p := NewPool (mkOptions [] 0 0 0) in
  p_set_sessions (p_set_heap p {[ 0%nat := mkPS (demo_session 0) 0 true 0 0 false 0;
                                 1%nat := mkPS (demo_session 3) 0 false 0 0 false 0;
                                 2%nat := mkPS (demo_session 1) 0 false 0 0 false 0 ]}) [0%nat; 1%nat; 2%nat].

Lemma pickBestSession_least_witness :
  exists p', pickBestSession demo_pool = (Some 2%nat, p') /\ lex_le (load (p_heap demo_pool) 2) (load (p_heap demo_pool) 1).
Proof.
  eexists. split; [vm_compute; reflexivity|].
  assert (E : pickBestSession demo_pool = (Some 2%nat, (pickBestSession demo_pool).2)) by (vm_compute; reflexivity).
  apply (pickBestSession_least demo_pool (Some 2%nat) _ E); [|vm_compute; reflexivity].
  change (p_sessions demo_pool) with [0%nat; 1%nat; 2%nat]. right. left.
Defined.

(** ** The race of dials *)

Definition is_result (e : race_event * bool) : bool := match e.1 with RvResult _ => true | _ => false end.

Definition results (evs : list (race_event * bool)) : Z := Z.of_nat (length (List.filter is_result evs)).

(** Every turn costs: a result or a tick is used up, a launch adds one result
    and one tick at most. *)
Definition race_measure (st : race) : Z :=
  (r_launched st - r_failures st) + (if r_timer st then 1 else 0) + 3 * (happyEyeballsWays - r_launched st).

Definition race_ok (st : race) : Prop :=
  0 <= r_failures st <= r_launched st /\ 1 <= r_launched st <= happyEyeballsWays.

Lemma race_turn_ok ev cancelled st :
  race_ok st -> r_failures st < r_launched st ->
  match race_turn ev cancelled st with
  | Some (inl st') => race_ok st' /\ race_measure st' < race_measure st /\ r_launched st <= r_launched st' /\
      r_failures st' = r_failures st + (if is_result (ev, cancelled) then 1 else 0)
  | Some (inr (r, n)) =>
      n = r_launched st - r_failures st - (if is_result (ev, cancelled) then 1 else 0) /\ 0 <= n /\
      match r with inr c => ev = RvResult (Some c, None) | inl e => e = PContext /\ ev = RvCtxDone end
  | None => ev = RvStagger /\ r_timer st = false
  end.
Proof.
  intros [H1 H2] Hlt. unfold race_turn, race_ok, race_measure, happyEyeballsWays, is_result in *.
  destruct ev as [[[c|] [e|]]| |]; cbn [fst]; cbv zeta;
    try (destruct ((r_launched st <? 3) && negb cancelled) eqn:E; zify_bool; cbn [r_launched r_failures r_timer];
         try destruct (r_timer st); cbn [r_launched r_failures r_timer]; try destruct (_ <? 3); lia || (split; [lia|split; done]) || done).
  all: try (split; [lia|split; [lia|done]]).
  all: destruct (r_timer st) eqn:T; [|done]; destruct ((r_launched st <? 3) && negb cancelled) eqn:E; zify_bool;
    cbn [r_launched r_failures r_timer]; try destruct (_ <? 3); lia.
Qed.

(** Only an armed timer ticks. *)
Fixpoint race_possible (evs : list (race_event * bool)) (st : race) : Prop :=
  match evs with
  | [] => True
  | (ev, cancelled) :: rest =>
      r_failures st < r_launched st ->
      match race_turn ev cancelled st with
      | None => False
      | Some (inl st') => race_possible rest st'
      | Some (inr _) => True
      end
  end.

Lemma race_loop_returns evs : forall st,
  race_ok st -> race_possible evs st -> race_measure st <= Z.of_nat (length evs) ->
  exists out, race_loop evs st = Some out.
Proof.
  induction evs as [|[ev cancelled] evs IH]; intros st Hok Hp Hm; cbn [race_loop race_possible] in *;
    (destruct (r_failures st <? r_launched st) eqn:E; cbn [negb]; zify_bool; [|by eexists]).
  - exfalso. destruct Hok as [H1 H2]. unfold race_measure, happyEyeballsWays in *.
    cbn [length Z.of_nat] in Hm. destruct (r_timer st); lia.
  - specialize (Hp E). pose proof (race_turn_ok ev cancelled st Hok E) as Ht. cbn [length] in Hm.
    destruct (race_turn ev cancelled st) as [[st'|out]|]; [|by eexists|done].
    destruct Ht as (Hok' & Hm' & _). apply IH; [done|done|lia].
Qed.

Lemma race_loop_spec evs : forall st,
  race_ok st ->
  forall r n, race_loop evs st = Some (r, n) ->
    exists used rest launched, evs = used ++ rest /\ r_launched st <= launched <= happyEyeballsWays /\
      r_failures st + results used + n = launched /\ 0 <= n /\
      match r with
      | inr c => exists l cancelled, used = l ++ [(RvResult (Some c, None), cancelled)]
      | inl e => e = PContext /\ (exists l cancelled, used = l ++ [(RvCtxDone, cancelled)]) \/
                 r_failures st + results used = launched
      end.
Proof.
  induction evs as [|[ev cancelled] evs IH]; intros st Hok r n; cbn [race_loop];
    (destruct (r_failures st <? r_launched st) eqn:E; cbn [negb]; zify_bool;
     [try done|intros [= <- <-]; destruct Hok as [H1 H2]; eexists [], _, (r_launched st); unfold results; cbn;
        split_and!; try done; try lia; right; lia]).
  pose proof (race_turn_ok ev cancelled st Hok E) as Ht.
  assert (Hres : forall used, results ((ev, cancelled) :: used) = (if is_result (ev, cancelled) then 1 else 0) + results used).
  { intros used. unfold results. cbn [List.filter]. destruct (is_result _); cbn [length]; lia. }
  destruct (race_turn ev cancelled st) as [[st'|[r0 n0]]|]; [| |done].
  - destruct Ht as (Hok' & Hm & Hl & Hf). intros H.
    destruct (IH st' Hok' r n H) as (used & rest & launched & -> & Hla & Hsum & Hn & Hr).
    exists ((ev, cancelled) :: used), rest, launched. specialize (Hres used).
    split; [done|]. split; [lia|]. split; [lia|]. split; [done|]. destruct r as [e|c].
    + destruct Hr as [[-> (l & c & ->)]|Hr]; [left; split; [done|]; by exists ((ev, cancelled) :: l), c|right; lia].
    + destruct Hr as (l & c' & ->). by exists ((ev, cancelled) :: l), c'.
  - destruct Ht as (-> & Hn & Hr). intros [= <- <-].
    exists [(ev, cancelled)], evs, (r_launched st). destruct Hok as [H1 H2]. specialize (Hres []).
    change (results []) with 0 in Hres.
    split; [done|]. split; [lia|]. split; [lia|]. split; [done|]. destruct r0 as [e|c].
    + destruct Hr as [-> ->]. left. split; [done|]. by exists [], cancelled.
    + rewrite Hr. by exists [], cancelled.
Qed.

(** the dial race loses no connection.  However the results of the dials,
    the stagger ticks and the cancellation interleave, the race launches at
    most [happyEyeballsWays] dials, and when it returns every launched dial's
    result has been received by the loop or is drained in the background
    exactly once: the connection returned is that of the last event, and a
    failure is reported only when the context is done or every launched dial
    has failed. *)
Lemma dialHappyEyeballs_accounting evs r n :
  dialHappyEyeballs evs = Some (r, n) ->
  exists used rest launched, evs = used ++ rest /\ 1 <= launched <= happyEyeballsWays /\
    results used + n = launched /\ 0 <= n /\
    match r with
    | inr c => exists l cancelled, used = l ++ [(RvResult (Some c, None), cancelled)]
    | inl e => e = PContext /\ (exists l cancelled, used = l ++ [(RvCtxDone, cancelled)]) \/ results used = launched
    end.
Proof.
  intros H. assert (Hok : race_ok race_init) by (unfold race_ok, happyEyeballsWays; cbn; lia).
  destruct (race_loop_spec evs race_init Hok r n H) as (used & rest & launched & H1 & H2 & H3 & H4 & H5).
  exists used, rest, launched. cbn in H2, H3, H5. split_and!; try done; lia.
Qed.

Lemma dialHappyEyeballs_accounting_witness :
  exists used rest launched,
    [(RvStagger, false); (RvResult (None, Some (PNet 1)), false); (RvResult (Some 7%nat, None), false)] = used ++ rest /\
    1 <= launched <= happyEyeballsWays /\ results used + 1 = launched /\ 0 <= 1 /\
    exists l cancelled, used = l ++ [(RvResult (Some 7%nat, None), cancelled)].
Proof.
  exact (dialHappyEyeballs_accounting
    [(RvStagger, false); (RvResult (None, Some (PNet 1)), false); (RvResult (Some 7%nat, None), false)]
    (inr 7%nat) 1 eq_refl).
Defined.

(** the dial race ends.  Whatever the dials do, eight events (results,
    ticks of the armed stagger timer, cancellation) make it return. *)
Lemma dialHappyEyeballs_terminates evs :
  race_possible evs race_init -> (8 <= length evs)%nat -> exists out, dialHappyEyeballs evs = Some out.
Proof.
  intros Hp H. apply race_loop_returns; [unfold race_ok, happyEyeballsWays; cbn; lia|done|].
  change (race_measure race_init) with 8. lia.
Qed.

Lemma dialHappyEyeballs_terminates_witness :
  exists out, dialHappyEyeballs (replicate 8 (RvResult (None, Some (PNet 1)), false)) = Some out.
Proof.
  apply (dialHappyEyeballs_terminates (replicate 8 (RvResult (None, Some (PNet 1)), false)));
    [vm_compute; intros; exact I|vm_compute; lia].
Defined.

(** ** Authentication and fallback *)

Definition is_close (a : conn_act) : bool := match a with CloseRaw | CloseTLS => true | _ => false end.

(** the token exchange leaks no connection.  On success nothing is closed
    and the peer acknowledged with [SGChan]; after any failure past the TCP dial
    exactly one close is the last thing done; certificate, acknowledgement and
    read failures mean fallback, write errors are passed on; and what is
    written carries the token with its length in front. *)
Lemma dialAndAuthenticate_outcome raw tls write_err ack token out acts :
  dialAndAuthenticate raw tls write_err ack token = (out, acts) ->
  match raw with
  | inl e => out = inl e /\ acts = []
  | inr c =>
      match out with
      | inr (r, t) => r = c /\ tls = Some t /\ write_err = None /\ ack = Some SGChan /\ List.filter is_close acts = []
      | inl e => (exists l a, acts = l ++ [a] /\ is_close a = true /\ List.filter is_close l = []) /\
                 (e = PFallback \/ write_err = Some e)
      end
  end /\
  forall b, WriteAuth b ∈ acts -> zlen token < 65536 ->
    be_get (take 2 b) = zlen token /\ drop 2 b = SGChan :: token.
Proof.
  intros H. split.
  - destruct raw as [e|c]; cbn in H; [by injection H as <- <-|]. destruct tls as [t|]; [|injection H as <- <-; cbn].
    + destruct write_err as [e|]; [injection H as <- <-|].
      { split; [|by right]. by exists [SetDeadline; WriteAuth (auth_frame token)], CloseTLS. }
      destruct ack as [b|]; [|injection H as <- <-].
      * destruct (b =? SGChan) eqn:E; zify_bool; cbn in H; injection H as <- <-; [by subst|].
        split; [|by left]. by exists [SetDeadline; WriteAuth (auth_frame token); ClearDeadline], CloseTLS.
      * split; [|by left]. by exists [SetDeadline; WriteAuth (auth_frame token)], CloseTLS.
    + split; [|by left]. by exists [], CloseRaw.
  - intros b Hb Hl. assert (b = auth_frame token) as ->.
    { destruct raw; [injection H as _ <-; by apply elem_of_nil in Hb|]. cbn in H.
      destruct tls; [|injection H as _ <-; set_solver]. destruct write_err; [injection H as _ <-; set_solver|].
      destruct ack as [a|]; [|injection H as _ <-; set_solver].
      destruct (negb (a =? SGChan)); injection H as _ <-; set_solver. }
    unfold auth_frame. pose proof (zlen_nonneg token). rewrite u16_small by lia.
    rewrite take_app_length' by (by rewrite length_be_put). rewrite drop_app_length' by (by rewrite length_be_put).
    split; [|done]. apply be_get_put_small. simpl. lia.
Qed.

Lemma dialAndAuthenticate_outcome_witness :
  dialAndAuthenticate (inr 1%nat) (Some 2%nat) None (Some 72) [65; 66] =
    (inl PFallback, [SetDeadline; WriteAuth [0; 2; 1; 65; 66]; ClearDeadline; CloseTLS]) /\
  be_get (take 2 [0; 2; 1; 65; 66]) = 2.
Proof.
  split; [reflexivity|].
  refine (proj1 (proj2 (dialAndAuthenticate_outcome (inr 1%nat) (Some 2%nat) None (Some 72) [65; 66] _ _ eq_refl)
    [0; 2; 1; 65; 66] _ eq_refl)).
  right. left.
Defined.

(** falling back to Reality.  Only a foreground dial that learns that the
    node has no drophaul ingress opens the fallback window, never a background
    one and never another error; from then on, until the window of
    [FallbackTTL] has passed, every [DialStream] is refused at once without
    touching the pool, and afterwards none is refused for it. *)
Lemma fallback_window now background auth a p r p' closed :
  0 < now + o_FallbackTTL (p_opts p) < 9223372036854775808 ->
  dialNewSessionWithLockAdjusted now background auth a p = (r, p', closed) ->
  (background = true \/ auth <> inl PFallback -> p_fallbackUntil p' = p_fallbackUntil p) /\
  (background = false -> auth = inl PFallback ->
     r = inl PFallback /\
     forall e, (de_now e < now + o_FallbackTTL (p_opts p) ->
                  DialStream e p' = Some (inl (if p_closed p' then PClosed else PFallback), p')) /\
               (now + o_FallbackTTL (p_opts p) <= de_now e -> ShouldFallback (de_now e) p' = false)).
Proof.
  intros Hnow. unfold dialNewSessionWithLockAdjusted. cbv zeta. destruct auth as [e|rt].
  - destruct (decide (e = PFallback)) as [->|Hne].
    + destruct background; intros [= <- <- <-]; (split; [intros [[=]|Hx]; done|]); [done|].
      intros _ _. split; [done|]. intros e. unfold DialStream, ShouldFallback, markFallback. cbn.
      assert (Ei : i64 (now + o_FallbackTTL (p_opts p)) = now + o_FallbackTTL (p_opts p)).
      { unfold i64, sgn. change (2 ^ (64 - 1)) with 9223372036854775808. rewrite Z.mod_small by (change (2 ^ 64) with 18446744073709551616; lia).
        destruct (_ <? _) eqn:E; zify_bool; lia. }
      rewrite Ei. split; intros Ht.
      * destruct (p_closed p); [done|].
        replace (0 <? now + o_FallbackTTL (p_opts p)) with true by (symmetry; apply Z.ltb_lt; lia).
        by replace (de_now e <? now + o_FallbackTTL (p_opts p)) with true by (symmetry; apply Z.ltb_lt; lia).
      * replace (de_now e <? now + o_FallbackTTL (p_opts p)) with false by (symmetry; apply Z.ltb_ge; lia).
        apply andb_false_r.
    + intros [= <- <- <-]. split; [done|]. intros _ [=]. done.
  - intros H. split; [|done]. intros _. destruct (Client _ a) as [ec|sess]; [by injection H as _ <- _|].
    cbn in H. destruct (p_closed p); by injection H as _ <- _.
Qed.

Lemma fallback_window_witness :
  let p := NewPool (mkOptions [] 0 0 0) in
  let p' := (dialNewSessionWithLockAdjusted 1000 false (inl PFallback) NewAllocator p).1.2 in
  p_fallbackUntil p' = 600000001000 /\
  forall e, (de_now e < 1000 + 600000000000 -> DialStream e p' = Some (inl PFallback, p')) /\
            (1000 + 600000000000 <= de_now e -> ShouldFallback (de_now e) p' = false).
Proof.
  cbv zeta. split; [reflexivity|].
  refine (proj2 (proj2 (fallback_window 1000 false (inl PFallback) NewAllocator (NewPool (mkOptions [] 0 0 0))
    (inl PFallback) _ false _ eq_refl) eq_refl eq_refl)).
  vm_compute. split; reflexivity.
Defined.

(** ** The watcher *)

Lemma check_loss_session st ps b ps' : check_loss st ps = (b, ps') -> ps_session ps' = ps_session ps.
Proof.
  unfold check_loss. cbv zeta. intros H.
  repeat match type of H with context [if ?c then _ else _] => destruct c end; by injection H as <- <-.
Qed.

(** One session: what the watcher closes had no streams, and what it keeps is
    the same smux session. *)
Lemma check_one_spec opts now stats ps keep ps' :
  check_one opts now stats ps = (keep, ps') ->
  if keep then ps_session ps' = ps_session ps /\ ps_closed ps = false
  else ps_closed ps' = true /\ (ps_closed ps = false -> NumStreams (ps_session ps) = 0).
Proof.
  intros H. unfold check_one in H. cbv zeta in H. destruct (ps_closed ps) eqn:Ec; [by injection H as <- <-|].
  assert (Hc : forall q, ps_session q = ps_session ps -> ps_closed (ps_close q) = true).
  { intros q E. unfold ps_closed, ps_close, IsClosed, session_Close in *. cbn. rewrite E.
    unfold s_die in *. by rewrite Ec. }
  destruct (NumStreams (ps_session ps) =? 0) eqn:En; zify_bool; cbn [andb] in H.
  - destruct (_ || _) in H; [injection H as <- <-; split; [by apply Hc|done]|].
    destruct stats as [st|]; [|by injection H as <- <-]. destruct (t_hasCounters st); [|by injection H as <- <-].
    cbn [negb] in H. destruct ((0 <? t_unacked st) && (2 <=? t_retransmits st)).
    + cbn [andb] in H. injection H as <- <-. split; [by apply Hc|done].
    + cbn [andb] in H. destruct (check_loss st ps) as [[] q] eqn:L; apply check_loss_session in L; injection H as <- <-; [|done].
      split; [by apply Hc|done].
  - destruct stats as [st|]; [|by injection H as <- <-]. destruct (t_hasCounters st); [|by injection H as <- <-].
    cbn [negb] in H. rewrite andb_false_r in H.
    destruct (check_loss st _) as [b q] eqn:L. apply check_loss_session in L. rewrite andb_false_r in H. injection H as <- <-.
    split; [|done]. rewrite L. by destruct (_ && _).
Qed.

Lemma check_loop_spec opts now stats l : forall heap alive heap',
  NoDup l -> check_loop opts now stats heap l = (alive, heap') ->
  alive `sublist_of` l /\ (forall i, i ∉ l -> heap' !! i = heap !! i) /\
  forall i ps, i ∈ l -> heap !! i = Some ps -> exists ps', heap' !! i = Some ps' /\
    (if decide (i ∈ alive) then ps_session ps' = ps_session ps /\ ps_closed ps = false
     else ps_closed ps' = true /\ (ps_closed ps = false -> NumStreams (ps_session ps) = 0)).
Proof.
  induction l as [|i l IH]; intros heap alive heap' Hnd H; cbn [check_loop] in H.
  { injection H as <- <-. split_and!; [done|done|]. intros i ps Hi. by apply elem_of_nil in Hi. }
  apply NoDup_cons in Hnd as [Hni Hnd]. destruct (heap !! i) as [ps|] eqn:E.
  - destruct (check_one opts now (stats i) ps) as [keep ps1] eqn:C. apply check_one_spec in C.
    destruct (check_loop opts now stats (<[i := ps1]> heap) l) as [alive1 heap1] eqn:L. injection H as <- <-.
    destruct (IH _ _ _ Hnd L) as (I1 & I2 & I3).
    assert (Hia : i ∉ alive1) by (intros Hx; apply Hni; apply sublist_submseteq in I1; by eapply elem_of_submseteq).
    split_and!.
    + destruct keep; [by apply sublist_skip|by apply sublist_cons].
    + intros j Hj. apply not_elem_of_cons in Hj as [Hj1 Hj2]. rewrite I2 by done. by rewrite lookup_insert_ne.
    + intros j q Hj Hq. destruct (decide (j = i)) as [->|Hne].
      * exists ps1. rewrite I2 by done. rewrite lookup_insert_eq. split; [done|].
        assert (q = ps) as -> by congruence. destruct keep.
        -- rewrite decide_True by left. exact C.
        -- rewrite decide_False by done. exact C.
      * apply elem_of_cons in Hj as [->|Hj]; [done|]. destruct (I3 j q Hj) as (q' & Hq' & Hd); [by rewrite lookup_insert_ne|].
        exists q'. split; [done|]. destruct keep; [|done].
        destruct (decide (j ∈ alive1)) as [Hin|Hin]; [rewrite decide_True by (by right); done|].
        rewrite decide_False; [done|]. intros Hx. apply elem_of_cons in Hx as [->|Hx]; done.
  - destruct (IH _ _ _ Hnd H) as (I1 & I2 & I3). split_and!.
    + by apply sublist_cons.
    + intros j Hj. apply not_elem_of_cons in Hj as [_ Hj]. by apply I2.
    + intros j q Hj Hq. apply elem_of_cons in Hj as [->|Hj]; [congruence|]. by apply I3.
Qed.

(** the watcher cuts no stream.  A tick of [checkSessions] keeps a
    sub-sequence of the pool's sessions, every one of them open and with its
    smux session untouched; every session it drops is closed afterwards, and it
    was either closed already or had no open stream. *)
Lemma checkSessions_safe now stats p n p' :
  NoDup (p_sessions p) -> checkSessions now stats p = (n, p') ->
  n = length (p_sessions p') /\ p_sessions p' `sublist_of` p_sessions p /\
  forall i ps, i ∈ p_sessions p -> p_heap p !! i = Some ps ->
    exists ps', p_heap p' !! i = Some ps' /\
      (i ∈ p_sessions p' -> ps_session ps' = ps_session ps /\ ps_closed ps = false) /\
      (i ∉ p_sessions p' -> ps_closed ps' = true /\ (ps_closed ps = false -> NumStreams (ps_session ps) = 0)).
Proof.
  intros Hnd. unfold checkSessions. destruct (check_loop _ _ _ _ _) as [alive heap] eqn:L. intros [= <- <-]. cbn.
  destruct (check_loop_spec _ _ _ _ _ _ _ Hnd L) as (I1 & _ & I3). split_and!; [done|done|].
  intros i ps Hi Hps. destruct (I3 i ps Hi Hps) as (ps' & Hps' & Hd). exists ps'. split; [done|].
  split; intros Hin; [by rewrite decide_True in Hd|by rewrite decide_False in Hd].
Qed.

Lemma checkSessions_safe_witness :
  exists n p', checkSessions 5 (fun _ => None) demo_pool = (n, p') /\ p_sessions p' = [1%nat; 2%nat] /\
    n = length (p_sessions p').
Proof.
  do 2 eexists. split; [vm_compute; reflexivity|]. split; [vm_compute; reflexivity|].
  refine (proj1 (checkSessions_safe 5 (fun _ => None) demo_pool _ _ _ _)).
  - change (p_sessions demo_pool) with [0%nat; 1%nat; 2%nat]. repeat constructor; set_solver.
  - vm_compute. reflexivity.
Defined.

(** ** Loss detection *)

(** What one sample of the kernel counters means. *)
Inductive tick : Type := TFirst | TBack | TFew | TClean | TLossy.

#[export] Instance tick_eq_dec : EqDecision tick.
Proof. solve_decision. Defined.

Definition tick_kind (prev : option (Z * Z)) (st : tcpSample) : tick :=
  match prev with
  | None => TFirst
  | Some (segs, retrans) =>
      if negb ((segs <=? t_segsOut st) && (retrans <=? t_totalRetrans st)) then TBack
      else if t_segsOut st - segs <? minLossSegsOut then TFew
      else if loss_high (t_totalRetrans st - retrans) (t_segsOut st - segs) then TLossy else TClean
  end.

Definition prev_of (ps : poolSession) : option (Z * Z) :=
  if ps_hasPrevCounters ps then Some (ps_prevSegsOut ps, ps_prevTotalRetrans ps) else None.

Definition next_prev (prev : option (Z * Z)) (st : tcpSample) : option (Z * Z) :=
  match tick_kind prev st with TBack => prev | _ => Some (t_segsOut st, t_totalRetrans st) end.

Fixpoint ticks (prev : option (Z * Z)) (samples : list tcpSample) : list tick :=
  match samples with
  | [] => []
  | st :: rest => tick_kind prev st :: ticks (next_prev prev st) rest
  end.

(** Lossy ticks since the last clean one. *)
Definition streak (start : Z) (l : list tick) : Z :=
  foldl (fun n t => match t with TLossy => n + 1 | TClean => 0 | _ => n end) start l.

Definition u32_sample (st : tcpSample) : Prop :=
  0 <= t_segsOut st < 4294967296 /\ 0 <= t_totalRetrans st < 4294967296.

Definition u32_prev (ps : poolSession) : Prop :=
  0 <= ps_prevSegsOut ps < 4294967296 /\ 0 <= ps_prevTotalRetrans ps < 4294967296.

Lemma check_loss_tick st ps :
  u32_sample st -> u32_prev ps ->
  let k := tick_kind (prev_of ps) st in
  let '(b, ps') := check_loss st ps in
  prev_of ps' = next_prev (prev_of ps) st /\ u32_prev ps' /\ ps_lossStreak ps' = streak (ps_lossStreak ps) [k] /\
  b = (bool_decide (k = TLossy) && (lossConsecutiveTicks <=? ps_lossStreak ps')) /\
  ps_draining ps' = (ps_draining ps || b).
Proof.
  intros [S1 S2] [P1 P2]. unfold check_loss, next_prev, tick_kind, prev_of, u32_prev.
  destruct (ps_hasPrevCounters ps) eqn:Eh; cbn [negb]; [|cbn; by rewrite orb_false_r].
  destruct ((ps_prevSegsOut ps <=? t_segsOut st) && (ps_prevTotalRetrans ps <=? t_totalRetrans st)) eqn:E; cbn [negb].
  2:{ rewrite Eh. cbn. by rewrite orb_false_r. }
  zify_bool. cbv zeta. rewrite !u32_small by lia. rewrite (Z.ltb_antisym minLossSegsOut).
  destruct (minLossSegsOut <=? _) eqn:Em; cbn [negb andb]; [|cbn; by rewrite orb_false_r].
  destruct (loss_high _ _); cbn; [|by rewrite orb_false_r].
  destruct (lossConsecutiveTicks <=? _) eqn:El; cbn; rewrite ?El, ?orb_true_r, ?orb_false_r; done.
Qed.

Fixpoint loss_run (samples : list tcpSample) (ps : poolSession) : poolSession :=
  match samples with [] => ps | st :: rest => loss_run rest (check_loss st ps).2 end.

Lemma streak_app n l k : streak n (l ++ k) = streak (streak n l) k.
Proof. apply foldl_app. Qed.

(** what makes a session lossy.  Over any samples of the kernel counters
    the loss streak is the number of lossy samples since the last clean one
    (samples with fewer than [minLossSegsOut] segments, the first one and
    counters that ran backwards change nothing), and the session has been
    marked draining for losses exactly when some lossy sample brought the
    streak to [lossConsecutiveTicks]. *)
Lemma loss_run_streak samples ps :
  Forall u32_sample samples -> u32_prev ps ->
  let l := ticks (prev_of ps) samples in
  ps_lossStreak (loss_run samples ps) = streak (ps_lossStreak ps) l /\
  (ps_draining (loss_run samples ps) = true <->
     ps_draining ps = true \/
     exists l1 l2, l = l1 ++ TLossy :: l2 /\ lossConsecutiveTicks <= streak (ps_lossStreak ps) (l1 ++ [TLossy])).
Proof.
  intros Hs. revert ps. induction Hs as [|st samples Hst _ IH]; intros ps Hp; cbv zeta; cbn [ticks loss_run].
  { split; [done|]. split; [by left|]. intros [H|(l1 & l2 & H & _)]; [done|]. by destruct l1. }
  pose proof (check_loss_tick st ps Hst Hp) as Hc. cbv zeta in Hc. destruct (check_loss st ps) as [b ps'].
  destruct Hc as (H1 & H2 & H3 & H4 & H5). cbn [snd]. destruct (IH ps' H2) as [I1 I2]. rewrite <- H1.
  set (k := tick_kind (prev_of ps) st) in *. split; [by rewrite I1, H3|]. rewrite I2, H5, orb_true_iff.
  assert (Hb : b = true <-> k = TLossy /\ lossConsecutiveTicks <= streak (ps_lossStreak ps) [k]).
  { rewrite H4, andb_true_iff, bool_decide_eq_true, Z.leb_le, H3. done. }
  rewrite Hb. split.
  - intros [[Hd|[Hk Hle]]|(l1 & l2 & E & Hle)]; [by left| |].
    + right. exists [], (ticks (prev_of ps') samples). rewrite <- Hk. by split.
    + right. exists (k :: l1), l2. rewrite E. split; [done|]. cbn [app].
      change (k :: l1 ++ [TLossy]) with ([k] ++ (l1 ++ [TLossy])). by rewrite streak_app, <- H3.
  - intros [Hd|(l1 & l2 & E & Hle)]; [by left; left|]. destruct l1 as [|k1 l1]; injection E as E1 E2.
    + left. right. rewrite E1. done.
    + right. exists l1, l2. split; [done|]. rewrite H3. rewrite E1, <- streak_app. exact Hle.
Qed.

Definition demo_sample (segs retrans : Z) : tcpSample := mkSample segs retrans 0 0 true.

Lemma loss_run_streak_witness :
  let samples := [demo_sample 100 0; demo_sample 200 5; demo_sample 210 9; demo_sample 300 20; demo_sample 400 30] in
  let ps := mkPS (demo_session 1) 0 false 0 0 false 0 in
  ticks (prev_of ps) samples = [TFirst; TLossy; TFew; TLossy; TLossy] /\
  ps_lossStreak (loss_run samples ps) = 3.
Proof.
  cbv zeta. split; [vm_compute; reflexivity|].
  refine (proj1 (loss_run_streak
    [demo_sample 100 0; demo_sample 200 5; demo_sample 210 9; demo_sample 300 20; demo_sample 400 30]
    (mkPS (demo_session 1) 0 false 0 0 false 0) _ _)).
  - repeat constructor; cbn; lia.
  - split; cbn; lia.
Defined.

(** ** The goroutines around a pool *)

(** Phases of the goroutine of a shared dial. *)
Inductive phase : Type := Created | Dialing | Dialed (r : perr + nat).

(** The pool, its shared dials with their phases, the number of background
    dials, and the sessions a [Reset] has taken but not closed yet. *)
Record world := mkWorld {
  w_pool : Pool; w_fg : list (nat * phase); w_bg : nat; w_closing : list nat; w_resetDone : bool
}.

Inductive pool_step : world -> world -> Prop :=
| StEnsure p fg bg cl rd : pool_step (mkWorld p fg bg cl rd) (mkWorld (ensureWatcher p).2 fg bg cl rd)
| StPick p fg bg cl rd : pool_step (mkWorld p fg bg cl rd) (mkWorld (pickBestSession p).2 fg bg cl rd)
| StWarm p p' fg bg cl rd :
    maybeWarmSecondSession p = (true, p') -> pool_step (mkWorld p fg bg cl rd) (mkWorld p' fg (S bg) cl rd)
| StWarmEnd now auth a r p p' b fg bg cl rd :
    dialNewSessionWithLockAdjusted now true auth a p = (r, p', b) ->
    pool_step (mkWorld p fg (S bg) cl rd) (mkWorld p' fg bg cl rd)
| StCall now others call p p' fg bg cl rd :
    others = id -> dialOrReuse_start now others p = (inr (call, true), p') ->
    pool_step (mkWorld p fg bg cl rd) (mkWorld p' (fg ++ [(call, Created)]) bg cl rd)
| StCallBegin call p f1 f2 bg cl rd :
    pool_step (mkWorld p (f1 ++ (call, Created) :: f2) bg cl rd)
              (mkWorld (dialNewSession_begin p) (f1 ++ (call, Dialing) :: f2) bg cl rd)
| StCallDial now auth a r call p p' b f1 f2 bg cl rd :
    dialNewSessionWithLockAdjusted now false auth a p = (r, p', b) ->
    pool_step (mkWorld p (f1 ++ (call, Dialing) :: f2) bg cl rd)
              (mkWorld p' (f1 ++ (call, Dialed r) :: f2) bg cl rd)
| StCallFinish call r p f1 f2 bg cl rd :
    pool_step (mkWorld p (f1 ++ (call, Dialed r) :: f2) bg cl rd) (mkWorld (call_finish call r p) (f1 ++ f2) bg cl rd)
| StSession i ps s p fg bg cl rd :
    p_heap p !! i = Some ps -> (ps_closed ps = true -> IsClosed s = true) ->
    pool_step (mkWorld p fg bg cl rd) (mkWorld (with_ps p i (fun ps => ps_set_session ps s)) fg bg cl rd)
| StUsed i t p fg bg cl rd :
    pool_step (mkWorld p fg bg cl rd) (mkWorld (with_ps p i (fun ps => ps_set_lastUsed ps t)) fg bg cl rd)
| StDrain i p fg bg cl rd :
    pool_step (mkWorld p fg bg cl rd) (mkWorld (with_ps p i ps_drain) fg bg cl rd)
| StCheck now stats p fg bg cl rd :
    pool_step (mkWorld p fg bg cl rd) (mkWorld (checkSessions now stats p).2 fg bg cl rd)
| StResetTake p fg bg cl rd :
    pool_step (mkWorld p fg bg cl rd) (mkWorld (p_set_sessions p []) fg bg (cl ++ p_sessions p) (rd || p_closed p))
| StResetClose i p fg bg cl rd :
    pool_step (mkWorld p fg bg (i :: cl) rd) (mkWorld (with_ps p i ps_close) fg bg cl rd)
| StCloseFlag p fg bg cl rd :
    pool_step (mkWorld p fg bg cl rd) (mkWorld (p_set_stopWatcher (p_set_closed p)) fg bg cl rd).

Inductive pool_reach (opts : Options) : world -> Prop :=
| PReachNew : pool_reach opts (mkWorld (NewPool opts) [] 0 [] false)
| PReachStep w w' : pool_reach opts w -> pool_step w w' -> pool_reach opts w'.

Definition dialing_now (f : nat * phase) : bool := match f.2 with Dialing => true | _ => false end.
Definition count_dialing (l : list (nat * phase)) : nat := length (List.filter dialing_now l).
Arguments count_dialing : simpl never.

Record pool_inv (w : world) : Prop := {
  pi_single : (w_fg w = [] /\ p_inflightDial (w_pool w) = None) \/
              exists call ph, w_fg w = [(call, ph)] /\ p_inflightDial (w_pool w) = Some call;
  pi_dialing : p_dialing (w_pool w) = Z.of_nat (w_bg w + count_dialing (w_fg w));
  pi_bg : (w_bg w <= 1)%nat;
  pi_heap : forall i, i ∈ p_sessions (w_pool w) -> is_Some (p_heap (w_pool w) !! i);
  pi_fresh : forall i, is_Some (p_heap (w_pool w) !! i) -> (i < p_next (w_pool w))%nat;
  pi_nodup : NoDup (p_sessions (w_pool w));
  pi_open : forall i ps, p_heap (w_pool w) !! i = Some ps -> ps_closed ps = false ->
              i ∈ p_sessions (w_pool w) \/ i ∈ w_closing w;
  pi_done : w_resetDone w = true -> p_closed (w_pool w) = true /\ p_sessions (w_pool w) = []
}.

(** The part of a pool the dial accounting reads. *)
Definition same_dials (p p' : Pool) : Prop :=
  p_inflightDial p' = p_inflightDial p /\ p_dialing p' = p_dialing p.

(** A step that changes sessions, not dials. *)
Lemma pool_inv_sessions p p' fg bg cl cl' rd rd' :
  pool_inv (mkWorld p fg bg cl rd) -> same_dials p p' -> p_next p' = p_next p ->
  p_sessions p' `sublist_of` p_sessions p ->
  (forall i, is_Some (p_heap p' !! i) <-> is_Some (p_heap p !! i)) ->
  (forall i ps ps', p_heap p !! i = Some ps -> p_heap p' !! i = Some ps' ->
     (ps_closed ps' = false -> ps_closed ps = false /\
        (i ∈ p_sessions p -> i ∈ p_sessions p' \/ i ∈ cl') /\ (i ∈ cl -> i ∈ cl'))) ->
  (rd' = true -> (rd = true /\ p_closed p' = p_closed p) \/ p_closed p' = true /\ p_sessions p' = []) ->
  pool_inv (mkWorld p' fg bg cl' rd').
Proof.
  intros [H1 H2 H3 H4 H4' H5 H6 H7] [D1 D2] Hn Hs Hdom Hh Hrd. cbn in *. constructor; cbn; rewrite ?D1, ?D2, ?Hn; try done.
  - intros i Hi. apply Hdom, H4. apply sublist_submseteq in Hs. by eapply elem_of_submseteq.
  - intros i Hi. by apply H4', Hdom.
  - by eapply sublist_NoDup; [|exact Hs].
  - intros i ps' Hi Hc. destruct (proj1 (Hdom i) (mk_is_Some _ _ Hi)) as [ps Hps].
    destruct (Hh i ps ps' Hps Hi Hc) as (O1 & O2 & O3).
    destruct (H6 i ps Hps O1) as [Hin|Hin]; [by apply O2|right; by apply O3].
  - intros Hr. destruct (Hrd Hr) as [[Hr' Hpc]|[Hpc Hps]]; [|done]. destruct (H7 Hr') as [C1 C2]. split; [by rewrite Hpc|].
    rewrite C2 in Hs. by apply sublist_nil_r in Hs.
Qed.

Lemma filter_sublist {A} (f : A -> bool) l : List.filter f l `sublist_of` l.
Proof. induction l as [|x l IH]; [done|]. simpl. destruct (f x); [by apply sublist_skip|by apply sublist_cons]. Qed.

(** Updating one session in place, never reopening it. *)
Lemma pool_inv_with p i f fg bg cl rd :
  pool_inv (mkWorld p fg bg cl rd) ->
  (forall ps, p_heap p !! i = Some ps -> ps_closed ps = true -> ps_closed (f ps) = true) ->
  pool_inv (mkWorld (with_ps p i f) fg bg cl rd).
Proof.
  intros Hi Hf. apply (pool_inv_sessions p (with_ps p i f) fg bg cl cl rd rd); try done; cbn.
  - intros j. destruct (decide (i = j)) as [<-|Hne]; [|by rewrite lookup_alter_ne].
    by rewrite lookup_alter_eq, fmap_is_Some.
  - intros j ps ps' Hps Hj Hc. split; [|auto]. destruct (decide (i = j)) as [<-|Hne].
    + rewrite lookup_alter_eq, Hps in Hj. injection Hj as <-. destruct (ps_closed ps) eqn:Ec; [|done].
      by rewrite (Hf ps Hps Ec) in Hc.
    + rewrite lookup_alter_ne in Hj by done. congruence.
  - intros Hr. by left.
Qed.

Lemma ps_close_closed ps : ps_closed (ps_close ps) = true.
Proof.
  unfold ps_closed, ps_close, IsClosed, session_Close. cbn. destruct (s_die (ps_session ps)) eqn:E; [done|reflexivity].
Qed.

Lemma pick_inv p fg bg cl rd :
  pool_inv (mkWorld p fg bg cl rd) -> pool_inv (mkWorld (pickBestSession p).2 fg bg cl rd).
Proof.
  intros Hi. unfold pickBestSession. rewrite pick_loop_fold by done.
  apply (pool_inv_sessions p _ fg bg cl cl rd rd); try done; cbn.
  - apply filter_sublist.
  - intros i ps ps' Hps Hps' Hc. assert (ps' = ps) as -> by congruence. split; [done|]. split; [|done]. intros Hin. left.
    apply filter_elem. split; [done|]. unfold open_in. by rewrite Hps, Hc.
  - intros Hr. by left.
Qed.

Lemma check_inv now stats p fg bg cl rd :
  pool_inv (mkWorld p fg bg cl rd) -> pool_inv (mkWorld (checkSessions now stats p).2 fg bg cl rd).
Proof.
  intros Hi. unfold checkSessions. destruct (check_loop _ _ _ _ _) as [alive heap] eqn:L. cbn [snd].
  destruct (check_loop_spec _ _ _ _ _ _ _ (pi_nodup _ Hi) L) as (I1 & I2 & I3).
  apply (pool_inv_sessions p _ fg bg cl cl rd rd); try done; cbn.
  - intros i. destruct (decide (i ∈ p_sessions p)) as [Hin|Hni]; [|by rewrite I2].
    destruct (pi_heap _ Hi i Hin) as [ps Hps]. cbn in Hps. destruct (I3 i ps Hin Hps) as (q & Hq & _).
    rewrite Hps, Hq. by split.
  - intros i ps ps' Hps Hps' Hc. destruct (decide (i ∈ p_sessions p)) as [Hin|Hni].
    + destruct (I3 i ps Hin Hps) as (q & Hq & Hd). assert (q = ps') as -> by congruence.
      destruct (decide (i ∈ alive)) as [Ha|Ha]; [|by destruct Hd; congruence].
      destruct Hd as [_ Hd]. split; [done|]. split; [by left|done].
    + rewrite I2 in Hps' by done. assert (ps' = ps) as -> by congruence. split; [done|]. by split.
  - intros Hr. by left.
Qed.

Lemma count_dialing_app l k : count_dialing (l ++ k) = (count_dialing l + count_dialing k)%nat.
Proof. unfold count_dialing. by rewrite List.filter_app, length_app. Qed.

(** The end of a dial: the count goes down, a session may be added. *)
Lemma dial_inv now background auth a p r p' b fg fg' bg bg' cl rd :
  pool_inv (mkWorld p fg bg cl rd) -> dialNewSessionWithLockAdjusted now background auth a p = (r, p', b) ->
  (bg' + count_dialing fg' + 1 = bg + count_dialing fg)%nat -> (bg' <= bg)%nat ->
  map fst fg' = map fst fg -> pool_inv (mkWorld p' fg' bg' cl rd).
Proof.
  intros [H1 H2 H3 H4 H4' H5 H6 H7] H Hc Hb Hfg. cbn in *.
  assert (Hsingle : forall o, o = p_inflightDial p ->
    (fg' = [] /\ o = None) \/ exists call ph, fg' = [(call, ph)] /\ o = Some call).
  { intros o ->. destruct H1 as [[-> ->]|(call & ph & -> & ->)].
    - left. by destruct fg'.
    - right. destruct fg' as [|[c ph'] [|? ?]]; try done. injection Hfg as ->. by exists call, ph'. }
  unfold dialNewSessionWithLockAdjusted in H. cbv zeta in H.
  assert (Hsame : forall q, q = p_set_dialing p (p_dialing p - 1) \/ (exists now, q = markFallback now (p_set_dialing p (p_dialing p - 1))) ->
    pool_inv (mkWorld q fg' bg' cl rd)).
  { intros q Hq. assert (E : p_inflightDial q = p_inflightDial p /\ p_dialing q = p_dialing p - 1 /\ p_sessions q = p_sessions p /\ p_heap q = p_heap p /\ p_next q = p_next p /\ p_closed q = p_closed p) by (destruct Hq as [->|[? ->]]; done).
    destruct E as (E1 & E2 & E3 & E4 & E5 & E6). constructor; cbn; rewrite ?E1, ?E2, ?E3, ?E4, ?E5, ?E6; try done; [by apply Hsingle|lia|lia]. }
  destruct auth as [e|rt].
  { injection H as _ <- _. apply Hsame. destruct (decide (e = PFallback)); [|by left].
    destruct background; [by left|right; by eexists]. }
  destruct (Client _ a) as [ec|sess] eqn:Ecl; [injection H as _ <- _; apply Hsame; by left|]. cbn in H.
  set (ps := mkPS sess now false 0 0 false 0) in *.
  assert (Hnone : p_heap p !! p_next p = None).
  { apply eq_None_not_Some. intros Hs. specialize (H4' _ Hs). lia. }
  destruct (p_closed p) eqn:Epc; injection H as _ <- _; constructor; cbn; auto; try lia.
  - intros i Hi. specialize (H4 i Hi). destruct (decide (p_next p = i)) as [<-|Hne].
    + by rewrite Hnone in H4; destruct H4.
    + by rewrite lookup_alter_ne, lookup_insert_ne.
  - intros i Hi. destruct (decide (p_next p = i)) as [<-|Hne]; [lia|].
    rewrite lookup_alter_ne, lookup_insert_ne in Hi by done. specialize (H4' i Hi). lia.
  - intros i q Hq Hcq. destruct (decide (p_next p = i)) as [<-|Hne].
    + rewrite lookup_alter_eq, lookup_insert_eq in Hq. injection Hq as <-. by rewrite ps_close_closed in Hcq.
    + rewrite lookup_alter_ne, lookup_insert_ne in Hq by done. by apply (H6 i q).
  - intros i Hi. apply elem_of_app in Hi as [Hi|Hi].
    + destruct (decide (p_next p = i)) as [<-|Hne]; [by rewrite lookup_insert_eq|]. rewrite lookup_insert_ne by done. auto.
    + apply list_elem_of_singleton in Hi as ->. by rewrite lookup_insert_eq.
  - intros i Hi. destruct (decide (p_next p = i)) as [<-|Hne]; [lia|].
    rewrite lookup_insert_ne in Hi by done. specialize (H4' i Hi). lia.
  - apply NoDup_app. split; [done|]. split; [|apply NoDup_singleton]. intros i Hi Hx. apply list_elem_of_singleton in Hx as ->.
    specialize (H4 _ Hi). by rewrite Hnone in H4; destruct H4.
  - intros i q Hq Hcq. destruct (decide (p_next p = i)) as [<-|Hne]; [left; apply elem_of_app; right; left|].
    rewrite lookup_insert_ne in Hq by done. destruct (H6 i q Hq Hcq); [left; apply elem_of_app; by left|by right].
  - intros Hr. destruct (H7 Hr). congruence.
Qed.

Lemma app_singleton_inv {A} (f1 f2 : list A) x y : f1 ++ x :: f2 = [y] -> f1 = [] /\ f2 = [] /\ x = y.
Proof. destruct f1 as [|a f1]; [by intros [= -> ->]|]. intros [= -> H]. by destruct f1. Qed.

Lemma pool_step_inv w w' : pool_inv w -> pool_step w w' -> pool_inv w'.
Proof.
  intros Hi Hs. destruct Hs.
  - unfold ensureWatcher. destruct (p_watcherStarted p); [done|].
    destruct Hi as [N1 N2 N3 N4 N4' N5 N6 N7]. by constructor.
  - by apply pick_inv.
  - unfold maybeWarmSecondSession in H. destruct (usable_count _ _) as [act tot].
    destruct ((act <? _) && (p_dialing p =? 0) && _) eqn:E; [|done]. zify_bool. injection H as <-.
    destruct Hi as [N1 N2 N3 N4 N4' N5 N6 N7]. cbn [w_pool w_fg w_bg w_closing w_resetDone] in *.
    constructor; try done; cbn; lia.
  - eapply dial_inv; [exact Hi|exact H|lia|lia|done].
  - subst others. unfold dialOrReuse_start in H0. destruct (ShouldFallback now p); [done|].
    destruct (pickBestSession p) as [[i|] p1] eqn:E; [done|]. cbn [id] in H0.
    destruct (ShouldFallback now p1); [done|]. destruct (p_inflightDial p1) as [c|] eqn:Ei; [done|].
    injection H0 as <- <-. pose proof (pick_inv _ _ _ _ _ Hi) as Hi1. rewrite E in Hi1.
    destruct Hi1 as [N1 N2 N3 N4 N4' N5 N6 N7]. cbn [w_pool w_fg w_bg w_closing w_resetDone snd] in *.
    destruct N1 as [[-> _]|(c' & ph & _ & N1)]; [|congruence]. constructor; try done.
    right. by do 2 eexists.
  - destruct Hi as [N1 N2 N3 N4 N4' N5 N6 N7]. cbn [w_pool w_fg w_bg w_closing w_resetDone] in *.
    destruct N1 as [[N1 _]|(c & ph & E & N1)]; [by destruct f1|]. apply app_singleton_inv in E as (-> & -> & [= <- <-]).
    constructor; try done; cbn [w_pool w_fg w_bg app]; [right; by do 2 eexists|].
    unfold dialNewSession_begin. cbn [p_set_dialing p_dialing]. rewrite N2. unfold count_dialing. simpl. lia.
  - eapply dial_inv; [exact Hi|exact H| |done|by rewrite !map_app].
    rewrite !count_dialing_app. unfold count_dialing. simpl. lia.
  - destruct Hi as [N1 N2 N3 N4 N4' N5 N6 N7]. cbn [w_pool w_fg w_bg w_closing w_resetDone] in *.
    destruct N1 as [[N1 _]|(c & ph & E & N1)]; [by destruct f1|]. apply app_singleton_inv in E as (-> & -> & [= <- <-]).
    unfold call_finish. cbn [p_set_calls p_inflightDial]. rewrite decide_True by done.
    constructor; try done; cbn [w_pool w_fg w_bg app]. by left.
  - apply pool_inv_with; [done|]. intros ps' Hps' Hc. assert (ps' = ps) as -> by congruence. by apply H0.
  - by apply pool_inv_with.
  - by apply pool_inv_with.
  - by apply check_inv.
  - apply (pool_inv_sessions p _ fg bg cl (cl ++ p_sessions p) rd (rd || p_closed p)); try done.
    + apply sublist_nil_l.
    + intros i ps ps' Hps Hps' Hc. cbn in Hps'. assert (ps' = ps) as -> by congruence. split; [done|].
      split; intros Hin; [right|]; apply elem_of_app; auto.
    + intros Hr. destruct rd; [by left|]. by right.
  - destruct Hi as [N1 N2 N3 N4 N4' N5 N6 N7]. cbn [w_pool w_fg w_bg w_closing w_resetDone] in *.
    assert (Hw : pool_inv (mkWorld (with_ps p i ps_close) fg bg (i :: cl) rd))
      by (apply pool_inv_with; [by constructor|]; intros; apply ps_close_closed).
    destruct Hw as [G1 G2 G3 G4 G4' G5 G6 G7]. cbn [w_pool w_fg w_bg w_closing w_resetDone] in *.
    constructor; try done. cbn [w_pool w_closing]. intros j ps Hj Hc. destruct (G6 j ps Hj Hc) as [Hin|Hin]; [by left|].
    apply elem_of_cons in Hin as [->|Hin]; [|by right]. unfold with_ps in Hj. cbn in Hj.
    rewrite lookup_alter_eq in Hj. destruct (p_heap p !! i); [|done]. injection Hj as <-. by rewrite ps_close_closed in Hc.
  - destruct Hi as [N1 N2 N3 N4 N4' N5 N6 N7]. cbn [w_pool w_fg w_bg w_closing w_resetDone] in *.
    constructor; try done. cbn. intros Hr. split; [done|by apply N7].
Qed.

Lemma pool_reach_inv opts w : pool_reach opts w -> pool_inv w.
Proof.
  induction 1; [|by eapply pool_step_inv]. constructor; try done; cbn; [by left|lia|..].
  - intros i Hi. by apply elem_of_nil in Hi.
  - intros i [ps Hi]. by rewrite lookup_empty in Hi.
  - apply NoDup_nil_2.
Qed.

(** C27: dials are shared.  However the goroutines around a pool interleave, at
    most one foreground dial exists at a time and it is the one new callers
    find to wait for, at most one background dial runs besides it, and the
    counter [dialing] is the number of dials in progress, so it never exceeds
    two and returns to zero. *)
Theorem pool_single_flight opts w :
  pool_reach opts w ->
  (length (w_fg w) <= 1)%nat /\
  (forall call ph, (call, ph) ∈ w_fg w -> p_inflightDial (w_pool w) = Some call) /\
  (w_fg w = [] -> p_inflightDial (w_pool w) = None) /\
  p_dialing (w_pool w) = Z.of_nat (w_bg w + count_dialing (w_fg w)) /\ 0 <= p_dialing (w_pool w) <= 2.
Proof.
  intros Hr. destruct (pool_reach_inv opts w Hr) as [H1 H2 H3 _ _ _ _ _].
  assert (Hc : (count_dialing (w_fg w) <= 1)%nat).
  { destruct H1 as [[-> _]|(call & ph & -> & _)]; unfold count_dialing; [simpl; lia|].
    simpl. destruct (dialing_now _); simpl; lia. }
  destruct H1 as [[E1 E2]|(call & ph & E1 & E2)]; rewrite E1 in *; split_and!; try done; try (simpl; lia).
  - intros c q Hx. by apply elem_of_nil in Hx.
  - intros c q Hx. apply list_elem_of_singleton in Hx. by injection Hx as -> ->.
Qed.

(** A pool in which a caller waits for a shared dial. *)
Definition demo_world : world :=
  let p := NewPool (mkOptions [] 0 0 0) in
  mkWorld (dialNewSession_begin (dialOrReuse_start 5 id p).2) [(0%nat, Dialing)] 0 [] false.

Lemma demo_world_reach : pool_reach (mkOptions [] 0 0 0) demo_world.
Proof.
  eapply (PReachStep _ (mkWorld (dialOrReuse_start 5 id (NewPool (mkOptions [] 0 0 0))).2 [(0%nat, Created)] 0 [] false)).
  - eapply PReachStep; [apply PReachNew|]. apply (StCall 5 id 0 _ _ []); [done|reflexivity].
  - apply (StCallBegin 0 _ [] []).
Qed.

Lemma pool_single_flight_witness :
  p_dialing (w_pool demo_world) = 1 /\ (length (w_fg demo_world) <= 1)%nat.
Proof.
  split; [reflexivity|]. exact (proj1 (pool_single_flight (mkOptions [] 0 0 0) demo_world demo_world_reach)).
Defined.

(** no session outlives its pool.  However dials, resets, ticks of the
    watcher and uses of the sessions interleave, every open session is listed
    in the pool or about to be closed by a [Reset] in progress; so once [Close]
    has reset the pool and closed what it took, no session is open, not even
    one whose dial was under way when the pool was closed. *)
Lemma pool_close_leaks_nothing opts w :
  pool_reach opts w ->
  (forall i ps, p_heap (w_pool w) !! i = Some ps -> ps_closed ps = false ->
     i ∈ p_sessions (w_pool w) \/ i ∈ w_closing w) /\
  (w_resetDone w = true -> w_closing w = [] ->
     p_sessions (w_pool w) = [] /\ forall i ps, p_heap (w_pool w) !! i = Some ps -> ps_closed ps = true).
Proof.
  intros Hr. destruct (pool_reach_inv opts w Hr) as [_ _ _ _ _ _ H6 H7]. split; [exact H6|].
  intros Hd Hc. destruct (H7 Hd) as [_ Hs]. split; [done|]. intros i ps Hi.
  destruct (ps_closed ps) eqn:E; [done|]. rewrite Hc, Hs in H6. destruct (H6 i ps Hi E) as [Hx|Hx]; by apply elem_of_nil in Hx.
Qed.

(** The pool is closed and reset while the dial runs; the dial then succeeds. *)
Definition demo_reset_pool : Pool :=
  p_set_sessions (p_set_stopWatcher (p_set_closed (w_pool demo_world))) [].

Definition demo_dial : (perr + nat) * Pool * bool :=
  dialNewSessionWithLockAdjusted 6 false (inr (1%nat, 2%nat)) NewAllocator demo_reset_pool.

Definition demo_closed : world := mkWorld demo_dial.1.2 [(0%nat, Dialed demo_dial.1.1)] 0 [] true.

Lemma demo_closed_reach : pool_reach (mkOptions [] 0 0 0) demo_closed.
Proof.
  assert (H : pool_reach (mkOptions [] 0 0 0) (mkWorld demo_reset_pool [(0%nat, Dialing)] 0 [] true)).
  { eapply PReachStep; [eapply PReachStep; [exact demo_world_reach|apply StCloseFlag]|].
    exact (StResetTake (p_set_stopWatcher (p_set_closed (w_pool demo_world))) _ _ [] false). }
  eapply PReachStep; [exact H|].
  refine (StCallDial 6 (inr (1%nat, 2%nat)) NewAllocator _ 0 _ _ _ [] [] 0 [] true (_ : _ = (_, _, demo_dial.2))).
  fold demo_dial. by destruct demo_dial as [[? ?] ?].
Qed.

Lemma pool_close_leaks_nothing_witness :
  is_Some (p_heap (w_pool demo_closed) !! 0%nat) /\
  forall i ps, p_heap (w_pool demo_closed) !! i = Some ps -> ps_closed ps = true.
Proof.
  split; [vm_compute; by eexists|].
  exact (proj2 (proj2 (pool_close_leaks_nothing (mkOptions [] 0 0 0) demo_closed demo_closed_reach) eq_refl eq_refl)).
Defined.

(** ** The gap of the watcher *)

(** A watcher that ticks while the first dial is still under way stops, and the
    session that dial then adds is watched by nobody until the next
    [DialStream]. *)
Lemma watcher_gap now stats p :
  p_sessions p = [] -> p_watcherStarted p = true -> p_closed p = false ->
  let '(goes_on, p1) := watch_tick now stats id p in
  goes_on = false /\
  forall sess a, Client (Some (p_smuxCfg p)) a = inr sess ->
    let '(_, p2, _) := dialNewSessionWithLockAdjusted now false (inr (0%nat, 0%nat)) a p1 in
    p_sessions p2 = [p_next p] /\ p_watcherStarted p2 = false.
Proof.
  intros Hs Hw Hc. unfold watch_tick, checkSessions. rewrite Hs. cbn.
  split; [done|]. intros sess a Hcl. unfold dialNewSessionWithLockAdjusted. cbv zeta. cbn. rewrite Hcl. cbn. rewrite Hc. done.
Qed.
