(* ===== verification/Lru.v ===== *)
(** * The LRU cache

    Models [common/lru/lrucache.go]: a map from keys to elements and a doubly
    linked list of entries, front least recent.  Entries live in a heap shared
    by all caches, because [CloneTo] copies pointers to them. *)

From S2P Require Import Prelude.

(** @go common/lru/lrucache.go:288-292 entry *)
Record entry (K V : Type) := mkEntry { e_key : K; e_value : V; e_expires : Z }.
Arguments mkEntry {K V} _ _ _.
Arguments e_key {K V} _.
Arguments e_value {K V} _.
Arguments e_expires {K V} _.

(** The entries by address, and the first free address. *)
Record heap (K V : Type) := mkHeap { h_entries : gmap nat (entry K V); h_next : nat }.
Arguments mkHeap {K V} _ _.
Arguments h_entries {K V} _.
Arguments h_next {K V} _.

(** [cache] maps a key to its element, named by the entry it holds; [lru] is
    the list of these; [evicted] logs the calls of [onEvict] when it is set.
    @go common/lru/lrucache.go:59-68 LruCache *)
Record LruCache (K V : Type) `{Countable K} := mkLru {
  maxAge : Z; maxSize : Z; updateAgeOnGet : bool; staleReturn : bool; onEvict : bool;
  cache : gmap K nat; lru : list nat; evicted : list (K * V)
}.
Arguments mkLru {K V _ _} _ _ _ _ _ _ _ _.
Arguments maxAge {K V _ _} _.
Arguments maxSize {K V _ _} _.
Arguments updateAgeOnGet {K V _ _} _.
Arguments staleReturn {K V _ _} _.
Arguments onEvict {K V _ _} _.
Arguments cache {K V _ _} _.
Arguments lru {K V _ _} _.
Arguments evicted {K V _ _} _.

Section Lru.
Context {K V : Type} `{Countable K}.
Implicit Types (c : LruCache K V) (h : heap K V).

Definition set_lists c (ca : gmap K nat) (l : list nat) : LruCache K V :=
  mkLru (maxAge c) (maxSize c) (updateAgeOnGet c) (staleReturn c) (onEvict c) ca l (evicted c).

(** @go common/lru/lrucache.go:255-257 LruCache.deleteElement *)
Definition log_evict c (e : entry K V) : LruCache K V :=
  mkLru (maxAge c) (maxSize c) (updateAgeOnGet c) (staleReturn c) (onEvict c) (cache c) (lru c)
    (if onEvict c then evicted c ++ [(e_key e, e_value e)] else evicted c).

Definition store h (p : nat) (e : entry K V) : heap K V := mkHeap (<[p := e]> (h_entries h)) (h_next h).

(** [new(entry)]. *)
Definition alloc h (e : entry K V) : nat * heap K V :=
  (h_next h, mkHeap (<[h_next h := e]> (h_entries h)) (S (h_next h))).

(** [list.Remove] and [list.MoveToBack]. *)
Definition list_remove (p : nat) (l : list nat) : list nat := List.filter (fun q => negb (Nat.eqb p q)) l.
Definition move_to_back (p : nat) (l : list nat) : list nat := list_remove p l ++ [p].

(** The options of [New]: age, size, update on get, stale, callback.
    @go common/lru/lrucache.go:20-80 WithEvict, WithUpdateAgeOnGet, WithAge, WithSize, WithStale, New *)
Definition New (age size : Z) (update stale evict : bool) : LruCache K V :=
  mkLru age size update stale evict ∅ [] [].

(** @go common/lru/lrucache.go:82-88 LruCache.Clear *)
Definition Clear c : LruCache K V := set_lists c ∅ [].

(** @go common/lru/lrucache.go:251-258 LruCache.deleteElement *)
Definition deleteElement (p : nat) c h : LruCache K V :=
  let c := set_lists c (cache c) (list_remove p (lru c)) in
  match h_entries h !! p with
  | None => c
  | Some e => log_evict (set_lists c (delete (e_key e) (cache c)) (lru c)) e
  end.

(** The loop of [maybeDeleteOldest]; each turn removes an element, so the
    length of the list is enough fuel.
    @go common/lru/lrucache.go:242-249 LruCache.maybeDeleteOldest *)
Fixpoint delete_oldest (fuel : nat) (now : Z) c h : LruCache K V :=
  match fuel with
  | O => c
  | S fuel' =>
      match lru c with
      | [] => c
      | p :: _ =>
          match h_entries h !! p with
          | None => c
          | Some e => if e_expires e <=? now then delete_oldest fuel' now (deleteElement p c h) h else c
          end
      end
  end.

(** @go common/lru/lrucache.go:242-249 LruCache.maybeDeleteOldest *)
Definition maybeDeleteOldest (now : Z) c h : LruCache K V :=
  if negb (staleReturn c) && (0 <? maxAge c) then delete_oldest (length (lru c)) now c h else c.

(** [t] gives the successive readings of the clock in seconds; the result is
    the entry found.
    @go common/lru/lrucache.go:207-226 LruCache.get *)
Definition get (t : nat -> Z) (key : K) c h : option nat * LruCache K V * heap K V :=
  match cache c !! key with
  | None => (None, c, h)
  | Some p =>
      match h_entries h !! p with
      | None => (None, c, h)
      | Some e =>
          if negb (staleReturn c) && (0 <? maxAge c) && (e_expires e <=? t 0%nat)
          then (None, maybeDeleteOldest (t 1%nat) (deleteElement p c h) h, h)
          else
            let c := set_lists c (cache c) (move_to_back p (lru c)) in
            let h := if (0 <? maxAge c) && updateAgeOnGet c
                     then store h p (mkEntry (e_key e) (e_value e) (t 1%nat + maxAge c)) else h in
            (Some p, c, h)
      end
  end.

(** @go common/lru/lrucache.go:170-188 LruCache.setWithExpire *)
Definition setWithExpire (now : Z) (key : K) (value : V) (expires : Z) c h : LruCache K V * heap K V :=
  let '(c, h) :=
    match cache c !! key with
    | Some p =>
        let c := set_lists c (cache c) (move_to_back p (lru c)) in
        (c, match h_entries h !! p with
            | Some e => store h p (mkEntry (e_key e) value expires)
            | None => h
            end)
    | None =>
        let '(p, h) := alloc h (mkEntry key value expires) in
        let c := set_lists c (<[key := p]> (cache c)) (lru c ++ [p]) in
        let c := if (0 <? maxSize c) && (maxSize c <? Z.of_nat (length (lru c)))
                 then match lru c with q :: _ => deleteElement q c h | [] => c end
                 else c in
        (c, h)
    end in
  (maybeDeleteOldest now c h, h).

(** @go common/lru/lrucache.go:153-159 LruCache.set *)
Definition set (t : nat -> Z) (key : K) (value : V) c h : LruCache K V * heap K V :=
  let expires := if 0 <? maxAge c then t 0%nat + maxAge c else 0 in
  setWithExpire (t 1%nat) key value expires c h.

(** @go common/lru/lrucache.go:145-151 LruCache.Set *)
Definition Set_ (t : nat -> Z) (key : K) (value : V) c h : LruCache K V * heap K V := set t key value c h.

(** @go common/lru/lrucache.go:161-168 LruCache.SetWithExpire *)
Definition SetWithExpire (now : Z) (key : K) (value : V) (expires : Z) c h : LruCache K V * heap K V :=
  setWithExpire now key value expires c h.

(** @go common/lru/lrucache.go:92-103 LruCache.Get *)
Definition Get (t : nat -> Z) (key : K) c h : option V * LruCache K V * heap K V :=
  match get t key c h with
  | (Some p, c, h) => (e_value <$> h_entries h !! p, c, h)
  | (None, c, h) => (None, c, h)
  end.

(** @go common/lru/lrucache.go:105-118 LruCache.GetOrStore *)
Definition GetOrStore (t : nat -> Z) (key : K) (constructor : V) c h : option (V * bool) * LruCache K V * heap K V :=
  match get t key c h with
  | (Some p, c, h) => ((fun e => (e_value e, true)) <$> h_entries h !! p, c, h)
  | (None, c, h) =>
      let '(c, h) := set (fun k => t (2 + k)%nat) key constructor c h in (Some (constructor, false), c, h)
  end.

(** @go common/lru/lrucache.go:124-134 LruCache.GetWithExpire *)
Definition GetWithExpire (t : nat -> Z) (key : K) c h : option (V * Z) * LruCache K V * heap K V :=
  match get t key c h with
  | (Some p, c, h) => ((fun e => (e_value e, e_expires e)) <$> h_entries h !! p, c, h)
  | (None, c, h) => (None, c, h)
  end.

(** @go common/lru/lrucache.go:137-143 LruCache.Exist *)
Definition Exist (key : K) c : bool := bool_decide (is_Some (cache c !! key)).

(** @go common/lru/lrucache.go:228-240 LruCache.Delete, LruCache.delete *)
Definition delete_key (key : K) c h : LruCache K V :=
  match cache c !! key with Some p => deleteElement p c h | None => c end.

(** The callback of [Compute] returns the new value and whether to delete.
    @go common/lru/lrucache.go:267-286 LruCache.Compute *)
Definition Compute (t : nat -> Z) (key : K) (valueFn : option V -> V * bool) c h :
    option V * LruCache K V * heap K V :=
  let '(found, c, h) := get t key c h in
  let actual := match found with Some p => e_value <$> h_entries h !! p | None => None end in
  match valueFn actual with
  | (_, true) => (None, match actual with Some _ => delete_key key c h | None => c end, h)
  | (newValue, false) =>
      let '(c, h) := set (fun k => t (2 + k)%nat) key newValue c h in (Some newValue, c, h)
  end.

(** The elements copied into [n], front first.
    @go common/lru/lrucache.go:201-204 LruCache.CloneTo *)
Fixpoint clone_loop h (l : list nat) (n : LruCache K V) : LruCache K V :=
  match l with
  | [] => n
  | p :: rest =>
      match h_entries h !! p with
      | None => clone_loop h rest n
      | Some e => clone_loop h rest (set_lists n (<[e_key e := p]> (cache n)) (lru n ++ [p]))
      end
  end.

(** @go common/lru/lrucache.go:191-205 LruCache.CloneTo *)
Definition CloneTo h c (n : LruCache K V) : LruCache K V := clone_loop h (lru c) (set_lists n ∅ []).

(** @go common/lru/lrucache.go:294-298 ResetLRU *)
Definition ResetLRU h (old : LruCache K V) (newSize age : Z) (update stale evict : bool) : LruCache K V :=
  CloneTo h old (New age newSize update stale evict).
End Lru.

Section StringKeys.
Context {V : Type}.
Implicit Types (c : LruCache string V) (h : heap string V).

(** One key of the map: deleted when expired, else put into the result.
    @go common/lru/lrucache.go:307-324 LruCache.FilterByKeyPrefix *)
Fixpoint filter_prefix (now : Z) (pre : string) (ks : list (string * nat)) c h (result : gmap string V) :
    gmap string V * LruCache string V :=
  match ks with
  | [] => (result, c)
  | (k, p) :: rest =>
      if negb (String.prefix pre k) then filter_prefix now pre rest c h result else
      match h_entries h !! p with
      | None => filter_prefix now pre rest c h result
      | Some e =>
          if negb (staleReturn c) && (0 <? maxAge c) && (e_expires e <=? now)
          then filter_prefix now pre rest (deleteElement p c h) h result
          else filter_prefix now pre rest c h (<[k := e_value e]> result)
      end
  end.

(** @go common/lru/lrucache.go:300-329 LruCache.FilterByKeyPrefix *)
Definition FilterByKeyPrefix (t : nat -> Z) (pre : string) c h : gmap string V * LruCache string V :=
  let '(result, c) := filter_prefix (t 0%nat) pre (map_to_list (cache c)) c h ∅ in
  (result, maybeDeleteOldest (t 1%nat) c h).

(** @go common/lru/lrucache.go:331-355 LruCache.RemoveByKeyPrefix *)
Definition RemoveByKeyPrefix (pre : string) c h : nat * LruCache string V :=
  let keysToRemove := List.filter (String.prefix pre) (map_to_list (cache c)).*1 in
  (length keysToRemove, fold_left (fun c k => delete_key k c h) keysToRemove c).
End StringKeys.
