(* ===== verification/LruProps.v ===== *)
(** * The LRU cache: refinement

    The map and the linked list of [Lru.v] implement a plain list of entries,
    least recent first: every sequence of operations observes the same results,
    the same callbacks and the same order. *)

From S2P Require Import Prelude Lru.

(** ** The specification *)

Section Spec.
Context {K V : Type} `{Countable K}.

(** The settings of a cache. *)
Record settings := mkSettings { g_age : Z; g_size : Z; g_update : bool; g_stale : bool; g_evict : bool }.

(** Entries, least recent first, and the callbacks made. *)
Record spec := mkSpec { sp_entries : list (entry K V); sp_log : list (K * V) }.

Definition sp_key (k : K) (e : entry K V) : bool := bool_decide (e_key e = k).
Definition sp_find (k : K) (s : spec) : option (entry K V) := List.find (sp_key k) (sp_entries s).
Definition sp_without (k : K) (l : list (entry K V)) : list (entry K V) := List.filter (fun e => negb (sp_key k e)) l.

(** Removal of one entry, with its callback. *)
Definition sp_drop (g : settings) (e : entry K V) (s : spec) : spec :=
  mkSpec (sp_without (e_key e) (sp_entries s))
    (if g_evict g then sp_log s ++ [(e_key e, e_value e)] else sp_log s).

Definition ages (g : settings) : bool := negb (g_stale g) && (0 <? g_age g).

(** Expired entries go while they are the least recent. *)
Fixpoint sp_purge_loop (fuel : nat) (g : settings) (now : Z) (s : spec) : spec :=
  match fuel with
  | O => s
  | S fuel' =>
      match sp_entries s with
      | [] => s
      | e :: _ => if e_expires e <=? now then sp_purge_loop fuel' g now (sp_drop g e s) else s
      end
  end.
Definition sp_purge (g : settings) (now : Z) (s : spec) : spec :=
  if ages g then sp_purge_loop (length (sp_entries s)) g now s else s.

(** A hit makes the entry the most recent. *)
Definition sp_get (g : settings) (t : nat -> Z) (k : K) (s : spec) : option (entry K V) * spec :=
  match sp_find k s with
  | None => (None, s)
  | Some e =>
      if ages g && (e_expires e <=? t 0%nat) then (None, sp_purge g (t 1%nat) (sp_drop g e s)) else
      let e' := if (0 <? g_age g) && g_update g then mkEntry (e_key e) (e_value e) (t 1%nat + g_age g) else e in
      (Some e', mkSpec (sp_without k (sp_entries s) ++ [e']) (sp_log s))
  end.

(** A store makes its entry the most recent; a new one may push out the least
    recent. *)
Definition sp_put (g : settings) (now : Z) (k : K) (v : V) (expires : Z) (s : spec) : spec :=
  let e := mkEntry k v expires in
  let s' := mkSpec (sp_without k (sp_entries s) ++ [e]) (sp_log s) in
  let s' := match sp_find k s with
            | Some _ => s'
            | None =>
                if (0 <? g_size g) && (g_size g <? Z.of_nat (length (sp_entries s')))
                then match sp_entries s' with e0 :: _ => sp_drop g e0 s' | [] => s' end else s'
            end in
  sp_purge g now s'.

Definition sp_delete (g : settings) (k : K) (s : spec) : spec :=
  match sp_find k s with Some e => sp_drop g e s | None => s end.
End Spec.
Arguments spec : clear implicits.
Arguments mkSpec {K V} _ _.

(** ** Representation *)

Section Refine.
Context {K V : Type} `{Countable K}.
Implicit Types (c : LruCache K V) (h : heap K V) (l : list (nat * entry K V)).

Definition settings_of c : settings := mkSettings (maxAge c) (maxSize c) (updateAgeOnGet c) (staleReturn c) (onEvict c).

(** The cache holds the entries [l], with their addresses. *)
Record repr c h l : Prop := {
  rp_lru : lru c = l.*1;
  rp_nodup : NoDup l.*1;
  rp_keys : NoDup (e_key <$> l.*2);
  rp_heap : forall p e, (p, e) ∈ l -> h_entries h !! p = Some e;
  rp_cache : forall k p, cache c !! k = Some p <-> exists e, (p, e) ∈ l /\ e_key e = k
}.

Definition heap_ok h : Prop := forall p, is_Some (h_entries h !! p) -> (p < h_next h)%nat.

Definition spec_of c l : spec K V := mkSpec l.*2 (evicted c).

Lemma repr_fun l p e p' e' :
  NoDup (e_key <$> l.*2) -> (p, e) ∈ l -> (p', e') ∈ l -> e_key e = e_key e' -> p = p' /\ e = e'.
Proof.
  intros Hk H1 H2 E. apply list_elem_of_lookup in H1 as [i H1], H2 as [j H2].
  assert (i = j) as ->.
  { eapply (NoDup_lookup (e_key <$> l.*2)); [done| |]; rewrite !list_lookup_fmap.
    - by rewrite H1. - rewrite H2. simpl. by rewrite E. }
  rewrite H1 in H2. by injection H2 as -> ->.
Qed.

Lemma repr_ptr l p e p' e' : NoDup l.*1 -> (p, e) ∈ l -> (p', e') ∈ l -> p = p' -> e = e'.
Proof.
  intros Hk H1 H2 ->. apply list_elem_of_lookup in H1 as [i H1], H2 as [j H2].
  assert (i = j) as ->.
  { eapply (NoDup_lookup l.*1); [done| |]; rewrite !list_lookup_fmap; [by rewrite H1|by rewrite H2]. }
  rewrite H1 in H2. by injection H2.
Qed.

(** Finding a key. *)
Lemma repr_find c h l k :
  repr c h l ->
  match cache c !! k with
  | Some p => exists e, (p, e) ∈ l /\ e_key e = k /\ h_entries h !! p = Some e /\ sp_find k (spec_of c l) = Some e
  | None => sp_find k (spec_of c l) = None /\ forall x, x ∈ l -> e_key x.2 <> k
  end.
Proof.
  intros [H1 H2 H3 H4 H5]. destruct (cache c !! k) as [p|] eqn:E.
  - apply H5 in E as (e & Hin & Hk). exists e. split_and!; [done|done|by apply H4|].
    unfold sp_find, spec_of. cbn. destruct (List.find (sp_key k) l.*2) as [e'|] eqn:F.
    + apply find_some in F as [F1 F2]. apply bool_decide_eq_true in F2. apply list_elem_of_In, list_elem_of_fmap in F1 as ([p' x] & -> & F1).
      f_equal. symmetry. simpl in *. eapply (repr_fun l p e p' x); try done. congruence.
    + exfalso. eapply find_none in F; [|apply list_elem_of_In, list_elem_of_fmap; exists (p, e); split; [reflexivity|done]].
      unfold sp_key in F. simpl in F. by rewrite bool_decide_eq_true_2 in F.
  - assert (Hn : forall x, x ∈ l -> e_key x.2 <> k).
    { intros [p e] Hin Hk. assert (Hs : cache c !! k = Some p) by (apply H5; by exists e). congruence. }
    split; [|done]. unfold sp_find, spec_of. cbn. destruct (List.find _ _) as [e|] eqn:F; [|done]. exfalso.
    apply find_some in F as [F1 F2]. apply bool_decide_eq_true in F2. apply list_elem_of_In, list_elem_of_fmap in F1 as (x & -> & F1).
    by apply (Hn x F1).
Qed.

(** Removing by address is removing by key. *)
Definition without_ptr (p : nat) l := List.filter (fun x => negb (Nat.eqb p x.1)) l.

Lemma without_ptr_lru p l : (without_ptr p l).*1 = list_remove p l.*1.
Proof. unfold without_ptr, list_remove. induction l as [|[q e] l IH]; [done|].
  cbn [List.filter fst]. rewrite fmap_cons. cbn [List.filter fst]. destruct (Nat.eqb p q); cbn [negb]; [done|].
  rewrite fmap_cons. by rewrite IH.
Qed.

Lemma without_ptr_key p e l :
  NoDup l.*1 -> NoDup (e_key <$> l.*2) -> (p, e) ∈ l -> (without_ptr p l).*2 = sp_without (e_key e) l.*2.
Proof.
  intros H1 H2 Hin. unfold without_ptr, sp_without.
  assert (Hext : forall x, x ∈ l -> Nat.eqb p x.1 = sp_key (e_key e) x.2).
  { intros [q e'] Hx. simpl. destruct (Nat.eqb p q) eqn:E; symmetry.
    - apply Nat.eqb_eq in E as <-. apply bool_decide_eq_true_2. f_equal. symmetry. by eapply repr_ptr.
    - apply bool_decide_eq_false_2. intros Hk. apply Nat.eqb_neq in E. apply E.
      symmetry. by eapply (repr_fun l q e' p e). }
  clear H1 H2 Hin. induction l as [|x l IH]; [done|]. cbn [List.filter]. rewrite fmap_cons. cbn [List.filter].
  rewrite Hext by left. specialize (IH (fun y Hy => Hext y (list_elem_of_further y x l Hy))).
  destruct (sp_key _ _); cbn [negb]; [done|]. rewrite fmap_cons. by rewrite IH.
Qed.

Lemma elem_without p l x : x ∈ without_ptr p l <-> x ∈ l /\ p <> x.1.
Proof.
  unfold without_ptr. rewrite !list_elem_of_In, filter_In. by rewrite negb_true_iff, Nat.eqb_neq.
Qed.

Lemma without_sublist p l : without_ptr p l `sublist_of` l.
Proof. unfold without_ptr. induction l as [|x l IH]; [done|]. simpl. destruct (negb _); [by apply sublist_skip|by apply sublist_cons]. Qed.

Lemma sublist_fmap_NoDup {A B} (f : A -> B) (k m : list A) : k `sublist_of` m -> NoDup (f <$> m) -> NoDup (f <$> k).
Proof. intros Hs Hn. eapply sublist_NoDup; [exact Hn|]. by apply fmap_sublist. Qed.

Lemma repr_sub l p : NoDup l.*1 -> NoDup (e_key <$> l.*2) ->
  NoDup (without_ptr p l).*1 /\ NoDup (e_key <$> (without_ptr p l).*2).
Proof.
  intros H1 H2. pose proof (without_sublist p l) as Hs. split; [by eapply sublist_fmap_NoDup|].
  rewrite <- list_fmap_compose in *. by eapply sublist_fmap_NoDup.
Qed.

(** [deleteElement] is [sp_drop]. *)
Lemma deleteElement_repr c h l p e :
  repr c h l -> (p, e) ∈ l ->
  repr (deleteElement p c h) h (without_ptr p l) /\
  spec_of (deleteElement p c h) (without_ptr p l) = sp_drop (settings_of c) e (spec_of c l) /\
  settings_of (deleteElement p c h) = settings_of c.
Proof.
  intros [H1 H2 H3 H4 H5] Hin. unfold deleteElement. rewrite (H4 p e Hin). cbv zeta.
  destruct (repr_sub l p H2 H3) as [N1 N2]. split_and!; [constructor|..]; cbn.
  - by rewrite H1, without_ptr_lru.
  - done.
  - done.
  - intros q e' Hq. apply elem_without in Hq as [Hq _]. by apply H4.
  - intros k q. rewrite lookup_delete_Some, H5. split.
    + intros [Hk (e' & Hq & <-)]. exists e'. split; [|done]. apply elem_without. split; [done|]. simpl. intros <-.
      apply Hk. f_equal. by apply (repr_ptr l p e p e').
    + intros (e' & Hq & <-). apply elem_without in Hq as [Hq Hne]. split; [|by exists e'].
      intros Hk. apply Hne. simpl. by eapply (repr_fun l p e q e').
  - unfold sp_drop, spec_of. cbn. by rewrite (without_ptr_key p e l).
  - done.
Qed.

(** A cache implements a specification state. *)
Definition impl c h (s : spec K V) : Prop := exists l, repr c h l /\ spec_of c l = s /\ heap_ok h.

Lemma length_sp_drop g e (s : spec K V) :
  e ∈ sp_entries s -> (length (sp_entries (sp_drop g e s)) < length (sp_entries s))%nat.
Proof.
  unfold sp_drop. cbn. generalize (sp_entries s). intros es. induction es as [|x es IH]; intros Hin; [by apply elem_of_nil in Hin|].
  simpl. destruct (sp_key (e_key e) x) eqn:E; simpl.
  - pose proof (List.filter_length_le (fun e0 => negb (sp_key (e_key e) e0)) es). unfold sp_without. lia.
  - apply elem_of_cons in Hin as [->|Hin]; [unfold sp_key in E; by rewrite bool_decide_eq_true_2 in E|].
    specialize (IH Hin). unfold sp_without in *. lia.
Qed.

Lemma delete_oldest_repr fuel now : forall c h l,
  repr c h l -> heap_ok h ->
  impl (delete_oldest fuel now c h) h (sp_purge_loop fuel (settings_of c) now (spec_of c l)) /\
  settings_of (delete_oldest fuel now c h) = settings_of c.
Proof.
  induction fuel as [|fuel IH]; intros c h l Hr Hh; cbn [delete_oldest sp_purge_loop]; [split; [by exists l|done]|].
  rewrite (rp_lru _ _ _ Hr). destruct l as [|[p e] l]; cbn [fmap list_fmap spec_of sp_entries snd fst].
  { split; [by exists []|done]. }
  rewrite (rp_heap _ _ _ Hr p e) by left. destruct (e_expires e <=? now); [|split; [by exists ((p, e) :: l)|done]].
  destruct (deleteElement_repr c h ((p, e) :: l) p e Hr ltac:(left)) as (R1 & R2 & R3).
  destruct (IH _ h _ R1 Hh) as [I1 I2]. rewrite R2, R3 in I1. split; [exact I1|by rewrite I2].
Qed.

Lemma maybeDeleteOldest_repr now c h l :
  repr c h l -> heap_ok h ->
  impl (maybeDeleteOldest now c h) h (sp_purge (settings_of c) now (spec_of c l)) /\
  settings_of (maybeDeleteOldest now c h) = settings_of c.
Proof.
  intros Hr Hh. unfold maybeDeleteOldest, sp_purge, ages. cbn [settings_of g_stale g_age].
  destruct (negb (staleReturn c) && (0 <? maxAge c)); [|split; [by exists l|done]].
  rewrite (rp_lru _ _ _ Hr). cbn [spec_of sp_entries]. rewrite !length_fmap. by apply delete_oldest_repr.
Qed.

(** Moving an entry to the back, perhaps rewriting it. *)
Lemma move_repr c h l p e e' :
  repr c h l -> (p, e) ∈ l -> e_key e' = e_key e ->
  repr (set_lists c (cache c) (move_to_back p (lru c))) (store h p e') (without_ptr p l ++ [(p, e')]) /\
  spec_of (set_lists c (cache c) (move_to_back p (lru c))) (without_ptr p l ++ [(p, e')]) =
    mkSpec (sp_without (e_key e) l.*2 ++ [e']) (evicted c).
Proof.
  intros [H1 H2 H3 H4 H5] Hin Ek. destruct (repr_sub l p H2 H3) as [N1 N2]. split; [constructor|]; cbn.
  - unfold move_to_back. by rewrite H1, fmap_app, without_ptr_lru.
  - rewrite fmap_app. apply NoDup_app. split; [done|]. split; [|apply NoDup_singleton].
    intros q Hq Hx. apply list_elem_of_singleton in Hx as ->. apply list_elem_of_fmap in Hq as (x & Ex & Hx).
    apply elem_without in Hx as [_ Hx]. simpl in Ex. congruence.
  - rewrite !fmap_app. apply NoDup_app. split; [done|]. split; [|apply NoDup_singleton].
    intros k Hk Hx. apply list_elem_of_singleton in Hx as ->. apply list_elem_of_fmap in Hk as (x & Ex & Hx).
    apply list_elem_of_fmap in Hx as ([q y] & -> & Hx). apply elem_without in Hx as [Hx Hne]. simpl in *.
    apply Hne. apply (repr_fun l p e q y H3 Hin Hx). congruence.
  - intros q y Hq. apply elem_of_app in Hq as [Hq|Hq].
    + apply elem_without in Hq as [Hq Hne]. simpl in Hne. rewrite lookup_insert_ne by done. by apply H4.
    + apply list_elem_of_singleton in Hq as [= -> ->]. by rewrite lookup_insert_eq.
  - intros k q. rewrite H5. split.
    + intros (y & Hq & <-). destruct (decide (p = q)) as [<-|Hne].
      * exists e'. split; [apply elem_of_app; right; left|]. rewrite Ek. f_equal. by apply (repr_ptr l p e p y).
      * exists y. split; [|done]. apply elem_of_app. left. by apply elem_without.
    + intros (y & Hq & <-). apply elem_of_app in Hq as [Hq|Hq].
      * apply elem_without in Hq as [Hq _]. by exists y.
      * apply list_elem_of_singleton in Hq as [= -> ->]. by exists e.
  - unfold spec_of. cbn. by rewrite fmap_app, (without_ptr_key p e l).
Qed.

Lemma store_same h p e : h_entries h !! p = Some e -> store h p e = h.
Proof. intros E. unfold store. rewrite insert_id by done. by destruct h. Qed.

Lemma store_ok h p e : heap_ok h -> is_Some (h_entries h !! p) -> heap_ok (store h p e).
Proof.
  intros Hh Hp q Hq. unfold store in *. cbn in *. destruct (decide (p = q)) as [<-|Hne]; [by apply Hh|].
  rewrite lookup_insert_ne in Hq by done. by apply Hh.
Qed.

(** [get] is [sp_get]. *)
Lemma get_repr t k c h s :
  impl c h s ->
  let '(found, c', h') := get t k c h in
  let '(e, s') := sp_get (settings_of c) t k s in
  impl c' h' s' /\ settings_of c' = settings_of c /\
  match found with Some p => exists x, h_entries h' !! p = Some x /\ e = Some x | None => e = None end.
Proof.
  intros (l & Hr & <- & Hh). unfold get, sp_get. pose proof (repr_find c h l k Hr) as Hf.
  destruct (cache c !! k) as [p|].
  2:{ destruct Hf as [-> _]. split; [by exists l|done]. }
  destruct Hf as (e & Hin & Hk & He & ->). rewrite He. unfold ages. cbn [settings_of g_stale g_age g_update].
  destruct (negb (staleReturn c) && (0 <? maxAge c) && (e_expires e <=? t 0%nat)).
  - destruct (deleteElement_repr c h l p e Hr Hin) as (R1 & R2 & R3).
    destruct (maybeDeleteOldest_repr (t 1%nat) _ h _ R1 Hh) as [M1 M2]. rewrite R2, R3 in M1. rewrite R3 in M2. done.
  - destruct ((0 <? maxAge c) && updateAgeOnGet c) eqn:Eu; cbn [set_lists maxAge updateAgeOnGet]; rewrite Eu.
    + destruct (move_repr c h l p e (mkEntry (e_key e) (e_value e) (t 1%nat + maxAge c)) Hr Hin eq_refl) as [M1 M2].
      split; [|split; [done|eexists; split; [apply lookup_insert_eq|done]]]. eexists. split; [exact M1|].
      rewrite M2, Hk. split; [done|].
      apply store_ok; [done|by eexists].
    + destruct (move_repr c h l p e e Hr Hin eq_refl) as [M1 M2]. rewrite (store_same h p e He) in M1.
      split; [|split; [done|by eexists]]. eexists. split; [exact M1|]. rewrite M2, Hk. by split.
Qed.

(** A new entry at the back. *)
Lemma push_repr c h l k v x :
  repr c h l -> heap_ok h -> cache c !! k = None ->
  let e := mkEntry k v x in
  let '(p, h') := alloc h e in
  repr (set_lists c (<[k := p]> (cache c)) (lru c ++ [p])) h' (l ++ [(p, e)]) /\ heap_ok h'.
Proof.
  intros Hr Hh Hk. cbv zeta. unfold alloc. pose proof (repr_find c h l k Hr) as Hf. rewrite Hk in Hf.
  destruct Hf as [_ Hnk]. destruct Hr as [H1 H2 H3 H4 H5].
  assert (Hnp : forall q e, (q, e) ∈ l -> q <> h_next h).
  { intros q e Hq ->. assert (Hs : (h_next h < h_next h)%nat) by (apply Hh; by rewrite (H4 _ _ Hq)). lia. }
  split; [constructor|]; cbn.
  - by rewrite H1, fmap_app.
  - rewrite fmap_app. apply NoDup_app. split; [done|]. split; [|apply NoDup_singleton].
    intros q Hq Hx. apply list_elem_of_singleton in Hx as ->. apply list_elem_of_fmap in Hq as ([q e] & Ex & Hq).
    by apply (Hnp q e).
  - rewrite !fmap_app. apply NoDup_app. split; [done|]. split; [|apply NoDup_singleton].
    intros q Hq Hx. apply list_elem_of_singleton in Hx as ->. apply list_elem_of_fmap in Hq as (y & Ex & Hq).
    apply list_elem_of_fmap in Hq as (z & -> & Hq). by apply (Hnk z Hq).
  - intros q e Hq. apply elem_of_app in Hq as [Hq|Hq].
    + rewrite lookup_insert_ne by (intros <-; by apply (Hnp _ _ Hq)). by apply H4.
    + apply list_elem_of_singleton in Hq as [= -> ->]. by rewrite lookup_insert_eq.
  - intros j q. rewrite lookup_insert_Some, H5. split.
    + intros [[<- <-]|[Hne (e & Hq & <-)]]; [eexists; split; [apply elem_of_app; right; left|done]|].
      exists e. split; [apply elem_of_app; by left|done].
    + intros (e & Hq & <-). apply elem_of_app in Hq as [Hq|Hq].
      * right. split; [|by exists e]. intros ->. by apply (Hnk _ Hq).
      * apply list_elem_of_singleton in Hq as [= -> ->]. by left.
  - intros q Hq. cbn in *. destruct (decide (h_next h = q)) as [<-|Hne]; [lia|].
    rewrite lookup_insert_ne in Hq by done. specialize (Hh q Hq). lia.
Qed.

Lemma sp_without_none k (es : list (entry K V)) :
  List.find (sp_key k) es = None -> sp_without k es = es.
Proof.
  unfold sp_without. induction es as [|e es IH]; [done|]. simpl. destruct (sp_key k e); [done|]. simpl.
  intros Hf. by rewrite IH.
Qed.

(** [setWithExpire] is [sp_put]. *)
Lemma setWithExpire_repr now k v x c h s :
  impl c h s ->
  let '(c', h') := setWithExpire now k v x c h in
  impl c' h' (sp_put (settings_of c) now k v x s) /\ settings_of c' = settings_of c.
Proof.
  intros (l & Hr & <- & Hh). unfold setWithExpire, sp_put. pose proof (repr_find c h l k Hr) as Hf.
  destruct (cache c !! k) as [p|] eqn:Ec.
  - destruct Hf as (e & Hin & Hk & He & ->). rewrite He.
    destruct (move_repr c h l p e (mkEntry (e_key e) v x) Hr Hin eq_refl) as [M1 M2].
    assert (Hh' : heap_ok (store h p (mkEntry (e_key e) v x))) by (apply store_ok; [done|by eexists]).
    destruct (maybeDeleteOldest_repr now _ _ _ M1 Hh') as [P1 P2]. rewrite M2 in P1. rewrite Hk in *.
    split; [exact P1|exact P2].
  - destruct Hf as [Hf _]. rewrite Hf.
    pose proof (push_repr c h l k v x Hr Hh Ec) as Hp. cbv zeta in Hp. unfold alloc in *. destruct Hp as [P1 P2].
    set (e := mkEntry k v x) in *. set (c1 := set_lists c _ _) in *. set (h1 := mkHeap _ _) in *.
    assert (Es : sp_without k (sp_entries (spec_of c l)) ++ [e] = (l ++ [(h_next h, e)]).*2).
    { unfold sp_find in Hf. rewrite sp_without_none by done. cbn. by rewrite fmap_app. }
    rewrite Es. cbn [sp_entries sp_log spec_of]. rewrite length_fmap.
    assert (El : length (lru c1) = length (l ++ [(h_next h, e)])) by (rewrite (rp_lru _ _ _ P1); apply length_fmap).
    change (maxSize c1) with (maxSize c). change (g_size (settings_of c)) with (maxSize c). rewrite El.
    destruct ((0 <? maxSize c) && (maxSize c <? _)) eqn:Esz.
    + rewrite (rp_lru _ _ _ P1). destruct (l ++ [(h_next h, e)]) as [|[q e0] l2] eqn:El2; [by destruct l|].
      cbn [fmap list_fmap fst snd].
      destruct (deleteElement_repr c1 h1 ((q, e0) :: l2) q e0 P1 ltac:(left)) as (R1 & R2 & R3).
      destruct (maybeDeleteOldest_repr now _ h1 _ R1 P2) as [M1 M2]. rewrite R2, R3 in M1. rewrite R3 in M2.
      split; [exact M1|exact M2].
    + destruct (maybeDeleteOldest_repr now _ h1 _ P1 P2) as [M1 M2]. split; [exact M1|exact M2].
Qed.

Lemma delete_repr k c h s :
  impl c h s -> impl (delete_key k c h) h (sp_delete (settings_of c) k s) /\ settings_of (delete_key k c h) = settings_of c.
Proof.
  intros (l & Hr & <- & Hh). unfold delete_key, sp_delete. pose proof (repr_find c h l k Hr) as Hf.
  destruct (cache c !! k) as [p|].
  - destruct Hf as (e & Hin & Hk & He & ->). destruct (deleteElement_repr c h l p e Hr Hin) as (R1 & R2 & R3).
    split; [|done]. by exists (without_ptr p l).
  - destruct Hf as [-> _]. split; [by exists l|done].
Qed.
End Refine.

(** ** Traces *)

Section Traces.
Context {K V : Type} `{Countable K}.

(** The exported operations with their arguments. *)
Inductive op : Type :=
| OGet (k : K) | OGetOrStore (k : K) (v : V) | OGetWithExpire (k : K) | OExist (k : K)
| OSet (k : K) (v : V) | OSetWithExpire (k : K) (v : V) (expires : Z) | ODelete (k : K)
| OCompute (k : K) (f : option V -> V * bool) | OClear.

(** What the caller sees. *)
Inductive obs : Type :=
| BValue (v : option V) | BStored (v : option (V * bool)) | BExpire (v : option (V * Z)) | BBool (b : bool) | BUnit.

(** One operation; [t] is the clock during it. *)
Definition run_op (t : nat -> Z) (o : op) (c : LruCache K V) (h : heap K V) : obs * LruCache K V * heap K V :=
  match o with
  | OGet k => let '(r, c, h) := Get t k c h in (BValue r, c, h)
  | OGetOrStore k v => let '(r, c, h) := GetOrStore t k v c h in (BStored r, c, h)
  | OGetWithExpire k => let '(r, c, h) := GetWithExpire t k c h in (BExpire r, c, h)
  | OExist k => (BBool (Exist k c), c, h)
  | OSet k v => let '(c, h) := Set_ t k v c h in (BUnit, c, h)
  | OSetWithExpire k v x => let '(c, h) := SetWithExpire (t 0%nat) k v x c h in (BUnit, c, h)
  | ODelete k => (BUnit, delete_key k c h, h)
  | OCompute k f => let '(r, c, h) := Compute t k f c h in (BValue r, c, h)
  | OClear => (BUnit, Clear c, h)
  end.

Definition sp_set (g : settings) (t : nat -> Z) (k : K) (v : V) (s : spec K V) : spec K V :=
  sp_put g (t 1%nat) k v (if 0 <? g_age g then t 0%nat + g_age g else 0) s.

Definition sp_op (g : settings) (t : nat -> Z) (o : op) (s : spec K V) : obs * spec K V :=
  match o with
  | OGet k => let '(e, s) := sp_get g t k s in (BValue (e_value <$> e), s)
  | OGetOrStore k v =>
      match sp_get g t k s with
      | (Some e, s) => (BStored (Some (e_value e, true)), s)
      | (None, s) => (BStored (Some (v, false)), sp_set g (fun i => t (2 + i)%nat) k v s)
      end
  | OGetWithExpire k => let '(e, s) := sp_get g t k s in (BExpire ((fun e => (e_value e, e_expires e)) <$> e), s)
  | OExist k => (BBool (bool_decide (is_Some (sp_find k s))), s)
  | OSet k v => (BUnit, sp_set g t k v s)
  | OSetWithExpire k v x => (BUnit, sp_put g (t 0%nat) k v x s)
  | ODelete k => (BUnit, sp_delete g k s)
  | OCompute k f =>
      let '(e, s) := sp_get g t k s in
      match f (e_value <$> e) with
      | (_, true) => (BValue None, match e with Some _ => sp_delete g k s | None => s end)
      | (v, false) => (BValue (Some v), sp_set g (fun i => t (2 + i)%nat) k v s)
      end
  | OClear => (BUnit, mkSpec [] (sp_log s))
  end.

Lemma set_repr t k v c h s :
  impl c h s ->
  let '(c', h') := set t k v c h in impl c' h' (sp_set (settings_of c) t k v s) /\ settings_of c' = settings_of c.
Proof. intros Hi. by apply setWithExpire_repr. Qed.

Lemma run_op_refines t o c h s :
  impl c h s ->
  let '(r, c', h') := run_op t o c h in
  let '(r', s') := sp_op (settings_of c) t o s in
  r = r' /\ impl c' h' s' /\ settings_of c' = settings_of c.
Proof.
  intros Hi. destruct o as [k|k v|k|k|k v|k v x|k|k f|]; cbn [run_op sp_op].
  - unfold Get. pose proof (get_repr t k c h s Hi) as Hg. destruct (get t k c h) as [[[p|] c'] h'];
      destruct (sp_get _ t k s) as [e s']; destruct Hg as (G1 & G2 & G3); [destruct G3 as (x & -> & ->)|rewrite G3]; done.
  - unfold GetOrStore. pose proof (get_repr t k c h s Hi) as Hg. destruct (get t k c h) as [[[p|] c'] h'];
      destruct (sp_get _ t k s) as [e s']; destruct Hg as (G1 & G2 & G3); [destruct G3 as (x & -> & ->); done|].
    subst e. pose proof (set_repr (fun i => t (2 + i)%nat) k v c' h' s' G1) as Hp.
    destruct (set _ _ _ _ _) as [c2 h2]. rewrite G2 in Hp. by destruct Hp.
  - unfold GetWithExpire. pose proof (get_repr t k c h s Hi) as Hg. destruct (get t k c h) as [[[p|] c'] h'];
      destruct (sp_get _ t k s) as [e s']; destruct Hg as (G1 & G2 & G3); [destruct G3 as (x & -> & ->)|rewrite G3]; done.
  - split; [|done]. destruct Hi as (l & Hr & <- & _). unfold Exist. pose proof (repr_find c h l k Hr) as Hf.
    destruct (cache c !! k); [destruct Hf as (e & _ & _ & _ & ->)|destruct Hf as [-> _]].
    + by rewrite !bool_decide_eq_true_2 by (by eexists).
    + rewrite !bool_decide_eq_false_2; [done| |]; by intros [? [=]].
  - pose proof (set_repr t k v c h s Hi) as Hp. unfold Set_. destruct (set _ _ _ _ _) as [c2 h2]. by destruct Hp.
  - pose proof (setWithExpire_repr (t 0%nat) k v x c h s Hi) as Hp. unfold SetWithExpire.
    destruct (setWithExpire _ _ _ _ _ _) as [c2 h2]. by destruct Hp.
  - split; [done|]. by apply delete_repr.
  - unfold Compute. pose proof (get_repr t k c h s Hi) as Hg. destruct (get t k c h) as [[found c'] h'].
    destruct (sp_get _ t k s) as [e s']. destruct Hg as (G1 & G2 & G3).
    assert (Ea : match found with Some p => e_value <$> h_entries h' !! p | None => None end = e_value <$> e).
    { destruct found; [destruct G3 as (x & -> & ->)|rewrite G3]; done. }
    rewrite Ea. destruct (f (e_value <$> e)) as [v []].
    + split; [done|]. destruct e as [e|]; cbn; [|done]. destruct (delete_repr k c' h' s' G1) as [D1 D2].
      rewrite G2 in D1. by rewrite D2.
    + pose proof (set_repr (fun i => t (2 + i)%nat) k v c' h' s' G1) as Hp.
      destruct (set _ _ _ _ _) as [c2 h2]. rewrite G2 in Hp. by destruct Hp.
  - destruct Hi as (l & Hr & <- & Hh). split; [done|]. split; [|done]. exists []. split; [|done].
    constructor; cbn; try done; [constructor|constructor| |].
    + intros p e Hp. by apply elem_of_nil in Hp.
    + intros k p. rewrite lookup_empty. split; [done|]. intros (e & Hp & _). by apply elem_of_nil in Hp.
Qed.

(** A run of operations, each with its clock. *)
Fixpoint run (ops : list ((nat -> Z) * op)) (c : LruCache K V) (h : heap K V) : list obs * LruCache K V * heap K V :=
  match ops with
  | [] => ([], c, h)
  | (t, o) :: rest =>
      let '(r, c, h) := run_op t o c h in
      let '(rs, c, h) := run rest c h in (r :: rs, c, h)
  end.

Fixpoint sp_run (g : settings) (ops : list ((nat -> Z) * op)) (s : spec K V) : list obs * spec K V :=
  match ops with
  | [] => ([], s)
  | (t, o) :: rest => let '(r, s) := sp_op g t o s in let '(rs, s) := sp_run g rest s in (r :: rs, s)
  end.

Lemma run_refines ops : forall c h s,
  impl c h s ->
  let '(rs, c', h') := run ops c h in
  let '(rs', s') := sp_run (settings_of c) ops s in
  rs = rs' /\ impl c' h' s' /\ settings_of c' = settings_of c.
Proof.
  induction ops as [|[t o] ops IH]; intros c h s Hi; cbn [run sp_run]; [done|].
  pose proof (run_op_refines t o c h s Hi) as Ho. destruct (run_op t o c h) as [[r c1] h1].
  destruct (sp_op _ t o s) as [r' s1]. destruct Ho as (-> & Hi1 & E1). specialize (IH c1 h1 s1 Hi1).
  destruct (run ops c1 h1) as [[rs c2] h2]. rewrite E1 in IH. destruct (sp_run _ ops s1) as [rs' s2].
  by destruct IH as (-> & Hi2 & E2).
Qed.

Lemma impl_new age size update stale evict (h : heap K V) : heap_ok h -> impl (New age size update stale evict) h (mkSpec [] []).
Proof.
  intros Hh. exists []. split; [|done]. constructor; cbn; try done; [constructor|constructor| |].
  - intros p e Hp. by apply elem_of_nil in Hp.
  - intros k p. rewrite lookup_empty. split; [done|]. intros (e & Hp & _). by apply elem_of_nil in Hp.
Qed.


(** ** Bounds *)

Lemma length_sp_without k (es : list (entry K V)) : (length (sp_without k es) <= length es)%nat.
Proof. apply List.filter_length_le. Qed.

Lemma length_sp_without_found k e (s : spec K V) :
  sp_find k s = Some e -> (length (sp_without k (sp_entries s)) < length (sp_entries s))%nat.
Proof.
  unfold sp_find. intros Hf. apply find_some in Hf as [Hin Hk]. apply list_elem_of_In in Hin.
  apply bool_decide_eq_true in Hk. rewrite <- Hk. exact (length_sp_drop (mkSettings 0 0 false false false) e s Hin).
Qed.

Lemma length_sp_purge g now (s : spec K V) : (length (sp_entries (sp_purge g now s)) <= length (sp_entries s))%nat.
Proof.
  unfold sp_purge. destruct (ages g); [|done]. generalize (length (sp_entries s)) at 1. intros fuel. revert s.
  induction fuel as [|fuel IH]; intros s; [done|]. cbn [sp_purge_loop]. destruct (sp_entries s) as [|e es] eqn:E; [by rewrite E|].
  destruct (_ <=? _); [|by rewrite E]. etrans; [apply IH|]. rewrite <- E. apply length_sp_without.
Qed.

Definition bounded (g : settings) (s : spec K V) : Prop :=
  0 < g_size g -> Z.of_nat (length (sp_entries s)) <= g_size g.

Lemma bounded_le g (s s' : spec K V) :
  (length (sp_entries s') <= length (sp_entries s))%nat -> bounded g s -> bounded g s'.
Proof. intros Hl Hb Hs. specialize (Hb Hs). lia. Qed.

Lemma bounded_get g t k (s : spec K V) : bounded g s -> bounded g (sp_get g t k s).2.
Proof.
  intros Hb. unfold sp_get. destruct (sp_find k s) as [e|] eqn:F; [|done]. destruct (ages g && _).
  - eapply bounded_le; [|exact Hb]. cbn [snd]. etrans; [apply length_sp_purge|apply length_sp_without].
  - eapply bounded_le; [|exact Hb]. cbn [snd sp_entries]. rewrite length_app. simpl.
    pose proof (length_sp_without_found k e s F). lia.
Qed.

Lemma bounded_put g now k v x (s : spec K V) : bounded g s -> bounded g (sp_put g now k v x s).
Proof.
  intros Hb. unfold sp_put. cbv zeta. eapply bounded_le; [apply length_sp_purge|].
  destruct (sp_find k s) as [e|] eqn:F.
  - eapply bounded_le; [|exact Hb]. cbn. rewrite length_app. simpl. pose proof (length_sp_without_found k e s F). lia.
  - intros Hg. specialize (Hb Hg). cbn [sp_entries].
    pose proof (length_sp_without k (sp_entries s)) as Hl.
    destruct ((0 <? g_size g) && (g_size g <? Z.of_nat (length (sp_without k (sp_entries s) ++ [mkEntry k v x])))) eqn:E.
    + zify_bool. destruct (sp_without k (sp_entries s) ++ [mkEntry k v x]) as [|e0 es] eqn:Ee; [cbn; lia|].
      pose proof (length_sp_drop g e0 (mkSpec (e0 :: es) (sp_log s)) ltac:(cbn; left)) as Hd. cbn [sp_entries] in Hd.
      assert (length (e0 :: es) = S (length (sp_without k (sp_entries s)))) by (rewrite <- Ee, length_app; simpl; lia). lia.
    + apply andb_false_iff in E as [E|E]; zify_bool; cbn [sp_entries]; lia.
Qed.

Lemma bounded_delete g k (s : spec K V) : bounded g s -> bounded g (sp_delete g k s).
Proof.
  intros Hb. unfold sp_delete. destruct (sp_find k s); [|done]. eapply bounded_le; [apply length_sp_without|done].
Qed.

Lemma bounded_op g t o (s : spec K V) : bounded g s -> bounded g (sp_op g t o s).2.
Proof.
  intros Hb. destruct o as [k|k v|k|k|k v|k v x|k|k f|]; cbn [sp_op]; try done; try (by apply bounded_put); try (by apply bounded_delete).
  - pose proof (bounded_get g t k s Hb) as Hg. by destruct (sp_get g t k s).
  - pose proof (bounded_get g t k s Hb) as Hg. destruct (sp_get g t k s) as [[e|] s']; [done|]. by apply bounded_put.
  - pose proof (bounded_get g t k s Hb) as Hg. by destruct (sp_get g t k s).
  - pose proof (bounded_get g t k s Hb) as Hg. destruct (sp_get g t k s) as [e s']. destruct (f _) as [v []].
    + destruct e; [by apply bounded_delete|done].
    + by apply bounded_put.
  - intros Hg. cbn. lia.
Qed.

(** The size limit holds.  A cache with a positive [maxSize] never holds
    more entries, whatever operations are run. *)
Lemma LruCache_bounded age size update stale evict (h : heap K V) ops :
  heap_ok h -> 0 < size ->
  let '(_, c, _) := run ops (New age size update stale evict) h in Z.of_nat (length (lru c)) <= size.
Proof.
  intros Hh Hs. pose proof (run_refines ops _ h _ (impl_new age size update stale evict h Hh)) as Hr.
  destruct (run ops _ h) as [[rs c] h'].
  assert (Hb : forall s, bounded (mkSettings age size update stale evict) s ->
    bounded (mkSettings age size update stale evict) (sp_run (mkSettings age size update stale evict) ops s).2).
  { clear. induction ops as [|[t o] ops IH]; intros s Hb; [done|]. cbn [sp_run].
    pose proof (bounded_op (mkSettings age size update stale evict) t o s Hb) as Ho. destruct (sp_op _ t o s) as [r s1].
    specialize (IH s1 Ho). by destruct (sp_run _ ops s1). }
  specialize (Hb (mkSpec [] []) ltac:(intros Hg; cbn in *; lia)).
  cbn [settings_of New maxAge maxSize updateAgeOnGet staleReturn onEvict] in Hr.
  destruct (sp_run _ ops _) as [rs' s]. destruct Hr as (_ & (l & Hl & <- & _) & _).
  rewrite (rp_lru _ _ _ Hl), length_fmap. specialize (Hb Hs). cbn in Hb. by rewrite length_fmap in Hb.
Qed.

(** An expired entry is gone for every reader.  [GetWithExpire] too goes
    through [get]: where entries age, it reports an entry past its time as
    absent and removes it, although its comment promises not to check. *)
Lemma GetWithExpire_checks_age t k c (h : heap K V) s e :
  impl c h s -> sp_find k s = Some e -> staleReturn c = false -> 0 < maxAge c -> e_expires e <= t 0%nat ->
  let '(r, c', _) := GetWithExpire t k c h in r = None /\ Exist k c' = false.
Proof.
  intros Hi Hf Hst Hage Hexp. unfold GetWithExpire. pose proof (get_repr t k c h s Hi) as Hg.
  destruct (get t k c h) as [[found c'] h']. unfold sp_get in Hg. rewrite Hf in Hg. unfold ages in Hg.
  cbn [settings_of g_stale g_age] in Hg. rewrite Hst in Hg. cbn [negb andb] in Hg.
  replace (0 <? maxAge c) with true in Hg by (symmetry; apply Z.ltb_lt; lia). cbn [andb] in Hg.
  replace (e_expires e <=? t 0%nat) with true in Hg by (symmetry; apply Z.leb_le; lia).
  destruct Hg as ((l & Hl & Es & _) & _ & Hn). destruct found as [p|]; [by destruct Hn as (x & _ & [=])|]. split; [done|].
  unfold Exist. apply bool_decide_eq_false_2. pose proof (repr_find c' h' l k Hl) as Hk.
  destruct (cache c' !! k) as [p|]; [|by intros [? [=]]]. destruct Hk as (e' & _ & _ & _ & Hk). exfalso.
  rewrite Es in Hk. unfold sp_find in Hk. apply find_some in Hk as [Hin Hk]. apply list_elem_of_In in Hin.
  assert (Hnot : forall x, x ∈ sp_entries (sp_drop (settings_of c) e s) -> sp_key k x = false).
  { intros x Hx. unfold sp_drop, sp_without in Hx. cbn in Hx. apply list_elem_of_In, filter_In in Hx as [_ Hx].
    apply negb_true_iff in Hx. unfold sp_find in Hf. apply find_some in Hf as [_ Hf].
    apply bool_decide_eq_true in Hf. by rewrite Hf in Hx. }
  revert Hin. unfold sp_purge. destruct (ages _); [|intros Hin; by rewrite (Hnot e' Hin) in Hk].
  generalize (length (sp_entries (sp_drop (settings_of c) e s))) as fuel. intros fuel. revert Hnot.
  generalize (sp_drop (settings_of c) e s) as q. clear - Hk. induction fuel as [|fuel IH]; intros q Hnot; cbn [sp_purge_loop].
  - intros Hin. by rewrite (Hnot e' Hin) in Hk.
  - destruct (sp_entries q) as [|x es] eqn:Eq; [intros Hin; rewrite Eq in Hin; by apply elem_of_nil in Hin|].
    destruct (_ <=? _); [|intros Hin; by rewrite (Hnot e' ltac:(by rewrite <- Eq)) in Hk].
    apply IH. intros y Hy. apply Hnot. unfold sp_drop, sp_without in Hy. cbn in Hy.
    apply list_elem_of_In, filter_In in Hy as [Hy _]. rewrite <- Eq. by apply list_elem_of_In.
Qed.

Lemma clone_loop_spec (h : heap K V) (l : list (nat * entry K V)) : forall n,
  (forall p e, (p, e) ∈ l -> h_entries h !! p = Some e) -> NoDup (e_key <$> l.*2) ->
  lru (clone_loop h l.*1 n) = lru n ++ l.*1 /\ settings_of (clone_loop h l.*1 n) = settings_of n /\
  forall k, cache (clone_loop h l.*1 n) !! k =
    match List.find (fun x => sp_key k x.2) l with Some x => Some x.1 | None => cache n !! k end.
Proof.
  induction l as [|[p e] l IH]; intros n Hh Hk.
  - cbn. by rewrite app_nil_r.
  - rewrite fmap_cons. cbn [clone_loop fst]. rewrite (Hh p e) by left. rewrite !fmap_cons in Hk. cbn [snd] in Hk.
    apply NoDup_cons in Hk as [Hne Hk].
    destruct (IH (set_lists n (<[e_key e := p]> (cache n)) (lru n ++ [p]))) as (I1 & I2 & I3); [intros q x Hq; apply Hh; by right|done|].
    split; [rewrite I1; cbn; by rewrite <- app_assoc|]. split; [by rewrite I2|]. intros k. rewrite I3. cbn [List.find snd fst].
    destruct (List.find (fun x => sp_key k x.2) l) as [x|] eqn:F.
    + apply find_some in F as [F1 F2]. apply bool_decide_eq_true in F2. apply list_elem_of_In in F1.
      unfold sp_key. rewrite bool_decide_eq_false_2; [done|]. intros E. apply Hne. rewrite E, <- F2.
      apply list_elem_of_fmap_2. by apply list_elem_of_fmap_2.
    + cbn. unfold sp_key. destruct (bool_decide (e_key e = k)) eqn:E.
      * apply bool_decide_eq_true in E as <-. by rewrite lookup_insert_eq.
      * apply bool_decide_eq_false in E. by rewrite lookup_insert_ne.
Qed.

(** [CloneTo] shares the entries. *)
Lemma CloneTo_repr c (h : heap K V) l n :
  repr c h l -> repr (CloneTo h c n) h l /\ settings_of (CloneTo h c n) = settings_of n /\
  lru (CloneTo h c n) = lru c /\ cache (CloneTo h c n) = cache c.
Proof.
  intros [H1 H2 H3 H4 H5]. unfold CloneTo. rewrite H1.
  destruct (clone_loop_spec h l (set_lists n ∅ []) H4 H3) as (C1 & C2 & C3). cbn in C1.
  assert (Ec : forall k p, cache (clone_loop h l.*1 (set_lists n ∅ [])) !! k = Some p <-> exists e, (p, e) ∈ l /\ e_key e = k).
  { intros k p. rewrite C3. destruct (List.find _ l) as [[q e]|] eqn:F.
    - apply find_some in F as [F1 F2]. apply bool_decide_eq_true in F2. apply list_elem_of_In in F1. simpl in *. split.
      + intros [= <-]. by exists e.
      + intros (e' & Hin & Hk'). f_equal. apply (repr_fun l q e p e'); try done. congruence.
    - cbn. rewrite lookup_empty. split; [done|]. intros (e & Hin & Hk). exfalso. apply list_elem_of_In in Hin.
      apply (find_none _ _ F) in Hin. unfold sp_key in Hin. simpl in Hin. by rewrite bool_decide_eq_true_2 in Hin. }
  split; [by constructor|]. split; [exact C2|]. split; [exact C1|]. apply map_eq. intros k. apply option_eq. intros p.
  by rewrite Ec, H5.
Qed.

(** cloning into a smaller cache keeps everything.  [ResetLRU] copies all
    entries whatever the new size is, and storing a new key removes one entry
    only: a cache resized below its length stays over its limit. *)
Lemma ResetLRU_not_shrunk now newSize k v x c (h : heap K V) s :
  impl c h s -> 0 < newSize < Z.of_nat (length (lru c)) -> sp_find k s = None ->
  let n := ResetLRU h c newSize 0 false false false in
  lru n = lru c /\ cache n = cache c /\
  newSize < Z.of_nat (length (lru (setWithExpire now k v x n h).1)) /\
  length (lru (setWithExpire now k v x n h).1) = length (lru c).
Proof.
  intros (l & Hl & Es & Hh) Hs Hf. cbv zeta. unfold ResetLRU.
  destruct (CloneTo_repr c h l (New 0 newSize false false false) Hl) as (R1 & R2 & R3 & R4).
  set (n := CloneTo h c _) in *. split; [done|]. split; [done|].
  assert (Hi : impl n h (spec_of n l)) by (by exists l).
  assert (Hf' : sp_find k (spec_of n l) = None) by (rewrite <- Es in Hf; exact Hf).
  pose proof (setWithExpire_repr now k v x n h _ Hi) as Hp. destruct (setWithExpire now k v x n h) as [n' h'].
  destruct Hp as [(l' & Hl' & Es' & _) _]. rewrite R2 in Es'. cbn [fst].
  assert (Elen : length (lru n') = length (sp_entries (spec_of n' l'))) by (rewrite (rp_lru _ _ _ Hl'); cbn; by rewrite !length_fmap).
  unfold sp_put, sp_purge in Es'. rewrite Hf' in Es'. cbn [settings_of New maxAge maxSize staleReturn ages g_stale g_age g_size negb andb] in Es'.
  change (0 <? 0) with false in Es'. cbn [andb] in Es'. rewrite sp_without_none in Es' by exact Hf'.
  rewrite (rp_lru _ _ _ Hl), length_fmap in *. cbn [spec_of sp_entries sp_log] in Es'.
  rewrite length_app, length_fmap in Es'. simpl length in Es'.
  replace ((0 <? newSize) && (newSize <? Z.of_nat (length l + 1))) with true in Es' by (symmetry; apply andb_true_iff; split; apply Z.ltb_lt; lia).
  destruct l as [|[p0 e0] l]; [cbn in Hs; lia|]. rewrite fmap_cons in Es'. cbn [app snd] in Es'.
  assert (Hnd : length (sp_without (e_key e0) ((e0 :: l.*2) ++ [mkEntry k v x])) = S (length l)).
  { cbn [app]. unfold sp_without. cbn [List.filter]. unfold sp_key at 1. rewrite bool_decide_eq_true_2 by done. cbn [negb].
    fold (sp_without (e_key e0) (l.*2 ++ [mkEntry k v x])). rewrite sp_without_none; [rewrite length_app, length_fmap; simpl; lia|].
    destruct (List.find _ _) as [e|] eqn:F; [exfalso|done]. apply find_some in F as [F1 F2].
    apply bool_decide_eq_true in F2. apply list_elem_of_In, elem_of_app in F1 as [F1|F1].
    - pose proof (rp_keys _ _ _ Hl) as Hnd. rewrite !fmap_cons in Hnd. apply NoDup_cons in Hnd as [Hnd _]. apply Hnd.
      cbn [snd]. rewrite <- F2. by apply list_elem_of_fmap_2.
    - apply list_elem_of_singleton in F1 as ->. cbn in F2. unfold sp_find in Hf'.
      assert (Hin : In e0 (sp_entries (spec_of n ((p0, e0) :: l)))) by (cbn; by left).
      apply (find_none _ _ Hf') in Hin. unfold sp_key in Hin. by rewrite bool_decide_eq_true_2 in Hin. }
  rewrite Elen, Es'. unfold sp_drop. cbn [sp_entries]. cbn [app] in Hnd. rewrite Hnd. cbn [length] in *. lia.
Qed.
End Traces.

Definition empty_heap : heap string Z := mkHeap ∅ 0.

Lemma empty_heap_ok : heap_ok empty_heap.
Proof. intros p [e He]. unfold empty_heap in He. cbn in He. by rewrite lookup_empty in He. Qed.

Definition at_time (now : Z) : nat -> Z := fun _ => now.

Definition demo_ops : list ((nat -> Z) * op (K := string) (V := Z)) :=
  [(at_time 0, OSet "a"%string 1); (at_time 1, OSet "b"%string 2); (at_time 2, OGet "a"%string);
   (at_time 3, OSet "c"%string 3); (at_time 4, OGet "b"%string); (at_time 20, OGetWithExpire "a"%string)].



(** Two entries stored at time 0 in an ageing cache. *)
Definition aged : list obs * LruCache string Z * heap string Z :=
  run [(at_time 0, OSet "a"%string 1); (at_time 0, OSet "b"%string 2)] (New 10 0 false false false) empty_heap.
Definition aged_spec : spec string Z :=
  mkSpec [mkEntry "a"%string 1 10; mkEntry "b"%string 2 10] [].

Lemma aged_impl : impl aged.1.2 aged.2 aged_spec.
Proof.
  pose proof (run_refines [(at_time 0, OSet "a"%string 1); (at_time 0, OSet "b"%string 2)]
    (New 10 0 false false false) empty_heap _ (impl_new 10 0 false false false empty_heap empty_heap_ok)) as Hr.
  fold aged in Hr. destruct aged as [[rs c] h]. by destruct Hr as (_ & Hr & _).
Qed.


Lemma ResetLRU_not_shrunk_witness :
  length (lru (setWithExpire 0 "c"%string 3 0 (ResetLRU aged.2 aged.1.2 1 0 false false false) aged.2).1) = 2%nat /\
  1 < Z.of_nat (length (lru (setWithExpire 0 "c"%string 3 0 (ResetLRU aged.2 aged.1.2 1 0 false false false) aged.2).1)).
Proof.
  split; [vm_compute; reflexivity|].
  pose proof (ResetLRU_not_shrunk 0 1 "c"%string 3 0 aged.1.2 aged.2 aged_spec aged_impl) as Hr.
  apply Hr; vm_compute; [split; done|done].
Defined.
