(* ===== verification/Arc.v ===== *)
(** * The adaptive replacement cache

    Models [common/arc/arc.go] and [common/arc/entry.go], the cache of answers that
    [cache-algorithm: arc] selects.  Four lists of entries, most recent first: [t1] and
    [t2] hold values, [b1] and [b2] remember keys whose value was dropped (ghosts).
    Entries live in a heap; an entry knows the list it is in.  [None] is a panic: a nil
    element taken from an empty list, or a division by zero. *)

From S2P Require Import Prelude Lru.
#[local] Open Scope Z_scope.

(** The four lists, as the field [ll] of an entry names them. *)
Inductive which := T1 | B1 | T2 | B2.
#[export] Instance which_eq_dec : EqDecision which.
Proof. solve_decision. Defined.

(** The element [el] is the place of the entry in its list.
    @go common/arc/entry.go:7-14 entry *)
Record arc_entry (K V : Type) := mkArcEntry { ae_key : K; ae_value : option V; ae_ll : option which; ae_ghost : bool; ae_expires : Z }.
Arguments mkArcEntry {K V} _ _ _ _ _.
Arguments ae_key {K V} _.
Arguments ae_value {K V} _.
Arguments ae_ll {K V} _.
Arguments ae_ghost {K V} _.
Arguments ae_expires {K V} _.

(** @go common/arc/arc.go:22-32 ARC *)
Record ARC (K V : Type) `{Countable K} := mkARC {
  arc_p : Z; arc_c : Z;
  t1 : list nat; b1 : list nat; t2 : list nat; b2 : list nat;
  arc_len : Z; arc_cache : gmap K nat;
  arc_ents : gmap nat (arc_entry K V); arc_next : nat
}.
Arguments mkARC {K V _ _} _ _ _ _ _ _ _ _ _ _.
Arguments arc_p {K V _ _} _.
Arguments arc_c {K V _ _} _.
Arguments t1 {K V _ _} _.
Arguments b1 {K V _ _} _.
Arguments t2 {K V _ _} _.
Arguments b2 {K V _ _} _.
Arguments arc_len {K V _ _} _.
Arguments arc_cache {K V _ _} _.
Arguments arc_ents {K V _ _} _.
Arguments arc_next {K V _ _} _.

Section Arc.
Context {K V : Type} `{Countable K}.
Implicit Types (a : ARC K V) (w : which).

(** ** Parts of the state *)

Definition arc_list w a : list nat := match w with T1 => t1 a | B1 => b1 a | T2 => t2 a | B2 => b2 a end.
Definition arc_llen w a : Z := Z.of_nat (length (arc_list w a)).
Definition set_list w (l : list nat) a : ARC K V :=
  mkARC (arc_p a) (arc_c a)
    (match w with T1 => l | _ => t1 a end) (match w with B1 => l | _ => b1 a end)
    (match w with T2 => l | _ => t2 a end) (match w with B2 => l | _ => b2 a end)
    (arc_len a) (arc_cache a) (arc_ents a) (arc_next a).
Definition set_p (p : Z) a : ARC K V :=
  mkARC p (arc_c a) (t1 a) (b1 a) (t2 a) (b2 a) (arc_len a) (arc_cache a) (arc_ents a) (arc_next a).
Definition set_len (n : Z) a : ARC K V :=
  mkARC (arc_p a) (arc_c a) (t1 a) (b1 a) (t2 a) (b2 a) n (arc_cache a) (arc_ents a) (arc_next a).
Definition set_arc_cache (m : gmap K nat) a : ARC K V :=
  mkARC (arc_p a) (arc_c a) (t1 a) (b1 a) (t2 a) (b2 a) (arc_len a) m (arc_ents a) (arc_next a).
Definition set_ents (m : gmap nat (arc_entry K V)) a : ARC K V :=
  mkARC (arc_p a) (arc_c a) (t1 a) (b1 a) (t2 a) (b2 a) (arc_len a) (arc_cache a) m (arc_next a).
Definition new_entry (e : arc_entry K V) a : nat * ARC K V :=
  (arc_next a, mkARC (arc_p a) (arc_c a) (t1 a) (b1 a) (t2 a) (b2 a) (arc_len a) (arc_cache a)
                 (<[arc_next a := e]> (arc_ents a)) (S (arc_next a))).
Definition ll_of (x : nat) a : option which := arc_ents a !! x ≫= ae_ll.
Definition upd_entry (f : arc_entry K V -> arc_entry K V) (x : nat) a : ARC K V :=
  match arc_ents a !! x with Some e => set_ents (<[x := f e]> (arc_ents a)) a | None => a end.

(** ** Entries *)

(** @go common/arc/entry.go:28-32 entry.detach *)
Definition detach (x : nat) a : ARC K V :=
  match ll_of x a with Some w => set_list w (list_remove x (arc_list w a)) a | None => a end.
Definition set_ll w (e : arc_entry K V) : arc_entry K V := mkArcEntry (ae_key e) (ae_value e) (Some w) (ae_ghost e) (ae_expires e).
(** @go common/arc/entry.go:16-20 entry.setLRU *)
Definition setLRU w (x : nat) a : ARC K V :=
  let a := upd_entry (set_ll w) x (detach x a) in set_list w (arc_list w a ++ [x]) a.
(** @go common/arc/entry.go:22-26 entry.setMRU *)
Definition setMRU w (x : nat) a : ARC K V :=
  let a := upd_entry (set_ll w) x (detach x a) in set_list w (x :: arc_list w a) a.

(** ** The cache *)

(** @go common/arc/arc.go:229-234 min *)
Definition arc_min (a b : Z) : Z := if a <? b then a else b.
(** @go common/arc/arc.go:236-241 max *)
Definition arc_max (a b : Z) : Z := if a <? b then b else a.

(** [list.Back()] of an empty list is nil, and removing it panics.
    @go common/arc/arc.go:206-211 ARC.delLRU *)
Definition delLRU w a : option (ARC K V) :=
  match list.last (arc_list w a) with
  | None => None
  | Some x =>
      let a := set_len (arc_len a - 1) (set_list w (list_remove x (arc_list w a)) a) in
      match arc_ents a !! x with
      | Some e => Some (set_arc_cache (delete (ae_key e) (arc_cache a)) a)
      | None => None
      end
  end.

Definition to_ghost (e : arc_entry K V) : arc_entry K V := mkArcEntry (ae_key e) None (ae_ll e) true (ae_expires e).
(** @go common/arc/arc.go:213-227 ARC.replace *)
Definition replace_ (ent : nat) a : option (ARC K V) :=
  if (0 <? arc_llen T1 a) &&
     ((arc_p a <? arc_llen T1 a) || (bool_decide (ll_of ent a = Some B2) && (arc_llen T1 a =? arc_p a)))
  then match list.last (t1 a) with
       | None => None
       | Some lru => Some (setMRU B1 lru (set_len (arc_len a - 1) (upd_entry to_ghost lru a)))
       end
  else match list.last (t2 a) with
       | None => None
       | Some lru => Some (setMRU B2 lru (set_len (arc_len a - 1) (upd_entry to_ghost lru a)))
       end.

(** The step of the adaptation: the quotient of the lengths panics on an empty list. *)
Definition arc_delta (num den : Z) : option Z :=
  if num <=? den then Some 1 else if den =? 0 then None else Some (num / den).

(** @go common/arc/arc.go:150-204 ARC.req *)
Definition req (ent : nat) a : option (ARC K V) :=
  let len w := arc_llen w a in
  match ll_of ent a with
  | Some T1 | Some T2 => Some (setMRU T2 ent a)
  | Some B1 =>
      d ← arc_delta (len B2) (len B1);
      a ← replace_ ent (set_p (arc_min (arc_p a + d) (arc_c a)) a);
      Some (setMRU T2 ent a)
  | Some B2 =>
      d ← arc_delta (len B1) (len B2);
      a ← replace_ ent (set_p (arc_max (arc_p a - d) 0) a);
      Some (setMRU T2 ent a)
  | None =>
      if len T1 + len B1 =? arc_c a then
        a ← (if len T1 <? arc_c a then delLRU B1 a ≫= replace_ ent else delLRU T1 a);
        Some (setMRU T1 ent a)
      else if len T1 + len B1 <? arc_c a then
        a ← (if arc_c a <=? len T1 + len T2 + len B1 + len B2 then
               (if len T1 + len T2 + len B1 + len B2 =? 2 * arc_c a then delLRU B2 a else Some a) ≫= replace_ ent
             else Some a);
        Some (setMRU T1 ent a)
      else Some (setMRU T1 ent a)
  end.

(** @go common/arc/arc.go:45-56 ARC.Clear *)
Definition arc_Clear a : ARC K V := mkARC 0 (arc_c a) [] [] [] [] 0 ∅ (arc_ents a) (arc_next a).

(** The option [WithSize] is the argument.
    @go common/arc/arc.go:35-43 New *)
Definition arc_New (size : Z) : ARC K V := mkARC 0 size [] [] [] [] 0 ∅ ∅ 0.

(** @go common/arc/arc.go:80-98 ARC.setWithExpire *)
Definition arc_setWithExpire (key : K) (value : V) (expires : Z) a : option (ARC K V) :=
  match arc_cache a !! key with
  | None =>
      let a := set_len (arc_len a + 1) a in
      let '(x, a) := new_entry (mkArcEntry key (Some value) None false expires) a in
      a ← req x a;
      Some (set_arc_cache (<[key := x]> (arc_cache a)) a)
  | Some x =>
      let ghost := match arc_ents a !! x with Some e => ae_ghost e | None => false end in
      let a := if ghost then set_len (arc_len a + 1) a else a in
      req x (upd_entry (fun e => mkArcEntry (ae_key e) (Some value) (ae_ll e) false expires) x a)
  end.
(** @go common/arc/arc.go:60-69 ARC.Set, ARC.set *)
Definition arc_Set (key : K) (value : V) a : option (ARC K V) := arc_setWithExpire key value 0 a.
(** @go common/arc/arc.go:73-78 ARC.SetWithExpire *)
Definition arc_SetWithExpire (key : K) (value : V) (expires : Z) a : option (ARC K V) := arc_setWithExpire key value expires a.

(** The entry found, and whether it counts: a ghost is moved all the same.
    @go common/arc/arc.go:113-120 ARC.get *)
Definition arc_get (key : K) a : option (option (arc_entry K V) * ARC K V) :=
  match arc_cache a !! key with
  | None => Some (None, a)
  | Some x =>
      a ← req x a;
      Some (e ← arc_ents a !! x; if ae_ghost e then None else Some e, a)
  end.
(** @go common/arc/arc.go:102-111 ARC.Get *)
Definition arc_Get (key : K) a : option (option V * ARC K V) :=
  match arc_get key a with Some (e, a) => Some (e ≫= ae_value, a) | None => None end.
(** @go common/arc/arc.go:126-136 ARC.GetWithExpire *)
Definition arc_GetWithExpire (key : K) a : option (option (option V * Z) * ARC K V) :=
  match arc_get key a with Some (e, a) => Some ((fun e => (ae_value e, ae_expires e)) <$> e, a) | None => None end.
(** @go common/arc/arc.go:140-145 ARC.Len *)
Definition arc_Len a : Z := arc_len a.
End Arc.

(** * The adaptive replacement cache: safety

    No sequence of operations on [Arc.v] panics; the four lists keep the bounds of the
    algorithm; what a lookup finds is what was last stored. *)


Section ArcProps.
Context {K V : Type} `{Countable K}.
Implicit Types (a : ARC K V) (w v : which) (e : arc_entry K V).

(** ** The invariant *)

(** Lists, entries and the map agree; the lists of ghosts hold ghosts, but for the entry
    [ex] while a store is bringing it back. *)
Record core (ex : option nat) a : Prop := {
  co_nodup : forall w, NoDup (arc_list w a);
  co_ll : forall w x, x ∈ arc_list w a -> ll_of x a = Some w;
  co_cache : forall k x, arc_cache a !! k = Some x ->
    exists e w, arc_ents a !! x = Some e /\ ae_key e = k /\ ae_ll e = Some w /\ x ∈ arc_list w a;
  co_value : forall x e, arc_ents a !! x = Some e -> ae_ghost e = false -> is_Some (ae_value e);
  co_ghost : forall w x e, ex <> Some x -> x ∈ arc_list w a -> w = B1 \/ w = B2 -> arc_ents a !! x = Some e -> ae_ghost e = true;
  co_fresh : forall x, is_Some (arc_ents a !! x) -> (x < arc_next a)%nat
}.

(** The bounds of the algorithm. *)
Record arc_bounds a : Prop := {
  ab_c : 0 < arc_c a;
  ab_p : 0 <= arc_p a <= arc_c a;
  ab_l1 : arc_llen T1 a + arc_llen B1 a <= arc_c a;
  ab_live : arc_llen T1 a + arc_llen T2 a <= arc_c a;
  ab_all : arc_llen T1 a + arc_llen B1 a + arc_llen T2 a + arc_llen B2 a <= 2 * arc_c a;
  ab_room : arc_llen T1 a + arc_llen T2 a < arc_c a -> arc_llen B1 a = 0 /\ arc_llen B2 a = 0
}.
Record arc_wf a : Prop := { wf_core : core None a; wf_bounds : arc_bounds a }.

(** What became of the entries: a value may be dropped, nothing is made up. *)
Record shrinks a a' : Prop := {
  sh_cache : arc_cache a' ⊆ arc_cache a;
  sh_c : arc_c a' = arc_c a;
  sh_next : arc_next a' = arc_next a;
  sh_ents : forall x e', arc_ents a' !! x = Some e' -> exists e, arc_ents a !! x = Some e /\
    ae_key e' = ae_key e /\ ae_expires e' = ae_expires e /\ (ae_ghost e' = true \/ (ae_ghost e' = ae_ghost e /\ ae_value e' = ae_value e))
}.
Lemma shrinks_refl a : shrinks a a.
Proof. split; [done..|]. intros x e' E. exists e'. auto 10. Qed.
Lemma shrinks_trans a b c : shrinks a b -> shrinks b c -> shrinks a c.
Proof.
  intros [A1 A2 A3 A4] [B1 B2 B3 B4]. split; [by etrans|congruence..|].
  intros x e'' E. destruct (B4 x e'' E) as (e' & E' & K1 & X1 & G1), (A4 x e' E') as (e & E0 & K2 & X2 & G2).
  exists e. split; [done|]. split; [congruence|]. split; [congruence|].
  destruct G1 as [G1|[G1 V1]]; [by left|]. destruct G2 as [G2|[G2 V2]]; [left; congruence|right; split; congruence].
Qed.

(** An entry kept as it is, wherever it is. *)
Definition keeps (x : nat) a a' : Prop :=
  forall e, arc_ents a !! x = Some e -> exists e', arc_ents a' !! x = Some e' /\
    ae_key e' = ae_key e /\ ae_value e' = ae_value e /\ ae_ghost e' = ae_ghost e /\ ae_expires e' = ae_expires e.
Lemma keeps_refl x a : keeps x a a.
Proof. intros e E. exists e. auto 10. Qed.
Lemma keeps_trans x a b c : keeps x a b -> keeps x b c -> keeps x a c.
Proof.
  intros A B e E. destruct (A e E) as (e1 & E1 & ? & ? & ? & ?). destruct (B e1 E1) as (e2 & E2 & ? & ? & ? & ?).
  exists e2. split; [done|]. split_and!; congruence.
Qed.

(** ** Lists *)

Lemma arc_list_set w v (l : list nat) a : arc_list v (set_list w l a) = if decide (v = w) then l else arc_list v a.
Proof. by destruct w, v. Qed.
Lemma list_remove_elem (x y : nat) l : y ∈ list_remove x l <-> y ∈ l /\ x <> y.
Proof. unfold list_remove. rewrite !list_elem_of_In, filter_In, negb_true_iff. by rewrite Nat.eqb_neq. Qed.
Lemma list_remove_NoDup x l : NoDup l -> NoDup (list_remove x l).
Proof. intros Hn. apply NoDup_ListNoDup in Hn. apply NoDup_ListNoDup. by apply List.NoDup_filter. Qed.
Lemma list_remove_notin x l : x ∉ l -> list_remove x l = l.
Proof.
  induction l as [|y l IH]; [done|]. intros Hx. apply not_elem_of_cons in Hx as [Hn Hx]. cbn.
  rewrite (proj2 (Nat.eqb_neq x y) Hn). cbn. f_equal. by apply IH.
Qed.
Lemma list_remove_length x l : NoDup l -> x ∈ l -> Z.of_nat (length (list_remove x l)) = Z.of_nat (length l) - 1.
Proof.
  induction l as [|y l IH]; [by intros _ ?%elem_of_nil|]. intros [Hy Hn]%NoDup_cons Hx. cbn.
  destruct (decide (x = y)) as [<-|Hne].
  - rewrite Nat.eqb_refl. cbn. fold (list_remove x l). rewrite list_remove_notin by done. lia.
  - rewrite (proj2 (Nat.eqb_neq x y) Hne). cbn. fold (list_remove x l). apply elem_of_cons in Hx as [->|Hx]; [done|].
    specialize (IH Hn Hx). lia.
Qed.
Lemma last_some (l : list nat) : l <> [] -> exists x, list.last l = Some x /\ x ∈ l.
Proof.
  intros Hl. destruct (list.last l) as [x|] eqn:E; [|by apply last_None in E].
  exists x. split; [done|]. apply last_Some in E as [l' ->]. apply elem_of_app. right. by left.
Qed.
Lemma llen_nonempty w a : 0 < arc_llen w a -> arc_list w a <> [].
Proof. unfold arc_llen. by destruct (arc_list w a). Qed.

(** ** Moves *)

Lemma ents_set_list w l a : arc_ents (set_list w l a) = arc_ents a. Proof. done. Qed.
Lemma arc_list_upd f x v a : arc_list v (upd_entry f x a) = arc_list v a.
Proof. unfold upd_entry. by destruct (arc_ents a !! x). Qed.
Lemma upd_lookup f x y a : arc_ents (upd_entry f x a) !! y = if decide (y = x) then f <$> arc_ents a !! x else arc_ents a !! y.
Proof.
  unfold upd_entry. destruct (arc_ents a !! x) as [e|] eqn:E; cbn; case_decide as D; try subst; try done.
  - apply lookup_insert_eq. - by rewrite lookup_insert_ne.
Qed.
(** The parts that no move touches. *)
Definition same_parts a a' : Prop :=
  arc_p a' = arc_p a /\ arc_c a' = arc_c a /\ arc_cache a' = arc_cache a /\ arc_next a' = arc_next a /\ arc_len a' = arc_len a.
Lemma upd_parts f x a : same_parts a (upd_entry f x a).
Proof. unfold upd_entry. by destruct (arc_ents a !! x). Qed.
Lemma setMRU_parts w x a : same_parts a (setMRU w x a).
Proof. unfold setMRU, detach, upd_entry, same_parts. destruct (ll_of x a); cbn; by destruct (arc_ents a !! x). Qed.

(** The lists after a move: [x] leaves the list it is in and heads another. *)
Lemma setMRU_list {ex} w v x a : core ex a -> (exists u, x ∈ arc_list u a) \/ ll_of x a = None ->
  arc_list v (setMRU w x a) = (if decide (v = w) then [x] else []) ++ list_remove x (arc_list v a).
Proof.
  intros Hc Hx. unfold setMRU. rewrite arc_list_set, !arc_list_upd. unfold detach.
  destruct (ll_of x a) as [u|] eqn:El.
  - assert (Hv : forall v, v <> u -> list_remove x (arc_list v a) = arc_list v a).
    { intros v' Hne. apply list_remove_notin. intros Hin. apply (co_ll _ a Hc) in Hin. congruence. }
    repeat case_decide; subst; rewrite ?arc_list_set; repeat case_decide; subst; try done; cbn; by rewrite ?Hv.
  - assert (Hv : forall v, list_remove x (arc_list v a) = arc_list v a).
    { intros v'. apply list_remove_notin. intros Hin. apply (co_ll _ a Hc) in Hin. congruence. }
    repeat case_decide; subst; cbn; by rewrite ?Hv.
Qed.
Lemma setMRU_ents w x y a :
  arc_ents (setMRU w x a) !! y = if decide (y = x) then set_ll w <$> arc_ents a !! x else arc_ents a !! y.
Proof.
  unfold setMRU. rewrite ents_set_list, upd_lookup. unfold detach. by destruct (ll_of x a).
Qed.
Lemma setMRU_elem {ex} w v x y a : core ex a -> (exists u, x ∈ arc_list u a) \/ ll_of x a = None ->
  y ∈ arc_list v (setMRU w x a) <-> (v = w /\ y = x) \/ (y <> x /\ y ∈ arc_list v a).
Proof.
  intros Hc Hx. rewrite setMRU_list by done. rewrite elem_of_app, list_remove_elem.
  case_decide as D; [rewrite list_elem_of_singleton|rewrite elem_of_nil]; naive_solver.
Qed.
Lemma setMRU_keeps w x y a : keeps y a (setMRU w x a).
Proof. intros e E. rewrite setMRU_ents. case_decide; subst; rewrite ?E; cbn; eauto 10. Qed.
Lemma setMRU_shrinks w x a : shrinks a (setMRU w x a).
Proof.
  destruct (setMRU_parts w x a) as (_ & E2 & E3 & E4 & _). split; [by rewrite E3|done..|].
  intros y e'. rewrite setMRU_ents. case_decide; subst; [|intros ->; eauto 10].
  destruct (arc_ents a !! x) as [e|]; [|done]. intros [= <-]. cbn. eauto 10.
Qed.

(** A move to a list of values, or of a ghost, keeps the structure. *)
Lemma setMRU_core {ex} w x a e : core ex a -> arc_ents a !! x = Some e -> (exists u, x ∈ arc_list u a) \/ ll_of x a = None ->
  (w = B1 \/ w = B2 -> ae_ghost e = true) -> core ex (setMRU w x a).
Proof.
  intros Hc He Hx Hg. pose proof (setMRU_parts w x a) as (_ & _ & P3 & P4 & _). split.
  - intros v. rewrite setMRU_list by done. apply NoDup_app. split; [case_decide; [apply NoDup_singleton|apply NoDup_nil_2]|].
    split; [|by apply list_remove_NoDup, Hc].
    intros y Hy. rewrite list_remove_elem. case_decide; [apply list_elem_of_singleton in Hy as ->; naive_solver|by apply elem_of_nil in Hy].
  - intros v y Hy. apply (setMRU_elem w v x y a Hc Hx) in Hy. unfold ll_of. rewrite setMRU_ents.
    destruct Hy as [[-> ->]|[Hne Hy]]; [rewrite decide_True by done; by rewrite He|rewrite decide_False by done; by apply Hc].
  - intros k y. rewrite P3. intros Hk. destruct (co_cache _ a Hc k y Hk) as (e0 & u & E0 & Ek & El & Hin).
    destruct (decide (y = x)) as [->|Hne].
    + exists (set_ll w e0), w. rewrite setMRU_ents, decide_True, E0 by done. split_and!; [done..|]. apply (setMRU_elem w w x x a Hc Hx). by left.
    + exists e0, u. rewrite setMRU_ents, decide_False by done. split_and!; [done..|]. apply (setMRU_elem w u x y a Hc Hx). by right.
  - intros y e0. rewrite setMRU_ents. case_decide; [|apply Hc]. subst. rewrite He. intros [= <-]. cbn. by apply Hc with x.
  - intros v y e0 Hex Hy Hv. apply (setMRU_elem w v x y a Hc Hx) in Hy. rewrite setMRU_ents.
    destruct Hy as [[-> ->]|[Hne Hy]]; [rewrite decide_True, He by done; intros [= <-]; cbn; auto|].
    rewrite decide_False by done. by apply (co_ghost _ a Hc v).
  - intros y [e0 Hy]. rewrite P4. apply Hc. rewrite setMRU_ents in Hy. case_decide; subst; [by eexists|by eexists].
Qed.

(** ** Lengths *)

Definition ind v w : Z := match v, w with T1, T1 | B1, B1 | T2, T2 | B2, B2 => 1 | _, _ => 0 end.
Lemma ind_spec v w : ind v w = if decide (v = w) then 1 else 0.
Proof. by destruct v, w. Qed.

Lemma setMRU_llen {ex} w v u x a : core ex a -> x ∈ arc_list u a -> arc_llen v (setMRU w x a) = arc_llen v a - ind v u + ind v w.
Proof.
  intros Hc Hx. unfold arc_llen. rewrite setMRU_list by eauto. rewrite length_app, !ind_spec.
  destruct (decide (v = u)) as [->|Hne].
  - rewrite Nat2Z.inj_add, (list_remove_length x) by (done || apply Hc). case_decide; cbn [length]; lia.
  - rewrite list_remove_notin by (intros Hin; apply (co_ll _ a Hc) in Hin; apply (co_ll _ a Hc) in Hx; congruence).
    case_decide; cbn [length]; lia.
Qed.
Lemma setMRU_llen_new {ex} w v x a : core ex a -> ll_of x a = None -> arc_llen v (setMRU w x a) = arc_llen v a + ind v w.
Proof.
  intros Hc Hx. unfold arc_llen. rewrite setMRU_list by eauto. rewrite length_app, ind_spec.
  rewrite list_remove_notin by (intros Hin; apply (co_ll _ a Hc) in Hin; congruence). case_decide; cbn [length]; lia.
Qed.

(** ** Dropping the value of an entry *)

Lemma ghost_core {ex} x a : core ex a -> (exists u, x ∈ arc_list u a) -> core ex (upd_entry to_ghost x a).
Proof.
  intros Hc Hx. pose proof (upd_parts to_ghost x a) as (_ & _ & P3 & P4 & _). split.
  - intros w. rewrite arc_list_upd. apply Hc.
  - intros w y. rewrite arc_list_upd. intros Hy. apply (co_ll _ a Hc) in Hy. unfold ll_of in *. rewrite upd_lookup.
    case_decide; [subst|done]. by destruct (arc_ents a !! x).
  - intros k y. rewrite P3. intros Hk. destruct (co_cache _ a Hc k y Hk) as (e & u & E & Ek & El & Hin).
    rewrite upd_lookup. case_decide; [subst; rewrite E; exists (to_ghost e), u|exists e, u]; by rewrite arc_list_upd.
  - intros y e. rewrite upd_lookup. case_decide; [|apply Hc]. subst. destruct (arc_ents a !! x) as [e0|]; [|done].
    by intros [= <-].
  - intros w y e. rewrite arc_list_upd, upd_lookup. case_decide; [|apply Hc]. destruct (arc_ents a !! x); [|done].
    by intros _ _ _ [= <-].
  - intros y Hy. rewrite P4. apply Hc. rewrite upd_lookup in Hy. case_decide; [|done]. subst.
    destruct (arc_ents a !! x); [by eexists|by destruct Hy].
Qed.
Lemma ghost_shrinks x a : shrinks a (upd_entry to_ghost x a).
Proof.
  pose proof (upd_parts to_ghost x a) as (_ & P2 & P3 & P4 & _). split; [by rewrite P3|done..|].
  intros y e'. rewrite upd_lookup. case_decide; [subst|intros ->; eauto 10].
  destruct (arc_ents a !! x) as [e|]; [|done]. intros [= <-]. cbn. eauto 10.
Qed.
Lemma ghost_keeps x y a : y <> x -> keeps y a (upd_entry to_ghost x a).
Proof. intros Hne e E. rewrite upd_lookup, decide_False by done. eauto 10. Qed.

(** The same state with another count. *)
Lemma set_len_core {ex} n a : core ex a -> core ex (set_len n a).
Proof. intros [C1 C2 C3 C4 C5 C6]. by split. Qed.
Lemma set_p_core {ex} n a : core ex a -> core ex (set_p n a).
Proof. intros [C1 C2 C3 C4 C5 C6]. by split. Qed.
Lemma set_len_shrinks n a : shrinks a (set_len n a).
Proof. split; [done..|]. cbn. eauto 10. Qed.
Lemma set_p_shrinks n a : shrinks a (set_p n a).
Proof. split; [done..|]. cbn. eauto 10. Qed.

(** One half of [replace_]: the least recent entry of [u] becomes a ghost in [w]. *)
Definition ghost_move w (x : nat) a : ARC K V := setMRU w x (set_len (arc_len a - 1) (upd_entry to_ghost x a)).
Lemma ghost_move_ok {ex} u w x a : core ex a -> x ∈ arc_list u a -> w = B1 \/ w = B2 ->
  core ex (ghost_move w x a) /\ shrinks a (ghost_move w x a) /\ arc_p (ghost_move w x a) = arc_p a /\
  arc_cache (ghost_move w x a) = arc_cache a /\
  (forall v, arc_llen v (ghost_move w x a) = arc_llen v a - ind v u + ind v w) /\
  (forall y, y <> x -> keeps y a (ghost_move w x a) /\ ll_of y (ghost_move w x a) = ll_of y a /\
     forall v, y ∈ arc_list v a -> y ∈ arc_list v (ghost_move w x a)).
Proof.
  intros Hc Hx Hw. set (g := set_len (arc_len a - 1) (upd_entry to_ghost x a)).
  assert (Hg : core ex g) by (apply set_len_core, ghost_core; eauto).
  assert (Hxg : x ∈ arc_list u g) by (change (x ∈ arc_list u (upd_entry to_ghost x a)); by rewrite arc_list_upd).
  pose proof (co_ll _ a Hc u x Hx) as Hl. unfold ll_of in Hl. destruct (arc_ents a !! x) as [e|] eqn:He; [|done].
  assert (Heg : arc_ents g !! x = Some (to_ghost e)).
  { change (arc_ents (upd_entry to_ghost x a) !! x = Some (to_ghost e)). by rewrite upd_lookup, decide_True, He. }
  change (ghost_move w x a) with (setMRU w x g). destruct (setMRU_parts w x g) as (P1 & P2 & P3 & _).
  destruct (upd_parts to_ghost x a) as (Q1 & Q2 & Q3 & _). split_and!.
  - eapply setMRU_core; eauto.
  - eapply shrinks_trans; [eapply shrinks_trans; [apply ghost_shrinks|apply set_len_shrinks]|apply setMRU_shrinks].
  - by rewrite P1. - by rewrite P3.
  - intros v. rewrite (setMRU_llen w v u) by done. unfold arc_llen.
    change (arc_list v g) with (arc_list v (upd_entry to_ghost x a)). by rewrite arc_list_upd.
  - intros y Hne. split_and!.
    + apply (keeps_trans y a g); [exact (ghost_keeps x y a Hne)|apply setMRU_keeps].
    + unfold ll_of. rewrite setMRU_ents, decide_False by done.
      change (arc_ents g) with (arc_ents (upd_entry to_ghost x a)). by rewrite upd_lookup, decide_False.
    + intros v Hy. apply (setMRU_elem w v x y g Hg); [eauto|]. right. split; [done|].
      change (arc_list v g) with (arc_list v (upd_entry to_ghost x a)). by rewrite arc_list_upd.
Qed.

(** An entry brought back to a list of values is no exception any more. *)
Lemma setMRU_back w x a e : core (Some x) a -> arc_ents a !! x = Some e -> (exists u, x ∈ arc_list u a) \/ ll_of x a = None ->
  w = T1 \/ w = T2 -> core None (setMRU w x a).
Proof.
  intros Hc He Hx Hw. assert (Hc' : core (Some x) (setMRU w x a)).
  { eapply setMRU_core; [done|exact He|done|]. destruct Hw as [-> | ->]; by intros [?|?]. }
  destruct Hc' as [C1 C2 C3 C4 C5 C6]. split; [done..| |done]. intros v y e0 _ Hy Hv.
  destruct (decide (y = x)) as [->|Hne]; [|apply (C5 v); [congruence|done..]].
  apply (setMRU_elem w v x x a Hc Hx) in Hy as [[-> _]|[? _]]; [|done]. destruct Hw as [-> | ->], Hv as [?|?]; done.
Qed.
Lemma core_weaken ex a : core None a -> core ex a.
Proof. intros [C1 C2 C3 C4 C5 C6]. split; [done..| |done]. intros w x e _. by apply C5. Qed.

(** What the two steps that make room leave alone: the entry asked for, and the bounds. *)
Record frame (ent : nat) a a' : Prop := {
  fr_core : core (Some ent) a';
  fr_shrinks : shrinks a a';
  fr_p : arc_p a' = arc_p a;
  fr_keeps : keeps ent a a';
  fr_ll : ll_of ent a' = ll_of ent a;
  fr_in : forall w, ent ∈ arc_list w a -> ent ∈ arc_list w a';
  fr_cache : forall k, arc_cache a !! k = Some ent -> arc_cache a' !! k = Some ent
}.
Lemma frame_refl ent a : core (Some ent) a -> frame ent a a.
Proof. intros Hc. split; auto using shrinks_refl, keeps_refl. Qed.
Lemma frame_trans ent a b c : frame ent a b -> frame ent b c -> frame ent a c.
Proof.
  intros [A1 A2 A3 A4 A5 A6 A7] [X1 X2 X3 X4 X5 X6 X7].
  split; [done|by eapply shrinks_trans|congruence|by eapply keeps_trans|congruence|auto|auto].
Qed.
Lemma frame_c ent a a' : frame ent a a' -> arc_c a' = arc_c a.
Proof. intros Hf. apply (fr_shrinks _ _ _ Hf). Qed.

(** Making room: one value fewer, one ghost more; [ent] is no value. *)
Lemma replace_ok ent a :
  core (Some ent) a -> ent ∉ t1 a -> ent ∉ t2 a -> 0 < arc_llen T2 a \/ arc_p a < arc_llen T1 a \/ (ll_of ent a = Some B2 /\ 0 < arc_llen T1 a /\ arc_llen T1 a = arc_p a) ->
  0 <= arc_p a ->
  exists a' u w, replace_ ent a = Some a' /\ frame ent a a' /\ (u, w) ∈ [(T1, B1); (T2, B2)] /\
    forall v, arc_llen v a' = arc_llen v a - ind v u + ind v w.
Proof.
  intros Hc H1 H2 Hroom Hp. unfold replace_.
  assert (Hmove : forall u w, (u, w) ∈ [(T1, B1); (T2, B2)] -> 0 < arc_llen u a ->
    exists a' u' w', match list.last (arc_list u a) with None => None | Some lru => Some (ghost_move w lru a) end = Some a' /\
      frame ent a a' /\ (u', w') ∈ [(T1, B1); (T2, B2)] /\ forall v, arc_llen v a' = arc_llen v a - ind v u' + ind v w').
  { intros u w Huw Hlen. destruct (last_some _ (llen_nonempty u a Hlen)) as (x & -> & Hx).
    assert (Hw : w = B1 \/ w = B2) by (rewrite !elem_of_cons in Huw; set_solver).
    assert (Hne : ent <> x) by (intros ->; rewrite !elem_of_cons in Huw; destruct Huw as [[= -> ->]|[[= -> ->]|?%elem_of_nil]]; auto).
    destruct (ghost_move_ok u w x a Hc Hx Hw) as (G1 & G2 & G3 & G4 & G5 & G6).
    destruct (G6 ent Hne) as (K1 & K2 & K3). exists (ghost_move w x a), u, w. split_and!; [done| |done..]. split; try done. by rewrite G4. }
  destruct (_ && _) eqn:Eb.
  - apply andb_true_iff in Eb as [Eb _]. apply Z.ltb_lt in Eb. apply (Hmove T1 B1); [by left|done].
  - apply (Hmove T2 B2); [by right; left|]. apply andb_false_iff in Eb as [Eb|Eb].
    + apply Z.ltb_ge in Eb. lia.
    + apply orb_false_iff in Eb as [E1 E2]. apply Z.ltb_ge in E1. destruct Hroom as [?|[?|(Hl & ? & Heq)]]; [done|lia|].
      rewrite Hl, bool_decide_eq_true_2, Heq, Z.eqb_refl in E2 by done. done.
Qed.

(** Forgetting the oldest of a list. *)
Lemma delLRU_ok ent w a : core (Some ent) a -> (forall u, ent ∉ arc_list u a) -> 0 < arc_llen w a ->
  exists a', delLRU w a = Some a' /\ frame ent a a' /\ (forall v, arc_llen v a' = arc_llen v a - ind v w) /\
    arc_ents a' = arc_ents a.
Proof.
  intros Hc Hent Hlen. unfold delLRU. destruct (last_some _ (llen_nonempty w a Hlen)) as (x & -> & Hx). cbv zeta.
  pose proof (co_ll _ a Hc w x Hx) as Hl. unfold ll_of in Hl. cbn [arc_ents set_len set_list].
  destruct (arc_ents a !! x) as [e|] eqn:He; [|done]. eexists. split; [done|].
  assert (Hlist : forall v, arc_list v (set_arc_cache (delete (ae_key e) (arc_cache (set_len (arc_len a - 1) (set_list w (list_remove x (arc_list w a)) a))))
    (set_len (arc_len a - 1) (set_list w (list_remove x (arc_list w a)) a))) = if decide (v = w) then list_remove x (arc_list w a) else arc_list v a).
  { intros v. by destruct v, w. }
  split; [|split; [|done]].
  - split.
    + split; [| | |apply Hc| |apply Hc]; cbn [arc_cache set_arc_cache arc_ents set_len set_list arc_next].
      * intros v. rewrite Hlist. case_decide; [apply list_remove_NoDup|]; apply Hc.
      * intros v y. rewrite Hlist. intros Hy. apply (co_ll _ a Hc). case_decide; [subst; by apply list_remove_elem in Hy as [? _]|done].
      * intros k y Hk. apply lookup_delete_Some in Hk as [Hne Hk]. destruct (co_cache _ a Hc k y Hk) as (e0 & u & E0 & Ek & El & Hin).
        exists e0, u. split_and!; [done..|]. rewrite Hlist. case_decide; [subst|done]. apply list_remove_elem. split; [done|].
        intros ->. congruence.
      * intros v y e0 Hex. rewrite Hlist. intros Hy. apply (co_ghost _ a Hc); [done|]. case_decide; [subst; by apply list_remove_elem in Hy as [? _]|done].
    + split; [apply delete_subseteq|done|done|]. cbn. eauto 10.
    + done.
    + intros e1 E1. exists e1. auto 10.
    + done.
    + intros u Hu. by apply Hent in Hu.
    + intros k Hk. destruct (co_cache _ a Hc k ent Hk) as (e0 & u & _ & _ & _ & Hin). by apply Hent in Hin.
  - intros v. unfold arc_llen. rewrite Hlist, ind_spec. case_decide; [subst; apply list_remove_length; [apply Hc|done]|lia].
Qed.

(** ** A request *)

(** An entry that is in a list, or a new one, in none. *)
Definition known ent a : Prop := (exists w, ent ∈ arc_list w a) \/ ll_of ent a = None.
Lemma llen_nonneg w a : 0 <= arc_llen w a.
Proof. unfold arc_llen. lia. Qed.
Lemma in_llen x w a : x ∈ arc_list w a -> 0 < arc_llen w a.
Proof. unfold arc_llen. destruct (arc_list w a); [by intros ?%elem_of_nil|cbn [length]; lia]. Qed.
Lemma new_notin ent a : core (Some ent) a -> ll_of ent a = None -> forall w, ent ∉ arc_list w a.
Proof. intros Hc Hn w Hin. apply (co_ll _ a Hc) in Hin. congruence. Qed.

(** What [req] promises for its entry. *)
Record served ent a a' : Prop := {
  sv_wf : arc_wf a';
  sv_shrinks : shrinks a a';
  sv_keeps : keeps ent a a';
  sv_cache : forall k, arc_cache a !! k = Some ent -> arc_cache a' !! k = Some ent;
  sv_in : ent ∈ t1 a' \/ ent ∈ t2 a'
}.

(** The last step of [req] moves the entry to a list of values. *)
Lemma finish ent w a a1 :
  frame ent a a1 -> is_Some (arc_ents a !! ent) -> known ent a1 -> w = T1 \/ w = T2 -> arc_bounds (setMRU w ent a1) ->
  served ent a (setMRU w ent a1).
Proof.
  intros [F1 F2 F3 F4 F5 F6 F7] [e He] Hk Hw Hb. destruct (F4 e He) as (e1 & He1 & _).
  destruct (setMRU_parts w ent a1) as (_ & _ & P3 & _). split.
  - split; [|done]. eapply setMRU_back; [done|exact He1|destruct Hk; eauto|done].
  - eapply shrinks_trans; [exact F2|apply setMRU_shrinks].
  - eapply keeps_trans; [exact F4|apply setMRU_keeps].
  - intros k Hk'. rewrite P3. auto.
  - assert (Hin : ent ∈ arc_list w (setMRU w ent a1)) by (apply (setMRU_elem w w ent ent a1 F1); [destruct Hk; eauto|by left]).
    destruct Hw as [-> | ->]; [by left|by right].
Qed.

(** The bounds of a state with the lengths of another, shifted. *)
Ltac arc_lens H := pose proof (H T1); pose proof (H B1); pose proof (H T2); pose proof (H B2); cbn [ind] in *.
Ltac arc_nonneg a :=
  pose proof (llen_nonneg T1 a); pose proof (llen_nonneg B1 a); pose proof (llen_nonneg T2 a); pose proof (llen_nonneg B2 a).

(** A hit on a value. *)
Lemma req_hit ent w a : core (Some ent) a -> arc_bounds a -> is_Some (arc_ents a !! ent) -> ent ∈ arc_list w a -> w = T1 \/ w = T2 ->
  served ent a (setMRU T2 ent a).
Proof.
  intros Hc [? ? ? ? ? ?] He Hin Hw. apply finish; [by apply frame_refl|done|left; eauto|by right|].
  pose proof (fun v => setMRU_llen T2 v w ent a Hc Hin) as Hl. destruct (setMRU_parts T2 ent a) as (P1 & P2 & _).
  destruct Hw as [-> | ->]; arc_lens Hl; split; rewrite ?P1, ?P2; lia.
Qed.

Lemma arc_delta_pos num den : 0 <= num -> 0 < den -> exists d, arc_delta num den = Some d /\ 0 < d.
Proof.
  intros Hn Hd. unfold arc_delta. destruct (num <=? den) eqn:E; [by exists 1|]. apply Z.leb_gt in E.
  rewrite (proj2 (Z.eqb_neq den 0)) by lia. eexists. split; [done|]. apply Z.div_str_pos. lia.
Qed.

(** A hit on a ghost: the target size moves, room is made, and the entry joins [t2]. *)
Lemma req_ghost ent w p a : core (Some ent) a -> arc_bounds a -> is_Some (arc_ents a !! ent) -> ent ∈ arc_list w a -> w = B1 \/ w = B2 ->
  0 <= p <= arc_c a ->
  exists a1, replace_ ent (set_p p a) = Some a1 /\ served ent a (setMRU T2 ent a1).
Proof.
  intros Hc [? ? ? ? ? ?] He Hin Hw Hp. pose proof (co_ll _ a Hc w ent Hin) as Hll. pose proof (in_llen ent w a Hin) as Hpos.
  arc_nonneg a.
  assert (Hn : forall u, u <> w -> ent ∉ arc_list u a) by (intros u Hne Hu; apply (co_ll _ a Hc) in Hu; congruence).
  destruct (replace_ok ent (set_p p a)) as (a1 & u & w' & E & Hf & Huw & Hlen); try done.
  - by apply set_p_core. - apply (Hn T1). by destruct Hw as [-> | ->]. - apply (Hn T2). by destruct Hw as [-> | ->].
  - change (arc_llen ?v (set_p p a)) with (arc_llen v a). change (arc_p (set_p p a)) with p.
    destruct (decide (0 < arc_llen T2 a)); [by left|right]. destruct Hw as [-> | ->]; lia || (assert (p = arc_c a \/ p < arc_c a) as [->|] by lia).
    + right. change (ll_of ent (set_p (arc_c a) a)) with (ll_of ent a). split; [done|lia].
    + left. lia.
  - change (arc_p (set_p p a)) with p. lia.
  - exists a1. split; [done|].  pose proof (fr_core _ _ _ Hf) as Hc1. pose proof (fr_in _ _ _ Hf w Hin) as Hin1.
    pose proof (fun v => setMRU_llen T2 v w ent a1 Hc1 Hin1) as Hl. destruct (setMRU_parts T2 ent a1) as (P1 & P2 & _).
    rewrite (fr_p _ _ _ Hf) in P1. rewrite (frame_c _ _ _ Hf) in P2. cbn [arc_p arc_c set_p] in P1, P2.
    assert (Hb : arc_bounds (setMRU T2 ent a1)).
    { change (forall v, arc_llen v a1 = arc_llen v a - ind v u + ind v w') in Hlen.
      arc_lens Hlen. arc_nonneg a1. rewrite !elem_of_cons in Huw.
      destruct Huw as [[= -> ->]|[[= -> ->]|?%elem_of_nil]], Hw as [-> | ->]; arc_lens Hl; split; rewrite ?P1, ?P2; lia. }
    destruct (finish ent T2 (set_p p a) a1 Hf He (or_introl (ex_intro _ w Hin1)) (or_intror eq_refl) Hb) as [S1 S2 S3 S4 S5].
    split; [done| |exact S3|exact S4|done]. eapply shrinks_trans; [apply (set_p_shrinks p)|exact S2].
Qed.

(** Room for a new entry: at most one ghost is forgotten and one value dropped. *)
Lemma make_room ent w a :
  core (Some ent) a -> ll_of ent a = None -> 0 <= arc_p a -> 0 < arc_llen w a ->
  0 < arc_llen T2 a \/ arc_p a < arc_llen T1 a -> w = B1 \/ w = B2 ->
  exists a1 u v, delLRU w a ≫= replace_ ent = Some a1 /\ frame ent a a1 /\ (u, v) ∈ [(T1, B1); (T2, B2)] /\
    forall x, arc_llen x a1 = arc_llen x a - ind x w - ind x u + ind x v.
Proof.
  intros Hc Hn Hp Hpos Hroom Hw. pose proof (new_notin ent a Hc Hn) as Hni.
  destruct (delLRU_ok ent w a Hc Hni Hpos) as (a0 & -> & Hf & Hl & He). cbn [mbind option_bind].
  destruct (replace_ok ent a0) as (a1 & u & v & E & Hf1 & Huv & Hl1).
  - apply Hf. - intros Hin. apply (co_ll _ a0 (fr_core _ _ _ Hf) T1) in Hin. rewrite (fr_ll _ _ _ Hf) in Hin. congruence.
  - intros Hin. apply (co_ll _ a0 (fr_core _ _ _ Hf) T2) in Hin. rewrite (fr_ll _ _ _ Hf) in Hin. congruence.
  - rewrite (fr_p _ _ _ Hf). destruct Hw as [-> | ->]; arc_lens Hl; destruct Hroom; [left|right; left|left|right; left]; lia.
  - by rewrite (fr_p _ _ _ Hf).
  - exists a1, u, v. split; [done|]. split; [by eapply frame_trans|]. split; [done|]. intros x. rewrite Hl1, Hl. lia.
Qed.

Lemma req_new ent a : core (Some ent) a -> arc_bounds a -> is_Some (arc_ents a !! ent) -> ll_of ent a = None ->
  exists a', req ent a = Some a' /\ served ent a a'.
Proof.
  intros Hc [? ? ? ? ? ?] He Hn. arc_nonneg a. unfold req. rewrite Hn. cbv zeta.
  assert (Hfin : forall a1, frame ent a a1 ->
    (arc_llen T1 a1 + arc_llen B1 a1 < arc_c a /\ arc_llen T1 a1 + arc_llen T2 a1 < arc_c a /\
     arc_llen T1 a1 + arc_llen B1 a1 + arc_llen T2 a1 + arc_llen B2 a1 < 2 * arc_c a /\
     (arc_llen T1 a1 + arc_llen T2 a1 + 1 < arc_c a -> arc_llen B1 a1 = 0 /\ arc_llen B2 a1 = 0)) ->
    served ent a (setMRU T1 ent a1)).
  { intros a1 Hf Hl1. assert (Hn1 : ll_of ent a1 = None) by (by rewrite (fr_ll _ _ _ Hf)).
    pose proof (fun v => setMRU_llen_new T1 v ent a1 (fr_core _ _ _ Hf) Hn1) as Hl. arc_nonneg a1.
    destruct (setMRU_parts T1 ent a1) as (P1 & P2 & _). rewrite (fr_p _ _ _ Hf) in P1. rewrite (frame_c _ _ _ Hf) in P2.
    apply finish; [done..|by right|by left|]. arc_lens Hl. split; rewrite ?P1, ?P2; lia. }
  destruct (_ =? arc_c a) eqn:E1; [apply Z.eqb_eq in E1|apply Z.eqb_neq in E1; rewrite (proj2 (Z.ltb_lt _ _)) by lia].
  - destruct (arc_llen T1 a <? arc_c a) eqn:E2; [apply Z.ltb_lt in E2|apply Z.ltb_ge in E2].
    + destruct (make_room ent B1 a) as (a1 & u & v & -> & Hf & Huv & Hl); [done|done|lia|lia| |by left|].
      { destruct (decide (0 < arc_llen T2 a)); [by left|lia]. }
      eexists. split; [done|]. apply Hfin; [done|]. arc_lens Hl. rewrite !elem_of_cons in Huv.
      destruct Huv as [[= -> ->]|[[= -> ->]|?%elem_of_nil]]; [..|done]; arc_nonneg a1; cbn [ind] in *; lia.
    + destruct (delLRU_ok ent T1 a Hc (new_notin ent a Hc Hn)) as (a1 & -> & Hf & Hl & _); [lia|].
      eexists. split; [done|]. apply Hfin; [done|]. arc_lens Hl. lia.
  - destruct (arc_c a <=? _) eqn:E2; [apply Z.leb_le in E2|apply Z.leb_gt in E2].
    2:{ eexists. split; [done|]. apply Hfin; [by apply frame_refl|]. lia. }
    destruct (_ =? 2 * arc_c a) eqn:E3; [apply Z.eqb_eq in E3|apply Z.eqb_neq in E3].
    + destruct (make_room ent B2 a) as (a1 & u & v & -> & Hf & Huv & Hl); [done|done|lia|lia| |by right|].
      { destruct (decide (0 < arc_llen T2 a)); [by left|lia]. }
      eexists. split; [done|]. apply Hfin; [done|]. arc_lens Hl. rewrite !elem_of_cons in Huv.
      destruct Huv as [[= -> ->]|[[= -> ->]|?%elem_of_nil]]; [..|done]; arc_nonneg a1; cbn [ind] in *; lia.
    + cbn [mbind option_bind]. destruct (replace_ok ent a) as (a1 & u & v & -> & Hf & Huv & Hl);
        [done|by apply (new_notin ent a Hc Hn T1)|by apply (new_notin ent a Hc Hn T2)| |lia|].
      { destruct (decide (0 < arc_llen T2 a)); [by left|right; left; lia]. }
      eexists. split; [done|]. apply Hfin; [done|]. arc_lens Hl. rewrite !elem_of_cons in Huv.
      destruct Huv as [[= -> ->]|[[= -> ->]|?%elem_of_nil]]; [..|done]; arc_nonneg a1; cbn [ind] in *; lia.
Qed.

(** [req] never panics, keeps the invariant and serves its entry. *)
Lemma req_ok ent a : core (Some ent) a -> arc_bounds a -> is_Some (arc_ents a !! ent) -> known ent a ->
  exists a', req ent a = Some a' /\ served ent a a'.
Proof.
  intros Hc Hb He [[w Hin]|Hn]; [|by apply req_new]. pose proof (co_ll _ a Hc w ent Hin) as Hll.
  destruct Hb as [? ? ? ? ? ?] eqn:Eb; clear Eb. pose proof (in_llen ent w a Hin) as Hpos. arc_nonneg a.
  unfold req. rewrite Hll. cbv zeta. destruct w.
  - eexists. split; [done|]. apply (req_hit ent T1); auto.
  - destruct (arc_delta_pos (arc_llen B2 a) (arc_llen B1 a)) as (d & -> & Hd); [lia|done|]. cbn [mbind option_bind].
    destruct (req_ghost ent B1 (arc_min (arc_p a + d) (arc_c a)) a) as (a1 & -> & Hs); [done..|by left| |by eexists].
    unfold arc_min. destruct (_ <? _) eqn:E; [apply Z.ltb_lt in E|]; lia.
  - eexists. split; [done|]. apply (req_hit ent T2); auto.
  - destruct (arc_delta_pos (arc_llen B1 a) (arc_llen B2 a)) as (d & -> & Hd); [lia|done|]. cbn [mbind option_bind].
    destruct (req_ghost ent B2 (arc_max (arc_p a - d) 0) a) as (a1 & -> & Hs); [done..|by right| |by eexists].
    unfold arc_max. destruct (_ <? _) eqn:E; [|apply Z.ltb_ge in E]; lia.
Qed.

(** ** What a key shows *)

Definition arc_view a (k : K) : option (V * Z) :=
  match arc_cache a !! k ≫= fun x => arc_ents a !! x with
  | Some e => if ae_ghost e then None else (fun z => (z, ae_expires e)) <$> ae_value e
  | None => None
  end.
Definition fewer a a' : Prop := forall k y, arc_view a' k = Some y -> arc_view a k = Some y.
Lemma shrinks_fewer a a' : shrinks a a' -> fewer a a'.
Proof.
  intros [S1 _ _ S4] k y. unfold arc_view. destruct (arc_cache a' !! k) as [x|] eqn:E; [|done]. cbn.
  rewrite (lookup_weaken _ _ _ _ E S1). cbn. destruct (arc_ents a' !! x) as [e'|] eqn:E'; [|done].
  destruct (S4 x e' E') as (e & -> & _ & Hx & [Hg|[Hg Hv]]); [by rewrite Hg|]. rewrite <- Hg, <- Hv, <- Hx. done.
Qed.
Lemma cached_known {ex} a k x : core ex a -> arc_cache a !! k = Some x -> is_Some (arc_ents a !! x) /\ known x a.
Proof. intros Hc Hk. destruct (co_cache _ a Hc k x Hk) as (e & w & He & _ & _ & Hin). split; [by eexists|left; eauto]. Qed.

(** The cache seen through [served]: the key served keeps its entry. *)
Lemma served_view {ex} k x a a' : core ex a -> served x a a' -> arc_cache a !! k = Some x -> arc_view a' k = arc_view a k.
Proof.
  intros Hc Hs Hk. unfold arc_view. rewrite Hk, (sv_cache _ _ _ Hs k Hk). cbn.
  destruct (cached_known a k x Hc Hk) as [[e He] _].
  destruct (sv_keeps _ _ _ Hs e He) as (e' & E' & Ek & Ev & Eg & Ex). by rewrite He, E', Eg, Ev, Ex.
Qed.

Lemma arc_get_ok k a : arc_wf a ->
  exists a', arc_GetWithExpire k a = Some ((fun y => (Some y.1, y.2)) <$> arc_view a k, a') /\ arc_wf a' /\ arc_c a' = arc_c a /\
             fewer a a' /\ arc_view a' k = arc_view a k.
Proof.
  intros [Hc Hb]. unfold arc_GetWithExpire, arc_get, arc_view at 1. destruct (arc_cache a !! k) as [x|] eqn:Ek.
  2:{ exists a. split; [done|]. split; [by split|]. split; [done|]. split; [|done]. by intros ? ?. }
  destruct (cached_known a k x Hc Ek) as [He Hkn].
  destruct (req_ok x a (core_weaken _ a Hc) Hb He Hkn) as (a' & -> & Hs). cbn [mbind option_bind].
  exists a'. split; [|split; [apply Hs|split; [apply Hs|split; [apply shrinks_fewer, Hs|by eapply served_view]]]].
  destruct He as [e He]. destruct (sv_keeps _ _ _ Hs e He) as (e' & -> & _ & Ev & Eg & Ex). rewrite He. cbn. rewrite Eg.
  destruct (ae_ghost e) eqn:Eg0; [done|]. cbn. destruct (co_value _ a Hc x e He Eg0) as [y Hy].
  rewrite Hy in *. cbn. by rewrite Ev, Ex.
Qed.

(** ** A store *)

Definition put_value (z : V) (x : Z) e : arc_entry K V := mkArcEntry (ae_key e) (Some z) (ae_ll e) false x.
Lemma put_core z y x a : core None a -> core (Some x) (upd_entry (put_value z y) x a).
Proof.
  intros [C1 C2 C3 C4 C5 C6]. pose proof (upd_parts (put_value z y) x a) as (_ & _ & P3 & P4 & _). split.
  - intros w. rewrite arc_list_upd. auto.
  - intros w k. rewrite arc_list_upd. intros Hk. specialize (C2 w k Hk). unfold ll_of in *. rewrite upd_lookup.
    case_decide; [subst; by destruct (arc_ents a !! x)|done].
  - intros k i. rewrite P3. intros Hk. destruct (C3 k i Hk) as (e & u & E & Ek & El & Hin).
    rewrite upd_lookup. case_decide; [subst; rewrite E; exists (put_value z y e), u|exists e, u]; by rewrite arc_list_upd.
  - intros i e. rewrite upd_lookup. case_decide; [|apply C4]. destruct (arc_ents a !! x); [|done]. intros [= <-] _. by eexists.
  - intros w i e Hi. rewrite arc_list_upd, upd_lookup. case_decide; [subst; congruence|]. by apply C5.
  - intros i Hi. rewrite P4. apply C6. rewrite upd_lookup in Hi. case_decide; [subst|done].
    destruct (arc_ents a !! x); [by eexists|by destruct Hi].
Qed.
Lemma put_bounds f x a : arc_bounds a -> arc_bounds (upd_entry f x a).
Proof.
  intros [? ? ? ? ? ?]. destruct (upd_parts f x a) as (P1 & P2 & _). unfold arc_llen in *.
  split; rewrite ?P1, ?P2; unfold arc_llen; rewrite ?arc_list_upd; done.
Qed.
Lemma set_len_bounds n a : arc_bounds a -> arc_bounds (set_len n a).
Proof. intros [? ? ? ? ? ?]. by split. Qed.

Lemma put_known z y k x a : core None a -> arc_cache a !! k = Some x ->
  is_Some (arc_ents (upd_entry (put_value z y) x a) !! x) /\ known x (upd_entry (put_value z y) x a).
Proof.
  intros Hc Hk. destruct (co_cache _ a Hc k x Hk) as (e & w & He & _ & _ & Hin). split.
  - rewrite upd_lookup, decide_True, He by done. by eexists.
  - left. exists w. by rewrite arc_list_upd.
Qed.

Lemma arc_put_old z y k x n a : arc_wf a -> arc_cache a !! k = Some x ->
  exists a', req x (upd_entry (put_value z y) x (set_len n a)) = Some a' /\ arc_wf a' /\ arc_c a' = arc_c a /\ arc_view a' k = Some (z, y) /\
    (forall k' u, k' <> k -> arc_view a' k' = Some u -> arc_view a k' = Some u).
Proof.
  intros [Hc Hb] Hk. set (b := upd_entry (put_value z y) x (set_len n a)).
  assert (Hcb : core (Some x) b) by (by apply put_core, set_len_core).
  assert (Hbb : arc_bounds b) by (by apply put_bounds, set_len_bounds).
  destruct (put_known z y k x (set_len n a) (set_len_core n a Hc) Hk) as [He Hkn].
  destruct (req_ok x b Hcb Hbb He Hkn) as (a' & E & Hs). exists a'. split; [done|]. split; [apply Hs|].
  assert (Ecb : arc_cache b = arc_cache a) by apply (upd_parts (put_value z y) x (set_len n a)).
  assert (Eb : forall i, arc_ents b !! i = if decide (i = x) then put_value z y <$> arc_ents a !! x else arc_ents a !! i).
  { intros i. unfold b. by rewrite upd_lookup. }
  split; [rewrite (sh_c _ _ (sv_shrinks _ _ _ Hs)); apply (upd_parts (put_value z y) x (set_len n a))|]. split.
  - rewrite (served_view k x b a' Hcb Hs) by (by rewrite Ecb). unfold arc_view. rewrite Ecb, Hk. cbn. rewrite Eb, decide_True by done.
    destruct (co_cache _ a Hc k x Hk) as (e & w & -> & _). done.
  - intros k' u Hne Hv. apply (shrinks_fewer _ _ (sv_shrinks _ _ _ Hs)) in Hv. unfold arc_view in *. rewrite Ecb in Hv.
    destruct (arc_cache a !! k') as [x'|] eqn:Ek'; [|done]. cbn in *. rewrite Eb in Hv. case_decide; [subst|done].
    destruct (co_cache _ a Hc k x Hk) as (e & w & He0 & Ek0 & _), (co_cache _ a Hc k' x Ek') as (e1 & w1 & He1 & Ek1 & _). congruence.
Qed.

(** An entry just made is in no list. *)
Lemma new_core e n a : core None a -> ae_ll e = None -> is_Some (ae_value e) ->
  let b := (new_entry e (set_len n a)).2 in core (Some (arc_next a)) b /\ ll_of (arc_next a) b = None /\
    forall i, arc_ents b !! i = if decide (i = arc_next a) then Some e else arc_ents a !! i.
Proof.
  intros [C1 C2 C3 C4 C5 C6] Hn Hv. cbv zeta.
  assert (Hl : forall i, arc_ents (new_entry e (set_len n a)).2 !! i = if decide (i = arc_next a) then Some e else arc_ents a !! i).
  { intros i. cbn. case_decide; [subst; apply lookup_insert_eq|by rewrite lookup_insert_ne]. }
  assert (Hf : forall i, is_Some (arc_ents a !! i) -> i <> arc_next a) by (intros i Hi ->; specialize (C6 _ Hi); lia).
  split; [|split; [|done]].
  - split; [exact C1| | | | |].
    + intros w i Hi. specialize (C2 w i Hi). unfold ll_of in *. rewrite Hl. case_decide; [|done]. subst.
      destruct (arc_ents a !! arc_next a) eqn:E; [|done]. exfalso. by apply (Hf (arc_next a)).
    + intros k i Hk. destruct (C3 k i Hk) as (e0 & u & E & Ek & El & Hin). exists e0, u. rewrite Hl.
      rewrite decide_False by (apply Hf; by eexists). done.
    + intros i e0. rewrite Hl. case_decide; [by intros [= <-] _|apply C4].
    + intros w i e0 Hi Hin. rewrite Hl. case_decide; [congruence|]. by apply C5.
    + intros i. rewrite Hl. cbn. case_decide; [subst; lia|]. intros Hi. specialize (C6 i Hi). lia.
  - unfold ll_of. rewrite Hl, decide_True by done. done.
Qed.

Lemma arc_put_new z y k n a : arc_wf a -> arc_cache a !! k = None ->
  exists b, req (arc_next a) (new_entry (mkArcEntry k (Some z) None false y) (set_len n a)).2 = Some b /\
    let a' := set_arc_cache (<[k := arc_next a]> (arc_cache b)) b in
    arc_wf a' /\ arc_c a' = arc_c a /\ arc_view a' k = Some (z, y) /\ (forall k' u, k' <> k -> arc_view a' k' = Some u -> arc_view a k' = Some u).
Proof.
  intros [Hc Hb] Hk. destruct (new_core (mkArcEntry k (Some z) None false y) n a Hc eq_refl ltac:(by eexists)) as (C & Hn & El).
  set (a0 := (new_entry (mkArcEntry k (Some z) None false y) (set_len n a)).2) in *.
  assert (Hb0 : arc_bounds a0) by (destruct Hb; by split).
  assert (He : arc_ents a0 !! arc_next a = Some (mkArcEntry k (Some z) None false y)) by (by rewrite El, decide_True).
  destruct (req_ok (arc_next a) a0 C Hb0 ltac:(by eexists) (or_intror Hn)) as (b & E & Hs). exists b. split; [done|]. cbv zeta.
  destruct (sv_keeps _ _ _ Hs _ He) as (e' & He' & Hk' & Hv' & Hg' & Hx'). destruct (sv_wf _ _ _ Hs) as [[B1' B2' B3' B4' B5' B6'] Hbb].
  assert (Hcs : arc_cache b ⊆ arc_cache a) by apply (sh_cache _ _ (sv_shrinks _ _ _ Hs)).
  assert (Hlist : exists w, arc_next a ∈ arc_list w b) by (destruct (sv_in _ _ _ Hs); [by exists T1|by exists T2]).
  split_and!.
  - split; [split; [exact B1'|exact B2'| |exact B4'|exact B5'|exact B6']|by destruct Hbb; split].
    intros k' i. cbn. intros Hi. apply lookup_insert_Some in Hi as [[<- <-]|[Hne Hi]]; [|by apply B3'].
    destruct Hlist as [w Hw]. pose proof (B2' w _ Hw) as Hll. unfold ll_of in Hll. rewrite He' in Hll. exists e', w. by split_and!.
  - cbn. apply (sh_c _ _ (sv_shrinks _ _ _ Hs)).
  - unfold arc_view. cbn. rewrite lookup_insert_eq. cbn. rewrite He'. cbn in *. by rewrite Hg', Hv', Hx'.
  - intros k' u Hne Hv. assert (Hvb : arc_view b k' = Some u).
    { unfold arc_view in *. cbn in Hv. by rewrite lookup_insert_ne in Hv. }
    apply (shrinks_fewer _ _ (sv_shrinks _ _ _ Hs)) in Hvb. unfold arc_view in *. change (arc_cache a0) with (arc_cache a) in Hvb.
    destruct (arc_cache a !! k') as [i|] eqn:Ei; [|done]. cbn in *. rewrite El, decide_False in Hvb; [done|].
    intros ->. destruct (co_cache _ a Hc k' _ Ei) as (e0 & _ & E0 & _). pose proof (co_fresh _ a Hc (arc_next a) ltac:(by eexists)). lia.
Qed.

(** A store succeeds and is seen at once; other keys lose at most their value. *)
Lemma arc_set_ok k z y a : arc_wf a ->
  exists a', arc_SetWithExpire k z y a = Some a' /\ arc_wf a' /\ arc_c a' = arc_c a /\ arc_view a' k = Some (z, y) /\
    (forall k' u, k' <> k -> arc_view a' k' = Some u -> arc_view a k' = Some u).
Proof.
  intros Hwf. unfold arc_SetWithExpire, arc_setWithExpire. destruct (arc_cache a !! k) as [x|] eqn:Ek.
  - assert (Ea : exists n, (if match arc_ents a !! x with Some e => ae_ghost e | None => false end then set_len (arc_len a + 1) a else a) = set_len n a).
    { destruct (match arc_ents a !! x with Some _ => _ | None => _ end); [by eexists|]. exists (arc_len a). by destruct a. }
    destruct Ea as [n ->]. by apply arc_put_old.
  - destruct (arc_put_new z y k (arc_len a + 1) a Hwf Ek) as (b & E & Hrest). eexists. split; [|exact Hrest].
    exact (f_equal (mbind (fun b => Some (set_arc_cache (<[k := arc_next a]> (arc_cache b)) b))) E).
Qed.

(** ** Sequences of operations *)

Inductive arc_op := AGet (k : K) | ASet (k : K) (z : V) (expires : Z) | AClear.
Definition arc_step (o : arc_op) a : option (ARC K V) :=
  match o with
  | AGet k => match arc_GetWithExpire k a with Some (_, a) => Some a | None => None end
  | ASet k z x => arc_SetWithExpire k z x a
  | AClear => Some (arc_Clear a)
  end.
Fixpoint arc_run (ops : list arc_op) a : option (ARC K V) :=
  match ops with [] => Some a | o :: ops => a ← arc_step o a; arc_run ops a end.

Lemma arc_Clear_ok a : arc_wf a -> arc_wf (arc_Clear a).
Proof.
  intros [Hc Hb]. split; split; cbn; try (destruct Hb; unfold arc_llen; cbn; lia).
  - intros []; apply NoDup_nil_2. - intros [] x Hx; by apply elem_of_nil in Hx. - intros k x. by rewrite lookup_empty.
  - apply Hc. - intros [] x e _ Hx; by apply elem_of_nil in Hx. - apply Hc.
Qed.
Lemma arc_New_wf n : 0 < n -> arc_wf (arc_New n : ARC K V).
Proof.
  intros Hn. split; split; cbn; try (unfold arc_llen; cbn; lia).
  - intros []; apply NoDup_nil_2. - intros [] x Hx; by apply elem_of_nil in Hx. - intros k x. by rewrite lookup_empty.
  - intros x e. by rewrite lookup_empty. - intros [] x e _ Hx; by apply elem_of_nil in Hx. - intros x. rewrite lookup_empty. by intros [? ?].
Qed.
Lemma arc_step_ok o a : arc_wf a -> exists a', arc_step o a = Some a' /\ arc_wf a' /\ arc_c a' = arc_c a.
Proof.
  intros Hwf. destruct o as [k|k z x|]; cbn.
  - destruct (arc_get_ok k a Hwf) as (a' & -> & ? & ? & _). by exists a'.
  - destruct (arc_set_ok k z x a Hwf) as (a' & -> & ? & ? & _). by exists a'.
  - exists (arc_Clear a). split; [done|]. split; [by apply arc_Clear_ok|done].
Qed.
Lemma arc_run_ok ops : forall a, arc_wf a -> exists a', arc_run ops a = Some a' /\ arc_wf a' /\ arc_c a' = arc_c a.
Proof.
  induction ops as [|o ops IH]; intros a Hwf; cbn; [by exists a|].
  destruct (arc_step_ok o a Hwf) as (a1 & -> & Hwf1 & Ec). cbn. destruct (IH a1 Hwf1) as (a2 & E & Hwf2 & Ec2).
  exists a2. split; [done|]. split; [done|congruence].
Qed.

(** Distinct keys have distinct entries, so a list holds no fewer entries than keys. *)
Lemma keys_bound a (ks : list K) (l : list nat) : core None a -> NoDup ks ->
  (forall k, k ∈ ks -> exists x, arc_cache a !! k = Some x /\ x ∈ l) -> (length ks <= length l)%nat.
Proof.
  intros Hc Hnd Hks. rewrite <- (length_fmap (fun k => default 0%nat (arc_cache a !! k)) ks).
  apply submseteq_length, NoDup_submseteq.
  - apply NoDup_fmap_2_strong; [|done]. intros k k' Hk Hk' E. destruct (Hks k Hk) as (x & Ex & _), (Hks k' Hk') as (x' & Ex' & _).
    rewrite Ex, Ex' in E. cbn in E. subst x'. destruct (co_cache _ a Hc k x Ex) as (e & ? & E1 & <- & _), (co_cache _ a Hc k' x Ex') as (e' & ? & E2 & <- & _).
    congruence.
  - intros x (k & -> & Hk)%list_elem_of_fmap. destruct (Hks k Hk) as (x & -> & Hx). done.
Qed.

(** no sequence of stores, lookups and clears of an adaptive cache with a positive size
    panics, whatever the keys; afterwards the target size lies between 0 and the size,
    no more keys than the size have a value, and no more than twice the size are
    remembered at all. *)
Lemma arc_never_panics n ops (ks : list K) : 0 < n -> NoDup ks ->
  exists a, arc_run ops (arc_New n) = Some a /\ 0 <= arc_p a <= n /\
    ((forall k, k ∈ ks -> is_Some (arc_view a k)) -> Z.of_nat (length ks) <= n) /\
    ((forall k, k ∈ ks -> is_Some (arc_cache a !! k)) -> Z.of_nat (length ks) <= 2 * n).
Proof.
  intros Hn Hnd. destruct (arc_run_ok ops (arc_New n) (arc_New_wf n Hn)) as (a & E & [Hc Hb] & Ec). cbn in Ec.
  exists a. split; [done|]. destruct Hb as [? ? ? ? ? ?]. rewrite Ec in *. split; [done|]. unfold arc_llen in *. cbn [arc_list] in *. split.
  - intros Hks. assert (Hl : (length ks <= length (t1 a ++ t2 a))%nat); [|rewrite length_app in Hl; lia].
    apply (keys_bound a); [done|done|]. intros k Hk. destruct (Hks k Hk) as [y Hy]. unfold arc_view in Hy.
    destruct (arc_cache a !! k) as [x|] eqn:Ex; [|done]. exists x. split; [done|]. cbn in Hy.
    destruct (co_cache _ a Hc k x Ex) as (e & w & He & _ & _ & Hin). rewrite He in Hy.
    assert (Hg : w = B1 \/ w = B2 -> ae_ghost e = true) by (intros Hw; by apply (co_ghost _ a Hc w x e)).
    apply elem_of_app. destruct w; [by left|by rewrite Hg in Hy by auto|by right|by rewrite Hg in Hy by auto].
  - intros Hks. assert (Hl : (length ks <= length (t1 a ++ b1 a ++ t2 a ++ b2 a))%nat); [|rewrite !length_app in Hl; lia].
    apply (keys_bound a); [done|done|]. intros k Hk. destruct (Hks k Hk) as [x Hx]. exists x. split; [done|].
    destruct (co_cache _ a Hc k x Hx) as (e & w & _ & _ & _ & Hin). rewrite !elem_of_app. destruct w; auto.
Qed.
End ArcProps.

Lemma arc_never_panics_witness :
  exists a, arc_run [ASet 1 10 7; ASet 2 20 7; AGet 1; ASet 3 30 7; AGet 2; ASet 4 40 7] (arc_New 2) = Some a /\ 0 <= arc_p a <= 2 /\
    ((forall k : Z, k ∈ [1; 4] -> is_Some (arc_view a k)) -> Z.of_nat (length [1; 4]) <= 2) /\
    ((forall k : Z, k ∈ [1; 4] -> is_Some (arc_cache a !! k)) -> Z.of_nat (length [1; 4]) <= 2 * 2).
Proof. apply (arc_never_panics 2); [lia|compute_done]. Defined.

(** The count of [Len] is no count: a ghost that is forgotten is subtracted a second
    time.  Two keys have values here, and the length is -2. *)
Example Len_negative :
  match arc_run [ASet 1 0 7; ASet 2 0 7; AGet 1; ASet 3 0 7; ASet 4 0 7; ASet 5 0 7; ASet 6 0 7; ASet 7 0 7] (arc_New 2) with
  | Some a => arc_view a 1 = Some (0, 7) /\ arc_view a 7 = Some (0, 7) /\ arc_Len a = -2
  | None => False
  end.
Proof. vm_compute. auto. Qed.

(** A lookup of a ghost finds nothing, and yet drops the value of another key. *)
Example ghost_lookup_evicts :
  match arc_run [ASet 1 10 7; ASet 2 20 7; AGet 1; ASet 3 30 7] (arc_New 2) with
  | Some a => arc_view a 1 = Some (10, 7) /\ arc_view a 2 = None /\ arc_view a 3 = Some (30, 7) /\
      match arc_GetWithExpire 2 a with
      | Some (r, a) => r = None /\ arc_view a 2 = None /\ arc_view a 1 = None /\ arc_view a 3 = Some (30, 7)
      | None => False
      end
  | None => False
  end.
Proof. vm_compute. auto 10. Qed.
