(* ===== verification/AnswerCache.v ===== *)
(** * The cache of answers, as the resolver sees it

    [dnsCache] of [dns/resolver.go] is an interface with two implementations.  [DnsCache]
    is its operations, [DnsCacheLaws] what the resolver relies on; both the LRU cache of
    [Lru.v] (with stale entries, as [newCache] makes it) and the adaptive cache of [Arc.v]
    satisfy them.  Times are in seconds, as both implementations keep them. *)

From S2P Require Import Prelude Lru LruProps Arc.
#[local] Open Scope Z_scope.

(** The operations; [None] is a panic.
    @go dns/resolver.go:28-32 dnsCache *)
Class DnsCache (C V : Type) := {
  dc_GetWithExpire : (nat -> Z) -> string -> C -> option (option (V * Z) * C);
  dc_SetWithExpire : Z -> string -> V -> Z -> C -> option C;
  dc_Clear : C -> C
}.

(** What a key shows; a lookup answers it, a store is seen at once, and nothing shows up
    that was not stored. *)
Class DnsCacheLaws (C V : Type) `{DnsCache C V} := {
  dc_ok : C -> Prop;
  dc_view : C -> string -> option (V * Z);
  dc_get_ok : forall t k c, dc_ok c -> exists c', dc_GetWithExpire t k c = Some (dc_view c k, c') /\ dc_ok c' /\
    (forall k' y, dc_view c' k' = Some y -> dc_view c k' = Some y) /\ dc_view c' k = dc_view c k;
  dc_set_ok : forall now k v x c, dc_ok c -> exists c', dc_SetWithExpire now k v x c = Some c' /\ dc_ok c' /\
    dc_view c' k = Some (v, x) /\ (forall k' y, k' <> k -> dc_view c' k' = Some y -> dc_view c k' = Some y);
  dc_clear_ok : forall c, dc_ok c -> dc_ok (dc_Clear c) /\ forall k, dc_view (dc_Clear c) k = None
}.

(** ** The adaptive cache *)

#[export] Instance arc_dns (V : Type) : DnsCache (ARC string V) V := {|
  dc_GetWithExpire _ k a := match arc_GetWithExpire k a with
                            | Some (Some (Some v, x), a) => Some (Some (v, x), a)
                            | Some (_, a) => Some (None, a)
                            | None => None
                            end;
  dc_SetWithExpire _ k v x a := arc_SetWithExpire k v x a;
  dc_Clear a := arc_Clear a
|}.
#[export] Instance arc_dns_laws (V : Type) : DnsCacheLaws (ARC string V) V.
Proof.
  refine {| dc_ok := arc_wf; dc_view := arc_view |}.
  - intros t k c Hc. destruct (arc_get_ok k c Hc) as (c' & E & Hc' & _ & Hf & Hv). exists c'. split_and!; [|done..].
    cbn. rewrite E. by destruct (arc_view c k) as [[v x]|].
  - intros now k v x c Hc. destruct (arc_set_ok k v x c Hc) as (c' & E & Hc' & _ & Hv & Hf). by exists c'.
  - intros c Hc. split; [by apply arc_Clear_ok|done].
Defined.

(** ** The LRU cache, with its heap *)

Section LruDns.
Context {V : Type}.

#[export] Instance lru_dns : DnsCache (LruCache string V * heap string V) V := {|
  dc_GetWithExpire t k '(c, h) := let '(r, c, h) := GetWithExpire t k c h in Some (r, (c, h));
  dc_SetWithExpire now k v x '(c, h) := Some (SetWithExpire now k v x c h);
  dc_Clear '(c, h) := (Clear c, h)
|}.

Definition lru_view (c : LruCache string V * heap string V) (k : string) : option (V * Z) :=
  match cache c.1 !! k with
  | Some p => (fun e => (e_value e, e_expires e)) <$> h_entries c.2 !! p
  | None => None
  end.
Definition lru_ok (c : LruCache string V * heap string V) : Prop :=
  staleReturn c.1 = true /\ maxAge c.1 = 0 /\ 0 < maxSize c.1 /\ exists s, impl c.1 c.2 s.

(** The same through the specification of the cache. *)
Definition sp_view (s : spec string V) (k : string) : option (V * Z) := (fun e => (e_value e, e_expires e)) <$> sp_find k s.
Lemma lru_view_spec c h s k : impl c h s -> lru_view (c, h) k = sp_view s k.
Proof.
  intros (l & Hr & <- & _). unfold lru_view, sp_view. cbn [fst snd]. pose proof (repr_find c h l k Hr) as Hf.
  destruct (cache c !! k) as [p|]; [destruct Hf as (e & _ & _ & -> & ->)|destruct Hf as [-> _]]; done.
Qed.

Lemma find_without (k k' : string) (l : list (entry string V)) :
  List.find (sp_key k') (sp_without k l) = if decide (k' = k) then None else List.find (sp_key k') l.
Proof.
  unfold sp_without. induction l as [|e l IH]; [by case_decide|]. cbn [List.filter List.find].
  destruct (sp_key k e) eqn:E1; cbn [negb List.find]; rewrite IH; unfold sp_key in E1.
  - apply bool_decide_eq_true in E1 as <-. case_decide; [done|]. unfold sp_key at 2. by rewrite bool_decide_eq_false_2 by congruence.
  - apply bool_decide_eq_false in E1. destruct (sp_key k' e) eqn:E2; [|done]. apply bool_decide_eq_true in E2. by rewrite decide_False by congruence.
Qed.
Lemma find_app_r (k : string) (l l' : list (entry string V)) :
  List.find (sp_key k) (l ++ l') = match List.find (sp_key k) l with Some e => Some e | None => List.find (sp_key k) l' end.
Proof. induction l as [|e l IH]; [done|]. cbn. by destruct (sp_key k e). Qed.
Lemma find_refresh (k k' : string) (e : entry string V) l log : e_key e = k ->
  sp_find k' (mkSpec (sp_without k l ++ [e]) log) = if decide (k' = k) then Some e else List.find (sp_key k') l.
Proof.
  intros Ek. unfold sp_find. cbn [sp_entries]. rewrite find_app_r, find_without. cbn [List.find].
  case_decide as D; [|destruct (List.find _ l); [done|]]; unfold sp_key; [rewrite bool_decide_eq_true_2|rewrite bool_decide_eq_false_2]; congruence.
Qed.
Lemma find_drop g (k : string) e (s : spec string V) :
  sp_find k (sp_drop g e s) = if decide (k = e_key e) then None else sp_find k s.
Proof. unfold sp_find, sp_drop. cbn [sp_entries]. apply find_without. Qed.

(** A stale cache drops nothing on a lookup. *)
Lemma sp_get_stale g t (k : string) (s : spec string V) : g_stale g = true -> g_age g = 0 ->
  sp_get g t k s = (sp_find k s, match sp_find k s with Some e => mkSpec (sp_without k (sp_entries s) ++ [e]) (sp_log s) | None => s end).
Proof. intros Hs Ha. unfold sp_get, ages. rewrite Hs, Ha. cbn. by destruct (sp_find k s). Qed.
Lemma sp_find_key k e (s : spec string V) : sp_find k s = Some e -> e_key e = k.
Proof. intros [_ E]%find_some. by apply bool_decide_eq_true in E. Qed.

Lemma lru_get_ok t k c : lru_ok c -> exists c', dc_GetWithExpire t k c = Some (lru_view c k, c') /\ lru_ok c' /\ forall k', lru_view c' k' = lru_view c k'.
Proof.
  destruct c as [c h]. intros (Hs & Ha & Hm & s & Hi). cbn [fst snd] in *. cbn [dc_GetWithExpire lru_dns]. unfold GetWithExpire.
  pose proof (get_repr t k c h s Hi) as Hg. rewrite (lru_view_spec c h s k Hi). destruct (get t k c h) as [[found c'] h'].
  rewrite (sp_get_stale (settings_of c)) in Hg by done. destruct Hg as (Hi' & Hset & Hf).
  exists (c', h'). injection Hset as E1 E2 E3 E4 E5. split; [|split].
  - unfold sp_view. destruct found as [p|]; [destruct Hf as (e & -> & ->)|rewrite Hf]; done.
  - split_and!; cbn; [congruence..|]. by eexists.
  - intros k'. rewrite (lru_view_spec c' h' _ k' Hi'), (lru_view_spec c h s k' Hi). unfold sp_view.
    destruct (sp_find k s) as [e|] eqn:Ef; [|done]. rewrite find_refresh by (by apply sp_find_key with s).
    case_decide; [subst; by rewrite Ef|done].
Qed.

Lemma sp_put_stale g now (k : string) (v : V) x (s : spec string V) : g_stale g = true -> 0 < g_size g ->
  sp_find k (sp_put g now k v x s) = Some (mkEntry k v x) /\
  forall k' e, k' <> k -> sp_find k' (sp_put g now k v x s) = Some e -> sp_find k' s = Some e.
Proof.
  intros Hs Hm. unfold sp_put, sp_purge, ages. rewrite Hs. cbn [negb andb]. set (e := mkEntry k v x).
  assert (Href : forall k' l log, sp_find k' (mkSpec (sp_without k l ++ [e]) log) = if decide (k' = k) then Some e else List.find (sp_key k') l).
  { intros. by apply find_refresh. }
  destruct (sp_find k s) as [e0|] eqn:Ef.
  { split; [by rewrite Href, decide_True|]. intros k' e1 Hne. by rewrite Href, decide_False. }
  rewrite (proj2 (Z.ltb_lt _ _) Hm). cbn [andb sp_entries]. rewrite sp_without_none by done.
  specialize (Href). pose proof (fun k' => Href k' (sp_entries s) (sp_log s)) as Hk. rewrite sp_without_none in Hk by done.
  destruct (g_size g <? _) eqn:Esz; cbn [sp_entries]; [|split; [by rewrite Hk, decide_True|]; intros k' e1 Hne; by rewrite Hk, decide_False].
  destruct (sp_entries s) as [|e0 l] eqn:Es; cbn [app].
  { cbn in Esz. apply Z.ltb_lt in Esz. lia. }
  assert (Hne0 : e_key e0 <> k).
  { unfold sp_find in Ef. rewrite Es in Ef. cbn in Ef. intros E. unfold sp_key in Ef at 1. by rewrite bool_decide_eq_true_2 in Ef. }
  split.
  - rewrite find_drop, decide_False by congruence. change (e0 :: l ++ [e]) with ((e0 :: l) ++ [e]). by rewrite Hk, decide_True.
  - intros k' e1 Hne. rewrite find_drop. case_decide; [done|]. change (e0 :: l ++ [e]) with ((e0 :: l) ++ [e]).
    rewrite Hk, decide_False by done. unfold sp_find. by rewrite Es.
Qed.

Lemma lru_set_ok now k v x c : lru_ok c -> exists c', dc_SetWithExpire now k v x c = Some c' /\ lru_ok c' /\
  lru_view c' k = Some (v, x) /\ forall k' y, k' <> k -> lru_view c' k' = Some y -> lru_view c k' = Some y.
Proof.
  destruct c as [c h]. intros (Hs & Ha & Hm & s & Hi). cbn [fst snd] in *. cbn [dc_SetWithExpire lru_dns]. unfold SetWithExpire.
  pose proof (setWithExpire_repr now k v x c h s Hi) as Hp. destruct (setWithExpire now k v x c h) as [c' h'].
  destruct Hp as [Hi' Hset]. exists (c', h'). split; [done|]. injection Hset as E1 E2 E3 E4 E5.
  destruct (sp_put_stale (settings_of c) now k v x s Hs Hm) as [P1 P2]. split; [split_and!; cbn; [congruence..|by eexists]|]. split.
  - rewrite (lru_view_spec c' h' _ k Hi'). unfold sp_view. by rewrite P1.
  - intros k' y Hne. rewrite (lru_view_spec c' h' _ k' Hi'), (lru_view_spec c h s k' Hi). unfold sp_view.
    destruct (sp_find k' (sp_put _ _ _ _ _ _)) as [e|] eqn:E; [|done]. by rewrite (P2 k' e Hne E).
Qed.

#[export] Instance lru_dns_laws : DnsCacheLaws (LruCache string V * heap string V) V.
Proof.
  refine {| dc_ok := lru_ok; dc_view := lru_view |}.
  - intros t k c Hc. destruct (lru_get_ok t k c Hc) as (c' & E & Hc' & Hv). exists c'. split_and!; [done..| |done]. intros k' y. by rewrite Hv.
  - intros now k v x c Hc. by apply lru_set_ok.
  - intros [c h] (Hs & Ha & Hm & s & l & Hr & _ & Hh). split; [|done]. split_and!; [done..|]. cbn [fst snd].
    exists (mkSpec [] (evicted c)), []. split; [|by split]. split; cbn; try done.
    + apply NoDup_nil_2. + apply NoDup_nil_2. + intros p e Hin. by apply elem_of_nil in Hin.
    + intros k p. rewrite lookup_empty. split; [done|]. intros (e & Hin & _). by apply elem_of_nil in Hin.
Defined.
End LruDns.

(** ** The cache that the configuration names *)

(** @go dns/resolver.go:28-32 dnsCache *)
Inductive AnswerCache (V : Type) := arcCache (a : ARC string V) | lruCache (c : LruCache string V) (h : heap string V).
Arguments arcCache {V} _.
Arguments lruCache {V} _ _.

#[export] Instance answer_cache (V : Type) : DnsCache (AnswerCache V) V := {|
  dc_GetWithExpire t k c :=
    match c with
    | arcCache a => (fun '(r, a) => (r, arcCache a)) <$> dc_GetWithExpire t k a
    | lruCache c h => (fun '(r, (c, h)) => (r, lruCache c h)) <$> dc_GetWithExpire t k (c, h)
    end;
  dc_SetWithExpire now k v x c :=
    match c with
    | arcCache a => arcCache <$> dc_SetWithExpire now k v x a
    | lruCache c h => (fun '(c, h) => lruCache c h) <$> dc_SetWithExpire now k v x (c, h)
    end;
  dc_Clear c := match c with arcCache a => arcCache (dc_Clear a) | lruCache c h => let '(c, h) := dc_Clear (c, h) in lruCache c h end
|}.
#[export] Instance answer_cache_laws (V : Type) : DnsCacheLaws (AnswerCache V) V.
Proof.
  refine {| dc_ok c := match c with arcCache a => dc_ok a | lruCache c h => dc_ok (c, h) end;
            dc_view c := match c with arcCache a => dc_view a | lruCache c h => dc_view (c, h) end |}.
  - intros t k [a|c h] Hc.
    + destruct (dc_get_ok t k a Hc) as (a' & E & Hrest). exists (arcCache a'). split; [cbn in *; by rewrite E|done].
    + destruct (dc_get_ok t k (c, h) Hc) as ([c' h'] & E & Hrest). exists (lruCache c' h'). split; [cbn in *|done].
      destruct (GetWithExpire t k c h) as [[r c1] h1]. by injection E as -> -> ->.
  - intros now k v x [a|c h] Hc.
    + destruct (dc_set_ok now k v x a Hc) as (a' & E & Hrest). exists (arcCache a'). split; [cbn in *; by rewrite E|done].
    + destruct (dc_set_ok now k v x (c, h) Hc) as ([c' h'] & E & Hrest). exists (lruCache c' h'). split; [cbn in *|done].
      by injection E as ->.
  - intros [a|c h] Hc; [apply (dc_clear_ok a Hc)|apply (dc_clear_ok (c, h) Hc)].
Defined.

(** @go dns/resolver.go:488-498 Config.newCache *)
Definition newCache (V : Type) (CacheAlgorithm : string) (CacheMaxSize : Z) : AnswerCache V :=
  let size := if CacheMaxSize =? 0 then 4096 else CacheMaxSize in
  if String.eqb CacheAlgorithm "arc" then arcCache (arc_New size)
  else lruCache (New 0 size false true false) (mkHeap ∅ 0).
Lemma newCache_ok (V : Type) algo size : 0 <= size -> dc_ok (newCache V algo size).
Proof.
  intros Hs. unfold newCache. assert (Hp : 0 < if size =? 0 then 4096 else size).
  { destruct (size =? 0) eqn:E; [done|]. apply Z.eqb_neq in E. lia. }
  destruct (String.eqb algo "arc"); cbn; [by apply arc_New_wf|]. split_and!; [done..|]. cbn. eexists. apply impl_new. intros p.
  cbn. rewrite lookup_empty. by intros [? ?].
Qed.
