(* ===== verification/FakeIp.v ===== *)
(** * Fake-IP pools

    Models [component/fakeip]: a pool hands out addresses of a prefix to host
    names in turn and remembers the pairs in a store.  The store is an
    interface ([FakeStore]); [memoryStore] implements it with two LRU caches. *)

From S2P Require Import Prelude Names Netip Lru.

(** ** The store *)

(** [persistent] says that the store is the one on disk, [cachefileStore].
    @go component/fakeip/pool.go:19-28 store *)
Class FakeStore (S : Type) := {
  GetByHost : string -> S -> option Addr * S;
  PutByHost : string -> Addr -> S -> S;
  GetByIP : Addr -> S -> option string * S;
  PutByIP : Addr -> string -> S -> S;
  DelByIP : Addr -> S -> S;
  ExistIP : Addr -> S -> bool;
  CloneStore : S -> S -> S;
  FlushStore : S -> bool * S;
  persistent : S -> bool
}.

(** The two caches, each with the heap of its entries.
    @go component/fakeip/memory.go:9-12 memoryStore *)
Record memoryStore := mkMem {
  cacheIP : LruCache string Addr; heapIP : heap string Addr;
  cacheHost : LruCache Addr string; heapHost : heap Addr string
}.

(** The caches do not age: the clock is not read. *)
Definition no_clock : nat -> Z := fun _ => 0.

(** [m.cacheIP.Get], [m.cacheHost.Get].
    @go component/fakeip/memory.go:14-23 memoryStore.GetByHost *)
Definition get_ip (host : string) (m : memoryStore) : option Addr * memoryStore :=
  let '(r, c, h) := Get no_clock host (cacheIP m) (heapIP m) in (r, mkMem c h (cacheHost m) (heapHost m)).
Definition get_host (ip : Addr) (m : memoryStore) : option string * memoryStore :=
  let '(r, c, h) := Get no_clock ip (cacheHost m) (heapHost m) in (r, mkMem (cacheIP m) (heapIP m) c h).

(** @go component/fakeip/memory.go:14-23 memoryStore.GetByHost *)
Definition mem_GetByHost (host : string) (m : memoryStore) : option Addr * memoryStore :=
  match get_ip host m with
  | (Some ip, m) => (Some ip, (get_host ip m).2)
  | (None, m) => (None, m)
  end.

(** @go component/fakeip/memory.go:25-28 memoryStore.PutByHost *)
Definition mem_PutByHost (host : string) (ip : Addr) (m : memoryStore) : memoryStore :=
  let '(c, h) := Set_ no_clock host ip (cacheIP m) (heapIP m) in mkMem c h (cacheHost m) (heapHost m).

(** @go component/fakeip/memory.go:30-39 memoryStore.GetByIP *)
Definition mem_GetByIP (ip : Addr) (m : memoryStore) : option string * memoryStore :=
  match get_host ip m with
  | (Some host, m) => (Some host, (get_ip host m).2)
  | (None, m) => (None, m)
  end.

(** @go component/fakeip/memory.go:41-44 memoryStore.PutByIP *)
Definition mem_PutByIP (ip : Addr) (host : string) (m : memoryStore) : memoryStore :=
  let '(c, h) := Set_ no_clock ip host (cacheHost m) (heapHost m) in mkMem (cacheIP m) (heapIP m) c h.

(** @go component/fakeip/memory.go:46-52 memoryStore.DelByIP *)
Definition mem_DelByIP (ip : Addr) (m : memoryStore) : memoryStore :=
  let '(o, m) := get_host ip m in
  let m := match o with
           | Some host => mkMem (delete_key host (cacheIP m) (heapIP m)) (heapIP m) (cacheHost m) (heapHost m)
           | None => m
           end in
  mkMem (cacheIP m) (heapIP m) (delete_key ip (cacheHost m) (heapHost m)) (heapHost m).

(** @go component/fakeip/memory.go:54-57 memoryStore.Exist *)
Definition mem_Exist (ip : Addr) (m : memoryStore) : bool := Exist ip (cacheHost m).

(** [m.CloneTo(n)]: [n] takes over the entries.
    @go component/fakeip/memory.go:59-66 memoryStore.CloneTo *)
Definition mem_CloneTo (m n : memoryStore) : memoryStore :=
  mkMem (CloneTo (heapIP m) (cacheIP m) (cacheIP n)) (heapIP m)
        (CloneTo (heapHost m) (cacheHost m) (cacheHost n)) (heapHost m).

(** @go component/fakeip/memory.go:68-73 memoryStore.FlushFakeIP *)
Definition mem_FlushFakeIP (m : memoryStore) : bool * memoryStore :=
  (false, mkMem (Clear (cacheIP m)) (heapIP m) (Clear (cacheHost m)) (heapHost m)).

(** @go component/fakeip/memory.go:75-80 newMemoryStore *)
Definition newMemoryStore (size : Z) : memoryStore :=
  mkMem (New 0 size false false false) (mkHeap ∅ 0) (New 0 size false false false) (mkHeap ∅ 0).

#[export] Instance memory_FakeStore : FakeStore memoryStore := {
  GetByHost := mem_GetByHost; PutByHost := mem_PutByHost; GetByIP := mem_GetByIP; PutByIP := mem_PutByIP;
  DelByIP := mem_DelByIP; ExistIP := mem_Exist; CloneStore := mem_CloneTo; FlushStore := mem_FlushFakeIP;
  persistent := fun _ => false
}.

(** ** Pools *)

Section Pool.
Context {S : Type} `{FakeStore S}.

(** @go component/fakeip/pool.go:31-40 Pool *)
Record FakePool := mkPool {
  gateway : Addr; first : Addr; last : Addr; offset : Addr; cycle : bool; ipnet : Prefix; store_ : S
}.

Definition set_store (p : FakePool) (s : S) : FakePool :=
  mkPool (gateway p) (first p) (last p) (offset p) (cycle p) (ipnet p) s.
Definition set_offset (p : FakePool) (o : Addr) (c : bool) : FakePool :=
  mkPool (gateway p) (first p) (last p) o c (ipnet p) (store_ p).

(** @go component/fakeip/pool.go:94-108 Pool.get *)
Definition fake_get (host : string) (p : FakePool) : Addr * FakePool :=
  let p := set_offset p (addr_Next (offset p)) (cycle p) in
  let p := if negb (addr_Less (offset p) (last p)) then set_offset p (first p) true else p in
  let p := if cycle p || ExistIP (offset p) (store_ p) then set_store p (DelByIP (offset p) (store_ p)) else p in
  (offset p, set_store p (PutByIP (offset p) host (store_ p))).

(** @go component/fakeip/pool.go:42-56 Pool.Lookup *)
Definition Lookup (host : string) (p : FakePool) : Addr * FakePool :=
  let host := ToLower host in
  match GetByHost host (store_ p) with
  | (Some ip, s) => (ip, set_store p s)
  | (None, s) =>
      let '(ip, p) := fake_get host (set_store p s) in
      (ip, set_store p (PutByHost host ip (store_ p)))
  end.

(** @go component/fakeip/pool.go:58-64 Pool.LookBack *)
Definition LookBack (ip : Addr) (p : FakePool) : option string * FakePool :=
  let '(r, s) := GetByIP ip (store_ p) in (r, set_store p s).

(** @go component/fakeip/pool.go:66-72 Pool.Exist *)
Definition pool_Exist (ip : Addr) (p : FakePool) : bool := ExistIP ip (store_ p).

(** @go component/fakeip/pool.go:89-92 Pool.CloneFrom *)
Definition CloneFrom (p o : FakePool) : FakePool := set_store p (CloneStore (store_ o) (store_ p)).

(** [true] is an error of the store.
    @go component/fakeip/pool.go:110-117 Pool.FlushFakeIP *)
Definition FlushFakeIP (p : FakePool) : bool * FakePool :=
  let '(err, s) := FlushStore (store_ p) in
  let p := set_store p s in
  if err then (true, p) else (false, set_offset p (addr_Prev (first p)) false).

(** @go component/fakeip/pool.go:14-17 offsetKey, cycleKey *)
Definition offsetKey : string := "key-offset-fake-ip".
Definition cycleKey : string := "key-cycle-fake-ip".

(** @go component/fakeip/pool.go:119-126 Pool.StoreState *)
Definition StoreState (p : FakePool) : FakePool :=
  if persistent (store_ p) then
    let s := PutByHost offsetKey (offset p) (store_ p) in
    set_store p (if cycle p then PutByHost cycleKey (offset p) s else s)
  else p.

(** @go component/fakeip/pool.go:128-144 Pool.restoreState *)
Definition restoreState (p : FakePool) : FakePool :=
  if persistent (store_ p) then
    let '(c, s) := GetByHost cycleKey (store_ p) in
    let p := set_store p s in
    let p := match c with Some _ => set_offset p (offset p) true | None => p end in
    let '(o, s) := GetByHost offsetKey (store_ p) in
    let p := set_store p s in
    match o with
    | Some off => if prefix_Contains (ipnet p) off then set_offset p off (cycle p) else (FlushFakeIP p).2
    | None => if ExistIP (first p) (store_ p) then (FlushFakeIP p).2 else p
    end
  else p.

(** [PrefixLastIP] is [netipx.PrefixLastIP]; [s] is the store the options ask
    for; [None] is the error.
    @go component/fakeip/pool.go:158-188 New *)
Definition newPool (PrefixLastIP : Prefix -> Addr) (net : Prefix) (s : S) : option FakePool :=
  let hostAddr := prefix_Masked_Addr net in
  let gateway := addr_Next hostAddr in
  let first := addr_Next (addr_Next (addr_Next gateway)) in
  let last := PrefixLastIP net in
  if negb (prefix_IsValid net) || negb (addr_IsValid first) || negb (addr_Less first last) then None
  else Some (restoreState (mkPool gateway first last (addr_Prev first) false net s)).
End Pool.
Arguments FakePool S : clear implicits.

(** ** The skipper *)

(** @go component/fakeip/skipper.go:7-16 UseRealIP, Skipper *)
Definition UseRealIP : string := "real-ip".
Record Skipper := mkSkipper {
  s_Rules : list (string -> option string);  (* the action of a rule that matches *)
  s_Host : list (string -> bool);
  s_WhiteList : bool
}.

(** @go component/fakeip/skipper.go:37-44 Skipper.shouldSkipped *)
Definition shouldSkipped (p : Skipper) (domain : string) : bool := existsb (fun matcher => matcher domain) (s_Host p).

(** @go component/fakeip/skipper.go:18-35 Skipper.ShouldSkipped *)
Definition ShouldSkipped (p : Skipper) (domain : string) : bool :=
  match s_Rules p with
  | [] => if s_WhiteList p then negb (shouldSkipped p domain) else shouldSkipped p domain
  | rules =>
      match List.find (fun r => bool_decide (is_Some (r domain))) rules with
      | Some r => bool_decide (r domain = Some UseRealIP)
      | None => false
      end
  end.
