(* ===== verification/FakeIpProps.v ===== *)
(** * Fake-IP pools: correctness

    What a pool needs of its store is a class of laws, [FakeStoreLaws]; the two
    LRU caches of [memoryStore] satisfy it because they are mirror images.  From
    the laws alone: a pool never gives one address to two names, and hands its
    addresses out in turn. *)

From S2P Require Import Prelude Names Netip Lru LruProps FakeIp.

(** ** The contract of a store *)

(** [ip_of] and [host_of] are what the store remembers. *)
Class FakeStoreLaws (S : Type) `{FakeStore S} := {
  store_ok : S -> Prop;
  ip_of : S -> string -> option Addr;
  host_of : S -> Addr -> option string;
  law_inverse s h i : store_ok s -> ip_of s h = Some i <-> host_of s i = Some h;
  law_GetByHost s h : store_ok s ->
    (GetByHost h s).1 = ip_of s h /\ store_ok (GetByHost h s).2 /\ forall j, host_of (GetByHost h s).2 j = host_of s j;
  law_GetByIP s i : store_ok s ->
    (GetByIP i s).1 = host_of s i /\ store_ok (GetByIP i s).2 /\ forall j, host_of (GetByIP i s).2 j = host_of s j;
  law_Exist s i : store_ok s -> ExistIP i s = bool_decide (is_Some (host_of s i));
  law_DelByIP s i : store_ok s ->
    store_ok (DelByIP i s) /\ forall j, host_of (DelByIP i s) j = if decide (j = i) then None else host_of s j;
  law_Put s h i : store_ok s -> ip_of s h = None -> host_of s i = None ->
    let s' := PutByHost h i (PutByIP i h s) in
    store_ok s' /\ host_of s' i = Some h /\
    forall j g, host_of s' j = Some g -> j = i \/ host_of s j = Some g;
  law_Flush s : store_ok s -> (FlushStore s).1 = false ->
    store_ok (FlushStore s).2 /\ forall j, host_of (FlushStore s).2 j = None
}.

(** ** The memory store *)

Definition swap_pair (x : string * Addr) : Addr * string := (x.2, x.1).

Definition plain {K V} (x : K * V) : entry K V := mkEntry x.1 x.2 0.

(** Pairs, least recent first, and the caches as their mirror images. *)
Definition mem_repr (m : memoryStore) (size : Z) (l : list (string * Addr)) : Prop :=
  impl (cacheIP m) (heapIP m) (mkSpec (map plain l) []) /\
  impl (cacheHost m) (heapHost m) (mkSpec (map plain (map swap_pair l)) []) /\
  settings_of (cacheIP m) = mkSettings 0 size false false false /\
  settings_of (cacheHost m) = mkSettings 0 size false false false /\
  NoDup l.*1 /\ NoDup l.*2.

Section Plain.
Context {K V : Type} `{Countable K}.
Implicit Types (l : list (K * V)).

Definition no_age (size : Z) : settings := mkSettings 0 size false false false.

Lemma plain_find k l : List.find (sp_key k) (map (@plain K V) l) = plain <$> List.find (fun x => bool_decide (x.1 = k)) l.
Proof. induction l as [|x l IH]; [done|]. simpl. unfold sp_key at 1. simpl. by destruct (bool_decide (x.1 = k)). Qed.

Definition drop_key k l : list (K * V) := List.filter (fun x => negb (bool_decide (x.1 = k))) l.

Lemma plain_without k l : sp_without k (map (@plain K V) l) = map plain (drop_key k l).
Proof. unfold sp_without, drop_key. induction l as [|x l IH]; [done|]. simpl. unfold sp_key at 1. simpl. destruct (bool_decide _); simpl; by rewrite IH. Qed.

Lemma plain_get size t k l :
  sp_get (no_age size) t k (mkSpec (map plain l) []) =
  match List.find (fun x => bool_decide (x.1 = k)) l with
  | Some x => (Some (plain x), mkSpec (map plain (drop_key k l ++ [x])) [])
  | None => (None, mkSpec (map plain l) [])
  end.
Proof.
  unfold sp_get, sp_find. cbn [sp_entries]. rewrite plain_find. destruct (List.find _ l) as [x|]; [|done]. cbn.
  by rewrite plain_without, map_app.
Qed.

Lemma plain_set size t k v l :
  List.find (fun x => bool_decide (x.1 = k)) l = None ->
  sp_set (no_age size) t k v (mkSpec (map plain l) []) =
  mkSpec (map plain (let l' := l ++ [(k, v)] in
    if (0 <? size) && (size <? Z.of_nat (length l')) then match l' with x :: _ => drop_key x.1 l' | [] => l' end else l')) [].
Proof.
  intros Hf. unfold sp_set, sp_put, sp_find. cbn [sp_entries sp_log no_age g_age g_size]. change (0 <? 0) with false. cbv iota.
  rewrite plain_find, Hf. cbn [fmap option_fmap option_map]. unfold sp_purge. cbn [ages no_age g_stale g_age negb andb].
  change (0 <? 0) with false. cbn [andb].
  rewrite sp_without_none by (by rewrite plain_find, Hf).
  change [mkEntry k v 0] with (map (@plain K V) [(k, v)]). rewrite <- map_app, length_map. cbv zeta.
  destruct (_ && _); [|done]. destruct (l ++ [(k, v)]) as [|x l2]; [done|]. cbn [map]. unfold sp_drop. cbn [sp_entries sp_log g_evict no_age].
  change (plain x :: map plain l2) with (map (@plain K V) (x :: l2)). by rewrite plain_without.
Qed.

Lemma drop_key_elem k l x : x ∈ drop_key k l <-> x ∈ l /\ x.1 <> k.
Proof.
  unfold drop_key. rewrite !list_elem_of_In, filter_In, negb_true_iff. by rewrite bool_decide_eq_false.
Qed.

Lemma drop_key_sublist k l : drop_key k l `sublist_of` l.
Proof. unfold drop_key. induction l as [|x l IH]; [done|]. simpl. destruct (negb _); [by apply sublist_skip|by apply sublist_cons]. Qed.
End Plain.

(** Dropping a name and dropping its address are the same. *)
Lemma drop_mirror (l : list (string * Addr)) x :
  NoDup l.*1 -> NoDup l.*2 -> x ∈ l -> drop_key x.2 (map swap_pair l) = map swap_pair (drop_key x.1 l).
Proof.
  intros H1 H2 Hx. unfold drop_key.
  assert (Hext : forall y, y ∈ l -> bool_decide (y.2 = x.2) = bool_decide (y.1 = x.1)).
  { intros y Hy. apply bool_decide_ext. apply list_elem_of_lookup in Hx as [i Hi], Hy as [j Hj].
    split; intros E.
    - assert (i = j) as -> by (eapply (NoDup_lookup l.*2); [done| |]; rewrite list_lookup_fmap; [by rewrite Hi|rewrite Hj; simpl; by rewrite E]).
      congruence.
    - assert (i = j) as -> by (eapply (NoDup_lookup l.*1); [done| |]; rewrite list_lookup_fmap; [by rewrite Hi|rewrite Hj; simpl; by rewrite E]).
      congruence. }
  clear H1 H2 Hx. induction l as [|y l IH]; [done|]. cbn [map List.filter swap_pair fst]. rewrite (Hext y) by left.
  specialize (IH (fun z Hz => Hext z (list_elem_of_further z y l Hz))).
  destruct (bool_decide (y.1 = x.1)); cbn [negb map]; by rewrite IH.
Qed.

(** What a cache holds for a key. *)
Definition held_value {K V} `{Countable K} (c : LruCache K V) (h : heap K V) (k : K) : option V :=
  match cache c !! k with Some p => e_value <$> h_entries h !! p | None => None end.

Lemma impl_peek {K V} `{Countable K} (c : LruCache K V) h s k : impl c h s -> held_value c h k = e_value <$> sp_find k s.
Proof.
  intros (l & Hr & <- & _). unfold held_value. pose proof (repr_find c h l k Hr) as Hf. destruct (cache c !! k) as [p|].
  - by destruct Hf as (e & _ & _ & -> & ->).
  - by destruct Hf as [-> _].
Qed.

Lemma impl_exist {K V} `{Countable K} (c : LruCache K V) h s k : impl c h s -> Exist k c = bool_decide (is_Some (held_value c h k)).
Proof.
  intros (l & Hr & <- & _). unfold Exist, held_value. pose proof (repr_find c h l k Hr) as Hf. destruct (cache c !! k) as [p|].
  - destruct Hf as (e & _ & _ & -> & _). by rewrite !bool_decide_eq_true_2 by (by eexists).
  - by rewrite !bool_decide_eq_false_2 by (by intros [? [=]]).
Qed.

Definition mem_ip_of (m : memoryStore) (host : string) : option Addr := held_value (cacheIP m) (heapIP m) host.
Definition mem_host_of (m : memoryStore) (ip : Addr) : option string := held_value (cacheHost m) (heapHost m) ip.

Definition find_host (host : string) (l : list (string * Addr)) := List.find (fun x => bool_decide (x.1 = host)) l.
Definition find_ip (ip : Addr) (l : list (string * Addr)) := List.find (fun x => bool_decide (x.2 = ip)) l.

Lemma find_swap ip l : List.find (fun x => bool_decide (x.1 = ip)) (map swap_pair l) = swap_pair <$> find_ip ip l.
Proof. unfold find_ip. induction l as [|x l IH]; [done|]. simpl. by destruct (bool_decide (x.2 = ip)). Qed.

Lemma mem_ip_of_spec m size l host : mem_repr m size l -> mem_ip_of m host = snd <$> find_host host l.
Proof.
  intros (H1 & _). unfold mem_ip_of. rewrite (impl_peek _ _ _ _ H1). unfold sp_find. cbn [sp_entries]. rewrite plain_find.
  unfold find_host. by destruct (List.find _ l).
Qed.

Lemma mem_host_of_spec m size l ip : mem_repr m size l -> mem_host_of m ip = fst <$> find_ip ip l.
Proof.
  intros (_ & H2 & _). unfold mem_host_of. rewrite (impl_peek _ _ _ _ H2). unfold sp_find. cbn [sp_entries].
  rewrite plain_find, find_swap. by destruct (find_ip ip l).
Qed.

Lemma find_host_Some host l x : NoDup l.*1 -> find_host host l = Some x <-> x ∈ l /\ x.1 = host.
Proof.
  intros Hn. unfold find_host. split.
  - intros F. apply find_some in F as [F1 F2]. apply bool_decide_eq_true in F2. by apply list_elem_of_In in F1.
  - intros [Hin <-]. destruct (List.find _ l) as [y|] eqn:F.
    + apply find_some in F as [F1 F2]. apply bool_decide_eq_true in F2. apply list_elem_of_In in F1. f_equal.
      apply list_elem_of_lookup in F1 as [i Hi], Hin as [j Hj].
      assert (i = j) as -> by (eapply (NoDup_lookup l.*1); [done| |]; rewrite list_lookup_fmap; [by rewrite Hi|rewrite Hj; simpl; by rewrite F2]).
      congruence.
    + exfalso. apply list_elem_of_In in Hin. apply (find_none _ _ F) in Hin. simpl in Hin. by rewrite bool_decide_eq_true_2 in Hin.
Qed.

Lemma find_ip_Some ip l x : NoDup l.*2 -> find_ip ip l = Some x <-> x ∈ l /\ x.2 = ip.
Proof.
  intros Hn. unfold find_ip. split.
  - intros F. apply find_some in F as [F1 F2]. apply bool_decide_eq_true in F2. by apply list_elem_of_In in F1.
  - intros [Hin <-]. destruct (List.find _ l) as [y|] eqn:F.
    + apply find_some in F as [F1 F2]. apply bool_decide_eq_true in F2. apply list_elem_of_In in F1. f_equal.
      apply list_elem_of_lookup in F1 as [i Hi], Hin as [j Hj].
      assert (i = j) as -> by (eapply (NoDup_lookup l.*2); [done| |]; rewrite list_lookup_fmap; [by rewrite Hi|rewrite Hj; simpl; by rewrite F2]).
      congruence.
    + exfalso. apply list_elem_of_In in Hin. apply (find_none _ _ F) in Hin. simpl in Hin. by rewrite bool_decide_eq_true_2 in Hin.
Qed.

(** The pairs of a well-formed list, moved or dropped. *)
Lemma drop_NoDup (k : string) (l : list (string * Addr)) : NoDup l.*1 -> NoDup l.*2 -> NoDup (drop_key k l).*1 /\ NoDup (drop_key k l).*2.
Proof.
  intros H1 H2. pose proof (drop_key_sublist k l) as Hs. split; by eapply sublist_fmap_NoDup.
Qed.

Lemma touch_NoDup (l : list (string * Addr)) x :
  NoDup l.*1 -> NoDup l.*2 -> x ∈ l -> NoDup (drop_key x.1 l ++ [x]).*1 /\ NoDup (drop_key x.1 l ++ [x]).*2.
Proof.
  intros H1 H2 Hx. destruct (drop_NoDup x.1 l H1 H2) as [D1 D2]. rewrite !fmap_app. split; apply NoDup_app;
    (split; [done|]; split; [|apply NoDup_singleton]); intros k Hk Hk'; apply list_elem_of_singleton in Hk' as ->;
    apply list_elem_of_fmap in Hk as (y & Ey & Hy); apply drop_key_elem in Hy as [Hy Hne]; [congruence|].
  apply Hne. f_equal. assert (E1 : find_ip x.2 l = Some x) by (by apply find_ip_Some).
  assert (E2 : find_ip x.2 l = Some y) by (by apply find_ip_Some). congruence.
Qed.

(** Reading a pair through one cache and then the other moves both copies. *)
Lemma get_ip_spec m size l host :
  mem_repr m size l ->
  match find_host host l with
  | Some x => (get_ip host m).1 = Some x.2 /\
      impl (cacheIP (get_ip host m).2) (heapIP (get_ip host m).2) (mkSpec (map plain (drop_key x.1 l ++ [x])) []) /\
      settings_of (cacheIP (get_ip host m).2) = no_age size
  | None => (get_ip host m).1 = None /\
      impl (cacheIP (get_ip host m).2) (heapIP (get_ip host m).2) (mkSpec (map plain l) []) /\
      settings_of (cacheIP (get_ip host m).2) = no_age size
  end /\ cacheHost (get_ip host m).2 = cacheHost m /\ heapHost (get_ip host m).2 = heapHost m.
Proof.
  intros (H1 & H2 & H3 & H4 & H5 & H6). unfold get_ip, Get.
  pose proof (get_repr no_clock host _ _ _ H1) as Hg. rewrite H3 in Hg. change (mkSettings 0 size false false false) with (no_age size) in Hg.
  rewrite plain_get in Hg. fold (find_host host l) in Hg.
  destruct (get no_clock host (cacheIP m) (heapIP m)) as [[[p|] c] h]; destruct (find_host host l) as [x|] eqn:F;
    destruct Hg as (G1 & G2 & G3); try done.
  - destruct G3 as (y & E & [= <-]). rewrite E. cbn. split; [|done]. split; [done|]. split; [|done].
    assert (x.1 = host) as -> by (apply find_some in F as [_ F]; by apply bool_decide_eq_true in F). exact G1.
  - by destruct G3 as (y & _ & [=]).
Qed.

Lemma get_host_spec m size l ip :
  impl (cacheHost m) (heapHost m) (mkSpec (map plain (map swap_pair l)) []) -> settings_of (cacheHost m) = no_age size ->
  match find_ip ip l with
  | Some x => (get_host ip m).1 = Some x.1 /\
      impl (cacheHost (get_host ip m).2) (heapHost (get_host ip m).2) (mkSpec (map plain (drop_key ip (map swap_pair l) ++ [swap_pair x])) [])
  | None => (get_host ip m).1 = None /\
      impl (cacheHost (get_host ip m).2) (heapHost (get_host ip m).2) (mkSpec (map plain (map swap_pair l)) [])
  end /\ cacheIP (get_host ip m).2 = cacheIP m /\ heapIP (get_host ip m).2 = heapIP m /\
  settings_of (cacheHost (get_host ip m).2) = no_age size.
Proof.
  intros H2 H4. unfold get_host, Get.
  pose proof (get_repr no_clock ip _ _ _ H2) as Hg. rewrite H4 in Hg.
  rewrite plain_get, find_swap in Hg.
  destruct (get no_clock ip (cacheHost m) (heapHost m)) as [[[p|] c] h]; destruct (find_ip ip l) as [x|] eqn:F;
    cbn [fmap option_fmap option_map] in Hg; destruct Hg as (G1 & G2 & G3); try done.
  - destruct G3 as (y & E & [= <-]). rewrite E. cbn. by split.
  - by destruct G3 as (y & _ & [=]).
Qed.

(** The memory store's operations on the list of pairs. *)
Lemma mem_GetByHost_repr m size l host :
  mem_repr m size l ->
  match find_host host l with
  | Some x => (mem_GetByHost host m).1 = Some x.2 /\ mem_repr (mem_GetByHost host m).2 size (drop_key x.1 l ++ [x])
  | None => (mem_GetByHost host m).1 = None /\ mem_repr (mem_GetByHost host m).2 size l
  end.
Proof.
  intros Hm. pose proof (get_ip_spec m size l host Hm) as Hg. destruct Hm as (H1 & H2 & H3 & H4 & H5 & H6).
  unfold mem_GetByHost. destruct (get_ip host m) as [o m1]. cbn [fst snd] in Hg.
  destruct (find_host host l) as [x|] eqn:F; destruct Hg as [(-> & G1 & G2) [G3 G4]].
  - pose proof F as F'. apply (find_host_Some host l x H5) in F' as [Hin _]. split; [done|]. cbn [snd].
    assert (Hi : impl (cacheHost m1) (heapHost m1) (mkSpec (map plain (map swap_pair l)) [])) by (by rewrite G3, G4).
    assert (Hs : settings_of (cacheHost m1) = no_age size) by (by rewrite G3).
    destruct (get_host_spec m1 size l x.2 Hi Hs) as (Hh & E1 & E2 & E3).
    rewrite (proj2 (find_ip_Some x.2 l x H6)) in Hh by done. destruct Hh as [_ Hh].
    rewrite (drop_mirror l x H5 H6 Hin) in Hh. change [swap_pair x] with (map swap_pair [x]) in Hh. rewrite <- map_app in Hh.
    destruct (touch_NoDup l x H5 H6 Hin) as [T1 T2]. unfold mem_repr. rewrite E1, E2. by split_and!.
  - split; [done|]. cbn [snd]. unfold mem_repr. rewrite G3, G4. by split_and!.
Qed.

Lemma mem_GetByIP_repr m size l ip :
  mem_repr m size l ->
  match find_ip ip l with
  | Some x => (mem_GetByIP ip m).1 = Some x.1 /\ mem_repr (mem_GetByIP ip m).2 size (drop_key x.1 l ++ [x])
  | None => (mem_GetByIP ip m).1 = None /\ mem_repr (mem_GetByIP ip m).2 size l
  end.
Proof.
  intros (H1 & H2 & H3 & H4 & H5 & H6). destruct (get_host_spec m size l ip H2 H4) as (Hh & E1 & E2 & E3).
  unfold mem_GetByIP. destruct (get_host ip m) as [o m1]. cbn [fst snd] in *.
  destruct (find_ip ip l) as [x|] eqn:F; destruct Hh as [-> Hh].
  - pose proof F as F'. apply (find_ip_Some ip l x H6) in F' as [Hin Hx]. subst ip. split; [done|]. cbn [snd].
    unfold get_ip, Get. rewrite E1, E2.
    pose proof (get_repr no_clock x.1 _ _ _ H1) as Hg. rewrite H3 in Hg. change (mkSettings 0 size false false false) with (no_age size) in Hg.
    rewrite plain_get in Hg. fold (find_host x.1 l) in Hg. rewrite (proj2 (find_host_Some x.1 l x H5)) in Hg by done.
    rewrite (drop_mirror l x H5 H6 Hin) in Hh. change [swap_pair x] with (map swap_pair [x]) in Hh. rewrite <- map_app in Hh.
    destruct (touch_NoDup l x H5 H6 Hin) as [T1 T2].
    destruct (get no_clock x.1 (cacheIP m) (heapIP m)) as [[[p|] c] h]; destruct Hg as (G1 & G2 & G3); unfold mem_repr; cbn;
      by split_and!.
  - split; [done|]. cbn [snd]. unfold mem_repr. rewrite E1, E2. by split_and!.
Qed.

Lemma mem_DelByIP_repr m size l ip :
  mem_repr m size l ->
  mem_repr (mem_DelByIP ip m) size (match find_ip ip l with Some x => drop_key x.1 l | None => l end).
Proof.
  intros (H1 & H2 & H3 & H4 & H5 & H6). destruct (get_host_spec m size l ip H2 H4) as (Hh & E1 & E2 & E3).
  unfold mem_DelByIP. destruct (get_host ip m) as [o m1]. cbn [fst snd] in *.
  assert (Hdel : forall {A B} `{Countable A} (c : LruCache A B) h (k : A) (q : list (A * B)),
    impl c h (mkSpec (map plain q) []) -> settings_of c = no_age size ->
    impl (delete_key k c h) h (mkSpec (map plain (drop_key k q)) []) /\ settings_of (delete_key k c h) = no_age size).
  { intros A B ? ? c h k q Hi Hs. destruct (delete_repr k c h _ Hi) as [D1 D2]. rewrite Hs in D1, D2. split; [|done].
    replace (mkSpec (map plain (drop_key k q)) []) with (sp_delete (no_age size) k (mkSpec (map plain q) [])); [done|].
    unfold sp_delete, sp_find. cbn [sp_entries]. rewrite plain_find. destruct (List.find _ q) as [x|] eqn:F.
    - cbn [fmap option_fmap option_map]. unfold sp_drop. cbn [sp_entries sp_log g_evict no_age]. apply find_some in F as [_ F].
      apply bool_decide_eq_true in F. subst k. change (e_key (plain x)) with x.1. by rewrite plain_without.
    - cbn. f_equal. f_equal. unfold drop_key. symmetry. apply forallb_filter_id, forallb_forall.
      intros x Hx. apply (find_none _ _ F) in Hx. by rewrite Hx. }
  destruct (find_ip ip l) as [x|] eqn:F; destruct Hh as [-> Hh]; cbn [fst snd].
  - pose proof F as F'. apply (find_ip_Some ip l x H6) in F' as [Hin Hx]. subst ip.
    destruct (Hdel _ _ _ _ _ _ x.2 (drop_key x.2 (map swap_pair l) ++ [swap_pair x]) Hh E3) as [D1 D2].
    rewrite <- E1 in H3. rewrite <- E1, <- E2 in H1.
    destruct (Hdel _ _ _ _ _ _ x.1 l H1 H3) as [D3 D4].
    assert (Ed : drop_key x.2 (drop_key x.2 (map swap_pair l) ++ [swap_pair x]) = map swap_pair (drop_key x.1 l)).
    { rewrite (drop_mirror l x H5 H6 Hin). unfold drop_key at 1. rewrite List.filter_app. cbn.
      rewrite bool_decide_eq_true_2 by done. cbn. rewrite app_nil_r. apply forallb_filter_id, forallb_forall.
      intros y Hy. rewrite <- (drop_mirror l x H5 H6 Hin) in Hy. apply filter_In in Hy as [_ Hy]. exact Hy. }
    rewrite Ed in D1. destruct (drop_NoDup x.1 l H5 H6) as [N1 N2]. unfold mem_repr. cbn. by split_and!.
  - destruct (Hdel _ _ _ _ _ _ ip (map swap_pair l) Hh E3) as [D1 D2].
    assert (Ed : drop_key ip (map swap_pair l) = map swap_pair l).
    { unfold drop_key. apply forallb_filter_id, forallb_forall. intros y Hy. apply in_map_iff in Hy as (z & <- & Hz).
      apply (find_none _ _ F) in Hz. cbn in *. by rewrite Hz. }
    rewrite Ed in D1. unfold mem_repr. cbn. rewrite E1, E2. by split_and!.
Qed.

Lemma mem_Put_repr m size l host ip :
  mem_repr m size l -> find_host host l = None -> find_ip ip l = None ->
  exists l', mem_repr (mem_PutByHost host ip (mem_PutByIP ip host m)) size l' /\ (host, ip) ∈ l' /\
    forall x, x ∈ l' -> x = (host, ip) \/ x ∈ l.
Proof.
  intros (H1 & H2 & H3 & H4 & H5 & H6) F1 F2.
  unfold mem_PutByHost, mem_PutByIP, Set_.
  pose proof (set_repr no_clock ip host _ _ _ H2) as S2. rewrite H4 in S2.
  change (mkSettings 0 size false false false) with (no_age size) in S2.
  rewrite plain_set in S2 by (by rewrite find_swap, F2).
  destruct (set no_clock ip host (cacheHost m) (heapHost m)) as [c2 h2]. cbn [cacheIP heapIP cacheHost heapHost].
  pose proof (set_repr no_clock host ip _ _ _ H1) as S1. rewrite H3 in S1.
  change (mkSettings 0 size false false false) with (no_age size) in S1.
  rewrite plain_set in S1 by exact F1.
  destruct (set no_clock host ip (cacheIP m) (heapIP m)) as [c1 h1]. cbn zeta in S1, S2.
  set (l1 := l ++ [(host, ip)]) in *.
  assert (Em : map swap_pair l ++ [(ip, host)] = map swap_pair l1) by (unfold l1; by rewrite map_app). rewrite Em in S2.
  rewrite length_map in S2.
  assert (Hnd1 : NoDup l1.*1).
  { unfold l1. rewrite fmap_app. apply NoDup_app. split; [done|]. split; [|apply NoDup_singleton].
    intros k Hk Hk'. apply list_elem_of_singleton in Hk' as ->. apply list_elem_of_fmap in Hk as (y & Ey & Hy).
    assert (E : find_host host l = Some y) by (by apply find_host_Some). congruence. }
  assert (Hnd2 : NoDup l1.*2).
  { unfold l1. rewrite fmap_app. apply NoDup_app. split; [done|]. split; [|apply NoDup_singleton].
    intros k Hk Hk'. apply list_elem_of_singleton in Hk' as ->. apply list_elem_of_fmap in Hk as (y & Ey & Hy).
    assert (E : find_ip ip l = Some y) by (by apply find_ip_Some). congruence. }
  assert (Hsub : forall x, x ∈ l1 -> x = (host, ip) \/ x ∈ l).
  { intros x Hx. unfold l1 in Hx. apply elem_of_app in Hx as [Hx|Hx]; [by right|]. apply list_elem_of_singleton in Hx. by left. }
  destruct ((0 <? size) && (size <? Z.of_nat (length l1))) eqn:E.
  - destruct l1 as [|x l2] eqn:El; [unfold l1 in El; by destruct l|]. cbn [map] in S2.
    change (swap_pair x :: map swap_pair l2) with (map swap_pair (x :: l2)) in S2. cbn [swap_pair fst] in S2.
    rewrite (drop_mirror (x :: l2) x Hnd1 Hnd2 ltac:(left)) in S2. exists (drop_key x.1 (x :: l2)).
    destruct (drop_NoDup x.1 (x :: l2) Hnd1 Hnd2) as [N1 N2]. destruct S1, S2. split; [by split_and!|]. split.
    + apply drop_key_elem. split; [rewrite <- El; unfold l1; apply elem_of_app; right; left|]. cbn [fst]. intros Ex.
      zify_bool. (* the new pair is the first one only in a list of one *)
      destruct l as [|y l]; cbn in El; [injection El as <- <-; cbn in *; lia|]. injection El as -> <-.
      assert (Ef : find_host host (x :: l) = Some x) by (by apply find_host_Some; [|split; [left|]]). congruence.
    + intros y Hy. apply drop_key_elem in Hy as [Hy _]. by apply Hsub.
  - exists l1. destruct S1, S2. split; [by split_and!|]. split; [unfold l1; apply elem_of_app; right; left|done].
Qed.

Lemma find_ip_touch (l : list (string * Addr)) x j :
  NoDup l.*1 -> NoDup l.*2 -> x ∈ l -> fst <$> find_ip j (drop_key x.1 l ++ [x]) = fst <$> find_ip j l.
Proof.
  intros H1 H2 Hx. destruct (touch_NoDup l x H1 H2 Hx) as [T1 T2].
  assert (Hiff : forall y, y ∈ drop_key x.1 l ++ [x] <-> y ∈ l).
  { intros y. rewrite elem_of_app, drop_key_elem, list_elem_of_singleton. split; [by intros [[? ?]| ->]|].
    intros Hy. destruct (decide (y.1 = x.1)) as [E|E]; [|by left]. right.
    assert (E1 : find_host x.1 l = Some x) by (by apply find_host_Some).
    assert (E2 : find_host x.1 l = Some y) by (by apply find_host_Some). congruence. }
  destruct (find_ip j l) as [y|] eqn:F.
  - apply find_ip_Some in F; [|done]. by rewrite (proj2 (find_ip_Some j _ y T2)) by (by rewrite Hiff).
  - destruct (find_ip j (_ ++ _)) as [y|] eqn:F'; [|done]. apply find_ip_Some in F'; [|done]. rewrite Hiff in F'.
    apply find_ip_Some in F'; [|done]. congruence.
Qed.

(** A store of two mirrored caches keeps the contract. *)
#[export] Instance memory_laws : FakeStoreLaws memoryStore.
Proof.
  apply (Build_FakeStoreLaws _ _ (fun m => exists size l, mem_repr m size l) mem_ip_of mem_host_of).
  - intros m h i (size & l & Hm). pose proof Hm as (_ & _ & _ & _ & N1 & N2).
    rewrite (mem_ip_of_spec _ _ _ h Hm), (mem_host_of_spec _ _ _ i Hm), !fmap_Some. split; intros (x & F & ->).
    + apply find_host_Some in F as [F <-]; [|done]. exists x. by rewrite (find_ip_Some _ _ _ N2).
    + apply find_ip_Some in F as [F <-]; [|done]. exists x. by rewrite (find_host_Some _ _ _ N1).
  - intros m h (size & l & Hm). pose proof Hm as (_ & _ & _ & _ & N1 & N2).
    pose proof (mem_GetByHost_repr m size l h Hm) as Hr. rewrite (mem_ip_of_spec _ _ _ h Hm). change GetByHost with mem_GetByHost.
    destruct (find_host h l) as [x|] eqn:F; destruct Hr as [-> Hr]; (split; [done|]); (split; [by eexists _, _|]); intros j;
      rewrite (mem_host_of_spec _ _ _ j Hm), (mem_host_of_spec _ _ _ j Hr); [|done].
    apply find_ip_touch; [done|done|]. by apply find_host_Some in F as [? _].
  - intros m i (size & l & Hm). pose proof Hm as (_ & _ & _ & _ & N1 & N2).
    pose proof (mem_GetByIP_repr m size l i Hm) as Hr. rewrite (mem_host_of_spec _ _ _ i Hm). change GetByIP with mem_GetByIP.
    destruct (find_ip i l) as [x|] eqn:F; destruct Hr as [-> Hr]; (split; [done|]); (split; [by eexists _, _|]); intros j;
      rewrite (mem_host_of_spec _ _ _ j Hm), (mem_host_of_spec _ _ _ j Hr); [|done].
    apply find_ip_touch; [done|done|]. by apply find_ip_Some in F as [? _].
  - intros m i (size & l & Hm). destruct Hm as (_ & Hm & _). exact (impl_exist _ _ _ i Hm).
  - intros m i (size & l & Hm). pose proof Hm as (_ & _ & _ & _ & N1 & N2).
    pose proof (mem_DelByIP_repr m size l i Hm) as Hr. change DelByIP with mem_DelByIP. split; [by eexists _, _|]. intros j.
    rewrite (mem_host_of_spec _ _ _ j Hm), (mem_host_of_spec _ _ _ j Hr). destruct (find_ip i l) as [x|] eqn:F.
    + apply find_ip_Some in F as [F <-]; [|done]. destruct (drop_NoDup x.1 l N1 N2) as [D1 D2].
      assert (Hx : forall y, y ∈ l -> y.1 = x.1 <-> y.2 = x.2).
      { intros y Hy. split; intros E.
        - assert (E1 : find_host x.1 l = Some x) by (by apply find_host_Some).
          assert (E2 : find_host x.1 l = Some y) by (by apply find_host_Some). congruence.
        - assert (E1 : find_ip x.2 l = Some x) by (by apply find_ip_Some).
          assert (E2 : find_ip x.2 l = Some y) by (by apply find_ip_Some). congruence. }
      destruct (find_ip j (drop_key x.1 l)) as [y|] eqn:Fj.
      * apply find_ip_Some in Fj as [Fj <-]; [|done]. apply drop_key_elem in Fj as [Fj Hne]. rewrite Hx in Hne by done.
        rewrite decide_False by done. by rewrite (proj2 (find_ip_Some y.2 l y N2)).
      * destruct (decide (j = x.2)) as [->|Hne]; [done|]. destruct (find_ip j l) as [y|] eqn:Fl; [|done].
        apply find_ip_Some in Fl as [Fl <-]; [|done]. rewrite (proj2 (find_ip_Some y.2 _ y D2)) in Fj; [done|].
        split; [|done]. apply drop_key_elem. split; [done|]. by rewrite Hx.
    + destruct (decide (j = i)) as [->|]; [by rewrite F|done].
  - intros m h i (size & l & Hm) E1 E2. pose proof Hm as (_ & _ & _ & _ & N1 & N2).
    rewrite (mem_ip_of_spec _ _ _ h Hm) in E1. rewrite (mem_host_of_spec _ _ _ i Hm) in E2. apply fmap_None in E1, E2.
    destruct (mem_Put_repr m size l h i Hm E1 E2) as (l' & Hr & Hin & Hsub). pose proof Hr as (_ & _ & _ & _ & M1 & M2).
    change (PutByHost h i (PutByIP i h m)) with (mem_PutByHost h i (mem_PutByIP i h m)). cbn zeta. split; [by eexists _, _|].
    split.
    + by rewrite (mem_host_of_spec _ _ _ i Hr), (proj2 (find_ip_Some i l' (h, i) M2)).
    + intros j g. rewrite (mem_host_of_spec _ _ _ j Hr), (mem_host_of_spec _ _ _ j Hm), !fmap_Some. intros (x & F & ->).
      apply find_ip_Some in F as [F <-]; [|done]. destruct (Hsub x F) as [->|Hl]; [by left|]. right. exists x.
      by rewrite (find_ip_Some _ _ _ N2).
  - intros m (size & l & Hm) _. change (FlushStore m) with (mem_FlushFakeIP m).
    assert (Hr : mem_repr (mem_FlushFakeIP m).2 size []).
    { destruct Hm as (I1 & I2 & S1 & S2 & _).
      destruct (run_op_refines no_clock OClear _ _ _ I1) as (_ & J1 & _), (run_op_refines no_clock OClear _ _ _ I2) as (_ & J2 & _).
      split_and!; [exact J1|exact J2|exact S1|exact S2|apply NoDup_nil_2|apply NoDup_nil_2]. }
    split; [by eexists _, _|]. intros j. by rewrite (mem_host_of_spec _ _ _ j Hr).
Defined.

(** ** Pools over any store that keeps the contract *)

(** The addresses a pool may hand out: [first] up to, not including, [last]. *)
Definition in_range {S} `{FakeStore S} (p : FakePool S) (i : Addr) : Prop :=
  a_bits i = a_bits (first p) /\ a_val (first p) <= a_val i < a_val (last p).

Definition range_ok {S} `{FakeStore S} (p : FakePool S) : Prop :=
  a_bits (last p) = a_bits (first p) /\ a_bits (offset p) = a_bits (first p) /\
  0 < a_val (first p) < a_val (last p) /\ a_val (last p) < addr_limit (first p) /\
  a_val (first p) - 1 <= a_val (offset p) < a_val (last p).

(** How many addresses there are, and the one [k] turns after [offset]. *)
Definition pool_size {S} `{FakeStore S} (p : FakePool S) : Z := a_val (last p) - a_val (first p).
Definition slot {S} `{FakeStore S} (p : FakePool S) (k : Z) : Addr :=
  mkAddr (a_bits (first p)) (a_val (first p) + (a_val (offset p) - a_val (first p) + k) mod pool_size p).

(** The pool's own fields, without the store. *)
Definition frame {S} `{FakeStore S} (p : FakePool S) := (first p, last p, ipnet p, gateway p).

Section PoolProps.
Context {S : Type} `{FakeStoreLaws S}.
Implicit Types (p q : FakePool S).

Definition pool_ok p : Prop :=
  range_ok p /\ store_ok (store_ p) /\ forall i h, host_of (store_ p) i = Some h -> in_range p i.

Lemma slot_in_range p k : range_ok p -> in_range p (slot p k).
Proof.
  intros (R1 & R2 & R3 & R4 & R5). unfold in_range, slot. cbn. split; [done|].
  pose proof (Z.mod_pos_bound (a_val (offset p) - a_val (first p) + k) (pool_size p)). unfold pool_size in *. lia.
Qed.

(** Allocation advances by one and wraps at the end. *)
Lemma fake_get_slot host p :
  range_ok p -> let '(i, q) := fake_get host p in
  i = slot p 1 /\ offset q = i /\ frame q = frame p /\ range_ok q.
Proof.
  intros R. pose proof R as (R1 & R2 & R3 & R4 & R5). unfold fake_get. set (p1 := set_offset p (addr_Next (offset p)) (cycle p)).
  assert (E1 : addr_Next (offset p) = mkAddr (a_bits (first p)) (a_val (offset p) + 1)).
  { unfold addr_Next. rewrite R2. replace (addr_limit (offset p)) with (addr_limit (first p)) by (unfold addr_limit; by rewrite R2).
    destruct (_ =? _) eqn:E; [zify_bool; lia|done]. }
  set (p2 := if negb (addr_Less (offset p1) (last p1)) then set_offset p1 (first p1) true else p1).
  assert (E2 : offset p2 = slot p 1 /\ frame p2 = frame p).
  { subst p2 p1. cbn [offset set_offset last first]. rewrite E1. unfold addr_Less. cbn [a_bits a_val]. rewrite R1, Z.ltb_irrefl, Z.eqb_refl.
    cbn [orb andb]. unfold slot, pool_size. destruct (a_val (offset p) + 1 <? a_val (last p)) eqn:E; zify_bool; cbn.
    - split; [|done]. f_equal. rewrite Z.mod_small; lia.
    - split; [|done]. replace (_ + 1) with (a_val (last p) - a_val (first p)) by lia. rewrite Z.mod_same by lia.
      destruct (first p); cbn. f_equal. lia. }
  destruct E2 as [E2 E3]. set (p3 := if _ || _ then _ else _). assert (E4 : offset p3 = offset p2 /\ frame p3 = frame p2).
  { subst p3. by destruct (_ || _). }
  destruct E4 as [E4 E5]. cbn. rewrite E4, E2. split; [done|]. split; [done|].
  assert (E6 : frame p3 = frame p) by congruence. split; [exact E6|].
  destruct (slot_in_range p 1) as [I1 I2]; [done|]. unfold frame in E6. injection E6 as F1 F2 F3 F4.
  unfold range_ok. cbn. rewrite F1, F2, E4, E2. split_and!; try done; lia.
Qed.

(** The address handed out is free in the store before it is recorded. *)
Lemma fake_get_store host p :
  pool_ok p -> ip_of (store_ p) host = None ->
  let '(i, q) := fake_get host p in
  exists s, store_ q = PutByIP i host s /\ store_ok s /\ ip_of s host = None /\ host_of s i = None /\
    forall j g, host_of s j = Some g -> host_of (store_ p) j = Some g.
Proof.
  intros (R & Hs & _) Hh. pose proof (fake_get_slot host p R) as Hg. unfold fake_get in *.
  set (p2 := if negb _ then _ else _) in *.
  assert (E2 : store_ p2 = store_ p) by (subst p2; by destruct (negb _)).
  destruct (cycle p2 || ExistIP (offset p2) (store_ p2)) eqn:E; cbn in Hg |- *; eexists; (split; [reflexivity|]); rewrite E2.
  - destruct (law_DelByIP (store_ p) (offset p2) Hs) as [D1 D2]. split; [done|].
    assert (D3 : forall j g, host_of (DelByIP (offset p2) (store_ p)) j = Some g -> host_of (store_ p) j = Some g).
    { intros j g. rewrite D2. by destruct (decide _). }
    split_and!; [| |done].
    + destruct (ip_of (DelByIP _ _) host) as [j|] eqn:F; [|done]. apply law_inverse in F; [|done]. apply D3 in F.
      apply law_inverse in F; [congruence|done].
    + rewrite D2. by rewrite decide_True.
  - apply orb_false_iff in E as [_ E]. rewrite E2, (law_Exist _ _ Hs) in E. apply bool_decide_eq_false in E.
    split_and!; try done. by destruct (host_of (store_ p) (offset p2)); [destruct E|].
Qed.

Lemma Lookup_spec host p :
  pool_ok p ->
  let '(i, q) := Lookup host p in
  pool_ok q /\ host_of (store_ q) i = Some (ToLower host) /\ frame q = frame p /\
  match ip_of (store_ p) (ToLower host) with
  | Some j => i = j /\ offset q = offset p /\ cycle q = cycle p /\ forall j, host_of (store_ q) j = host_of (store_ p) j
  | None => i = slot p 1 /\ offset q = i /\
      forall j g, host_of (store_ q) j = Some g -> j = i \/ host_of (store_ p) j = Some g
  end.
Proof.
  intros Hp. unfold Lookup. set (n := ToLower host). pose proof Hp as (R & Hs & Hr).
  destruct (law_GetByHost (store_ p) n Hs) as (G1 & G2 & G3). destruct (GetByHost n (store_ p)) as [o s]. cbn [fst snd] in *.
  subst o. destruct (ip_of (store_ p) n) as [i|] eqn:Hi.
  - split; [split; [done|split; [done|]]|].
    + intros j g. cbn. rewrite G3. by apply Hr.
    + cbn. split; [rewrite G3; by apply law_inverse|done].
  - assert (Hp1 : pool_ok (set_store p s)).
    { split; [done|split; [done|]]. intros j g. cbn. rewrite G3. by apply Hr. }
    assert (Hn : ip_of (store_ (set_store p s)) n = None).
    { cbn. destruct (ip_of s n) as [j|] eqn:F; [|done]. apply law_inverse in F; [|done]. rewrite G3 in F.
      apply law_inverse in F; [congruence|done]. }
    pose proof (fake_get_slot n _ (proj1 Hp1)) as Hsl. pose proof (fake_get_store n _ Hp1 Hn) as Hst.
    destruct (fake_get n (set_store p s)) as [i q]. destruct Hsl as (S1 & S2 & S3 & S4).
    destruct Hst as (s0 & T1 & T2 & T3 & T4 & T5). destruct (law_Put s0 n i T2 T3 T4) as (P1 & P2 & P3). cbn.
    rewrite <- T1 in P1, P2, P3. split; [split; [done|split; [done|]]|split; [done|split; [done|split; [done|split; [done|]]]]].
    + intros j g Hj. cbn in Hj. unfold in_range. cbn. injection S3 as F1 F2 F3 F4. rewrite F1, F2.
      change (in_range (set_store p s) j). destruct (P3 j g Hj) as [->|Hj'].
      * rewrite S1. by apply slot_in_range.
      * by apply (proj2 (proj2 Hp1) j g), T5.
    + intros j g Hj. destruct (P3 j g Hj) as [?|Hj']; [by left|]. right. apply T5 in Hj'. cbn in Hj'. by rewrite <- G3.
Qed.

(** looking a name up, with any letter case, gives an address of the
    pool that [LookBack] turns back into the lower-cased name and that no
    other name has.  A name the store knows keeps its address and nothing
    else changes; a new name gets the next address in turn, and every other
    pair in the store was there before. *)
Lemma Lookup_bijective host p :
  pool_ok p ->
  let '(i, q) := Lookup host p in
  pool_ok q /\ in_range p i /\ (LookBack i q).1 = Some (ToLower host) /\
  (forall g, ip_of (store_ q) g = Some i <-> g = ToLower host) /\
  match ip_of (store_ p) (ToLower host) with
  | Some j => i = j /\ offset q = offset p /\ forall j, host_of (store_ q) j = host_of (store_ p) j
  | None => i = slot p 1 /\ offset q = i /\
      forall j g, host_of (store_ q) j = Some g -> j = i \/ host_of (store_ p) j = Some g
  end.
Proof.
  intros Hp. pose proof (Lookup_spec host p Hp) as Hl. destruct (Lookup host p) as [i q].
  destruct Hl as (L1 & L2 & L3 & L4). pose proof L1 as (_ & Hs & Hr). split; [done|]. split; [|split; [|split]].
  - pose proof (Hr _ _ L2) as Hi. unfold in_range in *. injection L3 as F1 F2 _ _. by rewrite F1, F2 in Hi.
  - unfold LookBack. pose proof (law_GetByIP (store_ q) i Hs) as (G & _). destruct (GetByIP i (store_ q)). cbn in *. by rewrite G.
  - intros g. rewrite (law_inverse _ _ _ Hs). rewrite L2. split; congruence.
  - destruct (ip_of (store_ p) (ToLower host)); [by destruct L4 as (? & ? & _ & ?)|done].
Qed.

(** The addresses given to a list of names that are all new. *)
Fixpoint allocate (hosts : list string) (p : FakePool S) : list Addr :=
  match hosts with [] => [] | h :: rest => let '(i, q) := fake_get h p in i :: allocate rest q end.

Lemma slot_step p q k : frame q = frame p -> range_ok p -> offset q = slot p 1 -> slot q k = slot p (k + 1).
Proof.
  intros F (R1 & R2 & R3 & R4 & R5) E. injection F as F1 F2 _ _. unfold slot, pool_size. rewrite F1, F2, E. unfold slot, pool_size. cbn.
  f_equal. f_equal. rewrite Z.add_simpl_l, Zplus_mod_idemp_l. f_equal. lia.
Qed.

Lemma allocate_slots hosts : forall p, range_ok p -> allocate hosts p = map (fun k => slot p (Z.of_nat k + 1)) (seq 0 (length hosts)).
Proof.
  induction hosts as [|h hosts IH]; intros p R; [done|]. cbn [allocate length seq map]. pose proof (fake_get_slot h p R) as Hg.
  destruct (fake_get h p) as [i q]. destruct Hg as (-> & Ho & F & R'). f_equal. rewrite (IH q R'), <- seq_shift, map_map.
  apply map_ext. intros k. rewrite (slot_step p q) by done. f_equal. lia.
Qed.

(** allocation goes round.  The [k]-th new name gets the [k]-th address
    after the last one handed out, modulo the number of addresses of the
    pool, so any run of at most that many new names gets different
    addresses, and the next one reuses the oldest. *)
Lemma pool_round_robin hosts p :
  range_ok p ->
  allocate hosts p = map (fun k => slot p (Z.of_nat k + 1)) (seq 0 (length hosts)) /\
  (Z.of_nat (length hosts) <= pool_size p -> NoDup (allocate hosts p)) /\
  (forall k, slot p (k + pool_size p) = slot p k).
Proof.
  intros R. pose proof R as (R1 & R2 & R3 & R4 & R5). split; [by apply allocate_slots|]. split.
  - intros Hl. rewrite allocate_slots by done. apply NoDup_fmap_2_strong; [|apply NoDup_ListNoDup, seq_NoDup].
    intros a b Ha Hb E. apply elem_of_seq in Ha, Hb. unfold slot in E. injection E as E. unfold pool_size in *.
    assert (E2 : ((a_val (offset p) - a_val (first p) + (Z.of_nat a + 1)) mod (a_val (last p) - a_val (first p)) =
            (a_val (offset p) - a_val (first p) + (Z.of_nat b + 1)) mod (a_val (last p) - a_val (first p)))) by lia.
    pose proof (Z_div_mod_eq_full (a_val (offset p) - a_val (first p) + (Z.of_nat a + 1)) (a_val (last p) - a_val (first p))) as Da.
    pose proof (Z_div_mod_eq_full (a_val (offset p) - a_val (first p) + (Z.of_nat b + 1)) (a_val (last p) - a_val (first p))) as Db.
    rewrite E2 in Da. set (m := a_val (last p) - a_val (first p)) in *. set (x := _ / m) in Da. set (y := _ / m) in Db.
    destruct (Z.lt_trichotomy x y) as [T|[T|T]]; [|rewrite T in Da; lia|]; exfalso; clearbody x y; nia.
  - intros k. unfold slot. f_equal. f_equal. replace (_ + (k + _)) with (a_val (offset p) - a_val (first p) + k + 1 * pool_size p) by lia.
    apply Z_mod_plus_full.
Qed.

(** What may happen to a pool. *)
Inductive pool_step : FakePool S -> FakePool S -> Prop :=
| ps_Lookup h p : pool_step p (Lookup h p).2
| ps_LookBack i p : pool_step p (LookBack i p).2
| ps_Flush p : (FlushFakeIP p).1 = false -> pool_step p (FlushFakeIP p).2.

Lemma pool_step_ok p q : pool_ok p -> pool_step p q -> pool_ok q /\ frame q = frame p.
Proof.
  intros Hp Hstep. destruct Hstep as [h p|i p|p Hf].
  - pose proof (Lookup_spec h p Hp) as Hl. destruct (Lookup h p) as [i q]. cbn. by destruct Hl as (? & _ & ? & _).
  - pose proof Hp as (R & Hs & Hr). unfold LookBack. destruct (law_GetByIP (store_ p) i Hs) as (_ & G2 & G3).
    destruct (GetByIP i (store_ p)) as [o s]. cbn in *. split; [|done]. split; [done|split; [done|]]. intros j g. cbn.
    rewrite G3. by apply Hr.
  - pose proof Hp as (R & Hs & Hr). unfold FlushFakeIP in *. pose proof (law_Flush (store_ p) Hs) as Hl.
    destruct (FlushStore (store_ p)) as [e s]. cbn in *. destruct e; [done|]. destruct Hl as [L1 L2]; [done|]. split; [|done].
    destruct R as (R1 & R2 & R3 & R4 & R5). split; [|split; [done|]].
    + unfold range_ok. cbn. unfold addr_Prev. destruct (a_val (first p) =? 0) eqn:E; zify_bool; [lia|]. cbn. split_and!; try done; lia.
    + intros j g. cbn. by rewrite L2.
Qed.
End PoolProps.

(** ** A pool of a network *)

Lemma new_heap_ok {K V} : heap_ok (mkHeap ∅ 0 : heap K V).
Proof. intros p [e Hp]. cbn in Hp. by rewrite lookup_empty in Hp. Qed.

(** [netip] keeps an address below its bit length. *)
Definition wf_prefix (net : Prefix) : Prop :=
  (a_bits (p_addr net) = 32 \/ a_bits (p_addr net) = 128) /\ 0 <= a_val (p_addr net) < 2 ^ a_bits (p_addr net).

Definition host_bits (net : Prefix) : Z := a_bits (p_addr net) - p_bits net.
Definition net_base (net : Prefix) : Z := a_val (prefix_Masked_Addr net).

(** [netipx.PrefixLastIP] is the address whose host bits are all set. *)
Definition prefix_last (net : Prefix) : Addr := mkAddr (a_bits (p_addr net)) (net_base net + 2 ^ host_bits net - 1).

Lemma valid_bits net : prefix_IsValid net = true -> 0 <= host_bits net <= a_bits (p_addr net).
Proof. unfold prefix_IsValid, host_bits. rewrite !andb_true_iff. intros [[_ ?] ?]. zify_bool. lia. Qed.

Lemma masked_addr net : prefix_IsValid net = true -> prefix_Masked_Addr net = mkAddr (a_bits (p_addr net)) (net_base net).
Proof. intros Hv. unfold net_base, prefix_Masked_Addr. by rewrite Hv. Qed.

Lemma net_base_bounds net :
  wf_prefix net -> prefix_IsValid net = true ->
  0 <= net_base net /\ net_base net + 2 ^ host_bits net <= 2 ^ a_bits (p_addr net) /\
  forall v, net_base net <= v < net_base net + 2 ^ host_bits net -> Z.shiftr v (host_bits net) = Z.shiftr (a_val (p_addr net)) (host_bits net).
Proof.
  intros (_ & Hv) Hval. pose proof (valid_bits net Hval) as Hb. unfold net_base, prefix_Masked_Addr. rewrite Hval.
  fold (host_bits net). set (n := host_bits net) in *. set (b := a_bits (p_addr net)) in *. cbn.
  rewrite Z.shiftr_div_pow2, Z.shiftl_mul_pow2 by lia. set (q := a_val (p_addr net) / 2 ^ n).
  assert (Hn : 0 < 2 ^ n) by (apply Z.pow_pos_nonneg; lia).
  assert (Hq : 0 <= q < 2 ^ (b - n)).
  { subst q. split; [apply Z.div_pos; lia|]. apply Z.div_lt_upper_bound; [lia|]. rewrite <- Z.pow_add_r by lia.
    replace (n + (b - n)) with b by lia. lia. }
  assert (Hp : 2 ^ (b - n) * 2 ^ n = 2 ^ b) by (rewrite <- Z.pow_add_r by lia; f_equal; lia).
  split; [nia|]. split; [nia|]. intros v Hvv. rewrite Z.shiftr_div_pow2 by lia.
  symmetry. apply (Z.div_unique v (2 ^ n) q (v - q * 2 ^ n)); [left; lia|lia].
Qed.

Lemma next_bits a : a_bits a = 0 -> a_bits (addr_Next a) = 0.
Proof. intros E. unfold addr_Next. by destruct (_ =? _). Qed.

Lemma next_addr b v : b = 32 \/ b = 128 -> 0 <= v < 2 ^ b ->
  addr_Next (mkAddr b v) = if v + 1 =? 2 ^ b then zeroAddr else mkAddr b (v + 1).
Proof. intros [-> | ->] Hv; unfold addr_Next, addr_limit; cbn [a_bits a_val]; by rewrite ?Z.eqb_refl. Qed.

(** Four addresses past the base: invalid when that leaves the address space. *)
Lemma first_addr net :
  wf_prefix net -> prefix_IsValid net = true ->
  let f := addr_Next (addr_Next (addr_Next (addr_Next (prefix_Masked_Addr net)))) in
  if net_base net + 4 <? 2 ^ a_bits (p_addr net) then f = mkAddr (a_bits (p_addr net)) (net_base net + 4) else a_bits f = 0.
Proof.
  intros Hw Hv. rewrite masked_addr by done. pose proof (net_base_bounds net Hw Hv) as (B1 & B2 & _). destruct Hw as (Hb & _).
  pose proof (valid_bits net Hv) as Hn. assert (0 < 2 ^ host_bits net) by (apply Z.pow_pos_nonneg; lia).
  set (b := a_bits (p_addr net)) in *. set (v := net_base net) in *. cbn zeta.
  assert (Hs : forall k, 0 <= k -> v + k < 2 ^ b ->
    addr_Next (mkAddr b (v + k)) = if v + (k + 1) =? 2 ^ b then zeroAddr else mkAddr b (v + (k + 1))).
  { intros k Hk Hlt. rewrite next_addr by (done || lia). by replace (v + k + 1) with (v + (k + 1)) by lia. }
  rewrite next_addr by (done || lia).
  destruct (v + 1 =? 2 ^ b) eqn:E1; [|rewrite Hs by (zify_bool; lia); destruct (v + (1 + 1) =? 2 ^ b) eqn:E2;
    [|rewrite Hs by (zify_bool; lia); destruct (v + (1 + 1 + 1) =? 2 ^ b) eqn:E3;
      [|rewrite Hs by (zify_bool; lia); destruct (v + (1 + 1 + 1 + 1) =? 2 ^ b) eqn:E4]]];
    destruct (v + 4 <? 2 ^ b) eqn:E; zify_bool; try lia; repeat apply next_bits; try done.
Qed.

(** The pool that is made, and when none is. *)
Lemma newPool_cases PrefixLastIP net size :
  (forall p, prefix_IsValid p = true -> PrefixLastIP p = prefix_last p) -> wf_prefix net ->
  match newPool PrefixLastIP net (newMemoryStore size) with
  | None => prefix_IsValid net = false \/ host_bits net < 3
  | Some p =>
      prefix_IsValid net = true /\ 3 <= host_bits net /\ pool_ok p /\
      frame p = (mkAddr (a_bits (p_addr net)) (net_base net + 4), prefix_last net, net, addr_Next (prefix_Masked_Addr net))
  end.
Proof.
  intros HL Hw. unfold newPool. destruct (prefix_IsValid net) eqn:Hv; cbn [negb orb]; [|by left].
  pose proof (first_addr net Hw Hv) as Hf. pose proof (net_base_bounds net Hw Hv) as (B1 & B2 & B3).
  pose proof (valid_bits net Hv) as Hn. rewrite (HL net Hv). set (f := addr_Next (addr_Next _)) in *. cbn zeta in Hf.
  assert (Hp2 : forall k, 0 <= k -> (k < host_bits net <-> 2 ^ k < 2 ^ host_bits net)) by (intros k Hk; apply Z.pow_lt_mono_r_iff; lia).
  destruct (net_base net + 4 <? 2 ^ a_bits (p_addr net)) eqn:E; zify_bool.
  - rewrite Hf. unfold addr_IsValid, addr_Less, prefix_last. cbn [a_bits a_val]. rewrite Z.ltb_irrefl, Z.eqb_refl. cbn [orb andb].
    assert (Hb0 : (a_bits (p_addr net) =? 0) = false) by (destruct Hw as ([-> | ->] & _); done). rewrite Hb0. cbn [negb orb].
    destruct (net_base net + 4 <? net_base net + 2 ^ host_bits net - 1) eqn:E2; zify_bool; cbn [negb].
    2:{ right. specialize (Hp2 2). change (2 ^ 2) with 4 in Hp2. destruct (Z.lt_ge_cases (host_bits net) 3); [done|].
        assert (8 <= 2 ^ host_bits net) by (change 8 with (2 ^ 3); apply Z.pow_le_mono_r; lia). lia. }
    assert (Hhb : 3 <= host_bits net).
    { specialize (Hp2 2 ltac:(lia)). change (2 ^ 2) with 4 in Hp2. lia. }
    unfold restoreState. cbn [persistent memory_FakeStore store_]. split; [done|]. split; [done|].
    set (p := mkPool _ _ _ _ _ _ _).
    split; [|done]. split; [|split].
    + unfold range_ok. cbn. unfold addr_Prev. cbn. destruct (net_base net + 4 =? 0) eqn:E3; zify_bool; [lia|]. cbn.
        unfold addr_limit. cbn. destruct Hw as (Hb & _). split_and!; try done; try lia.
        destruct Hb as [Hb|Hb]; rewrite Hb in *; [change (32 =? 32) with true|change (128 =? 32) with false]; cbv iota; lia.
    + exists size, []. split_and!; [apply impl_new, new_heap_ok|apply impl_new, new_heap_ok|done|done|apply NoDup_nil_2|apply NoDup_nil_2].
    + intros i h Hi. cbn in Hi. unfold mem_host_of, held_value in Hi. cbn in Hi. by rewrite lookup_empty in Hi.
  - unfold addr_IsValid. rewrite Hf. change (0 =? 0) with true. cbn [negb orb]. right. specialize (Hp2 2 ltac:(lia)). change (2 ^ 2) with 4 in Hp2.
    destruct (Z.lt_ge_cases (host_bits net) 3); [done|]. assert (8 <= 2 ^ host_bits net) by (change 8 with (2 ^ 3); apply Z.pow_le_mono_r; lia). lia.
Qed.

Lemma pool_reach_ok {S} `{FakeStoreLaws S} (p q : FakePool S) : pool_ok p -> rtc pool_step p q -> pool_ok q /\ frame q = frame p.
Proof.
  intros Hp Hq. induction Hq as [|x y z Hxy _ IH]; [done|]. destruct (pool_step_ok x y Hp Hxy) as [Hy Fy]. destruct (IH Hy) as [? ?].
  split; [done|congruence].
Qed.

(** What a pool hands out lies in its network, apart from the gateway. *)
Lemma in_range_own {S} `{FakeStore S} net (q : FakePool S) i : wf_prefix net -> prefix_IsValid net = true ->
  frame q = (mkAddr (a_bits (p_addr net)) (net_base net + 4), prefix_last net, net, addr_Next (prefix_Masked_Addr net)) -> in_range q i ->
  prefix_Contains net i = true /\ net_base net + 4 <= a_val i < net_base net + 2 ^ host_bits net - 1 /\ i <> gateway q.
Proof.
  intros Hw Hv Fq [I1 I2]. pose proof (net_base_bounds net Hw Hv) as (B1 & B2 & B3). injection Fq as F1 F2 _ F4.
  rewrite F1 in I1, I2. rewrite F2 in I2. cbn in I1, I2.
  assert (Hb0 : (a_bits (p_addr net) =? 0) = false) by (destruct Hw as ([-> | ->] & _); done). split; [|split; [lia|]].
  - unfold prefix_Contains. rewrite Hv. unfold addr_IsValid. rewrite I1, Hb0, Z.eqb_refl. cbn [negb andb].
    apply Z.eqb_eq. fold (host_bits net). apply B3. lia.
  - rewrite F4, (masked_addr net Hv). unfold addr_Next. cbn [a_val a_bits]. apply Z.eqb_neq in Hb0.
    destruct (_ =? _); intros ->; cbn [a_val a_bits zeroAddr] in *; lia.
Qed.

(** a pool of a valid network with at least eight addresses is made, any
    other is refused.  Whatever is then looked up, in whatever order, every
    address in use belongs to the network, is neither its base address, its
    gateway, one of the two after it, nor its broadcast address, and belongs to
    one name. *)
Lemma newPool_addresses PrefixLastIP net size :
  (forall p, prefix_IsValid p = true -> PrefixLastIP p = prefix_last p) ->
  wf_prefix net ->
  match newPool PrefixLastIP net (newMemoryStore size) with
  | None => prefix_IsValid net = false \/ host_bits net < 3
  | Some p =>
      prefix_IsValid net = true /\ 3 <= host_bits net /\ pool_size p = 2 ^ host_bits net - 5 /\
      forall q, rtc pool_step p q -> forall i h, host_of (store_ q) i = Some h ->
        prefix_Contains net i = true /\ net_base net + 4 <= a_val i < net_base net + 2 ^ host_bits net - 1 /\
        forall g, ip_of (store_ q) g = Some i <-> g = h
  end.
Proof.
  intros HL Hw. pose proof (newPool_cases PrefixLastIP net size HL Hw) as H. destruct (newPool _ _ _) as [p|]; [|done].
  destruct H as (Hv & Hn & Hp & Hf). split; [done|]. split; [done|]. split; [injection Hf as F1 F2 _ _; unfold pool_size; rewrite F1, F2; cbn; lia|].
  intros q Hq i h Hi. destruct (pool_reach_ok p q Hp Hq) as [(Rq & Sq & Iq) Fq]. rewrite Hf in Fq.
  destruct (in_range_own net q i Hw Hv Fq (Iq i h Hi)) as (H1 & H2 & _). split; [done|]. split; [done|].
  intros g. rewrite (law_inverse _ _ _ Sq), Hi. split; congruence.
Qed.

(** ** A concrete pool *)

(** 198.18.0.0/29, the smallest network a pool accepts. *)
Definition demo_net : Prefix := mkPrefix (mkAddr 32 3323068416) 29.
Definition demo_pool : FakePool memoryStore :=
  let base := mkAddr 32 3323068416 in
  mkPool (addr_Next base) (mkAddr 32 3323068420) (mkAddr 32 3323068423) (mkAddr 32 3323068419) false demo_net (newMemoryStore 0).

Example demo_pool_new : newPool prefix_last demo_net (newMemoryStore 0) = Some demo_pool.
Proof. vm_compute. reflexivity. Qed.

Lemma demo_range : range_ok demo_pool.
Proof. unfold range_ok. vm_compute. intuition congruence. Qed.

Lemma demo_ok : pool_ok demo_pool.
Proof.
  split; [exact demo_range|split].
  - exists 0, []. split_and!; [apply impl_new, new_heap_ok|apply impl_new, new_heap_ok|done|done|apply NoDup_nil_2|apply NoDup_nil_2].
  - intros i h Hi. cbn in Hi. unfold mem_host_of, held_value in Hi. cbn in Hi. by rewrite lookup_empty in Hi.
Qed.

Lemma Lookup_bijective_witness :
  let '(i, q) := Lookup "Example.ORG" demo_pool in
  pool_ok q /\ in_range demo_pool i /\ (LookBack i q).1 = Some (ToLower "Example.ORG") /\
  (forall g, ip_of (store_ q) g = Some i <-> g = ToLower "Example.ORG") /\
  match ip_of (store_ demo_pool) (ToLower "Example.ORG") with
  | Some j => i = j /\ offset q = offset demo_pool /\ forall j, host_of (store_ q) j = host_of (store_ demo_pool) j
  | None => i = slot demo_pool 1 /\ offset q = i /\
      forall j g, host_of (store_ q) j = Some g -> j = i \/ host_of (store_ demo_pool) j = Some g
  end.
Proof. pose proof (Lookup_bijective "Example.ORG" demo_pool demo_ok) as Hl. exact Hl. Defined.

Lemma pool_round_robin_witness :
  let hosts := ["a"; "b"; "c"; "d"]%string in
  range_ok demo_pool /\
  allocate hosts demo_pool = map (fun k => slot demo_pool (Z.of_nat k + 1)) (seq 0 (length hosts)) /\
  map a_val (allocate hosts demo_pool) = [3323068420; 3323068421; 3323068422; 3323068420].
Proof.
  split; [exact demo_range|]. split; [|vm_compute; reflexivity].
  exact (proj1 (pool_round_robin ["a"; "b"; "c"; "d"]%string demo_pool demo_range)).
Defined.

Lemma newPool_addresses_witness :
  newPool prefix_last demo_net (newMemoryStore 0) = Some demo_pool /\
  match newPool prefix_last demo_net (newMemoryStore 0) with
  | None => prefix_IsValid demo_net = false \/ host_bits demo_net < 3
  | Some p =>
      prefix_IsValid demo_net = true /\ 3 <= host_bits demo_net /\ pool_size p = 2 ^ host_bits demo_net - 5 /\
      forall q, rtc pool_step p q -> forall i h, host_of (store_ q) i = Some h ->
        prefix_Contains demo_net i = true /\
        net_base demo_net + 4 <= a_val i < net_base demo_net + 2 ^ host_bits demo_net - 1 /\
        forall g, ip_of (store_ q) g = Some i <-> g = h
  end.
Proof.
  split; [exact demo_pool_new|]. pose proof (newPool_addresses prefix_last demo_net 0) as Hn.
  apply Hn; [by intros|]. split; [by left|]. vm_compute. intuition congruence.
Defined.

(** The pairs of an old pool are taken over as they are: after the network of
    the configuration changed, a new pool answers for an address outside its
    own network. *)
Example CloneFrom_keeps_old_network :
  let old := (Lookup "a" demo_pool).2 in
  let net := mkPrefix (mkAddr 32 167772160) 8 in
  match newPool prefix_last net (newMemoryStore 0) with
  | Some p => let '(i, q) := Lookup "a" (CloneFrom p old) in prefix_IsValid net && negb (prefix_Contains net i)
  | None => false
  end = true.
Proof. vm_compute. reflexivity. Qed.
