(* ===== verification/DomainTrie.v ===== *)
(** * The domain trie

    Models [component/trie/domain.go] and [node.go]: domain patterns are kept by
    label, last label first, with [*] for one label and an empty first label for
    any labels.  A [Node] is the tree below a Go pointer (no node is shared); a
    Go map is the list of its bindings in the order it is iterated, which the
    language leaves open. *)

From S2P Require Import Prelude Names.
#[local] Open Scope string_scope.

(** @go component/trie/domain.go:11-16 wildcard, dotWildcard, complexWildcard, domainStep *)
Definition wildcard : string := "*".
Definition dotWildcard : string := "".
Definition complexWildcard : string := "+".
Definition plus : ascii := "+"%char.
Definition star : ascii := "*"%char.

(** ** Nodes *)

(** [data] is [None] while [inited] is false.
    @go component/trie/node.go:5-12 Node *)
#[warnings="-register-all"]
Inductive Node (T : Type) : Type :=
  mkNode (childMap : option (list (string * Node T))) (childNode : option (Node T)) (childStr : string) (data : option T).
Arguments mkNode {T} _ _ _ _.

Section Nodes.
Context {T : Type}.
Implicit Types (n c : Node T).

Definition childMap n := let '(mkNode m _ _ _) := n in m.
Definition childNode n := let '(mkNode _ c _ _) := n in c.
Definition childStr n := let '(mkNode _ _ s _) := n in s.
(** @go component/trie/node.go:131-133 Node.Data *)
Definition data n := let '(mkNode _ _ _ d) := n in d.

(** Reading a Go map, and storing under a key that may be there.
    @go component/trie/node.go:21-21 Node.getChild *)
Fixpoint map_get (m : list (string * Node T)) (s : string) : option (Node T) :=
  match m with [] => None | (k, c) :: m => if String.eqb k s then Some c else map_get m s end.
Fixpoint map_set (m : list (string * Node T)) (s : string) (c : Node T) : list (string * Node T) :=
  match m with
  | [] => [(s, c)]
  | (k, d) :: m => if String.eqb k s then (k, c) :: m else (k, d) :: map_set m s c
  end.

(** @go component/trie/node.go:135-137 newNode *)
Definition newNode : Node T := mkNode None None "" None.

(** @go component/trie/node.go:14-22 Node.getChild *)
Definition getChild n (s : string) : option (Node T) :=
  match childMap n with
  | None => match childNode n with Some c => if String.eqb (childStr n) s then Some c else None | None => None end
  | Some m => map_get m s
  end.

(** @go component/trie/node.go:24-26 Node.hasChild *)
Definition hasChild n (s : string) : bool := bool_decide (is_Some (getChild n s)).

(** @go component/trie/node.go:28-44 Node.addChild *)
Definition addChild n (s : string) (child : Node T) : Node T :=
  match childMap n with
  | None =>
      match childNode n with
      | None => mkNode None (Some child) s (data n)
      | Some c => mkNode (Some (map_set [(childStr n, c)] s child)) None "" (data n)
      end
  | Some m => mkNode (Some (map_set m s child)) (childNode n) (childStr n) (data n)
  end.

(** A change through the pointer to the child: where it is stored, and in
    [getOrNewChild] the child is created first.
    @go component/trie/node.go:46-53 Node.getOrNewChild *)
Definition store_child n (s : string) (child : Node T) : Node T :=
  match childMap n with
  | None => mkNode None (Some child) (childStr n) (data n)
  | Some m => mkNode (Some (map_set m s child)) (childNode n) (childStr n) (data n)
  end.
Definition getOrNewChild n (s : string) : Node T * Node T :=
  match getChild n s with
  | Some c => (c, n)
  | None => (newNode, addChild n s newNode)
  end.

(** @go component/trie/node.go:107-112 Node.isEmpty *)
Definition isEmpty (n : option (Node T)) : bool :=
  match n with Some (mkNode _ _ _ (Some _)) => false | _ => true end.

(** @go component/trie/node.go:114-117 Node.setData *)
Definition setData n (d : T) : Node T := mkNode (childMap n) (childNode n) (childStr n) (Some d).

(** @go component/trie/node.go:119-130 Node.getChildren *)
Definition getChildren n : list (string * Node T) :=
  match childMap n with
  | None => match childNode n with Some c => [(childStr n, c)] | None => [] end
  | Some m => m
  end.

(** @go component/trie/node.go:91-105 strClone *)
Definition strClone (key : string) : string :=
  if String.eqb key wildcard then wildcard
  else if String.eqb key dotWildcard then dotWildcard
  else if String.eqb key complexWildcard then complexWildcard
  else if String.eqb key "." then "."
  else Clone key.

(** A map that holds one child becomes the single child, and is optimised as
    such.
    @go component/trie/node.go:55-89 Node.optimize *)
Fixpoint optimize (n : Node T) : Node T :=
  match n with
  | mkNode m c s d =>
      let s := if (0 <? String.length s)%nat then strClone s else s in
      let c := option_map optimize c in
      match m with
      | None => mkNode None c s d
      | Some [] => mkNode None c s d
      | Some [(key, child)] => mkNode None (Some (optimize child)) (if (0 <? String.length key)%nat then strClone key else key) d
      | Some l => mkNode (Some (map (fun x => (strClone x.1, optimize x.2)) l)) c s d
      end
  end.
End Nodes.

(** ** Patterns *)

(** The reasons of [invalidDomainError], with the label they name.
    @go component/trie/domain.go:95-97 invalidDomainError *)
Inductive DomainErr :=
| DomainEmpty | TrailingDot | LeadingSpace | TrailingSpace
| LabelEmpty (label : nat)
| PlusNotWhole (label : nat) | PlusNotFirst | PlusAlone
| StarNotWhole (label : nat).

(** The wildcard checks of label [i] of [n].
    @go component/trie/domain.go:76-90 ValidAndSplitDomain *)
Fixpoint check_wildcards (n i : nat) (parts : list string) : option DomainErr :=
  match parts with
  | [] => None
  | part :: rest =>
      if Contains plus part && negb (String.eqb part complexWildcard) then Some (PlusNotWhole (i + 1))
      else if Contains plus part && negb (i =? 0)%nat then Some PlusNotFirst
      else if Contains plus part && (n =? 1)%nat then Some PlusAlone
      else if Contains star part && negb (String.eqb part wildcard) then Some (StarNotWhole (i + 1))
      else check_wildcards n (S i) rest
  end.

(** @go component/trie/domain.go:53-66 ValidAndSplitDomain *)
Fixpoint check_labels (i : nat) (parts : list string) : option DomainErr :=
  match parts with
  | [] => None
  | part :: rest => if String.eqb part "" then Some (LabelEmpty (i + 2)) else check_labels (S i) rest
  end.

(** @go component/trie/domain.go:32-93 ValidAndSplitDomain *)
Definition ValidAndSplitDomain (domain : string) : DomainErr + list string :=
  match domain with
  | EmptyString => inl DomainEmpty
  | String first _ =>
      if bool_decide (last_char domain = Some dot) then inl TrailingDot
      else if IsSpace first then inl LeadingSpace
      else if match last_char domain with Some r => IsSpace r | None => false end then inl TrailingSpace
      else
        let parts := Split (ToLower domain) in
        match (match parts with
               | [part] => if String.eqb part "" then Some DomainEmpty else None
               | _ => check_labels 0 (tail parts)
               end) with
        | Some e => inl e
        | None => match check_wildcards (length parts) 0 parts with Some e => inl e | None => inr parts end
        end
  end.

(** @go component/trie/domain.go:217-219 joinDomain *)
Definition joinDomain (items : list string) : string := Join items.

(** ** Tries *)

Section Trie.
Context {T : Type}.

(** @go component/trie/domain.go:21-25 DomainTrie *)
Record DomainTrie := mkTrie { root : Node T }.

(** @go component/trie/domain.go:221-224 New *)
Definition trie_New : DomainTrie := mkTrie newNode.

(** The loop over the labels, last label first.
    @go component/trie/domain.go:123-132 DomainTrie.insert *)
Fixpoint insert_loop (n : Node T) (rparts : list string) (d : T) : Node T :=
  match rparts with
  | [] => setData n d
  | part :: rest =>
      let '(c, n) := getOrNewChild n part in store_child n part (insert_loop c rest d)
  end.
Definition insert (t : DomainTrie) (parts : list string) (d : T) : DomainTrie := mkTrie (insert_loop (root t) (rev parts) d).

(** @go component/trie/domain.go:106-121 DomainTrie.Insert *)
Definition Insert (domain : string) (d : T) (t : DomainTrie) : DomainErr + DomainTrie :=
  match ValidAndSplitDomain domain with
  | inl e => inl e
  | inr parts =>
      if bool_decide (head parts = Some complexWildcard)
      then inr (insert (insert t (tail parts) d) (dotWildcard :: tail parts) d)
      else inr (insert t parts d)
  end.

(** The labels last first; the node of the pattern found, or [nil].
    @go component/trie/domain.go:154-172 DomainTrie.search *)
Fixpoint search (n : Node T) (rparts : list string) : option (Node T) :=
  match rparts with
  | [] => Some n
  | part :: rest =>
      let wild :=
        let under := match getChild n wildcard with Some c => search c rest | None => None end in
        if negb (isEmpty under) then under else getChild n dotWildcard in
      let static := match getChild n part with Some c => search c rest | None => None end in
      if negb (isEmpty static) then static else wild
  end.

(** @go component/trie/domain.go:134-152 DomainTrie.Search *)
Definition Search (domain : string) (t : DomainTrie) : option (Node T) :=
  match ValidAndSplitDomain domain with
  | inl _ => None
  | inr parts =>
      if bool_decide (head parts = Some "") then None
      else let n := search (root t) (rev parts) in if isEmpty n then None else n
  end.

(** @go component/trie/domain.go:174-176 DomainTrie.Optimize *)
Definition Optimize (t : DomainTrie) : DomainTrie := mkTrie (optimize (root t)).

(** @go component/trie/domain.go:194-199 DomainTrie.IsEmpty *)
Definition trie_IsEmpty (t : option DomainTrie) : bool :=
  match t with None => true | Some t => bool_decide (getChildren (root t) = []) end.

(** The callback has a state of its own, and says whether to go on. *)
Section Iterate.
Context {A : Type} (fn : string -> T -> A -> bool * A).

(** @go component/trie/domain.go:201-215 recursion *)
Fixpoint recursion (items : list string) (n : Node T) (a : A) : bool * A :=
  let visit key d (a : A) :=
    let newItems := key :: items in
    let '(go, a) := match data d with Some x => fn (joinDomain newItems) x a | None => (true, a) end in
    if go then recursion newItems d a else (false, a) in
  match n with
  | mkNode (Some m) _ _ _ =>
      (fix go_over (m : list (string * Node T)) (a : A) : bool * A :=
         match m with
         | [] => (true, a)
         | (key, d) :: m => let '(go, a) := visit key d a in if go then go_over m a else (false, a)
         end) m a
  | mkNode None (Some c) s _ => visit s c a
  | mkNode None None _ _ => (true, a)
  end.

(** The verdict of [recursion] is dropped here.
    @go component/trie/domain.go:178-192 DomainTrie.Foreach *)
Fixpoint foreach_loop (children : list (string * Node T)) (a : A) : A :=
  match children with
  | [] => a
  | (key, d) :: rest =>
      let a := (recursion [key] d a).2 in
      match data d with
      | Some x => let '(go, a) := fn (joinDomain [key]) x a in if go then foreach_loop rest a else a
      | None => foreach_loop rest a
      end
  end.
Definition Foreach (t : DomainTrie) (a : A) : A := foreach_loop (getChildren (root t)) a.
End Iterate.
End Trie.
Arguments DomainTrie T : clear implicits.
