(* ===== verification/DomainTrieProps.v ===== *)
(** * The domain trie: correctness

    A trie is a map from patterns, as lists of labels with the last label first,
    to data.  [Insert] and [Optimize] are operations on that map, [Search] tries
    the patterns that match a name in a fixed order, and [Foreach] lists the
    map. *)

From S2P Require Import Prelude Names DomainTrie.
#[local] Open Scope string_scope.

(** ** Induction on nodes *)

Section Node_induction.
Context {T : Type} (P : Node T -> Prop).
Definition all_children (m : option (list (string * Node T))) (c : option (Node T)) : Prop :=
  (match m with Some l => Forall (fun x => P x.2) l | None => True end) /\
  (match c with Some c => P c | None => True end).
Hypothesis IH : forall m c s d, all_children m c -> P (mkNode m c s d).

Fixpoint Node_nested_ind (n : Node T) : P n :=
  match n with
  | mkNode m c s d =>
      IH m c s d (conj
        (match m as m return (match m with Some l => Forall (fun x => P x.2) l | None => True end) with
         | Some l =>
             (fix go (l : list (string * Node T)) : Forall (fun x => P x.2) l :=
                match l with
                | [] => Forall_nil_2 _
                | x :: l => Forall_cons_2 _ x l (Node_nested_ind x.2) (go l)
                end) l
         | None => I
         end)
        (match c as c return (match c with Some c => P c | None => True end) with
         | Some c => Node_nested_ind c
         | None => I
         end))
  end.
End Node_induction.

(** ** A trie as a map *)

Section Lookup.
Context {T : Type}.
Implicit Types (n c : Node T).

(** What is stored for a pattern. *)
Fixpoint lookup_node n (p : list string) : option T :=
  match p with
  | [] => data n
  | s :: p => match getChild n s with Some c => lookup_node c p | None => None end
  end.

Lemma map_get_set (m : list (string * Node T)) s c q :
  map_get (map_set m s c) q = if String.eqb s q then Some c else map_get m q.
Proof.
  induction m as [|[k d] m IH]; cbn; [by destruct (String.eqb s q)|].
  destruct (String.eqb_spec k s) as [->|Hks]; cbn; [by destruct (String.eqb s q)|]. rewrite IH.
  destruct (String.eqb_spec k q) as [->|]; [|done]. by destruct (String.eqb_spec s q) as [->|].
Qed.

(** Reaching a child, making it when needed, and changing it there. *)
Lemma getChild_store n s c q :
  getChild (store_child (getOrNewChild n s).2 s c) q = if String.eqb s q then Some c else getChild n q.
Proof.
  destruct n as [[m|] [d|] cs dt]; unfold getOrNewChild, getChild, store_child, addChild; cbn [childMap childNode childStr data].
  - destruct (map_get m s); cbn; rewrite !map_get_set; by destruct (String.eqb s q).
  - destruct (map_get m s); cbn; rewrite !map_get_set; by destruct (String.eqb s q).
  - destruct (String.eqb_spec cs s) as [->|Hne]; cbn; [by destruct (String.eqb s q)|].
    rewrite !map_get_set. cbn. destruct (String.eqb_spec cs s); [done|]. cbn.
    destruct (String.eqb_spec s q); [done|]. by destruct (String.eqb cs q).
  - cbn. by destruct (String.eqb s q).
Qed.

Lemma data_store n s c : data (store_child (getOrNewChild n s).2 s c) = data n.
Proof. destruct n as [[m|] [d|] cs dt]; unfold getOrNewChild, getChild, store_child; cbn; repeat case_match; done. Qed.

Lemma getOrNewChild_fst n s : (getOrNewChild n s).1 = default newNode (getChild n s).
Proof. unfold getOrNewChild. by destruct (getChild n s). Qed.

Lemma lookup_newNode p : lookup_node newNode p = None.
Proof. by destruct p. Qed.

Lemma lookup_insert rp : forall n d q,
  lookup_node (insert_loop n rp d) q = if decide (q = rp) then Some d else lookup_node n q.
Proof.
  induction rp as [|s rp IH]; intros n d q; cbn [insert_loop].
  - destruct q as [|l q]; [done|]. rewrite decide_False by done. by destruct n.
  - pose proof (getChild_store n s) as Hg. pose proof (data_store n s) as Hd. pose proof (getOrNewChild_fst n s) as Hf.
    destruct (getOrNewChild n s) as [c n']. cbn [fst snd] in *. destruct q as [|l q]; cbn [lookup_node]; [by rewrite Hd|].
    rewrite Hg. destruct (String.eqb_spec s l) as [<-|Hne]; [|by rewrite decide_False by congruence]. rewrite IH.
    destruct (decide (q = rp)) as [->|Hq]; [by rewrite decide_True|]. rewrite decide_False by congruence. subst c.
    destruct (getChild n s); [done|]. apply lookup_newNode.
Qed.

(** A node has either a map of children or a single child. *)
Fixpoint wf_node n : Prop :=
  match n with
  | mkNode m c _ _ =>
      match m with
      | Some l => c = None /\ NoDup l.*1 /\ (fix go l := match l with [] => True | x :: l => wf_node x.2 /\ go l end) l
      | None => match c with Some c => wf_node c | None => True end
      end
  end.

Lemma wf_node_eq n :
  wf_node n <->
  match childMap n with
  | Some l => childNode n = None /\ NoDup l.*1 /\ Forall (fun x => wf_node x.2) l
  | None => match childNode n with Some c => wf_node c | None => True end
  end.
Proof.
  destruct n as [[l|] c s d]; cbn; [|done]. assert (E : forall l : list (string * Node T),
    (fix go l := match l with [] => True | x :: l => wf_node x.2 /\ go l end) l <-> Forall (fun x => wf_node x.2) l).
  { induction l0 as [|x l0 IH]; [by split|]. rewrite Forall_cons, <- IH. done. }
  by rewrite E.
Qed.

Lemma map_get_elem (m : list (string * Node T)) s c : NoDup m.*1 -> map_get m s = Some c <-> (s, c) ∈ m.
Proof.
  induction m as [|[k d] m IH]; cbn; intros Hn; [split; [done|by intros ?%elem_of_nil]|].
  apply NoDup_cons in Hn as [Hk Hn]. rewrite elem_of_cons. destruct (String.eqb_spec k s) as [->|Hne].
  - split; [intros [= ->]; by left|]. intros [[= ->]|Hin]; [done|]. exfalso. apply Hk, list_elem_of_fmap. by exists (s, c).
  - rewrite (IH Hn). split; [by right|]. intros [[= -> ->]|?]; done.
Qed.

Lemma getChildren_elem n s c : wf_node n -> (s, c) ∈ getChildren n <-> getChild n s = Some c.
Proof.
  intros Hw. apply wf_node_eq in Hw. unfold getChildren, getChild. destruct (childMap n) as [m|].
  - destruct Hw as (_ & Hn & _). by rewrite (map_get_elem m s c Hn).
  - destruct (childNode n) as [d|]; [|by split; [intros ?%elem_of_nil|]]. rewrite list_elem_of_singleton.
    destruct (String.eqb_spec (childStr n) s) as [<-|Hne]; split; congruence.
Qed.

Lemma getChildren_wf n : wf_node n -> NoDup (getChildren n).*1 /\ Forall (fun x => wf_node x.2) (getChildren n).
Proof.
  intros Hw. apply wf_node_eq in Hw. unfold getChildren. destruct (childMap n) as [m|]; [by destruct Hw as (_ & ? & ?)|].
  destruct (childNode n) as [c|]; cbn; [split; [apply NoDup_singleton|by constructor]|split; constructor].
Qed.

Lemma getChild_wf n s c : wf_node n -> getChild n s = Some c -> wf_node c.
Proof.
  intros Hw Hg. apply (getChildren_elem n s c Hw) in Hg. pose proof (getChildren_wf n Hw) as [_ Hf].
  rewrite Forall_forall in Hf. by apply (Hf (s, c)).
Qed.
End Lookup.

Lemma strClone_id s : strClone s = s.
Proof. unfold strClone. by repeat match goal with |- context [String.eqb s ?c] => destruct (String.eqb_spec s c); [done|] end. Qed.

Lemma strClone_if s : (if (0 <? String.length s)%nat then strClone s else s) = s.
Proof. rewrite strClone_id. by destruct (_ <? _)%nat. Qed.

Section Invariants.
Context {T : Type}.
Implicit Types (n c : Node T).

Lemma map_set_keys (m : list (string * Node T)) s c :
  (map_set m s c).*1 = if bool_decide (s ∈ m.*1) then m.*1 else (m.*1 ++ [s])%list.
Proof.
  induction m as [|[k d] m IH]; [done|]. cbn [map_set fmap list_fmap fst]. destruct (String.eqb_spec k s) as [->|Hne].
  - by rewrite bool_decide_eq_true_2 by left.
  - cbn [fmap list_fmap fst]. rewrite IH. destruct (decide (s ∈ m.*1)) as [Hin|Hin].
    + by rewrite !bool_decide_eq_true_2 by (done || by right).
    + rewrite !bool_decide_eq_false_2; [done| |done]. by intros [?|?]%elem_of_cons.
Qed.

Lemma map_set_NoDup (m : list (string * Node T)) s c : NoDup m.*1 -> NoDup (map_set m s c).*1.
Proof.
  intros Hn. rewrite map_set_keys. destruct (bool_decide _) eqn:E; [done|]. apply bool_decide_eq_false in E.
  apply NoDup_app. split; [done|]. split; [|apply NoDup_singleton]. by intros k Hk ->%list_elem_of_singleton.
Qed.

Lemma map_set_Forall (P : Node T -> Prop) (m : list (string * Node T)) s c :
  Forall (fun x => P x.2) m -> P c -> Forall (fun x => P x.2) (map_set m s c).
Proof.
  intros Hm Hc. induction Hm as [|[k d] m Hd Hm IH]; cbn; [by constructor|]. destruct (String.eqb k s); by constructor.
Qed.

Lemma wf_store n s c : wf_node n -> wf_node c -> wf_node (store_child (getOrNewChild n s).2 s c).
Proof.
  intros Hw Hc. apply wf_node_eq in Hw. apply wf_node_eq. destruct n as [[m|] [d|] cs dt];
    unfold getOrNewChild, getChild, store_child, addChild; cbn [childMap childNode childStr data] in *.
  - by destruct Hw.
  - destruct Hw as (_ & H1 & H2). destruct (map_get m s); cbn; (split; [done|]);
      split; repeat (apply map_set_NoDup || apply map_set_Forall); done.
  - destruct (String.eqb_spec cs s) as [->|Hne]; [done|]. cbn [snd childMap childNode]. split; [done|]. split.
    + repeat apply map_set_NoDup. apply NoDup_singleton.
    + apply map_set_Forall; [|done]. apply (map_set_Forall wf_node); [by constructor|done].
  - done.
Qed.

Lemma wf_insert rp : forall n d, wf_node n -> wf_node (insert_loop n rp d).
Proof.
  induction rp as [|s rp IH]; intros n d Hw; cbn [insert_loop].
  - apply wf_node_eq in Hw. apply wf_node_eq. by destruct n.
  - pose proof (wf_store n s (insert_loop (getOrNewChild n s).1 rp d) Hw) as Hs. pose proof (getOrNewChild_fst n s) as Hf.
    destruct (getOrNewChild n s) as [c n']. cbn [fst snd] in *. apply Hs, IH. subst c.
    destruct (getChild n s) as [c|] eqn:E; [by eapply getChild_wf|done].
Qed.

Lemma map_get_map (f : Node T -> Node T) (m : list (string * Node T)) q :
  map_get (map (fun x => (strClone x.1, f x.2)) m) q = f <$> map_get m q.
Proof.
  induction m as [|[k d] m IH]; [done|]. cbn [map map_get fst snd]. rewrite strClone_id. by destruct (String.eqb k q).
Qed.

(** [optimize] changes the shape of a node, not what it holds. *)
Lemma getChild_optimize n q : wf_node n -> getChild (optimize n) q = optimize <$> getChild n q.
Proof.
  intros Hw. apply wf_node_eq in Hw. destruct n as [[[|[k d] [|y l]]|] c cs dt]; cbn [childMap childNode] in Hw.
  - destruct Hw as (-> & _). done.
  - unfold getChild. cbn [optimize childMap childNode childStr map_get]. rewrite strClone_if. by destruct (String.eqb k q).
  - unfold getChild. change (optimize (mkNode (Some ((k, d) :: y :: l)) c cs dt)) with
      (mkNode (Some (map (fun x => (strClone x.1, optimize x.2)) ((k, d) :: y :: l))) (option_map optimize c)
         (if (0 <? String.length cs)%nat then strClone cs else cs) dt). cbn [childMap]. by rewrite (map_get_map optimize).
  - unfold getChild. cbn [optimize childMap childNode childStr]. rewrite strClone_if.
    destruct c as [c|]; [|done]. cbn. by destruct (String.eqb cs q).
Qed.

Lemma data_optimize n : data (optimize n) = data n.
Proof. by destruct n as [[[|[k d] [|y l]]|] c cs dt]. Qed.

Lemma lookup_optimize p : forall n, wf_node n -> lookup_node (optimize n) p = lookup_node n p.
Proof.
  induction p as [|s p IH]; intros n Hw; cbn [lookup_node]; [apply data_optimize|]. rewrite getChild_optimize by done.
  destruct (getChild n s) as [c|] eqn:E; [|done]. cbn. apply IH. by eapply getChild_wf.
Qed.

Lemma wf_optimize n : wf_node n -> wf_node (optimize n).
Proof.
  induction n as [m c cs dt [IHm IHc]] using Node_nested_ind. intros Hw. apply wf_node_eq in Hw. cbn [childMap childNode] in Hw.
  destruct m as [m|].
  - destruct Hw as (-> & Hn & Hf).
    assert (Ho : Forall (fun x => wf_node (optimize x.2)) m).
    { clear -IHm Hf. induction IHm; inversion_clear Hf; constructor; auto. }
    destruct m as [|[k d] [|y l]]; [done|by inversion_clear Ho|]. apply wf_node_eq. cbn [optimize childMap childNode option_map].
    split; [done|]. split.
    + rewrite <- list_fmap_compose. erewrite list_fmap_ext; [exact Hn|]. intros i x _. cbn. apply strClone_id.
    + rewrite Forall_map. exact Ho.
  - apply wf_node_eq. cbn. destruct c as [c|]; [|done]. by apply IHc.
Qed.
End Invariants.

(** ** Valid patterns *)

Definition no_plus (part : string) : Prop := Contains plus part = false.

(** The labels of a valid pattern, apart from a leading space. *)
Record pattern_ok (parts : list string) : Prop := {
  po_dots : Forall (fun part => Contains dot part = false) parts;
  po_lower : Forall (fun part => ToLower part = part) parts;
  po_labels : Forall (fun part => part <> "") (tail parts);
  po_first : parts <> [] /\ parts <> [""];
  po_wild : Forall (fun part => Contains star part = true -> part = wildcard) parts;
  po_plus : Forall no_plus (tail parts) /\ (forall part, head parts = Some part -> no_plus part \/ (part = complexWildcard /\ tail parts <> []));
  po_last : match last_char (Join parts) with Some c => c <> dot /\ IsSpace c = false | None => False end
}.

Definition leading_space (s : string) : bool := match s with String c _ => IsSpace c | EmptyString => false end.

Lemma check_labels_ok parts : forall i, check_labels i parts = None <-> Forall (fun part => part <> "") parts.
Proof.
  induction parts as [|p parts IH]; intros i; cbn [check_labels]; [by split|]. rewrite Forall_cons.
  destruct (String.eqb_spec p "") as [->|Hne]; [split; [done|by intros [? _]]|]. rewrite IH. by split; [|intros [_ ?]].
Qed.

Lemma check_wildcards_later n i parts :
  check_wildcards n (S i) parts = None <->
  Forall no_plus parts /\ Forall (fun part => Contains star part = true -> part = wildcard) parts.
Proof.
  revert i. induction parts as [|p parts IH]; intros i; cbn [check_wildcards]; [by split; [split; constructor|]|].
  rewrite !Forall_cons. unfold no_plus at 1. cbn beta. change (S i =? 0)%nat with false. cbn [negb]. rewrite andb_true_r.
  destruct (Contains plus p) eqn:Hp; cbn [andb].
  - destruct (negb _); split; try done; by intros [[? _] _].
  - destruct (Contains star p) eqn:Hs; cbn [andb].
    + destruct (String.eqb_spec p wildcard) as [->|Hne]; cbn [negb].
      * rewrite IH. naive_solver.
      * split; [done|]. intros [_ [H _]]. by rewrite H in Hne.
    + rewrite IH. naive_solver.
Qed.

Lemma check_wildcards_first parts :
  check_wildcards (length parts) 0 parts = None <->
  Forall (fun part => Contains star part = true -> part = wildcard) parts /\ Forall no_plus (tail parts) /\
  (forall part, head parts = Some part -> no_plus part \/ (part = complexWildcard /\ tail parts <> [])).
Proof.
  destruct parts as [|p parts]; [by split|]. cbn [check_wildcards tail head]. rewrite Forall_cons. cbn beta. unfold no_plus at 2.
  destruct (Contains plus p) eqn:Hp; cbn [andb negb Nat.eqb].
  - destruct (String.eqb_spec p complexWildcard) as [->|Hne]; cbn [negb].
    + destruct parts as [|q parts].
      * split; [done|]. intros (_ & _ & H). destruct (H complexWildcard eq_refl) as [?|[_ ?]]; done.
      * change (length (complexWildcard :: q :: parts) =? 1)%nat with false. cbn [andb].
        change (Contains star complexWildcard) with false. cbn [andb]. rewrite check_wildcards_later.
        split; [|naive_solver]. intros [? ?]. split_and!; try done. intros p [= <-]. right. split; done.
    + split; [done|]. intros (_ & _ & H). destruct (H p eq_refl) as [?|[? _]]; congruence.
  - destruct (Contains star p) eqn:Hs; cbn [andb].
    + destruct (String.eqb_spec p wildcard) as [->|Hne]; cbn [negb].
      * rewrite check_wildcards_later. split; [|naive_solver]. intros [? ?]. split_and!; try done. intros q [= <-]. by left.
      * split; [done|]. intros ([H _] & _). by rewrite H in Hne.
    + rewrite check_wildcards_later. split; [|naive_solver]. intros [? ?]. split_and!; try done. intros q [= <-]. by left.
Qed.

Lemma Split_lower s : Split (ToLower s) = map ToLower (Split s).
Proof.
  induction s as [|c s IH]; [done|]. cbn [ToLower SplitOn]. assert (E : Ascii.eqb (lower_ascii c) dot = Ascii.eqb c dot).
  { rewrite !(Ascii.eqb_sym _ dot). apply lower_special. by left. }
  rewrite E, IH. destruct (Ascii.eqb c dot); [done|]. by destruct (Split s).
Qed.

Lemma last_char_lower s : last_char (ToLower s) = lower_ascii <$> last_char s.
Proof. induction s as [|c [|d s] IH]; [done|done|]. exact IH. Qed.

Lemma lower_dot c : lower_ascii c = dot <-> c = dot.
Proof.
  pose proof (lower_special c dot (or_introl eq_refl)) as H. split; [intros E|by intros ->].
  rewrite E, Ascii.eqb_refl in H. symmetry in H. by apply Ascii.eqb_eq in H.
Qed.

(** [ValidAndSplitDomain] accepts exactly the names whose lower-cased
    labels form a valid pattern and that do not begin with a space, and returns
    those labels: none has a dot or an upper-case letter, none but the first is
    empty, a [*] is a whole label, a [+] is the whole first label of several,
    and the last character is neither a dot nor a space. *)
Lemma ValidAndSplitDomain_iff domain parts :
  ValidAndSplitDomain domain = inr parts <->
  parts = Split (ToLower domain) /\ leading_space domain = false /\ pattern_ok parts.
Proof.
  assert (Hj : Join (Split (ToLower domain)) = ToLower domain) by apply Join_Split.
  assert (Hlast : match last_char (Join (Split (ToLower domain))) with Some c => c <> dot /\ IsSpace c = false | None => False end <->
    domain <> "" /\ last_char domain <> Some dot /\ match last_char domain with Some r => IsSpace r | None => false end = false).
  { rewrite Hj, last_char_lower. destruct (last_char domain) as [c|] eqn:E; cbn.
    - rewrite lower_space. split.
      + intros [H1 H2]. split; [by intros ->|]. split; [|done]. intros [= ->]. by apply H1.
      + intros (_ & H & ?). split; [|done]. intros E2. apply (proj1 (lower_dot c)) in E2. apply H. by rewrite E2.
    - split; [done|]. destruct domain as [|c s]; [by intros [? _]|]. exfalso. clear -E. revert c E. induction s as [|d s IH]; [done|].
      intros c E. by apply (IH d). }
  assert (Hd : Forall (fun part => Contains dot part = false) (Split (ToLower domain))) by apply Split_no_sep.
  assert (Hl : Forall (fun part => ToLower part = part) (Split (ToLower domain))).
  { rewrite Split_lower. apply Forall_map, Forall_forall. intros x _. apply ToLower_idem. }
  destruct domain as [|c s]; [split; [done|]; intros (-> & _ & [? ? ? [? ?] ? ? ?]); done|].
  unfold ValidAndSplitDomain, leading_space. set (d := String c s) in *. set (ps := Split (ToLower d)) in *.
  destruct (Split_cons dot (ToLower d)) as (p0 & ps0 & Eps). fold ps in Eps.
  set (chk := match ps with [part] => _ | _ => _ end).
  assert (Hchk : chk = None <-> Forall (fun part => part <> "") (tail ps) /\ ps <> [] /\ ps <> [""]).
  { subst chk. rewrite Eps. destruct ps0 as [|q ps0]; cbn [tail].
    - destruct (String.eqb_spec p0 "") as [->|Hne]; [by split; [|intros (_ & _ & ?)]|]. split; [|done].
      intros _. split_and!; [constructor|done|congruence].
    - rewrite check_labels_ok. split; [|by intros [? _]]. intros ?. by split_and!. }
  clearbody chk. pose proof (check_wildcards_first ps) as Hw. split.
  - destruct (bool_decide _) eqn:E1; [done|]. destruct (IsSpace c) eqn:E2; [done|].
    destruct (match last_char d with Some r => IsSpace r | None => false end) eqn:E3; [done|].
    destruct chk as [e|]; [done|]. destruct (check_wildcards _ _ _) as [e|]; [done|]. intros [= <-].
    apply bool_decide_eq_false in E1. destruct (proj1 Hchk eq_refl) as (H1 & H2). destruct (proj1 Hw eq_refl) as (H3 & H4 & H5).
    split; [done|]. split; [done|]. constructor; try done. by apply Hlast.
  - intros (-> & E2 & Hok). fold ps. destruct Hok as [_ _ H1 H2 H3 H4 H5]. apply Hlast in H5 as (_ & H5 & H6).
    rewrite bool_decide_eq_false_2 by done. rewrite E2, H6. rewrite (proj2 Hchk) by done. rewrite (proj2 Hw) by done. done.
Qed.


(** ** Searching *)

(** The patterns that match a name (both last label first), best first: at
    every label the label itself, then [*], then any number of labels. *)
Fixpoint candidates (rparts : list string) : list (list string) :=
  match rparts with
  | [] => [[]]
  | part :: rest => (map (cons part) (candidates rest) ++ map (cons wildcard) (candidates rest) ++ [[dotWildcard]])%list
  end.

Fixpoint pattern_matches (p rparts : list string) : Prop :=
  match p, rparts with
  | [], [] => True
  | l :: p', part :: rest =>
      ((l = part \/ l = wildcard) /\ pattern_matches p' rest) \/ (l = dotWildcard /\ p' = [])
  | _, _ => False
  end.

Lemma candidates_match rparts : forall p, p ∈ candidates rparts <-> pattern_matches p rparts.
Proof.
  induction rparts as [|part rest IH]; intros p; cbn [candidates].
  - rewrite list_elem_of_singleton. destruct p as [|l p]; split; try done.
  - rewrite !elem_of_app, list_elem_of_singleton. setoid_rewrite list_elem_of_fmap.
    destruct p as [|l p]; cbn [pattern_matches].
    + split; [|done]. intros [(x & ? & _)|[(x & ? & _)|?]]; done.
    + rewrite <- IH. split.
      * intros [(x & [= -> ->] & Hx)|[(x & [= -> ->] & Hx)|[= -> ->]]]; [left; by split; [left|]|left; by split; [right|]|by right].
      * intros [[[-> | ->] Hx]|[-> ->]]; [left; by exists p|right; left; by exists p|by right; right].
Qed.

(** The first pattern, in this order, that has data. *)
Fixpoint first_data {A} (f : list string -> option A) (ps : list (list string)) : option A :=
  match ps with [] => None | p :: ps => match f p with Some x => Some x | None => first_data f ps end end.

Lemma first_data_app {A} (f : list string -> option A) ps qs :
  first_data f (ps ++ qs)%list = match first_data f ps with Some x => Some x | None => first_data f qs end.
Proof. induction ps as [|p ps IH]; [done|]. cbn. by destruct (f p). Qed.

Lemma first_data_map {A} (f : list string -> option A) s ps : first_data f (map (cons s) ps) = first_data (fun p => f (s :: p)) ps.
Proof. induction ps as [|p ps IH]; [done|]. cbn. by rewrite IH. Qed.

Lemma first_data_ext {A} (f g : list string -> option A) ps : (forall p, p ∈ ps -> f p = g p) -> first_data f ps = first_data g ps.
Proof.
  induction ps as [|p ps IH]; [done|]. intros H. cbn. rewrite (H p) by left. destruct (g p); [done|]. apply IH. intros q Hq. apply H. by right.
Qed.

Section Searching.
Context {T : Type}.
Implicit Types (n c : Node T).

Lemma isEmpty_data (o : option (Node T)) : isEmpty o = match o ≫= data with Some _ => false | None => true end.
Proof. by destruct o as [[m c s [x|]]|]. Qed.

Lemma search_spec rparts : forall n, search n rparts ≫= data = first_data (lookup_node n) (candidates rparts).
Proof.
  induction rparts as [|part rest IH]; intros n; cbn [search candidates]; [cbn; by destruct (data n)|].
  assert (Hu : forall s, (match getChild n s with Some c => search c rest | None => None end) ≫= data =
    first_data (lookup_node n) (map (cons s) (candidates rest))).
  { intros s. rewrite first_data_map. cbn [lookup_node]. destruct (getChild n s) as [c|] eqn:E.
    - rewrite IH. done.
    - cbn. clear. by induction (candidates rest). }
  rewrite !first_data_app, <- !Hu, !isEmpty_data.
  destruct ((match getChild n part with Some c => search c rest | None => None end) ≫= data) as [x|] eqn:E1; cbn [negb];
    [by rewrite E1|].
  destruct ((match getChild n wildcard with Some c => search c rest | None => None end) ≫= data) as [y|] eqn:E2; cbn [negb];
    [by rewrite E2|].
  cbn. destruct (getChild n dotWildcard) as [c|]; [|done]. cbn. by destruct (data c).
Qed.
End Searching.

(** ** Tries as pattern maps *)

(** What [Insert] stores a valid pattern under. *)
Definition expand (parts : list string) : list (list string) :=
  if bool_decide (head parts = Some complexWildcard) then [tail parts; dotWildcard :: tail parts] else [parts].

(** A pattern map: the pairs given, the latest first. *)
Fixpoint pm_get {T} (m : list (list string * T)) (p : list string) : option T :=
  match m with [] => None | (q, d) :: m => if decide (q = p) then Some d else pm_get m p end.

Inductive trie_op (T : Type) := OpInsert (domain : string) (d : T) | OpOptimize.
Arguments OpInsert {T} _ _.
Arguments OpOptimize {T}.

Section Refinement.
Context {T : Type}.

(** A refused insertion leaves the trie as it was. *)
Definition trie_step (t : DomainTrie T) (o : trie_op T) : DomainTrie T :=
  match o with
  | OpInsert domain d => match Insert domain d t with inl _ => t | inr t' => t' end
  | OpOptimize => Optimize t
  end.
Definition trie_run (ops : list (trie_op T)) : DomainTrie T := fold_left trie_step ops trie_New.

Definition pm_step (m : list (list string * T)) (o : trie_op T) : list (list string * T) :=
  match o with
  | OpInsert domain d =>
      match ValidAndSplitDomain domain with
      | inl _ => m
      | inr parts => (map (fun p => (rev p, d)) (expand parts) ++ m)%list
      end
  | OpOptimize => m
  end.
Definition pm_run (ops : list (trie_op T)) : list (list string * T) := fold_left pm_step ops [].

Definition pm_search (domain : string) (m : list (list string * T)) : option T :=
  match ValidAndSplitDomain domain with
  | inl _ => None
  | inr parts => if bool_decide (head parts = Some "") then None else first_data (pm_get m) (candidates (rev parts))
  end.

Definition implements (t : DomainTrie T) (m : list (list string * T)) : Prop :=
  wf_node (root t) /\ forall p, lookup_node (root t) p = pm_get m p.

Lemma implements_insert t m parts d :
  implements t m -> implements (insert t parts d) ((rev parts, d) :: m).
Proof.
  intros [Hw Hm]. split; [by apply wf_insert|]. intros p. cbn. rewrite lookup_insert, Hm.
  destruct (decide (p = rev parts)) as [->|Hne]; [by rewrite decide_True|by rewrite decide_False by congruence].
Qed.

Lemma pm_get_swap (a b : list string * T) m p : a.1 <> b.1 -> pm_get (a :: b :: m) p = pm_get (b :: a :: m) p.
Proof.
  destruct a as [a x], b as [b y]. cbn. intros Hne. destruct (decide (a = p)) as [->|]; [|done]. by rewrite decide_False by congruence.
Qed.

Lemma implements_step t m o : implements t m -> implements (trie_step t o) (pm_step m o).
Proof.
  intros Hi. destruct o as [domain d|]; cbn [trie_step pm_step].
  - unfold Insert, expand. destruct (ValidAndSplitDomain domain) as [e|parts]; [done|].
    destruct (bool_decide _); cbn [map app]; [|by apply implements_insert].
    pose proof (implements_insert _ _ (dotWildcard :: tail parts) d (implements_insert t m (tail parts) d Hi)) as [Hw Hm].
    split; [done|]. intros p. rewrite Hm. apply pm_get_swap. cbn. intros E.
    apply (f_equal length) in E. rewrite length_app, !length_rev in E. cbn in E. lia.
  - destruct Hi as [Hw Hm]. split; [by apply wf_optimize|]. intros p. cbn. by rewrite lookup_optimize.
Qed.

Lemma implements_run ops : implements (trie_run ops) (pm_run ops).
Proof.
  unfold trie_run, pm_run. assert (H0 : implements trie_New []) by (split; [done|]; intros p; apply lookup_newNode).
  revert H0. generalize (@trie_New T), (@nil (list string * T)). induction ops as [|o ops IH]; intros t m Hi; [done|]. cbn [fold_left].
  by apply IH, implements_step.
Qed.

Lemma implements_search t m domain : implements t m -> Search domain t ≫= data = pm_search domain m.
Proof.
  intros [_ Hm]. unfold Search, pm_search. destruct (ValidAndSplitDomain domain) as [e|parts]; [done|]. destruct (bool_decide _); [done|].
  rewrite <- (first_data_ext _ _ _ (fun p _ => Hm p)), <- search_spec. rewrite isEmpty_data. by destruct (search _ _ ≫= data) eqn:E.
Qed.

(** C40: the trie implements a map of patterns.  After any insertions,
    refused ones included, and optimisations, [Search] of any name answers
    with the data last inserted for the first pattern that has any, among
    exactly the patterns that match the name: at each label, from the last
    one, the label itself comes before [*], and [*] before a pattern for any
    number of labels. *)
Theorem trie_refines ops domain :
  Search domain (trie_run ops) ≫= data = pm_search domain (pm_run ops) /\
  (forall p rparts, p ∈ candidates rparts <-> pattern_matches p rparts).
Proof.
  split; [|intros; apply candidates_match]. apply implements_search, implements_run.
Qed.
End Refinement.

(** ** Listing *)

Section Listing.
Context {T : Type}.
Implicit Types (n c : Node T).

(** A callback that keeps what it sees and goes on. *)
Definition collect_all (domain : string) (d : T) (acc : list (string * T)) : bool * list (string * T) := (true, acc ++ [(domain, d)])%list.

(** [l] lists what is stored below [n], other than at [n] itself. *)
Definition listing (items : list string) (children : list (string * Node T)) (l : list (string * T)) : Prop :=
  forall d v, (d, v) ∈ l <->
    exists key c p, (key, c) ∈ children /\ lookup_node c p = Some v /\ d = Join (rev p ++ key :: items)%list.

Lemma listing_nil items : listing items [] [].
Proof. intros d v. split; [by intros ?%elem_of_nil|]. by intros (key & c & p & ?%elem_of_nil & _). Qed.

Definition own (items : list string) (x : string * Node T) : list (string * T) :=
  match data x.2 with Some v => [(Join (x.1 :: items), v)] | None => [] end.

Lemma listing_cons items x m l1 l2 l :
  wf_node x.2 -> listing (x.1 :: items) (getChildren x.2) l1 -> listing items m l2 ->
  (forall y, y ∈ l <-> y ∈ own items x \/ y ∈ l1 \/ y ∈ l2) -> listing items (x :: m) l.
Proof.
  intros Hw H1 H2 Hl d v. rewrite Hl, (H1 d v), (H2 d v). unfold own. destruct x as [key c]. cbn [fst snd] in *.
  assert (E0 : (d, v) ∈ match data c with Some w => [(Join (key :: items), w)] | None => [] end <->
    lookup_node c [] = Some v /\ d = Join (rev [] ++ key :: items)%list).
  { cbn. destruct (data c) as [w|]; [rewrite list_elem_of_singleton|]; split.
    - by intros [= -> ->].
    - by intros [[= ->] ->].
    - by intros ?%elem_of_nil.
    - by intros [? _]. }
  rewrite E0. clear E0. split.
  - intros [[Ha Hb]|[(k & c' & p & Hc & Hp & ->)|(k & c' & p & Hc & Hp & ->)]].
    + exists key, c, []. by split; [left|].
    + exists key, c, (k :: p). split; [left|]. split; [cbn; apply (getChildren_elem c k c' Hw) in Hc; by rewrite Hc|].
      cbn [rev]. by rewrite <- app_assoc.
    + exists k, c', p. by split; [right|].
  - intros (k & c' & p & [[= -> ->]|Hc]%elem_of_cons & Hp & ->).
    + destruct p as [|s p]; [by left|]. right; left. cbn [lookup_node] in Hp. destruct (getChild c s) as [c'|] eqn:E; [|done].
      exists s, c', p. split; [by apply getChildren_elem|]. split; [done|]. cbn [rev]. by rewrite <- app_assoc.
    + right; right. by exists k, c', p.
Qed.

Lemma recursion_cons items (x : string * Node T) m o s d a :
  recursion collect_all items (mkNode (Some (x :: m)) o s d) a =
  let '(go, a) := recursion collect_all (x.1 :: items) x.2 (a ++ own items x)%list in
  if go then recursion collect_all items (mkNode (Some m) o s d) a else (false, a).
Proof.
  destruct x as [key e]. cbn [recursion fst snd own]. unfold own, joinDomain. cbn [fst snd].
  destruct (data e); [done|]. by rewrite app_nil_r.
Qed.

Lemma recursion_lists n : wf_node n -> forall items a, exists l,
  recursion collect_all items n a = (true, a ++ l)%list /\ listing items (getChildren n) l.
Proof.
  induction n as [m c s d [IHm IHc]] using Node_nested_ind. intros Hw items a. apply wf_node_eq in Hw. cbn in Hw.
  destruct m as [m|].
  - destruct Hw as (_ & _ & Hf). cbn [getChildren childMap]. revert a. clear IHc. induction m as [|x m IH2]; intros a.
    + exists []. by split; [rewrite app_nil_r|apply listing_nil].
    + inversion_clear IHm as [|? ? Hx IHm']. inversion_clear Hf as [|? ? Wx Hf'].
      destruct (Hx Wx (x.1 :: items) (a ++ own items x)%list) as (l1 & E1 & L1).
      destruct (IH2 IHm' Hf' ((a ++ own items x) ++ l1)%list) as (l2 & E2 & L2).
      exists (own items x ++ l1 ++ l2)%list. rewrite recursion_cons, E1, E2. split; [by rewrite <- !app_assoc|].
      apply (listing_cons items x m l1 l2); try done. intros y. by rewrite !elem_of_app.
  - destruct c as [c|]; [|exists []; by split; [rewrite app_nil_r|apply listing_nil]].
    destruct (IHc Hw (s :: items) (a ++ own items (s, c))%list) as (l & E & L).
    exists (own items (s, c) ++ l)%list. split.
    + cbn [recursion]. unfold own, joinDomain in *. cbn [fst snd] in *. destruct (data c); cbn [collect_all].
      * rewrite E. by rewrite <- app_assoc.
      * rewrite app_nil_r in E. by rewrite E.
    + apply (listing_cons items (s, c) [] l []); [done|done|apply listing_nil|]. intros y. rewrite elem_of_app, elem_of_nil. naive_solver.
Qed.

Lemma Foreach_lists t : wf_node (root t) -> listing [] (getChildren (root t)) (Foreach collect_all t []).
Proof.
  intros Hw. unfold Foreach. destruct (getChildren_wf (root t) Hw) as [_ Hf]. clear Hw.
  assert (Hgen : forall a, exists l, foreach_loop collect_all (getChildren (root t)) a = (a ++ l)%list /\ listing [] (getChildren (root t)) l).
  { induction (getChildren (root t)) as [|[key c] m IH]; intros a; [exists []; by split; [rewrite app_nil_r|apply listing_nil]|].
    inversion_clear Hf as [|? ? Hc Hm]. cbn in Hc. destruct (recursion_lists c Hc [key] a) as (l1 & E1 & L1).
    destruct (IH Hm ((a ++ l1) ++ own [] (key, c))%list) as (l2 & E2 & L2).
    exists (l1 ++ own [] (key, c) ++ l2)%list. split.
    - cbn [foreach_loop]. rewrite E1. cbn [snd]. unfold own, joinDomain in *. cbn [fst snd] in *.
      destruct (data c); cbn [collect_all]; [|rewrite app_nil_r in E2]; rewrite E2; by rewrite <- !app_assoc.
    - apply (listing_cons [] (key, c) m l1 l2); try done. intros y. rewrite !elem_of_app. naive_solver. }
  destruct (Hgen []) as (l & E & L). by rewrite E.
Qed.
End Listing.

(** ** What is stored is valid *)

Lemma last_char_cons c s : last_char (String c s) = match last_char s with Some d => Some d | None => Some c end.
Proof.
  revert c. induction s as [|d s IH]; intros c; [done|]. change (last_char (String c (String d s))) with (last_char (String d s)).
  rewrite IH. by destruct (last_char s).
Qed.

Lemma last_char_app a s : last_char (a ++ String dot s) = match last_char s with Some c => Some c | None => Some dot end.
Proof.
  induction a as [|x a IH]; [apply last_char_cons|]. change (String x a ++ String dot s)%string with (String x (a ++ String dot s)).
  rewrite last_char_cons, IH. by destruct (last_char s).
Qed.

Lemma ToLower_app a b : ToLower (a ++ b) = (ToLower a ++ ToLower b)%string.
Proof. induction a as [|c a IH]; [done|]. change (String c a ++ b)%string with (String c (a ++ b)). cbn [ToLower]. by rewrite IH. Qed.

Lemma ToLower_Join parts : Forall (fun part => ToLower part = part) parts -> ToLower (Join parts) = Join parts.
Proof.
  induction 1 as [|p parts Hp _ IH]; [done|]. destruct parts as [|q parts]; [done|]. rewrite Join_cons by done.
  rewrite ToLower_app, Hp. cbn [ToLower]. by rewrite IH.
Qed.

Lemma leading_space_cons p rest : p <> "" -> leading_space (Join (p :: rest)) = leading_space p.
Proof. intros Hp. destruct p; [done|]. by destruct rest. Qed.

Lemma leading_space_lower s : leading_space (ToLower s) = leading_space s.
Proof. destruct s; [done|]. cbn. apply lower_space. Qed.

(** A pattern as it is stored: no [+] is left. *)
Definition stored_ok (ps : list string) : Prop := pattern_ok ps /\ Forall no_plus ps.

Lemma expand_stored parts ps : pattern_ok parts -> ps ∈ expand parts -> stored_ok ps.
Proof.
  intros [H1 H2 H3 [H4 H4'] H5 [H6 H6'] H7]. unfold expand. destruct (bool_decide _) eqn:E.
  - apply bool_decide_eq_true in E. destruct parts as [|p parts]; [done|]. injection E as ->. cbn [tail] in *.
    inversion_clear H1 as [|? ? _ D]. inversion_clear H2 as [|? ? _ L]. inversion_clear H5 as [|? ? _ W].
    destruct (H6' complexWildcard eq_refl) as [?|[_ Hne]]; [done|]. rewrite Join_cons in H7 by done. rewrite last_char_app in H7.
    assert (Hlast : match last_char (Join parts) with Some c => c <> dot /\ IsSpace c = false | None => False end).
    { destruct (last_char (Join parts)); [done|]. by destruct H7. }
    assert (Hh : forall q, head parts = Some q -> no_plus q) by (intros q Hq; destruct parts; inversion_clear H6; cbn in Hq; congruence).
    intros [->|[->|[]%elem_of_nil]%elem_of_cons]%elem_of_cons.
    + split; [|done]. constructor; try done.
      * by destruct parts; inversion H3.
      * split; [done|]. intros ->. by inversion H3.
      * split; [by destruct parts; inversion H6|]. intros q Hq. left. by apply Hh.
    + split; [|by constructor]. constructor; cbn [tail]; try done; try (by constructor).
      * split; [done|]. congruence.
      * split; [done|]. intros q [= <-]. by left.
      * rewrite Join_cons by done. rewrite last_char_app. by destruct (last_char (Join parts)).
  - intros ->%list_elem_of_singleton. split; [by constructor|]. apply bool_decide_eq_false in E.
    destruct parts as [|p parts]; [done|]. constructor; [|done]. destruct (H6' p eq_refl) as [?|[-> _]]; done.
Qed.

Lemma stored_valid ps : stored_ok ps -> leading_space (Join ps) = false ->
  ValidAndSplitDomain (Join ps) = inr ps /\ expand ps = [ps].
Proof.
  intros [Hp Hn] Hs. split.
  - apply ValidAndSplitDomain_iff. destruct Hp as [H1 H2 H3 [H4 H4'] H5 H6 H7]. rewrite ToLower_Join, Split_Join by done.
    split; [done|]. split; [done|by constructor].
  - unfold expand. destruct ps as [|p ps]; [done|]. inversion_clear Hn as [|? ? Hp0 _]. rewrite bool_decide_eq_false_2; [done|].
    by intros [= ->].
Qed.

Section Rebuild.
Context {T : Type}.

Lemma pm_run_elem (ops : list (trie_op T)) p v :
  (p, v) ∈ pm_run ops <->
  exists domain parts ps, OpInsert domain v ∈ ops /\ ValidAndSplitDomain domain = inr parts /\ ps ∈ expand parts /\ p = rev ps.
Proof.
  unfold pm_run. assert (Hgen : forall m, (p, v) ∈ fold_left pm_step ops m <-> (p, v) ∈ m \/
    exists domain parts ps, OpInsert domain v ∈ ops /\ ValidAndSplitDomain domain = inr parts /\ ps ∈ expand parts /\ p = rev ps).
  { induction ops as [|o ops IH]; intros m; cbn [fold_left].
    - split; [by left|]. intros [?|(d & parts & ps & ?%elem_of_nil & _)]; done.
    - rewrite IH. setoid_rewrite elem_of_cons. destruct o as [dom x|]; cbn [pm_step].
      + destruct (ValidAndSplitDomain dom) as [e|parts] eqn:Ev.
        * split; [naive_solver|]. intros [?|(d & parts & ps & [[= -> ->]|?] & ? & ?)]; [by left|congruence|right; naive_solver].
        * rewrite elem_of_app, list_elem_of_fmap. split.
          -- intros [[(ps & [= -> ->] & Hps)|?]|?]; [right; exists dom, parts, ps; by split; [left|]|by left|right; naive_solver].
          -- intros [?|(d & parts' & ps & [[= -> ->]|?] & Hv & Hps & ->)]; [left; by right| |right; naive_solver].
             left; left. rewrite Ev in Hv. injection Hv as ->. by exists ps.
      + naive_solver. }
  rewrite Hgen. split; [intros [?%elem_of_nil|?]; done|by right].
Qed.

Lemma pm_get_elem (m : list (list string * T)) p v : pm_get m p = Some v -> (p, v) ∈ m.
Proof.
  induction m as [|[q d] m IH]; [done|]. cbn. destruct (decide (q = p)) as [->|]; [intros [= ->]; by left|]. intros. right. by apply IH.
Qed.

Lemma pm_get_found (m : list (list string * T)) p v : (p, v) ∈ m -> (forall w, (p, w) ∈ m -> w = v) -> pm_get m p = Some v.
Proof.
  induction m as [|[q d] m IH]; [by intros ?%elem_of_nil|]. cbn. intros Hin Hu. destruct (decide (q = p)) as [->|Hne].
  - f_equal. apply Hu. by left.
  - apply IH; [|intros w Hw; apply Hu; by right]. by apply elem_of_cons in Hin as [[= -> ->]|?].
Qed.

Lemma stored_lookup ops p v : lookup_node (root (trie_run (T := T) ops)) p = Some v -> p <> [] /\ stored_ok (rev p).
Proof.
  destruct (implements_run ops) as [_ Hm]. rewrite Hm. intros Hg. apply pm_get_elem, pm_run_elem in Hg as (d & parts & ps & _ & Hv & Hps & ->).
  apply ValidAndSplitDomain_iff in Hv as (_ & _ & Hok). pose proof (expand_stored parts ps Hok Hps) as Hs. rewrite rev_involutive. split; [|done].
  intros E. apply (f_equal (@rev string)) in E. rewrite rev_involutive in E. destruct Hs as [[_ _ _ [? _] _ _ _] _]. done.
Qed.

Definition listed_ops (l : list (string * T)) : list (trie_op T) := map (fun x => OpInsert x.1 x.2) l.

(** Inserting the listing again stores every pattern that does not begin with
    a space. *)
Lemma relist_lookup ops p : let t := trie_run ops in let t' := trie_run (listed_ops (Foreach collect_all t [])) in
  lookup_node (root t') p = if leading_space (Join (rev p)) then None else lookup_node (root t) p.
Proof.
  cbn zeta. set (t := trie_run ops). set (l := Foreach collect_all t []). destruct (implements_run ops) as [Hw Hm]. fold t in Hw, Hm.
  assert (Hl : forall d v, (d, v) ∈ l <-> exists q, q <> [] /\ lookup_node (root t) q = Some v /\ d = Join (rev q)).
  { intros d v. pose proof (Foreach_lists t Hw d v) as H. fold l in H. rewrite H. split.
    - intros (key & c & q & Hc & Hq & ->). exists (key :: q). split; [done|]. split; [|done]. cbn.
      apply (getChildren_elem _ _ _ Hw) in Hc. by rewrite Hc.
    - intros ([|key q] & Hne & Hq & ->); [done|]. cbn in Hq. destruct (getChild (root t) key) as [c|] eqn:E; [|done].
      exists key, c, q. split; [by apply getChildren_elem|]. by split. }
  destruct (implements_run (listed_ops l)) as [_ Hm']. rewrite Hm'.
  assert (He : forall q v, (q, v) ∈ pm_run (listed_ops l) <-> leading_space (Join (rev q)) = false /\ lookup_node (root t) q = Some v).
  { intros q v. rewrite pm_run_elem. split.
    - intros (d & parts & ps & Hin & Hv & Hps & ->). apply list_elem_of_fmap in Hin as ([d' v'] & [= -> ->] & Hin).
      apply Hl in Hin as (q & Hne & Hq & ->). pose proof (stored_lookup ops q v' Hq) as [_ Hs]. rewrite rev_involutive.
      pose proof Hv as Hv'. apply ValidAndSplitDomain_iff in Hv' as (_ & Hls & _). destruct (stored_valid _ Hs Hls) as [E1 E2].
      rewrite E1 in Hv. injection Hv as <-. rewrite E2 in Hps. apply list_elem_of_singleton in Hps as ->. by rewrite rev_involutive.
    - intros [Hls Hq]. pose proof (stored_lookup ops q v Hq) as [Hne Hs]. destruct (stored_valid _ Hs Hls) as [E1 E2].
      exists (Join (rev q)), (rev q), (rev q). rewrite E1, E2, rev_involutive. split_and!; [|done|by left|done].
      apply list_elem_of_fmap. exists (Join (rev q), v). split; [done|]. apply Hl. by exists q. }
  destruct (leading_space (Join (rev p))) eqn:Els.
  - destruct (pm_get _ p) as [v|] eqn:Eg; [|done]. apply pm_get_elem, He in Eg as [? _]. congruence.
  - destruct (lookup_node (root t) p) as [v|] eqn:Eq.
    + apply pm_get_found; [by apply He|]. intros w Hw2. apply He in Hw2 as [_ Hw2]. congruence.
    + destruct (pm_get _ p) as [v|] eqn:Eg; [|done]. apply pm_get_elem, He in Eg as [_ ?]. congruence.
Qed.

Lemma matches_last p : forall rparts, p <> [] -> pattern_matches p rparts ->
  last p = last rparts \/ last p = Some wildcard \/ last p = Some dotWildcard.
Proof.
  induction p as [|s p IH]; intros rparts Hne Hm; [done|]. destruct rparts as [|r rparts]; [by destruct p|].
  cbn [pattern_matches] in Hm. destruct Hm as [[Hs Hm]|[-> ->]]; [|by right; right]. destruct p as [|q p].
  - destruct rparts; [|by destruct s]. destruct Hs as [-> | ->]; [by left|by right; left].
  - destruct rparts as [|r' rparts]; [done|]. destruct (IH (r' :: rparts)) as [E|E]; [done|done|left|right].
    + by rewrite !last_cons_cons.
    + by rewrite last_cons_cons.
Qed.

(** listing is faithful.  What [Foreach] lists of any trie, inserted
    again into a new trie, gives a trie that answers every search as the
    first one does, although [Insert] refuses the listed patterns that begin
    with a space: no name that [Search] accepts can match those. *)
Lemma Foreach_rebuilds (ops : list (trie_op T)) domain :
  let t := trie_run ops in
  let t' := trie_run (listed_ops (Foreach collect_all t [])) in
  Search domain t' ≫= data = Search domain t ≫= data.
Proof.
  cbn zeta. unfold Search. destruct (ValidAndSplitDomain domain) as [e|parts] eqn:Ev; [done|]. destruct (bool_decide _) eqn:Eh; [done|].
  apply bool_decide_eq_false in Eh. apply ValidAndSplitDomain_iff in Ev as (Ep & Els & Hok).
  assert (Hs : forall t : DomainTrie T,
    (let n := search (root t) (rev parts) in if isEmpty n then None else n) ≫= data = first_data (lookup_node (root t)) (candidates (rev parts))).
  { intros t. cbn zeta. rewrite <- search_spec, isEmpty_data. by destruct (search _ _ ≫= data) eqn:E. }
  rewrite !Hs. apply first_data_ext. intros p Hp. rewrite relist_lookup. destruct (leading_space (Join _)) eqn:El; [|done].
  destruct (lookup_node _ p) as [v|] eqn:Eq; [|done]. exfalso. pose proof (stored_lookup ops p v Eq) as [Hne Hst].
  apply candidates_match in Hp. pose proof (matches_last p (rev parts) Hne Hp) as Hlast.
  destruct (rev p) as [|h r] eqn:Er; [by destruct Hst as [[_ _ _ [? _] _ _ _] _]|].
  assert (Ehd : last p = Some h) by (rewrite <- (rev_involutive p), Er; cbn; by rewrite last_snoc). rewrite Ehd in Hlast.
  destruct Hlast as [E|[[= ->]|[= ->]]].
  - destruct parts as [|h' r']; [done|]. cbn [rev] in E. rewrite last_snoc in E. injection E as <-.
    assert (Hh : h <> "") by (by intros ->). rewrite leading_space_cons in El by done.
    rewrite <- leading_space_lower, <- (Join_Split dot (ToLower domain)), <- Ep, leading_space_cons in Els by done. congruence.
  - by rewrite leading_space_cons in El.
  - destruct Hst as [[_ _ _ [_ Hf] _ _ _] _]. destruct r as [|q r]; [done|]. by rewrite Join_cons in El.
Qed.
End Rebuild.

(** ** Concrete tries *)

Definition demo_ops : list (trie_op nat) :=
  [OpInsert "+.Example.com" 1%nat; OpInsert "*.example.com" 2%nat; OpInsert "www.example.com" 3%nat; OpInsert "a..b" 4%nat; OpOptimize].

Example demo_searches :
  map (fun d => Search d (trie_run demo_ops) ≫= data) ["www.example.com"; "x.example.com"; "a.x.example.com"; "EXAMPLE.com"; "example.org"] =
  [Some 3; Some 2; Some 1; Some 1; None]%nat.
Proof. vm_compute. reflexivity. Qed.

(** The space after [+.] is accepted, stored and listed, but the listed pattern
    is refused. *)
Example listed_pattern_refused :
  let t := trie_run [OpInsert "+. a.b" 1%nat] in
  map fst (Foreach collect_all t []) = [" a.b"; ". a.b"] /\ ValidAndSplitDomain " a.b" = inl LeadingSpace.
Proof. vm_compute. split; reflexivity. Qed.

(** A callback that says stop below a top label is called again for the next
    one. *)
Example Foreach_goes_on :
  let stop := fun (d : string) (_ : nat) (seen : list string) => (false, seen ++ [d])%list in
  Foreach stop (trie_run [OpInsert "a.com" 1%nat; OpInsert "b.org" 2%nat]) [] = ["a.com"; "b.org"].
Proof. vm_compute. reflexivity. Qed.
