(* ===== verification/Hosts.v ===== *)
(** * Static hosts

    Models the hosts of a configuration: [component/resolver/host.go] and
    [parseHosts] of [config/config.go].  A host name stands for addresses or for
    another name; the entries live in a domain trie.  The system's own hosts file
    and the addresses of the interfaces are arguments. *)

From S2P Require Import Prelude Names Netip DomainTrie DomainTrieProps.
#[local] Open Scope string_scope.
#[local] Open Scope Z_scope.

(** @go component/resolver/host.go:62-66 HostValue *)
Record HostValue := mkHostValue { hv_IsDomain : bool; hv_IPs : list Addr; hv_Domain : string }.
#[export] Instance HostValue_eq_dec : EqDecision HostValue.
Proof. solve_decision. Defined.

(** The zero value that [Data] of an empty node returns. *)
Definition zeroHostValue : HostValue := mkHostValue false [] "".

Inductive HostErr := ErrValueEmpty | ErrNotAnAddr (s : string) | ErrIPListEmpty | ErrInvalidDomain | ErrHostCycle (domain : string) | ErrHostValue (value : list string).

(** @go component/resolver/host.go:99-107 NewHostValueByIPs *)
Definition NewHostValueByIPs (ips : list Addr) : HostErr + HostValue :=
  match ips with [] => inl ErrIPListEmpty | _ => inr (mkHostValue false ips "") end.

(** @go component/resolver/host.go:109-119 NewHostValueByDomain *)
Definition NewHostValueByDomain (domain : string) : HostErr + HostValue :=
  let domain := Trim domain "." in
  let item := SplitOn "." domain in
  if zlen item <? 2 then inl ErrInvalidDomain else inr (mkHostValue true [] domain).

(** The loop over several values.
    @go component/resolver/host.go:83-91 NewHostValue *)
Fixpoint host_ips (value : list string) : HostErr + list Addr :=
  match value with
  | [] => inr []
  | str :: rest =>
      match ParseAddr str with
      | None => inl (ErrNotAnAddr str)
      | Some ip => match host_ips rest with inl e => inl e | inr ips => inr (addr_Unmap ip :: ips) end
      end
  end.

(** @go component/resolver/host.go:68-97 NewHostValue *)
Definition NewHostValue (value : list string) : HostErr + HostValue :=
  match value with
  | [] => inl ErrValueEmpty
  | [host] =>
      match ParseAddr host with
      | Some ip => NewHostValueByIPs [addr_Unmap ip]
      | None => NewHostValueByDomain host
      end
  | _ => match host_ips value with inl e => inl e | inr ips => NewHostValueByIPs ips end
  end.

(** [IntN] is the random choice below its argument; outside the list it is never
    asked for, [NewHostValueByIPs] refuses an empty one.
    @go component/resolver/host.go:121-126 HostValue.RandIP *)
Definition RandIP (IntN : Z -> Z) (hv : HostValue) : option Addr :=
  if hv_IsDomain hv then None else hv_IPs hv !! Z.to_nat (IntN (zlen (hv_IPs hv))).

(** ** Searching *)

Definition HostTrie := DomainTrie HostValue.

(** [node.Data()] of a node that [Search] found. *)
Definition host_data (n : Node HostValue) : HostValue := default zeroHostValue (data n).

(** The value a name is mapped to by one entry. *)
Definition host_step (t : HostTrie) (domain : string) : option HostValue := host_data <$> Search domain t.

(** [None]: the loop is still going on.
    @go component/resolver/host.go:35-45 Hosts.Search *)
Fixpoint hosts_loop (fuel : nat) (t : HostTrie) (isDomain : bool) (hostValue : HostValue) : option HostValue :=
  match fuel with
  | O => None
  | S fuel =>
      if isDomain && hv_IsDomain hostValue then Some hostValue
      else match host_step t (hv_Domain hostValue) with
           | Some hostValue => hosts_loop fuel t isDomain hostValue
           | None => Some hostValue
           end
  end.

(** [system] answers from the hosts file of the system, when that is used.  The
    first component of the result is the loop's verdict as in [hosts_loop].
    @go component/resolver/host.go:32-60 Hosts.Search *)
Definition hosts_Search (fuel : nat) (t : HostTrie) (system : option (string -> list string)) (domain : string) (isDomain : bool) : option (option HostValue * bool) :=
  match host_step t domain with
  | Some hostValue =>
      hostValue ← hosts_loop fuel t isDomain hostValue;
      Some (Some hostValue, bool_decide (isDomain = hv_IsDomain hostValue))
  | None =>
      Some match system with
           | Some LookupStaticHost =>
               if isDomain then (None, false)
               else match NewHostValue (LookupStaticHost domain) with inr hv => (Some hv, true) | inl _ => (None, false) end
           | None => (None, false)
           end
  end.

(** ** Reading a configuration *)

(** The walk along the entries so far; [None] is a walk that has not ended, [Some
    true] a cycle.
    @go config/config.go:1196-1202 parseHosts *)
Fixpoint cycle_walk (fuel : nat) (t : HostTrie) (domain : string) (node : option HostValue) : option bool :=
  match fuel with
  | O => None
  | S fuel =>
      match node with
      | Some hv =>
          if hv_IsDomain hv then
            if String.eqb (hv_Domain hv) domain then Some true else cycle_walk fuel t domain (host_step t (hv_Domain hv))
          else Some false
      | None => Some false
      end
  end.

(** [lan] are the addresses of the interfaces, if they can be listed.
    @go config/config.go:1179-1190 parseHosts *)
Definition lan_hosts (lan : option (list string)) (hosts : list string) : list string :=
  if bool_decide (hosts = ["lan"]) then default hosts lan else hosts.

(** An entry the trie refuses is skipped with a warning; [None] when the walk does
    not end.
    @go config/config.go:1191-1206 parseHosts *)
Definition parse_host (fuel : nat) (t : HostTrie) (domain : string) (hosts : list string) : option (HostErr + HostTrie) :=
  match NewHostValue hosts with
  | inl _ => Some (inl (ErrHostValue hosts))
  | inr value =>
      cycle ← (if hv_IsDomain value then cycle_walk fuel t domain (host_step t (hv_Domain value)) else Some false);
      Some (if cycle : bool then inl (ErrHostCycle domain)
            else inr match Insert domain value t with inr t => t | inl _ => t end)
  end.

(** [entries] are the entries of the map in the order Go visits them.
    @go config/config.go:1174-1208 parseHosts *)
Fixpoint parse_entries (fuel : nat) (lan : option (list string)) (entries : list (string * list string)) (t : HostTrie) : option (HostErr + HostTrie) :=
  match entries with
  | [] => Some (inr t)
  | (domain, hosts) :: entries =>
      r ← parse_host fuel t domain (lan_hosts lan hosts);
      match r with inl e => Some (inl e) | inr t => parse_entries fuel lan entries t end
  end.

(** @go config/config.go:1163-1212 parseHosts *)
Definition parseHosts (fuel : nat) (lan : option (list string)) (entries : list (string * list string)) : option (HostErr + HostTrie) :=
  let t := match Insert "localhost" (mkHostValue false [mkAddr 32 2130706433] "") trie_New with inr t => t | inl _ => trie_New end in
  r ← parse_entries fuel lan entries t;
  Some match r with inl e => inl e | inr t => inr (Optimize t) end.

(** * Static hosts: aliases end, or do not

    The check that [parseHosts] makes while it reads the entries keeps the aliases
    of plain lower-case names free of cycles, so that [Hosts.Search] ends; an entry
    that maps a name to itself escapes the check, and searching it never ends. *)

#[local] Open Scope string_scope.
#[local] Open Scope Z_scope.
#[local] Open Scope list_scope.

(** ** Chains of a partial function *)

Section Chains.
Context {A : Type} `{EqDecision A} (next : A -> option A).

(** Following [next] stops after at most [n] steps. *)
Fixpoint stops (n : nat) (x : A) : Prop :=
  match next x with None => True | Some y => match n with O => False | S n => stops n y end end.

Lemma stops_mono n m x : (n <= m)%nat -> stops n x -> stops m x.
Proof.
  revert m x. induction n as [|n IH]; intros [|m] x Hm; try lia; cbn; [done|by destruct (next x)|].
  destruct (next x) as [y|]; [|done]. apply IH. lia.
Qed.

Definition follows (y x : A) : Prop := next x = Some y.

Lemma acc_no_return x : Acc follows x -> forall y, tc (fun a b => follows b a) x y -> y <> x.
Proof.
  induction 1 as [x _ IH]. intros y Hy ->. inversion Hy as [? ? H1|? z ? H1 H2]; subst; [by apply (IH x H1 x); [apply tc_once|]|].
  apply (IH z H1 z); [|done]. eapply tc_r; [exact H2|exact H1].
Qed.

(** Without a cycle, the elements that go on bound the steps. *)
Lemma acc_stops l : forall x, Acc follows x ->
  (forall y, rtc (fun a b => follows b a) x y -> is_Some (next y) -> y ∈ l) -> stops (length l) x.
Proof.
  induction l as [l IH] using (induction_ltof1 _ length). intros x Hacc Hl. unfold ltof in IH.
  destruct (next x) as [y|] eqn:Hx; [|destruct l; cbn; by rewrite Hx].
  assert (Hin : x ∈ l) by (apply Hl; [apply rtc_refl|by eexists]).
  apply list_elem_of_split in Hin as (l1 & l2 & ->). rewrite length_app, length_cons, Nat.add_succ_r. cbn [stops]. rewrite Hx.
  rewrite <- length_app. apply IH; [rewrite !length_app, length_cons; lia|by apply (Acc_inv Hacc)|].
  intros z Hz Hs. assert (Hxz : tc (fun a b => follows b a) x z) by (eapply tc_rtc_r; [by apply tc_once|exact Hz]).
  pose proof (acc_no_return x Hacc z Hxz). specialize (Hl z (tc_rtc _ _ Hxz) Hs). set_solver.
Qed.
End Chains.

(** ** A trie of plain names *)

(** A lower-case name without a wildcard. *)
Definition plain_label (p : string) : Prop := p <> wildcard /\ p <> dotWildcard /\ p <> complexWildcard.
Record plain_name (d : string) : Prop := {
  pn_valid : ValidAndSplitDomain d = inr (Split d);
  pn_lower : ToLower d = d;
  pn_labels : Forall plain_label (Split d)
}.

Lemma first_data_plain {A} (f : list string -> option A) : forall rparts,
  (forall p, Exists (fun q => ~ plain_label q) p -> f p = None) -> first_data f (candidates rparts) = f rparts.
Proof.
  intros rparts. revert f. induction rparts as [|part rest IH]; intros f Hf; cbn [candidates]; [cbn; by destruct (f [])|].
  rewrite !first_data_app, !first_data_map. rewrite !IH by (intros p Hp; apply Hf; by apply Exists_cons_tl).
  destruct (f (part :: rest)); [done|]. rewrite (Hf (wildcard :: rest)) by (apply Exists_cons_hd; by intros (? & _)).
  cbn. by rewrite (Hf [dotWildcard]) by (apply Exists_cons_hd; by intros (_ & ? & _)).
Qed.

(** A trie that holds the plain names of [m]. *)
Definition holds_plain (t : HostTrie) (m : list (list string * HostValue)) : Prop :=
  implements t m /\ Forall (fun e => Forall plain_label e.1) m.

Lemma pm_get_labels (m : list (list string * HostValue)) p : Forall (fun e => Forall plain_label e.1) m -> Exists (fun q => ~ plain_label q) p -> pm_get m p = None.
Proof.
  intros Hm Hp. induction Hm as [|[q hv] m Hq _ IH]; [done|]. cbn [pm_get]. rewrite decide_False; [done|]. intros ->. cbn in Hq.
  apply Exists_exists in Hp as (x & Hx & Hn). rewrite Forall_forall in Hq. by apply Hn, Hq.
Qed.

Lemma host_step_data t x : host_step t x = Search x t ≫= data.
Proof.
  unfold host_step, Search. destruct (ValidAndSplitDomain x); [done|]. destruct (bool_decide _); [done|].
  destruct (isEmpty (search (root t) (rev _))) eqn:E; [done|]. destruct (search (root t) (rev _)) as [[? ? ? [hv|]]|]; done.
Qed.

Lemma host_step_plain t m x : holds_plain t m ->
  host_step t x = match ValidAndSplitDomain x with inr parts => pm_get m (rev parts) | inl _ => None end.
Proof.
  intros [Hi Hm]. rewrite host_step_data, (implements_search t m x Hi). unfold pm_search. destruct (ValidAndSplitDomain x) as [|parts]; [done|].
  rewrite first_data_plain by (intros p; by apply pm_get_labels). destruct (bool_decide (head parts = Some "")) eqn:Hh; [|done]. zify_bool.
  symmetry. apply pm_get_labels; [done|]. destruct parts as [|q parts]; [done|]. injection Hh as ->. cbn [rev].
  apply Exists_app. right. apply Exists_cons_hd. by intros (_ & ? & _).
Qed.

Lemma plain_expand d : plain_name d -> expand (Split d) = [Split d].
Proof.
  intros [_ _ Hl]. unfold expand. rewrite bool_decide_false; [done|]. destruct Hl as [|q l (_ & _ & H)]; [done|]. by intros [= ->].
Qed.

Lemma holds_plain_insert t m d hv : holds_plain t m -> plain_name d -> holds_plain (trie_step t (OpInsert d hv)) ((rev (Split d), hv) :: m).
Proof.
  intros [Hi Hm] Hd. split; [|constructor; [|done]; cbn; by apply Forall_rev, Hd].
  pose proof (implements_step t m (OpInsert d hv) Hi) as H. cbn [pm_step] in H. rewrite (pn_valid d Hd), (plain_expand d Hd) in H. exact H.
Qed.

(** Inserting changes the answer for one name, however it is spelled. *)
Lemma host_step_insert t m d hv x : holds_plain t m -> plain_name d ->
  host_step (trie_step t (OpInsert d hv)) x = if decide (ToLower x = d) then Some hv else host_step t x.
Proof.
  intros Ht Hd. rewrite (host_step_plain _ _ x (holds_plain_insert t m d hv Ht Hd)), (host_step_plain t m x Ht).
  destruct (decide (ToLower x = d)) as [Hx|Hx].
  - assert (Hv : ValidAndSplitDomain x = inr (Split d)).
    { destruct (proj1 (ValidAndSplitDomain_iff d _) (pn_valid d Hd)) as (H1 & H2 & H3). apply ValidAndSplitDomain_iff.
      rewrite Hx. split; [done|]. split; [|done]. by rewrite <- leading_space_lower, Hx. }
    rewrite Hv. cbn. by rewrite decide_True.
  - destruct (ValidAndSplitDomain x) as [|parts] eqn:Hv; [done|]. cbn. rewrite decide_False; [done|]. intros Hr.
    apply ValidAndSplitDomain_iff in Hv as (-> & _ & _). apply (f_equal (@rev _)) in Hr. rewrite !rev_involutive in Hr.
    apply Hx. by rewrite <- (Join_Split dot (ToLower x)), <- Hr, Join_Split.
Qed.

(** ** Aliases *)

(** The name a name stands for. *)
Definition alias (t : HostTrie) (x : string) : option string := hv_Domain <$> host_step t x.

Lemma hosts_loop_ends t isDomain n : forall fuel hv, stops (alias t) n (hv_Domain hv) -> (n < fuel)%nat -> is_Some (hosts_loop fuel t isDomain hv).
Proof.
  assert (Hx : forall x, alias t x = hv_Domain <$> host_step t x) by done.
  induction n as [|n IH]; intros [|fuel] hv Hs Hf; try lia; cbn [hosts_loop]; destruct (isDomain && hv_IsDomain hv); try (by eexists);
    cbn [stops] in Hs; rewrite Hx in Hs; destruct (host_step t (hv_Domain hv)) as [hv'|]; try done; try (by eexists).
  apply IH; [done|lia].
Qed.

(** A value that is a domain is a lower-case name, another one has none. *)
Definition value_ok (hv : HostValue) : Prop := if hv_IsDomain hv then ToLower (hv_Domain hv) = hv_Domain hv else hv_Domain hv = "".

(** The walk of [parseHosts] says no only if the name is not met. *)
Lemma cycle_walk_spec t d n : d <> "" -> (forall x hv, host_step t x = Some hv -> value_ok hv) ->
  forall fuel v, stops (alias t) n v -> (n < fuel)%nat ->
  exists b, cycle_walk fuel t d (host_step t v) = Some b /\ (b = false -> forall y, tc (fun a b => follows (alias t) b a) v y -> y <> d).
Proof.
  intros Hd Hok. assert (Hnil : alias t "" = None) by (unfold alias; by rewrite host_step_data).
  assert (Hend : forall v, alias t v = None -> forall y, tc (fun a b => follows (alias t) b a) v y -> y <> d).
  { intros v Hv y Hy. unfold follows in Hy. inversion Hy; subst; congruence. }
  assert (Hnext : forall v w, alias t v = Some w -> w <> d -> (forall y, tc (fun a b => follows (alias t) b a) w y -> y <> d) ->
    forall y, tc (fun a b => follows (alias t) b a) v y -> y <> d).
  { intros v w Hv Hw Hy y H. unfold follows in *. inversion H as [? ? H1|? z ? H1 H2]; subst; rewrite Hv in H1; injection H1 as <-; [done|by apply Hy]. }
  induction n as [|n IH]; intros [|fuel] v Hs Hf; try lia; cbn [cycle_walk]; cbn [stops] in Hs;
    destruct (host_step t v) as [hv|] eqn:Hv; (assert (Hav : alias t v = hv_Domain <$> host_step t v) by done); rewrite Hv in Hav; cbn in Hav; rewrite Hav in Hs.
  - done.
  - exists false. split; [done|]. intros _. by apply Hend.
  - specialize (Hok v hv Hv). unfold value_ok in Hok. destruct (hv_IsDomain hv).
    + destruct (String.eqb_spec (hv_Domain hv) d) as [_|Hne]; [by exists true|].
      destruct (IH fuel (hv_Domain hv) Hs ltac:(lia)) as (b & -> & Hb). exists b. split; [done|]. intros E. apply (Hnext v (hv_Domain hv)); auto.
    + exists false. split; [done|]. intros _. rewrite Hok in Hav. apply (Hnext v ""); [done|congruence|]. by apply Hend.
  - exists false. split; [done|]. intros _. by apply Hend.
Qed.

(** What reading keeps true. *)
Record hosts_ok (t : HostTrie) (m : list (list string * HostValue)) : Prop := {
  ho_plain : holds_plain t m;
  ho_values : Forall (fun e => value_ok e.2) m;
  ho_acc : forall x, Acc (follows (alias t)) x
}.

Lemma host_step_elem t m x hv : holds_plain t m -> host_step t x = Some hv -> exists key, (key, hv) ∈ m.
Proof.
  intros Hp Hx. rewrite (host_step_plain t m x Hp) in Hx. destruct (ValidAndSplitDomain x) as [|parts]; [done|]. clear Hp. exists (rev parts).
  induction m as [|[q w] m IH]; [done|]. cbn in Hx. destruct (decide (q = rev parts)) as [->|]; [injection Hx as ->; by left|right; auto].
Qed.
Lemma host_step_ok t m x hv : hosts_ok t m -> host_step t x = Some hv -> value_ok hv.
Proof.
  intros [Hp Hv _] Hx. destruct (host_step_elem t m x hv Hp Hx) as [key Hin]. rewrite Forall_forall in Hv. apply (Hv _ Hin).
Qed.

Lemma aliases_stop t m x : hosts_ok t m -> stops (alias t) (S (length m)) x.
Proof.
  intros Hok. replace (S (length m)) with (length (x :: map (fun e => hv_Domain e.2) m)) by (cbn; by rewrite length_map).
  apply acc_stops; [apply Hok|]. intros y Hy _. apply rtc_inv_r in Hy as [->|(z & _ & Hz)]; [by left|right].
  unfold follows, alias in Hz. apply fmap_Some in Hz as (hv & Hs & ->). destruct (host_step_elem t m z hv (ho_plain _ _ Hok) Hs) as [key Hin].
  apply (list_elem_of_fmap_2 (fun e : list string * HostValue => hv_Domain e.2) m (key, hv) Hin).
Qed.

Lemma value_lower hv : value_ok hv -> ToLower (hv_Domain hv) = hv_Domain hv.
Proof. unfold value_ok. destruct (hv_IsDomain hv); [done|]. by intros ->. Qed.

Abbreviation leads t := (tc (fun a b => follows (alias t) b a)).

Lemma hosts_ok_insert t m d hv : hosts_ok t m -> plain_name d -> value_ok hv ->
  hv_Domain hv <> d -> (forall y, leads t (hv_Domain hv) y -> y <> d) ->
  hosts_ok (trie_step t (OpInsert d hv)) ((rev (Split d), hv) :: m).
Proof.
  intros Hok Hd Hv Hne Hleads. pose proof (ho_plain _ _ Hok) as Hp. pose proof (ho_acc _ _ Hok) as Hacc.
  set (t' := trie_step t (OpInsert d hv)).
  assert (Ha : forall x, alias t' x = if decide (ToLower x = d) then Some (hv_Domain hv) else alias t x).
  { intros x. unfold alias, t'. rewrite (host_step_insert t m d hv x Hp Hd). by destruct (decide (ToLower x = d)). }
  assert (Hold : forall y, Acc (follows (alias t)) y -> rtc (fun a b => follows (alias t) b a) (hv_Domain hv) y -> Acc (follows (alias t')) y).
  { induction 1 as [y _ IH]. intros Hy. constructor. intros z Hz. unfold follows in Hz. rewrite Ha in Hz.
    assert (Hy' : y <> d /\ ToLower y = y).
    { apply rtc_inv_r in Hy as [<-|(x & Hx & Hxy)]; [split; [done|by apply value_lower]|]. split; [eapply Hleads, tc_rtc_l, tc_once, Hxy; done|].
      unfold follows, alias in Hxy. apply fmap_Some in Hxy as (hv' & Hs & ->). by apply value_lower, (host_step_ok t m x). }
    destruct Hy' as [Hy1 Hy2]. rewrite decide_False in Hz by congruence. apply (IH z Hz). eapply rtc_r; [exact Hy|exact Hz]. }
  split; [by apply holds_plain_insert|by constructor; [|apply Hok]|].
  intros x. induction (Hacc x) as [x _ IH]. constructor. intros z Hz. unfold follows in Hz. rewrite Ha in Hz.
  destruct (decide (ToLower x = d)); [injection Hz as <-; apply Hold; [apply Hacc|apply rtc_refl]|]. by apply IH.
Qed.

Lemma hosts_ok_optimize t m : hosts_ok t m -> hosts_ok (Optimize t) m.
Proof.
  intros Hok. destruct (ho_plain _ _ Hok) as [Hi Hm].
  assert (Hp : holds_plain (Optimize t) m) by (split; [exact (implements_step t m OpOptimize Hi)|done]).
  split; [done|apply Hok|]. assert (Ha : forall x, alias (Optimize t) x = alias t x).
  { intros x. unfold alias. by rewrite (host_step_plain _ m x Hp), (host_step_plain t m x (ho_plain _ _ Hok)). }
  intros x. induction (ho_acc _ _ Hok x) as [x _ IH]. constructor. intros y Hy. apply IH. unfold follows in *. by rewrite <- Ha.
Qed.

Lemma NewHostValue_addresses value hv : NewHostValue value = inr hv -> hv_IsDomain hv = false -> hv_Domain hv = "".
Proof.
  assert (Hips : forall ips w, NewHostValueByIPs ips = inr w -> hv_Domain w = "") by (intros [|? ?] w; [done|by intros [= <-]]).
  unfold NewHostValue. destruct value as [|host [|h2 rest]]; [done| |].
  - destruct (ParseAddr host); [intros E _; by eapply Hips|]. unfold NewHostValueByDomain. destruct (_ <? _); [done|]. by intros [= <-].
  - destruct (host_ips _); [done|]. intros E _. by eapply Hips.
Qed.

(** An entry for a plain name that is not its own alias; aliases are in lower case. *)
Definition plain_entry (lan : option (list string)) (e : string * list string) : Prop :=
  plain_name e.1 /\ forall hv, NewHostValue (lan_hosts lan e.2) = inr hv -> hv_IsDomain hv = true -> ToLower (hv_Domain hv) = hv_Domain hv /\ hv_Domain hv <> e.1.

Lemma plain_name_nonempty d : plain_name d -> d <> "".
Proof. intros [H _ _] ->. done. Qed.

Lemma parse_entries_ok lan fuel entries : Forall (plain_entry lan) entries -> forall t m, hosts_ok t m -> (length m + length entries + 1 < fuel)%nat ->
  exists r, parse_entries fuel lan entries t = Some r
    /\ (forall t', r = inr t' -> exists m', hosts_ok t' m' /\ (length m' <= length m + length entries)%nat).
Proof.
  induction 1 as [|[d hosts] entries [Hd Hv] _ IH]; intros t m Hok Hf.
  { exists (inr t). split; [done|]. intros t' [= <-]. exists m. split; [done|]. cbn. lia. }
  cbn [parse_entries length] in *. unfold parse_host. cbn [fst snd] in *. set (value := lan_hosts lan hosts) in *.
  destruct (NewHostValue value) as [e|hv] eqn:En; [by exists (inl (ErrHostValue value))|].
  assert (Hins : hv_Domain hv <> d -> value_ok hv -> (forall y, leads t (hv_Domain hv) y -> y <> d) ->
    exists r, parse_entries fuel lan entries (trie_step t (OpInsert d hv)) = Some r
      /\ (forall t', r = inr t' -> exists m', hosts_ok t' m' /\ (length m' <= length m + S (length entries))%nat)).
  { intros H1 H2 H3. destruct (IH _ _ (hosts_ok_insert t m d hv Hok Hd H2 H1 H3)) as (r & E & Hr); [cbn; lia|]. exists r. split; [done|].
    intros t' Et. destruct (Hr t' Et) as (m' & Hm' & Hl). exists m'. split; [done|]. cbn in Hl. lia. }
  unfold trie_step in Hins. destruct (hv_IsDomain hv) eqn:Edom.
  - destruct (Hv hv eq_refl Edom) as [Hlow Hne].
    destruct (cycle_walk_spec t d (S (length m)) (plain_name_nonempty d Hd) (fun x hv => host_step_ok t m x hv Hok) fuel (hv_Domain hv)
                (aliases_stop t m (hv_Domain hv) Hok)) as (b & Eb & Hb); [lia|]. rewrite Eb. cbn [mbind option_bind].
    destruct b; [by exists (inl (ErrHostCycle d))|]. apply Hins; [done|unfold value_ok; by rewrite Edom|by apply Hb].
  - cbn [mbind option_bind]. pose proof (NewHostValue_addresses _ _ En Edom) as Hnil. apply Hins.
    + rewrite Hnil. intros E. by apply (plain_name_nonempty d Hd).
    + unfold value_ok. by rewrite Edom.
    + rewrite Hnil. intros y Hy. assert (Hs : alias t "" = None) by (unfold alias; by rewrite host_step_data).
      unfold follows in Hy. inversion Hy; subst; congruence.
Qed.

(** The entry every configuration has. *)
Definition localhost_value : HostValue := mkHostValue false [mkAddr 32 2130706433] "".
Definition localhost_trie : HostTrie := match Insert "localhost" localhost_value trie_New with inr t => t | inl _ => trie_New end.

Lemma hosts_ok_new : hosts_ok trie_New [].
Proof.
  assert (Hi : implements (@trie_New HostValue) []) by (split; [done|]; intros p; apply lookup_newNode).
  split; [by split|constructor|]. intros x. constructor. intros y Hy. unfold follows, alias in Hy.
  rewrite (host_step_plain _ [] x) in Hy by (by split). destruct (ValidAndSplitDomain x); discriminate Hy.
Qed.
Lemma localhost_ok : hosts_ok localhost_trie [(rev (Split "localhost"), localhost_value)].
Proof.
  apply (hosts_ok_insert trie_New [] "localhost" localhost_value hosts_ok_new).
  - split; [reflexivity|reflexivity|]. by repeat constructor.
  - reflexivity.
  - discriminate.
  - intros y Hy. assert (Hs : alias trie_New "" = None) by reflexivity. unfold follows in Hy. inversion Hy; subst; cbn in *; congruence.
Qed.

(** Reading hosts ends, and so does searching them.
    For entries of plain lower-case names none of which is its own alias, the check
    made while reading refuses every cycle, in whatever order the entries come:
    every search of the result returns, after at most one step per entry. *)
Lemma hosts_Search_ends lan entries fuel :
  Forall (plain_entry lan) entries -> (length entries + 2 < fuel)%nat ->
  exists r, parseHosts fuel lan entries = Some r
    /\ forall t, r = inr t -> forall system domain isDomain, is_Some (hosts_Search fuel t system domain isDomain).
Proof.
  intros He Hf. unfold parseHosts. change (match Insert "localhost" _ _ with inr t => t | inl _ => trie_New end) with localhost_trie.
  destruct (parse_entries_ok lan fuel entries He _ _ localhost_ok) as (r & -> & Hr); [cbn; lia|].
  destruct r as [e|t]; cbn [mbind option_bind]; [by eexists|]. eexists. split; [done|]. intros t' [= <-] system domain isDomain.
  destruct (Hr t eq_refl) as (m' & Hm & Hlen). apply hosts_ok_optimize in Hm. unfold hosts_Search.
  destruct (host_step (Optimize t) domain) as [hv|]; [|by eexists].
  destruct (hosts_loop_ends (Optimize t) isDomain (S (length m')) fuel hv (aliases_stop _ _ _ Hm)) as [hv' ->]; [cbn in Hlen; lia|by eexists].
Qed.

Definition ex_hosts : list (string * list string) := [("a.com", ["b.com"]); ("b.com", ["c.com"]); ("c.com", ["1.2.3.4"; "::1"])].
Lemma hosts_Search_ends_witness :
  exists t, parseHosts 6 None ex_hosts = Some (inr t) /\ is_Some (hosts_Search 6 t None "A.com" false)
    /\ hosts_Search 6 t None "A.com" false = Some (Some (mkHostValue false [mkAddr 32 16909060; mkAddr 128 1] ""), true).
Proof.
  destruct (hosts_Search_ends None ex_hosts 6) as (r & E & Hr).
  - repeat (apply Forall_cons; split; [split; [split; [reflexivity|reflexivity|repeat constructor; done]|]; intros hv [= <-] ?; done|]). constructor.
  - cbn. lia.
  - assert (Ex : exists t, parseHosts 6 None ex_hosts = Some (inr t)) by (eexists; vm_compute; reflexivity).
    destruct Ex as [t Et]. rewrite Et in E. injection E as <-. exists t. split; [exact Et|]. split; [exact (Hr t eq_refl None "A.com" false)|].
    vm_compute in Et. injection Et as <-. vm_compute. reflexivity.
Defined.

(** A name that stands for itself is accepted, since the check looks at the
    entries before it, and then a search for its address never returns, however
    long one waits.  The tunnel makes that search for every connection to it. *)
Lemma self_alias_never_ends :
  exists t, parseHosts 3 None [("a.com", ["a.com"])] = Some (inr t) /\ forall fuel system, hosts_Search fuel t system "a.com" false = None.
Proof.
  eexists. split; [vm_compute; reflexivity|]. intros fuel system. match goal with |- hosts_Search _ ?t _ _ _ = _ => set (t0 := t) end.
  assert (Hs : host_step t0 "a.com" = Some (mkHostValue true [] "a.com")) by (vm_compute; reflexivity). generalize dependent t0. intros t Hs.
  unfold hosts_Search. rewrite Hs. assert (Hl : hosts_loop fuel t false (mkHostValue true [] "a.com") = None); [|by rewrite Hl].
  induction fuel as [|fuel IH]; [done|]. cbn [hosts_loop andb hv_Domain]. by rewrite Hs.
Qed.

(** A wildcard entry can be its own alias too. *)
Example wildcard_alias_loops :
  match parseHosts 9 None [("*.a.com", ["x.a.com"])] with Some (inr t) => hosts_Search 100 t None "y.a.com" false | _ => Some (None, false) end = None.
Proof. by vm_compute. Qed.
