(* ===== verification/DnsMsg.v ===== *)
(** * DNS messages and the life of an answer

    Models the part of [dns/util.go] that works on messages: times to live, what goes
    into the cache of answers and comes out of it, the addresses and names read from a
    message; [dns/edns0_subnet.go]; and the answers made on the spot.

    The types of messages belong to the package miekg/dns; the model keeps the parts the
    code reads or writes.  What the code calls of that package and of samber/lo beyond
    plain accessors is the class [DnsLib]: its theorems assume only what [DnsLibLaws]
    states.  A message copied by [Copy] shares no record with the original, so changes of
    records are changes of values here.  Times are in nanoseconds; the cache keeps
    seconds. *)

From S2P Require Import Prelude Names GoFloat Netip AnswerCache.
#[local] Open Scope string_scope.
#[local] Open Scope list_scope.
#[local] Open Scope Z_scope.

(** ** Messages *)

Definition TypeA_ : Z := 1.
Definition TypeCNAME_ : Z := 5.
Definition TypeTXT_ : Z := 16.
Definition TypeAAAA_ : Z := 28.
Definition TypeOPT_ : Z := 41.
Definition TypeHTTPS_ : Z := 65.
Definition ClassINET_ : Z := 1.
Definition RcodeSuccess : Z := 0.
Definition RcodeFormatError : Z := 1.
Definition RcodeServerFailure : Z := 2.
Definition RcodeNameError : Z := 3.
Definition RcodeNotImplemented : Z := 4.
Definition RcodeRefused : Z := 5.

Record DnsQuestion := mkDnsQuestion { dq_Name : string; dq_Qtype : Z; dq_Qclass : Z }.
#[export] Instance DnsQuestion_eq_dec : EqDecision DnsQuestion.
Proof. solve_decision. Defined.
(** Options of an OPT record; parameters of an HTTPS record. *)
Inductive EdnsOption := EDNS0_SUBNET (Code Family SourceNetmask : Z) (Address : list Z) | EdnsOther (code : Z).
Inductive SvcParam := SVCBECHConfig (ECH : list Z) | SvcOther (key : Z).
Inductive Rdata := RD_A (a : list Z) | RD_AAAA (aaaa : list Z) | RD_OPT (o : list EdnsOption) | RD_HTTPS (v : list SvcParam) | RD_Other (d : string).
Record DnsRR := mkDnsRR { rr_Name : string; rr_Rrtype : Z; rr_Class : Z; rr_Ttl : Z; rr_Data : Rdata }.
Record DnsMsg := mkDnsMsg {
  dm_Id : Z; dm_Response : bool; dm_Opcode : Z; dm_Authoritative : bool; dm_RecursionAvailable : bool; dm_Rcode : Z;
  dm_Question : list DnsQuestion; dm_Answer : list DnsRR; dm_Ns : list DnsRR; dm_Extra : list DnsRR
}.
(** [&D.Msg{}]. *)
Definition emptyMsg : DnsMsg := mkDnsMsg 0 false 0 false false 0 [] [] [] [].
Definition set_sections (an ns ex : list DnsRR) (m : DnsMsg) : DnsMsg :=
  mkDnsMsg (dm_Id m) (dm_Response m) (dm_Opcode m) (dm_Authoritative m) (dm_RecursionAvailable m) (dm_Rcode m) (dm_Question m) an ns ex.
Definition set_Ttl (ttl : Z) (r : DnsRR) : DnsRR := mkDnsRR (rr_Name r) (rr_Rrtype r) (rr_Class r) ttl (rr_Data r).
Definition set_Data (d : Rdata) (r : DnsRR) : DnsRR := mkDnsRR (rr_Name r) (rr_Rrtype r) (rr_Class r) (rr_Ttl r) d.

(** What the code calls of the packages miekg/dns and samber/lo. *)
Class DnsLib := {
  dns_Fqdn : string -> string;
  question_String : DnsQuestion -> string;
  dns_SetQuestion : DnsMsg -> string -> Z -> DnsMsg;
  (** [m.SetRcode(request, rcode)]. *)
  dns_SetRcode : DnsMsg -> DnsMsg -> Z -> DnsMsg;
  (** The keys of [TypeToRR]. *)
  dns_TypeToRR : Z -> bool;
  dns_RcodeToString : Z -> string;
  (** [value], [min], [max]. *)
  lo_Clamp : Z -> Z -> Z -> Z;
  (** The result of a conversion of a float that does not fit. *)
  f64_unfit : spec_float -> Z
}.
(** Documented behaviour: [Clamp] clamps within its inclusive bounds; [SetQuestion] sets
    one question of class INET; [SetRcode] makes a reply with the code and the question
    of the request, and leaves the records of the message alone. *)
Class DnsLibLaws `{DnsLib} := {
  lo_Clamp_law : forall v lo hi, lo <= hi -> lo_Clamp v lo hi = Z.max lo (Z.min v hi);
  dns_SetQuestion_law : forall m z t, dm_Question (dns_SetQuestion m z t) = [mkDnsQuestion z t ClassINET_];
  dns_SetRcode_law : forall m r c, dm_Rcode (dns_SetRcode m r c) = c /\ dm_Answer (dns_SetRcode m r c) = dm_Answer m /\
    dm_Ns (dns_SetRcode m r c) = dm_Ns m /\ dm_Extra (dns_SetRcode m r c) = dm_Extra m /\
    dm_Question (dns_SetRcode m r c) = take 1 (dm_Question r)
}.

(** [lo.MinBy] on lists of records: the first of the least, none of an empty list. *)
Fixpoint MinBy (min : DnsRR) (l : list DnsRR) : DnsRR :=
  match l with [] => min | r :: l => MinBy (if rr_Ttl r <? rr_Ttl min then r else min) l end.

(** @go dns/util.go:28-36 minimalTTL *)
Definition minimalTTL (records : list DnsRR) : Z :=
  match records with [] => 0 | r :: l => rr_Ttl (MinBy r l) end.

(** @go dns/util.go:26-26 serverFailureCacheTTL *)
Definition serverFailureCacheTTL : Z := 5.

Section Msg.
Context `{DnsLib}.

(** ** Times to live *)

(** Differences are of 32-bit unsigned integers.
    @go dns/util.go:38-46 updateTTL *)
Definition updateTTL (records : list DnsRR) (ttl : Z) : list DnsRR :=
  match records with
  | [] => []
  | _ =>
      let delta := u32 (minimalTTL records - ttl) in
      map (fun r => set_Ttl (lo_Clamp (u32 (rr_Ttl r - delta)) 1 (rr_Ttl r)) r) records
  end.
(** @go dns/util.go:106-110 updateMsgTTL *)
Definition updateMsgTTL (m : DnsMsg) (ttl : Z) : DnsMsg :=
  set_sections (updateTTL (dm_Answer m) ttl) (updateTTL (dm_Ns m) ttl) (updateTTL (dm_Extra m) ttl) m.
(** @go dns/util.go:89-104 setMsgTTL *)
Definition dns_setMsgTTL (m : DnsMsg) (ttl : Z) : DnsMsg :=
  set_sections (map (set_Ttl ttl) (dm_Answer m)) (map (set_Ttl ttl) (dm_Ns m))
    (map (fun r => if rr_Rrtype r =? TypeOPT_ then r else set_Ttl ttl r) (dm_Extra m)) m.

(** ** The cache of answers *)

Definition Second : Z := 10 ^ 9.
(** [time.Duration.Seconds], and the conversion to [uint32]. *)
Definition duration_Seconds (d : Z) : spec_float :=
  f64_add (f64_of_Z (Z.quot d Second)) (f64_div (f64_of_Z (Z.rem d Second)) (f64_of_Z Second)).
Definition uint32_of_f64 (f : spec_float) : Z :=
  match f64_trunc f with Some z => if (0 <=? z) && (z <? 2 ^ 32) then z else u32 (f64_unfit f) | None => u32 (f64_unfit f) end.

Section Cache.
Context {C : Type} `{DnsCache C DnsMsg}.

(** The clock [t] in nanoseconds, in successive readings; the answer comes with the
    second at which it expires.
    @go dns/util.go:50-56 getMsgFromCache *)
Definition getMsgFromCache (t : nat -> Z) (c : C) (q : DnsQuestion) : option (option (DnsMsg * Z) * C) :=
  dc_GetWithExpire (fun n => t n / Second) (question_String q) c.

(** @go dns/util.go:70-73 putMsgToCache *)
Definition no_opt (m : DnsMsg) : DnsMsg :=
  set_sections (dm_Answer m) (dm_Ns m) (filter (fun r => rr_Rrtype r <> TypeOPT_) (dm_Extra m)) m.
(** @go dns/util.go:75-82 putMsgToCache *)
Definition cacheTTL (m : DnsMsg) : Z :=
  if dm_Rcode m =? RcodeServerFailure then serverFailureCacheTTL
  else minimalTTL (dm_Answer m ++ dm_Ns m ++ dm_Extra m).
(** @go dns/util.go:60-87 putMsgToCache *)
Definition putMsgToCache (now : Z) (c : C) (q : DnsQuestion) (m : DnsMsg) : option C :=
  if (dq_Qtype q =? TypeTXT_) && HasPrefix (dq_Name q) "_acme-challenge." then Some c
  else
    let m := no_opt m in
    let ttl := cacheTTL m in
    if ttl =? 0 then Some c
    else dc_SetWithExpire (now / Second) (question_String q) m ((now + ttl * Second) / Second) c.
End Cache.

(** ** Reading a message *)

(** @go dns/util.go:112-114 isIPRequest *)
Definition dns_isIPRequest (q : DnsQuestion) : bool :=
  (dq_Qclass q =? ClassINET_) && ((dq_Qtype q =? TypeA_) || (dq_Qtype q =? TypeAAAA_) || (dq_Qtype q =? TypeCNAME_)).

(** @go dns/util.go:304-322 msgToIP *)
Definition rr_ip (r : DnsRR) : option Addr :=
  match rr_Data r with
  | RD_AAAA b | RD_A b => addr_Unmap <$> AddrFromSlice b
  | _ => None
  end.
Definition msgToIP (m : DnsMsg) : list Addr := omap rr_ip (dm_Answer m).

(** @go dns/util.go:324-330 msgToDomain *)
Definition dns_msgToDomain (m : DnsMsg) : string :=
  match dm_Question m with q :: _ => TrimRightFunc (Ascii.eqb ".") (dq_Name q) | [] => "" end.

(** ** Answers made on the spot *)

(** @go dns/util.go:293-302 handleMsgWithEmptyAnswer *)
Definition dns_emptyAnswer (r : DnsMsg) : DnsMsg :=
  let m := dns_SetRcode emptyMsg r RcodeSuccess in
  mkDnsMsg (dm_Id m) (dm_Response m) (dm_Opcode m) true true (dm_Rcode m) (dm_Question m) (dm_Answer m) (dm_Ns m) (dm_Extra m).

(** @go dns/rcode.go:42-46 rcodeClient.ExchangeContext *)
Definition rcode_answer (rcode : Z) (m : DnsMsg) : DnsMsg :=
  mkDnsMsg (dm_Id m) true (dm_Opcode m) (dm_Authoritative m) (dm_RecursionAvailable m) rcode (dm_Question m) (dm_Answer m) (dm_Ns m) (dm_Extra m).

(** ** The client subnet *)

Fixpoint find_option (i : nat) (l : list EdnsOption) : option nat :=
  match l with
  | [] => None
  | EDNS0_SUBNET _ _ _ _ :: _ => Some i
  | _ :: l => find_option (S i) l
  end.
(** The loop [findExists]: the place of the record and of the option that its variables
    point to when it ends.  Every record looked at overwrites the variable, and one that
    is no OPT record sets it to nil.
    @go dns/edns0_subnet.go:14-28 setEdns0Subnet *)
Fixpoint findExists (i : nat) (opt : option nat) (l : list DnsRR) : option nat * option nat :=
  match l with
  | [] => (opt, None)
  | r :: l =>
      match rr_Data r with
      | RD_OPT o => match find_option 0 o with Some j => (Some i, Some j) | None => findExists (S i) (Some i) l end
      | _ => findExists (S i) None l
      end
  end.

Definition subnet_option (p : Prefix) : EdnsOption :=
  EDNS0_SUBNET 8 (if addr_Is4 (p_addr p) then 1 else 2) (u8 (p_bits p)) (addr_AsSlice (p_addr p)).
Definition options_of (r : DnsRR) : list EdnsOption := match rr_Data r with RD_OPT o => o | _ => [] end.
(** A fresh OPT record. *)
Definition new_opt : DnsRR := mkDnsRR "." TypeOPT_ 0 0 (RD_OPT []).

(** @go dns/edns0_subnet.go:9-51 setEdns0Subnet *)
Definition setEdns0Subnet (m : DnsMsg) (clientSubnet : Prefix) (override : bool) : bool * DnsMsg :=
  let '(opt, sub) := findExists 0 None (dm_Extra m) in
  match sub, override with
  | Some _, false => (false, m)
  | _, _ =>
      let '(i, extra) := match opt with Some i => (i, dm_Extra m) | None => (length (dm_Extra m), dm_Extra m ++ [new_opt]) end in
      let put o := match sub with Some j => <[j := subnet_option clientSubnet]> o | None => o ++ [subnet_option clientSubnet] end in
      (true, set_sections (dm_Answer m) (dm_Ns m) (alter (fun r => set_Data (RD_OPT (put (options_of r))) r) i extra) m)
  end.
End Msg.
