(* ===== verification/DnsResolver.v ===== *)
(** * The resolver

    Models [dns/resolver.go], [dns/policy.go], [dns/rcode.go], the clients' wrappers and
    [batchExchange] of [dns/util.go], and [common/picker/picker.go].

    A client that talks to a server (UDP, TLS, HTTPS, QUIC, DHCP, ...) is a raw transport:
    it is named by a number, as a Go pointer names it, and what it answers is the argument
    [upstream].  Wrappers around it are as in the code.  Calls that run at the same time
    run one after another here; which of several answers arrives first is the argument
    [arrival].  The resolver's cache is any [DnsCache]. *)

From S2P Require Import Prelude Names GoText Netip DomainTrie AnswerCache DnsMsg.
#[local] Open Scope string_scope.
#[local] Open Scope list_scope.
#[local] Open Scope Z_scope.

(** ** Errors *)

Inductive DnsErr :=
| ErrIPNotFound_ | ErrIPVersion_ | ErrIPv6Disabled_
| errNoQuestion | errNoECH
| errAllFailed (first : option DnsErr) | errServerFailure (name : string)
| errNotFound (host : string)
| errUpstream (what : string) | errContext.

(** ** The picker *)

(** The two [sync.Once] guard the first result and the first error.
    @go common/picker/picker.go:12-22 Picker *)
Record Picker (T : Type) := mkPicker { pk_result : option T; pk_err : option DnsErr; pk_cancelled : bool }.
Arguments mkPicker {T} _ _ _.
Arguments pk_result {T} _.
Arguments pk_err {T} _.
Arguments pk_cancelled {T} _.
(** @go common/picker/picker.go:24-42 newPicker, WithContext, WithTimeout *)
Definition newPicker {T} : Picker T := mkPicker None None false.
(** One function has returned.
    @go common/picker/picker.go:62-82 Picker.Go *)
Definition pk_done {T} (p : Picker T) (r : DnsErr + T) : Picker T :=
  match r with
  | inr ret => match pk_result p with None => mkPicker (Some ret) (pk_err p) true | Some _ => p end
  | inl err => match pk_err p with None => mkPicker (pk_result p) (Some err) (pk_cancelled p) | Some _ => p end
  end.
(** All have returned, in this order.
    @go common/picker/picker.go:46-53 Picker.Wait *)
Definition pk_Wait {T} (arrived : list (DnsErr + T)) : Picker T :=
  let p := fold_left pk_done arrived newPicker in mkPicker (pk_result p) (pk_err p) true.

(** ** Name servers and clients *)

(** A proxy as an interface value: two of the same dynamic type whose type cannot be
    compared make a comparison panic. *)
Record ProxyAdapter := mkProxyAdapter { pa_type : Z; pa_comparable : bool; pa_id : Z }.
#[export] Instance ProxyAdapter_eq_dec : EqDecision ProxyAdapter.
Proof. solve_decision. Defined.
(** The comparison of interface values; [None] panics. *)
Definition adapter_eq (a b : option ProxyAdapter) : option bool :=
  match a, b with
  | None, None => Some true
  | Some a, Some b => if pa_type a =? pa_type b then (if pa_comparable a then Some (pa_id a =? pa_id b) else None) else Some false
  | _, _ => Some false
  end.

(** @go dns/resolver.go:413-420 NameServer *)
Record NameServer := mkNameServer {
  ns_Net : string; ns_Addr : string; ns_ProxyAdapter : option ProxyAdapter; ns_ProxyName : string;
  ns_Params : gmap string string; ns_PreferH3 : bool
}.

(** A conjunction whose second part may panic, recovered: the function returns false. *)
Definition recovered (o : option bool) : bool := default false o.

(** @go dns/resolver.go:422-436 NameServer.Equal *)
Definition ns_Equal (a b : NameServer) : bool :=
  recovered
    (if String.eqb (ns_Net a) (ns_Net b) && String.eqb (ns_Addr a) (ns_Addr b) then
       (fun e => (e : bool) && String.eqb (ns_ProxyName a) (ns_ProxyName b) &&
          bool_decide (ns_Params a = ns_Params b) && Bool.eqb (ns_PreferH3 a) (ns_PreferH3 b)) <$> adapter_eq (ns_ProxyAdapter a) (ns_ProxyAdapter b)
     else Some false).

(** @go dns/util.go:208-214 isDisableTypesParam *)
Definition isDisableTypesParam (key : string) : bool :=
  String.eqb key "disable-ipv4" || String.eqb key "disable-ipv6" || HasPrefix key "disable-qtype-".
(** @go dns/util.go:258-264 isEdns0SubnetParam *)
Definition isEdns0SubnetParam (key : string) : bool := String.eqb key "ecs" || String.eqb key "ecs-override".
(** @go dns/util.go:164-166 isWrapperOnlyParam *)
Definition isWrapperOnlyParam (key : string) : bool := isDisableTypesParam key || isEdns0SubnetParam key.

(** @go dns/resolver.go:450-460 NameServer.transportEqual *)
Definition paramsEqual (a b : gmap string string) : bool :=
  forallb (fun '(k, v) => isWrapperOnlyParam k || bool_decide (b !! k = Some v)) (map_to_list a).
(** @go dns/resolver.go:440-463 NameServer.transportEqual *)
Definition transportEqual (a b : NameServer) : bool :=
  recovered
    (if String.eqb (ns_Net a) (ns_Net b) && String.eqb (ns_Addr a) (ns_Addr b) then
       (fun e => (e : bool) && String.eqb (ns_ProxyName a) (ns_ProxyName b) && Bool.eqb (ns_PreferH3 a) (ns_PreferH3 b) &&
          paramsEqual (ns_Params a) (ns_Params b) && paramsEqual (ns_Params b) (ns_Params a)) <$> adapter_eq (ns_ProxyAdapter a) (ns_ProxyAdapter b)
     else Some false).

(** [rawClient id ns] is the transport made for [ns]; the number tells two apart.
    @go dns/resolver.go:22-26 dnsClient *)
Inductive DnsClient :=
| rawClient (id : nat) (ns : NameServer)
| rcodeClient (rcode : Z) (addr : string)
| clientWithDisableTypes (c : DnsClient) (disableTypes : gset Z)
| clientWithEdns0Subnet (c : DnsClient) (ecsPrefix : Prefix) (ecsOverride : bool).

(** The loop of [rewrapClient] that takes the wrappers off.
    @go dns/util.go:150-156 rewrapClient *)
Fixpoint unwrap (c : DnsClient) : DnsClient :=
  match c with clientWithDisableTypes c _ | clientWithEdns0Subnet c _ _ => unwrap c | _ => c end.

(** @go dns/rcode.go:10-33 newRCodeClient *)
Definition newRCodeClient (addr : string) : option DnsClient :=
  let mk rcode := Some (rcodeClient rcode ("rcode://" ++ addr)) in
  if String.eqb addr "success" then mk RcodeSuccess
  else if String.eqb addr "format_error" then mk RcodeFormatError
  else if String.eqb addr "server_failure" then mk RcodeServerFailure
  else if String.eqb addr "name_error" then mk RcodeNameError
  else if String.eqb addr "not_implemented" then mk RcodeNotImplemented
  else if String.eqb addr "refused" then mk RcodeRefused
  else None.

Section Resolver.
Context `{DnsLib}.

(** ** Wrappers *)

(** [strconv.ParseUint(s, 10, 16)]. *)
Definition ParseUint16 (s : string) : option Z := n ← ParseUint s; if n <? 2 ^ 16 then Some n else None.
Definition qtype_param (k v : string) : option Z :=
  if HasPrefix k "disable-qtype-" && String.eqb v "true" then
    q ← ParseUint16 (str_drop 14 k); if dns_TypeToRR q then Some q else None
  else None.
(** @go dns/util.go:216-241 wrapClientWithDisableTypes *)
Definition disable_types (params : gmap string string) : gset Z :=
  (if bool_decide (params !! "disable-ipv4" = Some "true") then {[ TypeA_ ]} else ∅) ∪
  (if bool_decide (params !! "disable-ipv6" = Some "true") then {[ TypeAAAA_ ]} else ∅) ∪
  list_to_set (omap (fun kv => qtype_param kv.1 kv.2) (map_to_list params)).
Definition wrapClientWithDisableTypes (c : DnsClient) (params : gmap string string) : DnsClient :=
  let ts := disable_types params in if bool_decide (ts = ∅) then c else clientWithDisableTypes c ts.

(** @go dns/util.go:266-291 wrapClientWithEdns0Subnet *)
Definition ecs_prefix (params : gmap string string) : option Prefix :=
  match params !! "ecs" with
  | None | Some "" => None
  | Some ecs =>
      match ParsePrefix ecs with
      | Some p => Some p
      | None => (fun a => mkPrefix a (a_bits a)) <$> ParseAddr ecs
      end
  end.
Definition wrapClientWithEdns0Subnet (c : DnsClient) (params : gmap string string) : DnsClient :=
  match ecs_prefix params with
  | Some p => if prefix_IsValid p then clientWithEdns0Subnet c p (bool_decide (params !! "ecs-override" = Some "true")) else c
  | None => c
  end.
(** @go dns/util.go:149-160 rewrapClient *)
Definition rewrapClient (c : DnsClient) (params : gmap string string) : DnsClient :=
  wrapClientWithDisableTypes (wrapClientWithEdns0Subnet (unwrap c) params) params.

(** One turn of [transform]; [next] is the first unused number.  [None]: an unknown
    rcode panics.
    @go dns/util.go:116-142 transform *)
Definition transform1 (ns : NameServer) (next : nat) : option (DnsClient * nat) :=
  '(c, next) ← (if String.eqb (ns_Net ns) "rcode" then (fun c => (c, next)) <$> newRCodeClient (ns_Addr ns)
                else Some (rawClient next ns, S next));
  Some (rewrapClient c (ns_Params ns), next).
Fixpoint transform (servers : list NameServer) (next : nat) : option (list DnsClient * nat) :=
  match servers with
  | [] => Some ([], next)
  | s :: servers => '(c, next) ← transform1 s next; '(ret, next) ← transform servers next; Some (c :: ret, next)
  end.

(** ** Asking *)

(** @go dns/util.go:195-198 clientWithDisableTypes.inQuestion *)
Definition question_in (types : gset Z) (q : DnsQuestion) : bool := bool_decide (dq_Qtype q ∈ types).
(** @go dns/util.go:200-203 clientWithDisableTypes.inRR *)
Definition rr_in (types : gset Z) (r : DnsRR) : bool := bool_decide (rr_Rrtype r ∈ types).
(** @go dns/util.go:188-192 clientWithDisableTypes.ExchangeContext *)
Definition delete_types (types : gset Z) (m : DnsMsg) : DnsMsg :=
  let keep := List.filter (fun r => negb (rr_in types r)) in
  set_sections (keep (dm_Answer m)) (keep (dm_Ns m)) (keep (dm_Extra m)) m.

(** The answers of the servers: by transport, and by the number of the exchange, since a
    server need not answer twice alike. *)
Context (upstream : nat -> nat -> DnsMsg -> DnsErr + DnsMsg).
(** The order in which [n] concurrent requests of one exchange finish. *)
Context (arrival : nat -> nat -> list nat).

(** Around another client, whose exchange is [inner].
    @go dns/util.go:173-193 clientWithDisableTypes.ExchangeContext *)
Definition disable_Exchange (types : gset Z) (inner : DnsMsg -> DnsErr + DnsMsg) (m : DnsMsg) : DnsErr + DnsMsg :=
  if existsb (question_in types) (dm_Question m) then inr (dns_emptyAnswer m)
  else match inner m with inl e => inl e | inr r => inr (delete_types types r) end.
(** The message of the caller is copied first.
    @go dns/util.go:249-253 clientWithEdns0Subnet.ExchangeContext *)
Definition edns0_Exchange (p : Prefix) (over : bool) (inner : DnsMsg -> DnsErr + DnsMsg) (m : DnsMsg) : DnsErr + DnsMsg :=
  inner (setEdns0Subnet m p over).2.
(** The method of the interface; a rcode client answers with the request itself, changed.
    @go dns/resolver.go:22-26 dnsClient *)
Fixpoint client_Exchange (tick : nat) (c : DnsClient) (m : DnsMsg) : DnsErr + DnsMsg :=
  match c with
  | rawClient id _ => upstream tick id m
  | rcodeClient rcode _ => inr (rcode_answer rcode m)
  | clientWithDisableTypes c types => disable_Exchange types (client_Exchange tick c) m
  | clientWithEdns0Subnet c p over => edns0_Exchange p over (client_Exchange tick c) m
  end.

Definition isRcodeClient (c : DnsClient) : bool := match c with rcodeClient _ _ => true | _ => false end.
(** What one goroutine of [batchExchange] returns.
    @go dns/util.go:426-439 batchExchange *)
Definition ask (tick : nat) (m : DnsMsg) (c : DnsClient) : DnsErr + DnsMsg :=
  match client_Exchange tick c m with
  | inl e => inl e
  | inr r => if (dm_Rcode r =? RcodeServerFailure) || (dm_Rcode r =? RcodeRefused)
             then inl (errServerFailure (dns_RcodeToString (dm_Rcode r))) else inr r
  end.
(** The answer, and whether to cache it.
    @go dns/util.go:415-450 batchExchange *)
Definition batchExchange (tick : nat) (clients : list DnsClient) (m : DnsMsg) : (DnsErr + DnsMsg) * bool :=
  match List.find isRcodeClient clients with
  | Some c => (client_Exchange tick c m, false)
  | None =>
      let results := map (ask tick m) clients in
      let fast := pk_Wait (omap (fun i => results !! i) (arrival tick (length clients))) in
      (match pk_result fast with Some r => inr r | None => inl (errAllFailed (pk_err fast)) end, true)
  end.

(** ** Policies *)

(** A matcher that is no plain domain is known by what it matches.
    @go dns/policy.go:8-10 dnsPolicy *)
Inductive dnsPolicy :=
| domainTriePolicy (t : DomainTrie (list DnsClient))
| domainMatcherPolicy (matcher : string -> bool) (dnsClients : list DnsClient).
(** @go dns/policy.go:16-22 domainTriePolicy.Match *)
Definition triePolicy_Match (t : DomainTrie (list DnsClient)) (domain : string) : list DnsClient :=
  match Search domain t with Some n => default [] (data n) | None => [] end.
(** @go dns/policy.go:29-34 domainMatcherPolicy.Match *)
Definition matcherPolicy_Match (matcher : string -> bool) (dnsClients : list DnsClient) (domain : string) : list DnsClient :=
  if matcher domain then dnsClients else [].
(** The method of the interface.
    @go dns/policy.go:8-10 dnsPolicy *)
Definition policy_Match (p : dnsPolicy) (domain : string) : list DnsClient :=
  match p with
  | domainTriePolicy t => triePolicy_Match t domain
  | domainMatcherPolicy f cs => matcherPolicy_Match f cs domain
  end.

(** ** The resolver *)

(** The part that does not change after [NewResolver]; the lists are nil when empty.
    @go dns/resolver.go:39-51 Resolver *)
Record Resolver := mkResolver {
  r_ipv6 : bool; r_ipv6Timeout : Z;
  r_main : list DnsClient; r_fallback : list DnsClient;
  fallbackDomainFilters : list (string -> bool); fallbackIPFilters : list (Addr -> bool);
  fallbackLazyQuery : bool;
  r_policy : list dnsPolicy;
  defaultResolver : option (list DnsClient)
}.

(** @go dns/resolver.go:261-277 Resolver.matchPolicy *)
Definition matchPolicy (r : Resolver) (m : DnsMsg) : list DnsClient :=
  let domain := dns_msgToDomain m in
  if String.eqb domain "" then []
  else default [] (List.find (fun cs => negb (bool_decide (length cs = 0%nat))) (map (fun p => policy_Match p domain) (r_policy r))).

(** @go dns/resolver.go:279-297 Resolver.shouldOnlyQueryFallback *)
Definition shouldOnlyQueryFallback (r : Resolver) (m : DnsMsg) : bool :=
  match r_fallback r, fallbackDomainFilters r with
  | [], _ | _, [] => false
  | _, fs =>
      let domain := dns_msgToDomain m in
      if String.eqb domain "" then false else existsb (fun f => f domain) fs
  end.

(** @go dns/resolver.go:120-127 Resolver.shouldIPFallback *)
Definition shouldIPFallback (r : Resolver) (ip : Addr) : bool := existsb (fun f => f ip) (fallbackIPFilters r).

(** The exchanges started so far, as lists of the clients asked; their number is the
    number of the next one. *)
Definition asked := list (list DnsClient).
(** [r.asyncExchange] and the wait for its result.
    @go dns/resolver.go:376-383 Resolver.asyncExchange *)
Definition asyncExchange (l : asked) (cs : list DnsClient) (m : DnsMsg) : (DnsErr + DnsMsg) * asked :=
  ((batchExchange (length l) cs m).1, l ++ [cs]).

(** @go dns/resolver.go:326-336 Resolver.ipExchange *)
Definition main_is_good (r : Resolver) (res : DnsErr + DnsMsg) : bool :=
  match res with
  | inr m => match msgToIP m with [] => false | ips => forallb (fun ip => negb (shouldIPFallback r ip)) ips end
  | inl _ => false
  end.
(** @go dns/resolver.go:299-343 Resolver.ipExchange *)
Definition ipExchange (r : Resolver) (l : asked) (m : DnsMsg) : (DnsErr + DnsMsg) * asked :=
  match matchPolicy r m with
  | (_ :: _) as matched => asyncExchange l matched m
  | [] =>
      if shouldOnlyQueryFallback r m then asyncExchange l (r_fallback r) m
      else
        let '(res, l) := asyncExchange l (r_main r) m in
        match r_fallback r with
        | [] => (res, l)
        | fb =>
            if fallbackLazyQuery r
            then if main_is_good r res then (res, l) else asyncExchange l fb m
            else let '(fres, l) := asyncExchange l fb m in (if main_is_good r res then res else fres, l)
        end
  end.

(** ** Exchanges with the cache *)

Context {C : Type} `{DnsCache C DnsMsg}.
(** The clock, in successive readings, in nanoseconds. *)
Context (clock : nat -> Z).

Record RState := mkRState { rs_cache : C; rs_asked : asked; rs_reads : nat }.
(** How a call runs: its context ends before the answer is there; other callers have
    joined it in the group of [singleflight]. *)
Record CallEnv := mkCallEnv { ctx_done : bool; shared : bool }.

(** The function given to the group.  On an error the number of the try comes with it.
    @go dns/resolver.go:191-222 Resolver.exchangeWithoutCache *)
Definition resolve_fn (r : Resolver) (q : DnsQuestion) (m : DnsMsg) (st : RState) : option ((DnsErr + DnsMsg) * RState) :=
  let '(res, cache, l) :=
    if dns_isIPRequest q then let '(res, l) := ipExchange r (rs_asked st) m in (res, true, l)
    else
      let cs := match matchPolicy r m with [] => r_main r | matched => matched end in
      let '(res, cache) := batchExchange (length (rs_asked st)) cs m in (res, cache, rs_asked st ++ [cs]) in
  match res with
  | inl e => Some (inl e, mkRState (rs_cache st) l (rs_reads st))
  | inr result =>
      if cache : bool then
        c ← putMsgToCache (clock (rs_reads st)) (rs_cache st) q result;
        Some (inr result, mkRState c l (S (rs_reads st)))
      else Some (inr result, mkRState (rs_cache st) l (rs_reads st))
  end.

(** @go dns/resolver.go:190-190 retryMax *)
Definition retryMax : Z := 3.
(** The result of the first run decides on a retry; of the retry nothing is awaited but
    what it puts into the cache.
    @go dns/resolver.go:186-259 Resolver.exchangeWithoutCache *)
Definition exchangeWithoutCache (r : Resolver) (env : CallEnv) (m : DnsMsg) (st : RState) : option ((DnsErr + DnsMsg) * RState) :=
  q ← head (dm_Question m);
  let retryNum := 0 in
  '(res, st) ← resolve_fn r q m st;
  st ← match res with
       | inl _ => if negb (shared env) && (retryNum <? retryMax) then snd <$> resolve_fn r q m st else Some st
       | inr _ => Some st
       end;
  Some (if ctx_done env then inl errContext else res, st).

(** [errors.Is(err, context.DeadlineExceeded) || errors.Is(err, context.Canceled)]: a
    failure of all servers wraps the first error. *)
Fixpoint is_ctx_err (e : DnsErr) : bool :=
  match e with errContext => true | errAllFailed (Some e) => is_ctx_err e | _ => false end.

(** The deferred function fetches in the background, with a context of its own.
    @go dns/resolver.go:156-165 Resolver.ExchangeContext *)
Definition background (r : Resolver) (again : bool) (m : DnsMsg) (st : RState) : option RState :=
  if again then snd <$> exchangeWithoutCache r (mkCallEnv false false) m st else Some st.

(** The seconds left to an answer that expires at second [x].
    @go dns/resolver.go:172-179 Resolver.ExchangeContext *)
Definition seconds_left (now x : Z) : Z := uint32_of_f64 (duration_Seconds (x * Second - now)).

(** @go dns/resolver.go:152-183 Resolver.ExchangeContext *)
Definition ExchangeContext (r : Resolver) (env : CallEnv) (m : DnsMsg) (st : RState) : option ((DnsErr + DnsMsg) * RState) :=
  match dm_Question m with
  | [] => Some (inl errNoQuestion, st)
  | q :: _ =>
      '(hit, c) ← getMsgFromCache (fun n => clock (rs_reads st + n)%nat) (rs_cache st) q;
      match hit with
      | Some (msg, expire) =>
          let now := clock (rs_reads st) in
          if expire * Second <? now then
            st ← background r true m (mkRState c (rs_asked st) (S (rs_reads st)));
            Some (inr (dns_setMsgTTL msg 1), st)
          else
            let later := clock (S (rs_reads st)) in
            Some (inr (updateMsgTTL msg (seconds_left later expire)), mkRState c (rs_asked st) (S (S (rs_reads st))))
      | None =>
          '(res, st) ← exchangeWithoutCache r env m (mkRState c (rs_asked st) (rs_reads st));
          st ← background r match res with inl e => is_ctx_err e | inr _ => false end m st;
          Some (res, st)
      end
  end.

(** ** Looking up addresses *)

(** @go dns/resolver.go:345-374 Resolver.lookupIP *)
Definition lookupIP (r : Resolver) (env : CallEnv) (host : string) (dnsType : Z) (st : RState) : option ((DnsErr + list Addr) * RState) :=
  match ParseAddr host with
  | Some ip =>
      let ip := addr_Unmap ip in
      Some (if (dnsType =? TypeAAAA_) && negb (addr_Is4 ip) then inr [ip]
            else if (dnsType =? TypeA_) && addr_Is4 ip then inr [ip] else inl ErrIPVersion_, st)
  | None =>
      '(res, st) ← ExchangeContext r env (dns_SetQuestion emptyMsg (dns_Fqdn host) dnsType) st;
      Some (match res with
            | inl e => inl e
            | inr msg => match msgToIP msg with [] => inl ErrIPNotFound_ | ips => inr ips end
            end, st)
  end.

(** @go dns/resolver.go:111-113 Resolver.LookupIPv4 *)
Definition LookupIPv4 (r : Resolver) (env : CallEnv) (host : string) := lookupIP r env host TypeA_.
(** @go dns/resolver.go:116-118 Resolver.LookupIPv6 *)
Definition LookupIPv6 (r : Resolver) (env : CallEnv) (host : string) := lookupIP r env host TypeAAAA_.

(** The answer for A, and that for AAAA if it arrives before the timer (or at all, where
    there is no timer).
    @go dns/resolver.go:91-107 Resolver.LookupIP *)
Definition join_ips (r4 : DnsErr + list Addr) (r6 : option (DnsErr + list Addr)) : DnsErr + list Addr :=
  let ips := match r4 with inr ips => ips | inl _ => [] end in
  match r6 with
  | Some (inr ipv6s) => inr (ips ++ ipv6s)
  | Some (inl _) => match r4 with inl _ => inl ErrIPNotFound_ | inr _ => inr ips end
  | None => inr ips
  end.
(** @go dns/resolver.go:63-75 Resolver.LookupIPPrimaryIPv4 *)
Definition primary_ipv4 (r4 r6 : DnsErr + list Addr) : DnsErr + list Addr :=
  match r4 with
  | inr ips => inr ips
  | inl _ => match r6 with inr ips => inr ips | inl _ => inl ErrIPNotFound_ end
  end.
(** The two lookups run at the same time: here the one for AAAA first.  The timer runs
    for [ipv6Timeout], or for 100 ms; [in_time] says whether the AAAA lookup beat it.
    @go dns/resolver.go:77-107 Resolver.LookupIP *)
Definition LookupIP_ (r : Resolver) (env : CallEnv) (in_time : bool) (host : string) (st : RState) : option ((DnsErr + list Addr) * RState) :=
  '(r6, st) ← lookupIP r env host TypeAAAA_ st;
  '(r4, st) ← lookupIP r env host TypeA_ st;
  Some (join_ips r4 (if in_time then Some r6 else None), st).
(** @go dns/resolver.go:53-75 Resolver.LookupIPPrimaryIPv4 *)
Definition LookupIPPrimaryIPv4 (r : Resolver) (env : CallEnv) (host : string) (st : RState) : option ((DnsErr + list Addr) * RState) :=
  '(r6, st) ← lookupIP r env host TypeAAAA_ st;
  '(r4, st) ← lookupIP r env host TypeA_ st;
  Some (primary_ipv4 r4 r6, st).

Fixpoint find_ech (l : list SvcParam) : option (list Z) :=
  match l with [] => None | SVCBECHConfig e :: _ => Some e | _ :: l => find_ech l end.
(** @go dns/resolver.go:129-149 Resolver.ResolveECH *)
Definition ResolveECH (r : Resolver) (env : CallEnv) (host : string) (st : RState) : option ((DnsErr + list Z) * RState) :=
  '(res, st) ← ExchangeContext r env (dns_SetQuestion emptyMsg (dns_Fqdn host) TypeHTTPS_) st;
  Some (match res with
        | inl e => inl e
        | inr msg =>
            match head (omap (fun rr => match rr_Data rr with RD_HTTPS v => find_ech v | _ => None end) (dm_Answer msg)) with
            | Some e => inr e
            | None => inl errNoECH
            end
        end, st).

(** The name is the code's; the answer is whether the resolver can be used.
    @go dns/resolver.go:386-391 Resolver.Invalid *)
Definition Invalid (r : option Resolver) : bool :=
  match r with None => false | Some r => (0 <? length (r_main r))%nat end.
(** @go dns/resolver.go:393-397 Resolver.ClearCache *)
Definition ClearCache (st : RState) : RState := mkRState (dc_Clear (rs_cache st)) (rs_asked st) (rs_reads st).
(** The clients whose connections are reset, in order.
    @go dns/resolver.go:399-411 Resolver.ResetConnection *)
Definition ResetConnection (r : option Resolver) : list DnsClient :=
  match r with None => [] | Some r => r_main r ++ r_fallback r ++ default [] (defaultResolver r) end.
End Resolver.

(** * Making the resolvers

    Models [NewResolver] of [dns/resolver.go]: name servers become clients, servers that
    agree but for the wrappers share a transport, policies become an ordered list of
    tries and matchers. *)


(** A policy without a matcher is for the plain domain.
    @go dns/resolver.go:465-469 Policy *)
Record Policy := mkPolicy { pol_Domain : string; pol_Matcher : option (string -> bool); pol_NameServers : list NameServer }.
(** @go dns/resolver.go:471-486 Config *)
Record DnsConfig := mkDnsConfig {
  cf_Main : list NameServer; cf_Fallback : list NameServer; cf_Default : list NameServer;
  cf_ProxyServer : list NameServer; cf_DirectServer : list NameServer; DirectFollowPolicy : bool;
  cf_IPv6 : bool; cf_IPv6Timeout : Z;
  FallbackIPFilter : list (Addr -> bool); FallbackDomainFilter : list (string -> bool); FallbackLazyQuery : bool;
  cf_Policy : list Policy; ProxyServerPolicy : list Policy;
  cf_CacheAlgorithm : string; cf_CacheMaxSize : Z
}.

(** A resolver and its cache.
    @go dns/resolver.go:500-504 Resolvers *)
Record Resolvers := mkResolvers {
  rs_Resolver : Resolver * AnswerCache DnsMsg;
  ProxyResolver : option (Resolver * AnswerCache DnsMsg);
  DirectResolver : option (Resolver * AnswerCache DnsMsg)
}.

Section New.
Context `{DnsLib}.

(** The servers seen so far with their clients, and the first unused number. *)
Record Clients := mkClients { nameServerCache : list (NameServer * DnsClient); next_id : nat }.

(** The inner loop: the client of an equal server, or else a client whose transport can
    be used, if there is one.
    @go dns/resolver.go:541-549 NewResolver *)
Fixpoint find_server (ns : NameServer) (dc : option DnsClient) (l : list (NameServer * DnsClient)) : DnsClient + option DnsClient :=
  match l with
  | [] => inr dc
  | (s, c) :: l =>
      if ns_Equal s ns then inl c
      else find_server ns (match dc with None => if transportEqual s ns then Some c else None | Some _ => dc end) l
  end.

(** @go dns/resolver.go:540-563 NewResolver *)
Definition client_for (ns : NameServer) (st : Clients) : option (DnsClient * Clients) :=
  match find_server ns None (nameServerCache st) with
  | inl c => Some (c, st)
  | inr dc =>
      '(dc, next) ← match dc with
                    | Some dc => Some (rewrapClient dc (ns_Params ns), next_id st)
                    | None => transform1 ns (next_id st)
                    end;
      Some (dc, mkClients (nameServerCache st ++ [(ns, dc)]) next)
  end.
(** @go dns/resolver.go:537-566 NewResolver *)
Fixpoint cacheTransform (nameserver : list NameServer) (st : Clients) : option (list DnsClient * Clients) :=
  match nameserver with
  | [] => Some ([], st)
  | ns :: rest => '(c, st) ← client_for ns st; '(cs, st) ← cacheTransform rest st; Some (c :: cs, st)
  end.

(** The policies so far and the trie being filled; a trie is finished when a matcher
    follows it.
    @go dns/resolver.go:570-579 NewResolver *)
Definition insertPolicy (p : option dnsPolicy) (ps : list dnsPolicy) (trie : option (DomainTrie (list DnsClient))) : list dnsPolicy :=
  ps ++ match trie with Some t => [domainTriePolicy (Optimize t)] | None => [] end ++ match p with Some p => [p] | None => [] end.
(** @go dns/resolver.go:581-595 NewResolver *)
Fixpoint makePolicy_loop (policies : list Policy) (ps : list dnsPolicy) (trie : option (DomainTrie (list DnsClient))) (st : Clients) :
    option (list dnsPolicy * Clients) :=
  match policies with
  | [] => Some (insertPolicy None ps trie, st)
  | p :: policies =>
      '(cs, st) ← cacheTransform (pol_NameServers p) st;
      match pol_Matcher p with
      | Some f => makePolicy_loop policies (insertPolicy (Some (domainMatcherPolicy f cs)) ps trie) None st
      | None =>
          let t := default trie_New trie in
          makePolicy_loop policies ps (Some match Insert (pol_Domain p) cs t with inr t => t | inl _ => t end) st
      end
  end.
(** @go dns/resolver.go:568-595 NewResolver *)
Definition makePolicy (policies : list Policy) (st : Clients) : option (list dnsPolicy * Clients) := makePolicy_loop policies [] None st.

Definition Millisecond : Z := 10 ^ 6.
(** A resolver without fallback servers. *)
Definition plain_resolver (cfg : DnsConfig) (main : list DnsClient) (policy : list dnsPolicy) (dr : option (list DnsClient)) : Resolver :=
  mkResolver (cf_IPv6 cfg) (cf_IPv6Timeout cfg * Millisecond) main [] [] [] false policy dr.

(** @go dns/resolver.go:526-637 NewResolver *)
Definition NewResolver (cfg : DnsConfig) : option Resolvers :=
  let cache := newCache DnsMsg (cf_CacheAlgorithm cfg) (cf_CacheMaxSize cfg) in
  '(dmain, next) ← transform (cf_Default cfg) 0;
  '(main, st) ← cacheTransform (cf_Main cfg) (mkClients [] next);
  '(policy, st) ← makePolicy (cf_Policy cfg) st;
  '(proxy, st) ← match cf_ProxyServer cfg with
                 | [] => Some (None, st)
                 | servers =>
                     '(pmain, st) ← cacheTransform servers st;
                     '(ppolicy, st) ← makePolicy (ProxyServerPolicy cfg) st;
                     Some (Some (plain_resolver cfg pmain ppolicy None, cache), st)
                 end;
  '(direct, st) ← match cf_DirectServer cfg with
                  | [] => Some (None, st)
                  | servers =>
                      '(dmain, st) ← cacheTransform servers st;
                      Some (Some (plain_resolver cfg dmain (if DirectFollowPolicy cfg then policy else []) None, cache), st)
                  end;
  match cf_Fallback cfg with
  | [] => Some (mkResolvers (plain_resolver cfg main policy (Some dmain), cache) proxy direct)
  | servers =>
      '(fb, st) ← cacheTransform servers st;
      Some (mkResolvers (mkResolver (cf_IPv6 cfg) (cf_IPv6Timeout cfg * Millisecond) main fb (FallbackDomainFilter cfg) (FallbackIPFilter cfg)
                           (FallbackLazyQuery cfg) policy (Some dmain), cache) proxy direct)
  end.

(** @go dns/resolver.go:518-524 NewResolverFromClient *)
Definition NewResolverFromClient (c : DnsClient) : Resolver * AnswerCache DnsMsg :=
  (mkResolver true 0 [c] [] [] [] false [] None, newCache DnsMsg "" 0).
End New.
