(* ===== verification/DnsLookup.v ===== *)
(** * Looking up a host

    Models [component/resolver/resolver.go]: hosts first, then literal addresses, then a
    resolver, the system's when there is no usable_resolver one; and [component/resolver/ip4p.go]
    and [component/resolver/service.go].  A resolver is seen through what it answers
    ([ResolverView]); the static hosts are those of [Hosts.v]. *)

From S2P Require Import Prelude Names Netip DomainTrie Hosts DnsMsg DnsResolver.
#[local] Open Scope string_scope.
#[local] Open Scope list_scope.
#[local] Open Scope Z_scope.

(** The interface [Resolver] as its callers see it.
    @go component/resolver/resolver.go:47-56 Resolver *)
Record ResolverView := mkResolverView {
  v_LookupIP : string -> DnsErr + list Addr;
  v_LookupIPv4 : string -> DnsErr + list Addr;
  v_LookupIPv6 : string -> DnsErr + list Addr;
  v_ResolveECH : string -> DnsErr + list Z;
  v_Invalid : bool
}.
(** [r != nil && r.Invalid()]. *)
Definition usable_resolver (r : option ResolverView) : option ResolverView :=
  match r with Some r => if v_Invalid r then Some r else None | None => None end.

Section Lookup.
(** [DefaultHosts.Search(host, false)]: the addresses of the entry found. *)
Context (host_IPs : string -> option (list Addr)).
Context (SystemResolver : ResolverView) (DisableIPv6 : bool).
(** [randv2.IntN]. *)
Context (IntN : nat -> nat).

(** The addresses of one family of an entry, if it has any. *)
Definition host_family (p : Addr -> bool) (host : string) : option (list Addr) :=
  match host_IPs host with
  | Some ips => match List.filter p ips with [] => None | addrs => Some addrs end
  | None => None
  end.

(** @go component/resolver/resolver.go:59-82 LookupIPv4WithResolver *)
Definition LookupIPv4WithResolver (host : string) (r : option ResolverView) : DnsErr + list Addr :=
  match host_family addr_Is4 host with
  | Some addrs => inr addrs
  | None =>
      match ParseAddr host with
      | Some ip => let ip := addr_Unmap ip in if addr_Is4 ip then inr [ip] else inl ErrIPVersion_
      | None => match usable_resolver r with Some r => v_LookupIPv4 r host | None => v_LookupIPv4 SystemResolver host end
      end
  end.
(** @go component/resolver/resolver.go:106-132 LookupIPv6WithResolver *)
Definition LookupIPv6WithResolver (host : string) (r : option ResolverView) : DnsErr + list Addr :=
  if DisableIPv6 then inl ErrIPv6Disabled_
  else match host_family addr_Is6 host with
  | Some addrs => inr addrs
  | None =>
      match ParseAddr host with
      | Some ip => let ip := addr_Unmap ip in if addr_Is6 ip then inr [ip] else inl ErrIPVersion_
      | None => match usable_resolver r with Some r => v_LookupIPv6 r host | None => v_LookupIPv6 SystemResolver host end
      end
  end.
(** @go component/resolver/resolver.go:155-175 LookupIPWithResolver *)
Definition LookupIPWithResolver (host : string) (r : option ResolverView) : DnsErr + list Addr :=
  match host_IPs host with
  | Some ips => inr ips
  | None =>
      match usable_resolver r with
      | Some r => if DisableIPv6 then v_LookupIPv4 r host else v_LookupIP r host
      | None =>
          if DisableIPv6 then LookupIPv4WithResolver host r
          else match ParseAddr host with
               | Some ip => inr [addr_Unmap ip]
               | None => v_LookupIP SystemResolver host
               end
      end
  end.

(** A random choice; an empty list panics.
    @go component/resolver/resolver.go:97-97 ResolveIPv4WithResolver *)
Definition pick (ips : list Addr) : option Addr := match ips with [] => None | _ => ips !! IntN (length ips) end.

(** What the resolving functions share: an error stays, no address is an error. *)
Definition resolve_from (host : string) (found : DnsErr + list Addr) (choose : list Addr -> option Addr) : option (DnsErr + Addr) :=
  match found with
  | inl e => Some (inl e)
  | inr [] => Some (inl (errNotFound host))
  | inr ips => inr <$> choose ips
  end.
(** @go component/resolver/resolver.go:90-98 ResolveIPv4WithResolver *)
Definition ResolveIPv4WithResolver (host : string) (r : option ResolverView) : option (DnsErr + Addr) :=
  resolve_from host (LookupIPv4WithResolver host r) pick.
(** @go component/resolver/resolver.go:140-148 ResolveIPv6WithResolver *)
Definition ResolveIPv6WithResolver (host : string) (r : option ResolverView) : option (DnsErr + Addr) :=
  resolve_from host (LookupIPv6WithResolver host r) pick.

(** @go component/resolver/resolver.go:247-256 SortationAddr *)
Fixpoint SortationAddr (ips : list Addr) : list Addr * list Addr :=
  match ips with
  | [] => ([], [])
  | v :: ips => let '(ipv4s, ipv6s) := SortationAddr ips in
                if addr_Is4 (addr_Unmap v) then (v :: ipv4s, ipv6s) else (ipv4s, v :: ipv6s)
  end.
(** @go component/resolver/resolver.go:183-195 ResolveIPWithResolver *)
Definition ResolveIPWithResolver (host : string) (r : option ResolverView) : option (DnsErr + Addr) :=
  resolve_from host (LookupIPWithResolver host r)
    (fun ips => let '(ipv4s, ipv6s) := SortationAddr ips in match ipv4s with [] => pick ipv6s | _ => pick ipv4s end).
(** @go component/resolver/resolver.go:203-215 ResolveIPPrefer6WithResolver *)
Definition ResolveIPPrefer6WithResolver (host : string) (r : option ResolverView) : option (DnsErr + Addr) :=
  resolve_from host (LookupIPWithResolver host r)
    (fun ips => let '(ipv4s, ipv6s) := SortationAddr ips in match ipv6s with [] => pick ipv4s | _ => pick ipv6s end).
(** @go component/resolver/resolver.go:222-227 ResolveECHWithResolver *)
Definition ResolveECHWithResolver (host : string) (r : option ResolverView) : DnsErr + list Z :=
  match usable_resolver r with Some r => v_ResolveECH r host | None => v_ResolveECH SystemResolver host end.
End Lookup.

(** ** Addresses that carry a port *)

(** [None] panics: a slice of four bytes has no twelfth.
    @go component/resolver/ip4p.go:25-37 LookupIP4P *)
Definition LookupIP4P (ip4PEnable : bool) (addr : Addr) (port : string) : option (Addr * string) :=
  if ip4PEnable then
    let ip := addr_AsSlice addr in
    b0 ← ip !! 0%nat;
    if negb (b0 =? 32) then Some (addr, port) else
    b1 ← ip !! 1%nat;
    if negb (b1 =? 1) then Some (addr, port) else
    b2 ← ip !! 2%nat;
    if negb (b2 =? 0) then Some (addr, port) else
    b3 ← ip !! 3%nat;
    if negb (b3 =? 0) then Some (addr, port) else
    b12 ← ip !! 12%nat; b13 ← ip !! 13%nat; b14 ← ip !! 14%nat; b15 ← ip !! 15%nat;
    b10 ← ip !! 10%nat; b11 ← ip !! 11%nat;
    Some (mkAddr 32 (be_get [b12; b13; b14; b15]), FormatInt (Z.shiftl b10 8 + b11))
  else Some (addr, port).

(** ** Theorems *)

Section LookupProps.
Context (host_IPs : string -> option (list Addr)) (SystemResolver : ResolverView) (DisableIPv6 : bool).
Context (IntN : nat -> nat) (IntN_lt : forall n, (0 < n)%nat -> (IntN n < n)%nat).

Lemma SortationAddr_spec ips : SortationAddr ips =
  (List.filter (fun v => addr_Is4 (addr_Unmap v)) ips, List.filter (fun v => negb (addr_Is4 (addr_Unmap v))) ips).
Proof. induction ips as [|v ips IH]; [done|]. cbn. rewrite IH. by destruct (addr_Is4 (addr_Unmap v)). Qed.

Lemma pick_spec ips : ips <> [] -> exists ip, pick IntN ips = Some ip /\ ip ∈ ips.
Proof.
  intros Hne. unfold pick. destruct ips as [|x l]; [done|].
  destruct (lookup_lt_is_Some_2 (x :: l) (IntN (length (x :: l)))) as [ip E]; [apply IntN_lt; cbn; lia|].
  exists ip. split; [done|]. by apply list_elem_of_lookup_2 in E.
Qed.

(** Resolving a host never panics; it gives an address that was looked up, and one of the
    fourth version if there is one. *)
Lemma ResolveIPWithResolver_spec host r : exists res, ResolveIPWithResolver host_IPs SystemResolver DisableIPv6 IntN host r = Some res /\
  match LookupIPWithResolver host_IPs SystemResolver DisableIPv6 host r with
  | inl e => res = inl e
  | inr [] => res = inl (errNotFound host)
  | inr ips => exists ip, res = inr ip /\ ip ∈ ips /\ ((exists ip', ip' ∈ ips /\ addr_Is4 (addr_Unmap ip') = true) -> addr_Is4 (addr_Unmap ip) = true)
  end.
Proof.
  unfold ResolveIPWithResolver, resolve_from. destruct (LookupIPWithResolver _ _ _ host r) as [e|[|x l]]; [by eexists|by eexists|].
  rewrite SortationAddr_spec. set (ips := x :: l).
  assert (H4 : forall ip, ip ∈ List.filter (fun v => addr_Is4 (addr_Unmap v)) ips <-> ip ∈ ips /\ addr_Is4 (addr_Unmap ip) = true).
  { intros ip. by rewrite !list_elem_of_In, filter_In. }
  assert (H6 : forall ip, ip ∈ List.filter (fun v => negb (addr_Is4 (addr_Unmap v))) ips <-> ip ∈ ips /\ negb (addr_Is4 (addr_Unmap ip)) = true).
  { intros ip. by rewrite !list_elem_of_In, filter_In. }
  destruct (List.filter (fun v => addr_Is4 (addr_Unmap v)) ips) as [|y l4].
  - destruct (pick_spec (List.filter (fun v => negb (addr_Is4 (addr_Unmap v))) ips)) as (ip & -> & Hip).
    { assert (Hx : x ∈ List.filter (fun v => negb (addr_Is4 (addr_Unmap v))) ips); [|intros E; rewrite E in Hx; by apply elem_of_nil in Hx].
      apply H6. split; [by left|]. destruct (addr_Is4 (addr_Unmap x)) eqn:E; [|done].
      assert (Hn : x ∈ @nil Addr) by (apply H4; split; [by left|done]). by apply elem_of_nil in Hn. }
    eexists. split; [done|]. exists ip. split; [done|]. split; [by apply H6|]. intros (ip' & Hin & E).
    assert (Hn : ip' ∈ @nil Addr) by by apply H4. by apply elem_of_nil in Hn.
  - destruct (pick_spec (y :: l4)) as (ip & -> & Hip); [done|]. eexists. split; [done|]. exists ip. split; [done|].
    apply H4 in Hip as [? ?]. by split.
Qed.
End LookupProps.

(** With the conversion on, the address 32.1.0.0 crashes the lookup: its four bytes are
    those of the prefix that is looked for. *)
Example LookupIP4P_panics : LookupIP4P true (mkAddr 32 (32 * 2 ^ 24 + 1 * 2 ^ 16)) "80" = None.
Proof. by vm_compute. Qed.
Example LookupIP4P_converts :
  LookupIP4P true (mkAddr 128 (0x2001 * 2 ^ 112 + 0x1F90 * 2 ^ 32 + 0x01020304)) "80" = Some (mkAddr 32 0x01020304, "8080").
Proof. by vm_compute. Qed.
