(* ===== verification/DnsProps.v ===== *)
(** * The resolver: theorems

    The life of an answer in the cache; which server's answer is given; which clients
    share a transport. *)

From S2P Require Import Prelude Names Netip DomainTrie AnswerCache DnsMsg DnsResolver.
#[local] Open Scope string_scope.
#[local] Open Scope list_scope.
#[local] Open Scope Z_scope.

(** ** Times to live *)

Lemma MinBy_spec l : forall r, let m := MinBy r l in m ∈ r :: l /\ Forall (fun x => rr_Ttl m <= rr_Ttl x) (r :: l).
Proof.
  induction l as [|x l IH]; intros r; cbn; [split; [by left|by repeat constructor]|].
  destruct (rr_Ttl x <? rr_Ttl r) eqn:E; [apply Z.ltb_lt in E; destruct (IH x) as [I1 I2]|apply Z.ltb_ge in E; destruct (IH r) as [I1 I2]];
    cbn in *; inversion I2 as [|? ? J1 J2]; subst; (split; [set_solver|]); repeat constructor; try done; lia.
Qed.
Lemma minimalTTL_le l r : r ∈ l -> minimalTTL l <= rr_Ttl r.
Proof.
  destruct l as [|x l]; [by intros ?%elem_of_nil|]. intros Hr. destruct (MinBy_spec l x) as [_ Hf].
  rewrite Forall_forall in Hf. by apply Hf.
Qed.
Lemma minimalTTL_in l : l <> [] -> exists r, r ∈ l /\ rr_Ttl r = minimalTTL l.
Proof. destruct l as [|x l]; [done|]. intros _. exists (MinBy x l). split; [apply MinBy_spec|done]. Qed.

(** A record's time to live as a resolver of RFC 2181 may send it, and not zero. *)
Definition ttl_ok (r : DnsRR) : Prop := 1 <= rr_Ttl r < 2 ^ 31.

Section Ttl.
Context `{DnsLibLaws}.

(** What a record is left with when [ttl] seconds remain of a section whose least is
    [least]. *)
Definition aged (least ttl : Z) (r : DnsRR) : DnsRR := set_Ttl (Z.max 1 (Z.min (rr_Ttl r) (rr_Ttl r - (least - ttl)))) r.

Lemma updateTTL_spec l ttl : Forall ttl_ok l -> 0 <= ttl < 2 ^ 31 -> updateTTL l ttl = map (aged (minimalTTL l) ttl) l.
Proof.
  intros Hl Ht. unfold updateTTL. destruct l as [|x l0] eqn:El; [done|]. rewrite <- El in *. apply map_ext_in. intros r Hr%list_elem_of_In.
  assert (Hm : ttl_ok r) by (by rewrite Forall_forall in Hl; apply Hl). pose proof (minimalTTL_le l r Hr) as Hle.
  destruct (minimalTTL_in l) as (y & Hy & Ey); [by rewrite El|]. assert (Hy' : ttl_ok y) by (by rewrite Forall_forall in Hl; apply Hl).
  unfold ttl_ok in *. unfold aged. f_equal. rewrite lo_Clamp_law by lia. f_equal. rewrite Z.min_comm. 
  unfold u32. rewrite Zminus_mod_idemp_r, Z.mod_small by lia. done.
Qed.

Lemma aged_le least ttl r : 1 <= rr_Ttl r -> 1 <= rr_Ttl (aged least ttl r) <= rr_Ttl r.
Proof. cbn. lia. Qed.
End Ttl.

(** ** The first good answer *)

Definition good {T} (r : DnsErr + T) : option T := match r with inr x => Some x | inl _ => None end.
Definition bad {T} (r : DnsErr + T) : option DnsErr := match r with inl e => Some e | inr _ => None end.

Lemma pk_fold_spec {T} (l : list (DnsErr + T)) : forall p,
  pk_result (fold_left pk_done l p) = match pk_result p with Some x => Some x | None => head (omap good l) end /\
  pk_err (fold_left pk_done l p) = match pk_err p with Some x => Some x | None => head (omap bad l) end.
Proof.
  induction l as [|[e|x] l IH]; intros [o e' c]; cbn; [by destruct o, e'|..]; [destruct e'|destruct o]; by apply IH.
Qed.
Lemma pk_Wait_spec {T} (l : list (DnsErr + T)) : pk_result (pk_Wait l) = head (omap good l) /\ pk_err (pk_Wait l) = head (omap bad l).
Proof. unfold pk_Wait. apply (pk_fold_spec l newPicker). Qed.

Lemma omap_lookup_seq {A} (l : list A) : forall pre, omap (fun i => (pre ++ l) !! i) (seq (length pre) (length l)) = l.
Proof.
  induction l as [|x l IH]; intros pre; [done|]. cbn [length seq omap list_omap]. rewrite list_lookup_middle by done. f_equal.
  specialize (IH (pre ++ [x])). rewrite length_app, Nat.add_1_r in IH. by rewrite <- app_assoc in IH.
Qed.

Section Exchange.
Context `{DnsLib}.
Context (upstream : nat -> nat -> DnsMsg -> DnsErr + DnsMsg) (arrival : nat -> nat -> list nat).
(** Every request that was started finishes once. *)
Context (arrival_all : forall t n, arrival t n ≡ₚ seq 0 n).
#[local] Abbreviation ask' := (ask upstream).
#[local] Abbreviation batch := (batchExchange upstream arrival).

Lemma arrived_perm t (l : list (DnsErr + DnsMsg)) : omap (fun i => l !! i) (arrival t (length l)) ≡ₚ l.
Proof.
  rewrite arrival_all. assert (E : omap (fun i => l !! i) (seq 0 (length l)) = l); [|by rewrite E].
  apply (omap_lookup_seq l []).
Qed.

(** The answer of a server of the group, neither an error nor a refusal. *)
Definition served_by (t : nat) (m : DnsMsg) (cs : list DnsClient) (x : DnsMsg) : Prop :=
  exists c, c ∈ cs /\ client_Exchange upstream t c m = inr x /\ dm_Rcode x <> RcodeServerFailure /\ dm_Rcode x <> RcodeRefused.

Lemma ask_good t m c x : ask' t m c = inr x <->
  client_Exchange upstream t c m = inr x /\ dm_Rcode x <> RcodeServerFailure /\ dm_Rcode x <> RcodeRefused.
Proof.
  unfold ask. destruct (client_Exchange upstream t c m) as [e|y]; [split; [done|by intros [? _]]|].
  destruct (_ || _) eqn:E.
  - split; [done|]. intros ([= ->] & H1 & H2). apply orb_true_iff in E as [E%Z.eqb_eq|E%Z.eqb_eq]; contradiction.
  - apply orb_false_iff in E as [E1%Z.eqb_neq E2%Z.eqb_neq]. split; [intros [= ->]; auto|intros ([= ->] & _); done].
Qed.

Lemma batch_spec t cs m : Forall (fun c => isRcodeClient c = false) cs ->
  match (batch t cs m).1 with
  | inr x => served_by t m cs x
  | inl e => (forall x, ~ served_by t m cs x) /\ exists first, e = errAllFailed first /\ (first = None <-> cs = [])
  end.
Proof.
  intros Hr. unfold batchExchange. destruct (List.find isRcodeClient cs) as [c|] eqn:Ef.
  { apply find_some in Ef as [Hin Hc]. rewrite Forall_forall in Hr. apply list_elem_of_In, Hr in Hin. congruence. }
  cbn [fst]. set (res := map (ask' t m) cs). set (l := omap _ _). destruct (pk_Wait_spec l) as [-> ->].
  assert (Hp : l ≡ₚ res). { unfold l. rewrite <- (length_map (ask' t m) cs). apply arrived_perm. }
  assert (Hgood : forall x, x ∈ omap good l <-> served_by t m cs x).
  { intros x. rewrite Hp. rewrite list_elem_of_omap. unfold served_by. split.
    - intros (o & Ho & Eo). apply list_elem_of_In, in_map_iff in Ho as (c & <- & Hc). exists c. split; [by apply list_elem_of_In|].
      apply ask_good. by destruct (ask' t m c); [|injection Eo as ->].
    - intros (c & Hc & Ha). exists (inr x). split; [|done]. apply list_elem_of_In, in_map_iff. exists c. split; [by apply ask_good|by apply list_elem_of_In]. }
  destruct (omap good l) as [|x g] eqn:Eg; cbn; [|apply Hgood; by left].
  split; [intros x Hx; apply Hgood in Hx; by apply elem_of_nil in Hx|]. eexists. split; [done|].
  assert (Hl : l = [] <-> cs = []).
  { split; intros E; [rewrite E in Hp; apply Permutation_nil_l in Hp|apply Permutation_nil_r; rewrite Hp; unfold res; by rewrite E].
    unfold res in Hp. symmetry in Hp. by apply map_eq_nil in Hp. }
  rewrite <- Hl. clear -Eg. destruct l as [|[e|x] l]; cbn in *; [done|done|done].
Qed.

(** ** Main servers and fallback servers *)

(** The answer of a group asked after [l]. *)
Definition group_answer (l : asked) (cs : list DnsClient) (m : DnsMsg) : DnsErr + DnsMsg := (batch (length l) cs m).1.
(** An answer with an address, none of them rejected by a filter. *)
Definition trusted (r : Resolver) (res : DnsErr + DnsMsg) (x : DnsMsg) : Prop :=
  res = inr x /\ msgToIP x <> [] /\ forall ip f, ip ∈ msgToIP x -> f ∈ fallbackIPFilters r -> f ip = false.

Lemma main_is_good_spec r res : main_is_good r res = true <-> exists x, trusted r res x.
Proof.
  unfold main_is_good, trusted. destruct res as [e|x]; [split; [done|by intros (? & ? & _)]|]. split.
  - intros Hg. exists x. destruct (msgToIP x) as [|ip0 ips]; [done|]. split; [done|]. split; [done|]. intros ip f Hip Hf.
    rewrite forallb_forall in Hg. specialize (Hg ip (proj1 (list_elem_of_In _ _) Hip)). apply negb_true_iff in Hg.
    destruct (f ip) eqn:E; [|done]. exfalso. unfold shouldIPFallback in Hg. rewrite <- not_true_iff_false in Hg. apply Hg, existsb_exists.
    exists f. split; [by apply list_elem_of_In|done].
  - intros (y & [= <-] & Hne & Hf). destruct (msgToIP x) as [|ip0 ips] eqn:E; [done|]. apply forallb_forall. intros ip Hip.
    apply negb_true_iff, not_true_iff_false. intros (f & Hin & Ef)%existsb_exists. rewrite (Hf ip f) in Ef; [done|by apply list_elem_of_In..].
Qed.

Lemma ipExchange_cases r l m :
  matchPolicy r m = [] -> shouldOnlyQueryFallback r m = false -> r_fallback r <> [] ->
  let main := group_answer l (r_main r) m in
  let fb := group_answer (l ++ [r_main r]) (r_fallback r) m in
  ipExchange upstream arrival r l m =
    (if main_is_good r main then main else fb,
     l ++ [r_main r] ++ (if fallbackLazyQuery r && main_is_good r main then [] else [r_fallback r])).
Proof.
  intros Hp Ho Hf. cbv zeta. unfold ipExchange, asyncExchange, group_answer. rewrite Hp, Ho.
  destruct (r_fallback r) as [|c fb]; [done|]. cbn [length]. destruct (fallbackLazyQuery r), (main_is_good r _); cbn; by rewrite <- ?app_assoc.
Qed.

(** where neither a policy nor a domain filter decides, and there are fallback
    servers: a trusted answer of the main servers is the answer; without one the answer is
    that of the fallback servers, even if it is an error; so no address that a filter
    rejects is ever taken from the main servers.  Asking the fallback servers only when
    they are needed changes which servers are asked and nothing else. *)
Lemma ipExchange_trusts_main r l m :
  matchPolicy r m = [] -> shouldOnlyQueryFallback r m = false -> r_fallback r <> [] ->
  let main := group_answer l (r_main r) m in
  let '(res, l') := ipExchange upstream arrival r l m in
  (forall x, trusted r main x -> res = inr x) /\
  ((forall x, ~ trusted r main x) -> res = group_answer (l ++ [r_main r]) (r_fallback r) m) /\
  (l' = l ++ [r_main r] <-> fallbackLazyQuery r = true /\ exists x, trusted r main x) /\
  (l' = l ++ [r_main r; r_fallback r] <-> fallbackLazyQuery r = false \/ forall x, ~ trusted r main x).
Proof.
  intros Hp Ho Hf. cbv zeta. rewrite ipExchange_cases by done. pose proof (main_is_good_spec r (group_answer l (r_main r) m)) as Hg.
  destruct (main_is_good r (group_answer l (r_main r) m)); rewrite ?andb_true_r, ?andb_false_r.
  - assert (Ht : exists x, trusted r (group_answer l (r_main r) m) x) by by apply Hg.
    split; [by intros x [-> _]|]. split; [intros Hn; destruct Ht as [x Ht]; by destruct (Hn x)|].
    destruct (fallbackLazyQuery r); cbn; split; split; auto.
    + intros E. apply app_inv_head in E. done. + intros [?|Hn]; [done|]. destruct Ht as [x Ht]. by destruct (Hn x).
    + intros E. apply app_inv_head in E. done. + by intros [? _].
  - assert (Ht : forall x, ~ trusted r (group_answer l (r_main r) m) x) by (intros x Hx; assert (false = true) by (apply Hg; eauto); done).
    split; [intros x Hx; by destruct (Ht x)|]. split; [done|]. cbn. split; split; auto.
    + intros E. apply app_inv_head in E. done. + intros [_ [x Hx]]. by destruct (Ht x).
Qed.
End Exchange.

(** ** The cache in front *)

Section Cached.
Context `{DnsLibLaws} {C : Type} `{DnsCacheLaws C DnsMsg}.
Context (upstream : nat -> nat -> DnsMsg -> DnsErr + DnsMsg) (arrival : nat -> nat -> list nat) (clock : nat -> Z).
#[local] Abbreviation exchange := (ExchangeContext upstream arrival clock).
#[local] Abbreviation fetch := (exchangeWithoutCache upstream arrival clock).
#[local] Abbreviation run := (resolve_fn upstream arrival clock).
Implicit Types (st : RState (C := C)) (r : Resolver) (q : DnsQuestion) (m : DnsMsg) (c : C).

Definition acme q : bool := (dq_Qtype q =? TypeTXT_) && HasPrefix (dq_Name q) "_acme-challenge.".
(** What the cache holds of an answer stored at [now], if anything. *)
Definition storable q m : bool := negb (acme q) && negb (cacheTTL (no_opt m) =? 0).
Definition stored (now : Z) m : DnsMsg * Z := (no_opt m, (now + cacheTTL (no_opt m) * Second) / Second).

(** Other keys show at most what they showed. *)
Definition only_key (k : string) c c' : Prop := forall k' y, k' <> k -> dc_view c' k' = Some y -> dc_view c k' = Some y.
Lemma only_key_refl k c : only_key k c c.
Proof. by intros ? ?. Qed.
Lemma only_key_trans k a b c : only_key k a b -> only_key k b c -> only_key k a c.
Proof. intros A B k' y Hne Hy. by apply A, B. Qed.

Lemma put_ok now c q m : dc_ok c -> exists c', putMsgToCache now c q m = Some c' /\ dc_ok c' /\ only_key (question_String q) c c' /\
  dc_view c' (question_String q) = (if storable q m then Some (stored now m) else dc_view c (question_String q)).
Proof.
  intros Hc. unfold putMsgToCache, storable, acme, stored. destruct (_ && _); cbn [negb andb].
  { exists c. split_and!; [done|done|apply only_key_refl|done]. }
  destruct (cacheTTL (no_opt m) =? 0) eqn:E; cbn [negb andb].
  { exists c. split_and!; [done|done|apply only_key_refl|done]. }
  destruct (dc_set_ok (now / Second) (question_String q) (no_opt m) ((now + cacheTTL (no_opt m) * Second) / Second) c Hc) as (c' & E' & Hok & Hv & Hf).
  by exists c'.
Qed.

(** A run of the function given to the group. *)
Lemma run_ok r q m st : dc_ok (rs_cache st) -> exists res st', run r q m st = Some (res, st') /\ dc_ok (rs_cache st') /\
  only_key (question_String q) (rs_cache st) (rs_cache st') /\
  (dc_view (rs_cache st') (question_String q) = dc_view (rs_cache st) (question_String q) \/
   exists x n, res = inr x /\ dc_view (rs_cache st') (question_String q) = Some (stored (clock n) x)).
Proof.
  intros Hc. unfold resolve_fn. destruct (if dns_isIPRequest q then _ else _) as [[[e|x] cache] l].
  - eexists _, _. split; [done|]. split; [done|]. split; [apply only_key_refl|by left].
  - destruct cache; [|eexists _, _; split; [done|]; split; [done|]; split; [apply only_key_refl|by left]].
    destruct (put_ok (clock (rs_reads st)) (rs_cache st) q x Hc) as (c' & -> & Hok & Hf & Hv). cbn.
    eexists _, _. split; [done|]. split; [done|]. split; [done|]. cbn. destruct (storable q x); [right; eauto|by left].
Qed.

(** What may become of the entry of a question: it is kept, lost, or an answer to this
    question was stored. *)
Definition entry_from (answers : DnsMsg -> Prop) (k : string) c c' : Prop :=
  forall y, dc_view c' k = Some y -> dc_view c k = Some y \/ exists x n, answers x /\ y = stored (clock n) x.

(** The answers of a run: those of the servers at some exchange. *)
Definition answer_of r q m (x : DnsMsg) : Prop :=
  exists l, (if dns_isIPRequest q then (ipExchange upstream arrival r l m).1
             else (batchExchange upstream arrival (length l) (match matchPolicy r m with [] => r_main r | cs => cs end) m).1) = inr x.
Lemma run_answer r q m st x st' : run r q m st = Some (inr x, st') -> answer_of r q m x.
Proof.
  unfold resolve_fn, answer_of. intros E. exists (rs_asked st). destruct (dns_isIPRequest q).
  - destruct (ipExchange upstream arrival r (rs_asked st) m) as [[e|y] l]; [by injection E|]. cbn.
    destruct (putMsgToCache _ _ _ _); [|done]. cbn in E. by injection E as -> _.
  - destruct (batchExchange upstream arrival (length (rs_asked st)) _ m) as [[e|y] b]; [by injection E|].
    destruct b; [destruct (putMsgToCache _ _ _ _); [|done]|]; cbn in E; by injection E as -> _.
Qed.
Lemma run_entry r q m st : dc_ok (rs_cache st) -> exists res st', run r q m st = Some (res, st') /\ dc_ok (rs_cache st') /\
  only_key (question_String q) (rs_cache st) (rs_cache st') /\ entry_from (answer_of r q m) (question_String q) (rs_cache st) (rs_cache st') /\
  forall x, res = inr x -> answer_of r q m x.
Proof.
  intros Hc. destruct (run_ok r q m st Hc) as (res & st' & E & Hok & Hk & Hv). exists res, st'. split_and!; [done..| |].
  - intros y Hy. destruct Hv as [Hv|(x & n & -> & Hv)]; [left; by rewrite <- Hv|]. right. exists x, n. split; [by eapply run_answer|congruence].
  - intros x ->. by eapply run_answer.
Qed.
Lemma entry_trans P k a b c : only_key k a b -> entry_from P k a b -> entry_from P k b c -> entry_from P k a c.
Proof. intros _ A B y Hy. destruct (B y Hy) as [Hb|?]; [by apply A|by right]. Qed.

Lemma fetch_ok r env q rest m st : dc_ok (rs_cache st) -> dm_Question m = q :: rest ->
  exists res st', fetch r env m st = Some (res, st') /\ dc_ok (rs_cache st') /\
    only_key (question_String q) (rs_cache st) (rs_cache st') /\ entry_from (answer_of r q m) (question_String q) (rs_cache st) (rs_cache st') /\
    forall x, res = inr x -> answer_of r q m x.
Proof.
  intros Hc Hq. unfold exchangeWithoutCache. rewrite Hq. cbn [head mbind option_bind].
  destruct (run_entry r q m st Hc) as (res & st1 & -> & Hc1 & Hk1 & He1 & Ha1).
  assert (Hfin : forall s, dc_ok (rs_cache s) -> only_key (question_String q) (rs_cache st) (rs_cache s) ->
    entry_from (answer_of r q m) (question_String q) (rs_cache st) (rs_cache s) ->
    exists res' st', Some ((if ctx_done env then inl errContext else res, s) : (DnsErr + DnsMsg) * RState) = Some (res', st') /\ dc_ok (rs_cache st') /\
    only_key (question_String q) (rs_cache st) (rs_cache st') /\ entry_from (answer_of r q m) (question_String q) (rs_cache st) (rs_cache st') /\
    forall x, res' = inr x -> answer_of r q m x).
  { intros s S1 S2 S3. eexists _, s. split; [done|]. split_and!; [done..|]. intros x. destruct (ctx_done env); [done|]. apply Ha1. }
  destruct res as [e|x]; cbn; [|by apply Hfin]. destruct (negb (shared env)); cbn; [|by apply Hfin].
  destruct (run_entry r q m st1 Hc1) as (res2 & st2 & -> & Hc2 & Hk2 & He2 & _). cbn. apply Hfin; [done|by eapply only_key_trans|by eapply entry_trans].
Qed.

Lemma background_ok r again q rest m st : dc_ok (rs_cache st) -> dm_Question m = q :: rest ->
  exists st', background upstream arrival clock r again m st = Some st' /\ dc_ok (rs_cache st') /\
    only_key (question_String q) (rs_cache st) (rs_cache st') /\ entry_from (answer_of r q m) (question_String q) (rs_cache st) (rs_cache st').
Proof.
  intros Hc Hq. unfold background. destruct again; [|exists st; split_and!; [done..|apply only_key_refl|by left]].
  destruct (fetch_ok r (mkCallEnv false false) q rest m st Hc Hq) as (res & st' & -> & ? & ? & ? & _). by exists st'.
Qed.

(** C12: a query with a question always gets a result, an answer or an error, with any
    cache that keeps its promises.  An answer is one that servers gave to this query, or
    one the cache showed for its question with the times to live rewritten.  Afterwards
    the cache shows no more of other questions than before, and of this question what it
    showed, nothing, or an answer servers gave to it. *)
Theorem exchange_sound r env q rest m st : dc_ok (rs_cache st) -> dm_Question m = q :: rest ->
  exists res st', exchange r env m st = Some (res, st') /\ dc_ok (rs_cache st') /\
    only_key (question_String q) (rs_cache st) (rs_cache st') /\
    entry_from (answer_of r q m) (question_String q) (rs_cache st) (rs_cache st') /\
    forall x, res = inr x -> answer_of r q m x \/
      exists y expire, dc_view (rs_cache st) (question_String q) = Some (y, expire) /\
        (x = dns_setMsgTTL y 1 \/ exists n, x = updateMsgTTL y (seconds_left (clock n) expire)).
Proof.
  intros Hc Hq. unfold ExchangeContext. rewrite Hq. unfold getMsgFromCache.
  destruct (dc_get_ok (fun n => clock (rs_reads st + n)%nat / Second) (question_String q) (rs_cache st) Hc) as (c & -> & Hc1 & Hf & Hv).
  cbn [mbind option_bind]. assert (Hk1 : only_key (question_String q) (rs_cache st) c) by (intros k' y _; apply Hf).
  assert (He1 : entry_from (answer_of r q m) (question_String q) (rs_cache st) c) by (intros y Hy; left; by apply Hf).
  destruct (dc_view (rs_cache st) (question_String q)) as [[y x]|] eqn:Ey.
  - destruct (x * Second <? clock (rs_reads st)).
    + destruct (background_ok r true q rest m (mkRState c (rs_asked st) (S (rs_reads st))) Hc1 Hq) as (st' & -> & Hc2 & Hk2 & He2).
      cbn [mbind option_bind]. eexists _, _. split; [done|]. split_and!; [done|by eapply only_key_trans|by eapply entry_trans|].
      intros z [= <-]. right. exists y, x. auto.
    + eexists _, _. split; [done|]. split_and!; [done..|]. intros z [= <-]. right. exists y, x. split; [done|]. right. by eexists.
  - destruct (fetch_ok r env q rest m (mkRState c (rs_asked st) (rs_reads st)) Hc1 Hq) as (res & st1 & -> & Hc2 & Hk2 & He2 & Ha).
    cbn [mbind option_bind]. destruct (background_ok r match res with inl e => is_ctx_err e | inr _ => false end q rest m st1 Hc2 Hq) as (st' & -> & Hc3 & Hk3 & He3).
    cbn [mbind option_bind]. assert (Hk12 := only_key_trans _ _ _ _ Hk1 Hk2).
    assert (He12 := entry_trans _ _ _ _ _ Hk1 He1 He2).
    eexists _, _. split; [done|]. split_and!; [done|by eapply only_key_trans|by eapply entry_trans|]. intros x Hx. left. by apply Ha.
Qed.

(** A section of an answer after [ttl] seconds are all that is left to it. *)
Definition aged_section (l : list DnsRR) (ttl : Z) : list DnsRR := map (aged (minimalTTL l) ttl) l.

(** C13: an answer that was stored comes back.  Put an answer with usual times to live into
    the cache (no challenge of ACME, a least time to live that is not zero) and ask the
    same question before it expires: without asking a server the answer comes back, same
    code and question, OPT records left out, every record with the time to live it has
    left, which is at least 1 and never more than the servers gave it. *)
Theorem answer_roundtrip r env q rest m ans c n :
  dc_ok c -> dm_Question m = q :: rest -> storable q ans = true ->
  Forall ttl_ok (dm_Answer ans ++ dm_Ns ans ++ dm_Extra (no_opt ans)) ->
  exists c', putMsgToCache (clock n) c q ans = Some c' /\ forall st, rs_cache st = c' ->
    let expire := (stored (clock n) ans).2 in
    let left := seconds_left (clock (S (rs_reads st))) expire in
    clock (rs_reads st) <= expire * Second -> 0 <= left < 2 ^ 31 ->
    exists x st', exchange r env m st = Some (inr x, st') /\ rs_asked st' = rs_asked st /\
      dm_Rcode x = dm_Rcode ans /\ dm_Question x = dm_Question ans /\
      dm_Answer x = aged_section (dm_Answer ans) left /\ dm_Ns x = aged_section (dm_Ns ans) left /\
      dm_Extra x = aged_section (dm_Extra (no_opt ans)) left /\
      Forall2 (fun old new => 1 <= rr_Ttl new <= rr_Ttl old /\ rr_Data new = rr_Data old /\ rr_Name new = rr_Name old)
        (dm_Answer ans ++ dm_Ns ans ++ dm_Extra (no_opt ans)) (dm_Answer x ++ dm_Ns x ++ dm_Extra x).
Proof.
  intros Hc Hq Hst Httl. destruct (put_ok (clock n) c q ans Hc) as (c' & -> & Hc' & _ & Hv). rewrite Hst in Hv.
  exists c'. split; [done|]. intros st Hcs. cbv zeta. intros Hexp Hleft. unfold ExchangeContext. rewrite Hq. unfold getMsgFromCache. rewrite Hcs.
  destruct (dc_get_ok (fun n => clock (rs_reads st + n)%nat / Second) (question_String q) c' Hc') as (c2 & -> & _ & _ & _).
  rewrite Hv. unfold stored in *. cbn [mbind option_bind snd] in *.
  assert (E : ((clock n + cacheTTL (no_opt ans) * Second) / Second * Second <? clock (rs_reads st)) = false) by (apply Z.ltb_ge; lia).
  rewrite E. eexists _, _. split; [done|]. cbn [rs_asked]. unfold updateMsgTTL.
  apply Forall_app in Httl as [T1 [T2 T3]%Forall_app]. cbn [dm_Answer dm_Ns dm_Extra dm_Rcode dm_Question set_sections no_opt] in *.
  rewrite !updateTTL_spec by done. split_and!; [done..|]. fold (aged_section (dm_Answer ans)).
  assert (Hs : forall l t, Forall ttl_ok l -> Forall2 (fun old new => 1 <= rr_Ttl new <= rr_Ttl old /\ rr_Data new = rr_Data old /\ rr_Name new = rr_Name old) l (map (aged (minimalTTL l) t) l)).
  { intros l t Hl. generalize (minimalTTL l). intros k. induction Hl as [|x l Hx Hl IH]; constructor; [|done].
    split; [apply aged_le; unfold ttl_ok in Hx; lia|done]. }
  repeat apply Forall2_app; by apply Hs.
Qed.
End Cached.

(** ** Which clients share a transport *)

(** What a transport depends on: everything but the parameters of wrappers. *)
Definition transport_key (ns : NameServer) : string * string * option ProxyAdapter * string * bool * gmap string string :=
  (ns_Net ns, ns_Addr ns, ns_ProxyAdapter ns, ns_ProxyName ns, ns_PreferH3 ns, filter (fun kv => isWrapperOnlyParam kv.1 = false) (ns_Params ns)).
(** Comparisons of this server's proxy do not panic, and the identities of proxies tell
    them apart. *)
Definition comparable (ns : NameServer) : Prop := match ns_ProxyAdapter ns with Some a => pa_comparable a = true | None => True end.

Lemma adapter_eq_spec a b : (match a with Some x => pa_comparable x = true | None => True end) ->
  (match b with Some x => pa_comparable x = true | None => True end) -> adapter_eq a b = Some (bool_decide (a = b)).
Proof.
  destruct a as [[t1 c1 i1]|], b as [[t2 c2 i2]|]; cbn; intros Ha Hb; subst; try done.
  destruct (t1 =? t2) eqn:E1; [apply Z.eqb_eq in E1 as ->|apply Z.eqb_neq in E1].
  - f_equal. destruct (i1 =? i2) eqn:E2; symmetry; [apply Z.eqb_eq in E2 as ->; by apply bool_decide_eq_true_2|].
    apply Z.eqb_neq in E2. apply bool_decide_eq_false_2. congruence.
  - f_equal. symmetry. apply bool_decide_eq_false_2. congruence.
Qed.

Lemma paramsEqual_spec a b : paramsEqual a b = true <-> forall k v, isWrapperOnlyParam k = false -> a !! k = Some v -> b !! k = Some v.
Proof.
  unfold paramsEqual. rewrite forallb_forall. split.
  - intros Hall k v Hw Hk. specialize (Hall (k, v) (proj1 (list_elem_of_In _ _) (proj2 (elem_of_map_to_list a k v) Hk))). cbn in Hall.
    rewrite Hw in Hall. by apply bool_decide_eq_true in Hall.
  - intros Hall [k v] Hin%list_elem_of_In%elem_of_map_to_list. destruct (isWrapperOnlyParam k) eqn:E; [done|]. cbn.
    apply bool_decide_eq_true_2. by apply Hall.
Qed.
Lemma params_filter a b : paramsEqual a b && paramsEqual b a = true <->
  filter (fun kv => isWrapperOnlyParam kv.1 = false) a = filter (fun kv => isWrapperOnlyParam kv.1 = false) (b : gmap string string).
Proof.
  rewrite andb_true_iff, !paramsEqual_spec. split.
  - intros [H1 H2]. apply map_eq. intros k. apply option_eq. intros v. rewrite !map_lookup_filter_Some. cbn. naive_solver.
  - intros E. assert (Hl : forall k v, isWrapperOnlyParam k = false -> a !! k = Some v <-> b !! k = Some v).
    { intros k v Hw. pose proof (f_equal (lookup k) E) as Ek. apply (f_equal (fun o => o = Some v)) in Ek.
      assert (Ha := map_lookup_filter_Some (fun kv => isWrapperOnlyParam kv.1 = false) a k v).
      assert (Hb := map_lookup_filter_Some (fun kv => isWrapperOnlyParam kv.1 = false) b k v). rewrite Ek in Ha. cbn in *. naive_solver. }
    split; intros k v Hw Hk; by apply (Hl k v Hw).
Qed.

Lemma transportEqual_spec a b : comparable a -> comparable b -> transportEqual a b = true <-> transport_key a = transport_key b.
Proof.
  intros Ha Hb. unfold transportEqual, recovered, transport_key. rewrite (adapter_eq_spec (ns_ProxyAdapter a) (ns_ProxyAdapter b)) by done.
  destruct a as [n1 a1 p1 m1 q1 h1], b as [n2 a2 p2 m2 q2 h2]. cbn in *.
  destruct (String.eqb n1 n2) eqn:E1; [apply String.eqb_eq in E1 as ->|apply String.eqb_neq in E1; cbn; split; [done|congruence]].
  destruct (String.eqb a1 a2) eqn:E2; [apply String.eqb_eq in E2 as ->|apply String.eqb_neq in E2; cbn; split; [done|congruence]]. cbn.
  rewrite <- andb_assoc, !andb_true_iff, bool_decide_eq_true, String.eqb_eq, Bool.eqb_true_iff. rewrite <- andb_true_iff, params_filter.
  split; [intros [[[-> ->] ->] E]; by rewrite E|intros [= -> -> -> E]; by rewrite E].
Qed.
Lemma ns_Equal_spec a b : comparable a -> comparable b -> ns_Equal a b = true <-> a = b.
Proof.
  intros Ha Hb. unfold ns_Equal, recovered. rewrite (adapter_eq_spec (ns_ProxyAdapter a) (ns_ProxyAdapter b)) by done.
  destruct a as [n1 a1 p1 m1 q1 h1], b as [n2 a2 p2 m2 q2 h2]. cbn in *.
  destruct (String.eqb n1 n2) eqn:E1; [apply String.eqb_eq in E1 as ->|apply String.eqb_neq in E1; cbn; split; [done|congruence]].
  destruct (String.eqb a1 a2) eqn:E2; [apply String.eqb_eq in E2 as ->|apply String.eqb_neq in E2; cbn; split; [done|congruence]]. cbn.
  rewrite !andb_true_iff, !bool_decide_eq_true, String.eqb_eq, Bool.eqb_true_iff. naive_solver.
Qed.

Section Transports.
Context `{DnsLib}.

Lemma unwrap_idem c : unwrap (unwrap c) = unwrap c.
Proof. by induction c. Qed.
Lemma unwrap_rewrap c params : unwrap (rewrapClient c params) = unwrap c.
Proof.
  unfold rewrapClient, wrapClientWithDisableTypes, wrapClientWithEdns0Subnet.
  destruct (bool_decide _); cbn; destruct (ecs_prefix params) as [p|]; [destruct (prefix_IsValid p)| |destruct (prefix_IsValid p)|]; cbn; apply unwrap_idem.
Qed.
Lemma rewrap_unwrap c params : rewrapClient (unwrap c) params = rewrapClient c params.
Proof. unfold rewrapClient. by rewrite unwrap_idem. Qed.

(** A server whose client is a transport: no fixed answer. *)
Definition transport_server (ns : NameServer) : Prop := comparable ns /\ ns_Net ns <> "rcode".

(** The clients made so far: each is its server's wrappers around a numbered transport,
    and two have the same transport exactly when their servers agree on it. *)
Record clients_ok (st : Clients) : Prop := {
  ck_server : forall ns c, (ns, c) ∈ nameServerCache st -> transport_server ns /\ exists id s, c = rewrapClient (rawClient id s) (ns_Params ns) /\
    transport_key s = transport_key ns /\ (id < next_id st)%nat;
  ck_share : forall ns c ns' c', (ns, c) ∈ nameServerCache st -> (ns', c') ∈ nameServerCache st ->
    unwrap c = unwrap c' <-> transport_key ns = transport_key ns'
}.

(** The scan finds an equal server's client, or one to take the transport from. *)
Lemma find_server_spec ns l : transport_server ns -> (forall s c, (s, c) ∈ l -> transport_server s) -> forall dc,
  match find_server ns dc l with
  | inl c => (ns, c) ∈ l
  | inr (Some c) => dc = Some c \/ exists s, (s, c) ∈ l /\ transport_key s = transport_key ns
  | inr None => dc = None /\ forall s c, (s, c) ∈ l -> transport_key s <> transport_key ns
  end.
Proof.
  intros [Hns _]. induction l as [|[s c] l IH]; intros Hl dc; cbn.
  { destruct dc; [by left|]. split; [done|]. intros s c Hin. by apply elem_of_nil in Hin. }
  destruct (Hl s c ltac:(by left)) as [Hs _]. assert (Hl' : forall s c, (s, c) ∈ l -> transport_server s) by (intros s' c' ?; apply (Hl s' c'); by right).
  destruct (ns_Equal s ns) eqn:Ee; [apply (ns_Equal_spec s ns Hs Hns) in Ee as ->; by left|].
  pose proof (transportEqual_spec s ns Hs Hns) as Ht.
  specialize (IH Hl' (match dc with None => if transportEqual s ns then Some c else None | Some _ => dc end)).
  destruct (find_server ns _ l) as [c1|[c1|]].
  - by right.
  - destruct IH as [IH|(s1 & Hin & Hk)]; [|right; exists s1; split; [by right|done]].
    destruct dc as [d|]; [by left|]. destruct (transportEqual s ns); [|done]. injection IH as ->. right. exists s. split; [by left|by apply Ht].
  - destruct IH as [IH Hn]. destruct dc as [d|]; [done|]. destruct (transportEqual s ns) eqn:Et; [done|]. split; [done|].
    intros s' c' [[= -> ->]|Hin]%elem_of_cons; [intros Hk; apply Ht in Hk; congruence|by eapply Hn].
Qed.

Lemma clients_add ns c st id s (n : nat) : clients_ok st -> transport_server ns -> (next_id st <= n)%nat ->
  c = rewrapClient (rawClient id s) (ns_Params ns) -> transport_key s = transport_key ns -> (id < n)%nat ->
  (forall ns' c', (ns', c') ∈ nameServerCache st -> unwrap c = unwrap c' <-> transport_key ns = transport_key ns') ->
  clients_ok (mkClients (nameServerCache st ++ [(ns, c)]) n).
Proof.
  intros [S1 S2] Hns Hn Hc Hk Hid Hsh. split; cbn.
  - intros ns1 c1 [Hin|[= -> ->]%list_elem_of_singleton]%elem_of_app.
    + destruct (S1 ns1 c1 Hin) as (Ht & id1 & s1 & E & Ek & Hlt). split; [done|]. exists id1, s1. split_and!; [done..|lia].
    + split; [done|]. by exists id, s.
  - intros ns1 c1 ns2 c2 [H1|[= -> ->]%list_elem_of_singleton]%elem_of_app [H2|[= -> ->]%list_elem_of_singleton]%elem_of_app; [by apply S2|..].
    + destruct (Hsh ns1 c1 H1) as [A B]. split; intros E; symmetry; [apply A|apply B]; by symmetry.
    + by apply Hsh.
    + done.
Qed.

Lemma client_for_ok ns st : clients_ok st -> transport_server ns ->
  exists c st', client_for ns st = Some (c, st') /\ clients_ok st' /\ (ns, c) ∈ nameServerCache st' /\
    forall x, x ∈ nameServerCache st -> x ∈ nameServerCache st'.
Proof.
  intros Hst Hns. assert (Hall : forall s c, (s, c) ∈ nameServerCache st -> transport_server s) by (intros s c Hin; apply (ck_server _ Hst s c Hin)).
  pose proof (find_server_spec ns (nameServerCache st) Hns Hall None) as Hf. unfold client_for.
  destruct (find_server ns None (nameServerCache st)) as [c|[dc|]].
  - exists c, st. by split_and!.
  - destruct Hf as [Hf|(s0 & Hin & Hk)]; [done|]. destruct (ck_server _ Hst s0 dc Hin) as (_ & id & s & -> & Ek & Hlt). cbn [mbind option_bind].
    eexists _, _. split; [done|]. split_and!; cbn.
    + eapply (clients_add _ _ st id s); [done|done|lia|by rewrite <- (rewrap_unwrap (rewrapClient _ _)), unwrap_rewrap, rewrap_unwrap|congruence|done|].
      intros ns' c' Hin'. rewrite unwrap_rewrap. rewrite (ck_share _ Hst s0 _ ns' c' Hin Hin'). by rewrite Hk.
    + apply elem_of_app. right. by left.
    + intros x Hx. apply elem_of_app. by left.
  - destruct Hf as [_ Hf]. unfold transform1. destruct (String.eqb (ns_Net ns) "rcode") eqn:Er; [apply String.eqb_eq in Er; by destruct Hns|].
    cbn [mbind option_bind]. eexists _, _. split; [done|]. split_and!; cbn.
    + eapply (clients_add _ _ st (next_id st) ns); [done|done|lia|done|done|lia|].
      intros ns' c' Hin'. rewrite unwrap_rewrap. destruct (ck_server _ Hst ns' c' Hin') as (_ & id & s & -> & Ek & Hlt). rewrite unwrap_rewrap. cbn.
      split; [intros [= E _]; lia|]. intros E. by destruct (Hf ns' _ Hin').
    + apply elem_of_app. right. by left.
    + intros x Hx. apply elem_of_app. by left.
Qed.

Lemma cacheTransform_ok servers : forall st, clients_ok st -> Forall transport_server servers ->
  exists cs st', cacheTransform servers st = Some (cs, st') /\ clients_ok st' /\ (forall x, x ∈ nameServerCache st -> x ∈ nameServerCache st') /\
    Forall2 (fun ns c => (ns, c) ∈ nameServerCache st') servers cs.
Proof.
  induction servers as [|ns servers IH]; intros st Hst Hall; cbn; [by exists [], st|]. inversion Hall as [|? ? Hns Hrest]; subst.
  destruct (client_for_ok ns st Hst Hns) as (c & st1 & -> & Hst1 & Hin1 & Hsub1). cbn.
  destruct (IH st1 Hst1 Hrest) as (cs & st2 & -> & Hst2 & Hsub2 & Hall2). cbn.
  eexists _, _. split; [done|]. split_and!; [done|auto|]. constructor; [auto|done].
Qed.

(** making clients for a list of servers (none with a fixed answer, and proxies that
    can be compared) succeeds and gives one client for each, in order: the server's own
    wrappers around a transport made for a server that agrees with it.  Two clients share
    their transport exactly when their servers agree in everything but the parameters of
    wrappers. *)
Lemma transports_shared servers n : Forall transport_server servers ->
  exists cs st', cacheTransform servers (mkClients [] n) = Some (cs, st') /\ length cs = length servers /\
    (forall (i : nat) ns c, servers !! i = Some ns -> cs !! i = Some c ->
       c = rewrapClient (unwrap c) (ns_Params ns) /\ exists id s, unwrap c = rawClient id s /\ transport_key s = transport_key ns) /\
    (forall (i j : nat) ns ns' c c', servers !! i = Some ns -> servers !! j = Some ns' -> cs !! i = Some c -> cs !! j = Some c' ->
       unwrap c = unwrap c' <-> transport_key ns = transport_key ns').
Proof.
  intros Hall. destruct (cacheTransform_ok servers (mkClients [] n)) as (cs & st' & E & Hst & _ & Hf); [|done|].
  { split; cbn; [intros ns c Hin|intros ns c ns' c' Hin]; by apply elem_of_nil in Hin. }
  exists cs, st'. split; [done|]. split; [symmetry; by eapply Forall2_length|].
  assert (Hin : forall (i : nat) ns c, servers !! i = Some ns -> cs !! i = Some c -> (ns, c) ∈ nameServerCache st').
  { intros i ns c H1 H2. by apply (Forall2_lookup_lr _ _ _ _ _ _ Hf H1 H2). }
  split.
  - intros i ns c H1 H2. destruct (ck_server _ Hst ns c (Hin i ns c H1 H2)) as (_ & id & s & -> & Ek & _).
    rewrite unwrap_rewrap. cbn. split; [done|]. by exists id, s.
  - intros i j ns ns' c c' H1 H2 H3 H4. apply (ck_share _ Hst); eauto.
Qed.
End Transports.

(** ** A small network *)

(** One implementation of what the code calls; witnesses are evaluated in it. *)
#[export] Instance demo_lib : DnsLib := {|
  dns_Fqdn s := if HasSuffix s "." then s else (s ++ ".")%string;
  question_String q := (dq_Name q ++ " " ++ FormatInt (dq_Qclass q) ++ " " ++ FormatInt (dq_Qtype q))%string;
  dns_SetQuestion m z t := mkDnsMsg (dm_Id m) (dm_Response m) (dm_Opcode m) (dm_Authoritative m) (dm_RecursionAvailable m) (dm_Rcode m)
                             [mkDnsQuestion z t ClassINET_] (dm_Answer m) (dm_Ns m) (dm_Extra m);
  dns_SetRcode m r c := mkDnsMsg (dm_Id r) true (dm_Opcode r) (dm_Authoritative m) (dm_RecursionAvailable m) c
                          (take 1 (dm_Question r)) (dm_Answer m) (dm_Ns m) (dm_Extra m);
  dns_TypeToRR t := bool_decide (t ∈ [1; 2; 5; 6; 12; 15; 16; 28; 33; 65]);
  dns_RcodeToString c := FormatInt c;
  lo_Clamp v lo hi := Z.max lo (Z.min v hi);
  f64_unfit _ := 0
|}.
#[export] Instance demo_lib_laws : DnsLibLaws.
Proof. by split. Qed.

Definition demo_server (addr : string) : NameServer := mkNameServer "udp" addr None "" ∅ false.
Definition demo_q : DnsQuestion := mkDnsQuestion "a.org." TypeA_ ClassINET_.
Definition demo_query : DnsMsg := dns_SetQuestion emptyMsg "a.org." TypeA_.
Definition demo_rr (ttl : Z) (ip : list Z) : DnsRR := mkDnsRR "a.org." TypeA_ ClassINET_ ttl (RD_A ip).
Definition demo_answer (ttl : Z) (ip : list Z) : DnsMsg :=
  mkDnsMsg 0 true 0 false true RcodeSuccess [demo_q] [demo_rr ttl ip; demo_rr (ttl + 40) [10; 0; 0; 9]] [] [new_opt].
Definition demo_failure : DnsMsg := mkDnsMsg 0 true 0 false true RcodeServerFailure [demo_q] [] [] [].
(** Transport 0 answers with a private address, transport 1 with a public one, any other
    fails. *)
Definition demo_up (t id : nat) (m : DnsMsg) : DnsErr + DnsMsg :=
  match id with 0%nat => inr (demo_answer 60 [10; 0; 0; 1]) | 1%nat => inr (demo_answer 300 [1; 2; 3; 4]) | _ => inr demo_failure end.
Definition in_order (t n : nat) : list nat := seq 0 n.
(** The readings of the clock are 21 seconds apart. *)
Definition demo_clock (n : nat) : Z := Z.of_nat n * 21 * Second.
Definition is_private (ip : Addr) : bool := addr_IsPrivate ip.
Definition demo_resolver (lazy : bool) : Resolver :=
  mkResolver true 0 [rawClient 0 (demo_server "10.0.0.53:53")] [rawClient 1 (demo_server "8.8.8.8:53")] [] [is_private] lazy [] None.
Definition demo_state : RState := mkRState (newCache DnsMsg "arc" 16) [] 0.

Lemma ipExchange_trusts_main_witness :
  matchPolicy (demo_resolver true) demo_query = [] /\
  (ipExchange demo_up in_order (demo_resolver true) [] demo_query).1 = inr (demo_answer 300 [1; 2; 3; 4]) /\
  let main := group_answer demo_up in_order [] (r_main (demo_resolver true)) demo_query in
  let '(res, l') := ipExchange demo_up in_order (demo_resolver true) [] demo_query in
  (forall x, trusted (demo_resolver true) main x -> res = inr x) /\
  ((forall x, ~ trusted (demo_resolver true) main x) ->
     res = group_answer demo_up in_order ([] ++ [r_main (demo_resolver true)]) (r_fallback (demo_resolver true)) demo_query) /\
  (l' = [] ++ [r_main (demo_resolver true)] <-> fallbackLazyQuery (demo_resolver true) = true /\ exists x, trusted (demo_resolver true) main x) /\
  (l' = [] ++ [r_main (demo_resolver true); r_fallback (demo_resolver true)] <->
     fallbackLazyQuery (demo_resolver true) = false \/ forall x, ~ trusted (demo_resolver true) main x).
Proof. split; [done|]. split; [by vm_compute|]. by apply ipExchange_trusts_main. Defined.

Lemma exchange_sound_witness :
  exists res st', ExchangeContext demo_up in_order demo_clock (demo_resolver true) (mkCallEnv false false) demo_query demo_state = Some (res, st') /\
    dc_ok (rs_cache st') /\
    only_key (question_String demo_q) (rs_cache demo_state) (rs_cache st') /\
    entry_from demo_clock (answer_of demo_up in_order (demo_resolver true) demo_q demo_query) (question_String demo_q) (rs_cache demo_state) (rs_cache st') /\
    forall x, res = inr x -> answer_of demo_up in_order (demo_resolver true) demo_q demo_query x \/
      exists y expire, dc_view (rs_cache demo_state) (question_String demo_q) = Some (y, expire) /\
        (x = dns_setMsgTTL y 1 \/ exists n, x = updateMsgTTL y (seconds_left (demo_clock n) expire)).
Proof.
  apply (exchange_sound demo_up in_order demo_clock (demo_resolver true) (mkCallEnv false false) demo_q [] demo_query demo_state);
    [by apply newCache_ok|done].
Defined.

(** The answer of 60 and 100 seconds is put in at time 0 and asked for after 21 seconds:
    the clock is read again 21 seconds later, when 18 are left. *)
Definition demo_cached : option (AnswerCache DnsMsg) := putMsgToCache (demo_clock 0) (newCache DnsMsg "arc" 16) demo_q (demo_answer 60 [10; 0; 0; 1]).
Definition demo_later : RState := mkRState (default (newCache DnsMsg "arc" 16) demo_cached) [] 1.

Lemma answer_roundtrip_witness :
  storable demo_q (demo_answer 60 [10; 0; 0; 1]) = true /\ seconds_left (demo_clock 2) 60 = 18 /\
  (exists x st', ExchangeContext demo_up in_order demo_clock (demo_resolver true) (mkCallEnv false false) demo_query demo_later = Some (inr x, st') /\
     map rr_Ttl (dm_Answer x) = [18; 58] /\ dm_Extra x = [] /\ rs_asked st' = []) /\
  exists c', putMsgToCache (demo_clock 0) (newCache DnsMsg "arc" 16) demo_q (demo_answer 60 [10; 0; 0; 1]) = Some c' /\
    forall st, rs_cache st = c' ->
    let expire := (stored (demo_clock 0) (demo_answer 60 [10; 0; 0; 1])).2 in
    let left := seconds_left (demo_clock (S (rs_reads st))) expire in
    demo_clock (rs_reads st) <= expire * Second -> 0 <= left < 2 ^ 31 ->
    exists x st', ExchangeContext demo_up in_order demo_clock (demo_resolver true) (mkCallEnv false false) demo_query st = Some (inr x, st') /\
      rs_asked st' = rs_asked st /\ dm_Rcode x = 0 /\ dm_Question x = [demo_q] /\
      dm_Answer x = aged_section [demo_rr 60 [10; 0; 0; 1]; demo_rr 100 [10; 0; 0; 9]] left /\ dm_Ns x = aged_section [] left /\
      dm_Extra x = aged_section [] left /\
      Forall2 (fun old new => 1 <= rr_Ttl new <= rr_Ttl old /\ rr_Data new = rr_Data old /\ rr_Name new = rr_Name old)
        ([demo_rr 60 [10; 0; 0; 1]; demo_rr 100 [10; 0; 0; 9]] ++ [] ++ []) (dm_Answer x ++ dm_Ns x ++ dm_Extra x).
Proof.
  split; [by vm_compute|]. split; [by vm_compute|]. split.
  - eexists _, _. split; [vm_compute; reflexivity|]. by vm_compute.
  - refine (answer_roundtrip demo_up in_order demo_clock (demo_resolver true) (mkCallEnv false false) demo_q [] demo_query
      (demo_answer 60 [10; 0; 0; 1]) (newCache DnsMsg "arc" 16) 0 _ _ _ _); [by apply newCache_ok|done|by vm_compute|].
    repeat (constructor; [by vm_compute|]). constructor.
Defined.

Definition demo_params : gmap string string := {[ "disable-ipv6" := "true"; "ecs" := "1.2.3.0/24" ]}.
Definition demo_servers : list NameServer :=
  [demo_server "8.8.8.8:53"; mkNameServer "udp" "8.8.8.8:53" None "" demo_params false; demo_server "9.9.9.9:53"].
Lemma transports_shared_witness :
  (exists st', cacheTransform demo_servers (mkClients [] 0) =
     Some ([rawClient 0 (demo_server "8.8.8.8:53");
            clientWithDisableTypes (clientWithEdns0Subnet (rawClient 0 (demo_server "8.8.8.8:53")) (mkPrefix (mkAddr 32 16909056) 24) false) {[ TypeAAAA_ ]};
            rawClient 1 (demo_server "9.9.9.9:53")], st')) /\
  exists cs st', cacheTransform demo_servers (mkClients [] 0) = Some (cs, st') /\ length cs = length demo_servers /\
    (forall (i : nat) ns c, demo_servers !! i = Some ns -> cs !! i = Some c ->
       c = rewrapClient (unwrap c) (ns_Params ns) /\ exists id s, unwrap c = rawClient id s /\ transport_key s = transport_key ns) /\
    (forall (i j : nat) ns ns' c c', demo_servers !! i = Some ns -> demo_servers !! j = Some ns' -> cs !! i = Some c -> cs !! j = Some c' ->
       unwrap c = unwrap c' <-> transport_key ns = transport_key ns').
Proof.
  split; [eexists; by vm_compute|]. apply (transports_shared demo_servers 0). repeat (constructor; [by split|]). constructor.
Defined.

(** ** Surprises *)

(** The time that has passed is worked out for each section by itself: 20 seconds after an
    answer of 300 seconds with an authority of 60 was stored, the answer is down to 40. *)
Example sections_age_apart :
  let m := mkDnsMsg 0 true 0 false true 0 [demo_q] [demo_rr 300 [1; 2; 3; 4]] [mkDnsRR "org." 6 1 60 (RD_Other "soa")] [] in
  cacheTTL m = 60 /\ map rr_Ttl (dm_Answer (updateMsgTTL m 40)) = [40] /\ map rr_Ttl (dm_Ns (updateMsgTTL m 40)) = [40].
Proof. by vm_compute. Qed.

(** Servers that fail are asked twice, although [retryMax] is 3: nothing looks at the
    result of the retry. *)
Definition failing_resolver : Resolver := mkResolver true 0 [rawClient 7 (demo_server "192.0.2.1:53")] [] [] [] false [] None.
Example one_retry :
  match ExchangeContext demo_up in_order demo_clock failing_resolver (mkCallEnv false false) demo_query demo_state with
  | Some (inl (errAllFailed _), st) => length (rs_asked st) = 2%nat
  | _ => False
  end.
Proof. by vm_compute. Qed.

(** The failure of a server never gets to the rule that keeps failures for five seconds:
    it counts as an error.  A configured failure ([rcode://server_failure]) does, since
    the exchange for addresses forgets that its answer is not to be cached. *)
Definition rcode_resolver : Resolver := mkResolver true 0 [rcodeClient RcodeServerFailure "rcode://server_failure"] [] [] [] false [] None.
Example configured_failure_is_cached :
  match ExchangeContext demo_up in_order demo_clock rcode_resolver (mkCallEnv false false) demo_query demo_state with
  | Some (inr m, st) => dm_Rcode m = RcodeServerFailure /\ snd <$> dc_view (rs_cache st) (question_String demo_q) = Some 5
  | _ => False
  end.
Proof. by vm_compute. Qed.

(** When the lookup for A fails and that for AAAA is not there in time, the lookup
    succeeds, with no address at all. *)
Lemma late_AAAA_hides_the_error e : join_ips (inl e) None = inr [].
Proof. done. Qed.

(** A record after the OPT record makes the code add a second one. *)
Example second_opt :
  map rr_Rrtype (dm_Extra (setEdns0Subnet (set_sections [] [] [new_opt; demo_rr 1 [1; 2; 3; 4]] emptyMsg) (mkPrefix (mkAddr 32 0) 0) false).2) = [41; 1; 41].
Proof. by vm_compute. Qed.
