(* ===== verification/Tunnel.v ===== *)
(** * The tunnel: which proxy takes a connection

    Models [tunnel/tunnel.go]: what is done to the metadata of a connection before
    it is matched, the helpers that resolve its host and look for its process, the
    choice by mode, by hosts and by rules, the way through nested groups, and the
    proxies that send the metadata round again ([adapter/outbound/rematch.go]).
    Proxies are known by what the interface [C.Proxy] offers here.  Resolving,
    process lookup and the mapping of fake addresses are arguments. *)

From S2P Require Import Prelude Names Netip Metadata DomainTrie Hosts Ranges Wildcard Rules.
#[local] Open Scope string_scope.
#[local] Open Scope Z_scope.
#[local] Open Scope match_scope.

(** ** Proxies as the tunnel sees them *)

(** @go constant/adapters.go:18-60 AdapterType *)
Inductive AdapterType :=
| AT_Direct | AT_Reject | AT_RejectDrop | AT_Compatible | AT_Pass | AT_PassRule | AT_Rematch | AT_Dns
| AT_Relay | AT_Selector | AT_Fallback | AT_URLTest | AT_LoadBalance | AT_Smart
| AT_Shadowsocks | AT_ShadowsocksR | AT_Snell | AT_Socks5 | AT_Http | AT_Vmess | AT_Vless | AT_Trojan | AT_Hysteria
| AT_Hysteria2 | AT_WireGuard | AT_Tuic | AT_Ssh | AT_Mieru | AT_AnyTLS | AT_Sudoku | AT_Masque | AT_TrustTunnel
| AT_ShadowQuic | AT_OpenVPN | AT_Tailscale | AT_ZeroTier | AT_EasyTier | AT_GostRelay.
#[export] Instance AdapterType_eq_dec : EqDecision AdapterType.
Proof. solve_decision. Defined.

(** @go constant/adapters.go:182-263 AdapterType.String *)
Definition AdapterType_String (at_ : AdapterType) : string :=
  match at_ with
  | AT_Direct => "Direct" | AT_Reject => "Reject" | AT_RejectDrop => "RejectDrop" | AT_Compatible => "Compatible"
  | AT_Pass => "Pass" | AT_PassRule => "PassRule" | AT_Rematch => "Rematch" | AT_Dns => "Dns" | AT_Relay => "Relay"
  | AT_Selector => "Selector" | AT_Fallback => "Fallback" | AT_URLTest => "URLTest" | AT_LoadBalance => "LoadBalance"
  | AT_Smart => "Smart" | AT_Shadowsocks => "Shadowsocks" | AT_ShadowsocksR => "ShadowsocksR" | AT_Snell => "Snell"
  | AT_Socks5 => "Socks5" | AT_Http => "Http" | AT_Vmess => "Vmess" | AT_Vless => "Vless" | AT_Trojan => "Trojan"
  | AT_Hysteria => "Hysteria" | AT_Hysteria2 => "Hysteria2" | AT_WireGuard => "WireGuard" | AT_Tuic => "Tuic" | AT_Ssh => "Ssh"
  | AT_Mieru => "Mieru" | AT_AnyTLS => "AnyTLS" | AT_Sudoku => "Sudoku" | AT_Masque => "Masque" | AT_TrustTunnel => "TrustTunnel"
  | AT_ShadowQuic => "ShadowQuic" | AT_OpenVPN => "OpenVPN" | AT_Tailscale => "Tailscale" | AT_ZeroTier => "ZeroTier"
  | AT_EasyTier => "EasyTier" | AT_GostRelay => "GostRelay"
  end.

(** What the tunnel uses of a proxy: [DialContext] only for what it does to the
    metadata, with whether it failed; [Unwrap] is [None] for [nil].
    @go constant/adapters.go:167-177 Proxy *)
Record OutProxy := mkOutProxy {
  px_Name : string; px_Type : AdapterType; px_SupportUDP : bool;
  px_Unwrap : Metadata -> option nat;
  px_DialContext : Metadata -> Metadata * bool
}.

(** @go adapter/outbound/rematch.go:10-14 Rematch *)
Record Rematch := mkRematch { rematch_Name : string; targetRematchName : option string; targetSubRule : option string }.
(** @go adapter/outbound/rematch.go:33-40 Rematch.applyMetadata *)
Definition applyMetadata (l : Rematch) (m : Metadata) : Metadata :=
  let m := match targetRematchName l with Some n => set_RematchName n m | None => m end in
  match targetSubRule l with Some n => set_SpecialRules n m | None => m end.
(** @go adapter/outbound/rematch.go:23-26 Rematch.DialContext *)
Definition rematch_DialContext (l : Rematch) (m : Metadata) : Metadata * bool := (applyMetadata l m, false).
(** [None]: neither target is given.
    @go adapter/outbound/rematch.go:42-56 NewRematch *)
Definition NewRematch (name : string) (rematchName subRule : option string) : option Rematch :=
  match rematchName, subRule with
  | None, None => None
  | _, _ => Some (mkRematch name rematchName subRule)
  end.
(** @go adapter/outbound/base.go:141-143 Base.Unwrap *)
Definition base_Unwrap (m : Metadata) : option nat := None.
Definition rematch_proxy (l : Rematch) : OutProxy := mkOutProxy (rematch_Name l) AT_Rematch true base_Unwrap (rematch_DialContext l).

(** ** The tunnel's state *)

(** @go tunnel/mode.go:17-21 TunnelMode *)
Inductive TunnelMode := Global | Rule_ | Direct.
(** @go tunnel/mode.go:38-49 TunnelMode.String *)
Definition TunnelMode_String (m : TunnelMode) : string :=
  match m with Global => "global" | Rule_ => "rule" | Direct => "direct" end.
(** @go tunnel/mode.go:10-31 ModeMapping, TunnelMode.UnmarshalText *)
Definition ModeMapping : list (string * TunnelMode) := map (fun m => (TunnelMode_String m, m)) [Global; Rule_; Direct].
Definition TunnelMode_Unmarshal (data : string) : option TunnelMode :=
  snd <$> List.find (fun e => String.eqb (fst e) (ToLower data)) ModeMapping.

(** @go tunnel/status.go:17-21 TunnelStatus *)
Inductive TunnelStatus := Suspend | Inner | Running.
(** @go tunnel/status.go:38-49 TunnelStatus.String *)
Definition TunnelStatus_String (s : TunnelStatus) : string :=
  match s with Suspend => "suspend" | Inner => "inner" | Running => "running" end.
(** @go tunnel/status.go:10-31 StatusMapping, TunnelStatus.UnmarshalText *)
Definition StatusMapping : list (string * TunnelStatus) := map (fun s => (TunnelStatus_String s, s)) [Suspend; Inner; Running].
Definition TunnelStatus_Unmarshal (data : string) : option TunnelStatus :=
  snd <$> List.find (fun e => String.eqb (fst e) (ToLower data)) StatusMapping.
(** @go tunnel/tunnel.go:273-276 isHandle *)
Definition isHandle (status : TunnelStatus) (t : Type_) : bool :=
  match status with Running => true | Inner => bool_decide (t = INNER) | Suspend => false end.

(** @go component/process/find_process_mode.go:8-12 FindProcessMode *)
Inductive FindProcessMode := FindProcessStrict | FindProcessAlways | FindProcessOff.
(** @go component/process/find_process_mode.go:43-52 FindProcessMode.String *)
Definition FindProcessMode_String (m : FindProcessMode) : string :=
  match m with FindProcessAlways => "always" | FindProcessOff => "off" | FindProcessStrict => "strict" end.
(** @go component/process/find_process_mode.go:14-36 validModes, FindProcessMode.Set *)
Definition validModes : list (string * FindProcessMode) :=
  map (fun m => (FindProcessMode_String m, m)) [FindProcessStrict; FindProcessAlways; FindProcessOff].
Definition FindProcessMode_Set (value : string) : option FindProcessMode :=
  snd <$> List.find (fun e => String.eqb (fst e) (ToLower value)) validModes.

(** The texts of the settings are read back. *)
Lemma TunnelMode_roundtrip m : TunnelMode_Unmarshal (TunnelMode_String m) = Some m.
Proof. by destruct m. Qed.
Lemma TunnelStatus_roundtrip s : TunnelStatus_Unmarshal (TunnelStatus_String s) = Some s.
Proof. by destruct s. Qed.
Lemma FindProcessMode_roundtrip m : FindProcessMode_Set (FindProcessMode_String m) = Some m.
Proof. by destruct m. Qed.

(** [rule_env] has the named lists [subRules]; [android] is the build feature.
    @go tunnel/tunnel.go:42-71 mode, rules, proxies, findProcessMode *)
Record TunnelEnv := mkTunnelEnv {
  rule_env : RuleEnv;
  tunnel_rules : list Rule;
  proxies : gmap string nat;
  proxy_at : nat -> OutProxy;
  tunnel_mode : TunnelMode;
  findProcessMode : FindProcessMode;
  android : bool;
  DefaultHosts : HostTrie;
  systemHosts : option (string -> list string);
  IntN : Z -> Z;
  resolve : string -> option Addr;
  FindProcessName : string -> Addr -> Z -> option (Z * string);
  FindPackageName : Metadata -> option string;
  MappingEnabled : bool;
  IsFakeIP : Addr -> bool;
  FindHostByIP : Addr -> option string
}.

(** [filepath.Base]. *)
Definition path_Base (path : string) : string :=
  if String.eqb path "" then "."
  else let path := TrimRightFunc (Ascii.eqb "/") path in
       if String.eqb path "" then "/" else List.last (SplitOn "/" path) "".

Section Tunnel.
Context (T : TunnelEnv).

(** ** Before matching *)

(** @go tunnel/tunnel.go:278-286 fixMetadata *)
Definition fixMetadata (m : Metadata) : Metadata :=
  let m := set_DstIP (addr_Unmap (md_DstIP m)) m in
  match ParseAddr (md_Host m) with
  | Some ip => set_Host "" (set_DstIP (addr_Unmap ip) m)
  | None => m
  end.

(** @go tunnel/tunnel.go:288-290 needLookupIP *)
Definition needLookupIP (m : Metadata) : bool :=
  MappingEnabled T && String.eqb (md_Host m) "" && addr_IsValid (md_DstIP m).

(** The address [RandIP] gives, or the zero address with its error. *)
Definition rand_ip (hv : option HostValue) : Addr := default zeroAddr (hv ← hv; RandIP (IntN T) hv).

(** The metadata and whether the fake record is missing; [None] when the search of
    the hosts does not end.
    @go tunnel/tunnel.go:292-318 preHandleMetadata *)
Definition preHandleMetadata (fuel : nat) (m : Metadata) : option (Metadata * bool) :=
  if needLookupIP m then
    match FindHostByIP T (md_DstIP m) with
    | Some host =>
        let m' := set_DNSMode DNSMapping (set_Host host m) in
        if IsFakeIP T (md_DstIP m) then Some (set_DNSMode DNSFakeIP (set_DstIP zeroAddr m'), false)
        else
          '(node, ok) ← hosts_Search fuel (DefaultHosts T) (systemHosts T) host false;
          Some (if ok : bool then (set_DstIP (rand_ip node) m', false)
                else match node with
                     | Some hv => if hv_IsDomain hv then (set_Host (hv_Domain hv) m', false) else (m', false)
                     | None => (m', false)
                     end)
    | None => Some (m, IsFakeIP T (md_DstIP m))
    end
  else
    '(node, ok) ← hosts_Search fuel (DefaultHosts T) (systemHosts T) (md_Host m) true;
    Some (match ok : bool, node with true, Some hv => set_Host (hv_Domain hv) m | _, _ => m end, false).

(** ** The helpers of a match *)

(** @go tunnel/tunnel.go:340-353 resolveMetadata *)
Definition tunnel_ResolveIP (st : MState) : MState :=
  let m := st_md st in
  if negb (resolved st) && negb (String.eqb (md_Host m) "") && negb (Resolved m) then
    mkMState (match resolve T (md_Host m) with Some ip => set_DstIP ip m | None => m end) true (attemptProcessLookup st) (wrappers st)
  else st.

(** @go tunnel/tunnel.go:354-380 resolveMetadata *)
Definition tunnel_FindProcess (st : MState) : MState :=
  if attemptProcessLookup st then
    let m := st_md st in
    let m :=
      if android T then match FindPackageName T m with Some pkg => set_Process (md_Uid m) pkg (md_ProcessPath m) m | None => m end
      else match FindProcessName T (NetWork_String (md_NetWork m)) (md_SrcIP m) (md_SrcPort m) with
           | None => m
           | Some (uid, path) =>
               let m := set_Process uid (path_Base path) path m in
               match FindPackageName T m with Some pkg => set_Process uid pkg path m | None => m end
           end in
    mkMState m (resolved st) false (wrappers st)
  else st.

(** [None]: still unwrapping.
    @go tunnel/tunnel.go:387-392 resolveMetadata *)
Fixpoint pass_walk (fuel : nat) (m : Metadata) (a : option nat) : option bool :=
  match fuel with
  | O => None
  | S fuel =>
      match a with
      | None => Some false
      | Some a => if bool_decide (px_Type (proxy_at T a) = AT_PassRule) then Some true else pass_walk fuel m (px_Unwrap (proxy_at T a) m)
      end
  end.

(** A walk that has not ended counts as no; [nesting] below bounds it.
    @go tunnel/tunnel.go:382-393 resolveMetadata *)
Definition tunnel_CheckPassRule (fuel : nat) (adapterName : string) (m : Metadata) : bool :=
  match proxies T !! adapterName with
  | None => false
  | Some adapter => default false (pass_walk fuel m (Some adapter))
  end.

(** The helpers that a match is given, and the state it starts from: a host of the
    hosts file is resolved already, and the process is looked for before the match
    when it always is.
    @go tunnel/tunnel.go:328-402 resolveMetadata *)
Definition tunnel_helper (fuel : nat) : RuleMatchHelper :=
  mkHelper (Some tunnel_ResolveIP)
           match findProcessMode T with FindProcessStrict => Some tunnel_FindProcess | _ => None end
           (Some (tunnel_CheckPassRule fuel)).
Definition start_match (node : option HostValue) (ok : bool) (st : MState) : MState :=
  let m := st_md st in
  let st := mkMState (if ok then set_DstIP (rand_ip node) m else m) ok (bool_decide (md_Type m <> INNER)) (wrappers st) in
  match findProcessMode T with FindProcessAlways => tunnel_FindProcess st | _ => st end.

(** ** Matching *)

Inductive walk_end := WalkDone (passed smart : bool) | WalkRematch (p : nat).

(** The way through nested groups.
    @go tunnel/tunnel.go:686-704 match *)
Fixpoint adapter_walk (fuel : nat) (m : Metadata) (smart : bool) (a : option nat) : option walk_end :=
  match fuel with
  | O => None
  | S fuel =>
      match a with
      | None => Some (WalkDone false smart)
      | Some a =>
          let px := proxy_at T a in
          let smart := smart || bool_decide (px_Type px = AT_Smart) in
          if bool_decide (px_Type px = AT_Pass) then Some (WalkDone true smart)
          else if bool_decide (px_Type px = AT_Rematch) then Some (WalkRematch a)
          else adapter_walk fuel m smart (px_Unwrap px m)
      end
  end.

(** [countryCodeRegex], two letters; [smartRuleType].
    @go tunnel/tunnel.go:73-73 countryCodeRegex *)
Definition countryCode (s : string) : bool :=
  match s with String a (String b EmptyString) => let l c := let n := nat_of_ascii (lower_ascii c) in (97 <=? n)%nat && (n <=? 122)%nat in l a && l b | _ => false end.

(** @go tunnel/tunnel.go:678-683 match *)
Definition note_smart (rule : Rule) (m : Metadata) : Metadata :=
  if SmartRuleTypes (rule_RuleType rule) && (negb (String.eqb (RuleType_String (rule_RuleType rule)) "GEOIP") || negb (countryCode (rule_Payload rule)))
  then set_SmartTarget (RuleType_String (rule_RuleType rule) ++ " [" ++ rule_Payload rule ++ "]") m
  else m.

Inductive rules_end := RuleChosen (adapter : nat) (rule : Rule) | RuleRematch (p : nat) (rule : Rule) | NoRule.

(** @go tunnel/tunnel.go:670-722 match *)
Fixpoint rules_loop (fuel : nat) (h : RuleMatchHelper) (rules : list Rule) : M rules_end :=
  match rules with
  | [] => ret NoRule
  | rule :: rules =>
      x <-- rule_Match (rule_env T) fuel rule h ;;
      if fst x then
        match proxies T !! snd x with
        | None => rules_loop fuel h rules
        | Some adapter =>
            modify_md (note_smart rule) ;;;
            m <-- get_md ;;
            match adapter_walk fuel m false (Some adapter) with
            | None => fun _ => Diverges
            | Some (WalkRematch p) => ret (RuleRematch p rule)
            | Some (WalkDone passed smart) =>
                modify_md (if smart then set_SmartBlock "normal" else set_SmartTarget "") ;;;
                if passed then rules_loop fuel h rules
                else if bool_decide (md_NetWork m = UDP) && negb (px_SupportUDP (proxy_at T adapter)) then rules_loop fuel h rules
                else ret (RuleChosen adapter rule)
            end
        end
      else rules_loop fuel h rules
  end.

(** @go tunnel/tunnel.go:744-752 getRules *)
Definition getRules (m : Metadata) : list Rule :=
  match subRules (rule_env T) !! md_SpecialRules m with Some sr => sr | None => tunnel_rules T end.

(** [turns] bounds the rounds, [rematchChain] their proxies so far.
    @go tunnel/tunnel.go:662-742 match *)
Fixpoint match_loop (turns fuel : nat) (h : RuleMatchHelper) (rematchChain : list string) : M (option nat * option Rule) :=
  match turns with
  | O => fun _ => Diverges
  | S turns =>
      m <-- get_md ;;
      e <-- rules_loop fuel h (getRules m) ;;
      match e with
      | RuleChosen adapter rule => ret (Some adapter, Some rule)
      | NoRule => ret (proxies T !! "DIRECT", None)
      | RuleRematch p rule =>
          if existsb (String.eqb (px_Name (proxy_at T p))) rematchChain then ret (Some p, Some rule)
          else
            m <-- get_md ;;
            let '(m, err) := px_DialContext (proxy_at T p) m in
            modify_md (fun _ => m) ;;;
            if err : bool then ret (Some p, Some rule)
            else match_loop turns fuel h (rematchChain ++ [px_Name (proxy_at T p)])%list
      end
  end.

(** The proxy, the rule, and whether the proxy asked for is missing.
    @go tunnel/tunnel.go:320-415 resolveMetadata *)
Definition resolveMetadata (fuel : nat) : M (option nat * option Rule * bool) :=
  m <-- get_md ;;
  if negb (String.eqb (md_SpecialProxy m) "") then
    let proxy := proxies T !! md_SpecialProxy m in ret (proxy, None, negb (bool_decide (is_Some proxy)))
  else
    match hosts_Search fuel (DefaultHosts T) (systemHosts T) (md_Host m) false with
    | None => fun _ => Diverges
    | Some (node, ok) =>
        (fun st => Ok tt (start_match node ok st)) ;;;
        match tunnel_mode T with
        | Direct => ret (proxies T !! "DIRECT", None, false)
        | Global => ret (proxies T !! "GLOBAL", None, false)
        | Rule_ => x <-- match_loop fuel fuel (tunnel_helper fuel) [] ;; ret (fst x, snd x, false)
        end
    end.

(** ** Accepting a connection *)

(** A connection is dropped, or goes on to the match with its metadata. *)
Inductive accepted_as := Dropped | Proceed (m : Metadata).

(** [sniff] is the sniffer when it is on: the metadata with the name it found.
    @go tunnel/tunnel.go:510-549 handleTCPConn *)
Definition tcp_accept (fuel : nat) (status : TunnelStatus) (sniff : option (Metadata -> option Metadata)) (m : Metadata) : option accepted_as :=
  if negb (isHandle status (md_Type m)) then Some Dropped
  else if negb (md_Valid m) then Some Dropped
  else
    '(m, preHandleFailed) ← preHandleMetadata fuel (fixMetadata m);
    let '(m, preHandleFailed) :=
      match sniff with
      | Some TCPSniff => match TCPSniff m with Some m => (m, false) | None => (m, preHandleFailed) end
      | None => (m, preHandleFailed)
      end in
    Some (if preHandleFailed : bool then Dropped else Proceed m).

(** The first check is made on a copy of the metadata, which is prepared again when
    the packet is the first of its key and a proxy is dialled.
    @go tunnel/tunnel.go:423-441 handleUDPConn *)
Definition udp_accept (fuel : nat) (status : TunnelStatus) (m : Metadata) : option accepted_as :=
  if negb (isHandle status (md_Type m)) then Some Dropped
  else if negb (md_Valid m) then Some Dropped
  else
    let m := fixMetadata m in
    '(_, err) ← preHandleMetadata fuel m;
    Some (if err : bool then Dropped else Proceed m).

(** The metadata a first packet is matched with; [sniff] is the sniffer of the
    sender, which may fail.
    @go tunnel/tunnel.go:452-461 handleUDPConn *)
Definition udp_dial_metadata (fuel : nat) (sniff : Metadata -> option Metadata) (m : Metadata) : option (option Metadata) :=
  match sniff m with
  | None => Some None
  | Some m => '(m, _) ← preHandleMetadata fuel m; Some (Some m)
  end.

(** ** Dialling *)

(** The address of a host in the hosts file is used unless it is a fake one; the
    write to [dialMetadata.DstIP] is one to [metadata] too.
    @go tunnel/tunnel.go:568-577 handleTCPConn *)
Definition dial_metadata (fuel : nat) (m : Metadata) : option (Metadata * Metadata) :=
  if String.eqb (md_Host m) "" then Some (m, m)
  else
    '(node, ok) ← hosts_Search fuel (DefaultHosts T) (systemHosts T) (md_Host m) false;
    Some (if (ok : bool) && negb (IsFakeIP T (rand_ip node))
          then let m := set_DNSMode DNSHosts (set_DstIP (rand_ip node) m) in (m, Pure m)
          else (m, m)).
End Tunnel.

(** The errors [errors.Is] tells apart. *)
Inductive DialErr := ErrIPNotFound | ErrIPVersion | ErrIPv6Disabled | ErrReject | ErrOther (n : nat).
(** @go tunnel/tunnel.go:754-768 ShouldStopRetry *)
Definition ShouldStopRetry (err : DialErr) : bool := match err with ErrOther _ => false | _ => true end.

(** [dials i] is what the [i]-th call of [ft] gives, [waits i] whether the wait after
    it was not cancelled; the result with the number of calls made.
    @go tunnel/tunnel.go:770-791 retry *)
Fixpoint retry_loop {A} (dials : nat -> DialErr + A) (waits : nat -> bool) (i n : nat) (last : DialErr + A) : (DialErr + A) * nat :=
  match n with
  | O => (last, i)
  | S n =>
      match dials i with
      | inr t => (inr t, S i)
      | inl err => if ShouldStopRetry err then (inl err, S i) else if waits i then retry_loop dials waits (S i) n (inl err) else (inl err, S i)
      end
  end.
Definition retry {A} (dials : nat -> DialErr + A) (waits : nat -> bool) (zero : A) : (DialErr + A) * nat := retry_loop dials waits 0 10 (inr zero).
