(* ===== verification/TunnelProps.v ===== *)
(** * The tunnel: every connection gets its proxy

    The choice of a proxy ends, whatever the rules, groups and rematch proxies, as
    long as groups and rule sets do not contain themselves.  Once the host is
    resolved and the process known, the choice is that of [decides]: the first rule
    whose target can take the connection, a rematch proxy starting over with the
    metadata it has changed, a rematch proxy met twice ending the search. *)

From S2P Require Import Prelude Names Netip Metadata DomainTrie Hosts Ranges Wildcard Rules.
From S2P Require Import RuleParse RuleParseProps RulesSem Tunnel.
#[local] Open Scope string_scope.
#[local] Open Scope Z_scope.
#[local] Open Scope list_scope.
#[local] Open Scope match_scope.

(** ** What the program guarantees of its proxies and rules *)

(** Rules of the top level are wrapped. *)
Definition top_rule (r : Rule) : Prop := exists id r', r = RRuleWrapper id r' /\ wf_rule r' = true.

(** [level] is the nesting of groups, below [L]; [rank] that of rule sets, up to
    [K]; [again] are the names of the rematch proxies. *)
Record accepted (T : TunnelEnv) (rank : string -> nat) (K : nat) (level : nat -> nat) (L : nat) (again : gset string) : Prop := {
  acc_databases : databases_answer (databases (rule_env T));
  acc_ranked : ranked (rule_env T) rank K;
  acc_subs : map_Forall (fun _ rules => Forall (fun r => wf_rule r = true) rules) (subRules (rule_env T));
  acc_acyclic : forall n, Acc (fun x y => jumps (subRules (rule_env T)) y x) n;
  acc_rules : Forall top_rule (tunnel_rules T);
  acc_nesting : forall p m q, px_Unwrap (proxy_at T p) m = Some q -> (level q < level p)%nat;
  acc_level : forall p, (level p < L)%nat;
  acc_again : forall p, px_Type (proxy_at T p) = AT_Rematch -> px_Name (proxy_at T p) ∈ again;
  acc_dial : forall p, px_Type (proxy_at T p) = AT_Rematch -> exists l, px_DialContext (proxy_at T p) = rematch_DialContext l
}.

(** ** The choice ends *)

(** The chain holds different names of rematch proxies. *)
Lemma chain_room (again : gset string) chain name : name ∉ chain -> name ∈ again -> (size (again ∖ list_to_set (chain ++ [name])) < size (again ∖ list_to_set chain))%nat.
Proof. intros H1 H2. apply subset_size. split; [set_solver|]. intros H. apply (H1). specialize (H name). set_solver. Qed.

Section Returns.
Context (T : TunnelEnv) (rank : string -> nat) (K : nat) (level : nat -> nat) (L : nat) (again : gset string).
Context (HT : accepted T rank K level L again) (fuel : nat).
Context (Hrules : (size (subRules (rule_env T)) + 1 + K <= fuel)%nat) (Hlevel : (L < fuel)%nat).

Lemma adapter_walk_ends n m : forall smart a, (match a with Some p => S (S (level p)) | None => 1 end <= n)%nat -> is_Some (adapter_walk T n m smart a).
Proof.
  induction n as [|n IH]; intros smart [p|] Hn; [lia|lia| |by eexists]. cbn [adapter_walk].
  destruct (bool_decide (px_Type (proxy_at T p) = AT_Pass)); [by eexists|].
  destruct (bool_decide (px_Type (proxy_at T p) = AT_Rematch)); [by eexists|]. apply IH.
  destruct (px_Unwrap (proxy_at T p) m) as [q|] eqn:Hq; [|lia]. apply (acc_nesting _ _ _ _ _ _ HT) in Hq. lia.
Qed.
Lemma adapter_walk_fuel m smart p : is_Some (adapter_walk T fuel m smart (Some p)).
Proof. apply adapter_walk_ends. pose proof (acc_level _ _ _ _ _ _ HT p). lia. Qed.

Lemma pass_walk_ends n m : forall a, (match a with Some p => S (S (level p)) | None => 1 end <= n)%nat -> is_Some (pass_walk T n m a).
Proof.
  induction n as [|n IH]; intros [p|] Hn; [lia|lia| |by eexists]. cbn [pass_walk]. destruct (bool_decide _); [by eexists|]. apply IH.
  destruct (px_Unwrap (proxy_at T p) m) as [q|] eqn:Hq; [|lia]. apply (acc_nesting _ _ _ _ _ _ HT) in Hq. lia.
Qed.

(** A rule that the tunnel goes through, of the top level or of a named list. *)
Definition known_rule (r : Rule) : Prop := top_rule r \/ wf_rule r = true.

Lemma getRules_known m : Forall known_rule (getRules T m).
Proof.
  unfold getRules. destruct (subRules (rule_env T) !! md_SpecialRules m) as [rules|] eqn:E.
  - eapply Forall_impl; [exact (acc_subs _ _ _ _ _ _ HT _ _ E)|]. intros r Hr. by right.
  - eapply Forall_impl; [exact (acc_rules _ _ _ _ _ _ HT)|]. intros r Hr. by left.
Qed.

Lemma known_rule_returns h r : known_rule r -> returns (rule_Match (rule_env T) fuel r h).
Proof.
  destruct HT. intros [(id & r' & -> & Hw)|Hw]; [by eapply wrapped_returns|by eapply rule_returns].
Qed.

Lemma rules_loop_returns h rules : Forall known_rule rules -> returns (rules_loop T fuel h rules).
Proof.
  induction 1 as [|r rules Hr _ IH]; cbn [rules_loop]; [by returns_tac|]. apply bind_returns; [by apply known_rule_returns|]. intros x.
  destruct (fst x); [|done]. destruct (proxies T !! snd x) as [adapter|]; [|done]. apply bind_returns; [by returns_tac|]. intros _.
  apply bind_returns; [by returns_tac|]. intros m. destruct (adapter_walk_fuel m false adapter) as [w ->]. destruct w as [passed smart|p]; by returns_tac.
Qed.

Lemma rules_loop_rematch h rules st p r st' : rules_loop T fuel h rules st = Ok (RuleRematch p r) st' -> px_Type (proxy_at T p) = AT_Rematch.
Proof.
  assert (Hwalk : forall n m smart a q, adapter_walk T n m smart a = Some (WalkRematch q) -> px_Type (proxy_at T q) = AT_Rematch).
  { induction n as [|n IH]; intros m smart [a|] q; [done|done| |done]. cbn [adapter_walk]. destruct (bool_decide _); [done|].
    destruct (bool_decide (px_Type (proxy_at T a) = AT_Rematch)) eqn:E; [|apply IH]. intros [= <-]. by zify_bool. }
  revert st. induction rules as [|r0 rules IH]; intros st; cbn [rules_loop]; [done|]. unfold bind, get_md, modify_md.
  destruct (rule_Match (rule_env T) fuel r0 h st) as [[b a] st1| |]; [|done..]. cbn [fst snd]. destruct b; [|apply IH].
  destruct (proxies T !! a) as [adapter|]; [|apply IH]. destruct (adapter_walk _ _ _ _ _) as [[passed smart|q]|] eqn:E; [| |done].
  - destruct passed; [apply IH|]. destruct (_ && _); [apply IH|done].
  - intros [= <- <- <-]. by eapply Hwalk.
Qed.

Lemma match_loop_returns h turns : forall chain, (size (again ∖ list_to_set chain) < turns)%nat -> returns (match_loop T turns fuel h chain).
Proof.
  induction turns as [|turns IH]; intros chain Ht; [lia|]. intros st. cbn [match_loop]. unfold bind at 1, get_md at 1.
  destruct (rules_loop_returns h (getRules T (st_md st)) (getRules_known _) st) as (e & st1 & E1). unfold bind at 1. rewrite E1.
  destruct e as [adapter rule|p rule|]; [by do 2 eexists| |by do 2 eexists].
  destruct (existsb (String.eqb (px_Name (proxy_at T p))) chain) eqn:Hin; [by do 2 eexists|].
  pose proof (rules_loop_rematch _ _ _ _ _ _ E1) as Hp. unfold bind, get_md.
  destruct (px_DialContext (proxy_at T p) (st_md st1)) as [m err]. unfold modify_md. destruct err; [by do 2 eexists|].
  apply IH. eapply Nat.lt_le_trans; [apply chain_room|lia].
  - intros Hn%contains_str_iff. unfold contains_str in Hn. congruence.
  - by apply (acc_again _ _ _ _ _ _ HT).
Qed.
End Returns.


(** ** What is chosen *)

(** Nothing is left to find out: the host is resolved, given as an address or could
    not be resolved, and the process was looked up if rules may ask for it. *)
Definition settled (T : TunnelEnv) (st : MState) : Prop :=
  (resolved st = true \/ md_Host (st_md st) = "" \/ Resolved (st_md st) = true)
  /\ (findProcessMode T = FindProcessStrict -> attemptProcessLookup st = false).

(** Groups do not look at the notes of the databases and of the tunnel. *)
Definition unwrap_respects (T : TunnelEnv) : Prop := forall p, Proper (same_md ==> eq) (px_Unwrap (proxy_at T p)).

Lemma settled_same T st st' : same_state st st' -> settled T st -> settled T st'.
Proof.
  intros (Hm & Hr & Ha & _) [H1 H2]. unfold settled, Resolved in *. by rewrite <- Hr, <- Ha, <- Hm.
Qed.

Lemma settled_quiet T fuel st : settled T st -> quiet (tunnel_helper T fuel) st.
Proof.
  intros Hst. split.
  - intros f [= <-] st' Hs. destruct (settled_same _ _ _ Hs Hst) as [H _]. unfold tunnel_ResolveIP.
    destruct H as [->|[->| ->]]; [done|by rewrite andb_false_r|by rewrite andb_false_r].
  - intros f Hf st' Ha. destruct Hst as [_ Hst]. cbn in Hf. destruct (findProcessMode T) eqn:Em; try done.
    injection Hf as <-. unfold tunnel_FindProcess. by rewrite Ha, Hst.
Qed.

Section Walks.
Context (T : TunnelEnv) (Hunwrap : unwrap_respects T).

Lemma adapter_walk_same n : forall m m' smart a, same_md m m' -> adapter_walk T n m smart a = adapter_walk T n m' smart a.
Proof.
  induction n as [|n IH]; intros m m' smart a Hm; [done|]. cbn [adapter_walk]. destruct a as [p|]; [|done].
  repeat (destruct (bool_decide _); [done|]). rewrite (Hunwrap p m m' Hm). by apply IH.
Qed.
Lemma pass_walk_same n : forall m m' a, same_md m m' -> pass_walk T n m a = pass_walk T n m' a.
Proof.
  induction n as [|n IH]; intros m m' a Hm; [done|]. cbn [pass_walk]. destruct a as [p|]; [|done].
  destruct (bool_decide _); [done|]. rewrite (Hunwrap p m m' Hm). by apply IH.
Qed.
Lemma tunnel_check_respects fuel : check_respects (tunnel_helper T fuel).
Proof.
  intros f a [= <-] m m' Hm. unfold tunnel_CheckPassRule. destruct (proxies T !! a); [|done]. by rewrite (pass_walk_same _ m m' _ Hm).
Qed.
End Walks.

(** A connection is given to a proxy, or sent round again by one. *)
Inductive event := Use (adapter : nat) | Again (p : nat).

Section Choice.
Context (T : TunnelEnv) (fuel : nat) (off : gmap nat bool).

(** What a rule does: nothing if it does not hold, names no proxy, leads to a pass,
    or the proxy cannot carry UDP. *)
Definition rule_event (m : Metadata) (r : Rule) : option event :=
  a ← top_answer (rule_env T) (Some (tunnel_CheckPassRule T fuel)) fuel off m r;
  adapter ← proxies T !! a;
  match adapter_walk T fuel m false (Some adapter) with
  | Some (WalkRematch p) => Some (Again p)
  | Some (WalkDone passed _) =>
      if passed || (bool_decide (md_NetWork m = UDP) && negb (px_SupportUDP (proxy_at T adapter))) then None else Some (Use adapter)
  | None => None
  end.

Fixpoint first_event (m : Metadata) (rules : list Rule) : option (event * Rule) :=
  match rules with
  | [] => None
  | r :: rules => match rule_event m r with Some e => Some (e, r) | None => first_event m rules end
  end.

(** The outcome for a connection that the proxies in [chain] have sent round. *)
Inductive decides (chain : list string) (m : Metadata) : option nat * option Rule -> Prop :=
| decides_use a r : first_event m (getRules T m) = Some (Use a, r) -> decides chain m (Some a, Some r)
| decides_default : first_event m (getRules T m) = None -> decides chain m (proxies T !! "DIRECT", None)
| decides_cycle p r : first_event m (getRules T m) = Some (Again p, r) -> px_Name (proxy_at T p) ∈ chain ->
    decides chain m (Some p, Some r)
| decides_again p r l out : first_event m (getRules T m) = Some (Again p, r) -> px_Name (proxy_at T p) ∉ chain ->
    px_DialContext (proxy_at T p) = rematch_DialContext l ->
    decides (chain ++ [px_Name (proxy_at T p)]) (applyMetadata l m) out -> decides chain m out.

Context (Hunwrap : unwrap_respects T).

Lemma rule_event_same m m' r : same_md m m' -> rule_event m r = rule_event m' r.
Proof.
  intros Hm. unfold rule_event. rewrite (top_answer_same _ _ fuel off m m' r (tunnel_check_respects T Hunwrap fuel) Hm).
  destruct (top_answer _ _ _ _ _ _) as [a|]; [|done]. cbn. destruct (proxies T !! a) as [p|]; [|done]. cbn.
  rewrite (adapter_walk_same T Hunwrap fuel m m' _ _ Hm), (NetWork_proper _ _ Hm). done.
Qed.
Lemma first_event_same m m' rules : same_md m m' -> first_event m rules = first_event m' rules.
Proof. intros Hm. induction rules as [|r rules IH]; [done|]. cbn. by rewrite (rule_event_same m m' r Hm), IH. Qed.

Lemma applyMetadata_same l m m' : same_md m m' -> same_md (applyMetadata l m) (applyMetadata l m').
Proof.
  unfold same_md, applyMetadata. intros H. destruct (targetRematchName l) as [n|], (targetSubRule l) as [k|]; try done.
  - apply (f_equal (fun x => set_SpecialRules k (set_RematchName n x))) in H. by destruct m, m'.
  - apply (f_equal (set_RematchName n)) in H. by destruct m, m'.
  - apply (f_equal (set_SpecialRules k)) in H. by destruct m, m'.
Qed.

Lemma decides_same chain m out : decides chain m out -> forall m', same_md m m' -> decides chain m' out.
Proof.
  assert (Hg : forall m m', same_md m m' -> first_event m (getRules T m) = first_event m' (getRules T m')).
  { intros m1 m2 Hm. unfold getRules. rewrite (SpecialRules_proper _ _ Hm). by apply first_event_same. }
  induction 1 as [chain m a r H|chain m H|chain m p r H Hc|chain m p r l out H Hc Hd _ IH]; intros m' Hm; rewrite (Hg m m' Hm) in H.
  - by apply decides_use.
  - by apply decides_default.
  - by apply decides_cycle.
  - apply (decides_again chain m' p r l); [done..|]. by apply IH, applyMetadata_same.
Qed.
End Choice.

Definition end_of (o : option (event * Rule)) : rules_end :=
  match o with Some (Use a, r) => RuleChosen a r | Some (Again p, r) => RuleRematch p r | None => NoRule end.

Section Decides.
Context (T : TunnelEnv) (rank : string -> nat) (K : nat) (level : nat -> nat) (L : nat) (again : gset string).
Context (HT : accepted T rank K level L again) (fuel : nat) (Hunwrap : unwrap_respects T).
Context (Hrules : (size (subRules (rule_env T)) + 1 + K <= fuel)%nat) (Hlevel : (L < fuel)%nat).
Abbreviation h := (tunnel_helper T fuel).
Abbreviation db := (databases (rule_env T)).

Lemma known_rule_answers st r : known_rule r -> settled T st ->
  answers_opt (rule_env T) st (rule_Match (rule_env T) fuel r h)
    (top_answer (rule_env T) (Some (tunnel_CheckPassRule T fuel)) fuel (flags st) (st_md st) r).
Proof.
  intros Hr Hst. pose proof (settled_quiet T fuel st Hst) as Hq. pose proof (tunnel_check_respects T Hunwrap fuel) as Hc. destruct HT.
  destruct Hr as [(id & r' & -> & Hw)|Hw]; [by eapply top_rule_answers|by eapply listed_rule_answers].
Qed.

Lemma note_smart_same r m : same_md m (note_smart r m).
Proof. unfold note_smart. destruct (_ && _); [|done]. by destruct m. Qed.
Lemma smart_end_same (smart : bool) m : same_md m ((if smart then set_SmartBlock "normal" else set_SmartTarget "") m).
Proof. by destruct smart, m. Qed.
Lemma same_caches m m' : same_md m m' -> md_SrcGeoIP m = md_SrcGeoIP m' -> md_DstGeoIP m = md_DstGeoIP m' -> caches_ok db m -> caches_ok db m'.
Proof. intros Hm H1 H2. unfold caches_ok. by rewrite H1, H2, Hm. Qed.
Lemma note_smart_caches r m : caches_ok db m -> caches_ok db (note_smart r m).
Proof. apply same_caches; [apply note_smart_same|..]; unfold note_smart; destruct (_ && _); by destruct m. Qed.
Lemma smart_end_caches (smart : bool) m : caches_ok db m -> caches_ok db ((if smart then set_SmartBlock "normal" else set_SmartTarget "") m).
Proof. apply same_caches; [apply smart_end_same|..]; by destruct smart, m. Qed.

(** The loop over the rules finds the first that does anything. *)
Lemma rules_loop_event st rules : Forall known_rule rules -> settled T st -> forall st', same_state st st' -> caches_ok db (st_md st') ->
  exists st'', rules_loop T fuel h rules st' = Ok (end_of (first_event T fuel (flags st) (st_md st) rules)) st''
    /\ same_state st st'' /\ caches_ok db (st_md st'').
Proof.
  intros Hk Hst. induction Hk as [|r rules Hr _ IH]; intros st' Hs Hok; [by exists st'|]. cbn [rules_loop first_event].
  destruct (known_rule_answers st r Hr Hst st' Hs Hok) as (a & st1 & E1 & Ha & Hs1 & Hok1). unfold bind at 1. rewrite E1. cbn [fst snd].
  assert (Hs2 : same_state st st1) by (by etransitivity). unfold rule_event.
  destruct (top_answer _ _ _ _ _ _) as [b|]; cbn [mbind option_bind];
    [rewrite bool_decide_true in * by (by eexists)|rewrite bool_decide_false by (by intros [? [=]]); by apply IH].
  assert (Eb : a = b) by exact (Ha eq_refl). rewrite Eb. destruct (proxies T !! b) as [adapter|]; cbn [mbind option_bind]; [|by apply IH].
  unfold bind at 1 2, modify_md at 1, get_md. set (st2 := upd_md (note_smart r) st1).
  assert (Hs3 : same_state st st2) by (etransitivity; [exact Hs2|apply same_state_md, note_smart_same]).
  rewrite <- (adapter_walk_same T Hunwrap fuel _ _ false (Some adapter) (proj1 Hs3)).
  rewrite <- (NetWork_proper _ _ (proj1 Hs3)).
  destruct (adapter_walk_fuel T rank K level L again HT fuel Hrules Hlevel (st_md st) false adapter) as [w ->].
  assert (Hok2 : caches_ok db (st_md st2)) by (by apply note_smart_caches).
  destruct w as [passed smart|p]; [|by exists st2]. unfold bind, modify_md.
  assert (Hs4 : same_state st (upd_md (if smart then set_SmartBlock "normal" else set_SmartTarget "") st2)).
  { etransitivity; [exact Hs3|]. apply same_state_md, smart_end_same. }
  assert (Hok4 := smart_end_caches smart _ Hok2). destruct passed; cbn [orb]; [by apply IH|].
  destruct (_ && _); [by apply IH|]. by eexists.
Qed.

Lemma rematched_settled st m : settled T st -> md_Host m = md_Host (st_md st) -> md_DstIP m = md_DstIP (st_md st) -> settled T (upd_md (fun _ => m) st).
Proof. intros [H1 H2] Hh Hd. unfold settled, Resolved in *. cbn [st_md upd_md resolved attemptProcessLookup]. by rewrite Hh, Hd. Qed.
Lemma applyMetadata_keeps l m : md_Host (applyMetadata l m) = md_Host m /\ md_DstIP (applyMetadata l m) = md_DstIP m
  /\ md_SrcIP (applyMetadata l m) = md_SrcIP m /\ md_SrcGeoIP (applyMetadata l m) = md_SrcGeoIP m /\ md_DstGeoIP (applyMetadata l m) = md_DstGeoIP m.
Proof. unfold applyMetadata. destruct m, (targetRematchName l), (targetSubRule l); done. Qed.

Lemma match_loop_decides turns : forall chain st, (size (again ∖ list_to_set chain) < turns)%nat -> settled T st -> caches_ok db (st_md st) ->
  exists out st', match_loop T turns fuel h chain st = Ok out st' /\ decides T fuel (flags st) chain (st_md st) out.
Proof.
  induction turns as [|turns IH]; intros chain st Ht Hst Hok; [lia|]. cbn [match_loop]. unfold bind at 1, get_md at 1.
  destruct (rules_loop_event st (getRules T (st_md st)) (getRules_known T rank K level L again HT _) Hst st ltac:(done) Hok) as (st1 & E1 & Hs1 & Hok1).
  unfold bind at 1. rewrite E1. destruct (first_event _ _ _ _ _) as [[[a|p] r]|] eqn:Ef; cbn [end_of] in *.
  - do 2 eexists. split; [done|]. by apply decides_use.
  - pose proof (rules_loop_rematch _ _ _ _ _ _ _ _ E1) as Hp.
    destruct (existsb (String.eqb (px_Name (proxy_at T p))) chain) eqn:Hin.
    { do 2 eexists. split; [done|]. apply decides_cycle; [done|]. by apply contains_str_iff. }
    assert (Hnin : px_Name (proxy_at T p) ∉ chain). { intros Hn%contains_str_iff. unfold contains_str in Hn. congruence. }
    destruct (acc_dial _ _ _ _ _ _ HT p Hp) as [l Hl]. unfold bind, get_md, modify_md. rewrite Hl. cbn [rematch_DialContext].
    destruct (applyMetadata_keeps l (st_md st1)) as (K1 & K2 & K3 & K4 & K5).
    destruct (IH (chain ++ [px_Name (proxy_at T p)]) (upd_md (fun _ => applyMetadata l (st_md st1)) st1)) as (out & st' & E & Hd).
    + eapply Nat.lt_le_trans; [apply chain_room; [done|by apply (acc_again _ _ _ _ _ _ HT)]|lia].
    + apply rematched_settled; [by eapply settled_same|done..].
    + cbn [upd_md st_md]. destruct Hok1. unfold caches_ok. by rewrite K2, K3, K4, K5.
    + exists out, st'. split; [exact E|]. eapply (decides_again T fuel _ chain _ p r l); [done..|].
      destruct Hs1 as (Hm & _ & _ & Hfl). rewrite Hfl. eapply decides_same; [done|exact Hd|]. cbn. by apply applyMetadata_same.
  - do 2 eexists. split; [done|]. by apply decides_default.
Qed.
End Decides.

(** C15: Rules decide in order.
    For a connection that is settled from the start, the outcome is that of
    [decides]: in the list in force, rules that do not hold, name no proxy, lead to
    a pass or to a proxy without UDP for a UDP connection are skipped; the first
    other rule gives its proxy, or sends the connection round with the list and
    the name it sets; DIRECT takes what no rule does. *)
Theorem resolveMetadata_decides T rank K level L again fuel st node ok :
  accepted T rank K level L again -> unwrap_respects T ->
  (size (subRules (rule_env T)) + 1 + K <= fuel)%nat -> (L < fuel)%nat -> (size again < fuel)%nat ->
  md_SpecialProxy (st_md st) = "" -> tunnel_mode T = Rule_ ->
  hosts_Search fuel (DefaultHosts T) (systemHosts T) (md_Host (st_md st)) false = Some (node, ok) ->
  settled T (start_match T node ok st) -> caches_ok (databases (rule_env T)) (st_md (start_match T node ok st)) ->
  exists proxy rule st', resolveMetadata T fuel st = Ok (proxy, rule, false) st'
    /\ decides T fuel (flags (start_match T node ok st)) [] (st_md (start_match T node ok st)) (proxy, rule).
Proof.
  intros HT Hu Hr HL Ha Hs Hmode Hh Hst Hok. unfold resolveMetadata, bind at 1, get_md at 1. rewrite Hs. cbn [String.eqb negb].
  rewrite Hh, Hmode. unfold bind.
  destruct (match_loop_decides T rank K level L again HT fuel Hu Hr HL fuel [] (start_match T node ok st)) as ([proxy rule] & st' & E & Hd); [|done..|].
  - rewrite list_to_set_nil, difference_empty_L. lia.
  - exists proxy, rule, st'. by rewrite E.
Qed.

(** *** A tunnel with four proxies *)

Definition ex_rematch : Rematch := mkRematch "round" None (Some "s").
Definition ex_proxy (name : string) (tp : AdapterType) (udp : bool) : OutProxy := mkOutProxy name tp udp base_Unwrap (fun m => (m, false)).
Definition ex_proxy_at (p : nat) : OutProxy :=
  match p with 1%nat => rematch_proxy ex_rematch | 2%nat => ex_proxy "A" AT_Vless true | 3%nat => ex_proxy "B" AT_Http false | _ => ex_proxy "DIRECT" AT_Direct true end.
Definition ex_names : gset string := {["DIRECT"; "round"; "A"; "B"]}.
Definition round_subs : gmap string (list Rule) :=
  match parseSubRules ex_pe ex_names ∅ [("s", ["DOMAIN-SUFFIX,com,B"; "DOMAIN,b.com,round"; "MATCH,A"])] ["s"] with inr m => m | inl _ => ∅ end.
Definition round_lines : list string := ["DST-PORT,443,A"; "DOMAIN-KEYWORD,b,round"; "MATCH,DIRECT"].
Definition round_rules : list Rule := match parseRules ex_pe ex_names ∅ round_lines {["s"]} "rules" with inr l => l | inl _ => [] end.
Definition ex_tunnel : TunnelEnv :=
  mkTunnelEnv (mkRuleEnv ex_db ∅ round_subs 0) round_rules (list_to_map [("DIRECT", 0%nat); ("round", 1%nat); ("A", 2%nat); ("B", 3%nat)])
    ex_proxy_at Rule_ FindProcessOff false trie_New None (fun _ => 0) (fun _ => None) (fun _ _ _ => None) (fun _ => None) false (fun _ => false) (fun _ => None).
Definition ex_conn (net : NetWork) (host : string) : MState := ex_state (ex_md net host (mkAddr 32 16909060)).

Lemma ex_tunnel_accepted : accepted ex_tunnel (fun _ => 0%nat) 0 (fun _ => 0%nat) 1 {["round"]}.
Proof.
  split.
  - exact ex_db_answers.
  - intros name p Hp. cbn [ruleProviders rule_env ex_tunnel] in Hp. by rewrite lookup_empty in Hp.
  - apply (bool_decide_unpack _). vm_compute. done.
  - apply (verifySubRule_acyclic _ ["s"]); [|vm_compute; reflexivity]. intros n. change (subRules (rule_env ex_tunnel)) with round_subs.
    replace round_subs with (list_to_map (map (fun k => (k, default [] (round_subs !! k))) ["s"]) : gmap string (list Rule)) by (vm_compute; reflexivity).
    rewrite <- elem_of_dom, dom_list_to_map_L, elem_of_list_to_set. done.
  - assert (Hp : parseRules ex_pe ex_names ∅ round_lines {["s"]} "rules" = inr round_rules) by (vm_compute; reflexivity).
    exact (parseRules_loop_wf _ _ _ _ _ _ _ _ Hp).
  - intros [|[|[|[|p]]]] m q; done.
  - lia.
  - intros [|[|[|[|p]]]]; try done; intros _; by apply elem_of_singleton.
  - intros [|[|[|[|p]]]]; try done; intros _; by exists ex_rematch.
Qed.


(** A TCP connection to b.com is sent round and goes to B. *)
Lemma resolveMetadata_decides_witness : exists rule st', resolveMetadata ex_tunnel 5 (ex_conn TCP "b.com") = Ok (Some 3%nat, rule, false) st'
  /\ decides ex_tunnel 5 ∅ [] (ex_md TCP "b.com" (mkAddr 32 16909060)) (Some 3%nat, rule).
Proof.
  destruct (resolveMetadata_decides ex_tunnel (fun _ => 0%nat) 0 (fun _ => 0%nat) 1 {["round"]} 5 (ex_conn TCP "b.com") None false) as (proxy & rule & st' & E & Hd).
  - exact ex_tunnel_accepted.
  - by intros [|[|[|[|p]]]] m m' _.
  - vm_compute. lia.
  - lia.
  - rewrite size_singleton. lia.
  - reflexivity.
  - reflexivity.
  - vm_compute. reflexivity.
  - split; [right; right; reflexivity|done].
  - by split.
  - exists rule, st'. assert (E' := E). vm_compute in E'. assert (Hp : proxy = Some 3%nat) by congruence.
    rewrite <- Hp. split; [exact E|exact Hd].
Defined.

(** [RuleType.String] writes GeoIP: the test for "GEOIP" that is to keep country
    codes out of the smart target never says no. *)
Lemma note_smart_never_excludes r m :
  note_smart r m = if SmartRuleTypes (rule_RuleType r) then set_SmartTarget (RuleType_String (rule_RuleType r) ++ " [" ++ rule_Payload r ++ "]")%string m else m.
Proof. unfold note_smart. by destruct (rule_RuleType r). Qed.
