(* ===== verification/Enhancer.v ===== *)
(** * DNS with fake addresses

    Models [dns/enhancer.go] and [dns/middleware.go]: which names get fake
    addresses, what is remembered of real ones, and the chain of handlers that
    answers a query (hosts, fake addresses, mapping, resolver).  Messages are those
    of the package miekg/dns as far as the handlers look at them: one question, the
    answers; codes and flags of the header are left out.  The upstream resolver is
    an argument, and so are the hosts of [Hosts]. *)

From S2P Require Import Prelude Names Netip Lru FakeIp Metadata DomainTrie Hosts LruProps FakeIpProps Rules Tunnel.
#[local] Open Scope string_scope.
#[local] Open Scope Z_scope.

(** ** Messages *)

Inductive Qtype := TypeA | TypeAAAA | TypeCNAME | TypeSVCB | TypeHTTPS | TypeOther (n : Z).
#[export] Instance Qtype_eq_dec : EqDecision Qtype.
Proof. solve_decision. Defined.

Record Question := mkQuestion { q_Name : string; q_Qtype : Qtype; q_INET : bool }.
(** Records by type: name, time to live, data. *)
Inductive RR := RR_A (name : string) (ttl : Z) (a : list Z) | RR_AAAA (name : string) (ttl : Z) (aaaa : list Z)
              | RR_CNAME (name : string) (ttl : Z) (target : string) | RR_Other (name : string) (ttl : Z).
Record Msg := mkMsg { m_Question : Question; m_Answer : list RR }.

(** @go dns/util.go:112-114 isIPRequest *)
Definition isIPRequest (q : Question) : bool :=
  q_INET q && match q_Qtype q with TypeA | TypeAAAA | TypeCNAME => true | _ => false end.

(** @go dns/util.go:293-302 handleMsgWithEmptyAnswer *)
Definition handleMsgWithEmptyAnswer (r : Msg) : Msg := mkMsg (m_Question r) [].

(** @go dns/util.go:89-92 setMsgTTL *)
Definition setRRTTL (ttl : Z) (rr : RR) : RR :=
  match rr with RR_A n _ a => RR_A n ttl a | RR_AAAA n _ a => RR_AAAA n ttl a | RR_CNAME n _ t => RR_CNAME n ttl t | RR_Other n _ => RR_Other n ttl end.
Definition setMsgTTL (m : Msg) (ttl : Z) : Msg := mkMsg (m_Question m) (map (setRRTTL ttl) (m_Answer m)).

(** [strings.TrimRight(s, ".")]. *)
Definition trim_dots (s : string) : string := TrimRightFunc (Ascii.eqb ".") s.

(** @go dns/server.go:19-19 dnsDefaultTTL *)
Definition dnsDefaultTTL : Z := 600.

Section Enhancer.
Context {S : Type} `{FakeStore S}.

(** The cache of the mapping comes with its heap.
    @go dns/enhancer.go:12-21 ResolverEnhancer *)
Record ResolverEnhancer := mkEnhancer {
  ipv6 : bool; enh_mode : DNSMode;
  fakeIPPool : option (FakePool S); fakeIPPool6 : option (FakePool S);
  fakeIPSkipper : Skipper; fakeIPTTL : Z;
  mapping : option (LruCache Addr string * heap Addr string);
  useHosts : bool
}.
Definition set_pools (p p6 : option (FakePool S)) (h : ResolverEnhancer) : ResolverEnhancer :=
  mkEnhancer (ipv6 h) (enh_mode h) p p6 (fakeIPSkipper h) (fakeIPTTL h) (mapping h) (useHosts h).
Definition set_mapping (m : option (LruCache Addr string * heap Addr string)) (h : ResolverEnhancer) : ResolverEnhancer :=
  mkEnhancer (ipv6 h) (enh_mode h) (fakeIPPool h) (fakeIPPool6 h) (fakeIPSkipper h) (fakeIPTTL h) m (useHosts h).

(** ** The enhancer *)

(** @go dns/enhancer.go:23-25 ResolverEnhancer.FakeIPEnabled *)
Definition FakeIPEnabled (h : ResolverEnhancer) : bool := bool_decide (enh_mode h = DNSFakeIP).
(** @go dns/enhancer.go:27-29 ResolverEnhancer.MappingEnabled *)
Definition enh_MappingEnabled (h : ResolverEnhancer) : bool := bool_decide (enh_mode h = DNSFakeIP) || bool_decide (enh_mode h = DNSMapping).

Definition in_pool (f : FakePool S -> bool) (o : option (FakePool S)) : bool := match o with Some p => f p | None => false end.

(** @go dns/enhancer.go:31-49 ResolverEnhancer.IsExistFakeIP *)
Definition IsExistFakeIP (h : ResolverEnhancer) (ip : Addr) : bool :=
  FakeIPEnabled h && (in_pool (pool_Exist ip) (fakeIPPool h) || in_pool (pool_Exist ip) (fakeIPPool6 h)).

(** @go dns/enhancer.go:51-69 ResolverEnhancer.IsFakeIP *)
Definition enh_IsFakeIP (h : ResolverEnhancer) (ip : Addr) : bool :=
  let own p := prefix_Contains (ipnet p) ip && negb (bool_decide (ip = gateway p)) && negb (bool_decide (ip = last p)) in
  FakeIPEnabled h && (in_pool own (fakeIPPool h) || in_pool own (fakeIPPool6 h)).

(** @go dns/enhancer.go:71-89 ResolverEnhancer.IsFakeBroadcastIP *)
Definition IsFakeBroadcastIP (h : ResolverEnhancer) (ip : Addr) : bool :=
  let own p := bool_decide (last p = ip) in
  FakeIPEnabled h && (in_pool own (fakeIPPool h) || in_pool own (fakeIPPool6 h)).

(** A pool's answer, and the pool after it. *)
Definition pool_LookBack (ip : Addr) (o : option (FakePool S)) : option string * option (FakePool S) :=
  match o with None => (None, None) | Some p => let '(r, p) := LookBack ip p in (r, Some p) end.

(** [now] is the clock of the mapping, in seconds.
    @go dns/enhancer.go:91-111 ResolverEnhancer.FindHostByIP *)
Definition enh_FindHostByIP (now : nat -> Z) (ip : Addr) (h : ResolverEnhancer) : option string * ResolverEnhancer :=
  let '(r, p) := pool_LookBack ip (fakeIPPool h) in
  let h := set_pools p (fakeIPPool6 h) h in
  match r with
  | Some host => (Some host, h)
  | None =>
      let '(r, p6) := pool_LookBack ip (fakeIPPool6 h) in
      let h := set_pools (fakeIPPool h) p6 h in
      match r with
      | Some host => (Some host, h)
      | None =>
          match mapping h with
          | None => (None, h)
          | Some (c, hp) => let '(o, c, hp) := Get now ip c hp in (o, set_mapping (Some (c, hp)) h)
          end
      end
  end.

(** @go dns/enhancer.go:113-117 ResolverEnhancer.InsertHostByIP *)
Definition InsertHostByIP (now : nat -> Z) (ip : Addr) (host : string) (h : ResolverEnhancer) : ResolverEnhancer :=
  match mapping h with None => h | Some (c, hp) => set_mapping (Some (Set_ now ip host c hp)) h end.

Definition pool_Flush (o : option (FakePool S)) : bool * option (FakePool S) :=
  match o with None => (false, None) | Some p => let '(e, p) := FlushFakeIP p in (e, Some p) end.
(** Whether a pool failed to flush; both are tried.
    @go dns/enhancer.go:119-135 ResolverEnhancer.FlushFakeIP *)
Definition enh_FlushFakeIP (h : ResolverEnhancer) : bool * ResolverEnhancer :=
  let '(e, p) := pool_Flush (fakeIPPool h) in
  let '(e6, p6) := pool_Flush (fakeIPPool6 h) in
  (e || e6, set_pools p p6 h).

Definition pool_patch (p o : option (FakePool S)) : option (FakePool S) :=
  match p, o with Some p, Some o => Some (CloneFrom p o) | p, _ => p end.
(** The entries of the mapping are shared with the old one, whose heap they keep.
    @go dns/enhancer.go:137-149 ResolverEnhancer.PatchFrom *)
Definition PatchFrom (o h : ResolverEnhancer) : ResolverEnhancer :=
  let h := match mapping h, mapping o with
           | Some (n, _), Some (c, hp) => set_mapping (Some (CloneTo hp c n, hp)) h
           | _, _ => h
           end in
  set_pools (pool_patch (fakeIPPool h) (fakeIPPool o)) (pool_patch (fakeIPPool6 h) (fakeIPPool6 o)) h.

(** @go dns/enhancer.go:151-159 ResolverEnhancer.StoreFakePoolState *)
Definition StoreFakePoolState (h : ResolverEnhancer) : ResolverEnhancer :=
  set_pools (StoreState <$> fakeIPPool h) (StoreState <$> fakeIPPool6 h) h.

(** @go dns/enhancer.go:161-169 EnhancerConfig *)
Record EnhancerConfig := mkEnhancerConfig {
  cfg_IPv6 : bool; EnhancedMode : DNSMode; cfg_FakeIPPool : option (FakePool S); cfg_FakeIPPool6 : option (FakePool S);
  cfg_FakeIPSkipper : Skipper; cfg_FakeIPTTL : Z; cfg_UseHosts : bool
}.
(** A skipper that is [nil] skips nothing that a handler asks it.
    @go dns/enhancer.go:171-192 NewEnhancer *)
Definition NewEnhancer (cfg : EnhancerConfig) : ResolverEnhancer :=
  if bool_decide (EnhancedMode cfg = DNSNormal)
  then mkEnhancer (cfg_IPv6 cfg) (EnhancedMode cfg) None None (mkSkipper [] [] false) 0 None (cfg_UseHosts cfg)
  else mkEnhancer (cfg_IPv6 cfg) (EnhancedMode cfg) (cfg_FakeIPPool cfg) (if cfg_IPv6 cfg then cfg_FakeIPPool6 cfg else None)
         (cfg_FakeIPSkipper cfg) (if cfg_FakeIPTTL cfg <? 1 then 1 else cfg_FakeIPTTL cfg)
         (Some (New 0 4096 false false false, mkHeap ∅ 0)) (cfg_UseHosts cfg).

(** ** Handlers *)

(** The answer, [None] being an error, and the enhancer after it; no result when
    the search of the hosts does not end. *)
Definition handler : Type := ResolverEnhancer -> Msg -> option (option Msg * ResolverEnhancer).

Section Handlers.
Context (now : Z) (hosts : HostTrie) (systemHosts : option (string -> list string)) (fuel : nat).
Context (ExchangeContext : Msg -> option Msg).

(** A pair for the mapping that is forgotten after [ttl] seconds. *)
Definition map_for (ttl : Z) (ip : Addr) (host : string) (h : ResolverEnhancer) : ResolverEnhancer :=
  match mapping h with
  | None => h
  | Some (c, hp) => set_mapping (Some (SetWithExpire now ip host (now + ttl) c hp)) h
  end.

(** @go dns/middleware.go:33-38 withHosts *)
Definition handleCName (q : Question) (resp : Msg) (domain : string) : Msg :=
  mkMsg (m_Question resp) (RR_CNAME (q_Name q) 10 (domain ++ ".") :: m_Answer resp).

(** @go dns/middleware.go:57-78 withHosts *)
Fixpoint handleIPs (q : Question) (host : string) (IPs : list Addr) (h : ResolverEnhancer) (msg : Msg) : Msg * ResolverEnhancer :=
  match IPs with
  | [] => (msg, h)
  | ipAddr :: IPs =>
      if addr_Is4 ipAddr && bool_decide (q_Qtype q = TypeA) then
        handleIPs q host IPs (map_for 10 ipAddr host h) (mkMsg (m_Question msg) (m_Answer msg ++ [RR_A (q_Name q) 10 (addr_AsSlice ipAddr)]))
      else if addr_Is6 ipAddr && bool_decide (q_Qtype q = TypeAAAA) then
        handleIPs q host IPs (map_for 10 ipAddr host h) (mkMsg (m_Question msg) (m_Answer msg ++ [RR_AAAA (q_Name q) 10 (addr_AsSlice ipAddr)]))
      else handleIPs q host IPs h msg
  end.

(** @go dns/middleware.go:23-97 withHosts *)
Definition withHosts (next : handler) : handler := fun h r =>
  let q := m_Question r in
  if negb (isIPRequest q) then next h r
  else
    let host := trim_dots (q_Name q) in
    '(record, ok) ← hosts_Search fuel hosts systemHosts host (negb (bool_decide (q_Qtype q = TypeA)) && negb (bool_decide (q_Qtype q = TypeAAAA)));
    match (ok : bool), record with
    | true, Some record =>
        match q_Qtype q with
        | TypeA | TypeAAAA => let '(msg, h) := handleIPs q host (hv_IPs record) h r in Some (Some msg, h)
        | TypeCNAME => Some (Some (handleCName q r (hv_Domain record)), h)
        | _ => next h r
        end
    | _, Some record =>
        if hv_IsDomain record then
          '(resp, h) ← next h (mkMsg (mkQuestion (hv_Domain record ++ ".") (q_Qtype q) (q_INET q)) (m_Answer r));
          Some (match resp with Some resp => Some (handleCName q (mkMsg q (m_Answer resp)) (hv_Domain record)) | None => None end, h)
        else next h r
    | _, None => next h r
    end.

(** One answer of the upstream resolver.
    @go dns/middleware.go:115-143 withMapping *)
Definition map_answer (host : string) (h : ResolverEnhancer) (ans : RR) : ResolverEnhancer :=
  let note bytes ttl :=
    match AddrFromSlice bytes with
    | None => h
    | Some ip => if addr_IsGlobalUnicast ip then map_for (if ttl <? 1 then 1 else ttl) (addr_Unmap ip) host h else h
    end in
  match ans with RR_A _ ttl a => note a ttl | RR_AAAA _ ttl a => note a ttl | _ => h end.

(** @go dns/middleware.go:99-147 withMapping *)
Definition withMapping (next : handler) : handler := fun h r =>
  let q := m_Question r in
  if negb (isIPRequest q) then next h r
  else
    '(msg, h) ← next h r;
    match msg with
    | None => Some (None, h)
    | Some msg => Some (Some msg, fold_left (map_answer (trim_dots (q_Name q))) (m_Answer msg) h)
    end.

(** The answer with a fake address.
    @go dns/middleware.go:185-195 withFakeIP *)
Definition fake_answer (r : Msg) (rr : RR) (ttl : Z) : Msg := setMsgTTL (mkMsg (m_Question r) [rr]) (u32 ttl).

(** @go dns/middleware.go:149-197 withFakeIP *)
Definition withFakeIP (next : handler) : handler := fun h r =>
  let q := m_Question r in
  let host := trim_dots (q_Name q) in
  if ShouldSkipped (fakeIPSkipper h) host then next h r
  else
    match q_Qtype q with
    | TypeA =>
        match fakeIPPool h with
        | None => Some (Some (handleMsgWithEmptyAnswer r), h)
        | Some p => let '(ip, p) := Lookup host p in
                    Some (Some (fake_answer r (RR_A (q_Name q) dnsDefaultTTL (addr_AsSlice ip)) (fakeIPTTL h)), set_pools (Some p) (fakeIPPool6 h) h)
        end
    | TypeAAAA =>
        match fakeIPPool6 h with
        | None => Some (Some (handleMsgWithEmptyAnswer r), h)
        | Some p => let '(ip, p) := Lookup host p in
                    Some (Some (fake_answer r (RR_AAAA (q_Name q) dnsDefaultTTL (addr_AsSlice ip)) (fakeIPTTL h)), set_pools (fakeIPPool h) (Some p) h)
        end
    | TypeSVCB | TypeHTTPS => Some (Some (handleMsgWithEmptyAnswer r), h)
    | _ => next h r
    end.

(** @go dns/middleware.go:199-220 withResolver *)
Definition withResolver (v6 : bool) : handler := fun h r =>
  if negb v6 && bool_decide (q_Qtype (m_Question r) = TypeAAAA) then Some (Some (handleMsgWithEmptyAnswer r), h)
  else Some (ExchangeContext r, h).

(** @go dns/middleware.go:222-231 compose *)
Definition compose (middlewares : list (handler -> handler)) (endpoint : handler) : handler :=
  fold_right (fun middleware h => middleware h) endpoint middlewares.

(** The chain is made once, from the enhancer's settings.
    @go dns/middleware.go:233-249 newHandler *)
Definition newHandler (mapper : ResolverEnhancer) : handler :=
  compose ((if useHosts mapper then [withHosts] else [])
           ++ (if bool_decide (enh_mode mapper = DNSFakeIP) then [withFakeIP] else [])
           ++ (if bool_decide (enh_mode mapper <> DNSNormal) then [withMapping] else []))%list
          (withResolver (ipv6 mapper)).
End Handlers.
End Enhancer.
Arguments ResolverEnhancer S : clear implicits.

(** * DNS with fake addresses: what a client is told, the tunnel understands

    A query answered with a fake address, and a connection to that address, meet
    again at the name: the pool, the chain of handlers and the tunnel's first look
    at a connection are put together here.  A fake address nobody was told is
    refused, and what hosts answer is what the configuration says. *)


Section Fake.
Context {S : Type} `{FakeStoreLaws S}.

(** A pool whose addresses lie in its own network, apart from the gateway. *)
Definition own_pool (p : FakePool S) : Prop :=
  pool_ok p /\ forall i, in_range p i -> prefix_Contains (ipnet p) i = true /\ i <> gateway p.

(** The tunnel asks this enhancer. *)
Definition asks (T : TunnelEnv) (now : nat -> Z) (h : ResolverEnhancer S) : Prop :=
  MappingEnabled T = enh_MappingEnabled h /\ (forall ip, IsFakeIP T ip = enh_IsFakeIP h ip) /\ (forall ip, FindHostByIP T ip = (enh_FindHostByIP now ip h).1).

Lemma own_pool_fake p h i : fakeIPPool h = Some p -> enh_mode h = DNSFakeIP -> own_pool p -> in_range p i -> enh_IsFakeIP h i = true.
Proof.
  intros Hp Hm [_ Ho] Hi. destruct (Ho i Hi) as [H1 H2]. unfold enh_IsFakeIP, FakeIPEnabled. rewrite Hm, Hp. cbn [in_pool].
  assert (Hl : i <> last p) by (intros ->; destruct Hi as [_ Hi]; lia).
  by rewrite H1, (bool_decide_false (i = gateway p)), (bool_decide_false (i = last p)).
Qed.

Lemma Lookup_own host p : own_pool p -> let '(i, q) := Lookup host p in own_pool q /\ in_range q i /\ host_of (store_ q) i = Some (ToLower host).
Proof.
  intros [Hp Ho]. pose proof (Lookup_spec host p Hp) as Hl. destruct (Lookup host p) as [i q]. destruct Hl as (Hq & Hi & Hf & _).
  injection Hf as F1 F2 F3 F4. split; [|split; [by eapply Hq|done]]. split; [done|]. intros j Hj. rewrite F3, F4. apply Ho.
  unfold in_range in *. by rewrite <- F1, <- F2.
Qed.

(** What a connection without a name to a known fake address becomes. *)
Lemma preHandle_known T now fuel h p m host : asks T now h -> fakeIPPool h = Some p -> enh_mode h = DNSFakeIP -> own_pool p ->
  md_Host m = "" -> in_range p (md_DstIP m) -> (a_bits (first p) = 32 \/ a_bits (first p) = 128) -> host_of (store_ p) (md_DstIP m) = Some host ->
  preHandleMetadata T fuel m = Some (set_DNSMode DNSFakeIP (set_DstIP zeroAddr (set_DNSMode DNSMapping (set_Host host m))), false).
Proof.
  intros (A1 & A2 & A3) Hp Hm Hown Hh Hr Hb Hi. unfold preHandleMetadata, needLookupIP. rewrite A1, Hh.
  assert (Hv : addr_IsValid (md_DstIP m) = true).
  { unfold addr_IsValid. destruct Hr as [-> _]. by destruct Hb as [-> | ->]. }
  rewrite Hv. unfold enh_MappingEnabled. rewrite Hm. cbn [bool_decide andb orb String.eqb]. rewrite A3. unfold enh_FindHostByIP, pool_LookBack. rewrite Hp.
  unfold LookBack. destruct Hown as [Hok Ho]. destruct (law_GetByIP (store_ p) (md_DstIP m)) as (G & _ & _); [apply Hok|].
  destruct (GetByIP (md_DstIP m) (store_ p)) as [o s]. cbn [fst] in G. rewrite G, Hi. cbn -[enh_IsFakeIP].
  rewrite A2, (own_pool_fake p h _ Hp Hm (conj Hok Ho) Hr). done.
Qed.


(** A fake address that stands for no name, because its pool was flushed or it was
    never given, is refused: a TCP connection to it is dropped unless the sniffer
    finds a name in its data, a UDP packet always. *)
Lemma fake_record_missing T clock fuel status (h : ResolverEnhancer S) m :
  asks T clock h -> enh_IsFakeIP h (addr_Unmap (md_DstIP m)) = true -> (enh_FindHostByIP clock (addr_Unmap (md_DstIP m)) h).1 = None ->
  md_Host m = "" -> addr_IsValid (addr_Unmap (md_DstIP m)) = true -> isHandle status (md_Type m) = true ->
  tcp_accept T fuel status None m = Some Dropped /\ udp_accept T fuel status m = Some Dropped
  /\ forall sniff, tcp_accept T fuel status (Some sniff) m = Some match sniff (fixMetadata m) with Some m' => Proceed m' | None => Dropped end.
Proof.
  intros (A1 & A2 & A3) Hf Hn Hh Hv Hs. assert (Hfix : fixMetadata m = set_DstIP (addr_Unmap (md_DstIP m)) m).
  { unfold fixMetadata. destruct m; cbn in *. by rewrite Hh. }
  assert (Hpre : preHandleMetadata T fuel (fixMetadata m) = Some (fixMetadata m, true)).
  { rewrite Hfix. unfold preHandleMetadata, needLookupIP.
    assert (Hd : md_DstIP (set_DstIP (addr_Unmap (md_DstIP m)) m) = addr_Unmap (md_DstIP m)) by (by destruct m).
    assert (Hh' : md_Host (set_DstIP (addr_Unmap (md_DstIP m)) m) = "") by (by destruct m). rewrite Hd, Hh', Hv, A1, A3, Hn, A2, Hf.
    unfold enh_MappingEnabled. unfold enh_IsFakeIP, FakeIPEnabled in Hf. apply andb_true_iff in Hf as [-> _]. done. }
  assert (Hvalid : md_Valid m = true).
  { unfold md_Valid. rewrite Hh. cbn. unfold addr_IsValid, addr_Unmap in *. destruct (addr_Is4In6 (md_DstIP m)) eqn:E; [|done].
    unfold addr_Is4In6, addr_Is6 in E. apply andb_true_iff in E as [E _]. zify_bool. by rewrite E. }
  unfold tcp_accept, udp_accept. rewrite Hs, Hvalid, Hpre. cbn. split; [done|]. split; [done|]. intros sniff. by destruct (sniff (fixMetadata m)).
Qed.
End Fake.

(** *** An enhancer with the pool 198.18.0.0/29 *)

Definition ex_enhancer : ResolverEnhancer memoryStore :=
  NewEnhancer (mkEnhancerConfig false DNSFakeIP (Some demo_pool) None (mkSkipper [] [] false) 1 true).
Definition dns_tunnel (h : ResolverEnhancer memoryStore) : TunnelEnv :=
  mkTunnelEnv (mkRuleEnv (mkDatabases false (fun _ => None) (fun _ => None) (typeSing (fun _ => "")) UnsupportedASN (fun _ _ => false)) ∅ ∅ 0)
    [] ∅ (fun _ => mkOutProxy "DIRECT" AT_Direct true base_Unwrap (fun m => (m, false))) Rule_ FindProcessOff false trie_New None
    (fun _ => 0) (fun _ => None) (fun _ _ _ => None) (fun _ => None)
    (enh_MappingEnabled h) (enh_IsFakeIP h) (fun ip => (enh_FindHostByIP (fun _ => 0) ip h).1).
Definition ex_query : Msg := mkMsg (mkQuestion "Example.ORG." TypeA true) [].
Definition to_addr (ip : Addr) : Metadata := set_DstIP ip zeroMetadata.

Lemma dns_tunnel_asks h : asks (dns_tunnel h) (fun _ => 0) h.
Proof. done. Qed.

Lemma demo_own : own_pool demo_pool.
Proof.
  split; [exact demo_ok|]. intros i Hi.
  destruct (in_range_own demo_net demo_pool i) as (H1 & _ & H2); [|reflexivity|reflexivity|exact Hi|done].
  split; [by left|]. vm_compute. intuition congruence.
Qed.


Lemma fake_record_missing_witness :
  tcp_accept (dns_tunnel ex_enhancer) 1 Running None (to_addr (mkAddr 32 3323068421)) = Some Dropped.
Proof.
  destruct (fake_record_missing (dns_tunnel ex_enhancer) (fun _ => 0) 1 Running ex_enhancer (to_addr (mkAddr 32 3323068421))) as (H & _).
  - apply dns_tunnel_asks.
  - vm_compute. reflexivity.
  - vm_compute. reflexivity.
  - reflexivity.
  - reflexivity.
  - reflexivity.
  - exact H.
Defined.
