(* ===== verification/ProxyGroup.v ===== *)
(** * Proxies and proxy groups

    Models the health records of a proxy ([adapter/adapter.go]), the list of
    proxies a group chooses from ([adapter/outboundgroup/groupbase.go]) and the
    choice made by a [Selector], a [Fallback], a [URLTest] and a round-robin
    [LoadBalance].  A proxy is a pointer into a heap of proxies: a group keeps
    pointers to proxies whose health changes while it holds them.

    The regular expressions are those of a library, [MatchString]; a provider is
    what it reports at the time of the call. *)

From S2P Require Import Prelude Names.
#[local] Open Scope string_scope.
#[local] Open Scope Z_scope.

(** ** A proxy and its health *)

(** @go adapter/adapter.go:30-33 internalProxyState *)
Record internalProxyState := mkState { st_alive : bool; st_history : list Z }.

(** Of a [C.DelayHistory] only the delay is read here.
    @go adapter/adapter.go:35-40 Proxy *)
Record Proxy := mkProxy {
  p_name : string; p_type : string;
  p_alive : bool; p_history : list Z;
  p_extra : gmap string internalProxyState
}.

(** @go adapter/adapter.go:286-292 NewProxy *)
Definition NewProxy (name type : string) : Proxy := mkProxy name type true [] ∅.

(** @go adapter/adapter.go:48-54 Proxy.AliveForTestUrl *)
Definition AliveForTestUrl (p : Proxy) (url : string) : bool :=
  match p_extra p !! url with Some st => st_alive st | None => p_alive p end.

(** @go adapter/adapter.go:120-120 Proxy.LastDelayForTestUrl *)
Definition maxDelay : Z := 65535.

(** [Last] of an empty queue is a zero record.
    @go adapter/adapter.go:119-134 Proxy.LastDelayForTestUrl *)
Definition LastDelayForTestUrl (p : Proxy) (url : string) : Z :=
  let '(alive, delay) :=
    match p_extra p !! url with Some st => (st_alive st, default 0 (last (st_history st))) | None => (false, 0) end in
  if negb alive || (delay =? 0) then maxDelay else delay.

(** @go adapter/adapter.go:26-28 defaultHistoriesNum *)
Definition defaultHistoriesNum : Z := 10.

(** [Put], then [Pop] when the queue is too long.
    @go adapter/adapter.go:182-185 Proxy.URLTest *)
Definition put_history (q : list Z) (d : Z) : list Z :=
  let q := (q ++ [d])%list in if defaultHistoriesNum <? zlen q then tail q else q.

(** What a test leaves behind: [err] and [satisfied] are its outcome, and [t]
    the milliseconds it took, of which 16 bits are kept.
    @go adapter/adapter.go:172-205 Proxy.URLTest *)
Definition record_test (url : string) (err satisfied : bool) (t : Z) (p : Proxy) : Proxy :=
  let alive := negb err in
  let delay := if alive then u16 t else 0 in
  let st := default (mkState true []) (p_extra p !! url) in
  let delay' := if satisfied then delay else 0 in
  let alive' := alive && satisfied in
  mkProxy (p_name p) (p_type p) alive (put_history (p_history p) delay)
    (<[url := mkState alive' (put_history (st_history st) delay')]> (p_extra p)).

(** ** The proxies of a group *)

Definition ptr : Type := nat.

(** A provider as it answers now; [vt_compatible] for [P.Compatible]. *)
Record Provider := mkProvider { pd_version : Z; vt_compatible : bool; pd_proxies : list ptr }.

Section Groups.
Context (MatchString : string -> string -> bool) (H : ptr -> Proxy).

(** @go adapter/outboundgroup/groupbase.go:22-42 GroupBase *)
Record GroupBase := mkBase {
  filterRegs : list string; excludeFilterRegs : list string; excludeTypeArray : list string;
  emptyFallback : ptr; testTimeout : Z; maxFailedTimes : Z;
  providerVersions : list Z; providerProxies : list ptr;
  failedTimes : Z; failedTime : Z; failedTesting : bool
}.

Definition set_cache (g : GroupBase) (vs : list Z) (ps : list ptr) : GroupBase :=
  mkBase (filterRegs g) (excludeFilterRegs g) (excludeTypeArray g) (emptyFallback g) (testTimeout g) (maxFailedTimes g)
    vs ps (failedTimes g) (failedTime g) (failedTesting g).
Definition set_failed (g : GroupBase) (n t : Z) : GroupBase :=
  mkBase (filterRegs g) (excludeFilterRegs g) (excludeTypeArray g) (emptyFallback g) (testTimeout g) (maxFailedTimes g)
    (providerVersions g) (providerProxies g) n t (failedTesting g).

(** One filter over a list, skipping the names already taken.
    @go adapter/outboundgroup/groupbase.go:155-163 GroupBase.GetProxies *)
Fixpoint take_matching (reg : string) (ps : list ptr) (seen : list string) : list ptr * list string :=
  match ps with
  | [] => ([], seen)
  | p :: ps =>
      if MatchString reg (p_name (H p)) && negb (bool_decide (p_name (H p) ∈ seen))
      then let '(new, seen) := take_matching reg ps (p_name (H p) :: seen) in (p :: new, seen)
      else take_matching reg ps seen
  end.

(** The filters in turn, in their order.
    @go adapter/outboundgroup/groupbase.go:152-164 GroupBase.GetProxies *)
Fixpoint take_filters (regs : list string) (ps : list ptr) (seen : list string) : list ptr * list string :=
  match regs with
  | [] => ([], seen)
  | reg :: regs =>
      let '(new, seen) := take_matching reg ps seen in
      let '(rest, seen) := take_filters regs ps seen in (new ++ rest, seen)%list
  end.

(** The proxies that no filter took, each name once.
    @go adapter/outboundgroup/groupbase.go:186-192 GroupBase.GetProxies *)
Fixpoint take_rest (ps : list ptr) (seen : list string) : list ptr :=
  match ps with
  | [] => []
  | p :: ps =>
      if bool_decide (p_name (H p) ∈ seen) then take_rest ps seen
      else p :: take_rest ps (p_name (H p) :: seen)
  end.

(** The list made afresh.
    @go adapter/outboundgroup/groupbase.go:140-224 GroupBase.GetProxies *)
Definition fresh_proxies (g : GroupBase) (providers : list Provider) : list ptr :=
  let proxies :=
    match filterRegs g with
    | [] => concat (map pd_proxies providers)
    | regs => concat (map (fun pd => if vt_compatible pd then pd_proxies pd else (take_filters regs (pd_proxies pd) []).1) providers)
    end in
  let proxies :=
    if (1 <? zlen providers) && (1 <? zlen (filterRegs g)) then
      let '(new, seen) := take_filters (filterRegs g) proxies [] in (new ++ take_rest proxies seen)%list
    else proxies in
  let proxies := List.filter (fun p => negb (existsb (fun reg => MatchString reg (p_name (H p))) (excludeFilterRegs g))) proxies in
  List.filter (fun p => negb (existsb (EqualFold (p_type (H p))) (excludeTypeArray g))) proxies.

(** [providers] as they are after a touch.
    @go adapter/outboundgroup/groupbase.go:122-235 GroupBase.GetProxies *)
Definition GetProxies (providers : list Provider) (g : GroupBase) : list ptr * GroupBase :=
  let versions := map pd_version providers in
  if bool_decide (versions = providerVersions g) then (providerProxies g, g)
  else match fresh_proxies g providers with
       | [] => ([emptyFallback g], g)
       | proxies => (proxies, set_cache g versions proxies)
       end.

(** ** Choosing *)

(** The selection of a group that keeps a name, on its list of proxies.
    @go adapter/outboundgroup/selector.go:103-112 Selector.selectedProxy *)
Definition selectedProxy (selected : string) (proxies : list ptr) : go_result ptr :=
  match List.find (fun p => String.eqb (p_name (H p)) selected) proxies, proxies with
  | Some p, _ => Ret p
  | None, p :: _ => Ret p
  | None, [] => Panic
  end.

(** [true] is the error "proxy not exist".
    @go adapter/outboundgroup/selector.go:83-96 Selector.Set, Selector.ForceSet *)
Definition Selector_Set (name : string) (proxies : list ptr) (selected : string) : bool * string :=
  if existsb (fun p => String.eqb (p_name (H p)) name) proxies then (false, name) else (true, selected).
Definition Selector_ForceSet (name : string) (selected : string) : string := name.

(** The loop; the name kept may be dropped on the way.
    @go adapter/outboundgroup/fallback.go:107-121 Fallback.findAliveProxy *)
Fixpoint alive_loop (url : string) (ps : list ptr) (selected : string) : option ptr * string :=
  match ps with
  | [] => (None, selected)
  | p :: ps =>
      if String.eqb selected "" then
        if AliveForTestUrl (H p) url then (Some p, selected) else alive_loop url ps selected
      else if String.eqb (p_name (H p)) selected then
        if AliveForTestUrl (H p) url then (Some p, selected) else alive_loop url ps ""
      else alive_loop url ps selected
  end.

(** @go adapter/outboundgroup/fallback.go:105-124 Fallback.findAliveProxy *)
Definition findAliveProxy (url selected : string) (proxies : list ptr) : go_result (ptr * string) :=
  match alive_loop url proxies selected, proxies with
  | (Some p, selected), _ => Ret (p, selected)
  | (None, selected), p :: _ => Ret (p, selected)
  | (None, _), [] => Panic
  end.

(** The test [Set] may run is not part of the choice: [true] in the second
    place says that it runs on that proxy.
    @go adapter/outboundgroup/fallback.go:126-152 Fallback.Set, Fallback.ForceSet *)
Definition Fallback_Set (url name : string) (proxies : list ptr) (selected : string) : bool * option ptr * string :=
  match List.find (fun p => String.eqb (p_name (H p)) name) proxies with
  | None => (true, None, selected)
  | Some p => (false, if AliveForTestUrl (H p) url then None else Some p, name)
  end.

(** The proxy of the name kept, when one of that name is alive.
    @go adapter/outboundgroup/urltest.go:106-116 URLTest.fast *)
Definition fast_selected (url selected : string) (proxies : list ptr) : option ptr :=
  if String.eqb selected "" then None
  else List.find (fun p => AliveForTestUrl (H p) url && String.eqb (p_name (H p)) selected) proxies.

(** The least delay, over all proxies but the first, which the search starts
    from; and whether the node kept was met on the way.
    @go adapter/outboundgroup/urltest.go:118-137 URLTest.fast *)
Fixpoint fast_loop (url : string) (fastNode : option ptr) (ps : list ptr) (fast : ptr) (minDelay : Z) (notExist : bool) : ptr * bool :=
  match ps with
  | [] => (fast, notExist)
  | p :: ps =>
      let notExist :=
        match fastNode with Some n => if String.eqb (p_name (H p)) (p_name (H n)) then false else notExist | None => notExist end in
      if negb (AliveForTestUrl (H p) url) then fast_loop url fastNode ps fast minDelay notExist
      else let delay := LastDelayForTestUrl (H p) url in
           if delay <? minDelay then fast_loop url fastNode ps p delay notExist
           else fast_loop url fastNode ps fast minDelay notExist
  end.

(** The node chosen becomes [fastNode].
    @go adapter/outboundgroup/urltest.go:104-143 URLTest.fast *)
Definition choose_fast (url selected : string) (tolerance : Z) (fastNode : option ptr) (proxies : list ptr) : go_result ptr :=
  match fast_selected url selected proxies with
  | Some p => Ret p
  | None =>
      match proxies with
      | [] => Panic
      | p0 :: rest =>
          let '(fast, notExist) := fast_loop url fastNode rest p0 (LastDelayForTestUrl (H p0) url) true in
          Ret match fastNode with
              | None => fast
              | Some n =>
                  if notExist || negb (AliveForTestUrl (H n) url) ||
                     (u16 (LastDelayForTestUrl (H fast) url + tolerance) <? LastDelayForTestUrl (H n) url)
                  then fast else n
              end
      end
  end.

(** [idx] is the closure's variable.
    @go adapter/outboundgroup/loadbalance.go:129-156 strategyRoundRobin *)
Fixpoint rr_loop (url : string) (proxies : list ptr) (idx : nat) (fuel i : nat) : option (ptr * nat) :=
  match fuel with
  | O => None
  | S fuel =>
      match proxies !! ((idx + i) mod length proxies)%nat with
      | Some p => if AliveForTestUrl (H p) url then Some (p, S i) else rr_loop url proxies idx fuel (S i)
      | None => None
      end
  end.
Definition strategyRoundRobin (url : string) (proxies : list ptr) (touch : bool) (idx : nat) : go_result (ptr * nat) :=
  match proxies with
  | [] => Panic
  | p0 :: _ =>
      let '(p, i) := default (p0, length proxies) (rr_loop url proxies idx (length proxies) 0) in
      Ret (p, if touch then ((idx + i) mod length proxies)%nat else idx)
  end.

(** ** Failures of dials *)

(** The counting part of the goroutine [onDialFailed] starts; [true] asks for
    a health check.  [refused] is an error that says "connection refused".
    @go adapter/outboundgroup/groupbase.go:274-299 GroupBase.onDialFailed *)
Definition onDialFailed (now : Z) (refused : bool) (g : GroupBase) : bool * GroupBase :=
  if refused then (true, g)
  else
    let n := failedTimes g + 1 in
    if n =? 1 then (false, set_failed g n now)
    else if testTimeout g <? now - failedTime g then (false, set_failed g 0 (failedTime g))
    else (maxFailedTimes g <=? n, set_failed g n (failedTime g)).

(** @go adapter/outboundgroup/groupbase.go:323-327 GroupBase.onDialSuccess *)
Definition onDialSuccess (g : GroupBase) : GroupBase :=
  if failedTesting g then g else set_failed g 0 (failedTime g).
End Groups.

(** ** One call at a time *)

(** A call is its number; [Res] a result with the time it was made.
    @go common/singledo/singledo.go:8-25 call, Single, Result *)
Record Single (T : Type) := mkSingle { s_wait : Z; s_call : option nat; s_result : option (T * Z); s_next : nat }.
Arguments mkSingle {T}. Arguments s_wait {T}. Arguments s_call {T}. Arguments s_result {T}. Arguments s_next {T}.

Section SingleDo.
Context {T : Type}.

(** @go common/singledo/singledo.go:28-46 Single.Do *)
Inductive do_begin := DoHit (v : T) | DoJoin (c : nat) | DoRun (c : nat).

(** Up to the call of [fn], under the lock.
    @go common/singledo/singledo.go:28-46 Single.Do *)
Definition Do_begin (now : Z) (s : Single T) : do_begin * Single T :=
  match s_result s with
  | Some (v, t) => if now - t <? s_wait s then (DoHit v, s) else
      match s_call s with
      | Some c => (DoJoin c, mkSingle (s_wait s) (Some c) None (s_next s))
      | None => (DoRun (s_next s), mkSingle (s_wait s) (Some (s_next s)) None (S (s_next s)))
      end
  | None =>
      match s_call s with
      | Some c => (DoJoin c, mkSingle (s_wait s) (Some c) None (s_next s))
      | None => (DoRun (s_next s), mkSingle (s_wait s) (Some (s_next s)) None (S (s_next s)))
      end
  end.

(** After [fn] has returned [v].
    @go common/singledo/singledo.go:50-55 Single.Do *)
Definition Do_end (now : Z) (c : nat) (v : T) (s : Single T) : Single T :=
  if bool_decide (s_call s = Some c) then mkSingle (s_wait s) None (Some (v, now)) (s_next s) else s.

(** @go common/singledo/singledo.go:59-64 Single.Reset *)
Definition Single_Reset (s : Single T) : Single T := mkSingle (s_wait s) None None (s_next s).

(** @go common/singledo/singledo.go:66-68 NewSingle *)
Definition NewSingle (wait : Z) : Single T := mkSingle wait None None 0.
End SingleDo.

(** * Proxy groups: correctness

    Which proxy each kind of group picks, what the list it picks from contains,
    and when failed dials make a group test its proxies. *)


Section Choice.
Context (H : ptr -> Proxy) (url : string).
Definition name (p : ptr) : string := p_name (H p).
Definition alive (p : ptr) : bool := AliveForTestUrl (H p) url.
Definition lastDelay (p : ptr) : Z := LastDelayForTestUrl (H p) url.

(** ** Fallback *)

Lemma alive_loop_free ps : alive_loop H url ps "" = (List.find alive ps, "").
Proof. induction ps as [|p ps IH]; [done|]. cbn. fold (alive p). by destruct (alive p). Qed.

Lemma alive_loop_other ps rest selected :
  selected <> "" -> Forall (fun p => name p <> selected) ps ->
  alive_loop H url (ps ++ rest) selected = alive_loop H url rest selected.
Proof.
  intros Hs. induction 1 as [|p ps Hp _ IH]; [done|]. cbn [app alive_loop]. fold (name p).
  destruct (String.eqb_spec selected ""); [done|]. by destruct (String.eqb_spec (name p) selected).
Qed.

(** What [Fallback] uses.  With nothing fixed it is the first proxy
    that is alive, and the first of the list when none is.  A fixed proxy is
    used while it is alive.  Once it is found dead it is no longer fixed, and
    this time the proxies behind it are tried, but not those before it.  When
    the list has no proxy of the fixed name, the first proxy is used, alive or
    not, and the name stays fixed. *)
Lemma findAliveProxy_choice p0 proxies selected :
  let first := fun o : option ptr => default p0 o in
  let all := p0 :: proxies in
  findAliveProxy H url "" all = Ret (first (List.find alive all), "") /\
  (selected <> "" -> Forall (fun p => name p <> selected) all ->
     findAliveProxy H url selected all = Ret (p0, selected)) /\
  (forall pre q post, selected <> "" -> all = (pre ++ q :: post)%list -> Forall (fun p => name p <> selected) pre ->
     name q = selected ->
     findAliveProxy H url selected all =
     Ret (if alive q then (q, selected) else (first (List.find alive post), ""))).
Proof.
  cbn zeta. unfold findAliveProxy. split_and!.
  - rewrite alive_loop_free. by destruct (List.find _ _).
  - intros Hs Hn. rewrite <- (app_nil_r (p0 :: proxies)) at 1. by rewrite (alive_loop_other _ [] selected Hs Hn).
  - intros pre q post Hs E Hpre Hq. rewrite E at 1. rewrite (alive_loop_other pre _ selected Hs Hpre). cbn [alive_loop].
    fold (name q) (alive q). destruct (String.eqb_spec selected ""); [done|]. rewrite Hq, String.eqb_refl.
    destruct (alive q); [done|]. rewrite alive_loop_free. by destruct (List.find _ _).
Qed.

(** ** URLTest *)

Lemma fast_loop_spec n ps : forall fast notExist,
  let '(r, ne) := fast_loop H url n ps fast (lastDelay fast) notExist in
  (r = fast \/ (r ∈ ps /\ alive r = true)) /\ lastDelay r <= lastDelay fast /\
  (forall p, p ∈ ps -> alive p = true -> lastDelay r <= lastDelay p) /\
  ne = notExist && negb (match n with Some n => existsb (fun p => String.eqb (name p) (name n)) ps | None => false end).
Proof.
  induction ps as [|p ps IH]; intros fast notExist; cbn [fast_loop].
  - split; [by left|]. split; [lia|]. split; [by intros ? ?%elem_of_nil|]. destruct n; by rewrite andb_true_r.
  - fold (alive p) (lastDelay p).
    set (ne := match n with Some m => if String.eqb _ _ then false else notExist | None => notExist end).
    assert (Ene : forall b, ne && negb b = notExist && negb (match n with Some m => String.eqb (name p) (name m) || b | None => false end)
      \/ n = None).
    { intros b. subst ne. destruct n as [m|]; [left|by right]. fold (name p) (name m). by destruct (String.eqb _ _), b, notExist. }
    assert (Hne : ne && negb (match n with Some n => existsb (fun p => String.eqb (name p) (name n)) ps | None => false end) =
      notExist && negb (match n with Some n => existsb (fun p => String.eqb (name p) (name n)) (p :: ps) | None => false end)).
    { destruct n as [m|]; [|done]. destruct (Ene (existsb (fun q => String.eqb (name q) (name m)) ps)) as [E|]; [exact E|done]. }
    destruct (alive p) eqn:Ha; cbn [negb].
    + destruct (lastDelay p <? lastDelay fast) eqn:Hd; zify_bool.
      * specialize (IH p ne). destruct (fast_loop _ _ _ _ _ _ _) as [r ne']. destruct IH as (I1 & I2 & I3 & ->).
        split; [right; destruct I1 as [->|[? ?]]; [by split; [left|]|by split; [right|]]|]. split; [lia|]. split; [|exact Hne].
        intros q [->|Hq]%elem_of_cons Hqa; [lia|by apply I3].
      * specialize (IH fast ne). destruct (fast_loop _ _ _ _ _ _ _) as [r ne']. destruct IH as (I1 & I2 & I3 & ->).
        split; [destruct I1 as [->|[? ?]]; [by left|right; by split; [right|]]|]. split; [lia|]. split; [|exact Hne].
        intros q [->|Hq]%elem_of_cons Hqa; [lia|by apply I3].
    + specialize (IH fast ne). destruct (fast_loop _ _ _ _ _ _ _) as [r ne']. destruct IH as (I1 & I2 & I3 & ->).
      split; [destruct I1 as [->|[? ?]]; [by left|right; by split; [right|]]|]. split; [lia|]. split; [|exact Hne].
      intros q [->|Hq]%elem_of_cons Hqa; [congruence|by apply I3].
Qed.

(** What [URLTest] uses.  An alive proxy of the fixed name comes
    first.  Otherwise take a proxy of least delay; the node in use is kept
    only when it is alive, some proxy other than the first of the list has its
    name, and its delay is at most the least delay plus the tolerance, a sum
    of 16 bits. *)
Lemma choose_fast_spec p0 rest selected tolerance n :
  match fast_selected H url selected (p0 :: rest) with
  | Some p => choose_fast H url selected tolerance n (p0 :: rest) = Ret p /\ alive p = true /\ name p = selected
  | None =>
      exists fast,
        (fast = p0 \/ (fast ∈ rest /\ alive fast = true)) /\
        (forall p, p = p0 \/ (p ∈ rest /\ alive p = true) -> lastDelay fast <= lastDelay p) /\
        choose_fast H url selected tolerance n (p0 :: rest) =
        Ret match n with
            | Some m =>
                if existsb (fun p => String.eqb (name p) (name m)) rest && alive m &&
                   (lastDelay m <=? u16 (lastDelay fast + tolerance)) then m else fast
            | None => fast
            end
  end.
Proof.
  unfold choose_fast. destruct (fast_selected H url selected (p0 :: rest)) as [p|] eqn:Es.
  - split; [done|]. unfold fast_selected in Es. destruct (String.eqb selected ""); [done|].
    apply find_some in Es as [_ Es]. apply andb_prop in Es as [? Es]. by apply String.eqb_eq in Es.
  - pose proof (fast_loop_spec n rest p0 true) as Hf. fold (lastDelay p0).
    destruct (fast_loop _ _ _ _ _ _ _) as [fast ne]. destruct Hf as (F1 & F2 & F3 & ->). exists fast. split; [done|].
    split; [intros p [->|[? ?]]; [done|by apply F3]|]. f_equal. destruct n as [m|]; [|done].
    fold (alive m) (lastDelay m) (lastDelay fast). rewrite Z.ltb_antisym.
    destruct (existsb _ rest), (alive m), (lastDelay m <=? _); done.
Qed.

(** ** Round robin *)

(** The [k]-th proxy from [idx] on, going round. *)
Definition at_turn (proxies : list ptr) (idx k : nat) : option ptr := proxies !! ((idx + k) mod length proxies)%nat.

Lemma rr_loop_spec proxies idx : (0 < length proxies)%nat -> forall fuel i,
  match rr_loop H url proxies idx fuel i with
  | Some (p, j) => exists k, j = S k /\ (i <= k < i + fuel)%nat /\ at_turn proxies idx k = Some p /\ alive p = true /\
      forall k' q, (i <= k' < k)%nat -> at_turn proxies idx k' = Some q -> alive q = false
  | None => forall k' q, (i <= k' < i + fuel)%nat -> at_turn proxies idx k' = Some q -> alive q = false
  end.
Proof.
  intros Hl. induction fuel as [|fuel IH]; intros i; cbn [rr_loop]; [intros; lia|].
  fold (at_turn proxies idx i). destruct (at_turn proxies idx i) as [p|] eqn:Ep.
  - fold (alive p). destruct (alive p) eqn:Ha.
    + exists i. split; [done|]. split; [lia|]. split; [done|]. split; [done|]. intros; lia.
    + specialize (IH (S i)). destruct (rr_loop _ _ _ _ _ _) as [[q j]|].
      * destruct IH as (k & -> & Hk & I1 & I2 & I3). exists k. split; [done|]. split; [lia|]. split; [done|]. split; [done|].
        intros k' r Hk' Hr. destruct (decide (k' = i)) as [->|]; [congruence|]. apply (I3 k' r); [lia|done].
      * intros k' r Hk' Hr. destruct (decide (k' = i)) as [->|]; [congruence|]. apply (IH k' r); [lia|done].
  - exfalso. unfold at_turn in Ep. apply lookup_ge_None in Ep. pose proof (Nat.mod_upper_bound (idx + i) (length proxies)). lia.
Qed.

Lemma turn_of proxies (idx i : nat) p : proxies !! i = Some p -> exists k, (k < length proxies)%nat /\ at_turn proxies idx k = Some p.
Proof.
  intros Hi. pose proof (lookup_lt_Some _ _ _ Hi) as Hl. set (n := length proxies) in *.
  pose proof (Nat.mod_upper_bound idx n ltac:(lia)) as Hm. exists ((i + (n - idx mod n)) mod n)%nat.
  split; [apply Nat.mod_upper_bound; lia|]. unfold at_turn. fold n. rewrite <- Hi. f_equal.
  rewrite <- (Nat.Div0.add_mod_idemp_l idx), Nat.Div0.add_mod_idemp_r.
  replace (idx mod n + (i + (n - idx mod n)))%nat with (i + 1 * n)%nat by lia. rewrite Nat.Div0.mod_add. by apply Nat.mod_small.
Qed.

(** Round robin picks the first alive proxy, going round from the
    index kept, and the first of the list only when none is alive.  A call
    that touches moves the index just past the proxy picked, and a call that
    does not leaves it where it is. *)
Lemma strategyRoundRobin_next proxies touch idx :
  match strategyRoundRobin H url proxies touch idx with
  | Panic => proxies = []
  | Ret (p, idx') =>
      (exists k, (k < length proxies)%nat /\ at_turn proxies idx k = Some p /\ alive p = true /\
         (forall k' q, (k' < k)%nat -> at_turn proxies idx k' = Some q -> alive q = false) /\
         idx' = if touch then ((idx + S k) mod length proxies)%nat else idx) \/
      (head proxies = Some p /\ Forall (fun q => alive q = false) proxies /\
         idx' = if touch then (idx mod length proxies)%nat else idx)
  end.
Proof.
  destruct proxies as [|p0 rest]; [done|]. unfold strategyRoundRobin. set (l := p0 :: rest).
  pose proof (rr_loop_spec l idx ltac:(cbn; lia) (length l) 0) as Hr. destruct (rr_loop _ _ _ _ _ _) as [[p j]|]; cbn [default].
  - left. destruct Hr as (k & -> & Hk & R1 & R2 & R3). exists k. split_and!; [lia|done|done| |done].
    intros k' q Hk' Hq. apply (R3 k' q); [lia|done].
  - right. split; [done|]. split.
    + apply Forall_lookup. intros i q Hi. destruct (turn_of l idx i q Hi) as (k & Hk & Hq). apply (Hr k q); [lia|done].
    + destruct touch; [|done]. change (default (p0, length l) None) with (p0, length l). cbn [snd].
      replace (idx + length l)%nat with (idx + 1 * length l)%nat by lia. by rewrite Nat.Div0.mod_add.
Qed.
End Choice.

(** ** The list of a group *)

Section Lists.
Context (MatchString : string -> string -> bool) (H : ptr -> Proxy).

Lemma take_matching_sound reg ps : forall seen p,
  p ∈ (take_matching MatchString H reg ps seen).1 -> p ∈ ps /\ MatchString reg (p_name (H p)) = true.
Proof.
  induction ps as [|q ps IH]; intros seen p; cbn [take_matching]; [by intros ?%elem_of_nil|].
  destruct (MatchString reg (p_name (H q))) eqn:Em; cbn [andb].
  - destruct (negb _).
    + specialize (IH (p_name (H q) :: seen) p). destruct (take_matching _ _ _ _ _) as [new s]. cbn [fst] in *.
      intros [->|Hp]%elem_of_cons; [by split; [left|]|]. destruct (IH Hp). by split; [right|].
    + intros Hp. destruct (IH seen p Hp). by split; [right|].
  - intros Hp. destruct (IH seen p Hp). by split; [right|].
Qed.

Lemma take_filters_sound regs ps : forall seen p,
  p ∈ (take_filters MatchString H regs ps seen).1 -> p ∈ ps /\ existsb (fun reg => MatchString reg (p_name (H p))) regs = true.
Proof.
  induction regs as [|reg regs IH]; intros seen p; cbn [take_filters]; [by intros ?%elem_of_nil|].
  pose proof (take_matching_sound reg ps seen p) as Hm. destruct (take_matching _ _ _ _ _) as [new s]. specialize (IH s p).
  destruct (take_filters _ _ _ _ _) as [rest s']. cbn [fst existsb] in *. intros [Hp|Hp]%elem_of_app.
  - destruct (Hm Hp) as [? E]. by rewrite E.
  - destruct (IH Hp) as [? E]. rewrite E. by rewrite orb_true_r.
Qed.

Lemma take_rest_sub ps : forall seen p, p ∈ take_rest H ps seen -> p ∈ ps.
Proof.
  induction ps as [|q ps IH]; intros seen p; cbn [take_rest]; [by intros ?%elem_of_nil|].
  case_bool_decide; [intros Hp; right; by eapply IH|]. intros [->|Hp]%elem_of_cons; [by left|]. right. by eapply IH.
Qed.

(** A proxy that a group may use, given its providers. *)
Definition admissible (g : GroupBase) (providers : list Provider) (p : ptr) : Prop :=
  (exists pd, pd ∈ providers /\ p ∈ pd_proxies pd /\
     (filterRegs g = [] \/ vt_compatible pd = true \/ existsb (fun reg => MatchString reg (p_name (H p))) (filterRegs g) = true)) /\
  existsb (fun reg => MatchString reg (p_name (H p))) (excludeFilterRegs g) = false /\
  existsb (EqualFold (p_type (H p))) (excludeTypeArray g) = false.

Lemma fresh_sound g providers p : p ∈ fresh_proxies MatchString H g providers -> admissible g providers p.
Proof.
  unfold fresh_proxies. cbn zeta. intros Hp. apply list_elem_of_In, filter_In in Hp as [Hp Ht]. apply filter_In in Hp as [Hp Hx].
  apply negb_true_iff in Ht, Hx. split; [|done]. apply list_elem_of_In in Hp.
  set (ps := match filterRegs g with [] => _ | _ => _ end) in Hp.
  assert (Hps : p ∈ ps).
  { destruct (_ && _); [|done]. pose proof (take_filters_sound (filterRegs g) ps [] p) as Hf.
    destruct (take_filters _ _ _ _ _) as [new s]. apply elem_of_app in Hp as [Hp|Hp]; [by destruct (Hf Hp)|by eapply take_rest_sub]. }
  clear Hp. subst ps. destruct (filterRegs g) as [|r regs].
  - apply list_elem_of_In, in_concat in Hps as (l & Hl & Hp). apply in_map_iff in Hl as (pd & <- & Hpd). exists pd.
    split; [by apply list_elem_of_In|]. split; [by apply list_elem_of_In|by left].
  - apply list_elem_of_In, in_concat in Hps as (l & Hl & Hp). apply in_map_iff in Hl as (pd & <- & Hpd). exists pd.
    split; [by apply list_elem_of_In|]. apply list_elem_of_In in Hp. destruct (vt_compatible pd).
    + split; [done|]. by right; left.
    + apply take_filters_sound in Hp as [? ?]. split; [done|]. by right; right.
Qed.

(** The list kept is that of the versions kept. *)
Definition cache_ok (world : list Z -> list Provider) (g : GroupBase) : Prop :=
  providerVersions g = [] \/
  (providerProxies g <> [] /\ Forall (admissible g (world (providerVersions g))) (providerProxies g)).

(** The list of a group that has a provider is never empty, so a
    group always has a proxy to use; every proxy on it comes from a provider
    of these versions, matches a filter unless there is none or its provider
    is the group's own list, and is excluded neither by name nor by type.
    When no proxy is left, the list is the empty fallback.  [world] says what
    the providers of given versions hold. *)
Lemma GetProxies_admissible world providers g :
  cache_ok world g -> providers <> [] -> world (map pd_version providers) = providers ->
  let '(proxies, g') := GetProxies MatchString H providers g in
  cache_ok world g' /\ proxies <> [] /\
  (Forall (admissible g providers) proxies \/ proxies = [emptyFallback g]).
Proof.
  intros Hc Hne Hw. unfold GetProxies. case_bool_decide as Ev.
  - split; [done|]. destruct Hc as [E|[H1 H2]]; [by rewrite E in Ev; destruct providers|]. split; [done|]. left.
    by rewrite <- Ev, Hw in H2.
  - destruct (fresh_proxies MatchString H g providers) as [|p ps] eqn:Ef; [by split_and!; [|done|right]|].
    assert (Hall : Forall (admissible g providers) (p :: ps)).
    { apply Forall_forall. intros q Hq. apply fresh_sound. by rewrite Ef. }
    split; [right; split; [done|]; cbn; by rewrite Hw|]. split; [done|by left].
Qed.
End Lists.

(** ** Failed dials *)

(** Failures one after another; the verdicts say which asked for a health
    check. *)
Fixpoint fail_run (times : list Z) (g : GroupBase) : list bool * GroupBase :=
  match times with
  | [] => ([], g)
  | t :: times => let '(b, g) := onDialFailed t false g in let '(bs, g) := fail_run times g in (b :: bs, g)
  end.

Lemma fail_run_counts t0 times : forall g n,
  failedTimes g = n -> 1 <= n -> failedTime g = t0 -> Forall (fun t => t - t0 <= testTimeout g) times ->
  (fail_run times g).1 = map (fun i => maxFailedTimes g <=? n + Z.of_nat i) (seq 1 (length times)) /\
  failedTimes (fail_run times g).2 = n + zlen times.
Proof.
  induction times as [|t times IH]; intros g n Hn Hpos Ht Hall; [cbn; unfold zlen; cbn; split; [done|lia]|].
  inversion_clear Hall as [|? ? Ht1 Hrest]. cbn [fail_run]. unfold onDialFailed. rewrite Hn, Ht.
  destruct (n + 1 =? 1) eqn:E; [zify_bool; lia|]. destruct (testTimeout g <? t - t0) eqn:E2; [zify_bool; lia|].
  specialize (IH (set_failed g (n + 1) t0) (n + 1) eq_refl ltac:(lia) eq_refl Hrest).
  destruct (fail_run times (set_failed g (n + 1) t0)) as [bs g']. cbn [fst snd] in *. destruct IH as [-> ->].
  cbn [length seq map maxFailedTimes set_failed]. split; [|unfold zlen; cbn [length]; lia]. f_equal.
  rewrite <- (seq_shift _ 1), map_map. apply map_ext. intros i. f_equal. lia.
Qed.

(** A run of failures within the test timeout of the first one asks for
    a health check at exactly those from the [maxFailedTimes]-th on, and never
    at the first, even when one is enough; a failure that comes after the
    timeout clears the count and is not counted itself. *)
Lemma failures_trigger g t0 times late :
  failedTimes g = 0 -> Forall (fun t => t - t0 <= testTimeout g) times -> times <> [] -> testTimeout g < late - t0 ->
  let '(bs, g') := fail_run (t0 :: times) g in
  bs = false :: map (fun i => maxFailedTimes g <=? Z.of_nat i) (seq 2 (length times)) /\
  onDialFailed late false g' = (false, set_failed g' 0 t0).
Proof.
  intros H0 Hall Hne Hlate. cbn [fail_run]. unfold onDialFailed at 1. rewrite H0. change (0 + 1 =? 1) with true. cbv iota.
  pose proof (fail_run_counts t0 times (set_failed g (0 + 1) t0) 1 eq_refl ltac:(lia) eq_refl Hall) as Hc.
  assert (Hk : forall ts g1, failedTimes g1 >= 1 -> failedTime g1 = t0 -> Forall (fun t => t - t0 <= testTimeout g1) ts ->
    failedTime (fail_run ts g1).2 = t0 /\ testTimeout (fail_run ts g1).2 = testTimeout g1).
  { clear. induction ts as [|t ts IH]; intros g1 H1 H2 H3; [done|]. inversion_clear H3 as [|? ? H4 H5]. cbn [fail_run]. unfold onDialFailed.
    destruct (_ =? 1) eqn:E; [zify_bool; lia|]. rewrite H2. destruct (_ <? _) eqn:E2; [zify_bool; lia|].
    specialize (IH (set_failed g1 (failedTimes g1 + 1) t0) ltac:(cbn; lia) eq_refl H5). destruct (fail_run ts _). exact IH. }
  specialize (Hk times (set_failed g (0 + 1) t0) ltac:(cbn; lia) eq_refl Hall).
  destruct (fail_run times _) as [bs g']. cbn [fst snd] in *. destruct Hc as [-> Hn]. destruct Hk as [Ht Hto].
  split.
  - f_equal. rewrite <- (seq_shift _ 1), map_map. apply map_ext. intros i. cbn [maxFailedTimes set_failed]. f_equal. lia.
  - unfold onDialFailed. rewrite Hn, Ht, Hto. cbn [testTimeout set_failed].
    assert (0 < zlen times) by (unfold zlen; destruct times; [done|cbn; lia]).
    destruct (1 + zlen times + 1 =? 1) eqn:E; [zify_bool; lia|]. destruct (testTimeout g <? late - t0) eqn:E2; [done|zify_bool; lia].
Qed.

(** ** Concrete groups *)

(** Proxies 0, 1, 2 with tested delays; a delay of 0 is a dead proxy. *)
Definition demo_heap (delays : list Z) (p : ptr) : Proxy :=
  let d := nth p delays 0 in
  record_test "u" (d =? 0) true d (NewProxy (nth p ["a"; "b"; "c"] "d") "Vless").

Example demo_delays : map (fun p => LastDelayForTestUrl (demo_heap [100; 90; 0] p) "u") [0; 1; 2]%nat = [100; 90; 65535].
Proof. vm_compute. reflexivity. Qed.

(** A fixed proxy found dead: the alive proxy before it is skipped, and the
    first one is used although it is dead. *)
Example fixed_dead_skips_alive :
  findAliveProxy (demo_heap [0; 90; 0]) "u" "c" [0; 1; 2]%nat = Ret (0%nat, "") /\
  findAliveProxy (demo_heap [0; 90; 0]) "u" "" [0; 1; 2]%nat = Ret (1%nat, "").
Proof. vm_compute. split; reflexivity. Qed.

(** A fixed name that is no longer listed: the first proxy is used for ever,
    dead or not. *)
Example fixed_gone_never_falls_back :
  findAliveProxy (demo_heap [0; 90; 80]) "u" "gone" [0; 1; 2]%nat = Ret (0%nat, "gone").
Proof. vm_compute. reflexivity. Qed.

(** The tolerance holds on to node [a] in the second list and not in the
    first, where it comes first. *)
Example tolerance_not_for_the_first :
  choose_fast (demo_heap [100; 90; 95]) "u" "" 50 (Some 0%nat) [0; 1; 2]%nat = Ret 1%nat /\
  choose_fast (demo_heap [100; 90; 95]) "u" "" 50 (Some 0%nat) [1; 0; 2]%nat = Ret 0%nat.
Proof. vm_compute. split; reflexivity. Qed.

(** A great tolerance is none: the sum wraps. *)
Example tolerance_wraps :
  choose_fast (demo_heap [95; 100; 90]) "u" "" 65535 (Some 1%nat) [0; 1; 2]%nat = Ret 2%nat.
Proof. vm_compute. reflexivity. Qed.

Definition demo_group : GroupBase := mkBase ["x"] [] [] 9%nat 5000 5 [] [] 0 0 false.
Definition demo_provider : Provider := mkProvider 1 false [0; 1; 2]%nat.
Definition demo_match (reg s : string) : bool := String.eqb s "b".

Lemma GetProxies_admissible_witness :
  let '(proxies, g') := GetProxies demo_match (demo_heap []) [demo_provider] demo_group in
  cache_ok demo_match (demo_heap []) (fun _ => [demo_provider]) g' /\ proxies <> [] /\
  (Forall (admissible demo_match (demo_heap []) demo_group [demo_provider]) proxies \/ proxies = [emptyFallback demo_group]).
Proof.
  pose proof (GetProxies_admissible demo_match (demo_heap []) (fun _ => [demo_provider]) [demo_provider] demo_group) as Hg.
  apply Hg; [by left|done|done].
Defined.

Lemma failures_trigger_witness :
  let '(bs, g') := fail_run [0; 10; 20; 30; 40] demo_group in
  bs = false :: map (fun i => maxFailedTimes demo_group <=? Z.of_nat i) (seq 2 (length [10; 20; 30; 40])) /\
  onDialFailed 6000 false g' = (false, set_failed g' 0 0).
Proof.
  pose proof (failures_trigger demo_group 0 [10; 20; 30; 40] 6000) as Hf.
  apply Hf; [reflexivity|repeat constructor; cbn; lia|discriminate|cbn; lia].
Defined.
