(* ===== verification/SniffTls.v ===== *)
(** * Sniffing TLS

    Models [component/sniffer/tls_sniffer.go]: reading the server name from a prefix of a
    ClientHello, and collecting the ClientHello from TLS records.  The bytes come from the
    network: reading outside of them is the result [Panic], which the theorems exclude.
    A prefix that is too short asks for a length ([Need]). *)

From S2P Require Import Prelude Names.
#[local] Open Scope list_scope.
#[local] Open Scope Z_scope.

(** ** Verdicts *)

Inductive SniffErr := ErrNoClue | errNotTLS | errNotClientHello | errNotHTTP | errHostIsIP | errNotQUIC | errNotQUICInitial | errQUICDecryptionFailed
  | ErrUnexpectedEOF | ErrShortBuffer | ErrorUnsupportedSniffer.
#[export] Instance SniffErr_eq_dec : EqDecision SniffErr.
Proof. solve_decision. Defined.

(** [Need] is the error [errNeedAtLeastData], which always wraps [ErrNoClue].
    @go component/sniffer/tls_sniffer.go:27-30 errNeedAtLeastData *)
Inductive Verdict (A : Type) := Found (a : A) | Need (length : Z) | Fails (e : SniffErr) | Panic.
Arguments Found {A} _.
Arguments Need {A} _.
Arguments Fails {A} _.
Arguments Panic {A}.

Definition v_bind {A B} (x : Verdict A) (f : A -> Verdict B) : Verdict B :=
  match x with Found a => f a | Need n => Need n | Fails e => Fails e | Panic => Panic end.
Declare Scope sniff_scope.
Delimit Scope sniff_scope with sniff.
Notation "x ← y ; z" := (v_bind y (fun x => z)) (at level 20, y at level 100, z at level 200, only parsing) : sniff_scope.
Notation "y ;; z" := (v_bind y (fun _ => z)) (at level 100, z at level 200, only parsing) : sniff_scope.
#[local] Open Scope sniff_scope.

(** [data[i]] and [data[i:j]]. *)
Definition byte_at (data : list Z) (i : Z) : Verdict Z :=
  if i <? 0 then Panic else match data !! Z.to_nat i with Some b => Found b | None => Panic end.
Definition slice_of (data : list Z) (i j : Z) : Verdict (list Z) :=
  if (0 <=? i) && (i <=? j) && (j <=? zlen data) then Found (ztake (j - i) (zdrop i data)) else Panic.
(** A big-endian 16-bit number. *)
Definition u16_at (data : list Z) (i : Z) : Verdict Z :=
  a ← byte_at data i; b ← byte_at data (i + 1); Found (Z.lor (Z.shiftl a 8) b).

Definition string_of (l : list Z) : string := fold_right (fun z s => String (ascii_of_nat (Z.to_nat z)) s) EmptyString l.

(** ** ClientHello *)

Definition tlsHandshakeHeaderLen : Z := 4.
Definition tlsRecordHeaderLen : Z := 5.
Definition tlsRecordTypeHandshake : Z := 22.
Definition tlsHandshakeTypeClientHello : Z := 1.
Definition tlsMaxPlaintext : Z := 2 ^ 14.

(** @go component/sniffer/tls_sniffer.go:229-239 clientHelloSize *)
Definition clientHelloSize (data : list Z) : Verdict Z :=
  if zlen data <? tlsHandshakeHeaderLen then Fails ErrNoClue
  else
    t ← byte_at data 0;
    if negb (t =? tlsHandshakeTypeClientHello) then Fails errNotClientHello
    else a ← byte_at data 1; b ← byte_at data 2; c ← byte_at data 3;
         Found (tlsHandshakeHeaderLen + Z.lor (Z.lor (Z.shiftl a 16) (Z.shiftl b 8)) c).

(** The closure [need] of a hello of this size.
    @go component/sniffer/tls_sniffer.go:98-106 ReadClientHello *)
Definition need (helloSize : Z) (data : list Z) (length : Z) : Verdict unit :=
  if helloSize <? length then Fails errNotClientHello
  else if zlen data <? length then Need length
  else Found tt.

(** The names of a server_name extension.  A name takes three bytes at least.
    @go component/sniffer/tls_sniffer.go:186-212 ReadClientHello *)
Fixpoint read_names (fuel : nat) (hs : Z) (data : list Z) (namesEnd offset : Z) : Verdict (option string * Z) :=
  match fuel with
  | O => Panic
  | S fuel =>
      if offset <? namesEnd then
        need hs data (offset + 3);;
        nameType ← byte_at data offset;
        nameLen ← u16_at data (offset + 1);
        let offset := offset + 3 in
        let nameEnd := offset + nameLen in
        if namesEnd <? nameEnd then Fails errNotClientHello
        else
          need hs data nameEnd;;
          if nameType =? 0 then
            name ← slice_of data offset nameEnd;
            let serverName := string_of name in
            if HasSuffix serverName "." then Fails errNotClientHello else Found (Some serverName, offset)
          else read_names fuel hs data namesEnd nameEnd
      else Found (None, offset)
  end.

(** The loop over the extensions.  An extension takes four bytes at least; [None] when
    there is no name in any.
    @go component/sniffer/tls_sniffer.go:161-226 ReadClientHello *)
Fixpoint read_extensions (fuel : nat) (hs : Z) (data : list Z) (extensionsEnd offset : Z) : Verdict string :=
  match fuel with
  | O => Panic
  | S fuel =>
      if offset <? extensionsEnd then
        need hs data (offset + 4);;
        extension ← u16_at data offset;
        length ← u16_at data (offset + 2);
        let offset := offset + 4 in
        let extensionEnd := offset + length in
        if extensionsEnd <? extensionEnd then Fails errNotClientHello
        else if extension =? 0 then
          if length <? 2 then Fails errNotClientHello
          else
            need hs data (offset + 2);;
            namesLen ← u16_at data offset;
            let offset := offset + 2 in
            let namesEnd := offset + namesLen in
            if negb (namesEnd =? extensionEnd) then Fails errNotClientHello
            else
              r ← read_names (S (Z.to_nat namesLen)) hs data namesEnd offset;
              match r with
              | (Some name, _) => Found name
              | (None, offset) => read_extensions fuel hs data extensionsEnd offset
              end
        else if extensionEnd =? extensionsEnd then Fails errNotTLS
        else need hs data extensionEnd;; read_extensions fuel hs data extensionsEnd extensionEnd
      else Fails errNotTLS
  end.

(** After the size is known and the data are cut to it.
    @go component/sniffer/tls_sniffer.go:108-226 ReadClientHello *)
Definition read_hello (hs : Z) (data : list Z) : Verdict string :=
  let offset := tlsHandshakeHeaderLen + 2 + 32 in
  need hs data (offset + 1);;
  sessionIDLen ← byte_at data offset;
  if 32 <? sessionIDLen then Fails errNotClientHello else
  let offset := offset + 1 in
  need hs data (offset + sessionIDLen);;
  let offset := offset + sessionIDLen in
  need hs data (offset + 2);;
  cipherSuiteLen ← u16_at data offset;
  if Z.odd cipherSuiteLen then Fails errNotClientHello else
  let offset := offset + 2 in
  need hs data (offset + cipherSuiteLen);;
  let offset := offset + cipherSuiteLen in
  need hs data (offset + 1);;
  compressionMethodsLen ← byte_at data offset;
  let offset := offset + 1 in
  need hs data (offset + compressionMethodsLen);;
  let offset := offset + compressionMethodsLen in
  if offset =? hs then Fails errNotClientHello else
  need hs data (offset + 2);;
  extensionsLength ← u16_at data offset;
  let offset := offset + 2 in
  let extensionsEnd := offset + extensionsLength in
  if negb (extensionsEnd =? hs) then Fails errNotClientHello
  else read_extensions (S (Z.to_nat extensionsLength)) hs data extensionsEnd offset.

(** @go component/sniffer/tls_sniffer.go:80-227 ReadClientHello *)
Definition ReadClientHello (data : list Z) : Verdict string :=
  match data with
  | [] => Need 1
  | t :: _ =>
      if negb (t =? tlsHandshakeTypeClientHello) then Fails errNotClientHello
      else if zlen data <? tlsHandshakeHeaderLen then Need tlsHandshakeHeaderLen
      else
        helloSize ← clientHelloSize data;
        read_hello helloSize (if helloSize <? zlen data then ztake helloSize data else data)
  end.

(** ** Records *)

(** @go component/sniffer/tls_sniffer.go:73-75 IsValidTLSVersion *)
Definition IsValidTLSVersion (major minor : Z) : bool := major =? 3.

(** One record at [wireOffset]: what the whole says, or the next offset and the hello so
    far.
    @go component/sniffer/tls_sniffer.go:246-303 SniffTLS *)
Definition tls_record (b : list Z) (wireOffset : Z) (clientHello : list Z) : Verdict (string + Z * list Z) :=
  if zlen b - wireOffset <? tlsRecordHeaderLen then Need (wireOffset + tlsRecordHeaderLen)
  else
    h0 ← byte_at b wireOffset; h1 ← byte_at b (wireOffset + 1); h2 ← byte_at b (wireOffset + 2);
    if negb (h0 =? tlsRecordTypeHandshake) || negb (IsValidTLSVersion h1 h2) then Fails errNotTLS
    else
      recordLen ← u16_at b (wireOffset + 3);
      if tlsMaxPlaintext <? recordLen then Fails errNotTLS
      else if recordLen =? 0 then Fails errNotClientHello
      else
        let payloadOffset := wireOffset + tlsRecordHeaderLen in
        let recordEnd := payloadOffset + recordLen in
        let payloadEnd := Z.max payloadOffset (Z.min recordEnd (zlen b)) in
        payload ← slice_of b payloadOffset payloadEnd;
        let clientHello := if wireOffset =? 0 then payload else clientHello ++ payload in
        match ReadClientHello clientHello with
        | Need n =>
            if payloadEnd <? recordEnd
            then Need (payloadEnd + Z.min (n - zlen clientHello) (recordEnd - payloadEnd))
            else Found (inr (recordEnd, clientHello))
        | Found name => Found (inl name)
        | Fails e => Fails e
        | Panic => Panic
        end.

(** A record takes six bytes at least.
    @go component/sniffer/tls_sniffer.go:241-305 SniffTLS *)
Fixpoint SniffTLS_loop (fuel : nat) (b : list Z) (wireOffset : Z) (clientHello : list Z) : Verdict string :=
  match fuel with
  | O => Panic
  | S fuel =>
      r ← tls_record b wireOffset clientHello;
      match r with
      | inl name => Found name
      | inr (wireOffset, clientHello) => SniffTLS_loop fuel b wireOffset clientHello
      end
  end.
Definition SniffTLS (b : list Z) : Verdict string := SniffTLS_loop (S (length b)) b 0 [].
(** @go component/sniffer/tls_sniffer.go:64-71 TLSSniffer.SniffData *)
Definition tls_SniffData (b : list Z) : Verdict string := SniffTLS b.
