(* ===== verification/SniffTlsProps.v ===== *)
(** * Sniffing TLS: theorems

    A reader of untrusted bytes is judged by what it says of a prefix: it never reads
    outside, it asks for more than it has, and once it has decided, more bytes do not
    change the decision.  [reads] says this of a reader at some data and is proved along
    the structure of the code. *)

From S2P Require Import Prelude Names SniffTls.
#[local] Open Scope list_scope.
#[local] Open Scope Z_scope.
#[local] Open Scope sniff_scope.

Definition bytes_ok (d : list Z) : Prop := Forall is_byte d.

Lemma lor_shiftl a b k : 0 <= k -> 0 <= b < 2 ^ k -> Z.lor (Z.shiftl a k) b = a * 2 ^ k + b.
Proof.
  intros Hk Hb. assert (E : Z.land (Z.shiftl a k) b = 0).
  { apply Z.bits_inj'. intros n Hn. rewrite Z.land_spec, Z.bits_0, Z.shiftl_spec by done. destruct (Z_lt_le_dec n k).
    - by rewrite Z.testbit_neg_r by lia.
    - apply andb_false_intro2, Z.testbit_false; [done|]. rewrite Z.div_small; [done|].
      split; [lia|]. assert (2 ^ k <= 2 ^ n) by (by apply Z.pow_le_mono_r). lia. }
  rewrite <- Z.shiftl_mul_pow2 by done. pose proof (Z.add_lor_land (Z.shiftl a k) b). lia.
Qed.

(** ** Readers *)

(** At the data [d] the reader does not panic; an answer satisfies [Q]; an answer or
    failure holds for all longer data; a request is for more than there is, at most for
    [lim], and stands until it is met. *)
Definition reads {A} (lim : Z) (d : list Z) (P : list Z -> Verdict A) (Q : A -> Prop) : Prop :=
  match P d with
  | Panic => False
  | Found a => Q a /\ forall e, P (d ++ e) = Found a
  | Fails x => forall e, P (d ++ e) = Fails x
  | Need n => zlen d < n <= lim /\ forall e, zlen (d ++ e) < n -> P (d ++ e) = Need n
  end.

Section Reads.
Context (lim : Z) (d : list Z) (Hd : bytes_ok d).

Lemma reads_found {A} (a : A) (Q : A -> Prop) : Q a -> reads lim d (fun _ => Found a) Q.
Proof. by split. Qed.
Lemma reads_fails {A} e (Q : A -> Prop) : reads lim d (fun _ => Fails e) Q.
Proof. done. Qed.
Lemma reads_bind {A B} (P : list Z -> Verdict A) (F : A -> list Z -> Verdict B) (Q : A -> Prop) (R : B -> Prop) :
  reads lim d P Q -> (forall a, Q a -> reads lim d (F a) R) -> reads lim d (fun x => v_bind (P x) (fun a => F a x)) R.
Proof.
  unfold reads at 1 3. destruct (P d) as [a|n|x|]; cbn; [intros [Ha He] HF|intros [Hn He] _|intros He _|done].
  - specialize (HF a Ha). unfold reads in HF. destruct (F a d); [destruct HF as [? HF]; split; [done|]|destruct HF as [? HF]; split; [done|]| |done];
      intros e'; rewrite He; cbn; [apply HF|intros Hl; by apply HF|apply HF].
  - split; [done|]. intros e Hl. by rewrite He.
  - intros e. by rewrite He.
Qed.
Lemma reads_if {A} (b : bool) (P P' : list Z -> Verdict A) Q : (b = true -> reads lim d P Q) -> (b = false -> reads lim d P' Q) ->
  reads lim d (fun x => if b then P x else P' x) Q.
Proof. destruct b; auto. Qed.
Lemma reads_mono {A} (P : list Z -> Verdict A) (Q R : A -> Prop) : reads lim d P Q -> (forall a, Q a -> R a) -> reads lim d P R.
Proof. unfold reads. destruct (P d); naive_solver. Qed.


Lemma reads_need hs n : hs <= lim -> reads lim d (fun x => need hs x n) (fun _ => n <= zlen d /\ n <= hs).
Proof.
  intros Hlim. unfold reads, need. destruct (hs <? n) eqn:E1; [done|]. apply Z.ltb_ge in E1. destruct (zlen d <? n) eqn:E2.
  - apply Z.ltb_lt in E2. split; [lia|]. intros e Hl. by rewrite (proj2 (Z.ltb_lt _ _) Hl).
  - apply Z.ltb_ge in E2. split; [done|]. intros e. rewrite zlen_app. rewrite (proj2 (Z.ltb_ge _ _)); [done|]. unfold zlen in *. lia.
Qed.

Lemma byte_at_lookup i : 0 <= i < zlen d -> exists b, d !! Z.to_nat i = Some b /\ is_byte b /\ forall e, byte_at (d ++ e) i = Found b.
Proof.
  intros Hi. destruct (lookup_lt_is_Some_2 d (Z.to_nat i)) as [b Hb]; [unfold zlen in Hi; lia|].
  exists b. split; [done|]. split; [apply (proj1 (Forall_lookup _ _) Hd _ _ Hb)|]. intros e. unfold byte_at.
  rewrite (proj2 (Z.ltb_ge _ _)) by lia. by rewrite (lookup_app_l_Some _ _ _ _ Hb).
Qed.
Lemma reads_byte i : 0 <= i < zlen d -> reads lim d (fun x => byte_at x i) is_byte.
Proof.
  intros Hi. destruct (byte_at_lookup i Hi) as (b & _ & Hb & He). unfold reads. pose proof (He []) as E. rewrite app_nil_r in E. by rewrite E.
Qed.
Lemma reads_u16 i : 0 <= i -> i + 2 <= zlen d -> reads lim d (fun x => u16_at x i) (fun v => 0 <= v < 65536).
Proof.
  intros H0 Hi. unfold u16_at. eapply reads_bind; [apply reads_byte; lia|]. intros a Ha. cbv beta.
  eapply reads_bind; [apply reads_byte; lia|]. intros b Hb. cbv beta. apply reads_found. unfold is_byte in *. rewrite lor_shiftl by lia. lia.
Qed.
Lemma reads_slice i j : 0 <= i <= j -> j <= zlen d -> reads lim d (fun x => slice_of x i j) (fun _ => True).
Proof.
  intros Hij Hj. unfold reads, slice_of. rewrite (proj2 (Z.leb_le _ _)), (proj2 (Z.leb_le i j)), (proj2 (Z.leb_le _ _) Hj) by lia. cbn.
  split; [done|]. intros e. rewrite zlen_app, (proj2 (Z.leb_le j _)) by (unfold zlen in *; lia).
  f_equal. unfold ztake, zdrop, zlen in *. rewrite drop_app_le by lia. rewrite take_app_le; [done|]. rewrite length_drop. lia.
Qed.

End Reads.

(** ** ClientHello *)

Ltac read_step :=
  lazymatch goal with
  | |- reads _ _ (fun _ => Fails _) _ => apply reads_fails
  | |- reads _ _ (fun _ => Found _) _ => apply reads_found
  | |- reads _ _ (fun x => if ?b then _ else _) _ => apply reads_if; intros ?
  | |- reads _ _ (fun x => v_bind (need _ _ _) _) _ => eapply reads_bind; [apply reads_need; lia|]; intros ? [? ?]; cbv beta zeta
  | |- reads _ _ (fun x => v_bind (byte_at _ _) _) _ => eapply reads_bind; [eapply reads_byte; [eassumption|lia]|]; intros ? ?; cbv beta zeta in *
  | |- reads _ _ (fun x => v_bind (u16_at _ _) _) _ => eapply reads_bind; [eapply reads_u16; [eassumption|lia..]|]; intros ? ?; cbv beta zeta in *
  | |- reads _ _ (fun x => v_bind (slice_of _ _ _) _) _ => eapply reads_bind; [apply reads_slice; lia|]; intros ? ?; cbv beta zeta in *
  end.
Ltac ltbs := repeat match goal with
  | H : (_ <? _) = true |- _ => apply Z.ltb_lt in H
  | H : (_ <? _) = false |- _ => apply Z.ltb_ge in H
  | H : (_ =? _) = true |- _ => apply Z.eqb_eq in H
  | H : (_ =? _) = false |- _ => apply Z.eqb_neq in H
  | H : negb _ = true |- _ => apply negb_true_iff in H
  | H : negb _ = false |- _ => apply negb_false_iff in H
  | H : is_byte _ |- _ => unfold is_byte in H
  end.

Section Hello.
Context (lim : Z) (d : list Z) (Hd : bytes_ok d).

Lemma reads_names hs ne fuel : hs <= lim -> forall offset, 0 <= offset <= ne -> ne - offset < Z.of_nat fuel ->
  reads lim d (fun x => read_names fuel hs x ne offset) (fun r => r.1 = None -> r.2 = ne).
Proof.
  intros Hlim. induction fuel as [|fuel IH]; intros offset Ho Hf; [lia|]. cbn [read_names].
  read_step; ltbs; [|apply reads_found; cbn; lia].
  do 3 read_step. read_step; [read_step|]. ltbs. read_step. read_step; ltbs; [|apply IH; lia].
  read_step. read_step; [read_step|]. by apply reads_found.
Qed.

Lemma reads_extensions hs ee fuel : hs <= lim -> forall offset, 0 <= offset <= ee -> ee - offset < Z.of_nat fuel ->
  reads lim d (fun x => read_extensions fuel hs x ee offset) (fun _ => True).
Proof.
  intros Hlim. induction fuel as [|fuel IH]; intros offset Ho Hf; [lia|]. cbn [read_extensions].
  read_step; ltbs; [|read_step]. do 3 read_step. read_step; [read_step|]. ltbs. read_step; ltbs.
  - read_step; [read_step|]. ltbs. do 2 read_step. read_step; [read_step|]. ltbs.
    eapply reads_bind; [apply reads_names; lia|]. intros [[name|] off] Hoff; [by apply reads_found|]. cbn in Hoff. rewrite (Hoff eq_refl). apply IH; lia.
  - read_step; [read_step|]. ltbs. read_step. apply IH; lia.
Qed.

Lemma reads_hello hs : hs <= lim -> reads lim d (fun x => read_hello hs x) (fun _ => True).
Proof.
  intros Hlim. unfold read_hello, tlsHandshakeHeaderLen. cbv zeta.
  do 2 read_step. read_step; [read_step|]. ltbs. do 3 read_step. read_step; [read_step|]. do 3 read_step. ltbs. do 1 read_step.
  read_step; [read_step|]. ltbs. do 2 read_step. read_step; [read_step|]. ltbs. apply reads_extensions; lia.
Qed.
End Hello.

Lemma ztake_app_ge n (d e : list Z) : n <= zlen d -> ztake n (d ++ e) = ztake n d.
Proof. intros Hn. unfold ztake, zlen in *. destruct (Z_le_gt_dec 0 n); [|by rewrite !Z2Nat.inj_neg || (replace (Z.to_nat n) with 0%nat by lia)]. apply take_app_le. lia. Qed.
Lemma ztake_app_lt n (d e : list Z) : zlen d <= n -> ztake n (d ++ e) = d ++ ztake (n - zlen d) e.
Proof. intros Hn. unfold ztake, zlen in *. rewrite take_app_ge by lia. f_equal. f_equal. lia. Qed.
Lemma zlen_ztake_le n (d : list Z) : 0 <= n <= zlen d -> zlen (ztake n d) = n.
Proof. intros Hn. unfold ztake, zlen in *. rewrite length_take. lia. Qed.

(** The whole hello is cut off at its end: what follows it does not count. *)
Definition cut (hs : Z) (d : list Z) : list Z := if hs <? zlen d then ztake hs d else d.
Lemma reads_cut {A} lim hs (d : list Z) (P : list Z -> Verdict A) : bytes_ok d -> 0 <= hs <= lim ->
  (forall d, bytes_ok d -> reads hs d P (fun _ => True)) -> reads lim d (fun x => P (cut hs x)) (fun _ => True).
Proof.
  intros Hd Hhs HP. assert (Hc : forall e, (zlen d <= hs /\ exists e', cut hs (d ++ e) = d ++ e' /\ (zlen (d ++ e) <= hs -> e' = e)) \/
    (hs < zlen d /\ cut hs (d ++ e) = ztake hs d)).
  { intros e. unfold cut. destruct (Z_le_gt_dec (zlen d) hs) as [Hle|Hgt]; [left|right].
    - split; [done|]. destruct (hs <? zlen (d ++ e)) eqn:E.
      + apply Z.ltb_lt in E. eexists. rewrite ztake_app_lt by done. split; [done|lia].
      + by exists e.
    - split; [lia|]. rewrite (proj2 (Z.ltb_lt _ _)) by (rewrite zlen_app; unfold zlen in *; lia). by apply ztake_app_ge; lia. }
  assert (E0 : cut hs d = if decide (zlen d <= hs) then d else ztake hs d).
  { unfold cut. destruct (hs <? zlen d) eqn:E; [apply Z.ltb_lt in E|apply Z.ltb_ge in E]; case_decide; done || lia. }
  unfold reads. rewrite E0. destruct (decide (zlen d <= hs)) as [Hle|Hgt].
  - pose proof (HP d Hd) as H. unfold reads in H. destruct (P d) as [a|n|x|] eqn:EP; [destruct H as [_ H]; split; [done|]|destruct H as [Hn H]; split; [lia|]| |done];
      intros e; destruct (Hc e) as [(_ & e' & -> & He)|[? _]]; try lia; try apply H.
    intros Hl. rewrite He by lia. by apply H.
  - assert (Ht : bytes_ok (ztake hs d)) by (by apply Forall_take). pose proof (HP _ Ht) as H. unfold reads in H.
    rewrite zlen_ztake_le in H by lia. destruct (P (ztake hs d)) as [a|n|x|] eqn:EP; [destruct H as [_ H]; split; [done|]|lia| |done];
      intros e; destruct (Hc e) as [[? _]|[_ ->]]; done || lia.
Qed.

(** The largest hello there is: its size has three bytes. *)
Definition max_hello : Z := 4 + 2 ^ 24.

Lemma reads_size d : bytes_ok d -> 4 <= zlen d -> reads max_hello d (fun x => clientHelloSize x) (fun hs => 4 <= hs < max_hello).
Proof.
  intros Hd Hl. unfold clientHelloSize, tlsHandshakeHeaderLen.
  assert (H : reads max_hello d (fun x => v_bind (byte_at x 0) (fun t => if negb (t =? tlsHandshakeTypeClientHello) then Fails errNotClientHello
    else v_bind (byte_at x 1) (fun a => v_bind (byte_at x 2) (fun b => v_bind (byte_at x 3) (fun c => Found (4 + Z.lor (Z.lor (Z.shiftl a 16) (Z.shiftl b 8)) c)))))) (fun hs => 4 <= hs < max_hello)).
  { read_step. read_step; [read_step|]. do 3 read_step. apply reads_found. unfold is_byte in *.
    assert (E : Z.lor (Z.lor (Z.shiftl a0 16) (Z.shiftl a1 8)) a2 = a0 * 65536 + a1 * 256 + a2); [|rewrite E; unfold max_hello; lia].
    rewrite <- Z.lor_assoc, (lor_shiftl a1 a2 8), lor_shiftl by lia. lia. }
  unfold reads in *. rewrite (proj2 (Z.ltb_ge _ _)) by lia. assert (He : forall e, (zlen (d ++ e) <? 4) = false).
  { intros e. apply Z.ltb_ge. rewrite zlen_app. unfold zlen in *. lia. }
  destruct (v_bind (byte_at d 0) _); [destruct H as [? H]; split; [done|]|destruct H as [? H]; split; [done|]| |done]; intros e'; rewrite He; apply H.
Qed.

(** Reading a ClientHello from any bytes never reads outside of them.  A prefix that is
    too short asks for more bytes than there are, of which every ClientHello has as many,
    and asks for the same until they are there; a name found, or a refusal, stands
    whatever bytes follow. *)
Lemma ReadClientHello_reads d : bytes_ok d -> reads max_hello d ReadClientHello (fun _ => True).
Proof.
  intros Hd. destruct d as [|t d0] eqn:Ed.
  { split; [unfold zlen, max_hello; cbn; lia|]. intros e He. destruct e; [done|]. unfold zlen in He. cbn in He. lia. }
  rewrite <- Ed in *. unfold reads. assert (EP : forall e, ReadClientHello (d ++ e) =
    if negb (t =? tlsHandshakeTypeClientHello) then Fails errNotClientHello
    else if zlen (d ++ e) <? 4 then Need 4 else v_bind (clientHelloSize (d ++ e)) (fun hs => read_hello hs (cut hs (d ++ e)))) by (by rewrite Ed).
  pose proof (EP []) as E0. rewrite !app_nil_r in E0. rewrite E0. destruct (negb _); [by intros e; rewrite EP|].
  destruct (zlen d <? 4) eqn:El.
  { apply Z.ltb_lt in El. split; [unfold max_hello; lia|]. intros e He. rewrite EP. by rewrite (proj2 (Z.ltb_lt _ _) He). }
  apply Z.ltb_ge in El. assert (He : forall e, (zlen (d ++ e) <? 4) = false).
  { intros e. apply Z.ltb_ge. rewrite zlen_app. unfold zlen in *. lia. }
  assert (H : reads max_hello d (fun x => v_bind (clientHelloSize x) (fun hs => read_hello hs (cut hs x))) (fun _ => True)).
  { eapply reads_bind; [by apply reads_size|]. intros hs Hhs. cbv beta in *.
    apply reads_cut; [done|lia|]. intros x Hx. apply reads_hello; [done|lia]. }
  unfold reads in H. destruct (v_bind (clientHelloSize d) _); [destruct H as [_ H]; split; [done|]|destruct H as [? H]; split; [done|]| |done];
    intros e'; rewrite EP, He; apply H.
Qed.

(** ** Well-formed hellos *)

Definition enc16 (n : Z) : list Z := [n / 256; n mod 256].
Definition enc24 (n : Z) : list Z := [n / 65536; n / 256 mod 256; n mod 256].

Record Hello := mkHello {
  hl_fixed : list Z;             (* version and random *)
  hl_session : list Z; hl_ciphers : list Z; hl_compression : list Z;
  hl_extensions : list (Z * list Z)
}.
Definition enc_extension (x : Z * list Z) : list Z := enc16 x.1 ++ enc16 (zlen x.2) ++ x.2.
Definition enc_extensions (l : list (Z * list Z)) : list Z := concat (map enc_extension l).
Definition enc_body (h : Hello) : list Z :=
  hl_fixed h ++ zlen (hl_session h) :: hl_session h ++ enc16 (zlen (hl_ciphers h)) ++ hl_ciphers h ++
  zlen (hl_compression h) :: hl_compression h ++ enc16 (zlen (enc_extensions (hl_extensions h))) ++ enc_extensions (hl_extensions h).
Definition enc_hello (h : Hello) : list Z := 1 :: enc24 (zlen (enc_body h)) ++ enc_body h.
(** The extension that names the server. *)
Definition sni (name : list Z) : Z * list Z := (0, enc16 (zlen name + 3) ++ 0 :: enc16 (zlen name) ++ name).

(** The lengths fit their fields. *)
Record hello_fits (h : Hello) : Prop := {
  hf_fixed : zlen (hl_fixed h) = 34;
  hf_session : zlen (hl_session h) <= 32;
  hf_ciphers : zlen (hl_ciphers h) < 65536 /\ Z.odd (zlen (hl_ciphers h)) = false;
  hf_compression : zlen (hl_compression h) < 256;
  hf_extensions : zlen (enc_extensions (hl_extensions h)) < 65536;
  hf_each : Forall (fun x => 0 <= x.1 < 65536 /\ zlen x.2 < 65536) (hl_extensions h)
}.

(** What is read where it was put. *)
Lemma byte_at_mid data A b B i : data = A ++ b :: B -> i = zlen A -> byte_at data i = Found b.
Proof.
  intros -> ->. unfold byte_at, zlen. rewrite (proj2 (Z.ltb_ge _ _)) by lia. rewrite Nat2Z.id.
  by rewrite list_lookup_middle.
Qed.
Lemma u16_at_mid data A v B i : data = A ++ enc16 v ++ B -> i = zlen A -> 0 <= v < 65536 -> u16_at data i = Found v.
Proof.
  intros E Hi Hv. unfold u16_at. rewrite (byte_at_mid data A (v / 256) (v mod 256 :: B) i E Hi). cbn [v_bind].
  rewrite (byte_at_mid data (A ++ [v / 256]) (v mod 256) B (i + 1)); [|by rewrite E, <- app_assoc|rewrite zlen_app; subst i; done].
  cbn [v_bind]. f_equal. pose proof (Z.mod_pos_bound v 256). pose proof (Z.div_mod v 256). rewrite lor_shiftl; change (2 ^ 8) with 256 in *; lia.
Qed.
Lemma slice_of_mid data A s B i j : data = A ++ s ++ B -> i = zlen A -> j = i + zlen s -> slice_of data i j = Found s.
Proof.
  intros -> -> ->. unfold slice_of.
  pose proof (zlen_nonneg A). pose proof (zlen_nonneg s). pose proof (zlen_nonneg B).
  rewrite (proj2 (Z.leb_le 0 (zlen A))), (proj2 (Z.leb_le (zlen A) _)), (proj2 (Z.leb_le _ (zlen (A ++ s ++ B)))) by (rewrite ?zlen_app; lia).
  cbn. f_equal. unfold ztake, zdrop, zlen. rewrite Nat2Z.id, drop_app_length. replace (Z.to_nat _) with (length s) by lia. apply take_app_length.
Qed.
Lemma need_ok hs data n : n <= hs -> n <= zlen data -> need hs data n = Found tt.
Proof. intros H1 H2. unfold need. by rewrite !(proj2 (Z.ltb_ge _ _)) by lia. Qed.

Lemma zlen_one {A} (x : A) : zlen [x] = 1.
Proof. done. Qed.
Lemma zlen_enc16 v : zlen (enc16 v) = 2.
Proof. done. Qed.
Lemma enc_extensions_cons x l : enc_extensions (x :: l) = enc16 x.1 ++ enc16 (zlen x.2) ++ x.2 ++ enc_extensions l.
Proof. change (enc_extensions (x :: l)) with (enc_extension x ++ enc_extensions l). unfold enc_extension. by rewrite <- !app_assoc. Qed.

(** The extensions before the name are skipped, and the name is read. *)
Lemma read_extensions_sni name post : 0 < zlen name + 1 -> HasSuffix (string_of name) "." = false ->
  zlen name + 5 < 65536 -> forall pre data A hs fuel,
  Forall (fun x => x.1 <> 0 /\ 0 <= x.1 < 65536 /\ zlen x.2 < 65536) pre ->
  data = A ++ enc_extensions (pre ++ sni name :: post) -> hs = zlen data -> hs - zlen A < Z.of_nat fuel ->
  read_extensions fuel hs data hs (zlen A) = Found (string_of name).
Proof.
  intros _ Hdot Hn. induction pre as [|[t body] pre IH]; intros data A hs fuel Hpre E Hhs Hf.
  - destruct fuel as [|fuel]; [pose proof (zlen_nonneg (enc_extensions ([] ++ sni name :: post))); rewrite Hhs, E, zlen_app in Hf; lia|].
    cbn [app] in E. rewrite enc_extensions_cons in E. cbn [sni fst snd] in E.
    assert (Hl : hs = zlen A + (2 + (2 + (2 + (1 + (2 + zlen name)) + zlen (enc_extensions post))))).
    { rewrite Hhs, E. rewrite !zlen_app, zlen_cons, zlen_app, !zlen_enc16. lia. }
    set (L := zlen (enc16 (zlen name + 3) ++ 0 :: enc16 (zlen name) ++ name)) in E.
    assert (EL : L = zlen name + 5) by (unfold L; rewrite zlen_app, zlen_cons, zlen_app, !zlen_enc16; lia). pose proof (zlen_nonneg name). pose proof (zlen_nonneg (enc_extensions post)). pose proof (zlen_nonneg A).
    cbn [read_extensions]. rewrite (proj2 (Z.ltb_lt _ _)) by lia. rewrite need_ok by lia. cbn [v_bind].
    rewrite (u16_at_mid data A 0 (enc16 L ++ (enc16 (zlen name + 3) ++ 0 :: enc16 (zlen name) ++ name) ++ enc_extensions post)) by (done || lia). cbn [v_bind].
    rewrite (u16_at_mid data (A ++ enc16 0) L ((enc16 (zlen name + 3) ++ 0 :: enc16 (zlen name) ++ name) ++ enc_extensions post));
      [|by rewrite E, <- !app_assoc|by rewrite zlen_app|lia]. cbn [v_bind].
    rewrite (proj2 (Z.ltb_ge _ _)) by lia. rewrite Z.eqb_refl, (proj2 (Z.ltb_ge _ _)) by lia. rewrite need_ok by lia. cbn [v_bind].
    rewrite (u16_at_mid data (A ++ enc16 0 ++ enc16 L) (zlen name + 3) ((0 :: enc16 (zlen name) ++ name) ++ enc_extensions post));
      [|by rewrite E, <- !app_assoc|rewrite !zlen_app, ?zlen_enc16, ?zlen_one; lia|lia]. cbn [v_bind].
    rewrite (proj2 (Z.eqb_eq _ _)) by lia. cbn [negb]. replace (Z.to_nat (zlen name + 3)) with (S (Z.to_nat (zlen name + 2))) by lia.
    cbn [read_names]. rewrite (proj2 (Z.ltb_lt _ _)) by lia. rewrite need_ok by lia. cbn [v_bind].
    rewrite (byte_at_mid data (A ++ enc16 0 ++ enc16 L ++ enc16 (zlen name + 3)) 0 ((enc16 (zlen name) ++ name) ++ enc_extensions post));
      [|by rewrite E, <- !app_assoc|rewrite !zlen_app, !zlen_enc16; lia]. cbn [v_bind].
    rewrite (u16_at_mid data (A ++ enc16 0 ++ enc16 L ++ enc16 (zlen name + 3) ++ [0]) (zlen name) (name ++ enc_extensions post));
      [|by rewrite E, <- !app_assoc|rewrite !zlen_app, ?zlen_enc16, ?zlen_one; lia|lia]. cbn [v_bind].
    rewrite (proj2 (Z.ltb_ge _ _)) by lia. rewrite need_ok by lia. cbn [v_bind]. rewrite Z.eqb_refl.
    rewrite (slice_of_mid data (A ++ enc16 0 ++ enc16 L ++ enc16 (zlen name + 3) ++ [0] ++ enc16 (zlen name)) name (enc_extensions post));
      [|by rewrite E, <- !app_assoc|rewrite !zlen_app, ?zlen_enc16, ?zlen_one; lia|lia]. cbn [v_bind].
    by rewrite Hdot.
  - inversion Hpre as [|? ? [Ht [Hr Hb]] Hpre']; subst x l. cbn [fst snd] in *.
    destruct fuel as [|fuel]; [pose proof (zlen_nonneg (enc_extensions (((t, body) :: pre) ++ sni name :: post))); rewrite Hhs, E, zlen_app in Hf; lia|].
    cbn [app] in E. rewrite enc_extensions_cons in E. cbn [fst snd] in E.
    set (R := enc_extensions (pre ++ sni name :: post)) in *.
    assert (HR : 5 <= zlen R).
    { unfold R, enc_extensions. rewrite map_app, concat_app, zlen_app. cbn [map concat]. rewrite zlen_app. unfold enc_extension at 2, sni. cbn [fst snd].
      rewrite !zlen_app, zlen_cons, !zlen_enc16. pose proof (zlen_nonneg (concat (map enc_extension pre))). pose proof (zlen_nonneg (concat (map enc_extension post))). pose proof (zlen_nonneg (enc16 (zlen name) ++ name)). lia. }
    assert (Hl : hs = zlen A + (2 + (2 + (zlen body + zlen R)))) by (rewrite Hhs, E, !zlen_app, !zlen_enc16; lia).
    pose proof (zlen_nonneg body). pose proof (zlen_nonneg A).
    cbn [read_extensions]. rewrite (proj2 (Z.ltb_lt _ _)) by lia. rewrite need_ok by lia. cbn [v_bind].
    rewrite (u16_at_mid data A t (enc16 (zlen body) ++ body ++ R)) by (done || lia). cbn [v_bind].
    rewrite (u16_at_mid data (A ++ enc16 t) (zlen body) (body ++ R)); [|by rewrite E, <- !app_assoc|by rewrite zlen_app|lia]. cbn [v_bind].
    rewrite (proj2 (Z.ltb_ge _ _)), (proj2 (Z.eqb_neq _ _) Ht), (proj2 (Z.eqb_neq _ _)) by lia. rewrite need_ok by lia. cbn [v_bind].
    specialize (IH data (A ++ enc16 t ++ enc16 (zlen body) ++ body) hs fuel Hpre').
    rewrite !zlen_app, !zlen_enc16 in IH. replace (zlen A + 4 + zlen body) with (zlen A + (2 + (2 + zlen body))) by lia.
    apply IH; [by rewrite E, <- !app_assoc|done|lia].
Qed.

Lemma zlen_enc_hello h : zlen (enc_hello h) = 4 + zlen (enc_body h).
Proof. unfold enc_hello. rewrite zlen_cons, zlen_app. change (zlen (enc24 _)) with 3. lia. Qed.
Lemma clientHelloSize_enc h : zlen (enc_body h) < 2 ^ 24 -> clientHelloSize (enc_hello h) = Found (4 + zlen (enc_body h)).
Proof.
  intros Hn. unfold clientHelloSize, tlsHandshakeHeaderLen. rewrite zlen_enc_hello. pose proof (zlen_nonneg (enc_body h)).
  rewrite (proj2 (Z.ltb_ge _ _)) by lia. unfold enc_hello, enc24. set (n := zlen (enc_body h)) in *.
  change (Found (4 + Z.lor (Z.lor (Z.shiftl (n / 65536) 16) (Z.shiftl (n / 256 mod 256) 8)) (n mod 256)) = Found (4 + n)).
  do 2 f_equal. rewrite <- Z.lor_assoc.
  assert (E2 : n / 65536 = n / 256 / 256) by (by rewrite Z.div_div). rewrite E2.
  rewrite (lor_shiftl (n / 256 mod 256) (n mod 256) 8), lor_shiftl; Z.to_euclidean_division_equations; lia.
Qed.

(** A well-formed hello is read through to its name. *)
Lemma ReadClientHello_sni h pre name post : hello_fits h -> hl_extensions h = pre ++ sni name :: post ->
  Forall (fun x => x.1 <> 0) pre -> HasSuffix (string_of name) "." = false -> ReadClientHello (enc_hello h) = Found (string_of name).
Proof.
  intros [Hfix Hses [Hci Hodd] Hco Hex Heach] E Hpre Hdot.
  assert (Hname : zlen name + 5 < 65536).
  { rewrite E in Heach. apply Forall_app in Heach as [_ Heach]. apply Forall_cons in Heach as [[_ Hb] _]. cbn [sni snd] in Hb.
    rewrite zlen_app, zlen_cons, zlen_app, !zlen_enc16 in Hb. lia. }
  assert (Hpre' : Forall (fun x => x.1 <> 0 /\ 0 <= x.1 < 65536 /\ zlen x.2 < 65536) pre).
  { rewrite E in Heach. apply Forall_app in Heach as [Heach _]. rewrite Forall_forall in *. naive_solver. }
  set (X := enc_extensions (hl_extensions h)) in *. set (s := hl_session h) in *. set (c := hl_ciphers h) in *. set (m := hl_compression h) in *.
  assert (Hlen : zlen (enc_body h) = 34 + (1 + (zlen s + (2 + (zlen c + (1 + (zlen m + (2 + zlen X)))))))).
  { unfold enc_body. fold X s c m. rewrite zlen_app, Hfix, zlen_cons, !zlen_app, zlen_cons, !zlen_app, !zlen_enc16. lia. }
  pose proof (zlen_nonneg s). pose proof (zlen_nonneg c). pose proof (zlen_nonneg m). pose proof (zlen_nonneg X).
  set (hs := 4 + zlen (enc_body h)). assert (Hhs : zlen (enc_hello h) = hs) by apply zlen_enc_hello.
  assert (Hsize : clientHelloSize (enc_hello h) = Found hs) by (apply clientHelloSize_enc; lia).
  unfold ReadClientHello. change (enc_hello h) with (1 :: enc24 (zlen (enc_body h)) ++ enc_body h) at 1. cbv iota. change (negb (1 =? tlsHandshakeTypeClientHello)) with false. cbv iota.
  rewrite Hsize. cbn [v_bind]. rewrite Hhs, Z.ltb_irrefl. unfold tlsHandshakeHeaderLen. rewrite (proj2 (Z.ltb_ge _ _)) by (unfold hs; lia).
  set (data := enc_hello h) in *.
  set (A := 1 :: enc24 (zlen (enc_body h)) ++ hl_fixed h). assert (HA : zlen A = 38).
  { unfold A. rewrite zlen_cons, zlen_app, Hfix. done. }
  assert (Ed : data = A ++ zlen s :: s ++ enc16 (zlen c) ++ c ++ zlen m :: m ++ enc16 (zlen X) ++ X).
  { unfold data, enc_hello, A, enc_body. fold X s c m. by rewrite <- app_comm_cons, <- app_assoc. }
  clearbody data A. unfold read_hello, tlsHandshakeHeaderLen. cbv zeta. change (4 + 2 + 32) with 38.
  rewrite need_ok by lia. cbn [v_bind]. rewrite (byte_at_mid data A _ _ _ Ed) by done. cbn [v_bind].
  rewrite (proj2 (Z.ltb_ge _ _)) by lia. rewrite need_ok by lia. cbn [v_bind]. rewrite need_ok by lia. cbn [v_bind].
  rewrite (u16_at_mid data (A ++ zlen s :: s) (zlen c) (c ++ zlen m :: m ++ enc16 (zlen X) ++ X)); [|by rewrite Ed, <- !app_assoc|rewrite zlen_app, zlen_cons; lia|lia]. cbn [v_bind].
  rewrite Hodd, need_ok by lia. cbn [v_bind]. rewrite need_ok by lia. cbn [v_bind].
  rewrite (byte_at_mid data (A ++ zlen s :: s ++ enc16 (zlen c) ++ c) (zlen m) (m ++ enc16 (zlen X) ++ X));
    [|rewrite Ed; repeat (rewrite <- app_assoc || rewrite <- app_comm_cons); done|rewrite zlen_app, zlen_cons, !zlen_app, zlen_enc16; lia]. cbn [v_bind].
  rewrite need_ok by lia. cbn [v_bind]. rewrite (proj2 (Z.eqb_neq _ _)) by lia. rewrite need_ok by lia. cbn [v_bind].
  rewrite (u16_at_mid data (A ++ zlen s :: s ++ enc16 (zlen c) ++ c ++ zlen m :: m) (zlen X) X);
    [|rewrite Ed; repeat (rewrite <- app_assoc || rewrite <- app_comm_cons); done|rewrite zlen_app, zlen_cons, !zlen_app, zlen_enc16, zlen_cons; lia|lia]. cbn [v_bind].
  replace (38 + 1 + zlen s + 2 + zlen c + 1 + zlen m + 2 + zlen X) with hs by lia. rewrite Z.eqb_refl. cbn [negb].
  replace (38 + 1 + zlen s + 2 + zlen c + 1 + zlen m + 2) with (zlen (A ++ zlen s :: s ++ enc16 (zlen c) ++ c ++ zlen m :: m ++ enc16 (zlen X)))
    by (rewrite zlen_app, zlen_cons, !zlen_app, zlen_cons, zlen_app, !zlen_enc16; lia).
  apply (read_extensions_sni name post ltac:(pose proof (zlen_nonneg name); lia) Hdot Hname pre);
    [done| |done|rewrite zlen_app, zlen_cons, !zlen_app, zlen_cons, zlen_app, !zlen_enc16; lia].
  rewrite <- E. fold X. rewrite Ed. repeat (rewrite <- app_assoc || rewrite <- app_comm_cons). done.
Qed.

(** ** Records *)

(** The state between records: the payload collected, and where the next record is. *)
Definition between (d : list Z) (st : Z * list Z) : Prop :=
  bytes_ok st.2 /\ 0 <= st.1 <= zlen d /\ st.1 <= 6 * zlen st.2 /\ zlen st.2 < max_hello.
(** No request goes beyond this. *)
Definition max_wire : Z := 6 * max_hello.

Lemma slice_of_app_l d e i j : 0 <= i <= j -> j <= zlen d -> slice_of (d ++ e) i j = slice_of d i j.
Proof.
  intros Hi Hj. pose proof (reads_slice 0 d i j Hi Hj) as H. unfold reads in H. destruct (slice_of d i j) eqn:E; try done.
  - by destruct H as [_ H].
  - destruct H as [? _]. unfold slice_of in E. by case_match.
Qed.
Lemma slice_of_end d i : 0 <= i <= zlen d -> slice_of d i (zlen d) = Found (zdrop i d).
Proof.
  intros Hi. unfold slice_of. rewrite !(proj2 (Z.leb_le _ _)) by lia. cbn. f_equal. unfold ztake, zdrop, zlen in *.
  rewrite take_ge; [done|]. rewrite length_drop. lia.
Qed.
Lemma zlen_zdrop_le {A} i (d : list A) : 0 <= i <= zlen d -> zlen (zdrop i d) = zlen d - i.
Proof. unfold zlen, zdrop. rewrite length_drop. lia. Qed.
Lemma zdrop_app_l {A} i (d e : list A) : 0 <= i <= zlen d -> zdrop i (d ++ e) = zdrop i d ++ e.
Proof. unfold zlen, zdrop. intros H. rewrite drop_app_le by lia. done. Qed.

Definition record_payload (w recordLen : Z) (ch b : list Z) : Verdict (string + Z * list Z) :=
  let payloadEnd := Z.max (w + 5) (Z.min (w + 5 + recordLen) (zlen b)) in
  payload ← slice_of b (w + 5) payloadEnd;
  let ch := if w =? 0 then payload else ch ++ payload in
  match ReadClientHello ch with
  | Need n => if payloadEnd <? w + 5 + recordLen then Need (payloadEnd + Z.min (n - zlen ch) (w + 5 + recordLen - payloadEnd)) else Found (inr (w + 5 + recordLen, ch))
  | Found name => Found (inl name)
  | Fails e => Fails e
  | Panic => Panic
  end.

(** The payload of a record of which the data hold a part. *)
Lemma slice_of_partial d e i j : 0 <= i <= zlen d -> zlen d <= j ->
  slice_of (d ++ e) i (Z.max i (Z.min j (zlen (d ++ e)))) = Found (zdrop i d ++ ztake (j - zlen d) e).
Proof.
  intros Hi Hj. pose proof (zlen_nonneg e). unfold slice_of. rewrite !zlen_app.
  rewrite !(proj2 (Z.leb_le _ _)) by lia. cbn. rewrite zdrop_app_l by done. f_equal. pose proof (zlen_zdrop_le i d Hi).
  rewrite ztake_app_lt by lia. f_equal. destruct (Z_le_gt_dec (zlen e) (j - zlen d)) as [Hle|Hgt].
  - unfold ztake, zlen in *. rewrite !take_ge; [done|lia..].
  - f_equal. lia.
Qed.

Lemma reads_payload d w recordLen ch : bytes_ok d -> bytes_ok ch -> 0 <= w -> w + 5 <= zlen d -> w <= 6 * zlen ch -> zlen ch < max_hello ->
  0 < recordLen -> reads max_wire d (record_payload w recordLen ch) (fun r => match r with inl _ => True | inr st => between d st /\ w + 6 <= st.1 end).
Proof.
  intros Hd Hch Hw Hwd Hwc Hcm Hr. set (c0 := if w =? 0 then [] else ch).
  assert (Hc0 : bytes_ok c0) by (unfold c0; case_match; [constructor|done]).
  assert (Hwc0 : w <= 6 * zlen c0 /\ zlen c0 < max_hello) by (unfold c0; destruct (w =? 0) eqn:E0; [apply Z.eqb_eq in E0; unfold zlen, max_hello; cbn; lia|done]).
  assert (Ec0 : forall p, (if w =? 0 then p else ch ++ p) = c0 ++ p) by (intros p; unfold c0; by case_match).
  assert (Hp : bytes_ok (zdrop (w + 5) d)) by (by apply Forall_drop). pose proof (zlen_zdrop_le (w + 5) d).
  unfold reads, record_payload. set (rE := w + 5 + recordLen) in *. destruct (Z_le_gt_dec rE (zlen d)) as [HA|HB].
  - assert (E1 : forall e, Z.max (w + 5) (Z.min rE (zlen (d ++ e))) = rE) by (intros e; rewrite zlen_app; pose proof (zlen_nonneg e); lia).
    pose proof (E1 []) as E1'. rewrite app_nil_r in E1'. rewrite E1', Z.ltb_irrefl.
    assert (E2 : slice_of d (w + 5) rE = Found (ztake (rE - (w + 5)) (zdrop (w + 5) d))) by (unfold slice_of; by rewrite !(proj2 (Z.leb_le _ _)) by lia).
    set (p := ztake _ _) in E2. assert (Hpl : zlen p = recordLen) by (unfold p; rewrite zlen_ztake_le; lia).
    rewrite E2. cbn [v_bind]. rewrite Ec0.
    assert (Hcp : bytes_ok (c0 ++ p)) by (apply Forall_app; split; [done|by apply Forall_take]).
    pose proof (ReadClientHello_reads _ Hcp) as HR. unfold reads in HR.
    destruct (ReadClientHello (c0 ++ p)) eqn:ER; [split; [done|]| | |done];
      try (intros e'; rewrite E1, slice_of_app_l, E2 by lia; cbn [v_bind]; rewrite Ec0, ER, ?Z.ltb_irrefl; done).
    split; [|intros e'; rewrite E1, slice_of_app_l, E2 by lia; cbn [v_bind]; rewrite Ec0, ER, ?Z.ltb_irrefl; done].
    unfold between. cbn [fst snd]. rewrite zlen_app in *. split; [|lia]. split; [done|]. lia.
  - assert (E1 : Z.max (w + 5) (Z.min rE (zlen d)) = zlen d) by lia. rewrite E1, slice_of_end by lia. cbn [v_bind]. rewrite Ec0.
    set (p := zdrop (w + 5) d) in *. rewrite (proj2 (Z.ltb_lt _ _)) by lia.
    assert (Hcp : bytes_ok (c0 ++ p)) by (apply Forall_app; by split).
    pose proof (ReadClientHello_reads _ Hcp) as HR. unfold reads in HR.
    destruct (ReadClientHello (c0 ++ p)) eqn:ER; [split; [done|]| | |done];
      try (intros e'; rewrite slice_of_partial by lia; cbn [v_bind]; rewrite Ec0; fold p; rewrite app_assoc; by rewrite (proj2 HR) || by rewrite HR).
    rewrite zlen_app in *. split; [unfold max_wire; lia|]. intros e' Hl. rewrite slice_of_partial by lia. cbn [v_bind]. rewrite Ec0. fold p. rewrite app_assoc.
    rewrite zlen_app in Hl |- *. assert (E3 : ztake (rE - zlen d) e' = e') by (unfold ztake, zlen in *; apply take_ge; lia). pose proof (zlen_nonneg e').
    rewrite E3, (proj2 HR) by (rewrite !zlen_app; lia). rewrite (proj2 (Z.ltb_lt _ _)) by lia. f_equal. rewrite !zlen_app. lia.
Qed.

Lemma reads_record d st : bytes_ok d -> between d st ->
  reads max_wire d (fun b => tls_record b st.1 st.2) (fun r => match r with inl _ => True | inr st' => between d st' /\ st.1 + 6 <= st'.1 end).
Proof.
  intros Hd (Hch & Hw & Hwc & Hcm). destruct st as [w ch]. cbn [fst snd] in *.
  assert (H : w + 5 <= zlen d -> reads max_wire d (fun b => v_bind (byte_at b w) (fun h0 => v_bind (byte_at b (w + 1)) (fun h1 => v_bind (byte_at b (w + 2)) (fun h2 =>
    if negb (h0 =? tlsRecordTypeHandshake) || negb (IsValidTLSVersion h1 h2) then Fails errNotTLS
    else v_bind (u16_at b (w + 3)) (fun recordLen => if tlsMaxPlaintext <? recordLen then Fails errNotTLS else if recordLen =? 0 then Fails errNotClientHello
      else record_payload w recordLen ch b)))))
    (fun r => match r with inl _ => True | inr st' => between d st' /\ w + 6 <= st'.1 end)).
  { intros Hl. do 3 read_step. read_step; [read_step|]. read_step. read_step; [read_step|]. read_step; [read_step|]. ltbs. apply reads_payload; done || lia. }
  unfold reads in *. unfold tls_record, tlsRecordHeaderLen. destruct (zlen d - w <? 5) eqn:E; ltbs.
  - split; [unfold max_wire; lia|]. intros e He. rewrite (proj2 (Z.ltb_lt _ _)) by lia. done.
  - specialize (H ltac:(lia)). assert (E' : forall e, (zlen (d ++ e) - w <? 5) = false).
    { intros e. apply Z.ltb_ge. rewrite zlen_app. pose proof (zlen_nonneg e). lia. }
    cbv zeta. change (v_bind (byte_at d w) _) with (v_bind (byte_at d w) (fun h0 => v_bind (byte_at d (w + 1)) (fun h1 => v_bind (byte_at d (w + 2)) (fun h2 =>
    if negb (h0 =? tlsRecordTypeHandshake) || negb (IsValidTLSVersion h1 h2) then Fails errNotTLS
    else v_bind (u16_at d (w + 3)) (fun recordLen => if tlsMaxPlaintext <? recordLen then Fails errNotTLS else if recordLen =? 0 then Fails errNotClientHello
      else record_payload w recordLen ch d))))).
    destruct (v_bind (byte_at d w) _); [destruct H as [? H]; split; [done|]|destruct H as [? H]; split; [done|]| |done]; intros e'; rewrite E'; apply H.
Qed.

Lemma reads_loop d fuel : bytes_ok d -> forall st, between d st -> zlen d < st.1 + Z.of_nat fuel ->
  reads max_wire d (fun b => SniffTLS_loop fuel b st.1 st.2) (fun _ => True).
Proof.
  intros Hd. induction fuel as [|fuel IH]; intros st Hst Hf; [destruct Hst; lia|]. cbn [SniffTLS_loop].
  eapply reads_bind; [by apply reads_record|]. intros [name|st'] Hst'; [by apply reads_found|]. destruct Hst' as [Hst' ?], st' as [w' ch'].
  by apply (IH (w', ch')); [|cbn in *; lia].
Qed.

(** More fuel changes nothing. *)
Lemma SniffTLS_loop_mono f f' b : (f <= f')%nat -> forall w ch, SniffTLS_loop f b w ch <> Panic -> SniffTLS_loop f' b w ch = SniffTLS_loop f b w ch.
Proof.
  revert f'. induction f as [|f IH]; intros f' Hf w ch HP; [done|]. destruct f' as [|f']; [lia|]. cbn [SniffTLS_loop] in *.
  destruct (tls_record b w ch) as [[|[w' ch']]| | |]; cbn [v_bind] in *; try done. apply IH; [lia|done].
Qed.

Lemma SniffTLS_any d : bytes_ok d -> reads max_wire d SniffTLS (fun _ => True).
Proof.
  intros Hd. assert (H : forall f, (length d < f)%nat -> reads max_wire d (fun b => SniffTLS_loop f b 0 []) (fun _ => True)).
  { intros f Hf. apply (reads_loop d f Hd (0, [])); [|unfold zlen; cbn; lia]. split; [constructor|]. cbn. unfold zlen, max_hello. cbn. lia. }
  assert (E : forall e, SniffTLS_loop (S (length (d ++ e))) d 0 [] = SniffTLS d).
  { intros e. apply SniffTLS_loop_mono; [rewrite length_app; lia|]. intros HP. specialize (H (S (length d)) ltac:(lia)). unfold reads in H. by rewrite HP in H. }
  assert (He : forall e, reads max_wire d (fun b => SniffTLS_loop (S (length (d ++ e))) b 0 []) (fun _ => True)) by (intros e; apply H; rewrite length_app; lia).
  unfold reads in *. destruct (SniffTLS d) eqn:ED.
  - split; [done|]. intros e'. specialize (He e'). rewrite E in He. apply He.
  - pose proof (He []) as H0. rewrite E in H0. split; [apply H0|]. intros e'. specialize (He e'). rewrite E in He. apply He.
  - intros e'. specialize (He e'). rewrite E in He. apply He.
  - specialize (He []). by rewrite E in He.
Qed.

(** collecting a ClientHello from the records of any bytes never reads outside of them
    and ends.  Bytes that are too few ask for more than there are, at most for [max_wire],
    whatever the stream will be; more bytes are asked for the same until they are there; and
    a name or a refusal stands whatever follows in the stream. *)
Lemma SniffTLS_reads d : bytes_ok d -> reads max_wire d SniffTLS (fun _ => True).
Proof. apply SniffTLS_any. Qed.

(** A ClientHello sent in these pieces, a record each. *)
Definition enc_record (v : Z) (p : list Z) : list Z := tlsRecordTypeHandshake :: 3 :: v :: enc16 (zlen p) ++ p.
Definition enc_records (v : Z) (ps : list (list Z)) : list Z := concat (map (enc_record v) ps).

Lemma zlen_enc_record v p : zlen (enc_record v p) = 5 + zlen p.
Proof. unfold enc_record. rewrite !zlen_cons, zlen_app, zlen_enc16. lia. Qed.

Lemma tls_record_enc b A v p B ch n e : b = A ++ enc_record v p ++ B -> 1 <= zlen p <= tlsMaxPlaintext -> (zlen A = 0 -> ch = []) ->
  bytes_ok (ch ++ p) -> ReadClientHello ((ch ++ p) ++ e) = Found n ->
  tls_record b (zlen A) ch = match ReadClientHello (ch ++ p) with Found n => Found (inl n) | _ => Found (inr (zlen A + (5 + zlen p), ch ++ p)) end.
Proof.
  intros Eb Hp HA Hb HF. pose proof (zlen_nonneg A). pose proof (zlen_nonneg B). unfold tlsMaxPlaintext in *.
  assert (Hl : zlen b = zlen A + ((5 + zlen p) + zlen B)) by (by rewrite Eb, !zlen_app, zlen_enc_record).
  unfold tls_record, tlsRecordHeaderLen. rewrite (proj2 (Z.ltb_ge _ _)) by lia. unfold enc_record in Eb.
  rewrite (byte_at_mid b A tlsRecordTypeHandshake ((3 :: v :: enc16 (zlen p) ++ p) ++ B)) by done. cbn [v_bind].
  rewrite (byte_at_mid b (A ++ [tlsRecordTypeHandshake]) 3 ((v :: enc16 (zlen p) ++ p) ++ B)); [|by rewrite Eb, <- !app_assoc|by rewrite zlen_app]. cbn [v_bind].
  rewrite (byte_at_mid b (A ++ [tlsRecordTypeHandshake; 3]) v ((enc16 (zlen p) ++ p) ++ B)); [|by rewrite Eb, <- !app_assoc|by rewrite zlen_app]. cbn [v_bind].
  change (negb (tlsRecordTypeHandshake =? tlsRecordTypeHandshake) || negb (IsValidTLSVersion 3 v)) with false. cbv iota.
  rewrite (u16_at_mid b (A ++ [tlsRecordTypeHandshake; 3; v]) (zlen p) (p ++ B)); [|rewrite Eb; repeat (rewrite <- app_assoc || rewrite <- app_comm_cons); done|by rewrite zlen_app|lia]. cbn [v_bind].
  unfold tlsMaxPlaintext. rewrite (proj2 (Z.ltb_ge _ _)), (proj2 (Z.eqb_neq _ _)) by lia. cbv zeta.
  rewrite Z.max_r, Z.min_l by lia.
  rewrite (slice_of_mid b (A ++ tlsRecordTypeHandshake :: 3 :: v :: enc16 (zlen p)) p B); [|rewrite Eb; repeat (rewrite <- app_assoc || rewrite <- app_comm_cons); done|by rewrite zlen_app|done]. cbn [v_bind].
  assert (E0 : (if zlen A =? 0 then p else ch ++ p) = ch ++ p) by (destruct (zlen A =? 0) eqn:E0; ltbs; [by rewrite HA|done]). rewrite E0, Z.ltb_irrefl.
  pose proof (ReadClientHello_reads _ Hb) as HR. unfold reads in HR. destruct (ReadClientHello (ch ++ p)) eqn:ER; [done| |by rewrite HR in HF|done].
  f_equal. f_equal. f_equal. lia.
Qed.

Lemma SniffTLS_pieces v n B fuel : forall ps A ch b, b = A ++ enc_records v ps ++ B -> (zlen A = 0 -> ch = []) -> zlen b < zlen A + Z.of_nat fuel ->
  Forall (fun p => 1 <= zlen p <= tlsMaxPlaintext) ps -> bytes_ok (ch ++ concat ps) -> ReadClientHello ch <> Found n -> ReadClientHello (ch ++ concat ps) = Found n ->
  SniffTLS_loop fuel b (zlen A) ch = Found n.
Proof.
  induction fuel as [|fuel IH]; intros ps A ch b Eb HA Hf Hps Hb Hne HF.
  { rewrite Eb, zlen_app in Hf. pose proof (zlen_nonneg (enc_records v ps ++ B)). lia. }
  destruct ps as [|p ps]; [cbn in HF; rewrite app_nil_r in HF; done|]. apply Forall_cons in Hps as [Hp Hps].
  cbn [concat] in *. rewrite app_assoc in Hb, HF. pose proof (proj1 (proj1 (Forall_app _ _ _) Hb)) as Hb1.
  change (enc_records v (p :: ps)) with (enc_record v p ++ enc_records v ps) in Eb. rewrite <- app_assoc in Eb.
  cbn [SniffTLS_loop]. rewrite (tls_record_enc b A v p _ ch n _ Eb Hp HA Hb1 HF).
  pose proof (ReadClientHello_reads _ Hb1) as HR. unfold reads in HR. destruct (ReadClientHello (ch ++ p)) eqn:ER; cbn [v_bind].
  - destruct HR as [_ HR]. rewrite HR in HF. by injection HF as ->.
  - replace (zlen A + (5 + zlen p)) with (zlen (A ++ enc_record v p)) by (by rewrite zlen_app, zlen_enc_record).
    apply (IH ps); try done; [by rewrite Eb, <- app_assoc|rewrite zlen_app, zlen_enc_record; pose proof (zlen_nonneg A); lia|rewrite zlen_app, zlen_enc_record; lia|by rewrite ER].
  - by rewrite HR in HF.
  - done.
Qed.

(** C24: a ClientHello whose lengths fit their fields and whose first server_name extension
    carries a host name that does not end in a dot, cut into records at any places (each of 1 to 2^14 bytes, any minor
    version) and followed by anything, is sniffed as that host name. *)
Theorem SniffTLS_roundtrip h pre name post v ps B : hello_fits h -> hl_extensions h = pre ++ sni name :: post ->
  Forall (fun x => x.1 <> 0) pre -> HasSuffix (string_of name) "." = false -> bytes_ok (enc_hello h) ->
  concat ps = enc_hello h -> Forall (fun p => 1 <= zlen p <= tlsMaxPlaintext) ps ->
  SniffTLS (enc_records v ps ++ B) = Found (string_of name).
Proof.
  intros Hh E Hpre Hdot Hb Hps Hlen. unfold SniffTLS. change 0 with (zlen (@nil Z)).
  apply (SniffTLS_pieces v _ B _ ps); rewrite ?Hps; try done; [unfold zlen; cbn; lia|by eapply ReadClientHello_sni].
Qed.

(** A small hello: an extension, then the name [a.b]. *)
Definition demo_hello : Hello := {|
  hl_fixed := repeat 3 34; hl_session := [1; 2]; hl_ciphers := [19; 1]; hl_compression := [0];
  hl_extensions := [(43, [2; 3; 4]); sni [97; 46; 98]] |}.
Example demo_hello_bytes : bytes_ok (enc_hello demo_hello).
Proof. vm_compute. repeat constructor; discriminate. Qed.
Example SniffTLS_reads_witness : bytes_ok [22; 3; 1; 2] /\ reads max_wire [22; 3; 1; 2] SniffTLS (fun _ => True).
Proof. assert (H : bytes_ok [22; 3; 1; 2]) by (repeat constructor; discriminate). split; [exact H|exact (SniffTLS_reads _ H)]. Defined.
Example SniffTLS_roundtrip_witness :
  SniffTLS (enc_records 1 [take 10 (enc_hello demo_hello); drop 10 (enc_hello demo_hello)] ++ [23; 3; 3]) = Found "a.b"%string.
Proof.
  apply (SniffTLS_roundtrip demo_hello [(43, [2; 3; 4])] [97; 46; 98] [] 1 [take 10 (enc_hello demo_hello); drop 10 (enc_hello demo_hello)] [23; 3; 3]).
  - split; try (vm_compute; repeat split; discriminate || reflexivity).
    repeat constructor; vm_compute; discriminate || reflexivity.
  - reflexivity.
  - repeat constructor. discriminate.
  - reflexivity.
  - exact demo_hello_bytes.
  - reflexivity.
  - repeat constructor; vm_compute; discriminate.
Defined.
(** With the first record only, the rest of the second is asked for as far as it is known. *)
Example sniff_first_record : SniffTLS (enc_records 1 [take 10 (enc_hello demo_hello)]) = Need 20 /\
  SniffTLS (enc_records 1 [take 10 (enc_hello demo_hello)] ++ [22; 3; 1; 0; 60]) = Need 49.
Proof. by vm_compute. Qed.
