(* ===== verification/SniffBitmap.v ===== *)
(** * A growable bitmap

    Models [component/sniffer/bitmap.go], with which the QUIC sniffer remembers which bytes
    of the CRYPTO stream have come: 64-bit words, with the masks computed as the code
    computes them.  A panic, and an index outside of the words, is [None].  The theorems
    relate it to the set of its bits. *)

From S2P Require Import Prelude.
#[local] Open Scope list_scope.
#[local] Open Scope Z_scope.

(** [math/bits] *)
Definition bits_Len (n : Z) : Z := if n <=? 0 then 0 else Z.log2 n + 1.
Fixpoint trailing_zeros (fuel : nat) (i x : Z) : Z :=
  match fuel with O => i | S fuel => if Z.testbit x i then i else trailing_zeros fuel (i + 1) x end.
Definition TrailingZeros64 (x : Z) : Z := trailing_zeros 64 0 x.

Definition max64 : Z := 2 ^ 64 - 1.
Definition not64 (x : Z) : Z := max64 - x.

(** The words of a [bitmap]. *)
Abbreviation bitmap := (list Z).

(** [b.words[i] = f(b.words[i])] *)
Definition word_update (b : bitmap) (i : Z) (f : Z -> Z) : option bitmap :=
  w ← b !! Z.to_nat i; Some (<[Z.to_nat i := f w]> b).

(** The words between the first and the last.
    @go component/sniffer/bitmap.go:44-46 bitmap.setRange *)
Fixpoint set_words (n : nat) (i : Z) (b : bitmap) : option bitmap :=
  match n with O => Some b | S n => b ← word_update b i (fun _ => max64); set_words n (i + 1) b end.

(** @go component/sniffer/bitmap.go:20-29 bitmap.setRange *)
Definition grow_words (b : bitmap) (wordCount : Z) : bitmap :=
  if zlen b <? wordCount then
    let newWordCount := u64 (Z.shiftl 1 (bits_Len (wordCount - 1))) in
    let newWordCount := if Z.shiftr max64 1 <? newWordCount then wordCount else newWordCount in
    ztake newWordCount b ++ repeat 0 (Z.to_nat (newWordCount - zlen b))
  else b.

(** @go component/sniffer/bitmap.go:12-48 bitmap.setRange *)
Definition setRange (b : bitmap) (start end_ : Z) : option bitmap :=
  if (start <? 0) || (end_ <? start) then None
  else if start =? end_ then Some b
  else
    let b := grow_words b ((end_ - 1) / 64 + 1) in
    let firstWord := start / 64 in
    let lastWord := (end_ - 1) / 64 in
    let firstMask := u64 (Z.shiftl max64 (start mod 64)) in
    let endBit := end_ mod 64 in
    let lastMask := if negb (endBit =? 0) then Z.shiftl 1 endBit - 1 else max64 in
    if firstWord =? lastWord then word_update b firstWord (fun w => Z.lor w (Z.land firstMask lastMask))
    else
      b ← word_update b firstWord (fun w => Z.lor w firstMask);
      b ← set_words (Z.to_nat (lastWord - firstWord - 1)) (firstWord + 1) b;
      word_update b lastWord (fun w => Z.lor w lastMask).

(** Each turn goes to the next word; [None] is out of fuel or an index outside.
    @go component/sniffer/bitmap.go:66-83 bitmap.firstUnset *)
Fixpoint firstUnset_loop (fuel : nat) (b : bitmap) (end_ wordIndex word : Z) : option Z :=
  match fuel with
  | O => None
  | S fuel =>
      if negb (word =? max64) then
        let unset := wordIndex * 64 + TrailingZeros64 (not64 word) in
        Some (if unset <? end_ then unset else end_)
      else
        let wordIndex := wordIndex + 1 in
        if end_ <=? wordIndex * 64 then Some end_
        else if zlen b <=? wordIndex then Some (wordIndex * 64)
        else word ← b !! Z.to_nat wordIndex; firstUnset_loop fuel b end_ wordIndex word
  end.

(** @go component/sniffer/bitmap.go:53-84 bitmap.firstUnset *)
Definition firstUnset (b : bitmap) (start end_ : Z) : option Z :=
  if (start <? 0) || (end_ <? start) then None
  else if start =? end_ then Some end_
  else
    let wordIndex := start / 64 in
    if zlen b <=? wordIndex then Some start
    else
      w ← b !! Z.to_nat wordIndex;
      firstUnset_loop (S (length b)) b end_ wordIndex (Z.lor w (Z.shiftl 1 (start mod 64) - 1)).

(** ** The set of the bits *)

(** A bit outside of the words is not set. *)
Definition bit (b : bitmap) (i : Z) : bool :=
  match b !! Z.to_nat (i / 64) with Some w => Z.testbit w (i mod 64) | None => false end.
Definition word_ok (w : Z) : Prop := 0 <= w < 2 ^ 64.
Definition bm_ok (b : bitmap) : Prop := Forall word_ok b.

(** ** Words *)

Lemma testbit_ones n j : 0 <= n -> 0 <= j -> Z.testbit (Z.shiftl 1 n - 1) j = (j <? n).
Proof.
  intros Hn Hj. replace (Z.shiftl 1 n - 1) with (Z.ones n) by (unfold Z.ones; lia).
  destruct (Z.ltb_spec j n); [by apply Z.ones_spec_low|by apply Z.ones_spec_high; lia].
Qed.
Lemma testbit_max64 j : 0 <= j < 64 -> Z.testbit max64 j = true.
Proof. intros Hj. change max64 with (Z.shiftl 1 64 - 1). rewrite testbit_ones by lia. lia. Qed.
Lemma testbit_not64 w j : word_ok w -> 0 <= j < 64 -> Z.testbit (not64 w) j = negb (Z.testbit w j).
Proof.
  intros Hw Hj. unfold not64. replace (max64 - w) with (Z.land (Z.lnot w) (Z.ones 64)).
  - rewrite Z.land_spec, Z.lnot_spec, Z.ones_spec_low by lia. apply andb_true_r.
  - rewrite Z.land_ones by lia. unfold word_ok, max64, Z.lnot in *. change (2 ^ 64) with 18446744073709551616 in *. Z.to_euclidean_division_equations; lia.
Qed.
Lemma word_ok_bits w : 0 <= w -> (forall j, 64 <= j -> Z.testbit w j = false) -> word_ok w.
Proof.
  intros H0 H. split; [done|]. destruct (Z_lt_le_dec w (2 ^ 64)) as [|Hge]; [done|]. assert (Hl : 64 <= Z.log2 w) by (by apply Z.log2_le_pow2; lia).
  pose proof (Z.bit_log2 w ltac:(lia)). by rewrite H in *.
Qed.
Lemma word_ok_high w j : word_ok w -> 64 <= j -> Z.testbit w j = false.
Proof.
  intros [H0 H] Hj. destruct (Z.eq_dec w 0) as [->|]; [apply Z.testbit_0_l|]. apply Z.bits_above_log2; [done|].
  assert (Z.log2 w < 64) by (apply Z.log2_lt_pow2; lia). lia.
Qed.
Lemma word_ok_max64 : word_ok max64.
Proof. done. Qed.
Lemma word_ok_lor w v : word_ok w -> word_ok v -> word_ok (Z.lor w v).
Proof.
  intros Hw Hv. apply word_ok_bits; [apply Z.lor_nonneg; split; [apply Hw|apply Hv]|]. intros j Hj. rewrite Z.lor_spec, !word_ok_high; done.
Qed.
Lemma word_ok_land w v : word_ok w -> word_ok v -> word_ok (Z.land w v).
Proof.
  intros Hw Hv. apply word_ok_bits; [apply Z.land_nonneg; left; apply Hw|]. intros j Hj. rewrite Z.land_spec, !word_ok_high; done.
Qed.
Lemma word_ok_full w : word_ok w -> (forall j, 0 <= j < 64 -> Z.testbit w j = true) -> w = max64.
Proof.
  intros Hw H. apply Z.bits_inj'. intros j Hj. destruct (Z_lt_le_dec j 64); [rewrite H, testbit_max64; done|]. rewrite !word_ok_high; done.
Qed.

(** The masks of the code. *)
Lemma first_mask k : 0 <= k < 64 -> word_ok (u64 (Z.shiftl max64 k)) /\ forall j, 0 <= j < 64 -> Z.testbit (u64 (Z.shiftl max64 k)) j = (k <=? j).
Proof.
  intros Hk. split; [apply Z.mod_pos_bound; done|]. intros j Hj. unfold u64. rewrite Z.mod_pow2_bits_low, Z.shiftl_spec by lia.
  destruct (Z.leb_spec k j); [by apply testbit_max64; lia|by apply Z.testbit_neg_r; lia].
Qed.
Lemma last_mask e : 0 <= e < 64 -> let m := if negb (e =? 0) then Z.shiftl 1 e - 1 else max64 in
  word_ok m /\ forall j, 0 <= j < 64 -> Z.testbit m j = (e =? 0) || (j <? e).
Proof.
  intros He m. unfold m. destruct (Z.eqb_spec e 0) as [->|Hne]; cbn [negb]; [split; [done|]; intros; by rewrite testbit_max64|].
  split; [|intros; by rewrite testbit_ones by lia]. rewrite Z.shiftl_1_l. unfold word_ok. assert (2 ^ e <= 2 ^ 63) by (apply Z.pow_le_mono_r; lia). lia.
Qed.

Lemma trailing_zeros_spec x fuel : forall i, 0 <= i -> let t := trailing_zeros fuel i x in
  i <= t <= i + Z.of_nat fuel /\ (forall j, i <= j < t -> Z.testbit x j = false) /\ (t < i + Z.of_nat fuel -> Z.testbit x t = true).
Proof.
  induction fuel as [|fuel IH]; intros i Hi t; unfold t; cbn [trailing_zeros]; [split_and!; [lia..|intros; lia|lia]|].
  destruct (Z.testbit x i) eqn:E; [split_and!; [lia..|intros; lia|done]|]. destruct (IH (i + 1) ltac:(lia)) as (H1 & H2 & H3).
  split_and!; [lia..| |intros Hl; apply H3; lia]. intros j Hj. destruct (decide (j = i)) as [->|]; [done|]. apply H2. lia.
Qed.
(** The first bit of a word that is not full. *)
Lemma TrailingZeros64_not w : word_ok w -> w <> max64 -> let t := TrailingZeros64 (not64 w) in
  0 <= t < 64 /\ (forall j, 0 <= j < t -> Z.testbit w j = true) /\ Z.testbit w t = false.
Proof.
  intros Hw Hne t. destruct (trailing_zeros_spec (not64 w) 64 0 ltac:(lia)) as (H1 & H2 & H3). fold (TrailingZeros64 (not64 w)) in *. fold t in H1, H2, H3.
  assert (Hlow : forall j, 0 <= j < t -> Z.testbit w j = true).
  { intros j Hj. specialize (H2 j Hj). rewrite testbit_not64 in H2 by (done || lia). by apply negb_false_iff. }
  assert (Ht : t < 64). { destruct (Z_lt_le_dec t 64); [done|]. destruct Hne. apply word_ok_full; [done|]. intros j Hj. apply Hlow. lia. }
  split_and!; [lia|done|done|]. specialize (H3 ltac:(lia)). rewrite testbit_not64 in H3 by (done || lia). by apply negb_true_iff.
Qed.

(** ** Setting *)

Ltac bcase :=
  repeat match goal with |- context [?a <=? ?b] => destruct (Z.leb_spec a b) | |- context [?a <? ?b] => destruct (Z.ltb_spec a b) end;
  cbn [andb orb]; rewrite ?orb_false_r, ?orb_true_r, ?andb_true_r; done || lia.

Lemma div64_mod i q : 0 <= q -> i / 64 = q -> i = 64 * q + i mod 64 /\ 0 <= i mod 64 < 64.
Proof. intros Hq <-. Z.to_euclidean_division_equations. lia. Qed.

Lemma word_update_spec b i f : bm_ok b -> 0 <= i < zlen b -> (forall w, word_ok w -> word_ok (f w)) ->
  exists b' w, word_update b i f = Some b' /\ bm_ok b' /\ zlen b' = zlen b /\ word_ok w /\
    (forall j, 0 <= j -> j / 64 = i -> bit b j = Z.testbit w (j mod 64)) /\
    forall j, 0 <= j -> bit b' j = if j / 64 =? i then Z.testbit (f w) (j mod 64) else bit b j.
Proof.
  intros Hb Hi Hf. unfold word_update. destruct (lookup_lt_is_Some_2 b (Z.to_nat i)) as [w Hw]; [unfold zlen in Hi; lia|].
  pose proof (proj1 (Forall_lookup _ _) Hb _ _ Hw) as Hwok. rewrite Hw. cbn. eexists _, w. split; [done|].
  split; [apply Forall_insert; [done|by apply Hf]|]. split; [unfold zlen; by rewrite length_insert|]. split; [done|]. split.
  - intros j _ <-. unfold bit. by rewrite Hw.
  - intros j Hj. unfold bit. destruct (Z.eqb_spec (j / 64) i) as [->|Hne].
    + rewrite list_lookup_insert_eq; [done|unfold zlen in Hi; lia].
    + rewrite list_lookup_insert_ne; [done|]. pose proof (Z.div_pos j 64). lia.
Qed.

Lemma set_words_spec n : forall i b, bm_ok b -> 0 <= i -> i + Z.of_nat n <= zlen b ->
  exists b', set_words n i b = Some b' /\ bm_ok b' /\ zlen b' = zlen b /\
    forall j, 0 <= j -> bit b' j = bit b j || ((i <=? j / 64) && (j / 64 <? i + Z.of_nat n)).
Proof.
  induction n as [|n IH]; intros i b Hb Hi Hl; cbn [set_words].
  { eexists. split_and!; [done..|]. intros j Hj. bcase. }
  destruct (word_update_spec b i (fun _ => max64) Hb ltac:(lia)) as (b1 & w & -> & Hb1 & Hl1 & _ & _ & Hbit); [done|]. cbn [mbind option_bind].
  destruct (IH (i + 1) b1 Hb1 ltac:(lia) ltac:(lia)) as (b2 & -> & Hb2 & Hl2 & Hbit2). exists b2. split_and!; [done..|lia|].
  intros j Hj. rewrite Hbit2, Hbit by done. destruct (Z.eqb_spec (j / 64) i) as [E|Hne].
  - rewrite testbit_max64 by (pose proof (Z.mod_pos_bound j 64); lia). bcase.
  - bcase.
Qed.

Lemma bits_Len_spec n : 0 <= n < 2 ^ 63 -> 0 <= bits_Len n <= 63 /\ n < 2 ^ bits_Len n.
Proof.
  intros Hn. unfold bits_Len. destruct (Z.leb_spec n 0); [split; [lia|cbn; lia]|].
  pose proof (Z.log2_spec n ltac:(lia)). assert (Z.log2 n < 63) by (apply Z.log2_lt_pow2; lia). pose proof (Z.log2_nonneg n).
  rewrite <- Z.add_1_r in *. lia.
Qed.
Lemma grow_words_spec b wc : bm_ok b -> 0 < wc < 2 ^ 63 -> bm_ok (grow_words b wc) /\ wc <= zlen (grow_words b wc) /\
  forall j, bit (grow_words b wc) j = bit b j.
Proof.
  intros Hb Hwc. unfold grow_words. destruct (Z.ltb_spec (zlen b) wc) as [Hlt|]; [|done].
  set (n0 := u64 (Z.shiftl 1 (bits_Len (wc - 1)))). set (n := if _ <? n0 then wc else n0). cbv zeta.
  assert (Hn : wc <= n). { unfold n. destruct (Z.ltb_spec (Z.shiftr max64 1) n0); [done|]. unfold n0, u64 in *. rewrite Z.shiftl_1_l in *.
    destruct (bits_Len_spec (wc - 1) ltac:(lia)) as [H1 H2]. assert (2 ^ bits_Len (wc - 1) <= 2 ^ 63) by (apply Z.pow_le_mono_r; lia).
    rewrite Z.mod_small by lia. lia. }
  assert (Ht : ztake n b = b) by (unfold ztake, zlen in *; apply take_ge; lia). rewrite Ht. split_and!.
  - apply Forall_app. split; [done|]. apply Forall_forall. intros x Hx. apply list_elem_of_In, repeat_spec in Hx. subst x. done.
  - unfold zlen in *. rewrite length_app, repeat_length. lia.
  - intros j. unfold bit. destruct (b !! Z.to_nat (j / 64)) eqn:E; [by rewrite (lookup_app_l_Some _ _ _ _ E)|].
    rewrite lookup_app_r by (by apply lookup_ge_None). destruct (repeat 0 _ !! _) eqn:E2; [|done].
    apply list_elem_of_lookup_2, list_elem_of_In, repeat_spec in E2. subst. apply Z.testbit_0_l.
Qed.

Lemma setRange_sets b s e : bm_ok b -> 0 <= s <= e -> e < 2 ^ 63 ->
  exists b', setRange b s e = Some b' /\ bm_ok b' /\ forall i, 0 <= i -> bit b' i = bit b i || ((s <=? i) && (i <? e)).
Proof.
  intros Hb Hse He. unfold setRange. rewrite (proj2 (Z.ltb_ge s 0)), (proj2 (Z.ltb_ge e s)) by lia. cbn [orb].
  destruct (Z.eqb_spec s e) as [->|Hne].
  { exists b. split_and!; [done..|]. intros i Hi. bcase. }
  set (fw := s / 64). set (lw := (e - 1) / 64). cbv zeta.
  assert (Hw : 0 <= fw <= lw) by (unfold fw, lw; split; [apply Z.div_pos; lia|apply Z.div_le_mono; lia]).
  assert (Hlw : lw < 2 ^ 62) by (unfold lw; apply Z.div_lt_upper_bound; lia).
  destruct (grow_words_spec b (lw + 1) Hb ltac:(lia)) as (Hg & Hgl & Hgb). set (g := grow_words b (lw + 1)) in *.
  destruct (first_mask (s mod 64) ltac:(apply Z.mod_pos_bound; lia)) as [Hfm Hfb].
  destruct (last_mask (e mod 64) ltac:(apply Z.mod_pos_bound; lia)) as [Hlm Hlb]. cbv zeta in Hlm, Hlb.
  set (fm := u64 _) in *. set (lm := if negb _ then _ else _) in *.
  assert (Hfirst : forall i, 0 <= i -> i / 64 = fw -> Z.testbit fm (i mod 64) = (s <=? i)).
  { intros i Hi E. rewrite Hfb by (apply Z.mod_pos_bound; lia). unfold fw in E. Z.to_euclidean_division_equations; lia. }
  assert (Hlast : forall i, 0 <= i -> i / 64 = lw -> Z.testbit lm (i mod 64) = (i <? e)).
  { intros i Hi E. rewrite Hlb by (apply Z.mod_pos_bound; lia). unfold lw in E. Z.to_euclidean_division_equations; lia. }
  assert (Hdiv : forall i, 0 <= i -> (i / 64 < fw -> i < s) /\ (fw < i / 64 -> s <= i) /\ (i / 64 < lw -> i < e) /\ (lw < i / 64 -> e <= i)).
  { intros i Hi. unfold fw, lw. Z.to_euclidean_division_equations; lia. }
  destruct (Z.eqb_spec fw lw) as [Efl|Hfl].
  - destruct (word_update_spec g fw (fun w => Z.lor w (Z.land fm lm)) Hg ltac:(lia)) as (b' & w & -> & Hb' & _ & _ & Hold & Hbit).
    { intros w Hw'. apply word_ok_lor; [done|]. by apply word_ok_land. }
    exists b'. split_and!; [done..|]. intros i Hi. rewrite Hbit, <- Hgb by done. destruct (Z.eqb_spec (i / 64) fw) as [E|Hn].
    + rewrite Z.lor_spec, Z.land_spec, Hfirst, Hlast, <- Hold by (done || lia). done.
    + destruct (Hdiv i Hi) as (? & ? & ? & ?). bcase.
  - destruct (word_update_spec g fw (fun w => Z.lor w fm) Hg ltac:(lia)) as (b1 & w1 & -> & Hb1 & Hl1 & _ & Hold1 & Hbit1).
    { intros w Hw'. by apply word_ok_lor. }
    cbn [mbind option_bind]. destruct (set_words_spec (Z.to_nat (lw - fw - 1)) (fw + 1) b1 Hb1 ltac:(lia) ltac:(lia)) as (b2 & -> & Hb2 & Hl2 & Hbit2).
    cbn [mbind option_bind]. destruct (word_update_spec b2 lw (fun w => Z.lor w lm) Hb2 ltac:(lia)) as (b3 & w3 & -> & Hb3 & _ & _ & Hold3 & Hbit3).
    { intros w Hw'. by apply word_ok_lor. }
    exists b3. split_and!; [done..|]. intros i Hi. rewrite Hbit3, <- Hgb by done. destruct (Hdiv i Hi) as (D1 & D2 & D3 & D4).
    destruct (Z.eqb_spec (i / 64) lw) as [E|Hn].
    + rewrite Z.lor_spec, <- Hold3, Hbit2, Hbit1, Hlast by done. rewrite (proj2 (Z.eqb_neq _ _)) by lia.
      bcase.
    + rewrite Hbit2, Hbit1 by done. destruct (Z.eqb_spec (i / 64) fw) as [E|Hn'].
      * rewrite Z.lor_spec, Hfirst, <- Hold1 by done. bcase.
      * bcase.
Qed.

(** ** Finding *)

Lemma firstUnset_loop_spec fuel b s e : bm_ok b -> forall wi w, 0 <= wi < zlen b -> word_ok w -> 64 * wi < e -> 0 <= s <= e -> s < 64 * (wi + 1) ->
  (forall i, s <= i -> i / 64 = wi -> Z.testbit w (i mod 64) = bit b i) -> (forall i, 0 <= i < s -> i / 64 = wi -> Z.testbit w (i mod 64) = true) ->
  (forall i, s <= i < 64 * wi -> bit b i = true) -> zlen b - wi <= Z.of_nat fuel ->
  exists u, firstUnset_loop fuel b e wi w = Some u /\ s <= u <= e /\ (forall i, s <= i < u -> bit b i = true) /\ (u < e -> bit b u = false).
Proof.
  intros Hb. induction fuel as [|fuel IH]; intros wi w Hwi Hw He Hs Hsw Hsame Hmask Hbefore Hf; [lia|]. cbn [firstUnset_loop].
  destruct (Z.eqb_spec w max64) as [->|Hne]; cbn [negb].
  - assert (Hfull : forall i, s <= i < 64 * (wi + 1) -> bit b i = true).
    { intros i Hi. destruct (Z_lt_le_dec i (64 * wi)); [by apply Hbefore; lia|]. rewrite <- (Hsame i); [|lia|Z.to_euclidean_division_equations; lia].
      apply testbit_max64, Z.mod_pos_bound. lia. }
    destruct (Z.leb_spec e ((wi + 1) * 64)); [exists e; split_and!; [done|lia..| |lia]; intros i Hi; apply Hfull; lia|].
    destruct (Z.leb_spec (zlen b) (wi + 1)) as [Hend|Hin].
    + exists ((wi + 1) * 64). split_and!; [done|lia..| |]; [intros i Hi; apply Hfull; lia|]. intros _. unfold bit. rewrite Z.div_mul by lia.
      rewrite lookup_ge_None_2; [done|]. unfold zlen in *. lia.
    + destruct (lookup_lt_is_Some_2 b (Z.to_nat (wi + 1))) as [w' Hw']; [unfold zlen in *; lia|]. rewrite Hw'. cbn [mbind option_bind].
      apply IH; try lia; [by apply (proj1 (Forall_lookup _ _) Hb _ _ Hw')| | |].
      * intros i Hi E. unfold bit. by rewrite E, Hw'.
      * intros i Hi E. Z.to_euclidean_division_equations. lia.
      * intros i Hi. apply Hfull. lia.
  - destruct (TrailingZeros64_not w Hw Hne) as (Ht & Hlow & Hbit). set (t := TrailingZeros64 (not64 w)) in *. cbv zeta.
    assert (Hst : s <= wi * 64 + t).
    { destruct (Z_lt_le_dec (wi * 64 + t) s) as [Hlt|]; [|done]. pose proof (Hmask (wi * 64 + t) ltac:(lia) ltac:(Z.to_euclidean_division_equations; lia)) as Hm.
      replace ((wi * 64 + t) mod 64) with t in Hm by (Z.to_euclidean_division_equations; lia). by rewrite Hbit in Hm. }
    assert (Hb1 : forall i, s <= i < wi * 64 + t -> bit b i = true).
    { intros i Hi. destruct (Z_lt_le_dec i (64 * wi)); [by apply Hbefore; lia|]. rewrite <- (Hsame i); [|lia|Z.to_euclidean_division_equations; lia].
      apply Hlow. Z.to_euclidean_division_equations. lia. }
    destruct (Z.ltb_spec (wi * 64 + t) e).
    + eexists. split; [done|]. split; [lia|]. split; [done|]. intros _. rewrite <- (Hsame (wi * 64 + t)); [|lia|Z.to_euclidean_division_equations; lia].
      by replace ((wi * 64 + t) mod 64) with t by (Z.to_euclidean_division_equations; lia).
    + exists e. split_and!; [done|lia..| |lia]. intros i Hi. apply Hb1. lia.
Qed.

Lemma firstUnset_finds b s e : bm_ok b -> 0 <= s <= e ->
  exists u, firstUnset b s e = Some u /\ s <= u <= e /\ (forall i, s <= i < u -> bit b i = true) /\ (u < e -> bit b u = false).
Proof.
  intros Hb Hse. unfold firstUnset. rewrite (proj2 (Z.ltb_ge s 0)), (proj2 (Z.ltb_ge e s)) by lia. cbn [orb].
  destruct (Z.eqb_spec s e) as [->|Hne]; [exists e; split_and!; [done|lia..|intros; lia|lia]|]. cbv zeta.
  pose proof (Z.div_pos s 64 ltac:(lia) ltac:(lia)).
  destruct (Z.leb_spec (zlen b) (s / 64)).
  { exists s. split_and!; [done|lia..|intros; lia|]. intros _. unfold bit. rewrite lookup_ge_None_2; [done|]. unfold zlen in *. lia. }
  destruct (lookup_lt_is_Some_2 b (Z.to_nat (s / 64))) as [w Hw]; [unfold zlen in *; lia|]. rewrite Hw. cbn [mbind option_bind].
  pose proof (proj1 (Forall_lookup _ _) Hb _ _ Hw) as Hwok. pose proof (Z.mod_pos_bound s 64 ltac:(lia)).
  assert (Hm : word_ok (Z.shiftl 1 (s mod 64) - 1)).
  { rewrite Z.shiftl_1_l. pose proof (Z.pow_pos_nonneg 2 (s mod 64)). assert (2 ^ (s mod 64) <= 2 ^ 63) by (apply Z.pow_le_mono_r; lia). unfold word_ok. lia. }
  apply firstUnset_loop_spec; try done; try lia.
  - by apply word_ok_lor.
  - Z.to_euclidean_division_equations; lia.
  - Z.to_euclidean_division_equations; lia.
  - intros i Hi E. pose proof (Z.mod_pos_bound i 64). rewrite Z.lor_spec, testbit_ones by lia. unfold bit. rewrite E, Hw.
    replace (i mod 64 <? s mod 64) with false; [by rewrite orb_false_r|]. Z.to_euclidean_division_equations. lia.
  - intros i Hi E. pose proof (Z.mod_pos_bound i 64). rewrite Z.lor_spec, testbit_ones by lia.
    replace (i mod 64 <? s mod 64) with true; [apply orb_true_r|]. Z.to_euclidean_division_equations. lia.
  - intros i Hi. Z.to_euclidean_division_equations. lia.
  - unfold zlen in *. lia.
Qed.
