(* ===== verification/SniffQuic.v ===== *)
(** * Sniffing QUIC

    Models [component/sniffer/quic_sniffer.go] and the buffers of [common/pool/alloc.go]: the
    sender that is put before the relay of a UDP flow, removes the protection of Initial
    packets, collects the CRYPTO stream and reads the ClientHello from it.  A panic of the
    code is [Panic].  The methods are sequential here: the lock of the code makes each
    section that touches the state atomic, and [close] between two datagrams is a step of
    its own.  Cryptography, variable-length integers and the reader [buf.Buffer] are of
    other modules: [QuicLib]. *)

From Stdlib Require Import String.
From S2P Require Import Prelude Names SniffTls SniffBitmap.
#[local] Open Scope list_scope.
#[local] Open Scope Z_scope.
#[local] Open Scope sniff_scope.

Definition bytes_of (s : string) : list Z := map (fun c => Z.of_nat (nat_of_ascii c)) (String.list_ascii_of_string s).

(** ** What is used of other modules *)

Record QuicLib := mkQuicLib {
  (** [buf.Buffer]: the bytes not read yet *)
  ReadByte : list Z -> option (Z * list Z);
  ReadBytes : Z -> list Z -> option (list Z * list Z);
  (** [quicvarint.Read] *)
  varint_Read : list Z -> option (Z * list Z);
  (** whether a [buf.NewPacket] of which this much is used can be extended by this much;
      [Extend] panics otherwise *)
  Extend_ok : Z -> Z -> bool;
  (** HKDF with SHA-256, an AES block, AES-GCM *)
  hkdf_Extract : list Z -> list Z -> list Z;
  hkdf_Expand : list Z -> list Z -> Z -> option (list Z);
  aes_Encrypt : list Z -> list Z -> list Z;
  gcm_Open : list Z -> list Z -> list Z -> list Z -> option (list Z)
}.

(** What the code relies on.  [packet_size] is the capacity of a packet buffer. *)
Record QuicLibLaws (L : QuicLib) (packet_size : Z) : Prop := {
  ReadByte_nil : ReadByte L [] = None;
  ReadByte_cons x l : ReadByte L (x :: l) = Some (x, l);
  ReadBytes_spec n l : 0 <= n -> ReadBytes L n l = if n <=? zlen l then Some (ztake n l, zdrop n l) else None;
  varint_spec l v r : varint_Read L l = Some (v, r) -> 0 <= v < 2 ^ 62 /\ exists p, p <> [] /\ l = p ++ r;
  Extend_fits used n : 0 <= used -> 0 <= n -> used + n <= packet_size -> Extend_ok L used n = true;
  hkdf_Expand_ok secret info n : 0 <= n <= 255 * 32 -> exists out, hkdf_Expand L secret info n = Some out /\ zlen out = n /\ Forall is_byte out;
  aes_block key b : zlen key = 16 -> zlen b = 16 -> zlen (aes_Encrypt L key b) = 16 /\ Forall is_byte (aes_Encrypt L key b);
  gcm_bytes key iv c a p : gcm_Open L key iv c a = Some p -> Forall is_byte p
}.

(** ** Pooled buffers *)

(** @go common/pool/alloc.go:142-144 msb *)
Definition pool_msb (size : Z) : Z := u16 (bits_Len (u32 size) - 1).
(** The capacity of what [Get] returns for a size from 1 on.
    @go common/pool/alloc.go:51-62 defaultAllocator.Get *)
Definition pool_cap (size : Z) : Z :=
  if 65536 <? size then size
  else
    let index := if 64 <? size then (let index := pool_msb size in (if negb (size =? Z.shiftl 1 index) then u16 (index + 1) else index) - 6) else 0 in
    Z.shiftl 1 (index + 6).

(** ** Parameters of the versions *)

(** @go component/sniffer/quic_sniffer.go:61-67 quicStructure *)
Record quicStructure := mkStructure { ver : Z; typeInitial : Z; typeRetry : Z; initialSalt : list Z; labelPrefix : string }.
(** @go component/sniffer/quic_sniffer.go:70-76 quicDraft29 *)
Definition quicDraft29 : quicStructure := {|
  ver := 4278190109; typeInitial := 0; typeRetry := 3;
  initialSalt := [175; 191; 236; 40; 153; 147; 210; 76; 158; 151; 134; 241; 156; 97; 17; 224; 67; 144; 168; 153];
  labelPrefix := "quic" |}.
(** @go component/sniffer/quic_sniffer.go:77-83 quicV1 *)
Definition quicV1 : quicStructure := {|
  ver := 1; typeInitial := 0; typeRetry := 3;
  initialSalt := [56; 118; 44; 247; 245; 89; 52; 179; 77; 23; 154; 230; 164; 200; 12; 173; 204; 187; 127; 10];
  labelPrefix := "quic" |}.
(** @go component/sniffer/quic_sniffer.go:84-90 quicV2 *)
Definition quicV2 : quicStructure := {|
  ver := 1798521807; typeInitial := 1; typeRetry := 0;
  initialSalt := [13; 237; 227; 222; 247; 0; 166; 219; 129; 147; 129; 190; 110; 38; 157; 203; 249; 189; 46; 217];
  labelPrefix := "quicv2" |}.
Definition listQUICVersions : list quicStructure := [quicDraft29; quicV1; quicV2].

Definition maxCryptoStreamOffset : Z := 64 * Z.shiftl 1 10.
Definition framePadding : Z := 0.
Definition framePing : Z := 1.
Definition frameAck : Z := 2.
Definition frameAckWithECN : Z := 3.
Definition frameCrypto : Z := 6.
Definition frameConnectionClose : Z := 28.

(** @go component/sniffer/quic_sniffer.go:95-99 quicLabels *)
Record quicLabels := mkLabels { lb_hp : list Z; lb_key : list Z; lb_iv : list Z }.
(** @go component/sniffer/quic_sniffer.go:101-105 quicInitialKey *)
Record quicInitialKey := mkKey { destConnID : list Z; labels : quicLabels; largestPacketNumber : Z }.

(** The state of a sender.  [buffer] is the array under the slice, as long as its
    capacity, and [buffer_len] the length of the slice.
    @go component/sniffer/quic_sniffer.go:146-162 quicPacketSender *)
Record quicPacketSender := mkSender {
  structure : option quicStructure;
  initialKeys : list quicInitialKey;
  buffer : list Z; buffer_len : Z;
  receivedCryptoData : bitmap;
  contiguousCryptoEnd : Z;
  result : string;
  closed : bool
}.
(** @go component/sniffer/quic_sniffer.go:136-142 QUICSniffer.WrapperSender *)
Definition WrapperSender : quicPacketSender := mkSender None [] [] 0 [] 0 "" false.

Definition set_structure (s : quicStructure) (q : quicPacketSender) : quicPacketSender :=
  mkSender (Some s) (initialKeys q) (buffer q) (buffer_len q) (receivedCryptoData q) (contiguousCryptoEnd q) (result q) (closed q).
Definition set_keys (k : list quicInitialKey) (q : quicPacketSender) : quicPacketSender :=
  mkSender (structure q) k (buffer q) (buffer_len q) (receivedCryptoData q) (contiguousCryptoEnd q) (result q) (closed q).
Definition set_crypto (b : list Z) (n : Z) (r : bitmap) (c : Z) (q : quicPacketSender) : quicPacketSender :=
  mkSender (structure q) (initialKeys q) b n r c (result q) (closed q).
Definition set_result (d : string) (q : quicPacketSender) : quicPacketSender :=
  mkSender (structure q) (initialKeys q) (buffer q) (buffer_len q) (receivedCryptoData q) (contiguousCryptoEnd q) d (closed q).

(** @go component/sniffer/quic_sniffer.go:205-218 quicPacketSender.close *)
Definition q_close (q : quicPacketSender) : quicPacketSender :=
  if closed q then q else mkSender (structure q) (initialKeys q) [] 0 [] 0 (result q) true.

(** Steps on the sender that can fail or panic; what they changed before stays. *)
Definition QM (A : Type) : Type := quicPacketSender -> quicPacketSender * Verdict A.
Definition q_bind {A B} (x : QM A) (f : A -> QM B) : QM B :=
  fun q => match x q with
           | (q, Found a) => f a q
           | (q, Need n) => (q, Need n)
           | (q, Fails e) => (q, Fails e)
           | (q, Panic) => (q, Panic)
           end.
Definition lift {A} (v : Verdict A) : QM A := fun q => (q, v).
Definition q_ret {A} (a : A) : QM A := lift (Found a).
Definition q_fail {A} (e : SniffErr) : QM A := lift (Fails e).
Definition q_modify (f : quicPacketSender -> quicPacketSender) : QM unit := fun q => (f q, Found tt).
Definition q_get {A} (f : quicPacketSender -> A) : QM A := fun q => (q, Found (f q)).
Declare Scope quic_scope.
Delimit Scope quic_scope with quic.
Notation "x ← y ; z" := (q_bind y (fun x => z)) (at level 20, y at level 100, z at level 200, only parsing) : quic_scope.
Notation "y ;; z" := (q_bind y (fun _ => z)) (at level 100, z at level 200, only parsing) : quic_scope.

(** ** The CRYPTO stream *)

(** [copy(dst[offset:], data)] *)
Definition copy_at (dst : list Z) (offset : Z) (data : list Z) : list Z :=
  ztake offset dst ++ ztake (zlen dst - offset) data ++ zdrop (offset + zlen data) dst.

(** [dirty] gives what the memory of a buffer of a capacity holds when the pool hands it out.
    @go component/sniffer/quic_sniffer.go:589-623 quicPacketSender.addCryptoData *)
Definition addCryptoData (dirty : Z -> list Z) (offset : Z) (data : list Z) : QM unit :=
  fun q =>
  if zlen data =? 0 then (q, Found tt)
  else if (maxCryptoStreamOffset <? offset) || (maxCryptoStreamOffset - offset <? zlen data) then (q, Fails ErrShortBuffer)
  else
    let end_ := offset + zlen data in
    if closed q then (q, Found tt)
    else
      let '(b, n) :=
        if zlen (buffer q) <? end_ then
          let c := pool_cap end_ in
          (copy_at (ztake c (dirty c ++ repeat 0 (Z.to_nat c))) 0 (ztake (buffer_len q) (buffer q)), end_)
        else (buffer q, if buffer_len q <? end_ then end_ else buffer_len q) in
      let b := copy_at b offset data in
      match setRange (receivedCryptoData q) offset end_ with
      | None => (q, Panic)
      | Some r =>
          if (offset <=? contiguousCryptoEnd q) && (contiguousCryptoEnd q <? end_) then
            match firstUnset r (contiguousCryptoEnd q) n with
            | None => (q, Panic)
            | Some c => (set_crypto b n r c q, Found tt)
            end
          else (set_crypto b n r (contiguousCryptoEnd q) q, Found tt)
      end.

(** @go component/sniffer/quic_sniffer.go:625-661 quicPacketSender.tryAssemble *)
Definition tryAssemble (q : quicPacketSender) : Verdict string :=
  if closed q then Found ""%string
  else if contiguousCryptoEnd q =? 0 then Found ""%string
  else
    (if tlsHandshakeHeaderLen <=? contiguousCryptoEnd q then
       b ← slice_of (buffer q) 0 tlsHandshakeHeaderLen;
       helloSize ← clientHelloSize b;
       if maxCryptoStreamOffset <? helloSize then Fails ErrShortBuffer else Found tt
     else Found tt);;
    data ← slice_of (buffer q) 0 (contiguousCryptoEnd q);
    match ReadClientHello data with
    | Need n => if maxCryptoStreamOffset <? n then Fails ErrShortBuffer else Found ""%string
    | v => v
    end.

(** ** Packet numbers *)

(** Within the values of packet numbers nothing overflows an [int64].
    @go component/sniffer/quic_sniffer.go:479-492 decodeQUICPacketNumber *)
Definition decodeQUICPacketNumber (length largest truncated : Z) : Z :=
  let expected := largest + 1 in
  let window := Z.shiftl 1 (length * 8) in
  let halfWindow := Z.quot window 2 in
  let mask := window - 1 in
  let candidate := Z.lor (Z.land expected (Z.lnot mask)) truncated in
  if (candidate <=? expected - halfWindow) && (candidate <? Z.shiftl 1 62 - window) then candidate + window
  else if (expected + halfWindow <? candidate) && (window <=? candidate) then candidate - window
  else candidate.

Section Packets.
Context (L : QuicLib) (dirty : Z -> list Z).

(** ** Keys *)

(** @go component/sniffer/quic_sniffer.go:703-717 hkdfExpandLabel *)
Definition hkdfExpandLabel (secret : list Z) (label : string) (length : Z) : Verdict (list Z) :=
  let b := [Z.shiftr (u16 length) 8; u8 length; u8 (6 + zlen (bytes_of label))] ++ bytes_of "tls13 " ++ bytes_of label ++ [0] in
  match hkdf_Expand L secret b length with
  | Some out => if zlen out =? length then Found out else Panic
  | None => Panic
  end.
(** @go component/sniffer/quic_sniffer.go:690-701 expandLabels *)
Definition expandLabels (destConnID : list Z) (s : quicStructure) : Verdict quicLabels :=
  let initialSecret := hkdf_Extract L destConnID (initialSalt s) in
  secret ← hkdfExpandLabel initialSecret "client in" 32;
  let lp := labelPrefix s in
  hp ← hkdfExpandLabel secret (String.append lp " hp") 16;
  key ← hkdfExpandLabel secret (String.append lp " key") 16;
  iv ← hkdfExpandLabel secret (String.append lp " iv") 12;
  Found (mkLabels hp key iv).
(** @go component/sniffer/quic_sniffer.go:682-688 newQUICInitialKey *)
Definition newQUICInitialKey (destConnID : list Z) (s : quicStructure) : Verdict quicInitialKey :=
  l ← expandLabels destConnID s; Found (mkKey destConnID l (-1)).

(** ** Decryption *)

(** [l[i] ^= x] *)
Definition xor_at (l : list Z) (i x : Z) : Verdict (list Z) := v ← byte_at l i; Found (<[Z.to_nat i := Z.lxor v x]> l).
(** [iv[len(iv)-1-i] ^= byte(uint64(n) >> (8 * i))] for [i] up to 7.
    @go component/sniffer/quic_sniffer.go:465-467 decryptQUICInitialPacket *)
Fixpoint xor_iv (n : nat) (i pn : Z) (iv : list Z) : Verdict (list Z) :=
  match n with
  | O => Found iv
  | S n => iv ← xor_at iv (zlen iv - 1 - i) (u8 (Z.shiftr (u64 pn) (8 * i))); xor_iv n (i + 1) pn iv
  end.
(** The packet number in the header is unmasked in place.
    @go component/sniffer/quic_sniffer.go:438-440 decryptQUICInitialPacket *)
Fixpoint unmask (n : nat) (i hdrLen : Z) (mask extHdr : list Z) : Verdict (list Z) :=
  match n with
  | O => Found extHdr
  | S n => m ← byte_at mask (1 + i); extHdr ← xor_at extHdr (hdrLen + i) m; unmask n (i + 1) hdrLen mask extHdr
  end.
(** [cache.Extend(n)] with this much used. *)
Definition extend (used n : Z) : Verdict Z := if Extend_ok L used n then Found (used + n) else Panic.

(** The result is the plain text and the packet number.  The block size of AES is 16.
    @go component/sniffer/quic_sniffer.go:409-475 decryptQUICInitialPacket *)
Definition decryptQUICInitialPacket (b : list Z) (hdrLen packetEnd : Z) (l : quicLabels) (largest : Z) : Verdict (list Z * Z) :=
  if packetEnd <? hdrLen + 4 + 16 then Fails errNotQUIC
  else
    used ← extend 0 16;
    sample ← slice_of b (hdrLen + 4) (hdrLen + 4 + 16);
    let mask := aes_Encrypt L (lb_hp l) sample in
    b0 ← byte_at b 0;
    m0 ← byte_at mask 0;
    let firstByte := Z.lxor b0 (Z.land m0 15) in
    let packetNumberLength := Z.land firstByte 3 + 1 in
    let extHdrLen := hdrLen + packetNumberLength in
    used ← extend used extHdrLen;
    extHdr ← slice_of b 0 extHdrLen;
    let extHdr := <[0%nat := firstByte]> extHdr in
    extHdr ← unmask (Z.to_nat packetNumberLength) 0 hdrLen mask extHdr;
    packetNumber ← slice_of extHdr hdrLen extHdrLen;
    if packetEnd <? extHdrLen then Fails errNotQUIC
    else
      let truncated := fold_left (fun n x => Z.lor (Z.shiftl n 8) x) packetNumber 0 in
      let decoded := decodeQUICPacketNumber packetNumberLength largest truncated in
      data ← slice_of b extHdrLen packetEnd;
      iv ← xor_iv 8 0 decoded (lb_iv l);
      _ ← extend used (zlen data);
      match gcm_Open L (lb_key l) iv data extHdr with
      | Some decrypted => Found (decrypted, decoded)
      | None => Fails errQUICDecryptionFailed
      end.

(** What trying the keys in turn gives: the keys afterwards and the text; or a refusal by
    all of them, with the last error, whether one is of this connection and the largest
    packet number.
    @go component/sniffer/quic_sniffer.go:363-380 quicPacketSender.decryptQUICInitialPacket *)
Fixpoint try_keys (b : list Z) (hdrLen packetEnd : Z) (id : list Z) (keys : list quicInitialKey) (err : SniffErr) (current : bool) (largest : Z) :
    Verdict (list quicInitialKey * list Z + SniffErr * bool * Z) :=
  match keys with
  | [] => Found (inr (err, current, largest))
  | key :: keys =>
      let current := current || bool_decide (id = destConnID key) in
      let largest := if largest <? largestPacketNumber key then largestPacketNumber key else largest in
      match decryptQUICInitialPacket b hdrLen packetEnd (labels key) (largestPacketNumber key) with
      | Found (decrypted, pn) =>
          Found (inl ((if largestPacketNumber key <? pn then mkKey (destConnID key) (labels key) pn else key) :: keys, decrypted))
      | Panic => Panic
      | Need n => Need n
      | Fails e =>
          r ← try_keys b hdrLen packetEnd id keys e current largest;
          Found (match r with inl (keys, d) => inl (key :: keys, d) | inr x => inr x end)
      end
  end.
(** @go component/sniffer/quic_sniffer.go:355-405 quicPacketSender.decryptQUICInitialPacket *)
Definition q_decrypt (b : list Z) (hdrLen packetEnd : Z) (id : list Z) (s : quicStructure) : QM (list Z) := (
  keys ← q_get initialKeys;
  keys ← (match keys with [] => k ← lift (newQUICInitialKey id s); q_ret [k] | _ => q_ret keys end);
  q_modify (set_keys keys);;
  r ← lift (try_keys b hdrLen packetEnd id keys ErrNoClue false (-1));
  match r with
  | inl (keys, decrypted) => q_modify (set_keys keys);; q_ret decrypted
  | inr (err, current, largest) =>
      if current then q_fail err
      else
        candidate ← lift (newQUICInitialKey id s);
        r ← lift (decryptQUICInitialPacket b hdrLen packetEnd (labels candidate) largest);
        let candidate := mkKey (destConnID candidate) (labels candidate) r.2 in
        q_modify (set_keys (if decide (length keys = 1%nat) then keys ++ [candidate] else <[1%nat := candidate]> keys));;
        q_ret r.1
  end)%quic.

(** ** Frames *)

(** A read of a field, whose failure is the end of the data. *)
Definition field (l : list Z) : Verdict (Z * list Z) := match varint_Read L l with Some r => Found r | None => Fails ErrUnexpectedEOF end.

(** [n] fields one after another. *)
Fixpoint fields (n : nat) (l : list Z) : Verdict (list Z) :=
  match n with O => Found l | S n => r ← field l; fields n r.2 end.

(** A range takes two bytes at least.
    @go component/sniffer/quic_sniffer.go:528-535 quicPacketSender.readQUICFrames *)
Fixpoint ack_ranges (fuel : nat) (count : Z) (l : list Z) : Verdict (list Z) :=
  match fuel with
  | O => Panic
  | S fuel => if 0 <? count then l ← fields 2 l; ack_ranges fuel (count - 1) l else Found l
  end.

(** A length and so many bytes.
    @go component/sniffer/quic_sniffer.go:552-559 quicPacketSender.readQUICFrames *)
Definition field_bytes (l : list Z) : Verdict (list Z * list Z) :=
  r ← field l;
  let '(length, l) := r in
  if zlen l <? length then Fails ErrUnexpectedEOF
  else match ReadBytes L length l with Some r => Found r | None => Fails ErrUnexpectedEOF end.

(** The padding before a frame is skipped.
    @go component/sniffer/quic_sniffer.go:507-510 quicPacketSender.readQUICFrames *)
Fixpoint skip_padding (fuel : nat) (frameType : Z) (l : list Z) : Z * list Z :=
  match fuel with
  | O => (frameType, l)
  | S fuel =>
      if (frameType =? framePadding) && (0 <? zlen l) then
        match ReadByte L l with Some (t, l) => skip_padding fuel t l | None => skip_padding fuel 0 l end
      else (frameType, l)
  end.

(** The fields of a frame of this type: what is left, and the CRYPTO data if it carries any.
    @go component/sniffer/quic_sniffer.go:511-581 quicPacketSender.readQUICFrames *)
Definition read_frame (frameType : Z) (l : list Z) : Verdict (list Z * option (Z * list Z)) :=
  if (frameType =? framePadding) || (frameType =? framePing) then Found (l, None)
  else if (frameType =? frameAck) || (frameType =? frameAckWithECN) then
    l ← fields 2 l;
    r ← field l;
    let '(ackRangeCount, l) := r in
    l ← fields 1 l;
    l ← ack_ranges (S (length l)) ackRangeCount l;
    l ← (if frameType =? frameAckWithECN then fields 3 l else Found l);
    Found (l, None)
  else if frameType =? frameCrypto then
    r ← field l;
    let '(offset, l) := r in
    r ← field_bytes l;
    let '(data, l) := r in
    Found (l, Some (offset, data))
  else if frameType =? frameConnectionClose then
    l ← fields 2 l;
    r ← field_bytes l;
    Found (r.2, None)
  else Fails errNotQUICInitial.

(** Each frame takes a byte at least.
    @go component/sniffer/quic_sniffer.go:496-584 quicPacketSender.readQUICFrames *)
Fixpoint readQUICFrames (fuel : nat) (l : list Z) : QM unit :=
  match fuel with
  | O => lift Panic
  | S fuel =>
      if zlen l =? 0 then q_ret tt
      else (
        c ← q_get closed;
        if c : bool then q_ret tt
        else
          let '(frameType, l) := skip_padding (S (length l)) framePadding l in
          r ← lift (read_frame frameType l);
          let '(l, crypto) := r in
          (match crypto with Some (offset, data) => addCryptoData dirty offset data | None => q_ret tt end);;
          readQUICFrames fuel l)%quic
  end.

(** ** Packets *)

(** @go component/sniffer/quic_sniffer.go:663-680 quicPacketSender.getQUICStructure *)
Definition getQUICStructure (vb : list Z) : QM quicStructure := (
  st ← q_get structure;
  match st with
  | Some s => q_ret s
  | None =>
      match List.find (fun v => ver v =? be_get vb) listQUICVersions with
      | Some v => q_modify (set_structure v);; q_ret v
      | None => q_fail errNotQUIC
      end
  end)%quic.

(** A read that must succeed in a QUIC packet. *)
Definition must {A} (r : option A) : QM A := match r with Some a => q_ret a | None => q_fail errNotQUIC end.

(** The end of a long-header packet, and where its protected part begins if it is an Initial.
    @go component/sniffer/quic_sniffer.go:272-328 quicPacketSender.readQUICPacket *)
Definition read_long_header (b l : list Z) (typeByte : Z) : QM (Z * option (Z * list Z * quicStructure)) := (
  r ← must (ReadBytes L 4 l);
  let '(vb, l) := r in
  s ← getQUICStructure vb;
  r ← must (ReadByte L l);
  let '(connIDLen, l) := r in
  if connIDLen =? 0 then q_fail errNotQUIC
  else
    r ← must (ReadBytes L connIDLen l);
    let '(destConnID, l) := r in
    r ← must (ReadByte L l);
    let '(n, l) := r in
    r ← must (ReadBytes L n l);
    let l := r.2 in
    let packetType := Z.shiftr (Z.land typeByte 48) 4 in
    if packetType =? typeRetry s then q_ret (zlen b, None)
    else
      l ← (if packetType =? typeInitial s then
             r ← must (varint_Read L l);
             let '(tokenLen, l) := r in
             if zlen l <? tokenLen then q_fail errNotQUIC
             else r ← must (ReadBytes L tokenLen l); q_ret r.2
           else q_ret l);
      r ← must (varint_Read L l);
      let '(packetLen, l) := r in
      let hdrLen := zlen b - zlen l in
      if zlen b - hdrLen <? packetLen then q_fail errNotQUIC
      else
        let packetEnd := hdrLen + packetLen in
        q_ret (packetEnd, if packetType =? typeInitial s then Some (hdrLen, destConnID, s) else None))%quic.

(** @go component/sniffer/quic_sniffer.go:254-349 quicPacketSender.readQUICPacket *)
Definition readQUICPacket (b : list Z) (coalesced : bool) : QM Z := (
  r ← must (ReadByte L b);
  let '(typeByte, l) := r in
  if Z.land typeByte 128 =? 0 then
    if coalesced then q_ret (zlen b) else q_fail errNotQUICInitial
  else if Z.land typeByte 64 =? 0 then q_fail errNotQUICInitial
  else
    r ← read_long_header b l typeByte;
    match r with
    | (packetEnd, None) => q_ret packetEnd
    | (packetEnd, Some (hdrLen, destConnID, s)) =>
        fun q =>
          match q_decrypt b hdrLen packetEnd destConnID s q with
          | (q, Fails e) => if bool_decide (e = errQUICDecryptionFailed) then (q, Found packetEnd) else (q, Fails e)
          | (q, Found decrypted) => (readQUICFrames (S (length decrypted)) decrypted;; q_ret packetEnd) q
          | (q, Need n) => (q, Need n)
          | (q, Panic) => (q, Panic)
          end
    end)%quic.

(** The packets of a datagram, of one byte at least.
    @go component/sniffer/quic_sniffer.go:223-234 quicPacketSender.readQUICData *)
Fixpoint read_packets (fuel : nat) (b : list Z) (firstPacket : bool) : QM unit :=
  match fuel with
  | O => lift Panic
  | S fuel =>
      if 0 <? zlen b then (
        packetLen ← readQUICPacket b (negb firstPacket);
        if (packetLen <=? 0) || (zlen b <? packetLen) then q_fail errNotQUIC
        else read_packets fuel (zdrop packetLen b) false)%quic
      else q_ret tt
  end.
(** @go component/sniffer/quic_sniffer.go:220-248 quicPacketSender.readQUICData *)
Definition readQUICData (b : list Z) : QM unit := (
  read_packets (S (length b)) b true;;
  v ← q_get tryAssemble;
  domain ← lift v;
  if String.eqb domain "" then q_ret tt
  else q_modify (set_result domain);; q_modify q_close)%quic.

(** [None] is a panic.  The datagram goes on to the relay in any case.
    @go component/sniffer/quic_sniffer.go:166-181 quicPacketSender.Send *)
Definition q_Send (data : list Z) (q : quicPacketSender) : option quicPacketSender :=
  if closed q then Some q
  else
    match readQUICData data q with
    | (q, Found _) => Some q
    | (_, Panic) => None
    | (q, _) => Some (q_close q)
    end.
End Packets.

(** The name that [replaceDomain] is called with, if it is: the flow waits until the
    sender is done or for [quicWaitConn].
    @go component/sniffer/quic_sniffer.go:184-197 quicPacketSender.DoSniff *)
Definition q_DoSniff (timed_out : bool) (q : quicPacketSender) : quicPacketSender * option string :=
  if timed_out then (q_close q, None)
  else (q, if String.eqb (result q) "" then None else Some (result q)).
(** @go component/sniffer/quic_sniffer.go:132-134 QUICSniffer.SniffData *)
Definition quic_SniffData (b : list Z) : Verdict string := Fails ErrorUnsupportedSniffer.
