(* ===== verification/SniffQuicProps.v ===== *)
(** * Sniffing QUIC: theorems

    What the sender keeps of the CRYPTO stream refines a map from offsets to bytes, however
    the pieces come.  No bytes make it panic. *)

From Stdlib Require Import String.
From S2P Require Import Prelude Names SniffTls SniffTlsProps SniffBitmap SniffQuic.
From stdpp Require Import fin_maps.
#[local] Open Scope list_scope.
#[local] Open Scope Z_scope.

(** ** Buffers *)

Lemma pool_cap_fits n : 0 < n <= 65536 -> n <= pool_cap n <= 65536.
Proof.
  intros Hn. unfold pool_cap. rewrite (proj2 (Z.ltb_ge _ _)) by lia. cbv zeta. destruct (Z.ltb_spec 64 n) as [Hl|Hl]; [|change (Z.shiftl 1 (0 + 6)) with 64; lia].
  pose proof (Z.log2_spec n ltac:(lia)) as [H1 H2]. assert (Hlog : 6 <= Z.log2 n <= 16).
  { assert (Z.log2 n < 17) by (apply Z.log2_lt_pow2; lia). split; [apply Z.log2_le_pow2; lia|lia]. }
  assert (Hm : pool_msb n = Z.log2 n).
  { unfold pool_msb, bits_Len, u32, u16. rewrite (Z.mod_small n) by lia. rewrite (proj2 (Z.leb_gt _ _)) by lia. rewrite Z.mod_small; lia. }
  rewrite Hm, !Z.shiftl_1_l. destruct (Z.eqb_spec n (2 ^ Z.log2 n)) as [E|Hne]; cbn [negb].
  - replace (Z.log2 n - 6 + 6) with (Z.log2 n) by lia. rewrite <- E. lia.
  - unfold u16. rewrite Z.mod_small by lia. replace (Z.log2 n + 1 - 6 + 6) with (Z.succ (Z.log2 n)) by lia.
    split; [lia|]. change 65536 with (2 ^ 16). apply Z.pow_le_mono_r; [lia|]. destruct (decide (Z.log2 n = 16)) as [E|]; [|lia]. rewrite E in *. lia.
Qed.

Lemma zlen_copy_at dst o d : 0 <= o -> o + zlen d <= zlen dst -> zlen (copy_at dst o d) = zlen dst.
Proof. intros Ho Hl. unfold copy_at, ztake, zdrop, zlen in *. rewrite !length_app, !length_take, !length_drop. lia. Qed.
Lemma lookup_copy_at dst (o : nat) d (i : nat) : Z.of_nat o + zlen d <= zlen dst ->
  copy_at dst (Z.of_nat o) d !! i = if decide (o <= i < o + length d)%nat then d !! (i - o)%nat else dst !! i.
Proof.
  intros Hl. unfold copy_at, ztake, zdrop, zlen in *. rewrite Nat2Z.id, (take_ge d) by lia. replace (Z.to_nat (Z.of_nat o + Z.of_nat (length d))) with (o + length d)%nat by lia.
  case_decide as Hi.
  - rewrite lookup_app_r by (rewrite length_take; lia). rewrite length_take, Nat.min_l by lia. rewrite lookup_app_l by lia. done.
  - destruct (decide (i < o)%nat) as [Hlt|Hge]; [rewrite lookup_app_l by (rewrite length_take; lia); by rewrite lookup_take_lt|].
    rewrite lookup_app_r by (rewrite length_take; lia). rewrite length_take, Nat.min_l by lia. rewrite lookup_app_r by lia.
    rewrite lookup_drop. f_equal. lia.
Qed.

(** ** The stream *)

(** The bytes of the stream that have come, by offset; later ones replace earlier ones. *)
Definition crypto_write (m : gmap nat Z) (offset : Z) (data : list Z) : gmap nat Z := map_seq (Z.to_nat offset) data ∪ m.

Lemma lookup_crypto_write m (o : nat) d i :
  crypto_write m (Z.of_nat o) d !! i = if decide (o <= i < o + length d)%nat then d !! (i - o)%nat else m !! i.
Proof.
  unfold crypto_write. rewrite Nat2Z.id. case_decide as Hi.
  - destruct (lookup_lt_is_Some_2 d (i - o)) as [x Hx]; [lia|]. rewrite Hx. apply lookup_union_Some_l, lookup_map_seq_Some. split; [lia|done].
  - rewrite lookup_union_r; [done|]. apply lookup_map_seq_None. lia.
Qed.

(** The sender has this of the stream: the bits tell which bytes, the buffer has them, and
    the contiguous part ends at the first byte that is missing. *)
Record stream_of (q : quicPacketSender) (m : gmap nat Z) : Prop := {
  so_open : closed q = false;
  so_bm : bm_ok (receivedCryptoData q);
  so_bits : forall i : nat, bit (receivedCryptoData q) (Z.of_nat i) = bool_decide (is_Some (m !! i));
  so_bytes : forall (i : nat) x, m !! i = Some x -> buffer q !! i = Some x /\ Z.of_nat i < buffer_len q;
  so_len : 0 <= buffer_len q <= zlen (buffer q) /\ zlen (buffer q) <= maxCryptoStreamOffset;
  so_end : 0 <= contiguousCryptoEnd q <= buffer_len q;
  so_prefix : forall i : nat, Z.of_nat i < contiguousCryptoEnd q -> is_Some (m !! i);
  so_gap : m !! Z.to_nat (contiguousCryptoEnd q) = None
}.

Lemma stream_of_start : stream_of WrapperSender ∅.
Proof.
  split; try (done || by constructor || by intros i x ?%lookup_empty_Some). intros i Hi. cbn in Hi. lia.
Qed.

Section Stream.
Context (dirty : Z -> list Z).

(** The buffer that a piece is copied into. *)
Lemma grow_buffer q m e : stream_of q m -> 0 < e <= maxCryptoStreamOffset -> exists b n,
  (if zlen (buffer q) <? e then (copy_at (ztake (pool_cap e) (dirty (pool_cap e) ++ repeat 0 (Z.to_nat (pool_cap e)))) 0 (ztake (buffer_len q) (buffer q)), e)
   else (buffer q, if buffer_len q <? e then e else buffer_len q)) = (b, n) /\
  e <= n <= zlen b /\ zlen b <= maxCryptoStreamOffset /\ buffer_len q <= n /\ (n = e \/ n = buffer_len q) /\
  forall (i : nat) x, m !! i = Some x -> b !! i = Some x.
Proof.
  intros H He. destruct (so_len _ _ H) as [H1 H2]. change maxCryptoStreamOffset with 65536 in *. destruct (Z.ltb_spec (zlen (buffer q)) e) as [Hlt|Hge].
  - pose proof (pool_cap_fits e ltac:(lia)) as Hc. set (c := pool_cap e) in *. set (f := ztake c _).
    assert (Hf : zlen f = c) by (unfold f, ztake, zlen; rewrite length_take, length_app, repeat_length; lia).
    assert (Hp : zlen (ztake (buffer_len q) (buffer q)) = buffer_len q) by (by apply zlen_ztake_le).
    eexists _, _. split; [done|]. rewrite zlen_copy_at by lia. split_and!; [lia..|by left|]. intros i x Hx.
    destruct (so_bytes _ _ H i x Hx) as [Hbx Hi]. change 0 with (Z.of_nat 0). rewrite lookup_copy_at by lia.
    assert (Hlen : length (ztake (buffer_len q) (buffer q)) = Z.to_nat (buffer_len q)) by (unfold zlen in Hp; lia).
    rewrite Hlen. rewrite decide_True by lia. unfold ztake. rewrite Nat.sub_0_r, lookup_take_lt by lia. done.
  - eexists _, _. split; [done|]. destruct (Z.ltb_spec (buffer_len q) e); split_and!; try lia; try (by left + right); try (intros i x Hx; by apply (so_bytes _ _ H)).
Qed.

(** Adding a piece within the bound adds it to the map; one beyond is refused and changes nothing. *)
Lemma addCryptoData_adds q m offset data : stream_of q m -> 0 <= offset ->
  if bool_decide (data = []) || (offset + zlen data <=? maxCryptoStreamOffset)
  then exists q', addCryptoData dirty offset data q = (q', Found tt) /\ stream_of q' (crypto_write m offset data) /\
    structure q' = structure q /\ initialKeys q' = initialKeys q /\ result q' = result q
  else addCryptoData dirty offset data q = (q, Fails ErrShortBuffer).
Proof.
  intros H Ho. unfold addCryptoData. destruct (bool_decide (data = [])) eqn:Ed.
  { apply bool_decide_eq_true in Ed as ->. cbn. exists q. split; [done|]. split; [|done]. unfold crypto_write. cbn. by rewrite (left_id_L ∅ (∪)). }
  apply bool_decide_eq_false in Ed. assert (Hd : 0 < zlen data) by (destruct data; [done|unfold zlen; cbn; lia]).
  rewrite (proj2 (Z.eqb_neq _ _)) by lia. cbn [orb]. destruct (Z.leb_spec (offset + zlen data) maxCryptoStreamOffset) as [Hle|Hgt].
  2:{ destruct (Z.ltb_spec maxCryptoStreamOffset offset), (Z.ltb_spec (maxCryptoStreamOffset - offset) (zlen data)); try done. lia. }
  rewrite !(proj2 (Z.ltb_ge _ _)) by lia. cbn [orb]. rewrite (so_open _ _ H). cbv zeta.
  destruct (grow_buffer q m (offset + zlen data) H ltac:(lia)) as (b & n & -> & Hn & Hb & Hqn & Hnn & Hkeep).
  destruct (setRange_sets _ offset (offset + zlen data) (so_bm _ _ H) ltac:(lia)) as (r & -> & Hr & Hbit).
  { change maxCryptoStreamOffset with 65536 in *. lia. }
  destruct (so_end _ _ H) as [Hc0 Hc1]. pose proof (so_gap _ _ H) as Hgap.
  set (o := Z.to_nat offset). assert (Eo : offset = Z.of_nat o) by lia. assert (Hlen : zlen data = Z.of_nat (length data)) by done.
  set (m' := crypto_write m offset data). assert (Hm' : forall i, m' !! i = if decide (o <= i < o + length data)%nat then data !! (i - o)%nat else m !! i).
  { intros i. unfold m'. rewrite Eo. apply lookup_crypto_write. }
  assert (Hin : forall i, (o <= i < o + length data)%nat -> is_Some (m' !! i)).
  { intros i Hi. rewrite Hm', decide_True by done. apply lookup_lt_is_Some_2. lia. }
  assert (Hbits : forall i : nat, bit r (Z.of_nat i) = bool_decide (is_Some (m' !! i))).
  { intros i. rewrite Hbit, (so_bits _ _ H), Hm' by lia. case_decide as Hi.
    - rewrite (bool_decide_eq_true_2 (is_Some (data !! _))) by (apply lookup_lt_is_Some_2; lia). bcase.
    - destruct (bool_decide (is_Some (m !! i))); bcase. }
  assert (Hbytes : forall (i : nat) x, m' !! i = Some x -> copy_at b offset data !! i = Some x /\ Z.of_nat i < n).
  { intros i x Hx. rewrite Hm' in Hx. rewrite Eo, lookup_copy_at by lia. case_decide as Hi; [split; [done|lia]|].
    split; [by apply Hkeep|]. pose proof (so_bytes _ _ H i x Hx). lia. }
  assert (Hold : forall i, is_Some (m !! i) -> is_Some (m' !! i)) by (intros i Hi; rewrite Hm'; case_decide; [apply lookup_lt_is_Some_2; lia|done]).
  assert (Hout : forall i, m !! i = None -> ~ (o <= i < o + length data)%nat -> m' !! i = None) by (intros i Hi Hni; by rewrite Hm', decide_False).
  destruct ((offset <=? contiguousCryptoEnd q) && (contiguousCryptoEnd q <? offset + zlen data)) eqn:Ecase.
  - destruct (firstUnset_finds r (contiguousCryptoEnd q) n Hr ltac:(lia)) as (u & -> & Hu & Hset & Hunset).
    eexists. split; [done|]. split; [|done]. split; cbn; try done; [apply H|by rewrite zlen_copy_at by lia; lia|lia| |].
    + intros i Hi. destruct (Z_lt_le_dec (Z.of_nat i) (contiguousCryptoEnd q)) as [Hlt|Hge]; [by apply Hold, (so_prefix _ _ H)|].
      specialize (Hset (Z.of_nat i) ltac:(lia)). rewrite Hbits in Hset. by apply bool_decide_eq_true in Hset.
    + destruct (Z_lt_le_dec u n) as [Hlt|Hge].
      * specialize (Hunset Hlt). replace u with (Z.of_nat (Z.to_nat u)) in Hunset by lia. rewrite Hbits in Hunset.
        apply bool_decide_eq_false in Hunset. by apply eq_None_not_Some.
      * apply eq_None_not_Some. intros [x Hx]. destruct (Hbytes _ _ Hx). lia.
  - eexists. split; [done|]. split; [|done]. split; cbn; try done; [apply H|by rewrite zlen_copy_at by lia; lia|lia| |].
    + intros i Hi. by apply Hold, (so_prefix _ _ H).
    + apply Hout; [done|]. apply andb_false_iff in Ecase as [E|E]; [apply Z.leb_gt in E|apply Z.ltb_ge in E]; lia.
Qed.
End Stream.

(** ** Pieces of a stream *)

(** Adding these pieces one after another. *)
Fixpoint add_pieces (dirty : Z -> list Z) (ps : list (Z * list Z)) : QM unit :=
  match ps with [] => q_ret tt | (offset, data) :: ps => q_bind (addCryptoData dirty offset data) (fun _ => add_pieces dirty ps) end.
(** The piece is what the stream has at its offset. *)
Definition piece_of (s : list Z) (p : Z * list Z) : Prop := exists pre post, s = pre ++ p.2 ++ post /\ zlen pre = p.1.
Definition covered (ps : list (Z * list Z)) (i : Z) : Prop := exists p, In p ps /\ p.1 <= i < p.1 + zlen p.2.

Lemma piece_lookup s p (i : nat) : piece_of s p -> p.1 <= Z.of_nat i < p.1 + zlen p.2 -> exists x, s !! i = Some x /\ p.2 !! (i - Z.to_nat p.1)%nat = Some x.
Proof.
  intros (pre & post & -> & Hp) Hi. unfold zlen in *. destruct (lookup_lt_is_Some_2 p.2 (i - Z.to_nat p.1)) as [x Hx]; [lia|].
  exists x. split; [|done]. rewrite lookup_app_r by lia. rewrite lookup_app_l by lia. by replace (i - length pre)%nat with (i - Z.to_nat p.1)%nat by lia.
Qed.
Lemma piece_fits s p : piece_of s p -> 0 <= p.1 /\ p.1 + zlen p.2 <= zlen s.
Proof. intros (pre & post & -> & <-). rewrite !zlen_app. pose proof (zlen_nonneg pre). pose proof (zlen_nonneg post). lia. Qed.

Section Pieces.
Context (dirty : Z -> list Z) (s : list Z) (Hs : zlen s <= maxCryptoStreamOffset).

Lemma add_pieces_stream ps : Forall (piece_of s) ps -> forall q m, stream_of q m -> (forall i x, m !! i = Some x -> s !! i = Some x) ->
  exists q' m', add_pieces dirty ps q = (q', Found tt) /\ stream_of q' m' /\ (forall i x, m' !! i = Some x -> s !! i = Some x) /\
    (forall i : nat, is_Some (m' !! i) <-> is_Some (m !! i) \/ covered ps (Z.of_nat i)).
Proof.
  induction 1 as [|[o d] ps Hp _ IH]; intros q m Hq Hm; cbn [add_pieces].
  { exists q, m. split_and!; [done..|]. intros i. split; [by left|]. intros [|(? & [] & _)]; done. }
  destruct (piece_fits _ _ Hp) as [Ho Hf]. cbn [fst snd] in *. pose proof (addCryptoData_adds dirty q m o d Hq Ho) as Ha.
  rewrite (proj2 (Z.leb_le _ _)), orb_true_r in Ha by lia. destruct Ha as (q1 & E & Hq1 & _). unfold q_bind. rewrite E.
  assert (Hl : forall i, crypto_write m o d !! i = if decide (Z.to_nat o <= i < Z.to_nat o + length d)%nat then d !! (i - Z.to_nat o)%nat else m !! i).
  { intros i. replace o with (Z.of_nat (Z.to_nat o)) at 1 by lia. apply lookup_crypto_write. }
  destruct (IH q1 _ Hq1) as (q' & m' & E' & Hq' & Hm' & Hc).
  { intros i x Hx. rewrite Hl in Hx. case_decide as Hi; [|by apply Hm].
    destruct (piece_lookup s (o, d) i Hp) as (y & Hy & Hy'); [cbn; unfold zlen; lia|]. cbn in Hy'. by rewrite <- Hx, Hy, Hy'. }
  exists q', m'. split_and!; [done..|]. intros i. rewrite Hc, Hl. unfold covered. case_decide as Hi.
  - split; [|intros _; left; apply lookup_lt_is_Some_2; lia]. intros _. right. exists (o, d). split; [by left|]. cbn. unfold zlen. lia.
  - split; [intros [?|(p & Hin & ?)]; [by left|right; exists p; split; [by right|done]]|].
    intros [?|(p & [<-|Hin] & Hc')]; [by left| |right; by exists p]. cbn in Hc'. unfold zlen in Hc'. lia.
Qed.

(** What a sender has when some pieces have come. *)
Lemma crypto_pieces ps : Forall (piece_of s) ps -> exists q, add_pieces dirty ps WrapperSender = (q, Found tt) /\ closed q = false /\
  0 <= contiguousCryptoEnd q <= zlen s /\ contiguousCryptoEnd q <= zlen (buffer q) /\
  ztake (contiguousCryptoEnd q) (buffer q) = ztake (contiguousCryptoEnd q) s /\
  (forall i, 0 <= i < contiguousCryptoEnd q -> covered ps i) /\ ~ covered ps (contiguousCryptoEnd q).
Proof.
  intros Hps. destruct (add_pieces_stream ps Hps _ _ stream_of_start) as (q & m & E & Hq & Hm & Hc); [intros i x Hx; by rewrite lookup_empty in Hx|].
  set (n := contiguousCryptoEnd q) in *. pose proof (so_end _ _ Hq) as Hn. fold n in Hn. pose proof (so_len _ _ Hq) as [Hl1 Hl2].
  assert (Hpre : forall i : nat, Z.of_nat i < n -> exists x, m !! i = Some x /\ s !! i = Some x /\ buffer q !! i = Some x).
  { intros i Hi. destruct (so_prefix _ _ Hq i Hi) as [x Hx]. exists x. split; [done|]. split; [by apply Hm|by apply (so_bytes _ _ Hq)]. }
  assert (Hns : n <= zlen s).
  { destruct (Z_le_gt_dec n (zlen s)) as [|Hgt]; [done|]. destruct (Hpre (length s)) as (x & _ & Hx & _); [unfold zlen in Hgt; lia|].
    apply lookup_lt_Some in Hx. lia. }
  exists q. split; [done|]. split; [apply Hq|]. split; [lia|]. split; [lia|]. split_and!.
  - unfold ztake. apply list_eq. intros i. destruct (decide (i < Z.to_nat n)%nat) as [Hi|Hi].
    + rewrite !lookup_take_lt by lia. destruct (Hpre i ltac:(lia)) as (x & _ & -> & ->). done.
    + rewrite !lookup_take_ge by lia. done.
  - intros i Hi. destruct (Hpre (Z.to_nat i) ltac:(lia)) as (x & Hx & _). assert (H : is_Some (m !! Z.to_nat i)) by by eexists.
    apply Hc in H as [[? H]|H]; [by rewrite lookup_empty in H|]. by rewrite Z2Nat.id in H by lia.
  - intros Hcov. pose proof (so_gap _ _ Hq) as Hg. fold n in Hg. assert (H : is_Some (m !! Z.to_nat n)) by (apply Hc; right; by rewrite Z2Nat.id by lia).
    rewrite Hg in H. by destruct H.
Qed.
End Pieces.

(** whatever pieces of a stream of at most 64 KiB come, in any order, more than once and overlapping,
    the sender keeps the stream up to the first byte that no piece has, and no more: the buffer
    begins with these bytes, and the bytes left by an earlier use of its memory are not among them. *)
Lemma crypto_stream_assembled dirty s ps : zlen s <= maxCryptoStreamOffset -> Forall (piece_of s) ps ->
  exists q n, add_pieces dirty ps WrapperSender = (q, Found tt) /\ contiguousCryptoEnd q = n /\
    slice_of (buffer q) 0 n = Found (ztake n s) /\ (forall i, 0 <= i < n -> covered ps i) /\ ~ covered ps n.
Proof.
  intros Hs Hps. destruct (crypto_pieces dirty s Hs ps Hps) as (q & E & _ & Hn & Hb & Ht & Hc & Hg). exists q, (contiguousCryptoEnd q).
  split; [done|]. split; [done|]. split; [|done]. unfold slice_of. rewrite !(proj2 (Z.leb_le _ _)) by lia. cbn [andb].
  by rewrite Z.sub_0_r, <- Ht.
Qed.

Lemma bytes_ok_take n d : bytes_ok d -> bytes_ok (ztake n d).
Proof. apply Forall_take. Qed.

(** The checks of the size on a part of a well-formed hello. *)
Lemma clientHelloSize_part h (d e : list Z) : enc_hello h = d ++ e -> bytes_ok d -> 4 <= zlen d -> zlen (enc_body h) < 2 ^ 24 ->
  clientHelloSize d = Found (zlen (enc_hello h)).
Proof.
  intros E Hd Hl Hb. pose proof (clientHelloSize_enc h Hb) as Hs. rewrite E in Hs. rewrite zlen_enc_hello.
  pose proof (reads_size d Hd Hl) as H. unfold reads in H. destruct (clientHelloSize d) eqn:ES; [| | |done].
  - destruct H as [_ H]. by rewrite H in Hs.
  - exfalso. unfold clientHelloSize, byte_at, v_bind in ES. by repeat case_match.
  - by rewrite H in Hs.
Qed.

(** C22: when pieces of a well-formed ClientHello of at most 64 KiB have come in any order, the sender
    either waits or has found the host name, never another name and never an error; when all its bytes have
    come, it has found the name. *)
Theorem quic_hello_sniffed dirty h pre name post ps : hello_fits h -> hl_extensions h = pre ++ sni name :: post ->
  Forall (fun x => x.1 <> 0) pre -> HasSuffix (string_of name) "." = false -> bytes_ok (enc_hello h) ->
  zlen (enc_hello h) <= maxCryptoStreamOffset -> Forall (piece_of (enc_hello h)) ps ->
  exists q, add_pieces dirty ps WrapperSender = (q, Found tt) /\
    (tryAssemble q = Found EmptyString \/ tryAssemble q = Found (string_of name)) /\
    ((forall i, 0 <= i < zlen (enc_hello h) -> covered ps i) -> tryAssemble q = Found (string_of name)).
Proof.
  intros Hh He Hpre Hdot Hb Hs Hps. destruct (crypto_pieces dirty _ Hs ps Hps) as (q & E & Hcl & Hn & Hbuf & Ht & Hc & Hg).
  pose proof (ReadClientHello_sni h pre name post Hh He Hpre Hdot) as Hname. exists q. split; [done|].
  set (n := contiguousCryptoEnd q) in *. set (hello := enc_hello h) in *. set (d := ztake n hello) in *.
  assert (Hd : hello = d ++ zdrop n hello) by (unfold d, ztake, zdrop; by rewrite take_drop).
  assert (Hdl : zlen d = n) by (unfold d; apply zlen_ztake_le; lia). assert (Hdb : bytes_ok d) by (by apply Forall_take).
  assert (Hsl : slice_of (buffer q) 0 n = Found d).
  { unfold slice_of. rewrite !(proj2 (Z.leb_le _ _)) by lia. cbn [andb]. by rewrite Z.sub_0_r, <- Ht. }
  assert (Hsize : zlen (enc_body h) < 2 ^ 24) by (unfold hello in Hs; rewrite zlen_enc_hello in Hs; change maxCryptoStreamOffset with 65536 in Hs; lia).
  assert (HR : exists v, ReadClientHello d = v /\ (v = Found (string_of name) \/ exists k, v = Need k /\ k <= zlen hello /\ n < zlen hello)).
  { pose proof (ReadClientHello_reads d Hdb) as H. unfold reads in H. eexists. split; [done|]. destruct (ReadClientHello d) as [a|k|x|] eqn:ER; [| | |done].
    - left. destruct H as [_ H]. specialize (H (zdrop n hello)). rewrite <- Hd, Hname in H. by injection H as <-.
    - right. exists k. split; [done|]. destruct H as [[H1 _] H]. specialize (H (zdrop n hello)). rewrite <- Hd in H.
      destruct (Z_lt_le_dec (zlen hello) k) as [Hlt|]; [|lia]. rewrite Hname in H. by discriminate H.
    - specialize (H (zdrop n hello)). by rewrite <- Hd, Hname in H. }
  assert (HT : n <> 0 -> tryAssemble q = match ReadClientHello d with Need _ => Found EmptyString | v => v end).
  { intros Hn0. unfold tryAssemble. rewrite Hcl. fold n. rewrite (proj2 (Z.eqb_neq _ _) Hn0).
    assert (Hcheck : (if tlsHandshakeHeaderLen <=? n then v_bind (slice_of (buffer q) 0 tlsHandshakeHeaderLen) (fun b => v_bind (clientHelloSize b) (fun k => if maxCryptoStreamOffset <? k then Fails ErrShortBuffer else Found tt)) else Found tt) = Found tt).
    { unfold tlsHandshakeHeaderLen. destruct (Z.leb_spec 4 n); [|done]. unfold slice_of. rewrite !(proj2 (Z.leb_le _ _)) by lia. cbn [andb v_bind]. rewrite Z.sub_0_r.
      assert (E4 : ztake 4 (zdrop 0 (buffer q)) = ztake 4 hello).
      { change (zdrop 0 (buffer q)) with (buffer q). transitivity (ztake 4 (ztake n (buffer q))); [unfold ztake; by rewrite take_take, Nat.min_l by lia|].
        rewrite Ht. unfold d, ztake. by rewrite take_take, Nat.min_l by lia. }
      rewrite E4, (clientHelloSize_part h (ztake 4 hello) (zdrop 4 hello)); [| |by apply Forall_take|rewrite zlen_ztake_le; lia|done].
      - cbn [v_bind]. by rewrite (proj2 (Z.ltb_ge _ _)) by done.
      - unfold ztake, zdrop. by rewrite take_drop. }
    rewrite Hcheck. cbn [v_bind]. rewrite Hsl. cbn [v_bind]. destruct HR as (v & -> & [->|(k & -> & Hk & _)]); [done|]. by rewrite (proj2 (Z.ltb_ge _ _)) by lia. }
  split.
  - destruct (decide (n = 0)) as [E0|Hn0]; [left; unfold tryAssemble; rewrite Hcl; fold n; by rewrite E0|]. rewrite (HT Hn0).
    destruct HR as (v & -> & [->|(k & -> & _)]); auto.
  - intros Hall. assert (En : n = zlen hello) by (destruct (Z.eq_dec n (zlen hello)); [done|]; destruct Hg; apply Hall; lia).
    rewrite HT by (rewrite En; unfold hello; rewrite zlen_enc_hello; pose proof (zlen_nonneg (enc_body h)); lia).
    destruct HR as (v & -> & [->|(k & -> & _ & Hlt)]); [done|lia].
Qed.

(** ** Packet numbers *)

Lemma candidate_value e len t : 0 <= len -> 0 <= t < 2 ^ (len * 8) ->
  Z.lor (Z.land e (Z.lnot (Z.shiftl 1 (len * 8) - 1))) t = e / 2 ^ (len * 8) * 2 ^ (len * 8) + t.
Proof.
  intros Hl Ht. replace (Z.shiftl 1 (len * 8) - 1) with (Z.ones (len * 8)) by (unfold Z.ones; lia).
  rewrite <- Z.ldiff_land, Z.ldiff_ones_r, lor_shiftl, Z.shiftr_div_pow2 by lia. done.
Qed.

(** a packet number that is within half a window of the one expected next is recovered from its
    last one to four bytes, as RFC 9000 asks, also at both ends of the range of packet numbers. *)
Lemma decodeQUICPacketNumber_recovers len largest pn : 1 <= len <= 4 -> -1 <= largest -> 0 <= pn < 2 ^ 62 ->
  largest + 1 - 2 ^ (len * 8) / 2 < pn <= largest + 1 + 2 ^ (len * 8) / 2 ->
  decodeQUICPacketNumber len largest (pn mod 2 ^ (len * 8)) = pn.
Proof.
  intros Hl Hla Hpn Hw. unfold decodeQUICPacketNumber. cbv zeta. set (W := 2 ^ (len * 8)) in *.
  assert (HW : 256 <= W /\ W mod 2 = 0).
  { unfold W. replace (len * 8) with (8 + (len - 1) * 8) by lia. rewrite Z.pow_add_r by lia. pose proof (Z.pow_pos_nonneg 2 ((len - 1) * 8) ltac:(lia) ltac:(lia)).
    split; [lia|]. change (2 ^ 8) with (128 * 2). rewrite <- Z.mul_assoc, (Z.mul_comm 2), Z.mul_assoc. apply Z.mod_mul. lia. }
  destruct HW as [HW HW2]. rewrite candidate_value by (lia || by apply Z.mod_pos_bound; lia). fold W.
  rewrite !Z.shiftl_1_l. fold W. rewrite Z.quot_div_nonneg by lia.
  pose proof (Z.div_mod pn W ltac:(lia)). pose proof (Z.mod_pos_bound pn W ltac:(lia)). pose proof (Z.div_mod (largest + 1) W ltac:(lia)). pose proof (Z.mod_pos_bound (largest + 1) W ltac:(lia)).
  set (a := (largest + 1) / W) in *. set (b := pn / W) in *. set (t := pn mod W) in *. set (r := (largest + 1) mod W) in *.
  pose proof (Z.div_mod W 2 ltac:(lia)). rewrite HW2 in *. set (hw := W / 2) in *.
  assert (Hab : b = a - 1 \/ b = a \/ b = a + 1) by nia.
  destruct (Z.leb_spec (a * W + t) (largest + 1 - hw)), (Z.ltb_spec (a * W + t) (2 ^ 62 - W)), (Z.ltb_spec (largest + 1 + hw) (a * W + t)), (Z.leb_spec W (a * W + t));
    cbn [andb]; destruct Hab as [Hb | [Hb | Hb]]; rewrite Hb in *; lia.
Qed.
