(* ===== verification/SniffQuicSafe.v ===== *)
(** * Sniffing QUIC: no datagram makes the sender panic

    Proved along the structure of the code for any datagrams and any results of decryption,
    with the invariant of the sender between datagrams.  It includes that every loop ends:
    running out of fuel is a panic of the model. *)

From Stdlib Require Import String.
From S2P Require Import Prelude Names SniffTls SniffTlsProps SniffBitmap SniffQuic SniffQuicProps.
From stdpp Require Import fin_maps.
#[local] Open Scope list_scope.
#[local] Open Scope Z_scope.

(** ** The invariant *)

Definition labels_ok (l : quicLabels) : Prop := zlen (lb_hp l) = 16 /\ zlen (lb_key l) = 16 /\ zlen (lb_iv l) = 12.
(** Open, the sender has a stream of bytes; there are at most two sets of keys. *)
Record q_ok (q : quicPacketSender) : Prop := {
  qo_stream : closed q = false -> exists m, stream_of q m /\ (forall i x, m !! i = Some x -> is_byte x);
  qo_keys : Forall (fun k => labels_ok (labels k)) (initialKeys q);
  qo_few : (length (initialKeys q) <= 2)%nat
}.

Lemma q_ok_start : q_ok WrapperSender.
Proof. split; [|constructor|cbn; lia]. intros _. exists ∅. split; [apply stream_of_start|]. intros i x Hx. by rewrite lookup_empty in Hx. Qed.
Lemma q_ok_close q : q_ok q -> q_ok (q_close q).
Proof. intros H. unfold q_close. destruct (closed q); [done|]. split; [done|apply H|apply H]. Qed.
Lemma stream_of_ext q q' m : buffer q' = buffer q -> buffer_len q' = buffer_len q -> receivedCryptoData q' = receivedCryptoData q ->
  contiguousCryptoEnd q' = contiguousCryptoEnd q -> closed q' = closed q -> stream_of q m -> stream_of q' m.
Proof. intros E1 E2 E3 E4 E5 []. split; by rewrite ?E1, ?E2, ?E3, ?E4, ?E5. Qed.
Lemma q_ok_keys q k : q_ok q -> Forall (fun k => labels_ok (labels k)) k -> (length k <= 2)%nat -> q_ok (set_keys k q).
Proof. intros H Hk Hl. split; [|done|done]. intros Hc. destruct (qo_stream _ H Hc) as (m & Hm & Hb). exists m. split; [|done]. by eapply stream_of_ext, Hm. Qed.
Lemma q_ok_structure q s : q_ok q -> q_ok (set_structure s q).
Proof. intros H. split; [|apply H|apply H]. intros Hc. destruct (qo_stream _ H Hc) as (m & Hm & Hb). exists m. split; [|done]. by eapply stream_of_ext, Hm. Qed.
Lemma q_ok_result q d : q_ok q -> q_ok (set_result d q).
Proof. intros H. split; [|apply H|apply H]. intros Hc. destruct (qo_stream _ H Hc) as (m & Hm & Hb). exists m. split; [|done]. by eapply stream_of_ext, Hm. Qed.

(** ** Steps that do not panic *)

Definition vsafe {A} (v : Verdict A) (Q : A -> Prop) : Prop := match v with Found a => Q a | Panic => False | _ => True end.
Definition safe {A} (x : QM A) (Q : A -> Prop) : Prop := forall q, q_ok q -> q_ok (x q).1 /\ vsafe (x q).2 Q.

Lemma vsafe_bind {A B} (v : Verdict A) (f : A -> Verdict B) P Q : vsafe v P -> (forall a, P a -> vsafe (f a) Q) -> vsafe (v_bind v f) Q.
Proof. destruct v; cbn; auto. Qed.
Lemma vsafe_mono {A} (v : Verdict A) P Q : vsafe v P -> (forall a, P a -> Q a) -> vsafe v Q.
Proof. destruct v; cbn; auto. Qed.
Lemma safe_bind {A B} (x : QM A) (f : A -> QM B) P Q : safe x P -> (forall a, P a -> safe (f a) Q) -> safe (q_bind x f) Q.
Proof.
  intros Hx Hf q Hq. unfold q_bind. pose proof (Hx q Hq) as [H1 H2]. destruct (x q) as [q' [a|n|e|]]; cbn in *; [by apply Hf|done|done|done].
Qed.
Lemma safe_lift {A} (v : Verdict A) Q : vsafe v Q -> safe (lift v) Q.
Proof. intros H q Hq. by split. Qed.
Lemma safe_ret {A} (a : A) (Q : A -> Prop) : Q a -> safe (q_ret a) Q.
Proof. intros H. by apply safe_lift. Qed.
Lemma safe_fail {A} e (Q : A -> Prop) : safe (q_fail e) Q.
Proof. by apply safe_lift. Qed.
Lemma safe_get {A} (f : quicPacketSender -> A) : safe (q_get f) (fun _ => True).
Proof. intros q Hq. by split. Qed.
Lemma safe_modify f : (forall q, q_ok q -> q_ok (f q)) -> safe (q_modify f) (fun _ => True).
Proof. intros H q Hq. split; [by apply H|done]. Qed.
Lemma safe_must {A} (r : option A) (Q : A -> Prop) : (forall a, r = Some a -> Q a) -> safe (must r) Q.
Proof. intros H. unfold must. destruct r; [by apply safe_ret, H|apply safe_fail]. Qed.

Lemma vsafe_byte d i : 0 <= i < zlen d -> vsafe (byte_at d i) (fun _ => True).
Proof.
  intros Hi. unfold byte_at. rewrite (proj2 (Z.ltb_ge _ _)) by lia. destruct (lookup_lt_is_Some_2 d (Z.to_nat i)) as [x ->]; [unfold zlen in Hi; lia|done].
Qed.
Lemma vsafe_slice d i j : 0 <= i <= j -> j <= zlen d -> vsafe (slice_of d i j) (fun x => zlen x = j - i /\ (bytes_ok d -> bytes_ok x)).
Proof.
  intros Hi Hj. unfold slice_of. rewrite !(proj2 (Z.leb_le _ _)) by lia. cbn. split.
  - rewrite zlen_ztake_le; [done|]. rewrite zlen_zdrop_le; lia.
  - intros Hd. by apply Forall_take, Forall_drop.
Qed.
Lemma vsafe_xor d i x : 0 <= i < zlen d -> vsafe (xor_at d i x) (fun d' => zlen d' = zlen d).
Proof.
  intros Hi. unfold xor_at. eapply vsafe_bind; [by apply vsafe_byte|]. intros v _. cbn. unfold zlen. by rewrite length_insert.
Qed.

Section Safe.
Context (L : QuicLib) (packet_size : Z) (HL : QuicLibLaws L packet_size) (dirty : Z -> list Z).

(** ** Keys and decryption *)

Lemma vsafe_expand secret label n : 0 <= n <= 255 * 32 -> vsafe (hkdfExpandLabel L secret label n) (fun out => zlen out = n).
Proof.
  intros Hn. unfold hkdfExpandLabel. destruct (hkdf_Expand_ok _ _ HL secret
    ([Z.shiftr (u16 n) 8; u8 n; u8 (6 + zlen (bytes_of label))] ++ bytes_of "tls13 " ++ bytes_of label ++ [0]) n Hn) as (out & -> & Hl & _).
  by rewrite (proj2 (Z.eqb_eq _ _) Hl).
Qed.
Lemma vsafe_newKey id s : vsafe (newQUICInitialKey L id s) (fun k => labels_ok (labels k)).
Proof.
  unfold newQUICInitialKey, expandLabels. cbv zeta. eapply vsafe_bind; [|intros l Hl; exact Hl].
  eapply vsafe_bind; [apply vsafe_expand; lia|]. intros secret _. eapply vsafe_bind; [apply vsafe_expand; lia|]. intros hp Hhp.
  eapply vsafe_bind; [apply vsafe_expand; lia|]. intros key Hkey. eapply vsafe_bind; [apply vsafe_expand; lia|]. intros iv Hiv. by split_and!.
Qed.

Lemma vsafe_xor_iv n : forall i pn iv, 0 <= i -> i + Z.of_nat n <= zlen iv -> vsafe (xor_iv n i pn iv) (fun _ => True).
Proof.
  induction n as [|n IH]; intros i pn iv Hi Hl; [done|]. cbn [xor_iv]. eapply vsafe_bind; [apply vsafe_xor; lia|]. intros iv' E. cbv beta in E. apply IH; lia.
Qed.
Lemma vsafe_unmask n : forall i hdrLen mask ext, 0 <= i -> 0 <= hdrLen -> 1 + i + Z.of_nat n <= zlen mask -> hdrLen + i + Z.of_nat n <= zlen ext ->
  vsafe (unmask n i hdrLen mask ext) (fun e => zlen e = zlen ext).
Proof.
  induction n as [|n IH]; intros i hdrLen mask ext Hi Hh Hm He; [done|]. cbn [unmask]. eapply vsafe_bind; [apply vsafe_byte; lia|]. intros m _.
  eapply vsafe_bind; [apply vsafe_xor; lia|]. intros ext' E. cbv beta in E. rewrite <- E. apply IH; lia.
Qed.
Lemma vsafe_extend used n : 0 <= used -> 0 <= n -> used + n <= packet_size -> vsafe (extend L used n) (fun u => u = used + n).
Proof. intros H1 H2 H3. unfold extend. by rewrite (Extend_fits _ _ HL) by done. Qed.

Lemma vsafe_decrypt b hdrLen packetEnd l largest : 0 < hdrLen -> packetEnd <= zlen b -> zlen b + 16 <= packet_size -> labels_ok l ->
  vsafe (decryptQUICInitialPacket L b hdrLen packetEnd l largest) (fun r => bytes_ok r.1).
Proof.
  intros Hh He Hp (Hhp & Hkey & Hiv). unfold decryptQUICInitialPacket. destruct (Z.ltb_spec packetEnd (hdrLen + 4 + 16)) as [|Hge]; [done|].
  eapply vsafe_bind; [apply vsafe_extend; lia|]. intros used ->. eapply vsafe_bind; [apply vsafe_slice; lia|]. intros sample [Hs _]. cbv zeta.
  destruct (aes_block _ _ HL (lb_hp l) sample Hhp ltac:(lia)) as [Hm _]. set (mask := aes_Encrypt L (lb_hp l) sample) in *.
  eapply vsafe_bind; [apply vsafe_byte; lia|]. intros b0 _. eapply vsafe_bind; [apply vsafe_byte; lia|]. intros m0 _.
  set (fb := Z.lxor b0 (Z.land m0 15)). assert (Hfb : 0 <= Z.land fb 3 <= 3).
  { assert (E3 : Z.land fb 3 = fb mod 4) by (change 3 with (Z.ones 2); by rewrite Z.land_ones by lia). rewrite E3. pose proof (Z.mod_pos_bound fb 4). lia. }
  set (k := Z.land fb 3 + 1) in *.
  eapply vsafe_bind; [apply vsafe_extend; lia|]. intros used ->. eapply vsafe_bind; [apply vsafe_slice; lia|]. intros ext [Hext _].
  assert (Hext' : zlen (<[0%nat := fb]> ext) = hdrLen + k) by (unfold zlen in *; rewrite length_insert; lia).
  eapply vsafe_bind; [apply vsafe_unmask; lia|]. intros ext' Hext2. cbv beta in Hext2. eapply vsafe_bind; [apply vsafe_slice; lia|]. intros pn _.
  destruct (Z.ltb_spec packetEnd (hdrLen + k)); [done|]. eapply vsafe_bind; [apply vsafe_slice; lia|]. intros data [Hdata _].
  eapply vsafe_bind; [apply vsafe_xor_iv; lia|]. intros iv _. eapply vsafe_bind; [apply vsafe_extend; lia|]. intros ? _.
  destruct (gcm_Open _ _ _ _ _) eqn:Eg; [|done]. cbn. by eapply (gcm_bytes _ _ HL).
Qed.

Definition keys_ok (ks : list quicInitialKey) : Prop := Forall (fun k => labels_ok (labels k)) ks.
Lemma vsafe_try b hdrLen packetEnd id ks : 0 < hdrLen -> packetEnd <= zlen b -> zlen b + 16 <= packet_size -> keys_ok ks -> forall err current largest,
  vsafe (try_keys L b hdrLen packetEnd id ks err current largest)
    (fun r => match r with inl (ks', d) => keys_ok ks' /\ length ks' = length ks /\ bytes_ok d | inr _ => True end).
Proof.
  intros Hh He Hp. induction 1 as [|key ks Hk Hks IH]; intros err current largest; [done|]. cbn [try_keys].
  pose proof (vsafe_decrypt b hdrLen packetEnd (labels key) (largestPacketNumber key) Hh He Hp Hk) as Hd.
  destruct (decryptQUICInitialPacket L b hdrLen packetEnd (labels key) (largestPacketNumber key)) as [[d pn]|n|e|]; [| |  |done]; [|done|].
  - cbn in *. split_and!; [|done|done]. constructor; [by destruct (_ <? _)|done].
  - eapply vsafe_bind; [apply IH|]. intros [[ks' d]|?]; [|done]. cbn. intros (H1 & H2 & H3). split_and!; [by constructor|by f_equal|done].
Qed.

Lemma safe_decrypt b hdrLen packetEnd id s : 0 < hdrLen -> packetEnd <= zlen b -> zlen b + 16 <= packet_size ->
  safe (q_decrypt L b hdrLen packetEnd id s) bytes_ok.
Proof.
  intros Hh He Hp. unfold q_decrypt.
  assert (Hget : safe (q_get initialKeys) (fun ks => keys_ok ks /\ (length ks <= 2)%nat)) by (intros q Hq; split; [done|split; apply Hq]).
  eapply safe_bind; [exact Hget|]. intros ks [Hks Hlen].
  apply (safe_bind _ _ (fun ks => keys_ok ks /\ (0 < length ks <= 2)%nat)).
  { destruct ks as [|k ks]; [|apply safe_ret; split; [done|cbn in *; lia]]. eapply safe_bind; [apply safe_lift, vsafe_newKey|].
    intros k Hk. apply safe_ret. split; [constructor; [exact Hk|constructor]|cbn; lia]. }
  clear ks Hks Hlen Hget. intros ks [Hks Hlen]. eapply safe_bind; [apply safe_modify; intros q Hq; apply q_ok_keys; [done|done|lia]|]. intros _ _.
  eapply safe_bind; [apply safe_lift; by apply vsafe_try|]. intros [[ks' d]|[[err current] largest]].
  - intros (Hks' & Hl' & Hd). eapply safe_bind; [apply safe_modify; intros q Hq; apply q_ok_keys; [done|done|lia]|]. intros _ _. by apply safe_ret.
  - intros _. destruct current; [apply safe_fail|]. eapply safe_bind; [apply safe_lift, vsafe_newKey|]. intros c Hc.
    eapply safe_bind; [apply safe_lift; by apply vsafe_decrypt|]. intros [d pn] Hd. cbn in Hd. cbv zeta.
    eapply safe_bind; [|intros _ _; by apply safe_ret]. apply safe_modify. intros q Hq. case_decide as E1; apply q_ok_keys; try done.
    + apply Forall_app. split; [done|]. constructor; [exact Hc|constructor].
    + rewrite length_app, E1. cbn. lia.
    + by apply Forall_insert.
    + rewrite length_insert. lia.
Qed.

(** ** Frames *)

(** What is left of the data. *)
Definition rest_of (k : Z) (l r : list Z) : Prop := zlen r + k <= zlen l /\ (bytes_ok l -> bytes_ok r).

Lemma rest_of_trans k k' l r r' : rest_of k l r -> rest_of k' r r' -> rest_of (k + k') l r'.
Proof. intros [H1 H2] [H3 H4]. split; [lia|auto]. Qed.
Lemma rest_of_weaken k k' l r : k' <= k -> rest_of k l r -> rest_of k' l r.
Proof. intros Hk [H1 H2]. split; [lia|done]. Qed.
Lemma rest_of_refl l : rest_of 0 l l.
Proof. split; [lia|done]. Qed.

Lemma varint_rest l v r : varint_Read L l = Some (v, r) -> 0 <= v /\ rest_of 1 l r.
Proof.
  intros E. destruct (varint_spec _ _ HL _ _ _ E) as (Hv & p & Hp & ->). split; [lia|]. split.
  - rewrite zlen_app. assert (0 < zlen p) by (destruct p; [done|rewrite zlen_cons; pose proof (zlen_nonneg p); lia]). lia.
  - intros Hb. by apply Forall_app in Hb as [_ Hb].
Qed.
Lemma ReadBytes_rest n l x r : 0 <= n -> ReadBytes L n l = Some (x, r) -> rest_of n l r /\ (bytes_ok l -> bytes_ok x) /\ zlen x = n.
Proof.
  intros Hn. rewrite (ReadBytes_spec _ _ HL) by done. destruct (Z.leb_spec n (zlen l)); [|done]. intros [= <- <-]. split_and!.
  - split; [rewrite zlen_zdrop_le; lia|apply Forall_drop].
  - apply Forall_take.
  - rewrite zlen_ztake_le; lia.
Qed.
Lemma ReadByte_rest l x r : ReadByte L l = Some (x, r) -> l = x :: r /\ rest_of 1 l r.
Proof.
  destruct l as [|y l]; [by rewrite (ReadByte_nil _ _ HL)|]. rewrite (ReadByte_cons _ _ HL). intros [= <- <-]. split; [done|].
  split; [rewrite zlen_cons; lia|]. intros Hb. by apply Forall_cons in Hb as [_ Hb].
Qed.

Lemma vsafe_field l : vsafe (field L l) (fun r => 0 <= r.1 /\ rest_of 1 l r.2).
Proof. unfold field. destruct (varint_Read L l) as [[v r]|] eqn:E; [|done]. by apply varint_rest. Qed.
Lemma vsafe_fields n : forall l, vsafe (fields L n l) (rest_of (Z.of_nat n) l).
Proof.
  induction n as [|n IH]; intros l; [apply rest_of_refl|]. cbn [fields]. eapply vsafe_bind; [apply vsafe_field|]. intros [v r] [_ Hr]. cbn [fst snd] in Hr |- *.
  eapply vsafe_mono; [apply IH|]. intros r' Hr'. eapply rest_of_weaken, rest_of_trans; [|exact Hr|exact Hr']. lia.
Qed.
Lemma vsafe_ack fuel : forall count l, zlen l < Z.of_nat fuel -> vsafe (ack_ranges L fuel count l) (rest_of 0 l).
Proof.
  induction fuel as [|fuel IH]; intros count l Hf; [pose proof (zlen_nonneg l); lia|]. cbn [ack_ranges]. destruct (0 <? count); [|apply rest_of_refl].
  eapply vsafe_bind; [apply vsafe_fields|]. intros r Hr. eapply vsafe_mono; [apply IH; destruct Hr; lia|]. intros r' Hr'.
  eapply rest_of_weaken, rest_of_trans; [|exact Hr|exact Hr']. lia.
Qed.
Lemma vsafe_field_bytes l : vsafe (field_bytes L l) (fun r => rest_of 0 l r.2 /\ (bytes_ok l -> bytes_ok r.1)).
Proof.
  unfold field_bytes. eapply vsafe_bind; [apply vsafe_field|]. intros [n r] [Hn Hr]. cbn [fst snd] in Hn, Hr |- *. destruct (zlen r <? n); [done|].
  destruct (ReadBytes L n r) as [[x r']|] eqn:E; [|done]. destruct (ReadBytes_rest _ _ _ _ Hn E) as (Hr' & Hx & _). cbn. split.
  - eapply rest_of_weaken, rest_of_trans; [|exact Hr|exact Hr']. lia.
  - intros Hb. apply Hx. by apply Hr.
Qed.

Lemma skip_padding_rest fuel : forall l t, rest_of 0 l (skip_padding L fuel t l).2.
Proof.
  induction fuel as [|fuel IH]; intros l t; [apply rest_of_refl|]. cbn [skip_padding]. destruct ((t =? framePadding) && _) eqn:E; [|apply rest_of_refl].
  destruct (ReadByte L l) as [[x r]|] eqn:Er; [|apply IH]. destruct (ReadByte_rest _ _ _ Er) as [_ Hr].
  eapply rest_of_weaken, rest_of_trans; [|exact Hr|apply IH]. lia.
Qed.
Lemma skip_padding_shrinks fuel l : 0 < zlen l -> rest_of 1 l (skip_padding L (S fuel) framePadding l).2.
Proof.
  intros Hl. cbn [skip_padding]. rewrite Z.eqb_refl, (proj2 (Z.ltb_lt _ _) Hl). cbn [andb]. destruct l as [|x l]; [done|].
  rewrite (ReadByte_cons _ _ HL). eapply rest_of_weaken, rest_of_trans; [| |apply skip_padding_rest].
  2:{ split; [rewrite zlen_cons|intros Hb; by apply Forall_cons in Hb as [_ Hb]]. reflexivity || (rewrite Z.add_comm; reflexivity). } lia.
Qed.

Lemma vsafe_frame t l : vsafe (read_frame L t l) (fun r => rest_of 0 l r.1 /\ match r.2 with Some (o, d) => 0 <= o /\ (bytes_ok l -> bytes_ok d) | None => True end).
Proof.
  unfold read_frame. destruct (_ || _); [split; [apply rest_of_refl|done]|]. destruct (_ || _).
  - eapply vsafe_bind; [apply vsafe_fields|]. intros l1 H1. eapply vsafe_bind; [apply vsafe_field|]. intros [n l2] [_ H2]. cbn [fst snd] in H2 |- *.
    eapply vsafe_bind; [apply vsafe_fields|]. intros l3 H3. eapply vsafe_bind; [apply vsafe_ack; unfold zlen; lia|]. intros l4 H4.
    apply (vsafe_bind _ _ (rest_of 0 l4)).
    { destruct (_ =? _); [|apply rest_of_refl]. eapply vsafe_mono; [apply vsafe_fields|]. intros l5. apply rest_of_weaken. lia. }
    intros l5 H5. split; [|done]. eapply rest_of_weaken; [|exact (rest_of_trans _ _ _ _ _ H1 (rest_of_trans _ _ _ _ _ H2 (rest_of_trans _ _ _ _ _ H3 (rest_of_trans _ _ _ _ _ H4 H5))))]. lia.
  - destruct (_ =? _).
    + eapply vsafe_bind; [apply vsafe_field|]. intros [o l1] [Ho H1]. cbn [fst snd] in Ho, H1 |- *. eapply vsafe_bind; [apply vsafe_field_bytes|]. intros [d l2] [H2 Hd]. cbn [fst snd] in H2, Hd |- *.
      split; [eapply rest_of_weaken, rest_of_trans; [|exact H1|exact H2]; lia|]. split; [done|]. intros Hb. apply Hd. by apply H1.
    + destruct (_ =? _); [|done]. eapply vsafe_bind; [apply vsafe_fields|]. intros l1 H1. eapply vsafe_bind; [apply vsafe_field_bytes|]. intros [d l2] [H2 _]. cbn [fst snd] in H2 |- *.
      split; [|done]. eapply rest_of_weaken, rest_of_trans; [|exact H1|exact H2]. lia.
Qed.

Lemma safe_addCrypto o d : 0 <= o -> bytes_ok d -> safe (addCryptoData dirty o d) (fun _ => True).
Proof.
  intros Ho Hd q Hq. destruct (closed q) eqn:Ec.
  { assert (E : exists v, addCryptoData dirty o d q = (q, v) /\ vsafe v (fun _ => True)).
    { unfold addCryptoData. rewrite Ec. destruct (_ =? _); [by eexists|]. destruct (_ || _); by eexists. }
    destruct E as (v & -> & Hv). done. }
  destruct (qo_stream _ Hq Ec) as (m & Hm & Hb). pose proof (addCryptoData_adds dirty q m o d Hm Ho) as H. destruct (_ || _); [|by rewrite H].
  destruct H as (q' & -> & Hq' & E1 & E2 & E3). split; [|done]. cbn. split; [|rewrite E2; apply Hq|rewrite E2; apply Hq]. intros _. eexists. split; [exact Hq'|].
  intros i x Hx. replace o with (Z.of_nat (Z.to_nat o)) in Hx by lia. rewrite lookup_crypto_write in Hx. case_decide; [by eapply (proj1 (Forall_lookup _ _) Hd)|by eapply Hb].
Qed.

Lemma safe_frames fuel : forall l, zlen l < Z.of_nat fuel -> bytes_ok l -> safe (readQUICFrames L dirty fuel l) (fun _ => True).
Proof.
  induction fuel as [|fuel IH]; intros l Hf Hl; [pose proof (zlen_nonneg l); lia|]. cbn [readQUICFrames]. destruct (Z.eqb_spec (zlen l) 0) as [|Hne]; [by apply safe_ret|].
  pose proof (zlen_nonneg l). pose proof (skip_padding_shrinks (length l) l ltac:(lia)) as Hs. eapply safe_bind; [apply safe_get|]. intros c _. destruct c; [by apply safe_ret|].
  destruct (skip_padding L (S (length l)) framePadding l) as [t l1]. cbn in Hs. eapply safe_bind; [apply safe_lift, vsafe_frame|]. intros [l2 crypto] [H2 Hc]. cbn [fst snd] in H2, Hc |- *.
  eapply (safe_bind _ _ (fun _ => True)); [|intros _ _; apply IH; [destruct Hs, H2; lia|apply H2; by apply Hs]].
  destruct crypto as [[o d]|]; [|by apply safe_ret]. apply safe_addCrypto; [apply Hc|]. apply Hc. by apply Hs.
Qed.

(** ** Packets *)

Lemma safe_structure vb : safe (getQUICStructure vb) (fun _ => True).
Proof.
  unfold getQUICStructure. eapply safe_bind; [apply safe_get|]. intros [s|] _; [by apply safe_ret|]. destruct (List.find _ _); [|apply safe_fail].
  eapply safe_bind; [apply safe_modify; intros q0 Hq0; by apply q_ok_structure|]. intros _ _. by apply safe_ret.
Qed.

(** A read on the way through the header. *)
Lemma safe_ReadByte l : bytes_ok l -> safe (must (ReadByte L l)) (fun r => is_byte r.1 /\ rest_of 1 l r.2 /\ bytes_ok r.2).
Proof.
  intros Hl. apply safe_must. intros [x r] E. destruct (ReadByte_rest _ _ _ E) as [-> Hr]. apply Forall_cons in Hl as [Hx Hl]. by split_and!.
Qed.
Lemma safe_ReadBytes n l : 0 <= n -> bytes_ok l -> safe (must (ReadBytes L n l)) (fun r => rest_of n l r.2 /\ bytes_ok r.2).
Proof. intros Hn Hl. apply safe_must. intros [x r] E. destruct (ReadBytes_rest _ _ _ _ Hn E) as (Hr & _). split; [done|]. by apply Hr. Qed.
Lemma safe_varint l : bytes_ok l -> safe (must (varint_Read L l)) (fun r => 0 <= r.1 /\ rest_of 1 l r.2 /\ bytes_ok r.2).
Proof. intros Hl. apply safe_must. intros [x r] E. destruct (varint_rest _ _ _ E) as (Hx & Hr). split_and!; [done..|]. by apply Hr. Qed.

Lemma safe_header b l t : bytes_ok l -> zlen l < zlen b ->
  safe (read_long_header L b l t) (fun r => match r with (packetEnd, Some (hdrLen, _, _)) => 0 < hdrLen /\ packetEnd <= zlen b | _ => True end).
Proof.
  intros Hl Hlb. unfold read_long_header. eapply safe_bind; [by apply safe_ReadBytes; [lia|]|]. intros [vb l1] [H1 B1]. cbn [fst snd] in H1, B1 |- *.
  eapply safe_bind; [apply safe_structure|]. intros s _. eapply safe_bind; [by apply safe_ReadByte|]. intros [n l2] (Hn & H2 & B2). cbn [fst snd] in Hn, H2, B2 |- *.
  unfold is_byte in Hn. destruct (_ =? 0); [apply safe_fail|]. eapply safe_bind; [by apply safe_ReadBytes; [lia|]|]. intros [id l3] [H3 B3]. cbn [fst snd] in H3, B3 |- *.
  eapply safe_bind; [by apply safe_ReadByte|]. intros [n' l4] (Hn' & H4 & B4). cbn [fst snd] in Hn', H4, B4 |- *. unfold is_byte in Hn'.
  eapply safe_bind; [by apply safe_ReadBytes; [lia|]|]. intros [x l5] [H5 B5]. cbn [fst snd] in H5, B5 |- *. destruct (_ =? typeRetry s); [by apply safe_ret|].
  assert (Hl5 : zlen l5 < zlen b) by (destruct H1, H2, H3, H4, H5; lia).
  apply (safe_bind _ _ (fun r => bytes_ok r /\ zlen r < zlen b)).
  { destruct (_ =? typeInitial s); [|by apply safe_ret]. eapply safe_bind; [by apply safe_varint|]. intros [tl l6] (Htl & H6 & B6). cbn [fst snd] in Htl, H6, B6 |- *.
    destruct (_ <? _); [apply safe_fail|]. eapply safe_bind; [by apply safe_ReadBytes|]. intros [y l7] [H7 B7]. cbn [fst snd] in H7, B7 |- *. apply safe_ret. split; [done|]. destruct H6, H7; lia. }
  intros l6 [B6 H6]. eapply safe_bind; [by apply safe_varint|]. intros [pl l7] (Hpl & H7 & B7). cbn [fst snd] in Hpl, H7, B7 |- *. cbv zeta.
  destruct (Z.ltb_spec (zlen b - (zlen b - zlen l7)) pl); [apply safe_fail|]. apply safe_ret. destruct (_ =? typeInitial s); [|done]. destruct H7. lia.
Qed.

Lemma safe_packet b coalesced : bytes_ok b -> zlen b + 16 <= packet_size -> safe (readQUICPacket L dirty b coalesced) (fun _ => True).
Proof.
  intros Hb Hp. unfold readQUICPacket. eapply safe_bind; [by apply safe_ReadByte|]. intros [t l] (_ & H1 & B1). cbn [fst snd] in H1, B1 |- *.
  destruct (_ =? 0); [destruct coalesced; [by apply safe_ret|apply safe_fail]|]. destruct (_ =? 0); [apply safe_fail|].
  eapply safe_bind; [apply safe_header; [done|destruct H1; lia]|]. intros [pe [[[hl id] s]|]] Hh; [|by apply safe_ret]. destruct Hh as [Hh1 Hh2].
  intros q Hq. destruct (safe_decrypt b hl pe id s Hh1 Hh2 Hp q Hq) as [Hq' Hv]. destruct (q_decrypt L b hl pe id s q) as [q' [d|n|e|]]; cbn [fst snd] in Hq', Hv |- *; try done.
  - apply (safe_bind _ _ (fun _ => True)); [apply safe_frames; [unfold zlen; lia|done]|intros _ _; by apply safe_ret|done].
  - by case_bool_decide.
Qed.

Lemma safe_packets fuel : forall b first, zlen b < Z.of_nat fuel -> bytes_ok b -> zlen b + 16 <= packet_size -> safe (read_packets L dirty fuel b first) (fun _ => True).
Proof.
  induction fuel as [|fuel IH]; intros b first Hf Hb Hp; [pose proof (zlen_nonneg b); lia|]. cbn [read_packets]. destruct (0 <? zlen b); [|by apply safe_ret].
  eapply safe_bind; [by apply safe_packet|]. intros pl _. destruct (Z.leb_spec pl 0), (Z.ltb_spec (zlen b) pl); try apply safe_fail. cbn [orb].
  pose proof (zlen_zdrop_le pl b ltac:(lia)). apply IH; [lia|by apply Forall_drop|lia].
Qed.

Lemma tryAssemble_safe q : q_ok q -> vsafe (tryAssemble q) (fun _ => True).
Proof.
  intros Hq. unfold tryAssemble. destruct (closed q) eqn:Ec; [done|]. destruct (qo_stream _ Hq Ec) as (m & Hm & Hb). destruct (so_end _ _ Hm), (so_len _ _ Hm) as [[??]?].
  set (n := contiguousCryptoEnd q) in *. destruct (n =? 0); [done|].
  assert (Hpre : forall k, 0 <= k <= n -> bytes_ok (ztake k (buffer q))).
  { intros k Hk. apply Forall_lookup. intros i x Hx. unfold ztake in Hx. apply lookup_take_Some in Hx as [Hx Hi].
    destruct (so_prefix _ _ Hm i ltac:(lia)) as [y Hy]. destruct (so_bytes _ _ Hm i y Hy) as [Hy' _]. rewrite Hx in Hy'. injection Hy' as <-. by eapply Hb. }
  assert (Hsl : forall k, 0 <= k <= n -> slice_of (buffer q) 0 k = Found (ztake k (buffer q))).
  { intros k Hk. unfold slice_of. rewrite !(proj2 (Z.leb_le _ _)) by lia. cbn [andb]. by rewrite Z.sub_0_r. }
  apply (vsafe_bind _ _ (fun _ => True)).
  { unfold tlsHandshakeHeaderLen. destruct (Z.leb_spec 4 n); [|done]. rewrite Hsl by lia. cbn [v_bind].
    apply (vsafe_bind _ _ (fun _ => True)); [|intros k _; by destruct (_ <? _)].
    pose proof (reads_size (ztake 4 (buffer q)) (Hpre 4 ltac:(lia)) ltac:(rewrite zlen_ztake_le; lia)) as H'. unfold reads in H'. by destruct (clientHelloSize _). }
  intros _ _. rewrite Hsl by lia. cbn [v_bind]. pose proof (ReadClientHello_reads _ (Hpre n ltac:(lia))) as H'. unfold reads in H'.
  destruct (ReadClientHello _); try done. by destruct (_ <? _).
Qed.

Lemma safe_data b : bytes_ok b -> zlen b + 16 <= packet_size -> safe (readQUICData L dirty b) (fun _ => True).
Proof.
  intros Hb Hp. unfold readQUICData. eapply safe_bind; [apply safe_packets; [unfold zlen; lia|done|done]|]. intros _ _.
  apply (safe_bind _ _ (fun v => vsafe v (fun _ => True))); [intros q Hq; split; [done|by apply tryAssemble_safe]|]. intros v Hv.
  eapply safe_bind; [by apply safe_lift|]. intros d _. destruct (String.eqb d ""); [by apply safe_ret|].
  eapply safe_bind; [apply safe_modify; intros q Hq; by apply q_ok_result|]. intros _ _. apply safe_modify. intros q Hq. by apply q_ok_close.
Qed.
End Safe.

(** C23: no datagram that leaves 16 bytes of a packet buffer free makes the sender panic, nor any sequence
    of them: sending one always returns, with the sender in order for the next. *)
Theorem q_Send_safe L packet_size dirty data q : QuicLibLaws L packet_size -> q_ok q -> bytes_ok data -> zlen data + 16 <= packet_size ->
  exists q', q_Send L dirty data q = Some q' /\ q_ok q'.
Proof.
  intros HL Hq Hb Hp. unfold q_Send. destruct (closed q); [by exists q|]. destruct (safe_data L packet_size HL dirty data Hb Hp q Hq) as [Hq' Hv].
  destruct (readQUICData L dirty data q) as [q' [a|n|e|]]; cbn in Hq', Hv; [by exists q'|exists (q_close q')..|done]; (split; [done|by apply q_ok_close]).
Qed.

(** * Sniffing QUIC: witnesses and examples

    The other modules with concrete functions: the reader and the variable-length integers as they are,
    and ciphers that do nothing. *)


Definition demo_varint (l : list Z) : option (Z * list Z) :=
  match l with
  | [] => None
  | x :: _ =>
      let n := Z.shiftl 1 (u8 x / 64) in
      if zlen l <? n then None else Some (be_get (u8 x mod 64 :: map u8 (tail (ztake n l))) mod 2 ^ 62, zdrop n l)
  end.
Definition demo_quic : QuicLib := {|
  ReadByte := fun l => match l with [] => None | x :: l => Some (x, l) end;
  ReadBytes := fun n l => if n <=? zlen l then Some (ztake n l, zdrop n l) else None;
  varint_Read := demo_varint;
  Extend_ok := fun used n => used + n <=? 16384;
  hkdf_Extract := fun _ salt => salt;
  hkdf_Expand := fun _ _ n => Some (repeat 7 (Z.to_nat n));
  aes_Encrypt := fun _ _ => repeat 0 16;
  gcm_Open := fun _ _ c _ => Some (map u8 c)
|}.

Lemma demo_varint_spec l v r : demo_varint l = Some (v, r) -> 0 <= v < 2 ^ 62 /\ exists p, p <> [] /\ l = p ++ r.
Proof.
  unfold demo_varint. destruct l as [|x l]; [done|]. set (n := Z.shiftl 1 (u8 x / 64)). destruct (Z.ltb_spec (zlen (x :: l)) n); [done|].
  intros E. remember (be_get (u8 x mod 64 :: map u8 (tail (ztake n (x :: l)))) mod 2 ^ 62) as w eqn:Ew. injection E as <- <-. split; [subst w; by apply Z.mod_pos_bound|].
  exists (ztake n (x :: l)). split; [|unfold ztake, zdrop; by rewrite take_drop].
  assert (Hn : 0 < n). { unfold n. rewrite Z.shiftl_1_l. apply Z.pow_pos_nonneg; [lia|]. apply Z.div_pos; [apply Z.mod_pos_bound|]; lia. }
  unfold ztake. by replace (Z.to_nat n) with (S (Z.to_nat n - 1)) by lia.
Qed.
Lemma demo_quic_laws : QuicLibLaws demo_quic 16384.
Proof.
  split; cbn; try done.
  - apply demo_varint_spec.
  - intros used n _ _ H. by apply Z.leb_le.
  - intros _ _ n Hn. eexists. split; [done|]. split; [unfold zlen; rewrite repeat_length; lia|]. apply Forall_forall. intros x Hx.
    apply list_elem_of_In, repeat_spec in Hx. by subst x.
  - intros _ _ _ _. split; [done|]. by repeat constructor.
  - intros _ _ c _ p [= <-]. apply Forall_forall. intros x Hx. apply list_elem_of_fmap in Hx as (y & -> & _). by apply Z.mod_pos_bound.
Qed.

(** The demo hello in three pieces, out of order and overlapping. *)
Definition demo_pieces : list (Z * list Z) :=
  let s := enc_hello demo_hello in [(20, drop 20 s); (5, take 30 (drop 5 s)); (0, take 9 s)].
Lemma piece_at s n m : (n <= length s)%nat -> piece_of s (Z.of_nat n, take m (drop n s)).
Proof. intros Hn. exists (take n s), (drop m (drop n s)). cbn [fst snd]. rewrite take_drop, take_drop. split; [done|]. unfold zlen. rewrite length_take. lia. Qed.
Lemma demo_pieces_of : Forall (piece_of (enc_hello demo_hello)) demo_pieces.
Proof.
  assert (Hl : (length (enc_hello demo_hello) = 68)%nat) by (vm_compute; reflexivity).
  repeat constructor.
  - replace (drop 20 (enc_hello demo_hello)) with (take 48 (drop 20 (enc_hello demo_hello))) by (vm_compute; reflexivity). apply (piece_at _ 20 48). lia.
  - apply (piece_at _ 5 30). lia.
  - apply (piece_at _ 0 9). lia.
Qed.
Definition demo_dirty (n : Z) : list Z := repeat 99 (Z.to_nat n).

Example crypto_stream_assembled_witness : exists q n, add_pieces demo_dirty demo_pieces WrapperSender = (q, Found tt) /\ contiguousCryptoEnd q = n /\
  slice_of (buffer q) 0 n = Found (ztake n (enc_hello demo_hello)) /\ (forall i, 0 <= i < n -> covered demo_pieces i) /\ ~ covered demo_pieces n.
Proof. apply (crypto_stream_assembled demo_dirty (enc_hello demo_hello) demo_pieces); [vm_compute; discriminate|exact demo_pieces_of]. Defined.

Example quic_hello_sniffed_witness : exists q, add_pieces demo_dirty demo_pieces WrapperSender = (q, Found tt) /\
  (tryAssemble q = Found EmptyString \/ tryAssemble q = Found "a.b"%string) /\
  ((forall i, 0 <= i < zlen (enc_hello demo_hello) -> covered demo_pieces i) -> tryAssemble q = Found "a.b"%string).
Proof.
  apply (quic_hello_sniffed demo_dirty demo_hello [(43, [2; 3; 4])] [97; 46; 98] [] demo_pieces).
  - split; try (vm_compute; repeat split; discriminate || reflexivity).
    repeat constructor; vm_compute; discriminate || reflexivity.
  - reflexivity.
  - repeat constructor. discriminate.
  - reflexivity.
  - exact demo_hello_bytes.
  - vm_compute. discriminate.
  - exact demo_pieces_of.
Defined.

Example decodeQUICPacketNumber_recovers_witness : 1 <= 2 <= 4 /\ decodeQUICPacketNumber 2 2831907626 (39730 mod 2 ^ (2 * 8)) = 2831915826 - 2831915826 mod 65536 + 39730 /\
  decodeQUICPacketNumber 1 (-1) (100 mod 2 ^ (1 * 8)) = 100.
Proof. split; [lia|]. split; [reflexivity|]. apply (decodeQUICPacketNumber_recovers 1 (-1) 100); vm_compute; repeat split; discriminate || reflexivity. Defined.

Example q_Send_safe_witness : exists q', q_Send demo_quic demo_dirty [192; 0; 0; 0; 1; 8] WrapperSender = Some q' /\ q_ok q'.
Proof.
  apply (q_Send_safe demo_quic 16384 demo_dirty [192; 0; 0; 0; 1; 8] WrapperSender).
  - exact demo_quic_laws.
  - exact q_ok_start.
  - repeat constructor; discriminate.
  - discriminate.
Defined.

(** An Initial packet of version 1 with these frames. *)
Definition demo_initial (frames : list Z) : list Z :=
  [192; 0; 0; 0; 1; 8; 1; 2; 3; 4; 5; 6; 7; 8; 0; 0] ++ (let n := zlen frames + 1 in [64 + n / 256; n mod 256]) ++ [0] ++ frames.
Definition crypto_frame (p : Z * list Z) : list Z := [6; 64 + p.1 / 256; p.1 mod 256; 64 + zlen p.2 / 256; zlen p.2 mod 256] ++ p.2.
(** Two datagrams: the second piece in the first, after a padding and a ping; the name is found and the sender is closed. *)
Example quic_two_datagrams :
  let s := enc_hello demo_hello in
  let d1 := demo_initial ([0; 0; 1] ++ crypto_frame (20, drop 20 s)) in
  let d2 := demo_initial (crypto_frame (0, take 40 s)) in
  (q ← q_Send demo_quic demo_dirty d1 WrapperSender; Some (closed q, result q)) = Some (false, ""%string) /\
  (q ← q_Send demo_quic demo_dirty d1 WrapperSender; q ← q_Send demo_quic demo_dirty d2 q; Some (closed q, result q)) = Some (true, "a.b"%string).
Proof. by vm_compute. Qed.
(** A datagram without room for the mask in the packet buffer makes [Extend] panic before anything is authenticated. *)
Example quic_long_datagram : q_Send demo_quic demo_dirty (demo_initial (repeat 0 16360)) WrapperSender = None.
Proof. by vm_compute. Qed.
