(* ===== verification/SniffHttp.v ===== *)
(** * Sniffing HTTP

    Models [component/sniffer/http_sniffer.go]: the host of an HTTP/1 request, from its target or its
    first Host field, and the authority of the first header block of an HTTP/2 connection.
    HPACK ([golang.org/x/net]) is of another module and the Unicode case tables are not
    modelled: both are parameters ([HttpLib]). *)

From Stdlib Require Import String.
From S2P Require Import Prelude Names Netip GoText SniffTls SniffTlsProps.
#[local] Open Scope string_scope.
#[local] Open Scope list_scope.
#[local] Open Scope Z_scope.
#[local] Open Scope sniff_scope.

(** ** Package [bytes] and [net] *)

(** [bytes.Cut] *)
Fixpoint Cut (s sep : string) : option (string * string) :=
  if HasPrefix s sep then Some (EmptyString, str_drop (String.length sep) s)
  else match s with
       | EmptyString => None
       | String c r => match Cut r sep with Some (x, y) => Some (String c x, y) | None => None end
       end.
(** [bytes.EqualFold] of any bytes with an ASCII word: two letters beyond ASCII fold to
    [s] and to [k]. *)
Fixpoint EqualFoldWord (s t : string) : bool :=
  match t with
  | EmptyString => match s with EmptyString => true | _ => false end
  | String d t =>
      match s with
      | EmptyString => false
      | String c r =>
          if (nat_of_ascii c <? 128)%nat then Ascii.eqb (lower_ascii c) (lower_ascii d) && EqualFoldWord r t
          else if Ascii.eqb (lower_ascii d) "s" && HasPrefix s (bytes [197; 191]%nat) then match r with String _ r => EqualFoldWord r t | _ => false end
          else if Ascii.eqb (lower_ascii d) "k" && HasPrefix s (bytes [226; 132; 170]%nat) then match r with String _ (String _ r) => EqualFoldWord r t | _ => false end
          else false
      end
  end.
(** [bytes.IndexAny] for three ASCII characters: the part before the first of them. *)
Fixpoint before_any (cs s : string) : string :=
  match s with EmptyString => EmptyString | String c r => if Contains c cs then EmptyString else String c (before_any cs r) end.

(** ** Hosts *)

Record HttpLib := mkHttpLib {
  (** [strings.ToLower] of a string with bytes above 127 *)
  http_unicode_ToLower : string -> string;
  (** a decoder of HPACK: what [Write] decodes, the names with their values, and whether it fails *)
  hpack : Type;
  hpack_NewDecoder : Z -> hpack;
  hpack_Write : hpack -> list Z -> hpack * list (string * string) * bool
}.

Section Http.
Context (H : HttpLib).

(** @go component/sniffer/http_sniffer.go:337-367 parseHost *)
Definition parseHost (h : string) : Verdict string :=
  if String.eqb h "" then Fails ErrNoClue
  else
    let hs := match SplitHostPort h with Some (host, _) => host | None => h end in
    let hs := if HasPrefix hs "[" && HasSuffix hs "]" then str_take (String.length hs - 2) (str_drop 1 hs) else hs in
    let hs := TrimRightFunc (Ascii.eqb ".") hs in
    let hs := if is_ASCII hs then ToLower hs else http_unicode_ToLower H hs in
    if String.eqb hs "" then Fails ErrNoClue
    else match ParseAddr hs with Some _ => Fails errHostIsIP | None => Found hs end.

(** ** HTTP/1 *)

Definition httpMethods : list string := ["GET"; "POST"; "HEAD"; "PUT"; "DELETE"; "OPTIONS"; "CONNECT"; "PATCH"; "TRACE"]%string.
(** @go component/sniffer/http_sniffer.go:94-101 isHTTPMethod *)
Definition isHTTPMethod (method : string) : bool := existsb (EqualFoldWord method) httpMethods.
(** @go component/sniffer/http_sniffer.go:103-110 isHTTPMethodPrefix *)
Definition isHTTPMethodPrefix (prefix : string) : bool :=
  existsb (fun method => (String.length prefix <=? String.length method)%nat && EqualFoldWord prefix (str_take (String.length prefix) method)) httpMethods.

Definition crlf : string := String "013" (String "010" EmptyString).
Definition slen (s : string) : Z := Z.of_nat (String.length s).

(** [rest] is what is left of [b].  Each turn cuts two bytes at least.
    @go component/sniffer/http_sniffer.go:171-190 parseHeaderHostH1 *)
Fixpoint header_lines (fuel : nat) (b rest : string) : Verdict string :=
  match fuel with
  | O => Panic
  | S fuel =>
      match Cut rest crlf with
      | None => Need (slen b + 1)
      | Some (line, tail) =>
          if String.eqb line "" then Fails ErrNoClue
          else
            match Cut line ":" with
            | Some (key, val) => if EqualFoldWord key "host" then parseHost (TrimSpaceUTF8 val) else header_lines fuel b tail
            | None => header_lines fuel b tail
            end
      end
  end.
Definition parseHeaderHostH1 (b : string) : Verdict string := header_lines (S (String.length b)) b b.

(** The host of a target that is not a path: scheme, path, query and user information go.
    @go component/sniffer/http_sniffer.go:148-160 sniffHTTP1 *)
Definition target_authority (uri : string) : string :=
  let uri := match Cut uri "://" with Some (_, afterScheme) => afterScheme | None => uri end in
  let uri := before_any "/?#" uri in
  match Cut uri "@" with Some (_, afterAt) => afterAt | None => uri end.

(** @go component/sniffer/http_sniffer.go:112-169 sniffHTTP1 *)
Definition sniffHTTP1 (b : string) : Verdict string :=
  match Cut b " " with
  | None => if isHTTPMethodPrefix b then Need (slen b + 1) else Fails errNotHTTP
  | Some (method, _) =>
      if negb (isHTTPMethod method) then Fails errNotHTTP
      else
        match Cut b crlf with
        | None => Need (slen b + 1)
        | Some (req, _) =>
            if slen req <? 14 then Fails ErrNoClue
            else
              match Cut req " " with
              | None => Fails ErrNoClue
              | Some (_, rest) =>
                  match Cut rest " " with
                  | None => Fails ErrNoClue
                  | Some (uri, _) =>
                      match uri with
                      | EmptyString => Fails ErrNoClue
                      | String c _ =>
                          if Ascii.eqb c "/" || Ascii.eqb c "*" then parseHeaderHostH1 b
                          else match parseHost (target_authority uri) with Fails _ => parseHeaderHostH1 b | v => v end
                      end
                  end
              end
        end
  end.

(** ** HTTP/2 *)

Definition h2ClientPreface : list Z := [80; 82; 73; 32; 42; 32; 72; 84; 84; 80; 47; 50; 46; 48; 13; 10; 13; 10; 83; 77; 13; 10; 13; 10].
Definition h2FrameHeaderLen : Z := 9.
Definition h2FrameHeaders : Z := 1.
Definition h2FrameSettings : Z := 4.
Definition h2FrameContinuation : Z := 9.
Definition h2FlagAck : Z := 1.
Definition h2FlagEndHeaders : Z := 4.
Definition h2FlagPadded : Z := 8.
Definition h2FlagPriority : Z := 32.
Definition headerTableSize : Z := 4096.
Definition h2DefaultMaxFrameSize : Z := Z.shiftl 1 14.
Definition has_flag (flags f : Z) : bool := negb (Z.land flags f =? 0).

(** The variables of [sniffHTTP2]. *)
Record H2State := mkH2 { h2_decoder : hpack H; h2_authority : string; h2_host : string; h2_headerStreamID : Z }.
(** The callback of the decoder.
    @go component/sniffer/http_sniffer.go:202-209 sniffHTTP2 *)
Definition h2_emit (f : string * string) (s : H2State) : H2State :=
  if String.eqb f.1 ":authority" then mkH2 (h2_decoder s) f.2 (h2_host s) (h2_headerStreamID s)
  else if String.eqb f.1 "host" then mkH2 (h2_decoder s) (h2_authority s) f.2 (h2_headerStreamID s)
  else s.
(** [decoder.Write]
    @go component/sniffer/http_sniffer.go:301-301 sniffHTTP2 *)
Definition h2_Write (data : list Z) (s : H2State) : H2State * bool :=
  let '(d, fs, err) := hpack_Write H (h2_decoder s) data in
  (foldl (fun s f => h2_emit f s) (mkH2 d (h2_authority s) (h2_host s) (h2_headerStreamID s)) fs, err).

(** The checks of a frame header; [first] is the frame after the preface.
    @go component/sniffer/http_sniffer.go:226-258 sniffHTTP2 *)
Definition h2_header_ok (first : bool) (length frameType flags streamID headerStreamID : Z) : bool :=
  negb (first && (negb (frameType =? h2FrameSettings) || has_flag flags h2FlagAck)) &&
  negb (h2DefaultMaxFrameSize <? length) &&
  negb ((frameType =? h2FrameSettings) &&
        (let ack := has_flag flags h2FlagAck in
         negb (streamID =? 0) || ack && negb (length =? 0) || negb ack && negb (length mod 6 =? 0))) &&
  (if headerStreamID =? 0
   then negb (frameType =? h2FrameContinuation) && negb ((frameType =? h2FrameHeaders) && (streamID =? 0))
   else negb (negb (frameType =? h2FrameContinuation) || negb (streamID =? headerStreamID))).

(** Where the HPACK fragment begins and ends in the payload.
    @go component/sniffer/http_sniffer.go:270-294 sniffHTTP2 *)
Definition h2_fragment (b : list Z) (length frameType flags payloadOffset : Z) : Verdict (Z * Z) :=
  if frameType =? h2FrameHeaders then
    r ← (if has_flag flags h2FlagPadded then
           if length =? 0 then Fails ErrNoClue
           else if zlen b =? 0 then Need (payloadOffset + 1)
           else padLen ← byte_at b 0; if length <=? padLen then Fails ErrNoClue else Found (1, length - padLen)
         else Found (0, length));
    if has_flag flags h2FlagPriority then
      if r.2 - r.1 <? 5 then Fails ErrNoClue else Found (r.1 + 5, r.2)
    else Found r
  else Found (0, length).

(** A frame: the host, or what is left and the state.
    @go component/sniffer/http_sniffer.go:211-334 sniffHTTP2 *)
Definition h2_frame (total : Z) (b : list Z) (s : H2State) : Verdict (string + list Z * H2State) :=
  if zlen b <? h2FrameHeaderLen then Need (total - zlen b + h2FrameHeaderLen)
  else
    b0 ← byte_at b 0; b1 ← byte_at b 1; b2 ← byte_at b 2;
    frameType ← byte_at b 3;
    flags ← byte_at b 4;
    id ← slice_of b 5 9;
    let length := Z.lor (Z.lor (Z.shiftl b0 16) (Z.shiftl b1 8)) b2 in
    let streamID := Z.land (be_get id) 2147483647 in
    let b := zdrop h2FrameHeaderLen b in
    let payloadOffset := total - zlen b in
    if negb (h2_header_ok (payloadOffset =? zlen h2ClientPreface + h2FrameHeaderLen) length frameType flags streamID (h2_headerStreamID s)) then Fails ErrNoClue
    else if (h2_headerStreamID s =? 0) && negb (frameType =? h2FrameHeaders) then
      if zlen b <? length then Need (payloadOffset + length) else Found (inr (zdrop length b, s))
    else
      let s := if h2_headerStreamID s =? 0 then mkH2 (h2_decoder s) (h2_authority s) (h2_host s) streamID else s in
      f ← h2_fragment b length frameType flags payloadOffset;
      let '(fragmentStart, fragmentEnd) := f in
      let availableEnd := if fragmentEnd <? zlen b then fragmentEnd else zlen b in
      w ← (if fragmentStart <? availableEnd then
             data ← slice_of b fragmentStart availableEnd;
             let '(s, err) := h2_Write data s in
             if negb (String.eqb (h2_authority s) "") then host ← parseHost (h2_authority s); Found (inl host)
             else if negb (String.eqb (h2_host s) "") then host ← parseHost (h2_host s); Found (inl host)
             else if err : bool then Fails ErrNoClue else Found (inr s)
           else Found (inr s));
      match w with
      | inl host => Found (inl host)
      | inr s =>
          if has_flag flags h2FlagEndHeaders && ((fragmentStart =? fragmentEnd) || (availableEnd =? fragmentEnd)) then Fails ErrNoClue
          else if zlen b <? length then
            Need (if availableEnd <? fragmentEnd then (if zlen b <? fragmentStart then payloadOffset + fragmentStart + 1 else total + 1)
                  else payloadOffset + length)
          else Found (inr (zdrop length b, s))
      end.

(** A frame takes nine bytes at least.
    @go component/sniffer/http_sniffer.go:211-334 sniffHTTP2 *)
Fixpoint h2_frames (fuel : nat) (total : Z) (b : list Z) (s : H2State) : Verdict string :=
  match fuel with
  | O => Panic
  | S fuel =>
      r ← h2_frame total b s;
      match r with inl host => Found host | inr (b, s) => h2_frames fuel total b s end
  end.
(** @go component/sniffer/http_sniffer.go:192-335 sniffHTTP2 *)
Definition sniffHTTP2 (b : list Z) : Verdict string :=
  h2_frames (S (length b)) (zlen b) (zdrop (zlen h2ClientPreface) b) (mkH2 (hpack_NewDecoder H headerTableSize) "" "" 0).

(** @go component/sniffer/http_sniffer.go:79-92 HTTPSniffer.SniffData *)
Definition http_SniffData (b : list Z) : Verdict string :=
  if zlen b <? zlen h2ClientPreface then
    if HasPrefix (string_of h2ClientPreface) (string_of b) then Need (zlen b + 1) else sniffHTTP1 (string_of b)
  else if HasPrefix (string_of b) (string_of h2ClientPreface) then sniffHTTP2 b
  else sniffHTTP1 (string_of b).
End Http.

(** * Sniffing HTTP: theorems *)


(** ** Progress *)

(** The verdict of [k] bytes: no panic, and a request is for more of them. *)
Definition asks {A} (k : Z) (v : Verdict A) (Q : A -> Prop) : Prop := match v with Found a => Q a | Need n => k < n | Fails _ => True | Panic => False end.

Lemma asks_bind {A B} k (v : Verdict A) (f : A -> Verdict B) P Q : asks k v P -> (forall a, P a -> asks k (f a) Q) -> asks k (v_bind v f) Q.
Proof. destruct v; cbn; auto. Qed.
Lemma asks_byte k d i : bytes_ok d -> 0 <= i < zlen d -> asks k (byte_at d i) is_byte.
Proof. intros Hd Hi. destruct (byte_at_lookup d Hd i Hi) as (b & _ & Hb & E). specialize (E []). rewrite app_nil_r in E. by rewrite E. Qed.
Lemma asks_slice k d i j : 0 <= i <= j -> j <= zlen d -> asks k (slice_of d i j) (fun _ => True).
Proof. intros Hi Hj. unfold slice_of. by rewrite !(proj2 (Z.leb_le _ _)) by lia. Qed.

Lemma str_drop_app p t : str_drop (String.length p) (p ++ t)%string = t.
Proof. induction p as [|c p IH]; [by destruct t|]. rewrite sapp_cons. exact IH. Qed.

Section Progress.
Context (H : HttpLib).

Lemma asks_parseHost k h : asks k (parseHost H h) (fun _ => True).
Proof. unfold parseHost. cbv zeta. destruct (String.eqb h ""); [done|]. destruct (String.eqb _ ""); [done|]. by destruct (ParseAddr _). Qed.

Lemma Cut_length s sep x y : Cut s sep = Some (x, y) -> (String.length x + String.length sep + String.length y = String.length s)%nat.
Proof.
  revert x. induction s as [|c s IH]; intros x; cbn [Cut].
  - destruct sep; [|done]. by intros [= <- <-].
  - destruct (HasPrefix (String c s) sep) eqn:E.
    + apply HasPrefix_spec in E as [t Et]. rewrite Et. intros [= <- <-]. rewrite slen_app, str_drop_app. cbn [String.length]. lia.
    + destruct (Cut s sep) as [[x' y']|]; [|done]. intros [= <- <-]. specialize (IH _ eq_refl). cbn [String.length]. lia.
Qed.

Lemma asks_header_lines b fuel : forall rest, (String.length rest < fuel)%nat -> asks (slen b) (header_lines H fuel b rest) (fun _ => True).
Proof.
  induction fuel as [|fuel IH]; intros rest Hf; [lia|]. cbn [header_lines]. destruct (Cut rest crlf) as [[line tail]|] eqn:E; [|cbn; lia].
  destruct (String.eqb line ""); [done|]. apply Cut_length in E. cbn in E.
  destruct (Cut line ":") as [[key val]|]; [|apply IH; lia]. destruct (EqualFoldWord key "host"); [apply asks_parseHost|apply IH; lia].
Qed.
Lemma asks_HTTP1 b : asks (slen b) (sniffHTTP1 H b) (fun _ => True).
Proof.
  assert (Hh : asks (slen b) (parseHeaderHostH1 H b) (fun _ => True)) by (apply asks_header_lines; lia).
  unfold sniffHTTP1. destruct (Cut b " ") as [[method ?]|]; [|destruct (isHTTPMethodPrefix b); cbn; lia].
  destruct (negb _); [done|]. destruct (Cut b crlf) as [[req ?]|]; [|cbn; lia]. destruct (slen req <? 14); [done|].
  destruct (Cut req " ") as [[? rest]|]; [|done]. destruct (Cut rest " ") as [[uri ?]|]; [|done]. destruct uri as [|c uri]; [done|].
  destruct (_ || _); [done|]. pose proof (asks_parseHost (slen b) (target_authority (String c uri))). by destruct (parseHost H (target_authority (String c uri))).
Qed.

Lemma asks_fragment k b length ty flags po : bytes_ok b -> 0 <= length -> k = po + zlen b ->
  asks k (h2_fragment b length ty flags po) (fun r => 0 <= r.1 /\ r.1 <= r.2 <= length).
Proof.
  intros Hb Hl Hk. unfold h2_fragment. destruct (ty =? h2FrameHeaders); [|cbn; lia].
  eapply (asks_bind _ _ _ (fun r => 0 <= r.1 /\ r.1 <= r.2 <= length)).
  - destruct (has_flag flags h2FlagPadded); [|cbn; lia]. destruct (length =? 0); [done|]. destruct (Z.eqb_spec (zlen b) 0) as [E|]; [cbn; lia|].
    pose proof (zlen_nonneg b). eapply asks_bind; [apply asks_byte; [done|lia]|]. intros pad Hpad. unfold is_byte in Hpad. destruct (Z.leb_spec length pad); cbn; [done|lia].
  - intros [s e] Hr. cbn in Hr |- *. destruct (has_flag flags h2FlagPriority); [|cbn; lia]. destruct (Z.ltb_spec (e - s) 5); cbn; [done|lia].
Qed.

Lemma asks_frame total b s : bytes_ok b -> zlen b <= total ->
  asks total (h2_frame H total b s) (fun r => match r with inl _ => True | inr (b', _) => bytes_ok b' /\ zlen b' + 9 <= zlen b end).
Proof.
  intros Hb Ht. unfold h2_frame, h2FrameHeaderLen. destruct (Z.ltb_spec (zlen b) 9); [cbn; lia|].
  do 5 (eapply asks_bind; [apply asks_byte; [done|lia]|]; intros ? ?). eapply asks_bind; [apply asks_slice; lia|]. intros id _. cbv zeta.
  unfold is_byte in *. set (len := Z.lor _ a1). assert (Hlen : 0 <= len).
  { apply Z.lor_nonneg. split; [|lia]. apply Z.lor_nonneg. split; apply Z.shiftl_nonneg; lia. }
  clearbody len. set (b' := zdrop 9 b). assert (Hb' : bytes_ok b') by (by apply Forall_drop). assert (Hl' : zlen b' = zlen b - 9) by (apply zlen_zdrop_le; lia).
  clearbody b'. assert (Hnext : len <= zlen b' -> bytes_ok (zdrop len b') /\ zlen (zdrop len b') + 9 <= zlen b).
  { intros Hd. split; [by apply Forall_drop|]. rewrite zlen_zdrop_le by lia. lia. }
  pose proof (zlen_nonneg b'). destruct (negb (h2_header_ok _ _ _ _ _ _)); [done|]. destruct (_ && negb _).
  { destruct (Z.ltb_spec (zlen b') len); cbn; [lia|by apply Hnext]. }
  set (s' := if _ : bool then _ else s). eapply asks_bind; [apply asks_fragment; [done|done|lia]|]. intros [fs fe] Hf. cbn [fst snd] in Hf.
  set (ae := if fe <? zlen b' then fe else zlen b'). assert (Hae : ae <= fe /\ ae <= zlen b' /\ (ae < fe -> ae = zlen b')) by (unfold ae; destruct (Z.ltb_spec fe (zlen b')); lia).
  eapply (asks_bind _ _ _ (fun _ => True)).
  - destruct (Z.ltb_spec fs ae); [|done]. eapply asks_bind; [apply asks_slice; lia|]. intros data _. destruct (h2_Write H data s') as [s'' err].
    destruct (negb _); [eapply asks_bind; [apply asks_parseHost|done]|]. destruct (negb _); [eapply asks_bind; [apply asks_parseHost|done]|]. by destruct err.
  - intros [host|s''] _; [done|]. destruct (_ && _); [done|]. destruct (Z.ltb_spec (zlen b') len).
    + cbn. destruct (Z.ltb_spec ae fe); [destruct (Z.ltb_spec (zlen b') fs)|]; lia.
    + by apply Hnext.
Qed.
Lemma asks_frames total fuel : forall b s, zlen b < Z.of_nat fuel -> bytes_ok b -> zlen b <= total -> asks total (h2_frames H fuel total b s) (fun _ => True).
Proof.
  induction fuel as [|fuel IH]; intros b s Hf Hb Ht; [pose proof (zlen_nonneg b); lia|]. cbn [h2_frames].
  eapply asks_bind; [by apply asks_frame|]. intros [host|[b' s']]; [done|]. intros [Hb' Hl]. apply IH; [lia|done|lia].
Qed.
End Progress.

Lemma slen_string_of b : slen (string_of b) = zlen b.
Proof. unfold slen, zlen, string_of. f_equal. induction b as [|x b IH]; [done|]. cbn. by rewrite IH. Qed.

Lemma http_SniffData_asks H b : bytes_ok b -> asks (zlen b) (http_SniffData H b) (fun _ => True).
Proof.
  intros Hb. unfold http_SniffData. pose proof (asks_HTTP1 H (string_of b)) as H1. rewrite slen_string_of in H1.
  destruct (Z.ltb_spec (zlen b) (zlen h2ClientPreface)); destruct (HasPrefix _ _); try done; [cbn; lia|].
  unfold sniffHTTP2. assert (Hd : zlen (zdrop (zlen h2ClientPreface) b) = zlen b - zlen h2ClientPreface) by (apply zlen_zdrop_le; split; [apply zlen_nonneg|done]).
  assert (0 <= zlen h2ClientPreface) by apply zlen_nonneg. apply asks_frames; [unfold zlen in *; lia|by apply Forall_drop|lia].
Qed.

(** the HTTP sniffer ends and never reads outside of the data, whatever they are and whatever HPACK
    decodes; when it asks for data, it asks for more than it was given. *)
Lemma http_SniffData_progress H b : bytes_ok b -> asks (zlen b) (http_SniffData H b) (fun _ => True).
Proof. apply http_SniffData_asks. Qed.

(** ** Requests *)

(** Characters of host names and of ports: not white space, colons, brackets or line ends. *)
Definition host_char (c : ascii) : bool :=
  byte_in 97 122 c || byte_in 65 90 c || byte_in 48 57 c || Ascii.eqb c "-" || Ascii.eqb c "." || Ascii.eqb c "_".
(** Neither a carriage return nor any of these. *)
Definition no_chars (cs : string) (s : string) : bool := all_chars (fun c => negb (Contains c cs)) s.
Definition cr : string := String "013" EmptyString.

(** A request with its lines up to the Host field, and what follows. *)
Record Request := mkRequest {
  rq_method : string; rq_path : string; rq_version : string;
  rq_headers : list (string * string);
  rq_key : string; rq_space : string; rq_host : string; rq_port : option string;
  rq_rest : string
}.
Definition enc_header (h : string * string) : string := (h.1 ++ ":" ++ h.2 ++ crlf)%string.
Definition enc_headers (l : list (string * string)) : string := fold_right (fun h s => (enc_header h ++ s)%string) EmptyString l.
Definition host_port (r : Request) : string := (rq_host r ++ match rq_port r with Some p => ":" ++ p | None => EmptyString end)%string.
Definition enc_request (r : Request) : string :=
  (rq_method r ++ " " ++ rq_path r ++ " " ++ rq_version r ++ crlf ++ enc_headers (rq_headers r) ++
   rq_key r ++ ":" ++ rq_space r ++ host_port r ++ crlf ++ rq_rest r)%string.

Record request_ok (r : Request) : Prop := {
  ro_method : no_chars (String " " (String ":" cr)) (rq_method r) = true /\ isHTTPMethod (rq_method r) = true;
  ro_path : exists p, rq_path r = String "/" p /\ no_chars (String " " cr) p = true;
  ro_version : no_chars cr (rq_version r) = true /\ 8 <= slen (rq_version r);
  ro_headers : Forall (fun h => no_chars (String ":" cr) h.1 = true /\ no_chars cr h.2 = true /\ EqualFoldWord h.1 "host" = false) (rq_headers r);
  ro_key : no_chars (String ":" cr) (rq_key r) = true /\ EqualFoldWord (rq_key r) "host" = true;
  ro_space : all_chars (fun c => Ascii.eqb c " " || Ascii.eqb c "009") (rq_space r) = true;
  ro_host : all_chars host_char (rq_host r) = true /\ rq_host r <> EmptyString /\ TrimRightFunc (Ascii.eqb ".") (rq_host r) = rq_host r;
  ro_port : match rq_port r with Some p => all_chars host_char p = true | None => True end;
  ro_name : ParseAddr (ToLower (rq_host r)) = None
}.

Lemma no_chars_contains cs s c : no_chars cs s = true -> Contains c cs = true -> Contains c s = false.
Proof. intros Hs Hc. revert Hs. apply Contains_none. by rewrite Hc. Qed.
Lemma Cut_char s c r : Contains c s = false -> Cut (s ++ String c r)%string (String c EmptyString) = Some (s, r).
Proof.
  induction s as [|d s IH]; intros Hs.
  - rewrite sapp_nil_l. cbn [Cut HasPrefix]. rewrite Ascii.eqb_refl. cbn [andb]. by destruct r.
  - rewrite sapp_cons. cbn [Contains] in Hs. apply orb_false_iff in Hs as [Hd Hs]. cbn [Cut HasPrefix]. rewrite Hd. cbn [andb]. by rewrite (IH Hs).
Qed.
Lemma Cut_crlf s r : Contains "013" s = false -> Cut (s ++ crlf ++ r)%string crlf = Some (s, r).
Proof.
  induction s as [|d s IH]; intros Hs; [by destruct r|]. rewrite sapp_cons. cbn [Contains] in Hs. apply orb_false_iff in Hs as [Hd Hs].
  unfold crlf at 2. cbn [Cut HasPrefix]. rewrite Hd. cbn [andb]. fold crlf. by rewrite (IH Hs).
Qed.
Lemma Contains_app c a b : Contains c (a ++ b)%string = Contains c a || Contains c b.
Proof. induction a as [|d a IH]; [done|]. rewrite sapp_cons. cbn [Contains]. by rewrite IH, orb_assoc. Qed.

(** ** The host *)

Lemma host_char_facts c : host_char c = true -> IsSpace c = false /\ (nat_of_ascii c <? 128)%nat = true /\ Ascii.eqb ":" c = false /\
  Ascii.eqb "[" c = false /\ Ascii.eqb "]" c = false /\ Ascii.eqb "013" c = false /\ byte_in 0 127 c = true.
Proof. destruct c as [[] [] [] [] [] [] [] []]; vm_compute; intros [=]; repeat split. Qed.
Lemma host_contains s c : all_chars host_char s = true -> host_char c = false -> Contains c s = false.
Proof. intros Hs Hc. by apply (Contains_none _ _ host_char). Qed.

Lemma cut_last_app s c r : Contains c r = false -> cut_last c (s ++ String c r)%string = Some (s, r).
Proof.
  intros Hr. assert (H0 : cut_last c r = None).
  { induction r as [|d r IH]; [done|]. cbn [Contains] in Hr. apply orb_false_iff in Hr as [Hd Hr]. cbn [cut_last]. by rewrite (IH Hr), Hd. }
  induction s as [|d s IH]; [rewrite sapp_nil_l; cbn [cut_last]; by rewrite H0, Ascii.eqb_refl|]. rewrite sapp_cons. cbn [cut_last]. by rewrite IH.
Qed.
Lemma cut_last_none s c : Contains c s = false -> cut_last c s = None.
Proof. induction s as [|d s IH]; [done|]. cbn [Contains cut_last]. intros [Hd Hs]%orb_false_iff. by rewrite (IH Hs), Hd. Qed.

(** A host with or without a port comes apart. *)
Lemma SplitHostPort_host h port : all_chars host_char h = true -> h <> EmptyString -> match port with Some p => all_chars host_char p = true | None => True end ->
  match SplitHostPort (h ++ match port with Some p => ":" ++ p | None => EmptyString end) with Some (x, _) => x | None => (h ++ match port with Some p => ":" ++ p | None => EmptyString end)%string end = h.
Proof.
  intros Hh Hne Hp. destruct port as [p|]; unfold SplitHostPort.
  - change (":" ++ p)%string with (String ":" p). rewrite cut_last_app by (by apply host_contains). destruct h as [|c h]; [done|].
    cbn in Hh. apply andb_true_iff in Hh as [Hc Hh']. destruct (host_char_facts c Hc) as (_ & _ & Hcol & Hob & Hcb & _).
    assert (Hcs : forall x, host_char x = false -> Ascii.eqb ":" x = (Ascii.eqb x ":") -> Contains x (String c h) = false) by (intros x Hx _; apply host_contains; [cbn; by rewrite Hc, Hh'|done]).
    rewrite sapp_cons. assert (Hgoal : (if Contains ":" (String c h) || Contains "[" (String c (h ++ String ":" p)) || Contains "]" (String c (h ++ String ":" p)) then None else Some (String c h, p)) = Some (String c h, p)).
    { rewrite <- sapp_cons, !Contains_app, !(Hcs _) by done. cbn [Contains]. rewrite !(host_contains p) by done. done. }
    destruct c as [[] [] [] [] [] [] [] []]; try discriminate Hob; by rewrite Hgoal.
  - rewrite sapp_nil, cut_last_none by (by apply host_contains). done.
Qed.

Definition plain_char (c : ascii) : bool := negb (IsSpace c) && byte_in 0 127 c.
Lemma space_prefix_plain c r : plain_char c = true -> space_prefix (String c r) = 0%nat.
Proof. destruct c as [[] [] [] [] [] [] [] []]; intros Hc; try discriminate Hc; reflexivity. Qed.
Lemma trim_right_plain s : all_chars plain_char s = true -> trim_right_space s = s.
Proof.
  induction s as [|c s IH]; [done|]. cbn [all_chars]. intros [Hc Hs]%andb_true_iff. cbn [trim_right_space String.length all_space].
  by rewrite (space_prefix_plain c s Hc), (IH Hs).
Qed.
Lemma trim_left_blank ws t fuel : all_chars (fun c => Ascii.eqb c " " || Ascii.eqb c "009") ws = true -> all_chars plain_char t = true ->
  (String.length ws <= fuel)%nat -> trim_left_space fuel (ws ++ t)%string = t.
Proof.
  revert fuel. induction ws as [|c ws IH]; intros fuel Hws Ht Hf.
  - rewrite sapp_nil_l. destruct fuel as [|fuel], t as [|d t]; try done. cbn [trim_left_space]. cbn in Ht. apply andb_true_iff in Ht as [Hd _]. by rewrite space_prefix_plain.
  - cbn in Hws. apply andb_true_iff in Hws as [Hc Hws]. cbn [String.length] in Hf. destruct fuel as [|fuel]; [lia|]. rewrite sapp_cons. cbn [trim_left_space].
    assert (E : space_prefix (String c (ws ++ t)%string) = 1%nat).
    { unfold space_prefix. apply orb_true_iff in Hc as [Hc|Hc]; apply Ascii.eqb_eq in Hc as ->; done. }
    rewrite E. assert (Ed : forall X, str_drop 1 (String c X) = X) by (by intros []). rewrite Ed. apply IH; done || lia.
Qed.
Lemma TrimSpace_blank ws t : all_chars (fun c => Ascii.eqb c " " || Ascii.eqb c "009") ws = true -> all_chars plain_char t = true -> TrimSpaceUTF8 (ws ++ t)%string = t.
Proof. intros Hws Ht. unfold TrimSpaceUTF8. rewrite trim_left_blank; [by apply trim_right_plain|done|done|]. rewrite slen_app. lia. Qed.

Section Host.
Context (H : HttpLib).

Lemma host_port_plain r : request_ok r -> all_chars plain_char (host_port r) = true.
Proof.
  intros Hr. destruct (ro_host r Hr) as (Hh & _). pose proof (ro_port r Hr) as Hp.
  assert (Himp : forall s, all_chars host_char s = true -> all_chars plain_char s = true).
  { intros s. apply all_chars_impl. intros c Hc. destruct (host_char_facts c Hc) as (H1 & _ & _ & _ & _ & _ & H2). unfold plain_char. by rewrite H1, H2. }
  unfold host_port. rewrite all_chars_app, (Himp _ Hh). destruct (rq_port r) as [p|]; [|done]. change (":" ++ p)%string with (String ":" p). cbn [all_chars andb]. by rewrite (Himp _ Hp).
Qed.
Lemma parseHost_host r : request_ok r -> parseHost H (host_port r) = Found (ToLower (rq_host r)).
Proof.
  intros Hr. destruct (ro_host r Hr) as (Hh & Hne & Htrim). unfold parseHost, host_port.
  pose proof (SplitHostPort_host _ (rq_port r) Hh Hne (ro_port r Hr)) as Hs.
  destruct (rq_host r) as [|c h] eqn:Eh; [done|]. rewrite sapp_cons in *. cbn [String.eqb]. cbv zeta. rewrite Hs.
  pose proof Hh as Hh'. cbn in Hh'. apply andb_true_iff in Hh' as [Hc _]. destruct (host_char_facts c Hc) as (_ & _ & _ & Hob & _).
  assert (Hb : HasPrefix (String c h) "[" = false) by (cbn [HasPrefix]; by rewrite Hob). rewrite Hb. cbn [andb]. rewrite Htrim.
  assert (Ha : is_ASCII (String c h) = true).
  { revert Hh. apply all_chars_impl. intros d Hd. by destruct (host_char_facts d Hd) as (_ & _ & _ & _ & _ & _ & ?). }
  rewrite Ha. pose proof (ro_name r Hr) as Hn. rewrite Eh in Hn. rewrite Hn. done.
Qed.

(** A word with a space in it is not the name of the Host field. *)
Lemma EqualFoldWord_space t : Contains " " t = false -> forall s, EqualFoldWord s t = true -> Contains " " s = false.
Proof.
  induction t as [|d t IH]; intros Ht s; [by destruct s|]. cbn [Contains] in Ht. apply orb_false_iff in Ht as [Hd Ht]. destruct s as [|c s]; [done|]. cbn [EqualFoldWord].
  destruct (nat_of_ascii c <? 128)%nat.
  - intros [E Hs]%andb_true_iff. cbn [Contains]. rewrite (IH Ht s Hs), orb_false_r. destruct (Ascii.eqb_spec " " c) as [<-|]; [|done].
    apply Ascii.eqb_eq in E. destruct d as [[] [] [] [] [] [] [] []]; discriminate.
  - destruct (_ && _) eqn:E1.
    + apply andb_true_iff in E1 as [_ E1]. destruct s as [|c' s]; [done|]. intros Hs. cbn [Contains]. rewrite (IH Ht s Hs).
      apply HasPrefix_spec in E1 as [x [= -> -> ->]]. done.
    + destruct (_ && HasPrefix _ (bytes [226; 132; 170]%nat)) eqn:E2; [|done]. apply andb_true_iff in E2 as [_ E2]. destruct s as [|c' [|c'' s]]; [done..|]. intros Hs. cbn [Contains]. rewrite (IH Ht s Hs).
      apply HasPrefix_spec in E2 as [x [= -> -> -> ->]]. done.
Qed.

(** The lines before the Host field are skipped. *)
Lemma header_lines_skip l fuel b rest : Forall (fun h => no_chars (String ":" cr) h.1 = true /\ no_chars cr h.2 = true /\ EqualFoldWord h.1 "host" = false) l ->
  (length l <= fuel)%nat -> header_lines H fuel b (enc_headers l ++ rest)%string = header_lines H (fuel - length l) b rest.
Proof.
  intros Hl. revert fuel. induction Hl as [|[k v] l (Hk & Hv & Hne) _ IH]; intros fuel Hf; [cbn; by rewrite Nat.sub_0_r|].
  destruct fuel as [|fuel]; [cbn in Hf; lia|]. cbn [enc_headers fold_right length]. unfold enc_header. cbn [fst snd] in *. cbn [header_lines]. fold (enc_headers l).
  rewrite !sapp_assoc, <- (sapp_assoc k ":"), <- (sapp_assoc (k ++ ":") v).
  rewrite Cut_crlf by (by rewrite !Contains_app, (no_chars_contains _ _ "013" Hk eq_refl), (no_chars_contains _ _ "013" Hv eq_refl)).
  destruct (String.eqb_spec ((k ++ ":") ++ v) "") as [E|_]; [by destruct k|]. rewrite sapp_assoc. change (":" ++ v)%string with (String ":" v).
  rewrite (Cut_char k ":" v) by (by apply (no_chars_contains _ _ ":" Hk eq_refl)). rewrite Hne. apply IH. cbn in Hf. lia.
Qed.
End Host.

Lemma EqualFoldWord_length t : forall s, EqualFoldWord s t = true -> (String.length t <= String.length s)%nat.
Proof.
  induction t as [|d t IH]; intros s; [cbn; lia|]. destruct s as [|c s]; [done|]. cbn [EqualFoldWord String.length]. destruct (nat_of_ascii c <? 128)%nat.
  - intros [_ Hs]%andb_true_iff. specialize (IH _ Hs). lia.
  - destruct (_ && _); [destruct s as [|c' s]; [done|]; intros Hs; specialize (IH _ Hs); cbn; lia|]. destruct (_ && _); [|done].
    destruct s as [|c' [|c'' s]]; [done..|]. intros Hs. specialize (IH _ Hs). cbn. lia.
Qed.
Lemma method_length m : isHTTPMethod m = true -> (3 <= String.length m)%nat.
Proof.
  unfold isHTTPMethod. intros [t [Ht E%EqualFoldWord_length]]%existsb_exists. assert (3 <= String.length t)%nat; [|lia].
  clear - Ht. cbn in Ht. destruct Ht as [<-|[<-|[<-|[<-|[<-|[<-|[<-|[<-|[<-|[]]]]]]]]]]; apply Nat.leb_le; reflexivity.
Qed.

(** The line of the Host field. *)
Lemma host_line H r b fuel : request_ok r ->
  header_lines H (S fuel) b (rq_key r ++ ":" ++ rq_space r ++ host_port r ++ crlf ++ rq_rest r)%string = Found (ToLower (rq_host r)).
Proof.
  intros Hr. destruct (ro_key r Hr) as [Hk Hkh]. cbn [header_lines].
  replace (rq_key r ++ ":" ++ rq_space r ++ host_port r ++ crlf ++ rq_rest r)%string with ((rq_key r ++ String ":" (rq_space r ++ host_port r)) ++ crlf ++ rq_rest r)%string
    by (sapp; reflexivity).
  assert (Hpl : Contains "013" (host_port r) = false) by (apply (Contains_none _ _ plain_char); [done|by apply host_port_plain]).
  assert (Hsp : Contains "013" (rq_space r) = false) by (apply (Contains_none _ _ (fun c => Ascii.eqb c " " || Ascii.eqb c "009")); [done|apply Hr]).
  rewrite Cut_crlf; [|rewrite Contains_app; cbn [Contains]; by rewrite Contains_app, Hpl, Hsp, (no_chars_contains _ _ "013" Hk eq_refl)].
  destruct (String.eqb_spec (rq_key r ++ String ":" (rq_space r ++ host_port r)) "") as [E|_]; [by destruct (rq_key r)|].
  rewrite (Cut_char _ ":") by (by apply (no_chars_contains _ _ ":" Hk eq_refl)). rewrite Hkh, TrimSpace_blank by (apply Hr || by apply host_port_plain). by apply parseHost_host.
Qed.

Lemma enc_headers_length l : (length l <= String.length (enc_headers l))%nat.
Proof.
  induction l as [|h l IH]; [done|]. change (enc_headers (h :: l)) with (enc_header h ++ enc_headers l)%string. rewrite slen_app.
  assert (0 < String.length (enc_header h))%nat; [|cbn [length]; lia]. unfold enc_header. rewrite !slen_app. change (String.length ":") with 1%nat. lia.
Qed.

Definition request_line (r : Request) : string := (rq_method r ++ " " ++ rq_path r ++ " " ++ rq_version r)%string.
Lemma request_line_facts r : request_ok r ->
  Contains "013" (request_line r) = false /\ (forall t, Cut (request_line r ++ t)%string " " = Some (rq_method r, (rq_path r ++ " " ++ rq_version r ++ t)%string)) /\
  match Cut (request_line r) ":" with Some (key, _) => EqualFoldWord key "host" = false | None => True end.
Proof.
  intros Hr. destruct (ro_method r Hr) as [Hm _]. destruct (ro_path r Hr) as (p & Ep & Hp). destruct (ro_version r Hr) as [Hv _].
  assert (Hcp : Contains "013" (rq_path r) = false) by (rewrite Ep; cbn [Contains]; by rewrite (no_chars_contains _ _ "013" Hp eq_refl)).
  pose proof (no_chars_contains _ _ " " Hm eq_refl) as Hs. pose proof (no_chars_contains _ _ ":" Hm eq_refl) as Hc. split_and!.
  - unfold request_line. by rewrite !Contains_app, Hcp, (no_chars_contains _ _ "013" Hm eq_refl), (no_chars_contains _ _ "013" Hv eq_refl).
  - intros t. unfold request_line. rewrite !sapp_assoc. by apply (Cut_char _ " ").
  - unfold request_line. change (" " ++ rq_path r ++ " " ++ rq_version r)%string with (String " " (rq_path r ++ " " ++ rq_version r)%string).
    generalize (rq_path r ++ " " ++ rq_version r)%string. intros t.
    assert (Hcut : forall key val, Cut (rq_method r ++ String " " t)%string ":" = Some (key, val) -> Contains " " key = true).
    { clear - Hc. induction (rq_method r) as [|d m IH]; intros key val.
      - rewrite sapp_nil_l. cbn [Cut HasPrefix]. replace (Ascii.eqb ":" " " && HasPrefix t "") with false by done. destruct (Cut t ":") as [[x y]|]; [|done]. by intros [= <- _].
      - cbn [Contains] in Hc. apply orb_false_iff in Hc as [Hd Hc]. rewrite sapp_cons. cbn [Cut HasPrefix]. rewrite Hd. cbn [andb].
        destruct (Cut (m ++ String " " t) ":") as [[x y]|] eqn:E; [|done]. intros [= <- _]. cbn [Contains]. rewrite (IH Hc _ _ eq_refl). apply orb_true_r. }
    destruct (Cut (rq_method r ++ String " " t)%string ":") as [[key val]|] eqn:E; [|done]. specialize (Hcut _ _ eq_refl).
    destruct (EqualFoldWord key "host") eqn:Ek; [|done]. by rewrite (EqualFoldWord_space "host" eq_refl _ Ek) in Hcut.
Qed.

(** the host of a well-formed request is read from its first Host field: the name in lower case
    without the port, whatever the other fields are and whatever follows the field's line. *)
Lemma sniffHTTP1_roundtrip H r : request_ok r -> sniffHTTP1 H (enc_request r) = Found (ToLower (rq_host r)).
Proof.
  intros Hr. destruct (ro_method r Hr) as [_ Hmm]. destruct (ro_path r Hr) as (p & Ep & Hp). destruct (ro_version r Hr) as [_ Hv8].
  destruct (request_line_facts r Hr) as (Hcl & Hsp & Hkey). set (rest := (enc_headers (rq_headers r) ++ rq_key r ++ ":" ++ rq_space r ++ host_port r ++ crlf ++ rq_rest r)%string).
  assert (Ereq : enc_request r = (request_line r ++ crlf ++ rest)%string) by (unfold enc_request, request_line, rest; by rewrite !sapp_assoc).
  assert (Hfold : parseHeaderHostH1 H (enc_request r) = Found (ToLower (rq_host r))).
  { unfold parseHeaderHostH1. cbn [header_lines]. assert (Ecut : Cut (enc_request r) crlf = Some (request_line r, rest)) by (rewrite Ereq; by apply Cut_crlf). rewrite Ecut.
    destruct (String.eqb_spec (request_line r) "") as [E|_]; [by unfold request_line in E; destruct (rq_method r)|].
    assert (Hnext : header_lines H (String.length (enc_request r)) (enc_request r) rest = Found (ToLower (rq_host r))).
    { pose proof (enc_headers_length (rq_headers r)). assert (Hl : (length (rq_headers r) < String.length (enc_request r))%nat) by (rewrite Ereq; unfold rest; rewrite !slen_app; cbn; lia).
      unfold rest. rewrite (header_lines_skip H _ _ _ _ (ro_headers r Hr)) by lia. destruct (_ - _)%nat as [|f] eqn:Ef; [lia|]. by apply host_line. }
    destruct (Cut (request_line r) ":") as [[key val]|]; [by rewrite Hkey|done]. }
  unfold sniffHTTP1. rewrite Ereq, Hsp, Hmm. cbn [negb]. rewrite Cut_crlf by done.
  assert (Hlen : (slen (request_line r) <? 14) = false).
  { apply Z.ltb_ge. pose proof (method_length _ Hmm). unfold slen, request_line in *. rewrite !slen_app, Ep. cbn [String.length]. lia. }
  rewrite Hlen. pose proof (Hsp "") as Hs0. rewrite !sapp_nil in Hs0. rewrite Hs0.
  change (" " ++ rq_version r)%string with (String " " (rq_version r)). rewrite (Cut_char (rq_path r) " ") by (rewrite Ep; cbn [Contains]; by rewrite (no_chars_contains _ _ " " Hp eq_refl)).
  rewrite Ep. cbn [Ascii.eqb Bool.eqb orb]. rewrite <- Ereq. exact Hfold.
Qed.

(** ** Witnesses and examples *)

(** A decoder for which every fragment is an authority. *)
Definition demo_http : HttpLib := {| http_unicode_ToLower := fun s => s; hpack := unit; hpack_NewDecoder := fun _ => tt;
  hpack_Write := fun d data => (d, [(":authority"%string, string_of data)], false) |}.
Definition demo_request : Request := {|
  rq_method := "get"; rq_path := "/a?b=c:d"; rq_version := "HTTP/1.1";
  rq_headers := [("User-Agent", " x")]%string; rq_key := "HOST"; rq_space := "  "; rq_host := "WWW.Example.org"; rq_port := Some "8080"%string; rq_rest := "Accept" |}.
Definition data_of (s : string) : list Z := map (fun c => Z.of_nat (nat_of_ascii c)) (String.list_ascii_of_string s).

Example http_SniffData_progress_witness : bytes_ok [80; 82; 73] /\ asks 3 (http_SniffData demo_http [80; 82; 73]) (fun _ => True).
Proof. assert (Hb : bytes_ok [80; 82; 73]) by (repeat constructor; discriminate). split; [exact Hb|exact (http_SniffData_progress demo_http _ Hb)]. Defined.
Example sniffHTTP1_roundtrip_witness : sniffHTTP1 demo_http (enc_request demo_request) = Found "www.example.org"%string.
Proof.
  apply (sniffHTTP1_roundtrip demo_http demo_request). split; try (vm_compute; repeat split; discriminate || reflexivity).
  - exists "a?b=c:d"%string. split; reflexivity.
  - repeat constructor.
Defined.

(** HTTP/2: after the preface and the settings, the authority of the first header block. *)
Example sniff_http2 :
  let settings := [0; 0; 0; 4; 0; 0; 0; 0; 0] in
  let headers := [0; 0; 3; 1; 4; 0; 0; 0; 1; 97; 46; 66] in
  http_SniffData demo_http (h2ClientPreface ++ settings ++ headers) = Found "a.b"%string /\
  http_SniffData demo_http (h2ClientPreface ++ settings ++ take 9 headers) = Need 43 /\
  http_SniffData demo_http (h2ClientPreface ++ headers) = Fails ErrNoClue.
Proof. by vm_compute. Qed.

(** The fold of the long s: the whole method is taken for POST, its beginning for nothing, so that the
    verdict depends on how the request is cut. *)
Example http_method_fold :
  let post := ("PO" ++ bytes [197; 191]%nat ++ "T")%string in
  isHTTPMethod post = true /\
  http_SniffData demo_http (data_of ("PO" ++ bytes [197; 191]%nat)) = Fails errNotHTTP /\
  http_SniffData demo_http (data_of (post ++ " / HTTP/1.1" ++ crlf ++ "Host: a.b" ++ crlf)) = Found "a.b"%string.
Proof. by vm_compute. Qed.
(** A target that is not a path is looked at before the Host field. *)
Example http_absolute : http_SniffData demo_http (data_of ("GET http://u@A.b:80/x HTTP/1.1" ++ crlf ++ "Host: c.d" ++ crlf)) = Found "a.b"%string.
Proof. by vm_compute. Qed.
