(* ===== verification/BufConn.v ===== *)
(** * Buffered connections

    Models [common/net/bufconn.go] and [bufconn_unsafe.go] over the parts of [bufio.Reader] they
    use: the array with its read and write positions, [Peek], [Read] and [Discard].  What the
    connection delivers is a list of events: bytes of one read, or an error (a deadline, the
    end).  Reads of no bytes are not modelled. *)

From S2P Require Import Prelude SniffBitmap SniffTls SniffTlsProps.
#[local] Open Scope list_scope.
#[local] Open Scope Z_scope.

(** @go common/net/bufconn_unsafe.go:11-18 bufioReader *)
Record Reader := mkReader { rd_buf : list Z; rd_r : Z; rd_w : Z; rd_err : bool }.
(** A read of the connection: [None] is an error. *)
Abbreviation ReadEvent := (option (list Z)).
(** @go common/net/bufconn.go:12-16 BufferedConn *)
Record BufferedConn := mkConn { c_rd : Reader; c_events : list ReadEvent; c_peeked : bool }.

(** [b.buf[b.r:b.w]] *)
Definition rd_data (b : Reader) : list Z := ztake (rd_w b - rd_r b) (zdrop (rd_r b) (rd_buf b)).
Definition rd_Buffered (b : Reader) : Z := rd_w b - rd_r b.
(** [copy(buf[at:], data)] *)
Definition write_at (buf : list Z) (at_ : Z) (data : list Z) : list Z :=
  ztake at_ buf ++ ztake (zlen buf - at_) data ++ zdrop (at_ + zlen data) buf.
Definition min_copy (buf : list Z) (at_ : Z) (data : list Z) : Z := Z.min (zlen buf - at_) (zlen data).

(** ** Of bufconn_unsafe.go *)

(** The length of the new array.
    @go common/net/bufconn_unsafe.go:20-26 newReadBuffer *)
Definition newReadBuffer (size : Z) : list Z :=
  let newSize := u64 (Z.shiftl 1 (bits_Len (size - 1))) in
  let newSize := if Z.shiftr max64 1 <? newSize then size else newSize in
  repeat 0 (Z.to_nat newSize).

(** @go common/net/bufconn_unsafe.go:30-41 BufferedConn.Grow *)
Definition Grow (size : Z) (b : Reader) : Reader :=
  if size <=? zlen (rd_buf b) then b
  else
    let newBuf := newReadBuffer size in
    mkReader (write_at newBuf 0 (rd_data b)) 0 (min_copy newBuf 0 (rd_data b)) (rd_err b).

(** @go common/net/bufconn_unsafe.go:43-62 BufferedConn.AppendData *)
Definition AppendData (buf : list Z) (b : Reader) : Reader * bool :=
  let needed := rd_w b - rd_r b + zlen buf in
  let b := if zlen (rd_buf b) <? needed then Grow needed b else b in
  let pos := zlen (rd_buf b) - rd_w b - zlen buf in
  if - rd_r b <=? pos then
    let b := if pos <? 0 then mkReader (write_at (rd_buf b) 0 (rd_data b)) 0 (rd_w b - rd_r b) (rd_err b) else b in
    (mkReader (write_at (rd_buf b) (rd_w b) buf) (rd_r b) (rd_w b + min_copy (rd_buf b) (rd_w b) buf) (rd_err b), true)
  else (b, false).

(** @go common/net/bufconn_unsafe.go:65-95 BufferedConn.PrependData *)
Definition PrependData (buf : list Z) (b : Reader) : Reader :=
  if zlen buf =? 0 then b
  else if zlen buf <=? rd_r b then
    let r := rd_r b - zlen buf in mkReader (write_at (rd_buf b) r buf) r (rd_w b) (rd_err b)
  else
    let needed := rd_w b - rd_r b + zlen buf in
    let newBuf :=
      if zlen (rd_buf b) <? needed then
        let newBuf := newReadBuffer needed in
        write_at (write_at newBuf 0 buf) (zlen buf) (rd_data b)
      else write_at (write_at (rd_buf b) (zlen buf) (rd_data b)) 0 buf in
    mkReader newBuf 0 needed (rd_err b).

(** ** Of [bufio.Reader] *)

(** [fill] slides the data to the beginning and reads once; its loop in [Peek] goes on while there are
    fewer than [n] bytes and the array is not full. *)
Definition slide (b : Reader) : Reader :=
  if 0 <? rd_r b then mkReader (write_at (rd_buf b) 0 (rd_data b)) 0 (rd_w b - rd_r b) (rd_err b) else b.
Fixpoint peek_fill (n : Z) (b : Reader) (events : list ReadEvent) : Reader * list ReadEvent :=
  if (rd_Buffered b <? n) && (rd_Buffered b <? zlen (rd_buf b)) && negb (rd_err b) then
    let b := slide b in
    match events with
    | [] => (mkReader (rd_buf b) (rd_r b) (rd_w b) true, [])
    | None :: events => (mkReader (rd_buf b) (rd_r b) (rd_w b) true, events)
    | Some data :: events' =>
        let space := zlen (rd_buf b) - rd_w b in
        let b' := mkReader (write_at (rd_buf b) (rd_w b) (ztake space data)) (rd_r b) (rd_w b + zlen (ztake space data)) false in
        if space <? zlen data then (b', Some (zdrop space data) :: events') else peek_fill n b' events'
    end
  else (b, events).

Inductive PeekErr := ErrBufferFull | ReadErr.
(** The bytes and the error. *)
Definition rd_Peek (n : Z) (b : Reader) (events : list ReadEvent) : Reader * list ReadEvent * list Z * option PeekErr :=
  let '(b, events) := peek_fill n b events in
  if zlen (rd_buf b) <? n then (b, events, rd_data b, Some ErrBufferFull)
  else if rd_Buffered b <? n then
    (mkReader (rd_buf b) (rd_r b) (rd_w b) false, events, rd_data b, Some (if rd_err b then ReadErr else ErrBufferFull))
  else (b, events, ztake n (rd_data b), None).

(** ** Of bufconn.go *)

(** @go common/net/bufconn.go:18-23 NewBufferedConn *)
Definition NewBufferedConn (events : list ReadEvent) : BufferedConn := mkConn (mkReader (repeat 0 4096) 0 0 false) events false.
(** @go common/net/bufconn.go:49-52 BufferedConn.Peek *)
Definition c_Peek (n : Z) (c : BufferedConn) : BufferedConn * list Z * option PeekErr :=
  let '(b, events, data, err) := rd_Peek n (c_rd c) (c_events c) in (mkConn b events true, data, err).
(** @go common/net/bufconn.go:70-72 BufferedConn.Buffered *)
Definition c_Buffered (c : BufferedConn) : Z := rd_Buffered (c_rd c).
Definition c_Grow (size : Z) (c : BufferedConn) : BufferedConn := mkConn (Grow size (c_rd c)) (c_events c) (c_peeked c).
(** What was buffered is handed over, and the connection is read directly from then on.
    @go common/net/bufconn.go:82-91 BufferedConn.ReadCached *)
Definition c_ReadCached (c : BufferedConn) : option (list Z) * BufferedConn :=
  if 0 <? c_Buffered c then
    let data := rd_data (c_rd c) in
    (Some data, mkConn (mkReader (rd_buf (c_rd c)) (rd_w (c_rd c)) (rd_w (c_rd c)) (rd_err (c_rd c))) (c_events c) (c_peeked c))
  else (None, c).

(** ** Invariant *)

Record rd_ok (b : Reader) : Prop := { rd_pos : 0 <= rd_r b <= rd_w b; rd_fits : rd_w b <= zlen (rd_buf b); rd_width : zlen (rd_buf b) < 2 ^ 62 }.

(** All bytes that come, whatever errors come between them. *)
Definition pending (events : list ReadEvent) : list Z := concat (omap id events).
Definition c_bytes (c : BufferedConn) : list Z := rd_data (c_rd c) ++ pending (c_events c).

(** ** Lemmas on copies *)

Lemma zlen_write_at buf at_ data : 0 <= at_ <= zlen buf -> zlen (write_at buf at_ data) = zlen buf.
Proof. intros Ha. unfold write_at, ztake, zdrop, zlen in *. rewrite !length_app, !length_take, !length_drop. lia. Qed.
Lemma write_at_fits buf at_ data : 0 <= at_ -> at_ + zlen data <= zlen buf -> write_at buf at_ data = ztake at_ buf ++ data ++ zdrop (at_ + zlen data) buf.
Proof. intros Ha Hl. unfold write_at. f_equal. f_equal. unfold ztake, zlen in *. apply take_ge. lia. Qed.
Lemma ztake_app_exact {A} n (l l' : list A) : n = zlen l -> ztake n (l ++ l') = l.
Proof. intros ->. unfold ztake, zlen. rewrite Nat2Z.id. apply take_app_length. Qed.
Lemma zdrop_app_exact {A} n (l l' : list A) : n = zlen l -> zdrop n (l ++ l') = l'.
Proof. intros ->. unfold zdrop, zlen. rewrite Nat2Z.id. apply drop_app_length. Qed.
Lemma ztake_zdrop_len {A} i n (l : list A) : 0 <= i -> 0 <= n -> i + n <= zlen l -> zlen (ztake n (zdrop i l)) = n.
Proof. intros Hi Hn Hl. unfold ztake, zdrop, zlen in *. rewrite length_take, length_drop. lia. Qed.
Lemma zlen_rd_data b : rd_ok b -> zlen (rd_data b) = rd_Buffered b.
Proof. intros [H1 H2 H3]. unfold rd_data, rd_Buffered. apply ztake_zdrop_len; lia. Qed.

Lemma newReadBuffer_fits size : 0 < size < 2 ^ 62 -> size <= zlen (newReadBuffer size) < 2 * size.
Proof.
  intros Hs. unfold newReadBuffer, zlen. rewrite repeat_length.
  destruct (bits_Len_spec (size - 1) ltac:(lia)) as [H1 H2]. rewrite Z.shiftl_1_l.
  assert (Hlt : 2 ^ bits_Len (size - 1) < 2 * size).
  { unfold bits_Len in *. destruct (Z.leb_spec (size - 1) 0); [cbn; lia|]. pose proof (Z.log2_spec (size - 1) ltac:(lia)). rewrite Z.pow_add_r by (pose proof (Z.log2_nonneg (size - 1)); lia). lia. }
  unfold u64. rewrite Z.mod_small by lia. destruct (Z.ltb_spec (Z.shiftr max64 1) (2 ^ bits_Len (size - 1))); lia.
Qed.

(** * Buffered connections: theorems *)


(** The data in an array of which they were written at a position. *)
Lemma rd_data_written buf at_ data r w e : 0 <= at_ -> at_ + zlen data <= zlen buf -> r = at_ -> w = at_ + zlen data -> rd_data (mkReader (write_at buf at_ data) r w e) = data.
Proof.
  intros Ha Hl -> ->. pose proof (zlen_nonneg data). unfold rd_data. cbn [rd_r rd_w rd_buf]. rewrite write_at_fits by lia.
  rewrite zdrop_app_exact by (rewrite zlen_ztake_le; lia). apply ztake_app_exact. lia.
Qed.

(** Growing keeps the data and makes room for [size] bytes; the array at most doubles that. *)
Lemma Grow_keeps size b : rd_ok b -> 0 <= size < 2 ^ 60 -> rd_data (Grow size b) = rd_data b /\ rd_ok (Grow size b) /\
  size <= zlen (rd_buf (Grow size b)) /\ zlen (rd_buf (Grow size b)) <= Z.max (zlen (rd_buf b)) (2 * size) /\
  rd_Buffered (Grow size b) = rd_Buffered b /\ rd_err (Grow size b) = rd_err b.
Proof.
  intros Hb Hs. unfold Grow. destruct (Z.leb_spec size (zlen (rd_buf b))) as [Hle|Hgt]; [split_and!; done || lia|].
  pose proof (zlen_nonneg (rd_buf b)). destruct (newReadBuffer_fits size ltac:(lia)) as [H1 H2]. pose proof (zlen_rd_data b Hb) as Hd.
  destruct Hb as [Hp Hf Hw]. unfold rd_Buffered in *. set (nb := newReadBuffer size) in *. cbv zeta.
  assert (Hm : min_copy nb 0 (rd_data b) = zlen (rd_data b)) by (unfold min_copy; lia). rewrite Hm.
  split; [apply rd_data_written; lia|]. split; [split; cbn [rd_r rd_w rd_buf]; rewrite ?zlen_write_at by lia; lia|].
  cbn [rd_r rd_w rd_buf rd_err]. rewrite zlen_write_at by lia. split_and!; done || lia.
Qed.

Lemma AppendData_data b buf : rd_ok b -> rd_Buffered b + zlen buf < 2 ^ 60 ->
  exists b', AppendData buf b = (b', true) /\ rd_data b' = rd_data b ++ buf /\ rd_ok b'.
Proof.
  intros Hb Hl. pose proof (zlen_nonneg buf). pose proof (zlen_rd_data b Hb) as Hd.
  unfold AppendData. set (b1 := if _ <? _ then Grow _ b else b).
  assert (H1 : rd_ok b1 /\ rd_data b1 = rd_data b /\ rd_Buffered b1 = rd_Buffered b /\ rd_Buffered b + zlen buf <= zlen (rd_buf b1)).
  { unfold b1. fold (rd_Buffered b). destruct (Z.ltb_spec (zlen (rd_buf b)) (rd_Buffered b + zlen buf)); [|done].
    destruct Hb as [Hp Hf Hw]. destruct (Grow_keeps (rd_Buffered b + zlen buf) b) as (E1 & E2 & E3 & _ & E4 & _); [done|unfold rd_Buffered in *; lia|done]. }
  clearbody b1. destruct H1 as (Hb1 & E1 & E2 & Hfit). rewrite <- E1. pose proof (zlen_rd_data b1 Hb1) as Hd1. destruct Hb1 as [Hp Hf Hw]. unfold rd_Buffered in *. cbv zeta.
  rewrite (proj2 (Z.leb_le _ _)) by lia. eexists. split; [done|].
  set (b2 := if _ <? 0 then _ else b1).
  assert (H2 : rd_data b2 = rd_data b1 /\ 0 <= rd_r b2 <= rd_w b2 /\ rd_w b2 + zlen buf <= zlen (rd_buf b2) /\ zlen (rd_buf b2) = zlen (rd_buf b1) /\ rd_w b2 - rd_r b2 = rd_w b1 - rd_r b1).
  { unfold b2. destruct (Z.ltb_spec (zlen (rd_buf b1) - rd_w b1 - zlen buf) 0); [|split_and!; done || lia].
    split; [apply rd_data_written; lia|]. cbn [rd_r rd_w rd_buf]. rewrite zlen_write_at by lia. lia. }
  clearbody b2. destruct H2 as (E3 & Hp2 & Hf2 & Hz & Hn). assert (Hm : min_copy (rd_buf b2) (rd_w b2) buf = zlen buf) by (unfold min_copy; lia). rewrite Hm.
  split; [|split; cbn [rd_r rd_w rd_buf]; rewrite ?zlen_write_at by lia; lia].
  rewrite <- E3. unfold rd_data. cbn [rd_r rd_w rd_buf]. rewrite write_at_fits by lia.
  assert (Et : ztake (rd_w b2) (rd_buf b2) = ztake (rd_r b2) (rd_buf b2) ++ ztake (rd_w b2 - rd_r b2) (zdrop (rd_r b2) (rd_buf b2))).
  { unfold ztake, zdrop. replace (Z.to_nat (rd_w b2)) with (Z.to_nat (rd_r b2) + Z.to_nat (rd_w b2 - rd_r b2))%nat by lia. apply take_take_drop_eq || (symmetry; apply take_take_drop). }
  rewrite Et, <- app_assoc, zdrop_app_exact by (rewrite zlen_ztake_le; lia). rewrite app_assoc. apply ztake_app_exact.
  rewrite zlen_app, ztake_zdrop_len by lia. lia.
Qed.
Lemma PrependData_data b buf : rd_ok b -> rd_Buffered b + zlen buf < 2 ^ 60 -> rd_data (PrependData buf b) = buf ++ rd_data b /\ rd_ok (PrependData buf b).
Proof.
  intros Hb Hl. pose proof (zlen_nonneg buf). pose proof (zlen_rd_data b Hb) as Hd.
  unfold PrependData. destruct (Z.eqb_spec (zlen buf) 0) as [E0|Hne]; [destruct buf; [by split|unfold zlen in E0; cbn in E0; lia]|].
  destruct Hb as [Hp Hf Hw]. unfold rd_Buffered in *. destruct (Z.leb_spec (zlen buf) (rd_r b)) as [Hle|Hgt].
  + cbv zeta. split; [|split; cbn [rd_r rd_w rd_buf]; rewrite ?zlen_write_at by lia; lia]. unfold rd_data. cbn [rd_r rd_w rd_buf]. rewrite write_at_fits by lia.
    rewrite zdrop_app_exact by (rewrite zlen_ztake_le; lia). replace (rd_r b - zlen buf + zlen buf) with (rd_r b) by lia.
    replace (rd_w b - (rd_r b - zlen buf)) with (zlen buf + (rd_w b - rd_r b)) by lia. rewrite ztake_app_lt by lia. f_equal. f_equal. lia.
  + set (nb := if _ <? _ then _ else _). assert (Hnb : rd_w b - rd_r b + zlen buf <= zlen nb < 2 ^ 62 /\ exists rest, nb = buf ++ rd_data b ++ rest).
    { unfold nb. destruct (Z.ltb_spec (zlen (rd_buf b)) (rd_w b - rd_r b + zlen buf)).
      - destruct (newReadBuffer_fits (rd_w b - rd_r b + zlen buf)) as [H1 H2]; [pose proof (zlen_nonneg (rd_buf b)); lia|]. set (f := newReadBuffer _) in *.
        rewrite !zlen_write_at by (rewrite ?zlen_write_at; lia). split; [lia|]. rewrite write_at_fits by (rewrite ?zlen_write_at; lia).
        rewrite (write_at_fits f) by lia. change (ztake 0 f) with (@nil Z). cbn [app]. rewrite ztake_app_exact by done. eexists. done.
      - rewrite !zlen_write_at by (rewrite ?zlen_write_at; lia). split; [lia|]. rewrite write_at_fits by (rewrite ?zlen_write_at; lia). change (ztake 0 (write_at (rd_buf b) (zlen buf) (rd_data b))) with (@nil Z).
        cbn [app]. eexists. f_equal. rewrite write_at_fits by lia. apply zdrop_app_exact. rewrite zlen_ztake_le; lia. }
    destruct Hnb as (Hnl & rest & En). split; [|split; cbn [rd_r rd_w rd_buf]; lia]. unfold rd_data at 1. cbn [rd_r rd_w rd_buf]. rewrite En.
    change (zdrop 0 (buf ++ rd_data b ++ rest)) with (buf ++ rd_data b ++ rest). rewrite app_assoc. apply ztake_app_exact. rewrite zlen_app. lia.
Qed.

(** bytes appended to a buffered connection come after those that are buffered, bytes prepended come before
    them, wherever the data lie in the array and however large it is; appending always succeeds. *)
Lemma buffered_data_added b buf : rd_ok b -> rd_Buffered b + zlen buf < 2 ^ 60 ->
  (exists b', AppendData buf b = (b', true) /\ rd_data b' = rd_data b ++ buf /\ rd_ok b') /\
  rd_data (PrependData buf b) = buf ++ rd_data b /\ rd_ok (PrependData buf b).
Proof. intros Hb Hl. split; [by apply AppendData_data|by apply PrependData_data]. Qed.

(** ** Peeking *)

Lemma slide_keeps b : rd_ok b -> rd_data (slide b) = rd_data b /\ rd_ok (slide b) /\ zlen (rd_buf (slide b)) = zlen (rd_buf b) /\
  rd_Buffered (slide b) = rd_Buffered b /\ rd_err (slide b) = rd_err b /\ rd_r (slide b) = 0.
Proof.
  intros Hb. pose proof (zlen_rd_data b Hb) as Hd. destruct Hb as [Hp Hf Hw]. unfold rd_Buffered in *. unfold slide. destruct (Z.ltb_spec 0 (rd_r b)); [|split_and!; done || lia].
  split; [apply rd_data_written; lia|]. cbn [rd_r rd_w rd_buf rd_err]. split; [split; cbn [rd_r rd_w rd_buf]; rewrite ?zlen_write_at by lia; lia|]. rewrite zlen_write_at by lia. split_and!; done || lia.
Qed.

(** What a peek leaves: the bytes there were, at the front, and all bytes that come. *)
Record peeked_from (b b' : Reader) (ev ev' : list ReadEvent) : Prop := {
  pf_ok : rd_ok b';
  pf_cap : zlen (rd_buf b') = zlen (rd_buf b);
  pf_data : exists new, rd_data b' = rd_data b ++ new;
  pf_bytes : rd_data b' ++ pending ev' = rd_data b ++ pending ev
}.

Lemma pending_cons x ev : pending (x :: ev) = (match x with Some d => d | None => [] end) ++ pending ev.
Proof. by destruct x. Qed.

(** A read appends to the data. *)
Lemma read_appends b data : rd_ok b -> rd_w b + zlen data <= zlen (rd_buf b) ->
  rd_data (mkReader (write_at (rd_buf b) (rd_w b) data) (rd_r b) (rd_w b + zlen data) false) = rd_data b ++ data /\
  rd_ok (mkReader (write_at (rd_buf b) (rd_w b) data) (rd_r b) (rd_w b + zlen data) false).
Proof.
  intros [Hp Hf Hw] Hl. pose proof (zlen_nonneg data). split; [|split; cbn [rd_r rd_w rd_buf]; rewrite ?zlen_write_at by lia; lia].
  unfold rd_data. cbn [rd_r rd_w rd_buf]. rewrite write_at_fits by lia.
  assert (Et : ztake (rd_w b) (rd_buf b) = ztake (rd_r b) (rd_buf b) ++ ztake (rd_w b - rd_r b) (zdrop (rd_r b) (rd_buf b))).
  { unfold ztake, zdrop. replace (Z.to_nat (rd_w b)) with (Z.to_nat (rd_r b) + Z.to_nat (rd_w b - rd_r b))%nat by lia. symmetry. apply take_take_drop. }
  rewrite Et, <- app_assoc, zdrop_app_exact by (rewrite zlen_ztake_le; lia). rewrite app_assoc. apply ztake_app_exact.
  rewrite zlen_app, ztake_zdrop_len by lia. lia.
Qed.

Lemma peek_fill_keeps n ev : forall b, rd_ok b -> let '(b', ev') := peek_fill n b ev in peeked_from b b' ev ev'.
Proof.
  induction ev as [|x ev IH]; intros b Hb; cbn [peek_fill]; destruct (_ && negb (rd_err b)) eqn:E.
  2,4: split; [done|done|exists []; by rewrite app_nil_r|done].
  - destruct (slide_keeps b Hb) as (E1 & [H1 H2 H3] & E3 & _). split; cbn [rd_r rd_w rd_buf]; [by split|done|exists []; by rewrite app_nil_r|].
    change (rd_data (mkReader _ _ _ _)) with (rd_data (slide b)). by rewrite E1.
  - apply andb_true_iff in E as [E Ee]. apply andb_true_iff in E as [En Ec]. apply Z.ltb_lt in En, Ec.
    destruct (slide_keeps b Hb) as (E1 & Hok & E3 & E4 & _ & E6). destruct x as [data|].
    2:{ destruct Hok as [H1 H2 H3]. split; cbn [rd_r rd_w rd_buf]; [by split|done|exists []; by rewrite app_nil_r|].
        change (rd_data (mkReader _ _ _ _)) with (rd_data (slide b)). by rewrite E1. }
    cbv zeta. set (sp := zlen (rd_buf (slide b)) - rd_w (slide b)). assert (Hsp : 0 <= sp) by (destruct Hok; unfold sp; lia).
    assert (Hz : zlen (ztake sp data) <= sp /\ (zlen data <= sp -> ztake sp data = data)) by (unfold ztake, zlen; rewrite length_take; split; [lia|intros; apply take_ge; lia]).
    destruct (read_appends (slide b) (ztake sp data) Hok) as [Ea Hok']; [unfold sp in *; lia|]. set (b' := mkReader _ _ _ _) in *.
    assert (Hcap : zlen (rd_buf b') = zlen (rd_buf b)) by (unfold b'; cbn [rd_buf]; rewrite zlen_write_at; [done|destruct Hok; lia]).
    destruct (Z.ltb_spec sp (zlen data)) as [Hlt|Hge].
    + split; [done|done|rewrite Ea, E1; by eexists|]. rewrite Ea, E1, !pending_cons, <- app_assoc. f_equal. rewrite app_assoc. f_equal. unfold ztake, zdrop. apply take_drop.
    + destruct Hz as [_ Hz]. rewrite Hz in Ea by done. specialize (IH b' Hok'). destruct (peek_fill n b' ev) as [b'' ev']. destruct IH as [K1 K2 [new K3] K4].
      split; [done|by rewrite K2|exists (data ++ new); by rewrite K3, Ea, E1, app_assoc|]. by rewrite K4, Ea, E1, pending_cons, <- app_assoc.
Qed.

Lemma rd_Peek_keeps n b ev : rd_ok b -> let '(b', ev', data, err) := rd_Peek n b ev in
  peeked_from b b' ev ev' /\ (err = None -> data = ztake n (rd_data b') /\ n <= rd_Buffered b') /\
  (n <= rd_Buffered b -> b' = b /\ ev' = ev /\ err = None).
Proof.
  intros Hb. unfold rd_Peek. pose proof (peek_fill_keeps n ev b Hb) as Hk. destruct (peek_fill n b ev) as [b1 ev1] eqn:Ep.
  assert (Hsame : n <= rd_Buffered b -> b1 = b /\ ev1 = ev).
  { intros Hn. destruct ev; cbn [peek_fill] in Ep; rewrite (proj2 (Z.ltb_ge _ _)) in Ep by done; by injection Ep as <- <-. }
  assert (Hcap : rd_Buffered b <= zlen (rd_buf b)) by (destruct Hb; unfold rd_Buffered; lia).
  destruct (Z.ltb_spec (zlen (rd_buf b1)) n) as [Hlt|Hge].
  - split; [done|]. split; [done|]. intros Hn. destruct (Hsame Hn) as [-> _]. lia.
  - destruct (Z.ltb_spec (rd_Buffered b1) n) as [Hlt|Hge'].
    + split; [|split; [done|]; intros Hn; destruct (Hsame Hn) as [-> _]; lia]. destruct Hk as [K1 K2 K3 K4]. destruct K1 as [? ? ?]. by split.
    + split; [done|]. split; [done|]. intros Hn. by destruct (Hsame Hn) as [-> ->].
Qed.

(** ** Witness *)

Definition demo_reader : Reader := mkReader [1; 2; 3; 4] 1 3 false.
Example buffered_data_added_witness : (exists b', AppendData [9; 8; 7] demo_reader = (b', true) /\ rd_data b' = [2; 3; 9; 8; 7] /\ rd_ok b') /\
  rd_data (PrependData [9; 8; 7] demo_reader) = [9; 8; 7; 2; 3] /\ rd_ok (PrependData [9; 8; 7] demo_reader).
Proof. apply (buffered_data_added demo_reader [9; 8; 7]); [split; vm_compute; repeat split; discriminate || reflexivity|reflexivity]. Defined.
