(* ===== verification/SniffDispatch.v ===== *)
(** * The sniffing dispatcher

    Models [component/sniffer/dispatcher.go] and [base_sniffer.go]: which connections are sniffed, the rounds in
    which the sniffers of a connection look at what is buffered, the list of destinations that
    are given up, and what a result does to the metadata.  Matchers are functions; the cache
    is the one of [Lru.v]; [IsDomainName] is of another module and a parameter. *)

From Stdlib Require Import String.
From S2P Require Import Prelude Names Netip Ranges Metadata Lru SniffTls SniffHttp SniffQuic BufConn LruProps SniffBitmap SniffTlsProps.
#[local] Open Scope string_scope.
#[local] Open Scope list_scope.
#[local] Open Scope Z_scope.

Definition maxSniffBufferSize : Z := 64 * 1024.

(** ** Sniffers *)

(** @go component/sniffer/base_sniffer.go:11-14 SnifferConfig *)
Record SnifferConfig := mkSnifferConfig { OverrideDest : bool; Ports : IntRanges }.
(** A sniffer with its configuration; the QUIC sniffer collects several packets.
    @go component/sniffer/dispatcher.go:43-46 configuredSniffer *)
Record configuredSniffer := mkSniffer {
  sn_network : NetWork; sn_ports : IntRanges;
  sn_SniffData : list Z -> Verdict string;
  sn_multiPacket : bool;
  sn_config : SnifferConfig
}.
(** @go component/sniffer/base_sniffer.go:37-39 BaseSniffer.SupportPort *)
Definition SupportPort (s : configuredSniffer) (port : Z) : bool := ranges_Check (sn_ports s) port.
(** @go component/sniffer/dispatcher.go:48-51 configuredSniffer.supportsNetwork *)
Definition supportsNetwork (s : configuredSniffer) (network : NetWork) : bool :=
  bool_decide (sn_network s = network) || bool_decide (sn_network s = ALLNet).

(** [TLS], [HTTP] and [QUIC], and their order. *)
Definition sniffer_TLS : Z := 0.
Definition sniffer_HTTP : Z := 1.
Definition sniffer_QUIC : Z := 2.
Definition sniffer_List : list Z := [sniffer_TLS; sniffer_HTTP; sniffer_QUIC].

Definition default_ports (ports : IntRanges) (port : Z) : IntRanges := match ports with [] => [NewRange port port] | _ => ports end.

Section Sniffers.
Context (H : HttpLib).
(** @go component/sniffer/tls_sniffer.go:46-54 NewTLSSniffer *)
Definition NewTLSSniffer (c : SnifferConfig) : configuredSniffer :=
  mkSniffer TCP (default_ports (Ports c) 443) tls_SniffData false c.
(** @go component/sniffer/http_sniffer.go:61-69 NewHTTPSniffer *)
Definition NewHTTPSniffer (c : SnifferConfig) : configuredSniffer :=
  mkSniffer TCP (default_ports (Ports c) 80) (http_SniffData H) false c.
(** @go component/sniffer/quic_sniffer.go:114-122 NewQUICSniffer *)
Definition NewQUICSniffer (c : SnifferConfig) : configuredSniffer :=
  mkSniffer UDP (default_ports (Ports c) 443) quic_SniffData true c.
(** @go component/sniffer/dispatcher.go:370-381 NewSniffer *)
Definition NewSniffer (name : Z) (c : SnifferConfig) : SniffErr + configuredSniffer :=
  if name =? sniffer_TLS then inr (NewTLSSniffer c)
  else if name =? sniffer_HTTP then inr (NewHTTPSniffer c)
  else if name =? sniffer_QUIC then inr (NewQUICSniffer c)
  else inl ErrorUnsupportedSniffer.
End Sniffers.

(** ** The dispatcher *)

(** What does not change of a [Dispatcher].
    @go component/sniffer/dispatcher.go:29-39 Dispatcher *)
Record Dispatcher := mkDispatcher {
  enable : bool;
  sniffers : list configuredSniffer;
  forceDomain : list (string -> bool);
  skipSrcAddress : list (Addr -> bool);
  skipDstAddress : list (Addr -> bool);
  skipDomain : list (string -> bool);
  forceDnsMapping : bool;
  parsePureIp : bool
}.
(** The field [skipList]: how often sniffing failed, by destination. *)
Definition SkipList : Type := LruCache (Addr * Z) Z * heap (Addr * Z) Z.

(** @go component/sniffer/dispatcher.go:311-320 Config *)
Record SniffConfig := mkSniffConfig {
  cf_Enable : bool; cf_Sniffers : gmap Z SnifferConfig;
  cf_ForceDomain : list (string -> bool); cf_SkipSrcAddress : list (Addr -> bool); cf_SkipDstAddress : list (Addr -> bool);
  cf_SkipDomain : list (string -> bool); cf_ForceDnsMapping : bool; cf_ParsePureIp : bool
}.
Definition disabled_dispatcher : Dispatcher := mkDispatcher false [] [] [] [] [] false false.

(** The sniffers in the order of [sniffer.List].
    @go component/sniffer/dispatcher.go:337-348 NewDispatcher *)
Fixpoint new_sniffers (H : HttpLib) (names : list Z) (cfg : gmap Z SnifferConfig) : SniffErr + list configuredSniffer :=
  match names with
  | [] => inr []
  | name :: names =>
      match cfg !! name with
      | None => new_sniffers H names cfg
      | Some c =>
          match NewSniffer H name c with
          | inl e => inl e
          | inr s => match new_sniffers H names cfg with inl e => inl e | inr l => inr (s :: l) end
          end
      end
  end.
(** The dispatcher and the error.
    @go component/sniffer/dispatcher.go:322-368 NewDispatcher *)
Definition NewDispatcher (H : HttpLib) (c : SniffConfig) : Dispatcher * option SniffErr :=
  match new_sniffers H sniffer_List (cf_Sniffers c) with
  | inl e => (disabled_dispatcher, Some e)
  | inr l =>
      if negb (length l =? size (cf_Sniffers c))%nat &&
         existsb (fun kv => negb (existsb (Z.eqb kv.1) sniffer_List)) (map_to_list (cf_Sniffers c))
      then (disabled_dispatcher, Some ErrorUnsupportedSniffer)
      else (mkDispatcher (cf_Enable c) l (cf_ForceDomain c) (cf_SkipSrcAddress c) (cf_SkipDstAddress c) (cf_SkipDomain c) (cf_ForceDnsMapping c) (cf_ParsePureIp c), None)
  end.
Definition new_skipList : LruCache (Addr * Z) Z := New 600 128 false false false.

(** @go component/sniffer/dispatcher.go:199-201 Dispatcher.Enable *)
Definition dispatcher_Enable (sd : option Dispatcher) : bool := match sd with Some sd => enable sd | None => false end.

(** @go component/sniffer/dispatcher.go:73-80 Dispatcher.forceSniff *)
Definition forceSniff (sd : Dispatcher) (m : Metadata) : bool := existsb (fun matcher => matcher (md_Host m)) (forceDomain sd).
(** @go component/sniffer/dispatcher.go:53-71 Dispatcher.shouldOverride *)
Definition shouldOverride (sd : Dispatcher) (m : Metadata) : bool :=
  if existsb (fun matcher => matcher (md_DstIP m)) (skipDstAddress sd) then false
  else if existsb (fun matcher => matcher (md_SrcIP m)) (skipSrcAddress sd) then false
  else if String.eqb (md_Host m) "" && parsePureIp sd then true
  else if bool_decide (md_DNSMode m = DNSMapping) && forceDnsMapping sd then true
  else forceSniff sd m.

Definition set_SniffHost (host : string) (m : Metadata) : Metadata :=
  let '(mkMetadata a b c d e f g h i j k l n o p q r s t u v w x y _) := m in mkMetadata a b c d e f g h i j k l n o p q r s t u v w x y host.
(** @go component/sniffer/dispatcher.go:169-181 replaceDomain *)
Definition replaceDomain (host : string) (overrideDest : bool) (m : Metadata) : Metadata :=
  let m := set_SniffHost host m in
  let m := if overrideDest then set_DstIP zeroAddr (set_Host host m) else m in
  set_DNSMode DNSNormal m.

Section Dispatch.
Context (IsDomainName : string -> bool).

(** @go component/sniffer/dispatcher.go:195-197 isValidSniffHost *)
Definition isValidSniffHost (host : string) : bool := negb (String.eqb host ".") && IsDomainName host.
(** @go component/sniffer/dispatcher.go:183-193 Dispatcher.domainCanReplace *)
Definition domainCanReplace (sd : Dispatcher) (host : string) : bool :=
  isValidSniffHost host && negb (existsb (fun matcher => matcher host) (skipDomain sd)).

(** ** Rounds *)

(** @go component/sniffer/dispatcher.go:208-211 Dispatcher.sniffDomain *)
Record candidate := mkCandidate { cd_sniffer : configuredSniffer; cd_want : Z }.
Inductive SniffResult := Sniffed (host : string) (config : SnifferConfig) | SniffFailed | SniffReadErr (e : PeekErr) | SniffPanic | SniffNoFuel.

(** One round over the candidates: a valid host, or those that remain and the next length, 0 at first.
    @go component/sniffer/dispatcher.go:265-295 Dispatcher.sniffDomain *)
Fixpoint sniff_round (data : list Z) (cs : list candidate) (nextWant : Z) : option (string * SnifferConfig + list candidate * Z) :=
  match cs with
  | [] => Some (inr ([], nextWant))
  | c :: cs =>
      let keep (c : candidate) :=
        let nextWant := if (nextWant =? 0) || (cd_want c <? nextWant) then cd_want c else nextWant in
        match sniff_round data cs nextWant with
        | Some (inr (remaining, next)) => Some (inr (c :: remaining, next))
        | r => r
        end in
      if cd_want c <=? zlen data then
        match sn_SniffData (cd_sniffer c) data with
        | Panic => None
        | Found host => if isValidSniffHost host then Some (inl (host, sn_config (cd_sniffer c))) else sniff_round data cs nextWant
        | Need n => if n <=? zlen data then sniff_round data cs nextWant else keep (mkCandidate (cd_sniffer c) n)
        | Fails _ => sniff_round data cs nextWant
        end
      else keep c
  end.

(** @go component/sniffer/dispatcher.go:240-298 Dispatcher.sniffDomain *)
Fixpoint sniff_loop (fuel : nat) (conn : BufferedConn) (cs : list candidate) (want : Z) : BufferedConn * SniffResult :=
  match fuel with
  | O => (conn, SniffNoFuel)
  | S fuel =>
      match cs with
      | [] => (conn, SniffFailed)
      | _ =>
          if (maxSniffBufferSize <? want) && (c_Buffered conn <? want) then (conn, SniffReadErr ErrBufferFull)
          else
            let conn := c_Grow want conn in
            let '(conn, _, err) := c_Peek want conn in
            match err with
            | Some e => (conn, SniffReadErr e)
            | None =>
                let '(conn, data, _) := c_Peek (c_Buffered conn) conn in
                match sniff_round data cs 0 with
                | None => (conn, SniffPanic)
                | Some (inl (host, config)) => (conn, Sniffed host config)
                | Some (inr (cs, want)) => sniff_loop fuel conn cs want
                end
            end
      end
  end.

(** Every round of the loop is over more bytes than the one before, and at most [maxSniffBufferSize] are asked for.
    @go component/sniffer/dispatcher.go:203-299 Dispatcher.sniffDomain *)
Definition sniffDomain (sd : Dispatcher) (conn : BufferedConn) (m : Metadata) : BufferedConn * SniffResult :=
  let cs := map (fun s => mkCandidate s 1) (List.filter (fun s => supportsNetwork s TCP && SupportPort s (md_DstPort m)) (sniffers sd)) in
  match cs with
  | [] => (conn, SniffFailed)
  | _ =>
      let '(conn, _, err) := c_Peek 1 conn in
      match err with
      | Some e => (conn, SniffReadErr e)
      | None => sniff_loop (Z.to_nat (maxSniffBufferSize + 2)) conn cs (c_Buffered conn)
      end
  end.

(** ** Connections *)

Definition md_AddrPort (m : Metadata) : Addr * Z := (addr_Unmap (md_DstIP m), md_DstPort m).
(** @go component/sniffer/dispatcher.go:301-309 Dispatcher.cacheSniffFailed *)
Definition cacheSniffFailed (t : nat -> Z) (m : Metadata) (sl : SkipList) : SkipList :=
  let '(_, c, h) := Compute t (md_AddrPort m) (fun old => (let v := default 0 old in if v <=? 5 then u8 (v + 1) else v, false)) sl.1 sl.2 in (c, h).

(** The result, the metadata, the skip list and the connection.  [t] is the clock.
    @go component/sniffer/dispatcher.go:122-167 Dispatcher.TCPSniff *)
Definition TCPSniff (t : nat -> Z) (sd : Dispatcher) (conn : BufferedConn) (m : Metadata) (sl : SkipList) : option (bool * Metadata * SkipList * BufferedConn) :=
  if shouldOverride sd m then
    if negb (existsb (fun s => supportsNetwork s TCP && SupportPort s (md_DstPort m)) (sniffers sd)) then Some (false, m, sl, conn)
    else
      let forceSniffer := forceSniff sd m in
      let dst := md_AddrPort m in
      let '(count, sl) := if forceSniffer then (None, sl) else let '(r, c, h) := Get t dst sl.1 sl.2 in (r, (c, h)) in
      if negb forceSniffer && match count with Some n => 5 <? n | None => false end then Some (false, m, sl, conn)
      else
        let failed conn := Some (false, m, if forceSniffer then sl else cacheSniffFailed (fun k => t (2 + k)%nat) m sl, conn) in
        match sniffDomain sd conn m with
        | (conn, Sniffed host config) =>
            if negb (domainCanReplace sd host) then Some (false, m, sl, conn)
            else Some (true, replaceDomain host (OverrideDest config) m, (delete_key dst sl.1 sl.2, sl.2), conn)
        | (conn, SniffFailed) => failed conn
        | (conn, SniffReadErr _) => failed conn
        | (conn, SniffPanic) => None
        | (conn, SniffNoFuel) => None
        end
  else Some (false, m, sl, conn).

(** What becomes of the sender of a UDP flow: it stays, or it is wrapped by a sniffer of several packets, with the
    function that the sniffed host is given to. *)
Inductive UDPSender := PlainSender | WrappedSender (replace : string -> Metadata -> Metadata).
(** @go component/sniffer/dispatcher.go:94-100 Dispatcher.UDPSniff *)
Definition udp_replaceDomain (sd : Dispatcher) (overrideDest : bool) (host : string) (m : Metadata) : Metadata :=
  if domainCanReplace sd host then replaceDomain host overrideDest m else m.
(** @go component/sniffer/dispatcher.go:88-115 Dispatcher.UDPSniff *)
Fixpoint udp_sniffers (sd : Dispatcher) (data : list Z) (m : Metadata) (l : list configuredSniffer) : option (UDPSender * Metadata) :=
  match l with
  | [] => Some (PlainSender, m)
  | current :: l =>
      if supportsNetwork current UDP && SupportPort current (md_DstPort m) then
        let replace := udp_replaceDomain sd (OverrideDest (sn_config current)) in
        if sn_multiPacket current then Some (WrappedSender replace, m)
        else
          match sn_SniffData current data with
          | Found host => Some (PlainSender, replace host m)
          | Panic => None
          | _ => udp_sniffers sd data m l
          end
      else udp_sniffers sd data m l
  end.
(** @go component/sniffer/dispatcher.go:85-119 Dispatcher.UDPSniff *)
Definition UDPSniff (sd : Dispatcher) (data : list Z) (m : Metadata) : option (UDPSender * Metadata) :=
  if shouldOverride sd m then udp_sniffers sd data m (sniffers sd) else Some (PlainSender, m).
End Dispatch.

(** * The sniffing dispatcher: theorems *)

#[local] Open Scope list_scope.
#[local] Open Scope Z_scope.

(** ** Rounds *)

(** A sniffer does not panic on bytes. *)
Definition sniffer_safe (s : configuredSniffer) : Prop := forall data, bytes_ok data -> sn_SniffData s data <> Panic.

Section Rounds.
Context (IsDomainName : string -> bool).

(** What a round leaves asks for more than the round saw. *)
Lemma sniff_round_spec data : bytes_ok data -> forall cs w, Forall (fun c => sniffer_safe (cd_sniffer c)) cs ->
  match sniff_round IsDomainName data cs w with
  | None => False
  | Some (inl (host, config)) => isValidSniffHost IsDomainName host = true /\
      exists c, In c cs /\ sn_SniffData (cd_sniffer c) data = Found host /\ config = sn_config (cd_sniffer c)
  | Some (inr (cs', w')) => Forall (fun c => zlen data < cd_want c) cs' /\ (forall c, In c cs' -> exists c0, In c0 cs /\ cd_sniffer c = cd_sniffer c0) /\
      (w = 0 \/ zlen data < w -> (w' = w /\ cs' = []) \/ zlen data < w')
  end.
Proof.
  intros Hd. pose proof (zlen_nonneg data). induction cs as [|c cs IH]; intros w Hcs; cbn [sniff_round].
  { split; [constructor|]. split; [done|]. auto. }
  apply Forall_cons in Hcs as [Hc Hcs].
  assert (Hskip : match sniff_round IsDomainName data cs w with
    | None => False
    | Some (inl (host, config)) => isValidSniffHost IsDomainName host = true /\ exists c0, In c0 (c :: cs) /\ sn_SniffData (cd_sniffer c0) data = Found host /\ config = sn_config (cd_sniffer c0)
    | Some (inr (cs', w')) => Forall (fun c => zlen data < cd_want c) cs' /\ (forall c1, In c1 cs' -> exists c0, In c0 (c :: cs) /\ cd_sniffer c1 = cd_sniffer c0) /\
        (w = 0 \/ zlen data < w -> (w' = w /\ cs' = []) \/ zlen data < w') end).
  { specialize (IH w Hcs). destruct (sniff_round IsDomainName data cs w) as [[[host config]|[cs' w']]|]; [| |done].
    - destruct IH as (Hv & c0 & Hin & E). split; [done|]. exists c0. split; [by right|done].
    - destruct IH as (H1 & H2 & H3). split; [done|]. split; [|done]. intros c1 Hc1. destruct (H2 c1 Hc1) as (c0 & ? & ?). exists c0. split; [by right|done]. }
  assert (Hkeep : forall c', cd_sniffer c' = cd_sniffer c -> zlen data < cd_want c' ->
    match match sniff_round IsDomainName data cs (if (w =? 0) || (cd_want c' <? w) then cd_want c' else w) with
          | Some (inr (remaining, next)) => Some (inr (c' :: remaining, next)) | r => r end with
    | None => False
    | Some (inl (host, config)) => isValidSniffHost IsDomainName host = true /\ exists c0, In c0 (c :: cs) /\ sn_SniffData (cd_sniffer c0) data = Found host /\ config = sn_config (cd_sniffer c0)
    | Some (inr (cs', w')) => Forall (fun c => zlen data < cd_want c) cs' /\ (forall c1, In c1 cs' -> exists c0, In c0 (c :: cs) /\ cd_sniffer c1 = cd_sniffer c0) /\
        (w = 0 \/ zlen data < w -> (w' = w /\ cs' = []) \/ zlen data < w') end).
  { intros c' Ec Hw. set (w1 := if _ || _ then _ else w). assert (Hw1 : w = 0 \/ zlen data < w -> zlen data < w1).
    { intros Hor. unfold w1. destruct (Z.eqb_spec w 0), (Z.ltb_spec (cd_want c') w); cbn [orb]; lia. }
    specialize (IH w1 Hcs). destruct (sniff_round IsDomainName data cs w1) as [[[host config]|[cs' w']]|]; [| |done].
    - destruct IH as (Hv & c0 & Hin & E). split; [done|]. exists c0. split; [by right|done].
    - destruct IH as (H1 & H2 & H3). split; [by constructor|]. split.
      + intros c1 [<-|Hc1]; [exists c; split; [by left|done]|]. destruct (H2 c1 Hc1) as (c0 & ? & ?). exists c0. split; [by right|done].
      + intros Hor. right. specialize (Hw1 Hor). destruct H3 as [[-> _]|?]; auto. }
  destruct (Z.leb_spec (cd_want c) (zlen data)); [|by apply Hkeep]. pose proof (Hc data Hd) as Hp.
  destruct (sn_SniffData (cd_sniffer c) data) as [host|n|e|] eqn:Es; [|destruct (Z.leb_spec n (zlen data)); [done|by apply Hkeep]|done|done].
  destruct (isValidSniffHost IsDomainName host) eqn:Ev; [|done]. split; [done|]. exists c. split; [by left|done].
Qed.

(** A connection in order: the reader is, nothing but bytes comes, and no error is kept. *)
Record conn_ok (c : BufferedConn) : Prop := { co_rd : rd_ok (c_rd c); co_bytes : bytes_ok (c_bytes c) }.

(** What sniffing leaves of a connection: every byte, in order; and its array grows to 64 KiB at most. *)
Definition untouched (c c' : BufferedConn) : Prop :=
  conn_ok c' /\ c_bytes c' = c_bytes c /\ zlen (rd_buf (c_rd c')) <= Z.max (zlen (rd_buf (c_rd c))) maxSniffBufferSize.
Lemma untouched_refl c : conn_ok c -> untouched c c.
Proof. intros Hc. split; [done|]. split; [done|lia]. Qed.
Lemma untouched_trans c c' c'' : untouched c c' -> untouched c' c'' -> untouched c c''.
Proof. intros (_ & E & L) (H & E' & L'). split; [done|]. split; [by rewrite E'|lia]. Qed.

Lemma newReadBuffer_64K size : 0 < size <= maxSniffBufferSize -> zlen (newReadBuffer size) <= maxSniffBufferSize.
Proof.
  unfold maxSniffBufferSize. intros Hs. unfold newReadBuffer, zlen. rewrite repeat_length. rewrite Z.shiftl_1_l.
  assert (Hl : 0 <= bits_Len (size - 1) <= 16).
  { unfold bits_Len. destruct (Z.leb_spec (size - 1) 0); [lia|]. assert (Z.log2 (size - 1) < 16) by (apply Z.log2_lt_pow2; lia). pose proof (Z.log2_nonneg (size - 1)). lia. }
  assert (2 ^ bits_Len (size - 1) <= 2 ^ 16) by (apply Z.pow_le_mono_r; lia). pose proof (Z.pow_pos_nonneg 2 (bits_Len (size - 1)) ltac:(lia) ltac:(lia)).
  unfold u64. rewrite Z.mod_small by lia. destruct (Z.ltb_spec (Z.shiftr max64 1) (2 ^ bits_Len (size - 1))); lia.
Qed.
Lemma c_Grow_ok want c : conn_ok c -> 0 < want -> want <= maxSniffBufferSize \/ want <= c_Buffered c -> untouched c (c_Grow want c) /\ c_Buffered (c_Grow want c) = c_Buffered c.
Proof.
  intros [Hr Hb] H0 Hw. destruct (Z_le_gt_dec want (zlen (rd_buf (c_rd c)))) as [Hle|Hgt].
  { unfold c_Grow, Grow. rewrite (proj2 (Z.leb_le _ _) Hle). destruct c. split; [|done]. by apply untouched_refl. }
  assert (Hsz : want <= maxSniffBufferSize) by (destruct Hw; [done|]; destruct Hr; unfold c_Buffered, rd_Buffered in *; lia).
  destruct (Grow_keeps want (c_rd c) Hr) as (E1 & E2 & E3 & _ & E5 & _); [unfold maxSniffBufferSize in Hsz; lia|]. split; [|done]. split; [split; [done|]|].
  - unfold c_bytes in *. cbn [c_Grow c_rd c_events]. by rewrite E1.
  - split; [unfold c_bytes; cbn [c_Grow c_rd c_events]; by rewrite E1|]. cbn [c_Grow c_rd]. unfold Grow. rewrite (proj2 (Z.leb_gt _ _)) by lia. cbn [rd_buf].
    rewrite zlen_write_at by (pose proof (zlen_nonneg (newReadBuffer want)); lia). pose proof (newReadBuffer_64K want ltac:(lia)). lia.
Qed.

Lemma c_Peek_ok n c : conn_ok c -> let '(c', data, err) := c_Peek n c in
  untouched c c' /\ c_Buffered c <= c_Buffered c' /\ (err = None -> data = ztake n (rd_data (c_rd c')) /\ n <= c_Buffered c') /\ (n <= c_Buffered c -> c_rd c' = c_rd c).
Proof.
  intros [Hr Hb]. unfold c_Peek. pose proof (rd_Peek_keeps n (c_rd c) (c_events c) Hr) as Hk. destruct (rd_Peek n (c_rd c) (c_events c)) as [[[b ev] data] err].
  destruct Hk as ([K1 K2 [new K3] K4] & H2 & H3). unfold c_Buffered. cbn [c_rd]. split; [|split; [|split; [done|intros Hn; by destruct (H3 Hn)]]].
  - split; [split; [done|]; unfold c_bytes in *; cbn [c_rd c_events]; by rewrite K4|]. split; [unfold c_bytes; cbn [c_rd c_events]; by rewrite K4|]. cbn [c_rd]. rewrite K2. lia.
  - rewrite <- (zlen_rd_data b), <- (zlen_rd_data (c_rd c)), K3, zlen_app by done. pose proof (zlen_nonneg new). lia.
Qed.

Definition result_of (cs : list candidate) (conn : BufferedConn) (r : SniffResult) : Prop :=
  match r with
  | SniffPanic | SniffNoFuel => False
  | Sniffed host config => isValidSniffHost IsDomainName host = true /\
      exists c, In c cs /\ sn_SniffData (cd_sniffer c) (rd_data (c_rd conn)) = Found host /\ config = sn_config (cd_sniffer c)
  | _ => True
  end.

(** The first peek of a round gets [want] bytes, the second what is buffered. *)
Lemma peek_want want c : conn_ok c -> 0 < want -> want <= maxSniffBufferSize \/ want <= c_Buffered c ->
  let '(c', _, err) := c_Peek want (c_Grow want c) in untouched c c' /\ (err = None -> want <= c_Buffered c').
Proof.
  intros Hc H0 Hw. destruct (c_Grow_ok want c Hc H0 Hw) as [Hu1 Hb1]. pose proof (c_Peek_ok want (c_Grow want c) (proj1 Hu1)) as Hp.
  destruct (c_Peek want (c_Grow want c)) as [[c' data] err]. destruct Hp as (Hu2 & _ & Hok & _). split; [by eapply untouched_trans|]. intros He. by apply Hok.
Qed.
Lemma peek_buffered c : conn_ok c -> let '(c', data, _) := c_Peek (c_Buffered c) c in
  untouched c c' /\ c_rd c' = c_rd c /\ data = rd_data (c_rd c') /\ bytes_ok data /\ zlen data = c_Buffered c.
Proof.
  intros Hc. pose proof (c_Peek_ok (c_Buffered c) c Hc) as Hp. pose proof (rd_Peek_keeps (c_Buffered c) (c_rd c) (c_events c) (co_rd _ Hc)) as Hk.
  unfold c_Peek in *. destruct (rd_Peek (c_Buffered c) (c_rd c) (c_events c)) as [[[b ev] data] err]. destruct Hp as (Hu & _ & Hok & Hsame).
  destruct Hk as (_ & _ & Hk). destruct (Hk ltac:(unfold c_Buffered; lia)) as (_ & _ & ->). destruct (Hok eq_refl) as [-> _]. specialize (Hsame ltac:(lia)). cbn [c_rd] in *. subst b.
  pose proof (zlen_rd_data (c_rd c) (co_rd _ Hc)) as Hz. assert (Et : ztake (c_Buffered c) (rd_data (c_rd c)) = rd_data (c_rd c)).
  { unfold ztake. apply take_ge. unfold zlen, c_Buffered in *. lia. }
  rewrite Et. split_and!; [done|done|done| |done]. destruct Hc as [_ Hb]. by apply Forall_app in Hb as [? _].
Qed.

(** A round of the loop: [want] grows with every one, and is bounded. *)
Lemma sniff_loop_ends fuel : forall conn cs want, conn_ok conn -> Forall (fun c => sniffer_safe (cd_sniffer c)) cs -> (0 < fuel)%nat ->
  (cs <> [] -> 0 < want /\ maxSniffBufferSize + 2 <= Z.of_nat fuel + want /\ (want <= maxSniffBufferSize \/ want <= c_Buffered conn -> (2 <= fuel)%nat)) ->
  let '(conn', r) := sniff_loop IsDomainName fuel conn cs want in untouched conn conn' /\ result_of cs conn' r.
Proof.
  induction fuel as [|fuel IH]; intros conn cs want Hc Hcs Hf Hw; [lia|]. cbn [sniff_loop]. destruct cs as [|c0 cs0]; [split; [by apply untouched_refl|done]|].
  destruct Hw as (Hw0 & Hsum & Htwo); [done|]. set (cs := c0 :: cs0) in *.
  destruct (_ && _) eqn:Eg; [split; [by apply untouched_refl|done]|].
  assert (Hfit : want <= maxSniffBufferSize \/ want <= c_Buffered conn) by (apply andb_false_iff in Eg as [E|E]; apply Z.ltb_ge in E; auto). specialize (Htwo Hfit).
  pose proof (peek_want want conn Hc Hw0 Hfit) as Hp. destruct (c_Peek want (c_Grow want conn)) as [[conn1 ?] err]. destruct Hp as [Hu1 Hbig].
  destruct err as [e|]; [by split|]. specialize (Hbig eq_refl).
  pose proof (peek_buffered conn1 (proj1 Hu1)) as Hp. destruct (c_Peek (c_Buffered conn1) conn1) as [[conn2 data] ?]. destruct Hp as (Hu2 & Hrd & Hdata & Hdb & Hlen).
  pose proof (sniff_round_spec data Hdb cs 0 Hcs) as Hr. destruct (sniff_round IsDomainName data cs 0) as [[[host config]|[cs' want']]|]; [| |done].
  { split; [by eapply untouched_trans|]. subst data. exact Hr. }
  destruct Hr as (_ & Hfrom & Hnext). specialize (Hnext ltac:(by left)).
  assert (Hcs' : Forall (fun c => sniffer_safe (cd_sniffer c)) cs').
  { apply List.Forall_forall. intros c Hin. destruct (Hfrom c Hin) as (c1 & Hc1 & ->). by apply (proj1 (List.Forall_forall _ _) Hcs). }
  specialize (IH conn2 cs' want' (proj1 Hu2) Hcs' ltac:(lia)).
  assert (Hb2 : c_Buffered conn2 = c_Buffered conn1) by (unfold c_Buffered; by rewrite Hrd).
  assert (Hpre : cs' <> [] -> 0 < want' /\ maxSniffBufferSize + 2 <= Z.of_nat fuel + want' /\ (want' <= maxSniffBufferSize \/ want' <= c_Buffered conn2 -> (2 <= fuel)%nat)).
  { intros Hne. destruct Hnext as [[_ ?]|Hgt]; [done|]. rewrite Hb2. lia. }
  specialize (IH Hpre). destruct (sniff_loop IsDomainName fuel conn2 cs' want') as [conn' r]. destruct IH as [Hu3 Hr3]. split; [by eapply untouched_trans, untouched_trans|].
  destruct r; try done. destruct Hr3 as (Hv & c & Hin & E1 & E2). split; [done|]. destruct (Hfrom c Hin) as (c1 & Hc1 & E). exists c1. by rewrite <- E.
Qed.
End Rounds.

(** ** The dispatcher *)

Lemma tls_safe c : sniffer_safe (NewTLSSniffer c).
Proof. intros data Hd E. pose proof (SniffTLS_any data Hd) as H. unfold reads in H. change (SniffTLS data = Panic) in E. by rewrite E in H. Qed.
Lemma http_safe H c : sniffer_safe (NewHTTPSniffer H c).
Proof. intros data Hd E. pose proof (http_SniffData_asks H data Hd) as Ha. unfold asks in Ha. change (http_SniffData H data = Panic) in E. by rewrite E in Ha. Qed.
Lemma NewSniffer_safe H name c s : NewSniffer H name c = inr s -> sniffer_safe s.
Proof.
  unfold NewSniffer. destruct (_ =? _); [intros [= <-]; apply tls_safe|]. destruct (_ =? _); [intros [= <-]; apply http_safe|].
  destruct (_ =? _); [intros [= <-]; by intros data _|done].
Qed.
Lemma new_sniffers_safe H names cfg l : new_sniffers H names cfg = inr l -> Forall sniffer_safe l.
Proof.
  revert l. induction names as [|name names IH]; intros l; cbn [new_sniffers]; [intros [= <-]; constructor|]. destruct (cfg !! name) as [c|]; [|apply IH].
  destruct (NewSniffer H name c) as [e|s] eqn:E; [done|]. destruct (new_sniffers H names cfg) as [e|l']; [done|]. intros [= <-]. constructor; [by eapply NewSniffer_safe|by apply IH].
Qed.
Lemma NewDispatcher_safe H cfg sd err : NewDispatcher H cfg = (sd, err) -> Forall sniffer_safe (sniffers sd).
Proof.
  unfold NewDispatcher. destruct (new_sniffers H sniffer_List (cf_Sniffers cfg)) as [e|l] eqn:E; [intros [= <- _]; constructor|].
  destruct (_ && _); intros [= <- _]; [constructor|]. by eapply new_sniffers_safe.
Qed.

Section Dispatching.
Context (IsDomainName : string -> bool).

(** The sniffers that a connection is given to. *)
Definition sniffs (sd : Dispatcher) (m : Metadata) (s : configuredSniffer) : Prop := In s (sniffers sd) /\ supportsNetwork s TCP = true /\ SupportPort s (md_DstPort m) = true.

Lemma sniffDomain_ends sd conn m : conn_ok conn -> Forall sniffer_safe (sniffers sd) ->
  let '(conn', r) := sniffDomain IsDomainName sd conn m in untouched conn conn' /\
  match r with
  | SniffPanic | SniffNoFuel => False
  | Sniffed host config => isValidSniffHost IsDomainName host = true /\
      exists s, sniffs sd m s /\ sn_SniffData s (rd_data (c_rd conn')) = Found host /\ config = sn_config s
  | _ => True
  end.
Proof.
  intros Hc Hs. unfold sniffDomain. set (l := List.filter _ (sniffers sd)). set (cs := map _ l).
  assert (Hfrom : forall c, In c cs -> sniffs sd m (cd_sniffer c)).
  { intros c Hin. apply in_map_iff in Hin as (s & <- & Hin). apply filter_In in Hin as [Hin [H1 H2]%andb_true_iff]. by split_and!. }
  assert (Hcs : Forall (fun c => sniffer_safe (cd_sniffer c)) cs).
  { apply List.Forall_forall. intros c Hin. apply (proj1 (List.Forall_forall _ _) Hs). by apply Hfrom. }
  destruct cs as [|c0 cs0] eqn:Ecs; [split; [by apply untouched_refl|done]|]. rewrite <- Ecs in *. clear Ecs c0 cs0.
  pose proof (c_Peek_ok 1 conn Hc) as Hp. destruct (c_Peek 1 conn) as [[conn1 ?] err]. destruct Hp as (Hu & _ & Hok & _). destruct err as [e|]; [by split|].
  destruct (Hok eq_refl) as [_ H1]. pose proof (sniff_loop_ends IsDomainName (Z.to_nat (maxSniffBufferSize + 2)) conn1 cs (c_Buffered conn1) (proj1 Hu) Hcs) as Hl.
  assert (Hm : maxSniffBufferSize = 65536) by done. specialize (Hl ltac:(lia)).
  assert (Hpre : cs <> [] -> 0 < c_Buffered conn1 /\ maxSniffBufferSize + 2 <= Z.of_nat (Z.to_nat (maxSniffBufferSize + 2)) + c_Buffered conn1 /\
    (c_Buffered conn1 <= maxSniffBufferSize \/ c_Buffered conn1 <= c_Buffered conn1 -> (2 <= Z.to_nat (maxSniffBufferSize + 2))%nat)) by (intros _; lia).
  specialize (Hl Hpre). destruct (sniff_loop IsDomainName _ conn1 cs (c_Buffered conn1)) as [conn' r]. destruct Hl as [Hu' Hr]. split; [by eapply untouched_trans|].
  destruct r; try done. destruct Hr as (Hv & c & Hin & E1 & E2). split; [done|]. exists (cd_sniffer c). split; [by apply Hfrom|done].
Qed.
End Dispatching.

(** whatever a client sends, in whatever pieces, and whenever the deadline strikes, sniffing a connection with the sniffers of a
    configuration ends without a panic and leaves every byte of the connection in its place, with at most 64 KiB of
    buffer; the metadata change only if a sniffer for the port has read a domain from the bytes at the front that no skip
    rule excludes, and then as this sniffer's own configuration says. *)
Lemma TCPSniff_ends H IsDomainName cfg t sd err conn m sl : NewDispatcher H cfg = (sd, err) -> conn_ok conn ->
  exists ok m' sl' conn', TCPSniff IsDomainName t sd conn m sl = Some (ok, m', sl', conn') /\ untouched conn conn' /\
    if ok : bool then exists host s, sniffs sd m s /\ sn_SniffData s (rd_data (c_rd conn')) = Found host /\ domainCanReplace IsDomainName sd host = true /\
                     m' = replaceDomain host (OverrideDest (sn_config s)) m
    else m' = m.
Proof.
  intros Hsd Hc. pose proof (sniffDomain_ends IsDomainName sd conn m Hc (NewDispatcher_safe _ _ _ _ Hsd)) as Hd. unfold TCPSniff.
  pose proof (untouched_refl conn Hc) as Hu0. destruct (shouldOverride sd m); [|by exists false, m, sl, conn].
  destruct (negb _); [by exists false, m, sl, conn|]. set (cs := if forceSniff sd m then _ else _). destruct cs as [count sl1].
  destruct (_ && _); [by exists false, m, sl1, conn|]. destruct (sniffDomain IsDomainName sd conn m) as [conn' r]. destruct Hd as [Hu Hr].
  destruct r as [host config| | | |]; [|by eexists false, m, _, conn'|by eexists false, m, _, conn'|done|done].
  destruct Hr as (_ & s & Hs & Es & ->). destruct (domainCanReplace IsDomainName sd host) eqn:Edc; cbn [negb]; [|by exists false, m, sl1, conn'].
  eexists true, _, _, conn'. split; [done|]. split; [done|]. by exists host, s.
Qed.

(** ** Configurations *)

(** The sniffers of a configuration, in the order of [sniffer.List]. *)
Definition configured (H : HttpLib) (cfg : gmap Z SnifferConfig) : list configuredSniffer :=
  omap (fun name => c ← cfg !! name; match NewSniffer H name c with inr s => Some s | inl _ => None end) sniffer_List.

Lemma new_sniffers_configured H cfg : new_sniffers H sniffer_List cfg = inr (configured H cfg) /\
  length (configured H cfg) = length (List.filter (fun n => bool_decide (is_Some (cfg !! n))) sniffer_List).
Proof.
  unfold configured, sniffer_List, sniffer_TLS, sniffer_HTTP, sniffer_QUIC. cbn [new_sniffers omap list_omap List.filter].
  destruct (cfg !! 0), (cfg !! 1), (cfg !! 2); by split.
Qed.

(** A configuration with known sniffers gives a dispatcher with these in a fixed order; one with an unknown sniffer is refused. *)
Lemma NewDispatcher_spec H c :
  if bool_decide (map_Forall (fun k _ => In k sniffer_List) (cf_Sniffers c))
  then (NewDispatcher H c).2 = None /\ sniffers (NewDispatcher H c).1 = configured H (cf_Sniffers c) /\ enable (NewDispatcher H c).1 = cf_Enable c
  else NewDispatcher H c = (disabled_dispatcher, Some ErrorUnsupportedSniffer).
Proof.
  unfold NewDispatcher. destruct (new_sniffers_configured H (cf_Sniffers c)) as [-> El]. rewrite El. set (cfg := cf_Sniffers c).
  assert (Hex : existsb (fun kv : Z * SnifferConfig => negb (existsb (Z.eqb kv.1) sniffer_List)) (map_to_list cfg) = negb (bool_decide (map_Forall (fun k _ => In k sniffer_List) cfg))).
  { apply eq_true_iff_eq. rewrite existsb_exists, negb_true_iff, bool_decide_eq_false. split.
    - intros ([k x] & Hin & Hk) Hall. apply negb_true_iff in Hk. apply list_elem_of_In, elem_of_map_to_list in Hin. specialize (Hall k x Hin). cbn [fst] in Hk.
      assert (E : existsb (Z.eqb k) sniffer_List = true) by (apply existsb_exists; exists k; split; [done|apply Z.eqb_refl]). congruence.
    - intros Hn. apply map_not_Forall in Hn as (k & x & Hk & Hni); [|apply _]. exists (k, x). split; [by apply list_elem_of_In, elem_of_map_to_list|]. cbn [fst]. apply negb_true_iff.
      destruct (existsb (Z.eqb k) sniffer_List) eqn:E; [|done]. apply existsb_exists in E as (y & Hy & ->%Z.eqb_eq). done. }
  rewrite Hex. case_bool_decide as Hall; cbn [negb]; [rewrite andb_false_r; by split_and!|]. rewrite andb_true_r.
  destruct (Nat.eqb_spec (length (List.filter (fun n => bool_decide (is_Some (cfg !! n))) sniffer_List)) (size cfg)) as [Esz|]; [|done].
  exfalso. apply map_not_Forall in Hall as (k & x & Hk & Hni); [|apply _]. set (l := List.filter _ sniffer_List) in Esz.
  assert (Hnd : NoDup (k :: l)).
  { apply NoDup_cons. split; [|apply NoDup_ListNoDup, List.NoDup_filter, NoDup_ListNoDup; apply (bool_decide_unpack (NoDup sniffer_List)); by vm_compute]. intros Hin. apply list_elem_of_In, filter_In in Hin as [Hin _]. done. }
  assert (Hsub : list_to_set (k :: l) ⊆@{gset Z} dom cfg).
  { intros y Hy. apply elem_of_list_to_set, list_elem_of_In in Hy as [<-|Hy]; [by apply elem_of_dom_2 with x|]. apply filter_In in Hy as [_ Hy%bool_decide_eq_true]. by apply elem_of_dom. }
  apply subseteq_size in Hsub. rewrite size_list_to_set, size_dom in Hsub by done. cbn [length] in Hsub. lia.
Qed.

(** ** Witness and examples *)

Definition demo_sniff_config : SniffConfig := {|
  cf_Enable := true; cf_Sniffers := {[ sniffer_TLS := mkSnifferConfig true []; sniffer_HTTP := mkSnifferConfig false [mkRange 80 443] ]};
  cf_ForceDomain := []; cf_SkipSrcAddress := []; cf_SkipDstAddress := []; cf_SkipDomain := []; cf_ForceDnsMapping := true; cf_ParsePureIp := true |}.
Definition demo_dispatcher : Dispatcher := (NewDispatcher demo_http demo_sniff_config).1.
Lemma demo_dispatcher_new : NewDispatcher demo_http demo_sniff_config = (demo_dispatcher, None).
Proof. by rewrite (surjective_pairing (NewDispatcher demo_http demo_sniff_config)). Qed.
Definition demo_md : Metadata := set_DstIP (mkAddr 32 16909060) (mkMetadata TCP TUN (mkAddr 32 1) zeroAddr None None "" "" 1000 443 0 "" "" "" "" DNSNormal 0 "" "" "" "" 0 "" "" "").
(** The demo hello in two records, in three segments, and then silence. *)
Definition demo_stream : list Z := enc_records 1 [take 10 (enc_hello demo_hello); drop 10 (enc_hello demo_hello)].
Definition demo_conn : BufferedConn := Eval vm_compute in NewBufferedConn [Some (take 3 demo_stream); Some (take 20 (drop 3 demo_stream)); Some (drop 23 demo_stream); None].
Definition demo_skip : SkipList := (new_skipList, mkHeap ∅ 0).
Definition all_names (s : string) : bool := negb (String.eqb s "").

Lemma demo_conn_ok : conn_ok demo_conn.
Proof. split; [split; vm_compute; repeat split; discriminate || reflexivity|]. apply (bool_decide_unpack (Forall is_byte (c_bytes demo_conn))). by vm_compute. Qed.

Example TCPSniff_ends_witness : exists ok m' sl' conn', TCPSniff all_names (fun _ => 0) demo_dispatcher demo_conn demo_md demo_skip = Some (ok, m', sl', conn') /\ untouched demo_conn conn' /\
    if ok : bool then exists host s, sniffs demo_dispatcher demo_md s /\ sn_SniffData s (rd_data (c_rd conn')) = Found host /\ domainCanReplace all_names demo_dispatcher host = true /\
                     m' = replaceDomain host (OverrideDest (sn_config s)) demo_md
    else m' = demo_md.
Proof. apply (TCPSniff_ends demo_http all_names demo_sniff_config (fun _ => 0) demo_dispatcher None demo_conn demo_md demo_skip); [exact demo_dispatcher_new|exact demo_conn_ok]. Defined.

(** The name is found when the third segment is there, and replaces the destination. *)
Example sniff_three_segments :
  (fun r => match r with (ok, m, _, c) => (ok, md_Host m, md_SniffHost m, addr_IsValid (md_DstIP m), zlen (rd_data (c_rd c))) end) <$>
    TCPSniff all_names (fun _ => 0) demo_dispatcher demo_conn demo_md demo_skip = Some (true, "a.b"%string, "a.b"%string, false, zlen demo_stream).
Proof. by vm_compute. Qed.
(** Six failures, each a connection on which nothing comes; the seventh is not looked at, until ten minutes after the last failure. *)
Fixpoint demo_failures (n : nat) (now : Z) (sl : SkipList) : SkipList :=
  match n with
  | O => sl
  | S n => match TCPSniff all_names (fun _ => now) demo_dispatcher (NewBufferedConn [None]) demo_md sl with Some (_, _, sl, _) => demo_failures n now sl | None => sl end
  end.
Definition demo_found (now : Z) (sl : SkipList) : option bool := (fun r => match r with (ok, _, _, _) => ok end) <$> TCPSniff all_names (fun _ => now) demo_dispatcher demo_conn demo_md sl.
Example sniff_gives_up : demo_found 10 (demo_failures 5 10 demo_skip) = Some true /\ demo_found 10 (demo_failures 6 10 demo_skip) = Some false /\
  demo_found 609 (demo_failures 6 10 demo_skip) = Some false /\ demo_found 610 (demo_failures 6 10 demo_skip) = Some true.
Proof. by vm_compute. Qed.
