(* ===== verification/ZList.v ===== *)
(** * Lists read at integer positions

    [zget l i] is the element at a Go index; the lemmas give it for every list
    operation as a case distinction that [lia] decides, and two lists of one
    length are equal when they agree at every index.  [qres] is the outcome of a Go
    function that may panic or loop for ever. *)
From S2P Require Import Prelude.
Open Scope list_scope.
Open Scope Z_scope.

(** What a call ends in. *)
Inductive qres (A : Type) := QOk (a : A) | QPanic | QHang.
#[global] Arguments QOk {A} a.
#[global] Arguments QPanic {A}.
#[global] Arguments QHang {A}.
#[global] Instance qres_ret : MRet qres := fun A a => QOk a.
#[global] Instance qres_bind : MBind qres := fun A B f m =>
  match m with QOk a => f a | QPanic => QPanic | QHang => QHang end.

Definition zget {A} (l : list A) (i : Z) : option A := if 0 <=? i then l !! Z.to_nat i else None.
Definition zset {A} (l : list A) (i : Z) (x : A) : list A := <[Z.to_nat i := x]> l.
Definition zrep {A} (n : Z) (x : A) : list A := replicate (Z.to_nat n) x.

Section ZList.
Context {A : Type}.
Implicit Types (l k : list A) (x : A) (i n : Z).

Lemma zget_lookup l i : 0 <= i -> l !! Z.to_nat i = zget l i.
Proof. intros. unfold zget. destruct (Z.leb_spec 0 i); [done | lia]. Qed.
Lemma zget_is_Some l i : 0 <= i < zlen l -> exists x, zget l i = Some x.
Proof.
  intros. rewrite <- zget_lookup by lia. apply lookup_lt_is_Some_2. unfold zlen in *. lia.
Qed.
Lemma zget_out l i : i < 0 \/ zlen l <= i -> zget l i = None.
Proof.
  intros. unfold zget. destruct (Z.leb_spec 0 i); [|done]. apply lookup_ge_None_2. unfold zlen in *. lia.
Qed.
Lemma zget_range l i x : zget l i = Some x -> 0 <= i < zlen l.
Proof. intros E. destruct (decide (0 <= i < zlen l)); [done|]. rewrite zget_out in E by lia. done. Qed.
Lemma zget_app l k i : zget (l ++ k) i = if i <? zlen l then zget l i else zget k (i - zlen l).
Proof.
  unfold zget, zlen.
  destruct (Z.leb_spec 0 i), (Z.ltb_spec i (Z.of_nat (length l))); try (exfalso; lia).
  - apply lookup_app_l. lia.
  - rewrite lookup_app_r by lia. destruct (Z.leb_spec 0 (i - Z.of_nat (length l))); [|lia]. f_equal. lia.
  - done.
Qed.
Lemma zget_cons x l i : zget (x :: l) i = if i =? 0 then Some x else zget l (i - 1).
Proof.
  unfold zget. destruct (Z.leb_spec 0 i), (Z.eqb_spec i 0), (Z.leb_spec 0 (i - 1)); try (exfalso; lia); subst; try done.
  replace (Z.to_nat i) with (S (Z.to_nat (i - 1))) by lia. done.
Qed.
Lemma zget_nil i : zget (@nil A) i = None.
Proof. unfold zget. destruct (0 <=? i); done. Qed.
Lemma zget_ztake n l i : zget (ztake n l) i = if i <? n then zget l i else None.
Proof.
  unfold zget, ztake. destruct (Z.leb_spec 0 i), (Z.ltb_spec i n); try done.
  - apply lookup_take_lt. lia.
  - apply lookup_take_ge. lia.
Qed.
Lemma zget_zdrop n l i : 0 <= n -> zget (zdrop n l) i = if 0 <=? i then zget l (n + i) else None.
Proof.
  intros. unfold zget, zdrop. destruct (Z.leb_spec 0 i); [|done].
  destruct (Z.leb_spec 0 (n + i)); [|lia]. rewrite lookup_drop. f_equal. lia.
Qed.
Lemma zget_zrep n x i : zget (zrep n x) i = if (0 <=? i) && (i <? n) then Some x else None.
Proof.
  unfold zget, zrep. destruct (Z.leb_spec 0 i), (Z.ltb_spec i n); try done.
  - apply lookup_replicate_2. lia.
  - apply lookup_ge_None_2. rewrite length_replicate. lia.
Qed.
Lemma zget_map (f : A -> A) l i : zget (map f l) i = f <$> zget l i.
Proof. unfold zget. destruct (0 <=? i); [|done]. apply list_lookup_fmap. Qed.
Lemma zlen_zset l i x : zlen (zset l i x) = zlen l.
Proof. unfold zset, zlen. by rewrite length_insert. Qed.
Lemma zlen_zrep n x : 0 <= n -> zlen (zrep n x) = n.
Proof. intros. unfold zrep, zlen. rewrite length_replicate. lia. Qed.
Lemma zlen_map {B} (f : A -> B) l : zlen (map f l) = zlen l.
Proof. unfold zlen. by rewrite length_map. Qed.
Lemma zget_zset l j x i : 0 <= j < zlen l -> zget (zset l j x) i = if i =? j then Some x else zget l i.
Proof.
  intros. unfold zget, zset. destruct (Z.leb_spec 0 i), (Z.eqb_spec i j); try lia; try done; subst.
  - apply list_lookup_insert_eq. unfold zlen in *. lia.
  - apply list_lookup_insert_ne. lia.
Qed.
Lemma zlist_eq l k : zlen l = zlen k -> (forall i, 0 <= i < zlen l -> zget l i = zget k i) -> l = k.
Proof.
  intros Hl H. apply list_eq. intros i. destruct (decide (i < length l)%nat).
  - specialize (H (Z.of_nat i)). rewrite <- !zget_lookup, Nat2Z.id in H by lia. apply H. unfold zlen. lia.
  - unfold zlen in *. rewrite !lookup_ge_None_2 by lia. done.
Qed.
Lemma zlen_rev l : zlen (rev l) = zlen l.
Proof. unfold zlen. by rewrite length_rev. Qed.
End ZList.

Create Rewrite HintDb zlist.
#[export] Hint Rewrite @zget_app @zget_cons @zget_nil @zget_ztake @zget_zrep @zget_map @zlen_zset
  @zlen_app @zlen_cons @zlen_nil @zlen_map : zlist.
#[export] Hint Rewrite @zget_zdrop @zget_zset @zlen_zrep @zlen_ztake @zlen_zdrop using lia : zlist.

(** Decide the tests of the goal, innermost first; what is left compares elements
    at equal indices. *)
Ltac no_if t := lazymatch t with context [if _ then _ else _] => fail | _ => idtac end.
Ltac zcases :=
  repeat (match goal with
  | |- context [if ?a <? ?b then _ else _] => no_if a; no_if b; destruct (Z.ltb_spec a b); try lia
  | |- context [if ?a <=? ?b then _ else _] => no_if a; no_if b; destruct (Z.leb_spec a b); try lia
  | |- context [if ?a =? ?b then _ else _] => no_if a; no_if b; destruct (Z.eqb_spec a b); try lia
  | |- context [if ?a && ?b then _ else _] => destruct a eqn:?, b eqn:?; cbn [andb]; zify_bool; try lia
  end).
Ltac zfin := try done; try (rewrite !zget_out by lia; done); try (f_equal; lia).
