(* ===== verification/Deque.v ===== *)
(** * The double-ended queue of [common/deque/deque.go]

    A ring buffer whose length is a power of two, so that [x & (len-1)] is the
    remainder.  The state is the record [Deque]; every method is a function from
    the queue to an outcome: a value with the new queue, a panic, or a loop that
    never ends.  [int] is 64 bits wide: shifts and the sum in [Grow] wrap ([i64]);
    sums of two positions in the buffer cannot, a buffer being shorter than
    [2^62].  [make] panics for a negative length and is otherwise taken to succeed.
    Iterators run the consumer as a computation that may itself change the queue. *)
From S2P Require Import Prelude ZList.
Open Scope list_scope.
Open Scope Z_scope.

Module Deque.
Section Deque.
Context {T : Type} (zero : T).

(** minCapacity is the smallest capacity that deque may have.
    @go common/deque/deque.go:12-12 minCapacity *)
Definition minCapacity : Z := 8.

(** @go common/deque/deque.go:37-43 Deque *)
Record Deque := mkDeque { buf : list T; head : Z; tail : Z; count : Z; minCap : Z }.

(** [var q Deque[T]]: the zero value, ready for use. *)
Definition newDeque : Deque := mkDeque [] 0 0 0 0.

(** Go's index expressions, slices, [copy] and [make]. *)
Definition ix (l : list T) (i : Z) : qres T :=
  if (0 <=? i) then match l !! Z.to_nat i with Some x => QOk x | None => QPanic end else QPanic.
Definition dset (l : list T) (i : Z) (x : T) : qres (list T) :=
  if (0 <=? i) && (i <? zlen l) then QOk (<[Z.to_nat i := x]> l) else QPanic.
Definition subslice (l : list T) (a b : Z) : qres (list T) :=
  if (0 <=? a) && (a <=? b) && (b <=? zlen l) then QOk (ztake (b - a) (zdrop a l)) else QPanic.
Definition copied (dst src : list T) : Z := Z.min (zlen dst) (zlen src).
Definition copy (dst src : list T) : list T := ztake (copied dst src) src ++ zdrop (copied dst src) dst.
Definition make (n : Z) : qres (list T) := if n <? 0 then QPanic else QOk (replicate (Z.to_nat n) zero).

(** [for c < n { c <<= 1 }].  After 64 turns [c] is zero and stays it. *)
Fixpoint shl_until (fuel : nat) (c n : Z) : qres Z :=
  if c <? n then match fuel with O => QHang | S f => shl_until f (i64 (Z.shiftl c 1)) n end else QOk c.
Definition shl_loop (c n : Z) : qres Z := shl_until 65 c n.

(** Cap returns the current capacity of the Deque.
    @go common/deque/deque.go:46-51 Deque.Cap *)
Definition Cap (q : Deque) : Z := zlen (buf q).

(** Len returns the number of elements currently stored.
    @go common/deque/deque.go:55-60 Deque.Len *)
Definition Len (q : Deque) : Z := count q.

(** @go common/deque/deque.go:604-608 Deque.checkRange *)
Definition checkRange (i : Z) (q : Deque) : qres unit :=
  if (i <? 0) || (count q <=? i) then QPanic else QOk tt.

(** The previous and the next buffer position, wrapping around.
    @go common/deque/deque.go:611-613 Deque.prev *)
Definition prevPos (q : Deque) (i : Z) : Z := Z.land (i - 1) (zlen (buf q) - 1).
(** @go common/deque/deque.go:616-618 Deque.next *)
Definition nextPos (q : Deque) (i : Z) : Z := Z.land (i + 1) (zlen (buf q) - 1).
(** The position of item [i]: [(q.head+i)&(len(q.buf)-1)]. *)
Definition pos (q : Deque) (i : Z) : Z := Z.land (head q + i) (zlen (buf q) - 1).

(** Copies the items to the front of a buffer of [newSize].
    @go common/deque/deque.go:662-674 Deque.resize *)
Definition resize (newSize : Z) (q : Deque) : qres Deque :=
  newBuf ← make newSize;
  newBuf ← (if head q <? tail q then
              part ← subslice (buf q) (head q) (tail q);
              mret (copy newBuf part)
            else
              part ← subslice (buf q) (head q) (zlen (buf q));
              let n := copied newBuf part in
              let newBuf := copy newBuf part in
              rest ← subslice (buf q) 0 (tail q);
              mret (ztake n newBuf ++ copy (zdrop n newBuf) rest));
  mret (mkDeque newBuf 0 (count q) (count q) (minCap q)).

(** growIfFull resizes up if the buffer is full.
    @go common/deque/deque.go:621-633 Deque.growIfFull *)
Definition growIfFull (q : Deque) : qres Deque :=
  if negb (count q =? zlen (buf q)) then mret q
  else if zlen (buf q) =? 0 then
    let m := if minCap q =? 0 then minCapacity else minCap q in
    b ← make m;
    mret (mkDeque b (head q) (tail q) (count q) m)
  else resize (i64 (Z.shiftl (count q) 1)) q.

(** shrinkIfExcess resize down if the buffer 1/4 full.
    @go common/deque/deque.go:636-640 Deque.shrinkIfExcess *)
Definition shrinkIfExcess (q : Deque) : qres Deque :=
  if (minCap q <? zlen (buf q)) && (i64 (Z.shiftl (count q) 2) =? zlen (buf q))
  then resize (i64 (Z.shiftl (count q) 1)) q else mret q.

(** @go common/deque/deque.go:642-657 Deque.shrinkToFit *)
Definition shrinkToFit (q : Deque) : qres Deque :=
  if (minCap q <? zlen (buf q)) && (i64 (Z.shiftl (count q) 2) <=? zlen (buf q)) then
    if count q =? 0 then
      b ← make (minCap q);
      mret (mkDeque b 0 0 (count q) (minCap q))
    else c ← shl_loop (minCap q) (count q); resize c q
  else mret q.

(** PushBack appends an element to the back of the queue.
    @go common/deque/deque.go:65-72 Deque.PushBack *)
Definition PushBack (elem : T) (q : Deque) : qres Deque :=
  q ← growIfFull q;
  b ← dset (buf q) (tail q) elem;
  mret (mkDeque b (head q) (nextPos q (tail q)) (count q + 1) (minCap q)).

(** PushFront prepends an element to the front of the queue.
    @go common/deque/deque.go:75-82 Deque.PushFront *)
Definition PushFront (elem : T) (q : Deque) : qres Deque :=
  q ← growIfFull q;
  let h := prevPos q (head q) in
  b ← dset (buf q) h elem;
  mret (mkDeque b h (tail q) (count q + 1) (minCap q)).

(** Takes the item at the head out of the buffer; [PopFront] and [IterPopFront]
    share these lines. *)
Definition take_front (q : Deque) : qres (T * Deque) :=
  ret ← ix (buf q) (head q);
  b ← dset (buf q) (head q) zero;
  mret (ret, mkDeque b (nextPos q (head q)) (tail q) (count q - 1) (minCap q)).
(** The same at the tail, for [PopBack] and [IterPopBack]. *)
Definition take_back (q : Deque) : qres (T * Deque) :=
  let t := prevPos q (tail q) in
  ret ← ix (buf q) t;
  b ← dset (buf q) t zero;
  mret (ret, mkDeque b (head q) t (count q - 1) (minCap q)).

(** PopFront removes and returns the element from the front of the queue.
    @go common/deque/deque.go:87-100 Deque.PopFront *)
Definition PopFront (q : Deque) : qres (T * Deque) :=
  if count q <=? 0 then QPanic
  else '(ret, q) ← take_front q; q ← shrinkIfExcess q; mret (ret, q).

(** PopBack removes and returns the element from the back of the queue.
    @go common/deque/deque.go:128-144 Deque.PopBack *)
Definition PopBack (q : Deque) : qres (T * Deque) :=
  if count q <=? 0 then QPanic
  else '(ret, q) ← take_back q; q ← shrinkIfExcess q; mret (ret, q).

(** Front returns the element at the front of the queue.
    @go common/deque/deque.go:172-177 Deque.Front *)
Definition Front (q : Deque) : qres T :=
  if count q <=? 0 then QPanic else ix (buf q) (head q).
(** Back returns the element at the back of the queue.
    @go common/deque/deque.go:181-186 Deque.Back *)
Definition Back (q : Deque) : qres T :=
  if count q <=? 0 then QPanic else ix (buf q) (prevPos q (tail q)).
(** At returns the element at index i without removing it.
    @go common/deque/deque.go:200-204 Deque.At *)
Definition At (i : Z) (q : Deque) : qres T :=
  _ ← checkRange i q; ix (buf q) (pos q i).

Definition with_buf (q : Deque) (b : list T) : Deque := mkDeque b (head q) (tail q) (count q) (minCap q).

(** Set assigns the item to index i in the queue.
    @go common/deque/deque.go:209-213 Deque.Set *)
Definition SetAt (i : Z) (item : T) (q : Deque) : qres Deque :=
  _ ← checkRange i q; b ← dset (buf q) (pos q i) item; mret (with_buf q b).

(** ** Iterators: the consumer keeps a state of its own and may change the queue *)

Section Iter.
Context {S : Type} (yield : T -> S -> Deque -> qres (bool * S * Deque)).

(** @go common/deque/deque.go:106-123 Deque.IterPopFront *)
Fixpoint iterPopFront_loop (fuel : nat) (s : S) (q : Deque) : qres (S * Deque) :=
  if count q =? 0 then mret (s, q) else
  match fuel with
  | O => QHang
  | Datatypes.S f =>
    '(ret, q) ← take_front q;
    '(more, s, q) ← yield ret s q;
    if (more : bool) then iterPopFront_loop f s q else mret (s, q)
  end.
Definition IterPopFront (fuel : nat) (s : S) (q : Deque) : qres (S * Deque) :=
  if Len q =? 0 then mret (s, q)
  else '(s, q) ← iterPopFront_loop fuel s q; q ← shrinkToFit q; mret (s, q).

(** @go common/deque/deque.go:150-167 Deque.IterPopBack *)
Fixpoint iterPopBack_loop (fuel : nat) (s : S) (q : Deque) : qres (S * Deque) :=
  if count q =? 0 then mret (s, q) else
  match fuel with
  | O => QHang
  | Datatypes.S f =>
    '(ret, q) ← take_back q;
    '(more, s, q) ← yield ret s q;
    if (more : bool) then iterPopBack_loop f s q else mret (s, q)
  end.
Definition IterPopBack (fuel : nat) (s : S) (q : Deque) : qres (S * Deque) :=
  if Len q =? 0 then mret (s, q)
  else '(s, q) ← iterPopBack_loop fuel s q; q ← shrinkToFit q; mret (s, q).

(** @go common/deque/deque.go:218-233 Deque.Iter *)
Fixpoint iter_loop (fuel : nat) (origHead origTail i h : Z) (s : S) (q : Deque) : qres (S * Deque) :=
  if i <? Len q then
    match fuel with
    | O => QHang
    | Datatypes.S f =>
      if negb (head q =? origHead) || negb (tail q =? origTail) then QPanic
      else x ← ix (buf q) h;
           '(more, s, q) ← yield x s q;
           if (more : bool) then iter_loop f origHead origTail (i + 1) (nextPos q h) s q else mret (s, q)
    end
  else mret (s, q).
Definition Iter (fuel : nat) (s : S) (q : Deque) : qres (S * Deque) :=
  iter_loop fuel (head q) (tail q) 0 (head q) s q.

(** @go common/deque/deque.go:238-253 Deque.RIter *)
Fixpoint riter_loop (fuel : nat) (origHead origTail i t : Z) (s : S) (q : Deque) : qres (S * Deque) :=
  if i <? Len q then
    match fuel with
    | O => QHang
    | Datatypes.S f =>
      if negb (head q =? origHead) || negb (tail q =? origTail) then QPanic
      else let t := prevPos q t in
           x ← ix (buf q) t;
           '(more, s, q) ← yield x s q;
           if (more : bool) then riter_loop f origHead origTail (i + 1) t s q else mret (s, q)
    end
  else mret (s, q).
Definition RIter (fuel : nat) (s : S) (q : Deque) : qres (S * Deque) :=
  riter_loop fuel (head q) (tail q) 0 (tail q) s q.
End Iter.

(** ** Copying and clearing *)

(** @go common/deque/deque.go:277-282 clearSlice *)
Definition clearSlice (b : list T) (from to : Z) : qres (list T) :=
  part ← subslice b from to;
  mret (ztake from b ++ map (fun _ => zero) part ++ zdrop to b).

(** Clear removes all elements from the queue, but retains the current capacity.
    @go common/deque/deque.go:260-275 Deque.Clear *)
Definition ClearAll (q : Deque) : qres Deque :=
  if Len q =? 0 then mret q else
  '(b, h) ← (if tail q <=? head q then b ← clearSlice (buf q) (head q) (zlen (buf q)); mret (b, 0)
             else mret (buf q, head q));
  b ← clearSlice b h (tail q);
  mret (mkDeque b 0 0 0 (minCap q)).

(** Grow grows deque's capacity, if necessary, to guarantee space for another n items.
    @go common/deque/deque.go:287-313 Deque.Grow *)
Definition GrowCap (n : Z) (q : Deque) : qres Deque :=
  if n <? 0 then QPanic else
  let c := Cap q in
  let l := Len q in
  if n <=? c - l then mret q else
  let c := if c =? 0 then minCapacity else c in
  let newLen := i64 (l + n) in
  c ← shl_loop c newLen;
  if l =? 0 then b ← make c; mret (mkDeque b 0 0 (count q) (minCap q))
  else resize c q.

(** AppendToSlice appends from the Deque to the given slice.
    @go common/deque/deque.go:348-361 Deque.AppendToSlice *)
Definition AppendToSlice (out : list T) (q : Deque) : qres (list T) :=
  if count q =? 0 then mret out else
  '(out, h) ← (if tail q <=? head q then part ← subslice (buf q) (head q) (zlen (buf q)); mret (out ++ part, 0)
               else mret (out, head q));
  part ← subslice (buf q) h (tail q);
  mret (out ++ part).

(** CopyOutSlice copies elements from the Deque into the given slice: the slice
    as it is then, and the number copied.
    @go common/deque/deque.go:412-432 Deque.CopyOutSlice *)
Definition CopyOutSlice (out : list T) (q : Deque) : qres (list T * Z) :=
  if (count q =? 0) || (zlen out =? 0) then mret (out, 0) else
  if tail q <=? head q then
    part ← subslice (buf q) (head q) (zlen (buf q));
    let n := copied out part in
    let front := ztake n (copy out part) in
    let rest := zdrop n (copy out part) in
    if zlen rest =? 0 then mret (front ++ rest, n)
    else part ← subslice (buf q) 0 (tail q);
         mret (front ++ copy rest part, n + copied rest part)
  else
    part ← subslice (buf q) (head q) (tail q);
    mret (copy out part, copied out part).

(** Copy copies the contents of the given src Deque, whose buffer is another one.
    @go common/deque/deque.go:327-335 Deque.Copy *)
Definition Copy (src q : Deque) : qres (Z * Deque) :=
  q ← ClearAll q;
  q ← GrowCap (Len src) q;
  '(b, n) ← CopyOutSlice (buf q) src;
  mret (n, mkDeque b 0 n n (minCap q)).

(** CopyInSlice replaces the contents of Deque with all the elements from the given slice.
    @go common/deque/deque.go:375-394 Deque.CopyInSlice *)
Definition CopyInSlice (inp : list T) (q : Deque) : qres Deque :=
  q ← (if zlen (buf q) <? zlen inp then
         let '(newCap, m) := if zlen (buf q) =? 0 then (minCapacity, minCapacity) else (zlen (buf q), minCap q) in
         newCap ← shl_loop newCap (zlen inp);
         b ← make newCap;
         mret (mkDeque b (head q) (tail q) (count q) m)
       else if zlen inp <? zlen (buf q) then ClearAll q else mret q);
  let n := copied (buf q) inp in
  mret (mkDeque (copy (buf q) inp) 0 n n (minCap q)).

(** ** Rotation, search, and changes in the middle *)

(** One turn of each loop of [Rotate]. *)
Definition rotate_back1 (q : Deque) : qres Deque :=
  let modBits := zlen (buf q) - 1 in
  let h := Z.land (head q - 1) modBits in
  let t := Z.land (tail q - 1) modBits in
  x ← ix (buf q) t;
  b ← dset (buf q) h x;
  b ← dset b t zero;
  mret (mkDeque b h t (count q) (minCap q)).
Definition rotate_front1 (q : Deque) : qres Deque :=
  let modBits := zlen (buf q) - 1 in
  x ← ix (buf q) (head q);
  b ← dset (buf q) (tail q) x;
  b ← dset b (head q) zero;
  mret (mkDeque b (Z.land (head q + 1) modBits) (Z.land (tail q + 1) modBits) (count q) (minCap q)).
(** [k] turns of a loop over the queue. *)
Fixpoint times (k : nat) (f : Deque -> qres Deque) (q : Deque) : qres Deque :=
  match k with O => mret q | Datatypes.S k => q ← f q; times k f q end.

(** Rotate rotates the deque n steps front-to-back; back-to-front if n is negative.
    @go common/deque/deque.go:438-481 Deque.Rotate *)
Definition Rotate (n : Z) (q : Deque) : qres Deque :=
  if Len q <=? 1 then mret q else
  let n := Z.rem n (count q) in
  if n =? 0 then mret q else
  if head q =? tail q then
    let h := Z.land (head q + n) (zlen (buf q) - 1) in
    mret (mkDeque (buf q) h h (count q) (minCap q))
  else if n <? 0 then times (Z.to_nat (- n)) rotate_back1 q
  else times (Z.to_nat n) rotate_front1 q.

(** Index returns the index of the first item satisfying f, or -1.
    @go common/deque/deque.go:486-496 Deque.Index *)
Fixpoint index_loop (k : nat) (f : T -> bool) (i : Z) (q : Deque) : qres Z :=
  match k with
  | O => mret (-1)
  | Datatypes.S k => x ← ix (buf q) (pos q i); if f x then mret i else index_loop k f (i + 1) q
  end.
Definition Index (f : T -> bool) (q : Deque) : qres Z :=
  if 0 <? Len q then index_loop (Z.to_nat (count q)) f 0 q else mret (-1).

(** RIndex is the same as Index, but searches from Back to Front.
    @go common/deque/deque.go:501-511 Deque.RIndex *)
Fixpoint rindex_loop (k : nat) (f : T -> bool) (q : Deque) : qres Z :=
  match k with
  | O => mret (-1)
  | Datatypes.S k =>
    x ← ix (buf q) (pos q (Z.of_nat k)); if f x then mret (Z.of_nat k) else rindex_loop k f q
  end.
Definition RIndex (f : T -> bool) (q : Deque) : qres Z :=
  if 0 <? Len q then rindex_loop (Z.to_nat (count q)) f q else mret (-1).

(** [q.buf[i], q.buf[j] = q.buf[j], q.buf[i]]. *)
Definition exchange (i j : Z) (q : Deque) : qres Deque :=
  x ← ix (buf q) i;
  y ← ix (buf q) j;
  b ← dset (buf q) i y;
  b ← dset b j x;
  mret (with_buf q b).
(** [k] exchanges of an item with its next, or previous, neighbour: the loops of
    [Insert] and [Remove]. *)
Fixpoint bubble (k : nat) (step : Deque -> Z -> Z) (p : Z) (q : Deque) : qres Deque :=
  match k with
  | O => mret q
  | Datatypes.S k => let p' := step q p in q ← exchange p p' q; bubble k step p' q
  end.

(** Insert is used to insert an element into the middle of the queue.
    @go common/deque/deque.go:522-549 Deque.Insert *)
Definition InsertAt (at_ : Z) (item : T) (q : Deque) : qres Deque :=
  if at_ <=? 0 then PushFront item q
  else if Len q <=? at_ then PushBack item q
  else if at_ * 2 <? count q then
    q ← PushFront item q; bubble (Z.to_nat at_) nextPos (head q) q
  else
    let swaps := count q - at_ in
    q ← PushBack item q; bubble (Z.to_nat swaps) prevPos (prevPos q (tail q)) q.

(** Remove removes and returns an element from the middle of the queue.
    @go common/deque/deque.go:560-578 Deque.Remove *)
Definition RemoveAt (at_ : Z) (q : Deque) : qres (T * Deque) :=
  _ ← checkRange at_ q;
  let rm := pos q at_ in
  if at_ * 2 <? count q then q ← bubble (Z.to_nat at_) prevPos rm q; PopFront q
  else q ← bubble (Z.to_nat (count q - at_ - 1)) nextPos rm q; PopBack q.

(** SetBaseCap sets a base capacity.
    @go common/deque/deque.go:582-588 Deque.SetBaseCap *)
Definition SetBaseCap (baseCap : Z) (q : Deque) : qres Deque :=
  m ← shl_loop minCapacity baseCap;
  mret (mkDeque (buf q) (head q) (tail q) (count q) m).

(** Swap exchanges the two values at idxA and idxB.
    @go common/deque/deque.go:592-602 Deque.Swap *)
Definition SwapAt (idxA idxB : Z) (q : Deque) : qres Deque :=
  _ ← checkRange idxA q;
  _ ← checkRange idxB q;
  if idxA =? idxB then mret q else exchange (pos q idxA) (pos q idxB) q.

End Deque.
#[global] Arguments Deque T : clear implicits.
End Deque.
