(* ===== verification/DequeProps.v ===== *)
(** * The ring buffer is a list

    [Rep q xs]: the queue [q] is well formed and holds the items [xs]; every free
    cell of its buffer holds the zero value.  Each method is shown to do to [xs] what
    its comment says, and to panic exactly where the list has no such item. *)
From S2P Require Import Prelude ZList Deque.
Import Deque.
Open Scope list_scope.
Open Scope Z_scope.

(** Lengths that are powers of two, no longer than a list can be in practice. *)
Definition pow2 (n : Z) : Prop := exists k, 0 <= k <= 60 /\ n = 2 ^ k.
Definition maxItems : Z := 2 ^ 59.

(** A position of the buffer, one turn at most beyond its end. *)
Definition wrap (c x : Z) : Z := if x <? c then x else x - c.
(** The number of the item in cell [j] of a buffer of [c] cells whose head is [h]. *)
Definition nth_item (h c j : Z) : Z := if h <=? j then j - h else j - h + c.

Lemma pow2_bounds n : pow2 n -> 1 <= n <= 2 ^ 60.
Proof.
  intros (k & Hk & ->). split.
  - assert (0 < 2 ^ k) by (apply Z.pow_pos_nonneg; lia). lia.
  - apply Z.pow_le_mono_r; lia.
Qed.
Lemma pow2_double n : pow2 n -> n < 2 ^ 60 -> pow2 (2 * n).
Proof.
  intros (k & Hk & ->) Hn. exists (k + 1). rewrite Z.pow_add_r by lia. split; [|lia].
  destruct (Z.eq_dec k 60) as [->|]; lia.
Qed.
Lemma pow2_mask n x : pow2 n -> Z.land x (n - 1) = x mod n.
Proof. intros (k & Hk & ->). rewrite <- Z.land_ones by lia. by rewrite Z.ones_equiv, Z.sub_1_r. Qed.
Lemma mask_wrap n x : pow2 n -> 0 <= x < 2 * n -> Z.land x (n - 1) = wrap n x.
Proof.
  intros Hp Hx. rewrite pow2_mask by done. unfold wrap. destruct (Z.ltb_spec x n).
  - apply Z.mod_small. lia.
  - symmetry. apply (Z.mod_unique _ _ 1); lia.
Qed.
Lemma mask_neg n x : pow2 n -> - n <= x < 0 -> Z.land x (n - 1) = x + n.
Proof. intros Hp Hx. rewrite pow2_mask by done. symmetry. apply (Z.mod_unique _ _ (-1)); lia. Qed.
Lemma i64_small x : - 2 ^ 63 <= x < 2 ^ 63 -> i64 x = x.
Proof.
  intros H. unfold i64, sgn. destruct (Z.ltb_spec (x mod 2 ^ 64) (2 ^ (64 - 1))); Z.to_euclidean_division_equations; lia.
Qed.
Lemma shl1 c : 0 <= c <= 2 ^ 60 -> i64 (Z.shiftl c 1) = 2 * c.
Proof. intros. rewrite Z.shiftl_mul_pow2, i64_small by lia. lia. Qed.
Lemma shl2 c : 0 <= c <= 2 ^ 60 -> i64 (Z.shiftl c 2) = 4 * c.
Proof. intros. rewrite Z.shiftl_mul_pow2, i64_small by lia. lia. Qed.

(** The loop [for c < n { c <<= 1 }] returns a power of two that is at least [n]. *)
Lemma shl_until_ok f k n : 0 <= k <= 60 -> n <= 2 ^ 60 -> (60 - k < Z.of_nat f) ->
  exists c, shl_until f (2 ^ k) n = QOk c /\ pow2 c /\ n <= c /\ 2 ^ k <= c /\ (c = 2 ^ k \/ c < 2 * n).
Proof.
  revert k. induction f as [|f IH]; intros k Hk Hn Hf; [lia|]. cbn [shl_until].
  assert (0 < 2 ^ k) by (apply Z.pow_pos_nonneg; lia).
  assert (2 ^ k <= 2 ^ 60) by (apply Z.pow_le_mono_r; lia).
  destruct (Z.ltb_spec (2 ^ k) n) as [Hlt|Hge].
  - assert (k < 60) by (destruct (Z.eq_dec k 60) as [->|]; lia).
    assert (E : 2 ^ (k + 1) = 2 * 2 ^ k) by (rewrite Z.pow_add_r by lia; lia).
    rewrite shl1 by lia. rewrite <- E.
    destruct (IH (k + 1)) as (c & -> & Hp & ? & ? & Hc); [lia..|]. exists c. repeat split; try done; lia.
  - exists (2 ^ k). repeat split; try lia. by exists k.
Qed.
Lemma shl_loop_ok m n : pow2 m -> n <= 2 ^ 60 ->
  exists c, shl_loop m n = QOk c /\ pow2 c /\ n <= c /\ m <= c /\ (c = m \/ c < 2 * n).
Proof. intros (k & Hk & ->) Hn. apply shl_until_ok; lia. Qed.
Lemma pow2_8 : pow2 8. Proof. by exists 3. Qed.

Section Rep.
Context {T : Type} (zero : T).
Abbreviation Deque := (Deque T).
Implicit Types (q : Deque) (xs l b : list T) (x : T).

(** What cell number [i] of the ring holds. *)
Definition cell (xs : list T) (i : Z) : option T := if i <? zlen xs then zget xs i else Some zero.

Record Rep (q : Deque) (xs : list T) : Prop := {
  rep_cap : zlen (buf q) = 0 \/ pow2 (zlen (buf q));
  rep_min : minCap q = 0 \/ pow2 (minCap q);
  rep_count : count q = zlen xs;
  rep_le : zlen xs <= zlen (buf q);
  rep_head : 0 <= head q /\ (head q < zlen (buf q) \/ (head q = 0 /\ zlen (buf q) = 0));
  rep_tail : tail q = wrap (zlen (buf q)) (head q + zlen xs);
  rep_get j : 0 <= j < zlen (buf q) -> zget (buf q) j = cell xs (nth_item (head q) (zlen (buf q)) j) }.

Lemma Rep_no_buf (m : Z) : (m = 0 \/ pow2 m) -> Rep (mkDeque [] 0 0 0 m) [].
Proof. intros Hm. split; cbn; change (zlen (@nil T)) with 0; try (by left); try done; lia. Qed.
Lemma newDeque_Rep : Rep newDeque [].
Proof. apply Rep_no_buf. by left. Qed.

(** *** The index expressions *)
Lemma ix_zget l i x : zget l i = Some x -> ix l i = QOk x.
Proof. unfold ix, zget. destruct (0 <=? i); [|done]. by intros ->. Qed.
Lemma dset_zset l i (x : T) : 0 <= i < zlen l -> dset l i x = QOk (zset l i x).
Proof. intros. unfold dset. destruct (Z.leb_spec 0 i), (Z.ltb_spec i (zlen l)); try lia. done. Qed.
Lemma make_zrep n : 0 <= n -> make zero n = QOk (zrep n zero).
Proof. intros. unfold make. destruct (Z.ltb_spec n 0); [lia|done]. Qed.
Lemma subslice_ok (l : list T) (a b : Z) : 0 <= a <= b -> b <= zlen l -> subslice l a b = QOk (ztake (b - a) (zdrop a l)).
Proof. intros. unfold subslice. destruct (Z.leb_spec 0 a), (Z.leb_spec a b), (Z.leb_spec b (zlen l)); try lia. done. Qed.

Lemma cell_in xs i : 0 <= i < zlen xs -> cell xs i = zget xs i.
Proof. intros. unfold cell. destruct (Z.ltb_spec i (zlen xs)); [done|lia]. Qed.
Lemma cell_out xs i : zlen xs <= i -> cell xs i = Some zero.
Proof. intros. unfold cell. destruct (Z.ltb_spec i (zlen xs)); [lia|done]. Qed.

(** Cells are equal when they belong to the same item. *)
Lemma cell_shift xs ys i j : (i < zlen xs <-> j < zlen ys) -> (i < zlen xs -> zget xs i = zget ys j) ->
  cell xs i = cell ys j.
Proof. intros H1 H2. unfold cell. destruct (Z.ltb_spec i (zlen xs)), (Z.ltb_spec j (zlen ys)); try lia; auto. Qed.

Lemma Rep_pos q xs i : Rep q xs -> 0 <= i < zlen (buf q) -> pos q i = wrap (zlen (buf q)) (head q + i).
Proof. intros [Hc _ _ _ Hh _ _] Hi. unfold pos. apply mask_wrap; [|lia]. destruct Hc; [lia|done]. Qed.
Lemma Rep_next q xs j : Rep q xs -> 0 <= j < zlen (buf q) -> nextPos q j = wrap (zlen (buf q)) (j + 1).
Proof. intros [Hc _ _ _ Hh _ _] Hi. unfold nextPos. apply mask_wrap; [|lia]. destruct Hc; [lia|done]. Qed.
Lemma Rep_prev q xs j : Rep q xs -> 0 <= j < zlen (buf q) ->
  prevPos q j = if j =? 0 then zlen (buf q) - 1 else j - 1.
Proof.
  intros [Hc _ _ _ Hh _ _] Hi. unfold prevPos. destruct Hc as [|Hp]; [lia|].
  destruct (Z.eqb_spec j 0) as [->|].
  - rewrite mask_neg by (done || lia). lia.
  - rewrite mask_wrap by (done || lia). unfold wrap. zcases.
Qed.
Lemma Rep_item q xs i x : Rep q xs -> zget xs i = Some x -> ix (buf q) (wrap (zlen (buf q)) (head q + i)) = QOk x.
Proof.
  intros HR Hx. apply ix_zget. pose proof (zget_range _ _ _ Hx).
  pose proof (rep_le _ _ HR). pose proof (rep_head _ _ HR).
  rewrite (rep_get _ _ HR) by (unfold wrap; zcases). rewrite cell_in by (unfold wrap, nth_item; zcases).
  rewrite <- Hx. f_equal. unfold wrap, nth_item. zcases.
Qed.

(** *** Copying *)
Lemma zlen_copy (dst src : list T) : zlen (copy dst src) = zlen dst.
Proof.
  unfold copy, copied. pose proof (zlen_nonneg dst). pose proof (zlen_nonneg src). autorewrite with zlist. lia.
Qed.
Lemma zget_copy (dst src : list T) i :
  zget (copy dst src) i = if i <? copied dst src then zget src i else zget dst i.
Proof.
  unfold copy, copied. pose proof (zlen_nonneg dst). pose proof (zlen_nonneg src). autorewrite with zlist.
  zcases; zfin.
Qed.

(** Two copies one after the other, as [resize] and [CopyOutSlice] make them. *)
Definition copy2 (dst p1 p2 : list T) : list T :=
  ztake (copied dst p1) (copy dst p1) ++ copy (zdrop (copied dst p1) (copy dst p1)) p2.
Lemma zlen_copy2 dst p1 p2 : zlen (copy2 dst p1 p2) = zlen dst.
Proof.
  unfold copy2. pose proof (zlen_nonneg dst). pose proof (zlen_nonneg p1). unfold copied.
  autorewrite with zlist. rewrite !zlen_copy. autorewrite with zlist. rewrite zlen_copy. lia.
Qed.
Lemma zget_copy2 (dst p1 p2 : list T) i : 0 <= i < zlen dst ->
  zget (copy2 dst p1 p2) i =
    if i <? zlen p1 then zget p1 i else if i <? zlen p1 + zlen p2 then zget p2 (i - zlen p1) else zget dst i.
Proof.
  intros Hi. pose proof (zlen_nonneg dst). pose proof (zlen_nonneg p1). pose proof (zlen_nonneg p2).
  unfold copy2. rewrite zget_app. assert (Hc : 0 <= copied dst p1) by (unfold copied; lia).
  rewrite zlen_ztake, zlen_copy, zget_ztake, !zget_copy, zget_zdrop, zget_copy by done.
  assert (E : copied (zdrop (copied dst p1) (copy dst p1)) p2 = Z.min (Z.max 0 (zlen dst - copied dst p1)) (zlen p2)).
  { unfold copied at 1. rewrite zlen_zdrop, zlen_copy by done. done. }
  rewrite E. unfold copied in *. zcases; zfin.
Qed.

(** The items in a row from the start of a buffer that has room for one more. *)
Lemma Rep_linear b xs m : pow2 (zlen b) -> (m = 0 \/ pow2 m) -> zlen xs < zlen b ->
  (forall i, 0 <= i < zlen b -> zget b i = cell xs i) -> Rep (mkDeque b 0 (zlen xs) (zlen xs) m) xs.
Proof.
  intros Hp Hm Hl Hb. pose proof (zlen_nonneg xs). constructor; cbn; try lia; auto.
  - unfold wrap. zcases.
  - intros j Hj. rewrite Hb by lia. unfold nth_item. zcases. f_equal. lia.
Qed.

Lemma resize_cells q xs n : Rep q xs -> zlen xs <= n ->
  exists b, resize zero n q = QOk (mkDeque b 0 (zlen xs) (zlen xs) (minCap q)) /\ zlen b = n /\
            forall i, 0 <= i < n -> zget b i = cell xs i.
Proof.
  intros HR Hn. pose proof (rep_le _ _ HR). pose proof (rep_head _ _ HR). pose proof (rep_tail _ _ HR) as Ht.
  pose proof (zlen_nonneg xs). unfold resize. rewrite make_zrep by lia. cbn [mbind qres_bind].
  rewrite (rep_count _ _ HR). unfold wrap in Ht. destruct (Z.ltb_spec (head q) (tail q)).
  - rewrite subslice_ok by (revert Ht; zcases). cbn [mbind qres_bind mret qres_ret]. eexists. split; [done|].
    rewrite zlen_copy, zlen_zrep by lia. split; [done|]. intros i Hi. rewrite zget_copy. unfold copied.
    revert Ht. destruct (Z.ltb_spec (head q + zlen xs) (zlen (buf q))); intros Ht;
    autorewrite with zlist; zcases;
      rewrite ?(rep_get _ _ HR) by lia; unfold nth_item; unfold cell; zcases; zfin.
  - rewrite (subslice_ok _ (head q)) by lia. rewrite subslice_ok by (revert Ht; zcases).
    cbn [mbind qres_bind mret qres_ret]. eexists. split; [done|]. change (ztake _ _ ++ _) with
      (copy2 (zrep n zero) (ztake (zlen (buf q) - head q) (zdrop (head q) (buf q))) (ztake (tail q - 0) (zdrop 0 (buf q)))).
    assert (0 <= tail q) by (revert Ht; zcases). split; [rewrite zlen_copy2; autorewrite with zlist; lia|].
    intros i Hi. rewrite zget_copy2 by (autorewrite with zlist; lia). autorewrite with zlist. revert Ht.
    zcases; intros; rewrite ?(rep_get _ _ HR) by lia; unfold nth_item; unfold cell; zcases; zfin.
Qed.

Lemma resize_Rep q xs n : Rep q xs -> pow2 n -> zlen xs < n ->
  exists q', resize zero n q = QOk q' /\ Rep q' xs /\ zlen (buf q') = n.
Proof.
  intros HR Hp Hn. destruct (resize_cells q xs n HR) as (b & -> & Hl & Hb); [lia|].
  eexists. split; [done|]. subst n. split; [|done]. apply Rep_linear; try done. apply (rep_min _ _ HR).
Qed.

(** *** Growing and shrinking *)
Lemma Rep_pow2 q xs : Rep q xs -> 0 < zlen (buf q) -> pow2 (zlen (buf q)).
Proof. intros HR H. destruct (rep_cap _ _ HR); [lia|done]. Qed.
Lemma Rep_cap_le q xs : Rep q xs -> zlen (buf q) <= 2 ^ 60.
Proof. intros HR. destruct (rep_cap _ _ HR) as [->|H%pow2_bounds]; lia. Qed.
Lemma Rep_zero_buf q xs m : Rep q xs -> zlen xs = 0 -> pow2 m -> zlen (buf q) = 0 ->
  Rep (mkDeque (zrep m zero) (head q) (tail q) (zlen xs) m) xs.
Proof.
  intros HR Hx Hm Hz. pose proof (pow2_bounds _ Hm). pose proof (rep_head _ _ HR).
  rewrite (rep_tail _ _ HR). assert (head q = 0) as -> by lia. rewrite Hz. apply zlen_zero_nil in Hx as ->.
  apply (Rep_linear (zrep m zero) []); rewrite ?zlen_zrep, ?zlen_nil by lia; auto; try lia.
  intros i Hi. rewrite cell_out by (rewrite zlen_nil; lia). autorewrite with zlist. zcases. done.
Qed.

Lemma growIfFull_Rep q xs : Rep q xs -> zlen xs < maxItems ->
  exists q', growIfFull zero q = QOk q' /\ Rep q' xs /\ zlen xs < zlen (buf q').
Proof.
  intros HR Hs. pose proof (rep_le _ _ HR). pose proof (zlen_nonneg xs). unfold growIfFull, maxItems in *.
  rewrite (rep_count _ _ HR). destruct (Z.eqb_spec (zlen xs) (zlen (buf q))) as [Hf|]; cbn [negb].
  2:{ exists q. split_and!; try done; lia. }
  destruct (Z.eqb_spec (zlen (buf q)) 0) as [Hz|].
  - set (m := if minCap q =? 0 then minCapacity else minCap q).
    assert (Hm : pow2 m).
    { subst m. destruct (Z.eqb_spec (minCap q) 0); [exact pow2_8|]. destruct (rep_min _ _ HR); [lia|done]. }
    pose proof (pow2_bounds _ Hm). rewrite make_zrep by lia. cbn [mbind qres_bind]. eexists. split; [done|].
    split; [by apply Rep_zero_buf; try lia|]. cbn. rewrite zlen_zrep; lia.
  - rewrite shl1 by lia.
    destruct (resize_Rep q xs (2 * zlen xs) HR) as (q' & -> & HR' & Hl); [|lia|].
    + rewrite Hf. apply pow2_double; [apply (Rep_pow2 _ _ HR)|]; lia.
    + exists q'. split_and!; try done; lia.
Qed.
Lemma shrinkIfExcess_Rep q xs : Rep q xs -> exists q', shrinkIfExcess zero q = QOk q' /\ Rep q' xs.
Proof.
  intros HR. pose proof (rep_le _ _ HR). pose proof (zlen_nonneg xs). pose proof (Rep_cap_le _ _ HR). unfold shrinkIfExcess.
  rewrite (rep_count _ _ HR), shl2, shl1 by lia.
  destruct (Z.ltb_spec (minCap q) (zlen (buf q))), (Z.eqb_spec (4 * zlen xs) (zlen (buf q))); cbn [andb];
    try (by exists q).
  assert (0 <= minCap q) by (destruct (rep_min _ _ HR) as [->|Hm%pow2_bounds]; lia).
  destruct (resize_Rep q xs (2 * zlen xs) HR) as (q' & E & HR' & _); [|lia|by exists q'].
  destruct (Rep_pow2 _ _ HR) as (k & Hk & E); [lia|]. exists (k - 1).
  assert (k <> 0) by (intros ->; lia). replace (2 ^ k) with (2 * 2 ^ (k - 1)) in E by
    (rewrite <- Z.pow_succ_r by lia; f_equal; lia). lia.
Qed.

(** *** Pushing and popping *)
Lemma PushBack_Rep q xs x : Rep q xs -> zlen xs < maxItems ->
  exists q', PushBack zero x q = QOk q' /\ Rep q' (xs ++ [x]).
Proof.
  intros HR Hs. unfold PushBack. destruct (growIfFull_Rep q xs HR Hs) as (q1 & -> & HR1 & Hr). clear HR q.
  cbn [mbind qres_bind]. pose proof (rep_head _ _ HR1) as Hh. pose proof (rep_tail _ _ HR1) as Ht. pose proof (zlen_nonneg xs).
  assert (Htr : 0 <= tail q1 < zlen (buf q1)) by (rewrite Ht; unfold wrap; zcases).
  rewrite dset_zset by done. cbn [mbind qres_bind mret qres_ret]. eexists. split; [done|].
  rewrite (Rep_next _ _ _ HR1) by done.
  constructor; cbn; rewrite ?zlen_zset; try apply HR1; rewrite ?zlen_app, ?(rep_count _ _ HR1);
    change (zlen [x]) with 1; try lia.
  - revert Ht. unfold wrap. zcases.
  - intros j Hj. rewrite zget_zset by done. rewrite (rep_get _ _ HR1) by done. unfold cell, nth_item.
    autorewrite with zlist. revert Ht. unfold wrap. zcases; intros; zfin.
Qed.
Lemma PushFront_Rep q xs x : Rep q xs -> zlen xs < maxItems ->
  exists q', PushFront zero x q = QOk q' /\ Rep q' (x :: xs) /\ zlen xs < zlen (buf q').
Proof.
  intros HR Hs. unfold PushFront. destruct (growIfFull_Rep q xs HR Hs) as (q1 & -> & HR1 & Hr). clear HR q.
  cbn [mbind qres_bind]. pose proof (rep_head _ _ HR1) as Hh. pose proof (rep_tail _ _ HR1) as Ht. pose proof (zlen_nonneg xs).
  rewrite (Rep_prev _ _ _ HR1) by lia. set (h := if head q1 =? 0 then _ else _).
  assert (Hhr : 0 <= h < zlen (buf q1)) by (subst h; zcases).
  rewrite dset_zset by done. cbn [mbind qres_bind mret qres_ret]. eexists. split; [done|].
  split; [|cbn; rewrite zlen_zset; lia].
  constructor; cbn; rewrite ?zlen_zset; try apply HR1; rewrite ?zlen_cons, ?(rep_count _ _ HR1); try lia.
  - rewrite Ht. subst h. unfold wrap. zcases.
  - intros j Hj. rewrite zget_zset by done. rewrite (rep_get _ _ HR1) by done. unfold cell, nth_item.
    autorewrite with zlist. subst h. zcases; intros; zfin.
Qed.

Lemma take_front_Rep q x xs : Rep q (x :: xs) ->
  exists q', take_front zero q = QOk (x, q') /\ Rep q' xs /\ zlen (buf q') = zlen (buf q) /\ minCap q' = minCap q.
Proof.
  intros HR. unfold take_front. pose proof (rep_head _ _ HR) as Hh. pose proof (rep_tail _ _ HR) as Ht.
  pose proof (zlen_nonneg xs). pose proof (rep_le _ _ HR) as Hle. rewrite zlen_cons in Hle, Ht.
  rewrite (ix_zget _ _ x).
  2:{ rewrite (rep_get _ _ HR) by lia. unfold cell, nth_item. autorewrite with zlist. zcases. done. }
  cbn [mbind qres_bind]. rewrite dset_zset by lia. cbn [mbind qres_bind mret qres_ret]. eexists. split; [done|].
  rewrite (Rep_next _ _ _ HR) by lia. cbn. split_and!; [|apply zlen_zset|done].
  constructor; cbn; rewrite ?zlen_zset; try apply HR; rewrite ?(rep_count _ _ HR), ?zlen_cons; try lia.
  - unfold wrap. zcases.
  - revert Ht. unfold wrap. zcases.
  - intros j Hj. rewrite zget_zset by lia. rewrite (rep_get _ _ HR) by done. unfold cell, nth_item, wrap.
    autorewrite with zlist. zcases; intros; zfin.
Qed.
Lemma take_back_Rep q xs x : Rep q (xs ++ [x]) ->
  exists q', take_back zero q = QOk (x, q') /\ Rep q' xs /\ zlen (buf q') = zlen (buf q) /\ minCap q' = minCap q.
Proof.
  intros HR. unfold take_back. pose proof (rep_head _ _ HR) as Hh. pose proof (rep_tail _ _ HR) as Ht.
  pose proof (zlen_nonneg xs). pose proof (rep_le _ _ HR) as Hle. rewrite zlen_app in Hle, Ht. change (zlen [x]) with 1 in *.
  unfold wrap in Ht. rewrite (Rep_prev _ _ _ HR) by (revert Ht; zcases). set (t := if tail q =? 0 then _ else _).
  assert (Htr : 0 <= t < zlen (buf q)) by (subst t; revert Ht; zcases).
  rewrite (ix_zget _ _ x).
  2:{ rewrite (rep_get _ _ HR) by lia. subst t. unfold cell, nth_item. autorewrite with zlist. revert Ht. zcases; done. }
  cbn [mbind qres_bind]. rewrite dset_zset by lia. cbn [mbind qres_bind mret qres_ret]. eexists. split; [done|].
  cbn. split_and!; [|apply zlen_zset|done].
  constructor; cbn; rewrite ?zlen_zset; try apply HR; rewrite ?(rep_count _ _ HR), ?zlen_app; change (zlen [x]) with 1; try lia.
  - subst t. revert Ht. unfold wrap. zcases.
  - intros j Hj. rewrite zget_zset by lia. rewrite (rep_get _ _ HR) by done. unfold cell, nth_item.
    autorewrite with zlist. subst t. revert Ht. zcases; intros; zfin.
Qed.

Lemma count_nonempty q xs : Rep q xs -> 0 < zlen xs -> (count q <=? 0) = false.
Proof. intros HR H. rewrite (rep_count _ _ HR). apply Z.leb_gt. lia. Qed.
Lemma count_empty q : Rep q [] -> (count q <=? 0) = true.
Proof. intros HR. by rewrite (rep_count _ _ HR). Qed.

Lemma PopFront_Rep q x xs : Rep q (x :: xs) -> exists q', PopFront zero q = QOk (x, q') /\ Rep q' xs.
Proof.
  intros HR. unfold PopFront. rewrite (count_nonempty _ _ HR) by (rewrite zlen_cons; pose proof (zlen_nonneg xs); lia).
  destruct (take_front_Rep _ _ _ HR) as (q1 & -> & HR1 & _). cbn [mbind qres_bind].
  destruct (shrinkIfExcess_Rep _ _ HR1) as (q2 & -> & HR2). by exists q2.
Qed.
Lemma PopBack_Rep q xs x : Rep q (xs ++ [x]) -> exists q', PopBack zero q = QOk (x, q') /\ Rep q' xs.
Proof.
  intros HR. unfold PopBack. rewrite (count_nonempty _ _ HR).
  2:{ rewrite zlen_app. change (zlen [x]) with 1. pose proof (zlen_nonneg xs). lia. }
  destruct (take_back_Rep _ _ _ HR) as (q1 & -> & HR1 & _). cbn [mbind qres_bind].
  destruct (shrinkIfExcess_Rep _ _ HR1) as (q2 & -> & HR2). by exists q2.
Qed.

(** *** Reading and writing items *)
Lemma checkRange_in q xs i : Rep q xs -> 0 <= i < zlen xs -> checkRange i q = QOk tt.
Proof. intros HR Hi. unfold checkRange. rewrite (rep_count _ _ HR). zcases. destruct (Z.ltb_spec i 0), (Z.leb_spec (zlen xs) i); cbn; try lia. done. Qed.
Lemma checkRange_out q xs i : Rep q xs -> i < 0 \/ zlen xs <= i -> checkRange i q = QPanic.
Proof. intros HR Hi. unfold checkRange. rewrite (rep_count _ _ HR). destruct (Z.ltb_spec i 0), (Z.leb_spec (zlen xs) i); cbn; try lia; done. Qed.
Lemma Rep_cap_pos q xs i : Rep q xs -> 0 <= i < zlen xs -> 0 <= i < zlen (buf q).
Proof. intros HR Hi. pose proof (rep_le _ _ HR). lia. Qed.
Lemma Rep_pos_range q xs i : Rep q xs -> 0 <= i < zlen (buf q) -> 0 <= pos q i < zlen (buf q).
Proof. intros HR Hi. rewrite (Rep_pos _ _ _ HR) by done. pose proof (rep_head _ _ HR). unfold wrap. zcases. Qed.
Lemma ix_pos q xs i x : Rep q xs -> zget xs i = Some x -> ix (buf q) (pos q i) = QOk x.
Proof.
  intros HR Hx. pose proof (zget_range _ _ _ Hx).
  rewrite (Rep_pos _ _ _ HR) by (by apply (Rep_cap_pos _ _ _ HR)). by apply (Rep_item _ _ _ _ HR).
Qed.
Lemma At_Rep q xs i x : Rep q xs -> zget xs i = Some x -> At i q = QOk x.
Proof.
  intros HR Hx. unfold At. rewrite (checkRange_in _ _ _ HR); [by apply (ix_pos _ _ _ _ HR)|]. by apply (zget_range _ _ x).
Qed.
Lemma Front_Rep q x xs : Rep q (x :: xs) -> Front q = QOk x.
Proof.
  intros HR. pose proof (zlen_nonneg xs). unfold Front. rewrite (count_nonempty _ _ HR) by (rewrite zlen_cons; lia).
  pose proof (Rep_item _ _ 0 x HR eq_refl) as H1. pose proof (rep_head _ _ HR). pose proof (rep_le _ _ HR).
  rewrite zlen_cons in *. revert H1. unfold wrap. rewrite Z.add_0_r. zcases. done.
Qed.
Lemma Back_Rep q xs x : Rep q (xs ++ [x]) -> Back q = QOk x.
Proof.
  intros HR. pose proof (zlen_nonneg xs). unfold Back. destruct (take_back_Rep _ _ _ HR) as (q' & E & _).
  rewrite (count_nonempty _ _ HR) by (rewrite zlen_app; change (zlen [x]) with 1; lia).
  unfold take_back in E. destruct (ix (buf q) (prevPos q (tail q))) as [y| |] eqn:E1; try done. cbn [mbind qres_bind] in E.
  destruct (dset _ _ _); try done. by injection E as -> _.
Qed.
(** Writing cell [pos q i] writes item [i]. *)
Lemma dset_pos q xs i y : Rep q xs -> 0 <= i < zlen xs ->
  exists b, dset (buf q) (pos q i) y = QOk b /\ zlen b = zlen (buf q) /\ Rep (with_buf q b) (zset xs i y).
Proof.
  intros HR Hi. pose proof (Rep_cap_pos _ _ _ HR Hi) as Hc. pose proof (Rep_pos_range _ _ _ HR Hc) as Hp.
  rewrite dset_zset by done. eexists. split; [done|]. split; [apply zlen_zset|].
  constructor; cbn; rewrite ?zlen_zset; try apply HR. intros j Hj. rewrite zget_zset by done.
  rewrite (rep_get _ _ HR) by done. revert Hp. rewrite (Rep_pos _ _ _ HR) by done.
  pose proof (rep_head _ _ HR). pose proof (rep_le _ _ HR).
  unfold cell, nth_item, wrap. rewrite zlen_zset, !zget_zset by done. zcases; intros; zfin.
Qed.
Lemma SetAt_Rep q xs i y : Rep q xs -> 0 <= i < zlen xs -> exists q', SetAt i y q = QOk q' /\ Rep q' (zset xs i y).
Proof.
  intros HR Hi. unfold SetAt. rewrite (checkRange_in _ _ _ HR Hi). cbn [mbind qres_bind].
  destruct (dset_pos _ _ _ y HR Hi) as (b & -> & _ & H). by eexists.
Qed.

Definition zexch xs (i j : Z) (x y : T) : list T := zset (zset xs i y) j x.
Lemma exchange_Rep q xs i j x y : Rep q xs -> zget xs i = Some x -> zget xs j = Some y ->
  exists b, exchange (pos q i) (pos q j) q = QOk (with_buf q b) /\ zlen b = zlen (buf q) /\ Rep (with_buf q b) (zexch xs i j x y).
Proof.
  intros HR Hx Hy. unfold exchange. rewrite (ix_pos _ _ _ _ HR Hx), (ix_pos _ _ _ _ HR Hy). cbn [mbind qres_bind].
  pose proof (zget_range _ _ _ Hx) as Hi. pose proof (zget_range _ _ _ Hy) as Hj.
  destruct (dset_pos _ _ _ y HR Hi) as (b & -> & Hb & HR1). cbn [mbind qres_bind].
  destruct (dset_pos _ _ j x HR1) as (b2 & E & Hb2 & HR2); [by rewrite zlen_zset|].
  cbn in E, Hb2. unfold pos in *. cbn in E. rewrite Hb in E. rewrite E. exists b2. split; [done|]. split; [congruence|done].
Qed.
Lemma SwapAt_Rep q xs i j x y : Rep q xs -> zget xs i = Some x -> zget xs j = Some y ->
  exists q', SwapAt i j q = QOk q' /\ Rep q' (zexch xs i j x y).
Proof.
  intros HR Hx Hy. unfold SwapAt.
  pose proof (zget_range _ _ _ Hx). pose proof (zget_range _ _ _ Hy). rewrite !(checkRange_in _ _ _ HR) by done. cbn [mbind qres_bind]. destruct (Z.eqb_spec i j) as [<-|].
  - exists q. split; [done|]. assert (y = x) as -> by congruence. replace (zexch xs i i x x) with xs; [done|].
    apply zlist_eq; unfold zexch; rewrite ?zlen_zset; [done|]. intros k Hk.
    rewrite !zget_zset by (rewrite ?zlen_zset; eauto). zcases; try done. by subst.
  - destruct (exchange_Rep _ _ _ _ _ _ HR Hx Hy) as (b & -> & _ & ?). by eexists.
Qed.

(** *** Moving an item past its neighbours *)
Lemma nextPos_pos q xs i : Rep q xs -> 0 <= i -> i + 1 < zlen (buf q) -> nextPos q (pos q i) = pos q (i + 1).
Proof.
  intros HR Hi Hn. pose proof (rep_head _ _ HR). rewrite (Rep_next _ _ _ HR) by (apply (Rep_pos_range _ _ _ HR); lia).
  rewrite !(Rep_pos _ _ _ HR) by lia. unfold wrap. zcases.
Qed.
Lemma prevPos_pos q xs i : Rep q xs -> 0 < i -> i < zlen (buf q) -> prevPos q (pos q i) = pos q (i - 1).
Proof.
  intros HR Hi Hn. pose proof (rep_head _ _ HR). rewrite (Rep_prev _ _ _ HR) by (apply (Rep_pos_range _ _ _ HR); lia).
  rewrite !(Rep_pos _ _ _ HR) by lia. unfold wrap. zcases.
Qed.
Lemma zexch_adjacent a x y c : zexch (a ++ x :: y :: c) (zlen a) (zlen a + 1) x y = a ++ y :: x :: c.
Proof.
  pose proof (zlen_nonneg a). pose proof (zlen_nonneg c). unfold zexch.
  apply zlist_eq; [rewrite !zlen_zset; autorewrite with zlist; lia|]. intros i Hi.
  rewrite !zget_zset by (rewrite ?zlen_zset; autorewrite with zlist; lia). autorewrite with zlist.
  zcases; try done; zfin.
Qed.
Lemma zexch_comm xs i j x y : 0 <= i -> 0 <= j -> i <> j -> zexch xs i j x y = zexch xs j i y x.
Proof. intros. unfold zexch, zset. apply list_insert_insert_ne. lia. Qed.
Lemma zget_mid a x c : zget (a ++ x :: c) (zlen a) = Some x.
Proof. autorewrite with zlist. zcases. done. Qed.
Lemma zget_mid1 a x y c : zget (a ++ x :: y :: c) (zlen a + 1) = Some y.
Proof. autorewrite with zlist. zcases. done. Qed.

(** The cells of the ring are the same in [q] and [q']. *)
Definition same_ring q q' : Prop := head q' = head q /\ zlen (buf q') = zlen (buf q).
Lemma same_ring_pos q q' i : same_ring q q' -> pos q' i = pos q i.
Proof. intros [H1 H2]. unfold pos. by rewrite H1, H2. Qed.

Lemma bubble_next_Rep b q a x c : Rep q (a ++ x :: b ++ c) ->
  exists q', bubble (length b) nextPos (pos q (zlen a)) q = QOk q' /\ Rep q' (a ++ b ++ x :: c) /\ same_ring q q'.
Proof.
  revert q a. induction b as [|y b IH]; intros q a HR; cbn [length bubble app].
  { by exists q. }
  pose proof (rep_le _ _ HR) as Hle. cbn [app] in Hle. autorewrite with zlist in Hle.
  pose proof (zlen_nonneg a). pose proof (zlen_nonneg b). pose proof (zlen_nonneg c).
  rewrite (nextPos_pos _ _ _ HR) by lia.
  destruct (exchange_Rep _ _ _ _ _ _ HR (zget_mid _ _ _) (zget_mid1 _ _ _ _)) as (b1 & -> & Hb & HR1).
  cbn [mbind qres_bind app] in *. rewrite zexch_adjacent in HR1.
  destruct (IH (with_buf q b1) (a ++ [y])) as (q' & E & HR' & Hs); [by rewrite <- app_assoc|].
  exists q'. rewrite zlen_app in E. change (zlen [y]) with 1 in E. unfold pos in *. cbn in E. rewrite Hb in E. split; [done|].
  rewrite <- app_assoc in HR'. split; [done|]. destruct Hs as [H1' H2']. cbn in *. split; congruence.
Qed.
Lemma bubble_prev_Rep b q a x c : Rep q (a ++ b ++ x :: c) ->
  exists q', bubble (length b) prevPos (pos q (zlen a + zlen b)) q = QOk q' /\ Rep q' (a ++ x :: b ++ c) /\ same_ring q q'.
Proof.
  revert q c. induction b as [|y b IH] using rev_ind; intros q c HR; cbn [length bubble app].
  { by exists q. }
  rewrite <- app_assoc in HR. cbn [app] in HR. rewrite app_assoc in HR.
  pose proof (rep_le _ _ HR) as Hle. autorewrite with zlist in Hle.
  pose proof (zlen_nonneg a). pose proof (zlen_nonneg b). pose proof (zlen_nonneg c).
  rewrite length_app, Nat.add_comm, zlen_app. cbn [length plus bubble]. change (zlen [y]) with 1.
  rewrite (prevPos_pos _ _ _ HR) by lia.
  pose proof (exchange_Rep _ _ _ _ _ _ HR (zget_mid1 (a ++ b) y x c) (zget_mid (a ++ b) y (x :: c))) as (b1 & E1 & Hb & HR1).
  rewrite zlen_app in E1. replace (zlen a + (zlen b + 1)) with (zlen a + zlen b + 1) by lia.
  replace (zlen a + zlen b + 1 - 1) with (zlen a + zlen b) by lia. rewrite E1. cbn [mbind qres_bind].
  assert (E2 : zexch ((a ++ b) ++ y :: x :: c) (zlen (a ++ b) + 1) (zlen (a ++ b)) x y = (a ++ b) ++ x :: y :: c).
  { rewrite zexch_comm by (pose proof (zlen_nonneg (a ++ b)); lia). apply zexch_adjacent. }
  rewrite E2 in HR1. rewrite <- app_assoc in HR1.
  destruct (IH (with_buf q b1) (y :: c) HR1) as (q' & E & HR' & Hs).
  exists q'. unfold pos in *. cbn in E. rewrite Hb in E. split; [done|].
  rewrite <- app_assoc. split; [done|]. destruct Hs as [H1' H2']. cbn in *. split; congruence.
Qed.

Lemma split_at_item xs i : 0 <= i < zlen xs -> exists a x c, xs = a ++ x :: c /\ zlen a = i.
Proof.
  intros Hi. destruct (zget_is_Some _ _ Hi) as [x Hx]. unfold zget in Hx. destruct (Z.leb_spec 0 i); [|done].
  exists (take (Z.to_nat i) xs), x, (drop (S (Z.to_nat i)) xs). split; [by rewrite take_drop_middle|].
  unfold zlen in *. rewrite length_take. lia.
Qed.
Lemma ztake_app_zlen a (c : list T) : ztake (zlen a) (a ++ c) = a.
Proof. unfold ztake, zlen. rewrite Nat2Z.id. apply take_app_length. Qed.
Lemma zdrop_app_zlen a (c : list T) : zdrop (zlen a) (a ++ c) = c.
Proof. unfold zdrop, zlen. rewrite Nat2Z.id. apply drop_app_length. Qed.
Lemma zlen_split (a : list T) i : zlen a = i -> Z.to_nat i = length a.
Proof. unfold zlen. lia. Qed.

(** [list_insert xs i x]: [x] before item [i], at an end when there is no such item. *)
Definition list_insert xs (i : Z) (x : T) : list T := ztake i xs ++ x :: zdrop i xs.

Lemma InsertAt_Rep q xs i x : Rep q xs -> zlen xs < maxItems ->
  exists q', InsertAt zero i x q = QOk q' /\ Rep q' (list_insert xs i x).
Proof.
  intros HR Hs. unfold InsertAt, list_insert. unfold Len. rewrite (rep_count _ _ HR). pose proof (zlen_nonneg xs).
  destruct (Z.leb_spec i 0).
  { destruct (PushFront_Rep _ _ x HR Hs) as (q' & -> & H' & _). exists q'. split; [done|].
    unfold ztake, zdrop. replace (Z.to_nat i) with O by lia. done. }
  destruct (Z.leb_spec (zlen xs) i).
  { destruct (PushBack_Rep _ _ x HR Hs) as (q' & -> & H'). exists q'. split; [done|]. by rewrite ztake_all, zdrop_all by lia. }
  destruct (split_at_item xs i ltac:(lia)) as (a & y & c & -> & <-). rewrite ztake_app_zlen, zdrop_app_zlen.
  destruct (Z.ltb_spec (zlen a * 2) (zlen (a ++ y :: c))).
  - destruct (PushFront_Rep _ _ x HR Hs) as (q1 & -> & HR1 & Hlt). cbn [mbind qres_bind].
    destruct (bubble_next_Rep a q1 [] x (y :: c) HR1) as (q' & E & HR' & _).
    rewrite (zlen_split a _ eq_refl). exists q'. split; [|done]. rewrite <- E. f_equal.
    rewrite (Rep_pos _ _ _ HR1) by (change (zlen (@nil T)) with 0; lia). change (zlen (@nil T)) with 0; rewrite Z.add_0_r.
    pose proof (rep_head _ _ HR1). unfold wrap. zcases.
  - destruct (PushBack_Rep _ _ x HR Hs) as (q1 & -> & HR1). cbn [mbind qres_bind].
    rewrite <- app_assoc in HR1.
    destruct (bubble_prev_Rep (y :: c) q1 a x [] HR1) as (q' & E & HR' & _). rewrite app_nil_r in HR'.
    exists q'. split; [|done]. rewrite <- E.
    replace (Z.to_nat (zlen (a ++ y :: c) - zlen a)) with (length (y :: c)) by (rewrite zlen_app; unfold zlen; lia).
    f_equal. pose proof (rep_head _ _ HR1) as Hh. pose proof (rep_le _ _ HR1) as Hle. pose proof (rep_tail _ _ HR1) as Ht.
    pose proof (zlen_nonneg a). pose proof (zlen_nonneg c). rewrite zlen_app, zlen_cons in H1.
    rewrite !zlen_app, !zlen_cons in Hle, Ht. change (zlen (@nil T)) with 0 in *.
    rewrite (Rep_prev _ _ _ HR1) by (rewrite Ht; unfold wrap; zcases).
    rewrite zlen_cons, (Rep_pos _ _ _ HR1) by lia. rewrite Ht. unfold wrap. zcases.
Qed.

(** [list_remove xs i]: without item [i]. *)
Definition list_remove xs (i : Z) : list T := ztake i xs ++ zdrop (i + 1) xs.

Lemma RemoveAt_Rep q xs i x : Rep q xs -> zget xs i = Some x ->
  exists q', RemoveAt zero i q = QOk (x, q') /\ Rep q' (list_remove xs i).
Proof.
  intros HR Hx. unfold RemoveAt, list_remove. pose proof (zget_range _ _ _ Hx) as Hi.
  rewrite (checkRange_in _ _ _ HR Hi). cbn [mbind qres_bind]. rewrite (rep_count _ _ HR).
  destruct (split_at_item xs i Hi) as (a & y & c & -> & <-). rewrite zget_mid in Hx. injection Hx as ->.
  rewrite ztake_app_zlen. replace (zdrop (zlen a + 1) (a ++ x :: c)) with c.
  2:{ change (x :: c) with ([x] ++ c). rewrite app_assoc, <- (zdrop_app_zlen (a ++ [x]) c) at 1. by rewrite zlen_app. }
  destruct (Z.ltb_spec (zlen a * 2) (zlen (a ++ x :: c))).
  - destruct (bubble_prev_Rep a q [] x c HR) as (q1 & E & HR1 & _). rewrite zlen_nil, Z.add_0_l in E.
    rewrite (zlen_split a _ eq_refl), E. cbn [mbind qres_bind]. apply (PopFront_Rep _ _ _ HR1).
  - replace (Z.to_nat (zlen (a ++ x :: c) - zlen a - 1)) with (length c) by (rewrite zlen_app, zlen_cons; unfold zlen; lia).
    rewrite <- (app_nil_r c) in HR. destruct (bubble_next_Rep c q a x [] HR) as (q1 & -> & HR1 & _). cbn [mbind qres_bind].
    rewrite app_assoc in HR1. apply (PopBack_Rep _ _ _ HR1).
Qed.

(** *** Rotation *)
(** [list_rotate n xs]: [xs] from item [n] on, then what was before; [n] counts round. *)
Definition list_rotate (n : Z) xs : list T := zdrop (n mod zlen xs) xs ++ ztake (n mod zlen xs) xs.

Lemma mask_any (c x : Z) : pow2 c -> - c <= x < 2 * c -> Z.land x (c - 1) = if x <? 0 then x + c else wrap c x.
Proof.
  intros Hp Hx. destruct (Z.ltb_spec x 0); [apply mask_neg|apply mask_wrap]; done || lia.
Qed.
Lemma rotate_front1_Rep q x xs : Rep q (x :: xs) -> zlen (x :: xs) < zlen (buf q) ->
  exists q', rotate_front1 zero q = QOk q' /\ Rep q' (xs ++ [x]) /\ zlen (buf q') = zlen (buf q).
Proof.
  intros HR Hlt. pose proof (rep_head _ _ HR) as Hh. pose proof (rep_tail _ _ HR) as Ht. pose proof (zlen_nonneg xs).
  rewrite zlen_cons in Ht, Hlt. pose proof (Rep_pow2 _ _ HR ltac:(lia)) as Hp. unfold rotate_front1.
  rewrite (ix_zget _ _ x).
  2:{ rewrite (rep_get _ _ HR) by lia. unfold cell, nth_item. autorewrite with zlist. zcases. done. }
  cbn [mbind qres_bind]. assert (Htr : 0 <= tail q < zlen (buf q)) by (rewrite Ht; unfold wrap; zcases).
  rewrite dset_zset by lia. cbn [mbind qres_bind]. rewrite dset_zset by (rewrite zlen_zset; lia).
  cbn [mbind qres_bind mret qres_ret]. eexists. split; [done|]. rewrite !mask_wrap by (done || lia).
  cbn [buf]. rewrite !zlen_zset. split; [|done].
  constructor; cbn; rewrite ?zlen_zset; try apply HR; rewrite ?(rep_count _ _ HR), ?zlen_app, ?zlen_cons;
    change (zlen (@nil T)) with 0; try lia.
  - unfold wrap. zcases.
  - revert Ht. unfold wrap. zcases.
  - intros j Hj. rewrite !zget_zset by (rewrite ?zlen_zset; lia). rewrite (rep_get _ _ HR) by done.
    revert Ht. unfold cell, nth_item, wrap. autorewrite with zlist. zcases; intros; zfin.
Qed.
Lemma rotate_back1_Rep q x xs : Rep q (xs ++ [x]) -> zlen (xs ++ [x]) < zlen (buf q) ->
  exists q', rotate_back1 zero q = QOk q' /\ Rep q' (x :: xs) /\ zlen (buf q') = zlen (buf q).
Proof.
  intros HR Hlt. pose proof (rep_head _ _ HR) as Hh. pose proof (rep_tail _ _ HR) as Ht. pose proof (zlen_nonneg xs).
  rewrite zlen_app in Ht, Hlt. change (zlen [x]) with 1 in *. pose proof (Rep_pow2 _ _ HR ltac:(lia)) as Hp. unfold rotate_back1.
  assert (Htr : 0 <= tail q < zlen (buf q)) by (rewrite Ht; unfold wrap; zcases).
  rewrite !mask_any by (done || lia). set (t := if tail q - 1 <? 0 then _ else _). set (h := if head q - 1 <? 0 then _ else _).
  assert (Ht1 : 0 <= t < zlen (buf q)) by (subst t; unfold wrap; zcases).
  assert (Hh1 : 0 <= h < zlen (buf q)) by (subst h; unfold wrap; zcases).
  rewrite (ix_zget _ _ x).
  2:{ rewrite (rep_get _ _ HR) by lia. revert Ht. subst t. unfold cell, nth_item, wrap. autorewrite with zlist. zcases; done. }
  cbn [mbind qres_bind]. rewrite dset_zset by lia. cbn [mbind qres_bind]. rewrite dset_zset by (rewrite zlen_zset; lia).
  cbn [mbind qres_bind mret qres_ret]. eexists. split; [done|].
  cbn [buf]. rewrite !zlen_zset. split; [|done].
  constructor; cbn; rewrite ?zlen_zset; try apply HR; rewrite ?(rep_count _ _ HR), ?zlen_app, ?zlen_cons;
    change (zlen (@nil T)) with 0; try lia.
  - revert Ht. subst t h. unfold wrap. zcases.
  - intros j Hj. rewrite !zget_zset by (rewrite ?zlen_zset; lia). rewrite (rep_get _ _ HR) by done.
    revert Ht. subst t h. unfold cell, nth_item, wrap. autorewrite with zlist. zcases; intros; zfin.
Qed.

Lemma times_front_Rep a q c : Rep q (a ++ c) -> zlen (a ++ c) < zlen (buf q) ->
  exists q', times (length a) (rotate_front1 zero) q = QOk q' /\ Rep q' (c ++ a).
Proof.
  revert q c. induction a as [|x a IH]; intros q c HR Hlt; cbn [length times].
  { exists q. by rewrite app_nil_r. }
  destruct (rotate_front1_Rep _ _ _ HR Hlt) as (q1 & -> & HR1 & Hl). cbn [mbind qres_bind].
  rewrite <- app_assoc in HR1. destruct (IH _ _ HR1) as (q' & E & HR').
  { rewrite Hl, !zlen_app. cbn [app] in Hlt. rewrite zlen_cons, zlen_app in Hlt. change (zlen [x]) with 1. lia. }
  exists q'. split; [done|]. by rewrite <- app_assoc in HR'.
Qed.
Lemma times_back_Rep c q a : Rep q (a ++ c) -> zlen (a ++ c) < zlen (buf q) ->
  exists q', times (length c) (rotate_back1 zero) q = QOk q' /\ Rep q' (c ++ a).
Proof.
  revert q a. induction c as [|x c IH] using rev_ind; intros q a HR Hlt.
  { exists q. by rewrite app_nil_r in HR. }
  rewrite app_assoc in HR, Hlt. rewrite length_app, Nat.add_comm. cbn [length plus times].
  destruct (rotate_back1_Rep _ _ _ HR Hlt) as (q1 & -> & HR1 & Hl). cbn [mbind qres_bind].
  destruct (IH q1 (x :: a) HR1) as (q' & E & HR').
  { rewrite Hl. rewrite !zlen_app in Hlt. cbn [app]. rewrite zlen_cons, zlen_app. change (zlen [x]) with 1 in Hlt. lia. }
  exists q'. split; [done|]. by rewrite <- app_assoc.
Qed.

Lemma Rotate_full_Rep q xs n h : Rep q xs -> zlen xs = zlen (buf q) -> head q = tail q -> 0 < zlen xs ->
  - zlen xs < n < zlen xs -> h = Z.land (head q + n) (zlen (buf q) - 1) ->
  Rep (mkDeque (buf q) h h (count q) (minCap q)) (list_rotate n xs).
Proof.
  intros HR Hf Hht Hpos Hn ->. pose proof (rep_head _ _ HR) as Hh. pose proof (Rep_pow2 _ _ HR ltac:(lia)) as Hp.
  rewrite mask_any by (done || lia).
  assert (Hm : n mod zlen xs = if n <? 0 then n + zlen xs else n).
  { destruct (Z.ltb_spec n 0); symmetry; [apply (Z.mod_unique _ _ (-1))|apply (Z.mod_unique _ _ 0)]; lia. }
  assert (Hl : zlen (list_rotate n xs) = zlen xs).
  { unfold list_rotate. rewrite zlen_app, zlen_zdrop, zlen_ztake; rewrite Hm; zcases. }
  constructor; cbn; rewrite ?Hl; try apply HR; try lia.
  - unfold wrap. zcases.
  - unfold wrap. zcases.
  - intros j Hj. rewrite (rep_get _ _ HR) by done. unfold cell. rewrite Hl. unfold list_rotate.
    rewrite zget_app, zlen_zdrop, zget_zdrop, zget_ztake by (rewrite Hm; zcases). rewrite Hm.
    unfold nth_item, wrap. zcases; intros; zfin.
Qed.
Lemma Rotate_Rep q xs n : Rep q xs -> exists q', Rotate zero n q = QOk q' /\ Rep q' (list_rotate n xs).
Proof.
  intros HR. unfold Rotate, Len. rewrite (rep_count _ _ HR). pose proof (zlen_nonneg xs).
  assert (Hid : n mod zlen xs = 0 -> list_rotate n xs = xs).
  { intros E. unfold list_rotate. rewrite E. unfold ztake, zdrop. cbn. by rewrite app_nil_r. }
  destruct (Z.leb_spec (zlen xs) 1) as [Hle|Hgt].
  { exists q. split; [done|]. destruct (Z.eq_dec (zlen xs) 1) as [E1|].
    - rewrite Hid; [done|]. rewrite E1. apply Z.mod_1_r.
    - replace xs with (@nil T) in * by (symmetry; apply zlen_zero_nil; lia). unfold list_rotate, ztake, zdrop.
      by rewrite take_nil, drop_nil. }
  set (r := Z.rem n (zlen xs)). assert (Hr : - zlen xs < r < zlen xs).
  { subst r. pose proof (Z.rem_bound_abs n (zlen xs)). lia. }
  assert (Hnr : n mod zlen xs = r mod zlen xs).
  { subst r. rewrite (Z.quot_rem' n (zlen xs)) at 1. rewrite Z.add_comm, Z.mul_comm, Z_mod_plus_full. done. }
  assert (El : list_rotate n xs = list_rotate r xs) by (unfold list_rotate; by rewrite Hnr).
  destruct (Z.eqb_spec r 0) as [E|Hr0].
  { exists q. split; [done|]. rewrite Hid; [done|]. rewrite Hnr, E. apply Z.mod_0_l. lia. }
  pose proof (rep_head _ _ HR) as Hh. pose proof (rep_tail _ _ HR) as Ht. pose proof (rep_le _ _ HR).
  destruct (Z.eqb_spec (head q) (tail q)) as [Eht|Hne].
  { eexists. split; [done|]. rewrite El. rewrite <- (rep_count _ _ HR). apply Rotate_full_Rep; try done; [|lia].
    revert Ht. unfold wrap. zcases. }
  assert (Hlt : zlen xs < zlen (buf q)) by (revert Ht; unfold wrap; zcases). clear El Hid.
  assert (Hm : n mod zlen xs = if r <? 0 then r + zlen xs else r).
  { rewrite Hnr. destruct (Z.ltb_spec r 0); symmetry; [apply (Z.mod_unique _ _ (-1))|apply (Z.mod_unique _ _ 0)]; lia. }
  unfold list_rotate. rewrite Hm. clear Hm Hnr. destruct (Z.ltb_spec r 0);
  match goal with |- context [zdrop ?k xs] =>
    rewrite <- (ztake_zdrop k xs) in HR, Hlt;
    assert (Hk : zlen (ztake k xs) = k) by (rewrite zlen_ztake by lia; lia);
    assert (Hd : zlen (zdrop k xs) = zlen xs - k) by (rewrite zlen_zdrop by lia; lia) end.
  - rewrite (zlen_split (zdrop (r + zlen xs) xs)) by lia. by apply times_back_Rep.
  - rewrite (zlen_split (ztake r xs)) by lia. by apply times_front_Rep.
Qed.
End Rep.
