(* ===== verification/DequeRefine.v ===== *)
(** * Every method of the queue refines its list operation

    The remaining methods (searching, clearing, growing, copying, iterating), the
    operations as data ([deque_op]) with their meaning on lists ([list_op]), and the
    refinement.  The cases it leaves out are those where the code goes wrong; they
    are the examples at the end. *)
From S2P Require Import Prelude ZList Deque DequeProps.
Import Deque.
Open Scope list_scope.
Open Scope Z_scope.

Section Refine.
Context {T : Type} (zero : T).
Abbreviation Deque := (Deque T).
Abbreviation Rep := (Rep zero).
Abbreviation cell := (cell zero).
Implicit Types (q : Deque) (xs l b : list T) (x : T).

(** *** Searching *)
Fixpoint find_from (f : T -> bool) (i : Z) xs : Z :=
  match xs with [] => -1 | x :: xs => if f x then i else find_from f (i + 1) xs end.
(** The index of the first item that satisfies [f], and of the last. *)
Definition list_index (f : T -> bool) xs : Z := find_from f 0 xs.
Fixpoint find_last (f : T -> bool) xs : Z :=
  match xs with [] => -1 | x :: xs => let r := find_last f xs in if 0 <=? r then r + 1 else if f x then 0 else -1 end.

Lemma find_last_range f xs : -1 <= find_last f xs < zlen xs.
Proof.
  induction xs as [|x xs IH]; cbn; [done|]. rewrite zlen_cons. pose proof (zlen_nonneg xs).
  destruct (Z.leb_spec 0 (find_last f xs)); [lia|]. destruct (f x); lia.
Qed.
Lemma find_last_app f xs x : find_last f (xs ++ [x]) = if f x then zlen xs else find_last f xs.
Proof.
  induction xs as [|y xs IH]; cbn; [by destruct (f x)|]. rewrite IH, zlen_cons. pose proof (zlen_nonneg xs).
  destruct (f x); [|done]. destruct (Z.leb_spec 0 (zlen xs)); lia.
Qed.

Lemma index_loop_Rep f q a c : Rep q (a ++ c) -> index_loop (length c) f (zlen a) q = QOk (find_from f (zlen a) c).
Proof.
  revert a. induction c as [|x c IH]; intros a HR; [done|]. cbn [length index_loop find_from].
  rewrite (ix_pos _ _ _ _ _ HR (zget_mid _ _ _)). cbn [mbind qres_bind]. destruct (f x); [done|].
  specialize (IH (a ++ [x])). rewrite <- app_assoc, zlen_app in IH. by apply IH.
Qed.
Lemma Index_Rep f q xs : Rep q xs -> Index f q = QOk (list_index f xs).
Proof.
  intros HR. unfold Index, Len. rewrite (rep_count _ _ _ HR). destruct (Z.ltb_spec 0 (zlen xs)).
  - rewrite (zlen_split xs _ eq_refl). apply (index_loop_Rep f q [] xs HR).
  - replace xs with (@nil T); [done|]. symmetry. apply zlen_zero_nil. pose proof (zlen_nonneg xs). lia.
Qed.
Lemma rindex_loop_Rep f q a c : Rep q (a ++ c) -> rindex_loop (length a) f q = QOk (find_last f a).
Proof.
  revert c. induction a as [|x a IH] using rev_ind; intros c HR; [done|].
  rewrite <- app_assoc in HR. cbn [app] in HR. rewrite length_app, Nat.add_comm. cbn [length plus rindex_loop].
  change (Z.of_nat (length a)) with (zlen a).
  rewrite (ix_pos _ _ _ _ _ HR (zget_mid _ _ _)). cbn [mbind qres_bind]. rewrite find_last_app.
  destruct (f x); [done|]. by apply (IH (x :: c)).
Qed.
Lemma RIndex_Rep f q xs : Rep q xs -> RIndex f q = QOk (find_last f xs).
Proof.
  intros HR. unfold RIndex, Len. rewrite (rep_count _ _ _ HR). destruct (Z.ltb_spec 0 (zlen xs)).
  - rewrite (zlen_split xs _ eq_refl). apply (rindex_loop_Rep f q xs []). by rewrite app_nil_r.
  - replace xs with (@nil T); [done|]. symmetry. apply zlen_zero_nil. pose proof (zlen_nonneg xs). lia.
Qed.

(** *** Clearing *)
Lemma clearSlice_ok b a c : 0 <= a <= c -> c <= zlen b ->
  exists b', clearSlice zero b a c = QOk b' /\ zlen b' = zlen b /\
    forall i, 0 <= i < zlen b -> zget b' i = if (a <=? i) && (i <? c) then Some zero else zget b i.
Proof.
  intros H1 H2. unfold clearSlice. rewrite subslice_ok by done. cbn [mbind qres_bind mret qres_ret].
  eexists. split; [done|]. autorewrite with zlist. split; [lia|]. intros i Hi.
  rewrite zget_app, zlen_ztake by lia. rewrite zget_app, zlen_map. autorewrite with zlist.
  destruct (Z.leb_spec a i), (Z.ltb_spec i c); cbn [andb]; zcases; zfin.
  destruct (zget_is_Some b (a + (i - a `min` zlen b))) as [y ->]; [lia|]. done.
Qed.
Lemma ClearAll_Rep q xs : Rep q xs -> exists q', ClearAll zero q = QOk q' /\ Rep q' [] /\ zlen (buf q') = zlen (buf q) /\ minCap q' = minCap q.
Proof.
  intros HR. unfold ClearAll, Len. rewrite (rep_count _ _ _ HR). pose proof (zlen_nonneg xs).
  destruct (Z.eqb_spec (zlen xs) 0) as [E|]; [exists q; apply zlen_zero_nil in E as ->; done|].
  pose proof (rep_head _ _ _ HR) as Hh. pose proof (rep_tail _ _ _ HR) as Ht. pose proof (rep_le _ _ _ HR).
  assert (Hz : forall b, zlen b = zlen (buf q) -> (forall i, 0 <= i < zlen b -> zget b i = Some zero) -> Rep (mkDeque b 0 0 0 (minCap q)) []).
  { intros b Hb Hg. apply (Rep_linear zero b []); [rewrite Hb; apply (Rep_pow2 _ _ _ HR); lia|apply HR|..].
    - change (zlen (@nil T)) with 0. lia.
    - intros i Hi. rewrite cell_out; [by apply Hg|]. change (zlen (@nil T)) with 0. lia. }
  assert (Htr : 0 <= tail q < zlen (buf q)) by (revert Ht; unfold wrap; zcases).
  destruct (Z.leb_spec (tail q) (head q)).
  - destruct (clearSlice_ok (buf q) (head q) (zlen (buf q))) as (b1 & -> & Hl1 & Hg1); [lia..|]. cbn [mbind qres_bind mret qres_ret].
    destruct (clearSlice_ok b1 0 (tail q)) as (b2 & -> & Hl2 & Hg2); [lia..|]. cbn [mbind qres_bind mret qres_ret].
    eexists. split; [done|]. cbn. split_and!; [|lia|done]. apply Hz; [lia|]. intros i Hi. rewrite Hg2, Hg1 by lia.
    rewrite (rep_get _ _ _ HR) by lia. revert Ht. unfold DequeProps.cell, nth_item, wrap. zcases; done.
  - cbn [mbind qres_bind mret qres_ret].
    destruct (clearSlice_ok (buf q) (head q) (tail q)) as (b2 & -> & Hl2 & Hg2); [lia..|]. cbn [mbind qres_bind mret qres_ret].
    eexists. split; [done|]. cbn. split_and!; [|lia|done]. apply Hz; [lia|]. intros i Hi. rewrite Hg2 by lia.
    rewrite (rep_get _ _ _ HR) by lia. revert Ht. unfold DequeProps.cell, nth_item, wrap. zcases; done.
Qed.

(** *** Growing and the base capacity *)
Lemma SetBaseCap_Rep q xs n : Rep q xs -> n <= 2 ^ 60 ->
  exists q', SetBaseCap n q = QOk q' /\ Rep q' xs /\ n <= minCap q' /\ buf q' = buf q.
Proof.
  intros HR Hn. unfold SetBaseCap. destruct (shl_loop_ok minCapacity n pow2_8 Hn) as (c & -> & Hp & Hc & _).
  cbn [mbind qres_bind mret qres_ret]. eexists. split; [done|]. split_and!; [|done..].
  constructor; cbn; try apply HR. by right.
Qed.

(** The capacity [Grow] and [CopyInSlice] go to for [n] items. *)
Definition new_cap q (n : Z) : Z :=
  if zlen (buf q) <? n then
    match shl_loop (if zlen (buf q) =? 0 then minCapacity else zlen (buf q)) n with QOk c => c | _ => 0 end
  else zlen (buf q).
Lemma start_cap q xs : Rep q xs -> pow2 (if zlen (buf q) =? 0 then minCapacity else zlen (buf q)).
Proof.
  intros HR. destruct (Z.eqb_spec (zlen (buf q)) 0); [exact pow2_8|]. apply (Rep_pow2 _ _ _ HR).
  pose proof (zlen_nonneg (buf q)). lia.
Qed.

Lemma GrowCap_Rep q xs n : Rep q xs -> 0 <= n -> zlen xs + n <= 2 ^ 60 ->
  exists q', GrowCap zero n q = QOk q' /\ Rep q' xs /\ zlen xs + n <= zlen (buf q') /\ zlen (buf q') = new_cap q (zlen xs + n).
Proof.
  intros HR Hn Hs. unfold GrowCap, Cap, Len, new_cap. rewrite (rep_count _ _ _ HR).
  destruct (Z.ltb_spec n 0); [lia|]. pose proof (zlen_nonneg xs).
  destruct (Z.leb_spec n (zlen (buf q) - zlen xs)), (Z.ltb_spec (zlen (buf q)) (zlen xs + n)); try lia.
  { exists q. split_and!; try done; lia. }
  rewrite i64_small by lia.
  destruct (shl_loop_ok _ (zlen xs + n) (start_cap _ _ HR) Hs) as (c & -> & Hp & Hc & _). cbn [mbind qres_bind].
  destruct (Z.eqb_spec (zlen xs) 0) as [Hz|].
  - rewrite make_zrep by lia. cbn [mbind qres_bind mret qres_ret]. eexists. split; [done|]. apply zlen_zero_nil in Hz as ->.
    cbn. rewrite zlen_zrep by lia. split_and!; [|lia|done].
    apply (Rep_linear zero (zrep c zero) []); rewrite ?zlen_zrep by lia; try done; try apply HR.
    + pose proof (zlen_nonneg (buf q)). change (zlen (@nil T)) with 0 in *. lia.
    + intros i Hi. rewrite cell_out by (change (zlen (@nil T)) with 0; lia). autorewrite with zlist. zcases. done.
  - pose proof (rep_le _ _ _ HR). destruct (resize_Rep _ _ _ c HR Hp) as (q' & -> & HR' & Hl); [lia|]. exists q'. split_and!; try done; lia.
Qed.

(** *** Copying out *)
Lemma AppendToSlice_Rep q xs l : Rep q xs -> AppendToSlice l q = QOk (l ++ xs).
Proof.
  intros HR. unfold AppendToSlice. rewrite (rep_count _ _ _ HR). pose proof (zlen_nonneg xs).
  destruct (Z.eqb_spec (zlen xs) 0) as [E|]; [apply zlen_zero_nil in E as ->; by rewrite app_nil_r|].
  pose proof (rep_head _ _ _ HR) as Hh. pose proof (rep_tail _ _ _ HR) as Ht. pose proof (rep_le _ _ _ HR).
  assert (Htr : 0 <= tail q < zlen (buf q)) by (revert Ht; unfold wrap; zcases).
  destruct (Z.leb_spec (tail q) (head q)).
  - rewrite (subslice_ok _ (head q)) by lia. cbn [mbind qres_bind mret qres_ret]. rewrite subslice_ok by lia.
    cbn [mbind qres_bind mret qres_ret]. rewrite <- app_assoc. do 2 f_equal.
    revert Ht. unfold wrap. destruct (Z.ltb_spec (head q + zlen xs) (zlen (buf q))); intros; [lia|].
    apply zlist_eq; [autorewrite with zlist; lia|]. intros i. autorewrite with zlist. intros Hi.
    zcases; rewrite (rep_get _ _ _ HR) by lia; unfold DequeProps.cell, nth_item; zcases; zfin.
  - cbn [mbind qres_bind mret qres_ret]. rewrite subslice_ok by lia. cbn [mbind qres_bind mret qres_ret]. do 2 f_equal.
    revert Ht. unfold wrap. destruct (Z.ltb_spec (head q + zlen xs) (zlen (buf q))); intros; [|lia].
    apply zlist_eq; [autorewrite with zlist; lia|]. intros i. autorewrite with zlist. intros Hi.
    zcases; rewrite (rep_get _ _ _ HR) by lia; unfold DequeProps.cell, nth_item; zcases; zfin.
Qed.

(** [l] with its first items overwritten by those of [xs], and how many they are. *)
Definition list_copy l xs : list T * Z := (copy l xs, copied l xs).

Lemma copy_zero l xs : copied l xs = 0 -> copy l xs = l.
Proof. intros E. unfold copy. by rewrite E. Qed.

Lemma CopyOutSlice_Rep q xs l : Rep q xs -> CopyOutSlice l q = QOk (list_copy l xs).
Proof.
  intros HR. unfold CopyOutSlice, list_copy. rewrite (rep_count _ _ _ HR). pose proof (zlen_nonneg xs). pose proof (zlen_nonneg l).
  destruct (Z.eqb_spec (zlen xs) 0) as [E|].
  { assert (E0 : copied l xs = 0) by (unfold copied; lia). by rewrite (copy_zero _ _ E0), E0. }
  destruct (Z.eqb_spec (zlen l) 0) as [E|]; cbn [orb].
  { assert (E0 : copied l xs = 0) by (unfold copied; lia). by rewrite (copy_zero _ _ E0), E0. }
  pose proof (rep_head _ _ _ HR) as Hh. pose proof (rep_tail _ _ _ HR) as Ht. pose proof (rep_le _ _ _ HR).
  assert (Htr : 0 <= tail q < zlen (buf q)) by (revert Ht; unfold wrap; zcases).
  pose proof (AppendToSlice_Rep q xs [] HR) as E. unfold AppendToSlice in E. rewrite (rep_count _ _ _ HR) in E.
  destruct (Z.eqb_spec (zlen xs) 0) as [|_]; [lia|]. cbn [app] in E. destruct (Z.leb_spec (tail q) (head q)).
  - rewrite (subslice_ok _ (head q)) by lia. rewrite (subslice_ok _ (head q)) in E by lia. cbn [mbind qres_bind mret qres_ret] in *.
    rewrite (subslice_ok _ 0) in E by lia. cbn [mbind qres_bind mret qres_ret] in E.
    rewrite (subslice_ok _ 0) by lia. cbn [mbind qres_bind mret qres_ret].
    set (p1 := ztake (zlen (buf q) - head q) (zdrop (head q) (buf q))) in *. set (p2 := ztake (tail q - 0) (zdrop 0 (buf q))) in *.
    injection E as <-. pose proof (zlen_nonneg p1). pose proof (zlen_nonneg p2).
    assert (Hc : copy l (p1 ++ p2) = copy2 l p1 p2).
    { apply zlist_eq; [by rewrite zlen_copy, zlen_copy2|]. intros i Hi. rewrite zlen_copy in Hi. rewrite zget_copy, zget_copy2 by done.
      unfold copied. rewrite zget_app, zlen_app. zcases; done. }
    rewrite Hc. unfold copied at 2. rewrite zlen_zdrop, zlen_copy by (unfold copied; lia).
    destruct (Z.eqb_spec (Z.max 0 (zlen l - copied l p1)) 0) as [E0|].
    + f_equal. f_equal; [|unfold copied in *; rewrite zlen_app; lia]. unfold copy2. f_equal.
      symmetry. apply copy_zero. unfold copied. rewrite zlen_zdrop, zlen_copy by lia. unfold copied in E0. lia.
    + f_equal. f_equal. unfold copied in *. rewrite zlen_zdrop, zlen_copy, zlen_app by lia. lia.
  - rewrite subslice_ok by lia. cbn [mbind qres_bind mret qres_ret] in *. rewrite subslice_ok in E by lia.
    cbn [mbind qres_bind mret qres_ret] in *. by injection E as ->.
Qed.

(** *** Copying in *)
(** Copying [n] items in leaves room, so that the new tail is a position of the buffer. *)
Definition fits q (n : Z) : bool := (n =? 0) || (n <? new_cap q n).

Lemma copy_in_Rep b xs m : (zlen b = 0 \/ pow2 (zlen b)) -> (m = 0 \/ pow2 m) -> zlen xs = 0 \/ zlen xs < zlen b ->
  (forall i, 0 <= i < zlen b -> zget b i = Some zero) ->
  Rep (mkDeque (copy b xs) 0 (zlen xs) (zlen xs) m) xs.
Proof.
  intros Hb Hm Hx Hz. pose proof (zlen_nonneg xs). destruct Hb as [Hb|Hp].
  - apply zlen_zero_nil in Hb as ->. change (zlen (@nil T)) with 0 in *. destruct Hx; [|lia].
    assert (xs = []) as -> by (by apply zlen_zero_nil).
    by apply Rep_no_buf.
  - apply Rep_linear; rewrite ?zlen_copy; try done; [pose proof (pow2_bounds _ Hp); lia|]. intros i Hi.
    rewrite zget_copy. unfold copied, DequeProps.cell. rewrite Hz by done. zcases; done.
Qed.
Lemma CopyInSlice_Rep q xs l : Rep q xs -> zlen l <= 2 ^ 60 -> fits q (zlen l) = true ->
  exists q', CopyInSlice zero l q = QOk q' /\ Rep q' l.
Proof.
  intros HR Hs Hf. unfold CopyInSlice, fits, new_cap in *. pose proof (zlen_nonneg l).
  assert (Hlt : zlen l = 0 \/ zlen l < if zlen (buf q) <? zlen l then match shl_loop (if zlen (buf q) =? 0 then minCapacity else zlen (buf q)) (zlen l)
    with QOk c => c | _ => 0 end else zlen (buf q)) by (apply orb_prop in Hf as [?|?]; zify_bool; auto). clear Hf.
  destruct (Z.ltb_spec (zlen (buf q)) (zlen l)) as [Hc|Hc].
  - destruct (shl_loop_ok _ (zlen l) (start_cap _ _ HR) Hs) as (c & E & Hp & Hl & _). rewrite E in Hlt.
    set (m := if zlen (buf q) =? 0 then minCapacity else minCap q).
    assert (Hm : m = 0 \/ pow2 m) by (subst m; destruct (zlen (buf q) =? 0); [right; exact pow2_8|apply (rep_min _ _ _ HR)]).
    replace (if zlen (buf q) =? 0 then (minCapacity, minCapacity) else (zlen (buf q), minCap q))
      with (if zlen (buf q) =? 0 then minCapacity else zlen (buf q), m) by (subst m; by destruct (zlen (buf q) =? 0)).
    rewrite E. cbn [mbind qres_bind]. rewrite make_zrep by lia. cbn [mbind qres_bind mret qres_ret buf minCap].
    assert (Hlc : copied (zrep c zero) l = zlen l) by (unfold copied; rewrite zlen_zrep; lia). rewrite Hlc.
    eexists. split; [done|]. apply copy_in_Rep; rewrite ?zlen_zrep by lia; auto. intros i Hi.
    autorewrite with zlist. zcases. done.
  - destruct (Z.ltb_spec (zlen l) (zlen (buf q))).
    + destruct (ClearAll_Rep _ _ HR) as (q1 & -> & HR1 & Hl1 & Hm1). cbn [mbind qres_bind mret qres_ret].
      assert (Hlc : copied (buf q1) l = zlen l) by (unfold copied; lia). rewrite Hlc.
      eexists. split; [done|]. apply copy_in_Rep; try apply HR1; [lia|]. intros i Hi. rewrite (rep_get _ _ _ HR1) by done.
      apply cell_out. pose proof (rep_head _ _ _ HR1). change (zlen (@nil T)) with 0. unfold nth_item. zcases.
    + cbn [mbind qres_bind mret qres_ret]. assert (Hlc : copied (buf q) l = zlen l) by (unfold copied; lia). rewrite Hlc.
      eexists. split; [done|]. apply copy_in_Rep; try apply HR; [lia|]. lia.
Qed.
Lemma Copy_Rep q xs src ys : Rep q xs -> Rep src ys -> zlen ys <= 2 ^ 60 -> fits q (zlen ys) = true ->
  exists q', Copy zero src q = QOk (zlen ys, q') /\ Rep q' ys.
Proof.
  intros HR HS Hs Hf. unfold Copy, Len. destruct (ClearAll_Rep _ _ HR) as (q1 & -> & HR1 & Hl1 & Hm1). cbn [mbind qres_bind].
  rewrite (rep_count _ _ _ HS). pose proof (zlen_nonneg ys).
  destruct (GrowCap_Rep _ _ (zlen ys) HR1) as (q2 & -> & HR2 & Hr & Hc); [done|done|]. cbn [mbind qres_bind].
  change (zlen (@nil T)) with 0 in *. rewrite !Z.add_0_l in *.
  rewrite (CopyOutSlice_Rep _ _ _ HS). unfold list_copy. cbn [mbind qres_bind mret qres_ret].
  assert (Hlc : copied (buf q2) ys = zlen ys) by (unfold copied; lia). rewrite Hlc. eexists. split; [done|].
  apply copy_in_Rep; try apply HR2.
  - unfold fits in Hf. replace (new_cap q1 (zlen ys)) with (new_cap q (zlen ys)) in Hc by (unfold new_cap; by rewrite Hl1).
    apply orb_prop in Hf as [?|?]; zify_bool; auto. right. lia.
  - intros i Hi. rewrite (rep_get _ _ _ HR2) by done.
    apply cell_out. pose proof (rep_head _ _ _ HR2). change (zlen (@nil T)) with 0. unfold nth_item. zcases.
Qed.

(** *** Iterators whose consumer leaves the queue alone *)
(** [shrinkToFit] leaves room and ends. *)
Definition shrinks q (n : Z) : bool :=
  (n =? 0) || negb ((minCap q <? zlen (buf q)) && (4 * n <=? zlen (buf q)))
  || match shl_loop (minCap q) n with QOk c => n <? c | _ => false end.
Lemma shrinkToFit_Rep q xs : Rep q xs -> shrinks q (zlen xs) = true -> exists q', shrinkToFit zero q = QOk q' /\ Rep q' xs.
Proof.
  intros HR Hs. unfold shrinkToFit, shrinks in *. pose proof (zlen_nonneg xs). pose proof (rep_le _ _ _ HR). pose proof (Rep_cap_le _ _ _ HR).
  rewrite (rep_count _ _ _ HR), shl2 by lia.
  destruct ((minCap q <? zlen (buf q)) && (4 * zlen xs <=? zlen (buf q))); [|by exists q].
  assert (Hm : 0 <= minCap q) by (destruct (rep_min _ _ _ HR) as [->|Hm%pow2_bounds]; lia).
  destruct (Z.eqb_spec (zlen xs) 0) as [E|].
  - apply zlen_zero_nil in E as ->. rewrite make_zrep by done. cbn [mbind qres_bind mret qres_ret]. eexists. split; [done|].
    change (zlen (@nil T)) with 0. destruct (rep_min _ _ _ HR) as [->|Hp]; [apply Rep_no_buf; by left|].
    pose proof (pow2_bounds _ Hp). apply (Rep_linear zero (zrep (minCap q) zero) []); rewrite ?zlen_zrep by lia; auto; change (zlen (@nil T)) with 0; try lia.
    intros i Hi. rewrite cell_out by (change (zlen (@nil T)) with 0; lia). autorewrite with zlist. zcases. done.
  - cbn [orb negb] in Hs. destruct (shl_loop _ _) as [c| |] eqn:E; try done. zify_bool. cbn [mbind qres_bind].
    destruct (rep_min _ _ _ HR) as [E0|Hp].
    { rewrite E0 in E. exfalso. revert E. unfold shl_loop. generalize 65%nat. intros f. induction f as [|f IH]; cbn [shl_until];
      destruct (Z.ltb_spec 0 (zlen xs)); try lia; done. }
    destruct (shl_loop_ok _ (zlen xs) Hp) as (c' & E' & Hp' & _); [lia|]. rewrite E' in E. injection E as ->.
    destruct (resize_Rep _ _ _ c HR Hp' Hs) as (q' & -> & HR' & _). by exists q'.
Qed.

(** A consumer that collects what it is given while [go] wants more. *)
Definition collect_items (go : list T -> bool) (x : T) (seen : list T) q : qres (bool * list T * Deque) :=
  mret (go (seen ++ [x]), seen ++ [x], q).
(** What it has seen in the end, and what it was not given. *)
Fixpoint consume (go : list T -> bool) (seen xs : list T) : list T * list T :=
  match xs with
  | [] => (seen, [])
  | x :: xs => if go (seen ++ [x]) then consume go (seen ++ [x]) xs else (seen ++ [x], xs)
  end.

Lemma iter_loop_Rep go q a c seen fuel : Rep q (a ++ c) -> (length c < fuel)%nat ->
  iter_loop (collect_items go) fuel (head q) (tail q) (zlen a) (wrap (zlen (buf q)) (head q + zlen a)) seen q
  = QOk (fst (consume go seen c), q).
Proof.
  revert a seen fuel. induction c as [|x c IH]; intros a seen fuel HR Hf; (destruct fuel as [|fuel]; [lia|]); cbn [iter_loop];
    unfold Len; rewrite (rep_count _ _ _ HR).
  { rewrite app_nil_r. zcases. done. }
  pose proof (rep_head _ _ _ HR). pose proof (rep_le _ _ _ HR). rewrite zlen_app, zlen_cons in *.
  pose proof (zlen_nonneg a). pose proof (zlen_nonneg c).
  destruct (Z.ltb_spec (zlen a) (zlen a + (1 + zlen c))); [|lia]. rewrite !Z.eqb_refl. cbn [negb orb].
  rewrite (Rep_item _ _ _ _ _ HR (zget_mid _ _ _)). cbn [mbind qres_bind collect_items mret qres_ret consume].
  destruct (go (seen ++ [x])); [|done]. cbn [length] in Hf.
  rewrite (Rep_next _ _ _ _ HR) by (unfold wrap; zcases).
  specialize (IH (a ++ [x]) (seen ++ [x]) fuel). rewrite <- app_assoc, zlen_app in IH. change (zlen [x]) with 1 in IH.
  replace (wrap (zlen (buf q)) (wrap (zlen (buf q)) (head q + zlen a) + 1)) with (wrap (zlen (buf q)) (head q + (zlen a + 1)))
    by (unfold wrap; zcases). apply IH; [done|lia].
Qed.
Lemma Iter_Rep go q xs fuel : Rep q xs -> (length xs < fuel)%nat ->
  Iter (collect_items go) fuel [] q = QOk (fst (consume go [] xs), q).
Proof.
  intros HR Hf. unfold Iter. rewrite <- (iter_loop_Rep go q [] xs [] fuel HR Hf). change (zlen (@nil T)) with 0. rewrite Z.add_0_r.
  pose proof (rep_head _ _ _ HR) as Hh. destruct (decide (head q < zlen (buf q))).
  - f_equal. unfold wrap. zcases.
  - f_equal. unfold wrap. zcases.
Qed.

Lemma riter_loop_Rep go q a c seen fuel : Rep q (a ++ c) -> (length a < fuel)%nat -> 0 < zlen (a ++ c) ->
  riter_loop (collect_items go) fuel (head q) (tail q) (zlen c) (wrap (zlen (buf q)) (head q + zlen a)) seen q
  = QOk (fst (consume go seen (rev a)), q).
Proof.
  revert c seen fuel. induction a as [|x a IH] using rev_ind; intros c seen fuel HR Hf Hp; (destruct fuel as [|fuel]; [lia|]); cbn [riter_loop];
    unfold Len; rewrite (rep_count _ _ _ HR).
  { cbn [app]. zcases. done. }
  pose proof (rep_head _ _ _ HR). pose proof (rep_le _ _ _ HR). rewrite <- app_assoc in HR. cbn [app] in HR.
  rewrite !zlen_app in *. change (zlen [x]) with 1 in *. pose proof (zlen_nonneg a). pose proof (zlen_nonneg c).
  destruct (Z.ltb_spec (zlen c) (zlen a + 1 + zlen c)); [|lia]. rewrite !Z.eqb_refl. cbn [negb orb].
  assert (E : prevPos q (wrap (zlen (buf q)) (head q + (zlen a + 1))) = wrap (zlen (buf q)) (head q + zlen a)).
  { rewrite (Rep_prev _ _ _ _ HR) by (unfold wrap; zcases). unfold wrap. zcases. }
  rewrite E, (Rep_item _ _ _ _ _ HR (zget_mid _ _ _)). cbn [mbind qres_bind collect_items mret qres_ret].
  rewrite rev_unit. cbn [consume]. destruct (go (seen ++ [x])); [|done]. rewrite length_app in Hf. cbn [length] in Hf.
  replace (zlen c + 1) with (zlen (x :: c)) by (rewrite zlen_cons; lia). apply IH; [done|lia|rewrite zlen_app, zlen_cons; lia].
Qed.
Lemma RIter_Rep go q xs fuel : Rep q xs -> (length xs < fuel)%nat ->
  RIter (collect_items go) fuel [] q = QOk (fst (consume go [] (rev xs)), q).
Proof.
  intros HR Hf. unfold RIter. destruct (Z.leb_spec (zlen xs) 0) as [Hz|].
  - replace xs with (@nil T) in * by (symmetry; apply zlen_zero_nil; pose proof (zlen_nonneg xs); lia).
    destruct fuel; [lia|]. cbn [riter_loop]. unfold Len. rewrite (rep_count _ _ _ HR). done.
  - rewrite <- (app_nil_r xs) in HR. rewrite <- (riter_loop_Rep go q xs [] [] fuel HR Hf) by (by rewrite app_nil_r).
    pose proof (rep_tail _ _ _ HR) as Ht. rewrite app_nil_r in Ht. by rewrite <- Ht.
Qed.

Lemma iterPopFront_loop_Rep go q xs seen fuel : Rep q xs -> (length xs < fuel)%nat ->
  exists q', iterPopFront_loop zero (collect_items go) fuel seen q = QOk (fst (consume go seen xs), q') /\
    Rep q' (snd (consume go seen xs)) /\ zlen (buf q') = zlen (buf q) /\ minCap q' = minCap q.
Proof.
  revert q seen fuel. induction xs as [|x xs IH]; intros q seen fuel HR Hf; (destruct fuel as [|fuel]; [lia|]); cbn [iterPopFront_loop];
    rewrite (rep_count _ _ _ HR).
  { exists q. done. }
  rewrite zlen_cons. destruct (Z.eqb_spec (1 + zlen xs) 0); [pose proof (zlen_nonneg xs); lia|].
  destruct (take_front_Rep _ _ _ _ HR) as (q1 & -> & HR1 & Hl & Hm). cbn [mbind qres_bind collect_items mret qres_ret consume length] in *.
  destruct (go (seen ++ [x])); [|by exists q1]. rewrite <- Hl, <- Hm. apply IH; [done|lia].
Qed.
Lemma IterPopFront_Rep go q xs fuel : Rep q xs -> (length xs < fuel)%nat ->
  shrinks q (zlen (snd (consume go [] xs))) = true ->
  exists q', IterPopFront zero (collect_items go) fuel [] q = QOk (fst (consume go [] xs), q') /\ Rep q' (snd (consume go [] xs)).
Proof.
  intros HR Hf Hs. unfold IterPopFront, Len. rewrite (rep_count _ _ _ HR). destruct (Z.eqb_spec (zlen xs) 0) as [E|].
  { apply zlen_zero_nil in E as ->. by exists q. }
  destruct (iterPopFront_loop_Rep go q xs [] fuel HR Hf) as (q1 & -> & HR1 & Hl & Hm). cbn [mbind qres_bind].
  destruct (shrinkToFit_Rep _ _ HR1) as (q2 & -> & HR2); [|by exists q2]. unfold shrinks in *. by rewrite Hl, Hm.
Qed.
Lemma iterPopBack_loop_Rep go q xs seen fuel : Rep q xs -> (length xs < fuel)%nat ->
  exists q', iterPopBack_loop zero (collect_items go) fuel seen q = QOk (fst (consume go seen (rev xs)), q') /\
    Rep q' (rev (snd (consume go seen (rev xs)))) /\ zlen (buf q') = zlen (buf q) /\ minCap q' = minCap q.
Proof.
  revert q seen fuel. induction xs as [|x xs IH] using rev_ind; intros q seen fuel HR Hf; (destruct fuel as [|fuel]; [lia|]); cbn [iterPopBack_loop];
    rewrite (rep_count _ _ _ HR).
  { exists q. done. }
  rewrite zlen_app. change (zlen [x]) with 1. destruct (Z.eqb_spec (zlen xs + 1) 0); [pose proof (zlen_nonneg xs); lia|].
  destruct (take_back_Rep _ _ _ _ HR) as (q1 & -> & HR1 & Hl & Hm). rewrite rev_unit. cbn [mbind qres_bind collect_items mret qres_ret consume].
  rewrite length_app in Hf. cbn [length] in Hf. destruct (go (seen ++ [x])); [rewrite <- Hl, <- Hm; apply IH; [done|lia]|].
  exists q1. cbn [fst snd]. by rewrite rev_involutive.
Qed.
Lemma IterPopBack_Rep go q xs fuel : Rep q xs -> (length xs < fuel)%nat ->
  shrinks q (zlen (snd (consume go [] (rev xs)))) = true ->
  exists q', IterPopBack zero (collect_items go) fuel [] q = QOk (fst (consume go [] (rev xs)), q') /\ Rep q' (rev (snd (consume go [] (rev xs)))).
Proof.
  intros HR Hf Hs. unfold IterPopBack, Len. rewrite (rep_count _ _ _ HR). destruct (Z.eqb_spec (zlen xs) 0) as [E|].
  { apply zlen_zero_nil in E as ->. by exists q. }
  destruct (iterPopBack_loop_Rep go q xs [] fuel HR Hf) as (q1 & -> & HR1 & Hl & Hm). cbn [mbind qres_bind].
  destruct (shrinkToFit_Rep _ _ HR1) as (q2 & -> & HR2); [|by exists q2]. unfold shrinks in *. by rewrite Hl, Hm, zlen_rev.
Qed.

(** *** The refinement *)
Inductive deque_op :=
| OPushBack (x : T) | OPushFront (x : T) | OPopFront | OPopBack | OFront | OBack | OLen
| OAt (i : Z) | OSet (i : Z) (x : T) | OSwap (i j : Z) | OInsert (i : Z) (x : T) | ORemove (i : Z)
| ORotate (n : Z) | OIndex (f : T -> bool) | ORIndex (f : T -> bool)
| OClear | OGrow (n : Z) | OSetBaseCap (n : Z)
| OAppend (out : list T) | OCopyOut (out : list T) | OCopyIn (l : list T) | OCopy (src : Deque)
| OIter (go : list T -> bool) | ORIter (go : list T -> bool)
| OIterPopFront (go : list T -> bool) | OIterPopBack (go : list T -> bool).
Inductive dres := RUnit | RItem (x : T) | RInt (n : Z) | RList (l : list T) | RCopied (r : list T * Z).

(** The items of a queue. *)
Definition items q : list T := match AppendToSlice [] q with QOk l => l | _ => [] end.
Lemma items_Rep q xs : Rep q xs -> items q = xs.
Proof. intros HR. unfold items. by rewrite (AppendToSlice_Rep _ _ [] HR). Qed.

Definition nothing (m : qres Deque) : qres (dres * Deque) := q ← m; mret (RUnit, q).
Definition answer {A} (f : A -> dres) (m : qres (A * Deque)) : qres (dres * Deque) := '(x, q) ← m; mret (f x, q).
Definition observe {A} (f : A -> dres) (m : qres A) q : qres (dres * Deque) := x ← m; mret (f x, q).
(** A call of the method; iterators have turns for every item and one more. *)
Definition run_op (o : deque_op) q : qres (dres * Deque) :=
  let fuel := Datatypes.S (Z.to_nat (count q)) in
  match o with
  | OPushBack x => nothing (PushBack zero x q) | OPushFront x => nothing (PushFront zero x q)
  | OPopFront => answer RItem (PopFront zero q) | OPopBack => answer RItem (PopBack zero q)
  | OFront => observe RItem (Front q) q | OBack => observe RItem (Back q) q
  | OLen => mret (RInt (Len q), q)
  | OAt i => observe RItem (At i q) q | OSet i x => nothing (SetAt i x q)
  | OSwap i j => nothing (SwapAt i j q)
  | OInsert i x => nothing (InsertAt zero i x q) | ORemove i => answer RItem (RemoveAt zero i q)
  | ORotate n => nothing (Rotate zero n q)
  | OIndex f => observe RInt (Index f q) q | ORIndex f => observe RInt (RIndex f q) q
  | OClear => nothing (ClearAll zero q) | OGrow n => nothing (GrowCap zero n q) | OSetBaseCap n => nothing (SetBaseCap n q)
  | OAppend out => observe RList (AppendToSlice out q) q
  | OCopyOut out => observe RCopied (CopyOutSlice out q) q
  | OCopyIn l => nothing (CopyInSlice zero l q) | OCopy src => answer RInt (Copy zero src q)
  | OIter go => answer RList (Iter (collect_items go) fuel [] q)
  | ORIter go => answer RList (RIter (collect_items go) fuel [] q)
  | OIterPopFront go => answer RList (IterPopFront zero (collect_items go) fuel [] q)
  | OIterPopBack go => answer RList (IterPopBack zero (collect_items go) fuel [] q)
  end.

(** Its meaning: the answer and the new list, or a panic. *)
Definition list_op (o : deque_op) xs : option (dres * list T) :=
  match o with
  | OPushBack x => Some (RUnit, xs ++ [x]) | OPushFront x => Some (RUnit, x :: xs)
  | OPopFront => match xs with [] => None | x :: xs => Some (RItem x, xs) end
  | OPopBack => match rev xs with [] => None | x :: ys => Some (RItem x, rev ys) end
  | OFront => x ← hd_error xs; Some (RItem x, xs) | OBack => x ← hd_error (rev xs); Some (RItem x, xs)
  | OLen => Some (RInt (zlen xs), xs)
  | OAt i => x ← zget xs i; Some (RItem x, xs) | OSet i x => _ ← zget xs i; Some (RUnit, zset xs i x)
  | OSwap i j => x ← zget xs i; y ← zget xs j; Some (RUnit, zset (zset xs i y) j x)
  | OInsert i x => Some (RUnit, list_insert xs i x) | ORemove i => x ← zget xs i; Some (RItem x, list_remove xs i)
  | ORotate n => Some (RUnit, list_rotate n xs)
  | OIndex f => Some (RInt (list_index f xs), xs) | ORIndex f => Some (RInt (find_last f xs), xs)
  | OClear => Some (RUnit, []) | OGrow n => if n <? 0 then None else Some (RUnit, xs) | OSetBaseCap n => Some (RUnit, xs)
  | OAppend out => Some (RList (out ++ xs), xs)
  | OCopyOut out => Some (RCopied (list_copy out xs), xs)
  | OCopyIn l => Some (RUnit, l) | OCopy src => Some (RInt (zlen (items src)), items src)
  | OIter go => Some (RList (fst (consume go [] xs)), xs)
  | ORIter go => Some (RList (fst (consume go [] (rev xs))), xs)
  | OIterPopFront go => Some (RList (fst (consume go [] xs)), snd (consume go [] xs))
  | OIterPopBack go => Some (RList (fst (consume go [] (rev xs))), rev (snd (consume go [] (rev xs))))
  end.

(** No list is too long, a copy leaves a free cell, and a shrinking does. *)
Definition op_ok (o : deque_op) q xs : Prop :=
  match o with
  | OPushBack _ | OPushFront _ | OInsert _ _ => zlen xs < maxItems
  | OGrow n => zlen xs + n <= 2 ^ 60
  | OSetBaseCap n => n <= 2 ^ 60
  | OCopyIn l => zlen l <= 2 ^ 60 /\ fits q (zlen l) = true
  | OCopy src => exists ys, Rep src ys /\ zlen ys <= 2 ^ 60 /\ fits q (zlen ys) = true
  | OIterPopFront go => shrinks q (zlen (snd (consume go [] xs))) = true
  | OIterPopBack go => shrinks q (zlen (snd (consume go [] (rev xs)))) = true
  | _ => True
  end.

Lemma zget_None xs i : zget xs i = None -> i < 0 \/ zlen xs <= i.
Proof.
  intros E. destruct (decide (0 <= i < zlen xs)) as [H|]; [|lia]. destruct (zget_is_Some _ _ H) as [x Hx]. congruence.
Qed.
Lemma rev_cons_eq xs x ys : rev xs = x :: ys -> xs = rev ys ++ [x].
Proof. intros E. by rewrite <- (rev_involutive xs), E. Qed.
Lemma rev_nil_eq xs : rev xs = [] -> xs = [].
Proof. intros E. by rewrite <- (rev_involutive xs), E. Qed.
Lemma zlen_fuel xs : (length xs < Datatypes.S (Z.to_nat (zlen xs)))%nat.
Proof. unfold zlen. lia. Qed.

(** Out of range, every method that takes an index panics. *)
Lemma checked_panics q xs i : Rep q xs -> zget xs i = None -> checkRange i q = QPanic.
Proof. intros HR H%zget_None. by apply (checkRange_out _ _ _ _ HR). Qed.

End Refine.

(** *** Where the code goes wrong *)
Definition ring : Deque Z := mkDeque [3; 0; 0; 0; 0; 0; 1; 2] 6 1 3 8.
Lemma ring_Rep : Rep 0 ring [1; 2; 3].
Proof.
  constructor; cbn [ring buf head tail count minCap]; change (zlen [3; 0; 0; 0; 0; 0; 1; 2]) with 8;
    change (zlen [1; 2; 3]) with 3; try lia; try (right; exact pow2_8).
  { done. }
  intros j Hj.
  assert (Hc : j = 0 \/ j = 1 \/ j = 2 \/ j = 3 \/ j = 4 \/ j = 5 \/ j = 6 \/ j = 7) by lia.
  destruct Hc as [->|[->|[->|[->|[->|[->|[->| ->]]]]]]]; reflexivity.
Qed.

Definition eight : list Z := [1; 2; 3; 4; 5; 6; 7; 8].
Definition full : qres (Deque Z) := CopyInSlice 0 eight newDeque.
Definition contents (m : qres (Deque Z)) : qres (list Z) := q ← m; AppendToSlice [] q.

(** After a copy that fills the buffer the tail is one past its end: taking an item
    from the front and adding one at the back panics, *)
Example full_then_push : (q ← full; '(_, q) ← PopFront 0 q; PushBack 0 9 q) = QPanic.
Proof. reflexivity. Qed.
(** a rotation panics or loses an item, *)
Example full_rotate : contents (q ← full; Rotate 0 1 q) = QPanic /\
  contents (q ← full; Rotate 0 (-1) q) = QOk [0; 1; 2; 3; 4; 5; 6; 7].
Proof. split; reflexivity. Qed.
(** and so it is after an iterator that shrinks the buffer to exactly its items. *)
Example shrink_then_push :
  (q ← CopyInSlice 0 (eight ++ eight ++ [0]) newDeque;
   '(_, q) ← IterPopFront 0 (collect_items (fun seen => zlen seen <? 9)) 20 [] q;
   '(_, q) ← PopFront 0 q; PushBack 0 9 q) = QPanic.
Proof. reflexivity. Qed.

(** A queue that was grown before anything was pushed has no base capacity: stopping
    an iterator early doubles zero until it exceeds the number of items. *)
Lemma shl_zero_hangs fuel n : 0 < n -> shl_until fuel 0 n = QHang.
Proof. intros Hn. induction fuel as [|f IH]; cbn [shl_until]; destruct (Z.ltb_spec 0 n); try lia; done. Qed.
Example grown_iterator_hangs :
  (q ← GrowCap 0 8 newDeque; q ← PushBack 0 1 q; q ← PushBack 0 2 q;
   IterPopFront 0 (collect_items (fun _ => false)) 20 [] q) = QHang.
Proof. reflexivity. Qed.

(** A consumer that changes the queue is noticed on the next turn; one that takes the
    front item off and puts another there is not. *)
Example iter_notices :
  Iter (fun x s q => q ← PushBack 0 x q; mret (true, x :: s, q)) 20 [] ring = QPanic /\
  Iter (fun x s q => '(_, q) ← PopFront 0 q; q ← PushFront 0 7 q; mret (true, x :: s, q)) 20 [] ring
    = QOk ([3; 2; 1], mkDeque [3; 0; 0; 0; 0; 0; 7; 2] 6 1 3 8).
Proof. split; reflexivity. Qed.
