(* ===== verification/DotPool.v ===== *)
(** * Reused connections of a DNS-over-TLS client ([dns/dot.go])

    The client keeps the connections of finished requests, newest last, in a
    [Deque].  A request is a goroutine that takes one (or dials), exchanges, and
    gives it back or closes it; several run at once and meet at the lock only, so
    the client is a state with the requests in flight, and an event lets one of them
    go on by the code up to its next call of the outside.  A connection is a number,
    [nil] is 0. *)
From S2P Require Import Prelude ZList Deque DequeProps DequeRefine.
Open Scope list_scope.
Open Scope Z_scope.

Module Dot.

(** @go dns/dot.go:20-20 maxOldDotConns *)
Definition maxOldDotConns : Z := 8.

(** Where a request is: before a turn of the retry loop, exchanging over a
    connection, or returned with or without an answer. *)
Inductive req_phase := Turn | Exchanging (conn : Z) (isOldConn : bool) | Answered | Failed.
(** What a request gets from outside: the context, dialling, the exchange. *)
Inductive outcome :=
| CtxErr                       (** [ctx.Err() != nil] at the start of a turn *)
| CtxOk (dialled : bool)       (** the turn goes on; [dialled]: a dial would succeed *)
| ExchangeErr
| ExchangeOk.
Inductive dot_event :=
| Request (r : Z)              (** a call of [ExchangeContext] *)
| Progress (r : Z) (o : outcome)
| ResetConnection.

(** The client with its requests; [dialled] counts the connections made, which are
    numbered from one, and [closed] lists those closed.
    @go dns/dot.go:22-32 dnsOverTLS *)
Record dnsOverTLS := mkDot {
  disableReuse : bool; connections : Deque.Deque Z; requests : gmap Z req_phase; made : Z; closed : list Z }.

Definition set_request (r : Z) (p : req_phase) (t : dnsOverTLS) : dnsOverTLS :=
  mkDot (disableReuse t) (connections t) (<[r := p]> (requests t)) (made t) (closed t).
Definition set_connections (q : Deque.Deque Z) (t : dnsOverTLS) : dnsOverTLS :=
  mkDot (disableReuse t) q (requests t) (made t) (closed t).
Definition close (conn : Z) (t : dnsOverTLS) : dnsOverTLS :=
  mkDot (disableReuse t) (connections t) (requests t) (made t) (closed t ++ [conn]).

(** @go dns/dot.go:165-182 newDoTClient *)
Definition newDoTClient (disableReuse : bool) : qres dnsOverTLS :=
  q ← Deque.SetBaseCap maxOldDotConns Deque.newDeque;
  mret (mkDot disableReuse q ∅ 0 []).

(** The start of a turn, up to the exchange: take the newest old connection, or dial.
    @go dns/dot.go:54-77 dnsOverTLS.ExchangeContext *)
Definition begin_turn (r : Z) (dialled : bool) (t : dnsOverTLS) : qres dnsOverTLS :=
  '(conn, t) ← (if negb (disableReuse t) && (0 <? Deque.Len (connections t))
                then '(conn, q) ← Deque.PopBack 0 (connections t); mret (conn, set_connections q t)
                else mret (0, t));
  mret (if conn =? 0 then
          if dialled then
            let conn := made t + 1 in
            set_request r (Exchanging conn false) (mkDot (disableReuse t) (connections t) (requests t) conn (closed t))
          else set_request r Failed t
        else set_request r (Exchanging conn true) t).

(** Giving the connection back; the oldest makes room.
    @go dns/dot.go:98-108 dnsOverTLS.ExchangeContext *)
Definition give_back (conn : Z) (t : dnsOverTLS) : qres dnsOverTLS :=
  if negb (disableReuse t) then
    t ← (if maxOldDotConns <=? Deque.Len (connections t)
         then '(oldConn, q) ← Deque.PopFront 0 (connections t); mret (close oldConn (set_connections q t))
         else mret t);
    q ← Deque.PushBack 0 conn (connections t);
    mret (set_connections q t)
  else mret (close conn t).

(** The end of a turn: after a failure over an old connection the next one is tried.
    @go dns/dot.go:88-96 dnsOverTLS.ExchangeContext *)
Definition end_turn (r conn : Z) (isOldConn ok : bool) (t : dnsOverTLS) : qres dnsOverTLS :=
  if ok then t ← give_back conn t; mret (set_request r Answered t)
  else let t := close conn t in
       mret (set_request r (if isOldConn then Turn else Failed) t).

(** [for t.connections.Len() > 0 { ... PopFront ... }], with fuel.
    @go dns/dot.go:148-157 dnsOverTLS.ResetConnection *)
Fixpoint reset_loop (fuel : nat) (t : dnsOverTLS) : qres dnsOverTLS :=
  if 0 <? Deque.Len (connections t) then
    match fuel with
    | O => QHang
    | S f => '(oldConn, q) ← Deque.PopFront 0 (connections t); reset_loop f (close oldConn (set_connections q t))
    end
  else mret t.
Definition reset (t : dnsOverTLS) : qres dnsOverTLS :=
  if negb (disableReuse t) then reset_loop (Z.to_nat (Deque.Len (connections t))) t else mret t.

(** One event; one that cannot happen in the state changes nothing. *)
Definition step (e : dot_event) (t : dnsOverTLS) : qres dnsOverTLS :=
  match e with
  | Request r => mret (match requests t !! r with None => set_request r Turn t | Some _ => t end)
  | Progress r o =>
    match requests t !! r, o with
    | Some Turn, CtxErr => mret (set_request r Failed t)
    | Some Turn, CtxOk dialled => begin_turn r dialled t
    | Some (Exchanging conn old), ExchangeErr => end_turn r conn old false t
    | Some (Exchanging conn old), ExchangeOk => end_turn r conn old true t
    | _, _ => mret t
    end
  | ResetConnection => reset t
  end.
Fixpoint run_dot (es : list dot_event) (t : dnsOverTLS) : qres dnsOverTLS :=
  match es with [] => mret t | e :: es => t ← step e t; run_dot es t end.

End Dot.

(** * Who owns a connection of the DNS-over-TLS client

    The client's connections are a list (by the refinement of the queue); with those
    the requests hold and those that are closed they are all that were ever made, each
    once. *)
Import Dot.
Open Scope list_scope.
Open Scope Z_scope.

(** The connection a request holds. *)
Definition held (p : req_phase) : list Z := match p with Exchanging c _ => [c] | _ => [] end.
Definition busy (t : dnsOverTLS) : list Z := mcat held (requests t).
(** The numbers of all connections made so far. *)
Definition all_made (t : dnsOverTLS) : list Z := seqZ 1 (made t).

(** [idle]: the connections kept for reuse, oldest first. *)
Record Inv (t : dnsOverTLS) (idle : list Z) : Prop := {
  inv_rep : Rep 0 (connections t) idle;
  inv_few : zlen idle <= maxOldDotConns;
  inv_off : disableReuse t = true -> idle = [];
  inv_made : 0 <= made t;
  inv_all : idle ++ busy t ++ closed t ≡ₚ all_made t }.

Lemma inv_pos t idle c : Inv t idle -> c ∈ idle ++ busy t ++ closed t -> 1 <= c <= made t.
Proof. intros HI Hc. rewrite (inv_all _ _ HI) in Hc. apply elem_of_seqZ in Hc. lia. Qed.

Lemma busy_set t r p p' : requests t !! r = Some p -> held p ++ busy (set_request r p' t) ≡ₚ held p' ++ busy t.
Proof. 
  intros H. unfold busy. cbn. rewrite (mcat_update _ _ _ _ _ H), (mcat_delete _ _ _ _ H), !app_assoc.
  by rewrite (Permutation_app_comm (held p)).
Qed.
Lemma busy_new t r p : requests t !! r = None -> busy (set_request r p t) ≡ₚ held p ++ busy t.
Proof. intros H. unfold busy. cbn. by apply mcat_insert. Qed.
Lemma busy_same t r p p' : requests t !! r = Some p -> held p = [] -> held p' = [] -> busy (set_request r p' t) ≡ₚ busy t.
Proof. intros H E E'. pose proof (busy_set t r p p' H) as Hb. rewrite E, E' in Hb. done. Qed.
Lemma busy_elem t r c old : requests t !! r = Some (Exchanging c old) -> c ∈ busy t.
Proof.
  intros H. assert (c ∈ held (Exchanging c old) ++ busy (set_request r Turn t)) as Hc by (apply elem_of_app; left; apply list_elem_of_here).
  rewrite (busy_set _ _ _ _ H) in Hc. done.
Qed.

(** *** The pieces of a request *)
Lemma seqZ_snoc n : 0 <= n -> seqZ 1 (n + 1) = seqZ 1 n ++ [n + 1].
Proof. intros. rewrite seqZ_app by lia. rewrite (Z.add_comm 1 n). done. Qed.

Lemma fail_turn_Inv t idle r : Inv t idle -> requests t !! r = Some Turn -> Inv (set_request r Failed t) idle.
Proof.
  intros HI Hr. destruct HI as [H1 H2 H3 H4 H5]. constructor; try done. cbn. by rewrite (busy_same _ _ _ _ Hr).
Qed.
Lemma begin_turn_Inv t idle r d : Inv t idle -> requests t !! r = Some Turn ->
  exists t' idle', begin_turn r d t = QOk t' /\ Inv t' idle' /\
    match rev idle with
    | [] => idle' = [] /\ requests t' = <[r := if d then Exchanging (made t + 1) false else Failed]> (requests t)
    | c :: rest => idle' = rev rest /\ requests t' = <[r := Exchanging c true]> (requests t)
    end.
Proof.
  intros HI Hr. unfold begin_turn, Deque.Len. rewrite (rep_count _ _ _ (inv_rep _ _ HI)).
  destruct (rev idle) as [|c rest] eqn:E.
  - apply rev_nil_eq in E as ->. change (0 <? zlen (@nil Z)) with false. rewrite andb_false_r. cbn [mbind qres_bind mret qres_ret].
    change (0 =? 0) with true. cbn iota. destruct d; eexists _, []; (split; [done|]); (split; [|done]).
    + destruct HI as [H1 H2 H3 H4 H5]. constructor; cbn; try done; [lia|].
      change (mkDot (disableReuse t) (connections t) (<[r:=Exchanging (made t + 1) false]> (requests t)) (made t + 1) (closed t))
        with (set_request r (Exchanging (made t + 1) false) (mkDot (disableReuse t) (connections t) (requests t) (made t + 1) (closed t))).
      pose proof (busy_set (mkDot (disableReuse t) (connections t) (requests t) (made t + 1) (closed t)) r Turn (Exchanging (made t + 1) false) Hr) as Hb.
      cbn [held app] in Hb. rewrite Hb. unfold all_made. cbn. rewrite seqZ_snoc by done. cbn in H5. rewrite <- Permutation_cons_append.
      apply Permutation_cons; [done|]. exact H5.
    + by apply fail_turn_Inv.
  - pose proof (inv_off _ _ HI) as Hoff. apply rev_cons_eq in E as ->.
    assert (disableReuse t = false) as Hd by (destruct (disableReuse t); [destruct (rev rest); by specialize (Hoff eq_refl)|done]).
    rewrite Hd. assert ((0 <? zlen (rev rest ++ [c])) = true) as -> by (apply Z.ltb_lt; rewrite zlen_app; change (zlen [c]) with 1; pose proof (zlen_nonneg (rev rest)); lia).
    cbn [negb andb]. destruct (PopBack_Rep _ _ _ _ (inv_rep _ _ HI)) as (q' & -> & HR'). cbn [mbind qres_bind mret qres_ret].
    assert (1 <= c) by (apply (inv_pos _ _ c HI); rewrite !elem_of_app; left; right; apply list_elem_of_here).
    destruct (Z.eqb_spec c 0); [lia|]. eexists _, (rev rest). split; [done|]. split; [|done].
    destruct HI as [H1 H2 H3 H4 H5]. constructor; cbn; try done.
    + rewrite zlen_app in H2. change (zlen [c]) with 1 in H2. lia.
    + congruence.
    + pose proof (busy_set (set_connections q' t) r Turn (Exchanging c true) Hr) as Hb. cbn [held app] in Hb. rewrite Hb.
      change (busy (set_connections q' t)) with (busy t). change (all_made _) with (all_made t). rewrite <- H5. by rewrite <- app_assoc.
Qed.

Lemma give_back_ok t idle conn : Inv t idle -> exists t' idle' shut, give_back conn t = QOk t' /\
  requests t' = requests t /\ made t' = made t /\ disableReuse t' = disableReuse t /\ closed t' = closed t ++ shut /\
  Rep 0 (connections t') idle' /\ zlen idle' <= maxOldDotConns /\ (disableReuse t = true -> idle' = []) /\
  idle' ++ shut ≡ₚ conn :: idle.
Proof.
  intros HI. destruct HI as [H1 H2 H3 H4 H5]. unfold give_back, maxOldDotConns in *. destruct (disableReuse t) eqn:Ed; cbn [negb].
  { eexists _, idle, [conn]. split; [done|]. specialize (H3 eq_refl) as ->. cbn. split_and!; done. }
  unfold Deque.Len. rewrite (rep_count _ _ _ H1). destruct (Z.leb_spec 8 (zlen idle)).
  - destruct idle as [|o idle]; [change (zlen (@nil Z)) with 0 in *; lia|]. destruct (PopFront_Rep _ _ _ _ H1) as (q1 & -> & HR1).
    rewrite zlen_cons in *. cbn [mbind qres_bind mret qres_ret close set_connections connections].
    destruct (PushBack_Rep _ _ _ conn HR1) as (q2 & -> & HR2); [unfold maxItems; lia|]. cbn [mbind qres_bind mret qres_ret].
    eexists _, (idle ++ [conn]), [o]. split; [done|]. cbn. split_and!; try done.
    + rewrite zlen_app. change (zlen [conn]) with 1. lia.
    + rewrite <- app_assoc. cbn. rewrite Permutation_app_comm. cbn. done.
  - cbn [mbind qres_bind mret qres_ret]. destruct (PushBack_Rep _ _ _ conn H1) as (q2 & -> & HR2); [unfold maxItems; lia|].
    cbn [mbind qres_bind mret qres_ret]. eexists _, (idle ++ [conn]), []. split; [done|]. cbn. rewrite app_nil_r. split_and!; try done.
    + rewrite zlen_app. change (zlen [conn]) with 1. lia.
    + rewrite app_nil_r. symmetry. apply Permutation_cons_append.
Qed.

Lemma release_busy t r conn old p : requests t !! r = Some (Exchanging conn old) -> held p = [] ->
  busy t ≡ₚ conn :: busy (set_request r p t).
Proof. intros Hr Hp. pose proof (busy_set t r _ p Hr) as Hb. rewrite Hp in Hb. cbn [held app] in Hb. by rewrite Hb. Qed.

Lemma end_turn_Inv t idle r conn old ok : Inv t idle -> requests t !! r = Some (Exchanging conn old) ->
  exists t' idle', end_turn r conn old ok t = QOk t' /\ Inv t' idle' /\
    requests t' = <[r := if ok then Answered else if old then Turn else Failed]> (requests t) /\
    (ok = false -> idle' = idle).
Proof.
  intros HI Hr. pose proof (inv_all _ _ HI) as H5. unfold end_turn. destruct ok.
  - destruct (give_back_ok _ _ conn HI) as (t1 & idle' & shut & -> & Er & Em & Ed & Ec & HR & Hl & Ho & Hp).
    cbn [mbind qres_bind mret qres_ret]. eexists _, idle'. split; [done|]. split; [|by rewrite <- Er].
    constructor; cbn; rewrite ?Em, ?Ed; try done; [apply HI|]. unfold all_made. cbn. rewrite Em, Ec.
    change (seqZ 1 (made t)) with (all_made t). rewrite <- H5, (release_busy _ _ _ _ Answered Hr eq_refl).
    unfold busy. cbn. rewrite Er. trans ((idle' ++ shut) ++ mcat held (<[r:=Answered]> (requests t)) ++ closed t); [solve_Permutation|].
    rewrite Hp. solve_Permutation.
  - cbn [mret qres_ret]. eexists _, idle. split; [done|]. split; [|done]. set (p := if old then Turn else Failed).
    assert (Hh : held p = []) by (subst p; by destruct old).
    destruct HI as [H1 H2 H3 H4 _]. constructor; try done. change (all_made _) with (all_made t).
    rewrite <- H5, (release_busy _ _ _ _ p Hr Hh). cbn [closed set_request close]. unfold busy. cbn. solve_Permutation.
Qed.

Lemma reset_loop_Inv idle t fuel : Inv t idle -> (length idle <= fuel)%nat ->
  exists t', reset_loop fuel t = QOk t' /\ Inv t' [] /\ requests t' = requests t.
Proof.
  revert t fuel. induction idle as [|c idle IH]; intros t fuel HI Hf; destruct fuel as [|fuel]; cbn [length] in Hf; try lia;
    cbn [reset_loop]; unfold Deque.Len; rewrite (rep_count _ _ _ (inv_rep _ _ HI)).
  1, 2: by exists t.
  rewrite zlen_cons. destruct (Z.ltb_spec 0 (1 + zlen idle)); [|pose proof (zlen_nonneg idle); lia].
  destruct (PopFront_Rep _ _ _ _ (inv_rep _ _ HI)) as (q' & -> & HR'). cbn [mbind qres_bind].
  destruct (IH (close c (set_connections q' t)) fuel) as (t' & E & HI' & Er); [|lia|by exists t'].
  destruct HI as [H1 H2 H3 H4 H5]. constructor; cbn; try done.
  - rewrite zlen_cons in H2. lia.
  - intros Hd. by specialize (H3 Hd).
  - change (all_made _) with (all_made t). rewrite <- H5. change (busy (close _ _)) with (busy t). solve_Permutation.
Qed.
Lemma reset_Inv t idle : Inv t idle -> exists t', reset t = QOk t' /\ Inv t' [] /\ requests t' = requests t.
Proof.
  intros HI. unfold reset. destruct (disableReuse t) eqn:Ed; cbn [negb].
  - exists t. rewrite (inv_off _ _ HI Ed) in HI. done.
  - apply (reset_loop_Inv idle); [done|]. unfold Deque.Len. rewrite (rep_count _ _ _ (inv_rep _ _ HI)). unfold zlen. lia.
Qed.

Lemma step_Inv t idle e : Inv t idle -> exists t' idle', step e t = QOk t' /\ Inv t' idle'.
Proof.
  intros HI. destruct e as [r|r o|]; cbn [step].
  - destruct (requests t !! r) eqn:Hr; [by exists t, idle|]. eexists _, idle. split; [done|].
    destruct HI as [H1 H2 H3 H4 H5]. constructor; try done. cbn. by rewrite (busy_new _ _ _ Hr).
  - destruct (requests t !! r) as [p|] eqn:Hr; [|by exists t, idle].
    destruct p as [|conn old| |], o; try (by exists t, idle).
    + eexists _, idle. split; [done|]. by apply fail_turn_Inv.
    + destruct (begin_turn_Inv _ _ _ dialled HI Hr) as (t' & idle' & E & HI' & _). by exists t', idle'.
    + destruct (end_turn_Inv _ _ _ _ _ false HI Hr) as (t' & idle' & E & HI' & _). by exists t', idle'.
    + destruct (end_turn_Inv _ _ _ _ _ true HI Hr) as (t' & idle' & E & HI' & _). by exists t', idle'.
  - destruct (reset_Inv _ _ HI) as (t' & E & HI' & _). by exists t', [].
Qed.
Lemma run_Inv es t idle : Inv t idle -> exists t' idle', run_dot es t = QOk t' /\ Inv t' idle'.
Proof.
  revert t idle. induction es as [|e es IH]; intros t idle HI; cbn [run_dot]; [by exists t, idle|].
  destruct (step_Inv _ _ e HI) as (t1 & idle1 & -> & HI1). cbn [mbind qres_bind]. by apply (IH t1 idle1).
Qed.
Lemma newDoTClient_Inv off : exists t, newDoTClient off = QOk t /\ Inv t [] /\ requests t = ∅.
Proof.
  unfold newDoTClient. destruct (SetBaseCap_Rep 0 _ _ maxOldDotConns (newDeque_Rep 0)) as (q & -> & HR & _); [done|].
  cbn [mbind qres_bind mret qres_ret]. eexists. split; [done|]. split; [|done]. by constructor.
Qed.

Lemma run_dot_app es es' t : run_dot (es ++ es') t = t ← run_dot es t; run_dot es' t.
Proof.
  revert t. induction es as [|e es IH]; intros t; [done|]. cbn [app run_dot]. destruct (step e t); cbn [mbind qres_bind]; [apply IH|done..].
Qed.

(** The events of one turn of request [r]: whether a dial and the exchange succeed. *)
Definition turn_events (r : Z) (o : bool * bool) : list dot_event :=
  [Progress r (CtxOk (fst o)); Progress r (if snd o then ExchangeOk else ExchangeErr)].

Lemma step_end r ok t c old : requests t !! r = Some (Exchanging c old) ->
  step (Progress r (if ok : bool then ExchangeOk else ExchangeErr)) t = end_turn r c old ok t.
Proof. intros H. cbn [step]. rewrite H. by destruct ok. Qed.
Lemma step_over r ok t p : requests t !! r = Some p -> p = Answered \/ p = Failed ->
  step (Progress r (if ok : bool then ExchangeOk else ExchangeErr)) t = QOk t.
Proof. intros H Hp. cbn [step]. rewrite H. by destruct Hp as [-> | ->]; destruct ok. Qed.

(** A turn over an old connection uses one up; any other turn is the last. *)
Lemma one_turn t idle r o : Inv t idle -> requests t !! r = Some Turn ->
  exists t' idle' p, run_dot (turn_events r o) t = QOk t' /\ Inv t' idle' /\ requests t' !! r = Some p /\
    ((p = Turn /\ S (length idle') = length idle) \/ p = Answered \/ p = Failed).
Proof.
  intros HI Hr. destruct o as [d ok]. cbn [turn_events fst snd run_dot].
  assert (step (Progress r (CtxOk d)) t = begin_turn r d t) as -> by (cbn [step]; by rewrite Hr).
  destruct (begin_turn_Inv _ _ _ d HI Hr) as (t1 & idle1 & -> & HI1 & Hcase). cbn [mbind qres_bind].
  assert (Hend : forall c old, requests t1 !! r = Some (Exchanging c old) -> (old = true -> S (length idle1) = length idle) ->
    exists t' idle' p, (t ← step (Progress r (if ok then ExchangeOk else ExchangeErr)) t1; mret t) = QOk t' /\ Inv t' idle' /\ requests t' !! r = Some p /\
    ((p = Turn /\ S (length idle') = length idle) \/ p = Answered \/ p = Failed)).
  { intros c old H1 Hold. rewrite (step_end _ _ _ _ _ H1). destruct (end_turn_Inv _ _ _ _ _ ok HI1 H1) as (t2 & i2 & -> & HI2 & E2 & Ei).
    eexists t2, i2, _. split; [done|]. split; [done|]. rewrite E2. split; [apply lookup_insert_eq|].
    destruct ok; [auto|]. destruct old; [|auto]. left. split; [done|]. rewrite Ei; auto. }
  destruct (rev idle) as [|c rest] eqn:Erev; destruct Hcase as [-> E1].
  - destruct d; [apply (Hend (made t + 1) false); [rewrite E1; apply lookup_insert_eq|done]|].
    assert (H1 : requests t1 !! r = Some Failed) by (rewrite E1; apply lookup_insert_eq).
    rewrite (step_over _ _ _ _ H1) by auto. exists t1, [], Failed. split_and!; auto.
  - apply (Hend c true); [rewrite E1; apply lookup_insert_eq|]. intros _. rewrite <- (length_rev idle), Erev, length_rev. done.
Qed.
Lemma over_stays t r p os : requests t !! r = Some p -> p = Answered \/ p = Failed -> run_dot (flat_map (turn_events r) os) t = QOk t.
Proof.
  intros H Hp. induction os as [|[d ok] os IH]; [done|]. cbn [flat_map]. rewrite run_dot_app. cbn [turn_events fst snd run_dot].
  assert (step (Progress r (CtxOk d)) t = QOk t) as -> by (cbn [step]; rewrite H; by destruct Hp as [-> | ->]).
  cbn [mbind qres_bind]. rewrite (step_over _ _ _ _ H Hp). apply IH.
Qed.
(** A request that runs alone ends. *)
Lemma retry_ends t idle r os : Inv t idle -> requests t !! r = Some Turn -> (length idle < length os)%nat ->
  exists t', run_dot (flat_map (turn_events r) os) t = QOk t' /\ (requests t' !! r = Some Answered \/ requests t' !! r = Some Failed).
Proof.
  revert t idle. induction os as [|o os IH]; intros t idle HI Hr Hl; cbn [length] in Hl; [lia|].
  cbn [flat_map]. rewrite run_dot_app. destruct (one_turn _ _ _ o HI Hr) as (t1 & i1 & p & -> & HI1 & H1 & Hp). cbn [mbind qres_bind].
  destruct Hp as [[-> Hlen]|Hp]; [apply (IH t1 i1); [done..|lia]|].
  rewrite (over_stays _ _ _ _ H1 Hp). exists t1. split; [done|]. destruct Hp; subst; auto.
Qed.

(** C14: Whatever the requests of a DNS-over-TLS client do, in any order and with any
    failures and resets, no step panics or hangs, at most eight connections wait for
    reuse, and each connection ever made is in exactly one place: waiting, held by
    one request, or closed.  So no two requests share a connection and none is lost.
    And a request that runs on alone is over after one turn more than connections wait. *)
Theorem dot_connections_owned (off : bool) (es : list dot_event) :
  exists t0 t idle, newDoTClient off = QOk t0 /\ run_dot es t0 = QOk t /\
    Rep 0 (connections t) idle /\ zlen idle <= 8 /\
    NoDup (idle ++ busy t ++ closed t) /\ (forall c, c ∈ idle ++ busy t ++ closed t <-> 1 <= c <= made t) /\
    (forall r os, requests t !! r = Some Turn -> (length idle < length os)%nat ->
       exists t', run_dot (flat_map (turn_events r) os) t = QOk t' /\
         (requests t' !! r = Some Answered \/ requests t' !! r = Some Failed)).
Proof.
  destruct (newDoTClient_Inv off) as (t0 & E0 & HI0 & _). destruct (run_Inv es _ _ HI0) as (t & idle & E & HI).
  exists t0, t, idle. split_and!; try done; try apply HI.
  - rewrite (inv_all _ _ HI). apply NoDup_seqZ.
  - intros c. rewrite (inv_all _ _ HI). unfold all_made. rewrite elem_of_seqZ. lia.
  - intros r os. by apply retry_ends.
Qed.
Definition two_requests : list dot_event :=
  [Request 1; Progress 1 (CtxOk true); Progress 1 ExchangeOk; Request 2; Progress 2 (CtxOk true);
   Request 3; Progress 3 (CtxOk true); Progress 3 ExchangeErr; Progress 2 ExchangeErr].
Lemma dot_connections_owned_witness :
  (exists t, (t ← newDoTClient false; run_dot two_requests t) = QOk t /\
     requests t = {[1 := Answered; 2 := Turn; 3 := Failed]} /\ closed t = [2; 1]) /\
  exists t0 t idle, newDoTClient false = QOk t0 /\ run_dot two_requests t0 = QOk t /\ Rep 0 (connections t) idle /\ zlen idle <= 8.
Proof.
  split; [eexists; split; [vm_compute; reflexivity|]; split; vm_compute; reflexivity|].
  destruct (dot_connections_owned false two_requests) as (t0 & t & idle & E0 & E & HR & Hl & _). by exists t0, t, idle.
Defined.
