(* ===== verification/DomainSet.v ===== *)
(** * The succinct domain set ([component/trie/domain_set.go], [domain_set_bin.go])

    Domain patterns are reversed into keys, and the trie of the keys is stored in
    breadth-first order: for each node a zero per child and a one, the labels of all
    children, and a bit per node that ends a key.  [Has] walks these arrays with the
    rank and select functions of package [bitmap] (openacid/low), which are the class
    [Bitmap]; it keeps the wildcards it passes on a stack.  A key is a list of bytes;
    indices are naturals, an index out of range is a panic, and positions handed to
    [bitmap] are cut to [int32] as the code does. *)
From S2P Require Import Prelude Names GoText DomainTrie ZList.
#[local] Open Scope string_scope.
#[local] Open Scope list_scope.
#[local] Open Scope Z_scope.

(** Package github.com/openacid/low/bitmap: the indexes of a bitmap ([selects] and
    [ranks]; [ranks] alone), and the queries, which return a second number that is
    not used here. *)
Class Bitmap := {
  IndexSelect32R64 : list Z -> list Z * list Z;
  IndexRank64 : list Z -> list Z;
  Rank64 : list Z -> list Z -> Z -> Z * Z;
  Select32R64 : list Z -> list Z -> list Z -> Z -> Z * Z }.

Abbreviation key := (list Z).
(** The bytes of a Go string. *)
Definition str_bytes (s : string) : key := map (fun c => Z.of_nat (nat_of_ascii c)) (String.list_ascii_of_string s).
Definition bytes_str (b : key) : string := String.string_of_list_ascii (map (fun x => ascii_of_nat (Z.to_nat x)) b).

(** The runes of a string, backwards; a byte that is no rune becomes U+FFFD.
    @go common/utils/strings.go:3-9 Reverse *)
Definition Reverse (s : string) : string :=
  let rune r := match r with String c "" => if is_ASCII r then r else GoText.bytes [239; 191; 189]%nat | _ => r end in
  String.concat "" (rev (map rune (explode (String.length s) s))).

(** @go component/trie/domain_set.go:17-17 complexWildcardByte *)
Definition complexWildcardByte : Z := 43.
(** @go component/trie/domain_set.go:18-18 wildcardByte *)
Definition wildcardByte : Z := 42.
(** @go component/trie/domain_set.go:19-19 domainStepByte *)
Definition domainStepByte : Z := 46.

(** @go component/trie/domain_set.go:22-26 DomainSet *)
Record DomainSet := mkSet { leaves : list Z; labelBitmap : list Z; labels : list Z; ranks : list Z; selects : list Z }.

(** ** Collecting keys *)

(** @go component/trie/domain_set.go:32-34 DomainSetBuilder *)
Definition DomainSetBuilder : Type := list key.

(** @go component/trie/domain_set.go:53-58 DomainSetBuilder.insert *)
Definition bld_insert (parts : list string) (b : DomainSetBuilder) : DomainSetBuilder :=
  let parts := match parts with first :: rest => (if String.eqb first dotWildcard then complexWildcard else first) :: rest | [] => [] end in
  b ++ [str_bytes (Reverse (joinDomain parts))].

(** [parts[0]] is there: a domain that is accepted has labels.
    @go component/trie/domain_set.go:38-51 DomainSetBuilder.Insert *)
Definition bld_Insert (domain : string) (b : DomainSetBuilder) : DomainErr + DomainSetBuilder :=
  match ValidAndSplitDomain domain with
  | inl e => inl e
  | inr parts =>
      inr (if bool_decide (hd_error parts = Some complexWildcard)
           then bld_insert parts (bld_insert (tail parts) b)
           else bld_insert parts b)
  end.
(** @go component/trie/domain_set.go:61-63 DomainSetBuilder.IsEmpty *)
Definition bld_IsEmpty (b : option DomainSetBuilder) : bool := match b with None | Some [] => true | _ => false end.
(** @go component/trie/domain_set.go:66-68 DomainSetBuilder.Reset *)
Definition bld_Reset (b : DomainSetBuilder) : DomainSetBuilder := [].

(** ** Bits *)

(** @go component/trie/domain_set.go:300-305 setBit *)
Definition setBit (bm : list Z) (i : nat) (v : Z) : list Z :=
  let bm := bm ++ replicate (S (i / 64) - length bm) 0 in
  alter (fun w => Z.lor w (u64 (Z.shiftl v (Z.of_nat (i mod 64))))) (i / 64)%nat bm.
(** @go component/trie/domain_set.go:307-309 getBit *)
Definition getBit (bm : list Z) (i : nat) : qres Z :=
  match bm !! (i / 64)%nat with
  | Some w => QOk (Z.land w (Z.shiftl 1 (Z.of_nat (i mod 64))))
  | None => QPanic
  end.
(** [getBit(...) != 0]. *)
Definition isSet (bm : list Z) (i : nat) : qres bool := b ← getBit bm i; mret (negb (b =? 0)).

Definition index {A} (l : list A) (i : nat) : qres A := match l !! i with Some x => QOk x | None => QPanic end.

(** ** Building *)

(** [sort.Strings] and [slices.Compact]. *)
Fixpoint bytes_le (a b : key) : bool :=
  match a, b with
  | [], _ => true
  | _ :: _, [] => false
  | x :: a, y :: b => (x <? y) || (x =? y) && bytes_le a b
  end.
Fixpoint insert_key (k : key) (l : list key) : list key :=
  match l with [] => [k] | x :: r => if bytes_le k x then k :: l else x :: insert_key k r end.
Definition sort_keys (l : list key) : list key := fold_right insert_key [] l.
Fixpoint compact (l : list key) : list key :=
  match l with
  | [] => []
  | x :: r => match r with [] => [x] | y :: _ => if bool_decide (x = y) then compact r else x :: compact r end
  end.

Section Build.
Context {BM : Bitmap}.

(** What the construction has written: the arrays, the next bit and node, the queue
    of the next level and the keys given to [onTerminal]. *)
Record builder := mkBuilder {
  b_leaves : list Z; b_bitmap : list Z; b_labels : list Z; lIdx : nat; nodeID : nat;
  next_queue : list (nat * nat); terminals : list key }.

Definition key_byte (keys : list key) (j col : nat) : qres Z := k ← index keys j; index k col.

(** The end of the run of keys that have the byte of key [frm] in column [col].
    @go component/trie/domain_set.go:127-128 buildDomainSet *)
Fixpoint run_end (n : nat) (keys : list key) (col frm j : nat) : qres nat :=
  match n with
  | O => mret j
  | S n => a ← key_byte keys j col; b ← key_byte keys frm col; if a =? b then run_end n keys col frm (S j) else mret j
  end.
(** The children of a node: one run after the other.
    @go component/trie/domain_set.go:125-133 buildDomainSet *)
Fixpoint children_loop (fuel : nat) (keys : list key) (col j e : nat) (st : builder) : qres builder :=
  if (j <? e)%nat then
    match fuel with
    | O => QHang
    | S fuel =>
        j' ← run_end (e - j) keys col j j;
        c ← key_byte keys j col;
        children_loop fuel keys col j' e
          (mkBuilder (b_leaves st) (setBit (b_bitmap st) (lIdx st) 0) (b_labels st ++ [c]) (S (lIdx st)) (nodeID st)
             (next_queue st ++ [(j, j')]) (terminals st))
    end
  else mret st.
(** @go component/trie/domain_set.go:115-137 buildDomainSet *)
Definition build_node (keys : list key) (col : nat) (elt : nat * nat) (st : builder) : qres builder :=
  first ← index keys elt.1;
  let '(s, st) := if (col =? length first)%nat
    then (S elt.1, mkBuilder (setBit (b_leaves st) (nodeID st) 1) (b_bitmap st) (b_labels st) (lIdx st) (nodeID st) (next_queue st) (terminals st ++ [first]))
    else (elt.1, st) in
  st ← children_loop (elt.2 - s) keys col s elt.2 st;
  mret (mkBuilder (b_leaves st) (setBit (b_bitmap st) (lIdx st) 1) (b_labels st) (S (lIdx st)) (S (nodeID st)) (next_queue st) (terminals st)).
Fixpoint build_level (keys : list key) (col : nat) (queue : list (nat * nat)) (st : builder) : qres builder :=
  match queue with [] => mret st | elt :: queue => st ← build_node keys col elt st; build_level keys col queue st end.
(** @go component/trie/domain_set.go:114-139 buildDomainSet *)
Fixpoint build_levels (fuel : nat) (keys : list key) (col : nat) (queue : list (nat * nat)) (st : builder) : qres builder :=
  match queue with
  | [] => mret st
  | _ => match fuel with
         | O => QHang
         | S fuel => st ← build_level keys col queue st;
                     build_levels fuel keys (S col) (next_queue st) (mkBuilder (b_leaves st) (b_bitmap st) (b_labels st) (lIdx st) (nodeID st) [] (terminals st))
         end
  end.
(** @go component/trie/domain_set.go:312-314 DomainSet.init *)
Definition init_set (leaves labelBitmap labels : list Z) : DomainSet :=
  let '(selects, ranks) := IndexSelect32R64 labelBitmap in mkSet leaves labelBitmap labels ranks selects.

(** The set, [nil] without keys, and the calls of [onTerminal]; there are as many
    levels as the longest key has bytes, and one more.
    @go component/trie/domain_set.go:96-143 buildDomainSet *)
Definition buildDomainSet (keys : list key) : qres (option DomainSet * list key) :=
  match keys with
  | [] => mret (None, [])
  | _ =>
      let keys := compact (sort_keys keys) in
      st ← build_levels (S (list_max (map length keys))) keys 0 [(O, length keys)] (mkBuilder [] [] [] 0 0 [] []);
      mret (Some (init_set (b_leaves st) (b_bitmap st) (b_labels st)), terminals st)
  end.
(** @go component/trie/domain_set.go:72-79 DomainSetBuilder.Build *)
Definition bld_Build (b : option DomainSetBuilder) : qres (option DomainSet * option DomainSetBuilder) :=
  match b with
  | None => mret (None, None)
  | Some keys => '(ss, _) ← buildDomainSet keys; mret (ss, Some [])
  end.
(** @go component/trie/domain_set.go:82-94 DomainTrie.NewDomainSet *)
Definition NewDomainSet {T} (t : DomainTrie T) : qres (option DomainSet) :=
  let keys := Foreach (fun domain _ acc =>
    let domain := if bool_decide (String.get 0 domain = Some dot) then (complexWildcard ++ domain)%string else domain in
    (true, acc ++ [str_bytes (Reverse domain)])) t [] in
  '(ss, _) ← buildDomainSet keys; mret ss.

(** ** Querying *)

(** @go component/trie/domain_set.go:322-325 countZeros *)
Definition countZeros (bm ranks : list Z) (i : nat) : nat := (i - Z.to_nat (Rank64 bm ranks (i32 (Z.of_nat i))).1)%nat.
(** @go component/trie/domain_set.go:333-336 selectIthOne *)
Definition selectIthOne (bm ranks selects : list Z) (i : nat) : nat :=
  Z.to_nat (Select32R64 bm selects ranks (i32 (Z.of_nat i))).1.

(** @go component/trie/domain_set.go:237-243 revLowerAt *)
Definition lower_byte (c : Z) : Z := if (65 <=? c) && (c <=? 90) then c + 32 else c.
Definition revLowerAt (k : key) (i : nat) : Z :=
  match k !! (length k - 1 - i)%nat with Some c => lower_byte c | None => 0 end.
(** @go component/trie/domain_set.go:245-251 byteReverse *)
Definition byteReverse (k : key) : key := rev k.

(** A wildcard that was passed: its bit, and where in the key its label begins. *)
Record cursor := mkCursor { cur_bmIdx : nat; cur_index : nat }.

(** The next separator of the key from [j] on, or its end.
    @go component/trie/domain_set.go:178-179 DomainSet.Has *)
Fixpoint next_dot (n : nat) (k : key) (j : nat) : nat :=
  match n with
  | O => j
  | S n => if revLowerAt k j =? domainStepByte then j else next_dot n k (S j)
  end.
(** A child of node [nodeId] under a separator, from bit [bmIdx] on.
    @go component/trie/domain_set.go:190-198 DomainSet.Has *)
Fixpoint find_dot (fuel : nat) (ss : DomainSet) (nodeId bmIdx : nat) : qres (option nat) :=
  one ← isSet (labelBitmap ss) bmIdx;
  if one : bool then mret None else
  l ← index (labels ss) (bmIdx - nodeId)%nat;
  if l =? domainStepByte then mret (Some bmIdx)
  else match fuel with O => QHang | S fuel => find_dot fuel ss nodeId (S bmIdx) end.

(** Where the loop goes on: reading labels at a bit of a node, with the key at [i],
    or, out of labels, with the wildcards on the stack. *)
Inductive walk := Scan (nodeId bmIdx i : nat) (stack : list cursor) | Retry (stack : list cursor).

(** One turn of the inner loops; [inl] is the answer.
    @go component/trie/domain_set.go:168-228 DomainSet.Has *)
Definition walk_step (ss : DomainSet) (k : key) (w : walk) : qres (bool + walk) :=
  match w with
  | Retry [] => mret (inl false)
  | Retry (c :: stack) =>
      let nextNodeId := countZeros (labelBitmap ss) (ranks ss) (S (cur_bmIdx c)) in
      let j := next_dot (length k - cur_index c) k (cur_index c) in
      if (j =? length k)%nat then
        leaf ← isSet (leaves ss) nextNodeId;
        mret (if leaf : bool then inl true else inr (Retry stack))
      else
        let nextBmIdx := S (selectIthOne (labelBitmap ss) (ranks ss) (selects ss) (nextNodeId - 1)) in
        found ← find_dot (length (labels ss)) ss nextNodeId nextBmIdx;
        mret (inr (match found with Some bmIdx => Scan nextNodeId bmIdx j stack | None => Retry stack end))
  | Scan nodeId bmIdx i stack =>
      one ← isSet (labelBitmap ss) bmIdx;
      if one : bool then mret (inr (Retry stack)) else
      l ← index (labels ss) (bmIdx - nodeId)%nat;
      if l =? complexWildcardByte then mret (inl true)
      else if l =? wildcardByte then mret (inr (Scan nodeId (S bmIdx) i (mkCursor bmIdx i :: stack)))
      else if l =? revLowerAt k i then
        let nodeId := (bmIdx - nodeId + 1)%nat in
        if (i =? length k - 1)%nat then
          leaf ← isSet (leaves ss) nodeId;
          if leaf : bool then mret (inl true)
          else match stack with
               | [] => mret (inl false)
               | _ => mret (inr (Scan nodeId (selectIthOne (labelBitmap ss) (ranks ss) (selects ss) nodeId) i stack))
               end
        else mret (inr (Scan nodeId (S (selectIthOne (labelBitmap ss) (ranks ss) (selects ss) (nodeId - 1))) (S i) stack))
      else mret (inr (Scan nodeId (S bmIdx) i stack))
  end.
Fixpoint walk_loop (fuel : nat) (ss : DomainSet) (k : key) (w : walk) : qres bool :=
  match fuel with
  | O => QHang
  | S fuel => r ← walk_step ss k w; match r with inl b => mret b | inr w => walk_loop fuel ss k w end
  end.

(** The set built by rune-wise reversal matches byte-wise reversal for ASCII only;
    other keys are brought to that form.
    @go component/trie/domain_set.go:150-158 DomainSet.Has *)
Definition query_key (k : string) : key :=
  if is_ASCII k then str_bytes k else byteReverse (str_bytes (ToLower (Reverse k))).
(** @go component/trie/domain_set.go:146-233 DomainSet.Has *)
Definition Has (fuel : nat) (ss : option DomainSet) (k : string) : qres bool :=
  match ss with
  | None => mret false
  | Some ss =>
      let k := query_key k in
      if (length k =? 0)%nat then isSet (leaves ss) 0 else walk_loop fuel ss k (Scan 0 0 0 [])
  end.
(** @go component/trie/domain_set.go:296-298 DomainSet.MatchDomain *)
Definition set_MatchDomain := Has.

(** ** Listing *)

(** The callback has a state of its own, and says whether to go on. *)
Section Iterate.
Context {A : Type} (f : key -> nat -> A -> bool * A).

(** The labels of a node from bit [bmIdx] on; [rec] goes down to a child.
    @go component/trie/domain_set.go:263-275 DomainSet.keys *)
Fixpoint traverse_labels (rec : nat -> nat -> Z -> A -> qres (bool * A)) (n : nat) (ss : DomainSet) (nodeId bmIdx : nat) (a : A) : qres (bool * A) :=
  match n with
  | O => QHang
  | S n =>
      one ← isSet (labelBitmap ss) bmIdx;
      if one : bool then mret (true, a) else
      nextLabel ← index (labels ss) (bmIdx - nodeId)%nat;
      let nextNodeId := (bmIdx - nodeId + 1)%nat in
      let nextBmIdx := S (selectIthOne (labelBitmap ss) (ranks ss) (selects ss) (nextNodeId - 1)) in
      '(go, a) ← rec nextNodeId nextBmIdx nextLabel a;
      if go : bool then traverse_labels rec n ss nodeId (S bmIdx) a else mret (false, a)
  end.
(** @go component/trie/domain_set.go:256-276 DomainSet.keys *)
Fixpoint traverse (fuel : nat) (ss : DomainSet) (nodeId bmIdx : nat) (currentKey : key) (a : A) : qres (bool * A) :=
  match fuel with
  | O => QHang
  | S fuel =>
      leaf ← isSet (leaves ss) nodeId;
      let '(go, a) := if leaf : bool then f currentKey nodeId a else (true, a) in
      if go : bool then
        traverse_labels (fun node bm l => traverse fuel ss node bm (currentKey ++ [l])) (S (length (labels ss))) ss nodeId bmIdx a
      else mret (false, a)
  end.
(** @go component/trie/domain_set.go:253-280 DomainSet.keys *)
Definition ds_keys (fuel : nat) (ss : DomainSet) (a : A) : qres A := r ← traverse fuel ss 0 0 [] a; mret r.2.
End Iterate.

(** @go component/trie/domain_set.go:288-292 DomainSet.Foreach *)
Definition pattern_of (k : key) : string := Reverse (trim_last plus (bytes_str k)).
(** @go component/trie/domain_set.go:287-293 DomainSet.Foreach *)
Definition set_Foreach {A} (f : string -> A -> bool * A) (fuel : nat) (ss : DomainSet) (a : A) : qres A :=
  ds_keys (fun key _ => f (pattern_of key)) fuel ss a.
End Build.
