(* ===== verification/Louds.v ===== *)
(** * The breadth-first arrays of a trie

    Bits of a bitmap, and what [buildDomainSet] writes: the nodes in the order of their
    numbers are a list that lists its own children ([louds]), and the arrays are read
    off that list.  The laws of package [bitmap] are the class [BitmapLaws]. *)
From stdpp Require Import sorting.
From S2P Require Import Prelude Names GoText DomainTrie ZList DomainSet.
#[local] Open Scope list_scope.
#[local] Open Scope nat_scope.

(** ** Bits *)

Definition bit (bm : list Z) (i : nat) : bool := Z.testbit (nth (i / 64) bm 0%Z) (Z.of_nat (i mod 64)).
Definition count_true (l : list bool) : nat := length (filter (fun b => b = true) l).
(** The number of bits set among the first [n]. *)
Definition ones (bm : list Z) (n : nat) : nat := count_true (map (bit bm) (seq 0 n)).

(** What the package documents of its functions: [Rank64] counts the bits set before a
    position of the bitmap, [Select32R64] finds the bit with a given count before it,
    and its index has an entry for every 32 bits set.  Positions are [int32]. *)
Class BitmapLaws (BM : Bitmap) : Prop := {
  rank_ok bm i : i < 64 * length bm -> (Z.of_nat (64 * length bm) < 2 ^ 31)%Z ->
    (Rank64 bm (IndexSelect32R64 bm).2 (Z.of_nat i)).1 = Z.of_nat (ones bm i);
  leaf_rank_ok bm i : i < 64 * length bm -> (Z.of_nat (64 * length bm) < 2 ^ 31)%Z ->
    (Rank64 bm (IndexRank64 bm) (Z.of_nat i)).1 = Z.of_nat (ones bm i);
  select_ok bm i : i < ones bm (64 * length bm) -> (Z.of_nat (64 * length bm) < 2 ^ 31)%Z ->
    exists p, (Select32R64 bm (IndexSelect32R64 bm).1 (IndexSelect32R64 bm).2 (Z.of_nat i)).1 = Z.of_nat p /\
              bit bm p = true /\ ones bm p = i;
  select_index bm i : i < ones bm (64 * length bm) -> is_Some ((IndexSelect32R64 bm).1 !! (i / 32)) }.

(** The bitmap holds the bits [l], and zeros behind them. *)
Definition holds_bits (bm : list Z) (l : list bool) : Prop := forall i, bit bm i = nth i l false.

Lemma count_true_app l k : count_true (l ++ k) = count_true l + count_true k.
Proof. unfold count_true. by rewrite filter_app, length_app. Qed.
Lemma count_true_false n : count_true (replicate n false) = 0.
Proof. unfold count_true. induction n as [|n IH]; [done|]. cbn. done. Qed.
Lemma ones_take bm l n : holds_bits bm l -> n <= length l -> ones bm n = count_true (take n l).
Proof.
  intros Hb Hn. unfold ones. f_equal. apply list_eq. intros i. destruct (decide (i < n)).
  - rewrite list_lookup_fmap, lookup_seq_lt, lookup_take_lt by lia. cbn. rewrite Hb.
    destruct (lookup_lt_is_Some_2 l i) as [x Hx]; [lia|]. rewrite Hx. f_equal. by apply nth_lookup_Some.
  - rewrite list_lookup_fmap, lookup_seq_ge by lia. rewrite lookup_take_ge by lia. done.
Qed.
Lemma ones_S bm n : ones bm (S n) = ones bm n + (if bit bm n then 1 else 0).
Proof.
  unfold ones. rewrite seq_S, map_app, count_true_app. f_equal. cbn. by destruct (bit bm n).
Qed.
Lemma ones_mono bm n m : n <= m -> ones bm n <= ones bm m.
Proof. induction 1; [done|]. rewrite ones_S. lia. Qed.
(** A bit is found by its rank. *)
Lemma ones_inj bm p q : bit bm p = true -> bit bm q = true -> ones bm p = ones bm q -> p = q.
Proof.
  intros Hp Hq E. destruct (Nat.lt_trichotomy p q) as [H|[H|H]]; [|done|].
  - pose proof (ones_mono bm (S p) q H) as Hm. rewrite ones_S, Hp in Hm. lia.
  - pose proof (ones_mono bm (S q) p H) as Hm. rewrite ones_S, Hq in Hm. lia.
Qed.

Lemma isSet_bit bm i : i < 64 * length bm -> isSet bm i = QOk (bit bm i).
Proof.
  intros Hi. unfold isSet, getBit, bit. assert (Hd : i / 64 < length bm) by (apply Nat.Div0.div_lt_upper_bound; lia).
  destruct (lookup_lt_is_Some_2 bm _ Hd) as [w Hw]. rewrite Hw. cbn [mbind qres_bind mret qres_ret]. f_equal.
  rewrite (nth_lookup_Some _ _ _ _ Hw). set (m := Z.of_nat (i mod 64)). assert (0 <= m)%Z by lia.
  destruct (Z.testbit w m) eqn:E.
  - apply negb_true_iff, Z.eqb_neq. intros E0. assert (Hb : Z.testbit (Z.land w (Z.shiftl 1 m)) m = false) by (by rewrite E0, Z.bits_0).
    rewrite Z.land_spec, E, Z.shiftl_spec, Z.sub_diag in Hb by done. done.
  - apply negb_false_iff, Z.eqb_eq. apply Z.bits_inj'. intros j Hj. rewrite Z.land_spec, Z.bits_0.
    destruct (Z.eq_dec j m) as [->|]; [by rewrite E|]. apply andb_false_iff. right. rewrite Z.shiftl_spec by done.
    destruct (Z.ltb_spec j m); [apply Z.testbit_neg_r; lia|].
    rewrite (Z.bits_above_log2 1) by (cbn; lia). done.
Qed.

Lemma length_setBit bm i v : length (setBit bm i v) = max (length bm) (S (i / 64)).
Proof. unfold setBit. rewrite length_alter, length_app, length_replicate. lia. Qed.
Lemma setBit_room bm i v : i < 64 * length (setBit bm i v).
Proof. rewrite length_setBit. pose proof (Nat.div_mod_eq i 64). pose proof (Nat.mod_upper_bound i 64). lia. Qed.
Lemma nth_app_zeros (bm : list Z) n j : nth j (bm ++ replicate n 0%Z) 0%Z = nth j bm 0%Z.
Proof.
  destruct (decide (j < length bm)); [by apply app_nth1|]. rewrite app_nth2, (nth_overflow bm) by lia.
  destruct (decide (j - length bm < n)); [|apply nth_overflow; rewrite length_replicate; lia].
  apply nth_lookup_Some, lookup_replicate_2. lia.
Qed.
Lemma bit_setBit bm i v j : (v = 0 \/ v = 1)%Z ->
  bit (setBit bm i v) j = if decide (j = i) then bit bm i || (v =? 1)%Z else bit bm j.
Proof.
  intros Hv. unfold bit, setBit. set (bm' := bm ++ replicate (S (i / 64) - length bm) 0%Z).
  assert (Hn : forall k, nth k bm' 0%Z = nth k bm 0%Z) by (intros; apply nth_app_zeros).
  assert (Hl : i / 64 < length bm') by (subst bm'; rewrite length_app, length_replicate; lia).
  set (f := fun w => Z.lor w _). assert (Hm : i mod 64 < 64) by (apply Nat.mod_upper_bound; lia).
  assert (Hsh : u64 (Z.shiftl v (Z.of_nat (i mod 64))) = Z.shiftl v (Z.of_nat (i mod 64))).
  { unfold u64. apply Z.mod_small. rewrite Z.shiftl_mul_pow2 by lia. assert (2 ^ Z.of_nat (i mod 64) < 2 ^ 64)%Z by (apply Z.pow_lt_mono_r; lia).
    assert (0 < 2 ^ Z.of_nat (i mod 64))%Z by (apply Z.pow_pos_nonneg; lia). destruct Hv as [-> | ->]; lia. }
  assert (Ha : nth (j / 64) (alter f (i / 64) bm') 0%Z = if decide (j / 64 = i / 64) then f (nth (j / 64) bm 0%Z) else nth (j / 64) bm 0%Z).
  { destruct (decide (j / 64 = i / 64)) as [->|Hne].
    - apply nth_lookup_Some. rewrite list_lookup_alter_eq. destruct (lookup_lt_is_Some_2 _ _ Hl) as [w Hw]. rewrite Hw. cbn. f_equal.
      rewrite <- Hn. by rewrite (nth_lookup_Some _ _ _ _ Hw).
    - rewrite <- Hn. rewrite !nth_lookup. by rewrite list_lookup_alter_ne. }
  rewrite Ha. clear Ha. destruct (decide (j = i)) as [->|Hne].
  - rewrite decide_True by done. unfold f. rewrite Hsh, Z.lor_spec. f_equal. rewrite Z.shiftl_spec, Z.sub_diag by lia. by destruct Hv as [-> | ->].
  - destruct (decide (j / 64 = i / 64)) as [Hd|]; [|done]. unfold f. rewrite Hsh, Z.lor_spec. rewrite Z.shiftl_spec by lia.
    assert (Hneq : j mod 64 <> i mod 64) by (intros E; apply Hne; rewrite (Nat.div_mod_eq j 64), (Nat.div_mod_eq i 64); lia).
    assert (Z.testbit v (Z.of_nat (j mod 64) - Z.of_nat (i mod 64)) = false) as ->; [|by rewrite orb_false_r].
    destruct Hv as [-> | ->]; [apply Z.bits_0|]. destruct (Z.ltb_spec (Z.of_nat (j mod 64) - Z.of_nat (i mod 64)) 0); [apply Z.testbit_neg_r; lia|].
    apply Z.bits_above_log2; [done|]. change (Z.log2 1) with 0%Z. lia.
Qed.
Lemma holds_setBit bm l (b : bool) : holds_bits bm l -> holds_bits (setBit bm (length l) (if b then 1 else 0)%Z) (l ++ [b]).
Proof.
  intros Hb j. rewrite bit_setBit by (destruct b; auto). rewrite !Hb. destruct (decide (j = length l)) as [->|Hne].
  - rewrite nth_middle, nth_overflow by done. by destruct b.
  - destruct (decide (j < length l)); [by rewrite app_nth1|]. rewrite !nth_overflow; [done|rewrite length_app; cbn; lia|lia].
Qed.
Lemma holds_false bm l : holds_bits bm l -> holds_bits bm (l ++ [false]).
Proof.
  intros Hb j. rewrite Hb. destruct (decide (j < length l)); [by rewrite app_nth1|]. rewrite nth_overflow by lia.
  destruct (decide (j = length l)) as [->|]; [by rewrite nth_middle|]. rewrite nth_overflow; [done|rewrite length_app; cbn; lia].
Qed.

(** ** Tries of keys *)

(** A node: the bytes that lead to it, and what is left of its keys. *)
Definition node : Type := key * list key.

Definition leafb (n : node) : bool := match n.2 with [] :: _ => true | _ => false end.
Definition body (W : list key) : list key := match W with [] :: W => W | W => W end.
(** The words by first byte, neighbours together. *)
Fixpoint group (W : list key) : list (Z * list key) :=
  match W with
  | [] => []
  | [] :: W => group W
  | (c :: w) :: W =>
      match group W with
      | (d, G) :: rest => if (c =? d)%Z then (c, w :: G) :: rest else (c, [w]) :: (d, G) :: rest
      | [] => [(c, [w])]
      end
  end.
Definition labs (n : node) : list Z := map fst (group (body n.2)).
Definition subs (n : node) : list node := map (fun cg => (n.1 ++ [cg.1], cg.2)) (group (body n.2)).
Definition unary (n : node) : list bool := replicate (length (labs n)) false ++ [true].

Lemma length_subs n : length (subs n) = length (labs n).
Proof. unfold subs, labs. by rewrite !length_map. Qed.

Definition nonempty (W : list key) : Prop := Forall (fun w => w <> []) W.

Lemma group_first c w W : nonempty W -> exists G W2,
  (c :: w) :: W = map (cons c) (w :: G) ++ W2 /\ group ((c :: w) :: W) = (c, w :: G) :: group W2 /\ nonempty W2 /\
  match W2 with (d :: _) :: _ => d <> c | _ => W2 = [] end.
Proof.
  revert c w. induction W as [|v W IH]; intros c w HW.
  { exists [], []. done. }
  inversion HW as [|? ? Hv HW']; subst. destruct v as [|d v]; [done|]. destruct (IH d v HW') as (G & W2 & E1 & E2 & H2 & Hd).
  destruct (Z.eq_dec c d) as [<-|Hne].
  - exists (v :: G), W2. split_and!; try done; [by rewrite E1|]. cbn [group] in *. rewrite E2, Z.eqb_refl. done.
  - exists [], ((d :: v) :: W). split_and!; try done; try congruence; try (by constructor). change (group ((c :: w) :: (d :: v) :: W)) with
      (match group ((d :: v) :: W) with (d, G) :: rest => if (c =? d)%Z then (c, w :: G) :: rest else (c, [w]) :: (d, G) :: rest | [] => [(c, [w])] end).
    rewrite E2. by rewrite (proj2 (Z.eqb_neq c d)).
Qed.

(** Words in strict order: only the first can be empty, and so in every child. *)
Definition lt_key (a b : key) : Prop := bytes_le a b = true /\ a <> b.
Definition sorted (W : list key) : Prop := StronglySorted lt_key W.
Definition good (n : node) : Prop := n.2 <> [] /\ sorted n.2.

(** The number of children of the first [k] nodes. *)
Definition base (P : list node) (k : nat) : nat := length (concat (map subs (take k P))).

(** Nodes in the order of their numbers: each node but the root is where its parent's
    children are listed, behind its parent. *)
Record louds (root : node) (P : list node) : Prop := {
  louds_eq : P = root :: concat (map subs P);
  louds_order k : k < length P -> k <= base P k;
  louds_good : Forall good P }.

(** ** What the construction writes *)

Section Build.
Context {BM : Bitmap}.
Variable keys : list key.

(** A queue element is a node: an interval of keys that share the bytes before [col]. *)
Definition interval (col : nat) (se : nat * nat) (n : node) : Prop :=
  se.1 < se.2 /\ length n.1 = col /\ n.2 <> [] /\ (forall i, i < se.2 - se.1 -> keys !! (se.1 + i) = app n.1 <$> n.2 !! i) /\
  length n.2 = se.2 - se.1 /\ se.2 <= length keys.

Lemma key_byte_interval p W s col i c w : col = length p -> (forall i, i < length W -> keys !! (s + i) = app p <$> W !! i) ->
  W !! i = Some (c :: w) -> key_byte keys (s + i) col = QOk c.
Proof.
  intros -> HW Hi. unfold key_byte, index. assert (i < length W) by by eapply lookup_lt_Some.
  rewrite HW, Hi by done. cbn. rewrite lookup_app_r by done. by rewrite Nat.sub_diag.
Qed.

(** The run of keys that begin with [c] ends where the words of the first group do. *)
Lemma run_end_group p c W2 : (match W2 with (d :: _) :: _ => d <> c | _ => W2 = [] end) ->
  forall G s frm n, length p < S (length p) -> key_byte keys frm (length p) = QOk c ->
  (forall i, i < length (map (cons c) G ++ W2) -> keys !! (s + i) = app p <$> (map (cons c) G ++ W2) !! i) ->
  n = length (map (cons c) G ++ W2) ->
  run_end n keys (length p) frm s = QOk (s + length G).
Proof.
  intros H2. induction G as [|w G IH]; intros s frm n Hp Hf HW ->; cbn [map app length run_end].
  - rewrite Nat.add_0_r. destruct W2 as [|[|d v] W2]; [done|done|]. cbn [length run_end].
    pose proof (key_byte_interval p _ s (length p) 0 d v eq_refl HW eq_refl) as E. rewrite Nat.add_0_r in E. rewrite E, Hf.
    cbn [mbind qres_bind]. by rewrite (proj2 (Z.eqb_neq d c)).
  - pose proof (key_byte_interval p _ s (length p) 0 c w eq_refl HW eq_refl) as E. rewrite Nat.add_0_r in E. rewrite E, Hf.
    cbn [mbind qres_bind]. rewrite Z.eqb_refl. rewrite (IH (S s) frm _ Hp Hf); [f_equal; lia| |done].
    intros i Hi. specialize (HW (S i)). cbn [map app length lookup] in HW. rewrite <- Nat.add_succ_comm in HW. apply HW. cbn. lia.
Qed.

(** The fields of the state that a node's children are written to. *)
Definition adds (st st' : builder) (ls : list Z) (q : list (nat * nat)) (bits : list bool) : Prop :=
  b_leaves st' = b_leaves st /\ b_labels st' = b_labels st ++ ls /\ next_queue st' = next_queue st ++ q /\
  nodeID st' = nodeID st /\ terminals st' = terminals st /\ lIdx st' = lIdx st + length bits /\
  forall l, length l = lIdx st -> holds_bits (b_bitmap st) l -> holds_bits (b_bitmap st') (l ++ bits).

Lemma children_loop_adds p : forall fuel W s e st, length W <= fuel -> e = s + length W -> nonempty W -> e <= length keys ->
  (forall i, i < length W -> keys !! (s + i) = app p <$> W !! i) ->
  exists st' q, children_loop fuel keys (length p) s e st = QOk st' /\
    adds st st' (map fst (group W)) q (replicate (length (group W)) false) /\
    Forall2 (interval (S (length p))) q (map (fun cg => (p ++ [cg.1], cg.2)) (group W)).
Proof.
  induction fuel as [|fuel IH]; intros W s e st Hf -> HW He HK; (destruct W as [|[|c w] W]; [|by inversion HW|]).
  1, 3: exists st, []; cbn [children_loop length]; rewrite (proj2 (Nat.ltb_ge _ _)) by lia; split; [done|]; split; [|exact (List.Forall2_nil _)];
    unfold adds; rewrite !app_nil_r; cbn; split_and!; try done; try lia; try (intros l _; by rewrite app_nil_r).
  - cbn in Hf. lia.
  - inversion HW as [|? ? _ HW']; subst. destruct (group_first c w W HW') as (G & W2 & E1 & E2 & H2 & Hd).
    cbn [children_loop]. rewrite (proj2 (Nat.ltb_lt _ _)) by (cbn; lia).
    pose proof (key_byte_interval p _ s (length p) 0 c w eq_refl HK eq_refl) as Ec. rewrite Nat.add_0_r in Ec.
    assert (Elen : length ((c :: w) :: W) = S (length G) + length W2) by (rewrite E1, length_app, length_map; cbn; lia).
    rewrite (run_end_group p c W2 Hd (w :: G) s s) by (try rewrite <- E1; try done; lia). cbn [mbind qres_bind]. rewrite Ec. cbn [mbind qres_bind].
    set (st1 := mkBuilder _ _ _ _ _ _ _).
    assert (HK2 : forall i, i < length W2 -> keys !! (s + length (w :: G) + i) = app p <$> W2 !! i).
    { intros i Hi. specialize (HK (length (w :: G) + i)). rewrite Nat.add_assoc in HK. rewrite HK by (rewrite Elen; cbn; lia).
      rewrite E1, lookup_app_r by (rewrite length_map; lia). rewrite length_map. f_equal. f_equal. lia. }
    destruct (IH W2 (s + length (w :: G)) (s + length ((c :: w) :: W)) st1) as (st' & q & E & Ha & Hq);
      [cbn in *; lia|rewrite Elen; cbn; lia|done|done|done|].
    rewrite E. exists st', ((s, s + length (w :: G)) :: q). split; [done|]. rewrite E2. cbn [map fst snd]. split.
    + destruct Ha as (A1 & A2 & A3 & A4 & A5 & A6 & A7). unfold adds. rewrite A1, A2, A3, A4, A5, A6. cbn.
      rewrite <- !app_assoc. split_and!; try done; try lia. intros l Hl Hb. rewrite (cons_middle false l), app_assoc. apply A7.
      * rewrite length_app. cbn. lia.
      * cbn. rewrite <- Hl. by apply (holds_setBit _ _ false).
    + constructor; [|done]. unfold interval. cbn [fst snd]. rewrite length_app. cbn [length]. split_and!; try done; try lia.
      * intros i Hi. rewrite HK by (rewrite Elen; lia). rewrite E1, lookup_app_l by (rewrite length_map; cbn; lia).
        rewrite list_lookup_fmap. destruct ((w :: G) !! i); cbn; [|done]. by rewrite <- app_assoc.
Qed.

Lemma sorted_body W : sorted W -> nonempty (body W) /\ sorted (body W) /\ W = (if leafb ([], W) then [[]] else []) ++ body W.
Proof.
  intros HS. assert (Hn : forall a W, sorted (a :: W) -> nonempty W).
  { intros a V HV. inversion HV as [|? ? _ HF]; subst. eapply Forall_impl; [exact HF|]. intros w [Hle Hne] ->. by destruct a. }
  destruct W as [|[|c w] W]; cbn; [by split; [constructor|]|..].
  - split_and!; [by apply (Hn [])|by inversion HS|done].
  - split_and!; try done. constructor; [done|]. by apply (Hn (c :: w)).
Qed.
Lemma sorted_app W V : sorted (W ++ V) -> sorted W /\ sorted V.
Proof.
  unfold sorted. induction W as [|w W IH]; cbn; [by intros; split; [constructor|]|]. intros H. inversion H as [|? ? HS HF]; subst.
  destruct (IH HS) as [H1 H2]. split; [|done]. constructor; [done|]. by apply Forall_app in HF as [? _].
Qed.
Lemma sorted_map_cons c G : sorted (map (cons c) G) -> sorted G.
Proof.
  unfold sorted. induction G as [|g G IH]; cbn; [by constructor|]. intros H. inversion H as [|? ? HS HF]; subst. constructor; [by apply IH|].
  rewrite Forall_map in HF. eapply Forall_impl; [exact HF|]. intros w [Hle Hne]. cbn in Hle. rewrite Z.ltb_irrefl, Z.eqb_refl in Hle. split; [done|congruence].
Qed.
Lemma group_sorted W : nonempty W -> sorted W -> Forall (fun cg => cg.2 <> [] /\ sorted cg.2) (group W).
Proof.
  intros HW HS. remember (length W) as n eqn:Hn. revert W Hn HW HS. induction (lt_wf n) as [n _ IH]. intros W -> HW HS.
  destruct W as [|[|c w] W]; [constructor|by inversion HW|]. inversion HW as [|? ? _ HW']; subst.
  destruct (group_first c w W HW') as (G & W2 & E1 & E2 & H2 & _). rewrite E2. rewrite E1 in HS. apply sorted_app in HS as [S1 S2].
  constructor; [split; [done|by apply sorted_map_cons in S1]|]. apply (IH (length W2)); try done.
  rewrite E1, length_app, length_map. cbn. lia.
Qed.
Lemma subs_sorted n : sorted n.2 -> Forall good (subs n).
Proof.
  intros HS. destruct (sorted_body _ HS) as (H1 & H2 & _). unfold subs. apply Forall_map. eapply Forall_impl; [by apply group_sorted|]. done.
Qed.

(** ** Nodes, levels and all *)

(** The state after the nodes [P]. *)
Record writes (st : builder) (P : list node) : Prop := {
  w_leaves : holds_bits (b_leaves st) (map leafb P);
  w_bits : holds_bits (b_bitmap st) (concat (map unary P));
  w_idx : lIdx st = length (concat (map unary P));
  w_labels : b_labels st = concat (map labs P);
  w_node : nodeID st = length P;
  w_terms : terminals st = map fst (filter (fun n => leafb n = true) P);
  w_room : P = [] \/ lIdx st <= 64 * length (b_bitmap st);
  w_last : forall n, last P = Some n -> leafb n = true -> length P <= 64 * length (b_leaves st) }.

Lemma build_node_writes st P se n col : writes st P -> interval col se n -> sorted n.2 ->
  exists st' q, build_node keys col se st = QOk st' /\ writes st' (P ++ [n]) /\ next_queue st' = next_queue st ++ q /\
    Forall2 (interval (S col)) q (subs n).
Proof.
  intros HW (H1 & <- & H3 & H4 & H5 & H6) HS. destruct (sorted_body _ HS) as (B1 & B2 & B3). destruct n as [p W]. cbn [fst snd] in *.
  unfold build_node. destruct W as [|w W]; [done|]. pose proof (H4 0 ltac:(lia)) as E0. rewrite Nat.add_0_r in E0. cbn in E0.
  unfold index at 1. rewrite E0. cbn [mbind qres_bind]. destruct se as [s e]. cbn [fst snd] in *.
  set (leaf := leafb (p, w :: W)). assert (El : (length p =? length (p ++ w)) = leaf).
  { subst leaf. rewrite length_app. destruct w; cbn [leafb fst snd length]; [apply Nat.eqb_eq|apply Nat.eqb_neq]; lia. }
  rewrite El. set (sst := if leaf then _ else _). set (s1 := if leaf then S s else s).
  set (st1 := if leaf then mkBuilder (setBit (b_leaves st) (nodeID st) 1) (b_bitmap st) (b_labels st) (lIdx st) (nodeID st) (next_queue st) (terminals st ++ [p ++ w]) else st).
  assert (sst = (s1, st1)) as -> by (subst sst s1 st1; by destruct leaf).
  change (leafb ([], w :: W)) with leaf in B3.
  assert (Hlen : (if leaf then 1 else 0) + length (body (w :: W)) = e - s).
  { rewrite <- H5. pose proof (f_equal length B3) as H7. rewrite length_app in H7. rewrite H7. by destruct leaf. }
  assert (Hs1 : s1 = s + if leaf then 1 else 0) by (subst s1; destruct leaf; lia).
  destruct (children_loop_adds p (e - s1) (body (w :: W)) s1 e st1) as (st2 & q & E & Ha & Hq); try done; try lia.
  - intros i Hi. rewrite Hs1, <- Nat.add_assoc, H4 by lia. set (B := body (w :: W)) in *. rewrite B3. by destruct leaf.
  - rewrite E. cbn [mbind qres_bind mret qres_ret]. eexists _, q. split; [done|]. destruct Ha as (A1 & A2 & A3 & A4 & A5 & A6 & A7).
    assert (F : b_labels st1 = b_labels st /\ lIdx st1 = lIdx st /\ nodeID st1 = nodeID st /\ next_queue st1 = next_queue st /\ b_bitmap st1 = b_bitmap st)
      by (subst st1; by destruct leaf). destruct F as (F1 & F2 & F3 & F4 & F5).
    split; [|split; [cbn; by rewrite A3, F4|exact Hq]]. destruct HW as [W1 W2 W3 W4 W5 W6 W7 W8].
    assert (Eu : unary (p, w :: W) = replicate (length (group (body (w :: W)))) false ++ [true]) by (unfold unary, labs; by rewrite length_map).
    assert (Hbits : holds_bits (setBit (b_bitmap st2) (lIdx st2) 1) (concat (map unary (P ++ [(p, w :: W)])))).
    { rewrite map_app, concat_app. cbn [map concat]. rewrite app_nil_r, Eu, app_assoc. rewrite A6, F2, W3, <- length_app.
      apply (holds_setBit _ _ true). apply A7; [by rewrite F2|by rewrite F5]. }
    constructor; cbn [b_leaves b_bitmap b_labels lIdx nodeID terminals next_queue].
    + rewrite map_app. change (map leafb [(p, w :: W)]) with [leaf]. rewrite A1. subst st1. destruct leaf; cbn [b_leaves].
      * rewrite W5, <- (length_map leafb P). by apply (holds_setBit _ _ true).
      * by apply holds_false.
    + exact Hbits.
    + rewrite A6, F2, W3, map_app, concat_app, length_app. cbn [map concat]. rewrite app_nil_r, Eu, length_app. cbn. lia.
    + rewrite A2, F1, W4, map_app, concat_app. cbn. by rewrite app_nil_r.
    + rewrite A4, F3, W5, length_app. cbn. lia.
    + rewrite A5, filter_app, map_app. unfold filter at 2. cbn [list_filter]. subst st1.
      change (leafb (p, w :: W)) with leaf. destruct leaf eqn:Eleaf; cbn.
      * rewrite W6. destruct w; [by rewrite app_nil_r|]. done.
      * by rewrite app_nil_r.
    + right. pose proof (setBit_room (b_bitmap st2) (lIdx st2) 1). lia.
    + intros m Hm Hl. rewrite last_snoc in Hm. injection Hm as <-. fold leaf in Hl. rewrite A1. subst st1. rewrite Hl. cbn [b_leaves].
      pose proof (setBit_room (b_leaves st) (nodeID st) 1). rewrite length_app. cbn [length]. rewrite W5 in *. lia.
Qed.

Lemma build_level_writes col : forall queue N st P Nn, writes st P -> Forall2 (interval col) queue N ->
  Forall (fun n => sorted n.2) N -> Forall2 (interval (S col)) (next_queue st) Nn ->
  exists st', build_level keys col queue st = QOk st' /\ writes st' (P ++ N) /\ Forall2 (interval (S col)) (next_queue st') (Nn ++ concat (map subs N)).
Proof.
  induction queue as [|se queue IH]; intros N st P Nn HW HQ HS HN; inversion HQ as [|? n ? N' H1 H2]; subst; cbn [build_level].
  - exists st. cbn. by rewrite !app_nil_r.
  - inversion HS as [|? ? S1 S2]; subst. destruct (build_node_writes _ _ _ _ _ HW H1 S1) as (st1 & q & -> & HW1 & Eq & Hq). cbn [mbind qres_bind].
    destruct (IH N' st1 (P ++ [n]) (Nn ++ subs n)) as (st' & E & HW' & HN'); [done..|by rewrite Eq; apply Forall2_app|].
    exists st'. cbn [map concat]. rewrite <- !app_assoc in *. done.
Qed.

Lemma writes_next st P q : writes st P -> writes (mkBuilder (b_leaves st) (b_bitmap st) (b_labels st) (lIdx st) (nodeID st) q (terminals st)) P.
Proof. intros [? ? ? ? ? ? ? ?]. by constructor. Qed.

(** The longest word of the nodes. *)
Definition short (m : nat) (N : list node) : Prop := Forall (fun n => Forall (fun w => length w < m) n.2) N.
Lemma group_short m W : Forall (fun w => length w < S m) W -> nonempty W -> Forall (fun cg => Forall (fun w => length w < m) cg.2) (group W).
Proof.
  intros HW HN. remember (length W) as n eqn:Hn. revert W Hn HW HN. induction (lt_wf n) as [n _ IH]. intros W -> HW HN.
  destruct W as [|[|c w] W]; [constructor|by inversion HN|]. inversion HN as [|? ? _ HN']; subst.
  destruct (group_first c w W HN') as (G & W2 & E1 & E2 & H2 & _). rewrite E2. rewrite E1 in HW. apply Forall_app in HW as [F1 F2].
  constructor; [|apply (IH (length W2)); try done; rewrite E1, length_app, length_map; cbn; lia].
  rewrite Forall_map in F1. eapply Forall_impl; [exact F1|]. cbn. lia.
Qed.
Lemma short_subs m N : Forall (fun n => sorted n.2) N -> short (S m) N -> short m (concat (map subs N)).
Proof.
  unfold short. induction N as [|n N IH]; intros HS H; [constructor|]. inversion HS; inversion H; subst. cbn. apply Forall_app. split; [|by apply IH].
  unfold subs. apply Forall_map. destruct (sorted_body n.2) as (B1 & _ & B3); [done|]. apply (group_short m); [|done].
  rewrite B3 in H6. by apply Forall_app in H6 as [_ ?].
Qed.

Lemma base_app P N k : k <= length P -> base (P ++ N) k = base P k.
Proof. intros. unfold base. by rewrite take_app_le. Qed.
Lemma base_ge P N i : base (P ++ N) (length P + i) >= base P (length P).
Proof.
  unfold base. rewrite firstn_all, take_app_add, map_app, concat_app, length_app. lia.
Qed.
Lemma build_levels_writes root : forall fuel col queue N st P, writes st P -> next_queue st = [] -> Forall2 (interval col) queue N ->
  Forall good N -> short fuel N -> P ++ N = root :: concat (map subs P) -> Forall good P -> (forall k, k < length P -> k <= base P k) ->
  exists st' P', build_levels fuel keys col queue st = QOk st' /\ writes st' P' /\ louds root P'.
Proof.
  induction fuel as [|fuel IH]; intros col queue N st P HW HN HQ HS Hf Hl HG HO;
    (destruct queue as [|se queue]; inversion HQ as [|? n ? N' H1 H2]; subst; cbn [build_levels];
     [exists st, P; rewrite app_nil_r in Hl; split_and!; done|]).
  - exfalso. inversion Hf as [|? ? F1 _]; subst. inversion HS as [|? ? [S1 _] _]; subst. destruct n.2 as [|w W]; [done|]. inversion F1. lia.
  - assert (HS2 : Forall (fun n => sorted n.2) (n :: N')) by (eapply Forall_impl; [exact HS|]; by intros ? [_ ?]).
    destruct (build_level_writes col (se :: queue) (n :: N') st P [] HW HQ HS2) as (st1 & -> & HW1 & HN1); [rewrite HN; exact (List.Forall2_nil _)|].
    cbn [mbind qres_bind]. apply (IH (S col) _ (concat (map subs (n :: N'))) _ (P ++ n :: N')); try done.
    + by apply writes_next.
    + clear -HS2. induction HS2 as [|m N Hm HN IH]; [constructor|]. cbn. apply Forall_app. split; [by apply subs_sorted|done].
    + by apply short_subs.
    + rewrite map_app, concat_app. rewrite Hl. done.
    + by apply Forall_app.
    + intros k Hk. destruct (decide (k < length P)); [rewrite base_app by lia; auto|].
      replace k with (length P + (k - length P)) at 2 by lia. pose proof (base_ge P (n :: N') (k - length P)) as Hb.
      unfold base in Hb at 2. rewrite firstn_all in Hb. apply (f_equal length) in Hl. rewrite length_app in Hl, Hk. cbn [length] in *. lia.
Qed.
End Build.

(** ** Sorting the keys *)

Lemma bytes_le_total a b : bytes_le a b = false -> bytes_le b a = true.
Proof.
  revert b. induction a as [|x a IH]; intros [|y b]; cbn; try done. rewrite orb_false_iff, andb_false_iff. intros [H1%Z.ltb_ge H2].
  destruct (Z.ltb_spec y x); [done|]. cbn. assert (x = y) as -> by lia. rewrite Z.eqb_refl in *. destruct H2; [done|]. cbn. auto.
Qed.
Lemma bytes_le_trans a b c : bytes_le a b = true -> bytes_le b c = true -> bytes_le a c = true.
Proof.
  revert b c. induction a as [|x a IH]; intros [|y b] [|z c]; cbn; try done.
  rewrite !orb_true_iff, !andb_true_iff, !Z.ltb_lt, !Z.eqb_eq. intros [?|[-> ?]] [?|[-> ?]]; try (left; lia). right. split; [done|]. by apply (IH b).
Qed.
Lemma bytes_le_antisym a b : bytes_le a b = true -> bytes_le b a = true -> a = b.
Proof.
  revert b. induction a as [|x a IH]; intros [|y b]; cbn; try done.
  rewrite !orb_true_iff, !andb_true_iff, !Z.ltb_lt, !Z.eqb_eq. intros [?|[-> ?]] [?|[? ?]]; try lia. f_equal. by apply IH.
Qed.
Lemma lt_key_trans a b c : lt_key a b -> lt_key b c -> lt_key a c.
Proof.
  intros [H1 H2] [H3 H4]. split; [by apply (bytes_le_trans _ b)|]. intros <-. apply H2. by apply bytes_le_antisym.
Qed.

Lemma elem_insert_key x k l : x ∈ insert_key k l <-> x = k \/ x ∈ l.
Proof.
  induction l as [|y l IH]; cbn; [by rewrite list_elem_of_singleton, elem_of_nil; intuition|].
  destruct (bytes_le k y); rewrite !elem_of_cons; [done|]. rewrite IH. naive_solver.
Qed.
Lemma elem_sort_keys x l : x ∈ sort_keys l <-> x ∈ l.
Proof. induction l as [|y l IH]; cbn; [done|]. by rewrite elem_insert_key, IH, elem_of_cons. Qed.
Lemma insert_key_sorted k l : StronglySorted (fun a b => bytes_le a b = true) l -> StronglySorted (fun a b => bytes_le a b = true) (insert_key k l).
Proof.
  intros H. induction H as [|y r Hs IH Hf]; cbn; [by repeat constructor|]. destruct (bytes_le k y) eqn:E.
  - constructor; [by constructor|]. constructor; [done|]. eapply Forall_impl; [exact Hf|]. intros z Hz. by apply (bytes_le_trans k y z).
  - constructor; [done|]. apply Forall_forall. intros z Hz%elem_insert_key. destruct Hz as [->|Hz]; [by apply bytes_le_total|].
    rewrite Forall_forall in Hf. auto.
Qed.
Lemma sort_keys_sorted l : StronglySorted (fun a b => bytes_le a b = true) (sort_keys l).
Proof. induction l as [|k l IH]; cbn; [constructor|]. by apply insert_key_sorted. Qed.
Lemma elem_compact x l : x ∈ compact l <-> x ∈ l.
Proof.
  induction l as [|y l IH]; [done|]. cbn [compact]. destruct l as [|z r]; [done|]. case_bool_decide as E.
  - subst. rewrite IH, !elem_of_cons. naive_solver.
  - rewrite !elem_of_cons in *. rewrite IH. naive_solver.
Qed.
Lemma compact_sorted l : StronglySorted (fun a b => bytes_le a b = true) l -> sorted (compact l).
Proof.
  unfold sorted. intros H. induction H as [|y l Hs IH Hf]; [constructor|]. cbn [compact]. destruct l as [|z r]; [by repeat constructor|].
  case_bool_decide as E; [done|]. constructor; [done|]. apply Forall_forall. intros x Hx. rewrite elem_compact in Hx.
  assert (Hyz : lt_key y z) by (inversion Hf; split; auto). apply elem_of_cons in Hx as [->|Hx]; [done|].
  inversion Hs as [|? ? _ Hz]; subst. rewrite Forall_forall in Hz, Hf.
  split; [apply Hf; by right|]. intros ->. destruct Hyz as [H1 H2]. apply H2. apply bytes_le_antisym; [done|]. by apply Hz.
Qed.
Definition trie_keys (keys : list key) : list key := compact (sort_keys keys).
Lemma elem_trie_keys x l : x ∈ trie_keys l <-> x ∈ l.
Proof. unfold trie_keys. by rewrite elem_compact, elem_sort_keys. Qed.
Lemma trie_keys_sorted l : sorted (trie_keys l).
Proof. apply compact_sorted, sort_keys_sorted. Qed.

(** ** The arrays of a set *)

Record stores {BM : Bitmap} (ss : DomainSet) (P : list node) : Prop := {
  s_leaves i : i < length P -> isSet (leaves ss) i = QOk (nth i (map leafb P) false);
  s_bits : holds_bits (labelBitmap ss) (concat (map unary P));
  s_room : length (concat (map unary P)) <= 64 * length (labelBitmap ss);
  s_labels : labels ss = concat (map labs P);
  s_leafbits : holds_bits (leaves ss) (map leafb P);
  s_leafroom : length P <= 64 * length (leaves ss);
  s_index : (selects ss, ranks ss) = IndexSelect32R64 (labelBitmap ss) }.

Lemma no_children_leaf n : good n -> subs n = [] -> leafb n = true.
Proof.
  intros [Hne HS] Hs. destruct (sorted_body _ HS) as (B1 & _ & B3). unfold subs in Hs. apply map_eq_nil in Hs.
  unfold leafb. destruct n as [p [|[|c w] W]]; cbn in *; try done. destruct (group_first c w W) as (G & W2 & _ & E & _); [by inversion B1|].
  cbn in E. congruence.
Qed.
Lemma louds_last root P n : louds root P -> last P = Some n -> leafb n = true.
Proof.
  intros [HE HO HG] Hn. pose proof Hn as Hlk. rewrite last_lookup in Hlk. apply no_children_leaf.
  { rewrite Forall_lookup in HG. by eapply HG. }
  assert (Hlen : length P = S (length (concat (map subs P)))) by (rewrite HE at 1; done).
  specialize (HO (pred (length P)) ltac:(lia)). unfold base in HO.
  assert (HP : P = take (pred (length P)) P ++ [n]).
  { apply last_Some in Hn as [l El]. rewrite El at 1. f_equal. rewrite El, length_app. cbn [length].
    rewrite Nat.add_1_r. symmetry. apply take_app_length. }
  rewrite HP in Hlen at 2. rewrite map_app, concat_app, length_app in Hlen. cbn [map concat] in Hlen. rewrite app_nil_r in Hlen.
  apply length_zero_iff_nil. lia.
Qed.

(** [buildDomainSet] does not panic, and writes the nodes of the trie of the keys. *)
Lemma buildDomainSet_stores {BM : Bitmap} (ks : list key) : ks <> [] ->
  exists ss P, buildDomainSet ks = QOk (Some ss, map fst (filter (fun n => leafb n = true) P)) /\
    louds ([], trie_keys ks) P /\ stores ss P.
Proof.
  intros Hne. set (K := trie_keys ks). pose proof (trie_keys_sorted ks) as HS. fold K in HS.
  assert (HK : K <> []). { destruct ks as [|k ks]; [done|]. intros E. assert (k ∈ K) as H by (apply elem_trie_keys; left). rewrite E in H. by apply elem_of_nil in H. }
  set (st0 := mkBuilder [] [] [] 0 0 [] []).
  destruct (build_levels_writes K ([], K) (S (list_max (map length K))) 0 [(0, length K)] [([], K)] st0 []) as (st & P & E & HW & HL).
  - assert (Hnil : holds_bits [] []) by (intros i; unfold bit; rewrite !nth_overflow by (cbn; lia); apply Z.bits_0).
    constructor; try done. by left.
  - done.
  - constructor; [|exact (List.Forall2_nil _)]. unfold interval. cbn. rewrite Nat.sub_0_r. destruct K; [done|]. cbn. split_and!; try done; [lia|].
    intros i _. by destruct (_ !! i).
  - by repeat constructor.
  - constructor; [|constructor]. cbn. apply Forall_forall. intros w Hw. assert (Hm : Forall (fun k => k <= list_max (map length K)) (map length K)) by by apply list_max_le.
    rewrite Forall_forall in Hm. specialize (Hm (length w)). rewrite list_elem_of_fmap in Hm. assert (length w <= list_max (map length K)) by (apply Hm; eauto). lia.
  - done.
  - done.
  - cbn. lia.
  - assert (Hb : buildDomainSet ks = QOk (Some (init_set (b_leaves st) (b_bitmap st) (b_labels st)), terminals st)).
    { unfold buildDomainSet. destruct ks as [|k ks]; [done|]. fold (trie_keys (k :: ks)). fold K. fold st0. by rewrite E. }
    rewrite Hb. eexists _, P. rewrite (w_terms _ _ HW). split; [done|]. split; [done|].
    assert (HP : P <> []) by (rewrite (louds_eq _ _ HL); done).
    assert (Hlast : length P <= 64 * length (b_leaves st)).
    { destruct (last P) as [n|] eqn:En; [|by apply last_None in En]. apply (w_last _ _ HW n En). by apply (louds_last _ _ _ HL). }
    unfold init_set. destruct (IndexSelect32R64 (b_bitmap st)) as [sel rk] eqn:Ei. constructor; cbn; try apply HW; try done.
    + intros i Hi. rewrite isSet_bit by (cbn in *; lia). f_equal. apply (w_leaves _ _ HW).
    + destruct (w_room _ _ HW) as [|Hr]; [done|]. by rewrite <- (w_idx _ _ HW).
Qed.
