(* ===== verification/DomainSetProps.v ===== *)
(** * The walk over the arrays finds what a pattern matches

    Moving between nodes in the arrays of [stores], and [walk_loop] against the
    matching of single keys ([kmatch]): the search with its stack of wildcards answers
    yes exactly when some key matches, and ends. *)
From stdpp Require Import sorting.
From S2P Require Import Prelude Names GoText DomainTrie ZList DomainSet Louds.
#[local] Open Scope list_scope.
#[local] Open Scope nat_scope.

(** ** Matching one key *)

(** The text from its next separator on. *)
Fixpoint to_dot (t : key) : key :=
  match t with [] => [] | d :: r => if (d =? domainStepByte)%Z then t else to_dot r end.
(** A key against a text, both backwards: [+] takes all that is left, which must be
    something, [*] takes a label. *)
Fixpoint kmatch (w t : key) : bool :=
  match w, t with
  | [], [] => true
  | c :: w', d :: r =>
      if (c =? complexWildcardByte)%Z then true
      else if (c =? wildcardByte)%Z then kmatch w' (to_dot t)
      else (c =? d)%Z && kmatch w' r
  | _, _ => false
  end.
(** Some word matches. *)
Definition any_match (W : list key) (t : key) : bool := existsb (fun w => kmatch w t) W.

(** What the walk relies on: no byte sorts before the wildcards, and [*] is a whole label. *)
Fixpoint word_ok (w : key) : Prop :=
  match w with
  | [] => True
  | c :: w' => (42 <= c)%Z /\ (c = wildcardByte -> match w' with [] => True | d :: _ => d = domainStepByte end) /\ word_ok w'
  end.
Definition node_ok (n : node) : Prop := Forall word_ok n.2.

(** ** Groups *)

Lemma any_match_app W V t : any_match (W ++ V) t = any_match W t || any_match V t.
Proof. apply existsb_app. Qed.
Lemma any_match_group W t : nonempty W -> any_match W t = existsb (fun cg => any_match (map (cons cg.1) cg.2) t) (group W).
Proof.
  intros HW. remember (length W) as n eqn:Hn. revert W Hn HW. induction (lt_wf n) as [n _ IH]. intros W -> HW.
  destruct W as [|[|c w] W]; [done|by inversion HW|]. inversion HW as [|? ? _ HW']; subst.
  destruct (group_first c w W HW') as (G & W2 & E1 & E2 & H2 & _). rewrite E2, E1, any_match_app. cbn [existsb fst snd]. f_equal.
  apply (IH (length W2)); [|done..]. rewrite E1, length_app, length_map. cbn. lia.
Qed.
Lemma group_heads_sorted W : nonempty W -> sorted W -> StronglySorted Z.lt (map fst (group W)) /\
  match W with (c :: _) :: _ => Forall (fun d => (c <= d)%Z) (map fst (group W)) | _ => True end.
Proof.
  intros HW HS. remember (length W) as n eqn:Hn. revert W Hn HW HS. induction (lt_wf n) as [n _ IH]. intros W -> HW HS.
  destruct W as [|[|c w] W]; [by split; [constructor|]|by inversion HW|]. inversion HW as [|? ? _ HW']; subst.
  destruct (group_first c w W HW') as (G & W2 & E1 & E2 & H2 & Hd). rewrite E2. cbn [map fst].
  assert (HS2 : sorted W2) by (rewrite E1 in HS; by apply sorted_app in HS as [_ ?]).
  destruct (IH (length W2)) with (W := W2) as [I1 I2]; [rewrite E1, length_app, length_map; cbn; lia|done..|].
  assert (Hlt : Forall (fun d => (c < d)%Z) (map fst (group W2))).
  { destruct W2 as [|[|d v] W2]; [constructor|done|].     assert (Hcd : (c < d)%Z).
    { inversion HS as [|? ? _ HF]; subst. rewrite Forall_forall in HF.
      assert (Hin : (d :: v) ∈ W). { cbn in E1. injection E1 as ->. rewrite elem_of_app. right. left. }
      destruct (HF _ Hin) as [Hle _]. cbn in Hle. rewrite orb_true_iff, andb_true_iff, Z.ltb_lt, Z.eqb_eq in Hle. destruct Hle as [|[-> _]]; [done|congruence]. }
    eapply Forall_impl; [exact I2|]. cbn. lia. }
  split; [by constructor|]. constructor; [done|]. eapply Forall_impl; [exact Hlt|]. cbn. lia.
Qed.
Lemma group_words W : nonempty W -> forall cg, cg ∈ group W -> cg.2 <> [] /\ forall w, w ∈ cg.2 -> cg.1 :: w ∈ W.
Proof.
  intros HW. remember (length W) as n eqn:Hn. revert W Hn HW. induction (lt_wf n) as [n _ IH]. intros W -> HW cg Hcg.
  destruct W as [|[|c w] W]; [by apply elem_of_nil in Hcg|by inversion HW|]. inversion HW as [|? ? _ HW']; subst.
  destruct (group_first c w W HW') as (G & W2 & E1 & E2 & H2 & _). rewrite E2 in Hcg. apply elem_of_cons in Hcg as [->|Hcg].
  - split; [done|]. intros v Hv. rewrite E1, elem_of_app. left. by apply (elem_of_map_2 (cons c)).
  - destruct (IH (length W2)) with (W := W2) (cg := cg) as [I1 I2]; [rewrite E1, length_app, length_map; cbn; lia|done..|].
    split; [done|]. intros v Hv. rewrite E1, elem_of_app. right. auto.
Qed.

(** ** Positions *)

Lemma concat_lookup {A} (L : list (list A)) k x t : L !! k = Some x -> t < length x ->
  concat L !! (length (concat (take k L)) + t) = x !! t.
Proof.
  revert k. induction L as [|y L IH]; intros [|k] Hk Ht; cbn in *; try done.
  - injection Hk as ->. by rewrite lookup_app_l.
  - rewrite length_app, <- Nat.add_assoc, lookup_app_r by lia. rewrite Nat.add_comm, Nat.add_sub. by apply IH.
Qed.
Lemma concat_length_le {A} (L : list (list A)) k x : L !! k = Some x -> length (concat (take k L)) + length x <= length (concat L).
Proof.
  revert k. induction L as [|y L IH]; intros [|k] Hk; cbn in *; try done; rewrite !length_app.
  - injection Hk as ->. lia.
  - specialize (IH _ Hk). lia.
Qed.

Section Arrays.
Context {BM : Bitmap} {BL : BitmapLaws BM}.
Variables (ss : DomainSet) (root : node) (P : list node).
Hypothesis HL : louds root P.
Hypothesis HS : stores ss P.
Hypothesis Hsize : (Z.of_nat (64 * length (labelBitmap ss)) < 2 ^ 31)%Z.

(** The first bit of node [k]. *)
Definition start (k : nat) : nat := base P k + k.

Lemma length_unary n : length (unary n) = S (length (labs n)).
Proof. unfold unary. rewrite length_app, length_replicate. cbn. lia. Qed.
Lemma length_unaries Q : length (concat (map unary Q)) = length (concat (map subs Q)) + length Q.
Proof. induction Q as [|n Q IH]; [done|]. cbn. rewrite !length_app, length_unary, length_subs, IH. lia. Qed.
Lemma length_labs Q : length (concat (map labs Q)) = length (concat (map subs Q)).
Proof. induction Q as [|n Q IH]; [done|]. cbn. by rewrite !length_app, length_subs, IH. Qed.
Lemma start_unaries k : k <= length P -> length (concat (take k (map unary P))) = start k.
Proof. intros. rewrite firstn_map, length_unaries, length_take. unfold start, base. lia. Qed.
Lemma start_S k n : P !! k = Some n -> start (S k) = start k + length (labs n) + 1.
Proof.
  intros Hk. unfold start, base. rewrite (take_S_r _ _ _ Hk), map_app, concat_app, length_app. cbn. rewrite app_nil_r, length_subs. lia.
Qed.
Lemma start_in k n t : P !! k = Some n -> t <= length (labs n) -> start k + t < 64 * length (labelBitmap ss).
Proof.
  intros Hk Ht. pose proof (s_room _ _ HS). pose proof (concat_length_le (map unary P) k (unary n)) as H1.
  rewrite start_unaries in H1 by (apply lookup_lt_Some in Hk; lia). rewrite list_lookup_fmap, Hk, length_unary in H1. specialize (H1 eq_refl). lia.
Qed.
Lemma bit_at k n t : P !! k = Some n -> t <= length (labs n) -> isSet (labelBitmap ss) (start k + t) = QOk (t =? length (labs n)).
Proof.
  intros Hk Ht. rewrite isSet_bit by (by apply (start_in _ n)). f_equal. rewrite (s_bits _ _ HS).
  apply nth_lookup_Some. rewrite <- (start_unaries k) by (apply lookup_lt_Some in Hk; lia).
  rewrite (concat_lookup _ _ (unary n)) by (rewrite ?list_lookup_fmap, ?Hk, ?length_unary; done || lia).
  unfold unary. destruct (Nat.eqb_spec t (length (labs n))) as [->|].
  - rewrite lookup_app_r by (rewrite length_replicate; lia). by rewrite length_replicate, Nat.sub_diag.
  - rewrite lookup_app_l by (rewrite length_replicate; lia). apply lookup_replicate_2. lia.
Qed.
Lemma ones_at k n t : P !! k = Some n -> t <= length (labs n) -> ones (labelBitmap ss) (start k + t) = k.
Proof.
  intros Hk Ht. assert (k < length P) by by eapply lookup_lt_Some. rewrite (ones_take _ _ _ (s_bits _ _ HS)).
  2:{ pose proof (concat_length_le (map unary P) k (unary n)) as H1. rewrite start_unaries in H1 by lia.
      rewrite list_lookup_fmap, Hk, length_unary in H1. specialize (H1 eq_refl). lia. }
  assert (Hsplit : map unary P = take k (map unary P) ++ unary n :: drop (S k) (map unary P)).
  { symmetry. apply take_drop_middle. by rewrite list_lookup_fmap, Hk. }
  rewrite Hsplit at 1. rewrite concat_app, <- (start_unaries k) at 1 by lia. rewrite take_app_add, count_true_app.
  assert (Hc : forall Q, count_true (concat (map unary Q)) = length Q).
  { induction Q as [|m Q IH]; [done|]. cbn [map concat]. unfold unary at 1. by rewrite !count_true_app, count_true_false, IH. }
  rewrite firstn_map, Hc, length_take. cbn [concat]. unfold unary at 1. rewrite <- !app_assoc, take_app_le by (rewrite length_replicate; lia).
  rewrite take_replicate, count_true_false. lia.
Qed.
Lemma label_at k n t : P !! k = Some n -> t < length (labs n) -> index (labels ss) (start k + t - k) = index (labs n) t.
Proof.
  intros Hk Ht. unfold index. rewrite (s_labels _ _ HS). assert (k < length P) by by eapply lookup_lt_Some.
  replace (start k + t - k) with (length (concat (take k (map labs P))) + t) by (rewrite firstn_map, length_labs; unfold start, base; lia).
  by rewrite (concat_lookup _ _ (labs n)) by (rewrite ?list_lookup_fmap, ?Hk; done).
Qed.
(** The number of child [t] of node [k]. *)
Definition child (k t : nat) : nat := base P k + t + 1.
Lemma child_at k n t m : P !! k = Some n -> subs n !! t = Some m -> P !! child k t = Some m.
Proof.
  intros Hk Ht. rewrite (louds_eq _ _ HL). unfold child. rewrite Nat.add_1_r. cbn [lookup list_lookup].
  unfold base. rewrite <- firstn_map. rewrite (concat_lookup _ _ (subs n)); [done|by rewrite list_lookup_fmap, Hk|by eapply lookup_lt_Some].
Qed.
Lemma i32_nat n : (Z.of_nat n < 2 ^ 31)%Z -> i32 (Z.of_nat n) = Z.of_nat n.
Proof. intros. apply i32_small. lia. Qed.
Lemma select_at k n : P !! k = Some n -> selectIthOne (labelBitmap ss) (ranks ss) (selects ss) k = start k + length (labs n).
Proof.
  intros Hk. pose proof (start_in k n (length (labs n)) Hk (Nat.le_refl _)) as Hin. unfold selectIthOne.
  pose proof (bit_at k n _ Hk (Nat.le_refl _)) as Hb. rewrite isSet_bit, Nat.eqb_refl in Hb by done. injection Hb as Hb.
  pose proof (ones_at k n _ Hk (Nat.le_refl _)) as Ho.
  assert (Hlt : k < ones (labelBitmap ss) (64 * length (labelBitmap ss))).
  { pose proof (ones_mono (labelBitmap ss) _ _ Hin) as Hm. rewrite ones_S, Hb, Ho in Hm. lia. }
  assert (Z.of_nat k < 2 ^ 31)%Z by (unfold start in Hin; lia). rewrite i32_nat by lia.
  destruct (select_ok (labelBitmap ss) k Hlt Hsize) as (p & Ep & Hp & Hop). rewrite <- (s_index _ _ HS) in Ep. cbn in Ep. rewrite Ep, Nat2Z.id.
  apply (ones_inj (labelBitmap ss)); congruence.
Qed.
Lemma child_start k t : child k t < length P -> selectIthOne (labelBitmap ss) (ranks ss) (selects ss) (child k t - 1) + 1 = start (child k t) .
Proof.
  intros Hc. unfold child in *. replace (base P k + t + 1 - 1) with (base P k + t) by lia.
  destruct (lookup_lt_is_Some_2 P (base P k + t)) as [m Hm]; [lia|]. rewrite (select_at _ _ Hm).
  replace (base P k + t + 1) with (S (base P k + t)) by lia. rewrite (start_S _ _ Hm). done.
Qed.
Lemma zeros_at k n t : P !! k = Some n -> t < length (labs n) -> countZeros (labelBitmap ss) (ranks ss) (S (start k + t)) = child k t.
Proof.
  intros Hk Ht. pose proof (start_in k n (S t) Hk Ht) as Hin. unfold countZeros. rewrite i32_nat by lia.
  assert (Er : ranks ss = (IndexSelect32R64 (labelBitmap ss)).2) by (by rewrite <- (s_index _ _ HS)). rewrite Er.
  replace (S (start k + t)) with (start k + S t) by lia. rewrite rank_ok by (done || lia). rewrite (ones_at k n) by (done || lia).
  rewrite Nat2Z.id. unfold start, child. lia.
Qed.
Lemma leaf_at k n : P !! k = Some n -> isSet (leaves ss) k = QOk (leafb n).
Proof.
  intros Hk. rewrite (s_leaves _ _ HS) by (by eapply lookup_lt_Some). f_equal. apply nth_lookup_Some. by rewrite list_lookup_fmap, Hk.
Qed.

(** *** The walk *)
Variable kq : key.
Hypothesis Hwords : Forall node_ok P.

(** The key as it is read. *)
Definition txt : key := map lower_byte (rev kq).

Lemma length_txt : length txt = length kq.
Proof. unfold txt. by rewrite length_map, length_rev. Qed.
Lemma revLowerAt_txt i : i < length kq -> txt !! i = Some (revLowerAt kq i).
Proof.
  intros Hi. unfold txt, revLowerAt. rewrite list_lookup_fmap. rewrite rev_alt. change (rev_append kq []) with (reverse kq). rewrite reverse_lookup by done.
  replace (length kq - S i) with (length kq - 1 - i) by lia.
  destruct (lookup_lt_is_Some_2 kq (length kq - 1 - i)) as [c Hc]; [lia|]. by rewrite Hc.
Qed.
Lemma drop_txt i : i < length kq -> drop i txt = revLowerAt kq i :: drop (S i) txt.
Proof. intros Hi. by apply drop_S, revLowerAt_txt. Qed.
Lemma drop_txt_end i : length kq <= i -> drop i txt = [].
Proof. intros Hi. apply drop_ge. by rewrite length_txt. Qed.
Lemma next_dot_spec n : forall j, j + n = length kq ->
  j <= next_dot n kq j <= length kq /\ drop (next_dot n kq j) txt = to_dot (drop j txt).
Proof.
  induction n as [|n IH]; intros j Hj; cbn [next_dot]; [rewrite drop_txt_end by lia; split; [lia|done]|].
  rewrite (drop_txt j) by lia. cbn [to_dot]. destruct (Z.eqb_spec (revLowerAt kq j) domainStepByte) as [E|E].
  - rewrite (drop_txt j) by lia. rewrite E. split; [lia|done].
  - destruct (IH (S j)) as [H1 H2]; [lia|]. split; [lia|done].
Qed.

(** The walk from [w] answers [b] when it is given turns enough. *)
Definition evals (w : walk) (b : bool) : Prop := exists n, forall fuel, n <= fuel -> walk_loop fuel ss kq w = QOk b.
Lemma evals_done w b : walk_step ss kq w = QOk (inl b) -> evals w b.
Proof. intros H. exists 1. intros [|fuel] Hf; [lia|]. cbn [walk_loop]. by rewrite H. Qed.
Lemma evals_step w w' b : walk_step ss kq w = QOk (inr w') -> evals w' b -> evals w b.
Proof. intros H [n Hn]. exists (S n). intros [|fuel] Hf; [lia|]. cbn [walk_loop]. rewrite H. cbn [mbind qres_bind]. apply Hn. lia. Qed.
Lemma evals_retry_nil b : evals (Retry []) b -> b = false.
Proof. intros [n Hn]. specialize (Hn (S n) ltac:(lia)). cbn [walk_loop walk_step mbind qres_bind mret qres_ret] in Hn. by injection Hn as <-. Qed.

(** From [w] the walk answers yes if [m], and otherwise goes on with the stack. *)
Definition decides (w : walk) (m : bool) (stack : list cursor) : Prop :=
  if m then evals w true else forall b, evals (Retry stack) b -> evals w b.
Lemma decides_step w w' m stack : walk_step ss kq w = QOk (inr w') -> decides w' m stack -> decides w m stack.
Proof. intros H. unfold decides. destruct m; [by apply evals_step|]. intros Hd b Hb. by eapply evals_step, Hd. Qed.

Definition group_match (gs : list (Z * list key)) (t : key) : bool := existsb (fun cg => any_match (map (cons cg.1) cg.2) t) gs.

Lemma any_match_map c G t : any_match (map (cons c) G) t = existsb (fun w => kmatch (c :: w) t) G.
Proof. unfold any_match. induction G as [|g G IH]; [done|]. cbn [map existsb]. by rewrite IH. Qed.
Lemma existsb_const {A} (f : A -> bool) (l : list A) b : (forall x, f x = b) -> l <> [] -> existsb f l = b.
Proof. intros Hf Hne. destruct l as [|x l]; [done|]. clear Hne. revert x. induction l as [|y l IH]; intros x; cbn in *; rewrite Hf; [by destruct b|]. rewrite IH. by destruct b. Qed.
Lemma existsb_eq {A} (f g : A -> bool) (l : list A) : (forall x, f x = g x) -> existsb f l = existsb g l.
Proof. intros H. induction l as [|x l IH]; [done|]. cbn. by rewrite H, IH. Qed.

Lemma match_plus G d r : G <> [] -> any_match (map (cons complexWildcardByte) G) (d :: r) = true.
Proof. intros. rewrite any_match_map. by apply existsb_const. Qed.
Lemma match_star G d r : any_match (map (cons wildcardByte) G) (d :: r) = any_match G (to_dot (d :: r)).
Proof. rewrite any_match_map. by apply existsb_eq. Qed.
Lemma match_lit c G d r : c <> complexWildcardByte -> c <> wildcardByte ->
  any_match (map (cons c) G) (d :: r) = (c =? d)%Z && any_match G r.
Proof.
  intros H1 H2. rewrite any_match_map. destruct (c =? d)%Z eqn:E; cbn [andb].
  - apply existsb_eq. intros w. cbn. by rewrite (proj2 (Z.eqb_neq _ _) H1), (proj2 (Z.eqb_neq _ _) H2), E.
  - rewrite (existsb_eq _ (fun _ => false)); [by induction G|]. intros w. cbn. by rewrite (proj2 (Z.eqb_neq _ _) H1), (proj2 (Z.eqb_neq _ _) H2), E.
Qed.
Lemma match_other gs d r : Forall (fun c => (43 < c)%Z /\ c <> d) (map fst gs) -> group_match gs (d :: r) = false.
Proof.
  induction gs as [|[c G] gs IH]; intros HF; [done|]. inversion HF as [|? ? [H1 H2] HF']; subst. cbn [group_match existsb fst snd] in *.
  rewrite match_lit by (unfold complexWildcardByte, wildcardByte; lia). rewrite (proj2 (Z.eqb_neq _ _) H2). by apply IH.
Qed.
Lemma match_nonempty W : nonempty W -> any_match W [] = false.
Proof.
  intros H. induction H as [|w W Hw _ IH]; [done|]. change (any_match (w :: W) []) with (kmatch w [] || any_match W []). rewrite IH. by destruct w.
Qed.
Lemma match_end n : sorted n.2 -> any_match n.2 [] = leafb n.
Proof.
  intros HW. destruct (sorted_body _ HW) as (B1 & _ & B3). rewrite B3 at 1. rewrite any_match_app.
  change (leafb ([], n.2)) with (leafb n). rewrite (match_nonempty (body n.2)) by done.
  rewrite orb_false_r. by destruct (leafb n).
Qed.
Lemma match_more (n : node) d r : sorted n.2 -> any_match n.2 (d :: r) = group_match (group (body n.2)) (d :: r).
Proof.
  intros HW. destruct (sorted_body _ HW) as (B1 & _ & B3). rewrite B3 at 1. rewrite any_match_app.
  rewrite (any_match_group (body n.2)) by done. by destruct (leafb ([], n.2)).
Qed.

(** The groups of a node that begin with a separator. *)
Lemma star_child n G a t : P !! a = Some n -> group (body n.2) !! t = Some (wildcardByte, G) ->
  Forall (fun w => match w with [] => True | d :: _ => d = domainStepByte end) G.
Proof.
  intros Ha Ht. pose proof (louds_good _ _ HL) as HG. rewrite Forall_lookup in HG. destruct (HG _ _ Ha) as [_ HW].
  destruct (sorted_body _ HW) as (B1 & _ & B3). rewrite Forall_lookup in Hwords. pose proof (Hwords _ _ Ha) as Hok. unfold node_ok in Hok. rewrite Forall_forall in Hok.
  apply Forall_forall. intros w Hw. destruct (group_words _ B1 _ (list_elem_of_lookup_2 _ _ _ Ht)) as [_ Hin]. specialize (Hin w Hw). cbn [fst] in Hin.
  specialize (Hok (wildcardByte :: w)). rewrite B3, elem_of_app in Hok. destruct (Hok (or_intror Hin)) as (_ & Hstar & _). by apply Hstar.
Qed.

Lemma to_dot_head t x y : to_dot t = x :: y -> x = domainStepByte.
Proof.
  induction t as [|e t IH]; cbn; [done|]. destruct (Z.eqb_spec e domainStepByte); [by intros [= <- <-]|apply IH].
Qed.
Lemma decides_push w cur stack m1 m2 :
  decides w m2 (cur :: stack) -> decides (Retry (cur :: stack)) m1 stack -> decides w (m1 || m2) stack.
Proof. unfold decides. destruct m1, m2; cbn; auto. Qed.

Lemma group_node a n t c G : P !! a = Some n -> group (body n.2) !! t = Some (c, G) ->
  t < length (labs n) /\ labs n !! t = Some c /\ P !! child a t = Some (n.1 ++ [c], G).
Proof.
  intros Ha Ht. assert (Hs : subs n !! t = Some (n.1 ++ [c], G)) by (unfold subs; by rewrite list_lookup_fmap, Ht).
  split_and!; [|unfold labs; by rewrite list_lookup_fmap, Ht|by apply (child_at _ _ _ _ Ha)].
  rewrite <- length_subs. by eapply lookup_lt_Some.
Qed.
Lemma good_node a n : P !! a = Some n -> good n.
Proof. intros Ha. pose proof (louds_good _ _ HL) as HG. rewrite Forall_lookup in HG. by eapply HG. Qed.

(** A step to the child over a label that is the next byte. *)
Definition subtrees (m : nat) : Prop := forall a n i stack, P !! a = Some n -> Forall (fun w => length w < m) n.2 -> i < length kq ->
  decides (Scan a (start a) i stack) (any_match n.2 (drop i txt)) stack.

Lemma child_next a t q : P !! child a t = Some q ->
  S (selectIthOne (labelBitmap ss) (ranks ss) (selects ss) (child a t - 1)) = start (child a t).
Proof.
  intros Hq. rewrite <- (child_start a t) by (by eapply lookup_lt_Some). lia.
Qed.

Lemma star_decides m a n t G i stack : subtrees m -> P !! a = Some n -> group (body n.2) !! t = Some (wildcardByte, G) ->
  Forall (fun w => length w < m) G -> i < length kq ->
  decides (Retry (mkCursor (start a + t) i :: stack)) (any_match G (to_dot (drop i txt))) stack.
Proof.
  intros IH Ha Ht Hm Hi. destruct (group_node _ _ _ _ _ Ha Ht) as (Hlt & _ & Hq). set (q := child a t) in *.
  destruct (next_dot_spec (length kq - i) i) as [Hj Hd]; [lia|]. set (j := next_dot (length kq - i) kq i) in *.
  assert (Hz : countZeros (labelBitmap ss) (ranks ss) (S (start a + t)) = q) by (by apply (zeros_at a n)).
  rewrite <- Hd. destruct (Nat.eq_dec j (length kq)) as [Ej|Ej].
  - rewrite (drop_txt_end j) by lia. change G with ((n.1 ++ [wildcardByte], G).2). rewrite match_end by (by apply (good_node _ _ Hq)).
    assert (Hstep : walk_step ss kq (Retry (mkCursor (start a + t) i :: stack)) =
      QOk (if leafb (n.1 ++ [wildcardByte], G) then inl true else inr (Retry stack))).
    { cbn [walk_step cur_bmIdx cur_index]. rewrite Hz. fold j. rewrite (proj2 (Nat.eqb_eq _ _) Ej), (leaf_at _ _ Hq). done. }
    destruct (leafb _); [by apply evals_done|]. intros b. by apply evals_step.
  - assert (Hdot : drop j txt = domainStepByte :: drop (S j) txt).
    { rewrite (drop_txt j) by lia. f_equal. rewrite (drop_txt j) in Hd by lia. symmetry in Hd. by apply to_dot_head in Hd. }
    set (qn := (n.1 ++ [wildcardByte], G)) in *. change G with qn.2. pose proof (good_node _ _ Hq) as [Hne HSq].
    assert (Hfind : exists found, find_dot (length (labels ss)) ss q (start q) = QOk found /\
      match found with Some b => b = start q | None => any_match qn.2 (drop j txt) = false end).
    { pose proof (bit_at q qn 0 Hq) as Hb. rewrite Nat.add_0_r in Hb. specialize (Hb ltac:(lia)).
      rewrite Hdot, match_more by done. destruct (group (body qn.2)) as [|[c' G'] gm] eqn:Eg.
      - assert (length (labs qn) = 0) as El by (unfold labs; by rewrite Eg). rewrite El in Hb. exists None.
        destruct (length (labels ss)); cbn [find_dot]; rewrite Hb; done.
      - assert (E0 : group (body qn.2) !! 0 = Some (c', G')) by (by rewrite Eg). destruct (group_node _ _ _ _ _ Hq E0) as (Hl0 & Hlab & _).
        destruct (length (labs qn)) as [|dg] eqn:Edg; [lia|]. cbn [Nat.eqb] in Hb.
        pose proof (label_at q qn 0 Hq ltac:(lia)) as Hla. rewrite Nat.add_0_r in Hla. unfold index at 2 in Hla. rewrite Hlab in Hla.
        assert (c' = domainStepByte) as ->.
        { pose proof (star_child n G a t Ha Ht) as Hst. destruct (sorted_body _ HSq) as (B1 & _ & B3).
          destruct (group_words _ B1 (c', G')) as [Hg1 Hg2]; [rewrite Eg; left|]. cbn [fst snd] in *. destruct G' as [|v G']; [done|].
          specialize (Hg2 v (list_elem_of_here _ _)). rewrite Forall_forall in Hst. specialize (Hst (c' :: v)).
          change G with qn.2 in Hst. rewrite B3, elem_of_app in Hst. apply Hst. by right. }
        exists (Some (start q)). destruct (length (labels ss)); cbn [find_dot]; rewrite Hb; cbn [mbind qres_bind mret qres_ret]; rewrite Hla; done. }
    destruct Hfind as (found & Ef & Hfound).
    assert (Hstep : walk_step ss kq (Retry (mkCursor (start a + t) i :: stack)) =
      QOk (inr (match found with Some bmIdx => Scan q bmIdx j stack | None => Retry stack end))).
    { cbn [walk_step cur_bmIdx cur_index]. rewrite Hz. fold j. rewrite (proj2 (Nat.eqb_neq _ _) Ej).
      subst q. rewrite (child_next _ _ _ Hq), Ef. done. }
    destruct found as [b|]; [subst b; eapply decides_step; [exact Hstep|]; apply (IH q qn); [done|done|lia]|].
    rewrite Hfound. intros b. by apply evals_step.
Qed.

Lemma groups_literal n gs c G t : good n -> node_ok n -> drop t (group (body n.2)) = (c, G) :: gs ->
  (42 <= c)%Z /\ Forall (fun d => (c < d)%Z) (map fst gs).
Proof.
  intros [_ HW] Hok Hd. destruct (sorted_body _ HW) as (B1 & B2 & B3). destruct (group_heads_sorted _ B1 B2) as [Hsort _]. split.
  - assert (Hin : (c, G) ∈ group (body n.2)) by (rewrite <- (take_drop t (group _)), Hd, elem_of_app; right; left).
    destruct (group_words _ B1 _ Hin) as [Hne Hw]. cbn [fst snd] in *. destruct G as [|w G]; [done|]. specialize (Hw w (list_elem_of_here _ _)).
    unfold node_ok in Hok. rewrite Forall_forall in Hok. destruct (Hok (c :: w)) as [Hc _]; [rewrite B3, elem_of_app; by right|done].
  - rewrite <- (take_drop t (group _)), map_app, Hd in Hsort. revert Hsort. generalize (map fst (take t (group (body n.2)))) as l.
    induction l as [|x l IH]; cbn; intros H; inversion H; subst; auto.
Qed.

Lemma literal_decides m a n t c G i stack : subtrees m -> P !! a = Some n -> group (body n.2) !! t = Some (c, G) ->
  c <> complexWildcardByte -> c <> wildcardByte -> c = revLowerAt kq i -> Forall (fun w => length w < m) G -> i < length kq ->
  decides (Scan a (start a + t) i stack) (any_match G (drop (S i) txt)) stack.
Proof.
  intros IH Ha Ht H43 H42 Hc Hm Hi. destruct (group_node _ _ _ _ _ Ha Ht) as (Hlt & Hlab & Hq). set (q := child a t) in *.
  pose proof (bit_at a n t Ha ltac:(lia)) as Hb. rewrite (proj2 (Nat.eqb_neq _ _)) in Hb by lia.
  pose proof (label_at a n t Ha Hlt) as Hla. unfold index at 2 in Hla. rewrite Hlab in Hla.
  assert (Hstep : walk_step ss kq (Scan a (start a + t) i stack) =
    if i =? length kq - 1 then
      leaf ← isSet (leaves ss) q;
      if leaf : bool then mret (inl true)
      else match stack with
           | [] => mret (inl false)
           | _ => mret (inr (Scan q (selectIthOne (labelBitmap ss) (ranks ss) (selects ss) q) i stack))
           end
    else mret (inr (Scan q (S (selectIthOne (labelBitmap ss) (ranks ss) (selects ss) (q - 1))) (S i) stack))).
  { cbn [walk_step]. rewrite Hb. cbn [mbind qres_bind]. rewrite Hla. cbn [mbind qres_bind].
    rewrite (proj2 (Z.eqb_neq _ _) H43), (proj2 (Z.eqb_neq _ _) H42), (proj2 (Z.eqb_eq _ _) Hc).
    replace (start a + t - a + 1) with q by (unfold q, start, child; lia). done. }
  set (qn := (n.1 ++ [c], G)) in *. change G with qn.2. pose proof (good_node _ _ Hq) as [_ HSq].
  destruct (Nat.eqb_spec i (length kq - 1)) as [Ei|Ei].
  - rewrite (drop_txt_end (S i)) by lia. rewrite match_end by done. rewrite (leaf_at _ _ Hq) in Hstep. cbn [mbind qres_bind] in Hstep.
    destruct (leafb qn); [by apply evals_done|]. intros b Hr. destruct stack as [|cur stack].
    + apply evals_retry_nil in Hr as ->. by apply evals_done.
    + rewrite (select_at _ _ Hq) in Hstep. eapply evals_step; [exact Hstep|]. eapply evals_step; [|exact Hr]. cbn [walk_step].
      rewrite (bit_at q qn _ Hq) by lia. by rewrite Nat.eqb_refl.
  - eapply decides_step; [exact Hstep|]. subst q. rewrite (child_next _ _ _ Hq). apply (IH _ qn); [done|done|lia].
Qed.

Lemma scan_decides m a n i : subtrees m -> P !! a = Some n -> Forall (fun w => length w < S m) n.2 -> i < length kq ->
  forall gs t stack, drop t (group (body n.2)) = gs -> t <= length (labs n) ->
  decides (Scan a (start a + t) i stack) (group_match gs (drop i txt)) stack.
Proof.
  intros IH Ha Hm Hi. pose proof (good_node _ _ Ha) as Hgood. destruct (sorted_body _ (proj2 Hgood)) as (B1 & B2 & B3).
  assert (Hlen : length (labs n) = length (group (body n.2))) by (unfold labs; by rewrite length_map).
  assert (Hok : node_ok n) by (rewrite Forall_lookup in Hwords; by eapply Hwords).
  induction gs as [|[c G] gs IHg]; intros t stack Hd Ht.
  - assert (length (group (body n.2)) <= t) by (apply (f_equal length) in Hd; rewrite length_drop in Hd; cbn in Hd; lia).
    intros b. apply evals_step. cbn [walk_step]. rewrite (bit_at a n t Ha Ht). assert (Et : (t =? length (labs n)) = true) by (apply Nat.eqb_eq; lia). by rewrite Et.
  - assert (Hlk : group (body n.2) !! t = Some (c, G)) by (rewrite <- (Nat.add_0_r t), <- lookup_drop, Hd; done).
    assert (Hd' : drop (S t) (group (body n.2)) = gs) by (rewrite <- (Nat.add_1_r t), <- drop_drop, Hd; done).
    destruct (group_node _ _ _ _ _ Ha Hlk) as (Hlt & Hlab & Hq).
    pose proof (bit_at a n t Ha ltac:(lia)) as Hb. rewrite (proj2 (Nat.eqb_neq _ _)) in Hb by lia.
    pose proof (label_at a n t Ha Hlt) as Hla. unfold index at 2 in Hla. rewrite Hlab in Hla.
    destruct (groups_literal _ _ _ _ _ Hgood Hok Hd) as [Hc42 Hgt].
    assert (HG : Forall (fun w => length w < m) G).
    { apply Forall_forall. intros w Hw. destruct (group_words _ B1 _ (list_elem_of_lookup_2 _ _ _ Hlk)) as [_ Hin]. specialize (Hin w Hw).
      rewrite Forall_forall in Hm. specialize (Hm (c :: w)). rewrite B3, elem_of_app in Hm. cbn [fst] in *. specialize (Hm (or_intror Hin)). cbn in Hm. lia. }
    rewrite (drop_txt i Hi). cbn [group_match existsb fst snd].
    destruct (Z.eq_dec c complexWildcardByte) as [->|H43].
    { rewrite match_plus by (destruct (group_words _ B1 _ (list_elem_of_lookup_2 _ _ _ Hlk)); done). apply evals_done.
      cbn [walk_step]. rewrite Hb. cbn [mbind qres_bind]. by rewrite Hla. }
    destruct (Z.eq_dec c wildcardByte) as [->|H42].
    { rewrite match_star. rewrite <- (drop_txt i Hi). apply (decides_push _ (mkCursor (start a + t) i)); [|by apply (star_decides m a n t G)].
      eapply decides_step; [|apply (IHg (S t)); [done|lia]]. cbn [walk_step]. rewrite Hb. cbn [mbind qres_bind]. rewrite Hla.
      cbn. by rewrite Nat.add_succ_r. }
    rewrite match_lit by done. destruct (Z.eqb_spec c (revLowerAt kq i)) as [Ec|Ec].
    + assert (group_match gs (revLowerAt kq i :: drop (S i) txt) = false) as Hgs.
      { apply match_other. eapply Forall_impl; [exact Hgt|]. unfold complexWildcardByte, wildcardByte in *. intros x Hx. cbn beta in *. split; lia. }
      unfold group_match in Hgs. rewrite Hgs, orb_false_r. cbn [andb]. by apply (literal_decides m a n t c G).
    + cbn [andb orb]. change (existsb _ gs) with (group_match gs (revLowerAt kq i :: drop (S i) txt)). rewrite <- (drop_txt i Hi).
      eapply decides_step; [|apply (IHg (S t)); [done|lia]]. cbn [walk_step]. rewrite Hb. cbn [mbind qres_bind]. rewrite Hla. cbn [mbind qres_bind].
      rewrite (proj2 (Z.eqb_neq _ _) H43), (proj2 (Z.eqb_neq _ _) H42), (proj2 (Z.eqb_neq _ _) Ec). by rewrite Nat.add_succ_r.
Qed.
Lemma walk_decides m : subtrees m.
Proof.
  induction m as [|m IH]; intros a n i stack Ha Hm Hi.
  - exfalso. destruct (good_node _ _ Ha) as [Hne _]. destruct n.2 as [|w W]; [done|]. inversion Hm. lia.
  - rewrite (drop_txt i Hi), match_more by (by apply (good_node _ _ Ha)). rewrite <- (drop_txt i Hi), <- (Nat.add_0_r (start a)).
    apply (scan_decides m a n i IH Ha Hm Hi); [done|lia].
Qed.
(** The whole walk answers whether a key of the set matches. *)
Lemma walk_answers : 0 < length kq -> evals (Scan 0 0 0 []) (any_match root.2 txt).
Proof.
  intros Hk. assert (Hroot : P !! 0 = Some root) by (by rewrite (louds_eq _ _ HL)).
  assert (Hm : Forall (fun w => length w < S (list_max (map length root.2))) root.2).
  { apply Forall_forall. intros w Hw. assert (Hm : Forall (fun k => k <= list_max (map length root.2)) (map length root.2)) by by apply list_max_le.
    rewrite Forall_forall in Hm. specialize (Hm (length w)). rewrite list_elem_of_fmap in Hm. assert (length w <= list_max (map length root.2)) by (apply Hm; eauto). lia. }
  pose proof (walk_decides _ 0 root 0 [] Hroot Hm Hk) as Hd. rewrite drop_0 in Hd. change (start 0) with 0 in Hd. unfold decides in Hd.
  destruct (any_match root.2 txt); [done|]. apply Hd. exists 1. intros [|f] Hf; [lia|]. done.
Qed.
End Arrays.
