(* ===== verification/DomainSetSpec.v ===== *)
(** * The domain set holds the patterns

    From bytes to labels: keys of patterns against names, the property of [Has], its
    agreement with the trie, and the binary form.  Examples run the code with plain
    rank and select functions. *)
From stdpp Require Import sorting.
From S2P Require Import Prelude Names GoText DomainTrie DomainTrieProps ZList DomainSet Louds DomainSetProps.
#[local] Open Scope string_scope.
#[local] Open Scope list_scope.
#[local] Open Scope nat_scope.

(** ** Every node's words are ends of keys *)

Lemma concat_lookup_inv {A} (L : list (list A)) i x : concat L !! i = Some x ->
  exists a l t, L !! a = Some l /\ l !! t = Some x /\ i = length (concat (take a L)) + t.
Proof.
  revert i. induction L as [|l L IH]; intros i Hi; cbn in Hi; [done|]. destruct (decide (i < length l)).
  - rewrite lookup_app_l in Hi by done. exists 0, l, i. done.
  - rewrite lookup_app_r in Hi by lia. destruct (IH _ Hi) as (a & l' & t & H1 & H2 & H3). exists (S a), l', t.
    split_and!; try done. cbn. rewrite length_app. lia.
Qed.
Lemma louds_parent root P k n : louds root P -> P !! S k = Some n -> exists a t m, a < S k /\ P !! a = Some m /\ subs m !! t = Some n.
Proof.
  intros [HE HO _] Hk. rewrite HE in Hk. cbn in Hk. destruct (concat_lookup_inv _ _ _ Hk) as (a & l & t & Ha & Ht & E).
  rewrite list_lookup_fmap in Ha. destruct (P !! a) as [m|] eqn:Em; [|done]. injection Ha as <-. exists a, t, m.
  split_and!; try done. specialize (HO a (lookup_lt_Some _ _ _ Em)). unfold base in HO. rewrite firstn_map in E. lia.
Qed.
Lemma louds_words K P k n : louds ([], K) P -> P !! k = Some n -> forall w, w ∈ n.2 -> n.1 ++ w ∈ K.
Proof.
  intros HL. revert n. induction (lt_wf k) as [k _ IH]. intros n Hk w Hw. destruct k as [|k].
  - rewrite (louds_eq _ _ HL) in Hk. by injection Hk as <-.
  - destruct (louds_parent _ _ _ _ HL Hk) as (a & t & m & Hak & Ha & Ht). unfold subs in Ht. rewrite list_lookup_fmap in Ht.
    destruct (group (body m.2) !! t) as [[c G]|] eqn:Eg; [|done]. injection Ht as <-. cbn in Hw |- *.
    pose proof (louds_good _ _ HL) as HG. rewrite Forall_lookup in HG. destruct (HG _ _ Ha) as [_ HS].
    destruct (sorted_body _ HS) as (B1 & _ & B3). destruct (group_words _ B1 _ (list_elem_of_lookup_2 _ _ _ Eg)) as [_ Hg].
    rewrite <- app_assoc. apply (IH a Hak m Ha). rewrite B3, elem_of_app. right. by apply Hg.
Qed.
Lemma word_ok_suffix v w : word_ok (v ++ w) -> word_ok w.
Proof. induction v as [|c v IH]; [done|]. intros (_ & _ & H). by apply IH. Qed.
Lemma louds_node_ok K P : louds ([], K) P -> Forall word_ok K -> Forall node_ok P.
Proof.
  intros HL HK. apply Forall_lookup. intros k n Hk. apply Forall_forall. intros w Hw. apply (word_ok_suffix n.1).
  rewrite Forall_forall in HK. by apply HK, (louds_words _ _ _ _ HL Hk).
Qed.

(** ** The set against its keys *)

Section Has.
Context {BM : Bitmap} {BL : BitmapLaws BM}.

Definition int32_set (ss : option DomainSet) : Prop :=
  match ss with Some ss => (Z.of_nat (64 * length (labelBitmap ss)) < 2 ^ 31)%Z | None => True end.

Lemma any_match_elem W t : any_match W t = true <-> exists w, w ∈ W /\ kmatch w t = true.
Proof.
  unfold any_match. rewrite existsb_exists. setoid_rewrite list_elem_of_In. done.
Qed.

Lemma Has_keys ks q : Forall word_ok ks -> exists ss ts, buildDomainSet ks = QOk (ss, ts) /\
  (int32_set ss -> exists b, (exists n, forall fuel, n <= fuel -> Has fuel ss q = QOk b) /\
     (b = true <-> exists w, w ∈ ks /\ kmatch w (txt (query_key q)) = true)).
Proof.
  intros Hok. destruct ks as [|k ks].
  { exists None, []. split; [done|]. intros _. exists false. split; [by exists 0|]. split; [done|]. by intros (w & Hw%elem_of_nil & _). }
  destruct (buildDomainSet_stores (k :: ks)) as (ss & P & E & HL & HS); [done|]. rewrite E. eexists _, _. split; [done|]. intros Hsize.
  exists (any_match (trie_keys (k :: ks)) (txt (query_key q))).
  assert (Hw : Forall node_ok P).
  { apply (louds_node_ok _ _ HL). apply Forall_forall. intros w Hw. rewrite elem_trie_keys in Hw. rewrite Forall_forall in Hok. auto. }
  split.
  - cbn [Has]. set (kq := query_key q). destruct (Nat.eqb_spec (length kq) 0) as [E0|E0].
    + exists 0. intros fuel _. assert (Hr : P !! 0 = Some ([], trie_keys (k :: ks))) by (by rewrite (louds_eq _ _ HL)).
      rewrite (s_leaves _ _ HS) by (by eapply lookup_lt_Some). apply length_zero_iff_nil in E0. rewrite E0. change (txt []) with (@nil Z).
      f_equal. assert (Hl : nth 0 (map leafb P) false = leafb ([], trie_keys (k :: ks))) by (by destruct P; [done|injection Hr as ->]).
      rewrite Hl. symmetry. apply (match_end ([], trie_keys (k :: ks))). apply trie_keys_sorted.
    + destruct (walk_answers ss _ P HL HS Hsize kq Hw) as [n Hn]; [lia|]. exists n. exact Hn.
  - rewrite any_match_elem. by setoid_rewrite elem_trie_keys.
Qed.
End Has.

(** ** Reversed strings *)

Lemma str_bytes_app a b : str_bytes (a ++ b)%string = str_bytes a ++ str_bytes b.
Proof. unfold str_bytes. induction a as [|c a IH]; [done|]. rewrite sapp_cons. cbn. by rewrite IH. Qed.
Lemma str_bytes_inj a b : str_bytes a = str_bytes b -> a = b.
Proof.
  revert b. induction a as [|c a IH]; intros [|d b]; try done. unfold str_bytes. cbn. intros [= E1%Nat2Z.inj E2].
  f_equal; [|by apply IH]. by rewrite <- (ascii_nat_embedding c), E1, ascii_nat_embedding.
Qed.
Lemma rune_size_ASCII c r : byte_in 0 127 c = true -> rune_size (String c r) = 1.
Proof.
  intros Hc. assert (Hno : forall lo hi, 127 < lo -> byte_in lo hi c = false).
  { intros lo hi Hlo. unfold byte_in in *. apply andb_true_iff in Hc as [_ Hc%Nat.leb_le]. apply andb_false_iff. left. apply Nat.leb_gt. lia. }
  unfold rune_size. destruct r as [|b r]; [done|]. rewrite !Hno by lia. cbn [andb orb]. destruct r as [|x r]; [done|].
  cbn [andb orb]. destruct r; [done|]. by rewrite !andb_false_r || done.
Qed.
Lemma explode_ASCII s : is_ASCII s = true -> explode (String.length s) s = map (fun c => String c "") (String.list_ascii_of_string s).
Proof.
  induction s as [|c s IH]; [done|]. unfold is_ASCII. cbn [all_chars]. intros [Hc Hs]%andb_true_iff. cbn [String.length explode].
  rewrite rune_size_ASCII by done. cbn. f_equal. by apply IH.
Qed.
Lemma str_bytes_concat l : str_bytes (String.concat "" l) = concat (map str_bytes l).
Proof.
  induction l as [|s [|t l] IH]; [done|by cbn; rewrite app_nil_r|].
  change (String.concat "" (s :: t :: l)) with (s ++ "" ++ String.concat "" (t :: l))%string. rewrite str_bytes_app, sapp_nil_l, IH. done.
Qed.
(** The bytes of an ASCII string, backwards. *)
Definition rb (s : string) : key := rev (str_bytes s).
Lemma str_bytes_Reverse s : is_ASCII s = true -> str_bytes (Reverse s) = rb s.
Proof.
  intros Hs. unfold Reverse. rewrite str_bytes_concat, explode_ASCII by done. unfold rb. unfold is_ASCII in Hs.
  induction s as [|c s IH]; [done|]. cbn [all_chars] in Hs. apply andb_true_iff in Hs as [Hc Hs]. unfold str_bytes in *. cbn [String.list_ascii_of_string map rev].
  rewrite !map_app, concat_app, IH by done. f_equal. unfold is_ASCII. cbn [all_chars]. rewrite Hc. done.
Qed.
Lemma rb_inj a b : rb a = rb b -> a = b.
Proof. unfold rb. intros E. apply str_bytes_inj. by rewrite <- (rev_involutive (str_bytes a)), E, rev_involutive. Qed.

(** ** Labels, the last one first *)

Fixpoint rjoin (f : string -> key) (ls : list string) : key :=
  match ls with [] => [] | l :: r => f l ++ match r with [] => [] | _ => domainStepByte :: rjoin f r end end.
(** The key of a label: the empty label, for any labels, is a [+]. *)
Definition klabel (l : string) : key := if String.eqb l dotWildcard then [complexWildcardByte] else rb l.

Lemma rjoin_cons f l r : rjoin f (l :: r) = f l ++ match r with [] => [] | _ => domainStepByte :: rjoin f r end.
Proof. done. Qed.
Lemma rjoin_snoc f ls l : ls <> [] -> rjoin f (ls ++ [l]) = rjoin f ls ++ domainStepByte :: f l.
Proof.
  induction ls as [|x ls IH]; [done|]. intros _. cbn [app]. destruct ls as [|y ls]; [cbn [rjoin app]; by rewrite !app_nil_r|].
  transitivity (f x ++ domainStepByte :: rjoin f ((y :: ls) ++ [l])); [done|]. rewrite IH by done. by rewrite (rjoin_cons f x), <- app_assoc.
Qed.
Lemma rb_Join ps : rb (Join ps) = rjoin rb (rev ps).
Proof.
  induction ps as [|p ps IH]; [done|]. cbn [rev]. destruct ps as [|q ps]; [cbn; by rewrite app_nil_r|].
  rewrite Join_cons by done. rewrite rjoin_snoc by (intros E; apply (f_equal length) in E; rewrite length_rev in E; done).
  rewrite <- IH. unfold rb. rewrite str_bytes_app. unfold str_bytes at 2. cbn [String.list_ascii_of_string map]. fold (str_bytes (Join (q :: ps))).
  rewrite rev_app_distr. cbn [rev]. by rewrite <- app_assoc.
Qed.

Definition dotted (K : key) : Prop := match K with [] => True | d :: _ => d = domainStepByte end.
Definition no_step (a : key) : Prop := Forall (fun c => c <> domainStepByte) a.
Definition literal (a : key) : Prop := Forall (fun c => (44 <= c)%Z /\ c <> domainStepByte) a.

Lemma kmatch_literal a b K T : literal a -> no_step b -> dotted K -> dotted T ->
  kmatch (a ++ K) (b ++ T) = bool_decide (a = b) && kmatch K T.
Proof.
  intros Ha. revert b. induction Ha as [|c a [Hc Hd] _ IH]; intros b Hb HK HT; cbn [app].
  - destruct b as [|d b]; [done|]. inversion Hb; subst. destruct K as [|x K]; [done|]. cbn in HK. subst x. rewrite bool_decide_eq_false_2 by done. cbn [app kmatch].
    change (domainStepByte =? complexWildcardByte)%Z with false. change (domainStepByte =? wildcardByte)%Z with false. cbv iota.
    by rewrite (proj2 (Z.eqb_neq domainStepByte d)) by congruence.
  - destruct b as [|d b].
    + destruct T as [|x T]; [done|]. cbn in HT. subst x. cbn [app kmatch]. unfold complexWildcardByte, wildcardByte.
      rewrite (proj2 (Z.eqb_neq c 43)), (proj2 (Z.eqb_neq c 42)) by lia. by rewrite (proj2 (Z.eqb_neq c domainStepByte)).
    + inversion Hb; subst. cbn [app kmatch]. unfold complexWildcardByte, wildcardByte.
      rewrite (proj2 (Z.eqb_neq c 43)), (proj2 (Z.eqb_neq c 42)) by lia. rewrite IH by done.
      destruct (Z.eqb_spec c d) as [->|]; cbn [andb]; [|by rewrite bool_decide_eq_false_2 by congruence].
      f_equal. apply bool_decide_ext. split; [by intros ->|by intros [= ->]].
Qed.
Lemma to_dot_label b T : no_step b -> dotted T -> to_dot (b ++ T) = T.
Proof.
  intros Hb HT. induction Hb as [|c b Hc _ IH]; cbn.
  - destruct T as [|d T]; [done|]. cbn in HT |- *. subst d. done.
  - by rewrite (proj2 (Z.eqb_neq c _)).
Qed.

Definition lit (l : string) : Prop := l <> "" /\ literal (rb l).
(** A stored pattern and a name, last label first. *)
Fixpoint pat_ok (rp : list string) : Prop :=
  match rp with
  | [] => False
  | l :: r => (l = wildcard \/ lit l \/ (l = dotWildcard /\ r = [])) /\ (r = [] \/ pat_ok r)
  end.
Fixpoint txt_ok (rk : list string) : Prop :=
  match rk with [] => False | l :: r => no_step (rb l) /\ ((r = [] /\ l <> "") \/ txt_ok r) end.

Abbreviation ktail f r := (match r%list with [] => [] | _ => domainStepByte :: rjoin f r%list end).
Lemma dotted_ktail f r : dotted (ktail f r).
Proof. by destruct r. Qed.
Lemma ktail_match f g r s : (r <> [] -> s <> [] -> kmatch (rjoin f r) (rjoin g s) = true <-> pattern_matches r s) ->
  kmatch (ktail f r) (ktail g s) = true <-> pattern_matches r s.
Proof. destruct r, s; try done. intros H. rewrite <- H by done. done. Qed.
Lemma rjoin_nonempty rk : txt_ok rk -> rjoin rb rk <> [].
Proof.
  destruct rk as [|l r]; [done|]. cbn [txt_ok]. rewrite rjoin_cons. intros [_ H] [E1 E2]%app_eq_nil. destruct r; [|done].
  destruct H as [[_ H]|[]]. apply H. by apply rb_inj.
Qed.
Lemma rjoin_match rp : forall rk, pat_ok rp -> txt_ok rk ->
  kmatch (rjoin klabel rp) (rjoin rb rk) = true <-> pattern_matches rp rk.
Proof.
  induction rp as [|l r IH]; [done|]. intros rk [Hl Hr] Hk. pose proof (rjoin_nonempty _ Hk) as Hne. destruct rk as [|part rest]; [done|].
  destruct Hk as [Hpart Hrest]. rewrite !rjoin_cons in *. cbn [pattern_matches].
  assert (HT : kmatch (ktail klabel r) (ktail rb rest) = true <-> pattern_matches r rest).
  { apply ktail_match. intros H1 H2. apply IH; [by destruct Hr|by destruct Hrest as [[? _]|]]. }
  destruct (rb part ++ ktail rb rest) as [|d t] eqn:Et; [done|].
  destruct Hl as [->|[[Hne' Hlit]|[-> ->]]].
  - change (klabel wildcard) with [wildcardByte]. cbn [app kmatch]. change (wildcardByte =? complexWildcardByte)%Z with false. change (wildcardByte =? wildcardByte)%Z with true. cbv iota.
    rewrite <- Et, to_dot_label by (done || apply dotted_ktail). rewrite HT. split; [by left; split; [right|]|]. intros [[_ ?]|[? _]]; done.
  - unfold klabel. rewrite (proj2 (String.eqb_neq _ _)) by done. rewrite <- Et, kmatch_literal by (done || apply dotted_ktail).
    rewrite andb_true_iff, bool_decide_eq_true, HT. split; [intros [E ?]; left; split; [left; by apply rb_inj|done]|].
    intros [[[-> | ->] ?]|[-> _]]; [done| |done]. exfalso. change (literal [42%Z]) in Hlit. inversion Hlit as [|? ? [Hx _] _]. lia.
  - change (klabel dotWildcard) with [complexWildcardByte]. cbn [app kmatch]. change (complexWildcardByte =? complexWildcardByte)%Z with true. cbv iota.
    split; [by right|done].
Qed.

(** ** Keys of patterns *)

(** A byte of a host name, or a wildcard. *)
Definition host_byte : ascii -> bool := byte_in 42 127.
Definition plain (s : string) : Prop := all_chars host_byte s = true.

Lemma host_lower c : host_byte c = true -> host_byte (lower_ascii c) = true.
Proof. destruct c as [[] [] [] [] [] [] [] []]; vm_compute; done. Qed.
Lemma all_chars_lower s : plain s -> plain (ToLower s).
Proof. unfold plain. induction s as [|c s IH]; [done|]. cbn [all_chars ToLower]. intros [H1 H2]%andb_true_iff. by rewrite host_lower, IH. Qed.
Lemma all_chars_Split p s : all_chars p s = true -> Forall (fun part => all_chars p part = true) (Split s).
Proof.
  induction s as [|c s IH]; [by constructor|]. cbn [all_chars SplitOn]. intros [Hc Hs]%andb_true_iff. specialize (IH Hs).
  destruct (Ascii.eqb c dot); [by constructor|]. destruct (Split s) as [|part parts]; inversion IH; subst; constructor; cbn [all_chars]; [|constructor| |done];
    rewrite Hc; done.
Qed.
Lemma Forall_bytes (P : Z -> Prop) s : (forall c, Contains c s = true -> P (Z.of_nat (nat_of_ascii c))) -> Forall P (rb s).
Proof.
  intros H. apply Forall_rev. unfold str_bytes. induction s as [|c s IH]; [constructor|]. cbn. constructor.
  - apply H. cbn. by rewrite Ascii.eqb_refl.
  - apply IH. intros d Hd. apply H. cbn. by rewrite Hd, orb_true_r.
Qed.
Lemma Contains_all p c s : all_chars p s = true -> Contains c s = true -> p c = true.
Proof.
  induction s as [|d s IH]; [done|]. cbn. intros [Hd Hs]%andb_true_iff [->%Ascii.eqb_eq|Hc]%orb_true_iff; [done|by apply IH].
Qed.
Lemma byte_neq c d : c <> d -> Z.of_nat (nat_of_ascii c) <> Z.of_nat (nat_of_ascii d).
Proof. intros H E%Nat2Z.inj. apply H. by rewrite <- (ascii_nat_embedding c), E, ascii_nat_embedding. Qed.
Lemma no_step_label l : Contains dot l = false -> no_step (rb l).
Proof.
  intros Hl. apply Forall_bytes. intros c Hc. change domainStepByte with (Z.of_nat (nat_of_ascii dot)). apply byte_neq. intros ->. congruence.
Qed.
Lemma label_lit l : plain l -> Contains dot l = false -> Contains star l = false -> no_plus l -> l <> "" -> lit l.
Proof.
  intros Hp Hd Hs Hn Hne. split; [done|]. apply Forall_bytes. intros c Hc. pose proof (Contains_all _ _ _ Hp Hc) as Hb. unfold host_byte, byte_in in Hb.
  apply andb_true_iff in Hb as [Hb%Nat.leb_le _]. split; [|apply (byte_neq c dot); intros ->; congruence].
  assert (c <> star) as H1%byte_neq by (intros ->; congruence). assert (c <> plus) as H2%byte_neq by (intros ->; unfold no_plus in Hn; congruence).
  change (Z.of_nat (nat_of_ascii star)) with 42%Z in H1. change (Z.of_nat (nat_of_ascii plus)) with 43%Z in H2. lia.
Qed.
Lemma pat_ok_snoc ls h : Forall (fun l => l = wildcard \/ lit l) ls -> h = wildcard \/ lit h \/ h = dotWildcard -> pat_ok (ls ++ [h]).
Proof.
  intros Hl Hh. induction Hl as [|l ls H _ IH]; cbn [app pat_ok].
  - split; [|by left]. naive_solver.
  - split; [naive_solver|by right].
Qed.
Lemma stored_pat ps : stored_ok ps -> Forall plain ps -> pat_ok (rev ps).
Proof.
  intros [[H1 H2 H3 [H4 _] H5 _ _] Hn] Hp. destruct ps as [|h tl]; [done|]. inversion H1; inversion H5; inversion Hn; inversion Hp; subst.
  assert (Hlab : forall l, plain l -> Contains dot l = false -> (Contains star l = true -> l = wildcard) -> no_plus l -> l = wildcard \/ lit l \/ l = dotWildcard).
  { intros l ? ? Hs ?. destruct (decide (l = dotWildcard)) as [->|]; [auto|]. destruct (Contains star l) eqn:E; [left; auto|right; left; by apply label_lit]. }
  cbn [rev]. apply pat_ok_snoc; [|by apply Hlab]. apply Forall_rev. rewrite !Forall_forall in *. intros l Hl.
  destruct (Hlab l) as [?|[?| ->]]; eauto. by apply H3 in Hl.
Qed.

(** The key of a stored pattern. *)
Definition key_of (ps : list string) : key := rjoin klabel (rev ps).

Lemma rjoin_ext f g ls : Forall (fun l => f l = g l) ls -> rjoin f ls = rjoin g ls.
Proof. intros H. induction H as [|l ls E _ IH]; [done|]. by rewrite !rjoin_cons, E, IH. Qed.
Lemma plain_ASCII s : plain s -> is_ASCII s = true.
Proof. apply all_chars_impl. intros c. unfold host_byte, byte_in. rewrite !andb_true_iff, !Nat.leb_le. lia. Qed.
Lemma insert_key_of ps b : Forall plain ps -> Forall (fun l => l <> "") (tail ps) -> ps <> [] -> head ps <> Some complexWildcard ->
  bld_insert ps b = b ++ [key_of ps].
Proof.
  intros Hp Hne H0 Hc. destruct ps as [|h tl]; [done|]. inversion_clear Hp as [|? ? Hh Ht]. unfold bld_insert. f_equal. f_equal.
  set (h' := if String.eqb h dotWildcard then complexWildcard else h).
  assert (Hh' : is_ASCII h' = true) by (subst h'; destruct (String.eqb h dotWildcard); [done|by apply plain_ASCII]).
  assert (Ha : is_ASCII (joinDomain (h' :: tl)) = true).
  { apply all_chars_join; [done|]. constructor; [done|]. eapply Forall_impl; [exact Ht|apply plain_ASCII]. }
  rewrite str_bytes_Reverse by done. unfold joinDomain. rewrite rb_Join. unfold key_of. cbn [rev].
  assert (E : Forall (fun l => rb l = klabel l) (rev tl)).
  { apply Forall_rev. eapply Forall_impl; [exact Hne|]. intros l Hl. unfold klabel. by rewrite (proj2 (String.eqb_neq _ _)). }
  assert (Eh : rb h' = klabel h) by (unfold klabel; subst h'; by destruct (String.eqb h dotWildcard)).
  destruct (decide (rev tl = [])) as [->|Hr]; [cbn; by rewrite Eh|]. by rewrite !rjoin_snoc, (rjoin_ext _ _ _ E), Eh.
Qed.
Lemma insert_plus ps b : Forall plain ps -> Forall (fun l => l <> "") ps -> ps <> [] ->
  bld_insert (complexWildcard :: ps) b = b ++ [key_of (dotWildcard :: ps)].
Proof. intros. by rewrite <- (insert_key_of (dotWildcard :: ps)) by (done || by constructor). Qed.

Lemma accepted_plain d parts : plain d -> ValidAndSplitDomain d = inr parts -> pattern_ok parts /\ Forall plain parts.
Proof.
  intros Hd Hv. apply ValidAndSplitDomain_iff in Hv as (E & _ & Hok). split; [done|]. rewrite E. by apply all_chars_Split, all_chars_lower.
Qed.
(** An accepted pattern adds the keys of what the trie stores for it. *)
Lemma bld_Insert_keys d parts b : plain d -> ValidAndSplitDomain d = inr parts -> bld_Insert d b = inr (b ++ map key_of (expand parts)).
Proof.
  intros Hd Hv. destruct (accepted_plain _ _ Hd Hv) as [[H1 H2 H3 [H4 H4'] H5 [H6 H6'] H7] Hp]. unfold bld_Insert, expand. rewrite Hv.
  destruct parts as [|h tl]; [done|]. cbn [hd_error head tail] in *. inversion_clear Hp. case_bool_decide as E.
  - injection E as ->. destruct (H6' _ eq_refl) as [?|[_ Hne]]; [done|]. assert (Ht : Forall (fun l => l <> "") (tail tl)) by (destruct tl; inversion H3; done).
    rewrite insert_plus by done. rewrite insert_key_of; try done; [by rewrite <- app_assoc|].
    intros E. destruct tl as [|q tl]; [done|]. injection E as ->. by inversion H6.
  - rewrite insert_key_of; [done|by constructor|done|done|exact E].
Qed.
Lemma expand_plain parts ps : Forall plain parts -> ps ∈ expand parts -> Forall plain ps.
Proof.
  intros Hp. unfold expand. destruct (bool_decide _).
  - intros [->|[->|[]%elem_of_nil]%elem_of_cons]%elem_of_cons; destruct Hp; try done; by constructor.
  - by intros ->%list_elem_of_singleton.
Qed.

(** The patterns [ds], given to a builder one after the other; those that are refused
    are left out. *)
Definition set_collect (ds : list string) : DomainSetBuilder :=
  fold_left (fun b d => match bld_Insert d b with inl _ => b | inr b => b end) ds [].
(** What is stored for the patterns that are accepted. *)
Definition stored (ds : list string) (p : list string) : Prop :=
  exists d parts, d ∈ ds /\ ValidAndSplitDomain d = inr parts /\ p ∈ expand parts.

Lemma stored_cons d ds p : stored (d :: ds) p <-> (exists parts, ValidAndSplitDomain d = inr parts /\ p ∈ expand parts) \/ stored ds p.
Proof. unfold stored. setoid_rewrite elem_of_cons. naive_solver. Qed.
Lemma collect_keys ds k : Forall plain ds -> k ∈ set_collect ds <-> exists p, stored ds p /\ k = key_of p.
Proof.
  intros Hds. unfold set_collect. assert (H : forall b, k ∈ fold_left (fun b d => match bld_Insert d b with inl _ => b | inr b => b end) ds b
    <-> k ∈ b \/ exists p, stored ds p /\ k = key_of p).
  { induction Hds as [|d ds Hd _ IH]; intros b; cbn [fold_left].
    - split; [by left|]. intros [?|(p & (d & ? & []%elem_of_nil & _) & _)]. done.
    - rewrite IH. setoid_rewrite stored_cons. destruct (ValidAndSplitDomain d) as [e|parts] eqn:Ev.
      + unfold bld_Insert. rewrite Ev. naive_solver.
      + rewrite (bld_Insert_keys _ _ _ Hd Ev), elem_of_app, list_elem_of_fmap. naive_solver. }
  rewrite H. split; [intros [[]%elem_of_nil|?]; done|by right].
Qed.
Lemma stored_ok_plain ds p : Forall plain ds -> stored ds p -> stored_ok p /\ Forall plain p.
Proof.
  intros Hds (d & parts & Hd & Hv & Hp). rewrite Forall_forall in Hds. destruct (accepted_plain _ _ (Hds _ Hd) Hv) as [Hok Hpl].
  split; [by eapply expand_stored|by eapply expand_plain].
Qed.

Lemma word_ok_literal a K : literal a -> word_ok K -> word_ok (a ++ K).
Proof. intros Ha HK. induction Ha as [|c a [H1 H2] _ IH]; [done|]. cbn. split; [lia|]. split; [|done]. unfold wildcardByte. lia. Qed.
Lemma word_ok_key rp : pat_ok rp -> word_ok (rjoin klabel rp).
Proof.
  induction rp as [|l r IH]; [done|]. intros [Hl Hr]. rewrite rjoin_cons.
  assert (HK : word_ok (ktail klabel r)).
  { destruct r as [|x r]; [done|]. destruct Hr as [?|Hr]; [done|]. cbn [word_ok]. split; [done|]. split; [done|]. by apply IH. }
  destruct Hl as [->|[[Hne Hlit]|[-> ->]]].
  - change (klabel wildcard) with [wildcardByte]. cbn [app word_ok]. split; [done|]. split; [|done]. intros _. by destruct r.
  - unfold klabel. rewrite (proj2 (String.eqb_neq _ _)) by done. by apply word_ok_literal.
  - cbn. split; [done|]. done.
Qed.

(** ** Names that are looked up *)

(** An ASCII name that does not begin with a separator. *)
Definition name_ok (q : string) : Prop := is_ASCII q = true /\ match q with "" => False | String c _ => c <> dot end.

Lemma lower_bytes s : map lower_byte (str_bytes s) = str_bytes (ToLower s).
Proof.
  induction s as [|c s IH]; [done|]. unfold str_bytes in *. cbn. rewrite IH. f_equal.
  destruct c as [[] [] [] [] [] [] [] []]; reflexivity.
Qed.
Lemma name_text q : is_ASCII q = true -> txt (query_key q) = rjoin rb (rev (Split (ToLower q))).
Proof.
  intros Hq. unfold txt, query_key. rewrite Hq. rewrite <- rb_Join, Join_Split. unfold rb. by rewrite map_rev, lower_bytes.
Qed.
Lemma first_label c q : c <> dot -> head (Split (ToLower (String c q))) <> Some "".
Proof.
  intros Hc. cbn [ToLower SplitOn]. destruct (Ascii.eqb_spec (lower_ascii c) dot) as [E|_]; [apply (proj1 (lower_dot c)) in E; congruence|].
  by destruct (Split (ToLower q)).
Qed.
Lemma name_txt_ok q : name_ok q -> txt_ok (rev (Split (ToLower q))).
Proof.
  intros [_ Hq]. destruct q as [|c q]; [done|].
  pose proof (first_label c q Hq) as Hh.
  pose proof (Split_no_sep dot (ToLower (String c q))) as Hd. destruct (Split_cons dot (ToLower (String c q))) as (h & tl & E). rewrite E in *.
  cbn [rev]. inversion Hd as [|? ? Hh0 Ht]; subst. apply Forall_rev in Ht. induction Ht as [|l ls Hl _ IH]; cbn [app txt_ok].
  - split; [by apply no_step_label|]. left. split; [done|]. intros ->. by apply Hh.
  - split; [by apply no_step_label|by right].
Qed.

(** ** The set answers like the patterns *)

Section Spec.
Context {BM : Bitmap} {BL : BitmapLaws BM}.

Lemma Has_stored ds q : Forall plain ds -> name_ok q ->
  exists ss, bld_Build (Some (set_collect ds)) = QOk (ss, Some []) /\
    (int32_set ss -> exists b, (exists n, forall fuel, n <= fuel -> Has fuel ss q = QOk b) /\
       (b = true <-> exists p, stored ds p /\ pattern_matches (rev p) (rev (Split (ToLower q))))).
Proof.
  intros Hds Hq. destruct (Has_keys (set_collect ds) q) as (ss & ts & E & H).
  { apply Forall_forall. intros w Hw. apply collect_keys in Hw as (p & Hp & ->); [|done].
    destruct (stored_ok_plain _ _ Hds Hp) as [H1 H2]. by apply word_ok_key, stored_pat. }
  exists ss. cbn [bld_Build]. rewrite E. split; [done|]. intros Hs. destruct (H Hs) as (b & Hb & Hiff). exists b. split; [done|].
  rewrite Hiff, (name_text q) by apply Hq. split.
  - intros (w & Hw & Hm). apply collect_keys in Hw as (p & Hp & ->); [|done]. exists p. split; [done|].
    destruct (stored_ok_plain _ _ Hds Hp) as [H1 H2]. apply rjoin_match in Hm; [done|by apply stored_pat|by apply name_txt_ok].
  - intros (p & Hp & Hm). exists (key_of p). split; [apply collect_keys; [done|by exists p]|].
    destruct (stored_ok_plain _ _ Hds Hp) as [H1 H2]. apply rjoin_match; [by apply stored_pat|by apply name_txt_ok|done].
Qed.

(** The trie of the same patterns. *)
Definition trie_of (ds : list string) : DomainTrie unit := trie_run (map (fun d => OpInsert d tt) ds).

Lemma stored_pm ds p : stored ds p <-> (rev p, tt) ∈ pm_run (map (fun d => OpInsert d tt) ds).
Proof.
  assert (H : forall m, (rev p, tt) ∈ fold_left pm_step (map (fun d => OpInsert d tt) ds) m <-> stored ds p \/ (rev p, tt) ∈ m).
  { induction ds as [|d ds IH]; intros m; cbn [map fold_left].
    - split; [by right|]. intros [(d & ? & []%elem_of_nil & _)|?]; done.
    - rewrite IH, stored_cons. cbn [pm_step]. destruct (ValidAndSplitDomain d) as [e|parts] eqn:Ev; [split; [|intros [[(? & ? & _)|?]|?]]; tauto || congruence|].
      rewrite elem_of_app, list_elem_of_fmap. assert (Hp : (exists y, (rev p, tt) = (rev y, tt) /\ y ∈ expand parts) <-> p ∈ expand parts).
      { split; [|by exists p]. intros (y & [= E] & Hy). rewrite <- (rev_involutive p), E, rev_involutive. done. }
      rewrite Hp. assert (Hx : (exists parts', inr parts = (inr parts' : DomainErr + list string) /\ p ∈ expand parts') <-> p ∈ expand parts).
      { split; [by intros (? & [= <-] & ?)|by exists parts]. }
      rewrite Hx. tauto. }
  unfold pm_run. rewrite H. split; [by left|]. by intros [?|[]%elem_of_nil].
Qed.
Lemma first_data_some {A} (f : list string -> option A) ps : is_Some (first_data f ps) <-> exists p, p ∈ ps /\ is_Some (f p).
Proof.
  induction ps as [|p ps IH]; cbn; [split; [by intros []|by intros (p & []%elem_of_nil & _)]|]. setoid_rewrite elem_of_cons.
  destruct (f p) eqn:E; [split; [exists p; rewrite E; eauto|eauto]|]. rewrite IH. split; [naive_solver|].
  intros (x & [->|Hx] & Hs); [by rewrite E in Hs; destruct Hs|eauto].
Qed.
Lemma pm_get_is_Some (m : list (list string * unit)) p : is_Some (pm_get m p) <-> (p, tt) ∈ m.
Proof.
  split; [intros [[] H]; by apply pm_get_elem|]. intros H. exists tt. apply pm_get_found; [done|]. by intros [].
Qed.
Lemma Search_stored ds q parts : ValidAndSplitDomain q = inr parts -> head parts <> Some "" ->
  is_Some (Search q (trie_of ds)) <-> exists p, stored ds p /\ pattern_matches (rev p) (rev parts).
Proof.
  intros Hv Hh. assert (Hd : is_Some (Search q (trie_of ds)) <-> is_Some (Search q (trie_of ds) ≫= data)).
  { unfold Search. rewrite Hv. rewrite bool_decide_eq_false_2 by done. rewrite isEmpty_data.
    destruct (search _ _ ≫= data) as [x|] eqn:E; [|split; by intros []]. rewrite E. destruct (search _ _) as [n|]; [|done]. split; eauto. }
  rewrite Hd, (implements_search _ (pm_run (map (fun d => OpInsert d tt) ds))) by apply implements_run. unfold pm_search. rewrite Hv, bool_decide_eq_false_2 by done.
  rewrite first_data_some. setoid_rewrite candidates_match. setoid_rewrite pm_get_is_Some. setoid_rewrite stored_pm. split.
  - intros (p & H1 & H2). exists (rev p). by rewrite rev_involutive.
  - intros (p & H1 & H2). by exists (rev p).
Qed.

(** C30: the succinct set of domain patterns answers like the trie.  Of any list of
    host-name patterns, refused ones included, building the arrays does not panic and
    empties the builder; [Has] with enough fuel returns, does not panic, and says yes
    exactly when a pattern that was accepted matches the name: the arrays and the stack
    of wildcards decide the same matching as the trie of pointers, and for every name
    that is valid [Has] and [Search] agree. *)
Theorem DomainSet_Has ds q : Forall plain ds -> name_ok q ->
  exists ss, bld_Build (Some (set_collect ds)) = QOk (ss, Some []) /\
    (int32_set ss -> exists b, (exists n, forall fuel, n <= fuel -> Has fuel ss q = QOk b) /\
       (b = true <-> exists p, stored ds p /\ pattern_matches (rev p) (rev (Split (ToLower q)))) /\
       (forall parts, ValidAndSplitDomain q = inr parts -> b = true <-> is_Some (Search q (trie_of ds)))).
Proof.
  intros Hds Hq. destruct (Has_stored ds q Hds Hq) as (ss & E & H). exists ss. split; [done|]. intros Hs. destruct (H Hs) as (b & Hb & Hiff).
  exists b. split; [done|]. split; [done|]. intros parts Hv. rewrite (Search_stored ds q parts); [|done|].
  - apply ValidAndSplitDomain_iff in Hv as (-> & _). exact Hiff.
  - apply ValidAndSplitDomain_iff in Hv as (-> & _). destruct Hq as [_ Hq]. destruct q as [|c q]; [done|]. by apply first_label.
Qed.
End Spec.

(** ** Plain bitmaps *)

(** Rank and select by counting; the index of select is the position of every 32nd bit. *)
Definition find_bit (bm : list Z) (i : nat) : nat :=
  default 0 (List.find (fun p => bit bm p && (ones bm p =? i)) (seq 0 (64 * length bm))).
Definition counting : Bitmap := {|
  IndexSelect32R64 := fun bm => (map (fun i => Z.of_nat (find_bit bm (32 * i))) (seq 0 (S (ones bm (64 * length bm) / 32))), []);
  IndexRank64 := fun _ => [];
  Rank64 := fun bm _ i => (Z.of_nat (ones bm (Z.to_nat i)), 0%Z);
  Select32R64 := fun bm _ _ i => (Z.of_nat (find_bit bm (Z.to_nat i)), 0%Z) |}.

Lemma bit_of_rank bm i n : i < ones bm n -> exists p, p < n /\ bit bm p = true /\ ones bm p = i.
Proof.
  induction n as [|n IH]; [unfold ones, count_true; cbn; lia|]. rewrite ones_S. intros Hi.
  destruct (decide (i < ones bm n)) as [H|H]; [destruct (IH H) as (p & ? & ?); exists p; split; [lia|done]|].
  destruct (bit bm n) eqn:E; [|lia]. exists n. split_and!; [lia|done|lia].
Qed.
#[local] Instance counting_laws : BitmapLaws counting.
Proof.
  constructor; intros bm i Hi; [intros _; cbn; by rewrite Nat2Z.id..| |].
  2: { cbn [IndexSelect32R64 counting fst]. apply lookup_lt_is_Some_2. rewrite length_map, length_seq. assert (i / 32 <= ones bm (64 * length bm) / 32) by (apply Nat.Div0.div_le_mono; lia). lia. }
  intros _. cbn. rewrite Nat2Z.id. destruct (bit_of_rank _ _ _ Hi) as (p & H1 & H2 & H3).
  unfold find_bit. destruct (List.find _ _) as [x|] eqn:E.
  - apply find_some in E as [_ [E1 E2%Nat.eqb_eq]%andb_true_iff]. by exists x.
  - exfalso. pose proof (find_none _ _ E p) as Hn. cbn beta in Hn. rewrite H2, H3, Nat.eqb_refl in Hn. discriminate Hn. apply in_seq. lia.
Qed.

Definition demo_set : list string := ["+.Example.com"; "*.b.org"; "www.b.org"; "a..b"; ".c.net"; "x.*.c.net"].

Lemma DomainSet_Has_witness :
  Forall plain demo_set /\ name_ok "q.B.org" /\
  exists ss b, bld_Build (BM := counting) (Some (set_collect demo_set)) = QOk (ss, Some []) /\ int32_set ss /\
    b = true /\ (exists p, stored demo_set p /\ pattern_matches (rev p) (rev (Split (ToLower "q.B.org")))) /\ is_Some (Search "q.B.org" (trie_of demo_set)).
Proof.
  assert (Hp : Forall plain demo_set) by (repeat constructor; reflexivity).
  assert (Hq : name_ok "q.B.org") by (split; [reflexivity|discriminate]).
  split; [exact Hp|]. split; [exact Hq|].
  destruct (@DomainSet_Has counting counting_laws demo_set "q.B.org" Hp Hq) as (ss & E & H).
  assert (Hs : int32_set ss).
  { assert (Ev : match bld_Build (BM := counting) (Some (set_collect demo_set)) with QOk (Some s, _) => Nat.leb (length (labelBitmap s)) 10 | _ => false end = true) by (vm_compute; reflexivity).
    rewrite E in Ev. destruct ss as [s|]; [|exact I]. apply Nat.leb_le in Ev. unfold int32_set. lia. }
  destruct (H Hs) as (b & Hb & H1 & H2). pose proof (H2 ["q"; "b"; "org"] ltac:(vm_compute; reflexivity)) as H3.
  assert (Hf : is_Some (Search "q.B.org" (trie_of demo_set))) by (vm_compute; eexists; reflexivity).
  exists ss, b. split; [exact E|]. split; [exact Hs|]. split; [by apply H3|]. split; [|exact Hf]. apply H1, H3, Hf.
Defined.

Definition set_answers (ds : list string) (qs : list string) : qres (list bool) :=
  '(ss, _) ← bld_Build (BM := counting) (Some (set_collect ds));
  fold_right (fun q r => b ← Has (BM := counting) 500 ss q; bs ← r; mret (b :: bs)) (mret []) qs.
Definition trie_answers (ds : list string) (qs : list string) : list bool := map (fun q => bool_decide (Search q (trie_of ds) <> None)) qs.

Example set_runs :
  let qs := ["example.com"; "a.B.example.com"; "www.b.org"; "a.b.b.org"; "b.org"; "c.net"; "y.c.net"; "X.y.c.net"; ""; ".b.org"] in
  set_answers demo_set qs = QOk [true; true; true; false; false; false; true; true; false; false].
Proof. vm_compute. reflexivity. Qed.

(** A label may begin with a byte that sorts before the wildcards; its node is then
    visited first, and the [+] beside it is not remembered: the set says no where the
    trie says yes. *)
Example low_byte_hides_plus :
  let ds := ["+.a.com"; "x!.a.com"] in
  trie_answers ds ["y!.a.com"] = [true] /\ set_answers ds ["y!.a.com"] = QOk [false] /\ set_answers ["+.a.com"] ["y!.a.com"] = QOk [true].
Proof. vm_compute. split_and!; reflexivity. Qed.

(** [Has] does not check the name: with an empty label in it the trie finds nothing. *)
Example empty_label_found : set_answers ["+.a.com"] ["x..a.com"] = QOk [true] /\ trie_answers ["+.a.com"] ["x..a.com"] = [false].
Proof. vm_compute. split; reflexivity. Qed.
