(* ===== verification/DomainMap.v ===== *)
(** * The domain map ([component/trie/domain_map.go])

    A [DomainSet] with a value for each key: the keys are met in the order of their
    nodes, so the rank of a leaf is the index of its value.  [dm_match] goes down one
    label of the name at a time and prefers the label itself, then [*], then [+]. *)
From S2P Require Import Prelude Names GoText DomainTrie ZList DomainSet.
#[local] Open Scope string_scope.
#[local] Open Scope list_scope.
#[local] Open Scope Z_scope.

(** @go component/trie/domain_map.go:11-11 domainMapSelectOverflow *)
Definition domainMapSelectOverflow : Z := 255.

(** @go component/trie/domain_map.go:22-25 domainMapIndex *)
Record domainMapIndex := mkIndex { idx_set : option DomainSet; selectDeltas : list Z }.
(** @go component/trie/domain_map.go:16-20 DomainMap *)
Record DomainMap (T : Type) := mkMap { dm_index : domainMapIndex; leafRanks : list Z; dm_values : list T }.
Arguments mkMap {T}.
Arguments dm_index {T}.
Arguments leafRanks {T}.
Arguments dm_values {T}.
(** @go component/trie/domain_map.go:29-32 DomainMapBuilder *)
Record DomainMapBuilder (T : Type) := mkMapBuilder { bm_set : DomainSetBuilder; valueKeys : gmap key T }.
Arguments mkMapBuilder {T}.
Arguments bm_set {T}.
Arguments valueKeys {T}.

(** A pointer that is not [nil]. *)
Definition deref {A} (p : option A) : qres A := match p with Some x => QOk x | None => QPanic end.

(** [strings.LastIndexByte(s, '.')]. *)
Fixpoint LastStep (s : string) : option nat :=
  match s with
  | "" => None
  | String c r => match LastStep r with Some i => Some (S i) | None => if Ascii.eqb c dot then Some O else None end
  end.

Section Map.
Context {BM : Bitmap} {T : Type}.

(** @go component/trie/domain_map.go:36-48 DomainMapBuilder.Insert *)
Definition mapb_Insert (domain : string) (value : T) (b : DomainMapBuilder T) : DomainErr + DomainMapBuilder T :=
  match bld_Insert domain (bm_set b) with
  | inl e => inl e
  | inr set => inr (mkMapBuilder set (fold_left (fun m k => <[k := value]> m) (drop (length (bm_set b)) set) (valueKeys b)))
  end.
(** @go component/trie/domain_map.go:51-53 DomainMapBuilder.IsEmpty *)
Definition mapb_IsEmpty (b : option (DomainMapBuilder T)) : bool :=
  match b with None => true | Some b => bld_IsEmpty (Some (bm_set b)) end.
(** @go component/trie/domain_map.go:56-59 DomainMapBuilder.Reset *)
Definition mapb_Reset (b : DomainMapBuilder T) : DomainMapBuilder T := mkMapBuilder (bld_Reset (bm_set b)) ∅.

(** @go component/trie/domain_map.go:135-146 domainMapIndex.initSelectDeltas *)
Fixpoint deltas_from (n : nat) (ss : DomainSet) (ordinal : nat) : qres (list Z) :=
  match n with
  | O => mret []
  | S n =>
      s ← index (selects ss) (ordinal / 32);
      let delta := Z.of_nat (selectIthOne (labelBitmap ss) (ranks ss) (selects ss) ordinal) - s in
      rest ← deltas_from n ss (S ordinal);
      mret ((if (delta <? 0) || (domainMapSelectOverflow <=? delta) then domainMapSelectOverflow else u8 delta) :: rest)
  end.
Definition initSelectDeltas (ss : DomainSet) : qres (list Z) := deltas_from (length (labels ss)) ss 0.
(** @go component/trie/domain_map.go:130-133 DomainMap.init *)
Definition map_init (ss : DomainSet) (values : list T) : qres (DomainMap T) :=
  deltas ← initSelectDeltas ss;
  mret (mkMap (mkIndex (Some ss) deltas) (IndexRank64 (leaves ss)) values).

(** The value of a key that is not in [valueKeys] is the zero value.
    @go component/trie/domain_map.go:63-78 DomainMapBuilder.Build *)
Definition mapb_Build (zero : T) (b : option (DomainMapBuilder T)) : qres (option (DomainMap T) * option (DomainMapBuilder T)) :=
  match b with
  | None => mret (None, None)
  | Some b =>
      let keys := bm_set b in
      match keys with
      | [] => mret (None, Some (mapb_Reset b))
      | _ =>
          '(ss, terminals) ← buildDomainSet keys;
          ss ← deref ss;
          m ← map_init ss (map (fun k => default zero (valueKeys b !! k)) terminals);
          mret (Some m, Some (mapb_Reset b))
      end
  end.

(** @go component/trie/domain_map.go:81-83 DomainMap.IsEmpty *)
Definition map_IsEmpty (m : option (DomainMap T)) : bool :=
  match m with None => true | Some m => match dm_values m with [] => true | _ => false end end.
(** @go component/trie/domain_map.go:87-92 DomainMap.DomainSet *)
Definition map_DomainSet (m : option (DomainMap T)) : option DomainSet := m ≫= fun m => idx_set (dm_index m).

(** ** Matching *)

(** @go component/trie/domain_map.go:155-157 domainMapIndex.uncachedChildStart *)
Definition uncachedChildStart (ss : DomainSet) (ordinal : nat) : nat := S (selectIthOne (labelBitmap ss) (ranks ss) (selects ss) ordinal).
(** @go component/trie/domain_map.go:148-153 domainMapIndex.childStart *)
Definition childStart (ss : DomainSet) (ordinal : nat) (delta : Z) : qres nat :=
  if delta =? domainMapSelectOverflow then mret (uncachedChildStart ss ordinal)
  else s ← index (selects ss) (ordinal / 32); mret (Z.to_nat (s + delta + 1)).
(** The first bit of a node that is not the root. *)
Definition node_start (ss : DomainSet) (deltas : list Z) (nodeID : nat) : qres nat :=
  delta ← index deltas (nodeID - 1)%nat; childStart ss (nodeID - 1) delta.

(** From bit [i] of node [node] on to a label that is not below [label], or the end:
    the bit, and whether [label] is there.
    @go component/trie/domain_map.go:171-174 domainMapIndex.match *)
Fixpoint scan_to (n : nat) (ss : DomainSet) (node i : nat) (label : Z) : qres (nat * bool) :=
  match n with
  | O => QHang
  | S n =>
      one ← isSet (labelBitmap ss) i;
      if one : bool then mret (i, false) else
      l ← index (labels ss) (i - node)%nat;
      if l <? label then scan_to n ss node (S i) label else mret (i, l =? label)
  end.
(** The bytes of a label, from its end: the node they lead to.
    @go component/trie/domain_map.go:192-206 domainMapIndex.match *)
Fixpoint static_loop (n : nat) (ss : DomainSet) (deltas : list Z) (part : key) (offset staticNode staticIndex : nat) : qres (option nat) :=
  match n with
  | O => mret (Some staticNode)
  | S n =>
      let label := revLowerAt part offset in
      '(i, found) ← scan_to (S (length (labels ss))) ss staticNode staticIndex label;
      if negb found || (label =? complexWildcardByte) then mret None
      else
        let node := (i - staticNode + 1)%nat in
        if (S offset <? length part)%nat then
          next ← node_start ss deltas node; static_loop n ss deltas part (S offset) node next
        else static_loop n ss deltas part (S offset) node i
  end.
(** The wildcards of a node; [rec] matches the labels that remain.
    @go component/trie/domain_map.go:212-230 domainMapIndex.match *)
Fixpoint dm_wild (n : nat) (ss : DomainSet) (rec : nat -> qres (option nat)) (part : key) (nodeID bitmapIndex : nat) : qres (option nat) :=
  match n with
  | O => QHang
  | S n =>
      one ← isSet (labelBitmap ss) bitmapIndex;
      if one : bool then mret None else
      label ← index (labels ss) (bitmapIndex - nodeID)%nat;
      let childID := (bitmapIndex - nodeID + 1)%nat in
      terminal ← (if label =? wildcardByte then (if bool_decide (part = [wildcardByte]) then mret None else rec childID)
                  else if label =? complexWildcardByte then mret (Some childID) else mret None);
      match terminal with
      | Some t => mret (Some t)
      | None => if complexWildcardByte <? label then mret None else dm_wild n ss rec part nodeID (S bitmapIndex)
      end
  end.
(** A label with a byte that is no ASCII is lower-cased from its runes.
    @go component/trie/domain_map.go:186-191 domainMapIndex.match *)
Definition part_key (part : string) : key :=
  if is_ASCII part then str_bytes part else byteReverse (str_bytes (ToLower (Reverse part))).
(** From a node that ends a label, the child for the separator and its first bit; the
    root is before any label.
    @go component/trie/domain_map.go:168-179 domainMapIndex.match *)
Definition behind_step (ss : DomainSet) (deltas : list Z) (nodeID : nat) : qres (option (nat * nat)) :=
  if (0 <? nodeID)%nat then
    i ← node_start ss deltas nodeID;
    '(i, found) ← scan_to (S (length (labels ss))) ss nodeID i domainStepByte;
    if found : bool then
      let nodeID := (i - nodeID + 1)%nat in
      next ← node_start ss deltas nodeID; mret (Some (nodeID, next))
    else mret None
  else mret (Some (nodeID, O)).
(** [-1] is [None].
    @go component/trie/domain_map.go:161-231 domainMapIndex.match *)
Fixpoint dm_match (fuel : nat) (ss : DomainSet) (deltas : list Z) (nodeID : nat) (domain : string) : qres (option nat) :=
  if String.eqb domain "" then leaf ← isSet (leaves ss) nodeID; mret (if leaf : bool then Some nodeID else None) else
  match fuel with
  | O => QHang
  | S fuel =>
      start ← behind_step ss deltas nodeID;
      match start with
      | None => mret None
      | Some (nodeID, bitmapIndex) =>
          let '(part, remaining) := match LastStep domain with
            | Some sep => (str_drop (S sep) domain, str_take sep domain)
            | None => (domain, "")
            end in
          let part := part_key part in
          static ← static_loop (length part) ss deltas part 0 nodeID bitmapIndex;
          terminal ← match static with Some node => dm_match fuel ss deltas node remaining | None => mret None end;
          match terminal with
          | Some t => mret (Some t)
          | None => dm_wild (S (length (labels ss))) ss (fun childID => dm_match fuel ss deltas childID remaining) part nodeID bitmapIndex
          end
      end
  end.

(** [mapping.values[rank]] at a leaf.
    @go component/trie/domain_map.go:106-107 DomainMap.Lookup *)
Definition value_at (m : DomainMap T) (ss : DomainSet) (nodeID : nat) : qres T :=
  deref (zget (dm_values m) (Rank64 (leaves ss) (leafRanks m) (i32 (Z.of_nat nodeID))).1).
(** @go component/trie/domain_map.go:97-108 DomainMap.Lookup *)
Definition map_Lookup (m : option (DomainMap T)) (domain : string) : qres (option T) :=
  if map_IsEmpty m then mret None else
  m ← deref m;
  ss ← deref (idx_set (dm_index m));
  nodeID ← dm_match (S (String.length domain)) ss (selectDeltas (dm_index m)) 0 domain;
  match nodeID with
  | None => mret None
  | Some nodeID => v ← value_at m ss nodeID; mret (Some v)
  end.

(** A value that is not there is a panic, which ends the iteration.
    @go component/trie/domain_map.go:117-127 DomainMap.Foreach *)
Definition map_Foreach {A} (fn : string -> T -> A -> bool * A) (fuel : nat) (m : option (DomainMap T)) (a : A) : qres A :=
  if map_IsEmpty m then mret a else
  m ← deref m;
  ss ← deref (idx_set (dm_index m));
  r ← ds_keys (fun key nodeID (r : qres A) =>
    match r with
    | QOk a => match value_at m ss nodeID with
               | QOk v => let '(go, a) := fn (pattern_of key) v a in (go, QOk a)
               | QPanic => (false, QPanic) | QHang => (false, QHang)
               end
    | r => (false, r)
    end) fuel ss (QOk a);
  r.
End Map.
