(* ===== verification/DomainMapProps.v ===== *)
(** * Walking the arrays label by label

    The traversal of a set visits the sorted keys; the nodes met by [dm_match] are those
    of the best pattern among the candidates of the name. *)
From stdpp Require Import sorting.
From S2P Require Import Prelude Names GoText DomainTrie DomainTrieProps ZList DomainSet Louds DomainSetProps DomainSetSpec DomainMap.
#[local] Open Scope list_scope.
#[local] Open Scope nat_scope.

Lemma group_concat W : nonempty W -> concat (map (fun cg => map (cons cg.1) cg.2) (group W)) = W.
Proof.
  intros HW. remember (length W) as n eqn:Hn. revert W Hn HW. induction (lt_wf n) as [n _ IH]. intros W -> HW.
  destruct W as [|[|c w] W]; [done|by inversion HW|]. inversion HW as [|? ? _ HW']; subst.
  destruct (group_first c w W HW') as (G & W2 & E1 & E2 & H2 & _). rewrite E2, E1. cbn [map concat fst snd]. f_equal.
  apply (IH (length W2)); [|done..]. rewrite E1, length_app, length_map. cbn. lia.
Qed.
Lemma node_words (n : node) : sorted n.2 ->
  n.2 = (if leafb n then [[]] else []) ++ concat (map (fun cg => map (cons cg.1) cg.2) (group (body n.2))).
Proof.
  intros HS. destruct (sorted_body _ HS) as (B1 & _ & B3). rewrite group_concat by done. rewrite B3 at 1. done.
Qed.

Section Walk.
Context {BM : Bitmap} {BL : BitmapLaws BM}.
Variables (ss : DomainSet) (root : node) (P : list node).
Hypothesis HL : louds root P.
Hypothesis HS : stores ss P.
Hypothesis Hsize : (Z.of_nat (64 * length (labelBitmap ss)) < 2 ^ 31)%Z.

Lemma labs_short a n : P !! a = Some n -> length (labs n) <= length (labels ss).
Proof.
  intros Ha. rewrite (s_labels _ _ HS). pose proof (concat_length_le (map labs P) a (labs n)) as H.
  rewrite list_lookup_fmap, Ha in H. specialize (H eq_refl). lia.
Qed.

(** *** Listing *)

(** A callback over a list, until it says stop. *)
Fixpoint visit {A} (f : key -> nat -> A -> bool * A) (l : list (key * nat)) (a : A) : bool * A :=
  match l with [] => (true, a) | (k, i) :: l => let '(go, a) := f k i a in if go then visit f l a else (false, a) end.
Lemma visit_keys_app {A} (f : key -> nat -> A -> bool * A) l1 l2 a :
  visit f (l1 ++ l2) a = let '(go, a) := visit f l1 a in if go then visit f l2 a else (false, a).
Proof. revert a. induction l1 as [|[k i] l1 IH]; intros a; cbn; [done|]. destruct (f k i a) as [[] a']; [apply IH|done]. Qed.

(** Keys with the leaves they end in. *)
Definition at_leaves (l : list (key * nat)) : Prop := Forall (fun x => exists W, P !! x.2 = Some (x.1, W) /\ leafb (x.1, W) = true) l.

Definition lists (m : nat) : Prop := forall a n, P !! a = Some n -> Forall (fun w => length w < m) n.2 ->
  exists l, map fst l = map (app n.1) n.2 /\ at_leaves l /\
    forall A (f : key -> nat -> A -> bool * A) fuel st, m <= fuel -> traverse f fuel ss a (start P a) n.1 st = QOk (visit f l st).

Lemma labels_list m a n : lists m -> P !! a = Some n -> Forall (fun w => length w < S m) n.2 ->
  forall gs t, drop t (group (body n.2)) = gs -> t <= length (labs n) ->
  exists l, map fst l = map (app n.1) (concat (map (fun cg => map (cons cg.1) cg.2) gs)) /\ at_leaves l /\
    forall A (f : key -> nat -> A -> bool * A) fuel c st, m <= fuel -> length gs < c ->
      traverse_labels (fun node bm l => traverse f fuel ss node bm (n.1 ++ [l])) c ss a (start P a + t) st = QOk (visit f l st).
Proof.
  intros IH Ha Hm. pose proof (good_node _ _ HL _ _ Ha) as Hgood. destruct (sorted_body _ (proj2 Hgood)) as (B1 & B2 & B3).
  assert (Hlen : length (labs n) = length (group (body n.2))) by (unfold labs; by rewrite length_map).
  induction gs as [|[c G] gs IHg]; intros t Hd Ht.
  - assert (length (group (body n.2)) <= t) by (apply (f_equal length) in Hd; rewrite length_drop in Hd; cbn in Hd; lia).
    exists []. split; [done|]. split; [constructor|]. intros A f fuel c st _ Hc. destruct c as [|c]; [cbn in Hc; lia|]. cbn [traverse_labels].
    rewrite (bit_at ss P HS Hsize a n t Ha Ht). assert (Et : (t =? length (labs n)) = true) by (apply Nat.eqb_eq; lia). by rewrite Et.
  - assert (Hlk : group (body n.2) !! t = Some (c, G)) by (rewrite <- (Nat.add_0_r t), <- lookup_drop, Hd; done).
    assert (Hd' : drop (S t) (group (body n.2)) = gs) by (rewrite <- (Nat.add_1_r t), <- drop_drop, Hd; done).
    destruct (group_node _ _ HL _ _ _ _ _ Ha Hlk) as (Hlt & Hlab & Hq). destruct (IHg (S t) Hd' ltac:(lia)) as (l2 & E2 & L2 & F2).
    assert (HG : Forall (fun w => length w < m) G).
    { apply Forall_forall. intros w Hw. destruct (group_words _ B1 _ (list_elem_of_lookup_2 _ _ _ Hlk)) as [_ Hin]. specialize (Hin w Hw).
      rewrite Forall_forall in Hm. specialize (Hm (c :: w)). rewrite B3, elem_of_app in Hm. cbn [fst] in *. specialize (Hm (or_intror Hin)). cbn in Hm. lia. }
    destruct (IH _ _ Hq HG) as (l1 & E1 & L1 & F1). cbn [fst snd] in E1. exists (l1 ++ l2).
    split; [|split; [by apply Forall_app|]].
    { rewrite map_app, E1, E2. cbn [map concat fst snd]. rewrite map_app. f_equal. rewrite map_map. apply map_ext. intros w. by rewrite <- app_assoc. }
    intros A f fuel c' st Hf Hc. destruct c' as [|c']; [cbn in Hc; lia|]. cbn [traverse_labels length] in *.
    rewrite (bit_at ss P HS Hsize a n t Ha Ht). rewrite (proj2 (Nat.eqb_neq _ _)) by lia. cbn [mbind qres_bind].
    pose proof (label_at ss P HS Hsize a n t Ha Hlt) as Hla. unfold index at 2 in Hla. rewrite Hlab in Hla. rewrite Hla. cbn [mbind qres_bind].
    replace (start P a + t - a + 1) with (child P a t) by (unfold start, child; lia).
    rewrite (child_next ss P HS Hsize _ _ _ Hq). cbn [fst] in F1. rewrite F1 by done. cbn [mbind qres_bind]. rewrite visit_keys_app.
    destruct (visit f l1 st) as [[] st1]; [|done]. rewrite <- Nat.add_succ_r. apply F2; lia.
Qed.
Lemma traverse_lists m : lists m.
Proof.
  induction m as [|m IH]; intros a n Ha Hm.
  { exfalso. destruct (good_node _ _ HL _ _ Ha) as [Hne _]. destruct n.2 as [|w W]; [done|]. inversion Hm. lia. }
  destruct (labels_list m a n IH Ha Hm _ 0 eq_refl ltac:(lia)) as (l & E & L & F). rewrite drop_0 in *.
  exists ((if leafb n then [(n.1, a)] else []) ++ l). split; [|split].
  - rewrite (node_words n) by (by apply (good_node _ _ HL _ _ Ha)). rewrite !map_app, E. f_equal. destruct (leafb n); cbn; [by rewrite app_nil_r|done].
  - apply Forall_app. split; [|done]. destruct (leafb n) eqn:El; constructor; [|done]. exists n.2. by destruct n.
  - intros A f [|fuel] st Hf; [lia|]. cbn [traverse]. rewrite (leaf_at ss P HS _ _ Ha). cbn [mbind qres_bind].
    pose proof (labs_short _ _ Ha) as Hls. assert (Hlen : length (labs n) = length (group (body n.2))) by (unfold labs; by rewrite length_map).
    rewrite visit_keys_app. destruct (leafb n); cbn [visit].
    + destruct (f n.1 a st) as [[] st1]; [|done]. rewrite <- (Nat.add_0_r (start P a)). rewrite F by lia. done.
    + rewrite <- (Nat.add_0_r (start P a)). rewrite F by lia. done.
Qed.

(** *** Children by label *)

Lemma group_words_iff (n : node) t c G : sorted n.2 -> group (body n.2) !! t = Some (c, G) -> forall w, w ∈ G <-> (c :: w) ∈ n.2.
Proof.
  intros HW Ht w. destruct (sorted_body _ HW) as (B1 & B2 & B3). split.
  - intros Hw. destruct (group_words _ B1 _ (list_elem_of_lookup_2 _ _ _ Ht)) as [_ Hin]. rewrite B3, elem_of_app. right. by apply Hin.
  - rewrite (node_words n HW), elem_of_app. intros [H|H]; [by destruct (leafb n); [apply list_elem_of_singleton in H|apply elem_of_nil in H]|].
    rewrite list_elem_of_In, in_concat in H. destruct H as (l & Hl & Hw). apply list_elem_of_In in Hl, Hw. apply list_elem_of_fmap in Hl as ([d G'] & -> & Hg).
    apply list_elem_of_fmap in Hw as (w' & [= -> ->] & Hw). apply list_elem_of_lookup in Hg as [t' Ht'].
    destruct (group_heads_sorted _ B1 B2) as [Hsort _]. cbn [fst snd] in *. enough (t' = t) as -> by (rewrite Ht' in Ht; by injection Ht as ->).
    assert (Hu : forall i j x, i < j -> map fst (group (body n.2)) !! i = Some x -> map fst (group (body n.2)) !! j = Some x -> False).
    { intros i j x Hij Hi Hj. clear -Hsort Hij Hi Hj. revert i j Hij Hi Hj. induction Hsort as [|y l _ IH HF]; intros i j Hij Hi Hj; [done|].
      destruct i as [|i]; cbn in Hi.
      - injection Hi as ->. destruct j as [|j]; [lia|]. cbn in Hj. rewrite Forall_lookup in HF. specialize (HF _ _ Hj). lia.
      - destruct j as [|j]; [lia|]. cbn in Hj. apply (IH i j); [lia|done..]. }
    destruct (Nat.lt_trichotomy t' t) as [H|[H|H]]; [exfalso; apply (Hu t' t d H)| |exfalso; apply (Hu t t' d H)]; try done; rewrite list_lookup_fmap, ?Ht, ?Ht'; done.
Qed.
Lemma no_child (n : node) c w : sorted n.2 -> c ∉ labs n -> (c :: w) ∉ n.2.
Proof.
  intros HW Hc Hin. rewrite (node_words n HW), elem_of_app in Hin. destruct Hin as [H|H]; [by destruct (leafb n); [apply list_elem_of_singleton in H|apply elem_of_nil in H]|].
  rewrite list_elem_of_In, in_concat in H. destruct H as (l & Hl & Hw). apply list_elem_of_In in Hl, Hw. apply list_elem_of_fmap in Hl as ([d G'] & -> & Hg).
  apply list_elem_of_fmap in Hw as (w' & [= -> ->] & _). apply Hc. unfold labs. apply list_elem_of_fmap. by exists (d, G').
Qed.
Lemma labs_sorted (n : node) : sorted n.2 -> StronglySorted Z.lt (labs n).
Proof. intros HW. destruct (sorted_body _ HW) as (B1 & B2 & _). by destruct (group_heads_sorted _ B1 B2). Qed.

(** Node [a'] is what the bytes [v] lead to from node [n]. *)
Definition reaches (n : node) (v : key) (a' : nat) (n' : node) : Prop :=
  P !! a' = Some n' /\ n'.1 = n.1 ++ v /\ forall w, w ∈ n'.2 <-> (v ++ w) ∈ n.2.
Lemma reaches_refl a n : P !! a = Some n -> reaches n [] a n.
Proof. intros Ha. split; [done|]. split; [by rewrite app_nil_r|done]. Qed.
Lemma reaches_trans n v a1 n1 u a2 n2 : reaches n v a1 n1 -> reaches n1 u a2 n2 -> reaches n (v ++ u) a2 n2.
Proof.
  intros (H1 & E1 & W1) (H2 & E2 & W2). split; [done|]. split; [by rewrite E2, E1, app_assoc|]. intros w. by rewrite W2, W1, app_assoc.
Qed.
Lemma child_reaches a n t c : P !! a = Some n -> labs n !! t = Some c -> exists G, reaches n [c] (child P a t) (n.1 ++ [c], G).
Proof.
  intros Ha Ht. unfold labs in Ht. rewrite list_lookup_fmap in Ht. destruct (group (body n.2) !! t) as [[d G]|] eqn:Eg; [|done]. injection Ht as ->.
  exists G. destruct (group_node _ _ HL _ _ _ _ _ Ha Eg) as (_ & _ & Hq). split; [done|]. split; [done|]. intros w.
  apply (group_words_iff n t); [by apply (good_node _ _ HL _ _ Ha)|done].
Qed.

(** Scanning the labels of a node. *)
Lemma scan_to_at a n c : P !! a = Some n -> exists i found,
  (forall fuel, length (labels ss) < fuel -> scan_to fuel ss a (start P a) c = QOk (i, found)) /\
  (if found : bool then exists t, i = start P a + t /\ labs n !! t = Some c else c ∉ labs n).
Proof.
  intros Ha. pose proof (labs_sorted n (proj2 (good_node _ _ HL _ _ Ha))) as Hsort. pose proof (labs_short _ _ Ha) as Hls.
  assert (H : forall ls t, drop t (labs n) = ls -> t <= length (labs n) -> Forall (fun l => (l < c)%Z) (take t (labs n)) -> exists i found,
    (forall fuel, length ls < fuel -> scan_to fuel ss a (start P a + t) c = QOk (i, found)) /\
    (if found : bool then exists t, i = start P a + t /\ labs n !! t = Some c else c ∉ labs n)).
  { induction ls as [|l ls IH]; intros t Hd Ht HF.
    - assert (length (labs n) <= t) by (apply (f_equal length) in Hd; rewrite length_drop in Hd; cbn in Hd; lia).
      exists (start P a + t), false. split.
      + intros [|fuel] Hf; [lia|]. cbn [scan_to]. rewrite (bit_at ss P HS Hsize a n t Ha Ht). assert (Et : (t =? length (labs n)) = true) by (apply Nat.eqb_eq; lia). by rewrite Et.
      + intros Hin. rewrite take_ge in HF by lia. rewrite Forall_forall in HF. specialize (HF _ Hin). lia.
    - assert (Hlk : labs n !! t = Some l) by (rewrite <- (Nat.add_0_r t), <- lookup_drop, Hd; done).
      assert (Hlt : t < length (labs n)) by (by eapply lookup_lt_Some).
      assert (Hstep : forall fuel, scan_to (S fuel) ss a (start P a + t) c =
        if (l <? c)%Z then scan_to fuel ss a (start P a + S t) c else QOk (start P a + t, (l =? c)%Z)).
      { intros fuel. cbn [scan_to]. rewrite (bit_at ss P HS Hsize a n t Ha Ht). rewrite (proj2 (Nat.eqb_neq _ _)) by lia. cbn [mbind qres_bind].
        pose proof (label_at ss P HS Hsize a n t Ha Hlt) as Hla. unfold index at 2 in Hla. rewrite Hlk in Hla. rewrite Hla. cbn [mbind qres_bind]. by rewrite Nat.add_succ_r. }
      destruct (Z.ltb_spec l c) as [Hc|Hc].
      + destruct (IH (S t)) as (i & found & F & R); [by rewrite <- (Nat.add_1_r t), <- drop_drop, Hd|lia|rewrite (take_S_r _ _ _ Hlk); apply Forall_app; by repeat constructor|].
        exists i, found. split; [|done]. intros [|fuel] Hf; cbn in Hf; [lia|]. rewrite Hstep. apply F. lia.
      + exists (start P a + t), (l =? c)%Z. split; [intros [|fuel] Hf; cbn in Hf; [lia|]; by rewrite Hstep|].
        destruct (Z.eqb_spec l c) as [->|Hne]; [by exists t|]. intros Hin. rewrite <- (take_drop t (labs n)), Hd, elem_of_app, elem_of_cons in Hin.
        rewrite <- (take_drop t (labs n)), Hd in Hsort. destruct Hin as [Hin|[->|Hin]]; [|done|].
        * rewrite Forall_forall in HF. specialize (HF _ Hin). lia.
        * assert (StronglySorted Z.lt (l :: ls)) as Hs2 by (clear -Hsort; induction (take t (labs n)) as [|y k IH]; [done|]; inversion Hsort; auto).
          inversion Hs2 as [|? ? _ Hall]. rewrite Forall_forall in Hall. specialize (Hall _ Hin). lia. }
  destruct (H _ 0 eq_refl ltac:(lia) (List.Forall_nil _)) as (i & found & F & R). exists i, found. split; [|done].
  intros fuel Hf. rewrite <- (Nat.add_0_r (start P a)). apply F. rewrite drop_0. lia.
Qed.

(** *** The cached starts *)

Variable deltas : list Z.
Hypothesis Hdeltas : initSelectDeltas ss = QOk deltas.

Lemma node_start_at k : 0 < k -> k < length P -> node_start ss deltas k = QOk (start P k).
Proof.
  intros H0 Hk. assert (Hchild : S (selectIthOne (labelBitmap ss) (ranks ss) (selects ss) (k - 1)) = start P k).
  { destruct (lookup_lt_is_Some_2 P (k - 1)) as [m Hm]; [lia|]. rewrite (select_at ss P HS Hsize _ _ Hm).
    pose proof (start_S ss P Hsize _ _ Hm) as E. replace (S (k - 1)) with k in E by lia. lia. }
  assert (Hlen : length (labels ss) = length P - 1).
  { rewrite (s_labels _ _ HS), length_labs. pose proof (f_equal length (louds_eq _ _ HL)) as E. cbn in E. lia. }
  assert (Hd : forall n o ds, deltas_from n ss o = QOk ds -> forall j, j < n -> exists s, selects ss !! ((o + j) / 32) = Some s /\
     ds !! j = Some (let delta := (Z.of_nat (selectIthOne (labelBitmap ss) (ranks ss) (selects ss) (o + j)) - s)%Z in
       if ((delta <? 0) || (domainMapSelectOverflow <=? delta))%Z then domainMapSelectOverflow else u8 delta)).
  { clear. induction n as [|n IH]; intros o ds E j Hj; [lia|]. cbn [deltas_from] in E. unfold index in E.
    destruct (selects ss !! (o / 32)) as [s|] eqn:Es; [|done]. cbn [mbind qres_bind] in E.
    destruct (deltas_from n ss (S o)) as [rest| |] eqn:Er; [|done..]. cbn in E. injection E as <-. destruct j as [|j].
    - rewrite Nat.add_0_r. by exists s.
    - destruct (IH _ _ Er j) as (s' & H1 & H2); [lia|]. rewrite Nat.add_succ_comm in *. by exists s'. }
  unfold initSelectDeltas in Hdeltas. destruct (Hd _ _ _ Hdeltas (k - 1)) as (s & Hs & Hds); [lia|]. cbn [Nat.add] in *.
  unfold node_start, index. rewrite Hds. cbn [mbind qres_bind]. unfold childStart, uncachedChildStart. rewrite <- Hchild.
  set (pos := selectIthOne (labelBitmap ss) (ranks ss) (selects ss) (k - 1)) in *. cbv zeta.
  destruct ((Z.of_nat pos - s <? 0) || (domainMapSelectOverflow <=? Z.of_nat pos - s))%Z eqn:Eo.
  - rewrite Z.eqb_refl. done.
  - apply orb_false_iff in Eo as [E1%Z.ltb_ge E2%Z.leb_gt]. unfold domainMapSelectOverflow in *.
    assert (Eu : u8 (Z.of_nat pos - s) = (Z.of_nat pos - s)%Z) by (unfold u8; apply Z.mod_small; lia). rewrite Eu.
    rewrite (proj2 (Z.eqb_neq _ _)) by lia. unfold index. rewrite Hs. cbn [mbind qres_bind mret qres_ret]. f_equal. lia.
Qed.
Lemma deltas_exist : exists ds, initSelectDeltas ss = QOk ds.
Proof using HL HS Hsize BL.
  assert (Hlen : length (labels ss) = length P - 1).
  { rewrite (s_labels _ _ HS), length_labs. pose proof (f_equal length (louds_eq _ _ HL)) as E. cbn in E. lia. }
  assert (H : forall n o, o + n = length (labels ss) -> exists ds, deltas_from n ss o = QOk ds).
  { induction n as [|n IH]; intros o Ho; [by exists []|]. cbn [deltas_from].
    destruct (lookup_lt_is_Some_2 P o) as [m Hm]; [lia|]. pose proof (start_in ss P HS Hsize o m _ Hm (Nat.le_refl _)) as Hin.
    pose proof (bit_at ss P HS Hsize o m _ Hm (Nat.le_refl _)) as Hb. rewrite isSet_bit, Nat.eqb_refl in Hb by done. injection Hb as Hb.
    pose proof (ones_at ss P HS Hsize o m _ Hm (Nat.le_refl _)) as Hones. pose proof (ones_mono (labelBitmap ss) _ _ Hin) as Hmono. rewrite ones_S, Hb, Hones in Hmono.
    destruct (select_index (labelBitmap ss) o ltac:(lia)) as [s Hs]. rewrite <- (s_index _ _ HS) in Hs. cbn [fst] in Hs. unfold index. rewrite Hs. cbn [mbind qres_bind].
    destruct (IH (S o)) as [ds E]; [lia|]. rewrite E. by eexists. }
  apply (H (length (labels ss)) 0). done.
Qed.

(** *** A label of the name *)

Definition no_plus_byte (v : key) : Prop := complexWildcardByte ∉ v.

(** The bytes of a label, read from its end, lead to a node or to none. *)
Lemma static_at part : forall v o b n, v = drop o (txt part) -> P !! b = Some n -> 
  exists r, (forall s, (v <> [] -> s = start P b) -> static_loop (length v) ss deltas part o b s = QOk r) /\
  match r with
  | Some b' => no_plus_byte v /\ exists n', reaches n v b' n'
  | None => ~ no_plus_byte v \/ forall w, (v ++ w) ∉ n.2
  end.
Proof.
  induction v as [|c v IH]; intros o b n Hv Hb.
  - exists (Some b). split; [done|]. split; [by intros ?%elem_of_nil|]. exists n. by apply reaches_refl.
  - assert (Hlen : length (txt part) = length part) by (unfold txt; by rewrite length_map, length_rev).
    assert (Ho : o < length part) by (apply (f_equal length) in Hv; rewrite length_drop in Hv; cbn in Hv; lia).
    rewrite (drop_txt ss Hsize part o) in Hv by done. injection Hv as Hc Hv.
    destruct (scan_to_at b n c Hb) as (i & found & F & R). cbn [length static_loop]. rewrite <- Hc.
    assert (Hstep : forall s, s = start P b -> scan_to (S (length (labels ss))) ss b s c = QOk (i, found)) by (intros s ->; apply F; lia).
    pose proof (good_node _ _ HL _ _ Hb) as [_ Hsort].
    destruct found; [destruct R as (t & -> & Ht)|].
    + destruct (decide (c = complexWildcardByte)) as [->|Hne].
      { exists None. split; [|by left; intros H; apply H; left]. intros s Hs. rewrite Hstep by (by apply Hs). done. }
      destruct (child_reaches b n t c Hb Ht) as (G & HR). set (b' := child P b t) in *.
      destruct (IH (S o) b' (n.1 ++ [c], G) Hv (proj1 HR)) as (r & Fr & Hr). exists r. split.
      * intros s Hs. rewrite Hstep by (by apply Hs). cbn [mbind qres_bind negb orb]. rewrite (proj2 (Z.eqb_neq _ _) Hne).
        replace (start P b + t - b + 1) with b' by (unfold b', start, child; lia).
        assert (Hb' : 0 < b' < length P) by (split; [unfold b', child; lia|by eapply lookup_lt_Some, (proj1 HR)]).
        destruct (Nat.ltb_spec (S o) (length part)) as [Hlt|Hge].
        -- rewrite node_start_at by lia. cbn [mbind qres_bind]. by apply Fr.
        -- apply Fr. intros Hnv. exfalso. apply Hnv. apply length_zero_iff_nil. rewrite Hv, length_drop. lia.
      * destruct r as [b2|].
        -- destruct Hr as [H1 (n2 & H2)]. split; [unfold no_plus_byte in *; rewrite elem_of_cons; naive_solver|]. exists n2.
           change (c :: v) with ([c] ++ v). by eapply reaches_trans.
        -- destruct Hr as [H1|H1]; [left; intros H; apply H1; intros Hin; apply H; by right|right]. intros w Hw. apply (H1 w).
           destruct HR as (_ & _ & HW). by apply HW.
    + exists None. split; [|right; intros w; cbn [app]; by apply no_child]. intros s Hs. rewrite Hstep by (by apply Hs). done.
Qed.

(** The wildcards of a node. *)
Lemma wild_at b n rec part rw : P !! b = Some n ->
  (forall t, labs n !! t = Some wildcardByte -> part <> [wildcardByte] -> rec (child P b t) = QOk rw) ->
  exists r, (forall fuel, length (labels ss) < fuel -> dm_wild fuel ss rec part b (start P b) = QOk r) /\
  let star := if decide (wildcardByte ∈ labs n /\ part <> [wildcardByte]) then rw else None in
  match star with
  | Some x => r = Some x
  | None => match r with Some x => exists t, labs n !! t = Some complexWildcardByte /\ x = child P b t | None => complexWildcardByte ∉ labs n end
  end.
Proof.
  intros Hb Hrec. pose proof (labs_sorted n (proj2 (good_node _ _ HL _ _ Hb))) as Hsort. pose proof (labs_short _ _ Hb) as Hls.
  assert (H : forall ls t, drop t (labs n) = ls -> t <= length (labs n) -> exists r,
    (forall fuel, length ls < fuel -> dm_wild fuel ss rec part b (start P b + t) = QOk r) /\
    let star := if decide (wildcardByte ∈ ls /\ part <> [wildcardByte]) then rw else None in
    match star with
    | Some x => r = Some x
    | None => match r with Some x => exists t, labs n !! t = Some complexWildcardByte /\ x = child P b t | None => complexWildcardByte ∉ ls end
    end).
  { induction ls as [|l ls IH]; intros t Hd Ht.
    - assert (length (labs n) <= t) by (apply (f_equal length) in Hd; rewrite length_drop in Hd; cbn in Hd; lia).
      exists None. split.
      + intros [|fuel] Hf; [lia|]. cbn [dm_wild]. rewrite (bit_at ss P HS Hsize b n t Hb Ht). assert (Et : (t =? length (labs n)) = true) by (apply Nat.eqb_eq; lia). by rewrite Et.
      + cbv zeta. rewrite decide_False by (intros [[]%elem_of_nil _]). by intros []%elem_of_nil.
    - assert (Hlk : labs n !! t = Some l) by (rewrite <- (Nat.add_0_r t), <- lookup_drop, Hd; done).
      assert (Hlt : t < length (labs n)) by (by eapply lookup_lt_Some).
      destruct (IH (S t)) as (r & F & R); [by rewrite <- (Nat.add_1_r t), <- drop_drop, Hd|lia|]. clear IH. cbv zeta in *.
      assert (Hgt : Forall (Z.lt l) ls).
      { rewrite <- (take_drop t (labs n)), Hd in Hsort. clear -Hsort. induction (take t (labs n)) as [|y k IH]; inversion Hsort; auto. }
      assert (Hafter : forall c, (c <= l)%Z -> c ∉ ls) by (intros c Hc Hin; rewrite Forall_forall in Hgt; specialize (Hgt _ Hin); lia).
      set (term := if (l =? wildcardByte)%Z then (if bool_decide (part = [wildcardByte]) then QOk None else rec (child P b t))
                   else if (l =? complexWildcardByte)%Z then QOk (Some (child P b t)) else QOk None).
      assert (Hstep : forall fuel, dm_wild (S fuel) ss rec part b (start P b + t) =
        (terminal ← term; match terminal with
          | Some t => mret (Some t)
          | None => if (complexWildcardByte <? l)%Z then mret None else dm_wild fuel ss rec part b (start P b + S t)
          end)).
      { intros fuel. cbn [dm_wild]. rewrite (bit_at ss P HS Hsize b n t Hb Ht). rewrite (proj2 (Nat.eqb_neq _ _)) by lia. cbn [mbind qres_bind].
        pose proof (label_at ss P HS Hsize b n t Hb Hlt) as Hla. unfold index at 2 in Hla. rewrite Hlk in Hla. rewrite Hla. cbn [mbind qres_bind].
        replace (start P b + t - b + 1) with (child P b t) by (unfold start, child; lia). by rewrite Nat.add_succ_r. }
      assert (Hcons : forall x, term = QOk x -> exists r', (forall fuel, length (l :: ls) < fuel -> dm_wild fuel ss rec part b (start P b + t) = QOk r') /\
        r' = match x with Some y => Some y | None => if (complexWildcardByte <? l)%Z then None else r end).
      { intros x Hx. eexists. split; [|reflexivity]. intros [|fuel] Hf; cbn in Hf; [lia|]. rewrite Hstep, Hx. cbn [mbind qres_bind]. destruct x; [done|].
        destruct (_ <? _)%Z; [done|]. apply F. lia. }
      unfold complexWildcardByte, wildcardByte in *. subst term.
      destruct (Z.eqb_spec l 42) as [->|H42]; [|destruct (Z.eqb_spec l 43) as [->|H43]].
      + rewrite (decide_False (P := 42%Z ∈ ls /\ _)) in R by (intros [Hin _]; by apply (Hafter 42%Z) in Hin).
        case_bool_decide as Hp.
        * destruct (Hcons None eq_refl) as (r' & F' & ->). exists r. split; [exact F'|]. rewrite decide_False by (intros [_ ?]; done).
          destruct r; [done|]. rewrite elem_of_cons. by intros [?|?].
        * destruct (Hcons rw (Hrec _ Hlk Hp)) as (r' & F' & ->). eexists. split; [exact F'|]. rewrite decide_True by (split; [left|done]).
          destruct rw; [done|]. change (43 <? 42)%Z with false. cbv iota. destruct r; [done|]. rewrite elem_of_cons. by intros [?|?].
      + destruct (Hcons _ eq_refl) as (r' & F' & ->). eexists. split; [exact F'|]. rewrite decide_False; [by exists t|].
        intros [[?|Hin]%elem_of_cons _]; [done|]. apply (Hafter 42%Z) in Hin; [done|lia].
      + destruct (Hcons None eq_refl) as (r' & F' & ->). eexists. split; [exact F'|]. destruct (Z.ltb_spec 43 l) as [Hl|Hl].
        * rewrite decide_False; [|intros [[?|Hin]%elem_of_cons _]; [done|]; apply (Hafter 42%Z) in Hin; [done|lia]].
          rewrite elem_of_cons. intros [?|Hin]; [done|]. apply (Hafter 43%Z) in Hin; [done|lia].
        * assert (E : (42%Z ∈ l :: ls /\ part <> [42%Z]) <-> (42%Z ∈ ls /\ part <> [42%Z])) by (rewrite elem_of_cons; naive_solver).
          destruct (decide (42%Z ∈ l :: ls /\ _)), (decide (42%Z ∈ ls /\ _)); try (exfalso; tauto).
          -- destruct rw; [done|]. destruct r; [done|]. rewrite elem_of_cons. naive_solver.
          -- destruct r; [done|]. rewrite elem_of_cons. naive_solver. }
  destruct (H _ 0 eq_refl ltac:(lia)) as (r & F & R). exists r. rewrite drop_0 in *. split; [|exact R].
  intros fuel Hf. rewrite <- (Nat.add_0_r (start P b)). apply F. lia.
Qed.
End Walk.
