(* ===== verification/DomainMapSpec.v ===== *)
(** * Lookup finds the value of the best pattern

    [dm_match] on the arrays of a built map against the candidates of a name, and
    [Lookup] against the pattern map that the trie implements. *)
From stdpp Require Import sorting.
From S2P Require Import Prelude Names GoText DomainTrie DomainTrieProps ZList DomainSet Louds DomainSetProps DomainSetSpec DomainMap DomainMapProps.
#[local] Open Scope string_scope.
#[local] Open Scope list_scope.
#[local] Open Scope nat_scope.

(** ** The last label of a name *)

Lemma LastStep_none s : Contains dot s = false -> LastStep s = None.
Proof.
  induction s as [|c s IH]; [done|]. cbn [Contains LastStep]. intros [H1 H2]%orb_false_iff. rewrite IH by done.
  destruct (Ascii.eqb_spec c dot) as [->|]; [by rewrite Ascii.eqb_refl in H1|done].
Qed.
Lemma LastStep_app a b : Contains dot b = false -> LastStep (a ++ String dot b)%string = Some (String.length a).
Proof.
  intros Hb. induction a as [|c a IH]; [rewrite sapp_nil_l; cbn [LastStep]; by rewrite LastStep_none|].
  rewrite sapp_cons. cbn [LastStep]. by rewrite IH.
Qed.
Lemma str_take_app a b : str_take (String.length a) (a ++ b)%string = a.
Proof. induction a as [|c a IH]; [by destruct b|]. rewrite sapp_cons. cbn [String.length str_take]. by rewrite IH. Qed.
Lemma str_drop_step a c b : str_drop (S (String.length a)) (a ++ String c b)%string = b.
Proof. induction a as [|d a IH]; [done|]. rewrite sapp_cons. exact IH. Qed.
Lemma Join_snoc ls part : ls <> [] -> Join (ls ++ [part]) = (Join ls ++ String dot part)%string.
Proof.
  induction ls as [|l ls IH]; [done|]. intros _. cbn [app]. destruct ls as [|m ls]; [done|].
  rewrite Join_cons by (by destruct ls). rewrite IH by done. rewrite (Join_cons _ l) by done. by rewrite !sapp_assoc, sapp_cons.
Qed.

(** ** Matching against candidates *)

#[local] Instance no_plus_dec l : Decision (no_plus l).
Proof. unfold no_plus. apply _. Defined.

Lemma candidates_nonempty x rk c : c ∈ candidates (x :: rk) -> c <> [].
Proof.
  cbn [candidates]. rewrite !elem_of_app, !list_elem_of_fmap, list_elem_of_singleton. naive_solver.
Qed.
Lemma first_data_none {A} (f : list string -> option A) ps : (forall p, p ∈ ps -> f p = None) -> first_data f ps = None.
Proof. induction ps as [|p ps IH]; [done|]. intros H. cbn. rewrite H by left. apply IH. intros q Hq. apply H. by right. Qed.
Lemma first_data_fmap {A B} (h : A -> B) (f : list string -> option A) ps : first_data (fun p => h <$> f p) ps = h <$> first_data f ps.
Proof. induction ps as [|p ps IH]; [done|]. cbn. rewrite IH. by destruct (f p). Qed.
Lemma leafb_in (n : node) : sorted n.2 -> leafb n = true <-> [] ∈ n.2.
Proof.
  intros HW. rewrite (node_words n HW). rewrite elem_of_app. destruct (leafb n).
  - split; [left; by left|done].
  - split; [done|]. intros [[]%elem_of_nil|H]. rewrite list_elem_of_In, in_concat in H. destruct H as (l & Hl & Hw). apply list_elem_of_In in Hl, Hw.
    apply list_elem_of_fmap in Hl as (cg & -> & _). by apply list_elem_of_fmap in Hw as (w' & ? & _).
Qed.
Lemma no_plus_rb l : no_plus l <-> no_plus_byte (rb l).
Proof.
  unfold no_plus, no_plus_byte, rb. rewrite list_elem_of_In, <- in_rev, <- list_elem_of_In. unfold str_bytes. induction l as [|c l IH]; [split; [by intros _ ?%elem_of_nil|done]|].
  cbn [Contains String.list_ascii_of_string map]. rewrite elem_of_cons, orb_false_iff, IH. destruct (Ascii.eqb_spec plus c) as [<-|Hne].
  - split; [by intros [? _]|]. intros H. exfalso. apply H. by left.
  - apply byte_neq in Hne. change (Z.of_nat (nat_of_ascii plus)) with complexWildcardByte in Hne. naive_solver.
Qed.
Lemma txt_label part : is_ASCII part = true -> txt (part_key part) = rb (ToLower part).
Proof. intros Hp. unfold txt, part_key, rb. rewrite Hp. by rewrite map_rev, lower_bytes. Qed.
Lemma rb_nil l : rb l = [] -> l = "".
Proof. intros E. apply rb_inj. by rewrite E. Qed.
Lemma lower_nonempty s : s <> "" -> ToLower s <> "".
Proof. by destruct s. Qed.

(** Labels of a name, the last one first. *)
Definition name_labels (rk : list string) : Prop := Forall (fun l => l <> "" /\ Contains dot l = false /\ is_ASCII l = true) rk.

Section Match.
Context {BM : Bitmap} {BL : BitmapLaws BM}.
Variables (ss : DomainSet) (K : list key) (P : list node).
Hypothesis HL : louds ([], K) P.
Hypothesis HS : stores ss P.
Hypothesis Hsize : (Z.of_nat (64 * length (labelBitmap ss)) < 2 ^ 31)%Z.
Variable deltas : list Z.
Hypothesis Hdeltas : initSelectDeltas ss = QOk deltas.
(** Nothing is stored below a [+]. *)
Hypothesis Hplus : forall a n w, P !! a = Some n -> (complexWildcardByte :: w) ∈ n.2 -> w = [].

(** What leads from a node to a pattern's end: behind a label, a separator first. *)
Definition pre (a : nat) : key := if a =? 0 then [] else [domainStepByte].
Definition kpath (a : nat) (c : list string) : key := match c with [] => [] | _ => pre a ++ rjoin klabel c end.
Definition pick_path (n : node) (a : nat) (c : list string) : option (list string) :=
  if decide (Forall no_plus c /\ kpath a c ∈ n.2) then Some c else None.
Definition matched (a : nat) (n : node) (rk : list string) (r : option nat) : Prop :=
  match r with
  | Some a' => exists n' c, P !! a' = Some n' /\ leafb n' = true /\ n'.1 = n.1 ++ kpath a c /\ first_data (pick_path n a) (candidates (map ToLower rk)) = Some c
  | None => first_data (pick_path n a) (candidates (map ToLower rk)) = None
  end.

Lemma root_at : P !! 0 = Some ([], K).
Proof. by rewrite (louds_eq _ _ HL). Qed.
Lemma reaches_pos n v a' n' : reaches P n v a' n' -> n.1 ++ v <> [] -> 0 < a'.
Proof.
  intros (Ha & E & _) Hne. destruct a' as [|a']; [|lia]. pose proof (eq_trans (eq_sym Ha) root_at) as [= ->]. cbn in E. congruence.
Qed.
Lemma kpath_cons a a' l c : 0 < a' -> kpath a (l :: c) = pre a ++ klabel l ++ kpath a' c.
Proof.
  intros Ha. assert (E : pre a' = [domainStepByte]) by (unfold pre; destruct a'; [lia|done]). unfold kpath. rewrite rjoin_cons, E. by destruct c.
Qed.
Lemma pick_cons a n l a' n' c : no_plus l -> reaches P n (pre a ++ klabel l) a' n' -> 0 < a' ->
  pick_path n a (l :: c) = cons l <$> pick_path n' a' c.
Proof.
  intros Hl (_ & _ & HW) Ha. unfold pick_path. rewrite (kpath_cons a a') by done.
  assert (E : Forall no_plus (l :: c) /\ pre a ++ klabel l ++ kpath a' c ∈ n.2 <-> Forall no_plus c /\ kpath a' c ∈ n'.2).
  { rewrite HW, <- app_assoc, Forall_cons. tauto. }
  destruct (decide (Forall no_plus (l :: c) /\ _)), (decide (Forall no_plus c /\ _)); try done; exfalso; tauto.
Qed.
Lemma pick_absent a n l c : (forall w, pre a ++ klabel l ++ w ∉ n.2) -> pick_path n a (l :: c) = None.
Proof.
  intros H. unfold pick_path. apply decide_False. intros [_ Hin]. rewrite (kpath_cons a 1) in Hin by lia. by apply H in Hin.
Qed.

(** The separator behind a label. *)
Lemma step_at a n : P !! a = Some n -> exists st, behind_step ss deltas a = QOk st /\
  match st with
  | Some (b, s) => s = start P b /\ exists nb, reaches P n (pre a) b nb
  | None => forall w, pre a ++ w ∉ n.2
  end.
Proof.
  intros Ha. assert (Hlt : a < length P) by by eapply lookup_lt_Some. unfold pre, behind_step. destruct a as [|a]; cbn [Nat.ltb Nat.leb Nat.eqb].
  { exists (Some (0, 0)). split; [done|]. split; [done|]. exists n. by apply reaches_refl. }
  rewrite (node_start_at ss _ P HL HS Hsize deltas Hdeltas) by lia. cbn [mbind qres_bind].
  destruct (scan_to_at ss _ P HL HS Hsize _ n domainStepByte Ha) as (i & found & F & R). rewrite F by lia. cbn [mbind qres_bind]. destruct found.
  - destruct R as (t & -> & Ht). destruct (child_reaches _ P HL _ _ _ _ Ha Ht) as (G & HR).
    replace (start P (S a) + t - S a + 1) with (child P (S a) t) by (unfold start, child; lia).
    rewrite (node_start_at ss _ P HL HS Hsize deltas Hdeltas); [|unfold child; lia|by eapply lookup_lt_Some, (proj1 HR)].
    exists (Some (child P (S a) t, start P (child P (S a) t))). split; [done|]. split; [done|]. by eexists.
  - exists None. split; [done|]. intros w. cbn [app]. apply no_child; [by apply (good_node _ _ HL _ _ Ha)|done].
Qed.

(** The labels of a name, taken apart by one step. *)
Lemma last_label part rest : name_labels (part :: rest) ->
  match LastStep (Join (rev (part :: rest))) with
  | Some sep => (str_drop (S sep) (Join (rev (part :: rest))), str_take sep (Join (rev (part :: rest))))
  | None => (Join (rev (part :: rest)), "")
  end = (part, Join (rev rest)).
Proof.
  intros HN. inversion_clear HN as [|? ? (Hne & Hd & _) _]. cbn [rev]. destruct (decide (rev rest = [])) as [->|Hr].
  - cbn. by rewrite LastStep_none.
  - rewrite Join_snoc, LastStep_app by done. by rewrite str_drop_step, str_take_app.
Qed.
Lemma name_nonempty part rest : name_labels (part :: rest) -> Join (rev (part :: rest)) <> "".
Proof.
  intros HN. inversion_clear HN as [|? ? (Hne & Hd & _) _]. cbn [rev]. destruct (decide (rev rest = [])) as [->|Hr]; [done|].
  rewrite Join_snoc by done. by destruct (Join (rev rest)).
Qed.

Lemma labs_unique a n t t' c : P !! a = Some n -> labs n !! t = Some c -> labs n !! t' = Some c -> t = t'.
Proof.
  intros Ha. pose proof (labs_sorted n (proj2 (good_node _ _ HL _ _ Ha))) as Hs. revert t t'. induction Hs as [|x l _ IH HF]; intros t t' Ht Ht'; [done|].
  rewrite Forall_forall in HF. destruct t as [|t], t' as [|t']; cbn in Ht, Ht'; try done.
  - injection Ht as ->. apply list_elem_of_lookup_2, HF in Ht'. lia.
  - injection Ht' as ->. apply list_elem_of_lookup_2, HF in Ht. lia.
  - f_equal. by apply IH.
Qed.

(** Below a node, matching finds the first candidate that is stored there. *)
Definition finds (rk : list string) (fuel : nat) : Prop := forall a n, P !! a = Some n ->
  exists r, dm_match fuel ss deltas a (Join (rev rk)) = QOk r /\ matched a n rk r.

Lemma matched_cons a n l b n' rest r : no_plus l -> reaches P n (pre a ++ klabel l) b n' -> matched b n' rest r ->
  match r with
  | Some x => exists n2 c, P !! x = Some n2 /\ leafb n2 = true /\ n2.1 = n.1 ++ kpath a (l :: c) /\
                first_data (pick_path n a) (map (cons l) (candidates (map ToLower rest))) = Some (l :: c)
  | None => first_data (pick_path n a) (map (cons l) (candidates (map ToLower rest))) = None
  end.
Proof.
  intros Hl HR Hm. assert (Hb : 0 < b).
  { apply (reaches_pos _ _ _ _ HR). intros [_ E]%app_eq_nil. apply app_eq_nil in E as [_ E]. unfold klabel in E. destruct (String.eqb_spec l dotWildcard) as [->|Hne]; [done|].
    by apply rb_nil in E. }
  assert (E : first_data (pick_path n a) (map (cons l) (candidates (map ToLower rest))) = cons l <$> first_data (pick_path n' b) (candidates (map ToLower rest))).
  { rewrite first_data_map, <- first_data_fmap. apply first_data_ext. intros c _. by apply (pick_cons a n l b). }
  rewrite E. destruct r as [x|]; cbn in Hm; [|by rewrite Hm]. destruct Hm as (n2 & c & H1 & H2 & H3 & H4). exists n2, c. rewrite H4.
  split_and!; try done. rewrite H3, (kpath_cons a b) by done. destruct HR as (_ & -> & _). by rewrite <- !app_assoc.
Qed.

(** The label itself. *)
Lemma static_finds a n b nb part rest fuel : name_labels (part :: rest) -> finds rest fuel -> reaches P n (pre a) b nb ->
  exists st r, static_loop (length (part_key part)) ss deltas (part_key part) 0 b (start P b) = QOk st /\
    match st with Some node => dm_match fuel ss deltas node (Join (rev rest)) | None => mret None end = QOk r /\
    match r with
    | Some x => exists n2 c, P !! x = Some n2 /\ leafb n2 = true /\ n2.1 = n.1 ++ kpath a (ToLower part :: c) /\
                  first_data (pick_path n a) (map (cons (ToLower part)) (candidates (map ToLower rest))) = Some (ToLower part :: c)
    | None => first_data (pick_path n a) (map (cons (ToLower part)) (candidates (map ToLower rest))) = None
    end.
Proof.
  intros HN IH Hb. inversion_clear HN as [|? ? (Hne & Hd & Hasc) HN']. pose proof (txt_label part Hasc) as Hv.
  assert (Hlen : length (part_key part) = length (txt (part_key part))) by (unfold txt; by rewrite length_map, length_rev). rewrite Hlen.
  destruct (static_at ss _ P HL HS Hsize deltas Hdeltas (part_key part) (txt (part_key part)) 0 b nb (eq_sym (drop_0 _)) (proj1 Hb)) as (st & Fs & Hst).
  exists st. rewrite (Fs (start P b)) by done. assert (Hk : klabel (ToLower part) = rb (ToLower part)).
  { unfold klabel. by rewrite (proj2 (String.eqb_neq _ _)) by (by apply lower_nonempty). }
  destruct st as [b'|].
  - destruct Hst as [Hnp (n' & HR)]. rewrite Hv in *. destruct (IH _ _ (proj1 HR)) as (r & Hr & Hm). exists r. split; [done|]. split; [done|].
    apply (matched_cons a n _ b' n'); [by apply no_plus_rb| |done]. rewrite Hk. by apply (reaches_trans _ _ _ _ _ _ _ _ Hb HR).
  - exists None. split; [done|]. split; [done|]. rewrite first_data_map. apply first_data_none. intros c _. rewrite Hv in Hst. destruct Hst as [Hnp|Hno].
    + unfold pick_path. apply decide_False. intros [Hf _]. inversion_clear Hf. apply Hnp. by apply no_plus_rb.
    + apply pick_absent. intros w. rewrite Hk. destruct Hb as (_ & _ & HW). rewrite <- HW. apply Hno.
Qed.

(** The wildcards beside it. *)
Lemma wild_finds a n b nb part rest fuel : name_labels (part :: rest) -> finds rest fuel -> reaches P n (pre a) b nb ->
  first_data (pick_path n a) (map (cons (ToLower part)) (candidates (map ToLower rest))) = None ->
  exists r, dm_wild (S (length (labels ss))) ss (fun childID => dm_match fuel ss deltas childID (Join (rev rest))) (part_key part) b (start P b) = QOk r /\
    matched a n (part :: rest) r.
Proof.
  intros HN IH Hb Hnone. inversion_clear HN as [|? ? (Hne & Hd & Hasc) HN']. pose proof (proj1 Hb) as HPb. unfold matched.
  assert (Efd : first_data (pick_path n a) (candidates (map ToLower (part :: rest))) =
    match first_data (pick_path n a) (map (cons wildcard) (candidates (map ToLower rest))) with Some x => Some x | None => first_data (pick_path n a) [[dotWildcard]] end).
  { cbn [map candidates]. by rewrite first_data_app, Hnone, first_data_app. }
  rewrite Efd. clear Efd.
  assert (Hrw : exists rw, (forall t, labs nb !! t = Some wildcardByte -> part_key part <> [wildcardByte] ->
      dm_match fuel ss deltas (child P b t) (Join (rev rest)) = QOk rw) /\
    (wildcardByte ∈ labs nb -> match rw with
      | Some x => exists n2 c, P !! x = Some n2 /\ leafb n2 = true /\ n2.1 = n.1 ++ kpath a (wildcard :: c) /\
                    first_data (pick_path n a) (map (cons wildcard) (candidates (map ToLower rest))) = Some (wildcard :: c)
      | None => first_data (pick_path n a) (map (cons wildcard) (candidates (map ToLower rest))) = None
      end)).
  { destruct (decide (wildcardByte ∈ labs nb)) as [Hin|Hin].
    - apply list_elem_of_lookup in Hin as [t Ht]. destruct (child_reaches _ P HL _ _ _ _ HPb Ht) as (G & HR). destruct (IH _ _ (proj1 HR)) as (rw & Hr & Hm).
      exists rw. split; [intros t' Ht' _; by rewrite (labs_unique _ _ _ _ _ HPb Ht' Ht)|]. intros _.
      eapply (matched_cons a n wildcard); [done| |exact Hm]. exact (reaches_trans _ _ _ _ _ _ _ _ Hb HR).
    - exists None. split; [|done]. intros t Ht. apply list_elem_of_lookup_2 in Ht. done. }
  destruct Hrw as (rw & Hrec & Hrw).
  destruct (wild_at ss _ P HL HS Hsize b nb (fun childID => dm_match fuel ss deltas childID (Join (rev rest))) (part_key part) rw HPb Hrec) as (r & F & R).
  exists r. split; [apply F; lia|]. cbv zeta in R.
  assert (Hstar : match (if decide (wildcardByte ∈ labs nb /\ part_key part <> [wildcardByte]) then rw else None) with
    | Some x => True
    | None => first_data (pick_path n a) (map (cons wildcard) (candidates (map ToLower rest))) = None
    end).
  { destruct (decide _) as [[Hin _]|Hno]; [specialize (Hrw Hin); by destruct rw|].
    destruct (decide (wildcardByte ∈ labs nb)) as [Hin|Hin].
    - destruct (decide (part_key part = [wildcardByte])) as [E|]; [|by destruct Hno]. assert (part = wildcard) as ->; [|done].
      unfold part_key in E. rewrite Hasc in E. by apply (str_bytes_inj part wildcard).
    - rewrite first_data_map. apply first_data_none. intros c _. apply pick_absent. intros w. destruct Hb as (_ & _ & HW). rewrite <- HW.
      apply no_child; [by apply (good_node _ _ HL _ _ HPb)|done]. }
  destruct (decide (wildcardByte ∈ labs nb /\ _)) as [[Hin _]|Hno]; [specialize (Hrw Hin); destruct rw as [y|]|]; try rewrite Hstar.
  1: { subst r. destruct Hrw as (n2 & c & H1 & H2 & H3 & H4). exists n2, (wildcard :: c). by rewrite H4. }
  all: destruct r as [z|]; [destruct R as (t & Ht & ->)|].
  1, 3: destruct (child_reaches _ P HL _ _ _ _ HPb Ht) as (G & HR); pose proof (reaches_trans _ _ _ _ _ _ _ _ Hb HR) as HR2;
    pose proof (good_node _ _ HL _ _ (proj1 HR)) as [HG HGs]; destruct HR2 as (HP2 & E2 & HW2);
    assert (Hnil : [] ∈ G) by (cbn in HG; destruct G as [|w G]; [done|];
      assert (Hw : w = []) by (apply (Hplus _ _ w HPb); apply (proj2 (proj2 HR)); left); subst w; left);
    assert (Hpick : pick_path n a [dotWildcard] = Some [dotWildcard]) by (unfold pick_path; apply decide_True; split; [by repeat constructor|];
      rewrite (kpath_cons a 1) by lia; apply HW2 in Hnil; by rewrite app_nil_r in Hnil |- *);
    eexists _, [dotWildcard]; split; [exact HP2|]; split; [by apply leafb_in|]; split; [rewrite E2, (kpath_cons a 1) by lia; cbn [kpath]; by rewrite app_nil_r|cbn [first_data]; by rewrite Hpick].
  all: cbn [first_data]; rewrite pick_absent; [done|]; intros w; destruct Hb as (_ & _ & HW); rewrite <- HW; apply no_child; [by apply (good_node _ _ HL _ _ HPb)|done].
Qed.

Lemma dm_match_finds rk : name_labels rk -> forall fuel, length rk <= fuel -> finds rk fuel.
Proof.
  induction rk as [|part rest IH]; intros HN fuel Hf a n Ha.
  - exists (if leafb n then Some a else None). assert (E : dm_match fuel ss deltas a "" = QOk (if leafb n then Some a else None)).
    { destruct fuel; cbn [dm_match String.eqb]; by rewrite (leaf_at ss P HS _ _ Ha). }
    split; [exact E|]. pose proof (leafb_in n (proj2 (good_node _ _ HL _ _ Ha))) as Hl.
    assert (Hp : first_data (pick_path n a) [[]] = if leafb n then Some [] else None).
    { cbn. unfold pick_path. cbn [kpath]. destruct (leafb n); [rewrite decide_True; [done|split; [done|by apply Hl]]|]. rewrite decide_False; [done|]. by intros [_ ?%Hl]. }
    unfold matched. cbn [map candidates]. destruct (leafb n) eqn:El; [|done]. exists n, []. cbn [kpath]. by rewrite app_nil_r.
  - destruct fuel as [|fuel]; [cbn in Hf; lia|]. pose proof (name_nonempty _ _ HN) as Hne. pose proof (last_label _ _ HN) as Hlast.
    assert (HIH : finds rest fuel) by (apply IH; [by inversion HN|cbn in Hf; lia]). cbn [dm_match]. rewrite (proj2 (String.eqb_neq _ _)) by done.
    destruct (step_at a n Ha) as (st & Est & Hst). rewrite Est. cbn [mbind qres_bind]. destruct st as [[b s]|].
    + destruct Hst as (-> & nb & Hb). rewrite Hlast. destruct (static_finds a n b nb part rest fuel HN HIH Hb) as (st & r & E1 & E2 & Hr).
      rewrite E1. cbn [mbind qres_bind]. rewrite E2. cbn [mbind qres_bind]. destruct r as [x|].
      * exists (Some x). split; [done|]. destruct Hr as (n2 & c & H1 & H2 & H3 & H4). exists n2, (ToLower part :: c). split_and!; try done.
        cbn [map candidates]. by rewrite first_data_app, H4.
      * by apply (wild_finds a n b nb part rest fuel HN HIH Hb).
    + exists None. split; [done|]. unfold matched. apply first_data_none. intros [|l c] Hc; [by apply candidates_nonempty in Hc|].
      unfold pick_path. apply decide_False. intros [_ Hin]. rewrite (kpath_cons a 1) in Hin by lia. by apply Hst in Hin.
Qed.
End Match.

(** ** Keys of labels *)

Definition label_name (l : string) : Prop := Contains dot l = false /\ no_plus l.
Definition shown (l : string) : string := if String.eqb l dotWildcard then complexWildcard else l.

Lemma rev_nonempty {A} (l : list A) : l <> [] -> rev l <> [].
Proof. intros Hl E. apply Hl. by rewrite <- (rev_involutive l), E. Qed.
Lemma map_nonempty {A B} (f : A -> B) l : l <> [] -> map f l <> [].
Proof. by destruct l. Qed.
Lemma rjoin_shown ls : rjoin klabel ls = rb (Join (rev (map shown ls))).
Proof.
  rewrite rb_Join, rev_involutive. induction ls as [|l ls IH]; [done|]. cbn [map]. rewrite !rjoin_cons, IH.
  assert (E : klabel l = rb (shown l)) by (unfold klabel, shown; by destruct (String.eqb l dotWildcard)). rewrite E. by destruct ls.
Qed.
Lemma rjoin_klabel_inj ls ms : ls <> [] -> ms <> [] -> Forall label_name ls -> Forall label_name ms ->
  rjoin klabel ls = rjoin klabel ms -> ls = ms.
Proof.
  intros Hl Hm Fl Fm. rewrite !rjoin_shown. intros E%rb_inj.
  assert (Hd : forall ks, Forall label_name ks -> Forall (fun part => Contains dot part = false) (rev (map shown ks))).
  { intros ks Hk. apply Forall_rev, Forall_map. eapply Forall_impl; [exact Hk|]. intros k [Hkd _]. unfold shown. by destruct (String.eqb k dotWildcard). }
  apply Join_inj in E; [|by apply rev_nonempty, map_nonempty..|by apply Hd|by apply Hd].
  apply (f_equal (@rev string)) in E. rewrite !rev_involutive in E. clear Hl Hm Hd. revert ms Fm E. induction Fl as [|l ls [_ Hl] _ IH]; intros [|m ms] Fm E; try done.
  inversion Fm as [|? ? [_ Hm] Fm']; subst. cbn in E. injection E as E1 E2. f_equal; [|by apply IH].
  unfold shown in E1. destruct (String.eqb_spec l dotWildcard) as [->|], (String.eqb_spec m dotWildcard) as [->|]; try done; subst; done.
Qed.
Lemma candidates_labels rk c : Forall (fun l => Contains dot l = false) rk -> c ∈ candidates rk -> Forall (fun l => Contains dot l = false) c.
Proof.
  intros Hr. revert c. induction Hr as [|l rk Hl _ IH]; intros c; cbn [candidates]; [by intros ->%list_elem_of_singleton|].
  rewrite !elem_of_app, !list_elem_of_fmap, list_elem_of_singleton. intros [(x & -> & Hx)|[(x & -> & Hx)| ->]]; repeat constructor; auto.
Qed.
Lemma plus_last rp : pat_ok rp -> forall x w, rjoin klabel rp = x ++ complexWildcardByte :: w -> w = [].
Proof.
  induction rp as [|l r IH]; [done|]. intros [Hl Hr] x w. rewrite rjoin_cons.
  assert (Htail : forall y w, ktail klabel r = y ++ complexWildcardByte :: w -> w = []).
  { intros y v E. destruct r as [|l2 r]; [by destruct y|]. destruct Hr as [?|Hr]; [done|]. destruct y as [|b y]; [done|]. injection E as _ E. by eapply IH. }
  assert (Hlab : forall u, complexWildcardByte ∉ u -> u ++ ktail klabel r = x ++ complexWildcardByte :: w -> w = []).
  { intros u Hu E. revert u Hu E. clear -Htail. induction x as [|b x IH]; intros u Hu E; destruct u as [|c u]; cbn [app] in E.
    - by apply (Htail []).
    - injection E as -> _. destruct Hu. left.
    - by apply (Htail (b :: x)).
    - injection E as _ E. apply (IH u); [|done]. intros H. apply Hu. by right. }
  destruct Hl as [->|[[Hne Hlit]|[-> ->]]].
  - apply Hlab. change (klabel wildcard) with [wildcardByte]. by intros ?%list_elem_of_singleton.
  - apply Hlab. unfold klabel. rewrite (proj2 (String.eqb_neq _ _)) by done. intros Hin. unfold literal in Hlit. rewrite Forall_forall in Hlit.
    destruct (Hlit _ Hin). unfold complexWildcardByte in *. lia.
  - cbn. destruct x as [|b [|b' x]]; [by intros [= <-]|done|done].
Qed.
Lemma stored_labels p : stored_ok p -> p <> [] /\ Forall label_name (rev p).
Proof. intros [[H1 _ _ [H4 _] _ _ _] Hn]. split; [done|]. apply Forall_rev. apply Forall_and. done. Qed.

(** ** Building a map *)

Section Build.
Context {T : Type}.

(** The pairs given to a builder one after the other, refused patterns left out. *)
Definition map_collect (l : list (string * T)) : DomainMapBuilder T :=
  fold_left (fun b x => match mapb_Insert x.1 x.2 b with inl _ => b | inr b => b end) l (mkMapBuilder [] ∅).
(** The pattern map of the same pairs, which the trie implements. *)
Definition pairs (l : list (string * T)) : list (list string * T) := pm_run (map (fun x => OpInsert x.1 x.2) l).

Record holds (b : DomainMapBuilder T) (m : list (list string * T)) : Prop := {
  h_keys k : k ∈ bm_set b -> exists p, stored_ok p /\ Forall plain p /\ k = key_of p;
  h_values c : c <> [] -> Forall label_name c -> valueKeys b !! rjoin klabel c = pm_get m c;
  h_dom k : k ∈ bm_set b <-> is_Some (valueKeys b !! k) }.

Lemma fold_insert_lookup (ks : list key) (v : T) (m : gmap key T) k :
  fold_left (fun m k => <[k := v]> m) ks m !! k = if decide (k ∈ ks) then Some v else m !! k.
Proof.
  revert m. induction ks as [|x ks IH]; intros m; cbn [fold_left]; [by rewrite decide_False by apply not_elem_of_nil|]. rewrite IH.
  destruct (decide (k ∈ ks)) as [Hk|Hk]; [rewrite decide_True by (by right); done|]. destruct (decide (k = x)) as [->|Hne].
  - by rewrite lookup_insert_eq, decide_True by left.
  - rewrite lookup_insert_ne by done. rewrite decide_False; [done|]. by intros [?|?]%elem_of_cons.
Qed.
Lemma pm_get_app (ps : list (list string)) (v : T) m c :
  pm_get (map (fun p => (rev p, v)) ps ++ m) c = if decide (rev c ∈ ps) then Some v else pm_get m c.
Proof.
  induction ps as [|p ps IH]; [by rewrite decide_False by apply not_elem_of_nil|]. cbn [map app pm_get]. destruct (decide (rev p = c)) as [<-|Hne].
  - rewrite decide_True; [done|]. rewrite rev_involutive. left.
  - rewrite IH. destruct (decide (rev c ∈ ps)); [by rewrite decide_True by (by right)|]. rewrite decide_False; [done|].
    intros [E|?]%elem_of_cons; [|done]. apply Hne. by rewrite <- E, rev_involutive.
Qed.

Lemma holds_step b m d v : plain d -> holds b m ->
  holds (match mapb_Insert d v b with inl _ => b | inr b => b end) (pm_step m (OpInsert d v)).
Proof.
  intros Hd [H1 H2 H3]. cbn [pm_step]. unfold mapb_Insert. destruct (ValidAndSplitDomain d) as [e|parts] eqn:Ev.
  { unfold bld_Insert. rewrite Ev. done. }
  rewrite (bld_Insert_keys _ _ _ Hd Ev). destruct (accepted_plain _ _ Hd Ev) as [Hok Hp]. rewrite drop_app_length.
  assert (Hexp : forall p, p ∈ expand parts -> stored_ok p /\ Forall plain p).
  { intros p Hin. split; [by eapply expand_stored|by eapply expand_plain]. }
  constructor; cbn [bm_set valueKeys].
  - intros k [Hk|Hk]%elem_of_app; [by apply H1|]. apply list_elem_of_fmap in Hk as (p & -> & Hin). exists p. destruct (Hexp _ Hin). done.
  - intros c Hc Fc. rewrite fold_insert_lookup, pm_get_app, <- H2 by done.
    assert (E : rjoin klabel c ∈ map key_of (expand parts) <-> rev c ∈ expand parts).
    { rewrite list_elem_of_fmap. split.
      - intros (p & E & Hin). destruct (stored_labels p (proj1 (Hexp _ Hin))) as [Hp0 Hpl]. unfold key_of in E.
        apply rjoin_klabel_inj in E as ->; [by rewrite rev_involutive|done|by apply rev_nonempty|done|done].
      - intros Hin. exists (rev c). split; [|done]. unfold key_of. by rewrite rev_involutive. }
    destruct (decide (rjoin klabel c ∈ _)), (decide (rev c ∈ _)); try done; exfalso; tauto.
  - intros k. rewrite fold_insert_lookup, elem_of_app, H3. destruct (decide (k ∈ map key_of (expand parts))); [|tauto]. split; [by eexists|by right].
Qed.
Lemma map_collect_holds l : Forall (fun x => plain x.1) l -> holds (map_collect l) (pairs l).
Proof.
  intros Hl. unfold map_collect, pairs, pm_run. assert (H0 : holds (mkMapBuilder [] ∅) []).
  { constructor; cbn.
    - by intros k ?%elem_of_nil.
    - intros. apply lookup_empty.
    - intros k. rewrite lookup_empty. split; [by intros ?%elem_of_nil|by intros []]. }
  revert H0. generalize (mkMapBuilder (T := T) [] ∅), (@nil (list string * T)). induction Hl as [|[d v] l Hd _ IH]; intros b m H0; [done|]. cbn [fold_left map].
  apply IH. by apply holds_step.
Qed.
End Build.

(** ** Lookup *)

Section Lookup.
Context {BM : Bitmap} {BL : BitmapLaws BM} {T : Type}.

(** Positions in the bitmaps of the set fit in an [int32]. *)
Definition int32_map (l : list (string * T)) : Prop :=
  match buildDomainSet (bm_set (map_collect l)) with
  | QOk (Some ss, _) => (Z.of_nat (64 * length (labelBitmap ss)) < 2 ^ 31)%Z /\ (Z.of_nat (64 * length (leaves ss)) < 2 ^ 31)%Z
  | _ => True
  end.
(** An ASCII name without empty labels. *)
Definition full_name (q : string) : Prop := is_ASCII q = true /\ Forall (fun l => l <> "") (Split q).

Lemma name_labels_Split q : full_name q -> name_labels (rev (Split q)).
Proof.
  intros [Hq Hne]. apply Forall_rev. pose proof (Split_no_sep dot q) as Hd. pose proof (all_chars_Split _ _ Hq) as Ha.
  rewrite Forall_forall in *. intros l Hl. split_and!; [by apply Hne|by apply Hd|by apply Ha].
Qed.
Lemma length_Split s : length (Split s) <= S (String.length s).
Proof.
  induction s as [|c s IH]; [done|]. cbn [SplitOn String.length]. destruct (Ascii.eqb c dot); [cbn; lia|]. destruct (Split s); cbn in *; lia.
Qed.

(** A leaf's rank is its place among the leaves. *)
Lemma leaf_rank (P : list node) a n : P !! a = Some n -> leafb n = true ->
  filter (fun n => leafb n = true) P !! count_true (take a (map leafb P)) = Some n.
Proof.
  intros Ha Hl. rewrite <- (take_drop_middle P a n Ha) at 2. rewrite filter_app. rewrite firstn_map.
  assert (E : count_true (map leafb (take a P)) = length (filter (fun n => leafb n = true) (take a P))).
  { unfold count_true. induction (take a P) as [|m Q IH]; [done|]. cbn [map]. rewrite !filter_cons. destruct (leafb m); [rewrite !decide_True by done; cbn [length]; by rewrite IH|by rewrite !decide_False by done]. }
  rewrite E, lookup_app_r, Nat.sub_diag by done. rewrite filter_cons_True by done. done.
Qed.
Lemma value_at_leaf ss P (deltas : list Z) (vs : list T) f a n : stores ss P -> (Z.of_nat (64 * length (leaves ss)) < 2 ^ 31)%Z ->
  vs = map f (map fst (filter (fun n => leafb n = true) P)) -> P !! a = Some n -> leafb n = true ->
  value_at (mkMap (mkIndex (Some ss) deltas) (IndexRank64 (leaves ss)) vs) ss a = QOk (f n.1).
Proof.
  intros HS Hsz -> Ha Hl. unfold value_at. cbn [leafRanks dm_values]. assert (Hlt : a < length P) by by eapply lookup_lt_Some.
  pose proof (s_leafroom _ _ HS) as Hroom. rewrite i32_small by lia. rewrite leaf_rank_ok by lia.
  rewrite (ones_take _ _ _ (s_leafbits _ _ HS)) by (rewrite length_map; lia). rewrite <- zget_lookup, Nat2Z.id by lia. rewrite !list_lookup_fmap.
  pose proof (leaf_rank _ _ _ Ha Hl) as E. unfold node in *. by rewrite E.
Qed.

Lemma first_data_choice (f : list string -> option T) (g : list string -> option (list string)) cs :
  (forall c, c ∈ cs -> g c = match f c with Some _ => Some c | None => None end) -> first_data f cs = first_data g cs ≫= f.
Proof.
  induction cs as [|c cs IH]; intros H; [done|]. cbn. rewrite (H c) by left. destruct (f c) eqn:E; [by cbn; rewrite E|]. apply IH. intros d Hd. apply H. by right.
Qed.

Lemma keys_plus (l : list (string * T)) P a n w : Forall (fun x => plain x.1) l ->
  louds ([], trie_keys (bm_set (map_collect l))) P -> P !! a = Some n -> (complexWildcardByte :: w) ∈ n.2 -> w = [].
Proof.
  intros Hl HL Ha Hw. pose proof (louds_words _ _ _ _ HL Ha _ Hw) as Hk. apply (proj1 (elem_trie_keys _ _)) in Hk.
  destruct (h_keys _ _ (map_collect_holds l Hl) _ Hk) as (p & Hok & Hp & E). unfold key_of in E. symmetry in E. eapply plus_last; [|exact E]. by apply stored_pat.
Qed.
(** What the walk picks is what the pattern map has. *)
Lemma pick_pairs (l : list (string * T)) rk c : Forall (fun x => plain x.1) l -> rk <> [] -> Forall (fun l => Contains dot l = false) rk ->
  c ∈ candidates rk -> pick_path ([], trie_keys (bm_set (map_collect l))) 0 c = match pm_get (pairs l) c with Some _ => Some c | None => None end.
Proof.
  intros Hl Hne Hrk Hc. pose proof (map_collect_holds l Hl) as HH. destruct rk as [|x rk]; [done|].
  pose proof (candidates_nonempty _ _ _ Hc) as Hc0. pose proof (candidates_labels _ _ Hrk Hc) as Hd. unfold pick_path. cbn [snd].
  assert (Ek : kpath 0 c = rjoin klabel c) by (unfold kpath, pre; by destruct c). rewrite Ek.
  assert (Hin : rjoin klabel c ∈ trie_keys (bm_set (map_collect l)) <-> is_Some (valueKeys (map_collect l) !! rjoin klabel c))
    by (by rewrite elem_trie_keys, (h_dom _ _ HH)).
  destruct (decide (Forall no_plus c)) as [Hp|Hp].
  - rewrite (h_values _ _ HH) in Hin by (done || by apply Forall_and). destruct (pm_get (pairs l) c); [rewrite decide_True; [done|split; [done|by apply Hin]]|].
    apply decide_False. intros [_ H]. apply Hin in H. by destruct H.
  - rewrite decide_False by tauto. destruct (pm_get (pairs l) c) as [v|] eqn:E; [|done]. exfalso. apply Hp. apply pm_get_elem in E. unfold pairs in E.
    apply (proj1 (pm_run_elem _ _ _)) in E. destruct E as (d & parts & p & Hd1 & Hv & Hps & ->). apply ValidAndSplitDomain_iff in Hv as (_ & _ & Hok).
    apply Forall_rev. by apply (expand_stored _ _ Hok Hps).
Qed.

(** The map that is built holds the arrays of its keys and a value for each leaf. *)
Lemma Build_map (l : list (string * T)) zero : bm_set (map_collect l) <> [] -> int32_map l ->
  exists ss P deltas ts, buildDomainSet (bm_set (map_collect l)) = QOk (Some ss, ts) /\
    louds ([], trie_keys (bm_set (map_collect l))) P /\ stores ss P /\ initSelectDeltas ss = QOk deltas /\
    (Z.of_nat (64 * length (labelBitmap ss)) < 2 ^ 31)%Z /\ (Z.of_nat (64 * length (leaves ss)) < 2 ^ 31)%Z /\
    let f k := default zero (valueKeys (map_collect l) !! k) in
    mapb_Build zero (Some (map_collect l)) =
      QOk (Some (mkMap (mkIndex (Some ss) deltas) (IndexRank64 (leaves ss)) (map f (map fst (filter (fun n => leafb n = true) P)))), Some (mkMapBuilder [] ∅)).
Proof.
  intros Hne Hfit. destruct (buildDomainSet_stores (bm_set (map_collect l)) Hne) as (ss & P & E & HL & HS). unfold int32_map in Hfit. rewrite E in Hfit.
  destruct Hfit as [H1 H2]. destruct (deltas_exist ss _ P HL HS H1) as [deltas Ed]. eexists ss, P, deltas, _. split_and!; try done. cbv zeta.
  cbn [mapb_Build]. destruct (bm_set (map_collect l)) as [|k ks]; [done|]. rewrite E. cbn [mbind qres_bind deref]. unfold map_init. rewrite Ed. done.
Qed.

Lemma louds_leaves root P : louds root P -> filter (fun n : node => leafb n = true) P <> [].
Proof.
  intros HL. destruct (last P) as [n|] eqn:En; [|apply last_None in En; rewrite (louds_eq _ _ HL) in En; done]. pose proof (louds_last _ _ _ HL En) as Hleaf.
  intros Ef. rewrite last_lookup in En. apply list_elem_of_lookup_2 in En. assert (n ∈ filter (fun n : node => leafb n = true) P) as Hin by by apply list_elem_of_filter.
  rewrite Ef in Hin. by apply elem_of_nil in Hin.
Qed.
Lemma Lookup_pairs (l : list (string * T)) zero q : Forall (fun x => plain x.1) l -> full_name q -> int32_map l ->
  exists m, mapb_Build zero (Some (map_collect l)) = QOk (m, Some (mkMapBuilder [] ∅)) /\
    map_Lookup m q = QOk (first_data (pm_get (pairs l)) (candidates (rev (Split (ToLower q))))).
Proof.
  intros Hl Hq Hfit. pose proof (map_collect_holds l Hl) as HH. set (cs := candidates (rev (Split (ToLower q)))).
  assert (Hpick : forall c, c ∈ cs -> pick_path ([], trie_keys (bm_set (map_collect l))) 0 c = match pm_get (pairs l) c with Some _ => Some c | None => None end).
  { intros c Hc. apply (pick_pairs l (rev (Split (ToLower q)))); [done|by apply rev_nonempty; destruct (Split_cons dot (ToLower q)) as (? & ? & ->)|apply Forall_rev, Split_no_sep|done]. }
  rewrite (first_data_choice _ _ _ Hpick). destruct (decide (bm_set (map_collect l) = [])) as [E0|Hne].
  { exists None. cbn [mapb_Build]. rewrite E0. split; [done|]. cbn. f_equal. rewrite first_data_none; [done|]. intros c Hc. unfold pick_path. apply decide_False.
    by intros [_ ?%elem_of_nil]. }
  destruct (Build_map l zero Hne Hfit) as (ss & P & deltas & ts & _ & HL & HS & Hd & H1 & H2 & E). rewrite E. eexists. split; [done|].
  pose proof (louds_leaves _ _ HL) as Hvals.
  unfold map_Lookup. set (vs := map _ (map fst (filter _ P))). assert (He : map_IsEmpty (Some (mkMap (mkIndex (Some ss) deltas) (IndexRank64 (leaves ss)) vs)) = false).
  { subst vs. cbn [map_IsEmpty dm_values]. by destruct (filter _ P). }
  rewrite He. cbn [deref mbind qres_bind dm_index idx_set selectDeltas].
  pose proof (dm_match_finds ss _ P HL HS H1 deltas Hd (fun a n w Ha Hw => keys_plus l P a n w Hl HL Ha Hw) _ (name_labels_Split q Hq)) as Hfind.
  destruct (Hfind (S (String.length q)) ltac:(rewrite length_rev; apply length_Split) 0 ([], trie_keys (bm_set (map_collect l))) (root_at _ _ HL)) as (r & Er & Hm).
  rewrite rev_involutive, Join_Split in Er. rewrite Er. cbn [mbind qres_bind]. unfold matched in Hm. rewrite map_rev, <- Split_lower in Hm. fold cs in Hm.
  destruct r as [a'|]; [|by rewrite Hm]. destruct Hm as (n' & c & Ha & Hleaf & En & Hc). rewrite Hc. cbn [mbind option_bind].
  rewrite (value_at_leaf ss P deltas vs _ a' n' HS H2 eq_refl Ha Hleaf). cbn [mbind qres_bind mret qres_ret]. f_equal.
  assert (Hcin : c ∈ cs /\ pick_path ([], trie_keys (bm_set (map_collect l))) 0 c = Some c).
  { clear -Hc. induction cs as [|x cs IH]; [done|]. cbn in Hc. destruct (pick_path _ 0 x) as [y|] eqn:Ex; [injection Hc as ->|].
    - unfold pick_path in Ex |- *. destruct (decide _) as [Hx|]; [|done]. injection Ex as ->. split; [left|by rewrite decide_True].
    - destruct (IH Hc). split; [by right|done]. }
  destruct Hcin as [Hin Hp]. rewrite Hpick in Hp by done. destruct (pm_get (pairs l) c) as [v|] eqn:Ev; [|done].
  assert (Hc0 : c <> []) by (subst cs; destruct (rev (Split (ToLower q))) as [|x rk] eqn:Erk;
    [exfalso; revert Erk; apply rev_nonempty; by destruct (Split_cons dot (ToLower q)) as (? & ? & ->)|by eapply candidates_nonempty]).
  rewrite En. cbn [fst]. rewrite app_nil_l. assert (Ek : kpath 0 c = rjoin klabel c) by (unfold kpath, pre; by destruct c). rewrite Ek.
  rewrite (h_values _ _ HH) by (done || (apply Forall_and; split; [by eapply candidates_labels; [|exact Hin]; apply Forall_rev, Split_no_sep|];
    unfold pick_path in Hpick; specialize (Hpick c Hin); rewrite Ev in Hpick; by destruct (decide _) as [[? _]|])).
  by rewrite Ev.
Qed.
End Lookup.

(** ** The map answers like the trie *)

(** C31: the succinct map of domain patterns implements the map of patterns that the trie
    implements.  Of any pairs of host-name patterns and values, refused ones included,
    building does not panic and empties the builder, and [Lookup] of a name ends without
    panic in the value last given for the first pattern that has one, in the order label
    itself, [*], [+] from the last label on: the label-wise descent over the bit arrays,
    with its cached starts, and the ranks of leaves find what [DomainTrie.Search] finds. *)
Theorem DomainMap_Lookup {BM : Bitmap} {BL : BitmapLaws BM} {T} (l : list (string * T)) zero q :
  Forall (fun x => plain x.1) l -> full_name q -> int32_map l ->
  exists m, mapb_Build zero (Some (map_collect l)) = QOk (m, Some (mkMapBuilder [] ∅)) /\
    map_Lookup m q = QOk (first_data (pm_get (pairs l)) (candidates (rev (Split (ToLower q))))) /\
    (forall parts, ValidAndSplitDomain q = inr parts ->
       map_Lookup m q = QOk (Search q (trie_run (map (fun x => OpInsert x.1 x.2) l)) ≫= data)).
Proof.
  intros Hl Hq Hfit. destruct (Lookup_pairs l zero q Hl Hq Hfit) as (m & E & Hm). exists m. split; [done|]. split; [done|].
  intros parts Hv. rewrite Hm. f_equal. rewrite (implements_search _ _ q (implements_run _)). unfold pm_search. rewrite Hv.
  apply ValidAndSplitDomain_iff in Hv as (-> & _). rewrite bool_decide_eq_false_2; [done|]. destruct Hq as [_ Hq]. rewrite Split_lower.
  destruct (Split q) as [|p ps]; [done|]. inversion_clear Hq as [|? ? Hp _]. cbn. intros [= E0]. by apply lower_nonempty in Hp.
Qed.

Definition demo_map : list (string * nat) :=
  [("+.Example.com", 1); ("*.b.org", 2); ("www.b.org", 3); ("a..b", 4); (".c.net", 5); ("x.*.c.net", 6); ("x!.b.org", 7); ("com", 8); ("*.*.b.org", 9); ("www.B.org", 10)].

Lemma DomainMap_Lookup_witness :
  Forall (fun x => plain x.1) (take 6 demo_map) /\ full_name "q.B.org" /\ int32_map (BM := counting) (take 6 demo_map) /\
  exists m, mapb_Build (BM := counting) 0 (Some (map_collect (take 6 demo_map))) = QOk (m, Some (mkMapBuilder [] ∅)) /\
    map_Lookup (BM := counting) m "q.B.org" = QOk (Some 2).
Proof.
  assert (Hl : Forall (fun x => plain x.1) (take 6 demo_map)) by (repeat constructor; reflexivity).
  assert (Hq : full_name "q.B.org") by (split; [reflexivity|repeat constructor; discriminate]).
  assert (Hs : int32_map (BM := counting) (take 6 demo_map)).
  { assert (Ev : match buildDomainSet (BM := counting) (bm_set (map_collect (take 6 demo_map))) with
      QOk (Some s, _) => (length (labelBitmap s) <=? 10) && (length (leaves s) <=? 10) | _ => false end = true) by (vm_compute; reflexivity).
    unfold int32_map. destruct (buildDomainSet _) as [[[s|] ts]| |]; try discriminate Ev. apply andb_true_iff in Ev as [E1%Nat.leb_le E2%Nat.leb_le]. lia. }
  split; [exact Hl|]. split; [exact Hq|]. split; [exact Hs|].
  destruct (@DomainMap_Lookup counting counting_laws nat (take 6 demo_map) 0 "q.B.org" Hl Hq Hs) as (m & E & Hm & _).
  exists m. split; [exact E|]. rewrite Hm. vm_compute. reflexivity.
Defined.

Definition map_answers (l : list (string * nat)) (qs : list string) : qres (list (option nat)) :=
  '(m, _) ← mapb_Build (BM := counting) 0 (Some (map_collect l));
  fold_right (fun q r => v ← map_Lookup (BM := counting) m q; vs ← r; mret (v :: vs)) (mret []) qs.

(** Deeper patterns before shorter ones, and a label that sorts before the wildcards. *)
Example map_runs :
  map_answers demo_map ["example.com"; "a.B.example.com"; "www.b.org"; "a.b.b.org"; "b.org"; "y.c.net"; "X.y.c.net"; "x!.b.org"; "com"; ""] =
  QOk [Some 1; Some 1; Some 10; Some 9; None; Some 5; Some 6; Some 7; Some 8; None].
Proof. vm_compute. reflexivity. Qed.

(** A trailing dot is an empty last label, which the map skips: [Lookup] finds a value
    where [Has] of the map's own set says no. *)
Example trailing_dot_found :
  map_answers [("a.com", 1)] ["a.com."] = QOk [Some 1] /\ set_answers ["a.com"] ["a.com."] = QOk [false].
Proof. vm_compute. split; reflexivity. Qed.

(** * A set can be rebuilt from its listing

    The patterns that [Foreach] hands out are those that were stored, once each_string in the
    order of their keys, and the set of these patterns is the same arrays again. *)

(** ** Sets of keys *)

Lemma sorted_NoDup W : sorted W -> NoDup W.
Proof.
  intros H. induction H as [|w W _ IH HF]; constructor; [|done]. intros Hw. rewrite Forall_forall in HF. by destruct (HF _ Hw).
Qed.
Lemma trie_keys_same ks ls : (forall k, k ∈ ks <-> k ∈ ls) -> trie_keys ks = trie_keys ls.
Proof.
  intros H. apply (StronglySorted_unique_strong lt_key); [|apply trie_keys_sorted..|].
  - intros x y _ _ [H1 _] [H2 _]. by apply bytes_le_antisym.
  - apply NoDup_Permutation.
    + apply sorted_NoDup, trie_keys_sorted.
    + apply sorted_NoDup, trie_keys_sorted.
    + intros k. by rewrite !elem_trie_keys.
Qed.

(** What is built depends on the keys as a set. *)
Lemma buildDomainSet_same {BM : Bitmap} ks ls : (forall k, k ∈ ks <-> k ∈ ls) -> buildDomainSet ks = buildDomainSet ls.
Proof.
  intros H. assert (E : compact (sort_keys ks) = compact (sort_keys ls)) by by apply trie_keys_same.
  unfold buildDomainSet. rewrite E. destruct ks as [|k ks], ls as [|l ls]; try done.
  - exfalso. eapply not_elem_of_nil, H. left.
  - exfalso. eapply not_elem_of_nil, H. left.
Qed.

(** ** From a key back to its pattern *)

Definition byte (x : Z) : Prop := (0 <= x < 256)%Z.
Lemma str_bytes_range s : Forall byte (str_bytes s).
Proof. unfold str_bytes. apply Forall_map, Forall_forall. intros c _. pose proof (nat_ascii_bounded c). unfold byte. cbn. lia. Qed.
Lemma str_bytes_str b : Forall byte b -> str_bytes (bytes_str b) = b.
Proof.
  unfold str_bytes, bytes_str, byte. rewrite String.list_ascii_of_string_of_list_ascii, map_map. induction 1 as [|x b Hx _ IH]; [done|]. cbn. rewrite IH. f_equal.
  rewrite nat_ascii_embedding by lia. lia.
Qed.
Lemma bytes_str_app a b : bytes_str (a ++ b) = (bytes_str a ++ bytes_str b)%string.
Proof. unfold bytes_str. rewrite map_app. induction (map _ a) as [|c l IH]; [done|]. cbn [app String.string_of_list_ascii]. by rewrite IH, sapp_cons. Qed.
Lemma bytes_str_bytes s : bytes_str (str_bytes s) = s.
Proof. apply str_bytes_inj, str_bytes_str, str_bytes_range. Qed.
Lemma ASCII_bytes s : is_ASCII s = true <-> Forall (fun x => (x < 128)%Z) (str_bytes s).
Proof.
  unfold is_ASCII, str_bytes. induction s as [|c s IH]; [by split|]. cbn [all_chars String.list_ascii_of_string map]. rewrite andb_true_iff, Forall_cons, IH.
  assert (H : byte_in 0 127 c = true <-> (Z.of_nat (nat_of_ascii c) < 128)%Z) by (unfold byte_in; rewrite andb_true_iff, !Nat.leb_le; lia). by rewrite H.
Qed.
Lemma trim_last_snoc c s d : trim_last c (s ++ String d "")%string = if Ascii.eqb c d then s else (s ++ String d "")%string.
Proof.
  induction s as [|x s IH]; [rewrite sapp_nil_l; cbn; by destruct (Ascii.eqb c d)|]. rewrite sapp_cons.
  transitivity (String x (trim_last c (s ++ String d "")%string)); [by destruct s|]. rewrite IH. by destruct (Ascii.eqb c d).
Qed.
Lemma bytes_str_snoc b x : bytes_str (b ++ [x]) = (bytes_str b ++ String (ascii_of_nat (Z.to_nat x)) "")%string.
Proof. unfold bytes_str. rewrite map_app. induction (map _ b) as [|c l IH]; [done|]. cbn [app String.string_of_list_ascii]. by rewrite sapp_cons, IH. Qed.
Lemma Reverse_bytes s : is_ASCII s = true -> Reverse (bytes_str (rb s)) = s.
Proof.
  intros Hs. assert (E : str_bytes (bytes_str (rb s)) = rb s) by apply str_bytes_str, Forall_rev, str_bytes_range.
  apply str_bytes_inj. rewrite str_bytes_Reverse; [unfold rb at 1; rewrite E; apply rev_involutive|]. apply ASCII_bytes. rewrite E. by apply Forall_rev, ASCII_bytes.
Qed.

Definition mark (p : list string) : key := match p with h :: _ => if String.eqb h dotWildcard then [complexWildcardByte] else [] | [] => [] end.
Lemma key_of_Join p : Forall (fun l => l <> "") (tail p) -> key_of p = rb (Join p) ++ mark p.
Proof.
  intros Hne. destruct p as [|h tl]; [done|]. unfold key_of. rewrite rb_Join. cbn [rev mark tail] in *.
  assert (Eh : klabel h = rb h ++ mark [h]) by (unfold klabel, mark; destruct (String.eqb_spec h dotWildcard) as [->|]; [done|by rewrite app_nil_r]). cbn [mark] in Eh.
  assert (E : Forall (fun l => klabel l = rb l) (rev tl)).
  { apply Forall_rev. eapply Forall_impl; [exact Hne|]. intros l Hl. unfold klabel. by rewrite (proj2 (String.eqb_neq _ _)). }
  destruct (decide (rev tl = [])) as [->|Hr]; [cbn [app]; by rewrite !rjoin_cons, !app_nil_r|].
  rewrite !rjoin_snoc by done. rewrite (rjoin_ext _ _ _ E), Eh. by rewrite <- app_assoc.
Qed.
Lemma pattern_of_key p : stored_ok p -> Forall plain p -> pattern_of (key_of p) = Join p.
Proof.
  intros [[_ _ H3 [H4 _] _ _ _] Hn] Hp. rewrite key_of_Join by done.
  assert (Ha : is_ASCII (Join p) = true) by (apply all_chars_join; [done|]; eapply Forall_impl; [exact Hp|apply plain_ASCII]).
  unfold pattern_of. destruct p as [|h tl]; [done|]. cbn [mark]. inversion_clear Hn as [|? ? Hh _]. destruct (String.eqb_spec h dotWildcard) as [->|Hne].
  - rewrite bytes_str_snoc. change (ascii_of_nat (Z.to_nat complexWildcardByte)) with plus. rewrite trim_last_snoc, Ascii.eqb_refl. by apply Reverse_bytes.
  - rewrite app_nil_r. enough (E : trim_last plus (bytes_str (rb (Join (h :: tl)))) = bytes_str (rb (Join (h :: tl)))) by (rewrite E; by apply Reverse_bytes).
    destruct h as [|c h]; [done|]. assert (Hj : exists r, Join (String c h :: tl) = String c r).
    { destruct tl as [|t tl]; [by eexists|]. rewrite Join_cons by done. rewrite sapp_cons. by eexists. }
    destruct Hj as [r ->]. assert (Er : rb (String c r) = rb r ++ [Z.of_nat (nat_of_ascii c)]) by done. rewrite Er, bytes_str_snoc, trim_last_snoc, Nat2Z.id, ascii_nat_embedding.
    unfold no_plus in Hh. cbn [Contains] in Hh. apply orb_false_iff in Hh as [-> _]. done.
Qed.
Lemma stored_plain p : stored_ok p -> Forall plain p ->
  plain (Join p) /\ ValidAndSplitDomain (Join p) = inr p /\ expand p = [p].
Proof.
  intros Hok Hp. split; [by apply all_chars_join|]. apply stored_valid; [done|].
  assert (Hj : plain (Join p)) by by apply all_chars_join. destruct (Join p) as [|c s]; [done|]. unfold plain in Hj. cbn [all_chars] in Hj. apply andb_true_iff in Hj as [Hc _].
  unfold host_byte, byte_in, leading_space, IsSpace in *. apply andb_true_iff in Hc as [Hc%Nat.leb_le _]. apply orb_false_iff. split; [apply andb_false_iff; right; apply Nat.leb_gt; lia|apply Nat.eqb_neq; lia].
Qed.

(** ** The listing *)

Section List.
Context {BM : Bitmap} {BL : BitmapLaws BM}.

(** A callback over strings, until it says stop. *)
Fixpoint each_string {A} (f : string -> A -> bool * A) (l : list string) (a : A) : A :=
  match l with [] => a | x :: l => let '(go, a) := f x a in if go then each_string f l a else a end.
Lemma visit_each {A} (f : string -> A -> bool * A) (l : list (key * nat)) a :
  (visit (fun k _ => f (pattern_of k)) l a).2 = each_string f (map pattern_of (map fst l)) a.
Proof.
  revert a. induction l as [|[k i] l IH]; intros a; [done|]. cbn [visit map fst each_string]. destruct (f (pattern_of k) a) as [[] a']; [apply IH|done].
Qed.

Lemma Foreach_keys ks ss ts : ks <> [] -> buildDomainSet ks = QOk (Some ss, ts) -> (Z.of_nat (64 * length (labelBitmap ss)) < 2 ^ 31)%Z ->
  exists n, forall A (f : string -> A -> bool * A) fuel a, n <= fuel -> set_Foreach f fuel ss a = QOk (each_string f (map pattern_of (trie_keys ks)) a).
Proof.
  intros Hne E Hs. destruct (buildDomainSet_stores ks Hne) as (ss' & P & E' & HL & HS). rewrite E in E'. injection E' as <- _.
  assert (Hr : P !! 0 = Some ([], trie_keys ks)) by (by rewrite (louds_eq _ _ HL)).
  exists (S (list_max (map length (trie_keys ks)))).
  destruct (traverse_lists ss _ P HL HS Hs (S (list_max (map length (trie_keys ks)))) 0 _ Hr) as (l & El & _ & F).
  { apply Forall_forall. intros w Hw. cbn [snd] in Hw. assert (Hm : Forall (fun k => k <= list_max (map length (trie_keys ks))) (map length (trie_keys ks))) by by apply list_max_le.
    rewrite Forall_forall in Hm. specialize (Hm (length w)). rewrite list_elem_of_fmap in Hm. assert (length w <= list_max (map length (trie_keys ks))) by (apply Hm; eauto). lia. }
  intros A f fuel a Hf. unfold set_Foreach, ds_keys. cbn [fst] in F. change (start P 0) with 0 in F. rewrite F by done. cbn [mbind qres_bind mret qres_ret]. f_equal.
  rewrite visit_each, El. f_equal. f_equal. apply map_id.
Qed.
End List.

Section Listing.
Context {BM : Bitmap} {BL : BitmapLaws BM}.

Lemma listed_stored ds : Forall plain ds -> let L := map pattern_of (trie_keys (set_collect ds)) in
  Forall plain L /\ NoDup L /\ (forall x, x ∈ L <-> exists p, stored ds p /\ x = Join p) /\ (forall k, k ∈ set_collect L <-> k ∈ set_collect ds).
Proof.
  intros Hds L. assert (Hin : forall x, x ∈ L <-> exists p, stored ds p /\ x = Join p).
  { intros x. subst L. rewrite list_elem_of_fmap. setoid_rewrite elem_trie_keys. setoid_rewrite (collect_keys _ _ Hds). split.
    - intros (k & -> & p & Hp & ->). destruct (stored_ok_plain _ _ Hds Hp). exists p. by rewrite pattern_of_key.
    - intros (p & Hp & ->). destruct (stored_ok_plain _ _ Hds Hp). exists (key_of p). rewrite pattern_of_key by done. eauto. }
  assert (HpL : Forall plain L).
  { apply Forall_forall. intros x (p & Hp & ->)%Hin. destruct (stored_ok_plain _ _ Hds Hp). by apply stored_plain. }
  split; [done|]. split; [|split; [done|]].
  - apply NoDup_fmap_2_strong; [|apply sorted_NoDup, trie_keys_sorted]. intros x y Hx Hy. rewrite elem_trie_keys in Hx, Hy.
    apply collect_keys in Hx as (p & Hp & ->), Hy as (q & Hq & ->); [|done..]. destruct (stored_ok_plain _ _ Hds Hp) as [Op Pp], (stored_ok_plain _ _ Hds Hq) as [Oq Pq].
    rewrite !pattern_of_key by done. intros E. apply Join_inj in E; [by subst|apply Op|apply Oq|apply Op|apply Oq].
  - intros k. rewrite (collect_keys L), (collect_keys ds) by done. split; intros (p & Hp & ->); exists p; (split; [|done]).
    + destruct Hp as (x & parts & Hx & Hv & Hp). apply Hin in Hx as (p' & Hp' & ->). destruct (stored_ok_plain _ _ Hds Hp') as [Op Pp].
      destruct (stored_plain _ Op Pp) as (_ & Hv' & He). rewrite Hv in Hv'. injection Hv' as ->. rewrite He in Hp. apply list_elem_of_singleton in Hp as ->. done.
    + destruct (stored_ok_plain _ _ Hds Hp) as [Op Pp]. destruct (stored_plain _ Op Pp) as (_ & Hv & He). exists (Join p), p. split_and!; [apply Hin; eauto|done|rewrite He; left].
Qed.

(** C32: a set can be listed and rebuilt.  Of any list of host-name patterns, refused ones
    included, [Foreach] on the built set ends without panic whatever the callback, and
    hands out every stored pattern exactly once, until the callback says stop; a set
    built from these patterns alone is bit for bit the same set. *)
Theorem DomainSet_Foreach ds ss : Forall plain ds -> bld_Build (Some (set_collect ds)) = QOk (Some ss, Some []) -> int32_set (Some ss) ->
  exists L, NoDup L /\ (forall x, x ∈ L <-> exists p, stored ds p /\ x = Join p) /\
    (exists n, forall A (f : string -> A -> bool * A) fuel a, n <= fuel -> set_Foreach f fuel ss a = QOk (each_string f L a)) /\
    bld_Build (Some (set_collect L)) = QOk (Some ss, Some []).
Proof.
  intros Hds E Hs. exists (map pattern_of (trie_keys (set_collect ds))). destruct (listed_stored ds Hds) as (_ & H1 & H2 & H3).
  split; [done|]. split; [done|]. cbn [bld_Build] in *. rewrite (buildDomainSet_same _ _ H3).
  destruct (buildDomainSet (set_collect ds)) as [[[s|] ts]| |] eqn:Eb; cbn in E; try done. injection E as ->. split; [|done].
  eapply Foreach_keys; [|exact Eb|exact Hs]. intros E0. by rewrite E0 in Eb.
Qed.
End Listing.

Lemma DomainSet_Foreach_witness :
  Forall plain demo_set /\ exists ss, bld_Build (BM := counting) (Some (set_collect demo_set)) = QOk (Some ss, Some []) /\ int32_set (Some ss) /\
  exists L, NoDup L /\ "www.b.org" ∈ L /\ bld_Build (BM := counting) (Some (set_collect L)) = QOk (Some ss, Some []).
Proof.
  assert (Hp : Forall plain demo_set) by (repeat constructor; reflexivity). split; [exact Hp|].
  assert (Ev : match bld_Build (BM := counting) (Some (set_collect demo_set)) with QOk (Some s, Some []) => Nat.leb (length (labelBitmap s)) 10 | _ => false end = true) by (vm_compute; reflexivity).
  destruct (bld_Build (BM := counting) (Some (set_collect demo_set))) as [[[ss|] [[|]|]]| |] eqn:E; try discriminate Ev.
  assert (Hs : int32_set (Some ss)) by (apply Nat.leb_le in Ev; unfold int32_set; lia).
  exists ss. split; [reflexivity|]. split; [exact Hs|].
  destruct (@DomainSet_Foreach counting counting_laws demo_set ss Hp E Hs) as (L & H1 & H2 & _ & H4). exists L. split; [exact H1|]. split; [|exact H4].
  apply H2. exists ["www"; "b"; "org"]. split; [|reflexivity]. exists "www.b.org", ["www"; "b"; "org"]. split; [|split; vm_compute; [reflexivity|left]].
  unfold demo_set. rewrite !elem_of_cons. tauto.
Defined.

Example listed_patterns :
  (r ← bld_Build (BM := counting) (Some (set_collect demo_set)); ss ← deref r.1; set_Foreach (BM := counting) (fun x l => (true, l ++ [x])) 50 ss []) =
  QOk ["*.b.org"; "www.b.org"; "example.com"; ".example.com"; "x.*.c.net"; ".c.net"].
Proof. vm_compute. reflexivity. Qed.
