(* ===== verification/DomainBin.v ===== *)
(** * Domain sets and maps as files ([component/trie/domain_set_bin.go], [domain_map_bin.go])

    A version byte, then each array with its length before it, numbers big-endian.  An
    [io.Writer] is a type of states with a write that may refuse; an [io.Reader] is the
    bytes that are left.  The lengths of a file are not checked before the arrays are
    made: beyond what the runtime can allocate [make] panics. *)
From S2P Require Import Prelude Names GoText DomainTrie ZList DomainSet DomainMap DomainTrieProps Louds DomainSetProps DomainSetSpec DomainMapProps DomainMapSpec.
#[local] Open Scope list_scope.
#[local] Open Scope Z_scope.

(** [Err e] is an error of the writer or of the callback for values. *)
Inductive BinErr (E : Type) := BinEOF | BinUnexpectedEOF | BinVersion | BinLength | BinSeparator | BinEmptyMap | BinErr_ (e : E).
Arguments BinEOF {E}.
Arguments BinUnexpectedEOF {E}.
Arguments BinVersion {E}.
Arguments BinLength {E}.
Arguments BinSeparator {E}.
Arguments BinEmptyMap {E}.
Arguments BinErr_ {E}.

(** [binary.BigEndian], 64 bits. *)
Definition be64 (v : Z) : list Z := map (fun i => Z.land (Z.shiftr v (8 * i)) 255) [7; 6; 5; 4; 3; 2; 1; 0].
Definition of_be (b : list Z) : Z := fold_left (fun a x => 256 * a + x) b 0.

(** ** Writing *)

Section Write.
Context {W E : Type} (write : list Z -> W -> (E + unit) * W).

(** A writer's state, passed on until an error. *)
Definition wr : Type := W -> (BinErr E + unit) * W.
Definition wr_seq (a b : wr) : wr := fun w => let '(r, w) := a w in match r with inl e => (inl e, w) | inr _ => b w end.
Definition wr_done : wr := fun w => (inr tt, w).
Definition Write (p : list Z) : wr := fun w => let '(r, w) := write p w in (match r with inl e => inl (BinErr_ e) | inr u => inr u end, w).
Definition wr_list {A} (f : A -> wr) (l : list A) : wr := fold_right (fun x k => wr_seq (f x) k) wr_done l.

(** @go component/trie/domain_set_bin.go:9-51 DomainSet.WriteBin *)
Definition set_WriteBin (ss : DomainSet) : wr :=
  wr_seq (Write [1])
 (wr_seq (Write (be64 (zlen (leaves ss)))) (wr_seq (wr_list (fun d => Write (be64 d)) (leaves ss))
 (wr_seq (Write (be64 (zlen (labelBitmap ss)))) (wr_seq (wr_list (fun d => Write (be64 d)) (labelBitmap ss))
 (wr_seq (Write (be64 (zlen (labels ss)))) (Write (labels ss))))))).

(** A map that is not empty has a set.
    @go component/trie/domain_map_bin.go:9-40 DomainMap.WriteBin *)
Definition map_WriteBin {T} (writeValue : T -> wr) (m : option (DomainMap T)) : W -> qres ((BinErr E + unit) * W) := fun w =>
  if map_IsEmpty m then mret (inl BinEmptyMap, w) else
  m ← deref m;
  ss ← deref (idx_set (dm_index m));
  mret (wr_seq (set_WriteBin ss) (wr_seq (Write [0]) (wr_seq (Write [1])
       (wr_seq (Write (be64 (zlen (dm_values m)))) (wr_list writeValue (dm_values m))))) w).
End Write.

(** ** Reading *)

Section Read.
Context {BM : Bitmap} {E : Type} (maxAlloc : Z).

(** What reading leaves, or an error. *)
Definition rd (A : Type) : Type := list Z -> qres (BinErr E + A * list Z).
Definition rd_ret {A} (x : A) : rd A := fun r => QOk (inr (x, r)).
Definition rd_err {A} (e : BinErr E) : rd A := fun r => QOk (inl e).
Definition rd_bind {A B} (m : rd A) (f : A -> rd B) : rd B := fun r =>
  x ← m r; match x with inl e => QOk (inl e) | inr (x, r) => f x r end.

(** [io.ReadFull] of [n] bytes. *)
Definition ReadFull (n : Z) : rd (list Z) := fun r =>
  if n <=? zlen r then QOk (inr (ztake n r, zdrop n r))
  else QOk (inl (match r with [] => BinEOF | _ => BinUnexpectedEOF end)).
(** [binary.Read] of a [uint64] and an [int64]. *)
Definition Read_u64 : rd Z := rd_bind (ReadFull 8) (fun b => rd_ret (of_be b)).
Definition Read_i64 : rd Z := rd_bind (ReadFull 8) (fun b => rd_ret (i64 (of_be b))).
(** [make([]T, length)] with elements of [size] bytes. *)
Definition make_slice (size length : Z) : rd unit := fun r => if maxAlloc <? size * length then QPanic else QOk (inr (tt, r)).

(** The loop over the elements of a new slice; each takes bytes of the file.
    @go component/trie/domain_set_bin.go:76-81 ReadDomainSetBin *)
Fixpoint read_loop {A} (fuel : nat) (get : rd A) (i length : Z) (acc : list A) : rd (list A) :=
  if i <? length then
    match fuel with
    | O => fun _ => QHang
    | S fuel => rd_bind get (fun x => read_loop fuel get (i + 1) length (acc ++ [x]))
    end
  else rd_ret acc.
(** @go component/trie/domain_set_bin.go:67-81 ReadDomainSetBin *)
Definition read_words (fuel : nat) : rd (list Z) :=
  rd_bind Read_i64 (fun length =>
  if length <? 1 then rd_err BinLength else
  rd_bind (make_slice 8 length) (fun _ => read_loop fuel Read_u64 0 length [])).
(** @go component/trie/domain_set_bin.go:53-115 ReadDomainSetBin *)
Definition ReadDomainSetBin (fuel : nat) : rd DomainSet :=
  rd_bind (ReadFull 1) (fun version =>
  if negb (bool_decide (version = [1])) then rd_err BinVersion else
  rd_bind (read_words fuel) (fun leaves =>
  rd_bind (read_words fuel) (fun labelBitmap =>
  rd_bind Read_i64 (fun length =>
  if length <? 1 then rd_err BinLength else
  rd_bind (make_slice 1 length) (fun _ =>
  rd_bind (ReadFull length) (fun labels => rd_ret (init_set leaves labelBitmap labels))))))).

(** A value of the map has [size] bytes in memory.
    @go component/trie/domain_map_bin.go:42-87 ReadDomainMapBin *)
Definition ReadDomainMapBin {T} (fuel : nat) (size : Z) (readValue : rd T) : rd (DomainMap T) :=
  rd_bind (ReadDomainSetBin fuel) (fun set =>
  rd_bind (ReadFull 1) (fun separator =>
  if negb (bool_decide (separator = [0])) then rd_err BinSeparator else
  rd_bind (ReadFull 1) (fun version =>
  if negb (bool_decide (version = [1])) then rd_err BinVersion else
  rd_bind Read_i64 (fun length =>
  if length <? 1 then rd_err BinLength else
  rd_bind (make_slice size length) (fun _ =>
  rd_bind (read_loop fuel readValue 0 length []) (fun values =>
  fun r => m ← map_init set values; QOk (inr (m, r)))))))).
End Read.

(** * Reading back what was written

    [codec m b x]: the reader [m] takes exactly the bytes [b] and gives [x], and on any
    shorter input says that the file ends early.  Codecs compose, so the file of a built
    map is one. *)
#[local] Open Scope string_scope.
#[local] Open Scope list_scope.
#[local] Open Scope Z_scope.

(** ** Codecs *)

Section Codec.
Context {E : Type}.

Definition ends_early (e : BinErr E) : Prop := e = BinEOF \/ e = BinUnexpectedEOF.
Record codec {A} (m : rd A) (b : list Z) (x : A) : Prop := {
  c_reads r : m (b ++ r) = QOk (inr (x, r));
  c_short b1 b2 : b = b1 ++ b2 -> b2 <> [] -> exists e, m b1 = QOk (inl e) /\ ends_early e }.

Lemma codec_ret {A} (x : A) : codec (rd_ret x) [] x.
Proof. constructor; [done|]. intros b1 b2 Hb H2. by destruct b1, b2. Qed.
Lemma codec_bind {A B} (m : rd A) (f : A -> rd B) b c x y : codec m b x -> codec (f x) c y -> codec (rd_bind m f) (b ++ c) y.
Proof.
  intros [R1 S1] [R2 S2]. constructor.
  - intros r. unfold rd_bind. rewrite <- app_assoc, R1. cbn [mbind qres_bind]. apply R2.
  - intros b1 b2 Hb H2. apply app_eq_inv in Hb as [(k & -> & ->)|(k & -> & ->)].
    + destruct (decide (k = [])) as [->|Hk].
      * unfold rd_bind. specialize (R1 []). rewrite !app_nil_r in *. rewrite R1. cbn [mbind qres_bind]. by apply (S2 [] c).
      * destruct (S1 b1 k eq_refl Hk) as (e & Em & He). exists e. unfold rd_bind. by rewrite Em.
    + destruct (S2 k b2 eq_refl H2) as (e & Em & He). exists e. unfold rd_bind. rewrite R1. by cbn [mbind qres_bind].
Qed.
Lemma codec_pass {A B} (m : rd A) (f : A -> rd B) c x y : codec m [] x -> codec (f x) c y -> codec (rd_bind m f) c y.
Proof. intros H1 H2. by apply (codec_bind m f [] c x y). Qed.
Lemma codec_bind_ret {A B} (m : rd A) (g : A -> B) b x : codec m b x -> codec (rd_bind m (fun a => rd_ret (g a))) b (g x).
Proof. intros H. rewrite <- (app_nil_r b). apply (codec_bind _ _ _ _ x); [done|apply codec_ret]. Qed.
Lemma codec_full n b : 0 < n -> zlen b = n -> codec (ReadFull (E := E) n) b b.
Proof.
  intros H0 Hn. unfold zlen in *. constructor.
  - intros r. unfold ReadFull, ztake, zdrop, zlen. rewrite length_app. destruct (Z.leb_spec n (Z.of_nat (length b + length r))); [|lia].
    replace (Z.to_nat n) with (length b) by lia. by rewrite take_app_length, drop_app_length.
  - intros b1 b2 -> H2. unfold ReadFull, zlen. rewrite length_app in Hn. assert (length b2 <> 0)%nat by (by destruct b2).
    destruct (Z.leb_spec n (Z.of_nat (length b1))); [lia|]. destruct b1; eexists; (split; [done|]); [by left|by right].
Qed.
Lemma codec_make maxAlloc size length : size * length <= maxAlloc -> codec (make_slice (E := E) maxAlloc size length) [] tt.
Proof.
  intros Hm. constructor; [|intros b1 b2 Hb H2; by destruct b1, b2]. intros r. unfold make_slice. destruct (Z.ltb_spec maxAlloc (size * length)); [lia|done].
Qed.

(** ** Numbers *)

Lemma length_be64 v : zlen (be64 v) = 8.
Proof. done. Qed.
Lemma of_be64 v : 0 <= v < 2 ^ 64 -> of_be (be64 v) = v.
Proof.
  intros Hv. unfold of_be, be64. cbn [map fold_left].
  assert (Hb : forall i, 0 <= i -> Z.land (Z.shiftr v (8 * i)) 255 = (v / 2 ^ (8 * i)) mod 256).
  { intros i Hi. rewrite Z.shiftr_div_pow2 by lia. change 255 with (Z.ones 8). rewrite Z.land_ones by lia. done. }
  rewrite !Hb by lia. assert (Hd : forall i j, 0 <= i -> j = i + 1 -> v / 2 ^ (8 * i) = 256 * (v / 2 ^ (8 * j)) + (v / 2 ^ (8 * i)) mod 256).
  { intros i j Hi ->. replace (8 * (i + 1)) with (8 * i + 8) by lia. rewrite Z.pow_add_r, <- Z.div_div by lia. change (2 ^ 8) with 256. apply Z.div_mod. lia. }
  assert (H7 : v / 2 ^ (8 * 8) = 0) by (apply Z.div_small; done).
  pose proof (Hd 0 1 ltac:(lia) ltac:(lia)) as E0. pose proof (Hd 1 2 ltac:(lia) ltac:(lia)) as E1. pose proof (Hd 2 3 ltac:(lia) ltac:(lia)) as E2. pose proof (Hd 3 4 ltac:(lia) ltac:(lia)) as E3.
  pose proof (Hd 4 5 ltac:(lia) ltac:(lia)) as E4. pose proof (Hd 5 6 ltac:(lia) ltac:(lia)) as E5. pose proof (Hd 6 7 ltac:(lia) ltac:(lia)) as E6. pose proof (Hd 7 8 ltac:(lia) ltac:(lia)) as E7.
  change (2 ^ (8 * 0)) with 1 in *. rewrite Z.div_1_r in *. clear Hb Hd. lia.
Qed.
Lemma codec_u64 v : 0 <= v < 2 ^ 64 -> codec Read_u64 (be64 v) v.
Proof.
  intros Hv. rewrite <- (of_be64 v Hv) at 2. apply codec_bind_ret. by apply codec_full.
Qed.
Lemma codec_i64 v : 0 <= v < 2 ^ 63 -> codec Read_i64 (be64 v) v.
Proof.
  intros Hv. rewrite <- (app_nil_r (be64 v)). apply (codec_bind _ _ _ _ (be64 v)); [by apply codec_full|]. rewrite of_be64 by lia.
  replace (i64 v) with v; [apply codec_ret|]. symmetry. unfold i64, sgn. rewrite Z.mod_small by lia. destruct (Z.ltb_spec v (2 ^ (64 - 1))); lia.
Qed.

(** ** Arrays *)

Lemma codec_loop {A} (get : rd A) (enc : A -> list Z) l : (forall x, x ∈ l -> codec get (enc x) x) -> forall fuel i acc, (length l <= fuel)%nat ->
  codec (read_loop fuel get i (i + zlen l) acc) (concat (map enc l)) (acc ++ l).
Proof.
  intros Hget. induction l as [|x l IH]; intros fuel i acc Hf; cbn [map concat].
  - rewrite app_nil_r. change (zlen (@nil A)) with 0. replace (read_loop fuel get i (i + 0) acc) with (rd_ret (E := E) acc); [apply codec_ret|].
    destruct fuel; cbn; by rewrite (proj2 (Z.ltb_ge _ _)) by lia.
  - destruct fuel as [|fuel]; [cbn in Hf; lia|]. cbn [read_loop]. unfold zlen. cbn [length]. rewrite (proj2 (Z.ltb_lt _ _)) by lia.
    apply (codec_bind _ _ _ _ x); [apply Hget; left|]. replace (i + Z.of_nat (S (length l))) with (i + 1 + zlen l) by (unfold zlen; lia).
    replace (acc ++ x :: l) with ((acc ++ [x]) ++ l) by (by rewrite <- app_assoc). apply IH; [intros y Hy; apply Hget; by right|cbn in Hf; lia].
Qed.
Definition words (l : list Z) : list Z := be64 (zlen l) ++ concat (map be64 l).
Lemma codec_words maxAlloc fuel l : l <> [] -> Forall (fun w => 0 <= w < 2 ^ 64) l -> zlen l < 2 ^ 31 -> 8 * zlen l <= maxAlloc -> (length l <= fuel)%nat ->
  codec (read_words maxAlloc fuel) (words l) l.
Proof.
  intros Hne Hl Hs Hm Hf. assert (0 < zlen l) by (unfold zlen; destruct l; [done|cbn; lia]). unfold words.
  apply (codec_bind _ _ _ _ (zlen l)); [apply codec_i64; lia|]. rewrite (proj2 (Z.ltb_ge _ _)) by lia.
  apply (codec_pass _ _ _ tt); [by apply codec_make|]. change (zlen l) with (0 + zlen l). change l with ([] ++ l) at 3.
  apply codec_loop; [|done]. intros x Hx. apply codec_u64. rewrite Forall_forall in Hl. by apply Hl.
Qed.

(** ** Files *)

Context {BM : Bitmap}.

(** The arrays of a set that a file can hold. *)
Record filed (ss : DomainSet) : Prop := {
  f_init : ss = init_set (leaves ss) (labelBitmap ss) (labels ss);
  f_leaves : leaves ss <> [] /\ Forall (fun w => 0 <= w < 2 ^ 64) (leaves ss) /\ zlen (leaves ss) < 2 ^ 28;
  f_bitmap : labelBitmap ss <> [] /\ Forall (fun w => 0 <= w < 2 ^ 64) (labelBitmap ss) /\ zlen (labelBitmap ss) < 2 ^ 28;
  f_labels : labels ss <> [] /\ zlen (labels ss) < 2 ^ 31 }.

Definition set_bytes (ss : DomainSet) : list Z :=
  [1] ++ words (leaves ss) ++ words (labelBitmap ss) ++ be64 (zlen (labels ss)) ++ labels ss.
Lemma codec_set maxAlloc fuel ss : filed ss -> 2 ^ 31 <= maxAlloc -> (length (leaves ss) <= fuel)%nat -> (length (labelBitmap ss) <= fuel)%nat ->
  codec (ReadDomainSetBin maxAlloc fuel) (set_bytes ss) ss.
Proof.
  intros [H0 (H1 & H2 & H3) (H4 & H5 & H6) (H7 & H8)] Hm Hf1 Hf2. unfold set_bytes, ReadDomainSetBin.
  apply (codec_bind _ _ _ _ [1]); [by apply codec_full|]. rewrite bool_decide_eq_true_2 by done. cbn [negb].
  apply (codec_bind _ _ _ _ (leaves ss)); [apply codec_words; try done; lia|].
  apply (codec_bind _ _ _ _ (labelBitmap ss)); [apply codec_words; try done; lia|].
  assert (0 < zlen (labels ss)) by (unfold zlen; destruct (labels ss); [done|cbn; lia]).
  apply (codec_bind _ _ _ _ (zlen (labels ss))); [apply codec_i64; lia|]. rewrite (proj2 (Z.ltb_ge _ _)) by lia.
  apply (codec_pass _ _ _ tt); [apply codec_make; lia|]. 
  refine (eq_rect_r (codec _ _) _ H0). apply (codec_bind_ret (ReadFull (zlen (labels ss))) (init_set (leaves ss) (labelBitmap ss))). by apply codec_full.
Qed.
Definition map_bytes {T} (enc : T -> list Z) (ss : DomainSet) (values : list T) : list Z :=
  set_bytes ss ++ [0] ++ [1] ++ be64 (zlen values) ++ concat (map enc values).
Lemma codec_map {T} maxAlloc fuel size (readValue : rd T) enc ss deltas values : filed ss -> initSelectDeltas ss = QOk deltas ->
  values <> [] -> zlen values < 2 ^ 31 -> 2 ^ 31 <= maxAlloc -> size * zlen values <= maxAlloc -> (forall v, codec readValue (enc v) v) ->
  (length (leaves ss) <= fuel)%nat -> (length (labelBitmap ss) <= fuel)%nat -> (length values <= fuel)%nat ->
  codec (ReadDomainMapBin maxAlloc fuel size readValue) (map_bytes enc ss values) (mkMap (mkIndex (Some ss) deltas) (IndexRank64 (leaves ss)) values).
Proof.
  intros Hss Hd Hv0 Hv1 Hm Hm2 Henc Hf1 Hf2 Hf3. unfold map_bytes, ReadDomainMapBin. assert (0 < zlen values) by (unfold zlen; destruct values; [done|cbn; lia]).
  apply (codec_bind _ _ _ _ ss); [by apply codec_set|].
  apply (codec_bind _ _ _ _ [0]); [by apply codec_full|]. rewrite bool_decide_eq_true_2 by done. cbn [negb].
  apply (codec_bind _ _ _ _ [1]); [by apply codec_full|]. rewrite bool_decide_eq_true_2 by done. cbn [negb].
  apply (codec_bind _ _ _ _ (zlen values)); [apply codec_i64; lia|]. rewrite (proj2 (Z.ltb_ge _ _)) by lia.
  apply (codec_pass _ _ _ tt); [by apply codec_make|]. 
  rewrite <- (app_nil_r (concat _)). apply (codec_bind _ _ _ _ values); [change (zlen values) with (0 + zlen values); by apply (codec_loop readValue enc values)|].
  constructor; [|intros b1 b2 Hb H2; by destruct b1, b2]. intros r. unfold map_init. by rewrite Hd.
Qed.
End Codec.

(** ** What is written *)

Section Write.
Context {E : Type}.

(** A writer that takes everything. *)
Definition append (p w : list Z) : (E + unit) * list Z := (inr tt, w ++ p).
Definition emits (m : wr (W := list Z) (E := E)) (b : list Z) : Prop := forall w, m w = (inr tt, w ++ b).

Lemma emits_write p : emits (Write append p) p.
Proof. done. Qed.
Lemma emits_seq m n b c : emits m b -> emits n c -> emits (wr_seq m n) (b ++ c).
Proof. intros Hm Hn w. unfold wr_seq. rewrite Hm, Hn. by rewrite app_assoc. Qed.
Lemma emits_list {A} (f : A -> wr) (enc : A -> list Z) l : (forall x, emits (f x) (enc x)) -> emits (wr_list f l) (concat (map enc l)).
Proof.
  intros Hf. induction l as [|x l IH]; [intros w; cbn; by rewrite app_nil_r|]. cbn [map concat]. by apply (emits_seq (f x)).
Qed.
Lemma emits_set ss : emits (set_WriteBin append ss) (set_bytes ss).
Proof.
  unfold set_bytes, words, set_WriteBin. rewrite <- !app_assoc. repeat (apply emits_seq; [first [apply emits_write|apply emits_list; intros; apply emits_write]|]). apply emits_write.
Qed.
Lemma map_written {T} (writeValue : T -> wr) enc ss deltas lr values : values <> [] -> (forall v, emits (writeValue v) (enc v)) ->
  map_WriteBin append writeValue (Some (mkMap (mkIndex (Some ss) deltas) lr values)) [] = QOk (inr tt, map_bytes enc ss values).
Proof.
  intros Hv Hw. unfold map_WriteBin, map_IsEmpty. cbn [dm_values]. destruct values as [|v vs] eqn:Ev; [done|]. rewrite <- Ev.
  cbn [deref mbind qres_bind dm_index idx_set dm_values mret qres_ret]. f_equal.
  match goal with |- ?m [] = _ => enough (Hm : emits m (map_bytes enc ss values)) by apply (Hm []) end. unfold map_bytes.
  apply (emits_seq _ _ _ _ (emits_set ss)). repeat (apply emits_seq; [apply emits_write|]). by apply emits_list.
Qed.
End Write.

(** ** Built sets can be filed *)

Definition u64_words (l : list Z) : Prop := Forall (fun w => 0 <= w < 2 ^ 64) l.
Lemma lor_u64 a b : 0 <= a < 2 ^ 64 -> 0 <= b < 2 ^ 64 -> 0 <= Z.lor a b < 2 ^ 64.
Proof.
  intros Ha Hb. split; [apply Z.lor_nonneg; lia|]. destruct (Z.eq_dec (Z.lor a b) 0) as [->|Hne]; [lia|].
  assert (0 <= Z.lor a b) by (apply Z.lor_nonneg; lia). apply Z.log2_lt_pow2; [lia|]. rewrite Z.log2_lor by lia.
  assert (Hl : forall x, 0 <= x < 2 ^ 64 -> Z.log2 x < 64).
  { intros x Hx. destruct (Z.eq_dec x 0) as [->|]; [done|]. apply Z.log2_lt_pow2; lia. }
  pose proof (Hl a Ha). pose proof (Hl b Hb). lia.
Qed.
Lemma setBit_words bm i v : u64_words bm -> u64_words (setBit bm i v).
Proof.
  intros Hbm. unfold setBit. apply Forall_alter; [apply Forall_app; split; [done|]; apply Forall_replicate; lia|].
  intros x _ Hx. apply lor_u64; [done|]. unfold u64. apply Z.mod_pos_bound. lia.
Qed.

Section Words.
Context {BM : Bitmap}.
Definition bits_words (st : builder) : Prop := u64_words (b_leaves st) /\ u64_words (b_bitmap st).

Lemma children_words fuel keys col : forall j e st st', children_loop fuel keys col j e st = QOk st' -> bits_words st -> bits_words st'.
Proof.
  induction fuel as [|fuel IH]; intros j e st st' H Hw; cbn [children_loop] in H; destruct (j <? e)%nat; try done; try (by injection H as <-).
  destruct (run_end _ _ _ _ _) as [j'| |]; cbn [mbind qres_bind] in H; try done. destruct (key_byte _ _ _) as [c| |]; cbn [mbind qres_bind] in H; try done.
  apply IH in H; [done|]. destruct Hw. split; [done|]. by apply setBit_words.
Qed.
Lemma node_words_ok keys col elt st st' : build_node keys col elt st = QOk st' -> bits_words st -> bits_words st'.
Proof.
  unfold build_node. destruct (index keys elt.1) as [first| |]; cbn [mbind qres_bind]; try done. intros H Hw.
  destruct (col =? length first)%nat; (destruct (children_loop _ _ _ _ _ _) as [st2| |] eqn:Ec; cbn in H; try done; injection H as <-; apply children_words in Ec;
    [destruct Ec; split; [done|]; by apply setBit_words|]); [|done]. destruct Hw. split; [by apply setBit_words|done].
Qed.
Lemma level_words keys col : forall queue st st', build_level keys col queue st = QOk st' -> bits_words st -> bits_words st'.
Proof.
  induction queue as [|elt queue IH]; intros st st' H Hw; cbn [build_level] in H; [by injection H as <-|].
  destruct (build_node keys col elt st) as [st1| |] eqn:En; cbn [mbind qres_bind] in H; try done. eapply IH; [exact H|]. by eapply node_words_ok.
Qed.
Lemma levels_words keys : forall fuel col queue st st', build_levels fuel keys col queue st = QOk st' -> bits_words st -> bits_words st'.
Proof.
  induction fuel as [|fuel IH]; intros col queue st st' H Hw; cbn [build_levels] in H; destruct queue as [|elt queue]; try done; try (by injection H as <-).
  destruct (build_level keys col (elt :: queue) st) as [st1| |] eqn:En; cbn [mbind qres_bind] in H; try done. eapply IH; [exact H|].
  apply level_words in En; [|done]. done.
Qed.
Lemma init_set_fields a b c : leaves (init_set a b c) = a /\ labelBitmap (init_set a b c) = b /\ labels (init_set a b c) = c.
Proof. unfold init_set. by destruct (IndexSelect32R64 b). Qed.
Lemma built_words ks ss ts : buildDomainSet ks = QOk (Some ss, ts) ->
  ss = init_set (leaves ss) (labelBitmap ss) (labels ss) /\ u64_words (leaves ss) /\ u64_words (labelBitmap ss).
Proof.
  unfold buildDomainSet. destruct ks as [|k ks]; [done|]. destruct (build_levels _ _ _ _ _) as [st| |] eqn:E; cbn [mbind qres_bind mret qres_ret]; [|done..].
  intros [= <- _]. apply levels_words in E as [E1 E2]; [|by split; constructor].
  destruct (init_set_fields (b_leaves st) (b_bitmap st) (b_labels st)) as (-> & -> & ->). done.
Qed.

Lemma built_filed ks ss ts : buildDomainSet ks = QOk (Some ss, ts) -> (exists k, k ∈ ks /\ k <> []) ->
  Z.of_nat (64 * length (labelBitmap ss)) < 2 ^ 31 -> Z.of_nat (64 * length (leaves ss)) < 2 ^ 31 ->
  filed ss /\ exists P, louds ([], trie_keys ks) P /\ stores ss P /\ (length P <= 64 * length (leaves ss))%nat.
Proof.
  intros Hb (k & Hk & Hk0) H1 H2. destruct (built_words _ _ _ Hb) as (E & W1 & W2). assert (Hne : ks <> []) by (by intros ->; apply elem_of_nil in Hk).
  destruct (buildDomainSet_stores ks Hne) as (ss' & P & E' & HL & HS). rewrite Hb in E'. injection E' as <- _.
  assert (HP : (length P <> 0)%nat) by (rewrite (louds_eq _ _ HL); cbn; lia). pose proof (s_leafroom _ _ HS) as R1. pose proof (s_room _ _ HS) as R2.
  rewrite (length_unaries ss H1) in R2. pose proof (length_labs P) as Hlabs. pose proof (f_equal length (s_labels _ _ HS)) as Hlab.
  unfold node in *. split; [|by exists P]. constructor; [done|..]; unfold zlen.
  - split_and!; [intros E0; rewrite E0 in R1; cbn [length] in R1; lia|done|lia].
  - split_and!; [intros E0; rewrite E0 in R2; cbn [length] in R2; lia|done|lia].
  - split; [|lia]. intros E0. rewrite (louds_eq _ _ HL) in Hlab. rewrite E0 in Hlab. cbn [map concat length] in Hlab. rewrite length_app in Hlab.
    assert (Hg : length (labs ([], trie_keys ks)) = 0%nat) by lia. apply length_zero_iff_nil in Hg. unfold labs in Hg. apply map_eq_nil in Hg. cbn [snd] in Hg.
    pose proof (node_words ([], trie_keys ks) (trie_keys_sorted ks)) as Hw. cbn [snd] in Hw. rewrite Hg in Hw. cbn [map concat] in Hw. rewrite app_nil_r in Hw.
    assert (Hin : k ∈ trie_keys ks) by by apply elem_trie_keys. rewrite Hw in Hin. destruct (leafb _); [apply list_elem_of_singleton in Hin|apply elem_of_nil in Hin]; done.
Qed.
End Words.

(** ** The round trip *)

Section RoundTrip.
Context {BM : Bitmap} {BL : BitmapLaws BM} {T E : Type}.

Lemma key_of_nonempty p : stored_ok p -> key_of p <> [].
Proof.
  intros [[_ _ H3 _ _ _ H7] _] E0. rewrite key_of_Join in E0 by done. apply app_eq_nil in E0 as [E0 _]. apply rb_nil in E0. by rewrite E0 in H7.
Qed.

(** C33: files of domain maps.  What [WriteBin] writes for a map that was built, its set
    and values, [ReadDomainMapBin] reads back as the same map, indexes included, and
    leaves what follows in the stream unread; a file that ends before its last byte is
    refused with an end-of-file error, and never taken for a smaller map.  The values'
    own reader and writer agree, and arrays of the map's size can be allocated. *)
Theorem DomainMap_bin (l : list (string * T)) zero m maxAlloc size (readValue : rd (E := E) T) (writeValue : T -> wr) enc :
  Forall (fun x => plain x.1) l -> int32_map l -> mapb_Build zero (Some (map_collect l)) = QOk (Some m, Some (mkMapBuilder [] ∅)) ->
  0 <= size -> 2 ^ 31 <= maxAlloc -> size * 2 ^ 31 <= maxAlloc ->
  (forall v, codec readValue (enc v) v) -> (forall v, emits (E := E) (writeValue v) (enc v)) ->
  exists out, map_WriteBin append writeValue (Some m) [] = QOk (inr tt, out) /\
    exists n, forall fuel, (n <= fuel)%nat ->
      (forall rest, ReadDomainMapBin maxAlloc fuel size readValue (out ++ rest) = QOk (inr (m, rest))) /\
      (forall b1 b2, out = b1 ++ b2 -> b2 <> [] ->
         exists e, ReadDomainMapBin maxAlloc fuel size readValue b1 = QOk (inl e) /\ ends_early e).
Proof.
  intros Hl Hfit Hm Hs0 Hs1 Hs2 Henc Hwr. destruct (decide (bm_set (map_collect l) = [])) as [E0|Hne].
  { cbn [mapb_Build] in Hm. by rewrite E0 in Hm. }
  destruct (Build_map l zero Hne Hfit) as (ss & P & deltas & ts & Eb & HL & HS & Hd & H1 & H2 & E1). cbv zeta in E1. rewrite E1 in Hm. injection Hm as <-.
  set (vs := map _ (map fst (filter _ P))).
  assert (Hk : exists k, k ∈ bm_set (map_collect l) /\ k <> []).
  { destruct (bm_set (map_collect l)) as [|k ks] eqn:Ek; [done|]. exists k. split; [left|].
    destruct (h_keys _ _ (map_collect_holds l Hl) k) as (p & Hp & _ & ->); [rewrite Ek; left|by apply key_of_nonempty]. }
  destruct (built_filed _ _ _ Eb Hk H1 H2) as (Hf & _).
  assert (Hvs : vs <> []) by (subst vs; pose proof (louds_leaves _ _ HL); by destruct (filter _ P)).
  assert (Hlen : zlen vs < 2 ^ 31).
  { subst vs. unfold zlen. rewrite !length_map. pose proof (length_filter (fun n : node => leafb n = true) P) as Hle. pose proof (s_leafroom _ _ HS). unfold node in *. lia. }
  exists (map_bytes enc ss vs). split; [by apply map_written|].
  exists (length (leaves ss) + length (labelBitmap ss) + length vs)%nat. intros fuel Hfuel.
  destruct (codec_map maxAlloc fuel size readValue enc ss deltas vs Hf Hd Hvs Hlen Hs1) as [R S]; [nia|done|lia..|]. split; [exact R|exact S].
Qed.
End RoundTrip.

Definition bool_bytes (b : bool) : list Z := [if b then 1 else 0].
Definition read_bool : rd (E := unit) bool := rd_bind (ReadFull 1) (fun b => rd_ret (bool_decide (b = [1]))).
Lemma codec_bool v : codec read_bool (bool_bytes v) v.
Proof.
  assert (E : v = bool_decide (bool_bytes v = [1])) by by destruct v. rewrite E at 2. apply (codec_bind_ret (ReadFull 1) (fun b => bool_decide (b = [1]))). by apply codec_full.
Qed.

Definition demo_bools : list (string * bool) := [("+.Example.com", true); ("*.b.org", false); ("www.b.org", true)].
Lemma DomainMap_bin_witness :
  Forall (fun x => plain x.1) demo_bools /\ int32_map (BM := counting) demo_bools /\
  exists m out, mapb_Build (BM := counting) false (Some (map_collect demo_bools)) = QOk (Some m, Some (mkMapBuilder [] ∅)) /\
    map_WriteBin (E := unit) append (fun v => Write append (bool_bytes v)) (Some m) [] = QOk (inr tt, out) /\
    exists n, forall fuel, (n <= fuel)%nat -> ReadDomainMapBin (BM := counting) (2 ^ 48) fuel 1 read_bool (out ++ [7]) = QOk (inr (m, [7])).
Proof.
  assert (Hl : Forall (fun x => plain x.1) demo_bools) by (repeat constructor; reflexivity). split; [exact Hl|].
  assert (Hs : int32_map (BM := counting) demo_bools).
  { assert (Ev : match buildDomainSet (BM := counting) (bm_set (map_collect demo_bools)) with
      QOk (Some s, _) => Nat.leb (length (labelBitmap s)) 10 && Nat.leb (length (leaves s)) 10 | _ => false end = true) by (vm_compute; reflexivity).
    unfold int32_map. destruct (buildDomainSet _) as [[[s|] ts]| |]; try discriminate Ev. apply andb_true_iff in Ev as [E1%Nat.leb_le E2%Nat.leb_le]. lia. }
  split; [exact Hs|].
  assert (Eb : exists m, mapb_Build (BM := counting) false (Some (map_collect demo_bools)) = QOk (Some m, Some (mkMapBuilder [] ∅)))
    by (vm_compute; eexists; reflexivity).
  destruct Eb as [m Eb].
  destruct (@DomainMap_bin counting counting_laws bool unit demo_bools false m (2 ^ 48) 1 read_bool (fun v => Write append (bool_bytes v)) bool_bytes
    Hl Hs Eb ltac:(lia) ltac:(lia) ltac:(lia) codec_bool (fun v => emits_write (bool_bytes v))) as (out & Hw & n & Hr).
  exists m, out. split; [exact Eb|]. split; [exact Hw|]. exists n. intros fuel Hf. apply (Hr fuel Hf).
Defined.

(** The lengths of a file are believed: one that is not small makes [make] panic. *)
Example long_length_panics : ReadDomainSetBin (BM := counting) (E := unit) (2 ^ 48) 10 ([1] ++ be64 (2 ^ 46)) = QPanic.
Proof. vm_compute. reflexivity. Qed.
(** The labels are not compared with the bitmap: a file with more labels than nodes is
    read as a set, and the indexes of a map over it panic. *)
Example loose_labels :
  let file := [1] ++ words [1] ++ words [1] ++ be64 40 ++ repeat 97 40 in
  match ReadDomainSetBin (BM := counting) (E := unit) (2 ^ 48) 10 file with QOk (inr (ss, [])) => initSelectDeltas (BM := counting) ss | _ => QHang end = QPanic.
Proof. vm_compute. reflexivity. Qed.
