(* ===== verification/RuleFile.v ===== *)
(** * Rule providers and their files ([rules/provider], [component/cidr])

    The three strategies of a rule provider, reading a rule file as text, YAML or MRS,
    and [ConvertToMrs].  The address sets of package [netipx], [yaml.Unmarshal] and the
    zstd coding are arguments.  Log lines are left out; counts are [int]. *)
From S2P Require Import Prelude Names GoText Netip Metadata Rules RuleParse DomainTrie ZList DomainSet DomainMap DomainBin.
#[local] Open Scope string_scope.
#[local] Open Scope list_scope.
#[local] Open Scope Z_scope.

(** Package go4.org/netipx: a range is its two ends, and a set of addresses a list of
    ranges. *)
Definition IPRange : Type := Addr * Addr.
Class Netipx := {
  RangeOfPrefix : Prefix -> option IPRange;
  Merged : list IPRange -> option (list IPRange);
  IPSet_Contains : list IPRange -> Addr -> bool;
  Range_Prefixes : IPRange -> list Prefix }.
(** Package github.com/klauspost/compress/zstd: what a stream decodes to, [None] when
    there is no reader; a stream that breaks is one that ends. *)
Class Zstd := { zstd_decode : list Z -> option (list Z); zstd_encode : list Z -> list Z }.

(** ** Address sets *)

Section Cidr.
Context {NX : Netipx}.

(** @go component/cidr/ipcidr_set.go:11-14 IpCidrSet *)
Definition IpCidrSet : Type := list IPRange.
(** @go component/cidr/ipcidr_set.go:28-35 IpCidrSet.AddIpCidr *)
Definition AddIpCidr (p : Prefix) (set : IpCidrSet) : option IpCidrSet := (fun r => set ++ [r]) <$> RangeOfPrefix p.
(** @go component/cidr/ipcidr_set.go:20-26 IpCidrSet.AddIpCidrForString *)
Definition AddIpCidrForString (s : string) (set : IpCidrSet) : option IpCidrSet := p ← ParsePrefix s; AddIpCidr p set.
(** The zone of an address is not kept in [Addr].
    @go component/cidr/ipcidr_set.go:45-47 IpCidrSet.IsContain *)
Definition IsContain (set : IpCidrSet) (ip : Addr) : bool := IPSet_Contains set ip.
(** @go component/cidr/ipcidr_set.go:37-43 IpCidrSet.IsContainForString *)
Definition IsContainForString (set : IpCidrSet) (s : string) : bool := match ParseAddr s with Some ip => IsContain set ip | None => false end.
(** @go component/cidr/ipcidr_set.go:68-70 IpCidrSet.IsEmpty *)
Definition cidr_IsEmpty (set : option IpCidrSet) : bool := match set with None | Some [] => true | _ => false end.
(** @go component/cidr/ipcidr_set.go:50-55 IpCidrSet.MatchIp *)
Definition MatchIp (set : option IpCidrSet) (ip : Addr) : bool :=
  if cidr_IsEmpty set then false else match set with Some set => IsContain set ip | None => false end.
(** A set that cannot be merged stays as it is.
    @go component/cidr/ipcidr_set.go:57-66 IpCidrSet.Merge *)
Definition cidr_Merge (set : IpCidrSet) : IpCidrSet := default set (Merged set).
(** @go component/cidr/ipcidr_set.go:72-80 IpCidrSet.Foreach *)
Definition cidr_prefixes (set : IpCidrSet) : list Prefix := concat (map Range_Prefixes set).

(** [As16]: the sixteen bytes, an IPv4 address mapped into IPv6. *)
Definition As16 (a : Addr) : list Z := be_put 16 (if addr_Is4 a then 65535 * 2 ^ 32 + a_val a else a_val a).
Definition AddrFrom16 (b : list Z) : Addr := mkAddr 128 (be_get b).

(** @go component/cidr/ipcidr_set_bin.go:12-36 IpCidrSet.WriteBin *)
Definition cidr_WriteBin {W E} (write : list Z -> W -> (E + unit) * W) (set : IpCidrSet) : wr (W := W) (E := E) :=
  wr_seq (Write write [1]) (wr_seq (Write write (be64 (zlen set)))
    (wr_list (fun r => wr_seq (Write write (As16 r.1)) (Write write (As16 r.2))) set)).
(** @go component/cidr/ipcidr_set_bin.go:59-72 ReadIpCidrSet *)
Definition read_range {E} : rd (E := E) IPRange :=
  rd_bind (ReadFull 16) (fun a => rd_bind (ReadFull 16) (fun b => rd_ret (addr_Unmap (AddrFrom16 a), addr_Unmap (AddrFrom16 b)))).
(** A range takes 64 bytes of memory.
    @go component/cidr/ipcidr_set_bin.go:38-77 ReadIpCidrSet *)
Definition ReadIpCidrSet {E} (maxAlloc : Z) (fuel : nat) : rd (E := E) IpCidrSet :=
  rd_bind (ReadFull 1) (fun version =>
  if negb (bool_decide (version = [1])) then rd_err BinVersion else
  rd_bind Read_i64 (fun length =>
  if length <? 1 then rd_err BinLength else
  rd_bind (make_slice maxAlloc 64 length) (fun _ => read_loop fuel read_range 0 length []))).
End Cidr.

(** ** Strategies *)

(** @go constant/provider/interface.go:106-106 RuleBehavior *)
Inductive RuleBehavior := BhDomain | BhIPCIDR | BhClassical.
(** @go constant/provider/interface.go:121-132 RuleBehavior.Byte *)
Definition behavior_Byte (b : RuleBehavior) : Z := match b with BhDomain => 0 | BhIPCIDR => 1 | BhClassical => 2 end.
(** @go constant/provider/interface.go:134-146 ParseBehavior *)
Definition ParseBehavior (s : string) : option RuleBehavior :=
  if String.eqb s "domain" then Some BhDomain else if String.eqb s "ipcidr" then Some BhIPCIDR
  else if String.eqb s "classical" then Some BhClassical else None.
(** @go constant/provider/interface.go:154-154 RuleFormat *)
Inductive RuleFormat := YamlRule | TextRule | MrsRule.
(** @go constant/provider/interface.go:169-181 ParseRuleFormat *)
Definition ParseRuleFormat (s : string) : option RuleFormat :=
  if String.eqb s "" || String.eqb s "yaml" then Some YamlRule else if String.eqb s "text" then Some TextRule
  else if String.eqb s "mrs" then Some MrsRule else None.

Section Strategies.
Context {BM : Bitmap} {NX : Netipx} {ZS : Zstd}.
(** [None] is a [nil] function for parsing rules, as [ConvertToMrs] passes it. *)
Variable parse : option ParseEnv.

(** @go rules/provider/domain_strategy.go:16-20 domainStrategy *)
Record domain_strategy := mkDomainStrategy { dom_count : Z; dom_builder : DomainSetBuilder; dom_set : option DomainSet }.
(** @go rules/provider/ipcidr_strategy.go:16-20 ipcidrStrategy *)
Record cidr_strategy := mkCidrStrategy { cidr_count : Z; cidr_set : option IpCidrSet }.
Inductive ruleStrategy := StDomain (d : domain_strategy) | StIPCIDR (c : cidr_strategy) | StClassical (rules : list Rule) (count : Z).

(** @go rules/provider/domain_strategy.go:26-28 domainStrategy.Match *)
Definition dom_Match (fuel : nat) (d : domain_strategy) (m : Metadata) : qres bool :=
  match dom_set d with None => mret false | Some ss => Has fuel (Some ss) (RuleHost m) end.
(** [helper.ResolveIP] was called before.
    @go rules/provider/ipcidr_strategy.go:26-32 ipcidrStrategy.Match *)
Definition cidr_Match (c : cidr_strategy) (m : Metadata) : bool :=
  match cidr_set c with None => false | Some set => IsContain set (md_DstIP m) end.
(** @go rules/provider/provider.go:154-168 newStrategy *)
Definition newStrategy (b : RuleBehavior) : ruleStrategy :=
  match b with
  | BhDomain => StDomain (mkDomainStrategy 0 [] None)
  | BhIPCIDR => StIPCIDR (mkCidrStrategy 0 None)
  | BhClassical => StClassical [] 0
  end.
Definition st_Behavior (s : ruleStrategy) : RuleBehavior :=
  match s with StDomain _ => BhDomain | StIPCIDR _ => BhIPCIDR | StClassical _ _ => BhClassical end.
(** @go rules/provider/domain_strategy.go:30-32 domainStrategy.Count *)
Definition st_Count (s : ruleStrategy) : Z :=
  match s with StDomain d => dom_count d | StIPCIDR c => cidr_count c | StClassical _ n => n end.
(** @go rules/provider/domain_strategy.go:34-38 domainStrategy.Reset *)
Definition dom_Reset (d : domain_strategy) : domain_strategy := mkDomainStrategy 0 (bld_Reset (dom_builder d)) None.
(** @go rules/provider/ipcidr_strategy.go:38-42 ipcidrStrategy.Reset *)
Definition st_Reset (s : ruleStrategy) : ruleStrategy :=
  match s with
  | StDomain d => StDomain (dom_Reset d)
  | StIPCIDR c => StIPCIDR (mkCidrStrategy 0 (Some []))
  | StClassical _ _ => let '(rules, count) := classical_Reset in StClassical rules count
  end.
(** @go rules/provider/domain_strategy.go:40-51 domainStrategy.Insert *)
Definition dom_Insert (rule : string) (d : domain_strategy) : domain_strategy :=
  if Contains "/" rule then d
  else match bld_Insert rule (dom_builder d) with
       | inl _ => d
       | inr b => mkDomainStrategy (dom_count d + 1) b (dom_set d)
       end.
(** @go rules/provider/ipcidr_strategy.go:44-52 ipcidrStrategy.Insert *)
Definition cidr_Insert (rule : string) (c : cidr_strategy) : qres cidr_strategy :=
  set ← deref (cidr_set c);
  mret (match AddIpCidrForString rule set with
        | None => c
        | Some set => mkCidrStrategy (cidr_count c + 1) (Some set)
        end).
(** A [nil] function is called once the type of the rule is one that is allowed.
    @go rules/provider/classical_strategy.go:41-58 classicalStrategy.Insert *)
Definition st_Insert (rule : string) (s : ruleStrategy) : qres ruleStrategy :=
  match s with
  | StDomain d => mret (StDomain (dom_Insert rule d))
  | StIPCIDR c => c ← cidr_Insert rule c; mret (StIPCIDR c)
  | StClassical rules count =>
      match parse with
      | Some pe => let '(rules, count) := classical_Insert pe (rules, count) rule in mret (StClassical rules count)
      | None => if contains_str ["MATCH"; "RULE-SET"; "SUB-RULE"] (raw_tp (ParseRulePayload rule false)) then mret s else QPanic
      end
  end.
(** @go rules/provider/domain_strategy.go:53-55 domainStrategy.FinishInsert *)
Definition dom_FinishInsert (d : domain_strategy) : qres domain_strategy :=
  '(set, b) ← bld_Build (Some (dom_builder d)); mret (mkDomainStrategy (dom_count d) (default [] b) set).
(** @go rules/provider/ipcidr_strategy.go:54-56 ipcidrStrategy.FinishInsert *)
Definition st_FinishInsert (s : ruleStrategy) : qres ruleStrategy :=
  match s with
  | StDomain d => d ← dom_FinishInsert d; mret (StDomain d)
  | StIPCIDR c => set ← deref (cidr_set c); mret (StIPCIDR (mkCidrStrategy (cidr_count c) (Some (cidr_Merge set))))
  | StClassical _ _ => mret s
  end.

(** ** Reading a file *)

Inductive RuleFileErr := ErrNoPayload | ErrInvalidFormat | ErrZstd | ErrMagic | ErrBehavior | ErrEmptyRule | ErrNilSet | ErrBin (e : BinErr RuleFileErr).

(** @go rules/provider/provider.go:26-33 RulePayload *)
Record RulePayload := mkPayload { rp_payload : list string; rp_rules : list string }.
(** [yaml.Unmarshal] into a payload that may hold something: whether there was no error,
    and the payload then. *)
Variable unmarshal : string -> RulePayload -> bool * RulePayload.

(** The first line with its newline, what follows, and whether there was a newline. *)
Fixpoint cut_line (buf : string) : string * string * bool :=
  match buf with
  | "" => ("", "", false)
  | String c r => if Ascii.eqb c "010" then (String c "", r, true) else let '(line, rest, nl) := cut_line r in (String c line, rest, nl)
  end.
Definition starts_with (c : ascii) (s : string) : bool := match s with String d _ => Ascii.eqb c d | "" => false end.

(** The rule of a line of a text file; empty when there is none.
    @go rules/provider/provider.go:203-214 rulesParse *)
Definition text_rule (line : string) : string :=
  let str := TrimSpaceUTF8 line in
  if starts_with "#" str || HasPrefix str "//" then "" else str.
(** The rule of a line of a YAML file, the head that is kept in the buffer, and the
    payload: until there is a head, each line is tried as one.
    @go rules/provider/provider.go:215-252 rulesParse *)
Definition yaml_rule (line head : string) (schema : RulePayload) : string * string * RulePayload :=
  let trimLine := TrimSpaceUTF8 line in
  if String.eqb trimLine "" || starts_with "#" trimLine then ("", head, schema)
  else if String.eqb head "" then
    let '(ok, schema) := unmarshal (line ++ "  - ''")%string schema in
    if ok && ((0 <? length (rp_rules schema)) || (0 <? length (rp_payload schema)))%nat then ("", line, schema) else ("", "", schema)
  else
    let '(ok, schema) := unmarshal (head ++ line)%string schema in
    if negb ok then ("", head, schema)
    else
      let str := match rp_rules schema with r :: _ => r | [] => "" end in
      (match rp_payload schema with p :: _ => p | [] => str end, head, schema).
(** @go rules/provider/provider.go:187-262 rulesParse *)
Fixpoint lines_loop (fuel : nat) (format : RuleFormat) (buf head : string) (schema : RulePayload) (s : ruleStrategy) : qres (RuleFileErr + ruleStrategy) :=
  match buf with
  | "" => mret (inr s)
  | _ =>
      match fuel with
      | O => QHang
      | S fuel =>
          let '(line, rest, nl) := cut_line buf in
          if negb nl && String.eqb head "" && (match format with YamlRule => true | _ => false end) then mret (inl ErrNoPayload)
          else
            match format with
            | MrsRule => mret (inl ErrInvalidFormat)
            | TextRule =>
                let str := text_rule line in
                s ← (if String.eqb str "" then mret s else st_Insert str s);
                lines_loop fuel format rest head schema s
            | YamlRule =>
                let '(str, head, schema) := yaml_rule line head schema in
                s ← (if String.eqb str "" then mret s else st_Insert str s);
                lines_loop fuel format rest head schema s
            end
      end
  end.

Variable maxAlloc : Z.

(** [int(count)].
    @go rules/provider/domain_strategy.go:57-65 domainStrategy.FromMrs *)
Definition st_FromMrs (fuel : nat) (s : ruleStrategy) (count : Z) : rd (E := RuleFileErr) ruleStrategy :=
  match s with
  | StDomain d => rd_bind (ReadDomainSetBin maxAlloc fuel) (fun set => rd_ret (StDomain (mkDomainStrategy count (dom_builder d) (Some set))))
  | StIPCIDR c => rd_bind (ReadIpCidrSet maxAlloc fuel) (fun set => rd_ret (StIPCIDR (mkCidrStrategy count (Some set))))
  | StClassical _ _ => rd_err (BinErr_ ErrInvalidFormat)
  end.
(** @go rules/provider/mrs_reader.go:13-13 MrsMagicBytes *)
Definition MrsMagicBytes : list Z := [77; 82; 83; 1].
(** @go rules/provider/mrs_reader.go:23-67 rulesMrsParse *)
Definition read_mrs (fuel : nat) (s : ruleStrategy) : rd (E := RuleFileErr) ruleStrategy :=
  rd_bind (ReadFull 4) (fun header =>
  if negb (bool_decide (header = MrsMagicBytes)) then rd_err (BinErr_ ErrMagic) else
  rd_bind (ReadFull 1) (fun b =>
  if negb (bool_decide (b = [behavior_Byte (st_Behavior s)])) then rd_err (BinErr_ ErrBehavior) else
  rd_bind Read_i64 (fun count =>
  rd_bind Read_i64 (fun length =>
  if length <? 0 then rd_err BinLength else
  rd_bind (if 0 <? length then rd_bind (make_slice maxAlloc 1 length) (fun _ => ReadFull length) else rd_ret []) (fun _ => st_FromMrs fuel s count))))).
(** @go rules/provider/mrs_reader.go:15-72 rulesMrsParse *)
Definition rulesMrsParse (fuel : nat) (buf : string) (s : ruleStrategy) : qres (RuleFileErr + ruleStrategy) :=
  match s with
  | StClassical _ _ => mret (inl ErrInvalidFormat)
  | _ =>
      match zstd_decode (str_bytes buf) with
      | None => mret (inl ErrZstd)
      | Some content =>
          r ← read_mrs fuel s content;
          mret (match r with inl (BinErr_ e) => inl e | inl e => inl (ErrBin e) | inr (s, _) => inr s end)
      end
  end.
(** @go rules/provider/provider.go:175-267 rulesParse *)
Definition rulesParse (fuel : nat) (buf : string) (s : ruleStrategy) (format : RuleFormat) : qres (RuleFileErr + ruleStrategy) :=
  let s := st_Reset s in
  match format with
  | MrsRule => rulesMrsParse fuel buf s
  | _ =>
      r ← lines_loop (String.length buf) format buf "" (mkPayload [] []) s;
      match r with
      | inl e => mret (inl e)
      | inr s => s ← st_FinishInsert s; mret (inr s)
      end
  end.
(** @go rules/provider/provider.go:269-278 rulesParseInline *)
Fixpoint inline_loop (rs : list string) (s : ruleStrategy) : qres ruleStrategy :=
  match rs with
  | [] => mret s
  | r :: rs => s ← (if String.eqb r "" then mret s else st_Insert r s); inline_loop rs s
  end.
Definition rulesParseInline (rs : list string) (s : ruleStrategy) : qres ruleStrategy :=
  s ← inline_loop rs (st_Reset s); st_FinishInsert s.

(** ** Writing a file *)

Definition trim_step (s : string) : string := match s with String c r => if Ascii.eqb c dot then r else s | "" => s end.
(** [slices.SortFunc] by the text behind a leading separator; two entries that are equal
    then are replaced together, so that their order does not matter. *)
Fixpoint insert_by (x : string) (l : list string) : list string :=
  match l with
  | [] => [x]
  | y :: r => if String.leb (trim_step x) (trim_step y) then x :: l else y :: insert_by x r
  end.
Definition sort_by (l : list string) : list string := fold_right insert_by [] l.
(** Neighbours for one domain become one rule; the empty key that the code leaves in
    place of the second is deleted afterwards.
    @go rules/provider/domain_strategy.go:92-101 domainStrategy.DumpMrs *)
Fixpoint join_pairs (keys : list string) : list string :=
  match keys with
  | [] => []
  | x :: r =>
      match r with
      | [] => [x]
      | y :: r' => if String.eqb (trim_step x) (trim_step y) then ("+." ++ trim_step x)%string :: join_pairs r' else x :: join_pairs r
      end
  end.
(** The keys that [f] is called with, until it says stop.
    @go rules/provider/domain_strategy.go:77-111 domainStrategy.DumpMrs *)
Definition dump_domains (fuel : nat) (ss : DomainSet) : qres (list string) :=
  keys ← set_Foreach (fun key keys => (true, keys ++ [key])) fuel ss [];
  mret (sort_strings (join_pairs (sort_by keys))).
(** @go rules/provider/ipcidr_strategy.go:75-81 ipcidrStrategy.DumpMrs *)
Definition DumpMrs (fuel : nat) (s : ruleStrategy) : qres (list string) :=
  match s with
  | StDomain d => match dom_set d with None => mret [] | Some ss => dump_domains fuel ss end
  | StIPCIDR c => mret (match cidr_set c with None => [] | Some set => map prefix_String (cidr_prefixes set) end)
  | StClassical _ _ => mret []
  end.
(** Into memory, which does not fail.
    @go rules/provider/domain_strategy.go:67-72 domainStrategy.WriteMrs *)
Definition WriteMrs (s : ruleStrategy) : RuleFileErr + wr (W := list Z) (E := RuleFileErr) :=
  match s with
  | StDomain d => match dom_set d with None => inl ErrNilSet | Some ss => inr (set_WriteBin append ss) end
  | StIPCIDR c => match cidr_set c with None => inl ErrNilSet | Some set => inr (cidr_WriteBin append set) end
  | StClassical _ _ => inl ErrInvalidFormat
  end.

End Strategies.

Section Convert.
Context {BM : Bitmap} {NX : Netipx} {ZS : Zstd}.
Variable unmarshal : string -> RulePayload -> bool * RulePayload.
Variable maxAlloc : Z.
Context {W E : Type} (write : list Z -> W -> (E + unit) * W).

(** The lines of a text file; the error that stops them is not returned.
    @go rules/provider/mrs_converter.go:24-32 ConvertToMrs *)
Fixpoint print_lines (keys : list string) (w : W) : W :=
  match keys with
  | [] => w
  | k :: keys => let '(r, w) := write (str_bytes k ++ [10]) w in match r with inl _ => w | inr _ => print_lines keys w end
  end.
(** The encoder keeps what it is given and writes when it is closed, on every return.
    @go rules/provider/mrs_converter.go:36-81 ConvertToMrs *)
Definition write_mrs (b : RuleBehavior) (s : ruleStrategy) (w : W) : (RuleFileErr + (E + unit)) * W :=
  let header := MrsMagicBytes ++ [behavior_Byte b] ++ be64 (u64 (st_Count s)) ++ be64 0 in
  let '(r, content) := match WriteMrs s with
    | inl e => (inl e, header)
    | inr m => match m header with (inl e, content) => (inl (ErrBin e), content) | (inr _, content) => (inr tt, content) end
    end in
  let '(closed, w) := write (zstd_encode content) w in
  (match r with inl e => inl e | inr _ => inr closed end, w).
(** The strategy has no function to parse rules with.
    @go rules/provider/mrs_converter.go:15-83 ConvertToMrs *)
Definition ConvertToMrs (fuel : nat) (buf : string) (b : RuleBehavior) (format : RuleFormat) (w : W) : qres ((RuleFileErr + (E + unit)) * W) :=
  r ← rulesParse None unmarshal maxAlloc fuel buf (newStrategy b) format;
  match r with
  | inl e => mret (inl e, w)
  | inr s =>
      if st_Count s =? 0 then mret (inl ErrEmptyRule, w)
      else match s with
           | StClassical _ _ => mret (inl ErrInvalidFormat, w)
           | _ =>
               match format with
               | MrsRule => keys ← DumpMrs fuel s; mret (inr (inr tt), print_lines keys w)
               | _ => mret (write_mrs b s w)
               end
           end
  end.
End Convert.
