(* ===== verification/RuleFileProps.v ===== *)
(** * Rule files keep their rules

    A text file is the inline payload of its lines; the set that is parsed matches what
    the patterns of the lines match, and converting it to MRS and back loses nothing. *)
From S2P Require Import Prelude Names GoText Netip Metadata Rules RuleParse DomainTrie DomainTrieProps ZList DomainSet Louds DomainSetProps DomainSetSpec DomainMap DomainMapProps DomainMapSpec DomainBin RuleFile.
#[local] Open Scope string_scope.
#[local] Open Scope list_scope.
#[local] Open Scope Z_scope.

Definition newline : ascii := "010".
(** [strings.SplitAfter(s, newline)], without an empty line at the end. *)
Fixpoint split_after (s : string) : list string :=
  match s with
  | "" => []
  | String c r => if Ascii.eqb c newline then String c "" :: split_after r
                  else match split_after r with [] => [String c ""] | l :: ls => String c l :: ls end
  end.
Lemma cut_line_spec buf : buf <> "" -> forall line rest nl, cut_line buf = (line, rest, nl) ->
  split_after buf = line :: split_after rest /\ (String.length rest < String.length buf)%nat.
Proof.
  induction buf as [|c r IH]; [done|]. intros _ line rest nl. cbn [cut_line split_after]. change "010"%char with newline. destruct (Ascii.eqb c newline).
  - intros [= <- <- _]. cbn. split; [done|lia].
  - destruct (decide (r = "")) as [->|Hr]; [intros [= <- <- _]; cbn; split; [done|lia]|]. destruct (cut_line r) as [[l r'] nl'] eqn:E.
    destruct (IH Hr _ _ _ eq_refl) as [-> H]. intros [= <- <- _]. cbn. split; [done|lia].
Qed.

(** Decoding gives back what was encoded, and a stream is bytes. *)
Class ZstdLaws {ZS : Zstd} := { zstd_read x : Forall byte x -> zstd_decode (zstd_encode x) = Some x; zstd_bytes x : Forall byte x -> Forall byte (zstd_encode x) }.

Section Props.
Context {BM : Bitmap} {BL : BitmapLaws BM} {NX : Netipx} {ZS : Zstd}.
Variable parse : option ParseEnv.
Variable unmarshal : string -> RulePayload -> bool * RulePayload.
Variable maxAlloc : Z.

Lemma lines_inline buf : forall fuel head schema s, (String.length buf <= fuel)%nat ->
  lines_loop parse unmarshal fuel TextRule buf head schema s = (s ← inline_loop parse (map text_rule (split_after buf)) s; mret (inr s)).
Proof.
  intros fuel. revert buf. induction fuel as [|fuel IH]; intros buf head schema s Hf; (destruct buf as [|c r]; [done|]); [cbn in Hf; lia|].
  cbn [lines_loop]. destruct (cut_line (String c r)) as [[line rest] nl] eqn:E. destruct (cut_line_spec (String c r) ltac:(done) _ _ _ E) as [-> Hl].
  rewrite andb_false_r. cbn [map inline_loop]. destruct (String.eqb (text_rule line) ""); [apply IH; cbn in *; lia|].
  destruct (st_Insert parse (text_rule line) s) as [s'| |]; [|done..]. cbn [mbind qres_bind]. apply IH. cbn in *; lia.
Qed.
Lemma rulesParse_text fuel buf s :
  rulesParse parse unmarshal maxAlloc fuel buf s TextRule = (s ← rulesParseInline parse (map text_rule (split_after buf)) s; mret (inr s)).
Proof.
  unfold rulesParse, rulesParseInline. rewrite lines_inline by done.
  destruct (inline_loop _ _ _) as [s'| |]; [|done..]. by cbn [mbind qres_bind mret qres_ret].
Qed.

(** ** The domain strategy *)

Definition no_slash (s : string) : bool := negb (Contains "/" s).
(** The rules that are given to the builder, and those that it takes. *)
Definition domain_rules (rs : list string) : list string := List.filter (fun r => negb (String.eqb r "") && no_slash r) rs.
Definition taken (ds : list string) : list string := List.filter (fun d => match ValidAndSplitDomain d with inr _ => true | inl _ => false end) ds.

Lemma bld_Insert_taken d b : match bld_Insert d b with inr _ => true | inl _ => false end = match ValidAndSplitDomain d with inr _ => true | inl _ => false end.
Proof. unfold bld_Insert. by destruct (ValidAndSplitDomain d). Qed.
Lemma domain_inline rs : forall d, inline_loop parse rs (StDomain d) =
  QOk (StDomain (mkDomainStrategy (dom_count d + zlen (taken (domain_rules rs)))
    (fold_left (fun b d => match bld_Insert d b with inl _ => b | inr b => b end) (domain_rules rs) (dom_builder d)) (dom_set d))).
Proof.
  induction rs as [|r rs IH]; intros d; [cbn; rewrite Z.add_0_r; by destruct d|]. cbn [inline_loop domain_rules List.filter]. fold (domain_rules rs).
  destruct (String.eqb r "") eqn:Er; cbn [negb andb]; [apply IH|]. cbn [mbind qres_bind st_Insert mret qres_ret]. rewrite IH. unfold dom_Insert, no_slash.
  destruct (Contains "/" r); cbn [negb]; [done|]. cbn [fold_left taken List.filter]. fold (taken (domain_rules rs)).
  pose proof (bld_Insert_taken r (dom_builder d)) as Ht. destruct (bld_Insert r (dom_builder d)) as [e|b], (ValidAndSplitDomain r); try done.
  cbn [dom_count dom_builder dom_set]. do 3 f_equal. unfold zlen. cbn [length]. lia.
Qed.
Lemma Build_total ds : Forall plain ds -> exists ss, bld_Build (Some (set_collect ds)) = QOk (ss, Some []).
Proof. intros Hd. destruct (Has_stored ds "a" Hd) as (ss & E & _); [done|]. by exists ss. Qed.
(** What a domain provider parses out of a text file. *)
Lemma domain_parsed fuel buf d ss : let ds := domain_rules (map text_rule (split_after buf)) in
  bld_Build (Some (set_collect ds)) = QOk (ss, Some []) ->
  rulesParse parse unmarshal maxAlloc fuel buf (StDomain d) TextRule = QOk (inr (StDomain (mkDomainStrategy (zlen (taken ds)) [] ss))).
Proof.
  intros ds E. rewrite rulesParse_text. unfold rulesParseInline. cbn [st_Reset]. rewrite domain_inline. fold ds.
  cbn [mbind qres_bind mret qres_ret st_FinishInsert dom_Reset dom_count dom_builder dom_set bld_Reset]. unfold dom_FinishInsert.
  cbn [dom_builder dom_count]. change (fold_left _ ds _) with (set_collect ds).
  rewrite E. by cbn.
Qed.
Lemma dom_Match_Has fuel d m : dom_Match fuel d m = Has fuel (dom_set d) (RuleHost m).
Proof. unfold dom_Match. by destruct (dom_set d). Qed.
Lemma taken_stored ds : taken ds <> [] -> set_collect ds <> [].
Proof.
  intros Ht. assert (Hg : forall ds b, b <> [] \/ taken ds <> [] -> fold_left (fun b d => match bld_Insert d b with inl _ => b | inr b => b end) ds b <> []).
  { clear. induction ds as [|d ds IH]; intros b Hb; [by destruct Hb|]. cbn [fold_left]. apply IH. cbn [taken List.filter] in Hb. fold (taken ds) in Hb.
    pose proof (bld_Insert_taken d b) as Ht. destruct (ValidAndSplitDomain d) eqn:Ev; destruct (bld_Insert d b) as [e|b'] eqn:Ei; try done. left. unfold bld_Insert in Ei. rewrite Ev in Ei.
    destruct (bool_decide _); injection Ei as <-; unfold bld_insert; intros [_ ?]%app_eq_nil; done. }
  apply Hg. by right.
Qed.

(** ** Files of sets *)

Definition mrs_header (b : RuleBehavior) (count : Z) : list Z := MrsMagicBytes ++ [behavior_Byte b] ++ be64 (u64 count) ++ be64 0.
Lemma codec_header fuel s count b s' : 0 <= count < 2 ^ 63 ->
  codec (st_FromMrs maxAlloc fuel s count) b s' -> codec (read_mrs maxAlloc fuel s) (mrs_header (st_Behavior s) count ++ b) s'.
Proof.
  intros Hc Hb. unfold mrs_header, read_mrs. rewrite <- !app_assoc.
  apply (codec_bind _ _ _ _ MrsMagicBytes); [by apply codec_full|]. rewrite bool_decide_eq_true_2 by done. cbn [negb].
  apply (codec_bind _ _ _ _ [behavior_Byte (st_Behavior s)]); [by apply codec_full|]. rewrite bool_decide_eq_true_2 by done. cbn [negb].
  replace (u64 count) with count by (unfold u64; rewrite Z.mod_small; lia).
  apply (codec_bind _ _ _ _ count); [by apply codec_i64|]. apply (codec_bind _ _ _ _ 0); [by apply codec_i64|].
  change (0 <? 0) with false. cbv iota.
  apply (codec_pass _ _ _ []); [apply codec_ret|done].
Qed.
Lemma codec_domain fuel d ss count : filed ss -> 2 ^ 31 <= maxAlloc -> (length (leaves ss) <= fuel)%nat -> (length (labelBitmap ss) <= fuel)%nat ->
  codec (st_FromMrs maxAlloc fuel (StDomain d) count) (set_bytes ss) (StDomain (mkDomainStrategy count (dom_builder d) (Some ss))).
Proof. intros. cbn [st_FromMrs]. apply (codec_bind_ret _ (fun set => StDomain (mkDomainStrategy count (dom_builder d) (Some set)))). by apply codec_set. Qed.

Context {ZL : ZstdLaws}.
Definition mrs_file (content : list Z) : string := bytes_str (zstd_encode content).
Lemma file_bytes content : Forall byte content -> zstd_decode (str_bytes (mrs_file content)) = Some content.
Proof. intros Hc. unfold mrs_file. rewrite str_bytes_str by by apply zstd_bytes. by apply zstd_read. Qed.

Lemma parsed_back fuel s content s' : Forall byte content -> (forall r c, st_Reset s <> StClassical r c) -> codec (read_mrs maxAlloc fuel (st_Reset s)) content s' ->
  rulesParse parse unmarshal maxAlloc fuel (mrs_file content) s MrsRule = QOk (inr s').
Proof.
  intros Hc Hs [H _]. specialize (H []). rewrite app_nil_r in H. unfold rulesParse, rulesMrsParse. rewrite file_bytes, H by done. destruct (st_Reset s) as [| |r c]; [done..|by destruct (Hs r c)].
Qed.
End Props.

(** ** Converting to MRS *)

Section Convert.
Context {BM : Bitmap} {BL : BitmapLaws BM} {NX : Netipx} {ZS : Zstd} {ZL : ZstdLaws}.
Variable unmarshal : string -> RulePayload -> bool * RulePayload.
Variable maxAlloc : Z.

Definition domain_content (ds : list string) (ss : DomainSet) : list Z := mrs_header BhDomain (zlen (taken ds)) ++ set_bytes ss.
Lemma convert_text {E} fuel buf ss w : let ds := domain_rules (map text_rule (split_after buf)) in
  taken ds <> [] -> bld_Build (Some (set_collect ds)) = QOk (Some ss, Some []) ->
  ConvertToMrs unmarshal maxAlloc (append (E := E)) fuel buf BhDomain TextRule w = QOk (inr (inr tt), w ++ zstd_encode (domain_content ds ss)).
Proof.
  intros ds Ht Hb. unfold ConvertToMrs. cbn [newStrategy]. pose proof (domain_parsed None unmarshal maxAlloc fuel buf (mkDomainStrategy 0 [] None) _ Hb) as Hp. fold ds in Hp.
  rewrite Hp. cbn [mbind qres_bind st_Count dom_count]. rewrite (proj2 (Z.eqb_neq _ 0)) by (unfold zlen; by destruct (taken ds)). cbn [mret qres_ret]. f_equal.
  unfold write_mrs. cbn [WriteMrs dom_set st_Count dom_count]. change (MrsMagicBytes ++ _) with (mrs_header BhDomain (zlen (taken ds))).
  rewrite (emits_set ss). done.
Qed.

(** ** The listing of a set as a file *)

Definition clean (s : string) : Prop := plain s /\ no_slash s = true /\ s <> "".
Lemma space_host c s : host_byte c = true -> space_prefix (String c s) = 0%nat.
Proof. destruct c as [[] [] [] [] [] [] [] []]; intros Hc; try discriminate Hc; reflexivity. Qed.
Lemma trim_right_line k : plain k -> trim_right_space (k ++ String newline "")%string = k.
Proof.
  unfold plain. induction k as [|c k IH]; [done|]. cbn [all_chars]. intros [Hc Hk]%andb_true_iff. rewrite sapp_cons. cbn [trim_right_space String.length all_space].
  rewrite space_host by done. by rewrite IH.
Qed.
Lemma text_rule_line k : clean k -> text_rule (k ++ String newline "")%string = k.
Proof.
  intros (Hp & Hs & Hne). unfold text_rule, TrimSpaceUTF8. destruct k as [|c k]; [done|]. assert (Hc : host_byte c = true) by (by unfold plain in Hp; cbn in Hp; apply andb_true_iff in Hp as [? _]).
  assert (Et : trim_left_space (String.length (String c k ++ String newline "")) (String c k ++ String newline "")%string = (String c k ++ String newline "")%string)
    by (rewrite sapp_cons; cbn [String.length trim_left_space]; by rewrite space_host).
  rewrite Et, trim_right_line by done. cbn [starts_with HasPrefix]. unfold no_slash in Hs. cbn [Contains] in Hs. apply negb_true_iff, orb_false_iff in Hs as [Hs _].
  assert (E1 : Ascii.eqb "#" c = false) by (destruct (Ascii.eqb_spec "#" c) as [<-|]; done). rewrite E1. cbn [orb].
  by rewrite Hs.
Qed.
Definition text_file (keys : list string) : list Z := concat (map (fun k => str_bytes k ++ [10]) keys).
Lemma print_lines_file {E} keys w : print_lines (append (E := E)) keys w = w ++ text_file keys.
Proof.
  revert w. induction keys as [|k keys IH]; intros w; [cbn; by rewrite app_nil_r|]. cbn [print_lines append]. rewrite IH. unfold text_file. cbn [map concat].
  by rewrite <- app_assoc.
Qed.
Lemma split_after_line k s : Contains newline k = false -> split_after (k ++ String newline s)%string = (k ++ String newline "")%string :: split_after s.
Proof.
  induction k as [|c k IH]; [done|]. cbn [Contains]. intros [Hc Hk]%orb_false_iff. rewrite sapp_cons. cbn [split_after].
  rewrite Ascii.eqb_sym, Hc. by rewrite IH.
Qed.
Lemma plain_newline k : plain k -> Contains newline k = false.
Proof. intros Hp. destruct (Contains newline k) eqn:E; [|done]. by apply (Contains_all _ _ _ Hp) in E. Qed.
Lemma text_file_rules keys : Forall clean keys -> map text_rule (split_after (bytes_str (text_file keys))) = keys.
Proof.
  induction 1 as [|k keys Hk _ IH]; [done|]. unfold text_file. cbn [map concat]. fold (text_file keys). rewrite !bytes_str_app, bytes_str_bytes, sapp_assoc.
  change (bytes_str [10]) with (String newline ""). rewrite sapp_cons, sapp_nil_l, split_after_line by apply plain_newline, Hk. cbn [map]. by rewrite text_rule_line, IH.
Qed.
Lemma clean_rules keys : Forall clean keys -> domain_rules keys = keys.
Proof. induction 1 as [|k keys (_ & Hs & Hne) _ IH]; [done|]. cbn. rewrite (proj2 (String.eqb_neq k "")), Hs by done. cbn. by f_equal. Qed.

(** ** Joining a domain with its subdomains *)

Lemma stored_singleton x q p : x = Join q -> stored_ok q -> Forall plain q -> (exists parts, ValidAndSplitDomain x = inr parts /\ p ∈ expand parts) <-> p = q.
Proof.
  intros -> Hok Hp. destruct (stored_plain _ Hok Hp) as (_ & -> & E). split.
  - intros (parts & [= <-] & Hin). rewrite E in Hin. by apply list_elem_of_singleton in Hin.
  - intros ->. exists q. rewrite E. split; [done|left].
Qed.
Lemma join_two q p : stored_ok q -> stored_ok (dotWildcard :: q) -> Forall plain q ->
  (exists parts, ValidAndSplitDomain ("+." ++ Join q)%string = inr parts /\ p ∈ expand parts) <-> p = q \/ p = dotWildcard :: q.
Proof.
  intros [[H1 H2 H3 [H4 H4'] H5 H6 H7] Hn] [[_ _ G3 _ _ _ _] _] Hp. cbn [tail] in G3.
  assert (Hok : pattern_ok (complexWildcard :: q)).
  { constructor; cbn [tail]; try by constructor.
    - exact G3.
    - split; [done|]. intros x [= <-]. by right.
    - rewrite Join_cons by done. rewrite last_char_app. by destruct (last_char (Join q)). }
  assert (E : ("+." ++ Join q)%string = Join (complexWildcard :: q)) by (by rewrite Join_cons).
  assert (Hv : ValidAndSplitDomain ("+." ++ Join q)%string = inr (complexWildcard :: q)).
  { apply ValidAndSplitDomain_iff. split; [|by split]. rewrite E. destruct Hok. by rewrite ToLower_Join, Split_Join. }
  assert (He : expand (complexWildcard :: q) = [q; dotWildcard :: q]) by (unfold expand; by rewrite bool_decide_eq_true_2).
  rewrite Hv. split.
  - intros (parts & [= <-] & Hin). rewrite He, !elem_of_cons, elem_of_nil in Hin. tauto.
  - intros Hq. exists (complexWildcard :: q). rewrite He, !elem_of_cons. tauto.
Qed.

(** Every rule is one pattern. *)
Definition single (x : string) : Prop := exists q, x = Join q /\ stored_ok q /\ Forall plain q.
Lemma trim_step_two x y : trim_step x = trim_step y -> x = y \/ y = String dot x \/ x = String dot y.
Proof.
  destruct x as [|c x], y as [|d y]; cbn [trim_step]; [by left| | |]; repeat match goal with |- context[Ascii.eqb ?a dot] => destruct (Ascii.eqb_spec a dot) as [->|] end; naive_solver.
Qed.
Lemma joined_step q p : stored_ok q -> Forall plain q -> Join p = String dot (Join q) -> stored_ok p -> p = dotWildcard :: q.
Proof.
  intros [[Q1 _ _ [Q4 _] _ _ _] _] _ E [[P1 _ _ [P4 _] _ _ _] _]. apply (Join_inj dot); [done|done|done|by constructor|]. rewrite E. by rewrite Join_cons.
Qed.
Lemma joined_two x y p : single x -> single y -> x <> y -> trim_step x = trim_step y ->
  (exists parts, ValidAndSplitDomain ("+." ++ trim_step x)%string = inr parts /\ p ∈ expand parts) <->
  (exists parts, ValidAndSplitDomain x = inr parts /\ p ∈ expand parts) \/ (exists parts, ValidAndSplitDomain y = inr parts /\ p ∈ expand parts).
Proof.
  intros (q & Ex & Qo & Qp) (r & Ey & Ro & Rp) Hne Ht. rewrite (stored_singleton x q p), (stored_singleton y r p) by done.
  destruct (trim_step_two _ _ Ht) as [?|[E|E]]; [done|..].
  - rewrite Ht, E. cbn [trim_step]. rewrite Ascii.eqb_refl. rewrite Ex in *. assert (r = dotWildcard :: q) as -> by (apply joined_step; congruence). by apply join_two.
  - rewrite E. cbn [trim_step]. rewrite Ascii.eqb_refl. rewrite Ey in *. assert (q = dotWildcard :: r) as -> by (apply joined_step; congruence). rewrite join_two by done. tauto.
Qed.
Lemma pairs_ind (P : list string -> Prop) : P [] -> (forall x, P [x]) -> (forall x y r, P r -> P (y :: r) -> P (x :: y :: r)) -> forall l, P l.
Proof. intros H0 H1 H2. assert (H : forall l, P l /\ forall x, P (x :: l)); [|intros l; apply H]. induction l as [|y l [IH1 IH2]]; [by split|]. split; [apply IH2|]. intros x. by apply H2. Qed.
Lemma join_pairs_stored l p : Forall single l -> NoDup l -> stored (join_pairs l) p <-> stored l p.
Proof.
  induction l as [|x|x y r IH1 IH2] using pairs_ind; [done..|]. intros HS HN. inversion_clear HS as [|? ? Hx HS']. inversion_clear HS' as [|? ? Hy Hr].
  inversion_clear HN as [|? ? Nx HN']. inversion HN' as [|? ? Ny Nr]; subst. rewrite elem_of_cons in Nx. cbn [join_pairs].
  destruct (String.eqb_spec (trim_step x) (trim_step y)) as [E|_].
  - rewrite !stored_cons, (joined_two x y p), IH1 by (done || tauto). tauto.
  - rewrite stored_cons, (stored_cons x), IH2 by (done || by constructor). done.
Qed.

Lemma sort_by_perm l : sort_by l ≡ₚ l.
Proof.
  induction l as [|x l IH]; [done|]. cbn [sort_by fold_right]. fold (sort_by l). transitivity (x :: sort_by l); [|by rewrite IH]. generalize (sort_by l). clear. intros l.
  induction l as [|y l IH]; [done|]. cbn [insert_by]. destruct (String.leb _ _); [done|]. by rewrite IH, Permutation_swap.
Qed.
Lemma clean_trim x : clean x -> clean ("+." ++ trim_step x)%string.
Proof.
  intros (Hp & Hs & _). assert (H : plain (trim_step x) /\ no_slash (trim_step x) = true).
  { destruct x as [|c x]; [done|]. cbn [trim_step]. destruct (Ascii.eqb c dot); [|done]. unfold plain, no_slash in *. cbn [all_chars Contains] in *.
    apply andb_true_iff in Hp as [_ Hp]. apply negb_true_iff, orb_false_iff in Hs as [_ Hs]. by rewrite Hs. }
  destruct H. done.
Qed.
Lemma join_pairs_clean l : Forall clean l -> Forall clean (join_pairs l).
Proof.
  induction l as [|x|x y r IH1 IH2] using pairs_ind; [done..|]. intros H. cbn [join_pairs]. inversion_clear H as [|? ? Hx Hyr]. inversion_clear Hyr as [|? ? Hy Hr].
  destruct (String.eqb _ _); constructor; auto using clean_trim.
Qed.
Lemma no_slash_all s : no_slash s = all_chars (fun c => negb (Ascii.eqb "/" c)) s.
Proof. unfold no_slash. induction s as [|c s IH]; [done|]. cbn [Contains all_chars]. by rewrite negb_orb, IH. Qed.
Lemma no_slash_stored ds p : Forall (fun d => no_slash d = true) ds -> stored ds p -> no_slash (Join p) = true.
Proof.
  intros Hd (d & parts & Hin & Hv & Hp). rewrite Forall_forall in Hd. specialize (Hd d Hin). apply ValidAndSplitDomain_iff in Hv as (-> & _). rewrite no_slash_all in *.
  assert (Hl : all_chars (fun c => negb (Ascii.eqb "/" c)) (ToLower d) = true).
  { clear -Hd. induction d as [|c d IH]; [done|]. cbn [all_chars ToLower] in *. apply andb_true_iff in Hd as [H1 H2]. rewrite IH by done. rewrite andb_true_r.
    destruct c as [[] [] [] [] [] [] [] []]; vm_compute in H1 |- *; done. }
  apply all_chars_Split in Hl. apply all_chars_join; [done|]. unfold expand in Hp. destruct (bool_decide _) eqn:E.
  - apply bool_decide_eq_true in E. destruct (Split (ToLower d)) as [|h t]; [done|]. injection E as ->. inversion_clear Hl. cbn [tail] in Hp.
    rewrite !elem_of_cons, elem_of_nil in Hp. destruct Hp as [->|[->|[]]]; [done|by constructor].
  - by apply list_elem_of_singleton in Hp as ->.
Qed.

(** The listing of a set that was built, as [DumpMrs] gives it. *)
Definition dumped (ds : list string) : list string := sort_strings (join_pairs (sort_by (map pattern_of (trie_keys (set_collect ds))))).
Lemma dumped_spec ds : Forall plain ds -> Forall (fun d => no_slash d = true) ds ->
  Forall clean (dumped ds) /\ (forall k, k ∈ set_collect (dumped ds) <-> k ∈ set_collect ds).
Proof.
  intros Hp Hs. destruct (listed_stored ds Hp) as (L1 & L2 & L3 & L4). unfold dumped. set (L := map pattern_of (trie_keys (set_collect ds))) in *.
  assert (Hc : Forall clean L).
  { apply Forall_forall. intros x Hx. rewrite Forall_forall in L1. split; [by apply L1|]. apply L3 in Hx as (p & Hst & ->). split; [by eapply no_slash_stored|].
    destruct (stored_ok_plain _ _ Hp Hst) as [[[_ _ _ _ _ _ H7] _] _]. by destruct (Join p). }
  assert (Hsg : Forall single L).
  { apply Forall_forall. intros x Hx. apply L3 in Hx as (p & Hst & ->). destruct (stored_ok_plain _ _ Hp Hst). by exists p. }
  assert (HK : Forall clean (sort_strings (join_pairs (sort_by L)))) by (rewrite sort_strings_perm; apply join_pairs_clean; by rewrite sort_by_perm).
  split; [done|]. intros k. rewrite <- L4, !collect_keys; [|done|eapply Forall_impl; [exact HK|]; by intros ? []].
  assert (E : forall p, stored (sort_strings (join_pairs (sort_by L))) p <-> stored L p).
  { intros p. transitivity (stored (join_pairs (sort_by L)) p); [unfold stored; by setoid_rewrite sort_strings_perm|].
    rewrite join_pairs_stored by by rewrite sort_by_perm. unfold stored. by setoid_rewrite sort_by_perm. }
  by setoid_rewrite E.
Qed.
Lemma each_string_keep l acc : each_string (fun key keys => (true, keys ++ [key])) l acc = acc ++ l.
Proof. revert acc. induction l as [|x l IH]; intros acc; [by rewrite app_nil_r|]. cbn [each_string]. by rewrite IH, <- app_assoc. Qed.
Lemma dump_dumped ds ss : bld_Build (Some (set_collect ds)) = QOk (Some ss, Some []) -> int32_set (Some ss) ->
  exists n, forall fuel, (n <= fuel)%nat -> dump_domains fuel ss = QOk (dumped ds).
Proof.
  intros Hb Hs. cbn [bld_Build] in Hb. destruct (buildDomainSet (set_collect ds)) as [[[s|] ts]| |] eqn:Eb; cbn in Hb; try done. injection Hb as ->.
  destruct (Foreach_keys (set_collect ds) ss ts) as [n Hn]; [intros E0; by rewrite E0 in Eb|done|exact Hs|]. exists n. intros fuel Hf. unfold dump_domains. rewrite Hn by done.
  by rewrite each_string_keep.
Qed.

Lemma byte_be64 v : Forall byte (be64 v).
Proof. apply Forall_map, Forall_forall. intros i _. unfold byte. cbn. change 255 with (Z.ones 8). rewrite Z.land_ones by done. by apply Z.mod_pos_bound. Qed.
Lemma header_bytes b n : Forall byte (mrs_header b n).
Proof. unfold mrs_header. rewrite !Forall_app. split_and!; try apply byte_be64; repeat (apply Forall_cons; split); try done; by destruct b. Qed.
Lemma byte_key p : Forall byte (key_of p).
Proof.
  unfold key_of. induction (rev p) as [|l r IH]; [constructor|]. rewrite rjoin_cons. apply Forall_app. split.
  - unfold klabel. destruct (String.eqb _ _); [by apply Forall_singleton|]. apply Forall_rev, str_bytes_range.
  - destruct r; [constructor|]. constructor; [by unfold byte|done].
Qed.
Lemma set_bytes_range ds ss : Forall plain ds -> bld_Build (Some (set_collect ds)) = QOk (Some ss, Some []) -> Forall byte (set_bytes ss).
Proof.
  intros Hp Hb. cbn [bld_Build] in Hb. destruct (buildDomainSet (set_collect ds)) as [[[s|] ts]| |] eqn:Eb; cbn in Hb; try done. injection Hb as ->.
  destruct (buildDomainSet_stores (set_collect ds)) as (ss' & P & E' & HL & HS); [by intros E0; rewrite E0 in Eb|]. rewrite Eb in E'. injection E' as <- _.
  assert (Hw : forall l, Forall byte (words l)).
  { intros l. unfold words. apply Forall_app. split; [apply byte_be64|]. induction l as [|x l IH]; [constructor|]. apply Forall_app. split; [apply byte_be64|done]. }
  unfold set_bytes. rewrite !Forall_app. split_and!; [by repeat constructor|done|done|apply byte_be64|]. rewrite (s_labels _ _ HS). apply Forall_concat, Forall_map, Forall_lookup.
  intros k n Hk. apply Forall_forall. intros c Hc. unfold labs in Hc. apply list_elem_of_fmap in Hc as ([c' G] & -> & Hg). apply list_elem_of_lookup in Hg as [t Hg].
  pose proof (louds_good _ _ HL) as Hgood. rewrite Forall_lookup in Hgood. destruct (Hgood _ _ Hk) as [_ Hsorted]. destruct (sorted_body _ Hsorted) as (B1 & _ & _).
  destruct (group_words _ B1 _ (list_elem_of_lookup_2 _ _ _ Hg)) as [Hne _]. cbn [snd] in Hne. destruct G as [|w G]; [done|].
  assert (Hin : (c' :: w) ∈ n.2) by (apply (group_words_iff n t c' (w :: G) Hsorted Hg); left). apply (louds_words _ _ _ _ HL Hk) in Hin.
  rewrite elem_trie_keys in Hin. apply collect_keys in Hin as (p & _ & E); [|done]. pose proof (byte_key p) as Hbp. rewrite <- E, Forall_app, Forall_cons in Hbp. apply Hbp.
Qed.
Lemma taken_le rs : (length (taken (domain_rules rs)) <= length rs)%nat.
Proof. etransitivity; [apply List.filter_length_le|apply List.filter_length_le]. Qed.
Lemma split_after_le s : (length (split_after s) <= String.length s)%nat.
Proof.
  induction s as [|c s IH]; [done|]. cbn [split_after String.length]. destruct (Ascii.eqb c newline); [cbn; lia|]. destruct (split_after s); cbn in *; lia.
Qed.
(** The patterns of a text file. *)
Definition file_domains (buf : string) : list string := domain_rules (map text_rule (split_after buf)).
Lemma domains_no_slash buf : Forall (fun d => no_slash d = true) (file_domains buf).
Proof. apply Forall_forall. intros d Hd. unfold file_domains, domain_rules in Hd. apply list_elem_of_In, filter_In in Hd as [_ Hd]. by apply andb_true_iff in Hd as [_ ?]. Qed.
Definition int32_arrays (ss : DomainSet) : Prop :=
  Z.of_nat (64 * length (labelBitmap ss)) < 2 ^ 31 /\ Z.of_nat (64 * length (leaves ss)) < 2 ^ 31.
Lemma file_filed ds ss : Forall plain ds -> taken ds <> [] -> bld_Build (Some (set_collect ds)) = QOk (Some ss, Some []) -> int32_arrays ss -> filed ss.
Proof.
  intros Hp Ht Hb [H1 H2]. cbn [bld_Build] in Hb. destruct (buildDomainSet (set_collect ds)) as [[[s|] ts]| |] eqn:Eb; cbn in Hb; try done. injection Hb as ->.
  apply taken_stored in Ht. destruct (set_collect ds) as [|k ks] eqn:Ek; [done|]. refine (proj1 (built_filed _ _ _ Eb _ H1 H2)). exists k. split; [left|].
  assert (Hk : k ∈ set_collect ds) by (rewrite Ek; left). apply collect_keys in Hk as (p & Hst & ->); [|done]. by apply key_of_nonempty, (stored_ok_plain _ _ Hp Hst).
Qed.

(** C36: what a domain rule provider matches.  Of any text file of host-name patterns,
    whatever lines it has, comments and refused patterns included, parsing ends without
    error and counts the patterns that are valid; the provider matches a connection
    exactly when the name it is for is matched by a pattern that a line stands for. *)
Theorem rule_file_matches parse fuel buf m : Forall plain (file_domains buf) -> name_ok (RuleHost m) ->
  exists d, rulesParse parse unmarshal maxAlloc fuel buf (newStrategy BhDomain) TextRule = QOk (inr (StDomain d)) /\
    dom_count d = zlen (taken (file_domains buf)) /\
    (int32_set (dom_set d) -> exists b, (exists n, forall fuel, (n <= fuel)%nat -> dom_Match fuel d m = QOk b) /\
       (b = true <-> exists p, stored (file_domains buf) p /\ pattern_matches (rev p) (rev (Split (ToLower (RuleHost m)))))).
Proof.
  intros Hp Hq. destruct (Has_stored (file_domains buf) (RuleHost m) Hp Hq) as (ss & Hb & H). exists (mkDomainStrategy (zlen (taken (file_domains buf))) [] ss).
  split; [exact (domain_parsed parse unmarshal maxAlloc fuel buf (mkDomainStrategy 0 [] None) ss Hb)|]. split; [done|]. intros Hs. destruct (H Hs) as (b & [n Hn] & Hiff).
  exists b. split; [|done]. exists n. intros fuel' Hf. rewrite dom_Match_Has. by apply Hn.
Qed.

(** C37: converting rule files keeps the rules.  A text file of host-name patterns that
    has a valid one is converted to an MRS file without error; that file is parsed to the
    very set, count included, that the text file is parsed to; and it is converted back to
    a text file, a list with one rule for a domain and its subdomains, that is parsed to
    the same set again. *)
Theorem rule_file_roundtrip {E} parse buf ss : let ds := file_domains buf in
  Forall plain ds -> taken ds <> [] -> bld_Build (Some (set_collect ds)) = QOk (Some ss, Some []) -> int32_arrays ss ->
  Z.of_nat (String.length buf) < 2 ^ 63 -> 2 ^ 31 <= maxAlloc ->
  let parsed := QOk (inr (StDomain (mkDomainStrategy (zlen (taken ds)) [] (Some ss)))) in
  exists n, forall fuel, (n <= fuel)%nat ->
    rulesParse parse unmarshal maxAlloc fuel buf (newStrategy BhDomain) TextRule = parsed /\
    exists mrs text, ConvertToMrs unmarshal maxAlloc (append (E := E)) fuel buf BhDomain TextRule [] = QOk (inr (inr tt), mrs) /\
      rulesParse parse unmarshal maxAlloc fuel (bytes_str mrs) (newStrategy BhDomain) MrsRule = parsed /\
      ConvertToMrs unmarshal maxAlloc (append (E := E)) fuel (bytes_str mrs) BhDomain MrsRule [] = QOk (inr (inr tt), text) /\
      rulesParse parse unmarshal maxAlloc fuel (bytes_str text) (newStrategy BhDomain) TextRule =
        QOk (inr (StDomain (mkDomainStrategy (zlen (taken (dumped ds))) [] (Some ss)))).
Proof.
  intros ds Hp Ht Hb Hs Hlen Hm parsed. assert (Hnz : zlen (taken ds) <> 0) by (unfold zlen; by destruct (taken ds)).
  assert (Hc : 0 <= zlen (taken ds) < 2 ^ 63).
  { unfold zlen. split; [lia|]. pose proof (taken_le (map text_rule (split_after buf))) as H1. rewrite length_map in H1. pose proof (split_after_le buf). unfold ds, file_domains. lia. }
  pose proof (file_filed ds ss Hp Ht Hb Hs) as Hf. destruct (dump_dumped ds ss Hb) as [n Hd]; [apply Hs|].
  destruct (dumped_spec ds Hp (domains_no_slash buf)) as [K1 K2].
  exists (n + length (leaves ss) + length (labelBitmap ss))%nat. intros fuel Hfuel.
  split; [exact (domain_parsed parse unmarshal maxAlloc fuel buf (mkDomainStrategy 0 [] None) _ Hb)|].
  assert (Hback : forall parse, rulesParse parse unmarshal maxAlloc fuel (mrs_file (domain_content ds ss)) (newStrategy BhDomain) MrsRule = parsed).
  { intros parse'. apply parsed_back; [exact ZL| |done|].
    { apply Forall_app. split; [apply header_bytes|]. by eapply set_bytes_range. } apply (codec_header maxAlloc fuel (st_Reset (newStrategy BhDomain))); [done|].
    apply codec_domain; (done || lia). }
  exists (zstd_encode (domain_content ds ss)), (text_file (dumped ds)).
  split; [exact (convert_text fuel buf ss [] Ht Hb)|]. split; [apply Hback|]. split.
  - unfold ConvertToMrs. fold (mrs_file (domain_content ds ss)). rewrite Hback. subst parsed. cbn [mbind qres_bind st_Count dom_count]. rewrite (proj2 (Z.eqb_neq _ 0)) by done.
    cbn [DumpMrs dom_set]. rewrite Hd by lia. cbn [mbind qres_bind mret qres_ret]. by rewrite print_lines_file.
  - assert (E1 : file_domains (bytes_str (text_file (dumped ds))) = dumped ds) by (unfold file_domains; by rewrite text_file_rules, clean_rules).
    assert (Hb' : bld_Build (Some (set_collect (dumped ds))) = QOk (Some ss, Some [])) by (cbn [bld_Build] in *; by rewrite (buildDomainSet_same _ _ K2)).
    change (newStrategy BhDomain) with (StDomain (mkDomainStrategy 0 [] None)). rewrite <- E1 in Hb'. unfold file_domains in Hb'. erewrite domain_parsed by exact Hb'. fold (file_domains (bytes_str (text_file (dumped ds)))). by rewrite E1.
Qed.
End Convert.

(** ** Address sets *)

Section Cidr.
Context {BM : Bitmap} {NX : Netipx} {E : Type}.

Definition addr_wf (a : Addr) : Prop := a_bits a = 32 /\ 0 <= a_val a < 2 ^ 32 \/ a_bits a = 128 /\ 0 <= a_val a < 2 ^ 128.
Definition range_wf (r : IPRange) : Prop := addr_wf r.1 /\ addr_wf r.2.
Definition range_Unmap (r : IPRange) : IPRange := (addr_Unmap r.1, addr_Unmap r.2).
Lemma As16_Unmap a : addr_wf a -> addr_Unmap (AddrFrom16 (As16 a)) = addr_Unmap a.
Proof.
  intros [[Hb Hv]|[Hb Hv]]; unfold As16, AddrFrom16, addr_Is4; destruct a as [b v]; cbn [a_bits a_val] in *; subst b.
  - change (32 =? 32) with true. cbv iota. rewrite be_get_put_small by lia. unfold addr_Unmap at 1, addr_Is4In6, addr_Is6. cbn [a_bits a_val].
    rewrite Z.shiftr_div_pow2 by done. rewrite Z.div_add_l by done. rewrite Z.div_small by lia. change (65535 + 0 =? 65535) with true. change (128 =? 128) with true.
    cbn [andb]. rewrite Z.add_comm, Z.mod_add, Z.mod_small by lia. done.
  - change (128 =? 32) with false. cbv iota. by rewrite be_get_put_small by done.
Qed.
Definition range_bytes (r : IPRange) : list Z := As16 r.1 ++ As16 r.2.
Definition cidr_bytes (set : IpCidrSet) : list Z := [1] ++ be64 (zlen set) ++ concat (map range_bytes set).
Lemma codec_range r : range_wf r -> codec (E := E) read_range (range_bytes r) (range_Unmap r).
Proof.
  intros [H1 H2]. unfold range_bytes, range_Unmap. rewrite <- (As16_Unmap r.1), <- (As16_Unmap r.2) by done. assert (Hl : forall a, zlen (As16 a) = 16) by (intros a; unfold As16, zlen; by rewrite length_be_put).
  apply (codec_bind _ _ _ _ (As16 r.1)); [by apply codec_full|]. apply (codec_bind_ret _ (fun b => (addr_Unmap (AddrFrom16 (As16 r.1)), addr_Unmap (AddrFrom16 b)))). by apply codec_full.
Qed.
(** What is read back from the file of an address set: its ranges with both ends
    unmapped; a range of IPv4 addresses mapped into IPv6 comes back as one of IPv4. *)
Lemma codec_cidr maxAlloc fuel set : set <> [] -> Forall range_wf set -> 64 * zlen set <= maxAlloc -> zlen set < 2 ^ 63 -> (length set <= fuel)%nat ->
  codec (E := E) (ReadIpCidrSet maxAlloc fuel) (cidr_bytes set) (map range_Unmap set).
Proof.
  intros H0 Hw Hm Hl Hf. assert (0 < zlen set) by (unfold zlen; destruct set; [done|cbn; lia]). unfold cidr_bytes, ReadIpCidrSet.
  apply (codec_bind _ _ _ _ [1]); [by apply codec_full|]. rewrite bool_decide_eq_true_2 by done. cbn [negb].
  apply (codec_bind _ _ _ _ (zlen set)); [apply codec_i64; lia|]. rewrite (proj2 (Z.ltb_ge _ _)) by lia. apply (codec_pass _ _ _ tt); [by apply codec_make|].
  assert (Hg : forall fuel i acc, (length set <= fuel)%nat -> codec (E := E) (read_loop fuel read_range i (i + zlen set) acc) (concat (map range_bytes set)) (acc ++ map range_Unmap set)).
  { clear -Hw. induction Hw as [|r set Hr _ IH]; intros fuel i acc Hf.
    - change (zlen (@nil IPRange)) with 0. rewrite Z.add_0_r, app_nil_r. destruct fuel; cbn [read_loop]; rewrite Z.ltb_irrefl; apply codec_ret.
    - destruct fuel as [|fuel]; [cbn in Hf; lia|]. unfold zlen in *. cbn [length read_loop map concat] in *. rewrite (proj2 (Z.ltb_lt _ _)) by lia.
      apply (codec_bind _ _ _ _ (range_Unmap r)); [by apply codec_range|]. replace (i + Z.of_nat (S (length set))) with (i + 1 + Z.of_nat (length set)) by lia.
      replace (acc ++ range_Unmap r :: map range_Unmap set) with ((acc ++ [range_Unmap r]) ++ map range_Unmap set) by (by rewrite <- app_assoc). apply IH. lia. }
  by apply (Hg fuel 0 []).
Qed.
End Cidr.

(** ** Running the code *)

(** A coding that changes nothing. *)
#[local] Instance plain_zstd : Zstd := {| zstd_decode := Some; zstd_encode x := x |}.
#[local] Instance plain_zstd_laws : ZstdLaws.
Proof. by constructor. Qed.
#[local] Instance single_ranges : Netipx :=
  {| RangeOfPrefix p := Some (p_addr p, p_addr p); Merged := Some;
     IPSet_Contains set ip := existsb (fun r => bool_decide (r.1 = ip)) set; Range_Prefixes r := [mkPrefix r.1 (a_bits r.1)] |}.
Definition no_yaml (s : string) (p : RulePayload) : bool * RulePayload := (false, p).
Definition file_of (lines : list string) : string := String.concat (String newline "") lines.
Definition demo_lines : list string := ["# hosts"; " +.Example.com "; ""; "*.b.org"; "a/b.org"; "// more"; "www.b.org"; "a..b"; "x.b.org"; ".x.b.org"].
Definition demo_buf : string := file_of demo_lines.

Lemma demo_set_built : Forall plain (file_domains demo_buf) /\ taken (file_domains demo_buf) <> [] /\ (Z.of_nat (String.length demo_buf) < 2 ^ 63) /\
  exists ss, bld_Build (BM := counting) (Some (set_collect (file_domains demo_buf))) = QOk (Some ss, Some []) /\ int32_arrays ss.
Proof.
  split; [vm_compute; repeat constructor|]. split; [vm_compute; discriminate|]. split; [vm_compute; reflexivity|].
  assert (Ev : match bld_Build (BM := counting) (Some (set_collect (file_domains demo_buf))) with
    QOk (Some s, Some []) => Nat.leb (length (labelBitmap s)) 10 && Nat.leb (length (leaves s)) 10 | _ => false end = true) by (vm_compute; reflexivity).
  destruct (bld_Build (BM := counting) (Some (set_collect (file_domains demo_buf)))) as [[[ss|] [[|]|]]| |]; try discriminate Ev.
  exists ss. split; [done|]. apply andb_true_iff in Ev as [E1%Nat.leb_le E2%Nat.leb_le]. unfold int32_arrays. lia.
Qed.

Lemma rule_file_matches_witness :
  Forall plain (file_domains demo_buf) /\ name_ok (RuleHost (set_Host "www.example.com" zeroMetadata)) /\
  exists d, rulesParse (BM := counting) None no_yaml 0 0 demo_buf (newStrategy BhDomain) TextRule = QOk (inr (StDomain d)) /\ dom_count d = 5 /\
    exists n, forall fuel, (n <= fuel)%nat -> dom_Match (BM := counting) fuel d (set_Host "www.example.com" zeroMetadata) = QOk true.
Proof.
  destruct demo_set_built as (Hp & _ & _ & ss & Hb & Hs). assert (Hq : name_ok (RuleHost (set_Host "www.example.com" zeroMetadata))) by (split; [reflexivity|discriminate]).
  split; [exact Hp|]. split; [exact Hq|].
  destruct (@rule_file_matches counting counting_laws single_ranges plain_zstd no_yaml 0 None 0 demo_buf _ Hp Hq) as (d & Ed & Hc & Hd). exists d.
  split; [exact Ed|]. split; [rewrite Hc; vm_compute; reflexivity|].
  assert (Es : dom_set d = Some ss).
  { pose proof (domain_parsed (BM := counting) None no_yaml 0 0 demo_buf (mkDomainStrategy 0 [] None) (Some ss) Hb) as E. change (newStrategy BhDomain) with (StDomain (mkDomainStrategy 0 [] None)) in Ed.
    rewrite Ed in E. exact (f_equal (fun r => match r with QOk (inr (StDomain d)) => dom_set d | _ => None end) E). }
  destruct Hd as (b & [n Hn] & Hiff); [rewrite Es; apply Hs|]. assert (Hb' : b = true).
  { apply Hiff. exists [""; "example"; "com"]. split.
    - exists "+.Example.com", ["+"; "example"; "com"]. split_and!; [vm_compute; left|vm_compute; reflexivity|vm_compute; right; left].
    - vm_compute. tauto. }
  exists n. rewrite Hb' in Hn. exact Hn.
Defined.

Lemma rule_file_roundtrip_witness :
  Forall plain (file_domains demo_buf) /\ taken (file_domains demo_buf) <> [] /\ Z.of_nat (String.length demo_buf) < 2 ^ 63 /\
  exists ss, bld_Build (BM := counting) (Some (set_collect (file_domains demo_buf))) = QOk (Some ss, Some []) /\ int32_arrays ss /\
    exists n, forall fuel, (n <= fuel)%nat -> exists mrs,
      ConvertToMrs (BM := counting) no_yaml (2 ^ 48) (append (E := unit)) fuel demo_buf BhDomain TextRule [] = QOk (inr (inr tt), mrs) /\
      rulesParse (BM := counting) None no_yaml (2 ^ 48) fuel (bytes_str mrs) (newStrategy BhDomain) MrsRule = QOk (inr (StDomain (mkDomainStrategy 5 [] (Some ss)))).
Proof.
  destruct demo_set_built as (Hp & Ht & Hl & ss & Hb & Hs). split; [exact Hp|]. split; [exact Ht|]. split; [exact Hl|]. exists ss. split; [exact Hb|]. split; [exact Hs|].
  destruct (@rule_file_roundtrip counting counting_laws single_ranges plain_zstd plain_zstd_laws no_yaml (2 ^ 48) unit None demo_buf ss Hp Ht Hb Hs Hl) as [n Hn]; [lia|].
  exists n. intros fuel Hf. destruct (Hn fuel Hf) as (_ & mrs & text & H1 & H2 & _). exists mrs. split; [exact H1|]. rewrite H2. do 4 f_equal.
Defined.

(** The text file that the set of the example is converted back to. *)
Example demo_dumped : dumped (file_domains demo_buf) = ["*.b.org"; "+.example.com"; "+.x.b.org"; "www.b.org"].
Proof. vm_compute. reflexivity. Qed.
(** The end of an IPv4 range that is written in IPv6 is another address in the file. *)
Example mapped_ends :
  (a ← ReadIpCidrSet (E := unit) (2 ^ 48) 5 (cidr_bytes [(mkAddr 128 (65535 * 2 ^ 32), mkAddr 128 (65536 * 2 ^ 32))]); mret a) =
  QOk (inr ([(mkAddr 32 0, mkAddr 128 (65536 * 2 ^ 32))], [])).
Proof. vm_compute. reflexivity. Qed.
(** Converting classical rules calls the function that is missing. *)
Example classical_panics :
  ConvertToMrs (BM := counting) no_yaml (2 ^ 48) (append (E := unit)) 5 "DOMAIN,example.com" BhClassical TextRule [] = QPanic.
Proof. vm_compute. reflexivity. Qed.
