(* ===== verification/Socks.v ===== *)
(** * SOCKS ([transport/socks5], [transport/socks4], [listener/socks], [adapter/inbound])

    Addresses of SOCKS5 and its UDP packets; the handshakes of both versions, of the
    server and of the client, as processes that read from and write to a connection;
    and the listener that runs them and makes the metadata of a connection.  Bytes are
    [Z]; slices end where their bytes end. *)
From S2P Require Import Prelude Names GoText Netip Metadata ZList DomainSet.
#[local] Open Scope string_scope.
#[local] Open Scope list_scope.
#[local] Open Scope Z_scope.

(** [b[i]] and [b[lo:hi]]. *)
Definition byte_at (b : list Z) (i : Z) : qres Z := if (0 <=? i) && (i <? zlen b) then index b (Z.to_nat i) else QPanic.
Definition slice (b : list Z) (lo hi : Z) : qres (list Z) := if (0 <=? lo) && (lo <=? hi) && (hi <=? zlen b) then QOk (ztake (hi - lo) (zdrop lo b)) else QPanic.

(** ** Addresses *)

(** @go transport/socks5/socks5.go:28-32 CmdConnect, CmdBind, CmdUDPAssociate *)
Definition CmdConnect : Z := 1.
Definition CmdBind : Z := 2.
Definition CmdUDPAssociate : Z := 3.
(** @go transport/socks5/socks5.go:35-39 AtypIPv4, AtypDomainName, AtypIPv6 *)
Definition SAtypIPv4 : Z := 1.
Definition SAtypDomainName : Z := 3.
Definition SAtypIPv6 : Z := 4.
(** A net.IP: four or sixteen bytes. *)
Definition v4InV6Prefix : list Z := repeat 0 10 ++ [255; 255].
Definition IP_To4 (ip : list Z) : option (list Z) :=
  if zlen ip =? 4 then Some ip
  else if (zlen ip =? 16) && bool_decide (ztake 12 ip = v4InV6Prefix) then Some (zdrop 12 ip) else None.
Definition IP_String (ip : list Z) : string :=
  match AddrFromSlice ip with Some a => addr_String (addr_Unmap a) | None => "?" end.
(** [net.ParseIP]: sixteen bytes. *)
Definition ParseIP (s : string) : option (list Z) :=
  '(a, zone) ← ParseAddrZone s;
  if String.eqb zone "" then Some (if addr_Is4 a then v4InV6Prefix ++ addr_AsSlice a else addr_AsSlice a) else None.

Definition port_at (a : list Z) (i : Z) : qres Z := hi ← byte_at a i; lo ← byte_at a (i + 1); mret (Z.lor (Z.shiftl hi 8) lo).
(** @go transport/socks5/socks5.go:50-67 Addr.String *)
Definition socks_String (a : list Z) : qres string :=
  atyp ← byte_at a 0;
  '(host, port) ← (if atyp =? SAtypDomainName then
      hostLen ← byte_at a 1; host ← slice a 2 (2 + hostLen); port ← port_at a (2 + hostLen); mret (bytes_str host, FormatInt port)
    else if atyp =? SAtypIPv4 then ip ← slice a 1 5; port ← port_at a 5; mret (IP_String ip, FormatInt port)
    else if atyp =? SAtypIPv6 then ip ← slice a 1 17; port ← port_at a 17; mret (IP_String ip, FormatInt port)
    else mret ("", ""));
  mret (JoinHostPort host port).
(** The address and the port, [nil] for a domain name.
    @go transport/socks5/socks5.go:70-86 Addr.UDPAddr *)
Definition socks_UDPAddr (a : list Z) : qres (option (list Z * Z)) :=
  match a with
  | [] => mret None
  | atyp :: _ =>
      if atyp =? SAtypIPv4 then ip ← slice a 1 5; port ← port_at a 5; mret (Some (ip, port))
      else if atyp =? SAtypIPv6 then ip ← slice a 1 17; port ← port_at a 17; mret (Some (ip, port))
      else mret None
  end.
(** @go transport/socks5/socks5.go:351-377 SplitAddr *)
Definition SplitAddr (b : list Z) : option (list Z) :=
  let cut addrLen := if zlen b <? addrLen then None else Some (ztake addrLen b) in
  match b with
  | [] => None
  | atyp :: r =>
      if atyp =? SAtypDomainName then match r with [] => None | len :: _ => cut (1 + 1 + len + 2) end
      else if atyp =? SAtypIPv4 then cut (1 + 4 + 2)
      else if atyp =? SAtypIPv6 then cut (1 + 16 + 2)
      else None
  end.
Definition port_bytes (p : Z) : list Z := [u8 (Z.shiftr p 8); u8 p].
(** @go transport/socks5/socks5.go:380-414 ParseAddr *)
Definition socks_ParseAddr (s : string) : option (list Z) :=
  '(host, port) ← SplitHostPort s;
  addr ← match ParseIP host with
         | Some ip => Some (match IP_To4 ip with Some ip4 => SAtypIPv4 :: ip4 | None => SAtypIPv6 :: ip end)
         | None => if 255 <? Z.of_nat (String.length host) then None else Some (SAtypDomainName :: u8 (Z.of_nat (String.length host)) :: str_bytes host)
         end;
  portnum ← ParseUint port;
  if portnum <? 2 ^ 16 then Some (addr ++ port_bytes portnum) else None.

(** A [net.Addr]: a TCP or UDP address with an IP, or any other, by what [String]
    gives. *)
Inductive NetAddr := AddrNil | AddrIP (ip : list Z) (port : Z) | AddrOther (text : string).
(** [copy] into a new array of [n] bytes. *)
Definition copy_to (n : Z) (b : list Z) : list Z := ztake n (b ++ replicate (Z.to_nat n) 0).
(** @go transport/socks5/socks5.go:418-451 ParseAddrToSocksAddr *)
Definition ParseAddrToSocksAddr (addr : NetAddr) : option (list Z) :=
  match addr with
  | AddrNil => None
  | AddrOther text => socks_ParseAddr text
  | AddrIP ip port =>
      Some (match IP_To4 ip with
            | Some ip4 => SAtypIPv4 :: copy_to 4 ip4 ++ port_bytes (u16 port)
            | None => SAtypIPv6 :: copy_to 16 ip ++ port_bytes (u16 port)
            end)
  end.
(** @go transport/socks5/socks5.go:453-466 AddrFromStdAddrPort *)
Definition AddrFromStdAddrPort (addr : Addr) (port : Z) : list Z :=
  if addr_Is4 addr then SAtypIPv4 :: addr_AsSlice addr ++ port_bytes port
  else SAtypIPv6 :: copy_to 16 (addr_AsSlice addr) ++ port_bytes port.

Inductive UDPErr := UDPShort | UDPReserved | UDPFragment | UDPHeader | UDPAddress.
(** @go transport/socks5/socks5.go:469-493 DecodeUDPPacket *)
Definition DecodeUDPPacket (packet : list Z) : UDPErr + (list Z * list Z) :=
  if zlen packet <? 5 then inl UDPShort
  else if negb (bool_decide (ztake 2 packet = [0; 0])) then inl UDPReserved
  else if negb (bool_decide (ztake 1 (zdrop 2 packet) = [0])) then inl UDPFragment
  else match SplitAddr (zdrop 3 packet) with
       | None => inl UDPHeader
       | Some addr => inr (addr, zdrop (3 + zlen addr) packet)
       end.
(** @go transport/socks5/socks5.go:495-502 EncodeUDPPacket *)
Definition EncodeUDPPacket (addr : option (list Z)) (payload : list Z) : UDPErr + list Z :=
  match addr with None => inl UDPAddress | Some addr => inr ([0; 0; 0] ++ addr ++ payload) end.

(** ** Processes on a connection *)

Inductive SocksErr := ErrIO | ErrAuth | ErrCommandNotSupported | ErrAddressNotSupported | ErrVersion | ErrRejected | ErrNeedAuth
  | ErrShortBuffer | ErrTooLong | ErrIPv6NotSupported | ErrAddress | ErrRequestRejected | ErrRequestIdentdFailed | ErrRequestIdentdMismatched | ErrRequestUnknownCode.

(** A program that reads a number of bytes, writes some, looks at the next byte, and
    returns; the continuation of a read gets [None] when the bytes do not come, that of a
    write whether it was done.  A read of one byte stands for [Read] into one. *)
Inductive proc (R : Type) :=
  | PRet (r : R)
  | PPanic
  | PRead (n : nat) (k : option (list Z) -> proc R)
  | PPeek (k : option Z -> proc R)
  | PWrite (b : list Z) (k : bool -> proc R).
Arguments PRet {R}.
Arguments PPanic {R}.
Arguments PRead {R}.
Arguments PPeek {R}.
Arguments PWrite {R}.
Fixpoint pbind {A B} (f : A -> proc B) (p : proc A) : proc B :=
  match p with
  | PRet x => f x
  | PPanic => PPanic
  | PRead n k => PRead n (fun b => pbind f (k b))
  | PPeek k => PPeek (fun c => pbind f (k c))
  | PWrite b k => PWrite b (fun ok => pbind f (k ok))
  end.

(** What a step of a handshake leaves: an error, or a value. *)
Definition hs (A : Type) : Type := proc (SocksErr + A).
Definition hbind {A B} (m : hs A) (f : A -> hs B) : hs B := pbind (fun r => match r with inl e => PRet (inl e) | inr x => f x end) m.
#[export] Instance hs_ret : MRet hs := fun A x => PRet (inr x).
#[export] Instance hs_bind : MBind hs := fun A B f m => hbind m f.
Definition herr {A} (e : SocksErr) : hs A := PRet (inl e).
Definition ReadN (n : Z) : hs (list Z) := PRead (Z.to_nat n) (fun b => PRet (match b with Some b => inr b | None => inl ErrIO end)).
Definition WriteB (b : list Z) : hs unit := PWrite b (fun ok : bool => PRet (if ok then inr tt else inl ErrIO)).
(** A write whose error is ignored. *)
Definition WriteAny (b : list Z) : hs unit := PWrite b (fun _ => PRet (inr tt)).
Definition ReadOne : hs Z := b ← ReadN 1; mret (nth 0 b 0).

(** ** SOCKS5 *)

(** An address that is returned with an error is not looked at.
    @go transport/socks5/socks5.go:277-304 ReadAddr *)
Definition ReadAddr : hs (list Z) :=
  atyp ← ReadOne;
  if atyp =? SAtypDomainName then
    domainLength ← ReadOne;
    rest ← ReadN (domainLength + 2);
    mret (atyp :: domainLength :: rest)
  else if atyp =? SAtypIPv4 then rest ← ReadN (4 + 2); mret (atyp :: rest)
  else if atyp =? SAtypIPv6 then rest ← ReadN (16 + 2); mret (atyp :: rest)
  else herr ErrAddressNotSupported.
(** The reader need not offer [ReadByte].
    @go transport/socks5/socks5.go:306-337 ReadAddr0 *)
Definition ReadAddr0 : hs (list Z) :=
  aType ← ReadOne;
  if aType =? SAtypDomainName then
    domainLength ← ReadOne;
    rest ← ReadN (domainLength + 2);
    mret (aType :: domainLength :: rest)
  else if aType =? SAtypIPv4 then rest ← ReadN (4 + 2); mret (aType :: rest)
  else if aType =? SAtypIPv6 then rest ← ReadN (16 + 2); mret (aType :: rest)
  else herr ErrAddressNotSupported.

(** [auth.Authenticator], by its [Verify]. *)
Definition Authenticator : Type := string -> string -> bool.
(** @go component/auth/auth.go:45-49 AlwaysValid *)
Definition AlwaysValid : Authenticator := fun _ _ => true.
(** @go component/auth/auth.go:23-26 inMemoryAuthenticator.Verify *)
Definition mem_Verify (storage : gmap string string) : Authenticator := fun user pass => bool_decide (storage !! user = Some pass).
(** A name that comes twice has its last password.
    @go component/auth/auth.go:30-43 NewAuthenticator *)
Definition NewAuthenticator (users : list (string * string)) : option Authenticator :=
  match users with
  | [] => None
  | _ => Some (mem_Verify (fold_left (fun m u => <[u.1 := u.2]> m) users ∅))
  end.

(** The answer to the user name and the password; a name or a password without bytes is
    refused before it is read.
    @go transport/socks5/socks5.go:131-175 ServerHandshake *)
Definition server_auth (authenticator : Authenticator) : hs string :=
  header ← ReadN 2;
  let userLen := nth 1 header 0 in
  if userLen <=? 0 then _ ← WriteAny [1; 1]; herr ErrAuth else
  user ← ReadN userLen;
  passLen ← ReadOne;
  if passLen <=? 0 then _ ← WriteAny [1; 1]; herr ErrAuth else
  pass ← ReadN passLen;
  if negb (authenticator (bytes_str user) (bytes_str pass)) then _ ← WriteAny [1; 1]; herr ErrAuth else
  _ ← WriteB [1; 0];
  mret (bytes_str user).
(** The request and its answer; [localAddr] is the address the connection was accepted
    at.
    @go transport/socks5/socks5.go:182-210 ServerHandshake *)
Definition server_request (localAddr : NetAddr) (user : string) : hs (list Z * Z * string) :=
  request ← ReadN 3;
  addr ← ReadAddr;
  let command := nth 1 request 0 in
  if (command =? CmdConnect) || (command =? CmdUDPAssociate) then
    match ParseAddrToSocksAddr localAddr with
    | None => herr ErrAddressNotSupported
    | Some localAddr => _ ← WriteB ([5; 0; 0] ++ localAddr); mret (addr, command, user)
    end
  else herr ErrCommandNotSupported.
(** The address, the command and the user.
    @go transport/socks5/socks5.go:109-210 ServerHandshake *)
Definition socks5_ServerHandshake (authenticator : option Authenticator) (localAddr : NetAddr) : hs (list Z * Z * string) :=
  head ← ReadN 2;
  let nmethods := nth 1 head 0 in
  methods ← ReadN nmethods;
  let authenticator := match authenticator with
    | None => if (nmethods =? 1) && (nth 0 methods 0 =? 2) then Some AlwaysValid else None
    | Some v => Some v
    end in
  user ← match authenticator with
         | Some v => _ ← WriteB [5; 2]; server_auth v
         | None => _ ← WriteB [5; 0]; mret ""
         end;
  server_request localAddr user.
(** The request, and the address of the answer; its code is not looked at.
    @go transport/socks5/socks5.go:264-274 ClientHandshake *)
Definition client_request (addr : list Z) (command : Z) : hs (list Z) :=
  _ ← WriteB ([5; command; 0] ++ addr);
  _ ← ReadN 3;
  ReadAddr.
(** The lengths of the name and of the password are cut to a byte.
    @go transport/socks5/socks5.go:241-259 ClientHandshake *)
Definition client_auth (name password : string) : hs unit :=
  _ ← WriteB ([1; u8 (Z.of_nat (String.length name))] ++ str_bytes name ++ [u8 (Z.of_nat (String.length password))] ++ str_bytes password);
  answer ← ReadN 2;
  if negb (nth 1 answer 0 =? 0) then herr ErrRejected else mret tt.
(** @go transport/socks5/socks5.go:213-275 ClientHandshake *)
Definition socks5_ClientHandshake (addr : list Z) (command : Z) (user : option (string * string)) : hs (list Z) :=
  _ ← WriteB (match user with Some _ => [5; 1; 2] | None => [5; 1; 0] end);
  head ← ReadN 2;
  if negb (nth 0 head 0 =? 5) then herr ErrVersion else
  _ ← (if nth 1 head 0 =? 2 then
         match user with
         | None => herr ErrAuth
         | Some (name, password) => client_auth name password
         end
       else if negb (nth 1 head 0 =? 0) then herr ErrNeedAuth
       else (mret tt : hs unit));
  client_request addr command.

(** ** SOCKS4 *)

(** @go transport/socks4/socks4.go:27-30 RequestGranted, RequestRejected, RequestIdentdFailed, RequestIdentdMismatched *)
Definition RequestGranted : Z := 90.
Definition RequestRejected : Z := 91.
Definition RequestIdentdFailed : Z := 92.
Definition RequestIdentdMismatched : Z := 93.
(** @go transport/socks4/socks4.go:44-44 subnet *)
Definition socks4_subnet : Prefix := mkPrefix (mkAddr 32 0) 24.
(** @go transport/socks4/socks4.go:179-181 isReservedIP *)
Definition isReservedIP (ip : Addr) : bool := negb (addr_IsUnspecified ip) && prefix_Contains socks4_subnet ip.
(** There is room for that many bytes more.
    @go transport/socks4/socks4.go:183-200 readUntilNull *)
Fixpoint readUntilNull (room : nat) (buf : list Z) : hs (list Z) :=
  ReadOne ≫= fun data =>
  if data =? 0 then mret buf
  else match room with
       | O => herr ErrTooLong
       | S room => readUntilNull room (buf ++ [data])
       end.
(** @go transport/socks4/socks4.go:93-111 ServerHandshake *)
Definition socks4_reply (authenticator : option Authenticator) (addr user : string) (dstPort dstIP : list Z) : hs (string * Z * string) :=
  let granted := match authenticator with None => true | Some v => v user "" end in
  let reply := [0; if granted then RequestGranted else RequestIdentdMismatched] ++ dstPort ++ dstIP in
  if granted then _ ← WriteB reply; mret (addr, CmdConnect, user)
  else _ ← WriteAny reply; herr ErrRequestIdentdMismatched.
(** @go transport/socks4/socks4.go:46-112 ServerHandshake *)
Definition socks4_ServerHandshake (authenticator : option Authenticator) : hs (string * Z * string) :=
  req ← ReadN 8;
  if negb (nth 0 req 0 =? 4) then herr ErrVersion else
  let command := nth 1 req 0 in
  if negb (command =? CmdConnect) then herr ErrCommandNotSupported else
  let dstIP := mkAddr 32 (be_get (take 4 (drop 4 req))) in
  let dstPort := take 2 (drop 2 req) in
  userID ← readUntilNull 256 [];
  let user := bytes_str userID in
  host ← (if isReservedIP dstIP then readUntilNull 256 [] else mret []);
  let port := FormatInt (be_get dstPort) in
  let addr := JoinHostPort (if String.eqb (bytes_str host) "" then addr_String dstIP else bytes_str host) port in
  socks4_reply authenticator addr user dstPort (addr_AsSlice dstIP).
(** @go transport/socks4/socks4.go:154-169 ClientHandshake *)
Definition socks4_answer (resp : list Z) : hs unit :=
  if negb (nth 0 resp 0 =? 0) then herr ErrVersion else
  let code := nth 1 resp 0 in
  if code =? RequestGranted then mret tt
  else if code =? RequestRejected then herr ErrRequestRejected
  else if code =? RequestIdentdFailed then herr ErrRequestIdentdFailed
  else if code =? RequestIdentdMismatched then herr ErrRequestIdentdMismatched
  else herr ErrRequestUnknownCode.
(** @go transport/socks4/socks4.go:114-170 ClientHandshake *)
Definition socks4_ClientHandshake (addr : string) (command : Z) (userID : string) : hs unit :=
  match SplitHostPort addr with
  | None => herr ErrAddress
  | Some (host, portStr) =>
      match ParseUint portStr with
      | None => herr ErrAddress
      | Some port =>
          if negb (port <? 2 ^ 16) then herr ErrAddress else
          let parsed := ParseAddr host in
          let dstIP := match parsed with Some ip => ip | None => mkAddr 32 1 end in
          if addr_Is6 dstIP then herr ErrIPv6NotSupported else
          _ ← WriteB ([4; command] ++ be_put 2 port ++ addr_AsSlice dstIP ++ str_bytes userID ++ [0]
                      ++ (if isReservedIP dstIP then str_bytes host ++ [0] else []));
          resp ← ReadN 8;
          socks4_answer resp
      end
  end.

(** ** Connections that come in *)

(** The lengths are bytes, and so are the sums with them, which wrap around.
    @go adapter/inbound/util.go:14-32 parseSocksAddr *)
Definition parseSocksAddr (target : list Z) : qres Metadata :=
  atyp ← byte_at target 0;
  m ← (if atyp =? SAtypDomainName then
         len ← byte_at target 1;
         let e := u8 (2 + len) in
         host ← slice target 2 e;
         hi ← byte_at target e;
         lo ← byte_at target (u8 (e + 1));
         mret (set_DstPort (u16 (Z.lor (Z.shiftl hi 8) lo)) (set_Host (TrimRightFunc (Ascii.eqb dot) (bytes_str host)) zeroMetadata))
       else if atyp =? SAtypIPv4 then
         ip ← slice target 1 5; port ← port_at target 5;
         mret (set_DstPort (u16 port) (set_DstIP (default zeroAddr (AddrFromSlice ip)) zeroMetadata))
       else if atyp =? SAtypIPv6 then
         ip ← slice target 1 17; port ← port_at target 17;
         mret (set_DstPort (u16 port) (set_DstIP (default zeroAddr (AddrFromSlice ip)) zeroMetadata))
       else mret zeroMetadata);
  mret (set_DstIP (addr_Unmap (md_DstIP m)) m).

(** @go constant/metadata.go:351-372 Metadata.SetRemoteAddress *)
Definition SetRemoteAddress (rawAddress : string) (m : Metadata) : option Metadata :=
  '(host, port) ← SplitHostPort rawAddress;
  let uint16Port := match ParseUint port with Some p => if p <? 2 ^ 16 then p else 0 | None => 0 end in
  Some (set_DstPort uint16Port (match ParseAddr host with
    | None => set_DstIP zeroAddr (set_Host host m)
    | Some ip => set_DstIP (addr_Unmap ip) (set_Host "" m)
    end)).
(** An address with port 0 goes through its text, which gives its IP as well, and clears
    the host; one that wraps another is taken to be the one inside.
    @go constant/metadata.go:323-349 Metadata.SetRemoteAddr *)
Definition SetRemoteAddr (addr : NetAddr) (m : Metadata) : option Metadata :=
  match addr with
  | AddrNil => Some m
  | AddrIP ip port =>
      let m := set_DstPort (u16 port) (set_DstIP (addr_Unmap (default zeroAddr (AddrFromSlice ip))) m) in
      Some (if u16 port =? 0 then set_Host "" m else m)
  | AddrOther text => SetRemoteAddress text m
  end.
(** @go adapter/inbound/addition.go:47-55 WithSrcAddr *)
Definition WithSrcAddr (addr : NetAddr) (metadata : Metadata) : Metadata :=
  match SetRemoteAddr addr zeroMetadata with
  | Some m => set_SrcPort (md_DstPort m) (set_SrcIP (md_DstIP m) metadata)
  | None => metadata
  end.
Definition Addition : Type := Metadata -> Metadata.
(** @go adapter/inbound/addition.go:11-15 ApplyAdditions *)
Definition ApplyAdditions (metadata : Metadata) (additions : list Addition) : Metadata := fold_left (fun m a => a m) additions metadata.
(** The address the connection was accepted at is not kept in [Metadata].
    @go adapter/inbound/socket.go:11-18 NewSocket *)
Definition NewSocket (target : list Z) (remote : NetAddr) (source : Type_) (additions : list Addition) : qres Metadata :=
  metadata ← parseSocksAddr target;
  mret (ApplyAdditions (WithSrcAddr remote (set_Type source (set_NetWork TCP metadata))) additions).
(** @go adapter/inbound/packet.go:9-22 NewPacket *)
Definition NewPacket (target : list Z) (local : NetAddr) (source : Type_) (additions : list Addition) : qres Metadata :=
  metadata ← parseSocksAddr target;
  mret (ApplyAdditions (WithSrcAddr local (set_Type source (set_NetWork UDP metadata))) additions).

(** @go adapter/inbound/util.go:49-63 prefixesContains *)
Definition prefixesContains (prefixes : list Prefix) (addr : Addr) : bool :=
  match prefixes with
  | [] => false
  | _ => addr_IsValid addr && existsb (fun p => prefix_Contains p (addr_Unmap addr)) prefixes
  end.
(** @go adapter/inbound/auth.go:20-26 SkipAuthRemoteAddr *)
Definition SkipAuthRemoteAddr (skipAuthPrefixes : list Prefix) (addr : NetAddr) : bool :=
  match SetRemoteAddr addr zeroMetadata with Some m => prefixesContains skipAuthPrefixes (md_DstIP m) | None => false end.
(** True when the address may connect.
    @go adapter/inbound/ipfilter.go:29-39 IsRemoteAddrDisAllowed *)
Definition IsRemoteAddrDisAllowed (lanAllowedIPs lanDisAllowedIPs : list Prefix) (addr : NetAddr) : bool :=
  match SetRemoteAddr addr zeroMetadata with
  | Some m => addr_IsValid (md_DstIP m) && (prefixesContains lanAllowedIPs (md_DstIP m) && negb (prefixesContains lanDisAllowedIPs (md_DstIP m)))
  | None => false
  end.

(** A listener: whether the lists of addresses apply to it, its authenticator, the
    lists. *)
Record Listener := mkListener { l_default : bool; l_store : option Authenticator; lanAllowedIPs : list Prefix; lanDisAllowedIPs : list Prefix; skipAuthPrefixes : list Prefix }.
(** What becomes of a connection that was accepted: closed, or handled with an
    authenticator.
    @go listener/socks/tcp.go:134-143 NewWithConfig *)
Definition accept_store (l : Listener) (remote : NetAddr) : option (option Authenticator) :=
  if l_default l then
    if negb (IsRemoteAddrDisAllowed (lanAllowedIPs l) (lanDisAllowedIPs l) remote) then None
    else Some (if SkipAuthRemoteAddr (skipAuthPrefixes l) remote then None else l_store l)
  else Some (l_store l).

(** What is done with a connection: closed; kept open for UDP; given to the tunnel; or
    given to the HTTP proxy. *)
Inductive Outcome := OClosed | OAssociate | OTunnel (m : Metadata) | OHTTP.
Definition lift_panic {A R} (q : qres A) (k : A -> proc R) : proc R := match q with QOk x => k x | _ => PPanic end.

Section Handlers.
Variables (local remote : NetAddr) (additions : list Addition).

(** [nil] has no first byte.
    @go listener/socks/tcp.go:169-178 HandleSocks4 *)
Definition HandleSocks4 (authenticator : option Authenticator) : proc Outcome :=
  pbind (fun r => match r with
    | inl _ => PRet OClosed
    | inr (addr, _, user) =>
        lift_panic (NewSocket (default [] (socks_ParseAddr addr)) remote SOCKS4 (additions ++ [set_InUser user])) (fun m => PRet (OTunnel m))
    end) (socks4_ServerHandshake authenticator).
(** @go listener/socks/tcp.go:180-194 HandleSocks5 *)
Definition HandleSocks5 (authenticator : option Authenticator) : proc Outcome :=
  pbind (fun r => match r with
    | inl _ => PRet OClosed
    | inr (target, command, user) =>
        if command =? CmdUDPAssociate then PRet OAssociate
        else lift_panic (NewSocket target remote SOCKS5 (additions ++ [set_InUser user])) (fun m => PRet (OTunnel m))
    end) (socks5_ServerHandshake authenticator local).
(** @go listener/socks/tcp.go:151-167 handleSocks *)
Definition handleSocks (authenticator : option Authenticator) : proc Outcome :=
  PPeek (fun head => match head with
    | None => PRet OClosed
    | Some v => if v =? 4 then HandleSocks4 authenticator else if v =? 5 then HandleSocks5 authenticator else PRet OClosed
    end).
(** @go listener/mixed/mixed.go:148-164 handleConn *)
Definition handleConn (authenticator : option Authenticator) : proc Outcome :=
  PPeek (fun head => match head with
    | None => PRet OClosed
    | Some v => if v =? 4 then HandleSocks4 authenticator else if v =? 5 then HandleSocks5 authenticator else PRet OHTTP
    end).
(** A connection to a listener, [mixed] or for SOCKS alone.
    @go listener/socks/tcp.go:127-144 NewWithConfig *)
Definition serve (mixed : bool) (l : Listener) : proc Outcome :=
  match accept_store l remote with
  | None => PRet OClosed
  | Some authenticator => if mixed then handleConn authenticator else handleSocks authenticator
  end.
(** The metadata and the payload that are given to the tunnel; [None] drops the packet.
    @go listener/socks/udp.go:82-98 handleSocksUDP *)
Definition handleSocksUDP (buf : list Z) : qres (option (Metadata * list Z)) :=
  match DecodeUDPPacket buf with
  | inl _ => mret None
  | inr (target, payload) => m ← NewPacket target remote SOCKS5 additions; mret (Some (m, payload))
  end.
End Handlers.
