(* ===== verification/SocksNet.v ===== *)
(** * Two processes on a connection

    The steps of one process on the bytes that have come in, those of two processes
    that write to each other, and what every order of their steps has in common. *)
From S2P Require Import Prelude Names GoText Netip Metadata ZList DomainSet Socks.
#[local] Open Scope list_scope.
#[local] Open Scope nat_scope.

(** ** One process *)

Definition ended {R} (p : proc R) : bool := match p with PRet _ | PPanic => true | _ => false end.

(** A step with the bytes [inp] that have come in, and what it writes.  A read waits
    for its bytes, unless the other end is gone. *)
Inductive pstep {R} (gone : bool) : proc R -> list Z -> proc R -> list Z -> list Z -> Prop :=
  | step_read n k b inp : length b = n -> pstep gone (PRead n k) (b ++ inp) (k (Some b)) inp []
  | step_read_end n k inp : gone = true -> length inp < n -> pstep gone (PRead n k) inp (k None) inp []
  | step_peek k c inp : pstep gone (PPeek k) (c :: inp) (k (Some c)) (c :: inp) []
  | step_peek_end k : gone = true -> pstep gone (PPeek k) [] (k None) [] []
  | step_write b k inp : pstep gone (PWrite b k) inp (k true) inp b.

Lemma pstep_det {R} gone (p p1 p2 : proc R) inp i1 i2 o1 o2 :
  pstep gone p inp p1 i1 o1 -> pstep gone p inp p2 i2 o2 -> p1 = p2 /\ i1 = i2 /\ o1 = o2.
Proof.
  intros H1 H2. destruct H1; inversion H2; subst; try done; try (rewrite length_app in *; lia).
  assert (Hb : length b0 = length b) by congruence. match goal with E : _ ++ _ = _ ++ _ |- _ => apply app_inj_1 in E as [-> ->]; done end.
Qed.
Lemma pstep_more {R} gone (p p' : proc R) inp inp' out more :
  pstep false p inp p' inp' out -> pstep gone p (inp ++ more) p' (inp' ++ more) out.
Proof. intros H. destruct H; try done; rewrite <- ?app_assoc; cbn [app]; by constructor. Qed.
Lemma pstep_ended {R} gone (p p' : proc R) inp inp' out : pstep gone p inp p' inp' out -> ended p = false.
Proof. by destruct 1. Qed.

(** ** Two processes *)

Record net (A B : Type) := mkNet { n_client : proc A; n_server : proc B; to_server : list Z; to_client : list Z }.
Arguments mkNet {A B}.
Arguments n_client {A B}.
Arguments n_server {A B}.
Arguments to_server {A B}.
Arguments to_client {A B}.

Section Net.
Context {A B : Type}.

Inductive net_step : net A B -> net A B -> Prop :=
  | client_step p p' q i i' j out : pstep (ended q) p i p' i' out -> net_step (mkNet p q j i) (mkNet p' q (j ++ out) i')
  | server_step p q q' i j j' out : pstep (ended p) q j q' j' out -> net_step (mkNet p q j i) (mkNet p q' j' (i ++ out)).
Definition stuck (c : net A B) : Prop := forall c', ~ net_step c c'.

Lemma net_diamond c c1 c2 : net_step c c1 -> net_step c c2 -> c1 = c2 \/ exists d, net_step c1 d /\ net_step c2 d.
Proof.
  intros H1 H2. destruct H1 as [p p' q i i' j out H1|p q q' i j j' out H1]; inversion H2 as [? p2 ? ? i2 ? out2 H3|? ? q2 ? ? j2 out2 H3]; subst.
  - left. destruct (pstep_det _ _ _ _ _ _ _ _ _ H1 H3) as (-> & -> & ->). done.
  - right. rewrite (pstep_ended _ _ _ _ _ _ H1) in H3. rewrite (pstep_ended _ _ _ _ _ _ H3) in H1.
    eexists. split; [apply server_step, pstep_more, H3|apply client_step, pstep_more, H1].
  - right. rewrite (pstep_ended _ _ _ _ _ _ H1) in H3. rewrite (pstep_ended _ _ _ _ _ _ H3) in H1.
    eexists. split; [apply client_step, pstep_more, H3|apply server_step, pstep_more, H1].
  - left. destruct (pstep_det _ _ _ _ _ _ _ _ _ H1 H3) as (-> & -> & ->). done.
Qed.

(** One run to the end decides every other. *)
Lemma net_one n : forall c f, nsteps net_step n c f -> stuck f -> forall c', net_step c c' -> exists m, n = S m /\ nsteps net_step m c' f.
Proof.
  induction n as [|n IH]; intros c f Hn Hf c' Hc.
  - inversion Hn; subst. by destruct (Hf c').
  - inversion Hn as [|? ? c1 ? H1 Hn1]; subst. exists n. split; [done|]. destruct (net_diamond _ _ _ H1 Hc) as [->|(d & D1 & D2)]; [done|].
    destruct (IH _ _ Hn1 Hf _ D1) as (m & -> & Hm). econstructor; [exact D2|exact Hm].
Qed.
Lemma net_all n c f : nsteps net_step n c f -> stuck f -> forall k c', nsteps net_step k c c' -> k <= n /\ nsteps net_step (n - k) c' f.
Proof.
  intros Hn Hf k c' Hk. revert n Hn. induction Hk as [c|k c c1 c' H1 _ IH]; intros n Hn; [split; [lia|by rewrite Nat.sub_0_r]|].
  destruct (net_one n c f Hn Hf _ H1) as (m & -> & Hm). destruct (IH m Hm) as [? ?]. split; [lia|]. done.
Qed.
Lemma net_final n c f : nsteps net_step n c f -> stuck f -> forall k c', nsteps net_step k c c' -> k <= n /\ (stuck c' -> c' = f).
Proof.
  intros Hn Hf k c' Hk. destruct (net_all n c f Hn Hf k c' Hk) as [H1 H2]. split; [done|]. intros Hs. inversion H2 as [|? ? c1 ? H3]; [done|]. by destruct (Hs c1).
Qed.
Lemma stuck_done r s i j : stuck (mkNet (PRet r) (PRet s) i j).
Proof. intros c' H. inversion H as [? ? ? ? ? ? ? H'|? ? ? ? ? ? ? H']; inversion H'. Qed.

(** ** Runs to the end *)

Definition runs_to (n : net A B) (Q : net A B -> Prop) : Prop := exists c, rtc net_step n c /\ Q c /\ stuck c.
Lemma runs_step n n' (Q : net A B -> Prop) : net_step n n' -> runs_to n' Q -> runs_to n Q.
Proof. intros H (c & Hc & HQ). exists c. split; [|done]. by eapply rtc_l. Qed.
Lemma runs_done r s i j (Q : net A B -> Prop) : Q (mkNet (PRet r) (PRet s) i j) -> runs_to (mkNet (PRet r) (PRet s) i j) Q.
Proof. intros HQ. eexists. split; [apply rtc_refl|]. split; [done|apply stuck_done]. Qed.
Lemma client_writes b k q i j Q : runs_to (mkNet (k true) q (j ++ b) i) Q -> runs_to (mkNet (PWrite b k) q j i) Q.
Proof. apply runs_step. by apply client_step, step_write. Qed.
Lemma server_writes b k p i j Q : runs_to (mkNet p (k true) j (i ++ b)) Q -> runs_to (mkNet p (PWrite b k) j i) Q.
Proof. apply runs_step. by apply server_step, step_write. Qed.
Lemma client_reads n b k q i j Q : length b = n -> runs_to (mkNet (k (Some b)) q j i) Q -> runs_to (mkNet (PRead n k) q j (b ++ i)) Q.
Proof. intros Hb. apply runs_step. rewrite <- (app_nil_r j) at 2. by apply client_step, step_read. Qed.
Lemma server_reads n b k p i j Q : length b = n -> runs_to (mkNet p (k (Some b)) j i) Q -> runs_to (mkNet p (PRead n k) (b ++ j) i) Q.
Proof. intros Hb. apply runs_step. rewrite <- (app_nil_r i) at 2. by apply server_step, step_read. Qed.
Lemma client_misses n k r i j Q : length i < n -> runs_to (mkNet (k None) (PRet r) j i) Q -> runs_to (mkNet (PRead n k) (PRet r) j i) Q.
Proof. intros Hb. apply runs_step. rewrite <- (app_nil_r j) at 2. by apply client_step, step_read_end. Qed.
Lemma server_misses n k r i j Q : length j < n -> runs_to (mkNet (PRet r) (k None) j i) Q -> runs_to (mkNet (PRet r) (PRead n k) j i) Q.
Proof. intros Hb. apply runs_step. rewrite <- (app_nil_r i) at 2. by apply server_step, step_read_end. Qed.

(** Every order of steps ends, after as many steps, the way one does. *)
Lemma runs_all n Q : runs_to n Q -> exists m, forall k c, nsteps net_step k n c -> k <= m /\ (stuck c -> Q c).
Proof.
  intros (f & Hr & HQ & Hs). apply rtc_nsteps_1 in Hr as [m Hm]. exists m. intros k c Hk. destruct (net_final m n f Hm Hs k c Hk) as [H1 H2].
  split; [done|]. intros Hc. by rewrite (H2 Hc).
Qed.
End Net.

(** A server whose answer is turned into another: the runs are the same. *)
Section Map.
Context {A B C : Type} (g : B -> proc C) (Hg : forall b, ended (g b) = true).

Lemma ended_pbind q : ended (pbind g q) = ended q.
Proof. destruct q; cbn; auto. Qed.
Lemma pstep_pbind gone q j q' j' out : pstep gone q j q' j' out -> pstep gone (pbind g q) j (pbind g q') j' out.
Proof. destruct 1; cbn [pbind]; try done; [by apply (step_read gone n (fun b => pbind g (k b)))|by apply (step_read_end gone n (fun b => pbind g (k b)))|apply (step_peek gone (fun c => pbind g (k c)))
  |by apply (step_peek_end gone (fun c => pbind g (k c)))|apply (step_write gone b (fun ok => pbind g (k ok)))]. Qed.
Definition net_answer (n : net A B) : net A C := mkNet (n_client n) (pbind g (n_server n)) (to_server n) (to_client n).
Lemma step_net_answer n n' : net_step n n' -> net_step (net_answer n) (net_answer n').
Proof.
  destruct 1; unfold net_answer; cbn [n_client n_server to_server to_client]; [apply client_step; by rewrite ended_pbind|by apply server_step, pstep_pbind].
Qed.
Lemma stuck_ended (c : net A C) : ended (n_client c) = true -> ended (n_server c) = true -> stuck c.
Proof. intros H1 H2 c' H. destruct H as [? ? ? ? ? ? ? H'|? ? ? ? ? ? ? H']; apply pstep_ended in H'; cbn in *; congruence. Qed.
Lemma runs_net_answer n Q Q' : runs_to n Q ->
  (forall r s i j, Q (mkNet (PRet r) (PRet s) i j) -> Q' (mkNet (PRet r) (g s) i j)) ->
  (forall c, Q c -> exists r s, n_client c = PRet r /\ n_server c = PRet s) -> runs_to (net_answer n) Q'.
Proof.
  intros (c & Hc & HQ & Hs) H1 H2. destruct (H2 _ HQ) as (r & s & Er & Es). destruct c as [p q i j]. cbn in Er, Es. subst.
  exists (net_answer (mkNet (PRet r) (PRet s) i j)). split; [|split; [by apply H1|by apply stuck_ended; cbn]].
  clear -Hc Hg. induction Hc as [|n n1 c H _ IH]; [apply rtc_refl|]. eapply rtc_l; [|exact IH]. by apply step_net_answer.
Qed.
End Map.
