(* ===== verification/SocksProps.v ===== *)
(** * What SOCKS promises

    Addresses and UDP packets go back and forth; the two ends of a SOCKS5 handshake agree
    in every order of their steps; no connection reaches the tunnel without the
    password that was asked for. *)
From S2P Require Import Prelude Names GoText Netip Metadata ZList DomainSet DomainSetSpec DomainMapSpec Socks SocksNet.
#[local] Open Scope string_scope.
#[local] Open Scope list_scope.
#[local] Open Scope Z_scope.

(** ** Addresses *)

(** An address as the protocol has it, and no more. *)
Inductive socks_addr : list Z -> Prop :=
  | addr_v4 ip port : length ip = 4%nat -> length port = 2%nat -> socks_addr (SAtypIPv4 :: ip ++ port)
  | addr_domain name port : (length name <= 255)%nat -> length port = 2%nat -> socks_addr (SAtypDomainName :: zlen name :: name ++ port)
  | addr_v6 ip port : length ip = 16%nat -> length port = 2%nat -> socks_addr (SAtypIPv6 :: ip ++ port).

Lemma SplitAddr_addr a rest : socks_addr a -> SplitAddr (a ++ rest) = Some a.
Proof.
  assert (Hc : forall n, n = zlen a -> (if zlen (a ++ rest) <? n then None else Some (ztake n (a ++ rest))) = Some a).
  { intros n ->. unfold zlen, ztake. rewrite length_app, (proj2 (Z.ltb_ge _ _)) by lia. by rewrite Nat2Z.id, take_app_length. }
  intros H. destruct H as [ip port H1 H2|name port H1 H2|ip port H1 H2]; apply Hc; unfold zlen; cbn [length]; rewrite ?length_app; cbn [length]; rewrite ?length_app; lia.
Qed.
Lemma SplitAddr_some b a : Forall byte b -> SplitAddr b = Some a -> socks_addr a /\ exists rest, b = a ++ rest.
Proof.
  intros Hb E. assert (Hr : exists rest, b = a ++ rest).
  { unfold SplitAddr in E. destruct b as [|t r]; [done|]. exists (drop (length a) (t :: r)).
    assert (Hc : forall n, (if zlen (t :: r) <? n then None else Some (ztake n (t :: r))) = Some a -> t :: r = a ++ drop (length a) (t :: r)).
    { intros n. destruct (Z.ltb_spec (zlen (t :: r)) n); [done|]. intros [= <-]. unfold ztake, zlen in *. rewrite length_take, Nat.min_l by lia. by rewrite take_drop. }
    destruct (t =? SAtypDomainName); [destruct r as [|l r]; [done|by apply (Hc (1 + 1 + l + 2))]|].
    destruct (t =? SAtypIPv4); [by apply (Hc (1 + 4 + 2))|]. destruct (t =? SAtypIPv6); [by apply (Hc (1 + 16 + 2))|done]. }
  split; [|done]. unfold SplitAddr in E. destruct b as [|t r]; [done|]. inversion_clear Hb as [|? ? Ht Hb'].
  assert (Hc : forall n, 0 <= n -> (if zlen (t :: r) <? n then None else Some (ztake n (t :: r))) = Some a -> a = take (Z.to_nat n) (t :: r) /\ (Z.to_nat n <= S (length r))%nat).
  { intros n Hn. unfold zlen, ztake. cbn [length]. destruct (Z.ltb_spec (Z.of_nat (S (length r))) n); [done|]. intros [= <-]. split; [done|lia]. }
  assert (Hs : forall k (l : list Z), (k + 2 <= length l)%nat -> exists x p, take (k + 2) l = x ++ p /\ length x = k /\ length p = 2%nat).
  { intros k l Hl. exists (take k l), (take 2 (drop k l)). rewrite !length_take, length_drop. split_and!; [|lia..].
    by rewrite <- (take_drop k (take (k + 2) l)), take_take, Nat.min_l, skipn_firstn_comm by lia; replace (k + 2 - k)%nat with 2%nat by lia. }
  destruct (Z.eqb_spec t SAtypDomainName) as [->|_].
  - destruct r as [|l r]; [done|]. inversion_clear Hb' as [|? ? Hl _]. unfold byte in Hl. destruct (Hc (1 + 1 + l + 2) ltac:(lia) E) as [-> Hlen]. cbn [length] in Hlen.
    replace (Z.to_nat (1 + 1 + l + 2)) with (S (S (Z.to_nat l + 2))) by lia. cbn [take]. destruct (Hs (Z.to_nat l) r) as (x & p & -> & Hx & Hp); [lia|].
    replace l with (zlen x) at 1 by (unfold zlen; lia). apply addr_domain; lia.
  - destruct (Z.eqb_spec t SAtypIPv4) as [->|_]; [|destruct (Z.eqb_spec t SAtypIPv6) as [->|_]; [|done]].
    + destruct (Hc (1 + 4 + 2) ltac:(lia) E) as [-> Hlen]. change (Z.to_nat (1 + 4 + 2)) with (S (4 + 2))%nat in *. cbn [take]. destruct (Hs 4%nat r) as (x & p & -> & Hx & Hp); [lia|]. by apply addr_v4.
    + destruct (Hc (1 + 16 + 2) ltac:(lia) E) as [-> Hlen]. change (Z.to_nat (1 + 16 + 2)) with (S (16 + 2))%nat in *. cbn [take]. destruct (Hs 16%nat r) as (x & p & -> & Hx & Hp); [lia|]. by apply addr_v6.
Qed.

Lemma UDPPacket_roundtrip a payload : socks_addr a -> exists packet, EncodeUDPPacket (Some a) payload = inr packet /\ DecodeUDPPacket packet = inr (a, payload).
Proof.
  intros Ha. eexists. split; [done|]. unfold DecodeUDPPacket.
  assert (Hl : (5 <= length ([0; 0; 0]%Z ++ a ++ payload))%nat) by (rewrite !length_app; destruct Ha; cbn [length]; rewrite ?length_app; lia).
  rewrite (proj2 (Z.ltb_ge _ _)) by (unfold zlen; lia). cbn [app]. change (ztake 2 (0 :: 0 :: 0 :: a ++ payload)) with [0; 0]. rewrite bool_decide_eq_true_2 by done.
  change (zdrop 2 (0 :: 0 :: 0 :: a ++ payload)) with (0 :: a ++ payload). change (ztake 1 (0 :: a ++ payload)) with [0]. rewrite bool_decide_eq_true_2 by done. cbn [negb].
  change (zdrop 3 (0 :: 0 :: 0 :: a ++ payload)) with (a ++ payload). rewrite SplitAddr_addr by done. do 2 f_equal.
  unfold zdrop, zlen. replace (Z.to_nat (3 + Z.of_nat (length a))) with (S (S (S (length a)))) by lia. cbn [drop]. by rewrite drop_app_length.
Qed.

Lemma length_To4 ip ip4 : IP_To4 ip = Some ip4 -> length ip4 = 4%nat.
Proof.
  unfold IP_To4, zlen, zdrop. destruct (Z.eqb_spec (Z.of_nat (length ip)) 4) as [E|_]; [intros [= <-]; lia|]. destruct (Z.eqb_spec (Z.of_nat (length ip)) 16) as [E|_]; [|done].
  cbn [andb]. destruct (bool_decide _); [|done]. intros [= <-]. rewrite length_drop. lia.
Qed.
Lemma ParseAddrZone_bits s a z : ParseAddrZone s = Some (a, z) -> a_bits a = 32 \/ a_bits a = 128.
Proof.
  unfold ParseAddrZone. destruct (addr_kind s) as [c|]; [|done].
  assert (H4 : (a ← parseIPv4 s; Some (a, "")) = Some (a, z) -> a_bits a = 32) by (unfold parseIPv4; destruct (parseIPv4Fields s); cbn; [by intros [= <- _]|done]).
  assert (H6 : parseIPv6 s = Some (a, z) -> a_bits a = 128).
  { unfold parseIPv6. destruct (match cut_at _ _ with Some _ => _ | None => _ end) as [[x y]|]; [|done]. intros H. destruct (match x with EmptyString => _ | String _ _ => _ end); [|done]. by injection H as <- _. }
  destruct c as [[] [] [] [] [] [] [] []]; try done; auto.
Qed.
Lemma ParseIP_length s ip : ParseIP s = Some ip -> length ip = 16%nat.
Proof.
  unfold ParseIP. destruct (ParseAddrZone s) as [[a z]|] eqn:E; [|done]. cbn [mbind option_bind]. apply ParseAddrZone_bits in E. destruct (String.eqb z ""); [|done]. intros [= <-].
  unfold addr_Is4, addr_AsSlice. destruct E as [->| ->].
  - done.
  - change (128 =? 32) with false. cbv iota. by rewrite length_be_put.
Qed.
Lemma length_copy_to n b : length (copy_to n b) = Z.to_nat n.
Proof. unfold copy_to, ztake. rewrite length_take, length_app, length_replicate. lia. Qed.
Lemma length_str_bytes s : length (str_bytes s) = String.length s.
Proof. unfold str_bytes. rewrite length_map. induction s as [|c s IH]; [done|]. cbn. by rewrite IH. Qed.
Lemma ParseAddr_addr s a : socks_ParseAddr s = Some a -> socks_addr a.
Proof.
  unfold socks_ParseAddr. destruct (SplitHostPort s) as [[host port]|]; [|done]. cbn [mbind option_bind]. destruct (ParseIP host) as [ip|] eqn:Ei.
  - cbn [mbind option_bind]. destruct (ParseUint port) as [n|]; [|done]. cbn [mbind option_bind]. destruct (n <? 2 ^ 16); [|done]. intros [= <-]. destruct (IP_To4 ip) as [ip4|] eqn:E4.
    + apply addr_v4; [by eapply length_To4|done].
    + apply addr_v6; [by eapply ParseIP_length|done].
  - destruct (Z.ltb_spec 255 (Z.of_nat (String.length host))) as [|Hh]; [done|]. cbn [mbind option_bind]. destruct (ParseUint port) as [n|]; [|done]. cbn [mbind option_bind].
    destruct (n <? 2 ^ 16); [|done]. intros [= <-]. cbn [app]. replace (u8 (Z.of_nat (String.length host))) with (zlen (str_bytes host)).
    + apply addr_domain; [rewrite length_str_bytes; lia|done].
    + unfold zlen. rewrite length_str_bytes. unfold u8. rewrite Z.mod_small; lia.
Qed.
Lemma local_addr local a : ParseAddrToSocksAddr local = Some a -> socks_addr a.
Proof.
  destruct local as [|ip port|text]; [done| |apply ParseAddr_addr]. cbn [ParseAddrToSocksAddr]. intros [= <-]. destruct (IP_To4 ip); [apply addr_v4|apply addr_v6]; try apply length_copy_to; done.
Qed.

(** ** The two ends of a handshake *)

Section Net.
Context {A B : Type}.

(** Reading an address, at either end. *)
Ltac reads_addr reads Ha H :=
  unfold ReadAddr, ReadOne; cbn [mbind hs_bind hbind pbind ReadN mret hs_ret]; change (Z.to_nat 1) with 1%nat;
  destruct Ha as [ip port H1 H2|name port H1 H2|ip port H1 H2]; cbn [app]; apply (reads 1%nat [_]); try done; cbn -[Z.add];
  try (apply (reads 1%nat [_]); [done|]; cbn -[Z.add]); apply reads; (exact H || (rewrite length_app; unfold zlen; lia)).
Lemma client_reads_addr (q : proc B) a i j Q : socks_addr a ->
  runs_to (mkNet (PRet (inr a)) q j i) Q -> runs_to (mkNet (ReadAddr : proc (SocksErr + list Z)) q j (a ++ i)) Q.
Proof. intros Ha H. reads_addr (@client_reads (SocksErr + list Z) B) Ha H. Qed.
Lemma server_reads_addr (f : SocksErr + list Z -> proc B) (p : proc A) a i j Q : socks_addr a ->
  runs_to (mkNet p (f (inr a)) j i) Q -> runs_to (mkNet p (pbind f ReadAddr) (a ++ j) i) Q.
Proof. intros Ha H. reads_addr (@server_reads A B) Ha H. Qed.
End Net.

(** The commands that are answered. *)
Definition served (command : Z) : bool := (command =? CmdConnect) || (command =? CmdUDPAssociate).
(** The user that both ends agree on, if they do. *)
Definition agreed (authenticator : option Authenticator) (user : option (string * string)) : option string :=
  match authenticator, user with
  | None, None => Some ""
  | Some _, None => None
  | _, Some (name, password) =>
      if String.eqb name "" || String.eqb password "" then None
      else if default AlwaysValid authenticator name password then Some name else None
  end.

Section Handshake.
Variables (localAddr : NetAddr) (addr : list Z) (command : Z).
Hypothesis Haddr : socks_addr addr.

Abbreviation hs_net := (net (SocksErr + list Z) (SocksErr + list Z * Z * string)).
(** Both ends have returned: with errors, or with what the other one sent. *)
Definition both_fail (c : hs_net) : Prop := exists e e', n_client c = PRet (inl e) /\ n_server c = PRet (inl e').
Definition both_agree (u : option string) (c : hs_net) : Prop :=
  match u, served command, ParseAddrToSocksAddr localAddr with
  | Some u, true, Some l => n_client c = PRet (inr l) /\ n_server c = PRet (inr (addr, command, u))
  | _, _, _ => both_fail c
  end.

Ltac hs_simpl := cbn [mbind hs_bind hbind pbind WriteB WriteAny ReadN ReadOne mret hs_ret herr nth negb app].
Ltac failed := apply runs_done; eexists _, _; split; reflexivity.

Lemma request_run u : runs_to (mkNet (client_request addr command) (server_request localAddr u) [] [] : hs_net) (both_agree (Some u)).
Proof.
  unfold client_request, server_request. hs_simpl. apply client_writes. hs_simpl. apply (server_reads _ [5; command; 0]); [done|]. hs_simpl.
  rewrite <- (app_nil_r addr) at 1. apply server_reads_addr; [done|]. fold (served command). unfold both_agree.
  destruct (served command); [destruct (ParseAddrToSocksAddr localAddr) as [l|] eqn:El|]; hs_simpl.
  - apply server_writes. hs_simpl. apply (client_reads _ [5; 0; 0]); [done|]. hs_simpl. rewrite <- (app_nil_r l) at 1.
    apply client_reads_addr; [by eapply local_addr|]. by apply runs_done.
  - apply client_misses; [cbn; lia|]. hs_simpl. failed.
  - apply client_misses; [cbn; lia|]. hs_simpl. destruct (ParseAddrToSocksAddr localAddr); failed.
Qed.

(** The rest of the handshake, behind the authentication. *)
Definition client_rest (r : SocksErr + unit) : proc (SocksErr + list Z) := match r with inl e => PRet (inl e) | inr _ => client_request addr command end.
Definition server_rest (r : SocksErr + string) : proc (SocksErr + list Z * Z * string) := match r with inl e => PRet (inl e) | inr u => server_request localAddr u end.
Lemma u8_length s : (String.length s <= 255)%nat -> u8 (Z.of_nat (String.length s)) = Z.of_nat (String.length s).
Proof. intros H. unfold u8. rewrite Z.mod_small; lia. Qed.
Lemma length_zero_string s : (Z.of_nat (String.length s) <=? 0) = String.eqb s "".
Proof. destruct s; [done|]. cbn [String.length]. apply Z.leb_gt. lia. Qed.
Lemma auth_run v name password : (String.length name <= 255)%nat -> (String.length password <= 255)%nat ->
  runs_to (mkNet (pbind client_rest (client_auth name password)) (pbind server_rest (server_auth v)) [] []) (both_agree (agreed (Some v) (Some (name, password)))).
Proof.
  intros Hn Hp. unfold client_auth, server_auth, agreed. rewrite !u8_length by done. change (default AlwaysValid (Some v)) with v.
  hs_simpl. apply client_writes. hs_simpl. apply (server_reads _ [1; Z.of_nat (String.length name)]); [done|]. hs_simpl. rewrite length_zero_string.
  destruct (String.eqb name ""); cbn [orb]; hs_simpl.
  { apply server_writes. hs_simpl. apply (client_reads _ [1; 1]); [done|]. hs_simpl. failed. }
  apply server_reads; [rewrite length_str_bytes; lia|]. hs_simpl. apply (server_reads _ [Z.of_nat (String.length password)]); [done|]. hs_simpl. rewrite length_zero_string.
  destruct (String.eqb password ""); hs_simpl.
  { apply server_writes. hs_simpl. apply (client_reads _ [1; 1]); [done|]. hs_simpl. failed. }
  rewrite <- (app_nil_r (str_bytes password)) at 1. apply server_reads; [rewrite length_str_bytes; lia|]. hs_simpl. rewrite !bytes_str_bytes.
  destruct (v name password); hs_simpl; apply server_writes; hs_simpl.
  - apply (client_reads _ [1; 0]); [done|]. hs_simpl. change (negb (0 =? 0)) with false. hs_simpl. apply request_run.
  - apply (client_reads _ [1; 1]); [done|]. hs_simpl. failed.
Qed.
Lemma handshake_run authenticator user :
  match user with Some (name, password) => (String.length name <= 255)%nat /\ (String.length password <= 255)%nat | None => True end ->
  runs_to (mkNet (socks5_ClientHandshake addr command user) (socks5_ServerHandshake authenticator localAddr) [] []) (both_agree (agreed authenticator user)).
Proof.
  intros Hu. unfold socks5_ClientHandshake, socks5_ServerHandshake. hs_simpl. destruct user as [[name password]|].
  - destruct Hu as [Hn Hp]. apply client_writes. hs_simpl. apply (server_reads _ [5; 1]); [done|]. hs_simpl. apply (server_reads _ [2]); [done|]. hs_simpl.
    assert (Hr : forall v, runs_to (mkNet (pbind client_rest (client_auth name password)) (pbind server_rest (server_auth v)) [] []) (both_agree (agreed (Some v) (Some (name, password))))) by (intros v; by apply auth_run).
    destruct authenticator as [v|]; hs_simpl; apply server_writes; hs_simpl; apply (client_reads _ [5; 2]); try done; hs_simpl; apply Hr.
  - apply client_writes. hs_simpl. apply (server_reads _ [5; 1]); [done|]. hs_simpl. apply (server_reads _ [0]); [done|]. hs_simpl. destruct authenticator as [v|]; hs_simpl; apply server_writes; hs_simpl.
    + apply (client_reads _ [5; 2]); [done|]. hs_simpl. apply server_misses; [cbn; lia|]. hs_simpl. failed.
    + apply (client_reads _ [5; 0]); [done|]. hs_simpl. apply request_run.
Qed.
End Handshake.

(** ** The metadata of a connection *)

(** What an address says: a host or an IP address, and a port.  A name takes 252 bytes
    at most. *)
Inductive names_target : list Z -> string -> Addr -> Z -> Prop :=
  | target_v4 ip hi lo : length ip = 4%nat -> names_target (SAtypIPv4 :: ip ++ [hi; lo]) "" (mkAddr 32 (be_get ip)) (u16 (Z.lor (Z.shiftl hi 8) lo))
  | target_v6 ip hi lo : length ip = 16%nat -> names_target (SAtypIPv6 :: ip ++ [hi; lo]) "" (addr_Unmap (mkAddr 128 (be_get ip))) (u16 (Z.lor (Z.shiftl hi 8) lo))
  | target_name name hi lo : (length name <= 252)%nat ->
      names_target (SAtypDomainName :: zlen name :: name ++ [hi; lo]) (TrimRightFunc (Ascii.eqb dot) (bytes_str name)) zeroAddr (u16 (Z.lor (Z.shiftl hi 8) lo)).
Lemma names_target_addr a host ip port : names_target a host ip port -> socks_addr a.
Proof. destruct 1; constructor; (done || lia). Qed.

Lemma socks_byte_at b i x : b !! Z.to_nat i = Some x -> 0 <= i -> byte_at b i = QOk x.
Proof. intros H Hi. unfold byte_at, index. apply lookup_lt_Some in H as Hl. unfold zlen. rewrite (proj2 (Z.leb_le _ _)), (proj2 (Z.ltb_lt _ _)), H by lia. done. Qed.
Lemma byte_at_0 t l : byte_at (t :: l) 0 = QOk t.
Proof. by apply socks_byte_at. Qed.
Lemma byte_at_1 t u l : byte_at (t :: u :: l) 1 = QOk u.
Proof. by apply socks_byte_at. Qed.
Lemma slice_mid (a b c : list Z) lo hi : lo = zlen a -> hi = zlen a + zlen b -> slice (a ++ b ++ c) lo hi = QOk b.
Proof.
  intros -> ->. unfold slice, zlen, ztake, zdrop. rewrite !length_app. rewrite !(proj2 (Z.leb_le _ _)) by lia. cbn [andb]. rewrite Nat2Z.id, drop_app_length.
  replace (Z.to_nat (Z.of_nat (length a) + Z.of_nat (length b) - Z.of_nat (length a))) with (length b) by lia. by rewrite take_app_length.
Qed.
Lemma at_end (a b : list Z) x i : i = zlen a -> byte_at (a ++ x :: b) i = QOk x.
Proof. intros ->. apply socks_byte_at; unfold zlen; [|lia]. by rewrite Nat2Z.id, lookup_app_r, Nat.sub_diag by lia. Qed.
Lemma port_end (a : list Z) hi lo i : i = zlen a -> port_at (a ++ [hi; lo]) i = QOk (Z.lor (Z.shiftl hi 8) lo).
Proof.
  intros ->. unfold port_at. rewrite (at_end a [lo] hi (zlen a)) by done. cbn [mbind qres_bind].
  replace (a ++ [hi; lo]) with ((a ++ [hi]) ++ [lo]) by (by rewrite <- app_assoc). by rewrite at_end by (unfold zlen; rewrite length_app; cbn; lia).
Qed.
Definition target_md (host : string) (ip : Addr) (port : Z) : Metadata := set_DstPort port (set_DstIP ip (set_Host host zeroMetadata)).
Lemma parse_v a t k ip hi lo : t :: ip ++ [hi; lo] = a -> length ip = k -> (0 < k)%nat ->
  slice a 1 (Z.of_nat (S k)) = QOk ip /\ port_at a (Z.of_nat (S k)) = QOk (Z.lor (Z.shiftl hi 8) lo).
Proof.
  intros <- Hk _. split; [apply (slice_mid [t] ip); unfold zlen; cbn [length]; lia|]. apply (port_end (t :: ip)). unfold zlen. cbn. lia.
Qed.
Lemma parse_target a host ip port : names_target a host ip port -> parseSocksAddr a = QOk (target_md host ip port).
Proof.
  destruct 1 as [ip hi lo Hl|ip hi lo Hl|name hi lo Hl]; unfold parseSocksAddr; rewrite byte_at_0; cbn [mbind qres_bind].
  - destruct (parse_v _ SAtypIPv4 4 ip hi lo eq_refl Hl) as [E1 E2]; [lia|]. change (SAtypIPv4 =? SAtypDomainName) with false. change (SAtypIPv4 =? SAtypIPv4) with true. cbv iota.
    change 5 with (Z.of_nat 5). rewrite E1. cbn [mbind qres_bind]. rewrite E2. cbn [mbind qres_bind mret qres_ret]. unfold AddrFromSlice, zlen. rewrite Hl. done.
  - destruct (parse_v _ SAtypIPv6 16 ip hi lo eq_refl Hl) as [E1 E2]; [lia|]. change (SAtypIPv6 =? SAtypDomainName) with false. change (SAtypIPv6 =? SAtypIPv4) with false. change (SAtypIPv6 =? SAtypIPv6) with true. cbv iota.
    change 17 with (Z.of_nat 17). rewrite E1. cbn [mbind qres_bind]. rewrite E2. cbn [mbind qres_bind mret qres_ret]. unfold AddrFromSlice, zlen. rewrite Hl. done.
  - change (SAtypDomainName =? SAtypDomainName) with true. cbv iota. rewrite byte_at_1. cbn [mbind qres_bind].
    assert (E : u8 (2 + zlen name) = 2 + zlen name) by (unfold u8, zlen; rewrite Z.mod_small; lia). rewrite E. assert (E' : u8 (2 + zlen name + 1) = 2 + zlen name + 1) by (unfold u8, zlen; rewrite Z.mod_small; lia). rewrite E'.
    pose proof (slice_mid [SAtypDomainName; zlen name] name [hi; lo] 2 (2 + zlen name) eq_refl eq_refl) as Es. cbn [app] in Es. rewrite Es. cbn [mbind qres_bind].
    pose proof (at_end (SAtypDomainName :: zlen name :: name) [lo] hi (2 + zlen name)) as E1. cbn [app] in E1. rewrite E1 by (unfold zlen; cbn [length]; lia). cbn [mbind qres_bind].
    pose proof (at_end (SAtypDomainName :: zlen name :: name ++ [hi]) [] lo (2 + zlen name + 1)) as E2. cbn [app] in E2. rewrite <- app_assoc in E2. cbn [app] in E2.
    rewrite E2 by (unfold zlen; cbn [length]; rewrite length_app; cbn [length]; lia). done.
Qed.

(** ** A client and the listener *)

Section Listener.
Variables (local remote : NetAddr) (additions : list Addition).

Definition serve5 (r : SocksErr + list Z * Z * string) : proc Outcome :=
  match r with
  | inl _ => PRet OClosed
  | inr (target, command, user) =>
      if command =? CmdUDPAssociate then PRet OAssociate
      else lift_panic (NewSocket target remote SOCKS5 (additions ++ [set_InUser user])) (fun m => PRet (OTunnel m))
  end.
Lemma serve5_ended r : ended (serve5 r) = true.
Proof. destruct r as [e|[[target command] user]]; [done|]. cbn. destruct (command =? CmdUDPAssociate); [done|]. by destruct (NewSocket _ _ _ _). Qed.

(** The metadata that the tunnel gets for a target. *)
Definition inbound_md (host : string) (ip : Addr) (port : Z) (source : Type_) (user : string) : Metadata :=
  ApplyAdditions (WithSrcAddr remote (set_Type source (set_NetWork TCP (target_md host ip port)))) (additions ++ [set_InUser user]).

End Listener.

(** ** Whatever the other end does *)

(** How a process may end on a connection whose other end sends any bytes, and whose
    reads and writes may fail; [None] is a panic. *)
Inductive may {R} : proc R -> option R -> Prop :=
  | may_ret r : may (PRet r) (Some r)
  | may_panic : may PPanic None
  | may_read n k b r : length b = n -> Forall byte b -> may (k (Some b)) r -> may (PRead n k) r
  | may_read_end n k r : may (k None) r -> may (PRead n k) r
  | may_peek k c r : may (k c) r -> may (PPeek k) r
  | may_write b k ok r : may (k ok) r -> may (PWrite b k) r.

Lemma may_pbind {A B} (f : A -> proc B) p r : may (pbind f p) r -> (exists x, may p (Some x) /\ may (f x) r) \/ (r = None /\ may p None).
Proof.
  intros H. remember (pbind f p) as q eqn:E. revert p E. induction H as [r| |n k b r Hl Hb H IH|n k r H IH|k c r H IH|b k ok r H IH]; intros p E; destruct p as [x| |n' k'|k'|b' k']; cbn in E; try discriminate E.
  - left. exists x. split; [constructor|]. rewrite <- E. constructor.
  - left. exists x. split; [constructor|]. rewrite <- E. constructor.
  - right. split; [done|constructor].
  - left. exists x. split; [constructor|]. rewrite <- E. by econstructor.
  - injection E as -> ->. destruct (IH _ eq_refl) as [(x & H1 & H2)|[-> H1]]; [left; exists x|right]; (split; [|done]) || split; try done; by econstructor.
  - left. exists x. split; [constructor|]. rewrite <- E. by apply may_read_end.
  - injection E as -> ->. destruct (IH _ eq_refl) as [(x & H1 & H2)|[-> H1]]; [left; exists x|right]; (split; [|done]) || split; try done; by apply may_read_end.
  - left. exists x. split; [constructor|]. rewrite <- E. by econstructor.
  - injection E as ->. destruct (IH _ eq_refl) as [(x & H1 & H2)|[-> H1]]; [left; exists x|right]; (split; [|done]) || split; try done; by econstructor.
  - left. exists x. split; [constructor|]. rewrite <- E. by econstructor.
  - injection E as -> ->. destruct (IH _ eq_refl) as [(x & H1 & H2)|[-> H1]]; [left; exists x|right]; (split; [|done]) || split; try done; by econstructor.
Qed.

(** What a value says that a step may return; and that the step cannot panic. *)
Definition yields {A} (m : hs A) (P : A -> Prop) : Prop := ~ may m None /\ forall x, may m (Some (inr x)) -> P x.
Lemma yields_bind {A B} (m : hs A) (f : A -> hs B) P Q : yields m P -> (forall x, P x -> yields (f x) Q) -> yields (m ≫= f) Q.
Proof.
  intros [Hm0 Hm] Hf. split.
  - intros [([e|x] & H1 & H2)|[_ H]]%may_pbind; [by inversion H2|by apply (Hf x (Hm _ H1))|done].
  - intros y [([e|x] & H1 & H2)|[[=] _]]%may_pbind; [by inversion H2|]. by apply (Hf x (Hm _ H1)).
Qed.
Lemma yields_ret {A} (x : A) (P : A -> Prop) : P x -> yields (mret x) P.
Proof. intros HP. split; [by inversion 1|]. intros y H. by inversion H; subst. Qed.
Lemma yields_err {A} e (P : A -> Prop) : yields (herr e) P.
Proof. split; [by inversion 1|]. intros y H. by inversion H. Qed.
Lemma yields_read n : yields (ReadN n) (fun b => length b = Z.to_nat n /\ Forall byte b).
Proof. split; [by inversion 1 as [| |? ? ? ? ? ? H'|? ? ? H'| |]; inversion H'|]. intros x H. inversion H as [| |? ? b ? Hl Hb H'|? ? ? H'| |]; subst; inversion H'; subst. done. Qed.
Lemma yields_one : yields ReadOne byte.
Proof. eapply yields_bind; [apply yields_read|]. intros b [Hl Hb]. apply yields_ret. destruct b as [|x [|]]; try done. by inversion Hb. Qed.
Ltac write_may := split; [|done]; intros H; inversion H as [| | | | |b' k' ok r' H' E1 E2]; subst; try destruct ok; by inversion H'.
Lemma yields_write b : yields (WriteB b) (fun _ => True).
Proof. write_may. Qed.
Lemma yields_write_any b : yields (WriteAny b) (fun _ => True).
Proof. write_may. Qed.
Lemma yields_impl {A} (m : hs A) (P Q : A -> Prop) : yields m P -> (forall x, P x -> Q x) -> yields m Q.
Proof. intros [H1 H2] H. split; auto. Qed.

Lemma yields_addr : yields ReadAddr (fun a => socks_addr a /\ Forall byte a).
Proof.
  assert (Hs : forall k (l : list Z), length l = (k + 2)%nat -> exists x p, l = x ++ p /\ length x = k /\ length p = 2%nat).
  { intros k l Hl. exists (take k l), (drop k l). rewrite take_drop, length_take, length_drop. split; [done|]. lia. }
  unfold ReadAddr. eapply yields_bind; [apply yields_one|]. intros t Ht. destruct (Z.eqb_spec t SAtypDomainName) as [->|_].
  - eapply yields_bind; [apply yields_one|]. intros n Hn. unfold byte in Hn. eapply yields_bind; [apply yields_read|]. intros rest [Hl Hb]. apply yields_ret. split; [|by rewrite !Forall_cons; split_and!].
    destruct (Hs (Z.to_nat n) rest) as (x & p & -> & Hx & Hp); [lia|]. replace n with (zlen x) at 1 by (unfold zlen; lia). constructor; lia.
  - destruct (Z.eqb_spec t SAtypIPv4) as [->|_]; [|destruct (Z.eqb_spec t SAtypIPv6) as [->|_]; [|apply yields_err]].
    + eapply yields_bind; [apply yields_read|]. intros rest [Hl Hb]. apply yields_ret. split; [|by rewrite Forall_cons]. destruct (Hs 4%nat rest) as (x & p & -> & Hx & Hp); [done|]. by constructor.
    + eapply yields_bind; [apply yields_read|]. intros rest [Hl Hb]. apply yields_ret. split; [|by rewrite Forall_cons]. destruct (Hs 16%nat rest) as (x & p & -> & Hx & Hp); [done|]. by constructor.
Qed.
Lemma yields_auth v : yields (server_auth v) (fun user => exists pass, v user pass = true).
Proof.
  unfold server_auth. eapply yields_bind; [apply yields_read|]. intros header _. cbv zeta. destruct (_ <=? 0); [eapply yields_bind; [apply yields_write_any|intros; apply yields_err]|].
  eapply yields_bind; [apply yields_read|]. intros user _. eapply yields_bind; [apply yields_one|]. intros len _. destruct (_ <=? 0); [eapply yields_bind; [apply yields_write_any|intros; apply yields_err]|].
  eapply yields_bind; [apply yields_read|]. intros pass _. destruct (v (bytes_str user) (bytes_str pass)) eqn:E; [|eapply yields_bind; [apply yields_write_any|intros; apply yields_err]].
  eapply yields_bind; [apply yields_write|]. intros _ _. apply yields_ret. by exists (bytes_str pass).
Qed.
Definition authenticated (authenticator : option Authenticator) (user : string) : Prop :=
  match authenticator with Some v => exists pass, v user pass = true | None => True end.
Lemma yields_socks5 authenticator local : yields (socks5_ServerHandshake authenticator local)
  (fun r => socks_addr r.1.1 /\ Forall byte r.1.1 /\ authenticated authenticator r.2).
Proof.
  unfold socks5_ServerHandshake. eapply yields_bind; [apply yields_read|]. intros head _. eapply yields_bind; [apply yields_read|]. intros methods _. cbv zeta.
  apply (yields_bind _ _ (authenticated authenticator)).
  - assert (Ha : forall v, yields (_ ← WriteB [5; 2]; server_auth v) (fun user => exists pass, v user pass = true)) by (intros v; eapply yields_bind; [apply yields_write|intros; apply yields_auth]).
    destruct authenticator as [v|]; [apply Ha|]. destruct (_ && _); [by eapply yields_impl; [apply Ha|]|]. eapply yields_bind; [apply yields_write|]. intros. by apply yields_ret.
  - intros user Hu. unfold server_request. eapply yields_bind; [apply yields_read|]. intros request _. eapply yields_bind; [apply yields_addr|]. intros addr [Ha Hb]. cbv zeta.
    destruct (_ || _); [|apply yields_err]. destruct (ParseAddrToSocksAddr local); [|apply yields_err]. eapply yields_bind; [apply yields_write|]. intros. by apply yields_ret.
Qed.
Lemma yields_until room : forall buf, yields (readUntilNull room buf) (fun _ => True).
Proof.
  induction room as [|room IH]; intros buf; cbn [readUntilNull]; (eapply yields_bind; [apply yields_one|]; intros x _; destruct (x =? 0); [by apply yields_ret|]); [apply yields_err|apply IH].
Qed.
Lemma yields_socks4 authenticator : yields (socks4_ServerHandshake authenticator)
  (fun r => match authenticator with Some v => v r.2 "" = true | None => True end).
Proof.
  unfold socks4_ServerHandshake. eapply yields_bind; [apply yields_read|]. intros req _. destruct (negb _); [apply yields_err|]. cbv zeta. destruct (negb _); [apply yields_err|].
  eapply yields_bind; [apply yields_until|]. intros user _. eapply (yields_bind _ _ (fun _ => True)); [destruct (isReservedIP _); [apply yields_until|by apply yields_ret]|]. intros host _. unfold socks4_reply.
  destruct authenticator as [v|]; [destruct (v (bytes_str user) "") eqn:E|]; (eapply yields_bind; [first [apply yields_write|apply yields_write_any]|]; intros; first [by apply yields_ret|apply yields_err]).
Qed.

Section Safe.
Variables (local remote : NetAddr) (additions : list Addition).

Lemma InUser_last target source user m : NewSocket target remote source (additions ++ [set_InUser user]) = QOk m -> md_InUser m = user.
Proof.
  unfold NewSocket. destruct (parseSocksAddr target); cbn [mbind qres_bind mret qres_ret]; try done. intros [= <-]. unfold ApplyAdditions. rewrite fold_left_app. cbn [fold_left].
  by destruct (fold_left _ _ _).
Qed.
Lemma may_lift {R} (q : qres Metadata) (k : Metadata -> proc R) r : may (lift_panic q k) (Some r) -> exists m, q = QOk m /\ may (k m) (Some r).
Proof. destruct q; cbn; [by eexists|by inversion 1..]. Qed.
(** What the handlers give away: a connection of a user who is known. *)
Definition proven (authenticator : option Authenticator) (o : Outcome) : Prop :=
  match o with
  | OTunnel m => authenticated authenticator (md_InUser m)
  | OAssociate => exists user, authenticated authenticator user
  | OClosed | OHTTP => True
  end.
Lemma socks4_proven authenticator o : may (HandleSocks4 remote additions authenticator) (Some o) -> proven authenticator o.
Proof.
  intros [(r & H1 & H2)|[[=] _]]%may_pbind. destruct r as [e|[[addr c] user]]; [by inversion H2|]. apply (proj2 (yields_socks4 authenticator)) in H1. cbn in H1.
  apply may_lift in H2 as (m & Em & H2). inversion H2; subst. cbn. rewrite (InUser_last _ _ _ _ Em). destruct authenticator; [by exists ""|done].
Qed.
Lemma socks5_proven authenticator o : may (HandleSocks5 local remote additions authenticator) (Some o) -> proven authenticator o.
Proof.
  intros [(r & H1 & H2)|[[=] _]]%may_pbind. destruct r as [e|[[addr c] user]]; [by inversion H2|]. apply (proj2 (yields_socks5 authenticator local)) in H1 as (_ & _ & Ha). cbn in Ha.
  destruct (c =? CmdUDPAssociate); [inversion H2; subst; by exists user|]. apply may_lift in H2 as (m & Em & H2). inversion H2; subst. cbn. by rewrite (InUser_last _ _ _ _ Em).
Qed.
Lemma conn_proven (mixed : bool) authenticator o : may (if mixed then handleConn local remote additions authenticator else handleSocks local remote additions authenticator) (Some o) -> proven authenticator o.
Proof.
  assert (Hk : forall (head : option Z) (e : Outcome), proven authenticator e -> may (match head with None => PRet OClosed
      | Some v => if v =? 4 then HandleSocks4 remote additions authenticator else if v =? 5 then HandleSocks5 local remote additions authenticator else PRet e end) (Some o) -> proven authenticator o).
  { intros head e He. destruct head as [v|]; [|by inversion 1]. destruct (v =? 4); [apply socks4_proven|]. destruct (v =? 5); [apply socks5_proven|]. by inversion 1; subst. }
  intros H. destruct mixed; inversion H; subst; [by eapply (Hk _ OHTTP I)|by eapply (Hk _ OClosed I)].
Qed.

(** C34: nobody gets through a SOCKS listener unasked.  Whatever bytes a client sends, and
    wherever reading and writing fail: a connection reaches the tunnel, or is kept open
    for UDP, only from an address that the lists allow, and, unless the client's address
    is exempt, only for a user whose password the authenticator has accepted; the
    connection carries that user's name. *)
Theorem socks_listener_safe mixed l o : may (serve local remote additions mixed l) (Some o) ->
  match o with OTunnel _ | OAssociate => l_default l = true -> IsRemoteAddrDisAllowed (lanAllowedIPs l) (lanDisAllowedIPs l) remote = true | _ => True end /\
  (l_default l && SkipAuthRemoteAddr (skipAuthPrefixes l) remote = false -> proven (l_store l) o).
Proof.
  unfold serve, accept_store. destruct (l_default l); cbn [andb].
  - destruct (IsRemoteAddrDisAllowed _ _ _); cbn [negb]; [|by inversion 1].
    destruct (SkipAuthRemoteAddr _ _); intros H; (split; [by destruct o|]); [done|]. intros _. by eapply conn_proven.
  - intros H. split; [by destruct o|]. intros _. by eapply conn_proven.
Qed.

(** A panic of the SOCKS5 handler takes a name of 254 or 255 bytes. *)
Lemma parse_short a : socks_addr a -> (forall name port, a = SAtypDomainName :: zlen name :: name ++ port -> length port = 2%nat -> (length name <= 253)%nat) ->
  exists m, parseSocksAddr a = QOk m.
Proof.
  intros Ha Hn. assert (Hp : forall port : list Z, length port = 2%nat -> exists hi lo, port = [hi; lo]) by (intros [|hi [|lo [|]]] H; try done; by eexists _, _).
  destruct Ha as [ip port H1 (hi & lo & ->)%Hp|name port H1 Hport|ip port H1 (hi & lo & ->)%Hp].
  - eexists. apply parse_target. by constructor.
  - pose proof (Hn name port eq_refl Hport) as H2. apply Hp in Hport as (hi & lo & ->). destruct (decide (length name <= 252)%nat) as [Hs|Hs]; [eexists; apply parse_target; by constructor|].
    unfold parseSocksAddr. rewrite byte_at_0. cbn [mbind qres_bind]. change (SAtypDomainName =? SAtypDomainName) with true. cbv iota. rewrite byte_at_1. cbn [mbind qres_bind].
    assert (E : zlen name = 253) by (unfold zlen; lia). rewrite E. change (u8 (2 + 253)) with 255. change (u8 (255 + 1)) with 0.
    pose proof (slice_mid [SAtypDomainName; 253] name [hi; lo] 2 255 eq_refl) as Es. cbn [app] in Es. rewrite Es by (rewrite E; done). cbn [mbind qres_bind].
    pose proof (at_end (SAtypDomainName :: 253 :: name) [lo] hi 255) as E1. cbn [app] in E1. rewrite E1 by (unfold zlen in *; cbn [length]; lia). cbn [mbind qres_bind]. rewrite byte_at_0. by eexists.
  - eexists. apply parse_target. by constructor.
Qed.
Lemma socks5_panic authenticator : may (HandleSocks5 local remote additions authenticator) None ->
  exists name port command user, may (socks5_ServerHandshake authenticator local) (Some (inr (SAtypDomainName :: zlen name :: name ++ port, command, user))) /\
    (254 <= length name <= 255)%nat.
Proof.
  intros [(r & H1 & H2)|[_ H]]%may_pbind; [|by apply (proj1 (yields_socks5 authenticator local)) in H]. destruct r as [e|[[a c] user]]; [by inversion H2|].
  pose proof (proj2 (yields_socks5 authenticator local) _ H1) as (Ha & _ & _). cbn [fst] in Ha. destruct (c =? CmdUDPAssociate); [by inversion H2|].
  assert (Hlong : ~ exists m, parseSocksAddr a = QOk m) by (intros [m E]; unfold NewSocket in H2; rewrite E in H2; cbn in H2; by inversion H2).
  destruct Ha as [ip port L1 L2|name port L1 L2|ip port L1 L2].
  - exfalso. apply Hlong, parse_short; [by constructor|]. intros ? ? [=].
  - exists name, port, c, user. split; [done|]. destruct (decide (length name <= 253)%nat) as [Hs|]; [|lia]. exfalso. apply Hlong, parse_short; [by constructor|].
    intros name' port' [= _ E] L. apply app_inj_2 in E as [-> _]; [done|lia].
  - exfalso. apply Hlong, parse_short; [by constructor|]. intros ? ? [=].
Qed.
End Safe.

(** ** SOCKS4 *)

Section Handshake4.
Variables (authenticator : option Authenticator) (host port userID : string) (p : Z) (ip : option Addr).
(** A host that is a name or an IPv4 address; neither it nor the user has a NUL. *)
Hypothesis Hport : ParseUint port = Some p.
Hypothesis Hp : 0 <= p < 2 ^ 16.
Hypothesis Hip : ParseAddr host = ip.
Hypothesis Hv4 : match ip with Some a => a_bits a = 32 /\ 0 <= a_val a < 2 ^ 32 | None => host <> "" end.
Definition no_null (s : string) : Prop := Contains "000" s = false /\ (String.length s <= 256)%nat.
Hypothesis Hhost : no_null host.
Hypothesis Huser : no_null userID.

Definition target_ip : Addr := default (mkAddr 32 1) ip.
(** The text the server makes of the target. *)
Definition target4 : string := JoinHostPort (if isReservedIP target_ip then host else addr_String target_ip) (FormatInt p).
Definition granted4 : bool := match authenticator with None => true | Some v => v userID "" end.

Abbreviation net4 := (net (SocksErr + unit) (SocksErr + string * Z * string)).
Definition both4 (c : net4) : Prop :=
  if granted4 then n_client c = PRet (inr tt) /\ n_server c = PRet (inr (target4, CmdConnect, userID))
  else n_client c = PRet (inl ErrRequestIdentdMismatched) /\ n_server c = PRet (inl ErrRequestIdentdMismatched).

Ltac hs_simpl := cbn [mbind hs_bind hbind pbind WriteB WriteAny ReadN ReadOne mret hs_ret herr nth negb app].
Lemma server_reads_until {A B} (q : proc A) (f : SocksErr + list Z -> proc B) name : forall room acc j i Q, Forall (fun c => c <> 0) name -> (length name <= room)%nat ->
  runs_to (mkNet q (f (inr (acc ++ name))) j i) Q -> runs_to (mkNet q (pbind f (readUntilNull room acc)) (name ++ 0 :: j) i) Q.
Proof.
  induction name as [|c name IH]; intros room acc j i Q Hz Hl H.
  - rewrite app_nil_r in H. destruct room; cbn [readUntilNull]; hs_simpl; (apply (server_reads _ [0]); [done|]); exact H.
  - inversion_clear Hz as [|? ? Hc Hz']. cbn [length] in Hl. destruct room as [|room]; [lia|]. cbn [readUntilNull]. hs_simpl. change (c :: name ++ 0 :: j) with ([c] ++ name ++ 0 :: j).
    apply server_reads; [done|]. hs_simpl. rewrite (proj2 (Z.eqb_neq c 0)) by done. apply IH; [done|lia|]. by rewrite <- app_assoc.
Qed.
Lemma str_bytes_no_null s : no_null s -> Forall (fun c => c <> 0) (str_bytes s) /\ (length (str_bytes s) <= 256)%nat.
Proof.
  intros [Hc Hl]. split; [|by rewrite length_str_bytes]. clear Hl. induction s as [|c s IH]; [constructor|]. cbn [Contains] in Hc. apply orb_false_iff in Hc as [H1 H2].
  constructor; [|by apply IH]. intros E. assert (Hn : nat_of_ascii c = 0%nat) by lia. rewrite <- (ascii_nat_embedding c), Hn in H1. done.
Qed.
Lemma handshake4_run addr : SplitHostPort addr = Some (host, port) ->
  runs_to (mkNet (socks4_ClientHandshake addr CmdConnect userID) (socks4_ServerHandshake authenticator) [] []) both4.
Proof.
  intros Hs. unfold socks4_ClientHandshake. rewrite Hs, Hport, Hip. rewrite (proj2 (Z.ltb_lt _ _)) by lia. cbn [negb]. change (match ip with Some ip => ip | None => mkAddr 32 1 end) with target_ip.
  assert (Ht : a_bits target_ip = 32 /\ 0 <= a_val target_ip < 2 ^ 32) by (unfold target_ip; destruct ip; cbn; [done|lia]). destruct Ht as [Ht1 Ht2].
  assert (H6 : addr_Is6 target_ip = false) by (unfold addr_Is6; by rewrite Ht1). rewrite H6.
  assert (Hsl : exists a b c d, addr_AsSlice target_ip = [a; b; c; d]).
  { assert (L : length (addr_AsSlice target_ip) = 4%nat) by (unfold addr_AsSlice; rewrite length_be_put, Ht1; done). destruct (addr_AsSlice target_ip) as [|a [|b [|c [|d [|]]]]]; try done. by eexists _, _, _, _. }
  assert (Hpl : exists h l, be_put 2 p = [h; l]) by (pose proof (length_be_put 2 p) as L; destruct (be_put 2 p) as [|h [|l [|]]]; try done; by eexists _, _).
  destruct Hsl as (a & b & c & d & Esl), Hpl as (h & l & Epl).
  assert (Ea : mkAddr 32 (be_get [a; b; c; d]) = target_ip) by (rewrite <- Esl; unfold addr_AsSlice; rewrite Ht1; change (Z.to_nat (32 / 8)) with 4%nat; rewrite be_get_put_small by (cbn; lia); rewrite <- Ht1; by destruct target_ip).
  assert (Ep : be_get [h; l] = p) by (rewrite <- Epl; apply be_get_put_small; cbn; lia).
  destruct (str_bytes_no_null _ Huser) as [U1 U2], (str_bytes_no_null _ Hhost) as [V1 V2].
  rewrite Esl, Epl. unfold socks4_ServerHandshake. hs_simpl. apply client_writes. hs_simpl. apply (server_reads _ [4; CmdConnect; h; l; a; b; c; d]); [done|]. hs_simpl.
  change (4 =? 4) with true. change (CmdConnect =? CmdConnect) with true. cbn [negb take drop]. rewrite Ea, Ep.
  apply server_reads_until; [done|done|]. cbn [app]. rewrite bytes_str_bytes.
  assert (Hend : forall host' (j : list Z), runs_to (mkNet (resp ← ReadN 8; socks4_answer resp) (socks4_reply authenticator (JoinHostPort host' (FormatInt p)) userID [h; l] [a; b; c; d]) j [] : net4)
    (fun n => if granted4 then n_client n = PRet (inr tt) /\ n_server n = PRet (inr (JoinHostPort host' (FormatInt p), CmdConnect, userID))
       else n_client n = PRet (inl ErrRequestIdentdMismatched) /\ n_server n = PRet (inl ErrRequestIdentdMismatched))).
  { intros host' j. unfold socks4_reply. fold granted4. cbv zeta. destruct granted4; hs_simpl; apply server_writes; hs_simpl; (apply (client_reads _ [_; _; _; _; _; _; _; _]); [done|]); hs_simpl; by apply runs_done. }
  rewrite Esl. unfold both4, target4. destruct (isReservedIP target_ip) eqn:Er.
  - hs_simpl. apply server_reads_until; [done|done|]. cbn [app]. rewrite bytes_str_bytes.
    assert (Hne : String.eqb host "" = false).
    { apply String.eqb_neq. intros E0. pose proof Hv4 as Hv. rewrite <- Hip, E0 in Hv. by apply Hv. }
    rewrite Hne. apply Hend.
  - hs_simpl. apply Hend.
Qed.
End Handshake4.

(** ** Running the code *)

Definition demo_users : option Authenticator := NewAuthenticator [("ann", "secret")].
Definition demo_local : NetAddr := AddrIP [127; 0; 0; 1] 7890.
Definition demo_target : list Z := SAtypDomainName :: 11 :: str_bytes "example.org" ++ [1; 187].
Definition demo_conn : net (SocksErr + list Z) Outcome :=
  mkNet (socks5_ClientHandshake demo_target CmdConnect (Some ("ann", "secret"))) (HandleSocks5 demo_local demo_local [] demo_users) [] [].


Definition demo_listener : Listener := mkListener true demo_users [mkPrefix (mkAddr 32 (127 * 2 ^ 24)) 8] [] [].
(** A client that sends the bytes [inp], and whose writes arrive. *)
Fixpoint run {R} (p : proc R) (inp : list Z) : option R :=
  match p with
  | PRet r => Some r
  | PPanic => None
  | PRead n k => if (n <=? length inp)%nat then run (k (Some (take n inp))) (drop n inp) else run (k None) []
  | PPeek k => run (k (head inp)) inp
  | PWrite _ k => run (k true) inp
  end.
Lemma run_may {R} (p : proc R) : forall inp, Forall byte inp -> may p (run p inp).
Proof.
  induction p as [r| |n k IH|k IH|b k IH]; intros inp Hb; cbn [run]; [constructor|constructor| | |].
  - destruct (Nat.leb_spec n (length inp)); [|by apply may_read_end, IH].
    apply (may_read n k (take n inp)); [by apply length_take_le|by apply Forall_take|by apply IH, Forall_drop].
  - by eapply may_peek, IH.
  - by eapply may_write, IH.
Qed.
Lemma byte_list l : forallb (fun x => (0 <=? x) && (x <? 256)) l = true -> Forall byte l.
Proof. intros H. rewrite forallb_forall in H. apply Forall_forall. intros x Hx. apply list_elem_of_In, H in Hx. unfold byte. apply andb_true_iff in Hx as [H1%Z.leb_le H2%Z.ltb_lt]. done. Qed.
Definition demo_bytes : list Z := [5; 1; 2; 1; 3] ++ str_bytes "ann" ++ [6] ++ str_bytes "secret" ++ [5; 1; 0] ++ demo_target.
Lemma socks_listener_safe_witness :
  let m := inbound_md demo_local [] "example.org" zeroAddr 443 SOCKS5 "ann" in
  may (serve demo_local demo_local [] true demo_listener) (Some (OTunnel m)) /\
  IsRemoteAddrDisAllowed (lanAllowedIPs demo_listener) (lanDisAllowedIPs demo_listener) demo_local = true /\ proven demo_users (OTunnel m).
Proof.
  cbv zeta. assert (Hm : may (serve demo_local demo_local [] true demo_listener) (Some (OTunnel (inbound_md demo_local [] "example.org" zeroAddr 443 SOCKS5 "ann")))).
  { assert (E : run (serve demo_local demo_local [] true demo_listener) demo_bytes = Some (OTunnel (inbound_md demo_local [] "example.org" zeroAddr 443 SOCKS5 "ann"))) by (vm_compute; reflexivity).
    rewrite <- E. apply run_may, byte_list. vm_compute. reflexivity. }
  split; [exact Hm|]. destruct (socks_listener_safe demo_local demo_local [] true demo_listener _ Hm) as [H1 H2].
  split; [apply H1; reflexivity|]. apply H2. vm_compute. reflexivity.
Defined.

(** Names of 253 bytes get another port, and longer ones end the program: the ends of
    the name are added up in a byte. *)
Definition long_target (n : nat) : list Z := SAtypDomainName :: Z.of_nat n :: repeat 97 n ++ [1; 187].
Example port_of_253 : (m ← parseSocksAddr (long_target 253); mret (md_DstPort m)) = QOk 259.
Proof. vm_compute. reflexivity. Qed.
Example name_of_254 : run (handleConn demo_local demo_local [] None) ([5; 1; 0; 5; 1; 0] ++ long_target 254) = None.
Proof. vm_compute. reflexivity. Qed.
(** So does a SOCKS4A request for a name that is not one. *)
Example bad_name_4a : run (handleConn demo_local demo_local [] None) ([4; 1; 0; 80; 0; 0; 0; 1; 0] ++ str_bytes "[" ++ [0]) = None.
Proof. vm_compute. reflexivity. Qed.
(** A password without bytes is refused whatever the authenticator says. *)
Example empty_password : agreed (NewAuthenticator [("ann", "")]) (Some ("ann", "")) = None.
Proof. reflexivity. Qed.
