(* ===== verification/Fetcher.v ===== *)
(** * Fetching what providers provide ([component/resource], [component/slowdown])

    A fetcher keeps the hash of what it last handed on, and updates from a file, from
    a server or from the side; only [loadBuf] holds the lock, so that reads of several
    updates overlap.  Hashes and the parser are arguments; times are nanoseconds.  A step
    relation lets updates overlap; [fetcher_hands_on] is its invariant, and [pull_fresh]
    is about updates one after the other. *)
From S2P Require Import Prelude.
#[local] Open Scope list_scope.
#[local] Open Scope Z_scope.

(** ** Waiting longer after each failure *)

Definition second : Z := 10 ^ 9.
(** [math.MaxInt64 - 512], rounded to a [float64]. *)
Definition maxInt64f : Z := 2 ^ 63 - 1024.
(** A backoff doubles: no other factor is used.  [jitter] is the random duration that
    takes the place of the product.
    @go component/slowdown/backoff.go:19-27 Backoff *)
Record Backoff := mkBackoff { attempt : Z; Min : Z; Max : Z; Jitter : option (Z -> Z -> Z) }.
(** Powers of two are exact, and so is their product with a duration below 2^53.
    @go component/slowdown/backoff.go:44-82 Backoff.ForAttempt *)
Definition ForAttempt (b : Backoff) (n : Z) : Z :=
  let min := if Min b <=? 0 then second / 10 else Min b in
  let max := if Max b <=? 0 then 10 * second else Max b in
  if max <=? min then max
  else
    let durf := min * 2 ^ n in
    let durf := match Jitter b with None => durf | Some r => r min durf end in
    if maxInt64f <? durf then max else if durf <? min then min else if max <? durf then max else durf.
(** @go component/slowdown/backoff.go:95-97 Backoff.AddAttempt *)
Definition AddAttempt (b : Backoff) : Backoff := mkBackoff (u64 (attempt b + 1)) (Min b) (Max b) (Jitter b).
(** @go component/slowdown/backoff.go:85-87 Backoff.Reset *)
Definition bo_Reset (b : Backoff) : Backoff := mkBackoff 0 (Min b) (Max b) (Jitter b).
(** @go component/slowdown/backoff.go:31-34 Backoff.Duration *)
Definition Duration (b : Backoff) : Z * Backoff := (ForAttempt b (u64 (attempt (AddAttempt b) - 1)), AddAttempt b).
(** @go component/slowdown/backoff.go:100-107 Backoff.Copy *)
Definition bo_Copy (b : Backoff) : Backoff := mkBackoff 0 (Min b) (Max b) (Jitter b).

(** @go component/slowdown/slowdown.go:9-12 SlowDown *)
Record SlowDown := mkSlowDown { errTimes : Z; sd_backoff : Backoff }.
(** @go component/slowdown/slowdown.go:25-34 New *)
Definition sd_New (r : Z -> Z -> Z) : SlowDown := mkSlowDown 0 (mkBackoff 0 (second / 100) second (Some r)).
(** One call: how long it waits first, whether the function is called, what comes out.
    [ctx] says whether the context ends during the wait.
    @go component/slowdown/slowdown.go:36-51 Do *)
Definition sd_Do {E A} (ctx : option E) (fn : E + A) (s : SlowDown) : option Z * (E + A) * SlowDown :=
  let '(wait, s) := if 10 <? errTimes s then let '(d, b) := Duration (sd_backoff s) in (Some d, mkSlowDown (errTimes s) b) else (None, s) in
  match wait, ctx with
  | Some _, Some e => (wait, inl e, s)
  | _, _ =>
      match fn with
      | inl e => (wait, inl e, mkSlowDown (i64 (errTimes s + 1)) (sd_backoff s))
      | inr x => (wait, inr x, mkSlowDown 0 (bo_Reset (sd_backoff s)))
      end
  end.

(** ** Fetchers *)

(** @go common/utils/hash.go:11-13 HashType *)
Class HashLib := { HashType : Type; hash_eq :: EqDecision HashType; zero_hash : HashType; MakeHash : list Z -> HashType }.
Inductive VehicleType := VFile | VHTTP.
#[export] Instance VehicleType_eq_dec : EqDecision VehicleType.
Proof. solve_decision. Defined.
Inductive FetchErr := FetchRead | FetchParse | FetchWrite | FetchWatch.
(** [time.Since]: the difference stays within 64 bits. *)
Definition since (now t : Z) : Z := Z.max (- 2 ^ 63) (Z.min (2 ^ 63 - 1) (now - t)).

Section Fetcher.
Context {HL : HashLib} {V : Type}.
Variable parser : list Z -> option V.
Variable vehicle : VehicleType.
Variable interval sizeLimit : Z.
Variable etag : bool.

(** The file at the path of the vehicle, with the time of its last change, and the
    contents that were handed to [onUpdate], the latest last.
    @go component/resource/fetcher.go:23-38 Fetcher *)
Record Fetcher := mkFetcher { f_hash : HashType; updatedAt : Z; backoff : Backoff; file : option (list Z * Z); updates : list V }.
(** @go component/resource/fetcher.go:260-282 NewFetcher *)
Definition NewFetcher (file : option (list Z * Z)) : Fetcher :=
  mkFetcher zero_hash 0 (mkBackoff 0 (Z.min (10 * second) interval) interval None) file [].
(** @go component/resource/fetcher.go:118-121 Fetcher.Update *)
Definition failed_attempt (f : Fetcher) : Fetcher := mkFetcher (f_hash f) (updatedAt f) (AddAttempt (backoff f)) (file f) (updates f).

(** Writing the file: done, or failed with what is there then. *)
Inductive Written := WriteOk | WriteFailed (there : option (list Z * Z)).
(** Contents, unless nothing is new, and whether that is so. *)
Definition LoadResult : Type := FetchErr + option V * bool.
(** @go component/resource/fetcher.go:129-167 Fetcher.loadBuf *)
Definition loadBuf (now : Z) (w : Written) (buf : option (list Z)) (hash : HashType) (updateFile : bool) (f : Fetcher) : LoadResult * Fetcher :=
  if decide (f_hash f = hash) then
    let file' := if updateFile then (fun x => (x.1, now)) <$> file f else file f in
    (inr (None, true), mkFetcher (f_hash f) now (bo_Reset (backoff f)) file' (updates f))
  else match buf with
  | None => (inr (None, true), f)
  | Some buf =>
      match parser buf with
      | None => (inl FetchParse, failed_attempt f)
      | Some contents =>
          let backoff' := bo_Reset (backoff f) in
          match (if updateFile then w else WriteOk) with
          | WriteFailed there => (inl FetchWrite, mkFetcher (f_hash f) (updatedAt f) backoff' there (updates f))
          | WriteOk => (inr (Some contents, false),
              mkFetcher hash now backoff' (if updateFile then Some (buf, now) else file f) (updates f ++ [contents]))
          end
      end
  end.

(** ** Vehicles *)

(** What a vehicle read: a buffer and its hash, or no buffer when nothing changed. *)
Definition ReadResult : Type := option (option (list Z) * HashType).
(** @go component/resource/vehicle.go:66-73 FileVehicle.Read *)
Definition file_Read (contents : option (list Z)) : ReadResult := (fun buf => (Some buf, MakeHash buf)) <$> contents.
(** The tag of the server that is remembered with the hash of the contents. *)
Record EtagWithHash := mkEtag { et_Hash : HashType; et_ETag : string }.
Definition noEtag : EtagWithHash := mkEtag zero_hash "".
(** Whether the request names the tag.
    @go component/resource/vehicle.go:125-138 HTTPVehicle.Read *)
Definition if_none_match (cached : EtagWithHash) (oldHash : HashType) : bool :=
  etag && negb (bool_decide (oldHash = zero_hash)) && bool_decide (oldHash = et_Hash cached) && negb (String.eqb (et_ETag cached) "").
(** No more is read than the limit lets through.
    @go component/resource/vehicle.go:156-160 HTTPVehicle.Read *)
Definition limited (body : list Z) : list Z := if 0 <? sizeLimit then take (Z.to_nat sizeLimit) body else body.
(** What comes back: nothing, or an answer with its status, its tag, and its body if that
    can be read. *)
Inductive Response := NoResponse | Answer (status : Z) (tag : string) (body : option (list Z)).
(** @go component/resource/vehicle.go:122-173 HTTPVehicle.Read *)
Definition http_Read (setIfNoneMatch : bool) (oldHash : HashType) (r : Response) (cached : EtagWithHash) : ReadResult * EtagWithHash :=
  match r with
  | NoResponse => (None, cached)
  | Answer status tag body =>
      if (status <? 200) || (299 <? status) then (if setIfNoneMatch && (status =? 304) then Some (None, oldHash) else None, cached)
      else match body with
           | None => (None, cached)
           | Some body =>
               let buf := limited body in
               (Some (Some buf, MakeHash buf), if etag then mkEtag (MakeHash buf) tag else cached)
           end
  end.
(** Reading when the request is answered; for a file, [NoResponse] is an error.
    @go component/resource/vehicle.go:66-73 FileVehicle.Read *)
Definition vehicle_Read (setIfNoneMatch : bool) (oldHash : HashType) (r : Response) (f : Fetcher) (cached : EtagWithHash) : ReadResult * EtagWithHash :=
  match vehicle with
  | VFile => (match r with NoResponse => None | Answer _ _ _ => file_Read (fst <$> file f) end, cached)
  | VHTTP => http_Read setIfNoneMatch oldHash r cached
  end.

(** ** Updates *)

(** @go component/resource/fetcher.go:116-123 Fetcher.Update *)
Definition update_with (now : Z) (w : Written) (r : ReadResult) (f : Fetcher) : LoadResult * Fetcher :=
  match r with
  | None => (inl FetchRead, failed_attempt f)
  | Some (buf, hash) => loadBuf now w buf hash (negb (bool_decide (vehicle = VFile))) f
  end.
(** @go component/resource/fetcher.go:116-123 Fetcher.Update *)
Definition Update (now : Z) (w : Written) (r : Response) (f : Fetcher) (cached : EtagWithHash) : LoadResult * Fetcher * EtagWithHash :=
  let '(r, cached) := vehicle_Read (if_none_match cached (f_hash f)) (f_hash f) r f cached in
  (update_with now w r f, cached).
(** @go component/resource/fetcher.go:125-127 Fetcher.SideUpdate *)
Definition SideUpdate (now : Z) (w : Written) (buf : list Z) (f : Fetcher) : LoadResult * Fetcher := loadBuf now w (Some buf) (MakeHash buf) true f.

(** Starting to pull or to watch; [Some force] is a loop that was started.
    @go component/resource/fetcher.go:217-238 Fetcher.startPullLoop *)
Definition startPullLoop (DisableFileWatch watcher_ok forceUpdate : bool) : option FetchErr * option bool :=
  match vehicle with
  | VFile => (if DisableFileWatch || watcher_ok then None else Some FetchWatch, None)
  | VHTTP => (None, if 0 <? interval then Some forceUpdate else None)
  end.
(** The surroundings of [Initial]: the clock, what a failing read of the file leaves in
    the buffer, what the bundle holds with its time, the outcome of both writes, the
    response, whether files are watched and can be. *)
Record InitialEnv := mkInitialEnv { e_now : Z; e_cut : option (option (list Z)); e_bundle : option (list Z * Z);
  e_written : Written; e_written' : Written; e_resp : Response; e_nowatch : bool; e_watcher : bool }.
Definition set_updatedAt (t : Z) (f : Fetcher) : Fetcher := mkFetcher (f_hash f) t (backoff f) (file f) (updates f).
(** Contents that were loaded from a file of that time, unless watching fails.
    @go component/resource/fetcher.go:64-70 Fetcher.Initial *)
Definition initial_done (e : InitialEnv) (modTime : Z) (contents : option V) : (FetchErr + option V) * option bool :=
  let '(err, pull) := startPullLoop (e_nowatch e) (e_watcher e) (interval <? since (e_now e) modTime) in
  (match err with Some err => inl err | None => inr contents end, pull).
(** @go component/resource/fetcher.go:99-114 Fetcher.Initial *)
Definition initial_remote (e : InitialEnv) (f : Fetcher) (cached : EtagWithHash) : (FetchErr + option V) * option bool * Fetcher * EtagWithHash :=
  let '(r, f, cached) := Update (e_now e) (e_written' e) (e_resp e) f cached in
  let '(err, pull) := startPullLoop (e_nowatch e) (e_watcher e) false in
  let r := match err, r with Some err, _ => inl err | None, inl err => inl err | None, inr (contents, _) => inr contents end in
  (r, pull, f, cached).
(** @go component/resource/fetcher.go:73-97 Fetcher.Initial *)
Definition initial_bundled (e : InitialEnv) (f : Fetcher) (cached : EtagWithHash) : (FetchErr + option V) * option bool * Fetcher * EtagWithHash :=
  match e_bundle e with
  | Some (buf, modTime) =>
      let '(r, f) := loadBuf (e_now e) (e_written e) (Some buf) (MakeHash buf) true f in
      let f := set_updatedAt modTime f in
      match r with
      | inr (contents, _) => (initial_done e modTime contents, f, cached)
      | inl _ => initial_remote e f cached
      end
  | None => initial_remote e f cached
  end.
(** The error of reading the file is overwritten.
    @go component/resource/fetcher.go:56-114 Fetcher.Initial *)
Definition Initial (e : InitialEnv) (f : Fetcher) (cached : EtagWithHash) : (FetchErr + option V) * option bool * Fetcher * EtagWithHash :=
  match file f with
  | None => initial_bundled e f cached
  | Some (buf, modTime) =>
      let buf := default (Some buf) (e_cut e) in
      let '(r, f) := loadBuf (e_now e) WriteOk buf (MakeHash (default [] buf)) false f in
      let f := set_updatedAt modTime f in
      match r with
      | inr (contents, _) => (initial_done e modTime contents, f, cached)
      | inl _ => initial_bundled e f cached
      end
  end.

(** The wait before the first pull and before a later one.
    @go component/resource/fetcher.go:187-191 Fetcher.pullLoop *)
Definition shortened (wait : Z) (f : Fetcher) : Z :=
  if 0 <? attempt (backoff f) then let duration := ForAttempt (backoff f) (attempt (backoff f)) in if duration <? wait then duration else wait else wait.
(** The fetcher as it is when the loop begins and after the forced update.
    @go component/resource/fetcher.go:177-194 Fetcher.pullLoop *)
Definition first_wait (now : Z) (f f' : Fetcher) : Z :=
  let initial := i64 (interval - since now (updatedAt f)) in shortened (if interval <? initial then interval else initial) f'.
(** @go component/resource/fetcher.go:197-205 Fetcher.pullLoop *)
Definition next_wait (f : Fetcher) : Z := shortened interval f.

(** ** Updates that overlap *)

(** An update that has sent its request, with the hash it knew, or that has its answer
    and not yet the lock. *)
Inductive pending := Asked (oldHash : HashType) (tagged : bool) | Got (r : ReadResult).
Record fetching := mkFetching { ft : Fetcher; tags : EtagWithHash; under_way : list pending }.
(** Whether reading and writing the file may fail. *)
Variable flaky : bool.
Definition may_write (w : Written) : Prop := w = WriteOk \/ flaky = true.
(** A request goes out; an answer comes; an update, or one from the side, has the lock;
    someone changes the file of a file vehicle; another provider of the same URL stores
    a tag.
    @go component/resource/fetcher.go:116-123 Fetcher.Update *)
Inductive fetch_step : fetching -> fetching -> Prop :=
  | fs_ask f c l : fetch_step (mkFetching f c l) (mkFetching f c (l ++ [Asked (f_hash f) (if_none_match c (f_hash f))]))
  | fs_answer f c l1 l2 oldHash tagged r :
      fetch_step (mkFetching f c (l1 ++ Asked oldHash tagged :: l2))
        (mkFetching f (vehicle_Read tagged oldHash r f c).2 (l1 ++ Got (vehicle_Read tagged oldHash r f c).1 :: l2))
  | fs_load f c l1 l2 r now w : may_write w ->
      fetch_step (mkFetching f c (l1 ++ Got r :: l2)) (mkFetching (update_with now w r f).2 c (l1 ++ l2))
  | fs_side f c l buf now w : may_write w -> fetch_step (mkFetching f c l) (mkFetching (SideUpdate now w buf f).2 c l)
  | fs_edit f c l file' : vehicle = VFile ->
      fetch_step (mkFetching f c l) (mkFetching (mkFetcher (f_hash f) (updatedAt f) (backoff f) file' (updates f)) c l)
  | fs_tags f c l c' : fetch_step (mkFetching f c l) (mkFetching f c' l).

(** ** What the theorems speak of *)

(** Different buffers are handed on from one update to the next. *)
Definition no_repeat (bufs : list (list Z)) : Prop := forall i b b', bufs !! i = Some b -> bufs !! S i = Some b' -> MakeHash b <> MakeHash b'.
(** What was handed on are the parsed buffers; the hash is that of the last one, which
    is in the file too. *)
Record handed_on (bufs : list (list Z)) (f : Fetcher) : Prop := {
  ho_parsed : Forall2 (fun b v => parser b = Some v) bufs (updates f);
  ho_hash : f_hash f = from_option MakeHash zero_hash (last bufs);
  ho_diff : no_repeat bufs;
  ho_file : vehicle = VHTTP -> flaky = false -> forall b, last bufs = Some b -> fst <$> file f = Some b }.
Definition pending_ok (p : pending) : Prop := match p with Got (Some (Some b, h)) => h = MakeHash b | _ => True end.
(** The file is read and written in [Initial] as it may be. *)
Definition initial_env_ok (e : InitialEnv) : Prop := (e_cut e = None \/ flaky = true) /\ may_write (e_written e) /\ may_write (e_written' e).
(** Servers give each content a tag of its own, or none. *)
Variable tag_of : list Z -> string.
Definition tag_ok (c : EtagWithHash) : Prop := et_ETag c <> EmptyString -> exists b, tag_of b = et_ETag c /\ et_Hash c = MakeHash (limited b).
(** A server that holds [cur] answers with it and its tag, and with 304 only when the
    tag it was asked about is that one. *)
Definition honest (c : EtagWithHash) (cur : list Z) (r : Response) : Prop :=
  match r with
  | NoResponse => True
  | Answer status tag body =>
      (200 <= status <= 299 -> tag = tag_of cur /\ forall b, body = Some b -> b = cur) /\ (status = 304 -> et_ETag c = tag_of cur)
  end.
(** Updates one after the other, from an honest server or the side. *)
Inductive pull_step : Fetcher * EtagWithHash -> Fetcher * EtagWithHash -> Prop :=
  | ps_pull f c now w cur r : may_write w -> honest c cur r ->
      pull_step (f, c) ((Update now w r f c).1.2, (Update now w r f c).2)
  | ps_side f c now w buf : may_write w -> pull_step (f, c) ((SideUpdate now w buf f).2, c)
  | ps_edit f c file' : vehicle = VFile -> pull_step (f, c) (mkFetcher (f_hash f) (updatedAt f) (backoff f) file' (updates f), c).
(** The answer gives contents, or says that the tag still holds. *)
Definition serves (c : EtagWithHash) (f : Fetcher) (r : Response) : Prop :=
  match r with
  | Answer status _ body => (200 <= status <= 299 /\ body <> None) \/ (vehicle = VHTTP /\ status = 304 /\ if_none_match c (f_hash f) = true)
  | NoResponse => False
  end.
(** What a vehicle reads when its source holds [cur]. *)
Definition read_of (cur : list Z) : list Z := match vehicle with VFile => cur | VHTTP => limited cur end.

(** ** Waiting *)

Lemma ForAttempt_doubles b n :
  Jitter b = None -> 0 < Min b < Max b -> Max b <= maxInt64f -> 0 <= n -> ForAttempt b n = Z.min (Max b) (Min b * 2 ^ n).
Proof.
  intros Hj Hm Hx Hn. unfold ForAttempt. rewrite Hj. assert (1 <= 2 ^ n) by (pose proof (Z.pow_pos_nonneg 2 n); lia).
  rewrite (proj2 (Z.leb_gt (Max b) 0)), (proj2 (Z.leb_gt (Min b) 0)), (proj2 (Z.leb_gt (Max b) (Min b))) by lia.
  destruct (Z.ltb_spec maxInt64f (Min b * 2 ^ n)); [lia|]. rewrite (proj2 (Z.ltb_ge _ _)) by nia.
  destruct (Z.ltb_spec (Max b) (Min b * 2 ^ n)); lia.
Qed.

(** After failures a fetcher waits less than its interval: ten seconds, doubled with
    each failure. *)
Lemma next_wait_backoff f n :
  backoff f = mkBackoff n (Z.min (10 * second) interval) interval None -> 0 < interval <= maxInt64f -> 0 <= n ->
  next_wait f = if n =? 0 then interval else Z.min interval (10 * second * 2 ^ n).
Proof.
  intros Hb Hi Hn. unfold next_wait, shortened. rewrite Hb. cbn [attempt].
  assert (1 <= 2 ^ n) by (pose proof (Z.pow_pos_nonneg 2 n); lia). unfold second in *. change (10 * 10 ^ 9) with 10000000000 in *.
  destruct (Z.eqb_spec n 0) as [->|]; [done|]. rewrite (proj2 (Z.ltb_lt _ _)) by lia.
  destruct (Z.le_gt_cases interval 10000000000) as [Hle|Hgt].
  - unfold ForAttempt. cbn [Min Max]. rewrite (Z.min_r _ _ Hle), (proj2 (Z.leb_gt interval 0)), (proj2 (Z.leb_le interval interval)) by lia.
    rewrite Z.ltb_irrefl. nia.
  - rewrite ForAttempt_doubles by (cbn [Jitter Min Max]; first [done | lia]). cbn [Min Max].
    rewrite (Z.min_l 10000000000 interval) by lia. destruct (Z.ltb_spec (Z.min interval (10000000000 * 2 ^ n)) interval); lia.
Qed.

(** ** The invariant *)

Lemma no_repeat_snoc bufs b :
  no_repeat bufs -> from_option MakeHash zero_hash (last bufs) <> MakeHash b -> no_repeat (bufs ++ [b]).
Proof.
  intros Hn Hl i x y Hx Hy. destruct (decide (S i < length bufs)%nat).
  - rewrite lookup_app_l in Hx, Hy by lia. by apply (Hn i).
  - apply lookup_lt_Some in Hy as Hlen. rewrite length_app in Hlen. cbn [length] in Hlen.
    rewrite lookup_app_r in Hy by lia. replace (S i - length bufs)%nat with 0%nat in Hy by lia. injection Hy as <-.
    rewrite lookup_app_l in Hx by lia. rewrite last_lookup in Hl. replace (pred (length bufs)) with i in Hl by lia. by rewrite Hx in Hl.
Qed.

Lemma handed_new file : handed_on [] (NewFetcher file).
Proof. by split; [constructor | | intros ? | ]. Qed.

(** What changes neither the hash, nor what was handed on, nor the file's contents. *)
Lemma handed_same bufs f f' :
  handed_on bufs f -> f_hash f' = f_hash f -> updates f' = updates f -> (vehicle = VHTTP -> flaky = false -> fst <$> file f' = fst <$> file f) ->
  handed_on bufs f'.
Proof.
  intros [Hp Hh Hd Hf] Eh Eu Ef. split; [by rewrite Eu | by rewrite Eh | done |].
  intros Hv Hfl b Hb. rewrite Ef by done. by apply Hf.
Qed.

(** The file holds the buffer once this is handed on. *)
Definition filed (buf : option (list Z)) (updateFile : bool) (f : Fetcher) : Prop :=
  vehicle = VHTTP -> flaky = false -> updateFile = true \/ fst <$> file f = buf.

Lemma loadBuf_handed bufs now w buf hash updateFile f :
  handed_on bufs f -> may_write w -> (forall b, buf = Some b -> hash = MakeHash b) -> filed buf updateFile f ->
  exists bufs', handed_on bufs' (loadBuf now w buf hash updateFile f).2.
Proof.
  intros H Hw Hh Hfile. unfold loadBuf. destruct (decide (f_hash f = hash)) as [_|Hne].
  { exists bufs. apply (handed_same bufs f); try done. intros _ _. destruct updateFile; cbn [file snd]; [|done]. by destruct (file f) as [[]|]. }
  destruct buf as [b|]; [|by exists bufs]. rewrite (Hh b eq_refl) in Hne |- *.
  destruct (parser b) as [v|] eqn:Ev; [|by exists bufs; apply (handed_same bufs f)].
  assert (Hnew : forall file', (vehicle = VHTTP -> flaky = false -> fst <$> file' = Some b) ->
    handed_on (bufs ++ [b]) (mkFetcher (MakeHash b) now (bo_Reset (backoff f)) file' (updates f ++ [v]))).
  { intros file' Hf'. destruct H as [Hp Hho Hd _]. split; cbn [f_hash updates file].
    - apply Forall2_app; [done|]. by repeat constructor.
    - by rewrite last_snoc.
    - apply no_repeat_snoc; [done|]. by rewrite <- Hho.
    - intros Hv Hfl b' Hb'. rewrite last_snoc in Hb'. injection Hb' as <-. by apply Hf'. }
  destruct updateFile; cbn [snd].
  - destruct w as [|there]; [by eexists; apply Hnew|]. exists bufs. apply (handed_same bufs f); try done. intros _ Hfl. by destruct Hw as [?|?]; [|congruence].
  - eexists. apply Hnew. intros Hv Hfl. by destruct (Hfile Hv Hfl).
Qed.

Lemma update_with_handed bufs now w r f :
  handed_on bufs f -> may_write w -> pending_ok (Got r) -> exists bufs', handed_on bufs' (update_with now w r f).2.
Proof.
  intros H Hw Hr. unfold update_with. destruct r as [[buf hash]|]; [|by exists bufs; apply (handed_same bufs f)].
  eapply loadBuf_handed; [exact H | done | |].
  - intros b ->. exact Hr.
  - intros -> _. by left.
Qed.

Lemma SideUpdate_handed bufs now w buf f : handed_on bufs f -> may_write w -> exists bufs', handed_on bufs' (SideUpdate now w buf f).2.
Proof. intros H Hw. eapply loadBuf_handed; [exact H | done | congruence |]. intros _ _. by left. Qed.

(** What is read comes with its hash. *)
Lemma vehicle_Read_ok tagged oldHash r f c : pending_ok (Got (vehicle_Read tagged oldHash r f c).1).
Proof.
  unfold vehicle_Read. destruct vehicle; cbn [fst].
  - destruct r; [done|]. unfold file_Read. by destruct (file f) as [[]|].
  - destruct r as [|status tag body]; [done|]. unfold http_Read. destruct (_ || _); [by destruct (_ && _)|]. by destruct body.
Qed.

Lemma Update_handed bufs now w r f c : handed_on bufs f -> may_write w -> exists bufs', handed_on bufs' (Update now w r f c).1.2.
Proof.
  intros H Hw. unfold Update. pose proof (vehicle_Read_ok (if_none_match c (f_hash f)) (f_hash f) r f c) as Hok.
  destruct (vehicle_Read _ _ _ _ _) as [res c']. cbn [fst snd] in *. by eapply update_with_handed.
Qed.

Lemma set_updatedAt_handed t bufs f : handed_on bufs f -> handed_on bufs (set_updatedAt t f).
Proof. intros H. by apply (handed_same bufs f). Qed.

Lemma initial_remote_handed bufs e f c :
  handed_on bufs f -> initial_env_ok e -> exists bufs', handed_on bufs' (initial_remote e f c).1.2.
Proof.
  intros H (_ & _ & Hw). unfold initial_remote. destruct (Update_handed bufs (e_now e) (e_written' e) (e_resp e) f c H Hw) as [bufs' H'].
  destruct (Update _ _ _ _ _) as [[res f'] c']. cbn [fst snd] in H'. destruct (startPullLoop _ _ _). cbn [fst snd]. by exists bufs'.
Qed.

Lemma initial_bundled_handed bufs e f c :
  handed_on bufs f -> initial_env_ok e -> exists bufs', handed_on bufs' (initial_bundled e f c).1.2.
Proof.
  intros H He. unfold initial_bundled. destruct (e_bundle e) as [[buf modTime]|]; [|by eapply initial_remote_handed].
  pose proof He as (_ & Hw & _).
  destruct (loadBuf_handed bufs (e_now e) (e_written e) (Some buf) (MakeHash buf) true f H Hw) as [bufs' H']; [congruence | by left |].
  destruct (loadBuf _ _ _ _ _ _) as [[err|[contents same]] f']; cbn [fst snd] in *.
  - eapply initial_remote_handed; [|done]. by apply set_updatedAt_handed.
  - exists bufs'. by apply set_updatedAt_handed.
Qed.

Lemma Initial_handed bufs e f c : handed_on bufs f -> initial_env_ok e -> exists bufs', handed_on bufs' (Initial e f c).1.2.
Proof.
  intros H He. unfold Initial. destruct (file f) as [[buf modTime]|] eqn:Ef; [|by eapply initial_bundled_handed].
  pose proof He as (Hcut & _).
  destruct (loadBuf_handed bufs (e_now e) WriteOk (default (Some buf) (e_cut e)) (MakeHash (default [] (default (Some buf) (e_cut e)))) false f H) as [bufs' H'].
  - by left.
  - by intros b ->.
  - intros _ Hfl. right. destruct Hcut as [->|?]; [|congruence]. by rewrite Ef.
  - destruct (loadBuf _ _ _ _ _ _) as [[err|[contents same]] f']; cbn [fst snd] in *.
    + eapply initial_bundled_handed; [|done]. by apply set_updatedAt_handed.
    + exists bufs'. by apply set_updatedAt_handed.
Qed.

Lemma fetch_step_handed s s' :
  fetch_step s s' -> (exists bufs, handed_on bufs (ft s)) /\ Forall pending_ok (under_way s) ->
  (exists bufs, handed_on bufs (ft s')) /\ Forall pending_ok (under_way s').
Proof.
  intros Hs [[bufs H] Hl]. destruct Hs as [f c l|f c l1 l2 oldHash tagged r|f c l1 l2 r now w Hw|f c l buf now w Hw|f c l file' Hv|f c l c']; cbn [ft under_way] in *.
  - split; [by exists bufs|]. apply Forall_app_2; [done|]. by constructor.
  - split; [by exists bufs|]. apply Forall_app in Hl as [Hl1 Hl2]. apply Forall_cons_1 in Hl2 as [_ Hl2].
    apply Forall_app_2; [done|]. constructor; [apply vehicle_Read_ok | done].
  - apply Forall_app in Hl as [Hl1 Hl2]. apply Forall_cons_1 in Hl2 as [Hr Hl2]. split; [by eapply update_with_handed | by apply Forall_app_2].
  - split; [by eapply SideUpdate_handed | done].
  - split; [|done]. exists bufs. apply (handed_same bufs f); try done. congruence.
  - split; [by exists bufs | done].
Qed.

(** C39: However updates overlap after the initial one, and whatever servers answer,
    what was handed on is what parsing a sequence of buffers gave, no two neighbours of
    which have the same hash; the hash kept is that of the last one, which a provider
    with a URL has in its file, unless reading or writing this failed. *)
Theorem fetcher_hands_on e file c r pull f c' s :
  initial_env_ok e -> Initial e (NewFetcher file) c = (r, pull, f, c') -> rtc fetch_step (mkFetching f c' []) s ->
  exists bufs, handed_on bufs (ft s).
Proof.
  intros He Ei Hs. destruct (Initial_handed [] e (NewFetcher file) c (handed_new file) He) as [bufs H]. rewrite Ei in H.
  cut ((exists bufs, handed_on bufs (ft s)) /\ Forall pending_ok (under_way s)); [tauto|].
  assert (Hi : (exists bufs, handed_on bufs (ft (mkFetching f c' []))) /\ Forall pending_ok (under_way (mkFetching f c' []))) by (split; [by exists bufs | constructor]).
  clear Ei H. revert Hi. induction Hs as [|s s1 s2 Hs _ IH]; [done|]. intros Hi. apply IH. by eapply fetch_step_handed.
Qed.

(** ** Updates one after the other *)

Lemma http_Read_tag tagged oldHash r c cur : tag_ok c -> honest c cur r -> tag_ok (http_Read tagged oldHash r c).2.
Proof.
  intros Hc Hr. destruct r as [|status tag body]; [done|]. unfold http_Read. destruct (_ || _) eqn:Es; [done|].
  destruct body as [body|]; [|done]. cbn [snd]. destruct etag; [|done]. intros _. cbn [et_ETag et_Hash].
  apply orb_false_iff in Es as [E1 E2]. apply Z.ltb_ge in E1, E2. destruct Hr as [Hr _].
  destruct Hr as [-> Hb]; [lia|]. exists cur. by rewrite (Hb body eq_refl).
Qed.

Lemma Update_tag now w r f c cur : tag_ok c -> honest c cur r -> tag_ok (Update now w r f c).2.
Proof.
  intros Hc Hr. unfold Update, vehicle_Read. destruct vehicle; [done|].
  pose proof (http_Read_tag (if_none_match c (f_hash f)) (f_hash f) r c cur Hc Hr). by destruct (http_Read _ _ _ _).
Qed.

Lemma Initial_tag e f c cur : tag_ok c -> honest c cur (e_resp e) -> tag_ok (Initial e f c).2.
Proof.
  intros Hc Hr.
  assert (Hrem : forall f, tag_ok (initial_remote e f c).2).
  { intros f0. unfold initial_remote. pose proof (Update_tag (e_now e) (e_written' e) _ f0 c cur Hc Hr). destruct (Update _ _ _ _ _) as [[] ?].
    by destruct (startPullLoop _ _ _). }
  assert (Hbun : forall f, tag_ok (initial_bundled e f c).2).
  { intros f0. unfold initial_bundled. destruct (e_bundle e) as [[]|]; [|apply Hrem]. destruct (loadBuf _ _ _ _ _ _) as [[|[]] ?]; [apply Hrem | done]. }
  unfold Initial. destruct (file f) as [[]|]; [|apply Hbun]. destruct (loadBuf _ _ _ _ _ _) as [[|[]] ?]; [apply Hbun | done].
Qed.

Lemma pull_step_handed x x' :
  pull_step x x' -> (exists bufs, handed_on bufs x.1) /\ tag_ok x.2 -> (exists bufs, handed_on bufs x'.1) /\ tag_ok x'.2.
Proof.
  intros Hs [[bufs H] Hc]. destruct Hs as [f c now w cur r Hw Hr|f c now w buf Hw|f c file' Hv]; cbn [fst snd] in *.
  - split; [by eapply Update_handed | by eapply Update_tag].
  - split; [by eapply SideUpdate_handed | done].
  - split; [|done]. exists bufs. apply (handed_same bufs f); try done. congruence.
Qed.

Lemma pulls_handed x x' :
  rtc pull_step x x' -> (exists bufs, handed_on bufs x.1) /\ tag_ok x.2 -> (exists bufs, handed_on bufs x'.1) /\ tag_ok x'.2.
Proof. induction 1 as [|x y z Hs _ IH]; [done|]. intros Hx. by apply IH, (pull_step_handed x). Qed.

(** A read that gives something gives the hash of what the source holds. *)
Definition reads_current (f : Fetcher) (cur : list Z) (res : ReadResult) : Prop :=
  match res with None => True | Some (buf, hash) => hash = MakeHash (read_of cur) /\ match buf with Some b => b = read_of cur | None => f_hash f = hash end end.
Lemma vehicle_Read_current f c cur r :
  (forall b, tag_of b = tag_of cur -> tag_of cur <> EmptyString -> b = cur) -> tag_ok c -> honest c cur r -> (vehicle = VFile -> fst <$> file f = Some cur) ->
  reads_current f cur (vehicle_Read (if_none_match c (f_hash f)) (f_hash f) r f c).1.
Proof.
  intros Hinj Hc Hr Hf. unfold reads_current, vehicle_Read, read_of. destruct vehicle; cbn [fst].
  { destruct r; [done|]. by rewrite Hf. }
  destruct r as [|status tag body]; [done|]. unfold http_Read. destruct (_ || _) eqn:Es.
  - destruct (if_none_match c (f_hash f)) eqn:Ei; [|done]. destruct (Z.eqb_spec status 304) as [->|]; [|done]. cbn [andb fst]. split; [|done].
    unfold if_none_match in Ei. rewrite !andb_true_iff in Ei. destruct Ei as [[[_ _] Eh%bool_decide_eq_true] Ee%negb_true_iff%String.eqb_neq].
    destruct (Hc Ee) as (b & Hb & Hh). destruct Hr as [_ Ht]. rewrite Eh, Hh. do 2 f_equal. rewrite <- (Ht eq_refl) in Hinj. by apply Hinj.
  - destruct body as [body|]; [|done]. cbn [fst]. apply orb_false_iff in Es as [E1 E2]. apply Z.ltb_ge in E1, E2.
    destruct Hr as [Hr _]. destruct Hr as [_ Hb]; [lia|]. by rewrite (Hb body eq_refl).
Qed.

Lemma update_with_current now w f cur res :
  reads_current f cur res ->
  match update_with now w res f with
  | (inl _, _) => True
  | (inr _, f') => f_hash f' = MakeHash (read_of cur) /\ attempt (backoff f') = 0
  end.
Proof.
  destruct res as [[buf hash]|]; [|done]. intros [-> Hb]. unfold update_with, loadBuf. destruct (decide _) as [E|Hne]; [by cbn|].
  destruct buf as [b|]; [|done]. destruct (parser b); [|done]. by destruct (negb _), w.
Qed.

(** Nothing but a failure to read, to parse or to write makes an update fail. *)
Lemma update_with_succeeds now f cur res :
  reads_current f cur res -> res <> None -> parser (read_of cur) <> None -> exists x, (update_with now WriteOk res f).1 = inr x.
Proof.
  destruct res as [[buf hash]|]; [|done]. intros [-> Hb] _ Hp. unfold update_with, loadBuf. destruct (decide _) as [E|Hne]; [by eexists|].
  destruct buf as [b|]; [|done]. subst b. destruct (parser _); [|done]. destruct (negb _); by eexists.
Qed.

(** Reading fails only for want of an answer. *)
Lemma vehicle_Read_serves f c cur r :
  (vehicle = VFile -> fst <$> file f = Some cur) -> serves c f r -> (vehicle_Read (if_none_match c (f_hash f)) (f_hash f) r f c).1 <> None.
Proof.
  intros Hf Hs. unfold vehicle_Read. destruct vehicle; cbn [fst].
  - destruct r; [done|]. by rewrite Hf.
  - destruct r as [|status tag body]; [done|]. unfold http_Read. destruct Hs as [[Hs Hb]|(_ & -> & ->)]; [|done].
    rewrite (proj2 (Z.ltb_ge status 200)), (proj2 (Z.ltb_ge 299 status)) by lia. by destruct body.
Qed.

(** C38: Updates one after the other: when one of them ends without an error, what was
    handed on last is what parsing a buffer gave that has the hash of the present
    contents of the source, cut at the limit, whether they came anew or the server said
    that nothing had changed; the file holds that buffer and the next update is an
    interval away.  An answer of the server, with contents that can be parsed and
    written, is enough for an update to end so. *)
Theorem pull_fresh e file0 c0 cur0 r0 pull f0 c1 f c now w cur r res f' c' :
  MakeHash (read_of cur) <> zero_hash -> (forall b, tag_of b = tag_of cur -> tag_of cur <> EmptyString -> b = cur) ->
  initial_env_ok e -> tag_ok c0 -> honest c0 cur0 (e_resp e) -> Initial e (NewFetcher file0) c0 = (r0, pull, f0, c1) ->
  rtc pull_step (f0, c1) (f, c) ->
  may_write w -> honest c cur r -> (vehicle = VFile -> fst <$> file f = Some cur) -> Update now w r f c = (res, f', c') ->
  (forall x, res = inr x ->
    exists b v, MakeHash b = MakeHash (read_of cur) /\ parser b = Some v /\ last (updates f') = Some v /\
      (vehicle = VHTTP -> flaky = false -> fst <$> file f' = Some b) /\ next_wait f' = interval) /\
  (serves c f r -> parser (read_of cur) <> None -> w = WriteOk -> exists x, res = inr x).
Proof.
  intros Hzero Htag He Hc0 Hr0 Ei Hs Hw Hr Hf Eu.
  pose proof (Initial_handed [] e (NewFetcher file0) c0 (handed_new file0) He) as H0.
  pose proof (Initial_tag e (NewFetcher file0) c0 cur0 Hc0 Hr0) as Ht0. rewrite Ei in H0, Ht0.
  destruct (pulls_handed _ _ Hs (conj H0 Ht0)) as [[bufs H] Hc]. cbn [fst snd] in H, Hc.
  pose proof (vehicle_Read_current f c cur r Htag Hc Hr Hf) as Hcur.
  pose proof (vehicle_Read_serves f c cur r Hf) as Hsv.
  destruct (Update_handed bufs now w r f c H Hw) as [bufs' H']. rewrite Eu in H'. cbn [fst snd] in H'.
  unfold Update in Eu. destruct (vehicle_Read _ _ _ _ _) as [rr c2]. injection Eu as Eu <-. cbn [fst] in Hcur, Hsv. split.
  - intros x ->. pose proof (update_with_current now w f cur rr Hcur) as Hu. rewrite Eu in Hu. destruct Hu as [Hh Ha].
    destruct H' as [Hp Hho _ Hfile]. rewrite Hh in Hho.
    destruct (last bufs') as [b|] eqn:El; [|by destruct Hzero].
    pose proof (Forall2_last _ _ _ Hp) as Hl. rewrite El in Hl. inversion Hl as [? v Hv Ex Ev|]. exists b, v. split_and!; [done | done | done | by intros; apply Hfile |].
    unfold next_wait, shortened. by rewrite Ha.
  - intros Hsrv Hpar ->. destruct (update_with_succeeds now f cur rr Hcur (Hsv Hsrv) Hpar) as [x Hx]. exists x. by rewrite Eu in Hx.
Qed.
End Fetcher.

(** ** On concrete inputs *)

#[local] Instance list_hash : HashLib := {| HashType := option (list Z); hash_eq := _; zero_hash := None; MakeHash := Some |}.
Definition demo_parser (b : list Z) : option (list Z) := match b with [] => None | _ => Some b end.
Definition demo_env (cut : option (option (list Z))) (w : Written) (r : Response) : InitialEnv := mkInitialEnv 50 cut None w w r false true.
Definition demo_tag (b : list Z) : string := match b with [1] => "one" | [2] => "two" | _ => "" end.
(** After the initial update with the contents [1]. *)
Definition demo_fetcher : Fetcher (V := list Z) := mkFetcher (Some [1]) 50 (mkBackoff 0 100 100 None) (Some ([1], 50)) [[1]].
Definition demo_tags : EtagWithHash := mkEtag (Some [1]) "one".

Example demo_initial :
  Initial demo_parser VHTTP 100 0 true (demo_env None WriteOk (Answer 200 "one" (Some [1]))) (NewFetcher 100 None) noEtag
  = (inr (Some [1]), Some false, demo_fetcher, demo_tags).
Proof. reflexivity. Qed.

(** Two updates overlap: the answer of the first is older and is loaded last. *)
Example older_contents_stay :
  exists s, rtc (fetch_step demo_parser VHTTP 0 true false) (mkFetching demo_fetcher demo_tags []) s /\
    under_way s = [] /\ updates (ft s) = [[1]; [3]; [2]] /\ file (ft s) = Some ([2], 70).
Proof.
  eexists. split.
  - eapply rtc_l; [apply fs_ask|]. eapply rtc_l; [apply (fs_answer _ _ _ _ _ _ _ [] [] _ _ (Answer 200 "two" (Some [2])))|].
    eapply rtc_l; [apply fs_ask|]. eapply rtc_l; [apply (fs_answer _ _ _ _ _ _ _ [Got _] [] _ _ (Answer 200 "" (Some [3])))|].
    eapply rtc_l; [apply (fs_load _ _ _ _ _ _ _ [Got _] [] _ 60 WriteOk); by left|].
    eapply rtc_l; [apply (fs_load _ _ _ _ _ _ _ [] [] _ 70 WriteOk); by left|]. apply rtc_refl.
  - by vm_compute.
Qed.

(** The file is there and cannot be read: a success without contents. *)
Example unreadable_file :
  let '(r, pull, f, _) := Initial demo_parser VHTTP 100 0 true (demo_env (Some None) WriteOk NoResponse) (NewFetcher 100 (Some ([1], 40))) noEtag in
  r = inr None /\ pull = Some false /\ updates f = [] /\ f_hash f = None.
Proof. by vm_compute. Qed.

(** Contents that were read and parsed are dropped when they cannot be written, and the
    next update is a whole interval away. *)
Example failed_write :
  let '(r, f, _) := Update demo_parser VHTTP 0 true 60 (WriteFailed None) (Answer 200 "two" (Some [2])) demo_fetcher demo_tags in
  r = inl FetchWrite /\ updates f = [[1]] /\ next_wait 100 f = 100.
Proof. by vm_compute. Qed.

(** A server that says that the tag still holds, and an answer cut at the limit. *)
Example tag_holds :
  let '(r, f, _) := Update demo_parser VHTTP 0 true 60 WriteOk (Answer 304 "" None) demo_fetcher demo_tags in
  r = inr (None, true) /\ f = mkFetcher (Some [1]) 60 (mkBackoff 0 100 100 None) (Some ([1], 60)) [[1]].
Proof. by vm_compute. Qed.
Example cut_at_limit :
  let '(r, _, _) := Update demo_parser VHTTP 2 true 60 WriteOk (Answer 200 "" (Some [7; 8; 9])) demo_fetcher demo_tags in r = inr (Some [7; 8], false).
Proof. by vm_compute. Qed.

Lemma fetcher_hands_on_witness :
  exists bufs, handed_on demo_parser VHTTP false bufs (update_with demo_parser VHTTP 60 WriteOk (Some (Some [2], MakeHash [2])) demo_fetcher).2.
Proof.
  apply (fetcher_hands_on demo_parser VHTTP 100 0 true false (demo_env None WriteOk (Answer 200 "one" (Some [1]))) None noEtag (inr (Some [1])) (Some false) demo_fetcher demo_tags
    (mkFetching _ (mkEtag (MakeHash [2]) "two") [])).
  - split_and!; by left.
  - reflexivity.
  - eapply rtc_l; [apply fs_ask|]. eapply rtc_l; [apply (fs_answer _ _ _ _ _ _ _ [] [] _ _ (Answer 200 "two" (Some [2])))|].
    eapply rtc_l; [apply (fs_load _ _ _ _ _ _ _ [] [] _ 60 WriteOk); by left|]. apply rtc_refl.
Defined.

Lemma pull_fresh_witness : exists b v : list Z, Some b = Some [2] /\ demo_parser b = Some v /\ v = [2].
Proof.
  destruct (pull_fresh demo_parser VHTTP 100 0 true false demo_tag (demo_env None WriteOk (Answer 200 "one" (Some [1]))) None noEtag [1]
    (inr (Some [1])) (Some false) demo_fetcher demo_tags demo_fetcher demo_tags 60 WriteOk [2] (Answer 200 "two" (Some [2]))
    (inr (Some [2], false)) (mkFetcher (MakeHash [2]) 60 (mkBackoff 0 100 100 None) (Some ([2], 60)) [[1]; [2]]) (mkEtag (MakeHash [2]) "two")) as [H _].
  - done.
  - intros b. unfold demo_tag. repeat case_match; naive_solver.
  - split_and!; by left.
  - by intros ?.
  - split; [|done]. intros _. split; [done|]. by intros b [= ->].
  - reflexivity.
  - apply rtc_refl.
  - by left.
  - split; [|done]. intros _. split; [done|]. by intros b [= ->].
  - done.
  - reflexivity.
  - destruct (H _ eq_refl) as (b & v & Hb & Hv & Hu & _). exists b, v. split_and!; [exact Hb | exact Hv | by injection Hu as <-].
Defined.
